(* ===== verification/_CoqProject ===== *)
-Q . S2P
Prelude.v
NetBuf.v
NetPool.v
Work.v
Aes.v
Cmac.v
Ccm.v
Adv.v
AdvView.v
MeshCrypto.v
NetState.v
NetIv.v
Net.v
TransState.v
TransTx.v
TransRx.v
Replay.v
TransWf.v
TransTxOk.v
TransRxOk.v
Reassembly.v
Transport.v
Access.v
Beacon.v
Friend.v
FriendOk.v
FriendPoll.v
Lpn.v
LpnOk.v
LpnLoss.v
Proxy.v
ProxyOk.v
PbAdv.v
Prov.v
Provisioner.v
PbTrans.v
ProvCrypto.v
ProvOk.v
PbFlow.v
ProvPair.v
ProvSession.v
CfgState.v
MsgRead.v
CfgModels.v
CfgSrv.v
CfgKeep.v
CfgWf.v
CfgOk.v
CfgSafe.v
CfgServer.v
CfgProps.v
CfgSubs.v
Main.v
Life.v
CfgCli.v
CfgPair.v
HealthSrv.v
HealthCli.v
