(* ===== verification/Prelude.v ===== *)
(** * Verification of the Genie Bluetooth Mesh stack

    The development models the protocol stack of
    [src/network/bluetooth/bt_mesh/src] with the parts of [bt_common] it runs on
    (buffers, buffer pools, delayed work, AES and CMAC of tinycrypt), and proves
    what makes each part correct.

    ** The program

    A node receives advertising data ([adv.c]), which carries network PDUs,
    beacons and provisioning PDUs. [net.c] decrypts a PDU with the keys of its
    subnets and hands it to [transport.c], which checks for replays, reassembles
    and decrypts messages, and passes access messages to [access.c] and control
    messages to the Friend ([friend.c]) and Low Power features. Sending goes the
    other way. [beacon.c] keeps the IV index and the keys of a subnet in step;
    [crypto.c] is the security toolbox of all of them; [prov.c] and
    [provisioner_prov.c] bring a device into the network. Timers are delayed
    work ([work.c]), PDUs wait in reference-counted buffers ([buf.c]) for the
    advertising thread. [lpn.c] is a Low Power node, [proxy.c] carries network PDUs
    over GATT. [cfg_srv.c] lets a remote [cfg_cli.c] configure the node: its keys,
    the bindings, publications and subscriptions of its models, its features;
    [health_srv.c] and [health_cli.c] report faults; [main.c] starts, provisions
    and resets the node.

    ** Conventions

    - A byte is a [Z] from 0 to 255, a C integer of w bits a [Z] whose wrap-around
      is written out ([u8], [u16], [u24], [u32]); bit fields are as wide as in C.
    - A pure function that can fail has a result in [res]: a value, a negative
      [errno], or [Undef] for undefined behaviour (an access outside an object, a
      failed length assertion, a null pointer).
    - Stateful code is a computation of the monad [stm] of this file: explicit
      state, a list of events (calls to other parts, timers), and [None] for
      undefined behaviour. [stm_wp] and [stm_ok] are total correctness, [stm_par]
      partial correctness, [stm_keeps] and [stm_emits] preservation and the
      events; [wp_steps], [par_steps] apply their rules.
    - Build options are the classes [MeshConfig], [FriendConfig], [ProvConfig]; what a part
      asks of parts outside it are the classes [SecHal], [NetEnv], [TransEnv],
      [AccEnv], [BeaconEnv], [FriendEnv], [LpnEnv], [ProxyEnv], [ProvEnv], [CfgEnv],
      [CliEnv], [MainEnv], [HealthEnv], [HealthCliEnv], with the laws a theorem
      needs in [SecHalOk], [TransEnvOk], [HandlersOk], [HandlersPlain], [ModelsOk],
      [ProvEnvOk], [CfgLaws], [HealthLaws].
    - One function call is atomic. Interleavings of calls, timers, callbacks and
      the advertising thread are sequences of operations ([trans_op],
      [friend_op], [work_op], [pool_op], [dev_op], [cfg_op]), and invariants hold over all of them.
      The advertising thread takes a buffer and starts it in one step. Log
      output and assertions that are compiled out are not modelled.

    ** Files, and what their theorems show

    - [Prelude]: record update, [res], [stm] and their rules, machine integers,
      lemmas on lists.
    - [NetBuf] (bt_common/buf.c, net/buf.h, misc/byteorder.h): buffers in their
      storage refine a pair of headroom and contents (C1).
    - [NetPool] (buf.c, queue.c): a pool refines a vector of reference counts
      (C34).
    - [Work] (work.c, event_scheduler.c): delayed work refines a set of timers,
      as long as the 32-bit clock does not wrap (C35).
    - [Aes] (aes_encrypt.c), [Cmac] (cmac_mode.c, mesh_hal_sec.c), [Ccm] and
      [MeshCrypto] (crypto.c, mesh_crypto.h): the primitives equal FIPS-197, RFC
      4493, RFC 3610 and the Mesh Profile, given as reference definitions in the
      Modules [Fips197], [Rfc4493], [Rfc3610], [MeshSpec], but for the arguments
      on which the code goes wrong: 1 to 14 bytes of additional data or an empty
      message in CCM (C4, C5), pieces that complete a block in CMAC (C3);
      encryption round trips; nonces are injective (C2 to C6, C10).
    - [NetState], [NetIv], [Net] (net.c): the caches, key refresh, the IV update
      procedure (C15); network PDUs round trip, positions only grow so that
      nonces are never reused, decoding is safe and authentic, relaying (C16 to
      C19).
    - [TransState], [TransTx], [TransRx] (transport.c): the definitions;
      [Replay]: replay protection over any history and where it ends (C20);
      [TransWf], [TransTxOk], [TransRxOk], [Transport]: the invariant of the
      contexts, safety of every sequence of operations, with a friend queue that
      may take what is sent, acknowledgements (C23); [Reassembly]: segmentation
      composed with reassembly delivers the message once when the segments yield
      one SeqAuth (C22).
    - [Access] (access.c): opcodes, dispatch to the models, publication (C28 to
      C30).
    - [Beacon] (beacon.c): what a beacon of one node does at another that knows
      the key, and that only authentic beacons have an effect (C31, C32).
    - [Adv] (adv.c): the advertising bearer and the parser of received data (C37).
    - [Friend] (friend.c): the definitions; [FriendOk]: the count of references
      of every buffer is the number of its holders over any interleaving with the
      advertising thread, but for the one leak of an offer, and when an allocation
      returns (C38, C40); [FriendPoll]: polling delivers the queue over a lossy
      link (C39).
    - [Lpn] (lpn.c): the definitions; [LpnOk]: a Low Power node never gets stuck
      (C26); [LpnLoss]: what it does when its Friend falls silent (C12).
    - [Proxy] (proxy.c): the definitions; [ProxyOk]: segmentation, the filter, and
      the end of the search for something to advertise (C8, C11, C24).
    - [CfgState] (cfg_srv.h, foundation.h): the state of a node and its messages;
      [CfgModels], [CfgSrv] (cfg_srv.c): keys and models, then the rest of the
      server with its table; [CfgWf], [CfgOk], [CfgSafe], [CfgServer]: the invariant
      and every operation of the server on it (C9); [CfgProps]: messages
      answered with a failure change nothing (with two exceptions), heartbeats,
      runs that go wrong (C33, C7); [CfgSubs]: subscriptions are bounded sets, one
      per model or, in the build with CONFIG_ALI_SIMPLE_MODLE, one shared by an
      element (C13).
    - [Main] (main.c): start, provisioning; [CfgKeep], [Life]: a node from power-on
      through any number of lives (C14).
    - [CfgCli] (cfg_cli.c): the Configuration Client; [MsgRead]: reading what was
      written; [CfgPair]: for the requests on application keys, bindings and
      subscriptions and four of the states, client and server together do what the
      client asked for; and where the messages of others do not fit (C25).
    - [HealthSrv] (health_srv.c), [HealthCli] (health_cli.c): the Health models, that
      the server is safe, and the two together.
    - [AdvView]: who owns the advertising buffers and what waits to be sent, for
      the users of [Adv]. [PbAdv] (what prov.c and provisioner_prov.c share),
      [Prov] (prov.c), [Provisioner] (provisioner_prov.c): the definitions;
      [PbTrans]: a message sent in segments arrives whole and once (C21);
      [ProvCrypto]: the derivations on well-formed inputs; [ProvOk]: no sequence
      of PDUs, timers and callbacks makes a device undefined (C27); [PbFlow]: the
      protocol without the buffers; [ProvPair]: each handler of either side on
      it; [ProvSession]: the two sides together carry out the whole protocol
      (C36).

    ** Bounds and fuel

    - [friend_buf_alloc] is called with fuel 2: C40 shows that this is enough
      whenever the C loop ends at all, and that otherwise it does not end for any
      fuel. Fuel that runs out counts as undefined behaviour.
    - [scan_ads] has the length of the data as fuel; every iteration consumes two
      bytes. The bit searches of transport.c have 32, the width of the word.
      [cmac_blocks] has the length of the message.
    - [gatt_proxy_advertise] calls itself for the next subnet: its fuel is the number
      of subnets plus 2, which C24 shows to be enough. The loop that cuts a proxy
      message has the length of the message, each turn takes at least one byte.
    - [hb_run], the heartbeat timer until nothing starts it again, is undefined when
      its fuel does not suffice; C7 gives the number of expiries.
    - The other recursions follow a list or the size of an array.

    ** Not modelled

    Network buffer fragments (unused); the work queue of [bt_mesh_net_local];
    [friend_decrypt], which nothing calls; creating the threads and the
    connectable advertising inside the advertising thread; the HAL towards the
    Bluetooth host and the operating system; the "ultra" provisioning of prov.c;
    CONFIG_BT_MESH_MULTIADV and CONFIG_GENIE_OTA of proxy.c with its attribute
    tables; main.c in the build of a provisioner. The genie application and its
    models (genie_app) run on top of the access layer: the calls the stack makes of
    them are events, and what they change in the stack's own state
    ([genie_sub_list_init], [genie_mesh_setup], [genie_heartbeat_set],
    [genie_appkey_register]) is modelled. The shell, the host stack, the kernel and
    the platform code are out of scope: they carry no logic of the mesh protocol. *)

From stdpp Require Export prelude list list_numbers numbers.
From Stdlib Require Export ZArith Lia.

#[global] Open Scope Z_scope.
#[export] Set Default Goal Selector "!".

(** ** Record update

    C assigns one field of a structure at a time; [r <| f := v |>] is the
    structure [r] with the field [f] overwritten.  A record becomes updatable
    by declaring its eta expansion as an instance of [Settable]. *)

Class Settable (R : Type) := {
  eta_expand : R -> R;
  eta_expand_ok : forall r, eta_expand r = r
}.

Class Setter {R T : Type} (proj : R -> T) := update_field : (T -> T) -> R -> R.

Ltac derive_setter :=
  lazymatch goal with
  | |- @Setter ?R ?T ?proj =>
      let f := fresh "f" in
      let r := fresh "r" in
      intros f r;
      let k := eval hnf in (eta_expand r) in
      let g := eval pattern (proj r) in k in
      lazymatch g with
      | ?h _ => let v := eval cbv beta in (h (f (proj r))) in exact v
      end
  end.

#[export] Hint Extern 0 (Setter _) => derive_setter : typeclass_instances.

Declare Scope record_scope.
Notation "r '<|' p ':=' v '|>'" := (update_field (proj := p) (fun _ => v) r)
  (at level 1, left associativity, p constr at level 11, v at level 200,
   format "r  '<|' p  ':='  v '|>'") : record_scope.
#[global] Open Scope record_scope.

(** [settable mk] proves the eta law of an instance of [Settable]. *)
Ltac settable e := refine {| eta_expand := e |}; by intros [].

(** Computes the field updates of a goal. *)
Ltac record_simpl := unfold update_field; cbn.

(** ** Results of C functions

    A C function that returns [0] or a negative [errno] value is a computation
    with three outcomes: it succeeds, it returns an error, or it runs into
    behaviour the C standard leaves undefined (an access outside an object, a
    read of an uninitialised object). *)

Inductive res (A : Type) : Type :=
| Ok (a : A)
| Err (e : Z)
| Undef.
Arguments Ok {A} a.
Arguments Err {A} e.
Arguments Undef {A}.

Definition res_bind {A B} (m : res A) (f : A -> res B) : res B :=
  match m with
  | Ok a => f a
  | Err e => Err e
  | Undef => Undef
  end.

#[export] Instance res_mret : MRet res := @Ok.
#[export] Instance res_mbind : MBind res := fun A B f m => res_bind m f.

#[export] Instance Ok_inj {A} : Inj (=) (=) (@Ok A).
Proof. by intros ?? [=]. Qed.

#[export] Instance res_eq_dec {A} `{EqDecision A} : EqDecision (res A).
Proof. solve_decision. Defined.

(** An access to an array element: out of range is undefined. *)
Definition of_option {A} (o : option A) : res A :=
  match o with Some a => Ok a | None => Undef end.

Lemma res_bind_Ok_inv {A B} (m : res A) (f : A -> res B) b :
  m ≫= f = Ok b -> exists a, m = Ok a /\ f a = Ok b.
Proof. destruct m; simpl; intros H; try discriminate. eauto. Qed.

(** Computes the binds of successful calls. *)
Ltac ok_simpl := cbn [mbind res_mbind res_bind].

(** Case analysis on the outcome a goal tests first. *)
Ltac case_res :=
  lazymatch goal with
  | |- context [match ?x with Ok _ => _ | Err _ => _ | Undef => _ end] =>
      destruct x
  end.

(** Case analysis on the condition a goal tests first. *)
Ltac case_if :=
  lazymatch goal with
  | |- context [if ?b then _ else _] => destruct b eqn:?
  end.

(** ** Computations with state and effects

    A function of the source that reads and writes the state [St] of a
    component, and tells other components things through calls modelled as
    events [Ev]. [None] is behaviour the C standard leaves undefined. *)

Definition stm (St Ev A : Type) : Type := St -> option (A * St * list Ev).

#[export] Instance stm_mret {St Ev} : MRet (stm St Ev) := fun A a s => Some (a, s, []).
Definition stm_bind {St Ev A B} (m : stm St Ev A) (f : A -> stm St Ev B) : stm St Ev B :=
  fun s =>
    match m s with
    | Some (a, s, e1) =>
        match f a s with
        | Some (b, s, e2) => Some (b, s, e1 ++ e2)
        | None => None
        end
    | None => None
    end.

Definition stm_get {St Ev} : stm St Ev St := fun s => Some (s, s, []).
Definition stm_modify {St Ev} (f : St -> St) : stm St Ev unit := fun s => Some (tt, f s, []).
Definition stm_emit {St Ev} (e : list Ev) : stm St Ev unit := fun s => Some (tt, s, e).
Definition stm_undef {St Ev A} : stm St Ev A := fun _ => None.
(** A function that changes the state as a plain function does. *)
Definition stm_step {St Ev A} (f : St -> A * St) : stm St Ev A :=
  fun s => let '(a, s) := f s in Some (a, s, []).
Definition stm_of_option {St Ev A} (o : option A) : stm St Ev A :=
  match o with Some a => mret a | None => stm_undef end.

Notation "x <- m ;; k" := (stm_bind m (fun x => k))
  (at level 100, m at next level, k at level 200, right associativity).
Notation "m ;; k" := (stm_bind m (fun _ => k)) (at level 100, k at level 200, right associativity).

(** A first step without events. *)
Lemma stm_bind_pure {St Ev A B} (m : stm St Ev A) (f : A -> stm St Ev B) s a s' :
  m s = Some (a, s', []) -> stm_bind m f s = f a s'.
Proof. unfold stm_bind. intros ->. by destruct (f a s') as [[[b s2] e]|]. Qed.

Lemma stm_bind_emit {St Ev A} (e : list Ev) (f : unit -> stm St Ev A) s :
  stm_bind (stm_emit e) f s =
  match f tt s with Some (b, s', e') => Some (b, s', e ++ e') | None => None end.
Proof. done. Qed.

Lemma stm_bind_assoc {St Ev A B C} (m : stm St Ev A) (f : A -> stm St Ev B)
    (g : B -> stm St Ev C) s :
  stm_bind (stm_bind m f) g s = stm_bind m (fun a => stm_bind (f a) g) s.
Proof.
  unfold stm_bind. destruct (m s) as [[[a s1] e1]|]; [|done].
  destruct (f a s1) as [[[b s2] e2]|]; [|done].
  destruct (g b s2) as [[[c s3] e3]|]; [|done]. by rewrite app_assoc.
Qed.

Lemma stm_bind_tt {St Ev} (m : stm St Ev unit) s : stm_bind m (fun _ => mret tt) s = m s.
Proof. unfold stm_bind. destruct (m s) as [[[[] s1] e]|]; [|done]. cbn. by rewrite app_nil_r. Qed.

(** *** What a computation guarantees

    [stm_wp m Q s]: run from [s], [m] is defined and its result, the state it
    leaves and its events satisfy [Q]. *)

Definition stm_wp {St Ev A} (m : stm St Ev A) (Q : A -> St -> list Ev -> Prop) (s : St) : Prop :=
  match m s with
  | Some (a, s', e) => Q a s' e
  | None => False
  end.

Section wp.
Context {St Ev A B : Type}.
Implicit Types (s : St) (e : list Ev).

Lemma wp_ret (a : A) Q s : Q a s [] -> stm_wp (mret (M := stm St Ev) a) Q s.
Proof. done. Qed.

Lemma wp_bind (m : stm St Ev A) (f : A -> stm St Ev B) Q s :
  stm_wp m (fun a s1 e1 => stm_wp (f a) (fun b s2 e2 => Q b s2 (e1 ++ e2)) s1) s ->
  stm_wp (stm_bind m f) Q s.
Proof.
  unfold stm_wp, stm_bind. destruct (m s) as [[[a s1] e1]|]; [|done].
  by destruct (f a s1) as [[[b s2] e2]|].
Qed.

Lemma wp_mono (m : stm St Ev A) (P Q : A -> St -> list Ev -> Prop) s :
  stm_wp m P s -> (forall a s' e, P a s' e -> Q a s' e) -> stm_wp m Q s.
Proof. unfold stm_wp. destruct (m s) as [[[a s'] e]|]; auto. Qed.

(** A lemma about a part of a computation, applied in front of the rest. *)
Lemma wp_call (m : stm St Ev A) (f : A -> stm St Ev B) P Q s :
  stm_wp m P s ->
  (forall a s1 e1, P a s1 e1 -> stm_wp (f a) (fun b s2 e2 => Q b s2 (e1 ++ e2)) s1) ->
  stm_wp (stm_bind m f) Q s.
Proof. intros H Hf. apply wp_bind. by eapply wp_mono. Qed.

Lemma wp_inv (m : stm St Ev A) Q s : stm_wp m Q s -> exists a s' e, m s = Some (a, s', e) /\ Q a s' e.
Proof. unfold stm_wp. destruct (m s) as [[[a s'] e]|]; [eauto|done]. Qed.

Lemma wp_get (Q : St -> St -> list Ev -> Prop) s : Q s s [] -> stm_wp stm_get Q s.
Proof. done. Qed.
Lemma wp_modify f (Q : unit -> St -> list Ev -> Prop) s : Q tt (f s) [] -> stm_wp (stm_modify f) Q s.
Proof. done. Qed.
Lemma wp_emit e (Q : unit -> St -> list Ev -> Prop) s : Q tt s e -> stm_wp (stm_emit e) Q s.
Proof. done. Qed.
Lemma wp_of_option (o : option A) a Q s : o = Some a -> Q a s [] -> stm_wp (St := St) (Ev := Ev) (stm_of_option o) Q s.
Proof. by intros ->. Qed.
End wp.

(** Runs the primitive steps in front of a computation. *)
Ltac wp_step :=
  lazymatch goal with
  | |- stm_wp (stm_bind _ _) _ _ => apply wp_bind
  | |- stm_wp (mret _) _ _ => apply wp_ret
  | |- stm_wp stm_get _ _ => apply wp_get
  | |- stm_wp (stm_modify _) _ _ => apply wp_modify
  | |- stm_wp (stm_emit _) _ _ => apply wp_emit
  end.
Ltac wp_steps := repeat (wp_step; cbv beta).

(** [stm_ok m Q s] is [stm_wp] for conditions that do not mention events. *)
Definition stm_ok {St Ev A} (m : stm St Ev A) (Q : A -> St -> Prop) (s : St) : Prop :=
  stm_wp m (fun a s' _ => Q a s') s.

Section ok.
Context {St Ev A B : Type}.

Lemma ok_inv (m : stm St Ev A) (Q : A -> St -> Prop) s : stm_ok m Q s -> exists a s' e, m s = Some (a, s', e) /\ Q a s'.
Proof. apply wp_inv. Qed.
Lemma ok_ret (a : A) Q (s : St) : Q a s -> stm_ok (mret (M := stm St Ev) a) Q s.
Proof. done. Qed.
Lemma ok_mono (m : stm St Ev A) (P Q : A -> St -> Prop) s :
  stm_ok m P s -> (forall a s', P a s' -> Q a s') -> stm_ok m Q s.
Proof. intros H HPQ. unfold stm_ok. eapply wp_mono; [exact H|]. cbn. auto. Qed.
Lemma ok_bind (m : stm St Ev A) (f : A -> stm St Ev B) Q s :
  stm_ok m (fun a s1 => stm_ok (f a) Q s1) s -> stm_ok (stm_bind m f) Q s.
Proof. exact (wp_bind m f (fun b s2 _ => Q b s2) s). Qed.
Lemma ok_call (m : stm St Ev A) (f : A -> stm St Ev B) P Q s :
  stm_ok m P s -> (forall a s1, P a s1 -> stm_ok (f a) Q s1) -> stm_ok (stm_bind m f) Q s.
Proof. intros H Hf. apply ok_bind. by eapply ok_mono. Qed.
Lemma ok_get (Q : St -> St -> Prop) s : Q s s -> stm_ok (Ev := Ev) stm_get Q s.
Proof. done. Qed.
Lemma ok_modify f (Q : unit -> St -> Prop) s : Q tt (f s) -> stm_ok (Ev := Ev) (stm_modify f) Q s.
Proof. done. Qed.
Lemma ok_emit (e : list Ev) (Q : unit -> St -> Prop) s : Q tt s -> stm_ok (stm_emit e) Q s.
Proof. done. Qed.
Lemma ok_of_option (o : option A) a (Q : A -> St -> Prop) s :
  o = Some a -> Q a s -> stm_ok (Ev := Ev) (stm_of_option o) Q s.
Proof. by intros ->. Qed.
Lemma wp_ok (m : stm St Ev A) (Q : A -> St -> Prop) s :
  stm_ok m Q s -> stm_wp m (fun a s' _ => Q a s') s.
Proof. done. Qed.
End ok.

Ltac ok_step :=
  lazymatch goal with
  | |- stm_ok (stm_bind _ _) _ _ => apply ok_bind
  | |- stm_ok (mret _) _ _ => apply ok_ret
  | |- stm_ok stm_get _ _ => apply ok_get
  | |- stm_ok (stm_modify _) _ _ => apply ok_modify
  | |- stm_ok (stm_emit _) _ _ => apply ok_emit
  end.
Ltac ok_steps := repeat (ok_step; cbv beta).

(** [stm_par m Q s]: if [m] is defined from [s], its result and the state it
    leaves satisfy [Q]. *)
Definition stm_par {St Ev A} (m : stm St Ev A) (Q : A -> St -> Prop) (s : St) : Prop :=
  match m s with Some (a, s', _) => Q a s' | None => True end.

Section par.
Context {St Ev A B : Type}.

Lemma par_ret (a : A) Q (s : St) : Q a s -> stm_par (mret (M := stm St Ev) a) Q s.
Proof. done. Qed.
Lemma par_mono (m : stm St Ev A) (P Q : A -> St -> Prop) s :
  stm_par m P s -> (forall a s', P a s' -> Q a s') -> stm_par m Q s.
Proof. unfold stm_par. destruct (m s) as [[[a s'] e]|]; auto. Qed.
Lemma par_bind (m : stm St Ev A) (f : A -> stm St Ev B) Q s :
  stm_par m (fun a s1 => stm_par (f a) Q s1) s -> stm_par (stm_bind m f) Q s.
Proof.
  unfold stm_par, stm_bind. destruct (m s) as [[[a s1] e1]|]; [|done].
  by destruct (f a s1) as [[[b s2] e2]|].
Qed.
Lemma par_call (m : stm St Ev A) (f : A -> stm St Ev B) P Q s :
  stm_par m P s -> (forall a s1, P a s1 -> stm_par (f a) Q s1) -> stm_par (stm_bind m f) Q s.
Proof. intros H Hf. apply par_bind. by eapply par_mono. Qed.
Lemma par_get (Q : St -> St -> Prop) s : Q s s -> stm_par (Ev := Ev) stm_get Q s.
Proof. done. Qed.
Lemma par_modify f (Q : unit -> St -> Prop) s : Q tt (f s) -> stm_par (Ev := Ev) (stm_modify f) Q s.
Proof. done. Qed.
Lemma par_emit (e : list Ev) (Q : unit -> St -> Prop) s : Q tt s -> stm_par (stm_emit e) Q s.
Proof. done. Qed.
Lemma par_undef (Q : A -> St -> Prop) s : stm_par (Ev := Ev) stm_undef Q s.
Proof. done. Qed.
Lemma par_of_option (o : option A) (Q : A -> St -> Prop) s :
  (forall a, o = Some a -> Q a s) -> stm_par (Ev := Ev) (stm_of_option o) Q s.
Proof. destruct o; [intros H; by apply H|done]. Qed.
Lemma par_run (m : stm St Ev A) (Q : A -> St -> Prop) s a s' e :
  stm_par m Q s -> m s = Some (a, s', e) -> Q a s'.
Proof. intros H E. unfold stm_par in H. by rewrite E in H. Qed.
End par.

Ltac par_step :=
  lazymatch goal with
  | |- stm_par (stm_bind _ _) _ _ => apply par_bind
  | |- stm_par (mret _) _ _ => apply par_ret
  | |- stm_par stm_get _ _ => apply par_get
  | |- stm_par (stm_modify _) _ _ => apply par_modify
  | |- stm_par (stm_emit _) _ _ => apply par_emit
  | |- stm_par stm_undef _ _ => apply par_undef
  end.
Ltac par_steps := repeat (par_step; cbv beta).

(** Every outcome of the computation is related to its start by [R]. *)
Definition stm_keeps {St Ev A} (R : St -> St -> Prop) (m : stm St Ev A) : Prop :=
  forall s a s' e, m s = Some (a, s', e) -> R s s'.

Section keeps.
Context {St Ev : Type} (R : St -> St -> Prop) `{!PreOrder R}.

Lemma keeps_ret {A} (a : A) : stm_keeps (Ev := Ev) R (mret a).
Proof. intros s b s' e [= _ <- _]. done. Qed.
Lemma keeps_emit (e : list Ev) : stm_keeps R (stm_emit e).
Proof. intros s b s' e' [= _ <- _]. done. Qed.
Lemma keeps_get : stm_keeps (Ev := Ev) R stm_get.
Proof. intros s b s' e' [= _ <- _]. done. Qed.
Lemma keeps_modify f : (forall s, R s (f s)) -> stm_keeps (Ev := Ev) R (stm_modify f).
Proof. intros Hf s b s' e' [= _ <- _]. done. Qed.
Lemma keeps_of_option {A} (o : option A) : stm_keeps (Ev := Ev) R (stm_of_option o).
Proof. destruct o; [apply keeps_ret|by intros ????]. Qed.
Lemma keeps_undef {A} : stm_keeps (Ev := Ev) (A := A) R stm_undef.
Proof. by intros ????. Qed.
Lemma keeps_bind {A B} (m : stm St Ev A) (f : A -> stm St Ev B) :
  stm_keeps R m -> (forall a, stm_keeps R (f a)) -> stm_keeps R (stm_bind m f).
Proof.
  intros Hm Hf s b s' e. unfold stm_bind. destruct (m s) as [[[a s1] e1]|] eqn:H1; [|done].
  destruct (f a s1) as [[[b' s2] e2]|] eqn:H2; [|done]. intros [= _ <- _].
  etrans; [by eapply Hm|by eapply Hf].
Qed.
(** With the state the continuation starts from. *)
Lemma keeps_get_bind {B} (f : St -> stm St Ev B) :
  (forall s a s' e, f s s = Some (a, s', e) -> R s s') -> stm_keeps R (stm_bind stm_get f).
Proof. intros Hf s b s' e. rewrite (stm_bind_pure _ _ s s s) by done. apply Hf. Qed.
End keeps.

Ltac keeps_step :=
  lazymatch goal with
  | |- stm_keeps _ (stm_bind _ _) => apply keeps_bind; [apply _| |intros ?]
  | |- stm_keeps _ (mret _) => apply keeps_ret; apply _
  | |- stm_keeps _ (stm_emit _) => apply keeps_emit; apply _
  | |- stm_keeps _ stm_get => apply keeps_get; apply _
  | |- stm_keeps _ (stm_of_option _) => apply keeps_of_option; apply _
  | |- stm_keeps _ stm_undef => apply keeps_undef
  | |- stm_keeps _ (if ?b then _ else _) => destruct b
  | |- stm_keeps _ (match ?x with _ => _ end) => destruct x
  | |- stm_keeps _ (let _ := _ in _) => cbv zeta
  end.
Ltac keeps_steps := repeat keeps_step.

(** All events of the computation satisfy [P]. *)
Definition stm_emits {St Ev A} (P : Ev -> Prop) (m : stm St Ev A) : Prop :=
  forall s a s' e, m s = Some (a, s', e) -> Forall P e.

Section emits.
Context {St Ev : Type} (P : Ev -> Prop).

Lemma emits_ret {A} (a : A) : stm_emits (St := St) P (mret a).
Proof. intros s b s' e [= _ _ <-]. constructor. Qed.
Lemma emits_emit (e : list Ev) : Forall P e -> stm_emits (St := St) P (stm_emit e).
Proof. by intros He s b s' e' [= _ _ <-]. Qed.
Lemma emits_get : stm_emits (St := St) P stm_get.
Proof. intros s b s' e [= _ _ <-]. constructor. Qed.
Lemma emits_modify f : stm_emits (St := St) P (stm_modify f).
Proof. intros s b s' e [= _ _ <-]. constructor. Qed.
Lemma emits_of_option {A} (o : option A) : stm_emits (St := St) P (stm_of_option o).
Proof. destruct o; [apply emits_ret|by intros ????]. Qed.
Lemma emits_undef {A} : stm_emits (St := St) (A := A) P stm_undef.
Proof. by intros ????. Qed.
Lemma emits_bind {A B} (m : stm St Ev A) (f : A -> stm St Ev B) :
  stm_emits P m -> (forall a, stm_emits P (f a)) -> stm_emits P (stm_bind m f).
Proof.
  intros Hm Hf s b s' e. unfold stm_bind. destruct (m s) as [[[a s1] e1]|] eqn:H1; [|done].
  destruct (f a s1) as [[[b' s2] e2]|] eqn:H2; [|done]. intros [= _ _ <-].
  apply Forall_app. split; [by eapply Hm|by eapply Hf].
Qed.
End emits.

Ltac emits_step :=
  lazymatch goal with
  | |- stm_emits _ (stm_bind _ _) => apply emits_bind; [|intros ?]
  | |- stm_emits _ (mret _) => apply emits_ret
  | |- stm_emits _ (stm_emit _) => apply emits_emit; by repeat constructor
  | |- stm_emits _ stm_get => apply emits_get
  | |- stm_emits _ (stm_modify _) => apply emits_modify
  | |- stm_emits _ (stm_of_option _) => apply emits_of_option
  | |- stm_emits _ stm_undef => apply emits_undef
  | |- stm_emits _ (if ?b then _ else _) => destruct b
  | |- stm_emits _ (match ?x with _ => _ end) => destruct x
  | |- stm_emits _ (let _ := _ in _) => cbv zeta
  end.
Ltac emits_steps := repeat emits_step.

(** [errno] values (include/errno.h); functions return them negated. *)
Definition ENOENT := 2.
Definition EIO := 5.
Definition EAGAIN := 11.
Definition ENOMEM := 12.
Definition EBUSY := 16.
Definition EINVAL := 22.
Definition EBADMSG := 77.
Definition ENOTSUP := 35.
Definition EMSGSIZE := 36.
Definition EADDRNOTAVAIL := 49.
Definition ENOBUFS := 55.
Definition ENOTCONN := 57.
Definition ETIMEDOUT := 60.
Definition EALREADY := 69.
Definition ECANCELED := 72.

(** ** Machine integers

    Unsigned integers of the source are [Z]; a store to a [w]-bit object
    reduces modulo [2 ^ w]. *)

Definition u8 (z : Z) : Z := z mod 256.
Definition u16 (z : Z) : Z := z mod 65536.
Definition u24 (z : Z) : Z := z mod 16777216.
Definition u32 (z : Z) : Z := z mod 4294967296.
Definition u64 (z : Z) : Z := z mod 18446744073709551616.

Ltac unfold_widths := unfold u8, u16, u24, u32, u64 in *.

(** Arithmetic on machine integers: [lia] after unfolding the widths. *)
Ltac eval_pow :=
  repeat match goal with
  | |- context [2 ^ (Zpos ?n)] =>
      is_ground n; let v := eval vm_compute in (2 ^ (Zpos n)) in change (2 ^ (Zpos n)) with v
  | H : context [2 ^ (Zpos ?n)] |- _ =>
      is_ground n; let v := eval vm_compute in (2 ^ (Zpos n)) in change (2 ^ (Zpos n)) with v in H
  end.
Ltac word_lia := unfold_widths; eval_pow; Z.div_mod_to_equations; lia.

Abbreviation bytes := (list Z).

Definition is_byte (z : Z) : Prop := 0 <= z < 256.
Definition is_bytes (l : bytes) : Prop := Forall is_byte l.

#[export] Instance is_byte_dec z : Decision (is_byte z).
Proof. unfold is_byte. apply _. Defined.
#[export] Instance is_bytes_dec l : Decision (is_bytes l).
Proof. unfold is_bytes. apply _. Defined.

Lemma u8_byte z : is_byte (u8 z).
Proof. unfold is_byte. word_lia. Qed.
Lemma u8_id z : is_byte z -> u8 z = z.
Proof. unfold is_byte. intros. word_lia. Qed.
Lemma u16_id z : 0 <= z < 65536 -> u16 z = z.
Proof. word_lia. Qed.
Lemma u32_id z : 0 <= z < 4294967296 -> u32 z = z.
Proof. word_lia. Qed.

(** *** Bitwise operations on [n]-bit naturals *)

Lemma bounded_testbit n a :
  0 <= n -> (0 <= a < 2 ^ n <-> 0 <= a /\ forall i, n <= i -> Z.testbit a i = false).
Proof.
  intros Hn. split.
  - intros [Ha Hb]. split; [done|]. intros i Hi.
    destruct (decide (a = 0)) as [->|Hz]; [apply Z.bits_0|].
    apply Z.bits_above_log2; [done|].
    assert (Z.log2 a < n); [|lia]. apply Z.log2_lt_pow2; lia.
  - intros [Ha Hbits]. split; [done|].
    destruct (decide (a = 0)) as [->|Hz]; [apply Z.pow_pos_nonneg; lia|].
    apply Z.log2_lt_pow2; [lia|].
    destruct (Z.lt_ge_cases (Z.log2 a) n) as [|Hge]; [done|].
    pose proof (Hbits _ Hge) as Hf. rewrite Z.bit_log2 in Hf; [done|lia].
Qed.

Lemma lxor_bounded n a b :
  0 <= n -> 0 <= a < 2 ^ n -> 0 <= b < 2 ^ n -> 0 <= Z.lxor a b < 2 ^ n.
Proof.
  intros Hn [Ha Ha']%bounded_testbit [Hb Hb']%bounded_testbit; [|done..].
  apply bounded_testbit; [done|]. split; [by apply Z.lxor_nonneg|].
  intros i Hi. by rewrite Z.lxor_spec, Ha', Hb'.
Qed.

Lemma lor_bounded n a b :
  0 <= n -> 0 <= a < 2 ^ n -> 0 <= b < 2 ^ n -> 0 <= Z.lor a b < 2 ^ n.
Proof.
  intros Hn [Ha Ha']%bounded_testbit [Hb Hb']%bounded_testbit; [|done..].
  apply bounded_testbit; [done|]. split; [by apply Z.lor_nonneg|].
  intros i Hi. by rewrite Z.lor_spec, Ha', Hb'.
Qed.

Lemma land_bounded n a b :
  0 <= n -> 0 <= a < 2 ^ n -> 0 <= b -> 0 <= Z.land a b < 2 ^ n.
Proof.
  intros Hn [Ha Ha']%bounded_testbit Hb; [|done].
  apply bounded_testbit; [done|]. split; [apply Z.land_nonneg; by left|].
  intros i Hi. by rewrite Z.land_spec, Ha'.
Qed.

Lemma lxor_byte a b : is_byte a -> is_byte b -> is_byte (Z.lxor a b).
Proof. apply (lxor_bounded 8); lia. Qed.

(** A disjunction of disjoint bit fields is a sum. *)
Lemma lor_shiftl_add n a b :
  0 <= n -> 0 <= a < 2 ^ n -> Z.lor (Z.shiftl b n) a = b * 2 ^ n + a.
Proof.
  intros Hn Ha.
  assert (Z.land (Z.shiftl b n) a = 0) as Hdisj.
  { apply Z.bits_inj'. intros i Hi. rewrite Z.land_spec, Z.bits_0.
    apply bounded_testbit in Ha as [_ Ha]; [|done].
    destruct (Z.lt_ge_cases i n).
    - by rewrite Z.shiftl_spec_low.
    - rewrite (Ha i) by lia. by rewrite andb_false_r. }
  rewrite <- Z.lxor_lor by done. rewrite <- Z.add_nocarry_lxor by done.
  by rewrite Z.shiftl_mul_pow2.
Qed.

Lemma lor_add_shiftl n a b :
  0 <= n -> 0 <= a < 2 ^ n -> Z.lor a (Z.shiftl b n) = b * 2 ^ n + a.
Proof. intros. rewrite Z.lor_comm. by apply lor_shiftl_add. Qed.

(** A low field under a multiple of [2 ^ n]. *)
Lemma lor_add_low n hi lo :
  0 <= n -> 0 <= lo < 2 ^ n -> hi mod 2 ^ n = 0 -> Z.lor hi lo = hi + lo.
Proof.
  intros Hn Hlo Hhi. pose proof (Z.pow_pos_nonneg 2 n eq_refl Hn).
  rewrite (Z.div_mod hi (2 ^ n)) by lia. rewrite Hhi, Z.add_0_r, Z.mul_comm.
  rewrite <- Z.shiftl_mul_pow2 by done. rewrite lor_shiftl_add by done.
  by rewrite Z.shiftl_mul_pow2.
Qed.

Lemma u8_land z : u8 z = Z.land z (Z.ones 8).
Proof. by rewrite Z.land_ones. Qed.

Lemma u8_lxor a b : u8 (Z.lxor a b) = Z.lxor (u8 a) (u8 b).
Proof.
  rewrite !u8_land. apply Z.bits_inj'. intros i Hi.
  rewrite Z.land_spec, !Z.lxor_spec, !Z.land_spec.
  by destruct (Z.testbit a i), (Z.testbit b i), (Z.testbit (Z.ones 8) i).
Qed.

Lemma land_ones_mod a n : 0 <= n -> Z.land a (Z.ones n) = a mod 2 ^ n.
Proof. apply Z.land_ones. Qed.

(** ** Byte strings *)

Definition xor_bytes (a b : bytes) : bytes := zip_with Z.lxor a b.

Lemma length_xor_bytes a b : length (xor_bytes a b) = Nat.min (length a) (length b).
Proof. apply length_zip_with. Qed.

Lemma xor_bytes_nil_r a : xor_bytes a [] = [].
Proof. apply zip_with_nil_r. Qed.

Lemma xor_bytes_take_r a b : xor_bytes (take (length b) a) b = xor_bytes a b.
Proof.
  revert b. induction a as [|x a IH]; intros [|y b]; [done..|].
  unfold xor_bytes in *. cbn. by rewrite IH.
Qed.

Lemma length_xor_bytes_le a b :
  (length a <= length b)%nat -> length (xor_bytes a b) = length a.
Proof. rewrite length_xor_bytes. lia. Qed.

Lemma xor_bytes_cancel a b :
  (length a <= length b)%nat -> xor_bytes (xor_bytes a b) b = a.
Proof.
  revert b. induction a as [|x a IH]; intros [|y b]; simpl; intros; [done|done|lia|].
  rewrite Z.lxor_assoc, Z.lxor_nilpotent, Z.lxor_0_r. f_equal. apply IH. lia.
Qed.

Lemma xor_bytes_comm a b : xor_bytes a b = xor_bytes b a.
Proof.
  revert b. induction a as [|x a IH]; intros [|y b]; simpl; [done..|].
  by rewrite Z.lxor_comm, IH.
Qed.

Lemma xor_bytes_is_bytes a b :
  is_bytes a -> is_bytes b -> is_bytes (xor_bytes a b).
Proof.
  intros Ha. revert b. induction Ha as [|x a Hx Ha IH]; intros [|y b] Hb; simpl;
    try constructor; inversion_clear Hb; [by apply lxor_byte|by apply IH].
Qed.

(** [put_at i v l] is [memcpy(&l[i], v, sizeof v)] inside the array [l]. *)
Definition put_at (i : nat) (v l : bytes) : bytes :=
  take i l ++ v ++ drop (i + length v) l.
#[global] Arguments put_at : simpl never.

Lemma length_put_at i v l :
  (i + length v <= length l)%nat -> length (put_at i v l) = length l.
Proof.
  intros. unfold put_at. rewrite !length_app, length_take, length_drop. lia.
Qed.

Lemma put_at_app a x v t i :
  i = length a -> length x = length v -> put_at i v (a ++ x ++ t) = a ++ v ++ t.
Proof.
  intros -> Hx. unfold put_at. rewrite take_app_length.
  rewrite <- Hx, <- length_app, (assoc_L (++) a x t), drop_app_length. done.
Qed.

(** What was copied is read back, and what was there before stays. *)
Lemma put_at_get i k v l : length v = k -> (i <= length l)%nat -> take k (drop i (put_at i v l)) = v.
Proof.
  intros <- Hi. unfold put_at. rewrite drop_app_le by (rewrite length_take; lia).
  rewrite drop_ge by (rewrite length_take; lia). cbn [app]. by rewrite take_app_length.
Qed.
Lemma put_at_before i j k v l : (j + k <= i)%nat -> (i <= length l)%nat ->
  take k (drop j (put_at i v l)) = take k (drop j l).
Proof.
  intros Hj Hi. unfold put_at. rewrite drop_app_le by (rewrite length_take; lia).
  rewrite take_app_le by (rewrite length_drop, length_take; lia).
  rewrite <- (take_drop i l) at 2. rewrite drop_app_le by (rewrite length_take; lia).
  by rewrite take_app_le by (rewrite length_drop, length_take; lia).
Qed.

(** A predicate on bytes is decided by its 256 instances. *)
Lemma forall_bytes (P : Z -> bool) :
  forallb P (map Z.of_nat (seq 0 256)) = true -> forall z, is_byte z -> P z = true.
Proof.
  intros H z Hz. apply (proj1 (List.forallb_forall _ _) H). apply in_map_iff.
  exists (Z.to_nat z). unfold is_byte in Hz. split; [lia|]. apply in_seq. lia.
Qed.

Definition byteb (z : Z) : bool := (0 <=? z) && (z <? 256).
Lemma byteb_spec z : byteb z = true <-> is_byte z.
Proof. unfold byteb, is_byte. rewrite andb_true_iff, Z.leb_le, Z.ltb_lt. done. Qed.

Lemma is_bytes_app a b : is_bytes (a ++ b) <-> is_bytes a /\ is_bytes b.
Proof. apply Forall_app. Qed.
Lemma is_bytes_take n l : is_bytes l -> is_bytes (take n l).
Proof. apply Forall_take. Qed.
Lemma is_bytes_drop n l : is_bytes l -> is_bytes (drop n l).
Proof. apply Forall_drop. Qed.
Lemma is_bytes_replicate n z : is_byte z -> is_bytes (replicate n z).
Proof. intros. by apply Forall_replicate. Qed.

Create HintDb bytes.
#[export] Hint Resolve u8_byte lxor_byte xor_bytes_is_bytes
  is_bytes_take is_bytes_drop is_bytes_replicate : bytes.
Lemma is_bytes_put_at i v l : is_bytes v -> is_bytes l -> is_bytes (put_at i v l).
Proof. intros Hv Hl. unfold put_at. rewrite !is_bytes_app. auto with bytes. Qed.
#[export] Hint Resolve is_bytes_put_at : bytes.

(** A list of known length as its elements. *)
Ltac destruct_list l :=
  lazymatch goal with
  | H : length l = _ |- _ =>
      repeat (let x := fresh "x" in destruct l as [|x l]; [discriminate H|]; cbn in H);
      destruct l; [clear H|discriminate H]
  end.

(** Induction on a list read in pairs. *)
Lemma list_pair_ind {A} (P : list A -> Prop) :
  P [] -> (forall x, P [x]) -> (forall x y l, P l -> P (x :: y :: l)) -> forall l, P l.
Proof.
  intros H0 H1 H2 l. cut (P l /\ forall x, P (x :: l)); [by intros [? _]|].
  induction l as [|y l [IH1 IH2]]; [by split|]. split; [done|]. intros x. by apply H2.
Qed.
