(* ===== verification/NetBuf.v ===== *)
(** * Network buffers (bt_common/buf.c, include/net/buf.h, include/misc/byteorder.h)

    A buffer is its storage [__buf], the offset of [data] in it and the length
    of the data, so the bytes before and after the data survive as they do in
    memory.  An access outside the storage, and a removal of more bytes than
    the buffer holds (an assertion of the source), is [Undef]. *)

From S2P Require Import Prelude.

(** ** Byte order *)

Definition byte_at (l : bytes) (i : nat) : Z := nth i l 0.

Definition sys_put_be16 (val : Z) : bytes := [u8 (Z.shiftr val 8); u8 val].
Definition sys_put_be32 (val : Z) : bytes :=
  sys_put_be16 (u16 (Z.shiftr val 16)) ++ sys_put_be16 (u16 val).
Definition sys_put_le16 (val : Z) : bytes := [u8 val; u8 (Z.shiftr val 8)].
Definition sys_put_le32 (val : Z) : bytes :=
  sys_put_le16 (u16 val) ++ sys_put_le16 (u16 (Z.shiftr val 16)).

Definition sys_get_be16 (src : bytes) : Z :=
  u16 (Z.lor (Z.shiftl (byte_at src 0) 8) (byte_at src 1)).
Definition sys_get_be32 (src : bytes) : Z :=
  u32 (Z.lor (Z.shiftl (sys_get_be16 src) 16) (sys_get_be16 (drop 2 src))).
Definition sys_get_le16 (src : bytes) : Z :=
  u16 (Z.lor (Z.shiftl (byte_at src 1) 8) (byte_at src 0)).
Definition sys_get_le32 (src : bytes) : Z :=
  u32 (Z.lor (Z.shiftl (sys_get_le16 (drop 2 src)) 16) (sys_get_le16 src)).

Lemma byte_at_is_byte l i : is_bytes l -> is_byte (byte_at l i).
Proof.
  intros H. unfold byte_at. destruct (nth_in_or_default i l 0) as [Hin| ->];
    [|unfold is_byte; lia].
  eapply List.Forall_forall in H; eauto.
Qed.

Lemma sys_put_be16_bytes v : is_bytes (sys_put_be16 v).
Proof. repeat constructor; apply u8_byte. Qed.

Lemma sys_put_be32_bytes v : is_bytes (sys_put_be32 v).
Proof. apply Forall_app. split; apply sys_put_be16_bytes. Qed.

(** A word assembled from bytes, as arithmetic. *)
Lemma word_of_bytes a b :
  is_byte b -> Z.lor (Z.shiftl a 8) b = a * 256 + b.
Proof. intros. apply (lor_shiftl_add 8); unfold is_byte in *; lia. Qed.

Lemma sys_get_be16_eq a b l :
  is_byte a -> is_byte b -> sys_get_be16 (a :: b :: l) = a * 256 + b.
Proof.
  intros Ha Hb. unfold sys_get_be16. cbn [byte_at nth].
  rewrite word_of_bytes by done. unfold is_byte in *. apply u16_id. lia.
Qed.

Lemma sys_get_put_be16 v l : 0 <= v < 65536 -> sys_get_be16 (sys_put_be16 v ++ l) = v.
Proof.
  intros H. unfold sys_put_be16. cbn [app].
  rewrite sys_get_be16_eq by apply u8_byte. rewrite Z.shiftr_div_pow2 by lia.
  change (2 ^ 8) with 256. word_lia.
Qed.

Lemma sys_get_put_be32 v l :
  0 <= v < 4294967296 -> sys_get_be32 (sys_put_be32 v ++ l) = v.
Proof.
  intros H. unfold sys_get_be32, sys_put_be32. rewrite <- app_assoc.
  rewrite sys_get_put_be16 by word_lia.
  rewrite (drop_app_length' (sys_put_be16 _)) by done.
  rewrite sys_get_put_be16 by word_lia.
  rewrite (lor_shiftl_add 16) by word_lia.
  rewrite Z.shiftr_div_pow2 by lia. change (2 ^ 16) with 65536. word_lia.
Qed.

Lemma sys_get_put_le16 v l : 0 <= v < 65536 -> sys_get_le16 (sys_put_le16 v ++ l) = v.
Proof.
  intros H. unfold sys_get_le16, sys_put_le16. cbn [app byte_at nth].
  rewrite word_of_bytes by apply u8_byte. rewrite Z.shiftr_div_pow2 by lia.
  change (2 ^ 8) with 256. word_lia.
Qed.

(** ** The buffer *)

Record net_buf_simple := mk_net_buf_simple {
  nb_store : bytes;   (** [__buf], [size] bytes *)
  nb_off : nat;       (** [data - __buf] *)
  nb_len : nat        (** [len] *)
}.

#[export] Instance net_buf_simple_settable : Settable net_buf_simple.
Proof.
  settable (fun b => mk_net_buf_simple (nb_store b) (nb_off b) (nb_len b)).
Defined.

Definition nb_size (b : net_buf_simple) : nat := length (nb_store b).

(** The data: [len] bytes from [data] on. *)
Definition nb_data (b : net_buf_simple) : bytes :=
  take (nb_len b) (drop (nb_off b) (nb_store b)).

Definition nb_wf (b : net_buf_simple) : Prop :=
  (nb_off b + nb_len b <= nb_size b)%nat.

(** [NET_BUF_SIMPLE(_size)]: the storage starts zeroed. *)
Definition NET_BUF_SIMPLE (size : nat) : net_buf_simple :=
  mk_net_buf_simple (replicate size 0) 0 0.

Definition net_buf_simple_init (b : net_buf_simple) (reserve_head : nat) : net_buf_simple :=
  b <| nb_off := reserve_head |> <| nb_len := 0%nat |>.

Definition net_buf_simple_headroom (b : net_buf_simple) : nat := nb_off b.

Definition net_buf_simple_tailroom (b : net_buf_simple) : Z :=
  Z.of_nat (nb_size b) - Z.of_nat (nb_off b) - Z.of_nat (nb_len b).

(** [memcpy(net_buf_simple_add(buf, len), mem, len)]. *)
Definition net_buf_simple_add_mem (b : net_buf_simple) (mem : bytes) : res net_buf_simple :=
  if decide (nb_off b + nb_len b + length mem <= nb_size b)%nat then
    Ok (b <| nb_store := put_at (nb_off b + nb_len b) mem (nb_store b) |>
          <| nb_len := (nb_len b + length mem)%nat |>)
  else Undef.

Definition net_buf_simple_add_u8 b (val : Z) := net_buf_simple_add_mem b [u8 val].
Definition net_buf_simple_add_le16 b (val : Z) := net_buf_simple_add_mem b (sys_put_le16 val).
Definition net_buf_simple_add_be16 b (val : Z) := net_buf_simple_add_mem b (sys_put_be16 val).
Definition net_buf_simple_add_le32 b (val : Z) := net_buf_simple_add_mem b (sys_put_le32 val).
Definition net_buf_simple_add_be32 b (val : Z) := net_buf_simple_add_mem b (sys_put_be32 val).

(** [memcpy(net_buf_simple_push(buf, len), mem, len)]. *)
Definition net_buf_simple_push_mem (b : net_buf_simple) (mem : bytes) : res net_buf_simple :=
  if decide (length mem <= nb_off b)%nat then
    Ok (b <| nb_store := put_at (nb_off b - length mem) mem (nb_store b) |>
          <| nb_off := (nb_off b - length mem)%nat |>
          <| nb_len := (nb_len b + length mem)%nat |>)
  else Undef.

Definition net_buf_simple_push_u8 b (val : Z) := net_buf_simple_push_mem b [u8 val].
Definition net_buf_simple_push_le16 b (val : Z) := net_buf_simple_push_mem b (sys_put_le16 val).
Definition net_buf_simple_push_be16 b (val : Z) := net_buf_simple_push_mem b (sys_put_be16 val).

Definition net_buf_simple_pull (b : net_buf_simple) (len : nat) : res net_buf_simple :=
  if decide (len <= nb_len b)%nat then
    Ok (b <| nb_len := (nb_len b - len)%nat |> <| nb_off := (nb_off b + len)%nat |>)
  else Undef.

(** [buf->data[i]]: any byte of the storage, not only the first [len]. *)
Definition nb_get (b : net_buf_simple) (i : nat) : res Z :=
  of_option (nb_store b !! (nb_off b + i)%nat).

(** Reads [n] bytes at [data] and removes them. *)
Definition pull_bytes (b : net_buf_simple) (n : nat) : res (bytes * net_buf_simple) :=
  b' ← net_buf_simple_pull b n;
  Ok (take n (drop (nb_off b) (nb_store b)), b').

Definition net_buf_simple_pull_u8 b : res (Z * net_buf_simple) :=
  '(l, b') ← pull_bytes b 1; Ok (byte_at l 0, b').
Definition net_buf_simple_pull_le16 b : res (Z * net_buf_simple) :=
  '(l, b') ← pull_bytes b 2; Ok (sys_get_le16 l, b').
Definition net_buf_simple_pull_be16 b : res (Z * net_buf_simple) :=
  '(l, b') ← pull_bytes b 2; Ok (sys_get_be16 l, b').
Definition net_buf_simple_pull_le32 b : res (Z * net_buf_simple) :=
  '(l, b') ← pull_bytes b 4; Ok (sys_get_le32 l, b').
Definition net_buf_simple_pull_be32 b : res (Z * net_buf_simple) :=
  '(l, b') ← pull_bytes b 4; Ok (sys_get_be32 l, b').

(** [net_buf_simple_save] and [net_buf_simple_restore]: offset and length. *)
Definition net_buf_simple_save (b : net_buf_simple) : nat * nat :=
  (net_buf_simple_headroom b, nb_len b).
Definition net_buf_simple_restore (b : net_buf_simple) (st : nat * nat) : net_buf_simple :=
  b <| nb_off := st.1 |> <| nb_len := st.2 |>.

(** ** Abstraction: headroom, contents, capacity *)

Record abuf := mk_abuf { ab_head : nat; ab_data : bytes; ab_size : nat }.

Definition nb_abs (b : net_buf_simple) : abuf :=
  mk_abuf (nb_off b) (nb_data b) (nb_size b).

#[global] Arguments nb_abs : simpl never.
#[global] Arguments nb_data : simpl never.

Inductive buf_op :=
| OpAdd (mem : bytes)
| OpPush (mem : bytes)
| OpPull (n : nat).

Definition buf_step (o : buf_op) (b : net_buf_simple) : res net_buf_simple :=
  match o with
  | OpAdd mem => net_buf_simple_add_mem b mem
  | OpPush mem => net_buf_simple_push_mem b mem
  | OpPull n => net_buf_simple_pull b n
  end.

(** What the operations mean: bytes are appended to, prepended to or removed
    from the contents, and the room is checked exactly. *)
Definition abuf_step (o : buf_op) (a : abuf) : res abuf :=
  match o with
  | OpAdd mem =>
      if decide (ab_head a + length (ab_data a) + length mem <= ab_size a)%nat
      then Ok (mk_abuf (ab_head a) (ab_data a ++ mem) (ab_size a)) else Undef
  | OpPush mem =>
      if decide (length mem <= ab_head a)%nat
      then Ok (mk_abuf (ab_head a - length mem) (mem ++ ab_data a) (ab_size a)) else Undef
  | OpPull n =>
      if decide (n <= length (ab_data a))%nat
      then Ok (mk_abuf (ab_head a + n) (drop n (ab_data a)) (ab_size a)) else Undef
  end.

Fixpoint run_ops {A} (step : buf_op -> A -> res A) (os : list buf_op) (a : A) : res A :=
  match os with
  | [] => Ok a
  | o :: os => a' ← step o a; run_ops step os a'
  end.

Lemma length_nb_data b : nb_wf b -> length (nb_data b) = nb_len b.
Proof.
  unfold nb_wf, nb_data, nb_size. intros. rewrite length_take, length_drop. lia.
Qed.

(** The storage as the bytes before, in and after the data. *)
Lemma nb_split b :
  nb_wf b -> exists h t,
    b = mk_net_buf_simple (h ++ nb_data b ++ t) (length h) (length (nb_data b)).
Proof.
  intros Hwf. exists (take (nb_off b) (nb_store b)).
  exists (drop (nb_off b + nb_len b) (nb_store b)).
  rewrite length_nb_data by done. unfold nb_wf, nb_size, nb_data in *.
  rewrite <- drop_drop, take_drop, take_drop, length_take.
  rewrite Nat.min_l by lia. by destruct b.
Qed.

Lemma nb_data_split h d t :
  nb_data (mk_net_buf_simple (h ++ d ++ t) (length h) (length d)) = d.
Proof. unfold nb_data. cbn. by rewrite drop_app_length, take_app_length. Qed.

Lemma nb_abs_split h d t :
  nb_abs (mk_net_buf_simple (h ++ d ++ t) (length h) (length d)) =
  mk_abuf (length h) d (length h + length d + length t).
Proof.
  unfold nb_abs, nb_size. rewrite nb_data_split. cbn. rewrite !length_app.
  by rewrite Nat.add_assoc.
Qed.

Lemma nb_wf_split h d t :
  nb_wf (mk_net_buf_simple (h ++ d ++ t) (length h) (length d)).
Proof. unfold nb_wf, nb_size. cbn. rewrite !length_app. lia. Qed.

(** One operation: the concrete step and the abstract step agree. *)
Lemma buf_step_abs o b :
  nb_wf b ->
  match buf_step o b with
  | Ok b' => nb_wf b' /\ abuf_step o (nb_abs b) = Ok (nb_abs b')
  | Err _ => False
  | Undef => abuf_step o (nb_abs b) = Undef
  end.
Proof.
  intros (h & t & Hb)%nb_split. rewrite Hb. generalize (nb_data b) as d. clear Hb b.
  intros d. destruct o as [mem|mem|n]; cbn [buf_step abuf_step];
    unfold net_buf_simple_add_mem, net_buf_simple_push_mem, net_buf_simple_pull;
    rewrite nb_abs_split; record_simpl; unfold nb_size; cbn.
  - rewrite !length_app. case_decide as Hfit; [|by rewrite decide_False by lia].
    rewrite decide_True by lia.
    rewrite <- (take_drop (length mem) t), (assoc_L (++) h d).
    rewrite put_at_app by (rewrite ?length_app, ?length_take; lia).
    rewrite <- (assoc_L (++) h d), (assoc_L (++) d mem).
    rewrite <- (length_app d mem). split; [apply nb_wf_split|].
    rewrite nb_abs_split, take_drop, !length_app, length_drop. do 2 f_equal. lia.
  - case_decide as Hfit; [|done].
    assert (exists h' x, h = h' ++ x /\ length x = length mem) as (h' & x & -> & Hx).
    { exists (take (length h - length mem) h), (drop (length h - length mem) h).
      rewrite take_drop, length_drop. split; [done|lia]. }
    rewrite <- (assoc_L (++) h'), length_app, Hx.
    replace (length h' + length mem - length mem)%nat with (length h') by lia.
    rewrite put_at_app by done. rewrite (assoc_L (++) mem d).
    rewrite (Nat.add_comm (length d)), <- (length_app mem d).
    split; [apply nb_wf_split|].
    rewrite nb_abs_split, !length_app. do 2 f_equal. lia.
  - case_decide as Hfit; [|done].
    assert (exists x d', d = x ++ d' /\ length x = n) as (x & d' & -> & <-).
    { exists (take n d), (drop n d). rewrite take_drop, length_take. split; [done|lia]. }
    rewrite length_app, drop_app_length, <- (assoc_L (++) x), (assoc_L (++) h).
    replace (length x + length d' - length x)%nat with (length d') by lia.
    rewrite <- (length_app h x). split; [apply nb_wf_split|].
    rewrite nb_abs_split, !length_app. do 2 f_equal. lia.
Qed.

(** The buffer operations in the form the stack uses them. *)
Lemma add_mem_abs b mem :
  nb_wf b -> (nb_off b + nb_len b + length mem <= nb_size b)%nat ->
  exists b', net_buf_simple_add_mem b mem = Ok b' /\ nb_wf b' /\
    nb_abs b' = mk_abuf (nb_off b) (nb_data b ++ mem) (nb_size b).
Proof.
  intros Hwf Hroom. pose proof (buf_step_abs (OpAdd mem) b Hwf) as H.
  unfold buf_step, abuf_step in H. rewrite decide_True in H.
  - destruct (net_buf_simple_add_mem b mem) as [b'| |]; [|done..].
    destruct H as [? H%(inj Ok)]. exists b'. repeat split; [done|]. by rewrite <- H.
  - unfold nb_abs. cbn. by rewrite length_nb_data.
Qed.

Lemma push_mem_abs b mem :
  nb_wf b -> (length mem <= nb_off b)%nat ->
  exists b', net_buf_simple_push_mem b mem = Ok b' /\ nb_wf b' /\
    nb_abs b' = mk_abuf (nb_off b - length mem) (mem ++ nb_data b) (nb_size b).
Proof.
  intros Hwf Hroom. pose proof (buf_step_abs (OpPush mem) b Hwf) as H.
  unfold buf_step, abuf_step in H. rewrite decide_True in H by done.
  destruct (net_buf_simple_push_mem b mem) as [b'| |]; [|done..].
  destruct H as [? H%(inj Ok)]. exists b'. repeat split; [done|]. by rewrite <- H.
Qed.

Lemma pull_abs b n :
  nb_wf b -> (n <= nb_len b)%nat ->
  exists b', net_buf_simple_pull b n = Ok b' /\ nb_wf b' /\
    nb_abs b' = mk_abuf (nb_off b + n) (drop n (nb_data b)) (nb_size b).
Proof.
  intros Hwf Hroom. pose proof (buf_step_abs (OpPull n) b Hwf) as H.
  unfold buf_step, abuf_step in H. rewrite decide_True in H.
  - destruct (net_buf_simple_pull b n) as [b'| |]; [|done..].
    destruct H as [? H%(inj Ok)]. exists b'. repeat split; [done|]. by rewrite <- H.
  - unfold nb_abs. cbn. by rewrite length_nb_data.
Qed.

(** ** Properties *)

(** C1: any sequence of additions, pushes and pulls on a buffer does to the
    storage what it says on the contents: it succeeds on the storage exactly
    when the abstract buffer (headroom, contents, capacity) has the room, the
    two results agree, and the data never leave the storage. *)
Theorem net_buf_refines os b :
  nb_wf b ->
  match run_ops buf_step os b with
  | Ok b' => nb_wf b' /\ run_ops abuf_step os (nb_abs b) = Ok (nb_abs b')
  | Err _ => False
  | Undef => run_ops abuf_step os (nb_abs b) = Undef
  end.
Proof.
  revert b. induction os as [|o os IH]; intros b Hwf; cbn [run_ops]; [done|].
  pose proof (buf_step_abs o b Hwf) as Hstep.
  destruct (buf_step o b) as [b'|e|]; cbn.
  - destruct Hstep as [Hwf' ->]. by apply IH.
  - done.
  - by rewrite Hstep.
Qed.

Lemma net_buf_refines_witness :
  match run_ops buf_step [OpAdd [1; 2; 3]; OpPush [9]; OpPull 2]
          (net_buf_simple_init (NET_BUF_SIMPLE 8) 2) with
  | Ok b' => nb_wf b' /\
      run_ops abuf_step [OpAdd [1; 2; 3]; OpPush [9]; OpPull 2] (mk_abuf 2 [] 8)
      = Ok (nb_abs b')
  | Err _ => False
  | Undef => run_ops abuf_step [OpAdd [1; 2; 3]; OpPush [9]; OpPull 2] (mk_abuf 2 [] 8) = Undef
  end.
Proof.
  apply (net_buf_refines [OpAdd [1; 2; 3]; OpPush [9]; OpPull 2]
    (net_buf_simple_init (NET_BUF_SIMPLE 8) 2)).
  vm_compute. lia.
Defined.
