(* ===== verification/NetPool.v ===== *)
(** * Pools of reference-counted buffers (bt_common/buf.c, queue.c)

    [net_buf_alloc], [net_buf_ref] and [net_buf_unref] over a pool: buffers
    that were never used are handed out in order, released ones are kept on a
    LIFO. A buffer is named by its index in the pool ([net_buf_id]); fragments
    are not used by the mesh stack. The pool refines a vector of reference
    counts. *)

From S2P Require Import Prelude.

(** A buffer: its reference count ([u8_t ref]) and what the pool's user keeps
    in it, the bytes and the user data. *)
Record pbuf (X : Type) := mk_pbuf { nb_ref : Z; nb_val : X }.
Arguments mk_pbuf {X}. Arguments nb_ref {X}. Arguments nb_val {X}.

(** [struct net_buf_pool]. *)
Record pool (X : Type) := mk_pool { p_bufs : list (pbuf X); p_uninit : nat; p_free : list nat }.
Arguments mk_pool {X}. Arguments p_bufs {X}. Arguments p_uninit {X}. Arguments p_free {X}.
#[export] Instance pool_settable {X} : Settable (pool X).
Proof. settable (fun p => mk_pool (X := X) (p_bufs p) (p_uninit p) (p_free p)). Defined.

Section pool.
Context {X : Type}.
Implicit Types (p : pool X) (x : X) (i : nat).

(** [NET_BUF_POOL_INITIALIZER]. *)
Definition pool_init (n : nat) x : pool X := mk_pool (replicate n (mk_pbuf 0 x)) n [].

Definition buf_count p : nat := length (p_bufs p).

(** The success path of an allocation: one reference, and [net_buf_reset]. *)
Definition take_buf (reset : X -> X) i p : pool X :=
  p <| p_bufs := alter (fun b => mk_pbuf 1 (reset (nb_val b))) i (p_bufs p) |>.

(** [k_lifo_get], which does not wait whatever the timeout. *)
Definition lifo_get (l : list nat) : option (nat * list nat) :=
  match l with [] => None | i :: l => Some (i, l) end.

Definition net_buf_alloc (reset : X -> X) p : option (nat * pool X) :=
  if decide (p_uninit p = 0%nat) then
    match lifo_get (p_free p) with
    | Some (i, l) => Some (i, take_buf reset i (p <| p_free := l |>))
    | None => None
    end
  else
    match (if decide (p_uninit p < buf_count p)%nat then lifo_get (p_free p) else None) with
    | Some (i, l) => Some (i, take_buf reset i (p <| p_free := l |>))
    | None =>
        let i := (buf_count p - p_uninit p)%nat in
        Some (i, take_buf reset i (p <| p_uninit := (p_uninit p - 1)%nat |>))
    end.

Definition set_ref (r : Z) (b : pbuf X) : pbuf X := mk_pbuf r (nb_val b).

Definition net_buf_ref i p : pool X :=
  p <| p_bufs := alter (fun b => set_ref (u8 (nb_ref b + 1)) b) i (p_bufs p) |>.

Definition net_buf_unref i p : pool X :=
  match p_bufs p !! i with
  | None => p
  | Some b =>
      let r := u8 (nb_ref b - 1) in
      let p := p <| p_bufs := <[i := set_ref r b]> (p_bufs p) |> in
      if 0 <? r then p else p <| p_free := i :: p_free p |>
  end.

(** A write to the contents of a buffer. *)
Definition pool_update (f : X -> X) i p : pool X :=
  p <| p_bufs := alter (fun b => mk_pbuf (nb_ref b) (f (nb_val b))) i (p_bufs p) |>.

(** ** The reference counts *)

Definition refs p : list Z := map nb_ref (p_bufs p).

(** The free list holds exactly the buffers that were used and are not
    referenced, each once. *)
Record pool_wf p : Prop := {
  pw_uninit : (p_uninit p <= buf_count p)%nat;
  pw_nodup : NoDup (p_free p);
  pw_free i : i ∈ p_free p <->
    (i < buf_count p - p_uninit p)%nat /\ refs p !! i = Some 0;
  pw_unused i : (buf_count p - p_uninit p <= i < buf_count p)%nat -> refs p !! i = Some 0;
  pw_range : Forall is_byte (refs p)
}.

Lemma length_refs p : length (refs p) = buf_count p.
Proof. apply length_map. Qed.

Lemma refs_update f i p : refs (pool_update f i p) = refs p.
Proof.
  unfold refs, pool_update. cbn. apply list_eq. intros j. rewrite !list_lookup_fmap.
  destruct (decide (i = j)) as [->|]; [rewrite list_lookup_alter_eq|by rewrite list_lookup_alter_ne].
  by destruct (p_bufs p !! j).
Qed.

Lemma refs_alter (f : pbuf X -> pbuf X) r i p :
  (forall b, p_bufs p !! i = Some b -> nb_ref (f b) = r) ->
  map nb_ref (alter f i (p_bufs p)) = <[i := r]> (refs p).
Proof.
  intros H. unfold refs. apply list_eq. intros j. rewrite list_lookup_fmap.
  destruct (decide (i = j)) as [->|].
  - rewrite list_lookup_alter_eq. destruct (p_bufs p !! j) as [b|] eqn:E; cbn.
    + rewrite list_lookup_insert_eq; [by rewrite (H b)|].
      rewrite length_map. by eapply lookup_lt_Some.
    + symmetry. apply lookup_ge_None. rewrite length_insert, length_map. by apply lookup_ge_None.
  - rewrite list_lookup_alter_ne, list_lookup_insert_ne by done. by rewrite list_lookup_fmap.
Qed.

(** ** The abstract pool: a vector of reference counts *)

Inductive pool_op := PAlloc | PRef (i : nat) | PUnref (i : nat).

(** An allocation may return any unreferenced buffer, and fails only when there
    is none; the other operations are on referenced buffers. *)
Inductive ref_step : list Z -> pool_op -> option nat -> list Z -> Prop :=
| rs_alloc r i : r !! i = Some 0 -> ref_step r PAlloc (Some i) (<[i := 1]> r)
| rs_full r : Forall (fun c => 0 < c) r -> ref_step r PAlloc None r
| rs_ref r i c : r !! i = Some c -> 0 < c < 255 -> ref_step r (PRef i) None (<[i := c + 1]> r)
| rs_unref r i c : r !! i = Some c -> 0 < c -> ref_step r (PUnref i) None (<[i := c - 1]> r).

Inductive ref_trace : list Z -> list pool_op -> list (option nat) -> list Z -> Prop :=
| rt_nil r : ref_trace r [] [] r
| rt_cons r op res r1 ops rs r2 :
    ref_step r op res r1 -> ref_trace r1 ops rs r2 -> ref_trace r (op :: ops) (res :: rs) r2.

Definition pool_do (reset : X -> X) (op : pool_op) p : option nat * pool X :=
  match op with
  | PAlloc => match net_buf_alloc reset p with Some (i, p) => (Some i, p) | None => (None, p) end
  | PRef i => (None, net_buf_ref i p)
  | PUnref i => (None, net_buf_unref i p)
  end.

Fixpoint pool_run (reset : X -> X) (ops : list pool_op) p : list (option nat) * pool X :=
  match ops with
  | [] => ([], p)
  | op :: ops =>
      let '(r, p) := pool_do reset op p in
      let '(rs, p) := pool_run reset ops p in (r :: rs, p)
  end.

(** The caller references and releases only buffers it holds, and holds each
    at most 255 times. *)
Definition op_allowed (r : list Z) (op : pool_op) : Prop :=
  match op with
  | PAlloc => True
  | PRef i => exists c, r !! i = Some c /\ 0 < c < 255
  | PUnref i => exists c, r !! i = Some c /\ 0 < c
  end.
Fixpoint ops_allowed (reset : X -> X) (ops : list pool_op) p : Prop :=
  match ops with
  | [] => True
  | op :: ops => op_allowed (refs p) op /\ ops_allowed reset ops (snd (pool_do reset op p))
  end.

(** ** The operations refine the steps *)

Lemma buf_count_alter (f : pbuf X -> pbuf X) i p l u :
  buf_count (mk_pool (alter f i (p_bufs p)) u l) = buf_count p.
Proof. apply length_alter. Qed.

(** Changing the count of one buffer, with the free list and the number of
    unused buffers following. *)
Lemma wf_set_ref p (f : pbuf X -> pbuf X) i r u l :
  pool_wf p -> (i < buf_count p)%nat ->
  (forall b, p_bufs p !! i = Some b -> nb_ref (f b) = r) -> is_byte r ->
  (u <= p_uninit p)%nat -> (buf_count p - u <= S i \/ u = p_uninit p)%nat ->
  (buf_count p - p_uninit p <= i -> i < buf_count p - u)%nat ->
  (p_uninit p <= S u)%nat ->
  NoDup l -> (forall j, j ∈ l <-> (j = i /\ r = 0) \/ (j <> i /\ j ∈ p_free p)) ->
  pool_wf (mk_pool (alter f i (p_bufs p)) u l).
Proof.
  intros [Hu Hnd Hf Hun Hr] Hi Hfr Hb Hle Hnew Hused Hstep Hl Hin.
  assert (HR : refs (mk_pool (alter f i (p_bufs p)) u l) = <[i := r]> (refs p))
    by (by apply refs_alter).
  assert (Hlen : length (refs p) = buf_count p) by apply length_refs.
  split; rewrite ?buf_count_alter, ?HR; cbn [p_free p_uninit].
  - lia.
  - done.
  - intros j. rewrite Hin. destruct (decide (j = i)) as [->|Hne].
    + rewrite list_lookup_insert_eq by lia. split.
      * intros [[_ ->]|[? _]]; [|done]. split; [lia|done].
      * intros [_ [= ->]]. by left.
    + rewrite list_lookup_insert_ne by done. rewrite Hf. split.
      * intros [[? _]|[_ [? ?]]]; [done|]. split; [lia|done].
      * intros [? ?]. right. split; [done|]. split; [|done].
        destruct (decide (j < buf_count p - p_uninit p)%nat) as [|Hge]; [done|]. lia.
  - intros j Hj. rewrite list_lookup_insert_ne by lia. apply Hun. lia.
  - apply Forall_insert; done.
Qed.

Lemma pool_init_wf n x : pool_wf (pool_init n x).
Proof.
  assert (HR : refs (pool_init n x) = replicate n 0) by apply fmap_replicate.
  split; rewrite ?HR; unfold pool_init, buf_count; cbn [p_bufs p_uninit p_free];
    rewrite ?length_replicate.
  - lia.
  - constructor.
  - intros i. split; [intros H; by apply elem_of_nil in H|lia].
  - intros i Hi. apply lookup_replicate. lia.
  - apply Forall_replicate. cbn. unfold is_byte. lia.
Qed.

Lemma refs_lookup p i c : refs p !! i = Some c -> exists b, p_bufs p !! i = Some b /\ (nb_ref b) = c.
Proof. unfold refs. rewrite list_lookup_fmap_Some. intros (b & ? & ?). eauto. Qed.

Lemma refs_lt p i c : refs p !! i = Some c -> (i < buf_count p)%nat.
Proof. intros H. rewrite <- length_refs. by eapply lookup_lt_Some. Qed.

(** A referenced buffer has been used and is not free. *)
Lemma refs_used p i c :
  pool_wf p -> refs p !! i = Some c -> 0 < c ->
  (i < buf_count p - p_uninit p)%nat /\ (i ∉ p_free p) /\ c < 256.
Proof.
  intros [Hu Hnd Hf Hun Hr] Hi Hc. pose proof (refs_lt _ _ _ Hi). split_and!.
  - destruct (decide (i < buf_count p - p_uninit p)%nat) as [|Hge]; [done|].
    rewrite (Hun i) in Hi by lia. injection Hi as Hi. lia.
  - rewrite Hf. intros [_ E]. rewrite Hi in E. injection E as E. lia.
  - rewrite List.Forall_forall in Hr. apply Hr, list_elem_of_In, list_elem_of_lookup. eauto.
Qed.

Lemma net_buf_alloc_spec reset p :
  pool_wf p ->
  match net_buf_alloc reset p with
  | Some (i, p') =>
      refs p !! i = Some 0 /\ refs p' = <[i := 1]> (refs p) /\ pool_wf p' /\
      p_bufs p' = alter (fun b => mk_pbuf 1 (reset (nb_val b))) i (p_bufs p)
  | None => Forall (fun c => 0 < c) (refs p)
  end.
Proof.
  intros Hwf. pose proof Hwf as [Hu Hnd Hf Hun Hr].
  assert (Hlifo : forall i l, p_free p = i :: l ->
    let p' := take_buf reset i (p <| p_free := l |>) in
    refs p !! i = Some 0 /\ refs p' = <[i := 1]> (refs p) /\ pool_wf p' /\
    p_bufs p' = alter (fun b => mk_pbuf 1 (reset (nb_val b))) i (p_bufs p)).
  { intros i l E p'. rewrite E in *. apply list.NoDup_cons in Hnd as [Hni Hnd].
    destruct (proj1 (Hf i)) as [Hi H0]; [by left|]. split; [done|].
    split; [by apply (refs_alter (fun b => mk_pbuf 1 (reset (nb_val b))) 1 _ p)|]. split; [|done].
    apply (wf_set_ref p (fun b => mk_pbuf 1 (reset (nb_val b))) i 1 (p_uninit p) l Hwf);
      try lia; try done.
    - intros j. rewrite E, elem_of_cons. split; [|by intros [[-> ?]|[? [?|?]]]].
      intros Hj. right. split; [by intros ->|by right]. }
  unfold net_buf_alloc. destruct (decide (p_uninit p = 0%nat)) as [E0|E0].
  - destruct (p_free p) as [|i l] eqn:E; cbn [lifo_get]; [|by apply Hlifo].
    apply List.Forall_forall. intros c Hc.
    apply list_elem_of_In, list_elem_of_lookup in Hc as [i Hi].
    pose proof (refs_lt _ _ _ Hi). rewrite List.Forall_forall in Hr.
    assert (is_byte c) as [] by (eapply Hr, list_elem_of_In, list_elem_of_lookup; eauto).
    destruct (decide (c = 0)) as [->|]; [|lia].
    exfalso. apply (not_elem_of_nil i), Hf. split; [lia|done].
  - assert (Hfresh : p_free p = [] \/ p_uninit p = buf_count p -> forall i,
      i = (buf_count p - p_uninit p)%nat ->
      let p' := take_buf reset i (p <| p_uninit := (p_uninit p - 1)%nat |>) in
      refs p !! i = Some 0 /\ refs p' = <[i := 1]> (refs p) /\ pool_wf p' /\
      p_bufs p' = alter (fun b => mk_pbuf 1 (reset (nb_val b))) i (p_bufs p)).
    { intros _ i -> p'. assert (H0 : refs p !! (buf_count p - p_uninit p)%nat = Some 0)
        by (apply Hun; lia).
      split; [done|]. split; [by apply (refs_alter (fun b => mk_pbuf 1 (reset (nb_val b))) 1 _ p)|]. split; [|done].
      apply (wf_set_ref p (fun b => mk_pbuf 1 (reset (nb_val b))) _ 1 (p_uninit p - 1) (p_free p) Hwf);
        try lia; try done.
      intros j. rewrite Hf. split; [|by intros [[? ?]|[? ?]]].
      intros [? ?]. right. split; [lia|]. split; [lia|done]. }
    destruct (decide (p_uninit p < buf_count p)%nat).
    + destruct (p_free p) as [|k l0] eqn:E; cbn [lifo_get]; [|by apply Hlifo].
      by apply Hfresh; [left|].
    + apply Hfresh; [right; lia|done].
Qed.

Lemma net_buf_ref_spec p i c :
  pool_wf p -> refs p !! i = Some c -> 0 < c < 255 ->
  refs (net_buf_ref i p) = <[i := c + 1]> (refs p) /\ pool_wf (net_buf_ref i p).
Proof.
  intros Hwf Hi Hc. destruct (refs_used _ _ _ Hwf Hi) as (Hused & Hni & Hlt); [lia|].
  destruct (refs_lookup _ _ _ Hi) as [b [Hb <-]].
  assert (Hf' : forall b', p_bufs p !! i = Some b' ->
    nb_ref (set_ref (u8 (nb_ref b' + 1)) b') = nb_ref b + 1).
  { intros b' Hb'. rewrite Hb in Hb'. injection Hb' as ->. cbn. apply Z.mod_small. lia. }
  split; [by apply refs_alter|].
  apply (wf_set_ref p (fun b => set_ref (u8 (nb_ref b + 1)) b) i (nb_ref b + 1)); try done; try lia.
  - unfold is_byte. lia.
  - apply Hwf.
  - intros j. destruct (decide (j = i)) as [->|]; [|split; [by right|by intros [[? _]|[_ ?]]]].
    split; [done|intros [[_ E]|[? _]]; lia || done].
Qed.

Lemma net_buf_unref_spec p i c :
  pool_wf p -> refs p !! i = Some c -> 0 < c ->
  refs (net_buf_unref i p) = <[i := c - 1]> (refs p) /\ pool_wf (net_buf_unref i p).
Proof.
  intros Hwf Hi Hc. destruct (refs_used _ _ _ Hwf Hi) as (Hused & Hni & Hlt); [lia|].
  destruct (refs_lookup _ _ _ Hi) as [b [Hb <-]].
  assert (Hset : <[i := set_ref (u8 (nb_ref b - 1)) b]> (p_bufs p) =
    alter (fun b' => set_ref (nb_ref b - 1) b') i (p_bufs p)).
  { apply list_eq. intros j. destruct (decide (i = j)) as [<-|].
    - rewrite list_lookup_insert_eq, list_lookup_alter_eq, Hb by (by eapply lookup_lt_Some).
      unfold u8. by rewrite Z.mod_small by lia.
    - by rewrite list_lookup_insert_ne, list_lookup_alter_ne. }
  unfold net_buf_unref. rewrite Hb. cbv zeta. record_simpl. rewrite Hset.
  unfold u8. rewrite Z.mod_small by lia.
  pose proof (pw_nodup p Hwf) as Hnd.
  assert (Hgo : forall l, (forall j, j ∈ l <-> (j = i /\ nb_ref b - 1 = 0) \/ (j <> i /\ j ∈ p_free p)) ->
    NoDup l ->
    refs (mk_pool (alter (fun b' => set_ref (nb_ref b - 1) b') i (p_bufs p)) (p_uninit p) l) =
      <[i := nb_ref b - 1]> (refs p) /\
    pool_wf (mk_pool (alter (fun b' => set_ref (nb_ref b - 1) b') i (p_bufs p)) (p_uninit p) l)).
  { intros l Hl Hndl. split; [by apply refs_alter|].
    apply (wf_set_ref p (fun b' => set_ref (nb_ref b - 1) b') i (nb_ref b - 1));
      try done; try lia. unfold is_byte. lia. }
  destruct (Z.ltb_spec 0 (nb_ref b - 1)) as [Hpos|Hz]; apply Hgo; try done.
  - intros j. destruct (decide (j = i)) as [->|]; [|split; [by right|by intros [[? _]|[_ ?]]]].
    split; [done|intros [[_ E]|[? _]]; [lia|done]].
  - intros j. rewrite elem_of_cons. destruct (decide (j = i)) as [->|]; [|split; [intros [?|?]; [done|by right]|intros [[? _]|[_ ?]]; [done|by right]]].
    split; [intros _; left; split; [done|lia]|by left].
  - by apply list.NoDup_cons.
Qed.

Lemma pool_do_step reset op p :
  pool_wf p -> op_allowed (refs p) op ->
  pool_wf (snd (pool_do reset op p)) /\
  ref_step (refs p) op (fst (pool_do reset op p)) (refs (snd (pool_do reset op p))).
Proof.
  intros Hwf. destruct op as [|i|i]; cbn [pool_do op_allowed fst snd].
  - intros _. pose proof (net_buf_alloc_spec reset p Hwf) as H.
    destruct (net_buf_alloc reset p) as [[i p']|]; [|by split; [|constructor]].
    cbn [fst snd]. destruct H as (H0 & -> & Hwf' & _). split; [done|by constructor].
  - intros (c & Hi & Hc). destruct (net_buf_ref_spec p i c) as [-> ?]; try done.
    split; [done|by constructor].
  - intros (c & Hi & Hc). destruct (net_buf_unref_spec p i c) as [-> ?]; try done.
    split; [done|by constructor].
Qed.

(** C34: from the moment it is initialised, the pool behaves as a vector of
    reference counts, whatever order of allocations, references and releases
    its users choose: an allocation returns a buffer nobody references and
    gives it one reference, it fails only when every buffer is referenced, and
    a reference or a release changes that buffer's count alone. So a released
    buffer is never lost and a referenced one never handed out again. *)
Theorem pool_refines (reset : X -> X) n x ops :
  ops_allowed reset ops (pool_init n x) ->
  let '(results, p) := pool_run reset ops (pool_init n x) in
  ref_trace (replicate n 0) ops results (refs p).
Proof.
  assert (HR : refs (pool_init n x) = replicate n 0) by apply fmap_replicate.
  rewrite <- HR. generalize (pool_init_wf n x). generalize (pool_init n x). clear.
  induction ops as [|op ops IH]; intros p Hwf Hall; cbn [pool_run]; [constructor|].
  destruct Hall as [Hop Hall]. pose proof (pool_do_step reset op p Hwf Hop) as [Hwf1 Hs].
  destruct (pool_do reset op p) as [r p1]. cbn [fst snd] in *.
  specialize (IH p1 Hwf1 Hall). destruct (pool_run reset ops p1) as [rs p2]. by econstructor.
Qed.
End pool.

(** A pool of two buffers: the released buffer is reused before the unused one. *)
Definition sample_ops : list pool_op := [PAlloc; PRef 0; PUnref 0; PUnref 0; PAlloc; PAlloc; PAlloc].

Theorem pool_refines_witness :
  let '(results, p) := pool_run (fun x : unit => x) sample_ops (pool_init 2 tt) in
  results = [Some 0; None; None; None; Some 0; Some 1; None]%nat /\
  ref_trace (replicate 2 0) sample_ops results (refs p).
Proof.
  pose proof (pool_refines (fun x : unit => x) 2 tt sample_ops) as H.
  assert (Hok : ops_allowed (fun x : unit => x) sample_ops (pool_init 2 tt)).
  { repeat split; [exists 1|exists 2|exists 1]; (split; [reflexivity|lia]). }
  specialize (H Hok). vm_compute in H |- *. split; [reflexivity|exact H].
Defined.
