(* ===== verification/Work.v ===== *)
(** * Delayed work (bt_common/work.c, event_scheduler.c)

    Every timer of the stack is a [k_delayed_work]: an item with the time it was
    submitted at and its delay, in a queue sorted by the 32-bit sum of the two,
    whose head the scheduler loop runs once its time has come. Items are named
    by number; running the handler of item [i] is the event [WRun i]. *)

From Stdlib Require Import Sorted.
From S2P Require Import Prelude.

(** [struct k_work]. *)
Record work := mk_work { wk_pending : bool; wk_start_ms : Z; wk_timeout : Z }.
#[export] Instance work_settable : Settable work.
Proof. settable (fun w => mk_work (wk_pending w) (wk_start_ms w) (wk_timeout w)). Defined.
Definition idle_work : work := mk_work false 0 0.

(** [g_work_queue] and the items there are. *)
Record work_q := mk_work_q { wq_items : list work; wq_queue : list nat }.
#[export] Instance work_q_settable : Settable work_q.
Proof. settable (fun q => mk_work_q (wq_items q) (wq_queue q)). Defined.

Inductive work_event :=
| WEarlier               (** [event_callback(K_POLL_TYPE_EARLIER_WORK)] *)
| WRun (i : nat).        (** [work->handler(work)] *)

Abbreviation W := (stm work_q work_event).

Definition K_FOREVER : Z := -1.

(** [work->start_ms + work->timeout], a 32-bit sum. *)
Definition work_due (w : work) : Z := u32 (wk_start_ms w + wk_timeout w).

Definition get_work (q : work_q) (i : nat) : work := default idle_work (wq_items q !! i).
Definition item_due (q : work_q) (i : nat) : Z := work_due (get_work q i).
Definition set_work (i : nat) (f : work -> work) (q : work_q) : work_q :=
  q <| wq_items := alter f i (wq_items q) |>.

(** The insertion of the loop over the queue: before the first item that is due
    later. *)
Fixpoint insert_due (q : work_q) (i : nat) (l : list nat) : list nat :=
  match l with
  | [] => [i]
  | j :: l => if item_due q i <? item_due q j then i :: j :: l else j :: insert_due q i l
  end.

Definition k_work_submit_to_queue (i : nat) : W unit :=
  q <- stm_get ;;
  if wk_pending (get_work q i) then mret tt
  else
    stm_modify (fun q =>
      let q := set_work i (fun w => w <| wk_pending := true |>) q in
      q <| wq_queue := insert_due q i (wq_queue q) |>) ;;
    match head (wq_queue q) with
    | Some j => if item_due q i <? item_due q j then stm_emit [WEarlier] else mret tt
    | None => mret tt
    end.

(** [sys_slist_find_and_remove]. *)
Fixpoint slist_remove (i : nat) (l : list nat) : list nat :=
  match l with
  | [] => []
  | j :: l => if decide (j = i) then l else j :: slist_remove i l
  end.
Definition k_work_rm_from_queue (i : nat) (q : work_q) : work_q :=
  q <| wq_queue := slist_remove i (wq_queue q) |>.

Definition k_work_init (i : nat) (q : work_q) : work_q := set_work i (fun _ => idle_work) q.

Definition k_delayed_work_cancel (i : nat) (q : work_q) : work_q :=
  k_work_rm_from_queue i
    (set_work i (fun w => (w <| wk_timeout := 0 |>) <| wk_pending := false |>) q).

(** [now] is [k_uptime_get_32()]. *)
Definition k_delayed_work_submit (now : Z) (i : nat) (delay : Z) : W unit :=
  q <- stm_get ;;
  (if wk_pending (get_work q i) then stm_modify (k_delayed_work_cancel i) else mret tt) ;;
  stm_modify (set_work i (fun w => (w <| wk_start_ms := u32 now |>) <| wk_timeout := u32 delay |>)) ;;
  k_work_submit_to_queue i.

Definition k_work_submit (now : Z) (i : nat) : W unit := k_delayed_work_submit now i 0.

(** [s32_t] of a 32-bit value. *)
Definition s32 (z : Z) : Z := if z <? 2147483648 then z else z - 4294967296.

Definition k_delayed_work_remaining_get (now : Z) (w : work) : Z :=
  let remain := s32 (u32 (wk_timeout w - u32 (u32 now - wk_start_ms w))) in
  if remain <? 0 then 0 else remain.

(** ** The scheduler loop (event_scheduler.c) *)

(** How long the loop polls for other events. *)
Definition poll_timeout (now : Z) (q : work_q) : Z :=
  match head (wq_queue q) with
  | None => K_FOREVER
  | Some i =>
      let delayed := if u32 now <? item_due q i then s32 (u32 (item_due q i - u32 now)) else 0 in
      if delayed =? 0 then 1 else delayed
  end.

(** The end of one iteration: the first item runs when it is due. *)
Definition run_due (now : Z) : W unit :=
  q <- stm_get ;;
  match wq_queue q with
  | [] => mret tt
  | i :: _ =>
      if item_due q i <=? u32 now then
        stm_modify (k_work_rm_from_queue i) ;;
        if wk_pending (get_work q i) then
          stm_modify (set_work i (fun w => w <| wk_pending := false |>)) ;;
          stm_emit [WRun i]
        else mret tt
      else mret tt
  end.

(** ** The abstract timers: pending items with their deadlines, in the order
    they were submitted *)

Inductive work_op := OpSubmit (i : nat) (delay : Z) | OpCancel (i : nat) | OpRun.

(** Item [i] is not pending. *)
Definition not_item (i : nat) (e : nat * Z) : Prop := e.1 <> i.
#[export] Instance not_item_dec i e : Decision (not_item i e).
Proof. unfold not_item. apply _. Defined.

(** A run takes the item with the earliest deadline, the first submitted among
    equals, and only once the deadline has passed. *)
Inductive timer_step (now : Z) : list (nat * Z) -> work_op -> option nat -> list (nat * Z) -> Prop :=
| ts_submit l i delay :
    timer_step now l (OpSubmit i delay) None (filter (not_item i) l ++ [(i, now + delay)])
| ts_cancel l i : timer_step now l (OpCancel i) None (filter (not_item i) l)
| ts_run l1 i d l2 :
    d <= now -> Forall (fun e => d < e.2) l1 -> Forall (fun e => d <= e.2) l2 ->
    timer_step now (l1 ++ (i, d) :: l2) OpRun (Some i) (l1 ++ l2)
| ts_wait l : Forall (fun e => now < e.2) l -> timer_step now l OpRun None l.

Definition work_do (now : Z) (op : work_op) : W unit :=
  match op with
  | OpSubmit i delay => k_delayed_work_submit now i delay
  | OpCancel i => stm_modify (k_delayed_work_cancel i)
  | OpRun => run_due now
  end.

(** The item an operation ran. *)
Definition ran (e : list work_event) : option nat :=
  head (omap (fun e => match e with WRun i => Some i | _ => None end) e).

Fixpoint work_run (ops : list (Z * work_op)) (q : work_q) : option (list (option nat) * work_q) :=
  match ops with
  | [] => Some ([], q)
  | (now, op) :: ops =>
      '(_, q, e) ← work_do now op q;
      '(rs, q) ← work_run ops q; Some (ran e :: rs, q)
  end.

Inductive timer_trace : list (nat * Z) -> list (Z * work_op) -> list (option nat) -> list (nat * Z) -> Prop :=
| tt_nil l : timer_trace l [] [] l
| tt_cons l now op r l1 ops rs l2 :
    timer_step now l op r l1 -> timer_trace l1 ops rs l2 ->
    timer_trace l ((now, op) :: ops) (r :: rs) l2.

(** The 32-bit clock does not wrap while the timers are pending. *)
Definition work_op_ok (n : nat) (o : Z * work_op) : Prop :=
  0 <= o.1 < 4294967296 /\
  match o.2 with
  | OpSubmit i delay => (i < n)%nat /\ 0 <= delay /\ o.1 + delay < 4294967296
  | OpCancel i => (i < n)%nat
  | OpRun => True
  end.

(** ** The queue is a stable sort of the pending timers *)

Definition due_le (a b : nat * Z) : Prop := a.2 <= b.2.
Definition at_time (d : Z) (e : nat * Z) : Prop := e.2 = d.
#[export] Instance at_time_dec d e : Decision (at_time d e).
Proof. unfold at_time. apply _. Defined.

(** [l] sorted by deadline, equal deadlines in the same order. *)
Record stable_sort (s l : list (nat * Z)) : Prop := {
  ss_sorted : StronglySorted due_le s;
  ss_stable d : filter (at_time d) s = filter (at_time d) l
}.

Lemma filter_none {A} (P : A -> Prop) `{!forall x, Decision (P x)} (l : list A) :
  (forall x, x ∈ l -> ~ P x) -> filter P l = [].
Proof.
  induction l as [|x l IH]; intros Hn; [done|].
  rewrite filter_cons_False by (apply Hn; by left). apply IH. intros y Hy. apply Hn. by right.
Qed.

Lemma filter_all {A} (P : A -> Prop) `{!forall x, Decision (P x)} (l : list A) :
  (forall x, x ∈ l -> P x) -> filter P l = l.
Proof.
  induction l as [|x l IH]; intros Hn; [done|].
  rewrite filter_cons_True by (apply Hn; by left). f_equal. apply IH. intros y Hy. apply Hn. by right.
Qed.

(** The first element that satisfies [P]. *)
Lemma filter_first {A} (P : A -> Prop) `{!forall x, Decision (P x)} (l : list A) x k :
  filter P l = x :: k -> exists l1 l2, l = l1 ++ x :: l2 /\ forall y, y ∈ l1 -> ~ P y.
Proof.
  induction l as [|y l IH]; [done|]. rewrite filter_cons. destruct (decide (P y)) as [Hy|Hy].
  - intros [= <- _]. exists [], l. split; [done|]. intros z Hz. by apply elem_of_nil in Hz.
  - intros Hl. destruct (IH Hl) as (l1 & l2 & -> & Hl1). exists (y :: l1), l2.
    split; [done|]. intros z [->|Hz]%elem_of_cons; auto.
Qed.

Lemma stable_sort_in s l e : stable_sort s l -> e ∈ s <-> e ∈ l.
Proof.
  intros [_ H]. specialize (H e.2).
  assert (He : forall k : list (nat * Z), e ∈ k <-> e ∈ filter (at_time e.2) k).
  { intros k. rewrite list_elem_of_filter. unfold at_time. tauto. }
  by rewrite (He s), (He l), H.
Qed.

Fixpoint ins (e : nat * Z) (l : list (nat * Z)) : list (nat * Z) :=
  match l with
  | [] => [e]
  | f :: l => if e.2 <? f.2 then e :: f :: l else f :: ins e l
  end.

Lemma ins_in e l f : f ∈ ins e l <-> f = e \/ f ∈ l.
Proof.
  induction l as [|g l IH]; cbn; [by rewrite elem_of_cons|].
  case_match; rewrite !elem_of_cons, ?IH; tauto.
Qed.

Lemma sorted_head e l f : StronglySorted due_le (e :: l) -> f ∈ l -> e.2 <= f.2.
Proof.
  intros H Hf. inversion H as [|? ? _ Hall]; subst. rewrite List.Forall_forall in Hall.
  by apply Hall, list_elem_of_In.
Qed.

Lemma ins_sorted e l : StronglySorted due_le l -> StronglySorted due_le (ins e l).
Proof.
  induction l as [|f l IH]; intros Hs; cbn.
  - repeat constructor.
  - destruct (Z.ltb_spec e.2 f.2).
    + constructor; [done|]. apply List.Forall_forall. intros g Hg.
      apply list_elem_of_In, elem_of_cons in Hg as [->|Hg]; unfold due_le; [lia|].
      pose proof (sorted_head _ _ _ Hs Hg). lia.
    + inversion Hs as [|? ? Hs' Hall]; subst. constructor; [auto|].
      apply List.Forall_forall. intros g Hg.
      apply list_elem_of_In, ins_in in Hg as [->|Hg]; unfold due_le; [lia|].
      by apply (sorted_head f l).
Qed.

Lemma ins_filter d e l :
  StronglySorted due_le l ->
  filter (at_time d) (ins e l) =
  filter (at_time d) l ++ (if decide (at_time d e) then [e] else []).
Proof.
  induction l as [|f l IH]; intros Hs; cbn [ins].
  - rewrite filter_cons. by destruct (decide (at_time d e)).
  - destruct (Z.ltb_spec e.2 f.2) as [Hlt|Hge].
    + rewrite (filter_cons (at_time d) e). destruct (decide (at_time d e)) as [He|]; [|by rewrite app_nil_r].
      enough (filter (at_time d) (f :: l) = []) as -> by done.
      apply filter_none. intros g Hg.
      apply elem_of_cons in Hg as [->|Hg]; unfold at_time in *; [lia|].
      pose proof (sorted_head _ _ _ Hs Hg). lia.
    + inversion Hs as [|? ? Hs' _]; subst. rewrite !filter_cons, IH by done.
      by destruct (decide (at_time d f)).
Qed.

Lemma stable_ins e s l : stable_sort s l -> stable_sort (ins e s) (l ++ [e]).
Proof.
  intros [Hs Hf]. split; [by apply ins_sorted|]. intros d.
  rewrite ins_filter, list.filter_app, Hf by done. f_equal.
Qed.

Lemma sorted_filter (P : nat * Z -> Prop) `{!forall e, Decision (P e)} l :
  StronglySorted due_le l -> StronglySorted due_le (filter P l).
Proof.
  induction l as [|e l IH]; intros Hs; [done|]. rewrite filter_cons.
  inversion Hs as [|? ? Hs' Hall]; subst. case_decide; [|auto]. constructor; [auto|].
  apply List.Forall_forall. intros f Hf. apply list_elem_of_In, list_elem_of_filter in Hf as [_ Hf].
  by apply (sorted_head e l).
Qed.

Lemma filter_comm {A} (P Q : A -> Prop) `{!forall x, Decision (P x)} `{!forall x, Decision (Q x)} (l : list A) :
  filter P (filter Q l) = filter Q (filter P l).
Proof.
  rewrite !list_filter_filter. apply list_filter_iff. tauto.
Qed.

Lemma stable_filter i s l : stable_sort s l -> stable_sort (filter (not_item i) s) (filter (not_item i) l).
Proof.
  intros [Hs Hf]. split; [by apply sorted_filter|]. intros d.
  by rewrite filter_comm, Hf, filter_comm.
Qed.

(** ** The invariant *)

Definition entry (q : work_q) (i : nat) : nat * Z := (i, item_due q i).
Definition entries (q : work_q) : list (nat * Z) := map (entry q) (wq_queue q).

(** The queue holds exactly the pending items, each once, and sorts the
    abstract timers [l]. *)
Record work_inv (n : nat) (q : work_q) (l : list (nat * Z)) : Prop := {
  wi_items : length (wq_items q) = n;
  wi_nodup : NoDup (wq_queue q);
  wi_pending i : i ∈ wq_queue q <-> wk_pending (get_work q i) = true;
  wi_sort : stable_sort (entries q) l
}.

Lemma get_set_work q i j f :
  get_work (set_work i f q) j =
  if decide (i = j /\ (i < length (wq_items q))%nat) then f (get_work q j) else get_work q j.
Proof.
  unfold get_work, set_work. cbn.
  destruct (decide (i = j)) as [<-|Hne].
  - rewrite list_lookup_alter_eq. destruct (wq_items q !! i) as [w|] eqn:E.
    + rewrite decide_True; [done|]. split; [done|]. by eapply lookup_lt_Some.
    + rewrite decide_False; [done|]. apply lookup_ge_None in E. lia.
  - rewrite list_lookup_alter_ne by done. rewrite decide_False by tauto. done.
Qed.

Lemma get_set_work_eq q i f :
  (i < length (wq_items q))%nat -> get_work (set_work i f q) i = f (get_work q i).
Proof. intros. by rewrite get_set_work, decide_True. Qed.
Lemma get_set_work_ne q i j f : i <> j -> get_work (set_work i f q) j = get_work q j.
Proof. intros. rewrite get_set_work, decide_False by tauto. done. Qed.

Lemma slist_remove_filter i l : NoDup l -> slist_remove i l = filter (fun j => j <> i) l.
Proof.
  induction l as [|j l IH]; intros Hnd; [done|]. apply list.NoDup_cons in Hnd as [Hj Hnd].
  cbn [slist_remove]. rewrite filter_cons. destruct (decide (j = i)) as [->|Hne].
  - rewrite decide_False by tauto. symmetry. rewrite <- IH by done.
    clear IH Hnd. induction l as [|k l IH]; [done|]. cbn.
    apply not_elem_of_cons in Hj as [? ?]. rewrite decide_False by done. f_equal. auto.
  - rewrite decide_True by done. f_equal. auto.
Qed.

(** The entries of a queue whose other items did not change. *)
Lemma entries_filter (q q' : work_q) i l :
  (forall j, j <> i -> get_work q' j = get_work q j) ->
  map (entry q') (filter (fun j => j <> i) l) = filter (not_item i) (map (entry q) l).
Proof.
  intros H. induction l as [|j l IH]; [done|]. cbn [map].
  destruct (decide (j = i)) as [->|Hne].
  - rewrite !filter_cons_False; [done|unfold not_item; cbn; tauto|tauto].
  - rewrite !filter_cons_True by (unfold not_item; done). cbn [map]. rewrite IH.
    f_equal. unfold entry, item_due. by rewrite H.
Qed.

Lemma entries_insert (q : work_q) i l :
  map (entry q) (insert_due q i l) = ins (entry q i) (map (entry q) l).
Proof.
  induction l as [|j l IH]; [done|]. cbn [insert_due map ins entry snd].
  case_match; cbn [map]; by rewrite ?IH.
Qed.

Lemma insert_due_in q i l j : j ∈ insert_due q i l <-> j = i \/ j ∈ l.
Proof.
  induction l as [|k l IH]; cbn; [by rewrite elem_of_cons|].
  case_match; rewrite !elem_of_cons, ?IH; tauto.
Qed.
Lemma insert_due_nodup q i l : i ∉ l -> NoDup l -> NoDup (insert_due q i l).
Proof.
  induction l as [|k l IH]; cbn; intros Hi Hnd; [by repeat constructor|].
  apply not_elem_of_cons in Hi as [Hik Hi]. apply list.NoDup_cons in Hnd as [Hk Hnd].
  case_match; constructor; rewrite ?insert_due_in, ?elem_of_cons; try tauto.
  - by constructor.
  - intros [->|?]; tauto.
Qed.

Lemma wi_lt n q l i : work_inv n q l -> i ∈ wq_queue q -> (i < n)%nat.
Proof.
  intros [<- _ Hp _] Hi. apply Hp in Hi. unfold get_work in Hi.
  destruct (wq_items q !! i) eqn:E; [by eapply lookup_lt_Some|done].
Qed.

Lemma cancel_inv n q l i :
  work_inv n q l -> (i < n)%nat ->
  work_inv n (k_delayed_work_cancel i q) (filter (not_item i) l).
Proof.
  intros [Hn Hnd Hp Hs] Hi. unfold k_delayed_work_cancel.
  set (q' := set_work i _ q).
  assert (Hother : forall j, j <> i -> get_work q' j = get_work q j)
    by (intros; by apply get_set_work_ne).
  split.
  - cbn. by rewrite length_alter.
  - cbn. rewrite slist_remove_filter by done. by apply list.NoDup_filter.
  - intros j. cbn. change (get_work (k_work_rm_from_queue i q') j) with (get_work q' j).
    rewrite slist_remove_filter, list_elem_of_filter by done.
    destruct (decide (j = i)) as [->|Hne].
    + unfold q'. rewrite get_set_work_eq by lia. cbn. split; [tauto|done].
    + rewrite Hother, <- Hp by done. tauto.
  - replace (entries _) with (filter (not_item i) (entries q)); [by apply stable_filter|].
    unfold entries. cbn. rewrite slist_remove_filter by done. symmetry.
    apply (entries_filter q (k_work_rm_from_queue i q')). exact Hother.
Qed.

(** Writing to an item that is not queued. *)
Lemma set_work_inv n q l i f :
  work_inv n q l -> wk_pending (get_work q i) = false ->
  (forall w, wk_pending (f w) = wk_pending w) ->
  work_inv n (set_work i f q) l.
Proof.
  intros Hinv Hi Hf. destruct Hinv as [Hn Hnd Hp Hs].
  assert (Hq : i ∉ wq_queue q) by (intros Hin; apply Hp in Hin; congruence).
  assert (Hget : forall j, wk_pending (get_work (set_work i f q) j) = wk_pending (get_work q j)).
  { intros j. rewrite get_set_work. by destruct (decide _). }
  split.
  - cbn. by rewrite length_alter.
  - done.
  - intros j. rewrite Hget. apply Hp.
  - replace (entries (set_work i f q)) with (entries q); [done|].
    apply map_ext_in. intros j Hj%list_elem_of_In. unfold entry, item_due.
    rewrite get_set_work_ne; [done|]. intros ->. done.
Qed.

(** Queueing an item that is not. *)
Lemma insert_inv n q l i :
  work_inv n q l -> wk_pending (get_work q i) = false -> (i < n)%nat ->
  let q1 := set_work i (fun w => w <| wk_pending := true |>) q in
  work_inv n (q1 <| wq_queue := insert_due q1 i (wq_queue q1) |>) (l ++ [entry q i]).
Proof.
  intros [Hn Hnd Hp Hs] Hi Hlt q1.
  assert (Hq : i ∉ wq_queue q) by (intros Hin; apply Hp in Hin; congruence).
  assert (Hdue : forall j, entry q1 j = entry q j).
  { intros j. unfold entry, item_due, q1. rewrite get_set_work. by destruct (decide _). }
  split.
  - cbn. by rewrite length_alter.
  - by apply insert_due_nodup.
  - intros j. cbn [update_field wq_queue]. rewrite insert_due_in.
    change (get_work _ j) with (get_work q1 j). destruct (decide (i = j)) as [<-|Hne].
    + unfold q1. rewrite get_set_work_eq by lia. cbn. tauto.
    + unfold q1. rewrite get_set_work_ne by done. cbn. rewrite <- Hp.
      split; [by intros [->|?]|by right].
  - change (entries _) with (map (entry q1) (insert_due q1 i (wq_queue q))).
    rewrite entries_insert, Hdue.
    rewrite (map_ext_in _ (entry q)) by (intros; apply Hdue). by apply stable_ins.
Qed.

(** An item that is not pending has no timer. *)
Lemma not_pending_filter n q l i :
  work_inv n q l -> wk_pending (get_work q i) = false -> filter (not_item i) l = l.
Proof.
  intros [_ _ Hp Hs] Hi. apply filter_all. intros e He. apply (stable_sort_in _ _ _ Hs) in He. intros Heq.
  apply list_elem_of_In, in_map_iff in He as (j & <- & Hj%list_elem_of_In).
  cbn in Heq. subst j. apply Hp in Hj. congruence.
Qed.

Lemma submit_to_queue_ok n q l i :
  work_inv n q l -> wk_pending (get_work q i) = false -> (i < n)%nat ->
  stm_wp (k_work_submit_to_queue i)
    (fun _ q' e => work_inv n q' (l ++ [entry q i]) /\ ran e = None) q.
Proof.
  intros Hinv Hi Hlt. unfold k_work_submit_to_queue. wp_steps. rewrite Hi. wp_steps.
  pose proof (insert_inv n q l i Hinv Hi Hlt). destruct (head (wq_queue q)).
  - destruct (item_due q i <? _); wp_steps; done.
  - by wp_steps.
Qed.

Lemma submit_ok n q l now i delay :
  work_inv n q l -> (i < n)%nat -> 0 <= now -> 0 <= delay -> now + delay < 4294967296 ->
  stm_wp (k_delayed_work_submit now i delay)
    (fun _ q' e => work_inv n q' (filter (not_item i) l ++ [(i, now + delay)]) /\ ran e = None) q.
Proof.
  intros Hinv Hlt Hnow Hd Hsum. unfold k_delayed_work_submit. wp_steps.
  apply (wp_mono _ (fun _ q1 e => e = [] /\ work_inv n q1 (filter (not_item i) l) /\
    wk_pending (get_work q1 i) = false)).
  { destruct (wk_pending (get_work q i)) eqn:Hp; wp_steps.
    - split; [done|]. split; [by apply cancel_inv|].
      change (get_work (k_delayed_work_cancel i q) i) with
        (get_work (set_work i (fun w => (w <| wk_timeout := 0 |>) <| wk_pending := false |>) q) i).
      rewrite get_set_work_eq by (by rewrite (wi_items _ _ _ Hinv)). done.
    - split; [done|]. split; [|done]. by rewrite (not_pending_filter n q l i). }
  intros _ q1 e1 (-> & Hinv1 & Hp1). wp_steps.
  set (q2 := set_work i _ q1).
  assert (Hinv2 : work_inv n q2 (filter (not_item i) l)) by (by apply set_work_inv).
  assert (Hget : get_work q2 i = mk_work false now delay).
  { unfold q2. rewrite get_set_work_eq by (by rewrite (wi_items _ _ _ Hinv1)).
    destruct (get_work q1 i). cbn in *. subst.
    record_simpl. unfold u32. by rewrite !Z.mod_small by lia. }
  eapply wp_mono; [apply (submit_to_queue_ok n q2); [done|by rewrite Hget|done]|].
  intros _ q3 e [Hinv3 He]. cbn. split; [|done].
  unfold entry, item_due, work_due in Hinv3. rewrite Hget in Hinv3. cbn in Hinv3.
  unfold u32 in Hinv3. by rewrite Z.mod_small in Hinv3 by lia.
Qed.

(** The head of the queue in the order of submission. *)
Lemma stable_sort_run e s l :
  stable_sort (e :: s) l ->
  exists l1 l2, l = l1 ++ e :: l2 /\ Forall (fun f => e.2 < f.2) l1 /\
    Forall (fun f => e.2 <= f.2) l2 /\ stable_sort s (l1 ++ l2).
Proof.
  intros Hs. pose proof (fun f => stable_sort_in _ _ f Hs) as Hin.
  assert (Hmin : forall f, f ∈ l -> e.2 <= f.2).
  { intros f Hf. apply Hin, elem_of_cons in Hf as [->|Hf]; [lia|].
    by apply (sorted_head e s); [apply Hs|]. }
  destruct Hs as [Hsort Hst]. pose proof (Hst e.2) as He.
  rewrite filter_cons_True in He by done.
  destruct (filter_first (at_time e.2) l e (filter (at_time e.2) s)) as (l1 & l2 & -> & Hl1);
    [done|].
  exists l1, l2. split; [done|]. split_and!.
  - apply List.Forall_forall. intros f Hf%list_elem_of_In.
    assert (e.2 <= f.2) by (apply Hmin, elem_of_app; by left).
    specialize (Hl1 f Hf). unfold at_time in Hl1. lia.
  - apply List.Forall_forall. intros f Hf%list_elem_of_In.
    apply Hmin, elem_of_app. right. by right.
  - inversion Hsort; subst. split; [done|]. intros d. specialize (Hst d).
    rewrite list.filter_app in Hst |- *. rewrite !filter_cons in Hst.
    destruct (decide (at_time d e)) as [Hd|]; [|done].
    rewrite (filter_none _ l1) in Hst |- *; [by injection Hst|..];
      intros f Hf; unfold at_time in *; rewrite <- Hd; by apply Hl1.
Qed.

(** Taking the head out of the queue. *)
Lemma run_inv n q l i s :
  length (wq_items q) = n -> wq_queue q = i :: s -> i ∉ s -> NoDup s ->
  (forall j, j ∈ wq_queue q <-> wk_pending (get_work q j) = true) ->
  stable_sort (map (entry q) s) l ->
  work_inv n (set_work i (fun w => w <| wk_pending := false |>) (k_work_rm_from_queue i q)) l.
Proof.
  intros Hn Eq Hi Hnd Hp Hs.
  assert (Hlt : (i < length (wq_items q))%nat).
  { destruct (Hp i) as [Hpi _]. rewrite Eq in Hpi. specialize (Hpi (list_elem_of_here _ _)).
    unfold get_work in Hpi. destruct (wq_items q !! i) eqn:E; [by eapply lookup_lt_Some|done]. }
  assert (Hrm : slist_remove i (wq_queue q) = s) by (rewrite Eq; cbn; by rewrite decide_True).
  split; cbn [set_work k_work_rm_from_queue update_field wq_items wq_queue]; rewrite ?Hrm.
  - by rewrite length_alter.
  - done.
  - intros j. destruct (decide (i = j)) as [<-|Hne].
    + rewrite get_set_work_eq by done. cbn. by split.
    + rewrite get_set_work_ne by done. change (get_work _ j) with (get_work q j).
      rewrite <- Hp, Eq, elem_of_cons. split; [by right|by intros [->|?]].
  - unfold entries. cbn [set_work k_work_rm_from_queue update_field wq_items wq_queue].
    rewrite Hrm. erewrite map_ext_in; [exact Hs|]. intros j Hj%list_elem_of_In.
    unfold entry, item_due. rewrite get_set_work_ne; [done|]. intros ->. done.
Qed.

Lemma run_ok n q l now :
  work_inv n q l -> 0 <= now < 4294967296 ->
  stm_wp (run_due now)
    (fun _ q' e => exists l', timer_step now l OpRun (ran e) l' /\ work_inv n q' l') q.
Proof.
  intros Hinv Hnow. pose proof Hinv as [Hn Hnd Hp Hs]. unfold run_due. wp_steps.
  unfold entries in Hs. destruct (wq_queue q) as [|i s] eqn:Eq.
  - wp_steps. exists l. split; [|done]. constructor. apply List.Forall_forall.
    intros e He%list_elem_of_In. apply (stable_sort_in _ _ _ Hs) in He.
    by apply elem_of_nil in He.
  - cbn [map] in Hs. unfold u32. rewrite Z.mod_small by lia.
    destruct (Z.leb_spec (item_due q i) now) as [Hle|Hgt].
    + destruct (Hp i) as [Hpi _]. rewrite Hpi by left. wp_steps.
      destruct (stable_sort_run _ _ _ Hs) as (l1 & l2 & -> & Hl1 & Hl2 & Hs').
      exists (l1 ++ l2). split; [by constructor|].
      apply list.NoDup_cons in Hnd as [Hi Hnd]. apply (run_inv n q _ i s); try done.
      intros j. rewrite Eq. apply Hp.
    + wp_steps. exists l. split; [|done]. constructor. apply List.Forall_forall.
      intros e He%list_elem_of_In. apply (stable_sort_in _ _ _ Hs) in He.
      apply elem_of_cons in He as [->|He]; [done|].
      pose proof (sorted_head _ _ _ (ss_sorted _ _ Hs) He) as H. cbn in H. lia.
Qed.

Lemma work_step n q l now op :
  work_inv n q l -> work_op_ok n (now, op) ->
  stm_wp (work_do now op)
    (fun _ q' e => exists l', timer_step now l op (ran e) l' /\ work_inv n q' l') q.
Proof.
  intros Hinv [Hnow Hop]. destruct op as [i delay|i|]; cbn in *.
  - destruct Hop as (Hi & Hd & Hsum).
    eapply wp_mono; [apply (submit_ok n q l now i delay); try done; lia|].
    cbn. intros _ q' e [Hinv' ->]. eexists. split; [constructor|done].
  - wp_steps. eexists. split; [constructor|]. by apply cancel_inv.
  - by apply (run_ok n).
Qed.

Lemma work_init_inv n : work_inv n (mk_work_q (replicate n idle_work) []) [].
Proof.
  split; cbn.
  - apply length_replicate.
  - constructor.
  - intros i. split; [intros Hi; by apply elem_of_nil in Hi|].
    unfold get_work. cbn. destruct (replicate n idle_work !! i) eqn:E; [|done].
    apply lookup_replicate in E as [-> _]. done.
  - by repeat constructor.
Qed.

Lemma pending_iff n q l :
  work_inv n q l -> forall i, wk_pending (get_work q i) = true <-> exists d, (i, d) ∈ l.
Proof.
  intros [Hn Hnd Hp Hs] i. rewrite <- Hp. split.
  - intros Hi. exists (item_due q i). apply (stable_sort_in _ _ _ Hs).
    apply list_elem_of_In, in_map_iff. exists i. split; [done|by apply list_elem_of_In].
  - intros [d Hd]. apply (stable_sort_in _ _ _ Hs) in Hd.
    apply list_elem_of_In, in_map_iff in Hd as (j & [= -> _] & Hj). by apply list_elem_of_In.
Qed.

(** The loop sleeps until the next deadline at the latest. *)
Lemma poll_timeout_due n q l now :
  work_inv n q l -> 0 <= now < 4294967296 ->
  (l = [] -> poll_timeout now q = K_FOREVER) /\
  (forall i d, (i, d) ∈ l -> d - now < 2147483648 -> 0 <= d ->
     poll_timeout now q <= Z.max 1 (d - now)).
Proof.
  intros [Hn Hnd Hp Hs] Hnow. unfold poll_timeout. unfold entries in Hs. split.
  - intros ->. destruct (wq_queue q) as [|i s]; [done|].
    assert (entry q i ∈ @nil (nat * Z)) as Hi by (apply (stable_sort_in _ _ _ Hs); by left).
    by apply elem_of_nil in Hi.
  - intros i d Hi Hd Hpos. apply (stable_sort_in _ _ _ Hs) in Hi.
    destruct (wq_queue q) as [|j s]; [by apply elem_of_nil in Hi|]. cbn [head].
    assert (item_due q j <= d) as Hle.
    { apply elem_of_cons in Hi as [[= -> ->]|Hi]; [done|].
      by pose proof (sorted_head _ _ _ (ss_sorted _ _ Hs) Hi). }
    assert (0 <= item_due q j) by (unfold item_due, work_due, u32; apply Z.mod_pos_bound; lia).
    assert (u32 now = now) as -> by (unfold u32; rewrite Z.mod_small; lia).
    destruct (Z.ltb_spec now (item_due q j)) as [Hlt|]; [|cbn; lia].
    unfold s32, u32. rewrite Z.mod_small by lia. destruct (Z.ltb_spec (item_due q j - now) 2147483648); [|lia].
    destruct (Z.eqb_spec (item_due q j - now) 0); lia.
Qed.

(** C35: as long as the 32-bit millisecond clock does not wrap, the delayed
    work of the stack behaves as a set of timers: whatever the order of
    submissions, cancellations and turns of the scheduler loop, a turn runs the
    timer with the earliest deadline, the first submitted among equals, never
    before its deadline, and runs nothing only when no deadline has passed; a
    submission replaces the item's own timer; an item is marked pending exactly
    while it has a timer; and the loop never sleeps past a deadline. *)
Theorem delayed_work_timers n ops :
  Forall (work_op_ok n) ops ->
  exists results q l,
    work_run ops (mk_work_q (replicate n idle_work) []) = Some (results, q) /\
    timer_trace [] ops results l /\
    (forall i, wk_pending (get_work q i) = true <-> exists d, (i, d) ∈ l) /\
    (forall now i d, 0 <= now < 4294967296 -> (i, d) ∈ l -> d - now < 2147483648 -> 0 <= d ->
       poll_timeout now q <= Z.max 1 (d - now)).
Proof.
  intros Hops. pose proof (work_init_inv n) as Hinv. revert Hinv Hops.
  generalize (mk_work_q (replicate n idle_work) []), (@nil (nat * Z)).
  induction ops as [|[now op] ops IH]; intros q l Hinv Hops; cbn [work_run].
  - exists [], q, l. split_and!; [done|constructor|by apply (pending_iff n)|].
    intros now i d Hnow. by apply (poll_timeout_due n q l now).
  - apply Forall_cons_iff in Hops as [Hop Hops].
    destruct (wp_inv _ _ _ (work_step n q l now op Hinv Hop)) as (? & q1 & e & Heq & l1 & Hs & Hinv1).
    rewrite Heq. destruct (IH q1 l1 Hinv1 Hops) as (rs & q2 & l2 & Hrun & Htr & Hrest).
    exists (ran e :: rs), q2, l2. cbn. rewrite Hrun. split; [done|]. split; [by econstructor|done].
Qed.

(** Three timers: two due at 150, one cancelled. *)
Definition sample_work_ops : list (Z * work_op) :=
  [(100, OpSubmit 0 50); (110, OpSubmit 1 40); (120, OpSubmit 2 5); (121, OpCancel 2);
   (149, OpRun); (150, OpRun); (151, OpRun); (152, OpRun)].

Theorem delayed_work_timers_witness :
  exists results q l,
    work_run sample_work_ops (mk_work_q (replicate 3 idle_work) []) = Some (results, q) /\
    results = [None; None; None; None; None; Some 0; Some 1; None]%nat /\
    timer_trace [] sample_work_ops results l.
Proof.
  destruct (delayed_work_timers 3 sample_work_ops) as (rs & q & l & Hrun & Htr & _).
  - repeat constructor; cbn; lia.
  - exists rs, q, l. split; [exact Hrun|]. split; [|exact Htr].
    vm_compute in Hrun. congruence.
Defined.

(** A delay that reaches past the wrap of the 32-bit clock, every 49.7
    days, is lost: the sum of submission time and delay wraps to a time that
    has already passed, and the next turn of the loop runs the item at once,
    however long its delay was. *)
Theorem delay_across_wrap_fires_at_once now delay :
  0 <= now < 4294967296 -> 0 < delay < 4294967296 -> 4294967296 <= now + delay ->
  option_map (fun r => fst r)
    (work_run [(now, OpSubmit 0 delay); (now, OpRun)] (mk_work_q [idle_work] [])) =
  Some [None; Some 0%nat].
Proof.
  intros Hnow Hd Hsum.
  assert (Hdue : (u32 (u32 now + u32 delay) <=? u32 now) = true).
  { apply Z.leb_le. word_lia. }
  cbn. unfold item_due, work_due. cbn. rewrite Hdue. reflexivity.
Qed.

(** A minute's delay, submitted a second before the wrap. *)
Theorem delay_across_wrap_fires_at_once_witness :
  option_map (fun r => fst r)
    (work_run [(4294966296, OpSubmit 0 60000); (4294966296, OpRun)] (mk_work_q [idle_work] [])) =
  Some [None; Some 0%nat].
Proof. apply (delay_across_wrap_fires_at_once 4294966296 60000); lia. Defined.
