(* ===== verification/Aes.v ===== *)
(** * AES-128 encryption (bt_common/tinycrypt/source/aes_encrypt.c, utils.c)

    The block cipher behind [bt_mesh_aes_encrypt] in software builds, and the
    FIPS-197 cipher it is compared with. *)

From S2P Require Import Prelude NetBuf.

(** ** The implementation *)

Definition sbox : list Z :=
  [0x63; 0x7c; 0x77; 0x7b; 0xf2; 0x6b; 0x6f; 0xc5; 0x30; 0x01; 0x67; 0x2b;
   0xfe; 0xd7; 0xab; 0x76; 0xca; 0x82; 0xc9; 0x7d; 0xfa; 0x59; 0x47; 0xf0;
   0xad; 0xd4; 0xa2; 0xaf; 0x9c; 0xa4; 0x72; 0xc0; 0xb7; 0xfd; 0x93; 0x26;
   0x36; 0x3f; 0xf7; 0xcc; 0x34; 0xa5; 0xe5; 0xf1; 0x71; 0xd8; 0x31; 0x15;
   0x04; 0xc7; 0x23; 0xc3; 0x18; 0x96; 0x05; 0x9a; 0x07; 0x12; 0x80; 0xe2;
   0xeb; 0x27; 0xb2; 0x75; 0x09; 0x83; 0x2c; 0x1a; 0x1b; 0x6e; 0x5a; 0xa0;
   0x52; 0x3b; 0xd6; 0xb3; 0x29; 0xe3; 0x2f; 0x84; 0x53; 0xd1; 0x00; 0xed;
   0x20; 0xfc; 0xb1; 0x5b; 0x6a; 0xcb; 0xbe; 0x39; 0x4a; 0x4c; 0x58; 0xcf;
   0xd0; 0xef; 0xaa; 0xfb; 0x43; 0x4d; 0x33; 0x85; 0x45; 0xf9; 0x02; 0x7f;
   0x50; 0x3c; 0x9f; 0xa8; 0x51; 0xa3; 0x40; 0x8f; 0x92; 0x9d; 0x38; 0xf5;
   0xbc; 0xb6; 0xda; 0x21; 0x10; 0xff; 0xf3; 0xd2; 0xcd; 0x0c; 0x13; 0xec;
   0x5f; 0x97; 0x44; 0x17; 0xc4; 0xa7; 0x7e; 0x3d; 0x64; 0x5d; 0x19; 0x73;
   0x60; 0x81; 0x4f; 0xdc; 0x22; 0x2a; 0x90; 0x88; 0x46; 0xee; 0xb8; 0x14;
   0xde; 0x5e; 0x0b; 0xdb; 0xe0; 0x32; 0x3a; 0x0a; 0x49; 0x06; 0x24; 0x5c;
   0xc2; 0xd3; 0xac; 0x62; 0x91; 0x95; 0xe4; 0x79; 0xe7; 0xc8; 0x37; 0x6d;
   0x8d; 0xd5; 0x4e; 0xa9; 0x6c; 0x56; 0xf4; 0xea; 0x65; 0x7a; 0xae; 0x08;
   0xba; 0x78; 0x25; 0x2e; 0x1c; 0xa6; 0xb4; 0xc6; 0xe8; 0xdd; 0x74; 0x1f;
   0x4b; 0xbd; 0x8b; 0x8a; 0x70; 0x3e; 0xb5; 0x66; 0x48; 0x03; 0xf6; 0x0e;
   0x61; 0x35; 0x57; 0xb9; 0x86; 0xc1; 0x1d; 0x9e; 0xe1; 0xf8; 0x98; 0x11;
   0x69; 0xd9; 0x8e; 0x94; 0x9b; 0x1e; 0x87; 0xe9; 0xce; 0x55; 0x28; 0xdf;
   0x8c; 0xa1; 0x89; 0x0d; 0xbf; 0xe6; 0x42; 0x68; 0x41; 0x99; 0x2d; 0x0f;
   0xb0; 0x54; 0xbb; 0x16].

Definition Nb : nat := 4.
Definition Nk : nat := 4.
Definition Nr : nat := 10.

Definition sbox_at (i : Z) : Z := nth (Z.to_nat i) sbox 0.

Definition rotword (a : Z) : Z := Z.lor (Z.shiftr a 24) (u32 (Z.shiftl a 8)).

Definition subbyte (a o : Z) : Z :=
  u32 (Z.shiftl (sbox_at (Z.land (Z.shiftr a o) 0xff)) o).

Definition subword (a : Z) : Z :=
  Z.lor (Z.lor (Z.lor (subbyte a 24) (subbyte a 16)) (subbyte a 8)) (subbyte a 0).

Definition rconst : list Z :=
  [0x00000000; 0x01000000; 0x02000000; 0x04000000; 0x08000000; 0x10000000;
   0x20000000; 0x40000000; 0x80000000; 0x1b000000; 0x36000000].

(** [s->words[i] = (k[Nb*i]<<24) | (k[Nb*i+1]<<16) | (k[Nb*i+2]<<8) | (k[Nb*i+3])]. *)
Definition key_word (k : bytes) (i : nat) : Z :=
  Z.lor (Z.lor (Z.lor (Z.shiftl (byte_at k (Nb * i)) 24)
                      (Z.shiftl (byte_at k (Nb * i + 1)) 16))
               (Z.shiftl (byte_at k (Nb * i + 2)) 8))
        (byte_at k (Nb * i + 3)).

(** One iteration of the expansion loop: computes [words[i]]. *)
Definition expand_step (words : list Z) (i : nat) : list Z :=
  let t := nth (i - 1) words 0 in
  let t := if decide (i mod Nk = 0)%nat
           then Z.lxor (subword (rotword t)) (nth (i / Nk) rconst 0) else t in
  words ++ [Z.lxor (nth (i - Nk) words 0) t].

Definition tc_aes128_set_encrypt_key (k : bytes) : list Z :=
  foldl expand_step (map (key_word k) (seq 0 Nk)) (seq Nk (Nb * (Nr + 1) - Nk)).

(** The bytes of a key word, most significant first. *)
Definition word_bytes (w : Z) : bytes :=
  [u8 (Z.shiftr w 24); u8 (Z.shiftr w 16); u8 (Z.shiftr w 8); u8 w].

(** [k] points into the schedule; four words are used. *)
Definition add_round_key (s : bytes) (k : list Z) : bytes :=
  xor_bytes s (concat (map word_bytes (take 4 k))).

Definition sub_bytes (s : bytes) : bytes := map sbox_at s.

Definition double_byte (a : Z) : Z :=
  u8 (Z.lxor (Z.shiftl a 1) (Z.shiftr a 7 * 0x1b)).

Definition triple (a : Z) : Z := Z.lxor (double_byte a) a.

Definition xor4 (a b c d : Z) : Z := Z.lxor (Z.lxor (Z.lxor a b) c) d.

Definition mult_row_column (i : bytes) : bytes :=
  let a := byte_at i 0 in let b := byte_at i 1 in
  let c := byte_at i 2 in let d := byte_at i 3 in
  [xor4 (double_byte a) (triple b) c d; xor4 a (double_byte b) (triple c) d;
   xor4 a b (double_byte c) (triple d); xor4 (triple a) b c (double_byte d)].

Definition mix_columns (s : bytes) : bytes :=
  mult_row_column s ++ mult_row_column (drop Nb s) ++
  mult_row_column (drop (2 * Nb) s) ++ mult_row_column (drop (3 * Nb) s).

Definition shift_rows (s : bytes) : bytes :=
  map (byte_at s) [0; 5; 10; 15; 4; 9; 14; 3; 8; 13; 2; 7; 12; 1; 6; 11]%nat.

(** Body of the round loop. *)
Definition aes_round (words : list Z) (state : bytes) (i : nat) : bytes :=
  add_round_key (mix_columns (shift_rows (sub_bytes state))) (drop (Nb * (i + 1)) words).

Definition tc_aes_encrypt (inp : bytes) (words : list Z) : bytes :=
  let state := add_round_key inp words in
  let state := foldl (aes_round words) state (seq 0 (Nr - 1)) in
  add_round_key (shift_rows (sub_bytes state)) (drop (Nb * (Nr - 1 + 1)) words).

(** [bt_encrypt_be] (bt_host/host/crypto.c): schedule, then one block. *)
Definition bt_encrypt_be (key plaintext : bytes) : res bytes :=
  Ok (tc_aes_encrypt plaintext (tc_aes128_set_encrypt_key key)).

(** FIPS-197, appendix C.1. *)
Example aes_fips197_c1 :
  tc_aes_encrypt (map (fun i => 17 * Z.of_nat i) (seq 0 16))
    (tc_aes128_set_encrypt_key (map Z.of_nat (seq 0 16))) =
  [0x69; 0xc4; 0xe0; 0xd8; 0x6a; 0x7b; 0x04; 0x30;
   0xd8; 0xcd; 0xb7; 0x80; 0x70; 0xb4; 0xc5; 0x5a].
Proof. vm_compute. reflexivity. Qed.

(** ** FIPS-197 *)

Module Fips197.

(** Multiplication in GF(2^8) modulo x^8 + x^4 + x^3 + x + 1. *)
Definition xtime (a : Z) : Z :=
  if a <? 128 then 2 * a else Z.lxor (2 * a) 0x11b.

Fixpoint gf_mul_bits (n : nat) (a b : Z) : Z :=
  match n with
  | O => 0
  | S n => Z.lxor (if Z.odd b then a else 0) (gf_mul_bits n (xtime a) (b / 2))
  end.
Definition gf_mul (a b : Z) : Z := gf_mul_bits 8 a b.

(** The inverse is the 254th power; 0 is sent to 0. *)
Fixpoint gf_pow (a : Z) (n : nat) : Z :=
  match n with O => 1 | S n => gf_mul a (gf_pow a n) end.
Definition gf_inv (a : Z) : Z := gf_pow a 254.

(** The affine map over GF(2) and the substitution box. *)
Definition affine_bit (b : Z) (i : nat) : bool :=
  let t j := Z.testbit b (Z.of_nat ((i + j) mod 8)) in
  xorb (t 0%nat) (xorb (t 4%nat) (xorb (t 5%nat) (xorb (t 6%nat)
    (xorb (t 7%nat) (Z.testbit 0x63 (Z.of_nat i)))))).
Definition affine (b : Z) : Z :=
  foldr (fun i acc => Z.b2z (affine_bit b i) * 2 ^ Z.of_nat i + acc) 0 (seq 0 8).
Definition sub_byte (a : Z) : Z := affine (gf_inv a).

(** The state is an array of 4 rows and 4 columns; byte [r + 4c] of the input
    is row [r] of column [c]. *)
Definition cell (s : bytes) (r c : nat) : Z := byte_at s (r + 4 * c).
Definition state (f : nat -> nat -> Z) : bytes :=
  map (fun i => f (i mod 4) (i / 4))%nat (seq 0 16).

Definition SubBytes (s : bytes) : bytes := state (fun r c => sub_byte (cell s r c)).
Definition ShiftRows (s : bytes) : bytes :=
  state (fun r c => cell s r ((c + r) mod 4)).
(** The coefficient of row [k] in row [r] of the product. *)
Definition coef (r k : nat) : Z :=
  byte_at [2; 3; 1; 1] ((4 + k - r) mod 4).
Definition MixColumns (s : bytes) : bytes :=
  state (fun r c => foldr (fun k acc => Z.lxor (gf_mul (cell s k c) (coef r k)) acc)
                      0 (seq 0 4)).
Definition AddRoundKey (s rk : bytes) : bytes :=
  state (fun r c => Z.lxor (cell s r c) (cell rk r c)).

(** Key expansion over words of four bytes. *)
Definition RotWord (w : bytes) : bytes := drop 1 w ++ take 1 w.
Definition SubWord (w : bytes) : bytes := map sub_byte w.
Definition Rcon (i : nat) : bytes := [gf_pow 2 (i - 1); 0; 0; 0].

Definition expand (ws : list bytes) (i : nat) : list bytes :=
  let temp := nth (i - 1) ws [] in
  let temp := if decide (i mod 4 = 0)%nat
              then xor_bytes (SubWord (RotWord temp)) (Rcon (i / 4)) else temp in
  ws ++ [xor_bytes (nth (i - 4) ws []) temp].

Definition KeyExpansion (key : bytes) : list bytes :=
  foldl expand (map (fun i => take 4 (drop (4 * i) key)) (seq 0 4)) (seq 4 40).

Definition round_key (ws : list bytes) (r : nat) : bytes :=
  concat (take 4 (drop (4 * r) ws)).

Definition Round (ws : list bytes) (s : bytes) (r : nat) : bytes :=
  AddRoundKey (MixColumns (ShiftRows (SubBytes s))) (round_key ws r).

Definition Cipher (inp key : bytes) : bytes :=
  let ws := KeyExpansion key in
  let s := foldl (Round ws) (AddRoundKey inp (round_key ws 0)) (seq 1 9) in
  AddRoundKey (ShiftRows (SubBytes s)) (round_key ws 10).

End Fips197.
Import Fips197.

(** ** The tables and the byte operations *)

#[global] Arguments sbox_at : simpl never.
#[global] Arguments sub_byte : simpl never.
#[global] Arguments gf_mul : simpl never.
#[global] Arguments double_byte : simpl never.

Lemma sbox_at_sub_byte a : is_byte a -> sbox_at a = sub_byte a.
Proof.
  intros Ha. apply Z.eqb_eq.
  apply (forall_bytes (fun a => sbox_at a =? sub_byte a)); [|done].
  vm_compute. reflexivity.
Qed.

Lemma sbox_at_byte a : is_byte a -> is_byte (sbox_at a).
Proof.
  intros Ha. apply byteb_spec.
  apply (forall_bytes (fun a => byteb (sbox_at a))); [|done]. vm_compute. reflexivity.
Qed.

Lemma double_byte_gf a :
  is_byte a -> double_byte a = gf_mul a 2 /\ triple a = gf_mul a 3.
Proof.
  intros Ha. split; apply Z.eqb_eq;
    [apply (forall_bytes (fun a => double_byte a =? gf_mul a 2))|
     apply (forall_bytes (fun a => triple a =? gf_mul a 3))];
    try done; vm_compute; reflexivity.
Qed.

Lemma gf_mul_1 a : is_byte a -> gf_mul a 1 = a.
Proof.
  intros Ha. apply Z.eqb_eq.
  apply (forall_bytes (fun a => gf_mul a 1 =? a)); [|done]. vm_compute. reflexivity.
Qed.

Lemma double_byte_byte a : is_byte (double_byte a).
Proof. apply u8_byte. Qed.
Lemma triple_byte a : is_byte a -> is_byte (triple a).
Proof. intros. apply lxor_byte; [apply double_byte_byte|done]. Qed.

(** ** Key words *)

Definition word4 (a b c d : Z) : Z :=
  Z.lor (Z.lor (Z.lor (Z.shiftl a 24) (Z.shiftl b 16)) (Z.shiftl c 8)) d.

Lemma word4_val a b c d :
  is_byte a -> is_byte b -> is_byte c -> is_byte d ->
  word4 a b c d = a * 16777216 + b * 65536 + c * 256 + d.
Proof.
  unfold is_byte, word4. intros. rewrite !Z.shiftl_mul_pow2 by lia.
  eval_pow.
  rewrite (lor_add_low 24 (a * _)) by word_lia.
  rewrite (lor_add_low 16 (a * _ + _)) by word_lia.
  rewrite (lor_add_low 8) by word_lia. done.
Qed.

Lemma word_bytes_val w :
  word_bytes w = [u8 (w / 16777216); u8 (w / 65536); u8 (w / 256); u8 w].
Proof. unfold word_bytes. by rewrite !Z.shiftr_div_pow2 by lia. Qed.

Lemma word_bytes_word4 a b c d :
  is_byte a -> is_byte b -> is_byte c -> is_byte d ->
  word_bytes (word4 a b c d) = [a; b; c; d].
Proof.
  intros. rewrite word4_val, word_bytes_val by done. unfold is_byte in *.
  repeat f_equal; word_lia.
Qed.

Definition is_word (w : Z) : Prop := 0 <= w < 4294967296.

Lemma word4_word a b c d :
  is_byte a -> is_byte b -> is_byte c -> is_byte d -> is_word (word4 a b c d).
Proof. intros. rewrite word4_val by done. unfold is_word, is_byte in *. lia. Qed.

(** Every word is made of its four bytes. *)
Lemma word4_inv w :
  is_word w -> exists a b c d,
    is_byte a /\ is_byte b /\ is_byte c /\ is_byte d /\ w = word4 a b c d.
Proof.
  unfold is_word. intros Hw.
  exists (u8 (w / 16777216)), (u8 (w / 65536)), (u8 (w / 256)), (u8 w).
  repeat split; try apply u8_byte. rewrite word4_val by apply u8_byte. word_lia.
Qed.

Lemma word_bytes_lxor v w :
  word_bytes (Z.lxor v w) = xor_bytes (word_bytes v) (word_bytes w).
Proof. unfold word_bytes. cbn. by rewrite !Z.shiftr_lxor, !u8_lxor. Qed.

Lemma word_bytes_rotword w :
  is_word w -> word_bytes (rotword w) = RotWord (word_bytes w).
Proof.
  intros (a & b & c & d & Ha & Hb & Hc & Hd & ->)%word4_inv.
  rewrite word_bytes_word4 by done. cbn.
  rewrite <- (word_bytes_word4 b c d a) by done. f_equal.
  unfold rotword. rewrite !word4_val, Z.shiftl_mul_pow2, Z.shiftr_div_pow2 by done.
  unfold is_byte in *. change (2 ^ 24) with 16777216. change (2 ^ 8) with 256.
  rewrite Z.lor_comm, (lor_add_low 8) by word_lia. word_lia.
Qed.

Lemma rotword_word w : is_word w -> is_word (rotword w).
Proof.
  intros Hw. unfold is_word, rotword in *. apply (lor_bounded 32); [lia| |word_lia].
  rewrite Z.shiftr_div_pow2 by lia. change (2 ^ 24) with 16777216. word_lia.
Qed.

Lemma subword_word4 w :
  subword w = word4 (sbox_at (u8 (Z.shiftr w 24))) (sbox_at (u8 (Z.shiftr w 16)))
                (sbox_at (u8 (Z.shiftr w 8))) (sbox_at (u8 w)).
Proof.
  assert (forall o, 0 <= o <= 24 ->
    subbyte w o = Z.shiftl (sbox_at (u8 (Z.shiftr w o))) o) as Hsub.
  { intros o Ho. unfold subbyte. change 0xff with (Z.ones 8). rewrite <- u8_land.
    pose proof (sbox_at_byte _ (u8_byte (Z.shiftr w o))) as Hb. revert Hb.
    generalize (sbox_at (u8 (Z.shiftr w o))) as x. unfold is_byte. intros x Hx.
    apply u32_id. rewrite Z.shiftl_mul_pow2 by lia.
    assert (0 < 2 ^ o <= 2 ^ 24) by (split; [apply Z.pow_pos_nonneg|apply Z.pow_le_mono_r]; lia).
    change (2 ^ 24) with 16777216 in *. nia. }
  unfold subword, word4. rewrite !Hsub by lia. by rewrite Z.shiftr_0_r, Z.shiftl_0_r.
Qed.

Lemma word_bytes_subword w : word_bytes (subword w) = SubWord (word_bytes w).
Proof.
  rewrite subword_word4, word_bytes_word4 by (apply sbox_at_byte, u8_byte).
  unfold word_bytes. cbn. by rewrite !sbox_at_sub_byte by apply u8_byte.
Qed.

Lemma subword_word w : is_word (subword w).
Proof. rewrite subword_word4. apply word4_word; apply sbox_at_byte, u8_byte. Qed.

Lemma lxor_word v w : is_word v -> is_word w -> is_word (Z.lxor v w).
Proof. apply (lxor_bounded 32). lia. Qed.

(** ** Key schedule *)

Definition is_words (ws : list Z) : Prop := Forall is_word ws.

Lemma nth_word i ws : is_words ws -> is_word (nth i ws 0).
Proof.
  intros H. destruct (nth_in_or_default i ws 0) as [Hin| ->];
    [|unfold is_word; lia].
  eapply List.Forall_forall in H; eauto.
Qed.

Lemma word_bytes_nth i ws :
  (i < length ws)%nat -> word_bytes (nth i ws 0) = nth i (map word_bytes ws) [].
Proof.
  intros Hi. rewrite (nth_indep _ [] (word_bytes 0)) by (by rewrite length_map).
  by rewrite map_nth.
Qed.

Lemma word_bytes_rconst i :
  (1 <= i <= 10)%nat -> word_bytes (nth i rconst 0) = Rcon i /\ is_word (nth i rconst 0).
Proof.
  intros Hi. assert (In i (seq 1 10)) as Hin by (apply in_seq; lia).
  assert (Forall (fun i => word_bytes (nth i rconst 0) = Rcon i /\
    is_word (nth i rconst 0)) (seq 1 10)) as H.
  { cbn [seq]. repeat apply Forall_cons_2; [split; [by vm_compute|by (unfold is_word; cbn; lia)]..|].
    apply Forall_nil_2. }
  exact (proj1 (List.Forall_forall _ _) H i Hin).
Qed.

Lemma expand_step_spec ws i :
  is_words ws -> length ws = i -> (4 <= i < 44)%nat ->
  is_words (expand_step ws i) /\ length (expand_step ws i) = S i /\
  map word_bytes (expand_step ws i) = expand (map word_bytes ws) i.
Proof.
  intros Hws Hlen Hi. unfold expand_step, expand, Nk.
  rewrite map_app, length_app. cbn [map length].
  rewrite word_bytes_lxor, !word_bytes_nth by lia.
  assert (is_word (nth (i - 1) ws 0)) as Hprev by (by apply nth_word).
  assert (is_word (nth (i - 4) ws 0)) as Hold by (by apply nth_word).
  case_decide as Hmod.
  - assert (1 <= i / 4 <= 10)%nat as Hdiv.
    { pose proof (Nat.div_mod_eq i 4). lia. }
    destruct (word_bytes_rconst _ Hdiv) as [Hrc Hrcw].
    rewrite word_bytes_lxor, word_bytes_subword, word_bytes_rotword, word_bytes_nth,
      Hrc by (done || lia).
    split; [|split; [lia|done]]. apply Forall_app. split; [done|].
    apply Forall_singleton. apply lxor_word; [done|].
    apply lxor_word; [apply subword_word|done].
  - split; [|split; [lia|by rewrite word_bytes_nth by lia]].
    apply Forall_app. split; [done|]. apply Forall_singleton. by apply lxor_word.
Qed.

Lemma expand_spec n ws :
  is_words ws -> (4 <= length ws)%nat -> (length ws + n <= 44)%nat ->
  is_words (foldl expand_step ws (seq (length ws) n)) /\
  length (foldl expand_step ws (seq (length ws) n)) = (length ws + n)%nat /\
  map word_bytes (foldl expand_step ws (seq (length ws) n)) =
  foldl expand (map word_bytes ws) (seq (length ws) n).
Proof.
  revert ws. induction n as [|n IH]; intros ws Hws H4 H44; cbn [seq foldl].
  - rewrite Nat.add_0_r. done.
  - destruct (expand_step_spec ws _ Hws eq_refl ltac:(lia)) as (Hws' & Hlen & Heq).
    rewrite <- Heq, <- Hlen.
    destruct (IH (expand_step ws (length ws))) as (? & Hlen' & ?); [done|lia..|].
    split; [done|]. split; [|done]. rewrite Hlen', Hlen. lia.
Qed.

Lemma key_word_word4 k i :
  key_word k i = word4 (byte_at k (4 * i)) (byte_at k (4 * i + 1))
                       (byte_at k (4 * i + 2)) (byte_at k (4 * i + 3)).
Proof. reflexivity. Qed.

Lemma take_4_drop (k : bytes) n :
  (n + 4 <= length k)%nat ->
  take 4 (drop n k) = [byte_at k n; byte_at k (n + 1); byte_at k (n + 2); byte_at k (n + 3)].
Proof.
  revert k. induction n as [|n IH]; intros k Hk.
  - destruct k as [|a [|b [|c [|d k]]]]; cbn in Hk; (lia || done).
  - destruct k as [|a k]; cbn in Hk; [lia|]. cbn [drop]. rewrite IH by lia. done.
Qed.

Lemma key_words_spec key :
  length key = 16%nat -> is_bytes key ->
  is_words (map (key_word key) (seq 0 4)) /\
  map word_bytes (map (key_word key) (seq 0 4)) =
  map (fun i => take 4 (drop (4 * i) key)) (seq 0 4).
Proof.
  intros Hlen Hkey. split.
  - apply List.Forall_map, Forall_true. intros i. rewrite key_word_word4.
    apply word4_word; by apply byte_at_is_byte.
  - rewrite map_map. apply map_ext_in. intros i [_ Hi]%in_seq.
    rewrite key_word_word4, word_bytes_word4, take_4_drop by
      (lia || by apply byte_at_is_byte). done.
Qed.

Lemma key_schedule_spec key :
  length key = 16%nat -> is_bytes key ->
  length (tc_aes128_set_encrypt_key key) = 44%nat /\
  map word_bytes (tc_aes128_set_encrypt_key key) = KeyExpansion key.
Proof.
  intros Hlen Hkey. destruct (key_words_spec key Hlen Hkey) as [Hws Heq].
  unfold tc_aes128_set_encrypt_key, KeyExpansion. rewrite <- Heq. unfold Nk.
  change (Nb * (Nr + 1) - 4)%nat with 40%nat.
  assert (length (map (key_word key) (seq 0 4)) = 4%nat) as H4 by done.
  destruct (expand_spec 40 _ Hws) as (_ & Hl & He); [lia..|].
  rewrite H4 in Hl, He. split; [exact Hl|exact He].
Qed.

(** ** Rounds *)

Lemma add_round_key_spec s ws r :
  length s = 16%nat -> (4 * r + 4 <= length ws)%nat ->
  add_round_key s (drop (4 * r) ws) = AddRoundKey s (round_key (map word_bytes ws) r).
Proof.
  intros Hs Hr. unfold add_round_key, round_key.
  rewrite skipn_map, firstn_map.
  assert (length (take 4 (drop (4 * r) ws)) = 4%nat) as Hlen.
  { rewrite length_take, length_drop. lia. }
  revert Hlen. generalize (take 4 (drop (4 * r) ws)) as l. intros l Hl.
  destruct_list l. destruct_list s. reflexivity.
Qed.

Lemma sub_bytes_spec s :
  length s = 16%nat -> is_bytes s -> sub_bytes s = SubBytes s.
Proof.
  intros Hlen Hs. unfold SubBytes, state.
  transitivity (map (fun i => sbox_at (byte_at s i)) (seq 0 16)).
  - destruct_list s. reflexivity.
  - apply map_ext_in. intros i [_ Hi]%in_seq. unfold cell.
    rewrite <- sbox_at_sub_byte by by apply byte_at_is_byte.
    do 2 f_equal. pose proof (Nat.div_mod_eq i 4). lia.
Qed.

Lemma shift_rows_spec s : shift_rows s = ShiftRows s.
Proof. reflexivity. Qed.

Lemma mix_columns_spec s :
  length s = 16%nat -> is_bytes s -> mix_columns s = MixColumns s.
Proof.
  intros Hlen Hs. unfold mix_columns, MixColumns, state.
  transitivity (concat (map (fun c => mult_row_column
    (map (fun r => cell s r c) (seq 0 4))) (seq 0 4))).
  { destruct_list s. reflexivity. }
  transitivity (concat (map (fun c => map (fun r => foldr (fun k acc =>
    Z.lxor (gf_mul (cell s k c) (coef r k)) acc) 0 (seq 0 4)) (seq 0 4)) (seq 0 4))).
  2: { reflexivity. }
  f_equal. apply map_ext_in. intros c _.
  assert (forall r, is_byte (cell s r c)) as Hc by (intros; by apply byte_at_is_byte).
  change (map (fun r => cell s r c) (seq 0 4)) with
    [cell s 0 c; cell s 1 c; cell s 2 c; cell s 3 c].
  revert Hc. generalize (cell s). intros f Hc.
  unfold mult_row_column, xor4, coef, byte_at. cbn.
  destruct (double_byte_gf _ (Hc 0%nat)) as [-> ->].
  destruct (double_byte_gf _ (Hc 1%nat)) as [-> ->].
  destruct (double_byte_gf _ (Hc 2%nat)) as [-> ->].
  destruct (double_byte_gf _ (Hc 3%nat)) as [-> ->].
  rewrite !gf_mul_1 by done. by rewrite !Z.lxor_0_r, !Z.lxor_assoc.
Qed.

Lemma length_AddRoundKey s k : length (AddRoundKey s k) = 16%nat.
Proof. done. Qed.
Lemma length_shift_rows s : length (shift_rows s) = 16%nat.
Proof. done. Qed.
Lemma length_mix_columns s : length (mix_columns s) = 16%nat.
Proof. done. Qed.

Lemma sub_bytes_bytes s : is_bytes s -> is_bytes (sub_bytes s).
Proof.
  intros Hs. apply List.Forall_map.
  eapply List.Forall_impl; [apply sbox_at_byte|exact Hs].
Qed.

Lemma shift_rows_bytes s : is_bytes s -> is_bytes (shift_rows s).
Proof.
  intros Hs. apply List.Forall_map, Forall_true. intros i. by apply byte_at_is_byte.
Qed.

Lemma length_add_round_key s k :
  length s = 16%nat -> (4 <= length k)%nat -> length (add_round_key s k) = 16%nat.
Proof.
  intros Hs Hk. unfold add_round_key. rewrite length_xor_bytes_le; [done|].
  rewrite Hs. destruct k as [|a [|b [|c [|d k]]]]; cbn in Hk; lia || (cbn; lia).
Qed.

Lemma word_bytes_bytes w : is_bytes (word_bytes w).
Proof. repeat apply Forall_cons_2; [apply u8_byte..|]. apply Forall_nil_2. Qed.

Lemma add_round_key_bytes s k : is_bytes s -> is_bytes (add_round_key s k).
Proof.
  intros Hs. apply xor_bytes_is_bytes; [done|]. generalize (take 4 k) as l.
  induction l as [|w l IH]; cbn [map concat]; [apply Forall_nil_2|].
  apply is_bytes_app. split; [apply word_bytes_bytes|done].
Qed.

Lemma mult_row_column_bytes s : is_bytes s -> is_bytes (mult_row_column s).
Proof.
  intros Hs. unfold mult_row_column, xor4.
  repeat apply Forall_cons_2; try apply Forall_nil_2;
    auto 8 using lxor_byte, double_byte_byte, triple_byte, byte_at_is_byte.
Qed.

Lemma mix_columns_bytes s : is_bytes s -> is_bytes (mix_columns s).
Proof.
  intros Hs. unfold mix_columns. rewrite !is_bytes_app.
  repeat split; apply mult_row_column_bytes; auto with bytes.
Qed.

(** The round loop refines FIPS-197's. *)
Lemma aes_rounds_spec ws n : forall k s,
  length s = 16%nat -> is_bytes s -> (4 * (k + n) + 4 <= length ws)%nat ->
  length (foldl (aes_round ws) s (seq k n)) = 16%nat /\
  is_bytes (foldl (aes_round ws) s (seq k n)) /\
  foldl (aes_round ws) s (seq k n) =
  foldl (Round (map word_bytes ws)) s (seq (k + 1) n).
Proof.
  induction n as [|n IH]; intros k s Hlen Hs Hws; cbn [seq foldl]; [done|].
  assert (aes_round ws s k = Round (map word_bytes ws) s (k + 1)) as Hround.
  { unfold aes_round, Round, Nb. rewrite add_round_key_spec by (done || lia).
    rewrite sub_bytes_spec by done. rewrite shift_rows_spec, mix_columns_spec.
    - done.
    - done.
    - rewrite <- shift_rows_spec, <- sub_bytes_spec by done.
      by apply shift_rows_bytes, sub_bytes_bytes. }
  rewrite <- Hround. replace (S (k + 1)) with (S k + 1)%nat by lia.
  apply IH; [| |lia].
  - apply length_add_round_key; [done|]. rewrite length_drop. unfold Nb. lia.
  - by apply add_round_key_bytes, mix_columns_bytes, shift_rows_bytes, sub_bytes_bytes.
Qed.

#[local] Opaque add_round_key AddRoundKey sub_bytes SubBytes shift_rows ShiftRows
  mix_columns MixColumns KeyExpansion tc_aes128_set_encrypt_key round_key.

(** The software cipher as FIPS-197 defines it, and the shape of its output. *)
Lemma tc_aes_encrypt_cipher key inp :
  length key = 16%nat -> is_bytes key -> length inp = 16%nat -> is_bytes inp ->
  tc_aes_encrypt inp (tc_aes128_set_encrypt_key key) = Cipher inp key.
Proof.
  intros Hkl Hkb Hil Hib. destruct (key_schedule_spec key Hkl Hkb) as [Hlen Heq].
  unfold tc_aes_encrypt, Cipher. rewrite <- Heq.
  revert Hlen. generalize (tc_aes128_set_encrypt_key key) as ws. intros ws Hlen.
  change (add_round_key inp ws) with (add_round_key inp (drop (4 * 0) ws)).
  rewrite (add_round_key_spec inp ws 0) by (done || lia).
  assert (is_bytes (AddRoundKey inp (round_key (map word_bytes ws) 0))) as Hb.
  { rewrite <- (add_round_key_spec inp ws 0) by (done || lia). by apply add_round_key_bytes. }
  destruct (aes_rounds_spec ws 9 0 _ (length_AddRoundKey _ _) Hb)
    as (Hl & Hb' & Hr); [lia|].
  change (0 + 1)%nat with 1%nat in Hr. rewrite <- Hr.
  unfold Nr, Nb. rewrite (add_round_key_spec _ _ 10) by (done || lia).
  by rewrite sub_bytes_spec, shift_rows_spec.
Qed.

Lemma length_tc_aes_encrypt key inp :
  length key = 16%nat -> is_bytes key -> length (tc_aes_encrypt inp (tc_aes128_set_encrypt_key key)) = 16%nat.
Proof.
  intros Hkl Hkb. destruct (key_schedule_spec key Hkl Hkb) as [Hlen _].
  unfold tc_aes_encrypt. apply length_add_round_key; [done|].
  rewrite length_drop, Hlen. cbn. lia.
Qed.

Lemma tc_aes_encrypt_bytes inp ws :
  is_bytes inp -> is_bytes (tc_aes_encrypt inp ws).
Proof.
  intros Hi. unfold tc_aes_encrypt. apply add_round_key_bytes, shift_rows_bytes, sub_bytes_bytes.
  generalize (seq 0 (Nr - 1)) as l. intros l.
  assert (is_bytes (add_round_key inp ws)) as Hs by by apply add_round_key_bytes.
  revert Hs. generalize (add_round_key inp ws) as s.
  induction l as [|i l IH]; intros s Hs; cbn [foldl]; [done|].
  by apply IH, add_round_key_bytes, mix_columns_bytes, shift_rows_bytes, sub_bytes_bytes.
Qed.

(** ** Properties *)

(** C2: the table-driven word-oriented cipher of the stack is the AES-128
    cipher of FIPS-197: for every 16-byte key and block, expanding the key and
    running the rounds gives the cipher defined by inversion in GF(2^8), the
    affine map, the row shifts, the column products and the key expansion. *)
Theorem bt_encrypt_be_aes128 key plaintext :
  length key = 16%nat -> is_bytes key ->
  length plaintext = 16%nat -> is_bytes plaintext ->
  bt_encrypt_be key plaintext = Ok (Cipher plaintext key).
Proof. intros. unfold bt_encrypt_be. by rewrite tc_aes_encrypt_cipher. Qed.

Lemma bt_encrypt_be_aes128_witness :
  bt_encrypt_be (replicate 16 0) (replicate 16 255) =
  Ok (Cipher (replicate 16 255) (replicate 16 0)).
Proof.
  apply bt_encrypt_be_aes128;
    [reflexivity|apply is_bytes_replicate; unfold is_byte; lia|
     reflexivity|apply is_bytes_replicate; unfold is_byte; lia].
Defined.
