(* ===== verification/Cmac.v ===== *)
(** * AES-CMAC (bt_common/tinycrypt/source/cmac_mode.c) and the mesh security
    HAL (bt_mesh/ref_impl/mesh_hal_sec.c)

    The incremental MAC with its leftover block, the multi-buffer interface of
    the mesh stack, and the one-shot CMAC of RFC 4493 it is compared with. *)

From S2P Require Import Prelude NetBuf Aes.

(** ** The implementation *)

Definition TC_AES_BLOCK_SIZE : nat := 16.
Definition TC_CMAC_PADDING : Z := 0x80.
Definition MAX_CALLS : Z := 2 ^ 48.
Definition gf_wrap : Z := 0x87.

(** The loop of [gf_double], from the low-order byte ([in[15]]) up. *)
Fixpoint gf_double_loop (x : bytes) (carry : Z) : bytes :=
  match x with
  | [] => []
  | b :: x => u8 (Z.lxor (Z.shiftl b 1) carry) :: gf_double_loop x (Z.shiftr b 7)
  end.

Definition gf_double (inp : bytes) : bytes :=
  let carry := if Z.shiftr (byte_at inp 0) 7 =? 0 then 0 else gf_wrap in
  rev (gf_double_loop (rev inp) carry).

(** [struct tc_cmac_struct]. *)
Record tc_cmac_struct := mk_tc_cmac_struct {
  cm_iv : bytes;
  cm_K1 : bytes;
  cm_K2 : bytes;
  cm_leftover : bytes;
  cm_leftover_offset : nat;
  cm_countdown : Z;
  cm_sched : list Z
}.

#[export] Instance tc_cmac_settable : Settable tc_cmac_struct.
Proof.
  settable (fun s => mk_tc_cmac_struct (cm_iv s) (cm_K1 s) (cm_K2 s) (cm_leftover s)
    (cm_leftover_offset s) (cm_countdown s) (cm_sched s)).
Defined.

Definition zero_block : bytes := replicate TC_AES_BLOCK_SIZE 0.

Definition tc_cmac_init (s : tc_cmac_struct) : tc_cmac_struct :=
  s <| cm_iv := zero_block |> <| cm_leftover := zero_block |>
    <| cm_leftover_offset := 0%nat |> <| cm_countdown := MAX_CALLS |>.

Definition tc_cmac_setup (key : bytes) : tc_cmac_struct :=
  let sched := tc_aes128_set_encrypt_key key in
  let iv := tc_aes_encrypt zero_block sched in
  let K1 := gf_double iv in
  let K2 := gf_double K1 in
  tc_cmac_init (mk_tc_cmac_struct iv K1 K2 zero_block 0 0 sched).

(** [s->iv ^= block; s->iv = AES(s->iv)]. *)
Definition cmac_absorb (s : tc_cmac_struct) (block : bytes) : tc_cmac_struct :=
  s <| cm_iv := tc_aes_encrypt (xor_bytes (cm_iv s) block) (cm_sched s) |>.

(** [while (data_length > TC_AES_BLOCK_SIZE)]: the fuel is the data length,
    and every iteration consumes 16 bytes. *)
Fixpoint cmac_blocks (fuel : nat) (s : tc_cmac_struct) (data : bytes)
    : tc_cmac_struct * bytes :=
  match fuel with
  | O => (s, data)
  | S fuel =>
      if decide (TC_AES_BLOCK_SIZE < length data)%nat then
        cmac_blocks fuel (cmac_absorb s (take TC_AES_BLOCK_SIZE data))
          (drop TC_AES_BLOCK_SIZE data)
      else (s, data)
  end.

(** The part of [tc_cmac_update] after the leftover block: CBC, then the rest
    becomes the leftover. *)
Definition cmac_update_data (s : tc_cmac_struct) (data : bytes) : tc_cmac_struct :=
  let '(s, data) := cmac_blocks (length data) s data in
  if decide (0 < length data)%nat then
    s <| cm_leftover := put_at 0 data (cm_leftover s) |>
      <| cm_leftover_offset := length data |>
  else s.

(** [None] is [TC_CRYPTO_FAIL]. *)
Definition tc_cmac_update (s : tc_cmac_struct) (data : bytes) : option tc_cmac_struct :=
  if decide (length data = 0%nat) then Some s
  else if cm_countdown s =? 0 then None
  else
    let s := s <| cm_countdown := cm_countdown s - 1 |> in
    if decide (0 < cm_leftover_offset s)%nat then
      let remaining_space := (TC_AES_BLOCK_SIZE - cm_leftover_offset s)%nat in
      if decide (length data < remaining_space)%nat then
        Some (s <| cm_leftover := put_at (cm_leftover_offset s) data (cm_leftover s) |>
                <| cm_leftover_offset := (cm_leftover_offset s + length data)%nat |>)
      else
        let s := s <| cm_leftover := put_at (cm_leftover_offset s)
                        (take remaining_space data) (cm_leftover s) |> in
        let s := s <| cm_leftover_offset := 0%nat |> in
        let s := cmac_absorb s (cm_leftover s) in
        Some (cmac_update_data s (drop remaining_space data))
    else Some (cmac_update_data s data).

Definition tc_cmac_final (s : tc_cmac_struct) : bytes :=
  let '(leftover, k) :=
    if decide (cm_leftover_offset s = TC_AES_BLOCK_SIZE) then (cm_leftover s, cm_K1 s)
    else
      let remaining := (TC_AES_BLOCK_SIZE - cm_leftover_offset s)%nat in
      let l := put_at (cm_leftover_offset s) (replicate remaining 0) (cm_leftover s) in
      (<[cm_leftover_offset s := TC_CMAC_PADDING]> l, cm_K2 s) in
  tc_aes_encrypt (xor_bytes (cm_iv s) (xor_bytes leftover k)) (cm_sched s).

Fixpoint cmac_sg_loop (s : tc_cmac_struct) (sg : list bytes) : option tc_cmac_struct :=
  match sg with
  | [] => Some s
  | d :: sg => s' ← tc_cmac_update s d; cmac_sg_loop s' sg
  end.

(** [sg] lists the scattered pieces of the message. *)
Definition bt_mesh_aes_cmac (key : bytes) (sg : list bytes) : res bytes :=
  match cmac_sg_loop (tc_cmac_setup key) sg with
  | None => Err (- EIO)
  | Some s => Ok (tc_cmac_final s)
  end.

Definition bt_mesh_aes_cmac_one (key m : bytes) : res bytes := bt_mesh_aes_cmac key [m].

(** ** RFC 4493 *)

Module Rfc4493.
Section cmac.
Context (E : bytes -> bytes).

(** Doubling in GF(2^128), on the block as a 128-bit number. *)
Definition block_val (l : bytes) : Z := foldl (fun v b => v * 256 + b) 0 l.
Definition dbl (v : Z) : Z :=
  if v <? 2 ^ 127 then 2 * v else Z.lxor ((2 * v) mod 2 ^ 128) 0x87.
Fixpoint block_of (n : nat) (v : Z) : bytes :=
  match n with O => [] | S n => block_of n (v / 256) ++ [v mod 256] end.

Definition L : Z := block_val (E (replicate 16 0)).
Definition K1 : bytes := block_of 16 (dbl L).
Definition K2 : bytes := block_of 16 (dbl (dbl L)).

(** The [i]th block of 16 bytes of a message. *)
Definition block (m : bytes) (i : nat) : bytes := take 16 (drop (16 * i) m).

(** CBC over the first [n] blocks. *)
Definition cbc (n : nat) (m : bytes) : bytes :=
  foldl (fun x i => E (xor_bytes x (block m i))) (replicate 16 0) (seq 0 n).

Definition pad (l : bytes) : bytes := l ++ 0x80 :: replicate (15 - length l) 0.

Definition cmac (m : bytes) : bytes :=
  let n := ((length m - 1) / 16)%nat in
  let last := drop (16 * n) m in
  let mask := if decide (length last = 16%nat) then xor_bytes last K1
              else xor_bytes (pad last) K2 in
  E (xor_bytes (cbc n m) mask).
End cmac.
End Rfc4493.

(** RFC 4493, section 4, examples 1 to 3. *)
Definition rfc_key : bytes :=
  [0x2b; 0x7e; 0x15; 0x16; 0x28; 0xae; 0xd2; 0xa6;
   0xab; 0xf7; 0x15; 0x88; 0x09; 0xcf; 0x4f; 0x3c].
Definition rfc_msg : bytes :=
  [0x6b; 0xc1; 0xbe; 0xe2; 0x2e; 0x40; 0x9f; 0x96;
   0xe9; 0x3d; 0x7e; 0x11; 0x73; 0x93; 0x17; 0x2a;
   0xae; 0x2d; 0x8a; 0x57; 0x1e; 0x03; 0xac; 0x9c;
   0x9e; 0xb7; 0x6f; 0xac; 0x45; 0xaf; 0x8e; 0x51;
   0x30; 0xc8; 0x1c; 0x46; 0xa3; 0x5c; 0xe4; 0x11].

Example rfc4493_example1 :
  bt_mesh_aes_cmac_one rfc_key [] =
  Ok [0xbb; 0x1d; 0x69; 0x29; 0xe9; 0x59; 0x37; 0x28;
      0x7f; 0xa3; 0x7d; 0x12; 0x9b; 0x75; 0x67; 0x46].
Proof. vm_compute. reflexivity. Qed.

Example rfc4493_example3 :
  bt_mesh_aes_cmac_one rfc_key rfc_msg =
  Ok [0xdf; 0xa6; 0x67; 0x47; 0xde; 0x9a; 0xe6; 0x30;
      0x30; 0xca; 0x32; 0x61; 0x14; 0x97; 0xc8; 0x27].
Proof. vm_compute. reflexivity. Qed.

Example rfc4493_spec_example3 :
  Rfc4493.cmac (fun b => tc_aes_encrypt b (tc_aes128_set_encrypt_key rfc_key)) rfc_msg =
  [0xdf; 0xa6; 0x67; 0x47; 0xde; 0x9a; 0xe6; 0x30;
   0x30; 0xca; 0x32; 0x61; 0x14; 0x97; 0xc8; 0x27].
Proof. vm_compute. reflexivity. Qed.

(** ** The implementation computes RFC 4493 *)

(** Little-endian value of a byte string, the view of [gf_double]'s loop. *)
Fixpoint le_val (l : bytes) : Z :=
  match l with [] => 0 | b :: l => b + 256 * le_val l end.

Lemma le_val_bounds l : is_bytes l -> 0 <= le_val l < 256 ^ Z.of_nat (length l).
Proof.
  induction 1 as [|b l Hb Hl IH]; [cbn; lia|]. unfold is_byte in Hb.
  rewrite length_cons, Nat2Z.inj_succ, Z.pow_succ_r by lia. cbn [le_val]. lia.
Qed.

Lemma block_val_rev l : Rfc4493.block_val l = le_val (rev l).
Proof.
  unfold Rfc4493.block_val. rewrite <- (rev_involutive l) at 1.
  generalize (rev l) as k. intros k.
  induction k as [|b k IH]; [done|]. cbn [rev le_val].
  rewrite foldl_app, IH. cbn. lia.
Qed.

Lemma block_of_rev l : is_bytes l ->
  Rfc4493.block_of (length l) (le_val l) = rev l.
Proof.
  induction 1 as [|b l Hb Hl IH]; [done|]. cbn [length Rfc4493.block_of le_val rev].
  unfold is_byte in Hb.
  replace ((b + 256 * le_val l) / 256) with (le_val l) by word_lia.
  replace ((b + 256 * le_val l) mod 256) with b by word_lia.
  by rewrite IH.
Qed.

Lemma length_gf_double_loop x c : length (gf_double_loop x c) = length x.
Proof. revert c. induction x as [|b x IH]; intros c; [done|]. cbn. by rewrite IH. Qed.

Lemma gf_double_loop_bytes x c : is_bytes (gf_double_loop x c).
Proof.
  revert c. induction x as [|b x IH]; intros c; cbn; [constructor|].
  apply Forall_cons_2; [apply u8_byte|apply IH].
Qed.

Lemma lxor_low hi lo c : is_byte lo -> is_byte c ->
  Z.lxor (lo + 256 * hi) c = Z.lxor lo c + 256 * hi.
Proof.
  intros Hlo Hc.
  assert (forall x, is_byte x -> Z.lxor (Z.shiftl hi 8) x = x + 256 * hi) as Hadd.
  { intros x Hx. unfold is_byte in Hx.
    rewrite Z.lxor_lor.
    - rewrite lor_shiftl_add by lia. lia.
    - apply Z.bits_inj'. intros i Hi. rewrite Z.land_spec, Z.bits_0.
      destruct (Z.lt_ge_cases i 8); [by rewrite Z.shiftl_spec_low|].
      destruct (proj1 (bounded_testbit 8 x ltac:(lia)) Hx) as [_ Ht].
      rewrite (Ht i) by lia. by rewrite andb_false_r. }
  rewrite <- Hadd by done. rewrite Z.lxor_assoc. by rewrite Hadd by auto with bytes.
Qed.

Lemma shiftl1_u8 b c : is_byte b -> is_byte c ->
  u8 (Z.lxor (Z.shiftl b 1) c) = Z.lxor ((2 * b) mod 256) c.
Proof.
  intros Hb Hc. rewrite u8_lxor, (u8_id c) by done. rewrite Z.shiftl_mul_pow2 by lia.
  f_equal. unfold u8. f_equal. lia.
Qed.

Lemma carry_bit b : is_byte b -> Z.shiftr b 7 = (2 * b) / 256.
Proof. unfold is_byte. intros. rewrite Z.shiftr_div_pow2 by lia. word_lia. Qed.

(** With a carry bit the loop doubles. *)
Lemma gf_double_loop_carry x c : is_bytes x -> c = 0 \/ c = 1 ->
  le_val (gf_double_loop x c) = (2 * le_val x + c) mod 256 ^ Z.of_nat (length x).
Proof.
  intros Hx. revert c. induction Hx as [|b x Hb Hx IH]; intros c Hc.
  { cbn. by rewrite Z.mod_1_r. }
  cbn [gf_double_loop le_val]. rewrite length_cons, Nat2Z.inj_succ, Z.pow_succ_r by lia.
  rewrite carry_bit by done.
  assert ((2 * b) / 256 = 0 \/ (2 * b) / 256 = 1) as Hc' by (unfold is_byte in Hb; word_lia).
  rewrite IH by done.
  assert (u8 (Z.lxor (Z.shiftl b 1) c) = (2 * b) mod 256 + c) as ->.
  { rewrite shiftl1_u8 by (done || (unfold is_byte; lia)).
    assert ((2 * b) mod 256 = Z.shiftl (b mod 128) 1) as ->.
    { rewrite Z.shiftl_mul_pow2 by lia. unfold is_byte in Hb. word_lia. }
    rewrite Z.lxor_lor.
    - rewrite lor_shiftl_add by lia. rewrite Z.shiftl_mul_pow2 by lia. lia.
    - destruct Hc as [-> | ->]; [apply Z.land_0_r|].
      change (Z.land (Z.shiftl (b mod 128) 1) (Z.ones 1) = 0).
      rewrite Z.land_ones, Z.shiftl_mul_pow2 by lia. apply Z.mod_mul. lia. }
  set (M := 256 ^ Z.of_nat (length x)). assert (0 < M) by (apply Z.pow_pos_nonneg; lia).
  replace (2 * (b + 256 * le_val x) + c)
    with (((2 * b) mod 256 + c) + 256 * (2 * le_val x + 2 * b / 256))
    by (pose proof (Z.div_mod (2 * b) 256); lia).
  set (v := 2 * le_val x + 2 * b / 256). set (w := (2 * b) mod 256 + c).
  assert (0 <= w < 256) by (unfold w, is_byte in *; word_lia).
  rewrite (Z.div_mod v M) at 2 by lia.
  replace (w + 256 * (M * (v / M) + v mod M))
    with (w + 256 * (v mod M) + v / M * (256 * M)) by lia.
  rewrite Z.mod_add by lia. rewrite (Z.mod_small (w + _)); [done|].
  pose proof (Z.mod_pos_bound v M). lia.
Qed.

(** The loop doubles and folds a byte-sized polynomial into the low byte. *)
Lemma gf_double_loop_poly x c : is_bytes x -> is_byte c -> x <> [] ->
  le_val (gf_double_loop x c) =
  Z.lxor ((2 * le_val x) mod 256 ^ Z.of_nat (length x)) c.
Proof.
  intros Hx Hc Hne. pose proof (gf_double_loop_carry x 0 Hx ltac:(by left)) as H0.
  rewrite Z.add_0_r in H0. rewrite <- H0.
  destruct Hx as [|b x Hb Hx]; [done|]. cbn [gf_double_loop le_val].
  rewrite !shiftl1_u8 by (done || (unfold is_byte; lia)). rewrite Z.lxor_0_r.
  rewrite lxor_low; [done| |done]. unfold is_byte. word_lia.
Qed.

Lemma le_val_app a b : le_val (a ++ b) = le_val a + 256 ^ Z.of_nat (length a) * le_val b.
Proof.
  induction a as [|x a IH]; [cbn [app length le_val]; change (256 ^ Z.of_nat 0) with 1; lia|].
  rewrite length_cons, Nat2Z.inj_succ, Z.pow_succ_r by lia. cbn [app le_val]. rewrite IH. lia.
Qed.

Lemma length_gf_double l : length (gf_double l) = length l.
Proof. unfold gf_double. by rewrite length_rev, length_gf_double_loop, length_rev. Qed.

Lemma gf_double_bytes l : is_bytes (gf_double l).
Proof. unfold gf_double, is_bytes. apply List.Forall_rev, gf_double_loop_bytes. Qed.

Lemma gf_double_dbl l : length l = 16%nat -> is_bytes l ->
  Rfc4493.block_val (gf_double l) = Rfc4493.dbl (Rfc4493.block_val l).
Proof.
  intros Hl Hb. rewrite !block_val_rev. unfold gf_double. rewrite rev_involutive.
  assert (is_bytes (rev l)) as Hr by by apply List.Forall_rev.
  assert (length (rev l) = 16%nat) as Hrl by by rewrite length_rev.
  rewrite gf_double_loop_poly;
    [|done|destruct (_ =? _); unfold is_byte, gf_wrap; lia|by intros E; rewrite E in Hrl].
  rewrite Hrl. change (256 ^ Z.of_nat 16) with (2 ^ 128). unfold Rfc4493.dbl.
  destruct l as [|h l]; [done|]. apply Forall_cons_iff in Hb as [Hh Hb].
  change (byte_at (h :: l) 0) with h. cbn [rev]. rewrite le_val_app.
  assert (length (rev l) = 15%nat) as -> by (rewrite length_rev; cbn in Hl; lia).
  pose proof (le_val_bounds (rev l) ltac:(by apply List.Forall_rev)) as Hv.
  assert (length (rev l) = 15%nat) as Hlen by (rewrite length_rev; cbn in Hl; lia).
  rewrite Hlen in Hv. change (256 ^ Z.of_nat 15) with (2 ^ 120) in *.
  cbn [le_val]. rewrite carry_bit by done. unfold is_byte in Hh.
  assert (2 * h / 256 = if Z.ltb h 128 then 0 else 1) as ->
    by (destruct (Z.ltb_spec h 128); word_lia).
  destruct (Z.ltb_spec h 128); cbn [Z.eqb].
  - destruct (Z.ltb_spec (le_val (rev l) + 2 ^ 120 * (h + 256 * 0)) (2 ^ 127)); [|lia].
    rewrite Z.lxor_0_r. apply Z.mod_small. lia.
  - destruct (Z.ltb_spec (le_val (rev l) + 2 ^ 120 * (h + 256 * 0)) (2 ^ 127)); [lia|].
    done.
Qed.

Lemma block_of_block_val l : length l = 16%nat -> is_bytes l ->
  Rfc4493.block_of 16 (Rfc4493.block_val l) = l.
Proof.
  intros Hl Hb. rewrite block_val_rev.
  replace 16%nat with (length (rev l)) by by rewrite length_rev.
  rewrite block_of_rev by by apply List.Forall_rev. by rewrite rev_involutive.
Qed.

(** Sixteen bytes. *)
Definition is_block (b : bytes) : Prop := length b = 16%nat /\ is_bytes b.

Lemma xor_block a b : is_block a -> is_block b -> is_block (xor_bytes a b).
Proof.
  intros [? ?] [? ?]. split; [rewrite length_xor_bytes; lia|by apply xor_bytes_is_bytes].
Qed.

Lemma zero_block_ok : is_block zero_block.
Proof. split; [done|]. by apply is_bytes_replicate. Qed.

(** Computes field updates, nothing else. *)
Ltac cmac_simpl :=
  unfold update_field;
  cbn [cm_iv cm_K1 cm_K2 cm_leftover cm_leftover_offset cm_countdown cm_sched].

#[local] Opaque Fips197.Cipher tc_aes_encrypt tc_aes128_set_encrypt_key.

Section cmac_correct.
Context (key : bytes) (Hkey : is_block key).
Let sched := tc_aes128_set_encrypt_key key.
Let E (b : bytes) : bytes := Fips197.Cipher b key.

Lemma sched_encrypt b : is_block b -> tc_aes_encrypt b sched = E b.
Proof. intros [??]. destruct Hkey. by apply tc_aes_encrypt_cipher. Qed.

Lemma E_block b : is_block b -> is_block (E b).
Proof.
  intros Hb. rewrite <- sched_encrypt by done. destruct Hkey, Hb. split.
  - by apply length_tc_aes_encrypt.
  - by apply tc_aes_encrypt_bytes.
Qed.

Lemma setup_K1 : gf_double (E zero_block) = Rfc4493.K1 E.
Proof.
  destruct (E_block _ zero_block_ok) as [Hl Hb]. unfold Rfc4493.K1, Rfc4493.L.
  change (replicate 16 0) with zero_block. rewrite <- gf_double_dbl by done.
  rewrite block_of_block_val; [done|by rewrite length_gf_double|apply gf_double_bytes].
Qed.

Lemma setup_K2 : gf_double (gf_double (E zero_block)) = Rfc4493.K2 E.
Proof.
  destruct (E_block _ zero_block_ok) as [Hl Hb]. unfold Rfc4493.K2, Rfc4493.L.
  change (replicate 16 0) with zero_block. rewrite <- gf_double_dbl by done.
  rewrite <- gf_double_dbl by (by rewrite length_gf_double || apply gf_double_bytes).
  rewrite block_of_block_val;
    [done|by rewrite !length_gf_double|apply gf_double_bytes].
Qed.

Lemma K_block : is_block (Rfc4493.K1 E) /\ is_block (Rfc4493.K2 E).
Proof.
  destruct (E_block _ zero_block_ok) as [Hl Hb]. rewrite <- setup_K1, <- setup_K2.
  split; split; rewrite ?length_gf_double; (done || apply gf_double_bytes).
Qed.

Lemma cbc_S n m :
  Rfc4493.cbc E (S n) m = E (xor_bytes (Rfc4493.cbc E n m) (Rfc4493.block m n)).
Proof. unfold Rfc4493.cbc. by rewrite seq_S, foldl_app. Qed.

Lemma block_app m d i : (16 * S i <= length m)%nat ->
  Rfc4493.block (m ++ d) i = Rfc4493.block m i.
Proof.
  intros. unfold Rfc4493.block. rewrite drop_app_le by lia.
  rewrite take_app_le; [done|]. rewrite length_drop. lia.
Qed.

Lemma cbc_app n m d : (16 * n <= length m)%nat ->
  Rfc4493.cbc E n (m ++ d) = Rfc4493.cbc E n m.
Proof.
  induction n as [|n IH]; intros; [done|]. rewrite !cbc_S.
  by rewrite IH, block_app by lia.
Qed.

Lemma block_is_block m i : is_bytes m -> (16 * S i <= length m)%nat ->
  is_block (Rfc4493.block m i).
Proof.
  intros. unfold Rfc4493.block. split; [rewrite length_take, length_drop; lia|].
  auto with bytes.
Qed.

Lemma cbc_block n m : is_bytes m -> (16 * n <= length m)%nat ->
  is_block (Rfc4493.cbc E n m).
Proof.
  intros Hm. induction n as [|n IH]; intros; [apply zero_block_ok|]. rewrite cbc_S.
  apply E_block, xor_block; [apply IH; lia|by apply block_is_block].
Qed.

(** The state absorbs the next block of the message. *)
Lemma cmac_absorb_cbc s m n b :
  cm_sched s = sched -> cm_iv s = Rfc4493.cbc E n m -> is_bytes m ->
  (16 * S n <= length m)%nat -> b = Rfc4493.block m n ->
  cmac_absorb s b = s <| cm_iv := Rfc4493.cbc E (S n) m |>.
Proof.
  intros Hs Hiv Hm Hlen ->. unfold cmac_absorb. rewrite Hs, Hiv, cbc_S.
  rewrite sched_encrypt; [done|].
  apply xor_block; [apply cbc_block; [done|lia]|by apply block_is_block].
Qed.

Lemma cmac_blocks_cbc fuel s data m n :
  cm_sched s = sched -> cm_iv s = Rfc4493.cbc E n m -> is_bytes (m ++ data) ->
  length m = (16 * n)%nat -> (length data <= fuel)%nat -> (0 < length data)%nat ->
  let k := ((length (m ++ data) - 1) / 16)%nat in
  cmac_blocks fuel s data =
  (s <| cm_iv := Rfc4493.cbc E k (m ++ data) |>, drop (16 * k) (m ++ data)).
Proof.
  revert s data m n. induction fuel as [|fuel IH]; intros s data m n Hs Hiv Hb Hm Hf Hd;
    [lia|].
  cbn [cmac_blocks]. unfold TC_AES_BLOCK_SIZE. case_decide as Hlt.
  - assert (m ++ data = (m ++ take 16 data) ++ drop 16 data) as Heq
      by by rewrite <- app_assoc, take_drop.
    assert (Rfc4493.block (m ++ data) n = take 16 data) as Hblk.
    { unfold Rfc4493.block. by rewrite <- Hm, drop_app_length. }
    assert (is_bytes (m ++ take 16 data)) as Hb'
      by (apply is_bytes_app in Hb as [??]; apply is_bytes_app; auto with bytes).
    assert (length (m ++ take 16 data) = (16 * S n)%nat) as Hm'
      by (rewrite length_app, length_take; lia).
    rewrite (cmac_absorb_cbc s (m ++ take 16 data) n);
      [|done|by rewrite cbc_app by lia|done|lia
       |by rewrite <- (block_app _ (drop 16 data)), <- Heq by lia].
    cbv zeta. rewrite Heq.
    rewrite (IH _ (drop 16 data) (m ++ take 16 data) (S n));
      [|exact Hs|reflexivity|rewrite <- Heq; exact Hb|exact Hm'|rewrite length_drop; lia..].
    f_equal.
  - cbv zeta. rewrite length_app, Hm.
    assert ((16 * n + length data - 1) / 16 = n)%nat as ->.
    { symmetry. apply (Nat.div_unique _ _ _ (length data - 1)); lia. }
    rewrite <- Hm. rewrite drop_app_length, cbc_app by lia. rewrite <- Hiv.
    by destruct s.
Qed.

(** [s] has absorbed the message [m]: all but the last, possibly full, block
    are in the CBC value and the last one is the leftover. *)
Definition cmac_inv (s : tc_cmac_struct) (m : bytes) : Prop :=
  let n := ((length m - 1) / 16)%nat in
  cm_sched s = sched /\ cm_K1 s = Rfc4493.K1 E /\ cm_K2 s = Rfc4493.K2 E /\
  is_bytes m /\ is_block (cm_leftover s) /\
  cm_iv s = Rfc4493.cbc E n m /\
  cm_leftover_offset s = (length m - 16 * n)%nat /\
  take (cm_leftover_offset s) (cm_leftover s) = drop (16 * n) m.

Lemma cmac_inv_setup : cmac_inv (tc_cmac_setup key) [].
Proof.
  unfold tc_cmac_setup. rewrite sched_encrypt by apply zero_block_ok.
  rewrite setup_K2, setup_K1. unfold tc_cmac_init, cmac_inv.
  generalize (Rfc4493.K1 E), (Rfc4493.K2 E). intros k1 k2. cmac_simpl.
  repeat split_and!; (reflexivity || apply zero_block_ok || apply Forall_nil_2).
Qed.

Lemma put_at_drop_block off d l m n :
  is_block l -> (off + length d <= 16)%nat -> take off l = drop (16 * n) m ->
  take (off + length d) (put_at off d l) = drop (16 * n) m ++ d.
Proof.
  intros [Hl _] Hlen Hoff. unfold put_at. rewrite Hoff.
  assert (length (drop (16 * n) m) = off) by (rewrite <- Hoff, length_take; lia).
  rewrite app_assoc. apply take_app_length'. rewrite length_app. lia.
Qed.

Lemma put_at_block off d l :
  is_block l -> is_bytes d -> (off + length d <= 16)%nat -> is_block (put_at off d l).
Proof.
  intros [Hl Hb] Hd Hlen. split; [by rewrite length_put_at by lia|].
  unfold put_at. apply is_bytes_app. split; [by auto with bytes|].
  apply is_bytes_app. auto with bytes.
Qed.

Lemma cmac_update_data_inv s m n data :
  cm_sched s = sched -> cm_K1 s = Rfc4493.K1 E -> cm_K2 s = Rfc4493.K2 E ->
  is_block (cm_leftover s) -> cm_iv s = Rfc4493.cbc E n m ->
  length m = (16 * n)%nat -> is_bytes (m ++ data) -> (0 < length data)%nat ->
  cmac_inv (cmac_update_data s data) (m ++ data) /\
  cm_countdown (cmac_update_data s data) = cm_countdown s.
Proof.
  intros Hs Hk1 Hk2 Hl Hiv Hm Hb Hd. unfold cmac_update_data.
  rewrite (cmac_blocks_cbc (length data) s data m n) by done.
  set (k := ((length (m ++ data) - 1) / 16)%nat).
  assert (16 * k <= length (m ++ data) - 1 < 16 * k + 16)%nat as Hk.
  { unfold k. pose proof (Nat.div_mod (length (m ++ data) - 1) 16).
    pose proof (Nat.mod_upper_bound (length (m ++ data) - 1) 16). lia. }
  rewrite length_app in Hk.
  assert (length (drop (16 * k) (m ++ data)) = length (m ++ data) - 16 * k)%nat as Hrest
    by by rewrite length_drop.
  pose proof Hrest as Hrest'. rewrite length_app in Hrest'.
  case_decide as Hpos; [|lia]. split; [|done].
  unfold cmac_inv. fold k. cmac_simpl.
  repeat split_and!; [exact Hs|exact Hk1|exact Hk2|exact Hb| | |reflexivity|exact Hrest|].
  - apply put_at_block; [done|by auto with bytes|lia].
  - apply put_at_block; [done|by auto with bytes|lia].
  - apply (put_at_drop_block 0 _ (cm_leftover s) [] 0); [done|lia|done].
Qed.

(** A chunk that completes the leftover block and reaches beyond it. *)
Lemma cmac_complete_block s m n off d :
  cm_sched s = sched -> cm_K1 s = Rfc4493.K1 E -> cm_K2 s = Rfc4493.K2 E ->
  is_block (cm_leftover s) -> cm_iv s = Rfc4493.cbc E n m ->
  is_bytes m -> is_bytes d -> (length m = 16 * n + off)%nat -> (off <= 16)%nat ->
  take off (cm_leftover s) = drop (16 * n) m -> (16 - off < length d)%nat ->
  let s1 := s <| cm_leftover := put_at off (take (16 - off) d) (cm_leftover s) |>
              <| cm_leftover_offset := 0%nat |> in
  let s2 := cmac_update_data (cmac_absorb s1 (cm_leftover s1)) (drop (16 - off) d) in
  cmac_inv s2 (m ++ d) /\ cm_countdown s2 = cm_countdown s.
Proof.
  intros Hs Hk1 Hk2 Hl Hiv Hm Hd Hlen Hoff Hlo Hr. cbv zeta.
  set (r := (16 - off)%nat) in *.
  assert (length (take r d) = r) as Htr by (rewrite length_take; lia).
  assert (m ++ d = (m ++ take r d) ++ drop r d) as Heq
    by by rewrite <- app_assoc, take_drop.
  assert (length (m ++ take r d) = (16 * S n)%nat) as Hmr by (rewrite length_app; lia).
  set (lo := put_at off (take r d) (cm_leftover s)).
  assert (is_block lo) as Hblk
    by (apply put_at_block; [done|by auto with bytes|lia]).
  assert (lo = drop (16 * n) m ++ take r d) as Hput.
  { rewrite <- (put_at_drop_block off (take r d) (cm_leftover s) m n); [|done|lia|done].
    rewrite take_ge; [done|]. destruct Hblk as [Hx _]. fold lo. lia. }
  assert (is_bytes (m ++ take r d)) by (apply is_bytes_app; auto with bytes).
  change (cm_leftover (s <| cm_leftover := lo |> <| cm_leftover_offset := 0%nat |>)) with lo.
  rewrite (cmac_absorb_cbc _ (m ++ take r d) n); [|exact Hs| |assumption|lia|].
  - rewrite Heq. set (s2 := update_field _ _).
    edestruct (cmac_update_data_inv s2 (m ++ take r d) (S n) (drop r d)) as [Hi Hcd];
      [exact Hs|exact Hk1|exact Hk2|exact Hblk|reflexivity|exact Hmr| |
      |split; [exact Hi|exact Hcd]].
    + rewrite <- Heq. by apply is_bytes_app.
    + rewrite length_drop. lia.
  - rewrite cbc_app by lia. exact Hiv.
  - rewrite Hput. unfold Rfc4493.block. rewrite drop_app_le by lia.
    rewrite (take_ge (_ ++ _)); [done|]. rewrite length_app, length_drop. lia.
Qed.

(** A chunk of [d] bytes after [n]: it does not exactly complete a block that
    an earlier chunk began. *)
Definition chunk_ok (n d : nat) : Prop := (n mod 16 = 0 \/ n mod 16 + d <> 16)%nat.

Lemma tc_cmac_update_inv s m d :
  cmac_inv s m -> is_bytes d -> chunk_ok (length m) (length d) -> 0 < cm_countdown s ->
  exists s', tc_cmac_update s d = Some s' /\ cmac_inv s' (m ++ d) /\
    cm_countdown s - 1 <= cm_countdown s'.
Proof.
  intros Hinv Hd Hok Hc. pose proof Hinv as (Hs & Hk1 & Hk2 & Hm & Hl & Hiv & Hoff & Hlo).
  unfold tc_cmac_update.
  case_decide as Hz.
  { apply nil_length_inv in Hz as ->. rewrite app_nil_r. exists s. split; [done|].
    split; [exact Hinv|lia]. }
  destruct (Z.eqb_spec (cm_countdown s) 0) as [|_]; [lia|].
  set (n := ((length m - 1) / 16)%nat) in *.
  assert (is_bytes (m ++ d)) by by apply is_bytes_app.
  assert (16 * n <= length m - 1 < 16 * n + 16)%nat as Hn.
  { unfold n. pose proof (Nat.div_mod (length m - 1) 16).
    pose proof (Nat.mod_upper_bound (length m - 1) 16). lia. }
  unfold update_field at 1. cbn [cm_leftover_offset].
  set (s0 := s <| cm_countdown := cm_countdown s - 1 |>).
  change (cm_leftover_offset s0) with (cm_leftover_offset s). rewrite Hoff.
  change (cm_leftover s0) with (cm_leftover s). unfold TC_AES_BLOCK_SIZE.
  case_decide as Hpos.
  - case_decide as Hlt.
    + eexists. split; [done|]. unfold cmac_inv.
      assert ((length (m ++ d) - 1) / 16 = n)%nat as ->.
      { symmetry. rewrite length_app.
        apply (Nat.div_unique _ _ _ (length m + length d - 1 - 16 * n)); lia. }
      cmac_simpl.
      repeat split_and!; [exact Hs|exact Hk1|exact Hk2|assumption| | |..].
      * apply put_at_block; [done|done|lia].
      * apply put_at_block; [done|done|lia].
      * rewrite cbc_app by lia. exact Hiv.
      * rewrite length_app. lia.
      * rewrite (put_at_drop_block _ _ _ m n) by (exact Hl || lia || by rewrite <- Hoff).
        by rewrite drop_app_le by lia.
      * apply Z.le_refl.
    + edestruct (cmac_complete_block s0 m n (length m - 16 * n) d) as [Hi Hcd];
        [exact Hs|exact Hk1|exact Hk2|exact Hl|exact Hiv|done|done|lia|lia
        |by rewrite <- Hoff| |].
      * destruct (decide (length d = 16 - (length m - 16 * n)))%nat as [Heq|]; [|lia].
        unfold chunk_ok in Hok.
        assert (length m mod 16 = length m - 16 * n)%nat as Hmod.
        { symmetry. apply (Nat.mod_unique _ _ n); lia. }
        rewrite Hmod in Hok. lia.
      * eexists. split; [reflexivity|]. split; [exact Hi|]. apply Z.eq_le_incl. symmetry. exact Hcd.
  - assert (m = []) as -> by (apply nil_length_inv; lia). rewrite app_nil_l.
    eexists. split; [reflexivity|].
    edestruct (cmac_update_data_inv s0 [] 0 d) as [Hi Hcd];
      [exact Hs|exact Hk1|exact Hk2|exact Hl|exact Hiv|reflexivity|done|lia|].
    split; [exact Hi|]. rewrite Hcd. apply Z.le_refl.
Qed.

Lemma pad_block l : is_bytes l -> (length l < 16)%nat -> is_block (Rfc4493.pad l).
Proof.
  intros Hl Hlen. split.
  - unfold Rfc4493.pad. rewrite length_app, length_cons, length_replicate. lia.
  - unfold Rfc4493.pad. apply is_bytes_app. split; [done|].
    apply Forall_cons_2; [by cbv|]. by apply is_bytes_replicate.
Qed.

Lemma cmac_block m : is_bytes m -> is_block (Rfc4493.cmac E m).
Proof.
  intros Hm. unfold Rfc4493.cmac. set (n := ((length m - 1) / 16)%nat).
  assert (16 * n <= length m - 1 < 16 * n + 16)%nat as Hn.
  { unfold n. pose proof (Nat.div_mod (length m - 1) 16).
    pose proof (Nat.mod_upper_bound (length m - 1) 16). lia. }
  assert (length (drop (16 * n) m) = length m - 16 * n)%nat as Hrest by apply length_drop.
  destruct K_block as [HK1 HK2].
  apply E_block, xor_block; [apply cbc_block; [done|lia]|].
  case_decide; apply xor_block; [|exact HK1|apply pad_block|exact HK2].
  - split; [done|auto with bytes].
  - auto with bytes.
  - lia.
Qed.

Lemma tc_cmac_final_inv s m : cmac_inv s m -> tc_cmac_final s = Rfc4493.cmac E m.
Proof.
  intros (Hs & Hk1 & Hk2 & Hm & Hl & Hiv & Hoff & Hlo). pose proof Hl as [Hll _].
  unfold tc_cmac_final, Rfc4493.cmac.
  set (n := ((length m - 1) / 16)%nat) in *.
  assert (16 * n <= length m - 1 < 16 * n + 16)%nat as Hn.
  { unfold n. pose proof (Nat.div_mod (length m - 1) 16).
    pose proof (Nat.mod_upper_bound (length m - 1) 16). lia. }
  assert (length (drop (16 * n) m) = length m - 16 * n)%nat as Hrest by apply length_drop.
  assert (is_block (Rfc4493.cbc E n m)) as Hc by (apply cbc_block; [done|lia]).
  destruct K_block as [HK1 HK2]. unfold TC_AES_BLOCK_SIZE.
  assert (forall x k, is_block x -> is_block k ->
    tc_aes_encrypt (xor_bytes (cm_iv s) (xor_bytes x k)) (cm_sched s) =
    E (xor_bytes (Rfc4493.cbc E n m) (xor_bytes x k))) as Henc.
  { intros x k Hx Hk. rewrite Hs, Hiv. apply sched_encrypt.
    by apply xor_block, xor_block. }
  rewrite Hrest, Hoff. case_decide as Hfull.
  - rewrite Hk1, (Henc _ _ Hl HK1). rewrite <- Hlo, Hoff, take_ge by lia. reflexivity.
  - set (l := put_at _ _ _).
    assert (<[(length m - 16 * n)%nat := TC_CMAC_PADDING]> l =
      Rfc4493.pad (drop (16 * n) m)) as Hpad.
    { unfold l, put_at, Rfc4493.pad, TC_CMAC_PADDING. rewrite Hoff in Hlo. rewrite Hlo.
      rewrite (drop_ge (cm_leftover s)) by (rewrite length_replicate; lia). rewrite app_nil_r, Hrest.
      rewrite insert_app_r_alt by lia. rewrite Hrest, Nat.sub_diag.
      replace (16 - (length m - 16 * n))%nat with (S (15 - (length m - 16 * n))) by lia.
      done. }
    rewrite Hpad, Hk2, Henc; [reflexivity| |exact HK2].
    apply pad_block; [auto with bytes|lia].
Qed.

(** No chunk of a scattered message at offset [n] exactly completes a block
    begun by an earlier chunk. *)
Fixpoint sg_ok (n : nat) (sg : list bytes) : Prop :=
  match sg with
  | [] => True
  | d :: sg => chunk_ok n (length d) /\ sg_ok (n + length d) sg
  end.

Lemma cmac_sg_loop_inv s m sg :
  cmac_inv s m -> Forall is_bytes sg -> sg_ok (length m) sg ->
  Z.of_nat (length sg) <= cm_countdown s ->
  exists s', cmac_sg_loop s sg = Some s' /\ cmac_inv s' (m ++ concat sg).
Proof.
  intros Hinv Hsg. revert s m Hinv. induction Hsg as [|d sg Hd Hsg IH]; intros s m Hinv Hok Hc.
  { exists s. cbn [concat]. by rewrite app_nil_r. }
  destruct Hok as [Hok Hrest]. rewrite length_cons in Hc.
  destruct (tc_cmac_update_inv s m d) as (s' & Hup & Hinv' & Hc'); [done..|lia|].
  cbn [cmac_sg_loop concat]. rewrite Hup. cbn [mbind option_bind].
  rewrite app_assoc. apply IH; [done| |lia]. by rewrite length_app.
Qed.

End cmac_correct.

Lemma bt_mesh_aes_cmac_sg key sg :
  is_block key -> Forall is_bytes sg -> sg_ok 0 sg -> Z.of_nat (length sg) <= MAX_CALLS ->
  bt_mesh_aes_cmac key sg =
  Ok (Rfc4493.cmac (fun b => Fips197.Cipher b key) (concat sg)).
Proof.
  intros Hkey Hsg Hok Hc. unfold bt_mesh_aes_cmac.
  destruct (cmac_sg_loop_inv key Hkey (tc_cmac_setup key) [] sg) as (s & Hloop & Hinv);
    [by apply cmac_inv_setup|done|done|exact Hc|].
  rewrite Hloop. f_equal. by apply tc_cmac_final_inv.
Qed.

(** C3: [bt_mesh_aes_cmac] over a scattered message is the AES-CMAC of RFC
    4493 of the concatenated message, as long as no piece exactly completes a
    block begun by an earlier piece. *)
Theorem bt_mesh_aes_cmac_rfc4493 key sg :
  is_block key -> Forall is_bytes sg -> sg_ok 0 sg -> Z.of_nat (length sg) <= MAX_CALLS ->
  bt_mesh_aes_cmac key sg =
  Ok (Rfc4493.cmac (fun b => Fips197.Cipher b key) (concat sg)).
Proof. apply bt_mesh_aes_cmac_sg. Qed.

Lemma bt_mesh_aes_cmac_rfc4493_witness :
  bt_mesh_aes_cmac rfc_key [take 16 rfc_msg; take 9 (drop 16 rfc_msg); [1]] =
  Ok (Rfc4493.cmac (fun b => Fips197.Cipher b rfc_key)
    (concat [take 16 rfc_msg; take 9 (drop 16 rfc_msg); [1]])).
Proof.
  apply bt_mesh_aes_cmac_rfc4493.
  - split; [reflexivity|]. apply (bool_decide_unpack _). vm_compute. exact I.
  - repeat (apply Forall_cons_2; [apply (bool_decide_unpack _); vm_compute; exact I|]).
    apply Forall_nil_2.
  - cbn. unfold chunk_ok. cbn. lia.
  - unfold MAX_CALLS. cbn. lia.
Defined.

(** The exclusion is needed: two pieces of eight bytes get another MAC. *)
Example tc_cmac_chunk_divergence :
  bool_decide (bt_mesh_aes_cmac rfc_key [take 8 rfc_msg; take 8 (drop 8 rfc_msg)] =
    bt_mesh_aes_cmac_one rfc_key (take 16 rfc_msg)) = false.
Proof. vm_compute. reflexivity. Qed.
