(* ===== verification/Ccm.v ===== *)
(** * AES-CCM (bt_mesh/src/crypto.c: bt_mesh_ccm_encrypt, bt_mesh_ccm_decrypt)

    The block cipher is reached through [bt_mesh_aes_encrypt], which a board
    implements in software ([bt_encrypt_be]) or in hardware: the class
    [SecHal] is what CCM uses of it, and [SecHalOk] what it needs. *)

From S2P Require Import Prelude NetBuf Aes Cmac.

Class SecHal := { bt_mesh_aes_encrypt : bytes -> bytes -> res bytes }.

(** An engine that computes some block cipher on 16-byte blocks. *)
Class SecHalOk (hal : SecHal) := {
  cipher : bytes -> bytes -> bytes;
  aes_encrypt_ok key b : is_block key -> is_block b ->
    bt_mesh_aes_encrypt key b = Ok (cipher key b);
  cipher_block key b : is_block key -> is_block b -> is_block (cipher key b)
}.

(** The software engine of mesh_hal_sec.c. *)
#[export] Instance sw_hal : SecHal := {| bt_mesh_aes_encrypt := bt_encrypt_be |}.

#[export, program] Instance sw_hal_ok : SecHalOk sw_hal :=
  {| cipher key b := Fips197.Cipher b key |}.
Next Obligation. intros key b [??] [??]. by apply bt_encrypt_be_aes128. Qed.
Next Obligation. intros key b Hk Hb. by apply E_block. Qed.

(** ** The implementation *)

(** Reads [n] bytes of the object [l] at offset [i]. *)
Definition slice (l : bytes) (i n : nat) : res bytes :=
  if decide (i + n <= length l)%nat then Ok (take n (drop i l)) else Undef.

Section impl.
Context {hal : SecHal}.

(** [pmsg = 0x01 || nonce || be16(ctr)]. *)
Definition ctr_block (nonce : bytes) (ctr : Z) : bytes :=
  0x01 :: nonce ++ sys_put_be16 (u16 ctr).

(** [for (i = 0; i < n; i++) pmsg[i] = Xn[i] ^ chunk[i]] with the rest of
    [pmsg] taken from [Xn]; [n] is the length of the chunk. *)
Definition xor_into (Xn chunk : bytes) : bytes :=
  xor_bytes Xn chunk ++ drop (length chunk) Xn.

Definition ccm_b0 (nonce : bytes) (msg_len : nat) (aad : bytes) (mic_size : nat) : bytes :=
  let flags := if decide (mic_size = 8%nat) then 0x19 else 0x09 in
  Z.lor flags (if decide (length aad = 0%nat) then 0x00 else 0x40)
    :: nonce ++ sys_put_be16 (u16 (Z.of_nat msg_len)).

(** [while (aad_len > 16)]: [pmsg] holds [i] bytes already, [j] bytes of [aad]
    are consumed. Fuel: every iteration takes 16 from [aad_len]. *)
Fixpoint ccm_aad_loop (fuel : nat) (key aad pmsg : bytes) (i j aad_len : nat) (Xn : bytes)
    : res (nat * nat * bytes) :=
  match fuel with
  | O => Ok (j, aad_len, Xn)
  | S fuel =>
      if decide (16 < aad_len)%nat then
        chunk ← slice aad j (16 - i);
        Xn' ← bt_mesh_aes_encrypt key (take i pmsg ++ xor_bytes (drop i Xn) chunk);
        ccm_aad_loop fuel key aad pmsg 0 (j + (16 - i)) (aad_len - 16) Xn'
      else Ok (j, aad_len, Xn)
  end.

Definition ccm_aad (key aad Xn : bytes) : res bytes :=
  if decide (length aad = 0%nat) then Ok Xn
  else
    let pmsg := xor_bytes Xn (sys_put_be16 (u16 (Z.of_nat (length aad)))) in
    '(j, aad_len, Xn) ←
      ccm_aad_loop (length aad + 2) key aad pmsg 2 0 (length aad + 2) Xn;
    chunk ← slice aad j aad_len;
    bt_mesh_aes_encrypt key (xor_into Xn chunk).

Definition ccm_last_blk (msg_len : nat) : nat :=
  let r := (msg_len mod 16)%nat in if decide (r = 0%nat) then 16%nat else r.

(** [blk_cnt] is a [u16_t]. *)
Definition ccm_blk_cnt (msg_len : nat) : nat :=
  Z.to_nat (u16 (Z.of_nat ((msg_len + 15) / 16))).

(** The loop of [bt_mesh_ccm_encrypt] from block [j] on, [n] blocks to go;
    [mic] is uninitialised until the last block. *)
Fixpoint ccm_encrypt_loop (n : nat) (key nonce cmic msg : bytes) (last_blk j : nat)
    (Xn out : bytes) (mic : option bytes) : res (bytes * option bytes) :=
  match n with
  | O => Ok (out, mic)
  | S n =>
      let len := match n with O => last_blk | S _ => 16%nat end in
      chunk ← slice msg (j * 16) len;
      Xn ← bt_mesh_aes_encrypt key (xor_into Xn chunk);
      let mic := match n with O => Some (xor_bytes cmic Xn) | S _ => mic end in
      cmsg ← bt_mesh_aes_encrypt key (ctr_block nonce (Z.of_nat j + 1));
      ccm_encrypt_loop n key nonce cmic msg last_blk (S j) Xn
        (out ++ xor_bytes chunk cmsg) mic
  end.

(** Result: the contents of [out_msg], ciphertext then MIC. *)
Definition bt_mesh_ccm_encrypt (key nonce msg aad : bytes) (mic_size : nat) : res bytes :=
  if decide (0xff00 <= Z.of_nat (length aad)) then Err (- EINVAL)
  else
    cmic ← bt_mesh_aes_encrypt key (ctr_block nonce 0);
    Xn ← bt_mesh_aes_encrypt key (ccm_b0 nonce (length msg) aad mic_size);
    Xn ← ccm_aad key aad Xn;
    '(out, mic) ← ccm_encrypt_loop (ccm_blk_cnt (length msg)) key nonce cmic msg
                    (ccm_last_blk (length msg)) 0 Xn [] None;
    mic ← of_option mic;
    Ok (out ++ take mic_size mic).

Fixpoint ccm_decrypt_loop (n : nat) (key nonce cmic enc_msg : bytes) (last_blk j : nat)
    (Xn out : bytes) (mic : option bytes) : res (bytes * option bytes) :=
  match n with
  | O => Ok (out, mic)
  | S n =>
      let len := match n with O => last_blk | S _ => 16%nat end in
      cmsg ← bt_mesh_aes_encrypt key (ctr_block nonce (Z.of_nat j + 1));
      chunk ← slice enc_msg (j * 16) len;
      let m := xor_bytes chunk cmsg in
      Xn ← bt_mesh_aes_encrypt key (xor_into Xn m);
      let mic := match n with O => Some (xor_bytes cmic Xn) | S _ => mic end in
      ccm_decrypt_loop n key nonce cmic enc_msg last_blk (S j) Xn (out ++ m) mic
  end.

(** [enc_msg] is the ciphertext of length [msg_len] followed by the MIC. The
    result is [out_msg] of a successful call; after [-EBADMSG] the callers
    discard that buffer. *)
Definition bt_mesh_ccm_decrypt (key nonce enc_msg : bytes) (msg_len : nat)
    (aad : bytes) (mic_size : nat) : res bytes :=
  if decide (msg_len < 1)%nat then Err (- EINVAL)
  else if decide (0xff00 <= Z.of_nat (length aad)) then Err (- EINVAL)
  else
    cmic ← bt_mesh_aes_encrypt key (ctr_block nonce 0);
    Xn ← bt_mesh_aes_encrypt key (ccm_b0 nonce msg_len aad mic_size);
    Xn ← ccm_aad key aad Xn;
    '(out, mic) ← ccm_decrypt_loop (ccm_blk_cnt msg_len) key nonce cmic enc_msg
                    (ccm_last_blk msg_len) 0 Xn [] None;
    mic ← of_option mic;
    tag ← slice enc_msg msg_len mic_size;
    if decide (take mic_size mic = tag) then Ok out else Err (- EBADMSG).

End impl.

(** ** RFC 3610 with a two-byte length field (L = 2) *)

Module Rfc3610.
Section ccm.
Context (E : bytes -> bytes).

(** [n] blocks of [l], padded with zeros. *)
Fixpoint blocks (n : nat) (l : bytes) : list bytes :=
  match n with
  | O => []
  | S n => (take 16 l ++ replicate (16 - length l) 0) :: blocks n (drop 16 l)
  end.

Definition nblocks (l : bytes) : nat := (length l + 15) / 16.

Definition b0 (nonce m a : bytes) (M : nat) : bytes :=
  (64 * (if decide (a = []) then 0 else 1) + 8 * ((Z.of_nat M - 2) / 2) + 1)
    :: nonce ++ sys_put_be16 (Z.of_nat (length m)).

Definition a_blocks (a : bytes) : list bytes :=
  if decide (a = []) then []
  else let l := sys_put_be16 (Z.of_nat (length a)) ++ a in blocks (nblocks l) l.

Definition cbc (x : bytes) (bs : list bytes) : bytes :=
  foldl (fun x b => E (xor_bytes x b)) x bs.

Definition T (nonce m a : bytes) (M : nat) : bytes :=
  cbc (E (b0 nonce m a M)) (a_blocks a ++ blocks (nblocks m) m).

(** [A_i] and [S_i]. *)
Definition S_ (nonce : bytes) (i : nat) : bytes :=
  E (1 :: nonce ++ sys_put_be16 (Z.of_nat i)).

Definition keystream (nonce : bytes) (i n : nat) : bytes :=
  concat (map (S_ nonce) (seq i n)).

Definition tag (nonce m a : bytes) (M : nat) : bytes :=
  take M (xor_bytes (T nonce m a M) (S_ nonce 0)).

Definition crypt (nonce m : bytes) : bytes :=
  xor_bytes m (keystream nonce 1 (nblocks m)).

Definition encrypt (nonce m a : bytes) (M : nat) : bytes :=
  crypt nonce m ++ tag nonce m a M.

Definition decrypt (nonce c t a : bytes) (M : nat) : option bytes :=
  let m := crypt nonce c in
  if decide (tag nonce m a M = t) then Some m else None.
End ccm.
End Rfc3610.

(** Bluetooth Mesh Profile, section 8.3.1: the network PDU of message #1. *)
Example ccm_mesh_sample_1 :
  bt_mesh_ccm_encrypt
    [0x09; 0x53; 0xfa; 0x93; 0xe7; 0xca; 0xac; 0x96;
     0x38; 0xf5; 0x88; 0x20; 0x22; 0x0a; 0x39; 0x8e]
    [0x00; 0x80; 0x00; 0x00; 0x01; 0x12; 0x01; 0x00; 0x00; 0x12; 0x34; 0x56; 0x78]
    [0xff; 0xfd; 0x03; 0x4b; 0x50; 0x05; 0x7e; 0x40; 0x00; 0x00; 0x01; 0x00; 0x00] [] 8
  = Ok [0xb5; 0xe5; 0xbf; 0xda; 0xcb; 0xaf; 0x6c; 0xb7; 0xfb; 0x6b; 0xff; 0x87; 0x1f;
        0x03; 0x54; 0x44; 0xce; 0x83; 0xa6; 0x70; 0xdf].
Proof. vm_compute. reflexivity. Qed.

(** ** Correctness *)

Lemma xor_into_zeros Xn c : (length c <= length Xn)%nat ->
  xor_into Xn c = xor_bytes Xn (c ++ replicate (length Xn - length c) 0).
Proof.
  revert c. induction Xn as [|x Xn IH]; intros [|b c] Hc; cbn in Hc; try (done || lia).
  - unfold xor_into, xor_bytes. cbn. f_equal; [by rewrite Z.lxor_0_r|].
    specialize (IH []). unfold xor_into, xor_bytes in IH. cbn in IH.
    rewrite zip_with_nil_r, drop_0, Nat.sub_0_r in IH. apply IH. lia.
  - unfold xor_into, xor_bytes in *. cbn. f_equal. apply IH. lia.
Qed.

Lemma xor_into_pad Xn c : length Xn = 16%nat -> (length c <= 16)%nat ->
  xor_into Xn c = xor_bytes Xn (c ++ replicate (16 - length c) 0).
Proof. intros HX Hc. rewrite xor_into_zeros by lia. by rewrite HX. Qed.

Lemma be16_bytes v : 0 <= v -> is_bytes (sys_put_be16 (u16 v)) /\ length (sys_put_be16 (u16 v)) = 2%nat.
Proof.
  intros. split; [|done]. unfold sys_put_be16. repeat constructor; apply u8_byte.
Qed.

Lemma slice_ok l i n : (i + n <= length l)%nat -> slice l i n = Ok (take n (drop i l)).
Proof. intros. unfold slice. by case_decide. Qed.

Section correct.
Context {hal : SecHal} {halok : SecHalOk hal} (key : bytes) (Hkey : is_block key).
Let E := cipher key.

Lemma enc_ok b : is_block b -> bt_mesh_aes_encrypt key b = Ok (E b).
Proof. by apply aes_encrypt_ok. Qed.
Lemma cipher_ok b : is_block b -> is_block (E b).
Proof. by apply cipher_block. Qed.

Definition is_nonce (n : bytes) : Prop := length n = 13%nat /\ is_bytes n.

Lemma ctr_block_ok nonce i : is_nonce nonce -> 0 <= i -> is_block (ctr_block nonce i).
Proof.
  intros [Hl Hb] Hi. destruct (be16_bytes i Hi) as [Hv Hvl]. unfold ctr_block. split.
  - rewrite length_cons, length_app, Hl, Hvl. done.
  - apply Forall_cons_2; [by cbv|]. by apply is_bytes_app.
Qed.

Lemma ctr_block_S nonce (i : nat) : Z.of_nat i < 65536 ->
  E (ctr_block nonce (Z.of_nat i)) = Rfc3610.S_ E nonce i.
Proof. intros. unfold ctr_block, Rfc3610.S_. by rewrite u16_id by lia. Qed.

Lemma ctr_block_0 nonce : E (ctr_block nonce 0) = Rfc3610.S_ E nonce 0.
Proof. by apply (ctr_block_S nonce 0). Qed.

Lemma ccm_b0_ok nonce n aad M : is_nonce nonce -> is_block (ccm_b0 nonce n aad M).
Proof.
  intros [Hl Hb]. destruct (be16_bytes (Z.of_nat n) ltac:(lia)) as [Hv Hvl].
  unfold ccm_b0. split.
  - rewrite length_cons, length_app, Hl, Hvl. done.
  - apply Forall_cons_2; [|by apply is_bytes_app].
    do 2 case_decide; by apply byteb_spec.
Qed.

Lemma ccm_b0_spec nonce m aad M :
  Z.of_nat (length m) < 65536 -> M = 4%nat \/ M = 8%nat ->
  ccm_b0 nonce (length m) aad M = Rfc3610.b0 nonce m aad M.
Proof.
  intros Hm HM. unfold ccm_b0, Rfc3610.b0. rewrite u16_id by lia. f_equal.
  destruct aad; destruct HM as [-> | ->]; done.
Qed.

Lemma xor_into_block Xn c : is_block Xn -> is_bytes c -> (length c <= 16)%nat ->
  is_block (xor_into Xn c).
Proof.
  intros [HX HXb] Hc Hl. rewrite xor_into_pad by done. apply xor_block; [done|].
  split; [rewrite length_app, length_replicate; lia|].
  apply is_bytes_app. split; [done|]. by apply is_bytes_replicate.
Qed.

Lemma cbc_block_ok bs x :
  is_block x -> Forall is_block bs -> is_block (Rfc3610.cbc E x bs).
Proof.
  intros Hx Hbs. revert x Hx. induction Hbs as [|b bs Hb Hbs IH]; intros x Hx; [done|].
  apply IH, cipher_ok. by apply xor_block.
Qed.

Lemma blocks_ok n l : is_bytes l -> Forall is_block (Rfc3610.blocks n l).
Proof.
  revert l. induction n as [|n IH]; intros l Hl; cbn [Rfc3610.blocks]; [constructor|].
  apply Forall_cons_2.
  - split; [rewrite length_app, length_take, length_replicate; lia|].
    apply is_bytes_app. split; [by auto with bytes|]. by apply is_bytes_replicate.
  - apply IH. auto with bytes.
Qed.

(** A chunk of at most 16 bytes absorbed into the CBC value. *)
Lemma absorb_chunk Xn c : is_block Xn -> is_bytes c -> (length c <= 16)%nat ->
  bt_mesh_aes_encrypt key (xor_into Xn c) =
  Ok (E (xor_bytes Xn (c ++ replicate (16 - length c) 0))).
Proof.
  intros. rewrite enc_ok by by apply xor_into_block.
  rewrite xor_into_pad by (done || apply H). done.
Qed.

Lemma keystream_S nonce i n :
  Rfc3610.keystream E nonce i (S n) =
  Rfc3610.S_ E nonce i ++ Rfc3610.keystream E nonce (S i) n.
Proof. done. Qed.

Lemma S_block nonce i : is_nonce nonce -> Z.of_nat i < 65536 ->
  is_block (Rfc3610.S_ E nonce i).
Proof. intros. rewrite <- ctr_block_S by done. apply cipher_ok, ctr_block_ok; [done|lia]. Qed.

(** The block at the head of [n] blocks, [n = 1] being the last. *)
Lemma head_block (l : bytes) n last :
  (16 * n < length l <= 16 * S n)%nat -> last = (length l - 16 * n)%nat ->
  let len := match n with O => last | S _ => 16%nat end in
  (len <= length l)%nat /\ (len <= 16)%nat /\
  take len l ++ replicate (16 - length (take len l)) 0 =
    take 16 l ++ replicate (16 - length l) 0 /\
  take len l = take 16 l.
Proof.
  intros Hl ->. destruct n as [|n]; cbv zeta.
  - replace (length l - 16 * 0)%nat with (length l) by lia.
    rewrite firstn_all, (take_ge l 16) by lia. split_and!; (done || lia).
  - split_and!; [lia|lia| |done]. do 2 f_equal. rewrite length_take. lia.
Qed.

(** One turn of the encryption loop. *)
Lemma ccm_encrypt_loop_step n nonce cmic msg last j Xn out mic :
  is_nonce nonce -> is_bytes msg -> is_block Xn ->
  (16 * n < length (drop (j * 16) msg) <= 16 * S n)%nat ->
  last = (length (drop (j * 16) msg) - 16 * n)%nat ->
  Z.of_nat (S j) < 65536 ->
  let rest := drop (j * 16) msg in
  let Xn' := E (xor_bytes Xn (take 16 rest ++ replicate (16 - length rest) 0)) in
  ccm_encrypt_loop (S n) key nonce cmic msg last j Xn out mic =
  ccm_encrypt_loop n key nonce cmic msg last (S j) Xn'
    (out ++ xor_bytes (take 16 rest) (Rfc3610.S_ E nonce (S j)))
    (match n with O => Some (xor_bytes cmic Xn') | S _ => mic end).
Proof.
  intros Hn Hm HX Hlen Hlast Hj. cbv zeta.
  destruct (head_block _ _ _ Hlen Hlast) as (Hl & Hl16 & Hpad & Htake).
  rewrite length_drop in Hl. set (rest := drop (j * 16) msg) in *.
  change (ccm_encrypt_loop (S n) key nonce cmic msg last j Xn out mic) with
    (let len := match n with O => last | S _ => 16%nat end in
     chunk ← slice msg (j * 16) len;
     Xn ← bt_mesh_aes_encrypt key (xor_into Xn chunk);
     let mic := match n with O => Some (xor_bytes cmic Xn) | S _ => mic end in
     cmsg ← bt_mesh_aes_encrypt key (ctr_block nonce (Z.of_nat j + 1));
     ccm_encrypt_loop n key nonce cmic msg last (S j) Xn
        (out ++ xor_bytes chunk cmsg) mic).
  cbv zeta. rewrite slice_ok by (destruct n; lia). fold rest. ok_simpl.
  rewrite absorb_chunk;
    [|done|unfold rest; by auto with bytes|rewrite length_take; destruct n; lia].
  ok_simpl. rewrite enc_ok by (apply ctr_block_ok; [done|lia]). ok_simpl.
  replace (Z.of_nat j + 1) with (Z.of_nat (S j)) by lia.
  by rewrite ctr_block_S, Hpad, Htake by lia.
Qed.

Lemma xor_keystream_S nonce i n (l : bytes) : is_nonce nonce -> Z.of_nat i < 65536 ->
  xor_bytes l (Rfc3610.keystream E nonce i (S n)) =
  xor_bytes (take 16 l) (Rfc3610.S_ E nonce i) ++
  xor_bytes (drop 16 l) (Rfc3610.keystream E nonce (S i) n).
Proof.
  intros Hn Hi. rewrite keystream_S. destruct (S_block nonce i Hn Hi) as [Hl _].
  unfold xor_bytes. rewrite zip_with_app_r. by rewrite Hl.
Qed.

Lemma ccm_encrypt_loop_spec n nonce cmic msg last j Xn out mic :
  is_nonce nonce -> is_bytes msg -> is_block Xn ->
  (16 * n < length (drop (j * 16) msg) <= 16 * S n)%nat ->
  last = (length (drop (j * 16) msg) - 16 * n)%nat ->
  Z.of_nat (j + S n) < 65536 ->
  let rest := drop (j * 16) msg in
  ccm_encrypt_loop (S n) key nonce cmic msg last j Xn out mic =
  Ok (out ++ xor_bytes rest (Rfc3610.keystream E nonce (S j) (S n)),
      Some (xor_bytes cmic (Rfc3610.cbc E Xn (Rfc3610.blocks (S n) rest)))).
Proof.
  intros Hn Hm. cbv zeta. revert j Xn out mic.
  induction n as [|n IH]; intros j Xn out mic HX Hlen Hlast Hj;
    rewrite ccm_encrypt_loop_step by (done || lia);
    rewrite xor_keystream_S by (done || lia); cbn [Rfc3610.blocks].
  - cbn [ccm_encrypt_loop]. unfold Rfc3610.keystream, Rfc3610.cbc. cbn [seq map concat foldl].
    rewrite xor_bytes_nil_r, app_nil_r. done.
  - assert (drop (S j * 16) msg = drop 16 (drop (j * 16) msg)) as Hdrop
      by (rewrite drop_drop; f_equal; lia).
    assert (length (drop (S j * 16) msg) = length (drop (j * 16) msg) - 16)%nat as Hl
      by by rewrite Hdrop, length_drop.
    rewrite IH; [|..|lia].
    + rewrite Hdrop, <- app_assoc. reflexivity.
    + apply cipher_ok, xor_block; [done|].
      assert (Forall is_block (Rfc3610.blocks 1 (drop (j * 16) msg))) as Hb
        by (apply blocks_ok; auto with bytes).
      apply Forall_cons_iff in Hb. apply Hb.
    + rewrite Hl. lia.
    + rewrite Hl, Hlast. lia.
Qed.

Lemma length_keystream nonce i n : is_nonce nonce -> Z.of_nat (i + n) <= 65536 ->
  length (Rfc3610.keystream E nonce i n) = (16 * n)%nat.
Proof.
  intros Hn. revert i. induction n as [|n IH]; intros i Hi; [done|].
  rewrite keystream_S, length_app, IH by lia.
  destruct (S_block nonce i Hn ltac:(lia)) as [-> _]. lia.
Qed.

Lemma length_crypt nonce i n l : is_nonce nonce -> Z.of_nat (i + n) <= 65536 ->
  (length l <= 16 * n)%nat ->
  length (xor_bytes l (Rfc3610.keystream E nonce i n)) = length l.
Proof. intros. rewrite length_xor_bytes, length_keystream by done. lia. Qed.

(** The first block of a text and the blocks after it go through the
    keystream separately. *)
Lemma take_drop_crypt nonce i n l : is_nonce nonce -> Z.of_nat i < 65536 ->
  take 16 (xor_bytes l (Rfc3610.keystream E nonce i (S n))) =
    xor_bytes (take 16 l) (Rfc3610.S_ E nonce i) /\
  drop 16 (xor_bytes l (Rfc3610.keystream E nonce i (S n))) =
    xor_bytes (drop 16 l) (Rfc3610.keystream E nonce (S i) n).
Proof.
  intros Hn Hi. rewrite xor_keystream_S by done.
  destruct (S_block nonce i Hn Hi) as [Hl _].
  assert (length (xor_bytes (take 16 l) (Rfc3610.S_ E nonce i)) = Nat.min 16 (length l))
    as Hx by (rewrite length_xor_bytes, length_take; lia).
  destruct (decide (16 <= length l)%nat).
  - split; [apply take_app_length'|apply drop_app_length']; lia.
  - rewrite (drop_ge l) by lia. cbn [xor_bytes zip_with]. rewrite app_nil_r.
    split; [apply take_ge|apply drop_ge]; lia.
Qed.

Lemma keystream_bytes nonce i n : is_nonce nonce -> Z.of_nat (i + n) <= 65536 ->
  is_bytes (Rfc3610.keystream E nonce i n).
Proof.
  intros Hn. revert i. induction n as [|n IH]; intros i Hi; [constructor|].
  rewrite keystream_S. apply is_bytes_app. split; [|apply IH; lia].
  apply S_block; [done|lia].
Qed.

Lemma ccm_decrypt_loop_step n nonce cmic c t last j Xn out mic :
  is_nonce nonce -> is_bytes c -> is_block Xn ->
  (16 * n < length (drop (j * 16) c) <= 16 * S n)%nat ->
  last = (length (drop (j * 16) c) - 16 * n)%nat ->
  Z.of_nat (S j) < 65536 ->
  let rest := drop (j * 16) c in
  let m := xor_bytes (take 16 rest) (Rfc3610.S_ E nonce (S j)) in
  let Xn' := E (xor_bytes Xn (m ++ replicate (16 - length rest) 0)) in
  ccm_decrypt_loop (S n) key nonce cmic (c ++ t) last j Xn out mic =
  ccm_decrypt_loop n key nonce cmic (c ++ t) last (S j) Xn' (out ++ m)
    (match n with O => Some (xor_bytes cmic Xn') | S _ => mic end).
Proof.
  intros Hn Hc HX Hlen Hlast Hj. cbv zeta.
  destruct (head_block _ _ _ Hlen Hlast) as (Hl & Hl16 & Hpad & Htake).
  rewrite length_drop in Hl. set (rest := drop (j * 16) c) in *.
  change (ccm_decrypt_loop (S n) key nonce cmic (c ++ t) last j Xn out mic) with
    (let len := match n with O => last | S _ => 16%nat end in
     cmsg ← bt_mesh_aes_encrypt key (ctr_block nonce (Z.of_nat j + 1));
     chunk ← slice (c ++ t) (j * 16) len;
     let m := xor_bytes chunk cmsg in
     Xn ← bt_mesh_aes_encrypt key (xor_into Xn m);
     let mic := match n with O => Some (xor_bytes cmic Xn) | S _ => mic end in
     ccm_decrypt_loop n key nonce cmic (c ++ t) last (S j) Xn (out ++ m) mic).
  cbv zeta. rewrite enc_ok by (apply ctr_block_ok; [done|lia]). ok_simpl.
  rewrite slice_ok by (rewrite length_app; destruct n; lia). ok_simpl.
  replace (Z.of_nat j + 1) with (Z.of_nat (S j)) by lia.
  rewrite ctr_block_S by lia. rewrite drop_app_le, take_app_le by
    (try rewrite length_drop; destruct n; lia). fold rest. rewrite Htake.
  destruct (S_block nonce (S j) Hn Hj) as [HSl HSb].
  assert (length (xor_bytes (take 16 rest) (Rfc3610.S_ E nonce (S j))) =
    Nat.min 16 (length rest)) as Hml by (rewrite length_xor_bytes, length_take; lia).
  rewrite absorb_chunk; [|done|unfold rest; auto with bytes|lia]. ok_simpl.
  rewrite Hml. replace (16 - Nat.min 16 (length rest))%nat with (16 - length rest)%nat by lia.
  done.
Qed.

Lemma ccm_decrypt_loop_spec n nonce cmic c t last j Xn out mic :
  is_nonce nonce -> is_bytes c -> is_block Xn ->
  (16 * n < length (drop (j * 16) c) <= 16 * S n)%nat ->
  last = (length (drop (j * 16) c) - 16 * n)%nat ->
  Z.of_nat (j + S n) < 65536 ->
  let m := xor_bytes (drop (j * 16) c) (Rfc3610.keystream E nonce (S j) (S n)) in
  ccm_decrypt_loop (S n) key nonce cmic (c ++ t) last j Xn out mic =
  Ok (out ++ m, Some (xor_bytes cmic (Rfc3610.cbc E Xn (Rfc3610.blocks (S n) m)))).
Proof.
  intros Hn Hc. cbv zeta. revert j Xn out mic.
  induction n as [|n IH]; intros j Xn out mic HX Hlen Hlast Hj;
    rewrite ccm_decrypt_loop_step by (done || lia);
    cbn [Rfc3610.blocks]; rewrite length_crypt by (done || lia).
  - destruct (take_drop_crypt nonce (S j) 0 (drop (j * 16) c) Hn ltac:(lia)) as [-> _].
    rewrite xor_keystream_S by (done || lia).
    cbn [ccm_decrypt_loop]. unfold Rfc3610.keystream, Rfc3610.cbc. cbn [seq map concat foldl].
    rewrite xor_bytes_nil_r, app_nil_r. done.
  - destruct (take_drop_crypt nonce (S j) (S n) (drop (j * 16) c) Hn ltac:(lia))
      as [-> ->].
    assert (drop (S j * 16) c = drop 16 (drop (j * 16) c)) as Hdrop
      by (rewrite drop_drop; f_equal; lia).
    assert (length (drop (S j * 16) c) = length (drop (j * 16) c) - 16)%nat as Hl
      by by rewrite Hdrop, length_drop.
    destruct (S_block nonce (S j) Hn ltac:(lia)) as [HSl HSb].
    rewrite IH; [|..|lia].
    + rewrite (xor_keystream_S nonce (S j)) by (done || lia).
      rewrite Hdrop, <- app_assoc. reflexivity.
    + apply cipher_ok, xor_block; [done|]. split.
      * rewrite length_app, length_xor_bytes, length_take, length_replicate. lia.
      * apply is_bytes_app. split; [auto 6 with bytes|]. by apply is_bytes_replicate.
    + rewrite Hl. lia.
    + rewrite Hl, Hlast. lia.
Qed.

(** *** Additional data *)

Lemma nblocks_pos (l : bytes) : (0 < length l)%nat ->
  exists n, Rfc3610.nblocks l = S n /\ (16 * n < length l <= 16 * S n)%nat.
Proof.
  intros Hl. unfold Rfc3610.nblocks.
  pose proof (Nat.div_mod (length l + 15) 16 ltac:(lia)).
  pose proof (Nat.mod_upper_bound (length l + 15) 16 ltac:(lia)).
  exists ((length l + 15) / 16 - 1)%nat. lia.
Qed.

Lemma blocks_step (l : bytes) : (0 < length l)%nat ->
  Rfc3610.blocks (Rfc3610.nblocks l) l =
  (take 16 l ++ replicate (16 - length l) 0) ::
    Rfc3610.blocks (Rfc3610.nblocks (drop 16 l)) (drop 16 l).
Proof.
  intros Hl. destruct (nblocks_pos l Hl) as (n & Hn & Hb). rewrite Hn. cbn [Rfc3610.blocks].
  do 2 f_equal. unfold Rfc3610.nblocks. rewrite length_drop.
  destruct n as [|n].
  - replace (length l - 16)%nat with 0%nat by lia. done.
  - apply (Nat.div_unique _ _ _ (length l - 16 * S n - 1)); lia.
Qed.

Lemma ccm_aad_loop_spec fuel aad pmsg j alen Xn :
  is_block Xn -> is_bytes aad -> (j + alen = length aad)%nat -> (0 < alen)%nat ->
  (alen <= fuel)%nat ->
  ('(j, aad_len, Xn) ← ccm_aad_loop fuel key aad pmsg 0 j alen Xn;
   chunk ← slice aad j aad_len;
   bt_mesh_aes_encrypt key (xor_into Xn chunk)) =
  Ok (Rfc3610.cbc E Xn (Rfc3610.blocks (Rfc3610.nblocks (drop j aad)) (drop j aad))).
Proof.
  intros HX Ha. revert j alen Xn HX.
  induction fuel as [|fuel IH]; intros j alen Xn HX Hj Hpos Hf; [lia|].
  assert (length (drop j aad) = alen) as Hl by (rewrite length_drop; lia).
  rewrite blocks_step, Hl by lia. cbn [ccm_aad_loop].
  case_decide as Hlt.
  - rewrite slice_ok by lia. ok_simpl. rewrite take_0, app_nil_l, drop_0.
    assert (is_block (take 16 (drop j aad))) as Hb
      by (split; [rewrite length_take; lia|auto with bytes]).
    replace (16 - 0)%nat with 16%nat by lia.
    rewrite enc_ok by by apply xor_block. ok_simpl.
    rewrite IH; [|by apply cipher_ok, xor_block|lia..].
    rewrite drop_drop. replace (16 - alen)%nat with 0%nat by lia.
    cbn [replicate]. rewrite app_nil_r. done.
  - ok_simpl. rewrite slice_ok by lia. ok_simpl.
    rewrite take_ge by lia. rewrite absorb_chunk; [|done|auto with bytes|lia].
    rewrite (drop_ge (drop j aad)), (take_ge (drop j aad)) by lia. by rewrite Hl.
Qed.

(** Additional data of the lengths the mesh stack uses, and longer. *)
Definition aad_ok (aad : bytes) : Prop :=
  is_bytes aad /\ (aad = [] \/ 14 < Z.of_nat (length aad) < 0xff00).

Lemma ccm_aad_spec aad Xn : aad_ok aad -> is_block Xn ->
  ccm_aad key aad Xn = Ok (Rfc3610.cbc E Xn (Rfc3610.a_blocks aad)).
Proof.
  intros [Ha Hl] HX. unfold ccm_aad, Rfc3610.a_blocks. destruct Hl as [-> | Hl]; [done|].
  rewrite !decide_False by (try intros ->; cbn in *; lia).
  rewrite u16_id by lia. set (lb := sys_put_be16 (Z.of_nat (length aad))).
  destruct (be16_bytes (Z.of_nat (length aad)) ltac:(lia)) as [Hlb _].
  rewrite u16_id in Hlb by lia. fold lb in Hlb.
  assert (length lb = 2%nat) as Hlbl by done. clearbody lb.
  rewrite blocks_step by (rewrite length_app; lia).
  replace (length aad + 2)%nat with (S (length aad + 1)) by lia. cbn [ccm_aad_loop].
  rewrite decide_True by lia. rewrite slice_ok by lia. ok_simpl. rewrite drop_0.
  assert (take 2 (xor_bytes Xn lb) ++ xor_bytes (drop 2 Xn) (take (16 - 2) aad) =
    xor_bytes Xn (lb ++ take 14 aad)) as ->.
  { rewrite take_ge by (rewrite length_xor_bytes; lia).
    unfold xor_bytes at 3. rewrite zip_with_app_r. fold (xor_bytes (take (length lb) Xn) lb).
    by rewrite xor_bytes_take_r, Hlbl. }
  assert (is_block (lb ++ take 14 aad)) as Hb0.
  { split; [rewrite length_app, length_take; lia|]. apply is_bytes_app. auto with bytes. }
  rewrite enc_ok by by apply xor_block. ok_simpl.
  rewrite ccm_aad_loop_spec; [|by apply cipher_ok, xor_block|done|lia..].
  rewrite length_app, Hlbl. replace (16 - (2 + length aad))%nat with 0%nat by lia.
  cbn [replicate]. rewrite app_nil_r.
  assert (take 16 (lb ++ aad) = lb ++ take 14 aad) as ->
    by (rewrite take_app, Hlbl, (take_ge lb) by lia; done).
  assert (drop 16 (lb ++ aad) = drop (0 + (16 - 2)) aad) as ->
    by (rewrite drop_app, Hlbl, (drop_ge lb) by lia; done).
  done.
Qed.

Lemma a_blocks_ok aad : is_bytes aad -> Forall is_block (Rfc3610.a_blocks aad).
Proof.
  intros Ha. unfold Rfc3610.a_blocks. case_decide; [constructor|].
  apply blocks_ok, is_bytes_app. split; [|done].
  unfold sys_put_be16. repeat constructor; apply u8_byte.
Qed.

(** *** The whole routines *)

(** What CCM is called with: a 13-byte nonce, a message whose length fits the
    two-byte length field and a MIC of 4 or 8 bytes. *)
Record ccm_args (nonce m aad : bytes) (M : nat) : Prop := {
  args_nonce : is_nonce nonce;
  args_m : is_bytes m;
  args_len : 0 < Z.of_nat (length m) < 65536;
  args_aad : aad_ok aad;
  args_M : M = 4%nat \/ M = 8%nat
}.

Lemma ccm_blk_cnt_spec m : 0 < Z.of_nat (length m) < 65536 ->
  ccm_blk_cnt (length m) = Rfc3610.nblocks m.
Proof.
  intros Hm. unfold ccm_blk_cnt, Rfc3610.nblocks.
  rewrite u16_id; [apply Nat2Z.id|]. split; [lia|].
  assert ((length m + 15) / 16 <= length m)%nat; [|lia].
  apply Nat.Div0.div_le_upper_bound. lia.
Qed.

Lemma ccm_last_blk_spec (m : bytes) n : (16 * n < length m <= 16 * S n)%nat ->
  ccm_last_blk (length m) = (length m - 16 * n)%nat.
Proof.
  intros Hm. unfold ccm_last_blk.
  destruct (decide (length m = 16 * S n)%nat) as [Heq|Hne].
  - assert (length m mod 16 = 0)%nat as ->
      by (symmetry; apply (Nat.mod_unique _ _ (S n)); lia).
    rewrite decide_True by done. lia.
  - assert (length m mod 16 = length m - 16 * n)%nat as ->
      by (symmetry; apply (Nat.mod_unique _ _ n); lia).
    by rewrite decide_False by lia.
Qed.

Lemma cbc_app_blocks x a b :
  Rfc3610.cbc E (Rfc3610.cbc E x a) b = Rfc3610.cbc E x (a ++ b).
Proof. unfold Rfc3610.cbc. by rewrite foldl_app. Qed.

Lemma bt_mesh_ccm_encrypt_spec nonce m aad M :
  ccm_args nonce m aad M ->
  bt_mesh_ccm_encrypt key nonce m aad M = Ok (Rfc3610.encrypt E nonce m aad M).
Proof.
  intros [Hn Hm Hl Ha HM]. unfold bt_mesh_ccm_encrypt.
  rewrite decide_False by (destruct Ha as [_ [-> | Ha]]; cbn in *; lia).
  rewrite (enc_ok (ctr_block nonce 0)) by by apply ctr_block_ok. ok_simpl.
  rewrite enc_ok by by apply ccm_b0_ok. ok_simpl.
  rewrite ccm_aad_spec by (done || by apply cipher_ok, ccm_b0_ok). ok_simpl.
  destruct (nblocks_pos m ltac:(lia)) as (n & Hnb & Hbound).
  rewrite ccm_blk_cnt_spec, Hnb, (ccm_last_blk_spec m n) by done.
  rewrite ccm_encrypt_loop_spec; rewrite ?Nat.mul_0_l, ?drop_0; try done.
  - ok_simpl. cbn [of_option]. ok_simpl. rewrite app_nil_l, cbc_app_blocks.
    unfold Rfc3610.encrypt, Rfc3610.crypt, Rfc3610.tag, Rfc3610.T.
    rewrite Hnb, ccm_b0_spec by (done || lia).
    by rewrite (xor_bytes_comm (Rfc3610.cbc _ _ _)), ctr_block_0.
  - apply cbc_block_ok; [by apply cipher_ok, ccm_b0_ok|]. apply a_blocks_ok, Ha.
  - lia.
Qed.

Lemma bt_mesh_ccm_decrypt_spec nonce c t aad M :
  ccm_args nonce c aad M -> length t = M ->
  bt_mesh_ccm_decrypt key nonce (c ++ t) (length c) aad M =
  match Rfc3610.decrypt E nonce c t aad M with
  | Some m => Ok m
  | None => Err (- EBADMSG)
  end.
Proof.
  intros [Hn Hc Hl Ha HM] Ht. unfold bt_mesh_ccm_decrypt.
  rewrite decide_False by lia.
  rewrite decide_False by (destruct Ha as [_ [-> | Ha]]; cbn in *; lia).
  rewrite (enc_ok (ctr_block nonce 0)) by by apply ctr_block_ok. ok_simpl.
  rewrite enc_ok by by apply ccm_b0_ok. ok_simpl.
  rewrite ccm_aad_spec by (done || by apply cipher_ok, ccm_b0_ok). ok_simpl.
  destruct (nblocks_pos c ltac:(lia)) as (n & Hnb & Hbound).
  rewrite ccm_blk_cnt_spec, Hnb, (ccm_last_blk_spec c n) by done.
  rewrite ccm_decrypt_loop_spec; rewrite ?Nat.mul_0_l, ?drop_0; try done.
  - ok_simpl. cbn [of_option]. ok_simpl.
    rewrite slice_ok by (rewrite length_app; lia). ok_simpl.
    rewrite drop_app_length, (take_ge t) by lia. rewrite app_nil_l, cbc_app_blocks.
    unfold Rfc3610.decrypt, Rfc3610.crypt, Rfc3610.tag, Rfc3610.T. rewrite Hnb.
    assert (length (xor_bytes c (Rfc3610.keystream E nonce 1 (S n))) = length c) as Hlen
      by (apply length_crypt; [done|lia..]).
    assert (Rfc3610.nblocks (xor_bytes c (Rfc3610.keystream E nonce 1 (S n))) = S n) as ->
      by (unfold Rfc3610.nblocks at 1; rewrite Hlen; exact Hnb).
    assert (ccm_b0 nonce (length c) aad M = Rfc3610.b0 nonce
      (xor_bytes c (Rfc3610.keystream E nonce 1 (S n))) aad M) as ->
      by (rewrite <- Hlen; apply ccm_b0_spec; [lia|done]).
    rewrite (xor_bytes_comm (Rfc3610.cbc _ _ _)), ctr_block_0.
    by case_decide.
  - apply cbc_block_ok; [by apply cipher_ok, ccm_b0_ok|]. apply a_blocks_ok, Ha.
  - lia.
Qed.

Lemma nblocks_bounds (m : bytes) :
  (length m <= 16 * Rfc3610.nblocks m /\ Rfc3610.nblocks m <= length m)%nat.
Proof.
  destruct (decide (0 < length m)%nat) as [Hpos|].
  - destruct (nblocks_pos m Hpos) as (n & -> & ?). lia.
  - destruct m; [cbn; lia|cbn in *; lia].
Qed.

Lemma crypt_bytes nonce m : is_nonce nonce -> Z.of_nat (length m) < 65536 ->
  is_bytes m -> is_bytes (Rfc3610.crypt E nonce m).
Proof.
  intros. pose proof (nblocks_bounds m). unfold Rfc3610.crypt.
  apply xor_bytes_is_bytes; [done|]. apply keystream_bytes; [done|lia].
Qed.

Lemma crypt_involutive nonce m : is_nonce nonce -> Z.of_nat (length m) < 65536 ->
  Rfc3610.crypt E nonce (Rfc3610.crypt E nonce m) = m /\
  length (Rfc3610.crypt E nonce m) = length m.
Proof.
  intros Hn Hl. unfold Rfc3610.crypt.
  pose proof (nblocks_bounds m) as [H1 H2].
  assert (length (xor_bytes m (Rfc3610.keystream E nonce 1 (Rfc3610.nblocks m))) = length m)
    as Hlen by (apply length_crypt; [done|lia..]).
  split; [|exact Hlen]. unfold Rfc3610.nblocks at 2. rewrite Hlen.
  fold (Rfc3610.nblocks m). apply xor_bytes_cancel.
  rewrite length_keystream by (done || lia). lia.
Qed.

Lemma tag_block nonce m aad M : is_nonce nonce -> Z.of_nat (length m) < 65536 ->
  is_bytes m -> is_bytes aad -> (2 <= M <= 16)%nat ->
  length (Rfc3610.tag E nonce m aad M) = M /\ is_bytes (Rfc3610.tag E nonce m aad M).
Proof.
  intros Hn Hl Hm Ha HM. unfold Rfc3610.tag.
  assert (is_block (xor_bytes (Rfc3610.T E nonce m aad M) (Rfc3610.S_ E nonce 0))) as [Hxl Hxb].
  { apply xor_block; [|by apply S_block]. unfold Rfc3610.T.
    apply cbc_block_ok.
    - apply cipher_ok. destruct Hn as [Hnl Hnb]. unfold Rfc3610.b0. split.
      + rewrite length_cons, length_app, Hnl. done.
      + apply Forall_cons_2; [|apply is_bytes_app; split; [done|]].
        * assert (0 <= (Z.of_nat M - 2) / 2 <= 7) by (Z.div_mod_to_equations; lia).
          case_decide; unfold is_byte; lia.
        * unfold sys_put_be16. repeat constructor; apply u8_byte.
    - apply Forall_app. split; [by apply a_blocks_ok|by apply blocks_ok]. }
  split; [rewrite length_take; lia|auto with bytes].
Qed.

(** What a caller of both routines sees. *)
Lemma ccm_roundtrip nonce m aad M : ccm_args nonce m aad M ->
  exists c t, bt_mesh_ccm_encrypt key nonce m aad M = Ok (c ++ t) /\
    length c = length m /\ length t = M /\ is_bytes c /\ is_bytes t /\
    bt_mesh_ccm_decrypt key nonce (c ++ t) (length m) aad M = Ok m.
Proof.
  intros Hargs. pose proof Hargs as [Hn Hm Hl [Ha Hal] HM].
  destruct (crypt_involutive nonce m Hn ltac:(lia)) as [Hinv Hlen].
  destruct (tag_block nonce m aad M) as [Htl Htb]; [done|lia|done|done|lia|].
  assert (is_bytes (Rfc3610.crypt E nonce m)) by (apply crypt_bytes; (done || lia)).
  exists (Rfc3610.crypt E nonce m), (Rfc3610.tag E nonce m aad M).
  split_and!; try done; [by apply bt_mesh_ccm_encrypt_spec|].
  rewrite <- Hlen. rewrite bt_mesh_ccm_decrypt_spec; [|split; [done|done|lia|by split|done]|done].
  unfold Rfc3610.decrypt. cbv zeta. rewrite Hinv. by rewrite decide_True.
Qed.
(** With additional data of 1 to 14 bytes the loop that copies behind the two
    length bytes is not entered, and the last block reads two bytes too many. *)
Lemma ccm_aad_short aad Xn : (1 <= length aad <= 14)%nat -> ccm_aad key aad Xn = Undef.
Proof.
  intros Ha. unfold ccm_aad. rewrite decide_False by lia. rewrite Nat.add_comm. cbn [plus ccm_aad_loop].
  rewrite decide_False by lia. ok_simpl. unfold slice. by rewrite decide_False by lia.
Qed.

(** The lengths the routines are not made for. *)
Lemma ccm_encrypt_outside nonce m aad M : is_nonce nonce -> is_bytes aad -> M = 4%nat \/ M = 8%nat ->
  Z.of_nat (length aad) < 0xff00 -> (1 <= length aad <= 14)%nat \/ m = [] ->
  bt_mesh_ccm_encrypt key nonce m aad M = Undef.
Proof.
  intros Hn Hb HM Hl Hout. unfold bt_mesh_ccm_encrypt. rewrite decide_False by lia.
  rewrite (enc_ok (ctr_block nonce 0)) by by apply ctr_block_ok. ok_simpl.
  rewrite enc_ok by by apply ccm_b0_ok. ok_simpl.
  destruct (decide (1 <= length aad <= 14)%nat); [by rewrite ccm_aad_short|].
  destruct Hout as [?| ->]; [done|].
  rewrite ccm_aad_spec; [done| |by apply cipher_ok, ccm_b0_ok].
  split; [done|]. destruct aad; [by left|right; cbn in *; lia].
Qed.

Lemma ccm_decrypt_outside nonce c t aad M : is_nonce nonce -> M = 4%nat \/ M = 8%nat ->
  c <> [] -> (1 <= length aad <= 14)%nat ->
  bt_mesh_ccm_decrypt key nonce (c ++ t) (length c) aad M = Undef.
Proof.
  intros Hn HM Hc Ha. unfold bt_mesh_ccm_decrypt. destruct c as [|b c]; [done|].
  rewrite decide_False by (cbn; lia). rewrite decide_False by lia.
  rewrite (enc_ok (ctr_block nonce 0)) by by apply ctr_block_ok. ok_simpl.
  rewrite enc_ok by by apply ccm_b0_ok. ok_simpl. by rewrite ccm_aad_short.
Qed.
End correct.

(** What the theorems ask of a caller: a 13-byte nonce, a MIC of 4 or 8 bytes,
    and a message whose length fits the two-byte length field. *)
Record ccm_call (nonce m aad : bytes) (M : nat) : Prop := {
  call_nonce : is_nonce nonce;
  call_m : is_bytes m;
  call_len : Z.of_nat (length m) < 65536;
  call_aad : is_bytes aad;
  call_M : M = 4%nat \/ M = 8%nat
}.

Lemma ccm_call_args nonce m aad M : ccm_call nonce m aad M -> m <> [] ->
  Z.of_nat (length aad) < 0xff00 -> ~ (1 <= length aad <= 14)%nat -> ccm_args nonce m aad M.
Proof.
  intros [Hn Hm Hl Ha HM] Hne Hlt Hout. split; try done.
  - destruct m; [done|cbn in *; lia].
  - split; [done|]. destruct aad; [by left|right; cbn in *; lia].
Qed.

(** C4: [bt_mesh_ccm_encrypt], over whatever block cipher the security HAL
    provides, for any nonce, message of less than 65536 bytes, additional data,
    and MIC of 4 or 8 bytes: with additional data of 0xff00 bytes or more it
    returns [-EINVAL]; with 1 to 14 bytes of additional data it reads behind
    them, and with an empty message it returns an uninitialised MIC (both
    undefined); in every other case it is AES-CCM of RFC 3610: ciphertext, then
    the MIC. The mesh stack passes 0 or 16 bytes of additional data. *)
Theorem bt_mesh_ccm_encrypt_rfc3610 {hal : SecHal} {halok : SecHalOk hal} key nonce m aad M :
  is_block key -> ccm_call nonce m aad M ->
  bt_mesh_ccm_encrypt key nonce m aad M =
  if decide (0xff00 <= Z.of_nat (length aad)) then Err (- EINVAL)
  else if decide ((1 <= length aad <= 14)%nat \/ m = []) then Undef
  else Ok (Rfc3610.encrypt (cipher key) nonce m aad M).
Proof.
  intros Hkey H. case_decide; [unfold bt_mesh_ccm_encrypt; by rewrite decide_True|].
  case_decide as Hout; [apply ccm_encrypt_outside; (apply H || done || lia)|].
  apply bt_mesh_ccm_encrypt_spec; [done|]. apply ccm_call_args; [done|tauto|lia|tauto].
Qed.

Lemma ccm_args_sample : ccm_args (replicate 13 7) (replicate 20 1) (replicate 16 3) 8.
Proof.
  split; try (apply is_bytes_replicate; unfold is_byte; lia).
  - split; [done|]. apply is_bytes_replicate. unfold is_byte. lia.
  - cbn. lia.
  - split; [apply is_bytes_replicate; unfold is_byte; lia|]. right. cbn. lia.
  - by right.
Qed.

Lemma ccm_call_sample : ccm_call (replicate 13 7) (replicate 20 1) (replicate 16 3) 8.
Proof. destruct ccm_args_sample as [? ? ? [? _] ?]. split; [done|done|lia|done|done]. Qed.

Lemma bt_mesh_ccm_encrypt_rfc3610_witness :
  bt_mesh_ccm_encrypt (replicate 16 0) (replicate 13 7) (replicate 20 1) (replicate 16 3) 8 =
  Ok (Rfc3610.encrypt (cipher (replicate 16 0)) (replicate 13 7) (replicate 20 1)
        (replicate 16 3) 8).
Proof.
  exact (bt_mesh_ccm_encrypt_rfc3610 (replicate 16 0) _ _ _ _ zero_block_ok ccm_call_sample).
Defined.

(** C5: [bt_mesh_ccm_decrypt], for any nonce, received ciphertext of less than
    65536 bytes with a MIC of 4 or 8 bytes, and additional data: an empty
    ciphertext or additional data of 0xff00 bytes or more give [-EINVAL], and
    with 1 to 14 bytes of additional data it reads behind them (undefined). In
    every other case it recovers the plaintext exactly when the received MIC is
    the one of RFC 3610 for it, and returns [-EBADMSG] otherwise; in particular
    it inverts [bt_mesh_ccm_encrypt]. *)
Theorem bt_mesh_ccm_decrypt_rfc3610 {hal : SecHal} {halok : SecHalOk hal} key nonce c t aad M :
  is_block key -> ccm_call nonce c aad M -> length t = M ->
  let m := Rfc3610.crypt (cipher key) nonce c in
  bt_mesh_ccm_decrypt key nonce (c ++ t) (length c) aad M =
    (if decide (c = [] \/ 0xff00 <= Z.of_nat (length aad)) then Err (- EINVAL)
     else if decide (1 <= length aad <= 14)%nat then Undef
     else if decide (t = Rfc3610.tag (cipher key) nonce m aad M) then Ok m else Err (- EBADMSG)) /\
  (c <> [] -> Z.of_nat (length aad) < 0xff00 -> ~ (1 <= length aad <= 14)%nat ->
   bt_mesh_ccm_encrypt key nonce m aad M = Ok (c ++ Rfc3610.tag (cipher key) nonce m aad M)).
Proof.
  intros Hkey Hcall Ht m. destruct (crypt_involutive key Hkey nonce c (call_nonce _ _ _ _ Hcall)
    (call_len _ _ _ _ Hcall)) as [Hinv Hlen]. split.
  - case_decide as Hinval.
    { unfold bt_mesh_ccm_decrypt. destruct Hinval as [-> |Ha]; [done|].
      case_decide; [done|]. by rewrite decide_True. }
    case_decide; [apply ccm_decrypt_outside; (apply Hcall || done || tauto)|].
    rewrite bt_mesh_ccm_decrypt_spec; [|done|apply ccm_call_args; (done || tauto || lia)|done].
    unfold Rfc3610.decrypt. cbv zeta. fold m. repeat case_decide; congruence.
  - intros Hc Ha Hout. pose proof (ccm_call_args _ _ _ _ Hcall Hc Ha Hout) as [Hn Hm Hl Haad HM].
    rewrite bt_mesh_ccm_encrypt_spec; [|done|].
    + unfold Rfc3610.encrypt, m. by rewrite Hinv.
    + split; [done| |unfold m; lia|done|done]. apply crypt_bytes; (done || lia).
Qed.

Lemma bt_mesh_ccm_decrypt_rfc3610_witness :
  bt_mesh_ccm_decrypt (replicate 16 0) (replicate 13 7) (replicate 20 1 ++ replicate 8 5) 20
    (replicate 16 3) 8 = Err (- EBADMSG).
Proof.
  change 20%nat with (length (replicate 20 1)) at 2.
  rewrite (proj1 (bt_mesh_ccm_decrypt_rfc3610 (replicate 16 0) (replicate 13 7)
    (replicate 20 1) (replicate 8 5) (replicate 16 3) 8 zero_block_ok ccm_call_sample
    eq_refl)).
  vm_compute. reflexivity.
Defined.
