(* ===== verification/Adv.v ===== *)
(** * The advertising bearer (bt_mesh/src/adv.c)

    Advertising buffers, the queue of the advertising thread with its two
    variants (plain and [CONFIG_BT_MESH_MULTIADV]), and the parser of received
    advertising data. The buffers are those of one pool; buffers of other pools
    share the queue but do not interact with these. Callbacks to the sender are
    effects, performed by the sender's model in the order they are listed. *)

From S2P Require Import Prelude NetBuf NetPool.

(** ** Data (inc/adv.h) *)

Definition BT_MESH_ADV_PROV : Z := 0.
Definition BT_MESH_ADV_DATA : Z := 1.
Definition BT_MESH_ADV_BEACON : Z := 2.
Definition BT_MESH_ADV_URI : Z := 3.
Definition BT_MESH_DATA_MESH_PROV : Z := 0x29.
Definition BT_MESH_DATA_MESH_MESSAGE : Z := 0x2a.
Definition BT_MESH_DATA_MESH_BEACON : Z := 0x2b.

(** A network buffer with its [struct bt_mesh_adv]; [CB] names the callbacks
    and their argument. [ab_seq_auth] is the field [struct friend_adv] adds,
    which this file does not touch. *)
Record adv_buf (CB : Type) := mk_adv_buf {
  ab_data : bytes;
  ab_cb : option CB;
  ab_type : Z;
  ab_busy : bool;
  ab_count : Z;
  ab_adv_int : Z;
  ab_addr : Z;
  ab_seq_auth : Z
}.
Arguments mk_adv_buf {CB}. Arguments ab_data {CB}. Arguments ab_cb {CB}. Arguments ab_type {CB}.
Arguments ab_busy {CB}. Arguments ab_count {CB}. Arguments ab_adv_int {CB}.
Arguments ab_addr {CB}. Arguments ab_seq_auth {CB}.
#[export] Instance adv_buf_settable {CB} : Settable (adv_buf CB).
Proof.
  settable (fun b => mk_adv_buf (CB := CB) (ab_data b) (ab_cb b) (ab_type b) (ab_busy b) (ab_count b)
    (ab_adv_int b) (ab_addr b) (ab_seq_auth b)).
Defined.

(** The pool and [adv_queue]. *)
Record adv (CB : Type) := mk_adv { av_pool : pool (adv_buf CB); av_queue : list nat }.
Arguments mk_adv {CB}. Arguments av_pool {CB}. Arguments av_queue {CB}.
#[export] Instance adv_settable {CB} : Settable (adv CB).
Proof. settable (fun a => mk_adv (CB := CB) (av_pool a) (av_queue a)). Defined.

(** What the thread does outside this file. *)
Inductive adv_effect (CB : Type) :=
| EffAdvStart (type : Z) (data : bytes) (interval : Z)
| EffCbStart (duration err : Z) (cb : CB)
| EffSleep (duration : Z)
| EffAdvStop
| EffCbEnd (err : Z) (cb : CB).
Arguments EffAdvStart {CB}. Arguments EffCbStart {CB}. Arguments EffSleep {CB}.
Arguments EffAdvStop {CB}. Arguments EffCbEnd {CB}.

Section adv.
Context {CB : Type}.
Implicit Types (a : adv CB) (b : adv_buf CB) (i : nat).

Definition av_buf a i : option (adv_buf CB) := nb_val <$> p_bufs (av_pool a) !! i.
Definition av_update (f : adv_buf CB -> adv_buf CB) i a : adv CB :=
  a <| av_pool := pool_update f i (av_pool a) |>.
Definition av_unref i a : adv CB := a <| av_pool := net_buf_unref i (av_pool a) |>.

(** ** Buffers *)

(** [net_buf_reset]. *)
Definition adv_reset b : adv_buf CB := b <| ab_data := [] |>.

Definition bt_mesh_adv_create_from_pool (type xmit_count xmit_int : Z) a : option (nat * adv CB) :=
  match net_buf_alloc adv_reset (av_pool a) with
  | None => None
  | Some (i, p) =>
      Some (i, av_update (fun b =>
        mk_adv_buf (ab_data b) None (Z.land type 3) false (Z.land xmit_count 7) (u16 xmit_int) 0
          (ab_seq_auth b)) i (a <| av_pool := p |>))
  end.

Definition bt_mesh_adv_send i (cb : option CB) a : adv CB :=
  let a := av_update (fun b => (b <| ab_cb := cb |>) <| ab_busy := true |>) i a in
  let a := a <| av_pool := net_buf_ref i (av_pool a) |> in
  a <| av_queue := av_queue a ++ [i] |>.

(** ** The advertising thread *)

Definition adv_type (type : Z) : option Z :=
  [BT_MESH_DATA_MESH_PROV; BT_MESH_DATA_MESH_MESSAGE; BT_MESH_DATA_MESH_BEACON] !! Z.to_nat type.
Definition ADV_INT (ms : Z) : Z := Z.quot (ms * 8) 5.

Definition cb_start_eff (duration err : Z) (cb : option CB) : list (adv_effect CB) :=
  match cb with Some c => [EffCbStart duration err c] | None => [] end.
Definition cb_end_eff (err : Z) (cb : option CB) : list (adv_effect CB) :=
  match cb with Some c => [EffCbEnd err c] | None => [] end.

(** [adv_send] up to its sleep, and what is left of it; [start_err] is the
    result of [bt_mesh_adv_start]. *)
Definition adv_send (adv_int_min start_err : Z) i b a
    : option (list (adv_effect CB) * adv CB) :=
  type ← adv_type (ab_type b);
  let adv_int := u16 (Z.max adv_int_min (ab_adv_int b)) in
  let duration := u16 ((ab_count b + 1) * (adv_int + 10)) in
  Some ([EffAdvStart type (ab_data b) (ADV_INT adv_int)] ++
        cb_start_eff duration start_err (ab_cb b) ++
        (if start_err =? 0 then [EffSleep duration] else []), av_unref i a).
Definition adv_send_exit (stop_err : Z) (cb : option CB) : list (adv_effect CB) :=
  EffAdvStop :: cb_end_eff stop_err cb.

(** One turn of [adv_thread] up to the sleep; the callback, when a buffer was
    sent, is what [adv_send_exit] ends with. *)
Definition adv_thread_turn (adv_int_min start_err : Z) a
    : option (list (adv_effect CB) * option (option CB) * adv CB) :=
  match av_queue a with
  | [] => Some ([], None, a)
  | i :: q =>
      b ← av_buf a i;
      let a := a <| av_queue := q |> in
      if ab_busy b then
        let a := av_update (fun b => b <| ab_busy := false |>) i a in
        '(effs, a) ← adv_send adv_int_min start_err i b a;
        Some (effs, Some (ab_cb b), a)
      else Some ([], None, av_unref i a)
  end.

(** *** With several advertising sets *)

(** [struct mesh_multi_adv] and the bearer. *)
Record multi_adv := mk_multi_adv { ma_adv : adv CB; ma_instant : Z; ma_cb : option CB }.
#[local] Instance multi_adv_settable : Settable multi_adv.
Proof. settable (fun m => mk_multi_adv (ma_adv m) (ma_instant m) (ma_cb m)). Defined.

(** [bt_mesh_multi_adv_start] returned [start_err] and the instance [inst]. *)
Definition adv_send_multi (adv_int_min start_err inst : Z) i b (m : multi_adv)
    : option (Z * list (adv_effect CB) * multi_adv) :=
  type ← adv_type (ab_type b);
  let adv_int := u16 (Z.max adv_int_min (ab_adv_int b)) in
  let duration := u16 ((ab_count b + 1) * adv_int + 10) in
  let start := [EffAdvStart type (ab_data b) (ADV_INT adv_int)] in
  let m := m <| ma_adv := av_unref i (ma_adv m) |> in
  if start_err =? 0 then
    Some (duration, start ++ cb_start_eff duration start_err (ab_cb b),
          (m <| ma_instant := inst |>) <| ma_cb := ab_cb b |>)
  else Some (0, start ++ cb_end_eff start_err (ab_cb b), m).

(** The third component is the time the timer is submitted with, if it is. *)
Definition bt_mesh_adv_event_process (adv_int_min start_err inst : Z) (m : multi_adv)
    : option (list (adv_effect CB) * multi_adv * option Z) :=
  if negb (ma_instant m =? 0) then Some ([], m, None)
  else
    match av_queue (ma_adv m) with
    | [] => Some ([], m, Some 1000)
    | i :: q =>
        b ← av_buf (ma_adv m) i;
        let m := m <| ma_adv := (ma_adv m) <| av_queue := q |> |> in
        if ab_busy b then
          let m := m <| ma_adv := av_update (fun b => b <| ab_busy := false |>) i (ma_adv m) |> in
          '(timeout, effs, m) ← adv_send_multi adv_int_min start_err inst i b m;
          Some (effs, m, Some (if timeout =? 0 then 1000 else timeout))
        else Some ([], m, Some 1000)
    end.

Definition bt_mesh_adv_timer_event_process (m : multi_adv) : list (adv_effect CB) * multi_adv :=
  ((if negb (ma_instant m =? 0) then [EffAdvStop] else []) ++ cb_end_eff 0 (ma_cb m),
   (m <| ma_instant := 0 |>) <| ma_cb := None |>).
End adv.
Arguments multi_adv : clear implicits.

(** ** Received advertising data *)

Definition BT_LE_ADV_IND : Z := 0x00.
Definition BT_LE_ADV_NONCONN_IND : Z := 0x03.

Inductive scan_event :=
| ScanNet (data : bytes)
| ScanProv (data : bytes)
| ScanBeacon (data : bytes)
| ScanUltraRandom (data : bytes)
| ScanUltraProvData (data : bytes).

(** The manufacturer data of the "ultra" provisioning ([GENIE_ULTRA_PROV]);
    pulling more than there is trips an assertion. *)
Definition ultra_prov_recv (data : bytes) : option (list scan_event) :=
  if decide (length data < 2)%nat then None
  else if negb (sys_get_be16 data =? 0x01a8) then Some []
  else
    match drop 2 data with
    | [] => None
    | fixed :: rest =>
        if negb (fixed =? 0x0d) then Some []
        else match rest with
             | [] => None
             | cmd :: rest =>
                 if cmd =? 0x00 then Some [ScanUltraRandom rest]
                 else if cmd =? 0x02 then Some [ScanUltraProvData rest]
                 else Some []
             end
    end.

(** One AD structure. *)
Definition scan_dispatch (ultra_prov : bool) (evt_type type : Z) (data : bytes)
    : option (list scan_event) :=
  if evt_type =? BT_LE_ADV_NONCONN_IND then
    if type =? BT_MESH_DATA_MESH_MESSAGE then Some [ScanNet data]
    else if type =? BT_MESH_DATA_MESH_PROV then Some [ScanProv data]
    else if type =? BT_MESH_DATA_MESH_BEACON then Some [ScanBeacon data]
    else Some []
  else if ultra_prov && (evt_type =? BT_LE_ADV_IND) && (type =? 0xff) then ultra_prov_recv data
  else Some [].

(** The loop of [bt_mesh_scan_cb]; [n] bounds its iterations. *)
Fixpoint scan_ads (n : nat) (ultra_prov : bool) (evt_type : Z) (data : bytes)
    : option (list scan_event) :=
  match n, data with
  | S n, len :: type :: rest =>
      if len =? 0 then Some []
      else if decide (S (length rest) < Z.to_nat len)%nat then Some []
      else
        evs ← scan_dispatch ultra_prov evt_type type (take (Z.to_nat len - 1) rest);
        evs' ← scan_ads n ultra_prov evt_type (drop (Z.to_nat len - 1) rest);
        Some (evs ++ evs')
  | _, _ => Some []
  end.

(** The new value of [dev_addr], and the calls. *)
Definition bt_mesh_scan_cb {Addr} (ultra_prov : bool) (addr : Addr) (evt_type : Z) (data : bytes)
    : option (option Addr * list scan_event) :=
  if negb (evt_type =? BT_LE_ADV_NONCONN_IND) && negb (evt_type =? BT_LE_ADV_IND) then Some (None, [])
  else evs ← scan_ads (length data) ultra_prov evt_type data; Some (Some addr, evs).

(** ** Lemmas on the bearer *)

Section adv.
Context {CB : Type}.
Implicit Types (a : adv CB).

Definition av_refs a : list Z := refs (av_pool a).

Lemma av_refs_update f i a : av_refs (av_update f i a) = av_refs a.
Proof. apply refs_update. Qed.

Lemma pool_update_wf {X} (f : X -> X) i (p : pool X) : pool_wf p -> pool_wf (pool_update f i p).
Proof.
  assert (Hc : buf_count (pool_update f i p) = buf_count p) by apply length_alter.
  intros [Hu Hnd Hf Hun Hr]. split; rewrite ?Hc, ?refs_update; done.
Qed.

Lemma create_spec type xc xi a :
  pool_wf (av_pool a) ->
  match bt_mesh_adv_create_from_pool type xc xi a with
  | Some (i, a') =>
      av_refs a !! i = Some 0 /\ av_refs a' = <[i := 1]> (av_refs a) /\
      pool_wf (av_pool a') /\ av_queue a' = av_queue a
  | None => Forall (fun c => 0 < c) (av_refs a)
  end.
Proof.
  intros Hwf. unfold bt_mesh_adv_create_from_pool.
  pose proof (net_buf_alloc_spec adv_reset (av_pool a) Hwf) as H.
  destruct (net_buf_alloc _ _) as [[i p]|]; [|done]. destruct H as (H0 & Hr & Hp & _).
  split; [done|]. split; [|split; [|done]].
  - rewrite av_refs_update. exact Hr.
  - by apply pool_update_wf.
Qed.

Lemma send_spec i cb a c :
  pool_wf (av_pool a) -> av_refs a !! i = Some c -> 0 < c < 255 ->
  av_refs (bt_mesh_adv_send i cb a) = <[i := c + 1]> (av_refs a) /\
  pool_wf (av_pool (bt_mesh_adv_send i cb a)) /\
  av_queue (bt_mesh_adv_send i cb a) = av_queue a ++ [i].
Proof.
  intros Hwf Hi Hc. unfold bt_mesh_adv_send.
  set (a1 := av_update _ i a).
  assert (Hwf1 : pool_wf (av_pool a1)) by (by apply pool_update_wf).
  assert (Hr1 : av_refs a1 = av_refs a) by apply av_refs_update.
  destruct (net_buf_ref_spec (av_pool a1) i c Hwf1) as [Hr Hp]; [by rewrite <- Hi, <- Hr1|done|].
  split_and!; [|done..]. rewrite <- Hr1. exact Hr.
Qed.

Lemma unref_spec i a c :
  pool_wf (av_pool a) -> av_refs a !! i = Some c -> 0 < c ->
  av_refs (av_unref i a) = <[i := c - 1]> (av_refs a) /\ pool_wf (av_pool (av_unref i a)).
Proof. intros. by apply net_buf_unref_spec. Qed.
End adv.

(** ** Received advertising data *)

(** An AD structure, as it is sent. *)
Definition ad_structure (ad : Z * bytes) : bytes :=
  u8 (Z.of_nat (length ad.2) + 1) :: ad.1 :: ad.2.
Definition ad_fits (ad : Z * bytes) : Prop := (length ad.2 < 255)%nat.

(** What ends the parsing: no room for a structure, a zero length, or a
    structure that claims more bytes than there are. *)
Definition ad_end (tail : bytes) : Prop :=
  match tail with
  | len :: _ :: rest => len = 0 \/ Z.of_nat (S (length rest)) < len
  | _ => True
  end.

(** The call a structure in a non-connectable advertisement leads to. *)
Definition mesh_ad (ad : Z * bytes) : list scan_event :=
  if ad.1 =? BT_MESH_DATA_MESH_MESSAGE then [ScanNet ad.2]
  else if ad.1 =? BT_MESH_DATA_MESH_PROV then [ScanProv ad.2]
  else if ad.1 =? BT_MESH_DATA_MESH_BEACON then [ScanBeacon ad.2]
  else [].

Lemma scan_ads_end n u t tail : ad_end tail -> scan_ads n u t tail = Some [].
Proof.
  destruct n as [|n]; [done|]. destruct tail as [|len [|x rest]]; [done..|].
  cbn. intros [->|Hlt]; [done|]. case_match; [done|]. by rewrite decide_True by lia.
Qed.

Lemma scan_ads_structure n u t ad rest :
  ad_fits ad ->
  scan_ads (S n) u t (ad_structure ad ++ rest) =
  (evs ← scan_dispatch u t ad.1 ad.2; evs' ← scan_ads n u t rest; Some (evs ++ evs')).
Proof.
  destruct ad as [ty p]. unfold ad_fits. cbn -[Z.of_nat u8]. intros Hp. rewrite length_app.
  replace (u8 (Z.of_nat (length p) + 1)) with (Z.of_nat (length p) + 1)
    by (unfold u8; rewrite Z.mod_small; lia).
  destruct (Z.eqb_spec (Z.of_nat (length p) + 1) 0); [lia|].
  rewrite decide_False by lia.
  replace (Z.to_nat (Z.of_nat (length p) + 1) - 1)%nat with (length p) by lia.
  by rewrite take_app_length, drop_app_length.
Qed.

(** C37: advertising data made of any number of AD structures, followed by
    anything that is not a complete structure, hands the mesh messages,
    provisioning PDUs and beacons among the structures to their receivers, with
    their exact bytes and in their order, ignores the other structures, and
    never reads past the data. *)
Theorem scan_structures {Addr} (addr : Addr) u ads tail :
  Forall ad_fits ads -> ad_end tail ->
  bt_mesh_scan_cb u addr BT_LE_ADV_NONCONN_IND (concat (map ad_structure ads) ++ tail) =
  Some (Some addr, concat (map mesh_ad ads)).
Proof.
  intros Hads Htail. unfold bt_mesh_scan_cb. cbn [negb andb Z.eqb BT_LE_ADV_NONCONN_IND].
  enough (forall n, (length ads <= n)%nat ->
    scan_ads n u 0x03 (concat (map ad_structure ads) ++ tail) = Some (concat (map mesh_ad ads))) as ->.
  - done.
  - rewrite length_app. clear Hads. induction ads as [|ad ads IH]; cbn; [lia|].
    rewrite length_app in *. lia.
  - induction ads as [|ad ads IH]; intros n Hn; cbn [map concat app]; [by apply scan_ads_end|].
    apply Forall_cons_iff in Hads as [Had Hads].
    destruct n as [|n]; [cbn in Hn; lia|]. rewrite <- app_assoc, scan_ads_structure by done.
    rewrite (IH Hads) by (cbn in Hn; lia). unfold scan_dispatch, mesh_ad. cbn [Z.eqb BT_LE_ADV_NONCONN_IND].
    by repeat case_match.
Qed.

Theorem scan_structures_witness :
  bt_mesh_scan_cb false 7 BT_LE_ADV_NONCONN_IND [2; 0x01; 0x06; 4; 0x2a; 1; 2; 3; 2; 0x2b; 0; 0; 0] =
  Some (Some 7, [ScanNet [1; 2; 3]; ScanBeacon [0]]).
Proof.
  apply (scan_structures 7 false [(0x01, [0x06]); (0x2a, [1; 2; 3]); (0x2b, [0])] [0; 0]).
  - repeat constructor; unfold ad_fits; cbn; lia.
  - left. reflexivity.
Defined.
