(* ===== verification/AdvView.v ===== *)
(** * Who owns the advertising buffers, and what waits to be sent

    The view of the bearer of [Adv] its users reason with: the buffers they
    hold, each with one reference, and the PDUs that will be transmitted. *)

From S2P Require Import Prelude NetBuf NetPool Adv.

Section view.
Context {CB : Type}.
Implicit Types (a : adv CB) (b : adv_buf CB) (H : list nat).

(** ** Contents *)

Lemma av_buf_update f i a j :
  av_buf (av_update f i a) j = if decide (i = j) then f <$> av_buf a j else av_buf a j.
Proof.
  unfold av_buf, av_update, pool_update. cbn. destruct (decide (i = j)) as [->|].
  - rewrite list_lookup_alter_eq. by destruct (p_bufs (av_pool a) !! j).
  - by rewrite list_lookup_alter_ne.
Qed.

Lemma av_buf_unref i a j : av_buf (av_unref i a) j = av_buf a j.
Proof.
  unfold av_buf, av_unref, net_buf_unref. cbn.
  destruct (p_bufs (av_pool a) !! i) as [b|] eqn:Hi; [|done].
  assert (Hl : (i < length (p_bufs (av_pool a)))%nat) by (by eapply lookup_lt_Some).
  destruct (0 <? u8 (nb_ref b - 1)); cbn; (destruct (decide (i = j)) as [<-|];
    [by rewrite list_lookup_insert_eq, Hi|by rewrite list_lookup_insert_ne]).
Qed.

Lemma av_buf_send i cb a j :
  av_buf (bt_mesh_adv_send i cb a) j =
  if decide (i = j) then (fun b => (b <| ab_cb := cb |>) <| ab_busy := true |>) <$> av_buf a j
  else av_buf a j.
Proof.
  rewrite <- av_buf_update. unfold bt_mesh_adv_send, net_buf_ref, av_buf. cbn.
  destruct (decide (i = j)) as [->|]; [|by rewrite list_lookup_alter_ne].
  rewrite list_lookup_alter_eq. by destruct (alter _ j (p_bufs (av_pool a)) !! j).
Qed.

Lemma av_buf_refs a i : is_Some (av_buf a i) <-> (i < length (av_refs a))%nat.
Proof.
  unfold av_buf, av_refs, refs. rewrite length_map, fmap_is_Some. apply lookup_lt_is_Some.
Qed.

Lemma length_unref i a : length (av_refs (av_unref i a)) = length (av_refs a).
Proof.
  unfold av_refs, av_unref, net_buf_unref, refs. cbn.
  destruct (p_bufs (av_pool a) !! i) as [b|]; [|done].
  destruct (0 <? u8 (nb_ref b - 1)); cbn; by rewrite !length_map, length_insert.
Qed.

(** A new buffer is reset; the others keep their contents. *)
Lemma create_bufs type xc xi a i a' :
  bt_mesh_adv_create_from_pool type xc xi a = Some (i, a') ->
  (exists b, av_buf a i = Some b -> av_buf a' i =
     Some (mk_adv_buf [] None (Z.land type 3) false (Z.land xc 7) (u16 xi) 0 (ab_seq_auth b))) /\
  (forall b, av_buf a' i = Some b -> ab_data b = [] /\ ab_type b = Z.land type 3) /\
  forall j, j <> i -> av_buf a' j = av_buf a j.
Proof.
  unfold bt_mesh_adv_create_from_pool.
  destruct (net_buf_alloc adv_reset (av_pool a)) as [[k p]|] eqn:E; [|done]. intros [= <- <-].
  assert (Hp : forall j, nb_val <$> p_bufs p !! j =
    if decide (k = j) then adv_reset <$> av_buf a j else av_buf a j).
  { assert (Htake : forall q, p_bufs q = p_bufs (av_pool a) ->
      forall j, nb_val <$> p_bufs (take_buf adv_reset k q) !! j =
      if decide (k = j) then adv_reset <$> av_buf a j else av_buf a j).
    { intros q Hq j. unfold take_buf, av_buf. cbn. rewrite Hq. destruct (decide (k = j)) as [->|].
      - rewrite list_lookup_alter_eq. by destruct (p_bufs (av_pool a) !! j).
      - by rewrite list_lookup_alter_ne. }
    unfold net_buf_alloc in E. revert E.
    repeat case_match; try done; intros [= <- <-]; by apply Htake. }
  assert (Hb : forall j, av_buf (av_update (fun b => mk_adv_buf (ab_data b) None (Z.land type 3) false
      (Z.land xc 7) (u16 xi) 0 (ab_seq_auth b)) k (a <| av_pool := p |>)) j =
    if decide (k = j) then (fun b => mk_adv_buf [] None (Z.land type 3) false (Z.land xc 7) (u16 xi) 0
      (ab_seq_auth b)) <$> av_buf a j else av_buf a j).
  { intros j. rewrite av_buf_update. unfold av_buf at 1 2. cbn. rewrite !Hp.
    destruct (decide (k = j)); [|done]. by destruct (av_buf a j). }
  split_and!.
  - rewrite Hb, decide_True by done. destruct (av_buf a k) as [b|]; [by exists b|].
    by exists (mk_adv_buf [] None 0 false 0 0 0 0).
  - intros b. rewrite Hb, decide_True by done. destruct (av_buf a k); [|done]. by intros [= <-].
  - intros j Hj. by rewrite Hb, decide_False.
Qed.

(** ** Ownership *)

(** [H] are the buffers the users of the bearer hold. A held buffer that is
    still queued has not been cancelled. *)
Record bearer H a : Prop := {
  br_pool : pool_wf (av_pool a);
  br_held : NoDup H;
  br_queue : NoDup (av_queue a);
  br_in i : i ∈ H ++ av_queue a -> (i < length (av_refs a))%nat;
  br_refs i : (i < length (av_refs a))%nat ->
    av_refs a !! i = Some (Z.b2z (bool_decide (i ∈ H)) + Z.b2z (bool_decide (i ∈ av_queue a)));
  br_type i b : i ∈ H ++ av_queue a -> av_buf a i = Some b -> 0 <= ab_type b <= 2;
  br_busy i b : i ∈ H -> i ∈ av_queue a -> av_buf a i = Some b -> ab_busy b = true
}.

#[global] Instance bearer_proper : Proper ((≡ₚ) ==> (=) ==> iff) bearer.
Proof.
  assert (Himp : forall H H' a, H ≡ₚ H' -> bearer H a -> bearer H' a).
  { intros H H' a HP [Hp Hh Hq Hi Hr Ht Hb].
    assert (Hin : forall i, i ∈ H' <-> i ∈ H) by (intros i; by rewrite HP).
    split; try done; [by rewrite <- HP| | | |]; intros i.
    - rewrite elem_of_app, Hin, <- elem_of_app. apply Hi.
    - intros Hl. rewrite (Hr i Hl), (bool_decide_ext _ _ (Hin i)). done.
    - intros b. rewrite elem_of_app, Hin, <- elem_of_app. apply Ht.
    - intros b Hi'. apply Hb. by apply Hin. }
  intros H H' HP a ? <-. split; apply Himp; [done|by symmetry].
Qed.

Lemma bearer_buf H a i : bearer H a -> i ∈ H ++ av_queue a -> exists b, av_buf a i = Some b.
Proof. intros Hb Hi. apply av_buf_refs. by eapply br_in. Qed.

Lemma bearer_init n b : bearer [] (mk_adv (pool_init n b) []).
Proof.
  assert (HR : av_refs (mk_adv (pool_init n b) []) = replicate n 0) by apply fmap_replicate.
  split; rewrite ?HR; [apply pool_init_wf|constructor|constructor|by intros ? ?%elem_of_nil| |
    by intros ?? ?%elem_of_nil|by intros ?? ?%elem_of_nil].
  intros i. rewrite length_replicate. intros Hi. by rewrite lookup_replicate_2.
Qed.

(** An update that keeps the type, and does not cancel. *)
Lemma bearer_update H f i a :
  bearer H a -> (forall b, ab_type (f b) = ab_type b) ->
  (i ∈ H -> i ∈ av_queue a -> forall b, ab_busy b = true -> ab_busy (f b) = true) ->
  bearer H (av_update f i a).
Proof.
  intros [Hp Hh Hq Hi Hr Ht Hb] Hft Hfb.
  split; try rewrite av_refs_update; try done; [by apply pool_update_wf| |]; intros j b; rewrite av_buf_update;
    cbn [av_update update_field av_queue]; destruct (decide (i = j)) as [<-|]; eauto.
  - intros Hj. destruct (av_buf a i) eqn:E; [|done]. intros [= <-]. rewrite Hft. by eapply Ht.
  - intros Hj Hj'. destruct (av_buf a i) eqn:E; [|done]. intros [= <-]. apply Hfb; try done. by eapply Hb.
Qed.

Lemma bearer_unref H i a :
  bearer (i :: H) a -> bearer H (av_unref i a).
Proof.
  intros [Hp Hh Hq Hi Hr Ht Hb]. apply list.NoDup_cons in Hh as [HiH Hh].
  assert (Hlt : (i < length (av_refs a))%nat) by (apply Hi; by left).
  pose proof (Hr i Hlt) as Hri. rewrite bool_decide_true in Hri by left.
  destruct (unref_spec i a _ Hp Hri) as [Hr' Hp']; [by destruct (bool_decide _)|].
  split; try done; rewrite ?Hr', ?length_insert; cbn [av_unref update_field av_queue].
  - intros j [Hj|Hj]%elem_of_app; apply Hi, elem_of_app; [left; by right|by right].
  - intros j Hj. destruct (decide (i = j)) as [<-|].
    + rewrite list_lookup_insert_eq by done. rewrite (bool_decide_false _ HiH). f_equal. cbn. lia.
    + rewrite list_lookup_insert_ne, Hr by done. do 3 f_equal. apply bool_decide_ext. set_solver.
  - intros j b Hj. rewrite av_buf_unref. apply Ht. by right.
  - intros j b Hj Hj'. rewrite av_buf_unref. apply Hb; [by right|done].
Qed.

(** Cancelling a transmission gives up the buffer. *)
Lemma bearer_cancel H i a :
  bearer (i :: H) a -> bearer H (av_unref i (av_update (fun b => b <| ab_busy := false |>) i a)).
Proof.
  intros Hb. pose proof (bearer_unref H i a Hb) as [Hp Hh Hq Hi Hr Ht Hbu].
  destruct Hb as [Hp0 Hh0 Hq0 Hi0 Hr0 Ht0 Hb0]. apply list.NoDup_cons in Hh0 as [HiH _].
  assert (Hrefs : av_refs (av_unref i (av_update (fun b => b <| ab_busy := false |>) i a)) =
    av_refs (av_unref i a)).
  { assert (Hlt : (i < length (av_refs a))%nat) by (apply Hi0; by left).
    pose proof (Hr0 i Hlt) as Hri. rewrite bool_decide_true in Hri by left.
    destruct (unref_spec i a _ Hp0 Hri) as [-> _]; [by destruct (bool_decide _)|].
    destruct (unref_spec i (av_update (fun b => b <| ab_busy := false |>) i a) _
      (pool_update_wf _ i _ Hp0) ltac:(rewrite av_refs_update; exact Hri)) as [-> _];
      [by destruct (bool_decide _)|]. by rewrite av_refs_update. }
  split; rewrite ?Hrefs; try done.
  - pose proof (Hr0 i ltac:(apply Hi0; by left)) as Hri. rewrite bool_decide_true in Hri by left.
    apply (unref_spec i (av_update (fun b => b <| ab_busy := false |>) i a)
      _ (pool_update_wf _ i _ Hp0) ltac:(rewrite av_refs_update; exact Hri)). by destruct (bool_decide _).
  - intros j b Hj. rewrite av_buf_unref, av_buf_update. cbn in Hj.
    destruct (decide (i = j)) as [<-|]; [|by apply Ht0; right].
    destruct (av_buf a i) eqn:E; [|done]. intros [= <-]. cbn. eapply Ht0; [by right|done].
  - intros j b Hj Hj'. rewrite av_buf_unref, av_buf_update, decide_False by (intros ->; done).
    apply Hb0; [by right|done].
Qed.

Lemma bearer_create H type xc xi a :
  bearer H a -> Z.land type 3 <= 2 ->
  match bt_mesh_adv_create_from_pool type xc xi a with
  | Some (i, a') =>
      (i ∉ H ++ av_queue a) /\ bearer (i :: H) a' /\ av_queue a' = av_queue a /\
      length (av_refs a') = length (av_refs a) /\
      (forall b, av_buf a' i = Some b -> ab_data b = [] /\ ab_type b = Z.land type 3) /\
      (forall j, j <> i -> av_buf a' j = av_buf a j)
  | None => (length (av_refs a) <= length (H ++ av_queue a))%nat
  end.
Proof.
  intros [Hp Hh Hq Hi Hr Ht Hb] Hty. pose proof (create_spec type xc xi a Hp) as Hc.
  destruct (bt_mesh_adv_create_from_pool type xc xi a) as [[i a']|] eqn:E.
  - destruct Hc as (H0 & Hr' & Hp' & Hq'). destruct (create_bufs _ _ _ _ _ _ E) as (_ & Hnew & Hold).
    assert (Hlt : (i < length (av_refs a))%nat) by (by eapply lookup_lt_Some).
    assert (Hni : i ∉ H ++ av_queue a).
    { rewrite (Hr i Hlt) in H0. injection H0 as H0. rewrite elem_of_app. intros [Hin|Hin].
      - rewrite (bool_decide_true _ Hin) in H0. destruct (bool_decide (i ∈ av_queue a)); done.
      - rewrite (bool_decide_true (i ∈ av_queue a) Hin) in H0. destruct (bool_decide (i ∈ H)); done. }
    assert (HnH : i ∉ H) by set_solver. assert (HnQ : i ∉ av_queue a) by set_solver.
    split_and!; try done; [|by rewrite Hr', length_insert].
    split; rewrite ?Hr', ?Hq', ?length_insert; try done.
    + by constructor.
    + intros j. cbn [app]. intros [->|Hj]%elem_of_cons; [done|by apply Hi].
    + intros j Hj. destruct (decide (i = j)) as [<-|].
      * rewrite list_lookup_insert_eq by done. rewrite bool_decide_true by left.
        by rewrite bool_decide_false by done.
      * rewrite list_lookup_insert_ne, Hr by done. do 3 f_equal. apply bool_decide_ext. set_solver.
    + intros j b. cbn [app]. intros Hj Hbj. destruct (decide (j = i)) as [->|Hji].
      * destruct (Hnew b Hbj) as [_ ->]. split; [|done]. apply Z.land_nonneg. by right.
      * rewrite Hold in Hbj by done. apply elem_of_cons in Hj as [->|Hj]; [done|]. by eapply Ht.
    + intros j b Hj Hj'. rewrite Hold by (intros ->; done). apply Hb; [set_solver|done].
  - rewrite <- (length_seq (length (av_refs a)) 0). apply submseteq_length, NoDup_submseteq; [apply NoDup_seq|].
    intros j [_ Hj]%elem_of_seq. cbn in Hj. pose proof (Hr j Hj) as Hrj.
    apply (proj1 (Forall_lookup _ _) Hc) in Hrj. apply elem_of_app.
    destruct (bool_decide (j ∈ H)) eqn:E1; [apply bool_decide_eq_true in E1; by left|].
    destruct (bool_decide (j ∈ av_queue a)) eqn:E2; [apply bool_decide_eq_true in E2; by right|]. cbn in Hrj. lia.
Qed.

(** Sending a held buffer that is not queued. *)
Lemma bearer_send H i cb a :
  bearer H a -> i ∈ H -> (i ∉ av_queue a) ->
  bearer H (bt_mesh_adv_send i cb a) /\ av_queue (bt_mesh_adv_send i cb a) = av_queue a ++ [i] /\
  length (av_refs (bt_mesh_adv_send i cb a)) = length (av_refs a).
Proof.
  intros [Hp Hh Hq Hi Hr Ht Hb] HiH HiQ.
  assert (Hlt : (i < length (av_refs a))%nat) by (apply Hi, elem_of_app; by left).
  pose proof (Hr i Hlt) as Hri. rewrite (bool_decide_true _ HiH), (bool_decide_false _ HiQ) in Hri.
  destruct (send_spec i cb a _ Hp Hri ltac:(cbn; lia)) as (Hr' & Hp' & Hq').
  split; [|by rewrite Hr', length_insert].
  split; rewrite ?Hr', ?Hq', ?length_insert; try done.
  - apply list.NoDup_app. split_and!; [done|set_solver|apply NoDup_singleton].
  - intros j Hj. assert (Hj' : j ∈ H ++ av_queue a \/ j = i) by set_solver.
    destruct Hj' as [Hj'| ->]; [by apply Hi|done].
  - intros j Hj. destruct (decide (i = j)) as [<-|].
    + rewrite list_lookup_insert_eq, (bool_decide_true _ HiH), bool_decide_true by (done || set_solver). done.
    + rewrite list_lookup_insert_ne, Hr by done. do 3 f_equal. apply bool_decide_ext. set_solver.
  - intros j b Hj. rewrite av_buf_send. destruct (decide (i = j)) as [<-|].
    + destruct (av_buf a i) as [b0|] eqn:E; [|done]. intros [= <-]. cbn.
      eapply Ht; [apply elem_of_app; by left|done].
    + apply Ht. set_solver.
  - intros j b HjH Hj. rewrite av_buf_send. destruct (decide (i = j)) as [<-|].
    + destruct (av_buf a i) as [b0|] eqn:E; [|done]. by intros [= <-].
    + apply Hb; [done|set_solver].
Qed.

(** Taking the head of the queue, as the thread does. *)
Lemma bearer_pop H a i q :
  bearer H a -> av_queue a = i :: q ->
  bearer H (av_unref i (av_update (fun b => b <| ab_busy := false |>) i (a <| av_queue := q |>))).
Proof.
  intros [Hp Hh Hq Hi Hr Ht Hb] Eq. rewrite Eq in Hq, Hi, Hr, Ht, Hb.
  apply list.NoDup_cons in Hq as [HiQ Hq].
  set (a1 := av_update _ i (a <| av_queue := q |>)).
  assert (Hr1 : av_refs a1 = av_refs a) by (subst a1; by rewrite av_refs_update).
  assert (Hp1 : pool_wf (av_pool a1)) by (by apply pool_update_wf).
  assert (Hlt : (i < length (av_refs a))%nat) by (apply Hi; set_solver).
  pose proof (Hr i Hlt) as Hri. rewrite (bool_decide_true (i ∈ i :: q)) in Hri by left.
  destruct (unref_spec i a1 _ Hp1 ltac:(rewrite Hr1; exact Hri)) as [Hr' Hp']; [by destruct (bool_decide _)|].
  rewrite Hr1 in Hr'.
  split; rewrite ?Hr', ?length_insert; cbn [av_unref update_field av_queue av_update a1]; try done.
  - intros j Hj. apply Hi. set_solver.
  - intros j Hj. destruct (decide (i = j)) as [<-|].
    + rewrite list_lookup_insert_eq by done. rewrite (bool_decide_false _ HiQ). f_equal. cbn. lia.
    + rewrite list_lookup_insert_ne, Hr by done. do 3 f_equal. apply bool_decide_ext. set_solver.
  - intros j b Hj. rewrite av_buf_unref. subst a1. rewrite av_buf_update.
    assert (Hj' : j ∈ H ++ i :: q) by set_solver. destruct (decide (i = j)) as [<-|].
    + change (av_buf (a <| av_queue := q |>) i) with (av_buf a i).
      destruct (av_buf a i) as [b0|] eqn:E; [|done]. intros [= <-]. by apply (Ht i b0 Hj' E).
    + by apply Ht.
  - intros j b HjH Hj. rewrite av_buf_unref. subst a1. rewrite av_buf_update, decide_False by (intros ->; done).
    apply Hb; [done|by right].
Qed.

(** A turn of the thread pops the head of the queue, if there is one. *)
Lemma turn_spec H mi err a :
  bearer H a ->
  exists effs cb a', adv_thread_turn mi err a = Some (effs, cb, a') /\ bearer H a' /\
    av_queue a' = tail (av_queue a) /\ length (av_refs a') = length (av_refs a).
Proof.
  intros Hb. unfold adv_thread_turn. destruct (av_queue a) as [|i q] eqn:Eq; [by exists [], None, a|].
  destruct (bearer_buf H a i Hb) as [b Hbi]; [apply elem_of_app; right; rewrite Eq; by left|].
  rewrite Hbi. cbn [mbind option_bind]. pose proof (bearer_pop H a i q Hb Eq) as Hpop.
  assert (Hlen : forall f, length (av_refs (av_unref i (av_update f i (a <| av_queue := q |>)))) = length (av_refs a))
    by (intros; by rewrite length_unref, av_refs_update).
  destruct (ab_busy b) eqn:Eb.
  - assert (Hty : 0 <= ab_type b <= 2) by (apply (br_type H a Hb i b); [apply elem_of_app; right; rewrite Eq; by left|done]).
    unfold adv_send. destruct (adv_type (ab_type b)) as [t|] eqn:Et.
    + cbn [mbind option_bind]. eexists _, _, _. split; [reflexivity|]. split; [done|]. split; [done|apply Hlen].
    + exfalso. assert (Hc : ab_type b = 0 \/ ab_type b = 1 \/ ab_type b = 2) by lia.
      destruct Hc as [E|[E|E]]; by rewrite E in Et.
  - exists [], None, (av_unref i (a <| av_queue := q |>)). split; [done|].
    assert (Hid : av_update (fun b => b <| ab_busy := false |>) i (a <| av_queue := q |>) = a <| av_queue := q |>).
    { destruct a as [[bufs u f] qq]. unfold av_buf in Hbi. cbn in Hbi.
      enough (Halt : alter (fun p => mk_pbuf (nb_ref p) ((nb_val p) <| ab_busy := false |>)) i bufs = bufs).
      { exact (f_equal (fun l => mk_adv (mk_pool l u f) q) Halt). }
      apply list_eq. intros j. destruct (decide (i = j)) as [<-|]; [|by rewrite list_lookup_alter_ne].
      rewrite list_lookup_alter_eq. destruct (bufs !! i) as [[r v]|]; [|done].
      cbn in *. injection Hbi as ->. by destruct b; cbn in *; subst. }
    rewrite Hid in Hpop. split; [done|]. split; [done|]. by rewrite length_unref.
Qed.

(** ** What waits to be sent *)

Definition waiting_pdu a i : option bytes :=
  b ← av_buf a i; if ab_busy b then Some (ab_data b) else None.
(** The PDUs the thread will transmit, in order. *)
Definition pending a : list bytes := omap (waiting_pdu a) (av_queue a).

Lemma waiting_same a a' (q : list nat) :
  (forall i, i ∈ q -> av_buf a' i = av_buf a i) -> omap (waiting_pdu a') q = omap (waiting_pdu a) q.
Proof.
  induction q as [|i q IH]; intros Hb; [done|]. cbn. rewrite IH by (intros; apply Hb; by right).
  unfold waiting_pdu. by rewrite Hb by left.
Qed.
Lemma pending_same a a' :
  av_queue a' = av_queue a -> (forall i, i ∈ av_queue a -> av_buf a' i = av_buf a i) ->
  pending a' = pending a.
Proof. intros Hq Hb. unfold pending. rewrite Hq. by apply waiting_same. Qed.

Lemma pending_send a i cb b :
  (i ∉ av_queue a) -> av_buf a i = Some b ->
  pending (bt_mesh_adv_send i cb a) = pending a ++ [ab_data b].
Proof.
  intros Hi Hb. unfold pending. replace (av_queue (bt_mesh_adv_send i cb a)) with (av_queue a ++ [i]) by done.
  rewrite omap_app. f_equal.
  - apply waiting_same. intros j Hj. rewrite av_buf_send, decide_False; [done|]. by intros ->.
  - cbn. unfold waiting_pdu. by rewrite av_buf_send, decide_True, Hb by done.
Qed.
End view.
