(* ===== verification/MeshCrypto.v ===== *)
(** * The mesh security toolbox (bt_mesh/src/crypto.c, bt_mesh/inc/mesh_crypto.h)

    Key derivation, nonces, network and application PDU encryption,
    obfuscation, the provisioning helpers, the beacon authentication value and
    the frame check sequence of the PB-ADV bearer. *)

From Stdlib Require Import String Ascii.
From S2P Require Import Prelude NetBuf Aes Cmac Ccm.

(** A C string constant, without its terminator. *)
Definition c_str (s : string) : bytes :=
  map (fun c => Z.of_N (N_of_ascii c)) (list_ascii_of_string s).
Local Open Scope string_scope.
Local Open Scope list_scope.
Local Open Scope Z_scope.

(** ** Key derivation *)

(** [bt_mesh_s1] returns a [bool]: any error becomes [true], that is [1]. *)
Definition bt_mesh_s1 (m : bytes) : res bytes :=
  match bt_mesh_aes_cmac_one zero_block m with
  | Err _ => Err 1
  | r => r
  end.

Definition bt_mesh_k1 (ikm salt info : bytes) : res bytes :=
  okm ← bt_mesh_aes_cmac_one salt ikm;
  bt_mesh_aes_cmac_one okm info.

(** NID, encryption key, privacy key. *)
Definition bt_mesh_k2 (n p : bytes) : res (Z * bytes * bytes) :=
  salt ← bt_mesh_s1 (c_str "smk2");
  t ← bt_mesh_aes_cmac_one salt n;
  out1 ← bt_mesh_aes_cmac t [[]; p; [0x01]];
  let net_id := Z.land (byte_at out1 15) 0x7f in
  out2 ← bt_mesh_aes_cmac t [out1; p; [0x02]];
  out3 ← bt_mesh_aes_cmac t [out2; p; [0x03]];
  Ok (net_id, out2, out3).

Definition bt_mesh_k3 (n : bytes) : res bytes :=
  tmp ← bt_mesh_s1 (c_str "smk3");
  t ← bt_mesh_aes_cmac_one tmp n;
  tmp ← bt_mesh_aes_cmac_one t (c_str "id64" ++ [0x01]);
  Ok (take 8 (drop 8 tmp)).

Definition bt_mesh_k4 (n : bytes) : res Z :=
  tmp ← bt_mesh_s1 (c_str "smk4");
  t ← bt_mesh_aes_cmac_one tmp n;
  tmp ← bt_mesh_aes_cmac_one t (c_str "id6" ++ [0x01]);
  Ok (Z.land (byte_at tmp 15) 0x3f).

Definition bt_mesh_id128 (n s : bytes) : res bytes :=
  salt ← bt_mesh_s1 s;
  bt_mesh_k1 n salt (c_str "id128" ++ [0x01]).

Definition bt_mesh_identity_key (net_key : bytes) := bt_mesh_id128 net_key (c_str "nkik").
Definition bt_mesh_beacon_key (net_key : bytes) := bt_mesh_id128 net_key (c_str "nkbk").
Definition bt_mesh_app_id (app_key : bytes) : res Z := bt_mesh_k4 app_key.

Definition bt_mesh_session_key (dhkey prov_salt : bytes) := bt_mesh_k1 dhkey prov_salt (c_str "prsk").
Definition bt_mesh_dev_key (dhkey prov_salt : bytes) := bt_mesh_k1 dhkey prov_salt (c_str "prdk").
Definition bt_mesh_prov_nonce (dhkey prov_salt : bytes) : res bytes :=
  tmp ← bt_mesh_k1 dhkey prov_salt (c_str "prsn");
  Ok (take 13 (drop 3 tmp)).
Definition bt_mesh_prov_salt (conf_salt prov_rand dev_rand : bytes) : res bytes :=
  bt_mesh_aes_cmac zero_block [conf_salt; prov_rand; dev_rand].
Definition bt_mesh_prov_conf_salt (conf_inputs : bytes) : res bytes :=
  bt_mesh_aes_cmac_one zero_block conf_inputs.
Definition bt_mesh_prov_conf_key (dhkey conf_salt : bytes) := bt_mesh_k1 dhkey conf_salt (c_str "prck").
Definition bt_mesh_prov_conf (conf_key rand auth : bytes) : res bytes :=
  bt_mesh_aes_cmac conf_key [rand; auth].

Definition bt_mesh_virtual_addr (virtual_label : bytes) : res Z :=
  salt ← bt_mesh_s1 (c_str "vtad");
  tmp ← bt_mesh_aes_cmac_one salt virtual_label;
  Ok (Z.lor (Z.land (sys_get_be16 (drop 14 tmp)) 0x3fff) 0x8000).

Definition bt_mesh_beacon_auth (beacon_key : bytes) (flags : Z) (net_id : bytes)
    (iv_index : Z) : res bytes :=
  let msg := u8 flags :: take 8 net_id ++ sys_put_be32 (u32 iv_index) in
  tmp ← bt_mesh_aes_cmac_one beacon_key msg;
  Ok (take 8 tmp).

(** ** Nonces *)

Definition create_net_nonce (pdu : bytes) (iv_index : Z) : bytes :=
  [0x00; byte_at pdu 1; byte_at pdu 2; byte_at pdu 3; byte_at pdu 4;
   byte_at pdu 5; byte_at pdu 6; 0; 0] ++ sys_put_be32 iv_index.

Definition create_proxy_nonce (pdu : bytes) (iv_index : Z) : bytes :=
  [0x03; 0x00; byte_at pdu 2; byte_at pdu 3; byte_at pdu 4;
   byte_at pdu 5; byte_at pdu 6; 0; 0] ++ sys_put_be32 iv_index.

Definition create_app_nonce (dev_key : bool) (aszmic src dst seq_num iv_index : Z) : bytes :=
  (if dev_key then 0x02 else 0x01)
    :: sys_put_be32 (Z.lor seq_num (u32 (Z.shiftl aszmic 31)))
    ++ sys_put_be16 src ++ sys_put_be16 dst ++ sys_put_be32 iv_index.

(** ** Encryption of network and application PDUs *)

Definition NET_MIC_LEN (pdu : bytes) : nat :=
  if Z.land (byte_at pdu 1) 0x80 =? 0 then 4%nat else 8%nat.
Definition APP_MIC_LEN (aszmic : Z) : nat := if aszmic =? 0 then 4%nat else 8%nat.

Section hal.
Context {hal : SecHal}.

(** The PDU with its bytes 1 to 6 exclusive-ored in place. *)
Definition bt_mesh_net_obfuscate (pdu : bytes) (iv_index : Z) (privacy_key : bytes)
    : res bytes :=
  privacy ← slice pdu 7 7;
  let priv_rand := replicate 5 0 ++ sys_put_be32 iv_index ++ privacy in
  tmp ← bt_mesh_aes_encrypt privacy_key priv_rand;
  Ok (take 1 pdu ++ xor_bytes (take 6 (drop 1 pdu)) (take 6 tmp) ++ drop 7 pdu).

Definition net_nonce (proxy : bool) (pdu : bytes) (iv_index : Z) : bytes :=
  if proxy then create_proxy_nonce pdu iv_index else create_net_nonce pdu iv_index.

(** [buf] holds the PDU; the MIC is appended. *)
Definition bt_mesh_net_encrypt (key buf : bytes) (iv_index : Z) (proxy : bool) : res bytes :=
  let mic_len := NET_MIC_LEN buf in
  let nonce := net_nonce proxy buf iv_index in
  out ← bt_mesh_ccm_encrypt key nonce (drop 7 buf) [] mic_len;
  Ok (take 7 buf ++ out).

(** [buf->len - mic_len] and then [- 7]: the caller guarantees the length. *)
Definition bt_mesh_net_decrypt (key buf : bytes) (iv_index : Z) (proxy : bool) : res bytes :=
  let mic_len := NET_MIC_LEN buf in
  let nonce := net_nonce proxy buf iv_index in
  if decide (length buf < mic_len + 7)%nat then Undef
  else
    out ← bt_mesh_ccm_decrypt key nonce (drop 7 buf) (length buf - mic_len - 7) [] mic_len;
    Ok (take 7 buf ++ out).

(** [ad] is the label UUID of a virtual destination, [None] for [NULL]. *)
Definition app_aad (ad : option bytes) : bytes :=
  match ad with Some l => take 16 l | None => [] end.

Definition bt_mesh_app_encrypt (key : bytes) (dev_key : bool) (aszmic : Z) (buf : bytes)
    (ad : option bytes) (src dst seq_num iv_index : Z) : res bytes :=
  let nonce := create_app_nonce dev_key aszmic src dst seq_num iv_index in
  bt_mesh_ccm_encrypt key nonce buf (app_aad ad) (APP_MIC_LEN aszmic).

(** [buf->len] is the length without the MIC, which follows it in memory;
    [enc] is both. *)
Definition bt_mesh_app_decrypt (key : bytes) (dev_key : bool) (aszmic : Z) (enc : bytes)
    (len : nat) (ad : option bytes) (src dst seq_num iv_index : Z) : res bytes :=
  let nonce := create_app_nonce dev_key aszmic src dst seq_num iv_index in
  bt_mesh_ccm_decrypt key nonce enc len (app_aad ad) (APP_MIC_LEN aszmic).

Definition bt_mesh_prov_encrypt (key nonce data : bytes) : res bytes :=
  bt_mesh_ccm_encrypt key nonce (take 25 data) [] 8.
Definition bt_mesh_prov_decrypt (key nonce data : bytes) : res bytes :=
  bt_mesh_ccm_decrypt key nonce data 25 [] 8.
End hal.

(** ** Frame check sequence *)

Definition crc_table : list Z :=
  [0x00; 0x91; 0xe3; 0x72; 0x07; 0x96; 0xe4; 0x75; 0x0e; 0x9f; 0xed; 0x7c;
   0x09; 0x98; 0xea; 0x7b; 0x1c; 0x8d; 0xff; 0x6e; 0x1b; 0x8a; 0xf8; 0x69;
   0x12; 0x83; 0xf1; 0x60; 0x15; 0x84; 0xf6; 0x67; 0x38; 0xa9; 0xdb; 0x4a;
   0x3f; 0xae; 0xdc; 0x4d; 0x36; 0xa7; 0xd5; 0x44; 0x31; 0xa0; 0xd2; 0x43;
   0x24; 0xb5; 0xc7; 0x56; 0x23; 0xb2; 0xc0; 0x51; 0x2a; 0xbb; 0xc9; 0x58;
   0x2d; 0xbc; 0xce; 0x5f; 0x70; 0xe1; 0x93; 0x02; 0x77; 0xe6; 0x94; 0x05;
   0x7e; 0xef; 0x9d; 0x0c; 0x79; 0xe8; 0x9a; 0x0b; 0x6c; 0xfd; 0x8f; 0x1e;
   0x6b; 0xfa; 0x88; 0x19; 0x62; 0xf3; 0x81; 0x10; 0x65; 0xf4; 0x86; 0x17;
   0x48; 0xd9; 0xab; 0x3a; 0x4f; 0xde; 0xac; 0x3d; 0x46; 0xd7; 0xa5; 0x34;
   0x41; 0xd0; 0xa2; 0x33; 0x54; 0xc5; 0xb7; 0x26; 0x53; 0xc2; 0xb0; 0x21;
   0x5a; 0xcb; 0xb9; 0x28; 0x5d; 0xcc; 0xbe; 0x2f; 0xe0; 0x71; 0x03; 0x92;
   0xe7; 0x76; 0x04; 0x95; 0xee; 0x7f; 0x0d; 0x9c; 0xe9; 0x78; 0x0a; 0x9b;
   0xfc; 0x6d; 0x1f; 0x8e; 0xfb; 0x6a; 0x18; 0x89; 0xf2; 0x63; 0x11; 0x80;
   0xf5; 0x64; 0x16; 0x87; 0xd8; 0x49; 0x3b; 0xaa; 0xdf; 0x4e; 0x3c; 0xad;
   0xd6; 0x47; 0x35; 0xa4; 0xd1; 0x40; 0x32; 0xa3; 0xc4; 0x55; 0x27; 0xb6;
   0xc3; 0x52; 0x20; 0xb1; 0xca; 0x5b; 0x29; 0xb8; 0xcd; 0x5c; 0x2e; 0xbf;
   0x90; 0x01; 0x73; 0xe2; 0x97; 0x06; 0x74; 0xe5; 0x9e; 0x0f; 0x7d; 0xec;
   0x99; 0x08; 0x7a; 0xeb; 0x8c; 0x1d; 0x6f; 0xfe; 0x8b; 0x1a; 0x68; 0xf9;
   0x82; 0x13; 0x61; 0xf0; 0x85; 0x14; 0x66; 0xf7; 0xa8; 0x39; 0x4b; 0xda;
   0xaf; 0x3e; 0x4c; 0xdd; 0xa6; 0x37; 0x45; 0xd4; 0xa1; 0x30; 0x42; 0xd3;
   0xb4; 0x25; 0x57; 0xc6; 0xb3; 0x22; 0x50; 0xc1; 0xba; 0x2b; 0x59; 0xc8;
   0xbd; 0x2c; 0x5e; 0xcf].

Definition crc_step (fcs data : Z) : Z := nth (Z.to_nat (Z.lxor fcs data)) crc_table 0.

(** [data_len] is a [u8_t]. *)
Definition bt_mesh_fcs_calc (data : bytes) (data_len : Z) : Z :=
  0xff - foldl crc_step 0xff (take (Z.to_nat (u8 data_len)) data).

Definition bt_mesh_fcs_check (data : bytes) (received_fcs : Z) : bool :=
  crc_step (foldl crc_step 0xff data) received_fcs =? 0xcf.

(** ** The functions of the Mesh Profile, section 3.8.2 *)

Module MeshSpec.
Definition mac (k m : bytes) : bytes := Rfc4493.cmac (fun b => Fips197.Cipher b k) m.
Definition s1 (m : bytes) : bytes := mac (replicate 16 0) m.
Definition k1 (n salt p : bytes) : bytes := mac (mac salt n) p.
Definition k2 (n p : bytes) : Z * bytes * bytes :=
  let t := mac (s1 (c_str "smk2")) n in
  let t1 := mac t (p ++ [1]) in
  let t2 := mac t (t1 ++ p ++ [2]) in
  let t3 := mac t (t2 ++ p ++ [3]) in
  (Rfc4493.block_val t1 mod 2 ^ 7, t2, t3).
Definition k3 (n : bytes) : bytes :=
  let t := mac (s1 (c_str "smk3")) n in
  Rfc4493.block_of 8 (Rfc4493.block_val (mac t (c_str "id64" ++ [1])) mod 2 ^ 64).
Definition k4 (n : bytes) : Z :=
  let t := mac (s1 (c_str "smk4")) n in
  Rfc4493.block_val (mac t (c_str "id6" ++ [1])) mod 2 ^ 6.

(** The reversed CRC-8 with polynomial 0x07, bit by bit. *)
Definition crc_bit (c : Z) : Z :=
  if Z.testbit c 0 then Z.lxor (Z.shiftr c 1) 0xe0 else Z.shiftr c 1.
Definition crc_byte (c b : Z) : Z := Nat.iter 8 crc_bit (Z.lxor c b).
Definition fcs (data : bytes) : Z := Z.lxor (foldl crc_byte 0xff data) 0xff.
End MeshSpec.

(** Mesh Profile, sections 8.1.3 and 8.1.4: samples for k2 and k3. *)
Example k2_sample :
  bt_mesh_k2 [0xf7; 0xa2; 0xa4; 0x4f; 0x8e; 0x8a; 0x80; 0x29;
              0x06; 0x4f; 0x17; 0x3d; 0xdc; 0x1e; 0x2b; 0x00] [0x00] =
  Ok (0x7f, [0x9f; 0x58; 0x91; 0x81; 0xa0; 0xf5; 0x0d; 0xe7;
             0x3c; 0x80; 0x70; 0xc7; 0xa6; 0xd2; 0x7f; 0x46],
            [0x4c; 0x71; 0x5b; 0xd4; 0xa6; 0x4b; 0x93; 0x8f;
             0x99; 0xb4; 0x53; 0x35; 0x16; 0x53; 0x12; 0x4f]).
Proof. vm_compute. reflexivity. Qed.

Example k3_sample :
  bt_mesh_k3 [0xf7; 0xa2; 0xa4; 0x4f; 0x8e; 0x8a; 0x80; 0x29;
              0x06; 0x4f; 0x17; 0x3d; 0xdc; 0x1e; 0x2b; 0x00] =
  Ok [0xff; 0x04; 0x69; 0x58; 0x23; 0x3d; 0xb0; 0x14].
Proof. vm_compute. reflexivity. Qed.

(** ** Correctness of the key derivation functions *)

#[local] Opaque bt_mesh_aes_cmac Rfc4493.cmac.

Lemma mac_block k m : is_block k -> is_bytes m -> is_block (MeshSpec.mac k m).
Proof. intros. by apply cmac_block. Qed.

Lemma cmac_one_mac k m : is_block k -> is_bytes m ->
  bt_mesh_aes_cmac_one k m = Ok (MeshSpec.mac k m).
Proof.
  intros Hk Hm. unfold bt_mesh_aes_cmac_one, MeshSpec.mac.
  rewrite <- (app_nil_r m) at 2.
  apply bt_mesh_aes_cmac_sg; [done|by apply Forall_cons_2| |done].
  cbn. split; [by left|done].
Qed.

Lemma s1_spec m : is_bytes m -> bt_mesh_s1 m = Ok (MeshSpec.s1 m).
Proof.
  intros. unfold bt_mesh_s1. rewrite cmac_one_mac; [done|apply zero_block_ok|done].
Qed.

Lemma s1_block m : is_bytes m -> is_block (MeshSpec.s1 m).
Proof. intros. apply mac_block; [apply zero_block_ok|done]. Qed.

#[local] Opaque MeshSpec.mac.

(** A constant byte string. *)
Ltac const_bytes := by apply (bool_decide_unpack (is_bytes _)).

Lemma block_val_app a b :
  Rfc4493.block_val (a ++ b) =
  Rfc4493.block_val a * 256 ^ Z.of_nat (length b) + Rfc4493.block_val b.
Proof.
  rewrite !block_val_rev, rev_app_distr, le_val_app, length_rev. lia.
Qed.

(** The low-order [length b] bytes of a block. *)
Lemma block_val_low a b : is_bytes b ->
  Rfc4493.block_val (a ++ b) mod 256 ^ Z.of_nat (length b) = Rfc4493.block_val b.
Proof.
  intros Hb. rewrite block_val_app. rewrite Z.add_comm, Z.mod_add by lia.
  rewrite Z.mod_small; [done|]. rewrite block_val_rev, <- (length_rev b).
  apply le_val_bounds. by apply List.Forall_rev.
Qed.

Lemma block_last_bits b n : is_block b -> 0 <= n <= 8 ->
  Z.land (byte_at b 15) (Z.ones n) = Rfc4493.block_val b mod 2 ^ n.
Proof.
  intros [Hl Hb] Hn. rewrite Z.land_ones by lia.
  rewrite <- (take_drop 15 b) at 2.
  assert (drop 15 b = [byte_at b 15]) as ->.
  { destruct_list b. done. }
  rewrite block_val_app. cbn [length]. change (256 ^ Z.of_nat 1) with (2 ^ 8).
  replace (2 ^ 8) with (2 ^ (8 - n) * 2 ^ n) by (rewrite <- Z.pow_add_r by lia; f_equal; lia).
  rewrite Z.mul_assoc, Z.add_comm, Z.mod_add by lia. done.
Qed.

Lemma k1_spec n salt p : is_block salt -> is_bytes n -> is_bytes p ->
  bt_mesh_k1 n salt p = Ok (MeshSpec.k1 n salt p).
Proof.
  intros Hs Hn Hp. unfold bt_mesh_k1. rewrite cmac_one_mac by done. ok_simpl.
  by rewrite cmac_one_mac by (done || by apply mac_block).
Qed.

Lemma cmac_sg3 k a p c : is_block k -> is_bytes a -> is_bytes p -> is_byte c ->
  length a = 0%nat \/ length a = 16%nat -> (length p mod 16 <> 15)%nat ->
  bt_mesh_aes_cmac k [a; p; [c]] = Ok (MeshSpec.mac k (a ++ p ++ [c])).
Proof.
  intros Hk Ha Hp Hc Hla Hlp.
  apply bt_mesh_aes_cmac_sg; [done|..].
  - repeat (apply Forall_cons_2; [done|]). apply Forall_cons_2; [|by apply Forall_nil_2].
    by apply Forall_cons_2.
  - change (chunk_ok 0 (length a) /\ chunk_ok (0 + length a) (length p) /\
      chunk_ok (0 + length a + length p) 1 /\ True).
    unfold chunk_ok. rewrite !Nat.add_0_l.
    assert ((length a + length p) mod 16 = length p mod 16)%nat as Hmod.
    { destruct Hla as [-> | ->]; [done|]. rewrite Nat.add_comm.
      apply (Nat.Div0.mod_add (length p) 1 16). }
    rewrite Hmod. split_and!; [by left|destruct Hla as [-> | ->]; by left|right; lia|done].
  - done.
Qed.

(** The three MACs of [bt_mesh_k2] after its salt. *)
Lemma k2_chain str n p : is_bytes str -> is_block n -> is_bytes p ->
  (length p mod 16 <> 15)%nat ->
  (salt ← bt_mesh_s1 str;
   t ← bt_mesh_aes_cmac_one salt n;
   out1 ← bt_mesh_aes_cmac t [[]; p; [1]];
   let net_id := Z.land (byte_at out1 15) 0x7f in
   out2 ← bt_mesh_aes_cmac t [out1; p; [2]];
   out3 ← bt_mesh_aes_cmac t [out2; p; [3]];
   Ok (net_id, out2, out3)) =
  (let t := MeshSpec.mac (MeshSpec.s1 str) n in
   let t1 := MeshSpec.mac t (p ++ [1]) in
   let t2 := MeshSpec.mac t (t1 ++ p ++ [2]) in
   let t3 := MeshSpec.mac t (t2 ++ p ++ [3]) in
   Ok (Rfc4493.block_val t1 mod 2 ^ 7, t2, t3)).
Proof.
  intros Hstr [Hnl Hn] Hp Hlp. cbv zeta. rewrite s1_spec by done. ok_simpl.
  pose proof (s1_block _ Hstr) as Hs.
  rewrite cmac_one_mac; [|exact Hs|exact Hn]. ok_simpl.
  assert (is_block (MeshSpec.mac (MeshSpec.s1 str) n)) as Ht by by apply mac_block.
  revert Ht. generalize (MeshSpec.mac (MeshSpec.s1 str) n) as t. intros t Ht.
  rewrite (cmac_sg3 t [] p 1); [|done|by apply Forall_nil_2|done|done|by left|done].
  ok_simpl. cbn [app].
  assert (is_block (MeshSpec.mac t (p ++ [1]))) as Ht1
    by (apply mac_block; [done|]; apply is_bytes_app; split; [done|const_bytes]).
  revert Ht1. generalize (MeshSpec.mac t (p ++ [1])) as t1. intros t1 Ht1.
  pose proof Ht1 as [Ht1l Ht1b].
  rewrite (cmac_sg3 t t1 p 2); [|done..|by right|done]. ok_simpl.
  assert (is_block (MeshSpec.mac t (t1 ++ p ++ [2]))) as Ht2.
  { apply mac_block; [done|]. rewrite !is_bytes_app. split_and!; [done|done|const_bytes]. }
  revert Ht2. generalize (MeshSpec.mac t (t1 ++ p ++ [2])) as t2. intros t2 [Ht2l Ht2b].
  rewrite (cmac_sg3 t t2 p 3); [|done..|by right|done]. ok_simpl.
  rewrite <- (block_last_bits t1 7 Ht1) by lia. reflexivity.
Qed.

Lemma k2_spec n p : is_block n -> is_bytes p -> (length p mod 16 <> 15)%nat ->
  bt_mesh_k2 n p = Ok (MeshSpec.k2 n p).
Proof. apply k2_chain. const_bytes. Qed.

(** The MAC chain of [bt_mesh_k3] and [bt_mesh_k4]. *)
Lemma k34_chain {A} (f g : bytes -> A) str info n :
  is_bytes str -> is_bytes info -> is_block n -> (forall t, is_block t -> f t = g t) ->
  (tmp ← bt_mesh_s1 str;
   t ← bt_mesh_aes_cmac_one tmp n;
   tmp ← bt_mesh_aes_cmac_one t info;
   Ok (f tmp)) =
  (let t := MeshSpec.mac (MeshSpec.s1 str) n in Ok (g (MeshSpec.mac t info))).
Proof.
  intros Hs Hi [Hnl Hn] Hfg. cbv zeta. rewrite s1_spec by done. ok_simpl.
  pose proof (s1_block _ Hs) as Hsb.
  rewrite (cmac_one_mac _ n); [|exact Hsb|exact Hn]. ok_simpl.
  assert (is_block (MeshSpec.mac (MeshSpec.s1 str) n)) as Ht by by apply mac_block.
  rewrite cmac_one_mac; [|exact Ht|exact Hi]. ok_simpl.
  by rewrite Hfg by by apply mac_block.
Qed.

Lemma block_low8 t : is_block t ->
  take 8 (drop 8 t) = Rfc4493.block_of 8 (Rfc4493.block_val t mod 2 ^ 64).
Proof.
  intros [Hl Hb].
  assert (length (drop 8 t) = 8%nat) as H8 by (rewrite length_drop; lia).
  rewrite take_ge by lia. rewrite <- (take_drop 8 t) at 2.
  pose proof (block_val_low (take 8 t) (drop 8 t) ltac:(auto with bytes)) as Hlow.
  rewrite H8 in Hlow. change (256 ^ Z.of_nat 8) with (2 ^ 64) in Hlow. rewrite Hlow.
  rewrite block_val_rev. replace 8%nat with (length (rev (drop 8 t))) at 2
    by by rewrite length_rev.
  rewrite block_of_rev by by apply List.Forall_rev, is_bytes_drop.
  by rewrite rev_involutive.
Qed.

Lemma k3_spec n : is_block n -> bt_mesh_k3 n = Ok (MeshSpec.k3 n).
Proof.
  intros Hn. apply (k34_chain (fun t => take 8 (drop 8 t))
    (fun t => Rfc4493.block_of 8 (Rfc4493.block_val t mod 2 ^ 64)));
    [const_bytes|const_bytes|exact Hn|apply block_low8].
Qed.

Lemma k4_spec n : is_block n -> bt_mesh_k4 n = Ok (MeshSpec.k4 n).
Proof.
  intros Hn. apply (k34_chain (fun t => Z.land (byte_at t 15) 0x3f)
    (fun t => Rfc4493.block_val t mod 2 ^ 6)); [const_bytes|const_bytes|exact Hn|].
  intros t Ht. apply (block_last_bits t 6 Ht). lia.
Qed.

(** C6: the key derivation functions are those of the Mesh Profile, section
    3.8.2, on every key and salt; [bt_mesh_k2] for every parameter whose length
    is not 15 modulo 16 (the stack uses 1 and 9). *)
Theorem key_derivation_spec n salt p info :
  is_block n -> is_block salt -> is_bytes p -> is_bytes info ->
  (length p mod 16 <> 15)%nat ->
  bt_mesh_k1 n salt info = Ok (MeshSpec.k1 n salt info) /\
  bt_mesh_k2 n p = Ok (MeshSpec.k2 n p) /\
  bt_mesh_k3 n = Ok (MeshSpec.k3 n) /\
  bt_mesh_k4 n = Ok (MeshSpec.k4 n).
Proof.
  intros Hn Hs Hp Hi Hl. split_and!; [|by apply k2_spec|by apply k3_spec|by apply k4_spec].
  apply k1_spec; [done|apply Hn|done].
Qed.

Lemma key_derivation_spec_witness :
  bt_mesh_k4 (replicate 16 3) = Ok (MeshSpec.k4 (replicate 16 3)).
Proof.
  assert (is_block (replicate 16 3)) as Hb by (split; [done|const_bytes]).
  refine (proj2 (proj2 (proj2 (key_derivation_spec (replicate 16 3) (replicate 16 3)
    [0] (c_str "prck") Hb Hb _ _ _)))).
  - const_bytes.
  - const_bytes.
  - cbn. lia.
Defined.

(** ** Network and application PDUs *)

(** A PDU as its seven header bytes and its payload: the header is what the
    nonce and the MIC length are read from. *)
Lemma byte_at_app_l (h p : bytes) i : (i < length h)%nat -> byte_at (h ++ p) i = byte_at h i.
Proof. intros. unfold byte_at. by rewrite app_nth1. Qed.

Lemma net_header_ext h p q iv proxy : length h = 7%nat ->
  net_nonce proxy (h ++ p) iv = net_nonce proxy (h ++ q) iv /\
  NET_MIC_LEN (h ++ p) = NET_MIC_LEN (h ++ q).
Proof.
  intros Hh. unfold net_nonce, create_net_nonce, create_proxy_nonce, NET_MIC_LEN.
  rewrite !byte_at_app_l by lia. done.
Qed.

Lemma NET_MIC_LEN_cases pdu : NET_MIC_LEN pdu = 4%nat \/ NET_MIC_LEN pdu = 8%nat.
Proof. unfold NET_MIC_LEN. case_match; auto. Qed.
Lemma APP_MIC_LEN_cases a : APP_MIC_LEN a = 4%nat \/ APP_MIC_LEN a = 8%nat.
Proof. unfold APP_MIC_LEN. case_match; auto. Qed.

Lemma sys_put_be16_is_bytes v : is_bytes (sys_put_be16 v).
Proof. repeat constructor; apply u8_byte. Qed.
Lemma sys_put_be32_is_bytes v : is_bytes (sys_put_be32 v) /\ length (sys_put_be32 v) = 4%nat.
Proof. split; [apply sys_put_be32_bytes|done]. Qed.

Lemma net_nonce_ok proxy pdu iv : is_bytes pdu -> is_nonce (net_nonce proxy pdu iv).
Proof.
  intros Hp. pose proof (fun i => byte_at_is_byte pdu i Hp) as Hb.
  assert (is_byte 0 /\ is_byte 3) as [H0 H3] by (unfold is_byte; lia).
  destruct (sys_put_be32_is_bytes iv) as [Hv Hvl].
  unfold net_nonce, create_net_nonce, create_proxy_nonce, is_nonce.
  destruct proxy; (split; [by rewrite length_app, Hvl|]); apply is_bytes_app; (split; [|done]);
    repeat (apply Forall_cons_2; [done || apply Hb|]); by apply Forall_nil_2.
Qed.

Lemma app_nonce_ok dev aszmic src dst seq iv :
  is_nonce (create_app_nonce dev aszmic src dst seq iv).
Proof.
  unfold create_app_nonce. split; [done|]. apply Forall_cons_2.
  - destruct dev; unfold is_byte; lia.
  - rewrite !is_bytes_app. split_and!; apply sys_put_be32_bytes || apply sys_put_be16_is_bytes.
Qed.

Section roundtrip.
Context {hal : SecHal} {halok : SecHalOk hal}.

Lemma net_crypt_ok key pdu iv proxy :
  is_block key -> is_bytes pdu -> (7 < length pdu)%nat ->
  Z.of_nat (length pdu) < 65536 ->
  exists enc, bt_mesh_net_encrypt key pdu iv proxy = Ok enc /\
    length enc = (length pdu + NET_MIC_LEN pdu)%nat /\ is_bytes enc /\
    take 7 enc = take 7 pdu /\
    bt_mesh_net_decrypt key enc iv proxy = Ok pdu.
Proof.
  intros Hk Hp Hl Hl'.
  assert (exists h p, pdu = h ++ p /\ length h = 7%nat) as (h & p & -> & Hh).
  { exists (take 7 pdu), (drop 7 pdu). rewrite take_drop, length_take. split; [done|lia]. }
  pose proof Hp as [Hhb Hpb]%is_bytes_app.
  rewrite length_app in *. unfold bt_mesh_net_encrypt.
  rewrite drop_app_length', take_app_length' by done.
  destruct (ccm_roundtrip key Hk (net_nonce proxy (h ++ p) iv) p [] (NET_MIC_LEN (h ++ p)))
    as (c & t & Henc & Hcl & Htl & Hcb & Htb & Hdec).
  { split; [by apply net_nonce_ok|done|lia|split; [by apply Forall_nil_2|by left]
      |apply NET_MIC_LEN_cases]. }
  rewrite Henc. ok_simpl. exists (h ++ c ++ t). split; [done|].
  destruct (net_header_ext h p (c ++ t) iv proxy Hh) as [Hn Hm].
  split; [rewrite !length_app; lia|]. split; [by rewrite !is_bytes_app|].
  split; [by apply take_app_length'|]. unfold bt_mesh_net_decrypt.
  rewrite <- Hn, <- Hm. rewrite !length_app, decide_False by lia.
  rewrite drop_app_length', take_app_length' by done.
  replace (length h + (length c + length t) - NET_MIC_LEN (h ++ p) - 7)%nat
    with (length p) by lia.
  rewrite Hdec. done.
Qed.

(** The network layer's encryption adds a MIC of 4 bytes (access messages)
    or 8 bytes (control messages), keeps the header, and decryption with the
    same key, IV index and mode restores the PDU. *)
Theorem net_encrypt_decrypt key pdu iv proxy :
  is_block key -> is_bytes pdu -> (7 < length pdu)%nat ->
  Z.of_nat (length pdu) < 65536 ->
  exists enc, bt_mesh_net_encrypt key pdu iv proxy = Ok enc /\
    length enc = (length pdu + NET_MIC_LEN pdu)%nat /\ is_bytes enc /\
    take 7 enc = take 7 pdu /\
    bt_mesh_net_decrypt key enc iv proxy = Ok pdu.
Proof. apply net_crypt_ok. Qed.

Lemma net_obfuscate_ok privacy_key pdu iv :
  is_block privacy_key -> is_bytes pdu -> (14 <= length pdu)%nat ->
  exists obf, bt_mesh_net_obfuscate pdu iv privacy_key = Ok obf /\
    length obf = length pdu /\ is_bytes obf /\
    take 1 obf = take 1 pdu /\ drop 7 obf = drop 7 pdu /\
    bt_mesh_net_obfuscate obf iv privacy_key = Ok pdu.
Proof.
  intros Hk Hp Hl. set (a := take 1 pdu). set (m := take 6 (drop 1 pdu)).
  set (pr := take 7 (drop 7 pdu)). set (t := drop 14 pdu).
  assert (pdu = a ++ m ++ pr ++ t) as Hpdu.
  { unfold a, m, pr, t.
    do 14 (destruct pdu as [|? pdu]; [exfalso; cbn in Hl; lia|]). reflexivity. }
  assert (length a = 1 /\ length m = 6 /\ length pr = 7)%nat as (Ha & Hm & Hpr)
    by (unfold a, m, pr; rewrite !length_take, !length_drop; lia).
  clearbody a m pr t. subst pdu. rewrite !is_bytes_app in Hp. destruct Hp as (Hab & Hmb & Hpb & Htb).
  assert (forall m, length m = 6%nat ->
    bt_mesh_net_obfuscate (a ++ m ++ pr ++ t) iv privacy_key =
    Ok (a ++ xor_bytes m (take 6 (cipher privacy_key
      (replicate 5 0 ++ sys_put_be32 iv ++ pr))) ++ pr ++ t)) as Hobf.
  { intros m' Hm'. unfold bt_mesh_net_obfuscate.
    assert (drop 7 (a ++ m' ++ pr ++ t) = pr ++ t) as Hd7
      by (rewrite app_assoc; apply drop_app_length'; rewrite length_app; lia).
    assert (take 6 (drop 1 (a ++ m' ++ pr ++ t)) = m') as Hd1
      by (rewrite drop_app_length' by done; by apply take_app_length').
    rewrite slice_ok by (rewrite !length_app; lia). ok_simpl.
    rewrite Hd1, Hd7, take_app_length', take_app_length' by done.
    rewrite aes_encrypt_ok; [done|done|]. destruct (sys_put_be32_is_bytes iv) as [Hv Hvl].
    split; [by rewrite !length_app, Hvl, Hpr|].
    rewrite !is_bytes_app. split_and!; [|done|done]. by apply is_bytes_replicate. }
  set (pad := take 6 _) in Hobf.
  assert (is_block (cipher privacy_key (replicate 5 0 ++ sys_put_be32 iv ++ pr))) as Hblk.
  { destruct (sys_put_be32_is_bytes iv) as [Hv Hvl].
    apply cipher_block; [done|]. split; [by rewrite !length_app, Hvl, Hpr|].
    rewrite !is_bytes_app. split_and!; [|done|done]. by apply is_bytes_replicate. }
  destruct Hblk as [Hbl Hbb].
  assert (length pad = 6%nat) as Hpad by (unfold pad; rewrite length_take; lia).
  assert (is_bytes pad) as Hpadb by (unfold pad; auto with bytes).
  assert (length (xor_bytes m pad) = 6%nat) as Hx by (rewrite length_xor_bytes; lia).
  exists (a ++ xor_bytes m pad ++ pr ++ t). split; [by apply Hobf|].
  split; [rewrite !length_app; lia|]. split.
  { rewrite !is_bytes_app. split_and!; auto with bytes. }
  split; [by rewrite !take_app_length'|].
  split; [by rewrite !(app_assoc a), !drop_app_length' by (rewrite length_app; lia)|].
  rewrite Hobf by done. by rewrite xor_bytes_cancel by lia.
Qed.

(** Obfuscation is an involution on PDUs of at least 14 bytes, and touches
    only the bytes 1 to 6 (CTL, TTL, SEQ and SRC). *)
Theorem net_obfuscate_involutive privacy_key pdu iv :
  is_block privacy_key -> is_bytes pdu -> (14 <= length pdu)%nat ->
  exists obf, bt_mesh_net_obfuscate pdu iv privacy_key = Ok obf /\
    length obf = length pdu /\ is_bytes obf /\
    take 1 obf = take 1 pdu /\ drop 7 obf = drop 7 pdu /\
    bt_mesh_net_obfuscate obf iv privacy_key = Ok pdu.
Proof. apply net_obfuscate_ok. Qed.

Lemma app_crypt_ok key dev_key aszmic buf ad src dst seq iv :
  is_block key -> is_bytes buf -> 0 < Z.of_nat (length buf) < 65536 ->
  from_option is_block True ad ->
  exists enc, bt_mesh_app_encrypt key dev_key aszmic buf ad src dst seq iv = Ok enc /\
    length enc = (length buf + APP_MIC_LEN aszmic)%nat /\
    bt_mesh_app_decrypt key dev_key aszmic enc (length buf) ad src dst seq iv = Ok buf.
Proof.
  intros Hk Hb Hl Had. unfold bt_mesh_app_encrypt, bt_mesh_app_decrypt.
  destruct (ccm_roundtrip key Hk (create_app_nonce dev_key aszmic src dst seq iv) buf
    (app_aad ad) (APP_MIC_LEN aszmic)) as (c & t & Henc & Hcl & Htl & Hcb & Htb & Hdec).
  { split; [apply app_nonce_ok|done|done| |apply APP_MIC_LEN_cases].
    destruct ad as [l|]; [destruct Had as [Hll Hlb]|]; cbn [app_aad].
    - split; [auto with bytes|]. right. rewrite length_take. lia.
    - split; [by apply Forall_nil_2|by left]. }
  exists (c ++ t). split; [done|]. split; [rewrite length_app; lia|done].
Qed.

Lemma app_encrypt_bytes key dev_key aszmic buf ad src dst seq iv enc :
  is_block key -> is_bytes buf -> 0 < Z.of_nat (length buf) < 65536 ->
  from_option is_block True ad ->
  bt_mesh_app_encrypt key dev_key aszmic buf ad src dst seq iv = Ok enc -> is_bytes enc.
Proof.
  intros Hk Hb Hl Had. unfold bt_mesh_app_encrypt.
  destruct (ccm_roundtrip key Hk (create_app_nonce dev_key aszmic src dst seq iv) buf
    (app_aad ad) (APP_MIC_LEN aszmic)) as (c & t & -> & _ & _ & Hcb & Htb & _).
  - split; [apply app_nonce_ok|done|done| |apply APP_MIC_LEN_cases].
    destruct ad as [l|]; [destruct Had as [Hll Hlb]|]; cbn [app_aad].
    + split; [auto with bytes|]. right. rewrite length_take. lia.
    + split; [by apply Forall_nil_2|by left].
  - intros [= <-]. by apply is_bytes_app.
Qed.

(** An application payload encrypted with an application or a device key,
    with or without a label UUID as additional data, decrypts to itself. *)
Theorem app_encrypt_decrypt key dev_key aszmic buf ad src dst seq iv :
  is_block key -> is_bytes buf -> 0 < Z.of_nat (length buf) < 65536 ->
  from_option is_block True ad ->
  exists enc, bt_mesh_app_encrypt key dev_key aszmic buf ad src dst seq iv = Ok enc /\
    length enc = (length buf + APP_MIC_LEN aszmic)%nat /\
    bt_mesh_app_decrypt key dev_key aszmic enc (length buf) ad src dst seq iv = Ok buf.
Proof. apply app_crypt_ok. Qed.
End roundtrip.

Definition sample_key : bytes := replicate 16 0x2a.
Definition sample_pdu : bytes := [0x68; 0x05; 0; 0; 1; 0x12; 0x01; 0xff; 0xfd; 3; 4; 5; 6; 7; 8].

Lemma sample_key_block : is_block sample_key.
Proof. split; [done|const_bytes]. Qed.

Lemma net_encrypt_decrypt_witness :
  exists enc, bt_mesh_net_encrypt sample_key sample_pdu 0x12345678 false = Ok enc /\
    length enc = (length sample_pdu + NET_MIC_LEN sample_pdu)%nat /\ is_bytes enc /\
    take 7 enc = take 7 sample_pdu /\
    bt_mesh_net_decrypt sample_key enc 0x12345678 false = Ok sample_pdu.
Proof.
  apply net_encrypt_decrypt; [apply sample_key_block|const_bytes|cbn; lia|cbn; lia].
Defined.

Lemma net_obfuscate_involutive_witness :
  exists obf, bt_mesh_net_obfuscate sample_pdu 0x12345678 sample_key = Ok obf /\
    length obf = length sample_pdu /\ is_bytes obf /\
    take 1 obf = take 1 sample_pdu /\ drop 7 obf = drop 7 sample_pdu /\
    bt_mesh_net_obfuscate obf 0x12345678 sample_key = Ok sample_pdu.
Proof.
  apply net_obfuscate_involutive; [apply sample_key_block|const_bytes|cbn; lia].
Defined.

Lemma app_encrypt_decrypt_witness :
  exists enc,
    bt_mesh_app_encrypt sample_key true 1 sample_pdu (Some sample_key) 1 0x8001 7 0 = Ok enc /\
    length enc = (length sample_pdu + APP_MIC_LEN 1)%nat /\
    bt_mesh_app_decrypt sample_key true 1 enc (length sample_pdu) (Some sample_key)
      1 0x8001 7 0 = Ok sample_pdu.
Proof.
  apply app_encrypt_decrypt; [apply sample_key_block|const_bytes|cbn; lia|].
  apply sample_key_block.
Defined.

(** ** Nonces never coincide across layers or messages *)

Inductive nonce_input :=
| NetNonce (pdu : bytes) (iv_index : Z)
| ProxyNonce (pdu : bytes) (iv_index : Z)
| AppNonce (dev_key : bool) (aszmic src dst seq_num iv_index : Z).

Definition nonce_of (n : nonce_input) : bytes :=
  match n with
  | NetNonce pdu iv => create_net_nonce pdu iv
  | ProxyNonce pdu iv => create_proxy_nonce pdu iv
  | AppNonce dev aszmic src dst seq iv => create_app_nonce dev aszmic src dst seq iv
  end.

Definition nonce_input_ok (n : nonce_input) : Prop :=
  match n with
  | NetNonce pdu iv | ProxyNonce pdu iv =>
      (7 <= length pdu)%nat /\ 0 <= iv < 4294967296
  | AppNonce dev aszmic src dst seq iv =>
      0 <= aszmic <= 1 /\ 0 <= src < 65536 /\ 0 <= dst < 65536 /\
      0 <= seq < 16777216 /\ 0 <= iv < 4294967296
  end.

(** What a nonce identifies: the header fields of a network PDU (for the
    proxy, without CTL and TTL) and the IV index. *)
Definition same_nonce_input (a b : nonce_input) : Prop :=
  match a, b with
  | NetNonce p iv, NetNonce q iv' => take 6 (drop 1 p) = take 6 (drop 1 q) /\ iv = iv'
  | ProxyNonce p iv, ProxyNonce q iv' => take 5 (drop 2 p) = take 5 (drop 2 q) /\ iv = iv'
  | AppNonce _ _ _ _ _ _, AppNonce _ _ _ _ _ _ => a = b
  | _, _ => False
  end.

Lemma be32_inj v w l k : 0 <= v < 4294967296 -> 0 <= w < 4294967296 ->
  sys_put_be32 v ++ l = sys_put_be32 w ++ k -> v = w /\ l = k.
Proof.
  intros Hv Hw H. assert (v = w) as ->.
  { rewrite <- (sys_get_put_be32 v l Hv), H. by rewrite sys_get_put_be32. }
  split; [done|]. by apply app_inv_head in H.
Qed.

Lemma be16_inj v w l k : 0 <= v < 65536 -> 0 <= w < 65536 ->
  sys_put_be16 v ++ l = sys_put_be16 w ++ k -> v = w /\ l = k.
Proof.
  intros Hv Hw H. assert (v = w) as ->.
  { rewrite <- (sys_get_put_be16 v l Hv), H. by rewrite sys_get_put_be16. }
  split; [done|]. by apply app_inv_head in H.
Qed.

Lemma app_nonce_word seq aszmic : 0 <= seq < 16777216 -> 0 <= aszmic <= 1 ->
  Z.lor seq (u32 (Z.shiftl aszmic 31)) = aszmic * 2147483648 + seq.
Proof.
  intros Hs Ha. assert (u32 (Z.shiftl aszmic 31) = Z.shiftl aszmic 31) as ->.
  { rewrite Z.shiftl_mul_pow2 by lia. apply u32_id. lia. }
  apply (lor_add_shiftl 31); lia.
Qed.

Lemma header_fields (p : bytes) : (7 <= length p)%nat ->
  take 6 (drop 1 p) = [byte_at p 1; byte_at p 2; byte_at p 3; byte_at p 4; byte_at p 5; byte_at p 6] /\
  take 5 (drop 2 p) = [byte_at p 2; byte_at p 3; byte_at p 4; byte_at p 5; byte_at p 6].
Proof.
  intros Hl. do 7 (destruct p as [|? p]; [exfalso; cbn in Hl; lia|]). done.
Qed.

(** C10: two encryptions use the same nonce only if they are of the same layer
    and agree on the IV index, the sequence number and the source, and for an
    application nonce also on the key type, ASZMIC and destination. *)
Theorem nonce_injective a b :
  nonce_input_ok a -> nonce_input_ok b -> nonce_of a = nonce_of b -> same_nonce_input a b.
Proof.
  destruct a as [p iv|p iv|dev sz src dst seq iv], b as [q iv'|q iv'|dev' sz' src' dst' seq' iv'];
    cbn [nonce_input_ok nonce_of same_nonce_input]; intros Ha Hb Heq.
  all: unfold create_net_nonce, create_proxy_nonce, create_app_nonce in Heq;
    cbn [app] in Heq.
  all: try (injection Heq as Hd; destruct dev; discriminate Hd).
  all: try (injection Heq as Hd; destruct dev'; discriminate Hd).
  all: try discriminate Heq.
  - destruct Ha as [Hp Hiv], Hb as [Hq Hiv'].
    rewrite (proj1 (header_fields p Hp)), (proj1 (header_fields q Hq)).
    injection Heq as -> -> -> -> -> -> ?.
    split; [done|]. apply (be32_inj iv iv' [] []); [done..|]. rewrite !app_nil_r.
    unfold sys_put_be32, sys_put_be16. cbn [app]. congruence.
  - destruct Ha as [Hp Hiv], Hb as [Hq Hiv'].
    rewrite (proj2 (header_fields p Hp)), (proj2 (header_fields q Hq)).
    injection Heq as -> -> -> -> -> ?.
    split; [done|]. apply (be32_inj iv iv' [] []); [done..|]. rewrite !app_nil_r.
    unfold sys_put_be32, sys_put_be16. cbn [app]. congruence.
  - destruct Ha as (Hz & Hs & Hd & Hq & Hiv), Hb as (Hz' & Hs' & Hd' & Hq' & Hiv').
    apply (inj2 cons) in Heq as [Hdev Heq].
    rewrite !app_nonce_word in Heq by done.
    apply be32_inj in Heq as [Hw Heq]; [|lia..].
    apply be16_inj in Heq as [-> Heq]; [|lia..].
    apply be16_inj in Heq as [-> Heq]; [|lia..].
    rewrite <- (app_nil_r (sys_put_be32 iv)), <- (app_nil_r (sys_put_be32 iv')) in Heq.
    apply be32_inj in Heq as [-> _]; [|lia..].
    assert (sz = sz' /\ seq = seq') as [-> ->] by lia.
    by destruct dev, dev'.
Qed.

Lemma nonce_injective_witness :
  same_nonce_input (NetNonce sample_pdu 5) (NetNonce (sample_pdu ++ [1]) 5).
Proof.
  apply nonce_injective; [cbn; lia|cbn; lia|reflexivity].
Defined.

(** ** Frame check sequence *)

Lemma crc_table_spec c : is_byte c ->
  nth (Z.to_nat c) crc_table 0 = Nat.iter 8 MeshSpec.crc_bit c /\
  is_byte (nth (Z.to_nat c) crc_table 0) /\
  (nth (Z.to_nat c) crc_table 0 = 0xcf <-> c = 0xff) /\ Z.lxor c 0xff = 0xff - c.
Proof.
  intros Hc.
  pose proof (forall_bytes (fun c =>
    (nth (Z.to_nat c) crc_table 0 =? Nat.iter 8 MeshSpec.crc_bit c) &&
    byteb (nth (Z.to_nat c) crc_table 0) &&
    Bool.eqb (nth (Z.to_nat c) crc_table 0 =? 0xcf) (c =? 0xff) &&
    (Z.lxor c 0xff =? 0xff - c)) eq_refl c Hc) as H.
  rewrite !andb_true_iff, !Z.eqb_eq, byteb_spec, eqb_true_iff in H.
  destruct H as [[[H1 H2] H3] H4]. split_and!; [done|done| |done].
  rewrite <- !Z.eqb_eq. by rewrite H3.
Qed.

Lemma crc_step_spec c b : is_byte c -> is_byte b ->
  crc_step c b = MeshSpec.crc_byte c b /\ is_byte (crc_step c b).
Proof.
  intros Hc Hb. destruct (crc_table_spec (Z.lxor c b)) as (H1 & H2 & _); [by apply lxor_byte|].
  done.
Qed.

Lemma crc_fold_spec data c : is_bytes data -> is_byte c ->
  foldl crc_step c data = foldl MeshSpec.crc_byte c data /\ is_byte (foldl crc_step c data).
Proof.
  intros Hd. revert c. induction Hd as [|b data Hb Hd IH]; intros c Hc; [done|].
  destruct (crc_step_spec c b Hc Hb) as [Heq Hbyte]. cbn [foldl]. rewrite <- Heq.
  by apply IH.
Qed.

Lemma fcs_ok data received :
  is_bytes data -> (length data <= 255)%nat -> is_byte received ->
  bt_mesh_fcs_calc data (Z.of_nat (length data)) = MeshSpec.fcs data /\
  (bt_mesh_fcs_check data received = true <-> received = MeshSpec.fcs data).
Proof.
  intros Hd Hl Hr. unfold bt_mesh_fcs_calc, bt_mesh_fcs_check, MeshSpec.fcs.
  rewrite u8_id, Nat2Z.id, take_ge by (done || unfold is_byte; lia).
  destruct (crc_fold_spec data 0xff Hd ltac:(by cbv)) as [<- Hc].
  set (c := foldl crc_step 255 data) in *.
  destruct (crc_table_spec c Hc) as (_ & _ & _ & Hx). split; [by rewrite Hx|].
  rewrite Z.eqb_eq. unfold crc_step.
  destruct (crc_table_spec (Z.lxor c received)) as (_ & _ & -> & _); [by apply lxor_byte|].
  split.
  - intros H. rewrite <- H, <- Z.lxor_assoc, Z.lxor_nilpotent, Z.lxor_0_l. done.
  - intros ->. by rewrite <- Z.lxor_assoc, Z.lxor_nilpotent, Z.lxor_0_l.
Qed.

(** [bt_mesh_fcs_calc] is the reversed CRC-8 of polynomial 0x07 computed
    bit by bit, and [bt_mesh_fcs_check] accepts exactly that value. *)
Theorem fcs_spec data received :
  is_bytes data -> (length data <= 255)%nat -> is_byte received ->
  bt_mesh_fcs_calc data (Z.of_nat (length data)) = MeshSpec.fcs data /\
  (bt_mesh_fcs_check data received = true <-> received = MeshSpec.fcs data).
Proof. apply fcs_ok. Qed.

Lemma fcs_spec_witness :
  bt_mesh_fcs_check [1; 2; 3; 4] (MeshSpec.fcs [1; 2; 3; 4]) = true.
Proof.
  apply (fcs_spec [1; 2; 3; 4] (MeshSpec.fcs [1; 2; 3; 4]));
    [const_bytes|cbn; lia|by apply byteb_spec|reflexivity].
Defined.

(** ** Virtual addresses *)

Lemma virtual_addr_value t : is_block t ->
  Z.lor (Z.land (sys_get_be16 (drop 14 t)) 0x3fff) 0x8000 =
  0x8000 + Rfc4493.block_val t mod 2 ^ 14.
Proof.
  intros [Hl Hb]. rewrite <- (take_drop 14 t) at 2.
  assert (exists a b, drop 14 t = [a; b] /\ is_byte a /\ is_byte b) as (a & b & -> & Ha & Hbb).
  { assert (is_bytes (drop 14 t)) as Hd by auto with bytes.
    assert (length (drop 14 t) = 2%nat) as Hdl by (rewrite length_drop; lia).
    destruct (drop 14 t) as [|a [|b [|]]]; try discriminate Hdl.
    apply Forall_cons_iff in Hd as [Ha [Hc _]%Forall_cons_iff]. eauto. }
  rewrite sys_get_be16_eq by done. rewrite block_val_app.
  change (256 ^ Z.of_nat (length [a; b])) with (4 * 2 ^ 14).
  rewrite Z.mul_assoc, (Z.add_comm (_ * 2 ^ 14)), Z.mod_add by lia.
  assert (Rfc4493.block_val [a; b] = a * 256 + b) as -> by (cbn; lia).
  change 0x3fff with (Z.ones 14). rewrite Z.land_ones by lia.
  rewrite (Z.add_comm 0x8000).
  change 0x8000 with (Z.shiftl 2 14) at 1. rewrite lor_add_shiftl.
  - rewrite Z.add_comm. done.
  - lia.
  - apply Z.mod_pos_bound. lia.
Qed.

Lemma virtual_addr_chain str label : is_bytes str -> is_bytes label ->
  (salt ← bt_mesh_s1 str;
   tmp ← bt_mesh_aes_cmac_one salt label;
   Ok (Z.lor (Z.land (sys_get_be16 (drop 14 tmp)) 0x3fff) 0x8000)) =
  Ok (0x8000 + Rfc4493.block_val (MeshSpec.mac (MeshSpec.s1 str) label) mod 2 ^ 14).
Proof.
  intros Hs Hl. rewrite s1_spec by done. ok_simpl. pose proof (s1_block _ Hs) as Hsb.
  rewrite cmac_one_mac; [|exact Hsb|exact Hl]. ok_simpl.
  by rewrite virtual_addr_value by by apply mac_block.
Qed.

(** The virtual address of a label UUID is 0b10 followed by the low 14
    bits of its hash: it is in 0x8000..0xBFFF. *)
Theorem virtual_addr_spec label : is_bytes label ->
  exists a, bt_mesh_virtual_addr label = Ok a /\ 0x8000 <= a <= 0xbfff /\
    a = 0x8000 + Rfc4493.block_val
      (MeshSpec.mac (MeshSpec.s1 (c_str "vtad")) label) mod 2 ^ 14.
Proof.
  intros Hl. eexists. split; [|split].
  - unfold bt_mesh_virtual_addr.
    apply (virtual_addr_chain (c_str "vtad") label); [const_bytes|done].
  - cbv beta. match goal with |- context [?x mod ?m] => pose proof (Z.mod_pos_bound x m) end. lia.
  - done.
Qed.

Lemma virtual_addr_spec_witness :
  exists a, bt_mesh_virtual_addr sample_key = Ok a /\ 0x8000 <= a <= 0xbfff /\
    a = 0x8000 + Rfc4493.block_val
      (MeshSpec.mac (MeshSpec.s1 (c_str "vtad")) sample_key) mod 2 ^ 14.
Proof. apply virtual_addr_spec. const_bytes. Defined.
