(* ===== verification/NetState.v ===== *)
(** * State of the network layer (bt_mesh/inc/net.h, bt_mesh/inc/mesh.h)

    The build configuration, the address and key constants, the structures of
    the network layer and its single context [bt_mesh] with the static caches
    of net.c. *)

From S2P Require Import Prelude NetBuf Ccm MeshCrypto.

(** ** Build configuration: the Kconfig options the code tests. *)
Class MeshConfig := {
  CONFIG_GATT_PROXY : bool;
  CONFIG_LOW_POWER : bool;
  CONFIG_FRIEND : bool;
  CONFIG_CFG_CLI : bool;
  CONFIG_IV_UPDATE_TEST : bool
}.

(** A node with the proxy and friend features. *)
Definition proxy_friend_config : MeshConfig :=
  {| CONFIG_GATT_PROXY := true; CONFIG_LOW_POWER := false; CONFIG_FRIEND := true;
     CONFIG_CFG_CLI := false; CONFIG_IV_UPDATE_TEST := false |}.

(** Table sizes (mesh_config.h). *)
Definition MSG_CACHE_SIZE : nat := 2.
Definition SUBNET_COUNT : nat := 2.
Definition APP_KEY_COUNT : nat := 1.
Definition CRPL : nat := 5.

(** ** Constants *)

Definition BT_MESH_ADDR_UNASSIGNED : Z := 0x0000.
Definition BT_MESH_ADDR_ALL_NODES : Z := 0xffff.
Definition BT_MESH_ADDR_PROXIES : Z := 0xfffc.
Definition BT_MESH_ADDR_FRIENDS : Z := 0xfffd.
Definition BT_MESH_ADDR_RELAYS : Z := 0xfffe.
Definition BT_MESH_KEY_UNUSED : Z := 0xffff.
Definition BT_MESH_KEY_ANY : Z := 0xffff.
Definition BT_MESH_KEY_DEV : Z := 0xfffe.
Definition BT_MESH_TTL_DEFAULT : Z := 0xff.
Definition BT_MESH_TTL_MAX : Z := 0x7f.
Definition BT_MESH_RELAY_ENABLED : Z := 1.
Definition BT_MESH_GATT_PROXY_ENABLED : Z := 1.
Definition BT_MESH_NODE_IDENTITY_RUNNING : Z := 1.
Definition BT_MESH_NODE_IDENTITY_NOT_SUPPORTED : Z := 2.

Definition BT_MESH_KR_NORMAL : Z := 0.
Definition BT_MESH_KR_PHASE_1 : Z := 1.
Definition BT_MESH_KR_PHASE_2 : Z := 2.
Definition BT_MESH_KR_PHASE_3 : Z := 3.

Definition BT_MESH_NET_FLAG_KR : Z := 1.
Definition BT_MESH_NET_FLAG_IVU : Z := 2.
Definition BT_MESH_IV_UPDATE (flags : Z) : bool := Z.testbit flags 1.
Definition BT_MESH_KEY_REFRESH (flags : Z) : bool := Z.testbit flags 0.

Definition BT_MESH_ADDR_IS_UNICAST (addr : Z) : bool := negb (addr =? 0) && (addr <? 0x8000).
Definition BT_MESH_ADDR_IS_GROUP (addr : Z) : bool := (0xc000 <=? addr) && (addr <=? 0xff00).
Definition BT_MESH_ADDR_IS_VIRTUAL (addr : Z) : bool := (0x8000 <=? addr) && (addr <? 0xc000).
Definition BT_MESH_ADDR_IS_RFU (addr : Z) : bool := (0xff00 <=? addr) && (addr <=? 0xfffb).

Definition BT_MESH_NET_HDR_LEN : nat := 9.
Definition BT_MESH_NET_MIN_PDU_LEN : nat := 18.
Definition IV_UPDATE_SEQ_LIMIT : Z := 0xB0E500.
Definition K_HOURS (h : Z) : Z := h * 60 * 60 * 1000.

(** ** Structures *)

(** [struct bt_mesh_subnet_keys]. *)
Record subnet_keys := mk_subnet_keys {
  k_net : bytes;
  k_nid : Z;
  k_enc : bytes;
  k_net_id : bytes;
  k_identity : bytes;
  k_privacy : bytes;
  k_beacon : bytes
}.
#[export] Instance subnet_keys_settable : Settable subnet_keys.
Proof.
  settable (fun k => mk_subnet_keys (k_net k) (k_nid k) (k_enc k) (k_net_id k)
    (k_identity k) (k_privacy k) (k_beacon k)).
Defined.

Definition zero_keys : subnet_keys :=
  mk_subnet_keys (replicate 16 0) 0 (replicate 16 0) (replicate 8 0) (replicate 16 0)
    (replicate 16 0) (replicate 16 0).

(** [struct bt_mesh_subnet]; [keys[2]] is the pair of fields [sub_key0] (the
    current key) and [sub_key1] (the new key of a key refresh). *)
Record subnet := mk_subnet {
  sub_beacon_sent : Z;
  sub_beacons_last : Z;
  sub_beacons_cur : Z;
  sub_beacon_cache : bytes;
  sub_net_idx : Z;
  sub_kr_flag : bool;
  sub_kr_phase : Z;
  sub_node_id : Z;
  sub_node_id_start : Z;
  sub_auth : bytes;
  sub_active : bool;
  sub_key0 : subnet_keys;
  sub_key1 : subnet_keys
}.
#[export] Instance subnet_settable : Settable subnet.
Proof.
  settable (fun s => mk_subnet (sub_beacon_sent s) (sub_beacons_last s) (sub_beacons_cur s)
    (sub_beacon_cache s) (sub_net_idx s) (sub_kr_flag s) (sub_kr_phase s) (sub_node_id s)
    (sub_node_id_start s) (sub_auth s) (sub_active s) (sub_key0 s) (sub_key1 s)).
Defined.

Definition sub_keys (s : subnet) (new_key : bool) : subnet_keys :=
  if new_key then sub_key1 s else sub_key0 s.

Definition unused_subnet : subnet :=
  mk_subnet 0 0 0 (replicate 21 0) BT_MESH_KEY_UNUSED false 0 0 0 (replicate 8 0) false
    zero_keys zero_keys.

(** [struct bt_mesh_app_key]. *)
Record app_key := mk_app_key {
  app_net_idx : Z;
  app_app_idx : Z;
  app_updated : bool;
  app_active : bool;
  app_key0 : Z * bytes;
  app_key1 : Z * bytes
}.
#[export] Instance app_key_settable : Settable app_key.
Proof.
  settable (fun k => mk_app_key (app_net_idx k) (app_app_idx k) (app_updated k)
    (app_active k) (app_key0 k) (app_key1 k)).
Defined.

Definition unused_app_key : app_key :=
  mk_app_key BT_MESH_KEY_UNUSED 0 false false (0, replicate 16 0) (0, replicate 16 0).

(** [struct bt_mesh_rpl]: an entry of the replay protection list. *)
Record rpl_entry := mk_rpl { rpl_src : Z; rpl_old_iv : bool; rpl_seq : Z }.
#[export] Instance rpl_settable : Settable rpl_entry.
Proof. settable (fun r => mk_rpl (rpl_src r) (rpl_old_iv r) (rpl_seq r)). Defined.
#[export] Instance rpl_eq_dec : EqDecision rpl_entry.
Proof. solve_decision. Defined.

Definition zero_rpl : rpl_entry := mk_rpl 0 false 0.

(** [struct friend_cred]; a credential is NID, EncKey, PrivacyKey. *)
Record cred_keys := mk_cred { cr_nid : Z; cr_enc : bytes; cr_privacy : bytes }.
Record friend_cred := mk_friend_cred {
  fc_net_idx : Z;
  fc_addr : Z;
  fc_lpn_counter : Z;
  fc_frnd_counter : Z;
  fc_cred0 : cred_keys;
  fc_cred1 : cred_keys
}.
#[export] Instance friend_cred_settable : Settable friend_cred.
Proof.
  settable (fun c => mk_friend_cred (fc_net_idx c) (fc_addr c) (fc_lpn_counter c)
    (fc_frnd_counter c) (fc_cred0 c) (fc_cred1 c)).
Defined.

Definition zero_cred : cred_keys := mk_cred 0 (replicate 16 0) (replicate 16 0).
Definition fc_cred (c : friend_cred) (i : bool) : cred_keys :=
  if i then fc_cred1 c else fc_cred0 c.

(** A cache of recently seen values: an array and the next slot to overwrite. *)
Record seen_cache := mk_cache { ca_vals : list Z; ca_next : nat }.
Definition zero_cache : seen_cache := mk_cache (replicate MSG_CACHE_SIZE 0) 0.

(** [struct bt_mesh_net] and the static data of net.c. *)
Record mesh_net := mk_mesh_net {
  iv_index : Z;
  seq_num : Z;
  iv_update : bool;
  ivu_initiator : bool;
  ivu_test : bool;
  pending_update : bool;
  valid : bool;
  last_update : Z;
  local_queue : list bytes;
  dev_key : bytes;
  app_keys : list app_key;
  subs : list subnet;
  rpl : list rpl_entry;
  friend_creds : list friend_cred;
  msg_cache : seen_cache;
  dup_cache : seen_cache
}.
#[export] Instance mesh_net_settable : Settable mesh_net.
Proof.
  settable (fun m => mk_mesh_net (iv_index m) (seq_num m) (iv_update m) (ivu_initiator m)
    (ivu_test m) (pending_update m) (valid m) (last_update m) (local_queue m) (dev_key m)
    (app_keys m) (subs m) (rpl m) (friend_creds m) (msg_cache m) (dup_cache m)).
Defined.

(** The static initialiser of [bt_mesh]. *)
Definition bt_mesh_init_state (friend_cred_count : nat) : mesh_net :=
  mk_mesh_net 0 0 false false false false false 0 [] (replicate 16 0)
    (replicate APP_KEY_COUNT unused_app_key) (replicate SUBNET_COUNT unused_subnet)
    (replicate CRPL zero_rpl)
    (replicate friend_cred_count (mk_friend_cred 0 0 0 0 zero_cred zero_cred))
    zero_cache zero_cache.

(** [enum bt_mesh_net_if]. *)
Inductive net_if := IF_ADV | IF_LOCAL | IF_PROXY | IF_PROXY_CFG.
#[export] Instance net_if_eq_dec : EqDecision net_if.
Proof. solve_decision. Defined.

(** [struct bt_mesh_msg_ctx]. *)
Record msg_ctx := mk_ctx {
  ctx_net_idx : Z;
  ctx_app_idx : Z;
  ctx_addr : Z;
  ctx_recv_ttl : Z;
  ctx_send_ttl : Z;
  ctx_send_rel : bool
}.
#[export] Instance msg_ctx_settable : Settable msg_ctx.
Proof.
  settable (fun c => mk_ctx (ctx_net_idx c) (ctx_app_idx c) (ctx_addr c) (ctx_recv_ttl c)
    (ctx_send_ttl c) (ctx_send_rel c)).
Defined.

(** [struct bt_mesh_net_rx]; the subnet is its index in [bt_mesh.sub]. *)
Record net_rx := mk_rx {
  rx_sub : nat;
  rx_ctx : msg_ctx;
  rx_seq : Z;
  rx_dst : Z;
  rx_old_iv : bool;
  rx_new_key : bool;
  rx_friend_cred : bool;
  rx_ctl : bool;
  rx_net_if : net_if;
  rx_local_match : bool;
  rx_friend_match : bool;
  rx_rssi : Z
}.
#[export] Instance net_rx_settable : Settable net_rx.
Proof.
  settable (fun r => mk_rx (rx_sub r) (rx_ctx r) (rx_seq r) (rx_dst r) (rx_old_iv r)
    (rx_new_key r) (rx_friend_cred r) (rx_ctl r) (rx_net_if r) (rx_local_match r)
    (rx_friend_match r) (rx_rssi r)).
Defined.

(** [struct bt_mesh_net_tx]. *)
Record net_tx := mk_tx {
  tx_sub : nat;
  tx_ctx : msg_ctx;
  tx_src : Z;
  tx_xmit : Z;
  tx_friend_cred : bool;
  tx_aszmic : Z;
  tx_aid : Z
}.
#[export] Instance net_tx_settable : Settable net_tx.
Proof.
  settable (fun t => mk_tx (tx_sub t) (tx_ctx t) (tx_src t) (tx_xmit t) (tx_friend_cred t)
    (tx_aszmic t) (tx_aid t)).
Defined.

(** [BT_MESH_NET_IVI_TX] and [BT_MESH_NET_IVI_RX(rx)], on [u32_t]. *)
Definition BT_MESH_NET_IVI_TX (m : mesh_net) : Z := u32 (iv_index m - Z.b2z (iv_update m)).
Definition BT_MESH_NET_IVI_RX (m : mesh_net) (rx : net_rx) : Z :=
  u32 (iv_index m - Z.b2z (rx_old_iv rx)).
