(* ===== verification/NetIv.v ===== *)
(** * Keys, key refresh and the IV update procedure (bt_mesh/src/net.c)

    The duplicate caches, subnet and friendship credentials, the key refresh
    state machine, and the IV index with the replay list it governs. *)

From S2P Require Import Prelude NetBuf Cmac Ccm MeshCrypto NetState.

(** ** Caches *)

(** The loop over a cache and the insertion after it, common to [check_dup]
    and [msg_cache_match]. *)
Definition cache_check (c : seen_cache) (val : Z) : bool * seen_cache :=
  if existsb (Z.eqb val) (ca_vals c) then (true, c)
  else
    (false, mk_cache (<[ca_next c := val]> (ca_vals c))
              ((ca_next c + 1) mod length (ca_vals c))).

(** [data] has at least eight bytes. *)
Definition check_dup (m : mesh_net) (data : bytes) : bool * mesh_net :=
  let tail := length data in
  let val := Z.lxor (sys_get_be32 (drop (tail - 4) data))
                    (sys_get_be32 (drop (tail - 8) data)) in
  let '(dup, c) := cache_check (dup_cache m) val in
  (dup, m <| dup_cache := c |>).

(** [memcpy(&hash2, &pdu->data[3], 4)] on a little-endian processor. *)
Definition msg_hash (m : mesh_net) (rx : net_rx) (pdu : bytes) : Z :=
  let hash1 := Z.lor (u32 (Z.shiftl (BT_MESH_NET_IVI_RX m rx) 8)) (byte_at pdu 2) in
  let hash2 := sys_get_le32 (drop 3 pdu) in
  Z.lor (u64 (Z.shiftl hash1 32)) hash2.

Definition msg_cache_match (m : mesh_net) (rx : net_rx) (pdu : bytes) : bool * mesh_net :=
  let '(dup, c) := cache_check (msg_cache m) (msg_hash m rx pdu) in
  (dup, m <| msg_cache := c |>).

(** ** Subnets *)

(** Index of the first element that satisfies [p]: the search loops of the
    source. *)
Fixpoint find_index {A} (p : A -> bool) (l : list A) : option nat :=
  match l with
  | [] => None
  | x :: l => if p x then Some 0%nat else option_map S (find_index p l)
  end.

Definition bt_mesh_subnet_get (m : mesh_net) (net_idx : Z) : option nat :=
  if net_idx =? BT_MESH_KEY_ANY then Some 0%nat
  else find_index (fun s => sub_net_idx s =? net_idx) (subs m).

Section config.
Context {cfg : MeshConfig}.

(** The fields of [keys] are written as each derivation succeeds. *)
Definition bt_mesh_net_keys_create (keys : subnet_keys) (key : bytes) : res subnet_keys :=
  '(nid, enc, privacy) ← bt_mesh_k2 key [0];
  let keys := keys <| k_enc := enc |> <| k_privacy := privacy |> in
  let keys := keys <| k_net := key |> <| k_nid := nid |> in
  net_id ← bt_mesh_k3 key;
  let keys := keys <| k_net_id := net_id |> in
  keys ← (if CONFIG_GATT_PROXY then
            identity ← bt_mesh_identity_key key; Ok (keys <| k_identity := identity |>)
          else Ok keys);
  beacon ← bt_mesh_beacon_key key;
  Ok (keys <| k_beacon := beacon |>).

(** *** Friendship credentials *)

(** [lpn_frnd] is [bt_mesh.lpn.frnd], [primary] is [bt_mesh_primary_addr()]. *)
Definition friend_cred_set (lpn_frnd primary : Z) (cred : friend_cred) (idx : bool)
    (net_key : bytes) : res friend_cred :=
  let '(lpn_addr, frnd_addr) :=
    if CONFIG_LOW_POWER && (fc_addr cred =? lpn_frnd) then (primary, fc_addr cred)
    else (fc_addr cred, primary) in
  let p := 0x01 :: sys_put_be16 lpn_addr ++ sys_put_be16 frnd_addr ++
           sys_put_be16 (fc_lpn_counter cred) ++ sys_put_be16 (fc_frnd_counter cred) in
  '(nid, enc, privacy) ← bt_mesh_k2 net_key p;
  let c := mk_cred nid enc privacy in
  Ok (if idx then cred <| fc_cred1 := c |> else cred <| fc_cred0 := c |>).

Definition friend_cred_refresh (net_idx : Z) (creds : list friend_cred) : list friend_cred :=
  map (fun c => if negb (fc_addr c =? BT_MESH_ADDR_UNASSIGNED) && (fc_net_idx c =? net_idx)
                then c <| fc_cred0 := fc_cred1 c |> else c) creds.

(** Stops at the first error; the credentials before it are updated. *)
Fixpoint friend_cred_update (lpn_frnd primary : Z) (sub : subnet) (creds : list friend_cred)
    : Z * list friend_cred :=
  match creds with
  | [] => (0, [])
  | c :: creds =>
      if (fc_addr c =? BT_MESH_ADDR_UNASSIGNED) || negb (fc_net_idx c =? sub_net_idx sub) then
        let '(e, creds) := friend_cred_update lpn_frnd primary sub creds in (e, c :: creds)
      else
        match friend_cred_set lpn_frnd primary c true (k_net (sub_key1 sub)) with
        | Ok c => let '(e, creds) := friend_cred_update lpn_frnd primary sub creds in
                  (e, c :: creds)
        | Err e => (e, c :: creds)
        | Undef => (0, c :: creds)
        end
  end.

Definition friend_cred_clear (c : friend_cred) : friend_cred :=
  mk_friend_cred BT_MESH_KEY_UNUSED BT_MESH_ADDR_UNASSIGNED 0 0 zero_cred zero_cred.

(** The credential's slot, [None] for [NULL], and the new table. *)
Definition friend_cred_create (lpn_frnd primary : Z) (sub : subnet)
    (addr lpn_counter frnd_counter : Z) (creds : list friend_cred)
    : option nat * list friend_cred :=
  match find_index (fun c => (fc_addr c =? BT_MESH_ADDR_UNASSIGNED) ||
                      ((fc_addr c =? addr) && (fc_net_idx c =? sub_net_idx sub))) creds with
  | None => (None, creds)
  | Some i =>
      let set_slot c := <[i := c]> creds in
      match creds !! i with
      | None => (None, creds)
      | Some cred =>
          let cred := cred <| fc_net_idx := sub_net_idx sub |> <| fc_addr := addr |>
            <| fc_lpn_counter := lpn_counter |> <| fc_frnd_counter := frnd_counter |> in
          match friend_cred_set lpn_frnd primary cred false (k_net (sub_key0 sub)) with
          | Ok cred =>
              if sub_kr_flag sub then
                match friend_cred_set lpn_frnd primary cred true (k_net (sub_key1 sub)) with
                | Ok cred => (Some i, set_slot cred)
                | _ => (None, set_slot (friend_cred_clear cred))
                end
              else (Some i, set_slot cred)
          | _ => (None, set_slot (friend_cred_clear cred))
          end
      end
  end.

Definition friend_cred_del (net_idx addr : Z) (creds : list friend_cred)
    : Z * list friend_cred :=
  match find_index (fun c => (fc_addr c =? addr) && (fc_net_idx c =? net_idx)) creds with
  | Some i => (0, alter friend_cred_clear i creds)
  | None => (- ENOENT, creds)
  end.

Definition friend_cred_get (creds : list friend_cred) (sub : subnet) (addr : Z)
    : res cred_keys :=
  if CONFIG_LOW_POWER || CONFIG_FRIEND then
    match find_index (fun c => (fc_net_idx c =? sub_net_idx sub) &&
                        ((addr =? BT_MESH_ADDR_UNASSIGNED) || (fc_addr c =? addr))) creds with
    | Some i => c ← of_option (creds !! i); Ok (fc_cred c (sub_kr_flag sub))
    | None => Err (- ENOENT)
    end
  else Err (- ENOENT).

(** *** Beacons and creation of the network *)

Definition bt_mesh_net_flags (m : mesh_net) (sub : option subnet) : Z :=
  let flags := match sub with
               | Some s => if sub_kr_flag s then BT_MESH_NET_FLAG_KR else 0
               | None => 0
               end in
  if iv_update m then Z.lor flags BT_MESH_NET_FLAG_IVU else flags.

(** Result: the subnet with its new [auth]; unchanged when the MAC fails. *)
Definition bt_mesh_net_beacon_update (m : mesh_net) (sub : subnet) : subnet :=
  let flags := bt_mesh_net_flags m (Some sub) in
  let keys := if CONFIG_CFG_CLI then sub_key0 sub else sub_keys sub (sub_kr_flag sub) in
  match bt_mesh_beacon_auth (k_beacon keys) flags (k_net_id keys) (iv_index m) with
  | Ok auth => sub <| sub_auth := auth |>
  | _ => sub
  end.

Definition bt_mesh_net_create (uptime : Z) (m : mesh_net) (idx flags : Z) (key : bytes)
    (iv : Z) : Z * mesh_net :=
  if valid m then (- EALREADY, m)
  else
    let m := m <| msg_cache := mk_cache (map (fun _ => 0) (ca_vals (msg_cache m))) 0 |> in
    match subs m with
    | [] => (- EIO, m)
    | sub :: rest =>
        let sub := sub <| sub_kr_flag := BT_MESH_KEY_REFRESH flags |> in
        let created :=
          if sub_kr_flag sub then
            keys ← bt_mesh_net_keys_create (sub_key1 sub) key;
            Ok (sub <| sub_key1 := keys |> <| sub_kr_phase := BT_MESH_KR_PHASE_2 |>)
          else
            keys ← bt_mesh_net_keys_create (sub_key0 sub) key;
            Ok (sub <| sub_key0 := keys |>) in
        match created with
        | Ok sub =>
            let m := m <| valid := true |> in
            let sub := sub <| sub_net_idx := idx |> in
            let sub := if CONFIG_GATT_PROXY then
                         sub <| sub_node_id := BT_MESH_NODE_IDENTITY_RUNNING |>
                             <| sub_node_id_start := u32 uptime |>
                       else sub <| sub_node_id := BT_MESH_NODE_IDENTITY_NOT_SUPPORTED |> in
            let m := m <| iv_index := iv |> <| iv_update := BT_MESH_IV_UPDATE flags |>
                       <| last_update := uptime |> in
            (0, m <| subs := bt_mesh_net_beacon_update m sub :: rest |>)
        | _ => (- EIO, m <| subs := sub :: rest |>)
        end
    end.

(** ** Key refresh *)

Definition revoke_app_key (net_idx : Z) (k : app_key) : app_key :=
  if negb (app_net_idx k =? net_idx) || negb (app_updated k) then k
  else k <| app_key0 := app_key1 k |> <| app_updated := false |>.

Definition bt_mesh_net_revoke_keys (m : mesh_net) (i : nat) : mesh_net :=
  match subs m !! i with
  | None => m
  | Some sub =>
      m <| subs := <[i := sub <| sub_key0 := sub_key1 sub |>]> (subs m) |>
        <| app_keys := map (revoke_app_key (sub_net_idx sub)) (app_keys m) |>
  end.

Definition set_sub (m : mesh_net) (i : nat) (f : subnet -> subnet) : mesh_net :=
  m <| subs := alter f i (subs m) |>.

(** [new_kr] is a [u8_t] that the callers take from a flag: 0 or 1. *)
Definition bt_mesh_kr_update (m : mesh_net) (i : nat) (new_kr new_key : bool)
    : bool * mesh_net :=
  match subs m !! i with
  | None => (false, m)
  | Some sub =>
      if negb (Bool.eqb new_kr (sub_kr_flag sub)) && (sub_kr_phase sub =? BT_MESH_KR_NORMAL)
      then (false, m)
      else
        let m := set_sub m i (fun s => s <| sub_kr_flag := new_kr |>) in
        if new_kr then
          if sub_kr_phase sub =? BT_MESH_KR_PHASE_1 then
            (true, set_sub m i (fun s => s <| sub_kr_phase := BT_MESH_KR_PHASE_2 |>))
          else (false, m)
        else if ((sub_kr_phase sub =? BT_MESH_KR_PHASE_1) && new_key) ||
                (sub_kr_phase sub =? BT_MESH_KR_PHASE_2) then
          let m := bt_mesh_net_revoke_keys m i in
          let m := if CONFIG_LOW_POWER || CONFIG_FRIEND then
                     m <| friend_creds := friend_cred_refresh (sub_net_idx sub) (friend_creds m) |>
                   else m in
          (true, set_sub m i (fun s => s <| sub_kr_phase := BT_MESH_KR_NORMAL |>))
        else (false, m)
  end.

(** ** IV update *)

Definition rpl_reset_entry (r : rpl_entry) : rpl_entry :=
  if rpl_src r =? 0 then r
  else if rpl_old_iv r then zero_rpl
  else r <| rpl_old_iv := true |>.

Definition bt_mesh_rpl_reset (m : mesh_net) : mesh_net :=
  m <| rpl := map rpl_reset_entry (rpl m) |>.

(** What [bt_mesh_net_iv_update] asks of the timer of the procedure. *)
Inductive ivu_timer := IvuSubmit | IvuCancel | IvuNone.

(** The [do_update] label. *)
Definition iv_do_update (uptime : Z) (m : mesh_net) (iv : Z) (ivu : bool)
    : bool * mesh_net * ivu_timer :=
  let m := m <| iv_update := ivu |> in
  let '(m, t) :=
    if ivu then (bt_mesh_rpl_reset (m <| iv_index := iv |>), IvuSubmit)
    else (m <| seq_num := 0 |>, IvuCancel) in
  let m := m <| last_update := uptime |> in
  let m := m <| subs := map (fun s => if sub_net_idx s =? BT_MESH_KEY_UNUSED then s
                                      else bt_mesh_net_beacon_update m s) (subs m) |> in
  (true, m, t).

(** IV index recovery: the replay list is cleared and the sequence restarts. *)
Definition iv_recover (m : mesh_net) (iv : Z) : mesh_net :=
  m <| rpl := map (fun _ => zero_rpl) (rpl m) |> <| iv_index := iv |> <| seq_num := 0 |>.

(** The duration and pending-transfer guards in front of [do_update]. *)
Definition iv_guarded_update (uptime : Z) (tx_in_progress : bool) (m : mesh_net) (iv : Z)
    (ivu : bool) : bool * mesh_net * ivu_timer :=
  if (negb CONFIG_IV_UPDATE_TEST || negb (ivu_test m)) &&
     (uptime - last_update m <? K_HOURS 96) then (false, m, IvuNone)
  else if negb ivu && tx_in_progress then (false, m <| pending_update := true |>, IvuNone)
  else iv_do_update uptime m iv ivu.

(** [uptime] is [k_uptime_get()], [tx_in_progress] is
    [bt_mesh_tx_in_progress()]. The sums are [u32_t]. *)
Definition bt_mesh_net_iv_update (uptime : Z) (tx_in_progress : bool) (m : mesh_net)
    (iv : Z) (ivu : bool) : bool * mesh_net * ivu_timer :=
  if iv_update m then
    if negb (iv =? iv_index m) then (false, m, IvuNone)
    else if ivu then (false, m, IvuNone)
    else iv_guarded_update uptime tx_in_progress m iv ivu
  else if iv =? iv_index m then (false, m, IvuNone)
  else if (iv <? iv_index m) || (u32 (iv_index m + 42) <? iv) then (false, m, IvuNone)
  else if u32 (iv_index m + 1) <? iv then iv_do_update uptime (iv_recover m iv) iv ivu
  else if (iv =? u32 (iv_index m + 1)) && negb ivu then
    iv_do_update uptime (iv_recover m iv) iv ivu
  else if negb ivu then (false, m, IvuNone)
  else if negb (iv =? u32 (iv_index m + 1)) then (false, m, IvuNone)
  else iv_guarded_update uptime tx_in_progress m iv ivu.

(** Test mode (CONFIG_BT_MESH_IV_UPDATE_TEST). *)
Definition bt_mesh_iv_update_test (m : mesh_net) (enable : bool) : mesh_net :=
  m <| ivu_test := enable |>.

(** The work item at the end of the IV update timer. *)
Definition ivu_complete (uptime : Z) (tx_in_progress : bool) (m : mesh_net)
    : mesh_net * ivu_timer :=
  let m := m <| ivu_initiator := true |> in
  let '(_, m, t) := bt_mesh_net_iv_update uptime tx_in_progress m (iv_index m) false in
  (m, t).

End config.

(** ** The caches remember the most recent values *)

(** The specification: the [n] values last accepted, the newest first. *)
Definition recent_check (recent : list Z) (val : Z) : bool * list Z :=
  if decide (val ∈ recent) then (true, recent)
  else (false, take (length recent) (val :: recent)).

Fixpoint run_checks {S} (step : S -> Z -> bool * S) (s : S) (vals : list Z) : list bool :=
  match vals with
  | [] => []
  | v :: vals => let '(b, s) := step s v in b :: run_checks step s vals
  end.

(** The array holds the recent values as a ring: the oldest at [ca_next]. *)
Definition cache_ring (c : seen_cache) : list Z :=
  reverse (drop (ca_next c) (ca_vals c) ++ take (ca_next c) (ca_vals c)).

Definition cache_wf (c : seen_cache) : Prop := (ca_next c < length (ca_vals c))%nat.

Lemma find_index_Some {A} (p : A -> bool) l i : find_index p l = Some i ->
  exists x, l !! i = Some x /\ p x = true.
Proof.
  revert i. induction l as [|x l IH]; intros i; cbn; [done|].
  destruct (p x) eqn:Hp; [intros [= <-]; by exists x|].
  destruct (find_index p l) as [k|]; [|done]. intros [= <-]. by apply IH.
Qed.

Lemma find_index_first {A} (p : A -> bool) l i : find_index p l = Some i ->
  forall j x, (j < i)%nat -> l !! j = Some x -> p x = false.
Proof.
  revert i. induction l as [|y l IH]; intros i; cbn; [done|].
  destruct (p y) eqn:Hp; [intros [= <-]; lia|].
  destruct (find_index p l) as [k|] eqn:Hk; [|done]. intros [= <-] [|j] x Hj Hx; cbn in *; [congruence|].
  apply (IH k eq_refl j); [lia|done].
Qed.

Lemma find_index_None {A} (p : A -> bool) l : find_index p l = None <-> Forall (fun x => p x = false) l.
Proof.
  induction l as [|x l IH]; cbn; [done|]. rewrite Forall_cons_iff, <- IH.
  destruct (p x); [split; [done|by intros [? _]]|]. destruct (find_index p l); [|done].
  split; [done|by intros [_ ?]].
Qed.

Lemma existsb_elem v l : existsb (Z.eqb v) l = bool_decide (v ∈ l).
Proof.
  induction l as [|x l IH]; [done|]. cbn [existsb]. rewrite IH.
  destruct (Z.eqb_spec v x) as [->|Hne].
  - symmetry. apply bool_decide_eq_true. by left.
  - apply bool_decide_ext. rewrite elem_of_cons. split; [by right|by intros [?|?]].
Qed.

Lemma cache_ring_elem c v : v ∈ cache_ring c <-> v ∈ ca_vals c.
Proof.
  unfold cache_ring. rewrite elem_of_reverse, elem_of_app.
  rewrite <- (take_drop (ca_next c) (ca_vals c)) at 3. rewrite elem_of_app. tauto.
Qed.

Lemma cache_ring_insert c v : cache_wf c ->
  let c' := mk_cache (<[ca_next c := v]> (ca_vals c))
              ((ca_next c + 1) mod length (ca_vals c)) in
  cache_wf c' /\ length (ca_vals c') = length (ca_vals c) /\
  cache_ring c' = take (length (cache_ring c)) (v :: cache_ring c).
Proof.
  destruct c as [vals next]. unfold cache_wf, cache_ring. cbn [ca_vals ca_next]. intros Hn.
  rewrite length_insert. split; [apply Nat.mod_upper_bound; lia|]. split; [done|].
  assert (exists a x b, vals = a ++ x :: b /\ length a = next) as (a & x & b & -> & Ha).
  { destruct (lookup_lt_is_Some_2 vals next Hn) as [x Hx].
    exists (take next vals), x, (drop (S next) vals).
    rewrite length_take. split; [by rewrite take_drop_middle|lia]. }
  subst next. rewrite insert_app_r_alt, Nat.sub_diag by lia. cbn [insert list_insert].
  rewrite drop_app_length, take_app_length.
  assert (length (reverse ((x :: b) ++ a)) = S (length (b ++ a))) as Hl
    by by rewrite length_reverse.
  rewrite Hl. cbn [app take]. rewrite reverse_cons.
  assert (take (length (b ++ a)) (reverse (b ++ a) ++ [x]) = reverse (b ++ a)) as ->
    by (apply take_app_length'; by rewrite length_reverse).
  destruct b as [|y b].
  - rewrite length_app, Nat.add_1_r. cbn [length]. rewrite Nat.add_1_r, Nat.Div0.mod_same.
    by rewrite drop_0, take_0, app_nil_r, reverse_snoc.
  - rewrite Nat.mod_small by (rewrite length_app; cbn; lia).
    rewrite (cons_middle v a (y :: b)), (assoc_L (++) a [v]).
    rewrite drop_app_length', take_app_length' by (rewrite length_app; cbn; lia).
    assert ((y :: b) ++ a ++ [v] = ((y :: b) ++ a) ++ [v]) as -> by by rewrite <- app_assoc.
    by rewrite reverse_snoc.
Qed.

Lemma cache_check_recent c v : cache_wf c ->
  let '(b, c') := cache_check c v in
  recent_check (cache_ring c) v = (b, cache_ring c') /\ cache_wf c'.
Proof.
  intros Hwf. unfold cache_check, recent_check. rewrite existsb_elem.
  destruct (decide (v ∈ ca_vals c)) as [Hin|Hin].
  - rewrite bool_decide_true by done. by rewrite decide_True by by apply cache_ring_elem.
  - rewrite bool_decide_false by done. rewrite decide_False by by rewrite cache_ring_elem.
    destruct (cache_ring_insert c v Hwf) as (Hwf' & _ & Hr). by rewrite Hr.
Qed.

(** What [check_dup] compares: the last eight bytes. *)
Definition dup_val (data : bytes) : Z :=
  Z.lxor (sys_get_be32 (drop (length data - 4) data))
         (sys_get_be32 (drop (length data - 8) data)).

Fixpoint run_check_dup (m : mesh_net) (pdus : list bytes) : list bool :=
  match pdus with
  | [] => []
  | d :: pdus => let '(b, m) := check_dup m d in b :: run_check_dup m pdus
  end.

(** Over any sequence of received PDUs, [check_dup] flags exactly those
    whose value is among the last [n] values it let through, [n] being the
    size of the cache. *)
Theorem check_dup_recent m pdus : cache_wf (dup_cache m) ->
  run_check_dup m pdus =
  run_checks recent_check (cache_ring (dup_cache m)) (map dup_val pdus).
Proof.
  revert m. induction pdus as [|d pdus IH]; intros m Hwf; [done|].
  cbn [run_check_dup map run_checks]. unfold check_dup. fold (dup_val d).
  pose proof (cache_check_recent (dup_cache m) (dup_val d) Hwf) as Hc.
  destruct (cache_check (dup_cache m) (dup_val d)) as [b c].
  destruct Hc as [-> Hwf']. f_equal. by apply IH.
Qed.

Lemma check_dup_recent_witness :
  let m := bt_mesh_init_state 1 in
  let pdus := [sample_pdu; sample_pdu; replicate 18 1; replicate 4 2 ++ replicate 16 3] in
  run_check_dup m pdus =
  run_checks recent_check (cache_ring (dup_cache m)) (map dup_val pdus).
Proof. apply check_dup_recent. unfold cache_wf. cbn. lia. Defined.

(** ** Key refresh *)

(** Flag and phase of a subnet agree: the flag is set in Phase 2 only. *)
Definition kr_wf (s : subnet) : Prop :=
  (sub_kr_phase s = BT_MESH_KR_NORMAL /\ sub_kr_flag s = false) \/
  (sub_kr_phase s = BT_MESH_KR_PHASE_1 /\ sub_kr_flag s = false) \/
  (sub_kr_phase s = BT_MESH_KR_PHASE_2 /\ sub_kr_flag s = true).

(** The transitions of the Mesh Profile, section 3.10.4: the phase, the
    received flag and key, the next phase and whether the old key is revoked. *)
Inductive kr_step : Z -> bool -> bool -> Z -> bool -> Prop :=
| kr_1_2 new_key : kr_step BT_MESH_KR_PHASE_1 true new_key BT_MESH_KR_PHASE_2 false
| kr_1_normal : kr_step BT_MESH_KR_PHASE_1 false true BT_MESH_KR_NORMAL true
| kr_2_normal new_key : kr_step BT_MESH_KR_PHASE_2 false new_key BT_MESH_KR_NORMAL true.

Definition revoked_sub (s : subnet) (phase : Z) (kr revoke : bool) : subnet :=
  let s := s <| sub_kr_flag := kr |> <| sub_kr_phase := phase |> in
  if revoke then s <| sub_key0 := sub_key1 s |> else s.

Section kr.
Context {cfg : MeshConfig}.

Lemma set_sub_lookup m i f sub : subs m !! i = Some sub ->
  subs (set_sub m i f) !! i = Some (f sub) /\
  (forall j, j <> i -> subs (set_sub m i f) !! j = subs m !! j) /\
  app_keys (set_sub m i f) = app_keys m.
Proof.
  intros Hs. unfold set_sub. record_simpl. split; [by rewrite list_lookup_alter_eq, Hs|].
  split; [|done]. intros j Hj. by rewrite list_lookup_alter_ne.
Qed.

Lemma revoke_keys_lookup m i sub : subs m !! i = Some sub ->
  subs (bt_mesh_net_revoke_keys m i) !! i = Some (sub <| sub_key0 := sub_key1 sub |>) /\
  (forall j, j <> i -> subs (bt_mesh_net_revoke_keys m i) !! j = subs m !! j) /\
  app_keys (bt_mesh_net_revoke_keys m i) =
    map (revoke_app_key (sub_net_idx sub)) (app_keys m).
Proof.
  intros Hs. unfold bt_mesh_net_revoke_keys. rewrite Hs. record_simpl.
  split; [apply list_lookup_insert_eq; by eapply lookup_lt_Some|].
  split; [|done]. intros j Hj. by rewrite list_lookup_insert_ne.
Qed.

(** On a subnet whose flag and phase agree, [bt_mesh_kr_update] makes
    exactly the transitions of the key refresh procedure: it reports a change
    iff there is one; then the subnet moves to the next phase, the new key
    replaces the old one iff the transition revokes it, with the updated
    application keys of the subnet; otherwise nothing changes. Flag and phase
    still agree, and no other subnet is touched. *)
Theorem kr_update_transitions m i sub new_kr new_key :
  subs m !! i = Some sub -> kr_wf sub ->
  let '(changed, m') := bt_mesh_kr_update m i new_kr new_key in
  (forall j, j <> i -> subs m' !! j = subs m !! j) /\
  exists sub', subs m' !! i = Some sub' /\ kr_wf sub' /\
    (changed = true -> exists phase revoke,
      kr_step (sub_kr_phase sub) new_kr new_key phase revoke /\
      sub' = revoked_sub sub phase new_kr revoke /\
      app_keys m' = if revoke then map (revoke_app_key (sub_net_idx sub)) (app_keys m)
                    else app_keys m) /\
    (changed = false ->
      ~ (exists phase revoke, kr_step (sub_kr_phase sub) new_kr new_key phase revoke) /\
      sub' = sub /\ app_keys m' = app_keys m).
Proof.
  intros Hs Hwf. unfold bt_mesh_kr_update. rewrite Hs.
  destruct (set_sub_lookup m i (fun s => s <| sub_kr_flag := new_kr |>) sub Hs)
    as (Hs1 & Ho1 & Ha1). set (m1 := set_sub m i _) in *.
  destruct (set_sub_lookup m1 i (fun s => s <| sub_kr_phase := BT_MESH_KR_PHASE_2 |>) _ Hs1)
    as (Hs2 & Ho2 & Ha2). set (m2 := set_sub m1 i _) in *.
  destruct (revoke_keys_lookup m1 i _ Hs1) as (Hs3 & Ho3 & Ha3).
  set (m3 := if CONFIG_LOW_POWER || CONFIG_FRIEND then _ else bt_mesh_net_revoke_keys m1 i).
  assert (subs m3 = subs (bt_mesh_net_revoke_keys m1 i) /\
    app_keys m3 = app_keys (bt_mesh_net_revoke_keys m1 i)) as [Hsub3 Happ3]
    by (unfold m3; by case_match).
  rewrite <- Hsub3 in Hs3, Ho3. rewrite <- Happ3 in Ha3.
  destruct (set_sub_lookup m3 i (fun s => s <| sub_kr_phase := BT_MESH_KR_NORMAL |>) _ Hs3)
    as (Hs4 & Ho4 & Ha4). set (m4 := set_sub m3 i _) in *.
  clearbody m1 m2 m3 m4.
  assert (forall j, j <> i -> subs m2 !! j = subs m !! j) as Hother2
    by (intros; by rewrite Ho2, Ho1).
  assert (forall j, j <> i -> subs m4 !! j = subs m !! j) as Hother4
    by (intros; by rewrite Ho4, Ho3, Ho1).
  rewrite Ha1 in Ha2, Ha3. rewrite Ha3 in Ha4.
  destruct sub as [f1 f2 f3 f4 idx flag phase f8 f9 f10 f11 k0 k1].
  unfold kr_wf in Hwf. cbn in Hwf, Hs1, Hs2, Hs3, Hs4.
  destruct Hwf as [[-> ->]|[[-> ->]|[-> ->]]], new_kr, new_key; cbn;
    (split; [first [done|exact Ho1|exact Hother2|exact Hother4]|]);
    (eexists; split; [eassumption|]);
    (split; [unfold kr_wf; cbn; by auto|]);
    (split; [intros [=]|intros [=]]);
    try (split; [intros (? & ? & H); by inversion H|done]);
    try (do 2 eexists; split; [constructor|]; by split).
Qed.

End kr.

(** A subnet in Phase 1 with its new key. *)
Definition sample_sub : subnet :=
  unused_subnet <| sub_net_idx := 0 |> <| sub_kr_phase := BT_MESH_KR_PHASE_1 |>.
Definition sample_net : mesh_net := (bt_mesh_init_state 1) <| subs := [sample_sub] |>.

Lemma kr_update_transitions_witness :
  fst (bt_mesh_kr_update (cfg := proxy_friend_config) sample_net 0 false true) = true /\
  exists sub', subs (snd (bt_mesh_kr_update (cfg := proxy_friend_config) sample_net 0 false true)) !! 0%nat = Some sub' /\
    kr_wf sub'.
Proof.
  assert (kr_wf sample_sub) as Hwf by (right; left; split; reflexivity).
  pose proof (kr_update_transitions (cfg := proxy_friend_config) sample_net 0 sample_sub false true eq_refl Hwf) as H.
  split; [reflexivity|].
  destruct (bt_mesh_kr_update sample_net 0 false true) as [b m'].
  destruct H as (_ & sub' & Hs & Hk & _). exists sub'. split; [exact Hs|exact Hk].
Defined.

(** ** The IV index and the sequence number *)

(** The counters fit their fields, and an IV update never starts from IV
    index 0 (it would be index -1). *)
Definition iv_ok (m : mesh_net) : Prop :=
  0 <= iv_index m < 4294967296 /\ 0 <= seq_num m < 16777216 /\
  (iv_update m = true -> 1 <= iv_index m).

(** The position of the next transmission: IV index and sequence number, which
    together with the source make the nonce, as one number. *)
Definition tx_pos (m : mesh_net) : Z := BT_MESH_NET_IVI_TX m * 16777216 + seq_num m.

Lemma ivi_tx_eq m : iv_ok m ->
  BT_MESH_NET_IVI_TX m = iv_index m - Z.b2z (iv_update m).
Proof.
  intros (Hiv & _ & Hup). unfold BT_MESH_NET_IVI_TX. apply u32_id.
  destruct (iv_update m); cbn [Z.b2z]; [specialize (Hup eq_refl)|]; lia.
Qed.

(** The IV index and the sequence number after [do_update]. *)
Lemma iv_do_update_fields {cfg : MeshConfig} uptime m iv ivu :
  let '(r, m', _) := iv_do_update uptime m iv ivu in
  r = true /\ iv_update m' = ivu /\ last_update m' = uptime /\
  iv_index m' = (if ivu then iv else iv_index m) /\
  seq_num m' = (if ivu then seq_num m else 0) /\
  rpl m' = (if ivu then map rpl_reset_entry (rpl m) else rpl m).
Proof. unfold iv_do_update. by destruct ivu. Qed.

Section iv.
Context {cfg : MeshConfig} (uptime : Z) (tx_in_progress : bool).

(** What the procedure may do with the counters: nothing, begin an update of
    the current index, end it, or recover a later index. *)
Inductive iv_change (m m' : mesh_net) : Prop :=
| iv_same : iv_index m' = iv_index m -> iv_update m' = iv_update m ->
    seq_num m' = seq_num m -> rpl m' = rpl m -> iv_change m m'
| iv_begin : iv_update m = false -> iv_update m' = true ->
    iv_index m' = iv_index m + 1 -> iv_index m' < 4294967296 -> seq_num m' = seq_num m ->
    rpl m' = map rpl_reset_entry (rpl m) ->
    (CONFIG_IV_UPDATE_TEST = false -> K_HOURS 96 <= uptime - last_update m) -> iv_change m m'
| iv_end : iv_update m = true -> iv_update m' = false ->
    iv_index m' = iv_index m -> seq_num m' = 0 -> rpl m' = rpl m ->
    tx_in_progress = false ->
    (CONFIG_IV_UPDATE_TEST = false -> K_HOURS 96 <= uptime - last_update m) -> iv_change m m'
| iv_recovery : iv_update m = false -> iv_index m < iv_index m' <= iv_index m + 42 ->
    iv_index m' < 4294967296 ->
    (iv_update m' = true -> iv_index m + 1 < iv_index m') -> seq_num m' = 0 ->
    rpl m' = map (fun _ => zero_rpl) (rpl m) -> iv_change m m'.

Lemma iv_guarded_change m iv ivu :
  let '(_, m', _) := iv_guarded_update uptime tx_in_progress m iv ivu in
  (iv_index m' = iv_index m /\ iv_update m' = iv_update m /\ seq_num m' = seq_num m /\
   rpl m' = rpl m) \/
  (iv_update m' = ivu /\ iv_index m' = (if ivu then iv else iv_index m) /\
   seq_num m' = (if ivu then seq_num m else 0) /\
   rpl m' = (if ivu then map rpl_reset_entry (rpl m) else rpl m) /\
   (ivu = false -> tx_in_progress = false) /\
   (CONFIG_IV_UPDATE_TEST = false -> K_HOURS 96 <= uptime - last_update m)).
Proof.
  unfold iv_guarded_update.
  destruct (Z.ltb_spec (uptime - last_update m) (K_HOURS 96)) as [Hlt|Hge].
  - destruct (negb CONFIG_IV_UPDATE_TEST || negb (ivu_test m)) eqn:Htest; cbn [andb];
      [by left|].
    destruct (negb ivu && tx_in_progress) eqn:Htx; [by left|].
    pose proof (iv_do_update_fields uptime m iv ivu) as H.
    destruct (iv_do_update uptime m iv ivu) as [[r m'] t]. destruct H as (_ & ? & _ & ? & ? & ?).
    right.
    split_and!; try done.
    + intros ->. by destruct tx_in_progress.
    + intros Hc. rewrite Hc in Htest. discriminate.
  - rewrite andb_false_r.
    destruct (negb ivu && tx_in_progress) eqn:Htx; [by left|].
    pose proof (iv_do_update_fields uptime m iv ivu) as H.
    destruct (iv_do_update uptime m iv ivu) as [[r m'] t]. destruct H as (_ & ? & _ & ? & ? & ?).
    right.
    split_and!; try done. intros ->. by destruct tx_in_progress.
Qed.

Lemma iv_recover_change m iv ivu :
  iv_update m = false -> iv_index m < iv <= iv_index m + 42 -> iv < 4294967296 ->
  (ivu = true -> iv_index m + 1 < iv) ->
  let '(_, m', _) := iv_do_update uptime (iv_recover m iv) iv ivu in iv_change m m'.
Proof.
  intros Hup Hiv Hmax Hivu. pose proof (iv_do_update_fields uptime (iv_recover m iv) iv ivu) as H.
  destruct (iv_do_update uptime (iv_recover m iv) iv ivu) as [[r m'] t].
  destruct H as (_ & Hu & _ & Hi & Hs & Hr).
  assert (iv_index m' = iv) as Hi' by by destruct ivu.
  apply iv_recovery; [done|lia|lia|by rewrite Hu, Hi'|by destruct ivu|].
  rewrite Hr. unfold iv_recover. record_simpl. destruct ivu; [|done].
  rewrite map_map. apply map_ext. intros r0. done.
Qed.

Lemma iv_update_changes m iv ivu : iv_ok m -> 0 <= iv < 4294967296 ->
  let '(_, m', _) := bt_mesh_net_iv_update uptime tx_in_progress m iv ivu in
  iv_change m m'.
Proof.
  intros (Hiv0 & Hseq & Hup) Hiv. unfold bt_mesh_net_iv_update.
  destruct (iv_update m) eqn:Hu.
  - destruct (Z.eqb_spec iv (iv_index m)) as [->|]; [|by apply iv_same].
    destruct ivu; [by apply iv_same|]. cbn [negb].
    pose proof (iv_guarded_change m (iv_index m) false) as H.
    destruct (iv_guarded_update _ _ m (iv_index m) false) as [[r m'] t].
    destruct H as [(? & ? & ? & ?)|(? & ? & ? & ? & Htx & Ht)]; [by apply iv_same; congruence|].
    apply iv_end; auto.
  - destruct (Z.eqb_spec iv (iv_index m)) as [->|Hne]; [by apply iv_same|].
    destruct (Z.ltb_spec iv (iv_index m)), (Z.ltb_spec (u32 (iv_index m + 42)) iv);
      cbn [orb]; try by apply iv_same.
    assert (iv <= iv_index m + 42) by word_lia.
    assert (u32 (iv_index m + 1) = iv_index m + 1) as -> by word_lia.
    destruct (Z.ltb_spec (iv_index m + 1) iv).
    { apply iv_recover_change; (done || lia). }
    assert (iv = iv_index m + 1) as -> by lia. rewrite Z.eqb_refl.
    destruct ivu; cbn [negb andb].
    + pose proof (iv_guarded_change m (iv_index m + 1) true) as H'.
      destruct (iv_guarded_update _ _ m (iv_index m + 1) true) as [[r m'] t].
      destruct H' as [(? & ? & ? & ?)|(? & ? & ? & ? & _ & Ht)];
        [by apply iv_same; congruence|].
      apply iv_begin; auto; lia.
    + apply iv_recover_change; (done || lia).
Qed.

(** C15: whatever IV index and flag a beacon or the timer proposes,
    [bt_mesh_net_iv_update] leaves the counters as they are, begins an update
    of the next index, ends the one in progress, or recovers an index at most
    42 ahead; begin and end happen at least 96 hours after the last change, and
    an update never ends while a segmented transmission is in progress. *)
Theorem iv_update_change m iv ivu : iv_ok m -> 0 <= iv < 4294967296 ->
  let '(_, m', _) := bt_mesh_net_iv_update uptime tx_in_progress m iv ivu in
  iv_change m m'.
Proof. apply iv_update_changes. Qed.
End iv.

Lemma iv_update_change_witness :
  iv_change (cfg := proxy_friend_config) (K_HOURS 100) false sample_net
    (snd (fst (bt_mesh_net_iv_update (cfg := proxy_friend_config) (K_HOURS 100) false
       sample_net 1 true))).
Proof.
  assert (iv_ok sample_net) as Hok by (unfold iv_ok; cbn; split_and!; (lia || done)).
  pose proof (iv_update_change (cfg := proxy_friend_config) (K_HOURS 100) false sample_net
    1 true Hok ltac:(lia)) as H.
  destruct (bt_mesh_net_iv_update (K_HOURS 100) false sample_net 1 true) as [[r m'] t].
  exact H.
Defined.

(** An IV index change keeps the counters in range and never moves the
    transmission position back. *)
Lemma iv_change_tx_pos {cfg : MeshConfig} uptime tx m m' :
  iv_ok m -> iv_change uptime tx m m' ->
  iv_ok m' /\ tx_pos m <= tx_pos m'.
Proof.
  intros Hok Hch. assert (iv_ok m') as Hok'.
  { destruct Hok as (Hi & Hs & Hu).
    destruct Hch as [Hi' Hu' Hs' _|Hu0 Hu' Hi' Hmax Hs' _ _|Hu0 Hu' Hi' Hs' _ _ _|Hu0 Hi' Hmax Hu' Hs' _];
      unfold iv_ok.
    - rewrite Hi', Hu', Hs'. done.
    - rewrite Hi', Hs'. split_and!; lia.
    - rewrite Hi', Hs', Hu'. split_and!; (lia || done).
    - rewrite Hs'. split_and!; lia. }
  split; [done|]. unfold tx_pos. rewrite !ivi_tx_eq by done.
  destruct Hok as (Hi & Hs & Hu), Hok' as (_ & Hs2 & Hu2).
  destruct Hch as [Hi' Hu' Hs' _|Hu0 Hu' Hi' Hmax Hs' _ _|Hu0 Hu' Hi' Hs' _ _ _|Hu0 Hi' Hmax Hu' Hs' _].
  - by rewrite Hi', Hu', Hs'.
  - rewrite Hu', Hu0, Hi', Hs'. cbn [Z.b2z]. lia.
  - rewrite Hu', Hu0, Hi', Hs'. cbn [Z.b2z]. specialize (Hu Hu0). lia.
  - rewrite Hu0, Hs'. cbn [Z.b2z]. destruct (iv_update m'); cbn [Z.b2z]; [specialize (Hu' eq_refl)|]; lia.
Qed.
