(* ===== verification/Net.v ===== *)
(** * Sending and receiving network PDUs (bt_mesh/src/net.c)

    Encoding and decoding of network PDUs, the relay, and the operations that
    connect the bearers with the transport layer. What the network layer asks
    of the other components is the class [NetEnv]; what it tells them is a list
    of events. *)

From Stdlib Require Import Sorted.
From S2P Require Import Prelude NetBuf Cmac Ccm MeshCrypto NetState NetIv.

(** The answers of access.c, cfg_srv.c, proxy.c and adv.c. *)
Class NetEnv := {
  elem_find : Z -> bool;
  fixed_group_match : Z -> bool;
  relay_get : Z;
  gatt_proxy_get : Z;
  relay_retransmit_get : Z;
  net_transmit_get : Z;
  default_ttl_get : Z;
  (** [bt_mesh_proxy_relay(buf, dst)]: was it sent to a proxy client? *)
  proxy_relay : bytes -> Z -> bool;
  (** [bt_mesh_adv_create] finds a free buffer. *)
  adv_available : bool
}.

(** Which of the two callbacks of a [struct bt_mesh_send_cb] are set. *)
Record send_cb := mk_send_cb { cb_start : bool; cb_end : bool }.

Inductive net_event :=
| EvSeqUpdate (seq : Z)
| EvCbStart
| EvCbEnd (err : Z)
| EvLocal (pdu : bytes)
| EvProxy (pdu : bytes) (dst : Z)
| EvProxyAddr (addr : Z)
| EvAdv (pdu : bytes)
| EvIvuInitiator (enable : bool)
| EvIvuTimer (t : ivu_timer)
| EvSecUpdate.

(** ** Header fields *)

Definition IVI (pdu : bytes) : Z := Z.shiftr (byte_at pdu 0) 7.
Definition NID (pdu : bytes) : Z := Z.land (byte_at pdu 0) 0x7f.
Definition CTL (pdu : bytes) : bool := negb (Z.shiftr (byte_at pdu 1) 7 =? 0).
Definition TTL (pdu : bytes) : Z := Z.land (byte_at pdu 1) 0x7f.
Definition SEQ (pdu : bytes) : Z :=
  Z.lor (Z.lor (Z.shiftl (byte_at pdu 2) 16) (Z.shiftl (byte_at pdu 3) 8)) (byte_at pdu 4).
Definition SRC (pdu : bytes) : Z := sys_get_be16 (drop 5 pdu).
Definition DST (pdu : bytes) : Z := sys_get_be16 (drop 7 pdu).

(** The three bytes of a sequence number. *)
Definition seq_bytes (seq : Z) : bytes := [u8 (Z.shiftr seq 16); u8 (Z.shiftr seq 8); u8 seq].

Section net.
Context {cfg : MeshConfig} {hal : SecHal} {env : NetEnv}.

(** ** Encoding *)

(** Credentials of a transmission, and whether they are friendship ones. *)
Definition tx_creds (m : mesh_net) (sub : subnet) (tx : net_tx) : bool * (Z * bytes * bytes) :=
  let master := let k := sub_keys sub (sub_kr_flag sub) in (k_nid k, k_enc k, k_privacy k) in
  if CONFIG_LOW_POWER && tx_friend_cred tx then
    match friend_cred_get (friend_creds m) sub (ctx_addr (tx_ctx tx)) with
    | Ok c => (true, (cr_nid c, cr_enc c, cr_privacy c))
    | _ => (false, master)
    end
  else (false, master).

(** [buf] is the transport PDU, [tailroom] the space after it. The sequence
    number is consumed before the encryption. *)
Definition bt_mesh_net_encode (m : mesh_net) (tx : net_tx) (buf : bytes) (tailroom : Z)
    (proxy : bool) : res bytes * mesh_net * net_tx * list net_event :=
  let ctl := ctx_app_idx (tx_ctx tx) =? BT_MESH_KEY_UNUSED in
  if ctl && (tailroom <? 8) then (Err (- EINVAL), m, tx, [])
  else if tailroom <? 4 then (Err (- EINVAL), m, tx, [])
  else
    let buf := sys_put_be16 (ctx_addr (tx_ctx tx)) ++ buf in
    let buf := sys_put_be16 (tx_src tx) ++ buf in
    let buf := seq_bytes (seq_num m) ++ buf in
    let m := m <| seq_num := u24 (seq_num m + 1) |> in
    let evs := [EvSeqUpdate (seq_num m)] in
    let ttl := ctx_send_ttl (tx_ctx tx) in
    let buf := (if ctl then u8 (Z.lor ttl 0x80) else u8 ttl) :: buf in
    match subs m !! tx_sub tx with
    | None => (Undef, m, tx, evs)
    | Some sub =>
        let '(fc, (nid, enc, priv)) := tx_creds m sub tx in
        let tx := tx <| tx_friend_cred := fc |> in
        let ivi := BT_MESH_NET_IVI_TX m in
        let buf := u8 (Z.lor nid (Z.shiftl (Z.land ivi 1) 7)) :: buf in
        let r :=
          buf ← bt_mesh_net_encrypt enc buf ivi proxy;
          bt_mesh_net_obfuscate buf ivi priv in
        (r, m, tx, evs)
    end.

(** *** Sending *)

(** The events of [if (cb) { if (cb->start) ...; if (cb->end) ... }]. *)
Definition cb_events (cb : option send_cb) : list net_event :=
  match cb with
  | Some c => (if cb_start c then [EvCbStart] else []) ++ (if cb_end c then [EvCbEnd 0] else [])
  | None => []
  end.

(** The result of a successful call is the encoded PDU, left in [buf]. *)
Definition bt_mesh_net_send (m : mesh_net) (tx : net_tx) (buf : bytes) (tailroom : Z)
    (cb : option send_cb) : res bytes * mesh_net * net_tx * list net_event :=
  let tx :=
    if ctx_send_ttl (tx_ctx tx) =? BT_MESH_TTL_DEFAULT then
      tx <| tx_ctx := (tx_ctx tx) <| ctx_send_ttl := u8 default_ttl_get |> |>
    else tx in
  let '(r, m, tx, evs) := bt_mesh_net_encode m tx buf tailroom false in
  match r with
  | Err e => (Err e, m, tx, evs)
  | Undef => (Undef, m, tx, evs)
  | Ok pdu =>
      let ttl := ctx_send_ttl (tx_ctx tx) in
      let dst := ctx_addr (tx_ctx tx) in
      let to_proxy := CONFIG_GATT_PROXY && negb (ttl =? 1) in
      let evs := if to_proxy then evs ++ [EvProxy pdu dst] else evs in
      if to_proxy && proxy_relay pdu dst && BT_MESH_ADDR_IS_UNICAST dst then
        (Ok pdu, m, tx, evs ++ cb_events cb)
      else if fixed_group_match dst || elem_find dst then
        (Ok pdu, m <| local_queue := local_queue m ++ [pdu] |>, tx,
         evs ++ (match cb with Some c => if cb_start c then [EvCbStart] else [] | None => [] end)
             ++ [EvLocal pdu]
             ++ (match cb with Some c => if cb_end c then [EvCbEnd 0] else [] | None => [] end))
      else if negb (ttl =? 1) then (Ok pdu, m, tx, evs ++ [EvAdv pdu])
      else (Ok pdu, m, tx, evs)
  end.

(** [buf] is a PDU encoded before: it gets a new sequence number. *)
Definition bt_mesh_net_resend (uptime : Z) (tx_in_progress : bool) (m : mesh_net)
    (sub : subnet) (buf : bytes) (new_key : bool) : res bytes * mesh_net * list net_event :=
  let enc := k_enc (sub_keys sub new_key) in
  let priv := k_privacy (sub_keys sub new_key) in
  let ivi := BT_MESH_NET_IVI_TX m in
  match (buf ← bt_mesh_net_obfuscate buf ivi priv; bt_mesh_net_decrypt enc buf ivi false) with
  | Err e => (Err e, m, [])
  | Undef => (Undef, m, [])
  | Ok buf =>
      let buf := put_at 2 (seq_bytes (seq_num m)) buf in
      let m := m <| seq_num := u24 (seq_num m + 1) |> in
      let evs := [EvSeqUpdate (seq_num m)] in
      match (buf ← bt_mesh_net_encrypt enc buf ivi false; bt_mesh_net_obfuscate buf ivi priv) with
      | Err e => (Err e, m, evs)
      | Undef => (Undef, m, evs)
      | Ok pdu =>
          let evs := evs ++ [EvAdv pdu] in
          if negb (iv_update m) && (IV_UPDATE_SEQ_LIMIT <? seq_num m) then
            let m := m <| ivu_initiator := true |> in
            let '(_, m, t) := bt_mesh_net_iv_update uptime tx_in_progress m
                                (u32 (iv_index m + 1)) true in
            (Ok pdu, m, evs ++ [EvIvuInitiator true; EvIvuTimer t; EvSecUpdate])
          else (Ok pdu, m, evs)
      end
  end.

(** ** Decoding *)

(** The result is the decrypted PDU; the message cache and the fields
    [old_iv] and [ctx.addr] of [rx] change even when it fails. *)
Definition net_decrypt (m : mesh_net) (enc priv data : bytes) (rx : net_rx) (buf_size : nat)
    : res bytes * mesh_net * net_rx :=
  let rx := rx <| rx_old_iv := negb (IVI data =? Z.land (iv_index m) 1) |> in
  if decide (buf_size < length data)%nat then (Undef, m, rx)
  else
    match bt_mesh_net_obfuscate data (BT_MESH_NET_IVI_RX m rx) priv with
    | Undef => (Undef, m, rx)
    | Err _ => (Err (- ENOENT), m, rx)
    | Ok buf =>
        let '(dup, m) := if decide (rx_net_if rx = IF_ADV) then msg_cache_match m rx buf
                         else (false, m) in
        if dup then (Err (- EALREADY), m, rx)
        else
          let rx := rx <| rx_ctx := (rx_ctx rx) <| ctx_addr := SRC buf |> |> in
          if negb (BT_MESH_ADDR_IS_UNICAST (SRC buf)) then (Err (- EINVAL), m, rx)
          else
            let proxy := CONFIG_GATT_PROXY && bool_decide (rx_net_if rx = IF_PROXY_CFG) in
            (bt_mesh_net_decrypt enc buf (BT_MESH_NET_IVI_RX m rx) proxy, m, rx)
    end.

(** One comparison of the NID and, on a match, the attempt to decrypt. *)
Definition try_keys (m : mesh_net) (k : subnet_keys) (data : bytes) (rx : net_rx)
    (buf_size : nat) : res bytes * mesh_net * net_rx :=
  if NID data =? k_nid k then net_decrypt m (k_enc k) (k_privacy k) data rx buf_size
  else (Err (- ENOENT), m, rx).

(** The loop over the subnets, [i] being the index of the next one. *)
Fixpoint net_find_and_decrypt (ss : list subnet) (i : nat) (m : mesh_net) (data : bytes)
    (rx : net_rx) (buf_size : nat) : res bytes * mesh_net * net_rx :=
  match ss with
  | [] => (Err (- ENOENT), m, rx)
  | sub :: ss =>
      if sub_net_idx sub =? BT_MESH_KEY_UNUSED then
        net_find_and_decrypt ss (S i) m data rx buf_size
      else
        let found rx := rx <| rx_ctx := (rx_ctx rx) <| ctx_net_idx := sub_net_idx sub |> |>
                           <| rx_sub := i |> in
        match try_keys m (sub_key0 sub) data rx buf_size with
        | (Ok buf, m, rx) => (Ok buf, m, found rx)
        | (Undef, m, rx) => (Undef, m, rx)
        | (Err _, m, rx) =>
            if sub_kr_phase sub =? BT_MESH_KR_NORMAL then
              net_find_and_decrypt ss (S i) m data rx buf_size
            else
              match try_keys m (sub_key1 sub) data rx buf_size with
              | (Ok buf, m, rx) => (Ok buf, m, found (rx <| rx_new_key := true |>))
              | (Undef, m, rx) => (Undef, m, rx)
              | (Err _, m, rx) => net_find_and_decrypt ss (S i) m data rx buf_size
              end
        end
  end.

Definition bt_mesh_net_decode (m : mesh_net) (data : bytes) (nif : net_if) (rx : net_rx)
    (buf_size : nat) : res bytes * mesh_net * net_rx :=
  if decide (length data < BT_MESH_NET_MIN_PDU_LEN)%nat then (Err (- EINVAL), m, rx)
  else
    let '(dup, m) := if decide (nif = IF_ADV) then check_dup m data else (false, m) in
    if dup then (Err (- EINVAL), m, rx)
    else
      let rx := rx <| rx_net_if := nif |> in
      match net_find_and_decrypt (subs m) 0 m data rx buf_size with
      | (Err _, m, rx) => (Err (- ENOENT), m, rx)
      | (Undef, m, rx) => (Undef, m, rx)
      | (Ok buf, m, rx) =>
          let ttl := TTL buf in
          let ctx := (rx_ctx rx) <| ctx_app_idx := BT_MESH_KEY_UNUSED |>
                       <| ctx_recv_ttl := ttl |>
                       <| ctx_send_ttl := if ttl =? 0 then 0 else BT_MESH_TTL_DEFAULT |> in
          let rx := rx <| rx_ctx := ctx |> <| rx_ctl := CTL buf |> <| rx_seq := SEQ buf |>
                       <| rx_dst := DST buf |> in
          if negb (bool_decide (nif = IF_PROXY_CFG)) && (rx_dst rx =? BT_MESH_ADDR_UNASSIGNED)
          then (Err (- EBADMSG), m, rx)
          else if BT_MESH_ADDR_IS_RFU (rx_dst rx) then (Err (- EBADMSG), m, rx)
          else if negb (bool_decide (nif = IF_LOCAL)) && elem_find (ctx_addr (rx_ctx rx))
          then (Err (- EBADMSG), m, rx)
          else (Ok buf, m, rx)
      end.

(** ** Relaying *)

Definition relay_to_adv (nif : net_if) : bool :=
  match nif with
  | IF_LOCAL => true
  | IF_ADV => relay_get =? BT_MESH_RELAY_ENABLED
  | IF_PROXY => gatt_proxy_get =? BT_MESH_GATT_PROXY_ENABLED
  | IF_PROXY_CFG => false
  end.

(** [sbuf] is the decrypted PDU; the TTL is decremented in it. *)
Definition relay_pdu (m : mesh_net) (sub : subnet) (sbuf : bytes) (rx : net_rx) : res bytes :=
  let k := sub_keys sub (sub_kr_flag sub) in
  let sbuf :=
    if decide (rx_net_if rx = IF_LOCAL) then sbuf
    else put_at 1 [u8 (Z.lor (Z.land (byte_at sbuf 1) 0x80) (ctx_recv_ttl (rx_ctx rx) - 1))] sbuf in
  let buf :=
    if rx_friend_cred rx then put_at 0 [u8 (Z.lor (Z.land (byte_at sbuf 0) 0x80) (k_nid k))] sbuf
    else sbuf in
  buf ← bt_mesh_net_encrypt (k_enc k) buf (BT_MESH_NET_IVI_RX m rx) false;
  bt_mesh_net_obfuscate buf (BT_MESH_NET_IVI_RX m rx) (k_privacy k).

Definition bt_mesh_net_relay (m : mesh_net) (sbuf : bytes) (rx : net_rx) : list net_event :=
  let ttl := ctx_recv_ttl (rx_ctx rx) in
  if (if decide (rx_net_if rx = IF_LOCAL) then ttl =? 1 else ttl <=? 1) then []
  else if bool_decide (rx_net_if rx = IF_ADV) &&
          negb (relay_get =? BT_MESH_RELAY_ENABLED) &&
          negb (gatt_proxy_get =? BT_MESH_GATT_PROXY_ENABLED) then []
  else if negb adv_available then []
  else
    match subs m !! rx_sub rx with
    | None => []
    | Some sub =>
        match relay_pdu m sub sbuf rx with
        | Ok pdu =>
            let to_proxy := CONFIG_GATT_PROXY &&
              ((gatt_proxy_get =? BT_MESH_GATT_PROXY_ENABLED) ||
               bool_decide (rx_net_if rx = IF_LOCAL)) in
            let evs := if to_proxy then [EvProxy pdu (rx_dst rx)] else [] in
            if to_proxy && proxy_relay pdu (rx_dst rx) && BT_MESH_ADDR_IS_UNICAST (rx_dst rx)
            then evs
            else if relay_to_adv (rx_net_if rx) then evs ++ [EvAdv pdu] else evs
        | _ => []
        end
    end.

(** ** Receiving *)

Definition rx_init (rssi : Z) : net_rx :=
  mk_rx 0 (mk_ctx 0 0 0 0 0 false) 0 0 false false false false IF_ADV false false rssi.

(** [bt_mesh_trans_recv] is what the transport layer does with a PDU: it may
    change the state and sets [friend_match]. [provisioned] is
    [bt_mesh_is_provisioned()]; [board_29] is whether the build is for one of the
    boards (TG7100B, CH6121EVB) that drop longer PDUs. [EvProxyAddr] is
    [bt_mesh_proxy_addr_add] for the client in whose buffer the PDU is. *)
Definition bt_mesh_net_recv {St} (net : St -> mesh_net) (set_net : mesh_net -> St -> St)
    (trans_recv : St -> bytes -> net_rx -> St * net_rx * list net_event)
    (board_29 provisioned : bool) (st : St) (data : bytes) (rssi : Z) (nif : net_if)
    : option (St * list net_event) :=
  if board_29 && bool_decide (29 < length data)%nat then Some (st, [])
  else if negb provisioned then Some (st, [])
  else
    match bt_mesh_net_decode (net st) data nif (rx_init rssi) 29 with
    | (Ok buf, m, rx) =>
        let st := set_net m st in
        let add := if CONFIG_GATT_PROXY && bool_decide (nif = IF_PROXY) then [EvProxyAddr (ctx_addr (rx_ctx rx))] else [] in
        let rx := rx <| rx_local_match := fixed_group_match (rx_dst rx) || elem_find (rx_dst rx) |> in
        let '(st, rx, evs) := trans_recv st buf rx in
        let evs := add ++ evs in
        if negb (BT_MESH_ADDR_IS_UNICAST (rx_dst rx)) ||
           (negb (rx_local_match rx) && negb (rx_friend_match rx)) then
          Some (st, evs ++ bt_mesh_net_relay (net st) buf rx)
        else Some (st, evs)
    | (Err _, m, _) => Some (set_net m st, [])
    | (Undef, _, _) => None
    end.

(** *** Secure network beacons *)

Definition auth_match (keys : subnet_keys) (net_id : bytes) (flags iv : Z) (auth : bytes) : bool :=
  bool_decide (net_id = k_net_id keys) &&
  match bt_mesh_beacon_auth (k_beacon keys) flags (k_net_id keys) iv with
  | Ok net_auth => bool_decide (auth = net_auth)
  | _ => false
  end.

(** Index of the subnet and whether its new key matched. *)
Fixpoint subnet_find_from (i : nat) (ss : list subnet) (net_id : bytes) (flags iv : Z)
    (auth : bytes) : option (nat * bool) :=
  match ss with
  | [] => None
  | s :: ss =>
      if sub_net_idx s =? BT_MESH_KEY_UNUSED then subnet_find_from (S i) ss net_id flags iv auth
      else if auth_match (sub_key0 s) net_id flags iv auth then Some (i, false)
      else if sub_kr_phase s =? BT_MESH_KR_NORMAL then
        subnet_find_from (S i) ss net_id flags iv auth
      else if auth_match (sub_key1 s) net_id flags iv auth then Some (i, true)
      else subnet_find_from (S i) ss net_id flags iv auth
  end.

Definition bt_mesh_subnet_find (m : mesh_net) (net_id : bytes) (flags iv : Z) (auth : bytes)
    : option (nat * bool) := subnet_find_from 0 (subs m) net_id flags iv auth.

End net.

(** ** Well-formed keys *)

Definition keys_ok (k : subnet_keys) : Prop :=
  is_block (k_enc k) /\ is_block (k_privacy k) /\ 0 <= k_nid k < 128.

Definition net_keys_ok (m : mesh_net) : Prop :=
  Forall (fun s => keys_ok (sub_key0 s) /\ keys_ok (sub_key1 s)) (subs m).

Lemma sub_keys_ok m i sub b : net_keys_ok m -> subs m !! i = Some sub -> keys_ok (sub_keys sub b).
Proof.
  intros Hok Hs. apply (Forall_lookup_1 _ _ _ _ Hok) in Hs as [? ?]. by destruct b.
Qed.

(** ** Transmissions never reuse a nonce *)

Section tx_order.
Context {cfg : MeshConfig} {hal : SecHal} {env : NetEnv}.

(** The operations that use or change the transmission counters. *)
Inductive tx_op :=
| OpEncode (tx : net_tx) (buf : bytes) (tailroom : Z) (proxy : bool)
| OpResend (uptime : Z) (tx_in_progress : bool) (sub : subnet) (buf : bytes) (new_key : bool)
| OpIvUpdate (uptime : Z) (tx_in_progress : bool) (iv : Z) (ivu : bool).

(** The state after an operation and the IV index and sequence number it
    encrypted with, as a position. *)
Definition tx_op_step (m : mesh_net) (op : tx_op) : mesh_net * list Z :=
  match op with
  | OpEncode tx buf room proxy =>
      let '(_, m', _, evs) := bt_mesh_net_encode m tx buf room proxy in
      (m', match evs with [] => [] | _ => [tx_pos m] end)
  | OpResend up txp sub buf nk =>
      let '(_, m', evs) := bt_mesh_net_resend up txp m sub buf nk in
      (m', match evs with [] => [] | _ => [tx_pos m] end)
  | OpIvUpdate up txp iv ivu =>
      let '(_, m', _) := bt_mesh_net_iv_update up txp m iv ivu in (m', [])
  end.

Fixpoint tx_run (m : mesh_net) (ops : list tx_op) : list Z :=
  match ops with
  | [] => []
  | op :: ops => let '(m, used) := tx_op_step m op in used ++ tx_run m ops
  end.

(** No operation starts at the last sequence number, and the IV indexes
    proposed are 32-bit values. *)
Fixpoint tx_no_wrap (m : mesh_net) (ops : list tx_op) : Prop :=
  match ops with
  | [] => True
  | op :: ops =>
      seq_num m < 16777215 /\
      (match op with OpIvUpdate _ _ iv _ => 0 <= iv < 4294967296 | _ => True end) /\
      tx_no_wrap (fst (tx_op_step m op)) ops
  end.

(** Using a sequence number moves the position forward by one. *)
Lemma tx_pos_use m : iv_ok m -> seq_num m < 16777215 ->
  iv_ok (m <| seq_num := u24 (seq_num m + 1) |>) /\
  tx_pos (m <| seq_num := u24 (seq_num m + 1) |>) = tx_pos m + 1.
Proof.
  intros (Hi & Hs & Hu) Hlt. assert (u24 (seq_num m + 1) = seq_num m + 1) as -> by word_lia.
  split; [unfold iv_ok; record_simpl; split_and!; (done || lia)|].
  unfold tx_pos, BT_MESH_NET_IVI_TX. record_simpl. lia.
Qed.

Lemma iv_update_tx_pos up txp m iv ivu : iv_ok m -> 0 <= iv < 4294967296 ->
  let '(_, m', _) := bt_mesh_net_iv_update up txp m iv ivu in iv_ok m' /\ tx_pos m <= tx_pos m'.
Proof.
  intros Hok Hiv. pose proof (iv_update_changes up txp m iv ivu Hok Hiv) as H.
  destruct (bt_mesh_net_iv_update up txp m iv ivu) as [[r m'] t].
  by eapply iv_change_tx_pos.
Qed.

Lemma net_encode_state m tx buf room proxy :
  let '(_, m', _, evs) := bt_mesh_net_encode m tx buf room proxy in
  (evs = [] /\ m' = m) \/ (evs <> [] /\ m' = m <| seq_num := u24 (seq_num m + 1) |>).
Proof.
  unfold bt_mesh_net_encode. repeat (case_match; simplify_eq/=); auto.
Qed.

Lemma tx_op_step_pos m op : iv_ok m -> seq_num m < 16777215 ->
  (match op with OpIvUpdate _ _ iv _ => 0 <= iv < 4294967296 | _ => True end) ->
  let '(m', used) := tx_op_step m op in
  iv_ok m' /\ tx_pos m <= tx_pos m' /\
  (used = [] \/ used = [tx_pos m] /\ tx_pos m < tx_pos m').
Proof.
  intros Hok Hlt Hop. destruct (tx_pos_use m Hok Hlt) as [Hok1 Hpos1].
  destruct op as [tx buf room proxy|up txp sub buf nk|up txp iv ivu]; cbn [tx_op_step].
  - pose proof (net_encode_state m tx buf room proxy) as H.
    destruct (bt_mesh_net_encode m tx buf room proxy) as [[[r m'] tx'] evs].
    destruct H as [[-> ->]|[Hne ->]]; [split_and!; [done|lia|by left]|].
    destruct evs; [done|]. split_and!; [done|lia|right; split; [done|lia]].
  - unfold bt_mesh_net_resend. case_res; try (split_and!; [done|lia|by left]).
    set (m1 := m <| seq_num := u24 (seq_num m + 1) |>) in *.
    case_res; try (split_and!; [done|lia|right; split; [done|lia]]).
    case_if; [|split_and!; [done|lia|right; split; [done|lia]]].
    set (m2 := m1 <| ivu_initiator := true |>).
    assert (iv_ok m2 /\ tx_pos m2 = tx_pos m1) as [Hok2 Hpos2] by done.
    pose proof (iv_update_tx_pos up txp m2 (u32 (iv_index m2 + 1)) true Hok2) as H3.
    destruct (bt_mesh_net_iv_update up txp m2 _ true) as [[r m'] t].
    destruct H3 as [Hok3 Hpos3]; [word_lia|].
    split_and!; [done|lia|right; split; [done|lia]].
  - pose proof (iv_update_tx_pos up txp m iv ivu Hok Hop) as H.
    destruct (bt_mesh_net_iv_update up txp m iv ivu) as [[r m'] t]. destruct H as [? ?].
    split_and!; [done|lia|by left].
Qed.

End tx_order.

(** ** The header of a network PDU *)

(** Header fields as [bt_mesh_net_encode] lays them out. *)
Definition net_header (nid ivi : Z) (ctl : bool) (ttl seq src dst : Z) : bytes :=
  u8 (Z.lor nid (Z.shiftl (Z.land ivi 1) 7)) ::
  (if ctl then u8 (Z.lor ttl 0x80) else u8 ttl) ::
  seq_bytes seq ++ sys_put_be16 src ++ sys_put_be16 dst.

Lemma land_1 z : Z.land z 1 = z mod 2.
Proof. apply (Z.land_ones z 1). lia. Qed.

Lemma header_byte0 nid ivi : 0 <= nid < 128 ->
  u8 (Z.lor nid (Z.shiftl (Z.land ivi 1) 7)) = (ivi mod 2) * 128 + nid.
Proof.
  intros Hn. rewrite land_1, (lor_add_shiftl 7) by lia. word_lia.
Qed.

Lemma header_byte1 (ctl : bool) ttl : 0 <= ttl < 128 ->
  (if ctl then u8 (Z.lor ttl 0x80) else u8 ttl) = Z.b2z ctl * 128 + ttl.
Proof.
  intros Ht. destruct ctl; cbn [Z.b2z]; [|word_lia].
  change (Z.lor ttl 0x80) with (Z.lor ttl (Z.shiftl 1 7)).
  rewrite (lor_add_shiftl 7) by lia. word_lia.
Qed.

Lemma low7 b : Z.land b 0x7f = b mod 128.
Proof. apply (Z.land_ones b 7). lia. Qed.
Lemma high1 b : Z.shiftr b 7 = b / 128.
Proof. by rewrite Z.shiftr_div_pow2. Qed.

Lemma byte_fields b0 lo : 0 <= b0 <= 1 -> 0 <= lo < 128 ->
  Z.land (b0 * 128 + lo) 0x7f = lo /\ Z.shiftr (b0 * 128 + lo) 7 = b0.
Proof. intros. rewrite low7, high1. word_lia. Qed.

Lemma seq_bytes_value seq l : 0 <= seq < 16777216 ->
  Z.lor (Z.lor (Z.shiftl (u8 (Z.shiftr seq 16)) 16) (Z.shiftl (u8 (Z.shiftr seq 8)) 8)) (u8 seq)
  = seq /\ is_bytes (seq_bytes seq) /\ length (seq_bytes seq ++ l) = (3 + length l)%nat.
Proof.
  intros Hs. split; [|split; [repeat constructor; apply u8_byte|done]].
  pose proof (u8_byte (Z.shiftr seq 8)) as H8. pose proof (u8_byte seq) as H0.
  rewrite !Z.shiftr_div_pow2 in * by lia. unfold is_byte in *.
  rewrite <- Z.lor_assoc. rewrite (lor_shiftl_add 8) by lia.
  rewrite (lor_shiftl_add 16) by lia. word_lia.
Qed.

Lemma get_put_be16_cons v l : 0 <= v < 65536 ->
  sys_get_be16 (u8 (Z.shiftr v 8) :: u8 v :: l) = v.
Proof. apply (sys_get_put_be16 v l). Qed.

Section header.
Context (nid ivi : Z) (ctl : bool) (ttl seq src dst : Z).
Hypotheses (Hnid : 0 <= nid < 128) (Hivi : 0 <= ivi < 4294967296) (Httl : 0 <= ttl < 128)
  (Hseq : 0 <= seq < 16777216) (Hsrc : 0 <= src < 65536) (Hdst : 0 <= dst < 65536).
Let h := net_header nid ivi ctl ttl seq src dst.

Lemma net_header_bytes : length h = 9%nat /\ is_bytes h.
Proof.
  split; [done|]. unfold h, net_header.
  apply Forall_cons_2; [apply u8_byte|]. apply Forall_cons_2; [destruct ctl; apply u8_byte|].
  destruct (seq_bytes_value seq [] Hseq) as (_ & Hb & _).
  rewrite !is_bytes_app. split_and!; [done|apply sys_put_be16_bytes..].
Qed.

Lemma net_header_fields p :
  NID (h ++ p) = nid /\ IVI (h ++ p) = ivi mod 2 /\ CTL (h ++ p) = ctl /\ TTL (h ++ p) = ttl /\
  SEQ (h ++ p) = seq /\ SRC (h ++ p) = src /\ DST (h ++ p) = dst /\
  NET_MIC_LEN (h ++ p) = if ctl then 8%nat else 4%nat.
Proof.
  unfold NID, IVI, CTL, TTL, SEQ, SRC, DST, NET_MIC_LEN, h, net_header.
  rewrite header_byte0, header_byte1 by done.
  unfold seq_bytes, sys_put_be16. cbn [app byte_at nth drop].
  assert (0 <= ivi mod 2 <= 1) as Hm by word_lia.
  destruct (byte_fields _ _ Hm Hnid) as [-> ->].
  assert (0 <= Z.b2z ctl <= 1) as Hc by (destruct ctl; cbn; lia).
  destruct (byte_fields _ _ Hc Httl) as [-> ->].
  destruct (seq_bytes_value seq [] Hseq) as (-> & _ & _).
  rewrite !get_put_be16_cons by done. split_and!; try done; [by destruct ctl|].
  rewrite <- (header_byte1 ctl ttl Httl).
  assert (forallb (fun t => negb (Z.land (u8 (Z.lor t 0x80)) 0x80 =? 0) || (128 <=? t))
    (map Z.of_nat (List.seq 0 256)) = true) as H1 by by vm_compute.
  pose proof (forall_bytes _ H1 ttl ltac:(unfold is_byte; lia)) as H1'.
  assert (forallb (fun t => (Z.land (u8 t) 0x80 =? 0) || (128 <=? t))
    (map Z.of_nat (List.seq 0 256)) = true) as H2 by by vm_compute.
  pose proof (forall_bytes _ H2 ttl ltac:(unfold is_byte; lia)) as H2'.
  cbv beta in H1', H2'.
  destruct (Z.leb_spec 128 ttl); [lia|]. rewrite orb_false_r in H1', H2'.
  destruct ctl; [|by rewrite H2']. by rewrite (negb_true_iff _) in H1'; rewrite H1'.
Qed.
End header.

(** ** What is encoded is decoded *)

Section roundtrip.
Context {cfg : MeshConfig} {hal : SecHal} {halok : SecHalOk hal}.

(** Encryption followed by obfuscation, and back. *)
Lemma encrypt_obfuscate_ok enc priv h p ivi :
  is_block enc -> is_block priv -> is_bytes (h ++ p) -> length h = 9%nat ->
  (9 < length (h ++ p) < 60)%nat ->
  exists pdu e, bt_mesh_net_encrypt enc (h ++ p) ivi false = Ok e /\
    bt_mesh_net_obfuscate e ivi priv = Ok pdu /\
    length pdu = (length (h ++ p) + NET_MIC_LEN (h ++ p))%nat /\ is_bytes pdu /\
    byte_at pdu 0 = byte_at h 0 /\
    bt_mesh_net_obfuscate pdu ivi priv = Ok e /\ take 7 e = take 7 (h ++ p) /\
    length e = length pdu /\
    bt_mesh_net_decrypt enc e ivi false = Ok (h ++ p).
Proof.
  intros Henc Hpriv Hb Hh Hl.
  destruct (net_crypt_ok enc (h ++ p) ivi false Henc Hb) as (e & He & Hel & Heb & Ht7 & Hd);
    [lia|lia|].
  pose proof (NET_MIC_LEN_cases (h ++ p)) as Hmic.
  destruct (net_obfuscate_ok priv e ivi Hpriv Heb) as (o & Ho & Hol & Hob & Ht1 & _ & Hoo);
    [lia|].
  exists o, e. split_and!; try done; [lia|].
  assert (take 1 o = take 1 h) as H1.
  { rewrite Ht1. change 1%nat with (Nat.min 1 7). rewrite <- take_take, Ht7, take_take.
    apply take_app_le. lia. }
  unfold byte_at. destruct o as [|x o], h as [|y h]; cbn in *; try (done || lia). congruence.
Qed.

(** The PDU before encryption. *)
Definition encode_header (m : mesh_net) (tx : net_tx) (nid : Z) : bytes :=
  net_header nid (BT_MESH_NET_IVI_TX m) (ctx_app_idx (tx_ctx tx) =? BT_MESH_KEY_UNUSED)
    (ctx_send_ttl (tx_ctx tx)) (seq_num m) (tx_src tx) (ctx_addr (tx_ctx tx)).

Lemma net_encode_eq m tx buf room proxy sub fc nid enc priv :
  8 <= room -> subs m !! tx_sub tx = Some sub -> tx_creds m sub tx = (fc, (nid, enc, priv)) ->
  let m' := m <| seq_num := u24 (seq_num m + 1) |> in
  bt_mesh_net_encode m tx buf room proxy =
  (e ← bt_mesh_net_encrypt enc (encode_header m tx nid ++ buf) (BT_MESH_NET_IVI_TX m) proxy;
   bt_mesh_net_obfuscate e (BT_MESH_NET_IVI_TX m) priv,
   m', tx <| tx_friend_cred := fc |>, [EvSeqUpdate (u24 (seq_num m + 1))]).
Proof.
  intros Hroom Hs Hc. unfold bt_mesh_net_encode.
  destruct (Z.ltb_spec room 8); [lia|]. rewrite andb_false_r.
  destruct (Z.ltb_spec room 4); [lia|].
  change (subs (m <| seq_num := u24 (seq_num m + 1) |>)) with (subs m). rewrite Hs.
  assert (tx_creds (m <| seq_num := u24 (seq_num m + 1) |>) sub tx = tx_creds m sub tx) as ->
    by done.
  rewrite Hc. unfold encode_header, net_header. cbn [app]. by rewrite <- !app_assoc.
Qed.

(** A subnet whose keys do not have the NID of a PDU. *)
Definition nid_differs (nid : Z) (s : subnet) : Prop :=
  sub_net_idx s = BT_MESH_KEY_UNUSED \/
  (k_nid (sub_key0 s) <> nid /\
   (sub_kr_phase s = BT_MESH_KR_NORMAL \/ k_nid (sub_key1 s) <> nid)).

Lemma find_and_decrypt_skip {env : NetEnv} pre ss i m data rx size :
  Forall (nid_differs (NID data)) pre ->
  net_find_and_decrypt (pre ++ ss) i m data rx size =
  net_find_and_decrypt ss (i + length pre) m data rx size.
Proof.
  intros Hpre. revert i. induction Hpre as [|s pre Hs Hpre IH]; intros i.
  { cbn. f_equal. lia. }
  specialize (IH (S i)). rewrite length_cons.
  replace (S i + length pre)%nat with (i + S (length pre))%nat in IH by lia.
  rewrite <- IH. cbn [app net_find_and_decrypt].
  destruct (Z.eqb_spec (sub_net_idx s) BT_MESH_KEY_UNUSED); [done|].
  destruct Hs as [?|[Hk0 Hk1]]; [done|].
  unfold try_keys. destruct (Z.eqb_spec (NID data) (k_nid (sub_key0 s))); [congruence|].
  destruct (Z.eqb_spec (sub_kr_phase s) BT_MESH_KR_NORMAL); [done|].
  destruct (Z.eqb_spec (NID data) (k_nid (sub_key1 s))); [|done].
  by destruct Hk1 as [?|?]; congruence.
Qed.

(** The value the network message cache compares, of a header. *)
Definition net_hash (ivi seq src : Z) : Z :=
  Z.lor (u64 (Z.shiftl (Z.lor (u32 (Z.shiftl ivi 8)) (u8 (Z.shiftr seq 16))) 32))
    (sys_get_le32 ([u8 (Z.shiftr seq 8); u8 seq] ++ sys_put_be16 src)).

(** The PDU passes the two caches of a receiver. *)
Definition cache_miss (m : mesh_net) (nif : net_if) (pdu : bytes) (hash : Z) : Prop :=
  nif = IF_ADV -> existsb (Z.eqb (dup_val pdu)) (ca_vals (dup_cache m)) = false /\
                  existsb (Z.eqb hash) (ca_vals (msg_cache m)) = false.

Lemma old_iv_index m ivi : 0 <= ivi < 4294967296 ->
  iv_index m = ivi \/ iv_index m = ivi + 1 ->
  let rx_old := negb (ivi mod 2 =? Z.land (iv_index m) 1) in
  u32 (iv_index m - Z.b2z rx_old) = ivi /\ rx_old = negb (iv_index m =? ivi).
Proof.
  intros Hi Hiv. rewrite land_1. destruct Hiv as [-> | ->]; cbv zeta.
  - rewrite !Z.eqb_refl. cbn [negb Z.b2z]. split; [word_lia|done].
  - destruct (Z.eqb_spec (ivi mod 2) ((ivi + 1) mod 2)); [word_lia|].
    destruct (Z.eqb_spec (ivi + 1) ivi); [lia|]. cbn [negb Z.b2z]. split; [word_lia|done].
Qed.

Lemma find_and_decrypt_hit {env : NetEnv} m ss i sub enc priv data e plain rx size ivi :
  sub_net_idx sub <> BT_MESH_KEY_UNUSED ->
  NID data = k_nid (sub_key0 sub) -> k_enc (sub_key0 sub) = enc ->
  k_privacy (sub_key0 sub) = priv ->
  0 <= ivi < 4294967296 -> iv_index m = ivi \/ iv_index m = ivi + 1 -> IVI data = ivi mod 2 ->
  (length data <= size)%nat ->
  bt_mesh_net_obfuscate data ivi priv = Ok e -> bt_mesh_net_decrypt enc e ivi false = Ok plain ->
  BT_MESH_ADDR_IS_UNICAST (SRC e) = true -> rx_net_if rx <> IF_PROXY_CFG ->
  (rx_net_if rx = IF_ADV ->
     existsb (Z.eqb (msg_hash m (rx <| rx_old_iv := negb (iv_index m =? ivi) |>) e))
       (ca_vals (msg_cache m)) = false) ->
  exists m', net_find_and_decrypt (sub :: ss) i m data rx size =
    (Ok plain, m', rx <| rx_old_iv := negb (iv_index m =? ivi) |>
       <| rx_ctx := (rx_ctx rx) <| ctx_addr := SRC e |> <| ctx_net_idx := sub_net_idx sub |> |>
       <| rx_sub := i |>).
Proof.
  intros Hused Hnid Henc Hpriv Hivi Hiv HIVI Hlen Hobf Hdec Huni Hnif Hcache.
  cbn [net_find_and_decrypt]. destruct (Z.eqb_spec (sub_net_idx sub) BT_MESH_KEY_UNUSED);
    [done|].
  unfold try_keys. rewrite Hnid, Z.eqb_refl. unfold net_decrypt.
  destruct (old_iv_index m ivi Hivi Hiv) as [Hrx Hold].
  rewrite HIVI, Hold, Henc, Hpriv. rewrite Hold in Hrx.
  set (rx1 := rx <| rx_old_iv := negb (iv_index m =? ivi) |>) in *.
  rewrite decide_False by lia.
  assert (forall m0, iv_index m0 = iv_index m -> BT_MESH_NET_IVI_RX m0 rx1 = ivi) as HRX
    by (intros m0 Hm0; unfold BT_MESH_NET_IVI_RX; rewrite Hm0; exact Hrx).
  rewrite HRX, Hobf by done.
  assert (forall m1, iv_index m1 = iv_index m -> forall rx2, rx_old_iv rx2 = rx_old_iv rx1 ->
    BT_MESH_NET_IVI_RX m1 rx2 = ivi) as HRX2
    by (intros m1 Hm1 rx2 Hrx2; unfold BT_MESH_NET_IVI_RX; rewrite Hm1, Hrx2; exact Hrx).
  assert (CONFIG_GATT_PROXY && bool_decide (rx_net_if rx = IF_PROXY_CFG) = false) as Hproxy
    by (rewrite bool_decide_false by done; apply andb_false_r).
  destruct (decide (rx_net_if rx1 = IF_ADV)) as [Hadv|Hadv].
  - unfold msg_cache_match, cache_check. rewrite Hcache by done.
    rewrite Huni. cbn [negb]. cbv zeta.
    change (rx_net_if (rx1 <| rx_ctx := (rx_ctx rx1) <| ctx_addr := SRC e |> |>))
      with (rx_net_if rx). rewrite Hproxy.
    rewrite HRX2 by done. rewrite Hdec. eexists. done.
  - rewrite Huni. cbn [negb]. cbv zeta.
    change (rx_net_if (rx1 <| rx_ctx := (rx_ctx rx1) <| ctx_addr := SRC e |> |>))
      with (rx_net_if rx). rewrite Hproxy.
    rewrite HRX2 by done. rewrite Hdec. eexists. done.
Qed.

(** Fields read from the first seven bytes. *)
Lemma header7_fields nid ivi ctl ttl seq src dst p e m rx :
  0 <= src < 65536 -> take 7 e = take 7 (net_header nid ivi ctl ttl seq src dst ++ p) ->
  SRC e = src /\
  (BT_MESH_NET_IVI_RX m rx = ivi -> msg_hash m rx e = net_hash ivi seq src).
Proof.
  intros Hsrc Ht. rewrite <- (take_drop 7 e), Ht.
  unfold net_header, seq_bytes, sys_put_be16. cbn [app take]. split.
  - unfold SRC. cbn [drop]. by apply get_put_be16_cons.
  - intros Hrx. unfold msg_hash. rewrite Hrx. done.
Qed.

(** Messages that are long enough for the receiver's minimum and fit its
    buffer, with fields in range. *)
Record encode_args (tx : net_tx) (buf : bytes) (seq : Z) : Prop := {
  ea_bytes : is_bytes buf;
  ea_len : let mic := if ctx_app_idx (tx_ctx tx) =? BT_MESH_KEY_UNUSED then 8%nat else 4%nat in
           (18 <= 9 + length buf + mic <= 29)%nat;
  ea_ttl : 0 <= ctx_send_ttl (tx_ctx tx) < 128;
  ea_seq : 0 <= seq < 16777216;
  ea_src : BT_MESH_ADDR_IS_UNICAST (tx_src tx) = true /\ 0 <= tx_src tx < 65536;
  ea_dst : 0 < ctx_addr (tx_ctx tx) < 65536 /\
           BT_MESH_ADDR_IS_RFU (ctx_addr (tx_ctx tx)) = false
}.

(** What the receiver makes of an encoded PDU. *)
Definition decoded_rx (rx : net_rx) (tx : net_tx) (nif : net_if) (i : nat) (net_idx seq : Z)
    (old_iv : bool) : net_rx :=
  let ttl := ctx_send_ttl (tx_ctx tx) in
  rx <| rx_net_if := nif |> <| rx_old_iv := old_iv |> <| rx_sub := i |>
     <| rx_ctx := mk_ctx net_idx BT_MESH_KEY_UNUSED (tx_src tx) ttl
                    (if ttl =? 0 then 0 else BT_MESH_TTL_DEFAULT) (ctx_send_rel (rx_ctx rx)) |>
     <| rx_ctl := ctx_app_idx (tx_ctx tx) =? BT_MESH_KEY_UNUSED |>
     <| rx_seq := seq |> <| rx_dst := ctx_addr (tx_ctx tx) |>.

(** C17: a PDU encoded by a node is decoded by any node that has the subnet key
    as its current key and the sender's IV index or the next one: same payload,
    addresses, TTL, sequence number and kind of message, through any interface
    but the proxy configuration one, unless a cache has seen it, and unless an
    earlier subnet of the receiver has a key with the same NID. *)
Theorem net_decode_encode {env : NetEnv} ma tx buf room sub fc nid enc priv
    mb pre sub' post nif rx :
  8 <= room -> encode_args tx buf (seq_num ma) -> iv_ok ma ->
  subs ma !! tx_sub tx = Some sub -> tx_creds ma sub tx = (fc, (nid, enc, priv)) ->
  is_block enc -> is_block priv -> 0 <= nid < 128 ->
  subs mb = pre ++ sub' :: post -> Forall (nid_differs nid) pre ->
  sub_net_idx sub' <> BT_MESH_KEY_UNUSED ->
  k_nid (sub_key0 sub') = nid -> k_enc (sub_key0 sub') = enc ->
  k_privacy (sub_key0 sub') = priv ->
  iv_index mb = BT_MESH_NET_IVI_TX ma \/ iv_index mb = BT_MESH_NET_IVI_TX ma + 1 ->
  nif <> IF_PROXY_CFG -> nif = IF_LOCAL \/ elem_find (tx_src tx) = false ->
  exists pdu ma' tx' evs,
    bt_mesh_net_encode ma tx buf room false = (Ok pdu, ma', tx', evs) /\
    (cache_miss mb nif pdu (net_hash (BT_MESH_NET_IVI_TX ma) (seq_num ma) (tx_src tx)) ->
     exists mb', bt_mesh_net_decode mb pdu nif rx 29 =
       (Ok (encode_header ma tx nid ++ buf), mb',
        decoded_rx rx tx nif (length pre) (sub_net_idx sub') (seq_num ma)
          (negb (iv_index mb =? BT_MESH_NET_IVI_TX ma)))).
Proof.
  intros Hroom [Hbuf Hlen Httl Hseq [Huni Hsrc] [Hdst Hrfu]] Hok Hs Hcreds Henc Hpriv Hnid
    Hsubs Hpre Hused Hknid Hkenc Hkpriv Hiv Hnif Helem.
  assert (0 <= BT_MESH_NET_IVI_TX ma < 4294967296) as Hivi by (unfold BT_MESH_NET_IVI_TX; word_lia).
  rewrite (net_encode_eq ma tx buf room false sub fc nid enc priv) by done.
  unfold encode_header.
  set (ivi := BT_MESH_NET_IVI_TX ma) in *. remember (ctx_app_idx (tx_ctx tx) =? BT_MESH_KEY_UNUSED) as ctl eqn:Hctl.
  cbv zeta in Hlen. set (mic := if ctl then 8%nat else 4%nat) in *.
  assert (mic = 4 \/ mic = 8)%nat as Hmic48 by (unfold mic; destruct ctl; auto).
  set (h := net_header nid ivi ctl (ctx_send_ttl (tx_ctx tx)) (seq_num ma) (tx_src tx)
    (ctx_addr (tx_ctx tx))).
  assert (0 <= ctx_addr (tx_ctx tx) < 65536) as Hdst' by lia.
  destruct (net_header_bytes nid ivi ctl (ctx_send_ttl (tx_ctx tx)) (seq_num ma) (tx_src tx)
    (ctx_addr (tx_ctx tx)) Hseq) as [Hhl Hhb]. fold h in Hhl, Hhb.
  pose proof (net_header_fields nid ivi ctl (ctx_send_ttl (tx_ctx tx)) (seq_num ma)
    (tx_src tx) (ctx_addr (tx_ctx tx)) Hnid Hivi Httl Hseq Hsrc Hdst') as Hf.
  fold h in Hf. destruct (Hf buf) as (HNID & HIVI & HCTL & HTTL & HSEQ & HSRC & HDST & Hmic).
  destruct (encrypt_obfuscate_ok enc priv h buf ivi)
    as (pdu & e & He & Ho & Hpl & Hpb & Hb0 & Hoo & Ht7 & Hel & Hd);
    [done|done|by apply is_bytes_app|done|rewrite length_app; lia|].
  rewrite He. ok_simpl. rewrite Ho. do 4 eexists. split; [done|]. intros Hmiss.
  rewrite length_app, Hmic in Hpl. fold mic in Hpl. unfold bt_mesh_net_decode.
  rewrite decide_False by (unfold BT_MESH_NET_MIN_PDU_LEN; lia).
  assert (exists m1, (if decide (nif = IF_ADV) then check_dup mb pdu else (false, mb)) = (false, m1)
    /\ subs m1 = subs mb /\ iv_index m1 = iv_index mb /\ msg_cache m1 = msg_cache mb)
    as (m1 & -> & Hm1s & Hm1iv & Hm1c).
  { case_decide as Hadv; [|by eexists]. destruct (Hmiss Hadv) as [Hdup _].
    unfold check_dup. fold (dup_val pdu). unfold cache_check. rewrite Hdup. by eexists. }
  rewrite Hm1s, Hsubs.
  assert (NID pdu = nid /\ IVI pdu = ivi mod 2) as [HpN HpI].
  { unfold NID, IVI in *. rewrite byte_at_app_l in HNID, HIVI by lia. by rewrite Hb0. }
  rewrite find_and_decrypt_skip by by rewrite HpN.
  destruct (header7_fields nid ivi ctl (ctx_send_ttl (tx_ctx tx)) (seq_num ma) (tx_src tx)
    (ctx_addr (tx_ctx tx)) buf e m1
    ((rx <| rx_net_if := nif |>) <| rx_old_iv := negb (iv_index m1 =? ivi) |>) Hsrc Ht7)
    as [HeS Heh].
  destruct (find_and_decrypt_hit m1 post (0 + length pre) sub' enc priv pdu e (h ++ buf)
    (rx <| rx_net_if := nif |>) 29 ivi) as [m2 Hhit]; try done.
  { by rewrite HpN. }
  { by rewrite Hm1iv. }
  { lia. }
  { by rewrite HeS. }
  { intros Hadv. destruct (Hmiss Hadv) as [_ Hh]. rewrite Heh; [by rewrite Hm1c|].
    destruct (old_iv_index m1 ivi Hivi) as [H1 H2]; [by rewrite Hm1iv|].
    rewrite H2 in H1. exact H1. }
  rewrite Hhit. exists m2. rewrite HTTL, HCTL, HSEQ, HDST, HeS, Hm1iv.
  rewrite (bool_decide_false (nif = IF_PROXY_CFG)) by done. cbn [negb andb].
  cbn [update_field rx_sub rx_ctx rx_seq rx_dst rx_old_iv rx_new_key rx_friend_cred rx_ctl
    rx_net_if rx_local_match rx_friend_match rx_rssi
    ctx_net_idx ctx_app_idx ctx_addr ctx_recv_ttl ctx_send_ttl].
  destruct (Z.eqb_spec (ctx_addr (tx_ctx tx)) BT_MESH_ADDR_UNASSIGNED) as [Hz|_];
    [unfold BT_MESH_ADDR_UNASSIGNED in Hz; lia|].
  rewrite Hrfu.
  assert (negb (bool_decide (nif = IF_LOCAL)) && elem_find (tx_src tx) = false) as ->
    by (destruct Helem as [-> | ->]; [done|apply andb_false_r]).
  unfold decoded_rx. rewrite <- Hctl. by destruct rx as [? []].
Qed.
End roundtrip.

(** ** What a node accepts *)

Section sound.
Context {cfg : MeshConfig} {hal : SecHal} {halok : SecHalOk hal} {env : NetEnv}.

Lemma net_decrypt_defined key e iv proxy :
  is_block key -> is_bytes e -> (16 <= length e < 60)%nat ->
  (exists buf, bt_mesh_net_decrypt key e iv proxy = Ok buf) \/
  bt_mesh_net_decrypt key e iv proxy = Err (- EBADMSG).
Proof.
  intros Hk He Hl. unfold bt_mesh_net_decrypt.
  pose proof (NET_MIC_LEN_cases e) as Hm. rewrite decide_False by lia.
  set (n := (length e - NET_MIC_LEN e - 7)%nat).
  assert (exists c t, drop 7 e = c ++ t /\ length c = n /\ length t = NET_MIC_LEN e)
    as (c & t & Hct & Hc & Ht).
  { exists (take n (drop 7 e)), (drop n (drop 7 e)). rewrite take_drop.
    rewrite length_take, !length_drop. split_and!; [done|unfold n; lia..]. }
  assert (is_bytes (c ++ t)) as [Hcb Htb]%is_bytes_app by (rewrite <- Hct; auto with bytes).
  rewrite Hct, <- Hc. rewrite bt_mesh_ccm_decrypt_spec; [|done| |done].
  - destruct (Rfc3610.decrypt _ _ _ _ _ _); ok_simpl; [left; by eexists|by right].
  - split; [by apply net_nonce_ok|done|unfold n in *; lia
      |split; [by apply Forall_nil_2|by left]|done].
Qed.

(** [data] is the PDU that the key [k] turns into [buf]. *)
Definition decrypts (k : subnet_keys) (data : bytes) (iv : Z) (proxy : bool) (buf : bytes) : Prop :=
  NID data = k_nid k /\
  exists e, bt_mesh_net_obfuscate data iv (k_privacy k) = Ok e /\
    bt_mesh_net_decrypt (k_enc k) e iv proxy = Ok buf /\
    BT_MESH_ADDR_IS_UNICAST (SRC e) = true.

(** Only the caches differ. *)
Definition same_but_caches (m m' : mesh_net) : Prop :=
  subs m' = subs m /\ iv_index m' = iv_index m /\ iv_update m' = iv_update m /\
  seq_num m' = seq_num m /\ rpl m' = rpl m.

Lemma msg_cache_same m rx buf : same_but_caches m (snd (msg_cache_match m rx buf)).
Proof. unfold msg_cache_match. by destruct (cache_check _ _). Qed.
Lemma check_dup_same m data : same_but_caches m (snd (check_dup m data)).
Proof. unfold check_dup. by destruct (cache_check _ _). Qed.

Lemma same_but_caches_trans a b c :
  same_but_caches a b -> same_but_caches b c -> same_but_caches a c.
Proof.
  intros (? & ? & ? & ? & ?) (? & ? & ? & ? & ?). unfold same_but_caches. split_and!; congruence.
Qed.

Definition proxy_mode (nif : net_if) : bool :=
  CONFIG_GATT_PROXY && bool_decide (nif = IF_PROXY_CFG).

Lemma try_keys_sound m k data rx :
  keys_ok k -> is_bytes data -> (18 <= length data <= 29)%nat ->
  let '(r, m', rx') := try_keys m k data rx 29 in
  same_but_caches m m' /\ r <> Undef /\ rx_net_if rx' = rx_net_if rx /\
  (forall buf, r = Ok buf ->
     decrypts k data (BT_MESH_NET_IVI_RX m rx') (proxy_mode (rx_net_if rx)) buf /\
     BT_MESH_ADDR_IS_UNICAST (ctx_addr (rx_ctx rx')) = true).
Proof.
  intros (Henc & Hpriv & _) Hb Hl. unfold try_keys.
  destruct (Z.eqb_spec (NID data) (k_nid k)) as [HN|]; [|by split_and!].
  unfold net_decrypt. set (rx1 := rx <| rx_old_iv := _ |>). rewrite decide_False by lia.
  set (iv := BT_MESH_NET_IVI_RX m rx1).
  destruct (net_obfuscate_ok (k_privacy k) data iv Hpriv Hb) as (e & He & Hel & Heb & _);
    [lia|]. rewrite He.
  pose proof (msg_cache_same m rx1 e) as Hsame.
  assert (exists dup m', (if decide (rx_net_if rx1 = IF_ADV) then msg_cache_match m rx1 e
    else (false, m)) = (dup, m') /\ same_but_caches m m') as (dup & m' & -> & Hm').
  { case_decide; [|by exists false, m]. destruct (msg_cache_match m rx1 e) as [dup m'].
    by exists dup, m'. }
  destruct dup; [by split_and!|].
  destruct (BT_MESH_ADDR_IS_UNICAST (SRC e)) eqn:Huni; cbn [negb]; [|by split_and!].
  set (rx2 := rx1 <| rx_ctx := _ |>).
  assert (BT_MESH_NET_IVI_RX m' rx2 = iv) as Hiv.
  { unfold iv, BT_MESH_NET_IVI_RX. destruct Hm' as (_ & -> & _). done. }
  cbv zeta. rewrite Hiv.
  change (CONFIG_GATT_PROXY && bool_decide (rx_net_if rx2 = IF_PROXY_CFG))
    with (proxy_mode (rx_net_if rx)).
  destruct (net_decrypt_defined (k_enc k) e iv (proxy_mode (rx_net_if rx)) Henc Heb)
    as [[buf Hbuf]|Herr]; [lia| |].
  - rewrite Hbuf. split_and!; [done..|]. intros ? [= <-]. split; [|done].
    split; [done|]. by exists e.
  - rewrite Herr. by split_and!.
Qed.

(** The subnet and key that accepted a PDU. *)
Definition accepted_by (m : mesh_net) (rx : net_rx) (data : bytes) (buf : bytes) : Prop :=
  exists sub new_key, subs m !! rx_sub rx = Some sub /\
    sub_net_idx sub <> BT_MESH_KEY_UNUSED /\
    (new_key = true -> sub_kr_phase sub <> BT_MESH_KR_NORMAL) /\
    decrypts (sub_keys sub new_key) data (BT_MESH_NET_IVI_RX m rx)
      (proxy_mode (rx_net_if rx)) buf.

Lemma find_and_decrypt_sound m0 pre ss m data rx :
  subs m0 = pre ++ ss -> same_but_caches m0 m -> net_keys_ok m0 ->
  is_bytes data -> (18 <= length data <= 29)%nat ->
  let '(r, m', rx') := net_find_and_decrypt ss (length pre) m data rx 29 in
  same_but_caches m0 m' /\ r <> Undef /\ rx_net_if rx' = rx_net_if rx /\
  (forall buf, r = Ok buf -> accepted_by m0 rx' data buf /\
     BT_MESH_ADDR_IS_UNICAST (ctx_addr (rx_ctx rx')) = true).
Proof.
  intros Hsubs Hsame Hok Hb Hl. revert pre m rx Hsubs Hsame.
  induction ss as [|sub ss IH]; intros pre m rx Hsubs Hsame; [by split_and!|].
  assert (subs m0 !! length pre = Some sub) as Hsub
    by (rewrite Hsubs; by apply list_lookup_middle).
  assert (forall m rx, same_but_caches m0 m -> _) as IH' by
    (intros m1 rx1 Hs1; specialize (IH (pre ++ [sub]) m1 rx1);
     rewrite length_app, Nat.add_1_r in IH; apply IH;
     [rewrite Hsubs; by rewrite <- app_assoc|exact Hs1]).
  clear IH. cbn [net_find_and_decrypt].
  destruct (Z.eqb_spec (sub_net_idx sub) BT_MESH_KEY_UNUSED) as [|Hused]; [by apply IH'|].
  pose proof (try_keys_sound m (sub_key0 sub) data rx
    (sub_keys_ok _ _ _ false Hok Hsub) Hb Hl) as H0.
  destruct (try_keys m (sub_key0 sub) data rx 29) as [[r0 m1] rx1].
  destruct H0 as (Hs1 & Hu1 & Hif1 & Hok1).
  pose proof (same_but_caches_trans _ _ _ Hsame Hs1) as Hs01.
  destruct r0 as [buf|e|]; [|clear Hok1|done].
  { destruct (Hok1 buf eq_refl) as [Hdec Huni]. split_and!; [done|done|done|].
    intros ? [= <-]. split; [|done]. exists sub, false. split_and!; [done|done|done|].
    destruct Hsame as (_ & Hiv & _). unfold BT_MESH_NET_IVI_RX in Hdec. rewrite Hiv in Hdec.
    cbn [update_field rx_net_if]. rewrite Hif1. exact Hdec. }
  destruct (Z.eqb_spec (sub_kr_phase sub) BT_MESH_KR_NORMAL) as [|Hphase].
  { specialize (IH' m1 rx1 Hs01). by rewrite Hif1 in IH'. }
  pose proof (try_keys_sound m1 (sub_key1 sub) data rx1
    (sub_keys_ok _ _ _ true Hok Hsub) Hb Hl) as H1.
  destruct (try_keys m1 (sub_key1 sub) data rx1 29) as [[r1 m2] rx2].
  destruct H1 as (Hs2 & Hu2 & Hif2 & Hok2).
  pose proof (same_but_caches_trans _ _ _ Hs01 Hs2) as Hs02.
  destruct r1 as [buf|e1|]; [|clear Hok2|done].
  - destruct (Hok2 buf eq_refl) as [Hdec Huni]. split_and!; [done|done|transitivity (rx_net_if rx2); [done|congruence]|].
    intros ? [= <-]. split; [|done]. exists sub, true. split_and!; [done|done|done|].
    destruct Hs01 as (_ & Hiv & _). unfold BT_MESH_NET_IVI_RX in Hdec. rewrite Hiv in Hdec.
    cbn [update_field rx_net_if]. rewrite Hif2. exact Hdec.
  - specialize (IH' m2 rx2 Hs02). by rewrite Hif2, Hif1 in IH'.
Qed.

(** C18: a PDU of at most 29 bytes, the size of the receive buffer, is never
    handled with undefined behaviour. It is accepted only if a current key of
    the node, or the new key of a subnet in key refresh, has its NID and
    verifies its MIC; then the source is a unicast address and not one of the
    node's own (unless looped back), and the destination is assigned and not
    reserved. Either way only the caches change. *)
Theorem net_decode_sound m data nif rx :
  net_keys_ok m -> is_bytes data -> (length data <= 29)%nat ->
  let '(r, m', rx') := bt_mesh_net_decode m data nif rx 29 in
  same_but_caches m m' /\ r <> Undef /\
  (forall buf, r = Ok buf ->
     accepted_by m rx' data buf /\ rx_net_if rx' = nif /\
     BT_MESH_ADDR_IS_UNICAST (ctx_addr (rx_ctx rx')) = true /\
     (nif <> IF_LOCAL -> elem_find (ctx_addr (rx_ctx rx')) = false) /\
     (nif <> IF_PROXY_CFG -> rx_dst rx' <> BT_MESH_ADDR_UNASSIGNED) /\
     BT_MESH_ADDR_IS_RFU (rx_dst rx') = false /\
     rx_dst rx' = DST buf /\ rx_seq rx' = SEQ buf /\ rx_ctl rx' = CTL buf).
Proof.
  intros Hok Hb Hl. unfold bt_mesh_net_decode.
  case_decide as Hmin; [by split_and!|].
  unfold BT_MESH_NET_MIN_PDU_LEN in Hmin.
  pose proof (check_dup_same m data) as Hsame.
  assert (exists dup m1, (if decide (nif = IF_ADV) then check_dup m data else (false, m)) = (dup, m1)
    /\ same_but_caches m m1) as (dup & m1 & -> & Hm1).
  { case_decide; [|by exists false, m]. destruct (check_dup m data) as [dup m1]. by exists dup, m1. }
  destruct dup; [by split_and!|].
  assert (subs m1 = subs m) as -> by apply Hm1.
  pose proof (find_and_decrypt_sound m [] (subs m) m1 data (rx <| rx_net_if := nif |>) eq_refl
    Hm1 Hok Hb ltac:(lia)) as H. change (length (@nil subnet)) with 0%nat in H.
  destruct (net_find_and_decrypt _ _ _ _ _ _) as [[r m2] rx2].
  destruct H as (Hs2 & Hu2 & Hif & Hacc). change (rx_net_if (rx <| rx_net_if := nif |>)) with nif in Hif.
  destruct r as [buf|e|]; [|by split_and!|done].
  destruct (Hacc buf eq_refl) as [Hby Huni]. cbv zeta.
  set (rx3 := rx2 <| rx_ctx := _ |> <| rx_ctl := _ |> <| rx_seq := _ |> <| rx_dst := DST buf |>).
  assert (rx_dst rx3 = DST buf /\ rx_seq rx3 = SEQ buf /\ rx_ctl rx3 = CTL buf /\
    ctx_addr (rx_ctx rx3) = ctx_addr (rx_ctx rx2) /\ rx_net_if rx3 = nif /\
    accepted_by m rx3 data buf) as (Hdst & Hseq & Hctl & Haddr & Hif3 & Hby3)
    by (split_and!; [reflexivity..|exact Hif|exact Hby]).
  clearbody rx3. rewrite Haddr, Hdst.
  destruct (negb (bool_decide (nif = IF_PROXY_CFG)) && (DST buf =? BT_MESH_ADDR_UNASSIGNED))
    eqn:Hun; [by split_and!|].
  destruct (BT_MESH_ADDR_IS_RFU (DST buf)) eqn:Hrfu; [by split_and!|].
  destruct (negb (bool_decide (nif = IF_LOCAL)) && elem_find (ctx_addr (rx_ctx rx2))) eqn:Hel;
    [by split_and!|].
  split_and!; [done|done|]. intros ? [= <-]. rewrite Haddr, Hdst.
  split_and!; try done.
  - intros Hnl. rewrite bool_decide_false in Hel by done. exact Hel.
  - intros Hnp. rewrite bool_decide_false in Hun by done. cbn [negb andb] in Hun.
    by apply Z.eqb_neq in Hun.
Qed.
End sound.

(** ** The relay *)

Section relay.
Context {cfg : MeshConfig} {hal : SecHal} {halok : SecHalOk hal} {env : NetEnv}.

(** The PDU a relay sends on: the TTL decremented, unless the PDU is the
    node's own. *)
Definition relayed (sbuf : bytes) (rx : net_rx) : bytes :=
  if decide (rx_net_if rx = IF_LOCAL) then sbuf
  else put_at 1 [Z.b2z (CTL sbuf) * 128 + (TTL sbuf - 1)] sbuf.

Lemma relay_byte b ttl : is_byte b -> ttl = Z.land b 0x7f -> 1 <= ttl ->
  u8 (Z.lor (Z.land b 0x80) (ttl - 1)) = Z.b2z (negb (Z.shiftr b 7 =? 0)) * 128 + (ttl - 1) /\
  is_byte (u8 (Z.lor (Z.land b 0x80) (ttl - 1))).
Proof.
  intros Hb Ht H1. split; [|apply u8_byte].
  assert (forallb (fun b => let ttl := Z.land b 0x7f in
    (u8 (Z.lor (Z.land b 0x80) (ttl - 1)) =? Z.b2z (negb (Z.shiftr b 7 =? 0)) * 128 + (ttl - 1))
      || (ttl <? 1)) (map Z.of_nat (seq 0 256)) = true) as H by by vm_compute.
  pose proof (forall_bytes _ H b Hb) as Hx. cbv beta zeta in Hx. rewrite <- Ht in Hx.
  destruct (Z.ltb_spec ttl 1); [lia|]. rewrite orb_false_r in Hx. by apply Z.eqb_eq.
Qed.

Lemma put_at_1_bytes b l : is_byte b -> is_bytes l -> is_bytes (put_at 1 [b] l).
Proof.
  intros. unfold put_at. rewrite !is_bytes_app. split_and!; auto with bytes.
  by apply Forall_cons_2.
Qed.

Lemma relayed_ok sbuf rx : is_bytes sbuf -> (10 <= length sbuf)%nat ->
  ctx_recv_ttl (rx_ctx rx) = TTL sbuf -> (rx_net_if rx = IF_LOCAL \/ 2 <= TTL sbuf) ->
  is_bytes (relayed sbuf rx) /\ length (relayed sbuf rx) = length sbuf /\
  (if decide (rx_net_if rx = IF_LOCAL) then sbuf
   else put_at 1 [u8 (Z.lor (Z.land (byte_at sbuf 1) 0x80) (ctx_recv_ttl (rx_ctx rx) - 1))] sbuf)
  = relayed sbuf rx.
Proof.
  intros Hb Hl Httl Hloc. unfold relayed. case_decide as Hif; [by split_and!|].
  destruct Hloc as [|H2]; [done|]. rewrite Httl.
  destruct (relay_byte (byte_at sbuf 1) (TTL sbuf)) as [Hv Hvb];
    [by apply byte_at_is_byte|done|lia|]. fold (CTL sbuf) in Hv. rewrite <- Hv.
  split_and!; [by apply put_at_1_bytes| |done]. apply length_put_at. cbn. lia.
Qed.

(** C19: whatever the relay sends, to the advertising bearer or to a proxy
    client, comes from a PDU received with TTL at least 2 (or from the node
    itself with TTL other than 1), and decrypts, with the keys of the subnet it
    was received on and the same IV index, to the received PDU with its TTL
    decremented and nothing else changed. *)
Theorem relay_spec m sbuf rx ev pdu dst :
  net_keys_ok m -> is_bytes sbuf -> (10 <= length sbuf <= 29)%nat ->
  ctx_recv_ttl (rx_ctx rx) = TTL sbuf -> rx_friend_cred rx = false ->
  ev ∈ bt_mesh_net_relay m sbuf rx -> ev = EvAdv pdu \/ ev = EvProxy pdu dst ->
  (if decide (rx_net_if rx = IF_LOCAL) then TTL sbuf <> 1 else 2 <= TTL sbuf) /\
  exists sub e, subs m !! rx_sub rx = Some sub /\
    let k := sub_keys sub (sub_kr_flag sub) in
    bt_mesh_net_obfuscate pdu (BT_MESH_NET_IVI_RX m rx) (k_privacy k) = Ok e /\
    bt_mesh_net_decrypt (k_enc k) e (BT_MESH_NET_IVI_RX m rx) false = Ok (relayed sbuf rx).
Proof.
  intros Hok Hb Hl Httl Hfc Hin Hev. unfold bt_mesh_net_relay in Hin. rewrite Httl in Hin.
  destruct (if decide (rx_net_if rx = IF_LOCAL) then TTL sbuf =? 1 else TTL sbuf <=? 1)
    eqn:Hdrop; [by apply elem_of_nil in Hin|].
  assert (if decide (rx_net_if rx = IF_LOCAL) then TTL sbuf <> 1 else 2 <= TTL sbuf) as Ht.
  { case_decide; [by apply Z.eqb_neq|]. apply Z.leb_gt in Hdrop. lia. }
  split; [done|].
  destruct (bool_decide _ && _ && _); [by apply elem_of_nil in Hin|].
  destruct (negb adv_available); [by apply elem_of_nil in Hin|].
  destruct (subs m !! rx_sub rx) as [sub|] eqn:Hs; [|by apply elem_of_nil in Hin].
  destruct (sub_keys_ok m _ sub (sub_kr_flag sub) Hok Hs) as (Henc & Hpriv & _).
  destruct (relayed_ok sbuf rx) as (Hrb & Hrl & Hr); [done|lia|done| |].
  { case_decide; [by left|by right]. }
  unfold relay_pdu in Hin. rewrite Hfc, Hr in Hin.
  set (k := sub_keys sub (sub_kr_flag sub)) in *. set (iv := BT_MESH_NET_IVI_RX m rx) in *.
  destruct (encrypt_obfuscate_ok (k_enc k) (k_privacy k) (take 9 (relayed sbuf rx))
    (drop 9 (relayed sbuf rx)) iv) as (o & e & He & Ho & _ & _ & _ & Hoo & _ & _ & Hd);
    [done|done|by rewrite take_drop|rewrite length_take; lia|rewrite take_drop; lia|].
  rewrite take_drop in *. rewrite He in Hin. revert Hin. ok_simpl. rewrite Ho. intros Hin.
  assert (pdu = o) as ->.
  { destruct (CONFIG_GATT_PROXY && _), (proxy_relay o (rx_dst rx)),
      (BT_MESH_ADDR_IS_UNICAST (rx_dst rx)), (relay_to_adv (rx_net_if rx)); cbn [andb app] in Hin;
      repeat (apply elem_of_cons in Hin as [Hin|Hin]); try (by apply elem_of_nil in Hin);
      destruct Hev; congruence. }
  exists sub, e. split; [done|]. split; [exact Hoo|exact Hd].
Qed.
End relay.

(** ** Witnesses and counterexamples on a small network *)

Definition sample_node_keys : subnet_keys :=
  zero_keys <| k_nid := 0x68 |> <| k_enc := replicate 16 1 |> <| k_privacy := replicate 16 2 |>.
Definition sample_node_sub : subnet :=
  unused_subnet <| sub_net_idx := 0 |> <| sub_key0 := sample_node_keys |>.
Definition sample_node : mesh_net :=
  (bt_mesh_init_state 1) <| subs := [sample_node_sub] |> <| iv_index := 5 |>
    <| seq_num := 0x1234 |>.
Definition sample_env : NetEnv :=
  {| elem_find a := a =? 0x0002; fixed_group_match a := a =? 0xffff; relay_get := 1;
     gatt_proxy_get := 0; relay_retransmit_get := 0; net_transmit_get := 0;
     default_ttl_get := 7; proxy_relay _ _ := false; adv_available := true |}.
(** An unsegmented access message from 0x0001 to 0xc000. *)
Definition sample_tx : net_tx := mk_tx 0 (mk_ctx 0 0 0xc000 0 5 false) 1 0 false 0 0.
Definition sample_payload : bytes := [0x66; 1; 2; 3; 4; 5; 6; 7].
Definition sample_enc : bytes :=
  match bt_mesh_net_encode (cfg := proxy_friend_config) (hal := sw_hal) sample_node sample_tx
    sample_payload 8 false with (Ok p, _, _, _) => p | _ => [] end.

Lemma sample_node_keys_ok : net_keys_ok sample_node.
Proof.
  apply Forall_cons_2; [|by apply Forall_nil_2].
  split; unfold keys_ok, is_block; split_and!; try reflexivity; try const_bytes; cbn; lia.
Qed.
Lemma sample_node_iv_ok : iv_ok sample_node.
Proof. unfold iv_ok. cbn. split_and!; (lia || done). Qed.
Lemma sample_encode_args : encode_args sample_tx sample_payload (seq_num sample_node).
Proof. split; [const_bytes|cbn; lia|cbn; lia|cbn; lia|cbn; split; [done|lia]|cbn; split; [lia|done]]. Qed.


Lemma net_decode_encode_witness :
  exists pdu ma' tx' evs,
    bt_mesh_net_encode (cfg := proxy_friend_config) (hal := sw_hal) sample_node sample_tx
      sample_payload 8 false = (Ok pdu, ma', tx', evs) /\
    (cache_miss sample_node IF_PROXY pdu (net_hash 5 0x1234 1) ->
     exists mb', bt_mesh_net_decode (cfg := proxy_friend_config) (hal := sw_hal)
         (env := sample_env) sample_node pdu IF_PROXY (rx_init 0) 29 =
       (Ok (encode_header sample_node sample_tx 0x68 ++ sample_payload), mb',
        decoded_rx (rx_init 0) sample_tx IF_PROXY 0 0 0x1234 false)).
Proof.
  apply (net_decode_encode (cfg := proxy_friend_config) (hal := sw_hal) (env := sample_env)
    sample_node sample_tx sample_payload 8 sample_node_sub false 0x68 (replicate 16 1)
    (replicate 16 2) sample_node [] sample_node_sub [] IF_PROXY (rx_init 0)).
  - lia.
  - apply sample_encode_args.
  - apply sample_node_iv_ok.
  - reflexivity.
  - reflexivity.
  - split; [reflexivity|const_bytes].
  - split; [reflexivity|const_bytes].
  - lia.
  - reflexivity.
  - by apply Forall_nil_2.
  - done.
  - reflexivity.
  - reflexivity.
  - reflexivity.
  - by left.
  - done.
  - by right.
Defined.

Lemma net_decode_sound_witness :
  let '(r, m', rx') := bt_mesh_net_decode (cfg := proxy_friend_config) (hal := sw_hal)
    (env := sample_env) sample_node sample_enc IF_ADV (rx_init 0) 29 in
  same_but_caches sample_node m' /\ r <> Undef.
Proof.
  assert (is_bytes sample_enc /\ (length sample_enc <= 29)%nat) as [Hb Hl].
  { split; [apply (bool_decide_unpack _); vm_compute; exact I|].
    apply (bool_decide_unpack _). vm_compute. exact I. }
  pose proof (net_decode_sound (cfg := proxy_friend_config) (hal := sw_hal)
    (env := sample_env) sample_node sample_enc IF_ADV (rx_init 0) sample_node_keys_ok Hb Hl) as H.
  destruct (bt_mesh_net_decode _ _ _ _ _) as [[r m'] rx'].
  split; [apply H|apply H].
Defined.

(** A PDU from 0x0001 received with TTL 5 is relayed with TTL 4. *)
Definition sample_plain : bytes := encode_header sample_node sample_tx 0x68 ++ sample_payload.
Definition sample_rx : net_rx :=
  (rx_init 0) <| rx_ctx := mk_ctx 0 0xffff 1 5 0xff false |> <| rx_dst := 0xc000 |>.

Lemma relay_spec_witness :
  2 <= TTL sample_plain /\
  exists pdu, bt_mesh_net_relay (cfg := proxy_friend_config) (hal := sw_hal)
    (env := sample_env) sample_node sample_plain sample_rx = [EvAdv pdu].
Proof.
  assert (exists pdu, bt_mesh_net_relay (cfg := proxy_friend_config) (hal := sw_hal)
    (env := sample_env) sample_node sample_plain sample_rx = [EvAdv pdu]) as [pdu Hpdu]
    by (eexists; vm_compute; reflexivity).
  split; [|by exists pdu].
  refine (proj1 (relay_spec (cfg := proxy_friend_config) (hal := sw_hal) (env := sample_env)
    sample_node sample_plain sample_rx (EvAdv pdu) pdu 0 sample_node_keys_ok _ _ _ _ _ _)).
  - apply (bool_decide_unpack _). vm_compute. exact I.
  - vm_compute. lia.
  - reflexivity.
  - reflexivity.
  - rewrite Hpdu. by left.
  - by left.
Defined.

(** Nothing stops the 24-bit sequence number: after 0xffffff it is 0 again
    under the same IV index, and the position of the next transmission moves
    back. The limit of [bt_mesh_net_resend] does not apply to encoding. *)
Example net_encode_seq_wraps :
  let m := sample_node <| seq_num := 0xffffff |> in
  let '(r, m', _, _) := bt_mesh_net_encode (cfg := proxy_friend_config) (hal := sw_hal) m
    sample_tx sample_payload 8 false in
  seq_num m' = 0 /\ iv_index m' = iv_index m /\ iv_update m' = iv_update m.
Proof. vm_compute. split_and!; reflexivity. Qed.

(** The network message cache is filled before the MIC is checked: a copy of a
    PDU with a damaged MIC makes the node drop the genuine one. *)
Definition damaged_enc : bytes := take 17 sample_enc ++ map (Z.lxor 1) (drop 17 sample_enc).
Example damaged_copy_blocks_genuine :
  let decode m d := bt_mesh_net_decode (cfg := proxy_friend_config) (hal := sw_hal)
    (env := sample_env) m d IF_ADV (rx_init 0) 29 in
  (let '(r, _, _) := decode sample_node sample_enc in r) = Ok sample_plain /\
  (let '(_, m, _) := decode sample_node damaged_enc in
   let '(r, _, _) := decode m sample_enc in r) = Err (- ENOENT).
Proof. vm_compute. split; reflexivity. Qed.
