(* ===== verification/TransState.v ===== *)
(** * State and interfaces of the transport layer (bt_mesh/src/transport.c)

    The contexts of segmented transmissions and receptions, what the layer
    asks of the other components ([TransEnv]) and what it tells them
    ([trans_event]). *)

From S2P Require Import Prelude NetBuf Cmac Ccm MeshCrypto NetState NetIv Net.

(** ** Constants (transport.h, transport.c, mesh_config.h) *)

Definition CONFIG_BT_MESH_ADV_BUF_COUNT : nat := 12.
Definition CONFIG_BT_MESH_TX_SEG_MSG_COUNT : nat := 6.
Definition CONFIG_BT_MESH_RX_SEG_MSG_COUNT : nat := 4.
Definition CONFIG_BT_MESH_RX_SDU_MAX : nat := 384.
Definition BT_MESH_TX_SEG_COUNT : nat := CONFIG_BT_MESH_ADV_BUF_COUNT - 3.
Definition BT_MESH_TX_SDU_MAX : nat := BT_MESH_TX_SEG_COUNT * 12.

Definition TRANS_CTL_OP_ACK : Z := 0x00.
Definition TRANS_CTL_OP_FRIEND_POLL : Z := 0x01.
Definition TRANS_CTL_OP_FRIEND_UPDATE : Z := 0x02.
Definition TRANS_CTL_OP_FRIEND_REQ : Z := 0x03.
Definition TRANS_CTL_OP_FRIEND_OFFER : Z := 0x04.
Definition TRANS_CTL_OP_FRIEND_CLEAR : Z := 0x05.
Definition TRANS_CTL_OP_FRIEND_CLEAR_CFM : Z := 0x06.
Definition TRANS_CTL_OP_FRIEND_SUB_ADD : Z := 0x07.
Definition TRANS_CTL_OP_FRIEND_SUB_REM : Z := 0x08.
Definition TRANS_CTL_OP_FRIEND_SUB_CFM : Z := 0x09.
Definition TRANS_CTL_OP_HEARTBEAT : Z := 0x0a.

Definition SEG_RETRANSMIT_TIMEOUT : Z := 400.
Definition SEG_RETRANSMIT_ATTEMPTS : Z := 1.
Definition BT_MESH_ADV_DATA_SIZE : nat := 29.
Definition TRANS_SEQ_AUTH_NVAL : Z := 0xffffffffffffffff.

(** Bit fields of the transport header. *)
Definition SEG (data : bytes) : Z := Z.shiftr (byte_at data 0) 7.
Definition AKF (hdr : Z) : Z := Z.land (Z.shiftr hdr 6) 0x01.
Definition AID (hdr : Z) : Z := Z.land hdr 0x3f.
Definition ASZMIC (data : bytes) : Z := Z.land (Z.shiftr (byte_at data 1) 7) 1.
Definition UNSEG_HDR (akf aid : Z) : Z := Z.lor (Z.shiftl akf 6) (Z.land aid 0x3f).
Definition SEG_HDR (akf aid : Z) : Z := Z.lor (UNSEG_HDR akf aid) 0x80.
Definition TRANS_CTL_HDR (op seg : Z) : Z := Z.lor (Z.land op 0x7f) (Z.shiftl seg 7).
Definition TRANS_CTL_OP (hdr : Z) : Z := Z.land hdr 0x7f.

Definition BLOCK_COMPLETE (seg_n : Z) : Z := u32 (Z.shiftl 1 (seg_n + 1) - 1).
Definition SEQ_AUTH (iv seq : Z) : Z := Z.lor (u64 (Z.shiftl iv 24)) seq.
Definition MESH_BIT (n : Z) : Z := Z.shiftl 1 n.

(** ** Contexts *)

(** A segment kept for retransmission: the encoded network PDU and the number
    of attempts left. *)
Record seg_buf := mk_seg_buf { sg_pdu : bytes; sg_attempts : Z }.

(** [struct seg_tx]; [tx_cb] is the caller's callback structure. *)
Record seg_tx := mk_seg_tx {
  st_sub : option nat;
  st_seg : list (option seg_buf);
  st_seq_auth : Z;
  st_dst : Z;
  st_seg_n : Z;
  st_new_key : bool;
  st_nack_count : Z;
  st_cb : option send_cb
}.
#[export] Instance seg_tx_settable : Settable seg_tx.
Proof.
  settable (fun t => mk_seg_tx (st_sub t) (st_seg t) (st_seq_auth t) (st_dst t) (st_seg_n t)
    (st_new_key t) (st_nack_count t) (st_cb t)).
Defined.

Definition seg_tx_init : seg_tx :=
  mk_seg_tx None (replicate BT_MESH_TX_SEG_COUNT None) 0 0 0 false 0 None.

(** [struct seg_rx]; [sr_buf_len] is [buf.len], and the buffer's data always
    starts at [buf_data]; [sr_ack_pending] says that the ack timer runs. *)
Record seg_rx := mk_seg_rx {
  sr_sub : nat;
  sr_seq_auth : Z;
  sr_seg_n : Z;
  sr_ctl : bool;
  sr_in_use : bool;
  sr_obo : bool;
  sr_hdr : Z;
  sr_ttl : Z;
  sr_src : Z;
  sr_dst : Z;
  sr_block : Z;
  sr_last : Z;
  sr_ack_pending : bool;
  sr_buf_len : nat;
  sr_buf_data : bytes
}.
#[export] Instance seg_rx_settable : Settable seg_rx.
Proof.
  settable (fun r => mk_seg_rx (sr_sub r) (sr_seq_auth r) (sr_seg_n r) (sr_ctl r)
    (sr_in_use r) (sr_obo r) (sr_hdr r) (sr_ttl r) (sr_src r) (sr_dst r) (sr_block r)
    (sr_last r) (sr_ack_pending r) (sr_buf_len r) (sr_buf_data r)).
Defined.

Definition seg_rx_init : seg_rx :=
  mk_seg_rx 0 0 0 false false false 0 0 0 0 0 0 false 0
    (replicate CONFIG_BT_MESH_RX_SDU_MAX 0).

(** [enum bt_mesh_friend_pdu_type]. *)
Inductive friend_pdu_type := PDU_SINGLE | PDU_PARTIAL | PDU_COMPLETE.

(** The static data of transport.c and the network context it works on. *)
Record trans := mk_trans {
  t_net : mesh_net;
  t_seg_tx : list seg_tx;
  t_seg_rx : list seg_rx;
  t_hb_sub_dst : Z
}.
#[export] Instance trans_settable : Settable trans.
Proof. settable (fun t => mk_trans (t_net t) (t_seg_tx t) (t_seg_rx t) (t_hb_sub_dst t)). Defined.

Definition trans_init_state (m : mesh_net) : trans :=
  mk_trans m (replicate CONFIG_BT_MESH_TX_SEG_MSG_COUNT seg_tx_init)
    (replicate CONFIG_BT_MESH_RX_SEG_MSG_COUNT seg_rx_init) 0.

(** ** The other components *)

Inductive trans_event :=
| TNet (e : net_event)
| TModelRecv (rx : net_rx) (sdu : bytes)
| THeartbeat (src dst hops feat : Z)
| TFriendTx (t : friend_pdu_type) (seq_auth : option Z) (pdu : bytes)
| TFriendRx (t : friend_pdu_type) (seq_auth : option Z) (rx : net_rx) (pdu : bytes)
| TFriendCtl (op : Z) (data : bytes)
| TFriendClearIncomplete (src dst seq_auth : Z)
| TLpnCtl (op : Z) (data : bytes)
| TLpnPoll
| TLpnMsgReceived
| TRetransmitCancel (i : nat)
| TRetransmitSubmit (i : nat) (timeout : Z)
| TSegTxStart (i : nat) (duration err : Z)
| TSegTxEnd (i : nat) (err : Z)
| TAckSubmit (i : nat) (timeout : Z)
| TAckCancel (i : nat).

(** The functions of transport.c. *)
Abbreviation T := (stm trans trans_event).

(** The answers of friend.c, lpn.c, adv.c and access.c, as they are during one
    call. Handlers that may call back into the stack are computations on the
    state of this layer. *)
Class TransEnv := {
  (** [k_uptime_get()], constant during one call. *)
  now : Z;
  primary_addr : Z;
  (** [bt_mesh_adv_create] succeeds for the [i]th buffer of a call. *)
  adv_ok : nat -> bool;
  (** [BT_MESH_ADV(seg)->busy]: segment [j] of context [i] is being advertised. *)
  adv_busy : nat -> nat -> bool;
  label_uuid_get : Z -> option bytes;
  (** [bt_mesh_model_recv]: the models' handlers. *)
  model_recv : net_rx -> bytes -> T unit;
  friend_match : Z -> Z -> bool;
  friend_enqueue_tx : net_tx -> friend_pdu_type -> option Z -> bytes -> bool;
  (** The handlers of friend and LPN control messages, by opcode. *)
  friend_ctl : Z -> net_rx -> bytes -> T Z;
  lpn_ctl : Z -> net_rx -> bytes -> T Z;
  (** [bt_mesh.lpn.frnd]. *)
  lpn_frnd : Z;
  lpn_established : bool;
  lpn_waiting_update : bool;
  lpn_clear_ongoing : bool;
  (** [bt_mesh_lpn_timer() || (bt_mesh_lpn_established() &&
      bt_mesh_lpn_waiting_update())] once a PDU is processed. *)
  lpn_notify : bool
}.

Definition get_net : T mesh_net := s <- stm_get ;; mret (t_net s).
Definition set_net (m : mesh_net) : T unit := stm_modify (fun s => s <| t_net := m |>).
Definition get_tx (i : nat) : T seg_tx := s <- stm_get ;; stm_of_option (t_seg_tx s !! i).
Definition mod_tx (i : nat) (f : seg_tx -> seg_tx) : T unit :=
  stm_modify (fun s => s <| t_seg_tx := alter f i (t_seg_tx s) |>).
Definition get_rx (i : nat) : T seg_rx := s <- stm_get ;; stm_of_option (t_seg_rx s !! i).
Definition mod_rx (i : nat) (f : seg_rx -> seg_rx) : T unit :=
  stm_modify (fun s => s <| t_seg_rx := alter f i (t_seg_rx s) |>).
