(* ===== verification/TransTx.v ===== *)
(** * Sending through the transport layer (bt_mesh/src/transport.c)

    Unsegmented and segmented transmission, retransmission and
    acknowledgements. A function returns the C function's result ([0] or a
    negative [errno]) and, where it changes the caller's [bt_mesh_net_tx], the
    new value of it. *)

From S2P Require Import Prelude NetBuf Cmac Ccm MeshCrypto NetState NetIv Net TransState.

Section transport.
Context {cfg : MeshConfig} {hal : SecHal} {env : NetEnv} {tenv : TransEnv}.

(** ** Buffers and calls to net.c *)

(** A network buffer holds 29 bytes, 9 of them reserved for the header. *)
Definition pdu_fits (pdu : bytes) : bool :=
  bool_decide (BT_MESH_NET_HDR_LEN + length pdu <= BT_MESH_ADV_DATA_SIZE)%nat.
Definition pdu_tailroom (pdu : bytes) : Z :=
  Z.of_nat BT_MESH_ADV_DATA_SIZE - Z.of_nat BT_MESH_NET_HDR_LEN - Z.of_nat (length pdu).

Fixpoint run_events (f : net_event -> T unit) (evs : list net_event) : T unit :=
  match evs with
  | [] => mret tt
  | e :: evs => f e ;; run_events f evs
  end.
Definition net_emit (e : net_event) : T unit := stm_emit [TNet e].

(** [bt_mesh_net_send] on a buffer that holds [pdu]; [on_event] says what the
    callbacks do. *)
Definition net_send (tx : net_tx) (pdu : bytes) (cb : option send_cb)
    (on_event : net_event -> T unit) : T (res bytes * net_tx) :=
  if negb (pdu_fits pdu) then stm_undef
  else
    m <- get_net ;;
    let '(r, m, tx, evs) := bt_mesh_net_send m tx pdu (pdu_tailroom pdu) cb in
    set_net m ;; run_events on_event evs ;;
    match r with Undef => stm_undef | _ => mret (r, tx) end.

Definition res_code {A} (r : res A) : Z := match r with Err e => e | _ => 0 end.

(** [bt_mesh_friend_enqueue_tx(...) && BT_MESH_ADDR_IS_UNICAST(dst)]. *)
Definition friend_only (tx : net_tx) (t : friend_pdu_type) (seq_auth : option Z)
    (pdu : bytes) : T bool :=
  if CONFIG_FRIEND && friend_enqueue_tx tx t seq_auth pdu then
    stm_emit [TFriendTx t seq_auth pdu] ;; mret (BT_MESH_ADDR_IS_UNICAST (ctx_addr (tx_ctx tx)))
  else mret false.

(** ** Unsegmented messages *)

Definition send_unseg (tx : net_tx) (sdu : bytes) (cb : option send_cb) : T (Z * net_tx) :=
  if negb (adv_ok 0) then mret (- ENOBUFS, tx)
  else
    let hdr := if ctx_app_idx (tx_ctx tx) =? BT_MESH_KEY_DEV then UNSEG_HDR 0 0
               else UNSEG_HDR 1 (tx_aid tx) in
    let pdu := u8 hdr :: sdu in
    fq <- friend_only tx PDU_SINGLE None pdu ;;
    if fq then mret (0, tx)
    else
      r <- net_send tx pdu cb net_emit ;;
      let '(r, tx) := r in
      mret (res_code r, tx).

(** ** Contexts of segmented transmissions *)

Definition st_busy (t : seg_tx) : bool := negb (st_nack_count t =? 0).
Definition bt_mesh_tx_in_progress (s : trans) : bool := existsb st_busy (t_seg_tx s).

(** [bt_mesh_net_iv_update] called from this layer. *)
Definition net_iv_update (iv : Z) (ivu : bool) : T bool :=
  s <- stm_get ;;
  let '(b, m, t) := bt_mesh_net_iv_update now (bt_mesh_tx_in_progress s) (t_net s) iv ivu in
  set_net m ;; net_emit (EvIvuTimer t) ;; mret b.

Definition set_seg (j : nat) (sg : option seg_buf) (t : seg_tx) : seg_tx :=
  t <| st_seg := <[j := sg]> (st_seg t) |>.

Definition seg_tx_clear (t : seg_tx) : seg_tx :=
  t <| st_cb := None |> <| st_seq_auth := 0 |> <| st_sub := None |>
    <| st_dst := BT_MESH_ADDR_UNASSIGNED |>.

(** Frees the segments [0 .. seg_n]. *)
Definition seg_tx_free (t : seg_tx) : seg_tx :=
  let n := Z.to_nat (st_seg_n t + 1) in
  t <| st_seg := replicate n None ++ drop n (st_seg t) |> <| st_nack_count := 0 |>.

Definition seg_tx_reset (i : nat) : T unit :=
  stm_emit [TRetransmitCancel i] ;;
  mod_tx i seg_tx_clear ;;
  t <- get_tx i ;;
  if negb (st_busy t) then mret tt
  else if decide (length (st_seg t) < Z.to_nat (st_seg_n t + 1))%nat then stm_undef
  else
    mod_tx i seg_tx_free ;;
    m <- get_net ;;
    if pending_update m then
      set_net (m <| pending_update := false |>) ;;
      b <- net_iv_update (iv_index m) false ;;
      if b then net_emit EvSecUpdate else mret tt
    else mret tt.

Definition seg_tx_complete (i : nat) (err : Z) : T unit :=
  t <- get_tx i ;;
  match st_cb t with
  | Some c => if cb_end c then stm_emit [TSegTxEnd i err] else mret tt
  | None => mret tt
  end ;;
  seg_tx_reset i.

Definition seg_send_start (i : nat) (duration err : Z) : T unit :=
  t <- get_tx i ;;
  match st_cb t with
  | Some c => if cb_start c then stm_emit [TSegTxStart i duration err] else mret tt
  | None => mret tt
  end.

Definition seg_sent (i : nat) : T unit := stm_emit [TRetransmitSubmit i SEG_RETRANSMIT_TIMEOUT].

Definition first_sent_cb : send_cb := {| cb_start := true; cb_end := true |}.
Definition seg_sent_cb : send_cb := {| cb_start := false; cb_end := true |}.

(** What the callbacks above do when net.c calls them at once. *)
Definition seg_event (i : nat) (e : net_event) : T unit :=
  match e with
  | EvCbStart => seg_send_start i 0 0
  | EvCbEnd _ => seg_sent i
  | e => net_emit e
  end.

(** [bt_mesh_net_resend] of a segment. *)
Definition net_resend (sub : option nat) (pdu : bytes) (new_key : bool) : T (res bytes) :=
  s <- stm_get ;;
  sub <- stm_of_option (k ← sub; subs (t_net s) !! k) ;;
  let '(r, m, evs) := bt_mesh_net_resend now (bt_mesh_tx_in_progress s) (t_net s) sub pdu new_key in
  set_net m ;; run_events net_emit evs ;;
  match r with Undef => stm_undef | _ => mret r end.

(** The loop over the segments [j .. j + n - 1]. *)
Fixpoint send_unacked_from (i j n : nat) : T unit :=
  match n with
  | O => mret tt
  | S n =>
      t <- get_tx i ;;
      seg <- stm_of_option (st_seg t !! j) ;;
      match seg with
      | None => send_unacked_from i (S j) n
      | Some sg =>
          if adv_busy i j then send_unacked_from i (S j) n
          else
            let left := u8 (sg_attempts sg - 1) in
            mod_tx i (set_seg j (Some (mk_seg_buf (sg_pdu sg) left))) ;;
            if sg_attempts sg =? 0 then seg_tx_complete i (- ETIMEDOUT)
            else
              r <- net_resend (st_sub t) (sg_pdu sg) (st_new_key t) ;;
              match r with
              | Ok pdu =>
                  mod_tx i (set_seg j (Some (mk_seg_buf pdu left))) ;;
                  send_unacked_from i (S j) n
              | _ => seg_tx_complete i (- EIO)
              end
      end
  end.

Definition seg_tx_send_unacked (i : nat) : T unit :=
  t <- get_tx i ;; send_unacked_from i 0 (Z.to_nat (st_seg_n t + 1)).

(** The retransmission timer. *)
Definition seg_retransmit (i : nat) : T unit := seg_tx_send_unacked i.

(** ** Segmented messages *)

(** The transport PDU of segment [seg_o]. *)
Definition seg_pdu (hdr aszmic seq_zero seg_o seg_n : Z) (payload : bytes) : bytes :=
  [u8 hdr;
   u8 (Z.lor (Z.shiftl aszmic 7) (Z.shiftr seq_zero 6));
   u8 (Z.lor (Z.shiftl (Z.land seq_zero 0x3f) 2) (Z.shiftr seg_o 3));
   u8 (Z.lor (Z.shiftl (Z.land seg_o 0x07) 5) seg_n)] ++ payload.

(** The loop over the segments; [n] bounds the iterations. The result is
    [Some err] when the function returns inside the loop. *)
Fixpoint send_segs (n i : nat) (seg_o hdr seq_zero : Z) (tx : net_tx) (sdu : bytes)
    : T (option Z * net_tx) :=
  match sdu, n with
  | [], _ => mret (None, tx)
  | _, O => stm_undef
  | _, S n =>
      if negb (adv_ok (Z.to_nat seg_o)) then
        seg_tx_reset i ;; mret (Some (- ENOBUFS), tx)
      else
        t <- get_tx i ;;
        let len := Nat.min (length sdu) 12 in
        let pdu := seg_pdu hdr (tx_aszmic tx) seq_zero seg_o (st_seg_n t) (take len sdu) in
        let sdu := drop len sdu in
        let j := Z.to_nat seg_o in
        stm_of_option (st_seg t !! j) ;;
        mod_tx i (set_seg j (Some (mk_seg_buf pdu SEG_RETRANSMIT_ATTEMPTS))) ;;
        let type := if seg_o =? st_seg_n t then PDU_COMPLETE else PDU_PARTIAL in
        fq <- friend_only tx type (Some (st_seq_auth t)) pdu ;;
        if fq then mret (Some 0, tx)
        else
          r <- net_send tx pdu (Some (if seg_o =? 0 then first_sent_cb else seg_sent_cb))
               (seg_event i) ;;
          let '(r, tx) := r in
          match r with
          | Ok enc =>
              mod_tx i (set_seg j (Some (mk_seg_buf enc SEG_RETRANSMIT_ATTEMPTS))) ;;
              send_segs n i (u8 (seg_o + 1)) hdr seq_zero tx sdu
          | r => seg_tx_reset i ;; mret (Some (res_code r), tx)
          end
  end.

(** The context of a new message of [len] bytes. *)
Definition seg_tx_start (m : mesh_net) (tx : net_tx) (kr_flag : bool) (len : nat)
    (cb : option send_cb) (t : seg_tx) : seg_tx :=
  let seg_n := Z.land ((Z.of_nat len - 1) / 12) 0x1f in
  t <| st_dst := ctx_addr (tx_ctx tx) |>
    <| st_seg_n := seg_n |>
    <| st_nack_count := seg_n + 1 |>
    <| st_seq_auth := SEQ_AUTH (BT_MESH_NET_IVI_TX m) (seq_num m) |>
    <| st_sub := Some (tx_sub tx) |>
    <| st_new_key := kr_flag |>
    <| st_cb := cb |>.

Definition send_seg (tx : net_tx) (sdu : bytes) (cb : option send_cb) : T (Z * net_tx) :=
  if decide (length sdu < 1)%nat then mret (- EINVAL, tx)
  else if decide (BT_MESH_TX_SDU_MAX < length sdu)%nat then mret (- EMSGSIZE, tx)
  else
    s <- stm_get ;;
    match find_index (fun t => negb (st_busy t)) (t_seg_tx s) with
    | None => mret (- EBUSY, tx)
    | Some i =>
        let hdr := if ctx_app_idx (tx_ctx tx) =? BT_MESH_KEY_DEV then SEG_HDR 0 0
                   else SEG_HDR 1 (tx_aid tx) in
        sub <- stm_of_option (subs (t_net s) !! tx_sub tx) ;;
        mod_tx i (seg_tx_start (t_net s) tx (sub_kr_flag sub) (length sdu) cb) ;;
        t <- get_tx i ;;
        let seq_zero := Z.land (st_seq_auth t) 0x1fff in
        r <- send_segs (length sdu) i 0 hdr seq_zero tx sdu ;;
          let '(r, tx) := r in
        match r with
        | Some err => mret (err, tx)
        | None =>
            (if lpn_established then stm_emit [TLpnPoll] else mret tt) ;;
            mret (0, tx)
        end
    end.

(** ** Access payloads *)

Definition bt_mesh_app_key_find (m : mesh_net) (app_idx : Z) : option app_key :=
  List.find (fun k => negb (app_net_idx k =? BT_MESH_KEY_UNUSED) && (app_app_idx k =? app_idx))
    (app_keys m).

(** Test support (CONFIG_BT_MESH_BQB). *)
Definition bt_mesh_app_key_set_manual (m : mesh_net) (net_idx app_idx : Z) (key_val : bytes)
    (aid : Z) : mesh_net :=
  if Z.of_nat (length (app_keys m)) <=? app_idx then m
  else
    m <| app_keys := alter (fun k => k <| app_net_idx := net_idx |> <| app_app_idx := app_idx |>
                                       <| app_updated := false |> <| app_key0 := (aid, key_val) |>)
                       (Z.to_nat app_idx) (app_keys m) |>.

(** The key and its identifier. *)
Definition trans_key (m : mesh_net) (sub : subnet) (app_idx : Z) : option (Z * bytes) :=
  if app_idx =? BT_MESH_KEY_DEV then Some (0, dev_key m)
  else
    k ← bt_mesh_app_key_find m app_idx;
    Some (if (sub_kr_phase sub =? BT_MESH_KR_PHASE_2) && app_updated k then app_key1 k
          else app_key0 k).

(** [tailroom] is the space after [msg] in its buffer. *)
Definition bt_mesh_trans_send (tx : net_tx) (msg : bytes) (tailroom : Z)
    (cb : option send_cb) : T (Z * net_tx) :=
  if tailroom <? 4 then mret (- EINVAL, tx)
  else
    let tx := if decide (11 < length msg)%nat
              then tx <| tx_ctx := (tx_ctx tx) <| ctx_send_rel := true |> |> else tx in
    let ctx := tx_ctx tx in
    m <- get_net ;;
    sub <- stm_of_option (subs m !! tx_sub tx) ;;
    match trans_key m sub (ctx_app_idx ctx) with
    | None => mret (- EINVAL, tx)
    | Some (aid, key) =>
        let aszmic := if negb (ctx_send_rel ctx) || (tailroom <? 8) then 0 else 1 in
        let tx := tx <| tx_aid := aid |> <| tx_aszmic := aszmic |> in
        let ad := if BT_MESH_ADDR_IS_VIRTUAL (ctx_addr ctx) then label_uuid_get (ctx_addr ctx)
                  else None in
        match bt_mesh_app_encrypt key (ctx_app_idx ctx =? BT_MESH_KEY_DEV) aszmic msg ad
                (tx_src tx) (ctx_addr ctx) (seq_num m) (BT_MESH_NET_IVI_TX m) with
        | Undef => stm_undef
        | Err e => mret (e, tx)
        | Ok msg => if ctx_send_rel ctx then send_seg tx msg cb else send_unseg tx msg cb
        end
    end.

(** [msg] is encrypted already. *)
Definition bt_mesh_trans_resend (tx : net_tx) (msg : bytes) (cb : option send_cb)
    : T (Z * net_tx) :=
  if ctx_send_rel (tx_ctx tx) || bool_decide (15 < length msg)%nat then send_seg tx msg cb
  else send_unseg tx msg cb.

Definition bt_mesh_ctl_send (tx : net_tx) (ctl_op : Z) (data : bytes) (seq_auth : option Z)
    (cb : option send_cb) : T (Z * net_tx) :=
  if negb (adv_ok 0) then mret (- ENOBUFS, tx)
  else
    let pdu := u8 (TRANS_CTL_HDR ctl_op 0) :: data in
    fq <- friend_only tx PDU_SINGLE seq_auth pdu ;;
    if fq then mret (0, tx)
    else
      r <- net_send tx pdu cb net_emit ;;
      let '(r, tx) := r in
      mret (res_code r, tx).

(** ** Acknowledgements *)

(** The loop of [find_msb_set], [n] bounding its iterations; the result is
    [32 - count]. *)
Fixpoint msb_loop (n : nat) (data count mask : Z) : option Z :=
  if negb (Z.land data mask =? 0) then Some (32 - count)
  else match n with
       | O => None
       | S n => msb_loop n data (u32 (count + 1)) (Z.shiftr mask 1)
       end.
Definition find_msb_set (data : Z) : option Z :=
  if data =? 0 then Some 0 else msb_loop 32 data 0 0x80000000.

Fixpoint lsb_loop (n : nat) (data count mask : Z) : option Z :=
  if negb (Z.land data mask =? 0) then Some count
  else match n with
       | O => None
       | S n => lsb_loop n data (u32 (count + 1)) (u32 (Z.shiftl mask 1))
       end.
Definition find_lsb_set (data : Z) : option Z :=
  if data =? 0 then Some 0 else lsb_loop 32 data 1 1.

(** The context an acknowledgement is for; an acknowledgement on behalf of a
    low power node may come from another address. *)
Definition seg_tx_match (seq_zero : Z) (obo : bool) (addr : Z) (t : seg_tx) : bool :=
  (Z.land (st_seq_auth t) 0x1fff =? seq_zero) &&
  ((st_dst t =? addr) || (obo && (st_nack_count t =? st_seg_n t + 1))).

Definition seg_tx_lookup (seq_zero : Z) (obo : bool) (addr : Z) : T (option nat) :=
  s <- stm_get ;;
  match find_index (seg_tx_match seq_zero obo addr) (t_seg_tx s) with
  | None => mret None
  | Some i => mod_tx i (fun t => t <| st_dst := addr |>) ;; mret (Some i)
  end.

(** The loop over the bits of an acknowledgement. *)
Fixpoint ack_segs (n i : nat) (ack : Z) : T unit :=
  bit <- stm_of_option (find_lsb_set ack) ;;
  if bit =? 0 then mret tt
  else
    match n with
    | O => stm_undef
    | S n =>
        t <- get_tx i ;;
        let j := Z.to_nat (bit - 1) in
        seg <- stm_of_option (st_seg t !! j) ;;
        match seg with
        | Some _ => mod_tx i (fun t => set_seg j None t
                                <| st_nack_count := u8 (st_nack_count t - 1) |>)
        | None => mret tt
        end ;;
        ack_segs n i (Z.ldiff ack (MESH_BIT (bit - 1)))
    end.

(** [seq_auth] is the value of [*seq_auth]; the second result its new value. *)
Definition trans_ack (rx : net_rx) (buf : bytes) (seq_auth : Z) : T (Z * Z) :=
  if decide (length buf < 6)%nat then mret (- EINVAL, seq_auth)
  else
    let w := sys_get_be16 buf in
    let obo := negb (Z.shiftr w 15 =? 0) in
    let seq_zero := Z.land (Z.shiftr w 2) 0x1fff in
    m <- get_net ;;
    if CONFIG_FRIEND && rx_friend_match rx then
      mret (0, SEQ_AUTH (BT_MESH_NET_IVI_RX m rx) seq_zero)
    else
      let ack := sys_get_be32 (drop 2 buf) in
      found <- seg_tx_lookup seq_zero obo (ctx_addr (rx_ctx rx)) ;;
      match found with
      | None => mret (- EINVAL, seq_auth)
      | Some i =>
          t <- get_tx i ;;
          let seq_auth := st_seq_auth t in
          if ack =? 0 then seg_tx_complete i (- ECANCELED) ;; mret (0, seq_auth)
          else
            msb <- stm_of_option (find_msb_set ack) ;;
            if st_seg_n t <? msb - 1 then mret (- EINVAL, seq_auth)
            else
              stm_emit [TRetransmitCancel i] ;;
              ack_segs 32 i ack ;;
              t <- get_tx i ;;
              (if st_busy t then seg_tx_send_unacked i else seg_tx_complete i 0) ;;
              mret (0, seq_auth)
      end.

Definition bt_mesh_tx_reset : T unit :=
  s <- stm_get ;;
  foldr (fun i k => seg_tx_reset i ;; k) (mret tt) (seq 0 (length (t_seg_tx s))).
End transport.
