(* ===== verification/TransRx.v ===== *)
(** * Receiving through the transport layer (bt_mesh/src/transport.c)

    Replay protection, decryption of access messages, control messages and the
    reassembly of segmented messages. *)

From S2P Require Import Prelude NetBuf Cmac Ccm MeshCrypto NetState NetIv Net TransState TransTx.

(** ** Replay protection *)

(** The loop over the replay protection list: is the message a replay, and the
    list after it. *)
Fixpoint rpl_check (l : list rpl_entry) (src seq : Z) (old_iv : bool) : bool * list rpl_entry :=
  match l with
  | [] => (true, [])
  | r :: l =>
      if rpl_src r =? 0 then (false, mk_rpl src old_iv seq :: l)
      else if rpl_src r =? src then
        if old_iv && negb (rpl_old_iv r) then (true, r :: l)
        else if (negb old_iv && rpl_old_iv r) || (rpl_seq r <? seq) then
          (false, r <| rpl_seq := seq |> <| rpl_old_iv := old_iv |> :: l)
        else (true, r :: l)
      else let '(b, l) := rpl_check l src seq old_iv in (b, r :: l)
  end.

Definition is_replay (m : mesh_net) (rx : net_rx) : bool * mesh_net :=
  let '(b, l) := rpl_check (rpl m) (ctx_addr (rx_ctx rx)) (rx_seq rx) (rx_old_iv rx) in
  (b, m <| rpl := l |>).

Definition bt_mesh_rpl_clear (m : mesh_net) : mesh_net :=
  m <| rpl := map (fun _ => zero_rpl) (rpl m) |>.

(** ** Sizes and timeouts *)

Definition seg_len (ctl : bool) : Z := if ctl then 8 else 12.
Definition sdu_len_is_ok (ctl : bool) (seg_n : Z) : bool :=
  seg_n * seg_len ctl + 1 <=? Z.of_nat CONFIG_BT_MESH_RX_SDU_MAX.

(** The number of bits set among the lowest [n]. *)
Fixpoint popcount_bits (n : nat) (x : Z) : Z :=
  match n with
  | O => 0
  | S n => Z.b2z (Z.odd x) + popcount_bits n (Z.shiftr x 1)
  end.
Definition popcount (x : Z) : Z := popcount_bits 32 x.

Definition ack_timeout (r : seg_rx) : Z :=
  Z.max (150 + 50 * sr_ttl r + (sr_seg_n r + 1 - popcount (sr_block r)) * 100) 400.

Section transport.
Context {cfg : MeshConfig} {hal : SecHal} {env : NetEnv} {tenv : TransEnv}.

(** ** Access messages *)

(** One attempt to decrypt: [buf] with the MIC, [len] its length without. *)
Definition sdu_decrypt (m : mesh_net) (rx : net_rx) (key : bytes) (dev : bool) (aszmic : Z)
    (buf : bytes) (ad : option bytes) : res bytes :=
  bt_mesh_app_decrypt key dev aszmic buf (length buf - APP_MIC_LEN aszmic) ad
    (ctx_addr (rx_ctx rx)) (rx_dst rx) (rx_seq rx) (BT_MESH_NET_IVI_RX m rx).

(** The loop over the application keys: the index of the key that fits and the
    decrypted message. *)
Fixpoint sdu_try_keys (keys : list app_key) (m : mesh_net) (net_idx : Z) (rx : net_rx)
    (hdr aszmic : Z) (buf : bytes) (ad : option bytes) : res (Z * bytes) :=
  match keys with
  | [] => Err (- EINVAL)
  | key :: keys =>
      let next := sdu_try_keys keys m net_idx rx hdr aszmic buf ad in
      if negb (app_net_idx key =? net_idx) then next
      else
        let '(id, val) := if rx_new_key rx && app_updated key then app_key1 key
                          else app_key0 key in
        if negb (AID hdr =? id) then next
        else
          match sdu_decrypt m rx val false aszmic buf ad with
          | Undef => Undef
          | Err _ => next
          | Ok sdu => Ok (app_app_idx key, sdu)
          end
  end.

(** The message for the models: the key index and the decrypted payload. *)
Definition sdu_open (m : mesh_net) (rx : net_rx) (hdr aszmic : Z) (buf : bytes)
    : res (Z * bytes) :=
  let ad := if BT_MESH_ADDR_IS_VIRTUAL (rx_dst rx) then label_uuid_get (rx_dst rx) else None in
  if AKF hdr =? 0 then
    match sdu_decrypt m rx (dev_key m) true aszmic buf ad with
    | Undef => Undef
    | Err _ => Err (- EINVAL)
    | Ok sdu => Ok (BT_MESH_KEY_DEV, sdu)
    end
  else
    match subs m !! rx_sub rx with
    | None => Undef
    | Some sub => sdu_try_keys (app_keys m) m (sub_net_idx sub) rx hdr aszmic buf ad
    end.

Definition sdu_recv (rx : net_rx) (hdr aszmic : Z) (buf : bytes) : T (Z * net_rx) :=
  if decide (length buf < 1 + APP_MIC_LEN aszmic)%nat then mret (- EINVAL, rx)
  else if CONFIG_FRIEND && negb (rx_local_match rx) then mret (0, rx)
  else
    m <- get_net ;;
    match sdu_open m rx hdr aszmic buf with
    | Undef => stm_undef
    | Err e => mret (e, rx)
    | Ok (idx, sdu) =>
        let rx := rx <| rx_ctx := (rx_ctx rx) <| ctx_app_idx := idx |> |> in
        stm_emit [TModelRecv rx sdu] ;; model_recv rx sdu ;; mret (0, rx)
    end.

(** ** Control messages *)

Definition bt_mesh_set_hb_sub_dst (addr : Z) : T unit :=
  stm_modify (fun s => s <| t_hb_sub_dst := addr |>).

Definition trans_heartbeat (rx : net_rx) (buf : bytes) : T Z :=
  if decide (length buf < 3)%nat then mret (- EINVAL)
  else
    s <- stm_get ;;
    if negb (rx_dst rx =? t_hb_sub_dst s) then mret 0
    else
      let init_ttl := Z.land (byte_at buf 0) 0x7f in
      let feat := sys_get_be16 (drop 1 buf) in
      let hops := u8 (init_ttl - ctx_recv_ttl (rx_ctx rx) + 1) in
      stm_emit [THeartbeat (ctx_addr (rx_ctx rx)) (rx_dst rx) hops feat] ;; mret 0.

Definition friend_ctl_ops : list Z :=
  [TRANS_CTL_OP_FRIEND_POLL; TRANS_CTL_OP_FRIEND_REQ; TRANS_CTL_OP_FRIEND_CLEAR;
   TRANS_CTL_OP_FRIEND_CLEAR_CFM; TRANS_CTL_OP_FRIEND_SUB_ADD; TRANS_CTL_OP_FRIEND_SUB_REM].

Definition friend_recv (op : Z) (rx : net_rx) (buf : bytes) : T Z :=
  stm_emit [TFriendCtl op buf] ;; friend_ctl op rx buf.
Definition lpn_recv (op : Z) (rx : net_rx) (buf : bytes) : T Z :=
  stm_emit [TLpnCtl op buf] ;; lpn_ctl op rx buf.

(** The block compiled under CONFIG_BT_MESH_LOW_POWER. *)
Definition ctl_recv_lpn (op : Z) (rx : net_rx) (buf : bytes) : T Z :=
  if op =? TRANS_CTL_OP_FRIEND_OFFER then lpn_recv op rx buf
  else if ctx_addr (rx_ctx rx) =? lpn_frnd then
    if op =? TRANS_CTL_OP_FRIEND_CLEAR_CFM then lpn_recv op rx buf
    else if negb (rx_friend_cred rx) then mret (- EINVAL)
    else if (op =? TRANS_CTL_OP_FRIEND_UPDATE) || (op =? TRANS_CTL_OP_FRIEND_SUB_CFM)
    then lpn_recv op rx buf
    else mret (- ENOENT)
  else mret (- ENOENT).

(** The second result is the new [*seq_auth]. *)
Definition ctl_recv (rx : net_rx) (hdr : Z) (buf : bytes) (seq_auth : Z) : T (Z * Z) :=
  let op := TRANS_CTL_OP hdr in
  let keep (r : T Z) : T (Z * Z) := e <- r ;; mret (e, seq_auth) in
  if op =? TRANS_CTL_OP_ACK then trans_ack rx buf seq_auth
  else if op =? TRANS_CTL_OP_HEARTBEAT then keep (trans_heartbeat rx buf)
  else if negb (rx_local_match rx) then mret (0, seq_auth)
  else if CONFIG_FRIEND && negb lpn_established && bool_decide (op ∈ friend_ctl_ops) then
    keep (friend_recv op rx buf)
  else if CONFIG_LOW_POWER then keep (ctl_recv_lpn op rx buf)
  else mret (- ENOENT, seq_auth).

(** ** Unsegmented messages *)

(** [rx->local_match && is_replay(rx)]. *)
Definition replay_guard (rx : net_rx) : T bool :=
  if rx_local_match rx then
    m <- get_net ;;
    let '(b, m) := is_replay m rx in
    set_net m ;; mret b
  else mret false.

Definition trans_unseg (buf : bytes) (rx : net_rx) (seq_auth : Z) : T (Z * net_rx * Z) :=
  match buf with
  | [] => mret (- EINVAL, rx, seq_auth)
  | hdr :: buf =>
      replay <- replay_guard rx ;;
      if replay then mret (- EINVAL, rx, seq_auth)
      else if rx_ctl rx then
        r <- ctl_recv rx hdr buf seq_auth ;;
        mret (fst r, rx, snd r)
      else if negb (rx_local_match rx) && negb (rx_friend_match rx) then mret (0, rx, seq_auth)
      else
        r <- sdu_recv rx hdr 0 buf ;;
        mret (fst r, snd r, seq_auth)
  end.

(** ** Segment acknowledgements *)

Definition send_ack (sub : nat) (src dst ttl seq_auth block : Z) (obo : bool) : T Z :=
  if lpn_established then mret 0
  else if negb (BT_MESH_ADDR_IS_UNICAST src) then mret 0
  else
    m <- get_net ;;
    s <- stm_of_option (subs m !! sub) ;;
    let ctx := mk_ctx (sub_net_idx s) BT_MESH_KEY_UNUSED dst 0 ttl false in
    let tx := mk_tx sub ctx (if obo then primary_addr else src) net_transmit_get false 0 0 in
    let seq_zero := Z.land seq_auth 0x1fff in
    let w := Z.lor (Z.land (Z.shiftl seq_zero 2) 0x7ffc) (Z.shiftl (Z.b2z obo) 15) in
    r <- bt_mesh_ctl_send tx TRANS_CTL_OP_ACK (sys_put_be16 w ++ sys_put_be32 block) None None ;;
    mret (fst r).

(** ** Contexts of segmented receptions *)

Definition seg_rx_reset (i : nat) : T unit :=
  r <- get_rx i ;;
  stm_emit [TAckCancel i] ;;
  (if CONFIG_FRIEND && sr_obo r && negb (sr_block r =? BLOCK_COMPLETE (sr_seg_n r)) then
     stm_emit [TFriendClearIncomplete (sr_src r) (sr_dst r) (sr_seq_auth r)]
   else mret tt) ;;
  mod_rx i (fun r => r <| sr_ack_pending := false |> <| sr_in_use := false |>).

Definition ack_submit (i : nat) : T unit :=
  r <- get_rx i ;;
  stm_emit [TAckSubmit i (ack_timeout r)] ;;
  mod_rx i (fun r => r <| sr_ack_pending := true |>).

(** The acknowledgement timer. *)
Definition seg_ack (i : nat) : T unit :=
  mod_rx i (fun r => r <| sr_ack_pending := false |>) ;;
  r <- get_rx i ;;
  if 60 * 1000 <? u32 (u32 now - sr_last r) then
    send_ack (sr_sub r) (sr_dst r) (sr_src r) (sr_ttl r) (sr_seq_auth r) 0 (sr_obo r) ;;
    seg_rx_reset i
  else
    send_ack (sr_sub r) (sr_dst r) (sr_src r) (sr_ttl r) (sr_seq_auth r) (sr_block r) (sr_obo r) ;;
    ack_submit i.

Definition sr_addr_match (rx : net_rx) (r : seg_rx) : bool :=
  (sr_src r =? ctx_addr (rx_ctx rx)) && (sr_dst r =? rx_dst rx).

(** The session of a segment; an ongoing session of the same source and
    destination with another SeqAuth is given up. *)
Definition seg_rx_find (rx : net_rx) (seq_auth : Z) : T (option nat) :=
  s <- stm_get ;;
  match find_index (fun r => sr_addr_match rx r && ((sr_seq_auth r =? seq_auth) || sr_in_use r))
          (t_seg_rx s) with
  | None => mret None
  | Some i =>
      r <- get_rx i ;;
      if sr_seq_auth r =? seq_auth then mret (Some i)
      else seg_rx_reset i ;; mret None
  end.

Definition seg_rx_is_valid (r : seg_rx) (rx : net_rx) (hdr seg_n : Z) : bool :=
  (sr_hdr r =? hdr) && (sr_seg_n r =? seg_n) && sr_addr_match rx r &&
  bool_decide (sr_ctl r = rx_ctl rx).

(** A session of no segments. *)
Definition seg_rx_start (rx : net_rx) (hdr seq_auth seg_n : Z) (r : seg_rx) : seg_rx :=
  r <| sr_in_use := true |> <| sr_buf_len := 0%nat |> <| sr_sub := rx_sub rx |>
    <| sr_ctl := rx_ctl rx |> <| sr_seq_auth := seq_auth |> <| sr_seg_n := seg_n |>
    <| sr_hdr := hdr |> <| sr_ttl := ctx_send_ttl (rx_ctx rx) |>
    <| sr_src := ctx_addr (rx_ctx rx) |> <| sr_dst := rx_dst rx |> <| sr_block := 0 |>.

Definition seg_rx_alloc (rx : net_rx) (hdr seq_auth seg_n : Z) : T (option nat) :=
  s <- stm_get ;;
  match find_index (fun r => negb (sr_in_use r)) (t_seg_rx s) with
  | None => mret None
  | Some i => mod_rx i (seg_rx_start rx hdr seq_auth seg_n) ;; mret (Some i)
  end.

(** ** Segments *)

(** The fields of a segment's header and its payload. *)
Record segment := mk_segment {
  sg_hdr : Z; sg_aszmic : Z; sg_seq_zero : Z; sg_o : Z; sg_n : Z; sg_data : bytes
}.

Definition seg_parse (buf : bytes) : segment :=
  let w := sys_get_be16 (drop 1 buf) in
  let b := byte_at buf 3 in
  mk_segment (byte_at buf 0) (ASZMIC buf) (Z.land (Z.shiftr w 2) 0x1fff)
    (Z.lor (Z.shiftl (Z.land w 0x03) 3) (Z.shiftr b 5)) (Z.land b 0x1f) (drop 4 buf).

(** [SEQ_AUTH(BT_MESH_NET_IVI_RX(net_rx), (net_rx->seq & 0xffffe000) | seq_zero)]. *)
Definition seg_seq_auth (m : mesh_net) (rx : net_rx) (seq_zero : Z) : Z :=
  SEQ_AUTH (BT_MESH_NET_IVI_RX m rx) (Z.lor (Z.land (rx_seq rx) 0xffffe000) seq_zero).

(** [send_ack] to the source of [rx]. *)
Definition ack_source (rx : net_rx) (seq_auth block : Z) (obo : bool) : T Z :=
  send_ack (rx_sub rx) (rx_dst rx) (ctx_addr (rx_ctx rx)) (ctx_send_ttl (rx_ctx rx)) seq_auth
    block obo.

(** Up to the [found_rx] label: the session of the segment or the error. *)
Definition seg_session (rx : net_rx) (sg : segment) (seq_auth : Z) : T (res nat) :=
  found <- seg_rx_find rx seq_auth ;;
  match found with
  | Some i =>
      r <- get_rx i ;;
      if negb (seg_rx_is_valid r rx (sg_hdr sg) (sg_n sg)) then mret (Err (- EINVAL))
      else if sr_in_use r then mret (Ok i)
      else if sr_block r =? BLOCK_COMPLETE (sr_seg_n r) then
        ack_source rx seq_auth (sr_block r) (sr_obo r) ;; mret (Err (- EALREADY))
      else mret (Err (- EINVAL))
  | None =>
      if negb (sdu_len_is_ok (rx_ctl rx) (sg_n sg)) then
        ack_source rx seq_auth 0 (rx_friend_match rx) ;; mret (Err (- EMSGSIZE))
      else
        new <- seg_rx_alloc rx (sg_hdr sg) seq_auth (sg_n sg) ;;
        match new with
        | None => mret (Err (- ENOMEM))
        | Some i => mod_rx i (fun r => r <| sr_obo := rx_friend_match rx |>) ;; mret (Ok i)
        end
  end.

(** The length checks: the last segment sets the length of the SDU. *)
Definition seg_check_len (i : nat) (rx : net_rx) (sg : segment) (seq_auth : Z) : T (res unit) :=
  r <- get_rx i ;;
  let len := Z.of_nat (length (sg_data sg)) in
  if sg_o sg =? sg_n sg then
    let total := u16 (sg_n sg * seg_len (sr_ctl r) + len) in
    mod_rx i (fun r => r <| sr_buf_len := Z.to_nat total |>) ;;
    if Z.of_nat CONFIG_BT_MESH_RX_SDU_MAX <? total then
      ack_source rx seq_auth 0 (sr_obo r) ;; seg_rx_reset i ;; mret (Err (- EMSGSIZE))
    else mret (Ok tt)
  else if negb (len =? seg_len (sr_ctl r)) then mret (Err (- EINVAL))
  else mret (Ok tt).

(** Copies the segment into the buffer and marks it as received. *)
Definition seg_store (i : nat) (sg : segment) : T unit :=
  mod_rx i (fun r => r <| sr_last := u32 now |>) ;;
  r <- get_rx i ;;
  (if negb (sr_ack_pending r) && negb lpn_established then ack_submit i else mret tt) ;;
  let off := Z.to_nat (sg_o sg * seg_len (sr_ctl r)) in
  if decide (CONFIG_BT_MESH_RX_SDU_MAX < off + length (sg_data sg))%nat then stm_undef
  else
    mod_rx i (fun r => r <| sr_buf_data := put_at off (sg_data sg) (sr_buf_data r) |>
                         <| sr_block := Z.lor (sr_block r) (MESH_BIT (sg_o sg)) |>).

(** What happens to a complete SDU: the result, the changed [rx], the type of
    PDU for the friend queue and the SeqAuth. *)
Definition seg_complete (i : nat) (rx : net_rx) (sg : segment) (seq_auth : Z)
    : T (Z * net_rx * friend_pdu_type * Z) :=
  replay <- replay_guard rx ;;
  if replay then
    mod_rx i (fun r => r <| sr_block := Z.ldiff (sr_block r) (MESH_BIT (sg_o sg)) |>) ;;
    mret (- EINVAL, rx, PDU_SINGLE, seq_auth)
  else
    r <- get_rx i ;;
    let rx := if rx_friend_match rx then rx
              else rx <| rx_seq := Z.land (sr_seq_auth r) 0xffffff |> in
    stm_emit [TAckCancel i] ;;
    mod_rx i (fun r => r <| sr_ack_pending := false |>) ;;
    ack_source rx seq_auth (sr_block r) (sr_obo r) ;;
    let sdu := take (sr_buf_len r) (sr_buf_data r) in
    (if decide (CONFIG_BT_MESH_RX_SDU_MAX < sr_buf_len r)%nat then stm_undef
     else if rx_ctl rx then
       c <- ctl_recv rx (sg_hdr sg) sdu seq_auth ;;
       seg_rx_reset i ;; mret (fst c, rx, PDU_COMPLETE, snd c)
     else
       c <- sdu_recv rx (sg_hdr sg) (sg_aszmic sg) sdu ;;
       seg_rx_reset i ;; mret (fst c, snd c, PDU_COMPLETE, seq_auth)).

(** From the [found_rx] label on. *)
Definition seg_receive (i : nat) (rx : net_rx) (sg : segment) (seq_auth : Z)
    : T (Z * net_rx * friend_pdu_type * Z) :=
  let fail e := mret (e, rx, PDU_SINGLE, seq_auth) in
  r <- get_rx i ;;
  if negb (Z.land (MESH_BIT (sg_o sg)) (sr_block r) =? 0) then fail (- EALREADY)
  else
    ok <- seg_check_len i rx sg seq_auth ;;
    match ok with
    | Err e => fail e
    | Undef => stm_undef
    | Ok _ =>
        seg_store i sg ;;
        r <- get_rx i ;;
        if negb (sr_block r =? BLOCK_COMPLETE (sg_n sg)) then mret (0, rx, PDU_PARTIAL, seq_auth)
        else seg_complete i rx sg seq_auth
    end.

Definition trans_seg (buf : bytes) (rx : net_rx) (seq_auth : Z)
    : T (Z * net_rx * friend_pdu_type * Z) :=
  if decide (length buf < 5)%nat then mret (- EINVAL, rx, PDU_SINGLE, seq_auth)
  else
    let sg := seg_parse buf in
    if sg_n sg <? sg_o sg then mret (- EINVAL, rx, PDU_SINGLE, seq_auth)
    else
      m <- get_net ;;
      let seq_auth := seg_seq_auth m rx (sg_seq_zero sg) in
      session <- seg_session rx sg seq_auth ;;
      match session with
      | Err e => mret (e, rx, PDU_SINGLE, seq_auth)
      | Undef => stm_undef
      | Ok i => seg_receive i rx sg seq_auth
      end.

(** ** The entry point of the layer *)

(** [buf] is a decrypted network PDU. *)
Definition bt_mesh_trans_recv (buf : bytes) (rx : net_rx) : T (Z * net_rx) :=
  m <- get_net ;;
  sub <- stm_of_option (subs m !! rx_sub rx) ;;
  let rx := rx <| rx_friend_match := CONFIG_FRIEND && friend_match (sub_net_idx sub) (rx_dst rx) |> in
  let buf := drop BT_MESH_NET_HDR_LEN buf in
  if CONFIG_LOW_POWER && lpn_established && bool_decide (rx_net_if rx = IF_ADV) &&
     (negb lpn_waiting_update || negb (rx_friend_cred rx)) && negb lpn_clear_ongoing then
    mret (- EAGAIN, rx)
  else if negb (SEG buf =? 0) && negb (rx_local_match rx) && negb (rx_friend_match rx) then
    mret (0, rx)
  else
    out <- (if negb (SEG buf =? 0) then trans_seg buf rx TRANS_SEQ_AUTH_NVAL
            else r <- trans_unseg buf rx TRANS_SEQ_AUTH_NVAL ;;
                 let '(err, rx, seq_auth) := r in mret (err, rx, PDU_SINGLE, seq_auth)) ;;
    let '(err, rx, pdu_type, seq_auth) := out in
    (if CONFIG_LOW_POWER && lpn_notify then stm_emit [TLpnMsgReceived] else mret tt) ;;
    (if CONFIG_FRIEND && rx_friend_match rx && (err =? 0) then
       stm_emit [TFriendRx pdu_type
                   (if seq_auth =? TRANS_SEQ_AUTH_NVAL then None else Some seq_auth) rx buf]
     else mret tt) ;;
    mret (err, rx).

Definition bt_mesh_rx_reset : T unit :=
  s <- stm_get ;;
  foldr (fun i k => seg_rx_reset i ;;
           mod_rx i (fun r => r <| sr_src := BT_MESH_ADDR_UNASSIGNED |>
                                <| sr_dst := BT_MESH_ADDR_UNASSIGNED |>) ;; k)
    (mret tt) (seq 0 (length (t_seg_rx s))).
End transport.

(** ** The acknowledgement timeout *)

(** The acknowledgement timer of a reception. The network layer sets
    [send_ttl] of everything received with a TTL other than 0 to the
    placeholder for the default TTL, and the timeout takes that 0xff for a
    number of hops: the first acknowledgement of a message of up to 32 segments
    goes out 12.9 s or more after its first segment, whatever the default TTL,
    although the sender waits 400 ms before it tries again. *)
Theorem ack_timeout_default_ttl rx hdr seq_auth seg_n r :
  ctx_send_ttl (rx_ctx rx) = BT_MESH_TTL_DEFAULT -> 0 <= seg_n < 32 ->
  ack_timeout (seg_rx_start rx hdr seq_auth seg_n r) = 12900 + 100 * (seg_n + 1) /\
  12900 > 2 * SEG_RETRANSMIT_TIMEOUT * (SEG_RETRANSMIT_ATTEMPTS + 1).
Proof.
  intros Httl Hn. split; [|unfold SEG_RETRANSMIT_TIMEOUT, SEG_RETRANSMIT_ATTEMPTS; lia].
  unfold ack_timeout. change (sr_ttl (seg_rx_start rx hdr seq_auth seg_n r)) with (ctx_send_ttl (rx_ctx rx)).
  change (sr_seg_n (seg_rx_start rx hdr seq_auth seg_n r)) with seg_n.
  change (popcount (sr_block (seg_rx_start rx hdr seq_auth seg_n r))) with 0.
  rewrite Httl. unfold BT_MESH_TTL_DEFAULT. lia.
Qed.

Lemma ack_timeout_default_ttl_witness :
  ack_timeout (seg_rx_start ((rx_init 0) <| rx_ctx := mk_ctx 0 BT_MESH_KEY_UNUSED 1 5 0xff false |>)
    0x80 9 2 seg_rx_init) = 12900 + 100 * (2 + 1) /\
  12900 > 2 * SEG_RETRANSMIT_TIMEOUT * (SEG_RETRANSMIT_ATTEMPTS + 1).
Proof. apply ack_timeout_default_ttl; [reflexivity|lia]. Defined.
