(* ===== verification/Replay.v ===== *)
(** * Replay protection

    What [is_replay] (bt_mesh/src/transport.c) and [bt_mesh_rpl_reset]
    (bt_mesh/src/net.c) guarantee together over any history of received
    messages and IV index updates, and where the guarantee ends. *)

From Stdlib Require Import Sorted.
From S2P Require Import Prelude NetBuf Ccm MeshCrypto NetState NetIv Net TransState TransTx TransRx.

(** ** Histories *)

(** The position of a message: its IV index and sequence number in one number. *)
Definition rx_pos (m : mesh_net) (rx : net_rx) : Z :=
  (iv_index m - Z.b2z (rx_old_iv rx)) * 16777216 + rx_seq rx.

Inductive rpl_op :=
| OpRecv (rx : net_rx)
| OpIv (uptime : Z) (tx_in_progress : bool) (iv : Z) (ivu : bool).

Section history.
Context {cfg : MeshConfig}.

(** The state after an operation and the messages it accepts: source and
    position. *)
Definition rpl_step (m : mesh_net) (op : rpl_op) : mesh_net * list (Z * Z) :=
  match op with
  | OpRecv rx =>
      let '(replay, m') := is_replay m rx in
      (m', if replay then [] else [(ctx_addr (rx_ctx rx), rx_pos m rx)])
  | OpIv up txp iv ivu =>
      let '(_, m', _) := bt_mesh_net_iv_update up txp m iv ivu in (m', [])
  end.

Fixpoint rpl_run (m : mesh_net) (ops : list rpl_op) : list (Z * Z) :=
  match ops with
  | [] => []
  | op :: ops => let '(m, acc) := rpl_step m op in acc ++ rpl_run m ops
  end.

(** Empty slots of the list come last. *)
Fixpoint rpl_packed (l : list rpl_entry) : bool :=
  match l with
  | [] => true
  | r :: l => if rpl_src r =? 0 then forallb (fun r => rpl_src r =? 0) l else rpl_packed l
  end.

(** The sources and sequence numbers are those of network PDUs; an IV update
    leaves no empty slot in front of a used one and does not recover the next
    index in normal operation. *)
Fixpoint rpl_history_ok (m : mesh_net) (ops : list rpl_op) : Prop :=
  match ops with
  | [] => True
  | op :: ops =>
      let m' := fst (rpl_step m op) in
      match op with
      | OpRecv rx => ctx_addr (rx_ctx rx) <> 0 /\ 0 <= rx_seq rx < 16777216
      | OpIv _ _ iv _ =>
          0 <= iv < 4294967296 /\ rpl_packed (rpl m') = true /\
          ~ (iv_index m' = iv_index m + 1 /\ iv_update m' = false)
      end /\ rpl_history_ok m' ops
  end.

(** ** The entry of a source *)

(** The entry the loop of [is_replay] would find: it stops at an empty slot. *)
Fixpoint rpl_lookup (l : list rpl_entry) (src : Z) : option rpl_entry :=
  match l with
  | [] => None
  | r :: l => if rpl_src r =? 0 then None else if rpl_src r =? src then Some r
              else rpl_lookup l src
  end.

Definition rpl_pos (m : mesh_net) (r : rpl_entry) : Z :=
  (iv_index m - Z.b2z (rpl_old_iv r)) * 16777216 + rpl_seq r.

(** Messages of [src] up to position [p] are refused. *)
Definition rpl_bound (m : mesh_net) (src p : Z) : Prop :=
  match rpl_lookup (rpl m) src with
  | Some r => p <= rpl_pos m r
  | None => p < (iv_index m - 1) * 16777216
  end.

Definition rpl_ok (m : mesh_net) : Prop :=
  rpl_packed (rpl m) = true /\ Forall (fun r => 0 <= rpl_seq r < 16777216) (rpl m).

Lemma rpl_empty_lookup l src : forallb (fun r => rpl_src r =? 0) l = true -> rpl_lookup l src = None.
Proof. destruct l as [|r l]; [done|]. cbn. by destruct (rpl_src r =? 0). Qed.

Lemma rpl_empty_packed l : forallb (fun r => rpl_src r =? 0) l = true -> rpl_packed l = true.
Proof.
  destruct l as [|r l]; [done|]. cbn. intros [H1 H2]%andb_true_iff. by rewrite H1.
Qed.

Lemma rpl_lookup_seq l src r : Forall (fun r => 0 <= rpl_seq r < 16777216) l ->
  rpl_lookup l src = Some r -> 0 <= rpl_seq r < 16777216.
Proof.
  induction 1 as [|x l Hx Hl IH]; cbn; [done|].
  destruct (rpl_src x =? 0); [done|]. destruct (rpl_src x =? src); [by intros [= <-]|done].
Qed.

(** What the loop does, on the entry it finds. *)
Lemma rpl_check_lookup l src seq old : rpl_packed l = true -> src <> 0 ->
  0 <= seq < 16777216 -> Forall (fun r => 0 <= rpl_seq r < 16777216) l ->
  let '(replay, l') := rpl_check l src seq old in
  rpl_packed l' = true /\ Forall (fun r => 0 <= rpl_seq r < 16777216) l' /\
  (forall s, s <> src -> rpl_lookup l' s = rpl_lookup l s) /\
  (if replay then l' = l
   else rpl_lookup l' src = Some (mk_rpl src old seq) /\
        match rpl_lookup l src with
        | Some r => Z.b2z old < Z.b2z (rpl_old_iv r) \/ old = rpl_old_iv r /\ rpl_seq r < seq
        | None => True
        end).
Proof.
  intros Hp Hsrc Hseq Hl. induction Hl as [|r l Hr Hl IH]; cbn [rpl_check]; [done|].
  cbn [rpl_packed] in Hp. cbn [rpl_lookup].
  destruct (Z.eqb_spec (rpl_src r) 0) as [H0|H0].
  { cbn [rpl_packed rpl_lookup rpl_src]. rewrite (proj2 (Z.eqb_neq src 0) Hsrc), Z.eqb_refl.
    split; [destruct l as [|x l]; [done|]; cbn in Hp |- *;
            by destruct (rpl_src x =? 0)|].
    split; [constructor; done|]. split; [|done].
    intros s Hs. destruct (Z.eqb_spec src s); [congruence|]. by apply rpl_empty_lookup. }
  destruct (Z.eqb_spec (rpl_src r) src) as [He|He].
  - assert (forall r', rpl_src r' = src -> forall s, s <> src ->
      rpl_lookup (r' :: l) s = rpl_lookup l s) as Hother.
    { intros r' Hr' s Hs. cbn. rewrite Hr', (proj2 (Z.eqb_neq src 0) Hsrc).
      by destruct (Z.eqb_spec src s); [congruence|]. }
    assert (forall s, s <> src -> rpl_lookup (r :: l) s = rpl_lookup l s) as Hr0 by by apply Hother.
    case_if; [|case_if].
    + split; [cbn; by rewrite (proj2 (Z.eqb_neq _ 0) H0)|]. split; [by constructor|].
      split; [|done]. intros s Hs. rewrite Hr0 by done. cbn. rewrite He, (proj2 (Z.eqb_neq src s)) by congruence. done.
    + destruct r as [rs ro rq]. unfold update_field. cbn in *. subst rs. rewrite (proj2 (Z.eqb_neq src 0) Hsrc), Z.eqb_refl.
      split; [done|]. split; [by constructor|].
      split; [intros s Hs; by rewrite (proj2 (Z.eqb_neq src s)) by congruence|]. split; [done|].
      destruct old, ro; cbn in *; try done; [right|left|right]; lia.
    + split; [cbn; by rewrite (proj2 (Z.eqb_neq _ 0) H0)|]. split; [by constructor|].
      split; [|done]. intros s Hs. rewrite Hr0 by done. cbn. rewrite He, (proj2 (Z.eqb_neq src s)) by congruence. done.
  - specialize (IH Hp). destruct (rpl_check l src seq old) as [b l'].
    destruct IH as (Hp' & Hl' & Ho & Hb). cbn [rpl_packed rpl_lookup].
    rewrite (proj2 (Z.eqb_neq _ 0) H0), (proj2 (Z.eqb_neq _ src) He).
    split; [done|]. split; [by constructor|]. split; [intros s Hs; by rewrite Ho|].
    destruct b; [congruence|done].
Qed.

(** An IV index change on the list and on the entry found. *)
Lemma rpl_reset_lookup l src : rpl_packed (map rpl_reset_entry l) = true ->
  rpl_lookup (map rpl_reset_entry l) src =
  match rpl_lookup l src with
  | Some r => if rpl_old_iv r then None else Some (r <| rpl_old_iv := true |>)
  | None => None
  end.
Proof.
  induction l as [|r l IH]; cbn [map rpl_packed rpl_lookup]; [done|]. intros Hp.
  unfold rpl_reset_entry in *. destruct (Z.eqb_spec (rpl_src r) 0) as [H0|H0].
  { by rewrite H0. }
  destruct (rpl_old_iv r) eqn:Hold.
  - cbn [zero_rpl rpl_src Z.eqb] in *. destruct (Z.eqb_spec (rpl_src r) src); [by rewrite Hold|].
    rewrite rpl_empty_lookup in IH by done. by apply IH, rpl_empty_packed.
  - change (rpl_src (r <| rpl_old_iv := true |>)) with (rpl_src r) in *.
    rewrite (proj2 (Z.eqb_neq _ 0) H0) in *.
    destruct (Z.eqb_spec (rpl_src r) src); [by rewrite Hold|]. by apply IH.
Qed.

Lemma rpl_zero_lookup l src : rpl_lookup (map (fun _ : rpl_entry => zero_rpl) l) src = None.
Proof. by destruct l. Qed.

Lemma rpl_packed_zero l : rpl_packed (map (fun _ : rpl_entry => zero_rpl) l) = true.
Proof. destruct l; cbn; [done|]. by induction l. Qed.

(** ** One operation *)

Lemma is_replay_bound m rx src p : rpl_ok m -> ctx_addr (rx_ctx rx) <> 0 ->
  0 <= rx_seq rx < 16777216 ->
  let '(replay, m') := is_replay m rx in
  rpl_ok m' /\
  (rpl_bound m src p -> rpl_bound m' src p) /\
  (replay = false ->
     rpl_bound m' (ctx_addr (rx_ctx rx)) (rx_pos m rx) /\
     (rpl_bound m (ctx_addr (rx_ctx rx)) p -> p < rx_pos m rx)).
Proof.
  intros [Hpk Hsq] Haddr Hseq. unfold is_replay.
  pose proof (rpl_check_lookup (rpl m) (ctx_addr (rx_ctx rx)) (rx_seq rx) (rx_old_iv rx)
    Hpk Haddr Hseq Hsq) as H.
  destruct (rpl_check (rpl m) _ _ _) as [b l'] eqn:Hc. destruct H as (Hpk' & Hsq' & Ho & Hb).
  assert (forall q, rpl_bound m (ctx_addr (rx_ctx rx)) q -> b = false -> q < rx_pos m rx) as Hlt.
  { intros q. unfold rpl_bound, rx_pos. intros Hq ->. destruct Hb as [_ Hb].
    destruct (rpl_lookup (rpl m) (ctx_addr (rx_ctx rx))) as [r|] eqn:Hr.
    - pose proof (rpl_lookup_seq _ _ _ Hsq Hr). unfold rpl_pos in Hq.
      destruct Hb as [?|[Heq ?]]; [|rewrite Heq; lia].
      destruct (rx_old_iv rx), (rpl_old_iv r); cbn [Z.b2z] in *; lia.
    - destruct (rx_old_iv rx); cbn [Z.b2z]; lia. }
  split; [by split|]. split; [|intros ->; split; [|by intros Hq; apply Hlt]].
  - intros Hq. destruct (decide (src = ctx_addr (rx_ctx rx))) as [->|Hne].
    + destruct b; [by subst l'|]. pose proof (Hlt p Hq eq_refl) as Hl. destruct Hb as [Hb _].
      unfold rpl_bound. change (rpl (m <| rpl := l' |>)) with l'. rewrite Hb.
      unfold rx_pos in Hl. unfold rpl_pos.
      change (iv_index (m <| rpl := l' |>)) with (iv_index m). cbn [rpl_old_iv rpl_seq]. lia.
    + unfold rpl_bound in *. change (rpl (m <| rpl := l' |>)) with l'. by rewrite Ho.
  - destruct Hb as [Hb _]. unfold rpl_bound. change (rpl (m <| rpl := l' |>)) with l'.
    rewrite Hb. unfold rpl_pos, rx_pos. change (iv_index (m <| rpl := l' |>)) with (iv_index m).
    cbn [rpl_old_iv rpl_seq]. lia.
Qed.

Lemma iv_change_rpl up txp m m' src p : iv_change up txp m m' -> rpl_ok m ->
  rpl_packed (rpl m') = true -> ~ (iv_index m' = iv_index m + 1 /\ iv_update m' = false) ->
  rpl_ok m' /\ (rpl_bound m src p -> rpl_bound m' src p).
Proof.
  intros Hch [Hpk Hsq] Hpk' Hrec.
  destruct Hch as [Hi _ _ Hr|Hu0 Hu Hi _ _ Hr _|_ _ Hi _ Hr _ _|Hu0 Hi _ Hu _ Hr];
    unfold rpl_ok, rpl_bound, rpl_pos; rewrite ?Hi, Hr in *.
  - done.
  - split.
    + split; [done|]. apply List.Forall_map. revert Hsq. apply List.Forall_impl. intros r Hq.
      unfold rpl_reset_entry. repeat case_if; cbn; lia || done.
    + intros Hq. rewrite rpl_reset_lookup by done.
      destruct (rpl_lookup (rpl m) src) as [r|] eqn:Hl; [|lia].
      pose proof (rpl_lookup_seq _ _ _ Hsq Hl).
      destruct (rpl_old_iv r) eqn:Ho; cbn [Z.b2z] in *; [lia|].
      change (rpl_old_iv (r <| rpl_old_iv := true |>)) with true.
      change (rpl_seq (r <| rpl_old_iv := true |>)) with (rpl_seq r). cbn [Z.b2z]. lia.
  - done.
  - split; [split; [done|]; apply List.Forall_map, List.Forall_forall; cbn; lia|].
    intros Hq. rewrite rpl_zero_lookup.
    assert (iv_index m' <> iv_index m + 1).
    { intros He. apply Hrec. split; [done|]. destruct (iv_update m'); [|done].
      specialize (Hu eq_refl). lia. }
    destruct (rpl_lookup (rpl m) src) as [r|] eqn:Hl; [|lia].
    pose proof (rpl_lookup_seq _ _ _ Hsq Hl). destruct (rpl_old_iv r); cbn [Z.b2z] in *; lia.
Qed.

Lemma rpl_run_bound m ops src p : iv_ok m -> rpl_ok m -> rpl_history_ok m ops ->
  rpl_bound m src p -> Forall (fun a => fst a = src -> p < snd a) (rpl_run m ops).
Proof.
  revert m. induction ops as [|op ops IH]; intros m Hiv Hok Hh Hb; cbn [rpl_run]; [constructor|].
  destruct Hh as [Hop Hh]. destruct op as [rx|up txp iv ivu]; cbn [rpl_step] in *.
  - destruct Hop as [Ha Hs]. pose proof (is_replay_bound m rx src p Hok Ha Hs) as H.
    assert (iv_ok (snd (is_replay m rx))) as Hiv'
      by (unfold is_replay; by destruct (rpl_check (rpl m) _ _ _)).
    destruct (is_replay m rx) as [b m']. destruct H as (Hok' & Hk & Hacc).
    specialize (IH m' Hiv' Hok' Hh (Hk Hb)).
    destruct b; [done|]. cbn [app]. constructor; [|done]. cbn. intros <-. by apply Hacc.
  - destruct Hop as (Hr & Hpk & Hrec).
    pose proof (iv_update_changes up txp m iv ivu Hiv Hr) as H.
    destruct (bt_mesh_net_iv_update up txp m iv ivu) as [[b m'] t].
    destruct (iv_change_tx_pos up txp m m' Hiv H) as [Hiv' _].
    destruct (iv_change_rpl up txp m m' src p H Hok Hpk Hrec) as [Hok' Hk].
    by apply IH; [..|apply Hk].
Qed.

(** C20: whatever messages arrive and whatever IV index updates happen in
    between, the messages [is_replay] lets through have, for every source,
    strictly increasing IV index and sequence number: no message is accepted
    twice. This holds as long as no IV update leaves an empty slot in front of
    a used one in the list, and none recovers the next IV index in normal
    operation. *)
Theorem replay_protection m ops src : iv_ok m -> rpl_ok m -> rpl_history_ok m ops ->
  StronglySorted Z.lt (omap (fun a => if fst a =? src then Some (snd a) else None) (rpl_run m ops)).
Proof.
  revert m. induction ops as [|op ops IH]; intros m Hiv Hok Hh; cbn [rpl_run]; [constructor|].
  destruct Hh as [Hop Hh]. destruct op as [rx|up txp iv ivu]; cbn [rpl_step] in *.
  - destruct Hop as [Ha Hs]. pose proof (is_replay_bound m rx src 0 Hok Ha Hs) as H.
    assert (iv_ok (snd (is_replay m rx))) as Hiv'
      by (unfold is_replay; by destruct (rpl_check (rpl m) _ _ _)).
    destruct (is_replay m rx) as [b m']. destruct H as (Hok' & _ & Hacc).
    specialize (IH m' Hiv' Hok' Hh). destruct b; [done|]. cbn [app omap list_omap fst snd].
    destruct (Z.eqb_spec (ctx_addr (rx_ctx rx)) src) as [He|]; [|done].
    constructor; [done|]. destruct Hacc as [Hb _]; [done|]. rewrite He in Hb.
    pose proof (rpl_run_bound m' ops src _ Hiv' Hok' Hh Hb) as Hall.
    clear -Hall. induction Hall as [|[s q] l Hx Hl IHl]; cbn; [constructor|].
    destruct (Z.eqb_spec s src); [constructor; [by apply Hx|done]|done].
  - destruct Hop as (Hr & Hpk & Hrec).
    pose proof (iv_update_changes up txp m iv ivu Hiv Hr) as H.
    destruct (bt_mesh_net_iv_update up txp m iv ivu) as [[b m'] t].
    destruct (iv_change_tx_pos up txp m m' Hiv H) as [Hiv' _].
    destruct (iv_change_rpl up txp m m' src 0 H Hok Hpk Hrec) as [Hok' _]. by apply IH.
Qed.
End history.

(** ** Examples *)

Definition rpl_rx (src seq : Z) (old_iv : bool) : net_rx :=
  (rx_init 0) <| rx_ctx := (rx_ctx (rx_init 0)) <| ctx_addr := src |> |>
              <| rx_seq := seq |> <| rx_old_iv := old_iv |>.
Definition rpl_node : mesh_net := (bt_mesh_init_state 1) <| iv_index := 5 |>.

Definition rpl_sample_history : list rpl_op :=
  [OpRecv (rpl_rx 2 20 false); OpRecv (rpl_rx 2 20 false); OpIv (K_HOURS 100) false 6 true;
   OpRecv (rpl_rx 2 21 true); OpRecv (rpl_rx 2 3 false); OpRecv (rpl_rx 2 22 true)].

Lemma replay_protection_witness :
  rpl_run (cfg := proxy_friend_config) rpl_node rpl_sample_history =
    [(2, 5 * 16777216 + 20); (2, 5 * 16777216 + 21); (2, 6 * 16777216 + 3)] /\
  StronglySorted Z.lt (omap (fun a => if fst a =? 2 then Some (snd a) else None)
    (rpl_run (cfg := proxy_friend_config) rpl_node rpl_sample_history)).
Proof.
  split; [vm_compute; reflexivity|].
  apply (replay_protection (cfg := proxy_friend_config) rpl_node rpl_sample_history 2).
  - unfold iv_ok. cbn. split; [lia|]. split; [lia|]. intros H. discriminate H.
  - split; [vm_compute; reflexivity|]. apply (Forall_replicate _ CRPL zero_rpl). cbn. lia.
  - vm_compute. repeat split; try (intros H; discriminate H); intros [_ H]; discriminate H.
Defined.

(** An IV update empties the slot of a source last heard under the old IV
    index; [is_replay] stops at that slot and no longer sees the entries
    behind it, so a message of another source is accepted a second time. *)
Theorem rpl_hole_replay :
  let ops := [OpRecv (rpl_rx 1 10 true); OpRecv (rpl_rx 2 20 false);
              OpIv (K_HOURS 100) false 6 true; OpRecv (rpl_rx 2 20 true)] in
  rpl_run (cfg := proxy_friend_config) rpl_node ops =
    [(1, 4 * 16777216 + 10); (2, 5 * 16777216 + 20); (2, 5 * 16777216 + 20)].
Proof. vm_compute. reflexivity. Qed.

(** Recovery of the next IV index in normal operation empties the whole list
    while messages of the index before are still received. *)
Example rpl_recovery_replay :
  let ops := [OpRecv (rpl_rx 2 20 false); OpIv 0 false 6 false; OpRecv (rpl_rx 2 20 true)] in
  rpl_run (cfg := proxy_friend_config) rpl_node ops =
    [(2, 5 * 16777216 + 20); (2, 5 * 16777216 + 20)].
Proof. vm_compute. reflexivity. Qed.
