(* ===== verification/TransWf.v ===== *)
(** * The transport layer never leaves its data structures

    The invariant of the transport layer's contexts and of the network state
    it uses, and the proof that every operation of transport.c is defined (no
    access outside an array, no null pointer, no buffer overrun) from a state
    that satisfies it and keeps it. *)

From S2P Require Import Prelude NetBuf Cmac Ccm MeshCrypto NetState NetIv Net TransState TransTx TransRx.

(** ** The network state *)

Definition cred_ok (c : cred_keys) : Prop :=
  is_block (cr_enc c) /\ is_block (cr_privacy c) /\ 0 <= cr_nid c < 128.

(** Keys have 16 bytes; the counters are in range. *)
Record net_wf (m : mesh_net) : Prop := {
  nw_keys : net_keys_ok m;
  nw_iv : iv_ok m;
  nw_creds : Forall (fun c => cred_ok (fc_cred0 c) /\ cred_ok (fc_cred1 c)) (friend_creds m);
  nw_app : Forall (fun k => is_block (snd (app_key0 k)) /\ is_block (snd (app_key1 k))) (app_keys m);
  nw_dev : is_block (dev_key m)
}.

(** The network state after an operation: still well formed, with as many
    subnets. *)
Definition net_next (m m' : mesh_net) : Prop :=
  net_wf m' /\ length (subs m') = length (subs m).

Lemma net_next_refl m : net_wf m -> net_next m m.
Proof. by split. Qed.
Lemma net_next_trans a b c : net_next a b -> net_next b c -> net_next a c.
Proof. intros [_ H1] [Hw H2]. split; [done|congruence]. Qed.

(** A time to live that the sender may ask for. *)
Definition ttl_ok (ttl : Z) : Prop := 0 <= ttl < 128 \/ ttl = BT_MESH_TTL_DEFAULT.

(** A transmission on one of the [n] subnets; control messages may have any
    time to live. *)
Definition tx_ok (n : nat) (tx : net_tx) : Prop :=
  (tx_sub tx < n)%nat /\
  (ttl_ok (ctx_send_ttl (tx_ctx tx)) \/ ctx_app_idx (tx_ctx tx) = BT_MESH_KEY_UNUSED).

(** What the buffer of a segment holds: a network PDU, or, when the friend queue
    took the segment, its transport PDU of 16 bytes. *)
Definition net_pdu_ok (pdu : bytes) : Prop := is_bytes pdu /\ (16 <= length pdu <= 29)%nat.

Section net.
Context {cfg : MeshConfig} {hal : SecHal} {halok : SecHalOk hal} {env : NetEnv}.

Lemma net_wf_seq m q : net_wf m -> 0 <= q < 16777216 -> net_wf (m <| seq_num := q |>).
Proof. intros [Hk (Hi & Hs & Hu) Hc Ha Hd] Hq. by split. Qed.

Lemma net_wf_same m m' : net_wf m -> subs m' = subs m -> iv_ok m' ->
  friend_creds m' = friend_creds m -> app_keys m' = app_keys m -> dev_key m' = dev_key m ->
  net_next m m'.
Proof.
  intros [Hk Hi Hc Ha Hd] Hs Hiv Hcr Hap Hdv.
  split; [split|]; unfold net_keys_ok in *; congruence.
Qed.

Lemma tx_creds_ok m sub tx i : net_wf m -> subs m !! i = Some sub ->
  let '(_, (nid, enc, priv)) := tx_creds m sub tx in is_block enc /\ is_block priv.
Proof.
  intros Hm Hs. destruct (sub_keys_ok m i sub (sub_kr_flag sub) (nw_keys m Hm) Hs)
    as (He & Hp & _).
  unfold tx_creds. case_if; [|done].
  unfold friend_cred_get. case_if; [|done].
  destruct (find_index _ (friend_creds m)) as [k|]; [|done].
  destruct (friend_creds m !! k) as [c|] eqn:Hc; [|done]. cbn [of_option]. ok_simpl.
  apply (Forall_lookup_1 _ _ _ _ (nw_creds m Hm)) in Hc as [(? & ? & _) (? & ? & _)].
  unfold fc_cred. by case_if.
Qed.

(** The MIC of a PDU depends on its second byte. *)
Lemma net_mic_len a b l : is_byte b ->
  NET_MIC_LEN (a :: b :: l) = if b <? 128 then 4%nat else 8%nat.
Proof.
  intros Hb. unfold NET_MIC_LEN, byte_at. cbn [nth].
  assert (forallb (fun t => Bool.eqb (Z.land t 0x80 =? 0) (t <? 128)) (map Z.of_nat (seq 0 256)) = true)
    as H by by vm_compute.
  pose proof (forall_bytes _ H b Hb) as H'. cbv beta in H'. apply eqb_prop in H'. by rewrite H'.
Qed.

Lemma ctl_ttl_byte ttl : (u8 (Z.lor ttl 0x80) <? 128) = false.
Proof.
  assert (Z.testbit (u8 (Z.lor ttl 0x80)) 7 = true) as Hbit.
  { unfold u8. change 256 with (2 ^ 8). rewrite Z.mod_pow2_bits_low, Z.lor_spec by lia.
    by rewrite (orb_true_r _). }
  assert (forallb (fun t => negb (Z.testbit t 7) || negb (t <? 128)) (map Z.of_nat (seq 0 256)) = true)
    as H by by vm_compute.
  pose proof (forall_bytes _ H _ (u8_byte (Z.lor ttl 0x80))) as H'. cbv beta in H'.
  rewrite Hbit in H'. by apply negb_true_iff in H'.
Qed.

Lemma net_header_is_bytes nid ivi ctl ttl seq src dst :
  length (net_header nid ivi ctl ttl seq src dst) = 9%nat /\
  is_bytes (net_header nid ivi ctl ttl seq src dst).
Proof.
  split; [done|]. unfold net_header, seq_bytes, sys_put_be16. destruct ctl;
    repeat (apply Forall_cons_2; [apply u8_byte|]); by apply Forall_nil_2.
Qed.

(** ** Calls to net.c *)

(** An encoding is defined; a PDU it produces fits the buffer. *)
Lemma net_encode_wf m tx buf : net_wf m -> (tx_sub tx < length (subs m))%nat ->
  0 <= ctx_send_ttl (tx_ctx tx) < 128 \/ ctx_app_idx (tx_ctx tx) = BT_MESH_KEY_UNUSED ->
  is_bytes buf -> (0 < length buf <= 20)%nat ->
  let '(r, m', tx', _) := bt_mesh_net_encode m tx buf (pdu_tailroom buf) false in
  net_next m m' /\ tx_sub tx' = tx_sub tx /\ tx_ctx tx' = tx_ctx tx /\
  match r with
  | Ok pdu => is_bytes pdu /\ (14 <= length pdu <= 29)%nat /\ (5 <= length buf -> 18 <= length pdu)%nat
  | Err _ => True
  | Undef => False
  end.
Proof.
  intros Hm Hsub Httl Hb Hl. unfold bt_mesh_net_encode, pdu_tailroom.
  destruct (lookup_lt_is_Some_2 (subs m) (tx_sub tx) Hsub) as [sub Hs].
  set (ctl := ctx_app_idx (tx_ctx tx) =? BT_MESH_KEY_UNUSED) in *.
  change (Z.of_nat BT_MESH_ADV_DATA_SIZE - Z.of_nat BT_MESH_NET_HDR_LEN) with 20.
  case_if; [by split; [apply net_next_refl|]|].
  case_if; [by split; [apply net_next_refl|]|].
  change (subs (m <| seq_num := u24 (seq_num m + 1) |>)) with (subs m). rewrite Hs.
  set (m1 := m <| seq_num := u24 (seq_num m + 1) |>).
  assert (net_wf m1) as Hm1 by (apply net_wf_seq; [done|word_lia]).
  assert (net_next m m1) as Hnext by by split.
  pose proof (tx_creds_ok m1 sub tx (tx_sub tx) Hm1 Hs) as Hcr.
  destruct (tx_creds m1 sub tx) as [fc [[nid enc] priv]]. destruct Hcr as [Henc Hpriv].
  cbv zeta. cbn [snd fst].
  set (ivi := BT_MESH_NET_IVI_TX m1).
  match goal with |- context [bt_mesh_net_encrypt enc ?p ivi false] =>
    replace p with (net_header nid ivi ctl (ctx_send_ttl (tx_ctx tx)) (seq_num m) (tx_src tx)
      (ctx_addr (tx_ctx tx)) ++ buf)
      by (unfold net_header; cbn [app]; by rewrite <- !app_assoc)
  end.
  destruct (net_header_is_bytes nid ivi ctl (ctx_send_ttl (tx_ctx tx)) (seq_num m) (tx_src tx)
    (ctx_addr (tx_ctx tx))) as [Hh9 Hhb].
  assert (NET_MIC_LEN (net_header nid ivi ctl (ctx_send_ttl (tx_ctx tx)) (seq_num m) (tx_src tx)
    (ctx_addr (tx_ctx tx)) ++ buf) = if ctl then 8%nat else 4%nat) as Hmic.
  { unfold net_header. cbn [app]. rewrite net_mic_len by (destruct ctl; apply u8_byte).
    destruct ctl eqn:Hctl; [by rewrite ctl_ttl_byte|].
    destruct Httl as [Httl|Httl]; [|unfold ctl in Hctl; rewrite Httl in Hctl; done].
    rewrite u8_id by (unfold is_byte; lia). by rewrite (proj2 (Z.ltb_lt _ _)) by lia. }
  destruct (encrypt_obfuscate_ok enc priv _ buf ivi Henc Hpriv (proj2 (is_bytes_app _ _) (conj Hhb Hb)) Hh9)
    as (pdu & e & He & Ho & Hlen & Hpb & _); [rewrite length_app; lia|].
  rewrite He. ok_simpl. rewrite Ho.
  split; [done|]. split; [done|]. split; [done|]. split; [done|].
  rewrite Hlen, length_app, Hmic, Hh9.
  destruct ctl; cbn [andb] in *; lia.
Qed.
(** *** IV index updates and retransmission *)

Lemma beacon_update_keys_ok m ss :
  Forall (fun s => keys_ok (sub_key0 s) /\ keys_ok (sub_key1 s)) ss ->
  Forall (fun s => keys_ok (sub_key0 s) /\ keys_ok (sub_key1 s))
    (map (fun s => if sub_net_idx s =? BT_MESH_KEY_UNUSED then s
                   else bt_mesh_net_beacon_update m s) ss).
Proof.
  intros H. apply List.Forall_map. revert H. apply List.Forall_impl. intros s Hs.
  case_if; [done|]. unfold bt_mesh_net_beacon_update. by repeat case_match.
Qed.

Lemma iv_do_update_next up m iv ivu : net_wf m ->
  let '(_, m', _) := iv_do_update up m iv ivu in iv_ok m' -> net_next m m'.
Proof.
  intros [Hk Hi Hc Ha Hd]. unfold iv_do_update.
  destruct ivu; cbn [bt_mesh_rpl_reset]; intros Hok;
    (split; [split; try done; by apply beacon_update_keys_ok|]); apply length_map.
Qed.

Lemma iv_update_next up txp m iv ivu : net_wf m -> 0 <= iv < 4294967296 ->
  let '(_, m', _) := bt_mesh_net_iv_update up txp m iv ivu in net_next m m'.
Proof.
  intros Hm Hiv. pose proof (iv_update_changes up txp m iv ivu (nw_iv m Hm) Hiv) as Hch.
  revert Hch. unfold bt_mesh_net_iv_update, iv_guarded_update.
  repeat case_if; intros Hch; try (by apply net_next_refl);
    try (by apply net_wf_same; [..|apply (nw_iv m Hm)|done|done|done]).
  all: match goal with
       | |- context [iv_do_update ?u ?m0 ?i ?b] =>
           pose proof (iv_do_update_next u m0 i b) as H;
           destruct (iv_do_update u m0 i b) as [[r m'] t]
       end.
  all: destruct (iv_change_tx_pos up txp m m' (nw_iv m Hm) Hch) as [Hok _].
  all: try (by apply H).
  all: destruct Hm as [Hk Hi Hc Ha Hd];
    (destruct H as [? Hl]; [split; try done; unfold iv_recover, iv_ok; cbn; split_and!; [lia..|congruence]|done|split; [done|exact Hl]]).
Qed.
Lemma net_mic_len_take (p q : bytes) : (2 <= length p)%nat -> take 2 p = take 2 q ->
  NET_MIC_LEN p = NET_MIC_LEN q.
Proof.
  intros Hl Ht. destruct p as [|a [|b p]]; cbn in Hl; try lia.
  destruct q as [|c [|d q]]; try done. by injection Ht as -> ->.
Qed.

(** A decryption that succeeds keeps the header and removes the MIC. *)
Lemma net_decrypt_out key e iv proxy buf :
  is_block key -> is_bytes e -> (16 <= length e < 60)%nat ->
  bt_mesh_net_decrypt key e iv proxy = Ok buf ->
  is_bytes buf /\ (length buf + NET_MIC_LEN e = length e)%nat /\ take 7 buf = take 7 e.
Proof.
  intros Hk He Hl. unfold bt_mesh_net_decrypt.
  pose proof (NET_MIC_LEN_cases e) as Hm. rewrite decide_False by lia.
  set (k := (length e - NET_MIC_LEN e - 7)%nat).
  assert (is_bytes (drop 7 e)) as Hd by auto with bytes.
  rewrite <- (take_drop k (drop 7 e)) in Hd |- *. apply is_bytes_app in Hd as [Hcb Htb].
  assert (length (take k (drop 7 e)) = k) as Hc by (rewrite length_take, length_drop; unfold k; lia).
  rewrite <- Hc at 3.
  rewrite (bt_mesh_ccm_decrypt_spec key Hk).
  - unfold Rfc3610.decrypt. cbv zeta.
    destruct (crypt_involutive key Hk (net_nonce proxy e iv) (take k (drop 7 e))) as [_ Hlen];
      [by apply net_nonce_ok|lia|].
    pose proof (crypt_bytes key Hk (net_nonce proxy e iv) (take k (drop 7 e))) as Hb.
    case_decide; cbn [of_option]; ok_simpl; [|done]. intros [= <-].
    rewrite is_bytes_app, length_app, Hlen, Hc, length_take.
    split_and!; [auto with bytes|apply Hb; [by apply net_nonce_ok|lia|done]|unfold k; lia|].
    rewrite take_app_le by (rewrite length_take; lia). by rewrite take_take.
  - split; [by apply net_nonce_ok|done|unfold k in *; lia
      |split; [by apply Forall_nil_2|by left]|done].
  - rewrite !length_drop. unfold k. lia.
Qed.

Lemma net_resend_next up txp m i sub buf nk : net_wf m -> subs m !! i = Some sub ->
  net_pdu_ok buf ->
  let '(r, m', _) := bt_mesh_net_resend up txp m sub buf nk in
  net_next m m' /\
  match r with Ok pdu => net_pdu_ok pdu | Err _ => True | Undef => False end.
Proof.
  intros Hm Hs [Hb Hl]. unfold bt_mesh_net_resend.
  destruct (sub_keys_ok m i sub nk (nw_keys m Hm) Hs) as (Henc & Hpriv & _).
  destruct (net_obfuscate_ok _ buf (BT_MESH_NET_IVI_TX m) Hpriv Hb ltac:(lia))
    as (e & -> & Hel & Heb & _). ok_simpl.
  destruct (net_decrypt_defined _ e (BT_MESH_NET_IVI_TX m) false Henc Heb ltac:(lia))
    as [[p Hp]|Hp]; rewrite Hp; [|split; [by apply net_next_refl|done]].
  destruct (net_decrypt_out _ e _ false p Henc Heb ltac:(lia) Hp) as (Hpb & Hpl & Hp7).
  pose proof (NET_MIC_LEN_cases e) as Hmic.
  set (q := put_at 2 (seq_bytes (seq_num m)) p).
  assert (length q = length p) as Hql by (apply length_put_at; cbn; lia).
  assert (is_bytes q) as Hqb.
  { unfold q, put_at. rewrite !is_bytes_app. split_and!; [auto with bytes| |auto with bytes].
    unfold seq_bytes. repeat (apply Forall_cons_2; [apply u8_byte|]). by apply Forall_nil_2. }
  assert (NET_MIC_LEN q = NET_MIC_LEN e) as Hqm.
  { apply net_mic_len_take; [lia|]. unfold q, put_at. rewrite take_app_le by (rewrite length_take; lia).
    rewrite take_take. pose proof (f_equal (take 2) Hp7) as Ht2. by rewrite !take_take in Ht2. }
  destruct (net_crypt_ok _ q (BT_MESH_NET_IVI_TX m) false Henc Hqb ltac:(lia) ltac:(lia))
    as (o & -> & Hol & Hob & _). ok_simpl.
  destruct (net_obfuscate_ok _ o (BT_MESH_NET_IVI_TX m) Hpriv Hob ltac:(lia))
    as (o' & -> & Hol' & Hob' & _).
  assert (net_pdu_ok o') as Ho' by (split; [done|lia]).
  assert (net_wf (m <| seq_num := u24 (seq_num m + 1) |>)) as Hm1
    by (apply net_wf_seq; [done|word_lia]).
  case_if; [|by split].
  set (m2 := (m <| seq_num := u24 (seq_num m + 1) |>) <| ivu_initiator := true |>).
  assert (net_wf m2) as Hm2 by (destruct Hm1; by split).
  pose proof (iv_update_next up txp m2 (u32 (iv_index m2 + 1)) true Hm2 ltac:(word_lia)) as H.
  destruct (bt_mesh_net_iv_update up txp m2 _ true) as [[b m'] t]. split; [exact H|done].
Qed.
End net.

(** ** The contexts *)

(** The number of segments a context holds. *)
Definition held (l : list (option seg_buf)) : nat := length (omap id l).

(** A context while its message is being sent: segments are only held below
    [seg_n], and not more than are counted as outstanding. *)
Record st_loose (n : nat) (t : seg_tx) : Prop := {
  sl_len : length (st_seg t) = BT_MESH_TX_SEG_COUNT;
  sl_n : 0 <= st_seg_n t < Z.of_nat BT_MESH_TX_SEG_COUNT;
  sl_seg : forall j sg, st_seg t !! j = Some (Some sg) -> Z.of_nat j <= st_seg_n t;
  sl_count : Z.of_nat (held (st_seg t)) <= st_nack_count t <= Z.of_nat BT_MESH_TX_SEG_COUNT;
  sl_sub : st_nack_count t <> 0 -> exists k, st_sub t = Some k /\ (k < n)%nat
}.

(** A context at rest: the outstanding segments are exactly those held (with a
    friend queue, which may take a message from [send_seg] after its first
    segment, at least those). *)
Record st_wf {cfg : MeshConfig} (n : nat) (t : seg_tx) : Prop := {
  sw_loose : st_loose n t;
  sw_count : st_nack_count t = Z.of_nat (held (st_seg t)) \/ CONFIG_FRIEND = true;
  sw_pdus : forall j sg, st_seg t !! j = Some (Some sg) -> net_pdu_ok (sg_pdu sg) /\ is_byte (sg_attempts sg)
}.

(** A reception: once the last segment is stored, the length of the SDU is
    known and fits the buffer. *)
Record sr_wf (n : nat) (r : seg_rx) : Prop := {
  rw_data : length (sr_buf_data r) = CONFIG_BT_MESH_RX_SDU_MAX /\ is_bytes (sr_buf_data r);
  rw_len : Z.testbit (sr_block r) (sr_seg_n r) = true ->
           (sr_buf_len r <= CONFIG_BT_MESH_RX_SDU_MAX)%nat;
  rw_n : 0 <= sr_seg_n r < 32;
  rw_sub : sr_in_use r || sr_ack_pending r = true -> (sr_sub r < n)%nat
}.

Definition held1 (o : option seg_buf) : nat := match o with Some _ => 1 | None => 0 end.

(** The state, with [n] subnets, where the context [i] of the segmented
    transmissions satisfies [P] and the others are at rest. *)
Record trans_wf_at {cfg : MeshConfig} (n i : nat) (P : seg_tx -> Prop) (s : trans) : Prop := {
  tw_net : net_wf (t_net s);
  tw_subs : length (subs (t_net s)) = n;
  tw_tx_len : length (t_seg_tx s) = CONFIG_BT_MESH_TX_SEG_MSG_COUNT;
  tw_tx_i : exists t, t_seg_tx s !! i = Some t /\ P t;
  tw_tx : forall j t, j <> i -> t_seg_tx s !! j = Some t -> st_wf n t;
  tw_rx_len : length (t_seg_rx s) = CONFIG_BT_MESH_RX_SEG_MSG_COUNT;
  tw_rx : Forall (sr_wf n) (t_seg_rx s)
}.

(** The invariant of the transport layer. *)
Definition trans_wf {cfg : MeshConfig} (n : nat) (s : trans) : Prop :=
  net_wf (t_net s) /\ length (subs (t_net s)) = n /\
  length (t_seg_tx s) = CONFIG_BT_MESH_TX_SEG_MSG_COUNT /\ Forall (st_wf n) (t_seg_tx s) /\
  length (t_seg_rx s) = CONFIG_BT_MESH_RX_SEG_MSG_COUNT /\ Forall (sr_wf n) (t_seg_rx s).

Lemma held_insert (l : list (option seg_buf)) j (o o' : option seg_buf) : l !! j = Some o ->
  (held (<[j:=o']> l) + held1 o = held l + held1 o')%nat.
Proof.
  revert j. induction l as [|x l IH]; intros [|j] Hj; [done|done| |].
  - injection Hj as ->. destruct o, o'; cbn; lia.
  - specialize (IH j Hj). unfold held in *. change (<[S j:=o']> (x :: l)) with (x :: <[j:=o']> l).
    destruct x; cbn; lia.
Qed.

Lemma held_zero l : held l = 0%nat -> forall j o, l !! j = Some o -> o = None.
Proof.
  induction l as [|[x|] l IH]; intros H [|j] o Hj; cbn in *; try discriminate; [congruence|eauto].
Qed.

Lemma held_none l : Forall (fun o => o = None) l -> held l = 0%nat.
Proof. induction 1 as [|o l -> Hl IH]; cbn; done. Qed.

Lemma held_length l : (held l <= length l)%nat.
Proof. induction l as [|[x|] l IH]; unfold held in *; cbn; lia. Qed.

Section contexts.
Context {cfg : MeshConfig} (n : nat).

Lemma trans_wf_split i s : (i < CONFIG_BT_MESH_TX_SEG_MSG_COUNT)%nat ->
  trans_wf n s <-> trans_wf_at n i (st_wf n) s.
Proof.
  intros Hi. split.
  - intros (Hn & Hs & Hl & Ht & Hrl & Hr). split; try done.
    + destruct (lookup_lt_is_Some_2 (t_seg_tx s) i) as [t Hlk]; [lia|]. exists t. split; [done|].
      by eapply Forall_lookup_1 in Ht.
    + intros j t _ Hlk. by eapply Forall_lookup_1 in Ht.
  - intros [Hn Hs Hl (t & Hlk & Ht) Ho Hrl Hr]. repeat (split; [done|]). split; [|done].
    apply Forall_lookup_2. intros j t' Hj. destruct (decide (j = i)) as [->|]; [|by eapply Ho].
    by simplify_eq.
Qed.

Lemma trans_wf_at_mono i (P Q : seg_tx -> Prop) s : (forall t, P t -> Q t) ->
  trans_wf_at n i P s -> trans_wf_at n i Q s.
Proof. intros HPQ [?? ? (t & ? & ?) ? ? ?]. split; try done. exists t. auto. Qed.

Lemma mod_tx_at i (P Q : seg_tx -> Prop) f s : (forall t, P t -> Q (f t)) ->
  trans_wf_at n i P s -> trans_wf_at n i Q (s <| t_seg_tx := alter f i (t_seg_tx s) |>).
Proof.
  intros HPQ [? ? Hl (t & Hlk & Ht) Ho ? ?]. split; try done.
  - change (t_seg_tx (s <| t_seg_tx := alter f i (t_seg_tx s) |>)) with (alter f i (t_seg_tx s)).
    by rewrite length_alter.
  - exists (f t). split; [|auto]. change (alter f i (t_seg_tx s) !! i = Some (f t)).
    by rewrite list_lookup_alter_eq, Hlk.
  - intros j t' Hj Hlk'. change (alter f i (t_seg_tx s) !! j = Some t') in Hlk'.
    rewrite list_lookup_alter_ne in Hlk' by done. by eapply Ho.
Qed.

Lemma set_net_at i P m s : net_next (t_net s) m ->
  trans_wf_at n i P s -> trans_wf_at n i P (s <| t_net := m |>).
Proof. intros [Hm Hsub] [? ? ? ? ? ? ?]. split; try done. change (length (subs m) = n). lia. Qed.
End contexts.
