(* ===== verification/TransTxOk.v ===== *)
(** * Sending keeps the invariant of the transport layer

    Every function of TransTx.v is defined on a well-formed state and leaves
    a well-formed state; the searches for the highest and lowest set bit
    terminate with the right answer. *)

From S2P Require Import Prelude NetBuf Cmac Ccm MeshCrypto NetState NetIv Net TransState TransTx TransRx TransWf.

(** What the proofs need of the other components: the default time to live is
    a legal one, label UUIDs have 16 bytes, and the friend queue takes a segment
    for a low power node only when it carries the full 12 bytes of payload. The
    last is a restriction on the use of the code: friend.c answers alike for all
    segments of a message, and [send_seg] leaves at the first, so it excludes the
    segmented messages of one short segment to a low power node of this friend
    (see [friend_short_segment_undefined] of [Transport]). *)
Class TransEnvOk {cfg : MeshConfig} {env : NetEnv} (tenv : TransEnv) : Prop := {
  default_ttl_ok : 0 <= default_ttl_get < 128;
  label_uuid_ok : forall addr l, label_uuid_get addr = Some l -> is_block l;
  friend_takes_long : forall tx t seq_auth pdu, CONFIG_FRIEND = true ->
    friend_enqueue_tx tx t seq_auth pdu = true ->
    BT_MESH_ADDR_IS_UNICAST (ctx_addr (tx_ctx tx)) = true ->
    t = PDU_SINGLE \/ (16 <= length pdu)%nat
}.

(** ** The bit searches *)

Lemma land_pow2 x k : 0 <= k -> (Z.land x (2 ^ k) =? 0) = negb (Z.testbit x k).
Proof.
  intros Hk. destruct (Z.testbit x k) eqn:Hb; cbn [negb].
  - apply Z.eqb_neq. intros H. assert (Z.testbit (Z.land x (2 ^ k)) k = false) as Hf
      by by rewrite H, Z.bits_0.
    rewrite Z.land_spec, Hb, Z.pow2_bits_true in Hf by done. discriminate.
  - apply Z.eqb_eq. apply Z.bits_inj'. intros j Hj. rewrite Z.land_spec, Z.bits_0, Z.pow2_bits_eqb by done.
    destruct (Z.eqb_spec k j) as [<-|]; [by rewrite Hb|apply andb_false_r].
Qed.

Lemma testbit_high w x j : 0 <= w -> 0 <= x < 2 ^ w -> w <= j -> Z.testbit x j = false.
Proof. intros Hw Hx Hj. by apply (proj1 (bounded_testbit w x Hw) Hx). Qed.

Lemma msb_loop_spec (k : nat) f x : (k <= f)%nat -> (k < 32)%nat -> 0 < x < 2 ^ (Z.of_nat k + 1) ->
  msb_loop f x (31 - Z.of_nat k) (2 ^ Z.of_nat k) = Some (Z.log2 x + 1).
Proof.
  revert f. induction k as [|k IH]; intros f Hf Hk [Hx0 Hx].
  - assert (x = 1) as -> by (change (2 ^ (Z.of_nat 0 + 1)) with 2 in Hx; lia). by destruct f.
  - destruct f as [|f]; [lia|]. cbn [msb_loop]. rewrite land_pow2 by lia. rewrite negb_involutive.
    destruct (Z.testbit x (Z.of_nat (S k))) eqn:Hb.
    + f_equal. assert (Z.log2 x = Z.of_nat (S k)) as ->; [|lia].
      apply Z.log2_unique; [lia|]. split; [|by rewrite <- Z.add_1_r].
      destruct (Z.lt_ge_cases x (2 ^ Z.of_nat (S k))) as [Hlt|]; [|done].
      assert (Z.testbit x (Z.of_nat (S k)) = false); [|congruence].
      apply (testbit_high (Z.of_nat (S k))); lia.
    + replace (u32 (31 - Z.of_nat (S k) + 1)) with (31 - Z.of_nat k) by word_lia.
      replace (Z.shiftr (2 ^ Z.of_nat (S k)) 1) with (2 ^ Z.of_nat k).
      * apply IH; [lia|lia|]. split; [done|].
        apply bounded_testbit; [lia|]. split; [lia|]. intros j Hj.
        destruct (decide (j = Z.of_nat (S k))) as [->|]; [done|].
        apply (testbit_high (Z.of_nat (S k) + 1)); lia.
      * rewrite Z.shiftr_div_pow2 by lia. rewrite Nat2Z.inj_succ, Z.pow_succ_r by lia.
        change (2 ^ 1) with 2. Z.div_mod_to_equations; lia.
Qed.

Lemma find_msb_set_log2 x : 0 < x < 4294967296 -> find_msb_set x = Some (Z.log2 x + 1).
Proof.
  intros Hx. unfold find_msb_set. destruct (Z.eqb_spec x 0); [lia|].
  apply (msb_loop_spec 31 32 x); [lia|lia|done].
Qed.

(** [b] is the lowest bit set in [x]. *)
Definition lowest_bit (x b : Z) : Prop :=
  0 <= b /\ Z.testbit x b = true /\ forall j, j < b -> Z.testbit x j = false.

Lemma lsb_loop_spec (d f : nat) x : (d <= f)%nat -> (d <= 31)%nat -> 0 < x < 4294967296 ->
  (forall j, j < 31 - Z.of_nat d -> Z.testbit x j = false) ->
  exists b, lowest_bit x b /\
    lsb_loop f x (32 - Z.of_nat d) (2 ^ (31 - Z.of_nat d)) = Some (b + 1).
Proof.
  assert (forall (d f : nat), (d <= 31)%nat -> (forall j, j < 31 - Z.of_nat d -> Z.testbit x j = false) ->
    Z.testbit x (31 - Z.of_nat d) = true ->
    exists b, lowest_bit x b /\
      lsb_loop f x (32 - Z.of_nat d) (2 ^ (31 - Z.of_nat d)) = Some (b + 1)) as Hhit.
  { intros e g He Hlow Hb. exists (31 - Z.of_nat e). split; [by split; [lia|]|].
    destruct g; cbn [lsb_loop]; rewrite land_pow2 by lia; rewrite negb_involutive, Hb; f_equal; lia. }
  revert f. induction d as [|d IH]; intros f Hf Hd Hx Hlow;
    [destruct (Z.testbit x (31 - Z.of_nat 0)) eqn:Hb|
     destruct (Z.testbit x (31 - Z.of_nat (S d))) eqn:Hb]; try (apply Hhit; done).
  - exfalso. assert (x = 0); [|lia]. apply Z.bits_inj'. intros j Hj. rewrite Z.bits_0.
    destruct (decide (j < 31)); [apply Hlow; lia|].
    destruct (decide (j = 31)) as [->|]; [done|].
    apply (testbit_high 32); [lia|exact (conj (Z.lt_le_incl _ _ (proj1 Hx)) (proj2 Hx))|lia].
  - destruct f as [|f]; [lia|]. cbn [lsb_loop]. rewrite land_pow2 by lia. rewrite negb_involutive, Hb.
    replace (u32 (32 - Z.of_nat (S d) + 1)) with (32 - Z.of_nat d) by word_lia.
    replace (u32 (Z.shiftl (2 ^ (31 - Z.of_nat (S d))) 1)) with (2 ^ (31 - Z.of_nat d)).
    + apply IH; [lia|lia|done|]. intros j Hj.
      destruct (decide (j = 31 - Z.of_nat (S d))) as [->|]; [done|apply Hlow; lia].
    + rewrite Z.shiftl_mul_pow2 by lia. rewrite <- Z.pow_add_r by lia.
      replace (31 - Z.of_nat (S d) + 1) with (31 - Z.of_nat d) by lia.
      symmetry. apply u32_id. change 4294967296 with (2 ^ 32).
      split; [apply Z.pow_nonneg; lia|apply Z.pow_lt_mono_r; lia].
Qed.

Lemma find_lsb_set_lowest x : 0 < x < 4294967296 ->
  exists b, lowest_bit x b /\ find_lsb_set x = Some (b + 1).
Proof.
  intros Hx. unfold find_lsb_set. destruct (Z.eqb_spec x 0); [lia|].
  apply (lsb_loop_spec 31 32 x); [lia|lia|done|]. intros j Hj. apply Z.testbit_neg_r. lia.
Qed.

Section ok.
Context {cfg : MeshConfig} {hal : SecHal} {halok : SecHalOk hal} {env : NetEnv}
  {tenv : TransEnv} {tenvok : TransEnvOk tenv} (n : nat).

(** ** Buffers and calls to net.c *)

Lemma run_events_ok (P : trans -> Prop) f evs s : P s ->
  (forall e s, P s -> stm_ok (f e) (fun _ s' => P s') s) ->
  stm_ok (run_events f evs) (fun _ s' => P s') s.
Proof.
  intros Hs Hf. revert s Hs. induction evs as [|e evs IH]; intros s Hs; cbn [run_events].
  - by apply ok_ret.
  - eapply ok_call; [by apply Hf|]. cbv beta. intros _ s' Hs'. by apply IH.
Qed.

Lemma net_emit_ok (P : trans -> Prop) e s : P s -> stm_ok (net_emit e) (fun _ s' => P s') s.
Proof. intros H. by apply ok_emit. Qed.

Lemma net_send_net m tx buf cb : net_wf m -> length (subs m) = n -> tx_ok n tx ->
  is_bytes buf -> (0 < length buf <= 20)%nat ->
  let '(r, m', tx', _) := bt_mesh_net_send m tx buf (pdu_tailroom buf) cb in
  net_next m m' /\ tx_ok n tx' /\ tx_aszmic tx' = tx_aszmic tx /\
  match r with
  | Ok pdu => is_bytes pdu /\ (14 <= length pdu <= 29)%nat /\ (5 <= length buf -> 18 <= length pdu)%nat
  | Err _ => True
  | Undef => False
  end.
Proof.
  intros Hm Hn [Hsub Httl] Hb Hl. unfold bt_mesh_net_send.
  set (tx1 := if ctx_send_ttl (tx_ctx tx) =? BT_MESH_TTL_DEFAULT then _ else tx).
  assert (tx_sub tx1 = tx_sub tx /\ tx_aszmic tx1 = tx_aszmic tx /\
    (0 <= ctx_send_ttl (tx_ctx tx1) < 128 \/ ctx_app_idx (tx_ctx tx1) = BT_MESH_KEY_UNUSED))
    as (Hs1 & Ha1 & Ht1).
  { unfold tx1. destruct (Z.eqb_spec (ctx_send_ttl (tx_ctx tx)) BT_MESH_TTL_DEFAULT).
    - split; [done|]. split; [done|]. left. cbn. pose proof default_ttl_ok.
      rewrite u8_id by (unfold is_byte; lia). done.
    - split; [done|]. split; [done|]. destruct Httl as [[Httl|Httl]|Httl]; [by left|done|by right]. }
  clearbody tx1.
  pose proof (net_encode_wf m tx1 buf Hm ltac:(lia) Ht1 Hb Hl) as H.
  destruct (bt_mesh_net_encode m tx1 buf (pdu_tailroom buf) false) as [[[r m'] tx'] evs] eqn:He.
  destruct H as (Hnext & Hs' & Hc' & Hr).
  assert (tx_aszmic tx' = tx_aszmic tx1) as Ha'.
  { revert He. unfold bt_mesh_net_encode. repeat (case_match; simplify_eq/=); intros; by simplify_eq/=. }
  assert (tx_ok n tx') as Htx'.
  { split; [lia|]. rewrite Hc'. destruct Ht1; [by left; left|by right]. }
  destruct r as [pdu|e|]; [|split; [done|]; split; [done|]; split; [congruence|done]|done].
  repeat (case_if; [split; [|split; [done|split; [congruence|exact Hr]]]|]);
    try (split; [|split; [done|split; [congruence|exact Hr]]]); try done.
  destruct Hnext as [Hw Hlen]. split; [|done]. destruct Hw. by split.
Qed.

Lemma net_send_at i P tx pdu cb f s : trans_wf_at n i P s -> tx_ok n tx ->
  is_bytes pdu -> (0 < length pdu <= 20)%nat ->
  (forall e s, trans_wf_at n i P s -> stm_ok (f e) (fun _ s' => trans_wf_at n i P s') s) ->
  stm_ok (net_send tx pdu cb f) (fun r s' =>
    trans_wf_at n i P s' /\ tx_ok n (snd r) /\
    match fst r with
    | Ok pdu' => is_bytes pdu' /\ (14 <= length pdu' <= 29)%nat /\ (5 <= length pdu -> 18 <= length pdu')%nat
    | Err _ => True
    | Undef => False
    end) s.
Proof.
  intros Hs Htx Hb Hl Hf. unfold net_send, pdu_fits.
  rewrite bool_decide_true by (unfold BT_MESH_NET_HDR_LEN, BT_MESH_ADV_DATA_SIZE; lia). cbn [negb].
  unfold get_net, set_net. ok_steps.
  pose proof (net_send_net (t_net s) tx pdu cb (tw_net _ _ _ _ Hs) (tw_subs _ _ _ _ Hs) Htx Hb Hl) as H.
  destruct (bt_mesh_net_send _ tx pdu _ cb) as [[[r m'] tx'] evs]. destruct H as (Hnext & Htx' & _ & Hr).
  ok_steps. eapply ok_mono.
  { apply (run_events_ok (trans_wf_at n i P)); [|exact Hf]. by apply set_net_at. }
  cbv beta. intros _ s1 Hs1. destruct r; [|by apply ok_ret|done]. by apply ok_ret.
Qed.

Lemma net_resend_at i P k pdu nk s : trans_wf_at n i P s -> (k < n)%nat -> net_pdu_ok pdu ->
  stm_ok (net_resend (Some k) pdu nk) (fun r s' => trans_wf_at n i P s' /\
    match r with Ok p => net_pdu_ok p | Err _ => True | Undef => False end) s.
Proof.
  intros Hs Hk Hpdu. unfold net_resend. ok_step. ok_step. cbv beta. ok_step.
  destruct (lookup_lt_is_Some_2 (subs (t_net s)) k) as [sub Hsub]; [by rewrite (tw_subs _ _ _ _ Hs)|].
  eapply ok_of_option; [exact Hsub|].
  pose proof (net_resend_next now (bt_mesh_tx_in_progress s) (t_net s) k sub pdu nk
    (tw_net _ _ _ _ Hs) Hsub Hpdu) as H.
  destruct (bt_mesh_net_resend _ _ (t_net s) sub pdu nk) as [[r m'] evs]. destruct H as [Hnext Hr].
  unfold set_net. ok_steps. eapply ok_mono.
  { apply (run_events_ok (trans_wf_at n i P)); [by apply set_net_at|].
    intros e s1 Hs1. by apply net_emit_ok. }
  cbv beta. intros _ s1 Hs1. destruct r; [|by apply ok_ret|done]. by apply ok_ret.
Qed.

(** ** Reading and writing a context *)

Lemma at_eq i P s : trans_wf_at n i P s -> exists t, P t /\ trans_wf_at n i (eq t) s.
Proof. intros [? ? ? (t & Hlk & Ht) ? ? ?]. exists t. split; [done|]. split; try done. by exists t. Qed.

Lemma at_wf i t s : st_wf n t -> trans_wf_at n i (eq t) s -> trans_wf_at n i (st_wf n) s.
Proof. intros Ht. apply trans_wf_at_mono. by intros ? <-. Qed.

Lemma get_tx_eq i t s (Q : seg_tx -> trans -> Prop) :
  trans_wf_at n i (eq t) s -> Q t s -> stm_ok (get_tx i) Q s.
Proof.
  intros [? ? ? (t' & Hlk & <-) ? ? ?] HQ. unfold get_tx. ok_steps. by eapply ok_of_option.
Qed.

Lemma mod_tx_eq i f t s (Q : unit -> trans -> Prop) : trans_wf_at n i (eq t) s ->
  (forall s', trans_wf_at n i (eq (f t)) s' -> Q tt s') -> stm_ok (mod_tx i f) Q s.
Proof.
  intros Hs HQ. unfold mod_tx. ok_steps. apply HQ.
  apply (mod_tx_at n i (eq t) (eq (f t)) f s); [by intros ? <-|done].
Qed.

(** ** Contexts *)

Lemma st_loose_set j t sg : st_loose n t -> Z.of_nat j <= st_seg_n t ->
  Z.of_nat (held (<[j:=sg]> (st_seg t))) <= st_nack_count t -> st_loose n (set_seg j sg t).
Proof.
  intros [Hl Hn Hs Hc Hsub] Hj Hh. split; try done.
  - cbn. by rewrite length_insert.
  - intros k sg' Hk. change (<[j:=sg]> (st_seg t) !! k = Some (Some sg')) in Hk.
    destruct (decide (j = k)) as [<-|Hne]; [done|]. rewrite list_lookup_insert_ne in Hk by done.
    by eapply Hs.
  - destruct Hc as [_ Hc]. by split.
Qed.

(** Replacing a held segment by another. *)
Lemma st_wf_replace j t sg sg' : st_wf n t -> st_seg t !! j = Some (Some sg) ->
  net_pdu_ok (sg_pdu sg') -> is_byte (sg_attempts sg') -> st_wf n (set_seg j (Some sg') t).
Proof.
  intros [Hl Hc Hp] Hj Hpdu Hb.
  pose proof (held_insert _ _ _ (Some sg') Hj) as Hh. cbn [held1] in Hh.
  pose proof (sl_seg _ _ Hl _ _ Hj). split.
  - apply st_loose_set; [done|lia|]. pose proof (sl_count _ _ Hl). lia.
  - destruct Hc as [Hc|Hc]; [left|by right].
    change (st_nack_count t = Z.of_nat (held (<[j:=Some sg']> (st_seg t)))). lia.
  - intros k sg'' Hk. change (<[j:=Some sg']> (st_seg t) !! k = Some (Some sg'')) in Hk.
    destruct (decide (j = k)) as [<-|Hne].
    + rewrite list_lookup_insert_eq in Hk by (by eapply lookup_lt_Some). by simplify_eq.
    + rewrite list_lookup_insert_ne in Hk by done. by eapply Hp.
Qed.

Lemma st_clear_loose t : st_loose n t -> st_nack_count t = 0 -> st_wf n (seg_tx_clear t).
Proof.
  intros [Hl Hn Hs Hc Hsub] H0. assert (held (st_seg t) = 0%nat) as Hh by lia.
  split; [split; try done|left; change (st_nack_count t = Z.of_nat (held (st_seg t))); lia|].
  intros j sg Hj. by pose proof (held_zero _ Hh _ _ Hj).
Qed.

Lemma st_free_wf t : st_loose n t -> st_wf n (seg_tx_free (seg_tx_clear t)).
Proof.
  intros [Hl Hn Hs Hc Hsub].
  set (l := replicate (Z.to_nat (st_seg_n t + 1)) None ++ drop (Z.to_nat (st_seg_n t + 1)) (st_seg t)).
  assert (Forall (fun o => o = None) l) as Hnone.
  { apply Forall_app. split; [by apply Forall_replicate|]. apply Forall_lookup_2.
    intros j o Hj. rewrite lookup_drop in Hj. destruct o as [sg|]; [|done].
    specialize (Hs _ _ Hj). lia. }
  pose proof (held_none _ Hnone) as Hh.
  assert (length l = BT_MESH_TX_SEG_COUNT) as Hlen.
  { unfold l. rewrite length_app, length_replicate, length_drop, Hl. lia. }
  assert (forall j sg, l !! j = Some (Some sg) -> False) as Hno.
  { intros j sg Hj. apply (Forall_lookup_1 _ _ _ _ Hnone) in Hj. done. }
  assert (st_seg (seg_tx_free (seg_tx_clear t)) = l /\
    st_nack_count (seg_tx_free (seg_tx_clear t)) = 0 /\
    st_seg_n (seg_tx_free (seg_tx_clear t)) = st_seg_n t) as (He1 & He2 & He3) by done.
  split; [split|..]; rewrite ?He1, ?He2, ?He3, ?Hh; try done.
  - intros j sg Hj. by destruct (Hno _ _ Hj).
  - by left.
  - intros j sg Hj. by destruct (Hno _ _ Hj).
Qed.

Lemma net_iv_update_at i P s : trans_wf_at n i P s ->
  stm_ok (net_iv_update (iv_index (t_net s)) false) (fun _ s' => trans_wf_at n i P s') s.
Proof.
  intros Hs. unfold net_iv_update, set_net, net_emit. ok_step. ok_step. cbv beta.
  destruct (nw_iv _ (tw_net _ _ _ _ Hs)) as (Hi & _).
  pose proof (iv_update_next now (bt_mesh_tx_in_progress s) (t_net s) (iv_index (t_net s)) false
    (tw_net _ _ _ _ Hs) Hi) as H.
  destruct (bt_mesh_net_iv_update _ _ (t_net s) _ false) as [[b m'] t]. ok_steps.
  by apply set_net_at.
Qed.

(** After a reset the context is free. *)
Definition st_idle (t : seg_tx) : Prop := st_wf n t /\ st_nack_count t = 0.

Lemma seg_tx_reset_at i t s : trans_wf_at n i (eq t) s -> st_loose n t ->
  stm_ok (seg_tx_reset i) (fun _ s' => trans_wf_at n i st_idle s') s.
Proof.
  intros Hs Ht. unfold seg_tx_reset. ok_steps. eapply mod_tx_eq; [done|]. intros s1 Hs1.
  ok_steps. eapply get_tx_eq; [done|]. unfold st_busy.
  change (st_nack_count (seg_tx_clear t)) with (st_nack_count t).
  change (st_seg (seg_tx_clear t)) with (st_seg t).
  change (st_seg_n (seg_tx_clear t)) with (st_seg_n t).
  destruct (Z.eqb_spec (st_nack_count t) 0) as [H0|H0]; cbn [negb].
  { ok_steps. revert Hs1. apply trans_wf_at_mono. intros ? <-. split; [by apply st_clear_loose|done]. }
  rewrite decide_False by (rewrite (sl_len _ _ Ht); pose proof (sl_n _ _ Ht); lia).
  ok_steps. eapply mod_tx_eq; [done|]. intros s2 Hs2. unfold get_net. ok_steps.
  assert (trans_wf_at n i st_idle s2) as Hs3.
  { revert Hs2. apply trans_wf_at_mono. intros ? <-. split; [by apply st_free_wf|done]. }
  clear Hs2. case_if; [|by ok_steps]. unfold set_net. ok_steps. unfold net_emit.
  set (s4 := s2 <| t_net := _ |>).
  assert (trans_wf_at n i st_idle s4) as Hs4.
  { apply set_net_at; [|done]. destruct (tw_net _ _ _ _ Hs3). split; [by split|done]. }
  change (iv_index (t_net s2)) with (iv_index (t_net s4)).
  eapply ok_mono; [by apply net_iv_update_at|]. cbv beta. intros b s5 Hs5. destruct b; by ok_steps.
Qed.

Lemma seg_tx_complete_at i t err s : trans_wf_at n i (eq t) s -> st_loose n t ->
  stm_ok (seg_tx_complete i err) (fun _ s' => trans_wf_at n i st_idle s') s.
Proof.
  intros Hs Ht. unfold seg_tx_complete. ok_steps. eapply get_tx_eq; [done|]. ok_step.
  assert (stm_ok (seg_tx_reset i) (fun _ s' => trans_wf_at n i st_idle s') s)
    by by eapply seg_tx_reset_at.
  repeat case_match; by ok_steps.
Qed.

Lemma idle_wf i s : trans_wf_at n i st_idle s -> trans_wf_at n i (st_wf n) s.
Proof. apply trans_wf_at_mono. by intros t []. Qed.

Lemma send_unacked_at k i j t s : trans_wf_at n i (eq t) s -> st_wf n t ->
  Z.of_nat (j + k) <= st_seg_n t + 1 ->
  stm_ok (send_unacked_from i j k) (fun _ s' => trans_wf_at n i (st_wf n) s') s.
Proof.
  revert j t s. induction k as [|k IH]; intros j t s Hs Ht Hj; cbn [send_unacked_from].
  { ok_steps. by eapply at_wf. }
  ok_step. eapply get_tx_eq; [done|]. ok_step.
  destruct (lookup_lt_is_Some_2 (st_seg t) j) as [o Ho].
  { pose proof (sl_n _ _ (sw_loose _ _ Ht)). rewrite (sl_len _ _ (sw_loose _ _ Ht)). lia. }
  eapply ok_of_option; [exact Ho|]. destruct o as [sg|]; [|apply (IH _ t); (done || lia)].
  case_if; [apply (IH _ t); (done || lia)|].
  destruct (sw_pdus _ _ Ht _ _ Ho) as [Hpdu Hb].
  ok_step. eapply mod_tx_eq; [done|]. intros s1 Hs1.
  set (t1 := set_seg j _ t) in Hs1.
  assert (st_wf n t1) as Ht1 by (eapply st_wf_replace; [done|done|done|apply u8_byte]).
  case_if.
  { eapply ok_mono; [eapply seg_tx_complete_at; [done|apply Ht1]|].
    cbv beta. intros _ s2 Hs2. by apply idle_wf. }
  assert (st_nack_count t <> 0) as Hn0.
  { intros H0. pose proof (sl_count _ _ (sw_loose _ _ Ht)).
    by pose proof (held_zero (st_seg t) ltac:(lia) _ _ Ho). }
  destruct (sl_sub _ _ (sw_loose _ _ Ht) Hn0) as (q & Hq & Hqn).
  change (st_sub t) with (st_sub t1). change (st_new_key t) with (st_new_key t1).
  change (st_sub t1 = Some q) in Hq. rewrite Hq. ok_step.
  eapply ok_mono; [by apply (net_resend_at i (eq t1))|]. cbv beta. intros r s2 [Hs2 Hr].
  destruct r as [p|e|]; [| |done].
  - ok_step. eapply mod_tx_eq; [done|]. intros s3 Hs3.
    assert (st_seg t1 !! j = Some (Some (mk_seg_buf (sg_pdu sg) (u8 (sg_attempts sg - 1))))) as Ho1.
    { change (<[j:=Some (mk_seg_buf (sg_pdu sg) (u8 (sg_attempts sg - 1)))]> (st_seg t) !! j =
        Some (Some (mk_seg_buf (sg_pdu sg) (u8 (sg_attempts sg - 1))))).
      apply list_lookup_insert_eq. by eapply lookup_lt_Some. }
    eapply IH; [exact Hs3|eapply st_wf_replace; [done|exact Ho1|done|apply u8_byte]|].
    change (Z.of_nat (S j + k) <= st_seg_n t + 1). lia.
  - eapply ok_mono; [eapply seg_tx_complete_at; [done|apply Ht1]|].
    cbv beta. intros _ s3 Hs3. by apply idle_wf.
Qed.

Lemma seg_tx_send_unacked_at i s : trans_wf_at n i (st_wf n) s ->
  stm_ok (seg_tx_send_unacked i) (fun _ s' => trans_wf_at n i (st_wf n) s') s.
Proof.
  intros Hs. destruct (at_eq _ _ _ Hs) as (t & Ht & Hs'). unfold seg_tx_send_unacked. ok_step.
  eapply get_tx_eq; [done|]. pose proof (sl_n _ _ (sw_loose _ _ Ht)).
  apply (send_unacked_at _ _ _ t); [done|done|lia].
Qed.

(** The callbacks do not touch the contexts. *)
Lemma seg_send_start_at i P d err s : trans_wf_at n i P s ->
  stm_ok (seg_send_start i d err) (fun _ s' => trans_wf_at n i P s') s.
Proof.
  intros Hs. destruct (at_eq _ _ _ Hs) as (t & Ht & Hs'). unfold seg_send_start. ok_step.
  eapply get_tx_eq; [done|]. repeat case_match; by ok_steps.
Qed.

Lemma seg_event_at i P e s : trans_wf_at n i P s ->
  stm_ok (seg_event i e) (fun _ s' => trans_wf_at n i P s') s.
Proof. intros Hs. destruct e; cbn [seg_event]; try by ok_steps. by apply seg_send_start_at. Qed.

(** ** Sending *)

Lemma friend_only_ok tx t sa pdu (Q : bool -> trans -> Prop) s : Q false s ->
  (CONFIG_FRIEND = true -> t = PDU_SINGLE \/ (16 <= length pdu)%nat -> Q true s) ->
  stm_ok (friend_only tx t sa pdu) Q s.
Proof.
  intros Hno Hyes. unfold friend_only. case_if; [|by ok_steps].
  apply andb_true_iff in Heqb as [Hf Hq]. ok_steps.
  destruct (BT_MESH_ADDR_IS_UNICAST _) eqn:Hu; [|done]. apply Hyes; [done|]. by eapply friend_takes_long.
Qed.

Lemma send_unseg_at i P tx sdu cb s : trans_wf_at n i P s -> tx_ok n tx ->
  is_bytes sdu -> (length sdu <= 19)%nat ->
  stm_ok (send_unseg tx sdu cb) (fun r s' => trans_wf_at n i P s' /\ tx_ok n (snd r)) s.
Proof.
  intros Hs Htx Hb Hl. unfold send_unseg. case_if; [by ok_steps|].
  ok_step. apply friend_only_ok; [|by ok_steps]. ok_step. eapply ok_mono.
  { apply (net_send_at i P); [done|done|apply Forall_cons_2; [apply u8_byte|done]|cbn; lia|].
    intros e s1 Hs1. by apply net_emit_ok. }
  cbv beta. intros [r tx'] s1 (Hs1 & Htx' & _). by ok_steps.
Qed.

Lemma ctl_send_at i P tx op data sa cb s : trans_wf_at n i P s -> tx_ok n tx ->
  is_bytes data -> (length data <= 19)%nat ->
  stm_ok (bt_mesh_ctl_send tx op data sa cb) (fun r s' => trans_wf_at n i P s' /\ tx_ok n (snd r)) s.
Proof.
  intros Hs Htx Hb Hl. unfold bt_mesh_ctl_send. case_if; [by ok_steps|].
  ok_step. apply friend_only_ok; [|by ok_steps]. ok_step. eapply ok_mono.
  { apply (net_send_at i P); [done|done|apply Forall_cons_2; [apply u8_byte|done]|cbn; lia|].
    intros e s1 Hs1. by apply net_emit_ok. }
  cbv beta. intros [r tx'] s1 (Hs1 & Htx' & _). by ok_steps.
Qed.

(** While a message is sent, the segments below [k] are held and encoded. *)
Record st_sending (k : nat) (t : seg_tx) : Prop := {
  ss_loose : st_loose n t;
  ss_nack : st_nack_count t = st_seg_n t + 1;
  ss_held : forall j, (j < k)%nat -> exists sg, st_seg t !! j = Some (Some sg) /\
              net_pdu_ok (sg_pdu sg) /\ is_byte (sg_attempts sg);
  ss_free : forall j, (k <= j)%nat -> st_seg t !! j = Some None \/ st_seg t !! j = None
}.

Lemma held_prefix (l : list (option seg_buf)) k : (k <= length l)%nat ->
  (forall j, (j < k)%nat -> exists sg, l !! j = Some (Some sg)) ->
  (forall j, (k <= j)%nat -> l !! j = Some None \/ l !! j = None) -> held l = k.
Proof.
  revert k. induction l as [|x l IH]; intros k Hk Hlo Hhi; [cbn in *; lia|].
  unfold held in *. destruct k as [|k].
  - destruct (Hhi 0%nat ltac:(lia)) as [Hx|Hx]; [|done]. injection Hx as ->. cbn.
    apply (IH 0%nat); [lia|lia|]. intros j _. apply (Hhi (S j)). lia.
  - destruct (Hlo 0%nat ltac:(lia)) as [sg Hx]. injection Hx as ->. cbn. f_equal.
    apply IH; [cbn in Hk; lia| |].
    + intros j Hj. apply (Hlo (S j)). lia.
    + intros j Hj. apply (Hhi (S j)). lia.
Qed.

Lemma st_sending_set k t sg : st_sending k t -> Z.of_nat k <= st_seg_n t ->
  st_loose n (set_seg k (Some sg) t) /\
  (net_pdu_ok (sg_pdu sg) -> is_byte (sg_attempts sg) -> st_sending (S k) (set_seg k (Some sg) t)).
Proof.
  intros [Hl Hn Hh Hf] Hk.
  pose proof (sl_n _ _ Hl) as Hsn. pose proof (sl_len _ _ Hl) as Hlen.
  assert (k < length (st_seg t))%nat as Hkl by (rewrite Hlen; lia).
  assert (held (st_seg t) = k) as Hheld.
  { apply held_prefix; [lia| |done]. intros j Hj. destruct (Hh j Hj) as (x & ? & _). by exists x. }
  destruct (Hf k ltac:(lia)) as [Hnone|Hnone]; [|apply lookup_ge_None_1 in Hnone; lia].
  pose proof (held_insert _ _ _ (Some sg) Hnone) as Hi. cbn [held1] in Hi.
  assert (st_loose n (set_seg k (Some sg) t)) as Hloose.
  { apply st_loose_set; [done|done|lia]. }
  split; [done|]. intros Hp Hb. split; [done|done| |].
  - intros j Hj. change (exists x, <[k:=Some sg]> (st_seg t) !! j = Some (Some x) /\
      net_pdu_ok (sg_pdu x) /\ is_byte (sg_attempts x)).
    destruct (decide (j = k)) as [->|]; [exists sg; by rewrite list_lookup_insert_eq|].
    rewrite list_lookup_insert_ne by done. apply Hh. lia.
  - intros j Hj. change (<[k:=Some sg]> (st_seg t) !! j = Some None \/
      <[k:=Some sg]> (st_seg t) !! j = None).
    rewrite list_lookup_insert_ne by lia. apply Hf. lia.
Qed.

Lemma st_sending_again k t sg sg' : st_sending k t -> Z.of_nat k <= st_seg_n t ->
  net_pdu_ok (sg_pdu sg') -> is_byte (sg_attempts sg') ->
  st_sending (S k) (set_seg k (Some sg') (set_seg k (Some sg) t)).
Proof.
  intros Hs Hk Hp Hb. destruct (st_sending_set k t sg' Hs Hk) as [_ H].
  replace (set_seg k (Some sg') (set_seg k (Some sg) t)) with (set_seg k (Some sg') t); [by apply H|].
  unfold set_seg, update_field. cbn. by rewrite list_insert_insert_eq.
Qed.

Lemma st_sending_done k t : st_sending k t -> Z.of_nat k = st_seg_n t + 1 -> st_wf n t.
Proof.
  intros [Hl Hn Hh Hf] Hk. pose proof (sl_n _ _ Hl) as Hsn.
  assert (held (st_seg t) = k) as Hheld.
  { apply held_prefix; [rewrite (sl_len _ _ Hl); lia| |done].
    intros j Hj. destruct (Hh j Hj) as (x & ? & _). by exists x. }
  split; [done|lia|]. intros j sg Hj. destruct (decide (j < k)%nat) as [Hlt|Hge].
  - destruct (Hh j Hlt) as (x & Hx & Hp). by simplify_eq.
  - destruct (Hf j ltac:(lia)); by simplify_eq.
Qed.

(** The friend queue has taken segment [k] as it is: the others are never sent,
    and the context stays in use. *)
Lemma st_sending_stuck k t sg : st_sending k t -> Z.of_nat k <= st_seg_n t -> CONFIG_FRIEND = true ->
  net_pdu_ok (sg_pdu sg) -> is_byte (sg_attempts sg) -> st_wf n (set_seg k (Some sg) t).
Proof.
  intros Ht Hk Hfr Hp Hb. destruct (st_sending_set k t sg Ht Hk) as [Hl Hs]. specialize (Hs Hp Hb).
  split; [done|by right|]. intros j sg' Hj. destruct (decide (j < S k)%nat) as [Hlt|Hge].
  - destruct (ss_held _ _ Hs j Hlt) as (x & Hx & Hok). by simplify_eq.
  - destruct (ss_free _ _ Hs j ltac:(lia)); by simplify_eq.
Qed.

Lemma seg_pdu_bytes hdr aszmic seq_zero seg_o seg_n payload : is_bytes payload ->
  is_bytes (seg_pdu hdr aszmic seq_zero seg_o seg_n payload) /\
  length (seg_pdu hdr aszmic seq_zero seg_o seg_n payload) = (4 + length payload)%nat.
Proof.
  intros Hp. split; [|done]. unfold seg_pdu.
  repeat (apply Forall_cons_2; [apply u8_byte|]). done.
Qed.

Lemma send_segs_at f i k t hdr seq_zero tx sdu s : trans_wf_at n i (eq t) s ->
  st_sending k t -> tx_ok n tx -> is_bytes sdu -> (length sdu <= f)%nat ->
  Z.of_nat (length sdu + 11) / 12 + Z.of_nat k = st_seg_n t + 1 ->
  stm_ok (send_segs f i (Z.of_nat k) hdr seq_zero tx sdu)
    (fun r s' => trans_wf_at n i (st_wf n) s' /\ tx_ok n (snd r)) s.
Proof.
  revert k t tx sdu s. induction f as [|f IH]; intros k t tx sdu s Hs Ht Htx Hb Hf Hk.
  { destruct sdu; [|cbn in Hf; lia]. cbn [send_segs]. ok_step. split; [|done].
    eapply at_wf; [|done]. by eapply st_sending_done. }
  destruct sdu as [|b sdu].
  { cbn [send_segs]. ok_step. split; [|done]. eapply at_wf; [|done]. by eapply st_sending_done. }
  cbn [send_segs]. pose proof (sl_n _ _ (ss_loose _ _ Ht)) as Hsn.
  remember (b :: sdu) as l eqn:Hl. assert (0 < length l)%nat as Hpos by (subst l; cbn; lia).
  clear Hl b sdu.
  assert (Z.of_nat k <= st_seg_n t) as Hkn by (Z.div_mod_to_equations; lia).
  assert (forall t', st_loose n t' -> forall s' e tx', trans_wf_at n i (eq t') s' -> tx_ok n tx' ->
    stm_ok (seg_tx_reset i ;; mret (Some (e : Z), tx'))
      (fun r s' => trans_wf_at n i (st_wf n) s' /\ tx_ok n (snd r)) s') as Hreset.
  { intros t' Ht' s' e tx' Hs' Htx'. ok_step. eapply ok_mono; [by eapply seg_tx_reset_at|].
    cbv beta. intros _ s2 Hs2. ok_step. split; [by apply idle_wf|done]. }
  case_if; [by eapply Hreset; [apply Ht|..]|].
  ok_step. eapply get_tx_eq; [done|]. rewrite Nat2Z.id.
  destruct (lookup_lt_is_Some_2 (st_seg t) k) as [o Ho].
  { rewrite (sl_len _ _ (ss_loose _ _ Ht)). lia. }
  set (pdu := seg_pdu hdr _ seq_zero _ (st_seg_n t) _).
  destruct (seg_pdu_bytes hdr (tx_aszmic tx) seq_zero (Z.of_nat k) (st_seg_n t)
    (take (Nat.min (length l) 12) l) ltac:(auto with bytes)) as [Hpb Hpl].
  rewrite length_take in Hpl.
  ok_step. eapply ok_of_option; [exact Ho|]. ok_step. eapply mod_tx_eq; [done|]. intros s1 Hs1.
  destruct (st_sending_set k t (mk_seg_buf pdu SEG_RETRANSMIT_ATTEMPTS) Ht Hkn) as [Hloose _].
  ok_step. apply friend_only_ok.
  2: { intros Hfr Hlong. ok_step. split; [|done]. eapply at_wf; [|exact Hs1].
       eapply st_sending_stuck; [done|done|done| |by cbn]. split; [exact Hpb|]. cbn [sg_pdu].
       destruct Hlong as [Hlong|?]; [by destruct (_ =? _)|]. unfold pdu in *. lia. }
  ok_step. eapply ok_mono.
  { apply (net_send_at i); [exact Hs1|done|exact Hpb|unfold pdu; lia|].
    intros e s2 Hs2. by apply seg_event_at. }
  cbv beta. intros [r tx'] s2 (Hs2 & Htx' & Hr). cbn [fst snd] in *.
  destruct r as [enc|e|]; [|by eapply Hreset|done].
  ok_step. eapply mod_tx_eq; [done|]. intros s3 Hs3.
  destruct Hr as (Heb & Hel & Hel').
  replace (u8 (Z.of_nat k + 1)) with (Z.of_nat (S k))
    by (unfold BT_MESH_TX_SEG_COUNT, CONFIG_BT_MESH_ADV_BUF_COUNT in Hsn; cbn in Hsn; word_lia).
  eapply IH; [exact Hs3|apply st_sending_again; [done|done|split; [done|]|by cbn]|done|auto with bytes| |].
  - cbn [sg_pdu]. unfold pdu in Hel'. lia.
  - rewrite length_drop. lia.
  - change (Z.of_nat (length (drop (Nat.min (length l) 12) l) + 11) / 12 + Z.of_nat (S k) =
      st_seg_n t + 1). rewrite length_drop. Z.div_mod_to_equations; lia.
Qed.

(** A new message in a free context. *)
Lemma seg_tx_start_ok m tx kr len cb t : st_wf n t -> st_nack_count t = 0 ->
  (tx_sub tx < n)%nat -> (1 <= len <= BT_MESH_TX_SDU_MAX)%nat ->
  st_sending 0 (seg_tx_start m tx kr len cb t) /\
  st_seg_n (seg_tx_start m tx kr len cb t) = (Z.of_nat len - 1) / 12.
Proof.
  intros [Hl Hc Hp] H0 Hsub Hlen.
  assert (0 <= (Z.of_nat len - 1) / 12 < Z.of_nat BT_MESH_TX_SEG_COUNT) as Hrange.
  { unfold BT_MESH_TX_SDU_MAX in Hlen. Z.div_mod_to_equations; lia. }
  assert (Z.land ((Z.of_nat len - 1) / 12) 0x1f = (Z.of_nat len - 1) / 12) as He.
  { change 0x1f with (Z.ones 5). rewrite Z.land_ones by lia. apply Z.mod_small.
    cbn in Hrange. change (2 ^ 5) with 32. lia. }
  assert (st_seg_n (seg_tx_start m tx kr len cb t) = (Z.of_nat len - 1) / 12) as Hn.
  { exact He. }
  split; [|done].
  assert (held (st_seg t) = 0%nat) as Hh by (pose proof (sl_count _ _ Hl); lia).
  assert (st_seg (seg_tx_start m tx kr len cb t) = st_seg t /\
    st_nack_count (seg_tx_start m tx kr len cb t) = (Z.of_nat len - 1) / 12 + 1 /\
    st_sub (seg_tx_start m tx kr len cb t) = Some (tx_sub tx)) as (He1 & He2 & He3).
  { split; [done|]. split; [|done]. rewrite <- He. done. }
  split; [split|..]; rewrite ?He1, ?He2, ?He3, ?Hn, ?Hh; try done; try lia.
  - apply Hl.
  - intros j sg Hj. by pose proof (held_zero _ Hh _ _ Hj).
  - intros _. by exists (tx_sub tx).
  - intros j _. destruct (st_seg t !! j) as [o|] eqn:Ho; [|by right].
    left. by rewrite (held_zero _ Hh _ _ Ho).
Qed.

(** *** The entry points *)

Lemma trans_wf_at_of i t s : trans_wf n s -> t_seg_tx s !! i = Some t ->
  trans_wf_at n i (eq t) s /\ st_wf n t.
Proof.
  intros (Hn & Hs & Hl & Ht & Hrl & Hr) Hi.
  split; [|by eapply Forall_lookup_1 in Ht]. split; try done; [by exists t|].
  intros j t' _ Hj. by eapply Forall_lookup_1 in Ht.
Qed.

Lemma trans_wf_of i s : (i < CONFIG_BT_MESH_TX_SEG_MSG_COUNT)%nat ->
  trans_wf_at n i (st_wf n) s -> trans_wf n s.
Proof. intros Hi. by apply trans_wf_split. Qed.

(** Every context of a well-formed state can be singled out. *)
Lemma trans_wf_any s : trans_wf n s -> trans_wf_at n 0 (st_wf n) s.
Proof. intros Hs. apply trans_wf_split; [cbv; lia|done]. Qed.
Lemma trans_wf_of_any s : trans_wf_at n 0 (st_wf n) s -> trans_wf n s.
Proof. apply trans_wf_of. cbv. lia. Qed.

Lemma send_seg_ok tx sdu cb s : trans_wf n s -> tx_ok n tx -> is_bytes sdu ->
  stm_ok (send_seg tx sdu cb) (fun r s' => trans_wf n s' /\ tx_ok n (snd r)) s.
Proof.
  intros Hs Htx Hb. unfold send_seg.
  destruct (decide (length sdu < 1)%nat) as [|Hlo]; [by ok_steps|].
  destruct (decide (BT_MESH_TX_SDU_MAX < length sdu)%nat) as [|Hhi]; [by ok_steps|].
  ok_step. ok_step. destruct (find_index _ (t_seg_tx s)) as [i|] eqn:Hi; [|by ok_steps].
  apply find_index_Some in Hi as (t & Hti & Hidle).
  destruct (trans_wf_at_of i t s Hs Hti) as [Hat Ht].
  apply negb_true_iff in Hidle. unfold st_busy in Hidle. apply negb_false_iff, Z.eqb_eq in Hidle.
  assert (i < CONFIG_BT_MESH_TX_SEG_MSG_COUNT)%nat as Hi.
  { rewrite <- (tw_tx_len _ _ _ _ Hat). by eapply lookup_lt_Some. }
  destruct Htx as [Hsub Httl].
  destruct (lookup_lt_is_Some_2 (subs (t_net s)) (tx_sub tx)) as [sub Hlk];
    [by rewrite (tw_subs _ _ _ _ Hat)|].
  ok_step. eapply ok_of_option; [exact Hlk|]. ok_step. eapply mod_tx_eq; [done|]. intros s1 Hs1.
  destruct (seg_tx_start_ok (t_net s) tx (sub_kr_flag sub) (length sdu) cb t Ht Hidle Hsub
    ltac:(lia)) as [Hsend Hsn].
  ok_step. eapply get_tx_eq; [done|]. ok_step. eapply ok_mono.
  { eapply (send_segs_at (length sdu) i 0); [exact Hs1|exact Hsend|by split|done|lia|].
    rewrite Hsn. Z.div_mod_to_equations; lia. }
  cbv beta. intros [r tx'] s2 [Hs2 Htx']. apply (trans_wf_of i _ Hi) in Hs2.
  destruct r; [by ok_steps|]. ok_step. case_if; by ok_steps.
Qed.

Lemma send_unseg_ok tx sdu cb s : trans_wf n s -> tx_ok n tx -> is_bytes sdu ->
  (length sdu <= 19)%nat ->
  stm_ok (send_unseg tx sdu cb) (fun r s' => trans_wf n s' /\ tx_ok n (snd r)) s.
Proof.
  intros Hs Htx Hb Hl. eapply ok_mono; [by apply (send_unseg_at 0 (st_wf n)); [apply trans_wf_any|..]|].
  cbv beta. intros r s' [Hs' Htx']. split; [by apply trans_wf_of_any|done].
Qed.

Lemma ctl_send_ok tx op data sa cb s : trans_wf n s -> tx_ok n tx -> is_bytes data ->
  (length data <= 19)%nat ->
  stm_ok (bt_mesh_ctl_send tx op data sa cb) (fun r s' => trans_wf n s' /\ tx_ok n (snd r)) s.
Proof.
  intros Hs Htx Hb Hl. eapply ok_mono; [by apply (ctl_send_at 0 (st_wf n)); [apply trans_wf_any|..]|].
  cbv beta. intros r s' [Hs' Htx']. split; [by apply trans_wf_of_any|done].
Qed.

Lemma trans_key_ok m sub idx aid key : net_wf m -> trans_key m sub idx = Some (aid, key) ->
  is_block key.
Proof.
  intros Hm. unfold trans_key, bt_mesh_app_key_find. case_if; [intros [= _ <-]; apply Hm|].
  destruct (List.find _ (app_keys m)) as [k|] eqn:Hf; [|done]. cbn.
  apply List.find_some in Hf as [Hin _].
  pose proof (proj1 (List.Forall_forall _ _) (nw_app m Hm) k Hin) as [H0 H1].
  intros [= Hk]. revert Hk. case_if; intros Hk; rewrite Hk in *; done.
Qed.

Lemma trans_send_ok tx msg room cb s : trans_wf n s -> tx_ok n tx -> is_bytes msg ->
  (0 < length msg)%nat -> Z.of_nat (length msg) < 65536 ->
  stm_ok (bt_mesh_trans_send tx msg room cb) (fun r s' => trans_wf n s' /\ tx_ok n (snd r)) s.
Proof.
  intros Hs Htx Hb Hlo Hhi. unfold bt_mesh_trans_send. case_if; [by ok_steps|].
  set (tx1 := if decide (11 < length msg)%nat then _ else tx).
  assert (tx_ok n tx1 /\ tx_sub tx1 = tx_sub tx /\ tx_src tx1 = tx_src tx /\
    (ctx_send_rel (tx_ctx tx1) = false -> (length msg <= 11)%nat)) as (Htx1 & Hs1 & _ & Hrel).
  { unfold tx1. destruct (decide (11 < length msg)%nat); [|split_and!; (done || lia)].
    by split. }
  clearbody tx1. unfold get_net. ok_steps. pose proof Hs as (Hnet & Hn & _).
  destruct Htx1 as [Hsub Httl]. eapply ok_mono.
  { destruct (lookup_lt_is_Some_2 (subs (t_net s)) (tx_sub tx1)) as [sub Hlk]; [lia|].
    eapply (ok_of_option _ sub (fun a s' => s' = s)); [exact Hlk|done]. }
  cbv beta. intros sub s' ->.
  destruct (trans_key (t_net s) sub _) as [[aid key]|] eqn:Hk; [|by ok_steps].
  apply trans_key_ok in Hk; [|done].
  set (ad := if BT_MESH_ADDR_IS_VIRTUAL _ then _ else None).
  assert (from_option is_block True ad) as Had.
  { unfold ad. case_if; [|done]. destruct (label_uuid_get _) eqn:Hl; [|done].
    by eapply label_uuid_ok. }
  set (aszmic := if negb (ctx_send_rel (tx_ctx tx1)) || (room <? 8) then 0 else 1).
  destruct (app_crypt_ok key (ctx_app_idx (tx_ctx tx1) =? BT_MESH_KEY_DEV) aszmic msg ad
    (tx_src tx1) (ctx_addr (tx_ctx tx1)) (seq_num (t_net s)) (BT_MESH_NET_IVI_TX (t_net s))
    Hk Hb ltac:(lia) Had) as (enc & He & Hel & _).
  pose proof (app_encrypt_bytes _ _ _ _ _ _ _ _ _ _ Hk Hb ltac:(lia) Had He).
  change (tx_src (tx1 <| tx_aid := aid |> <| tx_aszmic := aszmic |>)) with (tx_src tx1).
  rewrite He. destruct (ctx_send_rel (tx_ctx tx1)) eqn:Hr.
  - by apply send_seg_ok.
  - apply send_unseg_ok; [done|done|done|]. unfold aszmic in Hel. cbn in Hel. specialize (Hrel eq_refl). lia.
Qed.

Lemma trans_resend_ok tx msg cb s : trans_wf n s -> tx_ok n tx -> is_bytes msg ->
  stm_ok (bt_mesh_trans_resend tx msg cb) (fun r s' => trans_wf n s' /\ tx_ok n (snd r)) s.
Proof.
  intros Hs Htx Hb. unfold bt_mesh_trans_resend. case_if; [by apply send_seg_ok|].
  apply send_unseg_ok; try done. apply orb_false_iff in Heqb as [_ Hl].
  apply bool_decide_eq_false in Hl. lia.
Qed.

(** ** Acknowledgements *)

(** The segments an acknowledgement leaves. *)
Definition ack_seg (ack : Z) (j : nat) (o : option seg_buf) : option seg_buf :=
  if Z.testbit ack (Z.of_nat j) then None else o.
Definition acked (ack : Z) (t : seg_tx) : seg_tx :=
  t <| st_seg := imap (ack_seg ack) (st_seg t) |>
    <| st_nack_count := st_nack_count t -
         (Z.of_nat (held (st_seg t)) - Z.of_nat (held (imap (ack_seg ack) (st_seg t)))) |>.

Lemma imap_ack_zero l : imap (ack_seg 0) l = l.
Proof.
  apply list_eq. intros j. rewrite list_lookup_imap. destruct (l !! j) as [o|]; [|done].
  cbn. unfold ack_seg. by rewrite Z.bits_0.
Qed.

(** Freeing the segment of the lowest bit and then the others. *)
Lemma imap_ack_step l ack b : lowest_bit ack b ->
  imap (ack_seg (Z.ldiff ack (MESH_BIT b))) (<[Z.to_nat b:=None]> l) = imap (ack_seg ack) l.
Proof.
  intros (Hb & Htb & _). apply list_eq. intros j. rewrite !list_lookup_imap.
  destruct (decide (j = Z.to_nat b)) as [->|Hne].
  - destruct (l !! Z.to_nat b) as [o|] eqn:Hl.
    + rewrite list_lookup_insert_eq by (by eapply lookup_lt_Some). cbn. unfold ack_seg.
      rewrite Z2Nat.id, Htb by done. by case_match.
    + rewrite (lookup_ge_None_2 (<[_:=_]> l)); [done|]. rewrite length_insert.
      by apply lookup_ge_None_1.
  - rewrite list_lookup_insert_ne by done. destruct (l !! j) as [o|]; [|done]. cbn. f_equal.
    unfold ack_seg. rewrite Z.ldiff_spec. unfold MESH_BIT. rewrite Z.shiftl_1_l, Z.pow2_bits_eqb by done.
    destruct (Z.eqb_spec b (Z.of_nat j)) as [->|]; [|by rewrite andb_true_r].
    rewrite Nat2Z.id in Hne. done.
Qed.

Lemma alter_insert {A} (f : A -> A) (l : list A) (i : nat) x : l !! i = Some x -> alter f i l = <[i:=f x]> l.
Proof.
  revert i. induction l as [|y l IH]; intros [|i] Hi; try done; [by injection Hi as ->|].
  change (y :: alter f i l = y :: <[i:=f x]> l). f_equal. by apply IH.
Qed.

Lemma get_tx_run i t s : t_seg_tx s !! i = Some t -> get_tx i s = Some (t, s, []).
Proof. intros Hi. unfold get_tx. rewrite (stm_bind_pure _ _ _ s s) by done. by rewrite Hi. Qed.

(** The loop over the bits of an acknowledgement, exactly. *)
Lemma ack_segs_eq f i t ack s : t_seg_tx s !! i = Some t ->
  Z.of_nat (held (st_seg t)) <= st_nack_count t <= Z.of_nat BT_MESH_TX_SEG_COUNT ->
  length (st_seg t) = BT_MESH_TX_SEG_COUNT -> 0 <= ack < 2 ^ Z.of_nat BT_MESH_TX_SEG_COUNT ->
  (forall j, j < 32 - Z.of_nat f -> Z.testbit ack j = false) ->
  ack_segs f i ack s = Some (tt, s <| t_seg_tx := <[i:=acked ack t]> (t_seg_tx s) |>, []).
Proof.
  revert ack t s. induction f as [|f IH]; intros ack t s Hi Hc Hl Hack Hlow; cbn [ack_segs].
  - assert (ack = 0) as ->.
    { apply Z.bits_inj'. intros j Hj. rewrite Z.bits_0.
      destruct (decide (j < 32)); [apply Hlow; lia|].
      apply (testbit_high (Z.of_nat BT_MESH_TX_SEG_COUNT)); [lia|done|cbn; lia]. }
    rewrite (stm_bind_pure _ _ _ 0 s) by done. cbn [Z.eqb].
    unfold mret, stm_mret. do 3 f_equal. unfold acked. rewrite imap_ack_zero, Z.sub_diag, Z.sub_0_r.
    destruct t, s. cbn in *. unfold update_field. cbn. by rewrite list_insert_id.
  - destruct (decide (ack = 0)) as [->|Hne].
    { rewrite (stm_bind_pure _ _ _ 0 s) by done. cbn [Z.eqb].
      unfold mret, stm_mret. do 3 f_equal. unfold acked. rewrite imap_ack_zero, Z.sub_diag, Z.sub_0_r.
      destruct t, s. cbn in *. unfold update_field. cbn. by rewrite list_insert_id. }
    assert (0 < ack < 4294967296) as Hrange.
    { cbn in Hack. change (2 ^ 9) with 512 in Hack. lia. }
    destruct (find_lsb_set_lowest ack Hrange) as (b & Hb & Hlsb). pose proof Hb as (Hb0 & Htb & Hbl).
    rewrite (stm_bind_pure _ _ s (b + 1) s) by by rewrite Hlsb. destruct (Z.eqb_spec (b + 1) 0); [lia|].
    replace (b + 1 - 1) with b by lia.
    assert (b < Z.of_nat BT_MESH_TX_SEG_COUNT) as Hbn.
    { destruct (Z.lt_ge_cases b (Z.of_nat BT_MESH_TX_SEG_COUNT)); [done|].
      assert (Z.testbit ack b = false); [|congruence].
      apply (testbit_high (Z.of_nat BT_MESH_TX_SEG_COUNT)); [lia|done|done]. }
    destruct (lookup_lt_is_Some_2 (st_seg t) (Z.to_nat b)) as [o Ho]; [rewrite Hl; lia|].
    assert (forall j, j < 32 - Z.of_nat f -> Z.testbit (Z.ldiff ack (MESH_BIT b)) j = false) as Hlow'.
    { intros j Hj. rewrite Z.ldiff_spec. unfold MESH_BIT. rewrite Z.shiftl_1_l, Z.pow2_bits_eqb by done.
      destruct (Z.eqb_spec b j); [apply andb_false_r|]. rewrite Hbl; [done|].
      destruct (Z.lt_ge_cases j b); [done|]. assert (Z.testbit ack b = false); [|congruence].
      apply Hlow. lia. }
    assert (0 <= Z.ldiff ack (MESH_BIT b) < 2 ^ Z.of_nat BT_MESH_TX_SEG_COUNT) as Hack'.
    { apply bounded_testbit; [lia|]. split; [apply Z.ldiff_nonneg; lia|]. intros j Hj.
      rewrite Z.ldiff_spec, (testbit_high (Z.of_nat BT_MESH_TX_SEG_COUNT) ack); [done|lia|done|done]. }
    pose proof (imap_ack_step (st_seg t) ack b Hb) as Hstep.
    rewrite (stm_bind_pure _ _ _ _ _ (get_tx_run i t s Hi)).
    rewrite (stm_bind_pure _ _ s o s) by by rewrite Ho.
    destruct o as [sg|].
    + pose proof (held_insert _ _ _ None Ho) as Hh. cbn [held1] in Hh.
      set (t' := set_seg (Z.to_nat b) None t <| st_nack_count := u8 (st_nack_count t - 1) |>).
      assert (u8 (st_nack_count t - 1) = st_nack_count t - 1) as Hu.
      { unfold BT_MESH_TX_SEG_COUNT, CONFIG_BT_MESH_ADV_BUF_COUNT in Hc. cbn in Hc. word_lia. }
      assert (Z.of_nat (held (st_seg t')) <= st_nack_count t' <= Z.of_nat BT_MESH_TX_SEG_COUNT) as Hc'.
      { change (Z.of_nat (held (<[Z.to_nat b:=None]> (st_seg t))) <= u8 (st_nack_count t - 1) <= Z.of_nat BT_MESH_TX_SEG_COUNT).
        lia. }
      erewrite stm_bind_pure by (unfold mod_tx, stm_modify; by rewrite (alter_insert _ _ _ _ Hi)).
      rewrite (IH _ t'); [|by apply list_lookup_insert_eq, (lookup_lt_Some _ _ _ Hi)|done| |done|done].
      2: { change (length (<[Z.to_nat b:=None]> (st_seg t)) = BT_MESH_TX_SEG_COUNT). by rewrite length_insert. }
      fold t'.
      change (t_seg_tx (s <| t_seg_tx := <[i:=t']> (t_seg_tx s) |>)) with (<[i:=t']> (t_seg_tx s)).
      rewrite list_insert_insert_eq.
      assert (acked (Z.ldiff ack (MESH_BIT b)) t' = acked ack t) as ->; [|done].
      unfold acked. change (st_seg t') with (<[Z.to_nat b:=None]> (st_seg t)). rewrite Hstep.
      change (st_nack_count t') with (u8 (st_nack_count t - 1)). rewrite Hu.
      replace (st_nack_count t - 1 - _) with (st_nack_count t -
        (Z.of_nat (held (st_seg t)) - Z.of_nat (held (imap (ack_seg ack) (st_seg t))))) by lia. done.
    + rewrite (stm_bind_pure _ _ _ tt s) by done. rewrite (IH _ t) by done.
      assert (acked (Z.ldiff ack (MESH_BIT b)) t = acked ack t) as ->; [|done].
      unfold acked. rewrite <- Hstep. by rewrite (list_insert_id _ _ _ Ho).
Qed.

Lemma ack_seg_held ack t j sg : st_seg (acked ack t) !! j = Some (Some sg) <->
  st_seg t !! j = Some (Some sg) /\ Z.testbit ack (Z.of_nat j) = false.
Proof.
  change (st_seg (acked ack t)) with (imap (ack_seg ack) (st_seg t)). rewrite list_lookup_imap.
  destruct (st_seg t !! j) as [o|]; cbn; [|split; [done|by intros [? _]]].
  unfold ack_seg. destruct (Z.testbit ack (Z.of_nat j)); [by split; [|intros [_ ?]]|].
  split; [by intros [= ->]|by intros [[= ->] _]].
Qed.

Lemma held_imap_le ack l : (held (imap (ack_seg ack) l) <= held l)%nat.
Proof.
  enough (forall k, held (imap (fun j => ack_seg ack (k + j)%nat) l) <= held l)%nat as H by apply (H 0%nat).
  assert (forall o l, held (o :: l) = held1 o + held l)%nat as Hcons by by intros [].
  induction l as [|o l IH]; intros k; [done|]. rewrite imap_cons, !Hcons.
  assert (imap ((fun j => ack_seg ack (k + j)%nat) ∘ S) l = imap (fun j => ack_seg ack (S k + j)%nat) l) as ->
    by (apply imap_ext; intros j x _; cbn; f_equal; lia).
  specialize (IH (S k)). assert (held1 (ack_seg ack (k + 0)%nat o) <= held1 o)%nat; [|lia].
  unfold ack_seg. destruct (Z.testbit _ _), o; cbn; lia.
Qed.

Lemma acked_wf ack t : st_wf n t -> st_wf n (acked ack t).
Proof.
  intros [[Hl Hn Hs Hc Hsub] Hcount Hp]. pose proof (held_imap_le ack (st_seg t)) as Hle.
  assert (st_nack_count (acked ack t) = st_nack_count t -
    (Z.of_nat (held (st_seg t)) - Z.of_nat (held (imap (ack_seg ack) (st_seg t))))) as Hc' by done.
  assert (st_seg (acked ack t) = imap (ack_seg ack) (st_seg t)) as He by done.
  split; [split|..].
  - rewrite He. by rewrite length_imap.
  - done.
  - intros j sg Hj. apply ack_seg_held in Hj as [Hj _]. by eapply Hs.
  - rewrite Hc', He. lia.
  - rewrite Hc'. intros Hne. apply Hsub. lia.
  - rewrite Hc', He. destruct Hcount as [Hcount|]; [left; lia|by right].
  - intros j sg Hj. apply ack_seg_held in Hj as [Hj _]. by eapply Hp.
Qed.

Lemma st_dst_wf t dst : st_wf n t -> st_wf n (t <| st_dst := dst |>).
Proof. intros [[] ? ?]. by split. Qed.

(** The context with the acknowledged segments freed goes on. *)
Definition ack_continue (i : nat) (t : seg_tx) : T unit :=
  if st_busy t then seg_tx_send_unacked i else seg_tx_complete i 0.

Lemma trans_ack_run rx buf sa s i t : trans_wf n s -> (6 <= length buf)%nat ->
  CONFIG_FRIEND && rx_friend_match rx = false ->
  let w := sys_get_be16 buf in
  let ack := sys_get_be32 (drop 2 buf) in
  find_index (seg_tx_match (Z.land (Z.shiftr w 2) 0x1fff) (negb (Z.shiftr w 15 =? 0))
    (ctx_addr (rx_ctx rx))) (t_seg_tx s) = Some i ->
  t_seg_tx s !! i = Some t -> ack <> 0 -> Z.log2 ack <= st_seg_n t ->
  let t1 := acked ack (t <| st_dst := ctx_addr (rx_ctx rx) |>) in
  trans_ack rx buf sa s =
  (stm_emit [TRetransmitCancel i] ;;
   stm_modify (fun s => s <| t_seg_tx := <[i:=t1]> (t_seg_tx s) |>) ;;
   ack_continue i t1 ;; mret (0, st_seq_auth t)) s.
Proof.
  intros Hs Hlen Hfm w ack Hfind Hti Hack Hlog t1. unfold trans_ack.
  rewrite decide_False by lia. rewrite (stm_bind_pure _ _ s (t_net s) s) by done. rewrite Hfm.
  fold w ack. unfold seg_tx_lookup.
  set (t0 := t <| st_dst := ctx_addr (rx_ctx rx) |>).
  set (s0 := s <| t_seg_tx := <[i:=t0]> (t_seg_tx s) |>).
  rewrite (stm_bind_pure _ _ s (Some i) s0).
  2: { rewrite (stm_bind_pure _ _ s s s) by done. rewrite Hfind.
       rewrite (stm_bind_pure _ _ s tt s0); [done|]. unfold mod_tx, stm_modify.
       by rewrite (alter_insert _ _ _ _ Hti). }
  assert (i < length (t_seg_tx s))%nat as Hil by by eapply lookup_lt_Some.
  assert (t_seg_tx s0 !! i = Some t0) as Hi0 by by apply list_lookup_insert_eq.
  rewrite (stm_bind_pure _ _ _ _ _ (get_tx_run i t0 s0 Hi0)).
  rewrite (proj2 (Z.eqb_neq _ 0) Hack).
  assert (0 <= ack < 4294967296) as Hrange by (unfold ack, sys_get_be32; word_lia).
  rewrite (stm_bind_pure _ _ s0 (Z.log2 ack + 1) s0)
    by (rewrite find_msb_set_log2 by lia; done).
  change (st_seg_n t0) with (st_seg_n t). replace (Z.log2 ack + 1 - 1) with (Z.log2 ack) by lia.
  rewrite (proj2 (Z.ltb_ge _ _)) by done.
  destruct (trans_wf_at_of i t s Hs Hti) as [_ Ht]. pose proof (st_dst_wf t (ctx_addr (rx_ctx rx)) Ht) as Ht0.
  pose proof (sl_n _ _ (sw_loose _ _ Ht)) as Hsn.
  assert (ack < 2 ^ Z.of_nat BT_MESH_TX_SEG_COUNT) as Hup.
  { apply Z.log2_lt_pow2; lia. }
  assert (ack_segs 32 i ack s0 = Some (tt, s0 <| t_seg_tx := <[i:=t1]> (t_seg_tx s0) |>, [])) as Hsegs.
  { apply ack_segs_eq; [done|apply Ht0|apply Ht0|lia|]. intros j Hj. apply Z.testbit_neg_r. lia. }
  assert (s0 <| t_seg_tx := <[i:=t1]> (t_seg_tx s0) |> = s <| t_seg_tx := <[i:=t1]> (t_seg_tx s) |>) as Hs1.
  { unfold s0, update_field. destruct s. cbn in *. by rewrite list_insert_insert_eq. }
  rewrite Hs1 in Hsegs. set (s1 := s <| t_seg_tx := <[i:=t1]> (t_seg_tx s) |>) in *.
  assert (t_seg_tx s1 !! i = Some t1) as Hi1 by by apply list_lookup_insert_eq.
  rewrite !stm_bind_emit. rewrite (stm_bind_pure _ _ _ _ _ Hsegs).
  rewrite (stm_bind_pure _ _ _ _ _ (get_tx_run i t1 s1 Hi1)).
  by rewrite (stm_bind_pure _ _ s tt s1) by done.
Qed.

Lemma ack_continue_ok i t s : trans_wf_at n i (eq t) s -> st_wf n t ->
  stm_ok (ack_continue i t) (fun _ s' => trans_wf_at n i (st_wf n) s') s.
Proof.
  intros Hs Ht. unfold ack_continue. case_if.
  - apply seg_tx_send_unacked_at. by eapply at_wf.
  - eapply ok_mono; [eapply seg_tx_complete_at; [done|apply Ht]|]. cbv beta. intros _ s' Hs'.
    by apply idle_wf.
Qed.

Lemma trans_wf_len s i t : trans_wf n s -> t_seg_tx s !! i = Some t ->
  (i < CONFIG_BT_MESH_TX_SEG_MSG_COUNT)%nat.
Proof. intros (_ & _ & <- & _). apply lookup_lt_Some. Qed.

Lemma trans_ack_ok rx buf sa s : trans_wf n s -> 
  stm_ok (trans_ack rx buf sa) (fun _ s' => trans_wf n s') s.
Proof.
  intros Hs. unfold trans_ack. destruct (decide (length buf < 6)%nat) as [|Hlen]; [by ok_steps|].
  ok_step. unfold get_net at 1. ok_steps.
  destruct (CONFIG_FRIEND && rx_friend_match rx) eqn:Hfm; [by ok_steps|].
  set (w := sys_get_be16 buf). set (ack := sys_get_be32 (drop 2 buf)).
  ok_step. unfold seg_tx_lookup. ok_step. ok_step.
  destruct (find_index _ (t_seg_tx s)) as [i|] eqn:Hfind; [|by ok_steps].
  pose proof (find_index_Some _ _ _ Hfind) as (t & Hti & _).
  destruct (trans_wf_at_of i t s Hs Hti) as [Hat Ht].
  pose proof (trans_wf_len s i t Hs Hti) as Hi.
  ok_step. eapply mod_tx_eq; [done|]. intros s1 Hs1. ok_steps.
  pose proof (st_dst_wf t (ctx_addr (rx_ctx rx)) Ht) as Ht1.
  eapply get_tx_eq; [done|]. case_if.
  { ok_step. eapply ok_mono; [eapply seg_tx_complete_at; [done|apply Ht1]|].
    cbv beta. intros _ s2 Hs2. ok_step. by apply (trans_wf_of i _ Hi), idle_wf. }
  apply Z.eqb_neq in Heqb.
  assert (0 <= ack < 4294967296) as Hrange by (unfold ack, sys_get_be32; word_lia).
  ok_step. eapply ok_of_option; [apply find_msb_set_log2; lia|].
  destruct (Z.ltb_spec (st_seg_n (t <| st_dst := ctx_addr (rx_ctx rx) |>)) (Z.log2 ack + 1 - 1));
    [ok_step; apply (trans_wf_of i _ Hi); by eapply at_wf|].
  pose proof (sl_n _ _ (sw_loose _ _ Ht1)) as Hsn.
  assert (ack < 2 ^ Z.of_nat BT_MESH_TX_SEG_COUNT) as Hup.
  { apply Z.log2_lt_pow2; lia. }
  ok_steps. destruct (tw_tx_i _ _ _ _ Hs1) as (t1 & Hi1 & <-).
  eapply ok_mono.
  { unfold stm_ok, stm_wp. rewrite (ack_segs_eq 32 i _ ack s1 Hi1); [|apply Ht1|apply Ht1|lia|].
    - instantiate (1 := fun _ s2 => trans_wf_at n i (eq (acked ack (t <| st_dst := ctx_addr (rx_ctx rx) |>))) s2).
      cbv beta. rewrite <- (alter_insert (acked ack) _ _ _ Hi1).
      apply (mod_tx_at n i (eq (t <| st_dst := ctx_addr (rx_ctx rx) |>))); [by intros ? <-|done].
    - intros j Hj. apply Z.testbit_neg_r. lia. }
  cbv beta. intros _ s2 Hs2. ok_step. eapply get_tx_eq; [done|]. ok_step.
  pose proof (acked_wf ack _ Ht1) as Ht2. eapply ok_mono; [by apply (ack_continue_ok i)|].
  cbv beta. intros _ s3 Hs3. ok_step. by apply (trans_wf_of i _ Hi).
Qed.

Lemma seg_retransmit_ok i s : trans_wf n s -> (i < CONFIG_BT_MESH_TX_SEG_MSG_COUNT)%nat ->
  stm_ok (seg_retransmit i) (fun _ s' => trans_wf n s') s.
Proof.
  intros Hs Hi. eapply ok_mono; [apply seg_tx_send_unacked_at; by apply trans_wf_split|].
  cbv beta. intros _ s'. by apply trans_wf_of.
Qed.

Lemma tx_reset_ok s : trans_wf n s -> stm_ok bt_mesh_tx_reset (fun _ s' => trans_wf n s') s.
Proof.
  intros Hs. unfold bt_mesh_tx_reset. ok_step. ok_step. pose proof Hs as (_ & _ & -> & _).
  assert (Forall (fun i => (i < CONFIG_BT_MESH_TX_SEG_MSG_COUNT)%nat)
    (seq 0 CONFIG_BT_MESH_TX_SEG_MSG_COUNT)) as Hall
    by (apply List.Forall_forall; intros i Hi; apply in_seq in Hi; lia).
  revert s Hs. induction Hall as [|i l Hi Hl IH]; intros s Hs; cbn [foldr]; [by ok_steps|].
  ok_step. destruct (lookup_lt_is_Some_2 (t_seg_tx s) i) as [t Ht];
    [by pose proof Hs as (_ & _ & -> & _)|].
  destruct (trans_wf_at_of i t s Hs Ht) as [Hat Hwf].
  eapply ok_mono; [eapply seg_tx_reset_at; [done|apply Hwf]|]. cbv beta. intros _ s1 Hs1.
  apply IH. by apply (trans_wf_of i _ Hi), idle_wf.
Qed.
End ok.

(** ** The bit searches *)

(** The two bit searches terminate within the 32 iterations of their
    loops for every non-zero 32-bit word; they return the position, counted
    from one, of the highest and of the lowest bit set, and 0 for 0. *)
Theorem bit_search_spec x : 0 <= x < 4294967296 ->
  (x = 0 -> find_msb_set x = Some 0 /\ find_lsb_set x = Some 0) /\
  (x <> 0 -> find_msb_set x = Some (Z.log2 x + 1) /\
     exists b, find_lsb_set x = Some (b + 1) /\ lowest_bit x b /\ b <= Z.log2 x).
Proof.
  intros Hx. split; [by intros ->|]. intros Hne. split; [apply find_msb_set_log2; lia|].
  destruct (find_lsb_set_lowest x ltac:(lia)) as (b & Hb & Heq).
  exists b. split; [done|]. split; [done|]. destruct Hb as (H0 & Hb & Hlow).
  destruct (Z.le_gt_cases b (Z.log2 x)) as [|Hgt]; [done|]. rewrite Z.bits_above_log2 in Hb by lia. done.
Qed.

Lemma bit_search_spec_witness :
  (0x00500 = 0 -> find_msb_set 0x00500 = Some 0 /\ find_lsb_set 0x00500 = Some 0) /\
  (0x00500 <> 0 -> find_msb_set 0x00500 = Some (Z.log2 0x00500 + 1) /\
     exists b, find_lsb_set 0x00500 = Some (b + 1) /\ lowest_bit 0x00500 b /\ b <= Z.log2 0x00500).
Proof. apply (bit_search_spec 0x00500). lia. Defined.
