(* ===== verification/TransRxOk.v ===== *)
(** * Receiving keeps the invariant of the transport layer

    Every function of TransRx.v is defined on a well-formed state and leaves
    one, whatever the peers send. *)

From S2P Require Import Prelude NetBuf Cmac Ccm MeshCrypto NetState NetIv Net TransState TransTx TransRx TransWf TransTxOk.

(** The handlers the layer calls keep its invariant; they may send messages
    and reset the layer themselves. *)
Class HandlersOk {cfg : MeshConfig} {hal : SecHal} (n : nat) (tenv : TransEnv) : Prop := {
  model_recv_ok : forall rx sdu s, trans_wf n s ->
    stm_ok (model_recv rx sdu) (fun _ s' => trans_wf n s') s;
  friend_ctl_ok : forall op rx buf s, trans_wf n s ->
    stm_ok (friend_ctl op rx buf) (fun _ s' => trans_wf n s') s;
  lpn_ctl_ok : forall op rx buf s, trans_wf n s ->
    stm_ok (lpn_ctl op rx buf) (fun _ s' => trans_wf n s') s
}.

Section ok.
Context {cfg : MeshConfig} {hal : SecHal} {halok : SecHalOk hal} {env : NetEnv}
  {tenv : TransEnv} {tenvok : TransEnvOk tenv} (n : nat) {hok : HandlersOk n tenv}.

(** ** Access messages *)

Lemma app_decrypt_defined key dev aszmic buf ad src dst seq iv :
  is_block key -> is_bytes buf -> (1 + APP_MIC_LEN aszmic <= length buf)%nat ->
  Z.of_nat (length buf) < 65536 -> from_option is_block True ad ->
  bt_mesh_app_decrypt key dev aszmic buf (length buf - APP_MIC_LEN aszmic) ad src dst seq iv <> Undef.
Proof.
  intros Hk Hb Hl Hl' Had. unfold bt_mesh_app_decrypt.
  set (k := (length buf - APP_MIC_LEN aszmic)%nat).
  pose proof Hb as Hd. rewrite <- (take_drop k buf) in Hd |- *. apply is_bytes_app in Hd as [Hcb Htb].
  assert (length (take k buf) = k) as Hc by (rewrite length_take; unfold k; lia).
  rewrite <- Hc at 3. pose proof (APP_MIC_LEN_cases aszmic).
  rewrite (bt_mesh_ccm_decrypt_spec key Hk).
  - by destruct (Rfc3610.decrypt _ _ _ _ _ _).
  - split; [apply app_nonce_ok|done|unfold k in *; lia| |apply APP_MIC_LEN_cases].
    destruct ad as [l|]; [destruct Had as [Hll Hlb]|]; cbn [app_aad].
    + split; [auto with bytes|]. right. rewrite length_take. lia.
    + split; [by apply Forall_nil_2|by left].
  - rewrite length_drop. unfold k. lia.
Qed.

Definition rx_ok (rx : net_rx) : Prop := (rx_sub rx < n)%nat.

Lemma sdu_open_defined m rx hdr aszmic buf : net_wf m -> length (subs m) = n -> rx_ok rx ->
  is_bytes buf -> (1 + APP_MIC_LEN aszmic <= length buf)%nat -> Z.of_nat (length buf) < 65536 ->
  sdu_open m rx hdr aszmic buf <> Undef.
Proof.
  intros Hm Hn Hrx Hb Hl Hl'. unfold sdu_open.
  set (ad := if BT_MESH_ADDR_IS_VIRTUAL _ then _ else None).
  assert (from_option is_block True ad) as Had.
  { unfold ad. case_if; [|done]. destruct (label_uuid_get _) eqn:Hlab; [|done].
    by eapply label_uuid_ok. }
  clearbody ad.
  assert (forall key dev, is_block key -> sdu_decrypt m rx key dev aszmic buf ad <> Undef) as Hdec
    by (intros; by apply app_decrypt_defined).
  case_if; [pose proof (Hdec _ true (nw_dev m Hm)) as Hd; revert Hd; by case_res|].
  destruct (lookup_lt_is_Some_2 (subs m) (rx_sub rx)) as [sub ->]; [by rewrite Hn|].
  pose proof (nw_app m Hm) as Ha. induction (app_keys m) as [|k ks IH]; cbn [sdu_try_keys]; [done|].
  apply Forall_cons_iff in Ha as [[Hk0 Hk1] Ha]. specialize (IH Ha).
  case_if; [done|]. destruct (if rx_new_key rx && app_updated k then app_key1 k else app_key0 k)
    as [id val] eqn:Hsel.
  assert (is_block val) as Hval by (revert Hsel; case_if; intros Hsel; rewrite Hsel in *; done).
  case_if; [done|]. pose proof (Hdec val false Hval) as Hd. revert Hd. by case_res.
Qed.

Lemma sdu_recv_ok rx hdr aszmic buf s : trans_wf n s -> rx_ok rx -> is_bytes buf ->
  Z.of_nat (length buf) < 65536 ->
  stm_ok (sdu_recv rx hdr aszmic buf) (fun r s' => trans_wf n s' /\ rx_ok (snd r)) s.
Proof.
  intros Hs Hrx Hb Hl. unfold sdu_recv.
  destruct (decide (length buf < 1 + APP_MIC_LEN aszmic)%nat) as [|Hlen]; [by ok_steps|].
  case_if; [by ok_steps|]. unfold get_net. ok_steps.
  pose proof Hs as (Hnet & Hn & _).
  pose proof (sdu_open_defined (t_net s) rx hdr aszmic buf Hnet Hn Hrx Hb ltac:(lia) Hl) as Hdef.
  destruct (sdu_open (t_net s) rx hdr aszmic buf) as [[idx sdu]|e|]; [|by ok_steps|done].
  ok_step. ok_steps. eapply ok_mono; [by apply model_recv_ok|]. cbv beta. intros _ s' Hs'. by ok_steps.
Qed.

(** ** Control messages *)

Lemma trans_heartbeat_ok rx buf s : trans_wf n s ->
  stm_ok (trans_heartbeat rx buf) (fun _ s' => trans_wf n s') s.
Proof.
  intros Hs. unfold trans_heartbeat. case_decide; [by ok_steps|]. ok_steps. case_if; by ok_steps.
Qed.

Lemma ctl_recv_lpn_ok op rx buf s : trans_wf n s ->
  stm_ok (ctl_recv_lpn op rx buf) (fun _ s' => trans_wf n s') s.
Proof.
  intros Hs. assert (stm_ok (lpn_recv op rx buf) (fun _ s' => trans_wf n s') s).
  { unfold lpn_recv. ok_steps. by apply lpn_ctl_ok. }
  unfold ctl_recv_lpn. repeat case_if; try done; by ok_steps.
Qed.

Lemma ctl_recv_ok rx hdr buf sa s : trans_wf n s ->
  stm_ok (ctl_recv rx hdr buf sa) (fun _ s' => trans_wf n s') s.
Proof.
  intros Hs. unfold ctl_recv.
  assert (forall r : T Z, stm_ok r (fun _ s' => trans_wf n s') s ->
    stm_ok (e <- r ;; mret (e, sa)) (fun _ s' => trans_wf n s') s) as Hkeep.
  { intros r Hr. ok_step. eapply ok_mono; [exact Hr|]. cbv beta. intros e s' Hs'. by ok_steps. }
  case_if; [by apply trans_ack_ok|]. case_if; [by apply Hkeep, trans_heartbeat_ok|].
  case_if; [by ok_steps|]. case_if.
  { apply Hkeep. unfold friend_recv. ok_steps. by apply friend_ctl_ok. }
  case_if; [by apply Hkeep, ctl_recv_lpn_ok|by ok_steps].
Qed.

(** ** Replay protection *)

Lemma replay_guard_ok rx s : trans_wf n s -> stm_ok (replay_guard rx) (fun _ s' => trans_wf n s') s.
Proof.
  intros Hs. unfold replay_guard. case_if; [|by ok_steps]. unfold get_net. ok_steps.
  unfold is_replay. destruct (rpl_check _ _ _ _) as [b l]. unfold set_net. ok_steps.
  destruct Hs as (Hm & Hn & Ht & Htx & Hr & Hrx). split; [by destruct Hm|]. by split_and!.
Qed.

Lemma trans_unseg_ok buf rx sa s : trans_wf n s -> rx_ok rx -> is_bytes buf ->
  Z.of_nat (length buf) < 65536 ->
  stm_ok (trans_unseg buf rx sa) (fun r s' => trans_wf n s' /\ rx_ok (snd (fst r))) s.
Proof.
  intros Hs Hrx Hb Hl. unfold trans_unseg. destruct buf as [|hdr buf]; [by ok_steps|].
  apply Forall_cons_iff in Hb as [_ Hb]. rewrite length_cons in Hl.
  ok_step. eapply ok_mono; [by apply replay_guard_ok|]. cbv beta. intros b s1 Hs1.
  destruct b; [by ok_steps|]. case_if.
  - ok_step. eapply ok_mono; [by apply ctl_recv_ok|]. cbv beta. intros r s2 Hs2. by ok_steps.
  - case_if; [by ok_steps|]. ok_step. eapply ok_mono; [apply sdu_recv_ok; (done || lia)|].
    cbv beta. intros r s2 [Hs2 Hr]. by ok_steps.
Qed.

(** ** Contexts of segmented receptions *)

(** Sending a control message uses sequence numbers and may queue the message
    for the node itself; nothing else changes. *)
Definition sent (s s' : trans) : Prop :=
  exists q lq, s' = s <| t_net := (t_net s) <| seq_num := q |> <| local_queue := lq |> |>.

Lemma sent_refl s : sent s s.
Proof. exists (seq_num (t_net s)), (local_queue (t_net s)). by destruct s as [[] ? ? ?]. Qed.

Lemma net_send_state m tx buf room cb :
  let '(_, m', _, _) := bt_mesh_net_send m tx buf room cb in
  exists q lq, m' = m <| seq_num := q |> <| local_queue := lq |>.
Proof.
  assert (forall tx, let '(_, m', _, _) := bt_mesh_net_encode m tx buf room false in
    exists q, m' = m <| seq_num := q |>) as Henc.
  { intros tx0. pose proof (net_encode_state m tx0 buf room false) as H.
    destruct (bt_mesh_net_encode m tx0 buf room false) as [[[r m'] tx'] evs].
    destruct H as [[_ ->]|[_ ->]]; [|by eexists]. exists (seq_num m). by destruct m. }
  unfold bt_mesh_net_send. set (tx1 := if _ : bool then _ else tx). specialize (Henc tx1).
  destruct (bt_mesh_net_encode m tx1 buf room false) as [[[r m'] tx'] evs]. destruct Henc as [q ->].
  repeat case_match; simplify_eq/=;
    first [by exists q, (local_queue m); destruct m | by eexists q, _; destruct m].
Qed.

Lemma run_events_net_emit evs s : run_events net_emit evs s = Some (tt, s, map TNet evs).
Proof.
  induction evs as [|e evs IH]; cbn [run_events map]; [done|].
  unfold net_emit at 1. rewrite stm_bind_emit, IH. done.
Qed.

#[local] Instance sent_preorder : PreOrder sent.
Proof.
  split; [exact sent_refl|]. intros s1 s2 s3 (q & l & ->) (q' & l' & ->). exists q', l'.
  by destruct s1 as [[] ? ? ?].
Qed.

Lemma net_send_sent tx pdu cb : stm_keeps sent (net_send tx pdu cb net_emit).
Proof.
  unfold net_send. case_if; [apply keeps_undef|]. unfold get_net.
  intros s a s' e. rewrite (stm_bind_pure _ _ s (t_net s) s) by done.
  pose proof (net_send_state (t_net s) tx pdu (pdu_tailroom pdu) cb) as H.
  destruct (bt_mesh_net_send _ tx pdu _ cb) as [[[r m'] tx'] evs]. destruct H as (q & lq & ->).
  rewrite (stm_bind_pure _ _ s tt (s <| t_net := (t_net s) <| seq_num := q |> <| local_queue := lq |> |>))
    by done.
  intros H. assert (s' = s <| t_net := (t_net s) <| seq_num := q |> <| local_queue := lq |> |>) as ->;
    [|by exists q, lq].
  revert H. unfold stm_bind. rewrite run_events_net_emit. destruct r; by intros [= _ <- _].
Qed.

Lemma ctl_send_sent tx op data sa cb : stm_keeps sent (bt_mesh_ctl_send tx op data sa cb).
Proof.
  unfold bt_mesh_ctl_send, friend_only. keeps_steps. apply net_send_sent.
Qed.

Lemma send_ack_sent sub src dst ttl sa block obo :
  stm_keeps sent (send_ack sub src dst ttl sa block obo).
Proof. unfold send_ack, get_net. keeps_steps. apply ctl_send_sent. Qed.

Lemma send_ack_ok sub src dst ttl sa block obo s : trans_wf n s -> (sub < n)%nat ->
  stm_ok (send_ack sub src dst ttl sa block obo) (fun _ s' => trans_wf n s') s.
Proof.
  intros Hs Hsub. unfold send_ack. case_if; [by ok_steps|]. case_if; [by ok_steps|].
  unfold get_net. ok_steps. pose proof Hs as (_ & Hn & _).
  destruct (lookup_lt_is_Some_2 (subs (t_net s)) sub) as [x Hx]; [by rewrite Hn|].
  eapply ok_of_option; [exact Hx|]. ok_step. eapply ok_mono.
  { apply (ctl_send_ok n); [done|split; [done|by right]| |cbn; lia].
    destruct (sys_put_be32_is_bytes block). apply is_bytes_app.
    split; [apply sys_put_be16_is_bytes|done]. }
  cbv beta. intros r s' [Hs' _]. by ok_steps.
Qed.

(** [stm_ok] together with what the computation keeps. *)
Lemma ok_keeps {A} (m : T A) Q R s : stm_ok m Q s -> stm_keeps R m ->
  stm_ok m (fun a s' => Q a s' /\ R s s') s.
Proof.
  intros Hm HR. unfold stm_ok, stm_wp in *. destruct (m s) as [[[a s'] e]|] eqn:H; [|done].
  split; [done|by eapply HR].
Qed.

Lemma send_ack_keeps sub src dst ttl sa block obo s : trans_wf n s -> (sub < n)%nat ->
  stm_ok (send_ack sub src dst ttl sa block obo) (fun _ s' => trans_wf n s' /\ sent s s') s.
Proof. intros Hs Hsub. apply ok_keeps; [by apply send_ack_ok|apply send_ack_sent]. Qed.

Lemma get_rx_ok i s (Q : seg_rx -> trans -> Prop) : trans_wf n s ->
  (i < CONFIG_BT_MESH_RX_SEG_MSG_COUNT)%nat -> (forall r, sr_wf n r -> Q r s) ->
  stm_ok (get_rx i) Q s.
Proof.
  intros (_ & _ & _ & _ & Hl & Hrx) Hi HQ. unfold get_rx. ok_steps.
  destruct (lookup_lt_is_Some_2 (t_seg_rx s) i) as [r Hr]; [by rewrite Hl|].
  eapply ok_of_option; [exact Hr|]. apply HQ. by eapply Forall_lookup_1 in Hrx.
Qed.

Lemma mod_rx_ok i f s (Q : unit -> trans -> Prop) : trans_wf n s ->
  (forall r, t_seg_rx s !! i = Some r -> sr_wf n r -> sr_wf n (f r)) ->
  (forall s', trans_wf n s' -> Q tt s') -> stm_ok (mod_rx i f) Q s.
Proof.
  intros (Hm & Hn & Ht & Htx & Hl & Hrx) Hf HQ. unfold mod_rx. ok_steps. apply HQ.
  do 4 (split; [done|]).
  change (t_seg_rx (s <| t_seg_rx := alter f i (t_seg_rx s) |>)) with (alter f i (t_seg_rx s)).
  split; [by rewrite length_alter|]. apply Forall_lookup_2. intros j r Hj.
  destruct (decide (i = j)) as [<-|Hne].
  - rewrite list_lookup_alter_eq in Hj. destruct (t_seg_rx s !! i) as [r0|] eqn:Hr0; [|done].
    injection Hj as <-. apply Hf; [done|]. by eapply Forall_lookup_1 in Hrx.
  - rewrite list_lookup_alter_ne in Hj by done. by eapply Forall_lookup_1 in Hrx.
Qed.

Lemma seg_rx_reset_ok i s : trans_wf n s -> (i < CONFIG_BT_MESH_RX_SEG_MSG_COUNT)%nat ->
  stm_ok (seg_rx_reset i) (fun _ s' => trans_wf n s') s.
Proof.
  intros Hs Hi. unfold seg_rx_reset. ok_step. apply get_rx_ok; [done|done|]. intros r Hr. ok_steps.
  assert (stm_ok (mod_rx i (fun r => r <| sr_ack_pending := false |> <| sr_in_use := false |>))
    (fun _ s' => trans_wf n s') s).
  { apply mod_rx_ok; [done| |done]. intros r0 _ [? ? ? ?]. by split. }
  case_if; by ok_steps.
Qed.

Lemma ack_submit_ok i s : trans_wf n s -> (i < CONFIG_BT_MESH_RX_SEG_MSG_COUNT)%nat ->
  (forall r, t_seg_rx s !! i = Some r -> (sr_sub r < n)%nat) ->
  stm_ok (ack_submit i) (fun _ s' => trans_wf n s') s.
Proof.
  intros Hs Hi Hsub. unfold ack_submit. ok_step. apply get_rx_ok; [done|done|]. intros r Hr. ok_steps.
  apply mod_rx_ok; [done| |done]. intros r0 Hr0 [? ? ? ?]. split; try done. intros _. exact (Hsub r0 Hr0).
Qed.

Lemma seg_ack_ok i s : trans_wf n s -> (exists r, t_seg_rx s !! i = Some r /\ sr_ack_pending r = true) ->
  stm_ok (seg_ack i) (fun _ s' => trans_wf n s') s.
Proof.
  intros Hs (r0 & Hr0 & Hp). pose proof Hs as (_ & _ & _ & _ & Hlen & Hrx).
  assert (i < CONFIG_BT_MESH_RX_SEG_MSG_COUNT)%nat as Hi by (rewrite <- Hlen; by eapply lookup_lt_Some).
  assert (sr_wf n r0) as Hw0 by by eapply Forall_lookup_1 in Hrx.
  assert (sr_sub r0 < n)%nat as Hsub by (apply (rw_sub _ _ Hw0); rewrite Hp; apply orb_true_r).
  unfold seg_ack. unfold mod_rx at 1. ok_steps.
  set (s1 := s <| t_seg_rx := _ |>).
  assert (trans_wf n s1) as Hs1.
  { pose proof (mod_rx_ok i (fun r => r <| sr_ack_pending := false |>) s (fun _ s' => trans_wf n s') Hs) as H.
    apply H; [|done]. intros r _ [? ? ? Hrs]. split; try done. intros Hr. apply Hrs. cbn in Hr.
    rewrite orb_false_r in Hr. by rewrite Hr. }
  assert (t_seg_rx s1 !! i = Some (r0 <| sr_ack_pending := false |>)) as Hr1.
  { change (alter (fun r => r <| sr_ack_pending := false |>) i (t_seg_rx s) !! i =
      Some (r0 <| sr_ack_pending := false |>)). by rewrite list_lookup_alter_eq, Hr0. }
  unfold get_rx. ok_steps. eapply ok_of_option; [exact Hr1|].
  case_if.
  - ok_step. eapply ok_mono; [by apply send_ack_ok|]. cbv beta. intros _ s2 Hs2. by apply seg_rx_reset_ok.
  - ok_step. eapply ok_mono; [by apply send_ack_keeps|]. cbv beta. intros _ s2 [Hs2 (q & lq & ->)].
    apply ack_submit_ok; [done|done|]. intros r Hr. change (t_seg_rx s1 !! i = Some r) in Hr.
    rewrite Hr1 in Hr. by injection Hr as <-.
Qed.

(** ** Reassembly *)

Lemma get_rx_at i r s (Q : seg_rx -> trans -> Prop) : t_seg_rx s !! i = Some r -> Q r s ->
  stm_ok (get_rx i) Q s.
Proof. intros Hr HQ. unfold get_rx. ok_steps. by eapply ok_of_option. Qed.

Lemma mod_rx_at i f r s (Q : unit -> trans -> Prop) : trans_wf n s -> t_seg_rx s !! i = Some r ->
  sr_wf n (f r) -> (forall s', trans_wf n s' -> t_seg_rx s' !! i = Some (f r) -> Q tt s') ->
  stm_ok (mod_rx i f) Q s.
Proof.
  intros Hs Hr Hf HQ.
  assert (stm_ok (mod_rx i f) (fun _ s' => trans_wf n s') s) as Hok.
  { apply mod_rx_ok; [done| |done]. intros r0 Hr0 _. by simplify_eq. }
  unfold mod_rx in *. ok_steps. apply HQ; [exact Hok|].
  change (alter f i (t_seg_rx s) !! i = Some (f r)). by rewrite list_lookup_alter_eq, Hr.
Qed.

Lemma rx_lookup s i : trans_wf n s -> (i < CONFIG_BT_MESH_RX_SEG_MSG_COUNT)%nat ->
  exists r, t_seg_rx s !! i = Some r /\ sr_wf n r.
Proof.
  intros (_ & _ & _ & _ & Hl & Hrx) Hi.
  destruct (lookup_lt_is_Some_2 (t_seg_rx s) i) as [r Hr]; [by rewrite Hl|].
  exists r. split; [done|]. by eapply Forall_lookup_1 in Hrx.
Qed.

Lemma rx_index s i r : trans_wf n s -> t_seg_rx s !! i = Some r ->
  (i < CONFIG_BT_MESH_RX_SEG_MSG_COUNT)%nat /\ sr_wf n r.
Proof.
  intros (_ & _ & _ & _ & Hl & Hrx) Hr. split; [rewrite <- Hl; by eapply lookup_lt_Some|].
  by eapply Forall_lookup_1 in Hrx.
Qed.

Lemma seg_rx_find_ok rx sa s : trans_wf n s ->
  stm_ok (seg_rx_find rx sa) (fun f s' => trans_wf n s' /\
    match f with Some i => (i < CONFIG_BT_MESH_RX_SEG_MSG_COUNT)%nat | None => True end) s.
Proof.
  intros Hs. unfold seg_rx_find. ok_step. ok_step.
  destruct (find_index _ (t_seg_rx s)) as [i|] eqn:Hf; [|by ok_steps].
  apply find_index_Some in Hf as (r & Hr & _). destruct (rx_index s i r Hs Hr) as [Hi _].
  ok_step. eapply get_rx_at; [done|]. case_if; [by ok_steps|].
  ok_step. eapply ok_mono; [by apply seg_rx_reset_ok|]. cbv beta. intros _ s' Hs'. by ok_steps.
Qed.

(** A session of [seg_n + 1] segments. *)
Definition session_at (s : trans) (i : nat) (seg_n : Z) : Prop :=
  exists r, t_seg_rx s !! i = Some r /\ sr_in_use r = true /\ sr_seg_n r = seg_n.

Lemma seg_rx_alloc_ok rx hdr sa seg_n s : trans_wf n s -> rx_ok rx -> 0 <= seg_n < 32 ->
  stm_ok (seg_rx_alloc rx hdr sa seg_n) (fun f s' => trans_wf n s' /\
    match f with Some i => session_at s' i seg_n | None => True end) s.
Proof.
  intros Hs Hrx Hn. unfold seg_rx_alloc. ok_step. ok_step.
  destruct (find_index _ (t_seg_rx s)) as [i|] eqn:Hf; [|by ok_steps].
  apply find_index_Some in Hf as (r & Hr & _). destruct (rx_index s i r Hs Hr) as [Hi Hw].
  ok_step. eapply mod_rx_at; [done|done| |].
  - destruct Hw as [Hd Hl _ _]. split; [done|cbn; lia|done|done].
  - intros s' Hs' Hr'. ok_steps. split; [done|]. eexists. by split.
Qed.

Lemma ack_source_ok rx sa block obo s : trans_wf n s -> rx_ok rx ->
  stm_ok (ack_source rx sa block obo) (fun _ s' => trans_wf n s' /\ sent s s') s.
Proof. intros. by apply send_ack_keeps. Qed.

Lemma seg_session_ok rx sg sa s : trans_wf n s -> rx_ok rx -> 0 <= sg_n sg < 32 ->
  stm_ok (seg_session rx sg sa) (fun f s' => trans_wf n s' /\
    match f with Ok i => session_at s' i (sg_n sg) | Err _ => True | Undef => False end) s.
Proof.
  intros Hs Hrx Hn. unfold seg_session. ok_step.
  eapply ok_mono; [by apply seg_rx_find_ok|]. cbv beta. intros f s1 [Hs1 Hf].
  destruct f as [i|].
  - destruct (rx_lookup s1 i Hs1 Hf) as (r & Hr & _). ok_step. eapply get_rx_at; [done|].
    destruct (seg_rx_is_valid r rx (sg_hdr sg) (sg_n sg)) eqn:Hv; cbn [negb]; [|by ok_steps].
    unfold seg_rx_is_valid in Hv. repeat (apply andb_true_iff in Hv as [Hv ?]).
    case_if; [ok_step; split; [done|exists r; split_and!; (done || lia)]|].
    case_if; [|by ok_steps]. ok_step. eapply ok_mono; [by apply ack_source_ok|].
    cbv beta. intros _ s2 [Hs2 _]. by ok_steps.
  - case_if.
    { ok_step. eapply ok_mono; [by apply ack_source_ok|]. cbv beta. intros _ s2 [Hs2 _]. by ok_steps. }
    ok_step. eapply ok_mono; [by apply seg_rx_alloc_ok|]. cbv beta. intros f s2 [Hs2 Hf2].
    destruct f as [i|]; [|by ok_steps]. destruct Hf2 as (r & Hr & Huse & Hseg).
    destruct (rx_index s2 i r Hs2 Hr) as [_ Hw]. ok_step. eapply mod_rx_at; [done|done| |].
    + destruct Hw as [? ? ? ?]. by split.
    + intros s3 Hs3 Hr3. ok_steps. split; [done|]. eexists. split; [exact Hr3|done].
Qed.

(** The segment fits the buffer of its session; when it is the last one, the
    length of the SDU is set. *)
Definition segment_fits (s : trans) (i : nat) (sg : segment) : Prop :=
  exists r, t_seg_rx s !! i = Some r /\ sr_in_use r = true /\ sr_seg_n r = sg_n sg /\
    0 <= sg_o sg * seg_len (sr_ctl r) /\
    sg_o sg * seg_len (sr_ctl r) + Z.of_nat (length (sg_data sg)) <=
      Z.of_nat CONFIG_BT_MESH_RX_SDU_MAX /\
    (sg_o sg = sg_n sg -> (sr_buf_len r <= CONFIG_BT_MESH_RX_SDU_MAX)%nat).

Lemma seg_len_range ctl : 8 <= seg_len ctl <= 12.
Proof. destruct ctl; cbn; lia. Qed.

Lemma seg_check_len_ok i r rx sg sa s : trans_wf n s -> rx_ok rx ->
  t_seg_rx s !! i = Some r -> sr_in_use r = true -> sr_seg_n r = sg_n sg ->
  Z.testbit (sr_block r) (sg_o sg) = false ->
  0 <= sg_o sg <= sg_n sg -> sg_n sg < 32 -> Z.of_nat (length (sg_data sg)) < 60000 ->
  stm_ok (seg_check_len i rx sg sa) (fun f s' => trans_wf n s' /\
    match f with Ok _ => segment_fits s' i sg | Err _ => True | Undef => False end) s.
Proof.
  intros Hs Hrx Hr Huse Hsn Hbit Ho Hn Hl. destruct (rx_index s i r Hs Hr) as [Hi Hw].
  pose proof (seg_len_range (sr_ctl r)) as Hsl.
  unfold seg_check_len. ok_step. eapply get_rx_at; [done|].
  destruct (Z.eqb_spec (sg_o sg) (sg_n sg)) as [He|He].
  - assert (0 <= sg_n sg * seg_len (sr_ctl r) <= 372) as Hm by nia.
    set (total := u16 _).
    assert (total = sg_n sg * seg_len (sr_ctl r) + Z.of_nat (length (sg_data sg))) as Ht
      by (apply u16_id; lia).
    ok_step. eapply mod_rx_at; [done|done| |].
    { destruct Hw as [Hd Hlen Hnn Hsub]. split; [done| |done|done].
      intros Hb. change (Z.testbit (sr_block r) (sr_seg_n r) = true) in Hb. congruence. }
    intros s1 Hs1 Hr1.
    destruct (Z.ltb_spec (Z.of_nat CONFIG_BT_MESH_RX_SDU_MAX) total) as [Hbig|Hsmall].
    + ok_step. eapply ok_mono; [by apply ack_source_ok|]. cbv beta. intros _ s2 [Hs2 _].
      ok_step. eapply ok_mono; [by apply seg_rx_reset_ok|]. cbv beta. intros _ s3 Hs3. by ok_steps.
    + ok_step. split; [done|]. eexists. split; [exact Hr1|]. cbn [sr_ctl].
      split; [done|]. split; [done|].
      change (sr_ctl (r <| sr_buf_len := Z.to_nat total |>)) with (sr_ctl r).
      change (sr_buf_len (r <| sr_buf_len := Z.to_nat total |>)) with (Z.to_nat total).
      rewrite He. lia.
  - destruct (Z.eqb_spec (Z.of_nat (length (sg_data sg))) (seg_len (sr_ctl r))); cbn [negb];
      [|by ok_steps].
    ok_step. split; [done|]. exists r. do 3 (split; [done|]). unfold CONFIG_BT_MESH_RX_SDU_MAX.
    split; [nia|]. split; [nia|]. intros ?. lia.
Qed.

Lemma seg_store_ok i sg s : trans_wf n s -> segment_fits s i sg -> is_bytes (sg_data sg) ->
  0 <= sg_o sg <= sg_n sg ->
  stm_ok (seg_store i sg) (fun _ s' => trans_wf n s' /\ session_at s' i (sg_n sg)) s.
Proof.
  intros Hs (r & Hr & Huse & Hsn & Hoff & Hfit & Hlast) Hb Ho.
  destruct (rx_index s i r Hs Hr) as [Hi Hw]. destruct Hw as [[Hd Hdb] Hlen Hnn Hsub].
  unfold seg_store. ok_step. eapply mod_rx_at; [done|done|by split|]. intros s1 Hs1 Hr1.
  ok_step. eapply get_rx_at; [done|].
  set (r1 := r <| sr_last := u32 now |>) in *.
  assert (sr_wf n r1) as Hw1 by by apply (rx_index s1 i r1 Hs1 Hr1).
  ok_step. eapply (ok_mono _ (fun _ s2 => trans_wf n s2 /\
    exists p, t_seg_rx s2 !! i = Some (r1 <| sr_ack_pending := p |>))).
  { case_if.
    - unfold ack_submit. ok_step. eapply get_rx_at; [done|]. ok_steps.
      eapply mod_rx_at; [done|done| |].
      + destruct Hw1 as [? ? ? Hs2]. split; try done. intros _. apply Hs2.
        change (sr_in_use r || sr_ack_pending r = true). by rewrite Huse.
      + intros s2 Hs2 Hr2. split; [done|]. by exists true.
    - ok_step. split; [done|]. exists (sr_ack_pending r1). by destruct r. }
  cbv beta. intros _ s2 [Hs2 (p & Hr2)].
  change (sr_ctl r1) with (sr_ctl r). set (r2 := r1 <| sr_ack_pending := p |>) in *.
  rewrite decide_False by (unfold CONFIG_BT_MESH_RX_SDU_MAX in *; lia).
  destruct (rx_index s2 i r2 Hs2 Hr2) as [_ [_ _ _ Hsub2]].
  eapply mod_rx_at; [done|done| |].
  - split; [|..|done].
    + change (length (put_at (Z.to_nat (sg_o sg * seg_len (sr_ctl r))) (sg_data sg) (sr_buf_data r)) =
        CONFIG_BT_MESH_RX_SDU_MAX /\ is_bytes (put_at (Z.to_nat (sg_o sg * seg_len (sr_ctl r)))
        (sg_data sg) (sr_buf_data r))).
      split; [|by apply is_bytes_put_at]. rewrite length_put_at; [done|]. rewrite Hd. lia.
    + change (Z.testbit (Z.lor (sr_block r) (MESH_BIT (sg_o sg))) (sr_seg_n r) = true ->
        (sr_buf_len r <= CONFIG_BT_MESH_RX_SDU_MAX)%nat).
      unfold MESH_BIT. rewrite Z.lor_spec, Z.shiftl_1_l, Z.pow2_bits_eqb, Hsn by lia.
      destruct (Z.eqb_spec (sg_o sg) (sg_n sg)); [intros _; by apply Hlast|].
      rewrite orb_false_r. rewrite <- Hsn. apply Hlen.
    + done.
  - intros s3 Hs3 Hr3. split; [done|]. eexists. split; [exact Hr3|done].
Qed.

Lemma testbit_block_complete k : 0 <= k < 32 -> Z.testbit (BLOCK_COMPLETE k) k = true.
Proof.
  intros Hk. unfold BLOCK_COMPLETE. rewrite Z.shiftl_1_l.
  replace (2 ^ (k + 1) - 1) with (Z.ones (k + 1)) by (rewrite Z.ones_equiv; lia).
  unfold u32. change 4294967296 with (2 ^ 32). rewrite Z.mod_pow2_bits_low by lia.
  apply Z.ones_spec_low. lia.
Qed.

Lemma replay_guard_keeps rx : stm_keeps (fun s s' => t_seg_rx s' = t_seg_rx s) (replay_guard rx).
Proof.
  intros s a s' e. unfold replay_guard. case_if; [|by intros [= _ <- _]].
  unfold get_net. rewrite (stm_bind_pure _ _ s (t_net s) s) by done. unfold is_replay.
  destruct (rpl_check _ _ _ _) as [b l]. by intros [= _ <- _].
Qed.

Lemma seg_complete_ok i r rx sg sa s : trans_wf n s -> rx_ok rx ->
  t_seg_rx s !! i = Some r -> sr_block r = BLOCK_COMPLETE (sg_n sg) -> sr_seg_n r = sg_n sg ->
  0 <= sg_o sg <= sg_n sg -> sg_n sg < 32 ->
  stm_ok (seg_complete i rx sg sa) (fun o s' => trans_wf n s' /\ rx_ok (snd (fst (fst o)))) s.
Proof.
  intros Hs Hrx Hr Hblk Hsn Ho Hn. destruct (rx_index s i r Hs Hr) as [Hi Hw].
  assert (sr_buf_len r <= CONFIG_BT_MESH_RX_SDU_MAX)%nat as Hlen.
  { apply (rw_len _ _ Hw). rewrite Hblk, Hsn. apply testbit_block_complete. lia. }
  unfold seg_complete. ok_step.
  eapply ok_mono; [apply ok_keeps; [by apply replay_guard_ok|apply replay_guard_keeps]|].
  cbv beta. intros b s1 [Hs1 Heq]. rewrite <- Heq in Hr. clear Heq. destruct b.
  { ok_step. eapply mod_rx_at; [done|done| |intros s2 Hs2 _; by ok_steps].
    destruct Hw as [? _ ? ?]. split; [done| |done|done].
    change (Z.testbit (Z.ldiff (sr_block r) (MESH_BIT (sg_o sg))) (sr_seg_n r) = true ->
      (sr_buf_len r <= CONFIG_BT_MESH_RX_SDU_MAX)%nat). by intros _. }
  ok_step. eapply get_rx_at; [done|].
  set (rx' := if rx_friend_match rx then rx else _).
  assert (rx_ok rx') as Hrx' by (unfold rx'; by case_if).
  assert (rx_ctl rx' = rx_ctl rx) as Hctl by (unfold rx'; by case_if).
  ok_steps. eapply mod_rx_at; [done|done| |].
  { destruct Hw as [? ? ? Hsub]. split; try done. intros Hor.
    change (sr_in_use r || false = true) in Hor. apply Hsub. rewrite orb_false_r in Hor. by rewrite Hor. }
  intros s2 Hs2 _. ok_step. eapply ok_mono; [by apply ack_source_ok|]. cbv beta. intros _ s3 [Hs3 _].
  rewrite decide_False by lia.
  assert (is_bytes (take (sr_buf_len r) (sr_buf_data r)) /\
    Z.of_nat (length (take (sr_buf_len r) (sr_buf_data r))) < 65536) as [Hsb Hsl].
  { destruct Hw as [[Hd Hdb] _ _ _]. split; [auto with bytes|]. rewrite length_take, Hd.
    unfold CONFIG_BT_MESH_RX_SDU_MAX. lia. }
  case_if.
  - ok_step. eapply ok_mono; [by apply ctl_recv_ok|]. cbv beta. intros c s4 Hs4.
    ok_step. eapply ok_mono; [by apply seg_rx_reset_ok|]. cbv beta. intros _ s5 Hs5. by ok_steps.
  - ok_step. eapply ok_mono; [by apply sdu_recv_ok|]. cbv beta. intros c s4 [Hs4 Hc].
    ok_step. eapply ok_mono; [by apply seg_rx_reset_ok|]. cbv beta. intros _ s5 Hs5. by ok_steps.
Qed.

Lemma seg_parse_ok buf : is_bytes buf ->
  0 <= sg_n (seg_parse buf) < 32 /\ 0 <= sg_o (seg_parse buf) /\
  is_bytes (sg_data (seg_parse buf)) /\ (length (sg_data (seg_parse buf)) <= length buf)%nat.
Proof.
  intros Hb. cbn [seg_parse sg_n sg_o sg_data].
  pose proof (byte_at_is_byte buf 3 Hb) as [H0 H1]. split.
  - change 0x1f with (Z.ones 5). rewrite Z.land_ones by lia. apply (Z.mod_pos_bound _ 32). lia.
  - split.
    + apply Z.lor_nonneg. split; [apply Z.shiftl_nonneg, Z.land_nonneg; right; lia|].
      by apply Z.shiftr_nonneg.
    + split; [auto with bytes|]. rewrite length_drop. lia.
Qed.

Lemma trans_seg_ok buf rx sa s : trans_wf n s -> rx_ok rx -> is_bytes buf ->
  Z.of_nat (length buf) < 60000 ->
  stm_ok (trans_seg buf rx sa) (fun o s' => trans_wf n s' /\ rx_ok (snd (fst (fst o)))) s.
Proof.
  intros Hs Hrx Hb Hl. unfold trans_seg. destruct (decide (length buf < 5)%nat); [by ok_steps|].
  destruct (seg_parse_ok buf Hb) as (Hn & Ho & Hdb & Hdl). set (sg := seg_parse buf) in *.
  destruct (Z.ltb_spec (sg_n sg) (sg_o sg)) as [|Hle]; [by ok_steps|].
  unfold get_net. ok_steps. set (sa' := seg_seq_auth _ _ _).
  eapply ok_mono; [by apply seg_session_ok|]. cbv beta. intros f s1 [Hs1 Hf].
  destruct f as [i|e|]; [|by ok_steps|done]. destruct Hf as (r & Hr & Huse & Hsn).
  unfold seg_receive. ok_step. eapply get_rx_at; [done|].
  destruct (Z.eqb_spec (Z.land (MESH_BIT (sg_o sg)) (sr_block r)) 0) as [Hz|]; cbn [negb]; [|by ok_steps].
  assert (Z.testbit (sr_block r) (sg_o sg) = false) as Hbit.
  { assert (Z.testbit (Z.land (MESH_BIT (sg_o sg)) (sr_block r)) (sg_o sg) = false) as Hf
      by by rewrite Hz, Z.bits_0.
    unfold MESH_BIT in Hf. rewrite Z.land_spec, Z.shiftl_1_l, Z.pow2_bits_true in Hf by lia. done. }
  ok_step. eapply ok_mono; [eapply seg_check_len_ok; (done || lia)|].
  cbv beta. intros f s2 [Hs2 Hf]. destruct f as [[]|e|]; [|by ok_steps|done].
  ok_step. eapply ok_mono; [apply seg_store_ok; (done || lia)|]. cbv beta.
  intros _ s3 [Hs3 (r3 & Hr3 & Huse3 & Hsn3)]. ok_step. eapply get_rx_at; [done|].
  destruct (Z.eqb_spec (sr_block r3) (BLOCK_COMPLETE (sg_n sg))) as [Hblk|]; cbn [negb]; [|by ok_steps].
  eapply seg_complete_ok; (done || lia).
Qed.

Lemma trans_recv_ok buf rx s : trans_wf n s -> rx_ok rx -> is_bytes buf ->
  Z.of_nat (length buf) < 60000 ->
  stm_ok (bt_mesh_trans_recv buf rx) (fun r s' => trans_wf n s' /\ rx_ok (snd r)) s.
Proof.
  intros Hs Hrx Hb Hl. unfold bt_mesh_trans_recv, get_net. ok_steps. pose proof Hs as (_ & Hn & _).
  destruct (lookup_lt_is_Some_2 (subs (t_net s)) (rx_sub rx)) as [x Hx]; [by rewrite Hn|].
  eapply ok_of_option; [exact Hx|].
  set (rx1 := rx <| rx_friend_match := _ |>). assert (rx_ok rx1) as Hrx1 by done.
  case_if; [by ok_steps|]. case_if; [by ok_steps|].
  assert (is_bytes (drop BT_MESH_NET_HDR_LEN buf)) as Hdb by auto with bytes.
  assert (Z.of_nat (length (drop BT_MESH_NET_HDR_LEN buf)) < 60000) as Hdl by (rewrite length_drop; lia).
  ok_step.
  eapply (ok_mono _ (fun o s' => trans_wf n s' /\ rx_ok (snd (fst (fst o))))).
  { case_if; [by apply trans_seg_ok|]. ok_step.
    eapply ok_mono; [apply trans_unseg_ok; (done || lia)|]. cbv beta. intros [[err rx2] sa] s1 Hs1. by ok_steps. }
  cbv beta. intros [[[err rx2] pt] sa] s1 [Hs1 Hrx2]. ok_step.
  assert (forall P : trans -> Prop, P s1 -> stm_ok (if CONFIG_LOW_POWER && lpn_notify then stm_emit [TLpnMsgReceived]
    else mret tt) (fun _ => P) s1) as H1 by (intros P HP; case_if; by ok_steps).
  apply H1. ok_step. case_if; by ok_steps.
Qed.

Lemma rx_reset_ok s : trans_wf n s -> stm_ok bt_mesh_rx_reset (fun _ s' => trans_wf n s') s.
Proof.
  intros Hs. unfold bt_mesh_rx_reset. ok_step. ok_step. pose proof Hs as (_ & _ & _ & _ & -> & _).
  assert (Forall (fun i => (i < CONFIG_BT_MESH_RX_SEG_MSG_COUNT)%nat)
    (seq 0 CONFIG_BT_MESH_RX_SEG_MSG_COUNT)) as Hall
    by (apply List.Forall_forall; intros i Hi; apply in_seq in Hi; lia).
  revert s Hs. induction Hall as [|i l Hi Hl IH]; intros s Hs; cbn [foldr]; [by ok_steps|].
  ok_step. eapply ok_mono; [by apply seg_rx_reset_ok|]. cbv beta. intros _ s1 Hs1. ok_step.
  apply mod_rx_ok; [done| |intros s2 Hs2; by apply IH]. intros r _ [? ? ? ?]. by split.
Qed.
End ok.
