(* ===== verification/Reassembly.v ===== *)
(** * Segmentation and reassembly

    The segments of a message, in whatever order and however often they
    arrive, give the receiver the message, once. *)

From S2P Require Import Prelude NetBuf Cmac Ccm MeshCrypto NetState NetIv Net TransState TransTx TransRx TransWf TransTxOk TransRxOk.

(** ** The header of a segment *)

Lemma land_low z k : 0 <= k -> Z.land z (Z.ones k) = z mod 2 ^ k.
Proof. apply Z.land_ones. Qed.

(** What [trans_seg] reads is what [send_seg] wrote. *)
Lemma seg_parse_pdu hdr aszmic seq_zero o n p :
  is_byte hdr -> 0 <= aszmic <= 1 -> 0 <= seq_zero < 8192 -> 0 <= o < 32 -> 0 <= n < 32 ->
  seg_parse (seg_pdu hdr aszmic seq_zero o n p) = mk_segment hdr aszmic seq_zero o n p.
Proof.
  intros Hh Ha Hs Ho Hn. unfold seg_parse, seg_pdu, ASZMIC, byte_at. cbn [app drop nth].
  assert (u8 (Z.lor (Z.shiftl aszmic 7) (Z.shiftr seq_zero 6)) = aszmic * 128 + seq_zero / 64) as ->.
  { rewrite Z.shiftr_div_pow2 by lia. change (2 ^ 6) with 64.
    rewrite lor_shiftl_add by word_lia. word_lia. }
  assert (u8 (Z.lor (Z.shiftl (Z.land seq_zero 0x3f) 2) (Z.shiftr o 3)) = seq_zero mod 64 * 4 + o / 8) as ->.
  { rewrite (land_low _ 6), Z.shiftr_div_pow2 by lia. change (2 ^ 6) with 64. change (2 ^ 3) with 8.
    rewrite lor_shiftl_add by word_lia. word_lia. }
  assert (u8 (Z.lor (Z.shiftl (Z.land o 0x07) 5) n) = o mod 8 * 32 + n) as ->.
  { rewrite (land_low _ 3) by lia. change (2 ^ 3) with 8.
    rewrite lor_shiftl_add by word_lia. word_lia. }
  unfold sys_get_be16, byte_at. cbn [nth].
  assert (u16 (Z.lor (Z.shiftl (aszmic * 128 + seq_zero / 64) 8) (seq_zero mod 64 * 4 + o / 8)) =
    aszmic * 32768 + seq_zero * 4 + o / 8) as ->.
  { rewrite lor_shiftl_add by word_lia. word_lia. }
  rewrite (u8_id hdr) by done.
  rewrite !Z.shiftr_div_pow2 by lia. change (2 ^ 2) with 4. change (2 ^ 5) with 32. change (2 ^ 7) with 128.
  rewrite (land_low _ 13), (land_low _ 2), (land_low _ 5), (land_low _ 1) by lia.
  change (2 ^ 13) with 8192. change (2 ^ 2) with 4. change (2 ^ 5) with 32. change (2 ^ 1) with 2.
  f_equal.
  - word_lia.
  - word_lia.
  - rewrite lor_shiftl_add by word_lia. word_lia.
  - word_lia.
Qed.

(** ** The buffer of a session *)

Lemma lookup_put_at i v l k : (i + length v <= length l)%nat ->
  put_at i v l !! k = if decide (i <= k < i + length v)%nat then v !! (k - i)%nat else l !! k.
Proof.
  intros Hl. unfold put_at. case_decide as Hk.
  - rewrite lookup_app_r by (rewrite length_take; lia). rewrite length_take.
    rewrite lookup_app_l by lia. f_equal. lia.
  - destruct (decide (k < i)%nat).
    + rewrite lookup_app_l by (rewrite length_take; lia). by rewrite lookup_take_lt.
    + rewrite lookup_app_r by (rewrite length_take; lia). rewrite length_take.
      rewrite lookup_app_r by lia. rewrite lookup_drop. f_equal. lia.
Qed.

(** [v] is in [l] at offset [i]. *)
Definition holds_at (i : nat) (v l : bytes) : Prop :=
  forall k, (k < length v)%nat -> l !! (i + k)%nat = v !! k.

Lemma holds_at_put i v l : (i + length v <= length l)%nat -> holds_at i v (put_at i v l).
Proof.
  intros Hl k Hk. rewrite lookup_put_at by done. rewrite decide_True by lia. f_equal. lia.
Qed.

Lemma holds_at_put_other i v j w l : (i + length v <= length l)%nat ->
  (j + length w <= i \/ i + length v <= j)%nat ->
  holds_at j w l -> holds_at j w (put_at i v l).
Proof.
  intros Hl Hd Hw k Hk. rewrite lookup_put_at by done. rewrite decide_False by lia. by apply Hw.
Qed.

Lemma find_index_intro {A} (p : A -> bool) (l : list A) i x : l !! i = Some x -> p x = true ->
  (forall k y, (k < i)%nat -> l !! k = Some y -> p y = false) -> find_index p l = Some i.
Proof.
  revert i. induction l as [|y l IH]; intros [|i] Hi Hx Hlow; try done; cbn in *.
  - injection Hi as ->. by rewrite Hx.
  - rewrite (Hlow 0%nat y) by (done || lia). rewrite (IH i); try done.
    intros k z Hk Hz. apply (Hlow (S k)); [lia|done].
Qed.

(** ** Messages handed to the models *)

Definition deliveries (evs : list trans_event) : list (net_rx * bytes) :=
  omap (fun e => match e with TModelRecv rx m => Some (rx, m) | _ => None end) evs.
Definition quiet (e : trans_event) : Prop :=
  match e with TModelRecv _ _ => False | _ => True end.

Lemma deliveries_app a b : deliveries (a ++ b) = deliveries a ++ deliveries b.
Proof. unfold deliveries. by rewrite omap_app. Qed.
Lemma deliveries_quiet e : Forall quiet e -> deliveries e = [].
Proof. induction 1 as [|[] e He Hf IH]; try done. Qed.

(** The computation delivers [D] and ends as [R] says. *)
Definition delivers {A} (m : T A) (D : list (net_rx * bytes)) (R : A -> trans -> Prop) (s : trans) : Prop :=
  stm_wp m (fun a s' e => deliveries e = D /\ R a s') s.

Lemma delivers_ret {A} (a : A) R s : R a s -> delivers (mret a) [] R s.
Proof. by split. Qed.

Lemma delivers_quiet {A B} (m : T A) (f : A -> T B) P D R s :
  stm_ok m P s -> stm_emits quiet m -> (forall a s1, P a s1 -> delivers (f a) D R s1) ->
  delivers (stm_bind m f) D R s.
Proof.
  intros Hm Hq Hf. unfold delivers. apply wp_bind. unfold stm_ok, stm_wp in *.
  destruct (m s) as [[[a s1] e1]|] eqn:Hms; [|done]. specialize (Hf a s1 Hm).
  unfold delivers, stm_wp in Hf. destruct (f a s1) as [[[b s2] e2]|]; [|done].
  destruct Hf as [Hd HR]. split; [|done]. rewrite deliveries_app.
  by rewrite (deliveries_quiet e1 (Hq _ _ _ _ Hms)).
Qed.

Lemma delivers_then {A B} (m : T A) (f : A -> T B) D D' P R s :
  delivers m D P s -> (forall a s1, P a s1 -> delivers (f a) D' R s1) ->
  delivers (stm_bind m f) (D ++ D') R s.
Proof.
  intros Hm Hf. unfold delivers in *. apply wp_bind. eapply wp_mono; [exact Hm|].
  cbv beta. intros a s1 e1 [Hd HP]. eapply wp_mono; [by apply Hf|]. cbv beta.
  intros b s2 e2 [Hd2 HR]. by rewrite deliveries_app, Hd, Hd2.
Qed.

Lemma delivers_head {A B} (m : T A) (f : A -> T B) D P R s :
  delivers m D P s -> (forall a s1, P a s1 -> delivers (f a) [] R s1) -> delivers (stm_bind m f) D R s.
Proof. intros. rewrite <- (app_nil_r D). by eapply delivers_then. Qed.

Lemma delivers_after {A B} (m : T A) (f : A -> T B) D R s a s1 e :
  m s = Some (a, s1, e) -> deliveries e = [] -> delivers (f a) D R s1 -> delivers (stm_bind m f) D R s.
Proof.
  intros Hm He Hf. unfold delivers, stm_wp, stm_bind in *. rewrite Hm.
  destruct (f a s1) as [[[b s2] e2]|]; [|done]. by rewrite deliveries_app, He.
Qed.

Lemma delivers_mono {A} (m : T A) D (P R : A -> trans -> Prop) s :
  delivers m D P s -> (forall a s', P a s' -> R a s') -> delivers m D R s.
Proof.
  intros Hm HPR. unfold delivers in *. eapply wp_mono; [exact Hm|]. cbv beta.
  intros a s' e [Hd HP]. auto.
Qed.

Lemma delivers_eq {A} (m m' : T A) D R s : m s = m' s -> delivers m' D R s -> delivers m D R s.
Proof. unfold delivers, stm_wp. by intros ->. Qed.

(** An invariant of every outcome besides. *)
Lemma delivers_ok {A} (m : T A) D P R s :
  delivers m D P s -> stm_ok m R s -> delivers m D (fun a s' => P a s' /\ R a s') s.
Proof.
  unfold delivers, stm_ok, stm_wp. destruct (m s) as [[[a s'] e]|]; [|done]. tauto.
Qed.

Section quiet.
Context {cfg : MeshConfig} {hal : SecHal} {env : NetEnv} {tenv : TransEnv}.

Lemma run_events_quiet evs : stm_emits quiet (run_events net_emit evs).
Proof.
  induction evs as [|e evs IH]; cbn [run_events]; [apply emits_ret|].
  unfold net_emit at 1. emits_steps. apply IH.
Qed.

Lemma net_send_quiet tx pdu cb : stm_emits quiet (net_send tx pdu cb net_emit).
Proof.
  unfold net_send, get_net, set_net. emits_steps; apply run_events_quiet.
Qed.

Lemma ctl_send_quiet tx op data sa cb : stm_emits quiet (bt_mesh_ctl_send tx op data sa cb).
Proof. unfold bt_mesh_ctl_send, friend_only. emits_steps; apply net_send_quiet. Qed.

Lemma send_ack_quiet sub src dst ttl sa block obo :
  stm_emits quiet (send_ack sub src dst ttl sa block obo).
Proof. unfold send_ack, get_net. emits_steps. apply ctl_send_quiet. Qed.

Lemma seg_rx_reset_quiet i : stm_emits quiet (seg_rx_reset i).
Proof. unfold seg_rx_reset, get_rx, mod_rx. emits_steps. Qed.

Lemma seg_check_len_quiet i rx sg sa : stm_emits quiet (seg_check_len i rx sg sa).
Proof.
  unfold seg_check_len, get_rx, mod_rx, ack_source.
  emits_steps; first [apply send_ack_quiet|apply seg_rx_reset_quiet].
Qed.

Lemma seg_store_quiet i sg : stm_emits quiet (seg_store i sg).
Proof. unfold seg_store, ack_submit, get_rx, mod_rx. emits_steps. Qed.

Lemma replay_guard_quiet rx : stm_emits quiet (replay_guard rx).
Proof. unfold replay_guard, get_net, set_net. emits_steps. Qed.
End quiet.

(** ** One message *)

(** A segmented access message and what its segments have in common. *)
Record seg_message := mk_seg_message {
  sm_hdr : Z; sm_aszmic : Z; sm_seq_zero : Z; sm_iv : Z; sm_src : Z; sm_dst : Z; sm_sub : nat;
  sm_sdu : bytes
}.

Definition last_seg (sm : seg_message) : Z := (Z.of_nat (length (sm_sdu sm)) - 1) / 12.
(** The payload of segment [j], as [send_seg] cuts it. *)
Definition chunk (sm : seg_message) (j : nat) : bytes := take 12 (drop (12 * j) (sm_sdu sm)).
Definition seg_of (sm : seg_message) (j : nat) : segment :=
  mk_segment (sm_hdr sm) (sm_aszmic sm) (sm_seq_zero sm) (Z.of_nat j) (last_seg sm) (chunk sm j).
Definition pdu_of (sm : seg_message) (j : nat) : bytes :=
  seg_pdu (sm_hdr sm) (sm_aszmic sm) (sm_seq_zero sm) (Z.of_nat j) (last_seg sm) (chunk sm j).

Definition seg_message_ok (sm : seg_message) : Prop :=
  is_byte (sm_hdr sm) /\ 0 <= sm_aszmic sm <= 1 /\ 0 <= sm_seq_zero sm < 8192 /\
  (APP_MIC_LEN (sm_aszmic sm) < length (sm_sdu sm) <= CONFIG_BT_MESH_RX_SDU_MAX)%nat /\
  is_bytes (sm_sdu sm).

(** The SeqAuth of a network PDU of the message. *)
Definition rx_seq_auth (sm : seg_message) (rx : net_rx) : Z :=
  SEQ_AUTH (u32 (sm_iv sm - Z.b2z (rx_old_iv rx)))
    (Z.lor (Z.land (rx_seq rx) 0xffffe000) (sm_seq_zero sm)).

(** [rx] is a network PDU of the message with SeqAuth [sa], received by the
    element it is for. *)
Record rx_of (sm : seg_message) (sa : Z) (rx : net_rx) : Prop := {
  ro_src : ctx_addr (rx_ctx rx) = sm_src sm;
  ro_dst : rx_dst rx = sm_dst sm;
  ro_sub : rx_sub rx = sm_sub sm;
  ro_ctl : rx_ctl rx = false;
  ro_local : rx_local_match rx = true;
  ro_friend : rx_friend_match rx = false;
  ro_sa : rx_seq_auth sm rx = sa
}.

(** The session [seg_rx_find] stops at. *)
Definition matches (sm : seg_message) (sa : Z) (r : seg_rx) : bool :=
  ((sr_src r =? sm_src sm) && (sr_dst r =? sm_dst sm)) && ((sr_seq_auth r =? sa) || sr_in_use r).

Record session_of (sm : seg_message) (sa : Z) (r : seg_rx) : Prop := {
  so_src : sr_src r = sm_src sm;
  so_dst : sr_dst r = sm_dst sm;
  so_sa : sr_seq_auth r = sa;
  so_n : sr_seg_n r = last_seg sm;
  so_hdr : sr_hdr r = sm_hdr sm;
  so_ctl : sr_ctl r = false
}.

(** A session that has received the segments of the bit mask [B]. *)
Record partial (sm : seg_message) (sa B : Z) (r : seg_rx) : Prop := {
  pa_session : session_of sm sa r;
  pa_use : sr_in_use r = true;
  pa_block : sr_block r = B;
  pa_len : length (sr_buf_data r) = CONFIG_BT_MESH_RX_SDU_MAX;
  pa_data : forall j, Z.testbit B (Z.of_nat j) = true -> holds_at (12 * j) (chunk sm j) (sr_buf_data r);
  pa_buf : Z.testbit B (last_seg sm) = true -> sr_buf_len r = length (sm_sdu sm)
}.

(** A session that has delivered its message. *)
Record finished (sm : seg_message) (sa : Z) (r : seg_rx) : Prop := {
  fi_session : session_of sm sa r;
  fi_use : sr_in_use r = false;
  fi_block : sr_block r = BLOCK_COMPLETE (last_seg sm)
}.

(** The session of the message is the context [i]. *)
Definition at_session (sm : seg_message) (sa : Z) (i : nat) (P : seg_rx -> Prop) (s : trans) : Prop :=
  exists r, t_seg_rx s !! i = Some r /\ P r /\
    forall k r', (k < i)%nat -> t_seg_rx s !! k = Some r' -> matches sm sa r' = false.

(** The bits of [B] are those of segments of the message. *)
Definition block_ok (sm : seg_message) (B : Z) : Prop := 0 <= B < 2 ^ (last_seg sm + 1).

Section message.
Context {cfg : MeshConfig} {hal : SecHal} {halok : SecHalOk hal} {env : NetEnv}
  {tenv : TransEnv} {tenvok : TransEnvOk tenv} (n : nat) {hok : HandlersOk n tenv}.
Context (sm : seg_message) (sa : Z) (Hsm : seg_message_ok sm).

Lemma last_seg_range : 0 <= last_seg sm < 32.
Proof.
  destruct Hsm as (_ & _ & _ & Hl & _). unfold last_seg, CONFIG_BT_MESH_RX_SDU_MAX in *.
  Z.div_mod_to_equations. lia.
Qed.

Lemma chunk_length j : Z.of_nat j <= last_seg sm ->
  (0 < length (chunk sm j))%nat /\
  (Z.of_nat j < last_seg sm -> length (chunk sm j) = 12%nat) /\
  (Z.of_nat j = last_seg sm -> (12 * j + length (chunk sm j))%nat = length (sm_sdu sm)) /\
  (12 * j + length (chunk sm j) <= length (sm_sdu sm))%nat.
Proof.
  intros Hj. destruct Hsm as (_ & _ & _ & Hl & _). unfold chunk, last_seg in *.
  rewrite length_take, length_drop. Z.div_mod_to_equations. lia.
Qed.

Lemma pdu_of_parse j : Z.of_nat j <= last_seg sm ->
  seg_parse (pdu_of sm j) = seg_of sm j /\ (5 <= length (pdu_of sm j))%nat.
Proof.
  intros Hj. destruct Hsm as (Hh & Ha & Hz & Hl & Hb). pose proof last_seg_range.
  split; [apply seg_parse_pdu; (done || lia)|].
  destruct (chunk_length j Hj) as (Hpos & _). unfold pdu_of, seg_pdu. rewrite length_app. cbn [length]. lia.
Qed.

Lemma chunk_bytes j : is_bytes (chunk sm j).
Proof. destruct Hsm as (_ & _ & _ & _ & Hb). unfold chunk. auto with bytes. Qed.

Lemma seg_of_ok j : Z.of_nat j <= last_seg sm ->
  0 <= sg_o (seg_of sm j) <= sg_n (seg_of sm j) /\ sg_n (seg_of sm j) < 32 /\
  Z.of_nat (length (sg_data (seg_of sm j))) <= 12.
Proof.
  intros Hj. pose proof last_seg_range. cbn [seg_of sg_o sg_n sg_data].
  unfold chunk. rewrite length_take. lia.
Qed.

Lemma pdu_of_bytes j : is_bytes (pdu_of sm j) /\ Z.of_nat (length (pdu_of sm j)) <= 16.
Proof.
  destruct Hsm as (Hh & _). unfold pdu_of, seg_pdu. split.
  - apply is_bytes_app. split; [|apply chunk_bytes]. repeat constructor; auto with bytes; apply u8_byte.
  - rewrite length_app. unfold chunk. rewrite length_take. cbn [length]. lia.
Qed.

Lemma matches_session r : session_of sm sa r -> matches sm sa r = true.
Proof. intros [H1 H2 H3 _ _ _]. unfold matches. by rewrite H1, H2, H3, !Z.eqb_refl. Qed.

Lemma addr_match_of rx r : rx_of sm sa rx ->
  sr_addr_match rx r && ((sr_seq_auth r =? sa) || sr_in_use r) = matches sm sa r.
Proof. intros [H1 H2 _ _ _ _ _]. unfold sr_addr_match, matches. by rewrite H1, H2. Qed.

Lemma get_rx_run i r s : t_seg_rx s !! i = Some r -> get_rx i s = Some (r, s, []).
Proof. intros Hr. unfold get_rx. rewrite (stm_bind_pure _ _ s s s) by done. by rewrite Hr. Qed.

Lemma find_session rx i P s : rx_of sm sa rx -> (forall r, P r -> session_of sm sa r) ->
  at_session sm sa i P s -> seg_rx_find rx sa s = Some (Some i, s, []).
Proof.
  intros Hrx HP (r & Hr & Hp & Hlow). unfold seg_rx_find. rewrite (stm_bind_pure _ _ s s s) by done.
  rewrite (find_index_intro _ (t_seg_rx s) i r Hr).
  - rewrite (stm_bind_pure _ _ _ _ _ (get_rx_run i r s Hr)).
    rewrite (so_sa _ _ _ (HP r Hp)), Z.eqb_refl. done.
  - rewrite (addr_match_of rx r Hrx). by apply matches_session, HP.
  - intros k y Hk Hy. rewrite (addr_match_of rx y Hrx). by eapply Hlow.
Qed.

Lemma session_valid rx r j : rx_of sm sa rx -> session_of sm sa r ->
  seg_rx_is_valid r rx (sg_hdr (seg_of sm j)) (sg_n (seg_of sm j)) = true.
Proof.
  intros Hrx [H1 H2 H3 H4 H5 H6]. unfold seg_rx_is_valid, sr_addr_match.
  rewrite (ro_src _ _ _ Hrx), (ro_dst _ _ _ Hrx), (ro_ctl _ _ _ Hrx), H1, H2, H4, H5, H6.
  cbn [seg_of sg_hdr sg_n]. rewrite !Z.eqb_refl. done.
Qed.

(** A later segment finds the session. *)
Lemma session_hit rx i B j s : rx_of sm sa rx -> at_session sm sa i (partial sm sa B) s ->
  seg_session rx (seg_of sm j) sa s = Some (Ok i, s, []).
Proof.
  intros Hrx Hat. unfold seg_session.
  rewrite (stm_bind_pure _ _ _ _ _ (find_session rx i _ s Hrx (fun r => pa_session sm sa B r) Hat)).
  destruct Hat as (r & Hr & Hp & _). rewrite (stm_bind_pure _ _ _ _ _ (get_rx_run i r s Hr)).
  rewrite session_valid by (done || apply Hp). cbn [negb]. by rewrite (pa_use _ _ _ _ Hp).
Qed.

(** The first segment opens one. *)
Lemma session_new rx i j s : trans_wf n s -> rx_of sm sa rx ->
  Forall (fun r => matches sm sa r = false) (t_seg_rx s) ->
  find_index (fun r => negb (sr_in_use r)) (t_seg_rx s) = Some i ->
  exists s', seg_session rx (seg_of sm j) sa s = Some (Ok i, s', []) /\ t_net s' = t_net s /\
    at_session sm sa i (partial sm sa 0) s'.
Proof.
  intros Hs Hrx Hno Hfree. pose proof last_seg_range as Hn.
  unfold seg_session. rewrite (stm_bind_pure _ _ s None s).
  2: { unfold seg_rx_find. rewrite (stm_bind_pure _ _ s s s) by done.
       rewrite (proj2 (find_index_None _ _)); [done|]. revert Hno. apply List.Forall_impl.
       intros r Hr. by rewrite addr_match_of. }
  assert (sdu_len_is_ok (rx_ctl rx) (sg_n (seg_of sm j)) = true) as ->.
  { rewrite (ro_ctl _ _ _ Hrx). unfold sdu_len_is_ok. cbn [seg_of sg_n seg_len]. apply Z.leb_le.
    unfold CONFIG_BT_MESH_RX_SDU_MAX. lia. }
  cbn [negb]. apply find_index_Some in Hfree as Hi. destruct Hi as (r & Hr & Hidle).
  set (r1 := seg_rx_start rx (sg_hdr (seg_of sm j)) sa (sg_n (seg_of sm j)) r).
  set (r2 := r1 <| sr_obo := rx_friend_match rx |>).
  set (s1 := s <| t_seg_rx := <[i:=r1]> (t_seg_rx s) |>).
  assert (i < length (t_seg_rx s))%nat as Hil by by eapply lookup_lt_Some.
  assert (t_seg_rx s1 !! i = Some r1) as Hr1 by by apply list_lookup_insert_eq.
  rewrite (stm_bind_pure _ _ s (Some i) s1).
  2: { unfold seg_rx_alloc. rewrite (stm_bind_pure _ _ s s s) by done. rewrite Hfree.
       rewrite (stm_bind_pure _ _ s tt s1); [done|]. unfold mod_rx, stm_modify.
       by rewrite (alter_insert _ _ _ _ Hr). }
  exists (s1 <| t_seg_rx := <[i:=r2]> (t_seg_rx s1) |>).
  rewrite (stm_bind_pure _ _ s1 tt (s1 <| t_seg_rx := <[i:=r2]> (t_seg_rx s1) |>)).
  2: { unfold mod_rx, stm_modify. by rewrite (alter_insert _ _ _ _ Hr1). }
  split; [done|]. split; [done|]. exists r2.
  split; [apply list_lookup_insert_eq; by eapply lookup_lt_Some|].
  destruct (rx_index n s i r Hs Hr) as [_ [[Hd _] _ _ _]].
  split.
  - split; [split; by (apply Hrx || done)|done|done|done| |].
    + intros k Hk. by rewrite Z.bits_0 in Hk.
    + intros Hk. by rewrite Z.bits_0 in Hk.
  - intros k r' Hk Hr'. change (<[i:=r2]> (<[i:=r1]> (t_seg_rx s)) !! k = Some r') in Hr'.
    rewrite !list_lookup_insert_ne in Hr' by lia. by eapply Forall_lookup_1 in Hno.
Qed.

(** ** A segment that belongs to the session *)

Definition upd_rx (i : nat) (r : seg_rx) (s : trans) : trans :=
  s <| t_seg_rx := <[i:=r]> (t_seg_rx s) |>.

Lemma mod_rx_run i f r s : t_seg_rx s !! i = Some r -> mod_rx i f s = Some (tt, upd_rx i (f r) s, []).
Proof. intros Hr. unfold mod_rx, stm_modify. by rewrite (alter_insert _ _ _ _ Hr). Qed.

Lemma upd_rx_lookup i r0 r s : t_seg_rx s !! i = Some r0 -> t_seg_rx (upd_rx i r s) !! i = Some r.
Proof. intros Hr. apply list_lookup_insert_eq. by eapply lookup_lt_Some. Qed.

Lemma at_session_upd i (P Q : seg_rx -> Prop) r s : at_session sm sa i P s -> Q r ->
  at_session sm sa i Q (upd_rx i r s).
Proof.
  intros (r0 & Hr & _ & Hlow) Hq. exists r. split; [by eapply upd_rx_lookup|]. split; [done|].
  intros k r' Hk. change (t_seg_rx (upd_rx i r s)) with (<[i:=r]> (t_seg_rx s)).
  rewrite list_lookup_insert_ne by lia. by apply Hlow.
Qed.

Lemma at_session_eq i P s s' : t_seg_rx s' = t_seg_rx s -> at_session sm sa i P s -> at_session sm sa i P s'.
Proof. unfold at_session. by intros ->. Qed.

(** [partial], and the length of the SDU is known if [j] is the last segment. *)
Definition ready (B : Z) (j : nat) (r : seg_rx) : Prop :=
  partial sm sa B r /\ (Z.of_nat j = last_seg sm -> sr_buf_len r = length (sm_sdu sm)).

Lemma check_len_run rx i B j s : Z.of_nat j <= last_seg sm -> at_session sm sa i (partial sm sa B) s ->
  exists s', seg_check_len i rx (seg_of sm j) sa s = Some (Ok tt, s', []) /\ t_net s' = t_net s /\
    at_session sm sa i (ready B j) s'.
Proof.
  intros Hj Hat. pose proof Hat as (r & Hr & Hp & Hlow). pose proof last_seg_range as Hn.
  destruct (chunk_length j Hj) as (Hpos & Hfull & Hlast & Hle). destruct Hsm as (_ & _ & _ & Hl & _).
  unfold CONFIG_BT_MESH_RX_SDU_MAX in Hl.
  unfold seg_check_len. rewrite (stm_bind_pure _ _ _ _ _ (get_rx_run i r s Hr)).
  pose proof (pa_session _ _ _ _ Hp) as Hso. rewrite (so_ctl _ _ _ Hso). cbn [seg_of sg_o sg_n sg_data seg_len].
  destruct (Z.eqb_spec (Z.of_nat j) (last_seg sm)) as [He|Hne].
  - set (total := u16 _). assert (total = Z.of_nat (length (sm_sdu sm))) as Ht.
    { unfold total. rewrite <- (Hlast He). rewrite u16_id; lia. }
    rewrite (stm_bind_pure _ _ _ _ _ (mod_rx_run i _ r s Hr)).
    destruct (Z.ltb_spec (Z.of_nat CONFIG_BT_MESH_RX_SDU_MAX) total) as [Hc|_].
    { unfold CONFIG_BT_MESH_RX_SDU_MAX in Hc. lia. }
    eexists. split; [done|]. split; [done|]. eapply at_session_upd; [exact Hat|].
    assert (Z.to_nat total = length (sm_sdu sm)) as Htn by (rewrite Ht; apply Nat2Z.id).
    split; [|by intros _]. destruct Hso as [S1 S2 S3 S4 S5 S6]. destruct Hp as [_ P2 P3 P4 P5 P6].
    split; [by split|done|done|done|done|by intros _].
  - destruct (Z.eqb_spec (Z.of_nat (length (chunk sm j))) 12) as [_|Hc]; [|rewrite Hfull in Hc; lia].
    cbn [negb]. exists s. split; [done|]. split; [done|]. exists r. by split_and!.
Qed.

Lemma testbit_add B j k : 0 <= j -> 0 <= k ->
  Z.testbit (Z.lor B (MESH_BIT j)) k = Z.testbit B k || (j =? k).
Proof. intros Hj Hk. unfold MESH_BIT. by rewrite Z.lor_spec, Z.shiftl_1_l, Z.pow2_bits_eqb. Qed.

(** The buffer of the session with segment [j] in place. *)
Lemma partial_store B j r p t : Z.of_nat j <= last_seg sm -> Z.testbit B (Z.of_nat j) = false ->
  ready B j r ->
  partial sm sa (Z.lor B (MESH_BIT (Z.of_nat j)))
    (r <| sr_last := t |> <| sr_ack_pending := p |>
       <| sr_buf_data := put_at (12 * j) (chunk sm j) (sr_buf_data r) |>
       <| sr_block := Z.lor (sr_block r) (MESH_BIT (Z.of_nat j)) |>).
Proof.
  intros Hj Hbit [[[S1 S2 S3 S4 S5 S6] P2 P3 P4 P5 P6] Hlen]. pose proof last_seg_range as Hn.
  destruct (chunk_length j Hj) as (Hpos & Hfull & Hlast & Hle). destruct Hsm as (_ & _ & _ & Hl & _).
  assert (12 * j + length (chunk sm j) <= length (sr_buf_data r))%nat as Hfit by (rewrite P4; lia).
  split; [by split|done| | | |].
  - change (Z.lor (sr_block r) (MESH_BIT (Z.of_nat j)) = Z.lor B (MESH_BIT (Z.of_nat j))). by rewrite P3.
  - change (length (put_at (12 * j) (chunk sm j) (sr_buf_data r)) = CONFIG_BT_MESH_RX_SDU_MAX).
    by rewrite length_put_at.
  - intros k. change (sr_buf_data (_ <| sr_block := _ |>)) with (put_at (12 * j) (chunk sm j) (sr_buf_data r)).
    rewrite testbit_add by lia. destruct (Z.eqb_spec (Z.of_nat j) (Z.of_nat k)) as [He|Hne].
    + intros _. assert (k = j) as -> by lia. by apply holds_at_put.
    + rewrite orb_false_r. intros Hk. apply holds_at_put_other; [done| |by apply P5].
      assert (length (chunk sm k) <= 12)%nat by (unfold chunk; rewrite length_take; lia).
      destruct (decide (k < j)%nat); [lia|]. right.
      destruct (decide (Z.of_nat j = last_seg sm)) as [He|]; [|specialize (Hfull ltac:(lia)); lia].
      specialize (Hlast He). unfold last_seg in He. Z.div_mod_to_equations. lia.
  - change (Z.testbit (Z.lor B (MESH_BIT (Z.of_nat j))) (last_seg sm) = true ->
      sr_buf_len r = length (sm_sdu sm)).
    rewrite testbit_add by lia. destruct (Z.eqb_spec (Z.of_nat j) (last_seg sm)) as [He|Hne].
    + intros _. by apply Hlen.
    + rewrite orb_false_r. apply P6.
Qed.

Lemma upd_rx_upd i r1 r2 s : upd_rx i r2 (upd_rx i r1 s) = upd_rx i r2 s.
Proof.
  unfold upd_rx. change (t_seg_rx (s <| t_seg_rx := <[i:=r1]> (t_seg_rx s) |>)) with (<[i:=r1]> (t_seg_rx s)).
  by rewrite list_insert_insert_eq.
Qed.

Lemma store_run i B j s : Z.of_nat j <= last_seg sm -> Z.testbit B (Z.of_nat j) = false ->
  at_session sm sa i (ready B j) s ->
  exists s' e, seg_store i (seg_of sm j) s = Some (tt, s', e) /\ Forall quiet e /\
    t_net s' = t_net s /\ at_session sm sa i (partial sm sa (Z.lor B (MESH_BIT (Z.of_nat j)))) s'.
Proof.
  intros Hj Hbit Hat. pose proof Hat as (r & Hr & Hp & Hlow). pose proof last_seg_range as Hn.
  destruct (chunk_length j Hj) as (_ & _ & _ & Hle). pose proof Hsm as (_ & _ & _ & [_ Hl] & _).
  assert (forall p, at_session sm sa i (partial sm sa (Z.lor B (MESH_BIT (Z.of_nat j))))
    (upd_rx i (r <| sr_last := u32 now |> <| sr_ack_pending := p |>
       <| sr_buf_data := put_at (12 * j) (chunk sm j) (sr_buf_data r) |>
       <| sr_block := Z.lor (sr_block r) (MESH_BIT (Z.of_nat j)) |>) s)) as Hend.
  { intros p. eapply at_session_upd; [exact Hat|]. by apply partial_store. }
  destruct Hp as [[[_ _ _ _ _ S6] _ _ _ _ _] _].
  unfold seg_store. rewrite (stm_bind_pure _ _ _ _ _ (mod_rx_run i _ r s Hr)).
  set (r1 := r <| sr_last := u32 now |>). pose proof (upd_rx_lookup i r r1 s Hr) as Hr1.
  rewrite (stm_bind_pure _ _ _ _ _ (get_rx_run i r1 _ Hr1)).
  change (sr_ctl r1) with (sr_ctl r). rewrite S6. cbn [seg_of sg_o sg_data seg_len].
  replace (Z.to_nat (Z.of_nat j * 12)) with (12 * j)%nat by lia.
  rewrite decide_False by lia. case_if.
  - set (r2 := r1 <| sr_ack_pending := true |>).
    assert (ack_submit i (upd_rx i r1 s) =
      Some (tt, upd_rx i r2 s, [TAckSubmit i (ack_timeout r1)])) as Hs.
    { unfold ack_submit. rewrite (stm_bind_pure _ _ _ _ _ (get_rx_run i r1 _ Hr1)), stm_bind_emit.
      rewrite (mod_rx_run i _ r1 _ Hr1), upd_rx_upd. done. }
    unfold stm_bind. rewrite Hs, (mod_rx_run i _ r2) by by eapply upd_rx_lookup. rewrite upd_rx_upd.
    eexists _, _. split; [done|]. split; [by repeat constructor|]. split; [done|]. apply (Hend true).
  - rewrite (stm_bind_pure _ _ (upd_rx i r1 s) tt (upd_rx i r1 s)) by done.
    rewrite (mod_rx_run i _ r1) by done. rewrite upd_rx_upd.
    eexists _, _. split; [done|]. split; [done|]. split; [done|].
    replace r1 with (r1 <| sr_ack_pending := sr_ack_pending r |>) by (unfold r1; by destruct r). apply Hend.
Qed.

Lemma land_bit B j : 0 <= j -> (Z.land (MESH_BIT j) B =? 0) = negb (Z.testbit B j).
Proof.
  intros Hj. unfold MESH_BIT. rewrite Z.shiftl_1_l.
  destruct (Z.testbit B j) eqn:Hb; cbn [negb].
  - apply Z.eqb_neq. intros H. assert (Z.testbit (Z.land (2 ^ j) B) j = false) as Hf by by rewrite H, Z.bits_0.
    by rewrite Z.land_spec, Z.pow2_bits_true, Hb in Hf.
  - apply Z.eqb_eq. apply Z.bits_inj'. intros k Hk. rewrite Z.land_spec, Z.bits_0, Z.pow2_bits_eqb by done.
    by destruct (Z.eqb_spec j k) as [->|].
Qed.

(** A segment that was received before changes nothing. *)
Lemma receive_dup rx i B j s : at_session sm sa i (partial sm sa B) s ->
  Z.testbit B (Z.of_nat j) = true ->
  seg_receive i rx (seg_of sm j) sa s = Some ((- EALREADY, rx, PDU_SINGLE, sa), s, []).
Proof.
  intros (r & Hr & Hp & _) Hb. unfold seg_receive. rewrite (stm_bind_pure _ _ _ _ _ (get_rx_run i r s Hr)).
  rewrite (pa_block _ _ _ _ Hp). cbn [seg_of sg_o]. rewrite land_bit, Hb by lia. done.
Qed.

(** A segment before the last one to come is stored. *)
Lemma receive_more rx i B j s : trans_wf n s -> rx_ok n rx ->
  at_session sm sa i (partial sm sa B) s ->
  Z.of_nat j <= last_seg sm -> Z.testbit B (Z.of_nat j) = false ->
  exists s', trans_wf n s' /\ t_net s' = t_net s /\
    at_session sm sa i (partial sm sa (Z.lor B (MESH_BIT (Z.of_nat j)))) s' /\
    exists e, Forall quiet e /\
    seg_receive i rx (seg_of sm j) sa s =
      (if Z.lor B (MESH_BIT (Z.of_nat j)) =? BLOCK_COMPLETE (last_seg sm) then
         match seg_complete i rx (seg_of sm j) sa s' with
         | Some (o, s2, e2) => Some (o, s2, e ++ e2)
         | None => None
         end
       else Some ((0, rx, PDU_PARTIAL, sa), s', e)).
Proof.
  intros Hs Hrx Hat Hj Hb. pose proof Hat as (r & Hr & Hp & _).
  destruct (check_len_run rx i B j s Hj Hat) as (s1 & H1 & Hn1 & Hat1).
  destruct (store_run i B j s1 Hj Hb Hat1) as (s2 & e & H2 & Hq & Hn2 & Hat2).
  assert (trans_wf n s1 /\ segment_fits s1 i (seg_of sm j)) as [Hs1 Hfit].
  { destruct Hp as [[? ? ? Hsn ? ?] Huse Hblk ? ? ?]. destruct (seg_of_ok j Hj) as (Ho & Hn & Hd).
    pose proof (seg_check_len_ok n i r rx (seg_of sm j) sa s Hs Hrx Hr Huse Hsn) as Hc.
    rewrite Hblk in Hc. specialize (Hc Hb Ho Hn ltac:(lia)). unfold stm_ok, stm_wp in Hc. by rewrite H1 in Hc. }
  assert (trans_wf n s2) as Hs2.
  { destruct (seg_of_ok j Hj) as (Ho & Hn & Hd).
    pose proof (seg_store_ok n i (seg_of sm j) s1 Hs1 Hfit (chunk_bytes j) Ho) as Hc.
    unfold stm_ok, stm_wp in Hc. rewrite H2 in Hc. apply Hc. }
  exists s2. split; [done|]. split; [congruence|]. split; [done|]. exists e. split; [done|].
  unfold seg_receive. rewrite (stm_bind_pure _ _ _ _ _ (get_rx_run i r s Hr)).
  rewrite (pa_block _ _ _ _ Hp). change (sg_o (seg_of sm j)) with (Z.of_nat j). rewrite land_bit, Hb by lia.
  cbn [negb]. rewrite (stm_bind_pure _ _ _ _ _ H1). unfold stm_bind at 1. rewrite H2.
  destruct Hat2 as (r2 & Hr2 & Hp2 & _). rewrite (stm_bind_pure _ _ _ _ _ (get_rx_run i r2 s2 Hr2)).
  rewrite (pa_block _ _ _ _ Hp2). change (sg_n (seg_of sm j)) with (last_seg sm).
  destruct (_ =? _); cbn [negb]; [done|]. unfold mret, stm_mret. by rewrite app_nil_r.
Qed.

(** ** The complete message *)

Lemma block_complete_ones k : 0 <= k < 32 -> BLOCK_COMPLETE k = Z.ones (k + 1).
Proof.
  intros Hk. unfold BLOCK_COMPLETE. rewrite Z.shiftl_1_l, Z.ones_equiv, <- Z.sub_1_r.
  apply u32_id.
  pose proof (Z.pow_pos_nonneg 2 (k + 1) ltac:(lia) ltac:(lia)).
  pose proof (Z.pow_le_mono_r 2 (k + 1) 32 ltac:(lia) ltac:(lia)).
  change (2 ^ 32) with 4294967296 in *. lia.
Qed.

Lemma testbit_complete j : 0 <= j <= last_seg sm -> Z.testbit (BLOCK_COMPLETE (last_seg sm)) j = true.
Proof.
  intros Hj. pose proof last_seg_range. rewrite block_complete_ones by lia. apply Z.ones_spec_low. lia.
Qed.

Lemma complete_data r : partial sm sa (BLOCK_COMPLETE (last_seg sm)) r ->
  sr_buf_len r = length (sm_sdu sm) /\ take (sr_buf_len r) (sr_buf_data r) = sm_sdu sm.
Proof.
  intros [_ _ _ P4 P5 P6]. pose proof last_seg_range as Hn. pose proof Hsm as (_ & _ & _ & [_ Hl] & _).
  assert (sr_buf_len r = length (sm_sdu sm)) as Hlen by (apply P6, testbit_complete; lia).
  split; [done|]. rewrite Hlen. apply list_eq. intros k.
  destruct (decide (k < length (sm_sdu sm))%nat) as [Hk|Hk].
  - rewrite lookup_take_lt by done. set (j := (k / 12)%nat).
    assert (12 * j <= k < 12 * j + 12)%nat as Hjk.
    { unfold j. pose proof (Nat.div_mod_eq k 12). pose proof (Nat.mod_upper_bound k 12 ltac:(done)). lia. }
    clearbody j.
    assert (Z.of_nat j <= last_seg sm) as Hj by (unfold last_seg; Z.div_mod_to_equations; lia).
    pose proof (P5 j (testbit_complete (Z.of_nat j) ltac:(lia)) (k - 12 * j)%nat) as Hh.
    replace (12 * j + (k - 12 * j))%nat with k in Hh by lia. rewrite Hh.
    + unfold chunk. rewrite lookup_take_lt by lia. rewrite lookup_drop. f_equal. lia.
    + unfold chunk. rewrite length_take, length_drop. lia.
  - rewrite !lookup_ge_None_2; [done|lia|]. rewrite length_take. lia.
Qed.

Lemma seg_rx_reset_run i r s : t_seg_rx s !! i = Some r ->
  stm_ok (seg_rx_reset i)
    (fun _ s' => s' = upd_rx i (r <| sr_ack_pending := false |> <| sr_in_use := false |>) s) s.
Proof.
  intros Hr. unfold seg_rx_reset, stm_ok, stm_wp. rewrite (stm_bind_pure _ _ _ _ _ (get_rx_run i r s Hr)).
  rewrite stm_bind_emit. case_if; [rewrite stm_bind_emit|rewrite (stm_bind_pure _ _ s tt s) by done];
    by rewrite (mod_rx_run i _ r s Hr).
Qed.

(** What decryption reads of the network state. *)
Definition same_keys (m m' : mesh_net) : Prop :=
  app_keys m' = app_keys m /\ dev_key m' = dev_key m /\ subs m' = subs m /\ iv_index m' = iv_index m.

Lemma sdu_open_same m m' rx hdr aszmic buf : same_keys m m' ->
  sdu_open m' rx hdr aszmic buf = sdu_open m rx hdr aszmic buf.
Proof.
  intros (Ha & Hd & Hs & Hi). unfold sdu_open. rewrite Ha, Hd, Hs.
  assert (forall key dev buf ad, sdu_decrypt m' rx key dev aszmic buf ad =
    sdu_decrypt m rx key dev aszmic buf ad) as Hdec.
  { intros. unfold sdu_decrypt, BT_MESH_NET_IVI_RX. by rewrite Hi. }
  rewrite Hdec. destruct (AKF hdr =? 0); [done|]. destruct (subs m !! rx_sub rx); [|done].
  clear Ha. induction (app_keys m) as [|k l IH]; [done|]. cbn [sdu_try_keys]. rewrite IH.
  destruct (negb _); [done|]. destruct (rx_new_key rx && app_updated k), (app_key0 k), (app_key1 k); by rewrite Hdec.
Qed.

Lemma sent_same_keys s s' : sent s s' -> same_keys (t_net s) (t_net s') /\ t_seg_rx s' = t_seg_rx s.
Proof. intros (q & lq & ->). done. Qed.

Lemma replay_guard_run rx s : fst (is_replay (t_net s) rx) = false -> trans_wf n s ->
  exists s', replay_guard rx s = Some (false, s', []) /\ trans_wf n s' /\
    same_keys (t_net s) (t_net s') /\ t_seg_rx s' = t_seg_rx s.
Proof.
  intros Hrep Hs. pose proof (replay_guard_ok n rx s Hs) as Hok.
  assert (exists s', replay_guard rx s = Some (false, s', []) /\ same_keys (t_net s) (t_net s') /\
    t_seg_rx s' = t_seg_rx s) as (s' & Hrun & Hk & Hrx).
  { unfold replay_guard. case_if; [|by exists s].
    unfold get_net. rewrite (stm_bind_pure _ _ s (t_net s) s) by done. unfold is_replay in *.
    destruct (rpl_check _ _ _ _) as [b l]. cbn in Hrep. subst b. by eexists. }
  exists s'. split; [done|]. unfold stm_ok, stm_wp in Hok. rewrite Hrun in Hok. done.
Qed.
End message.

(** The models' handlers do not touch the sessions nor the IV index. *)
Class ModelsOk (tenv : TransEnv) : Prop := {
  model_recv_quiet : forall rx m, stm_emits quiet (model_recv rx m);
  model_recv_keeps : forall rx m, stm_keeps (fun s s' => t_seg_rx s' = t_seg_rx s /\
    iv_index (t_net s') = iv_index (t_net s)) (model_recv rx m)
}.

(** [rx] as the models see it. *)
Definition opened (sa idx : Z) (rx : net_rx) : net_rx :=
  let rx := rx <| rx_seq := Z.land sa 0xffffff |> in
  rx <| rx_ctx := (rx_ctx rx) <| ctx_app_idx := idx |> |>.

Section deliver.
Context {cfg : MeshConfig} {hal : SecHal} {halok : SecHalOk hal} {env : NetEnv}
  {tenv : TransEnv} {tenvok : TransEnvOk tenv} (n : nat) {hok : HandlersOk n tenv}
  {mok : ModelsOk tenv}.
Context (sm : seg_message) (sa : Z) (Hsm : seg_message_ok sm).

Lemma sdu_recv_delivers rx idx msg s :
  trans_wf n s -> rx_ok n rx -> rx_local_match rx = true ->
  sdu_open (t_net s) rx (sm_hdr sm) (sm_aszmic sm) (sm_sdu sm) = Ok (idx, msg) ->
  let rx' := rx <| rx_ctx := (rx_ctx rx) <| ctx_app_idx := idx |> |> in
  delivers (sdu_recv rx (sm_hdr sm) (sm_aszmic sm) (sm_sdu sm)) [(rx', msg)]
    (fun o s' => o = (0, rx') /\ trans_wf n s' /\ t_seg_rx s' = t_seg_rx s /\
       iv_index (t_net s') = iv_index (t_net s)) s.
Proof.
  intros Hs Hrx Hloc Hopen rx'. destruct Hsm as (_ & _ & _ & [Hl _] & _).
  unfold sdu_recv. rewrite decide_False by lia. rewrite Hloc, andb_false_r.
  unfold delivers. wp_step. unfold get_net. wp_steps. rewrite Hopen. wp_steps.
  pose proof (ok_keeps _ _ _ _ (model_recv_ok rx' msg s Hs) (model_recv_keeps rx' msg)) as Hm.
  pose proof (model_recv_quiet rx' msg) as Hq. unfold stm_ok, stm_wp in *.
  fold rx'. destruct (model_recv rx' msg s) as [[[[] s'] e]|] eqn:Hrun; [|done].
  unfold mret, stm_mret. split; [|tauto]. rewrite !deliveries_app, (deliveries_quiet e (Hq _ _ _ _ Hrun)). done.
Qed.

Lemma complete_delivers rx i idx msg j s : trans_wf n s -> rx_ok n rx -> rx_of sm sa rx ->
  at_session sm sa i (partial sm sa (BLOCK_COMPLETE (last_seg sm))) s ->
  fst (is_replay (t_net s) rx) = false ->
  sdu_open (t_net s) (rx <| rx_seq := Z.land sa 0xffffff |>) (sm_hdr sm) (sm_aszmic sm) (sm_sdu sm) =
    Ok (idx, msg) ->
  delivers (seg_complete i rx (seg_of sm j) sa) [(opened sa idx rx, msg)]
    (fun o s' => fst (fst (fst o)) = 0 /\ at_session sm sa i (finished sm sa) s' /\
       iv_index (t_net s') = iv_index (t_net s)) s.
Proof.
  intros Hs Hrx Hof Hat Hrep Hopen. unfold seg_complete.
  destruct (replay_guard_run n rx s Hrep Hs) as (s1 & Hg & Hs1 & Hk1 & Hrx1).
  unfold delivers, stm_wp. rewrite (stm_bind_pure _ _ _ _ _ Hg).
  apply (at_session_eq sm sa i _ s s1 Hrx1) in Hat. pose proof Hat as (r & Hr & Hp & _).
  rewrite (stm_bind_pure _ _ _ _ _ (get_rx_run i r s1 Hr)).
  destruct (complete_data sm sa Hsm r Hp) as [Hlen Hdata]. destruct Hsm as (_ & _ & _ & [_ Hl] & _).
  destruct Hp as [Hso Huse Hblk Hbl _ _]. rewrite (so_sa _ _ _ Hso), (ro_friend _ _ _ Hof).
  set (rx' := rx <| rx_seq := Z.land sa 0xffffff |>).
  change (delivers (stm_emit [TAckCancel i] ;; mod_rx i (fun r => r <| sr_ack_pending := false |>) ;;
    ack_source rx' sa (sr_block r) (sr_obo r) ;;
    (if decide (CONFIG_BT_MESH_RX_SDU_MAX < sr_buf_len r)%nat then stm_undef
     else if rx_ctl rx' then
       c <- ctl_recv rx' (sm_hdr sm) (take (sr_buf_len r) (sr_buf_data r)) sa ;;
       seg_rx_reset i ;; mret (fst c, rx', PDU_COMPLETE, snd c)
     else
       c <- sdu_recv rx' (sm_hdr sm) (sm_aszmic sm) (take (sr_buf_len r) (sr_buf_data r)) ;;
       seg_rx_reset i ;; mret (fst c, snd c, PDU_COMPLETE, sa))) [(opened sa idx rx, msg)]
    (fun o s' => fst (fst (fst o)) = 0 /\ at_session sm sa i (finished sm sa) s' /\
       iv_index (t_net s') = iv_index (t_net s)) s1).
  rewrite decide_False by lia. change (rx_ctl rx') with (rx_ctl rx). rewrite (ro_ctl _ _ _ Hof), Hdata.
  eapply delivers_quiet; [by apply (ok_emit _ (fun _ s' => s' = s1))|by emits_steps|]. cbv beta. intros _ ? ->.
  set (r1 := r <| sr_ack_pending := false |>). set (s2 := upd_rx i r1 s1).
  assert (at_session sm sa i (fun r => r = r1) s2) as Hat2 by by eapply at_session_upd.
  assert (trans_wf n s2) as Hs2.
  { assert (stm_ok (mod_rx i (fun r => r <| sr_ack_pending := false |>)) (fun _ s' => trans_wf n s') s1) as Hok.
    { eapply mod_rx_at; [done|done| |done]. destruct (rx_index n s1 i r Hs1 Hr) as [_ [? ? ? Hsub]].
      split; try done. intros Hor. apply Hsub. by rewrite Huse. }
    unfold stm_ok, stm_wp in Hok. by rewrite (mod_rx_run i _ r s1 Hr) in Hok. }
  apply (delivers_quiet _ _ (fun _ s' => s' = s2)); [|by unfold mod_rx; emits_steps|].
  { unfold stm_ok, stm_wp. by rewrite (mod_rx_run i _ r s1 Hr). }
  intros _ ? ->. eapply delivers_quiet; [by apply ack_source_ok|apply send_ack_quiet|].
  cbv beta. intros _ s3 [Hs3 Hsent]. destruct (sent_same_keys _ _ Hsent) as [Hk3 Hrx3].
  assert (same_keys (t_net s) (t_net s3)) as Hk.
  { destruct Hk1 as (?&?&?&?), Hk3 as (?&?&?&?). change (t_net s2) with (t_net s1) in *.
    repeat split; congruence. }
  apply (at_session_eq sm sa i _ s2 s3 Hrx3) in Hat2. clear Hsent.
  eapply delivers_head.
  { apply (sdu_recv_delivers rx' idx msg); [done|done|apply Hof|].
    by rewrite (sdu_open_same (t_net s)). }
  cbv beta. intros c s4 (-> & Hs4 & Hrx4 & Hiv4). apply (at_session_eq sm sa i _ s3 s4 Hrx4) in Hat2.
  pose proof Hat2 as (r' & Hr4 & -> & _).
  eapply delivers_quiet; [by apply (seg_rx_reset_run i r1)|apply seg_rx_reset_quiet|]. cbv beta.
  intros _ ? ->. apply delivers_ret. split; [done|]. split.
  - eapply at_session_upd; [exact Hat2|]. destruct Hso as [? ? ? ? ? ?]. split; [by split|done|done].
  - change (iv_index (t_net s4) = iv_index (t_net s)). rewrite Hiv4. by apply Hk.
Qed.

(** ** A sequence of segments *)

(** Segment [j] of the message in the network PDU [rx], as [trans_seg] gets it. *)
Fixpoint run_segs (l : list (nat * net_rx)) : T (list Z) :=
  match l with
  | [] => mret []
  | (j, rx) :: l =>
      r <- trans_seg (pdu_of sm j) rx TRANS_SEQ_AUTH_NVAL ;;
      codes <- run_segs l ;;
      mret (fst (fst (fst r)) :: codes)
  end.

(** The network PDUs a segment of the message may come in, given the network
    state [m] when the first one arrives. *)
Record arrives (m : mesh_net) (idx : Z) (msg : bytes) (j : nat) (rx : net_rx) : Prop := {
  ar_j : Z.of_nat j <= last_seg sm;
  ar_of : rx_of sm sa rx;
  ar_rx : rx_ok n rx;
  ar_fresh : fst (is_replay m rx) = false;
  ar_open : sdu_open m (rx <| rx_seq := Z.land sa 0xffffff |>) (sm_hdr sm) (sm_aszmic sm)
    (sm_sdu sm) = Ok (idx, msg)
}.

Definition code_ok (c : Z) : Prop := c = 0 \/ c = - EALREADY.

Lemma trans_seg_eq j rx s : Z.of_nat j <= last_seg sm -> iv_index (t_net s) = sm_iv sm ->
  rx_of sm sa rx ->
  trans_seg (pdu_of sm j) rx TRANS_SEQ_AUTH_NVAL s =
  (session <- seg_session rx (seg_of sm j) sa ;;
   match session with
   | Err e => mret (e, rx, PDU_SINGLE, sa)
   | Undef => stm_undef
   | Ok i => seg_receive i rx (seg_of sm j) sa
   end) s.
Proof.
  intros Hj Hiv Hof. destruct (pdu_of_parse sm Hsm j Hj) as [Hp Hl]. unfold trans_seg.
  rewrite decide_False by lia. rewrite Hp. cbn [seg_of sg_n sg_o sg_seq_zero].
  destruct (Z.ltb_spec (last_seg sm) (Z.of_nat j)); [lia|]. unfold get_net.
  rewrite (stm_bind_pure _ _ s (t_net s) s) by done.
  assert (seg_seq_auth (t_net s) rx (sm_seq_zero sm) = sa) as ->; [|done].
  rewrite <- (ro_sa _ _ _ Hof). unfold seg_seq_auth, rx_seq_auth, BT_MESH_NET_IVI_RX. by rewrite Hiv.
Qed.

(** Once the message is delivered its segments are acknowledged and dropped. *)
Lemma session_finished j rx i s : trans_wf n s -> rx_of sm sa rx -> rx_ok n rx ->
  at_session sm sa i (finished sm sa) s ->
  delivers (seg_session rx (seg_of sm j) sa) []
    (fun f s' => f = Err (- EALREADY) /\ trans_wf n s' /\ sent s s') s.
Proof.
  intros Hs Hof Hrx Hat. pose proof Hat as (r & Hr & [Hso Huse Hblk] & _).
  apply (delivers_eq _ (ack_source rx sa (sr_block r) (sr_obo r) ;; mret (Err (- EALREADY)))).
  { unfold seg_session.
    rewrite (stm_bind_pure _ _ _ _ _ (find_session sm sa rx i _ s Hof (fun r => fi_session sm sa r) Hat)).
    rewrite (stm_bind_pure _ _ _ _ _ (get_rx_run i r s Hr)).
    rewrite (session_valid sm sa) by done. by rewrite Huse, Hblk, (so_n _ _ _ Hso), Z.eqb_refl. }
  eapply delivers_quiet; [by apply ack_source_ok|apply send_ack_quiet|]. cbv beta.
  intros _ s' [Hs' Hsent]. by apply delivers_ret.
Qed.

Lemma finished_segment j rx i s : trans_wf n s -> Z.of_nat j <= last_seg sm -> rx_of sm sa rx ->
  rx_ok n rx -> iv_index (t_net s) = sm_iv sm -> at_session sm sa i (finished sm sa) s ->
  delivers (trans_seg (pdu_of sm j) rx TRANS_SEQ_AUTH_NVAL) []
    (fun o s' => fst (fst (fst o)) = - EALREADY /\ trans_wf n s' /\
       iv_index (t_net s') = sm_iv sm /\ at_session sm sa i (finished sm sa) s') s.
Proof.
  intros Hs Hj Hof Hrx Hiv Hat. eapply delivers_eq; [by apply trans_seg_eq|].
  eapply delivers_head; [by eapply session_finished|].
  cbv beta. intros f s' (-> & Hs' & Hsent). destruct (sent_same_keys _ _ Hsent) as [(_ & _ & _ & Hi) Hr].
  apply delivers_ret. split; [done|]. split; [done|]. split; [congruence|by eapply at_session_eq].
Qed.

Lemma run_finished m idx msg i l : Forall (fun p => arrives m idx msg (fst p) (snd p)) l ->
  forall s, trans_wf n s -> iv_index (t_net s) = sm_iv sm -> at_session sm sa i (finished sm sa) s ->
  delivers (run_segs l) [] (fun codes s' => Forall code_ok codes /\ at_session sm sa i (finished sm sa) s') s.
Proof.
  induction 1 as [|[j rx] l Ha Hl IH]; intros s Hs Hiv Hat; cbn [run_segs]; [by apply delivers_ret|].
  eapply delivers_head; [by apply (finished_segment j rx i); try done; apply Ha|].
  cbv beta. intros o s1 (Ho & Hs1 & Hiv1 & Hat1).
  eapply delivers_head; [by apply IH|]. cbv beta. intros codes s2 [Hc Hat2].
  apply delivers_ret. split; [|done]. constructor; [by right|done].
Qed.

(** One segment of a message that is not complete yet: it is stored, or it was
    before, or it completes the message. *)
Lemma partial_segment m idx msg j rx i B s : trans_wf n s -> arrives m idx msg j rx ->
  iv_index m = sm_iv sm -> t_net s = m -> block_ok sm B -> B <> BLOCK_COMPLETE (last_seg sm) ->
  at_session sm sa i (partial sm sa B) s ->
  let B' := Z.lor B (MESH_BIT (Z.of_nat j)) in
  delivers (seg_receive i rx (seg_of sm j) sa)
    (if B' =? BLOCK_COMPLETE (last_seg sm) then [(opened sa idx rx, msg)] else [])
    (fun o s' => code_ok (fst (fst (fst o))) /\ 
       if B' =? BLOCK_COMPLETE (last_seg sm) then
         iv_index (t_net s') = sm_iv sm /\ at_session sm sa i (finished sm sa) s'
       else t_net s' = m /\ at_session sm sa i (partial sm sa B') s') s.
Proof.
  intros Hs [Hj Hof Hrx Hfresh Hopen] Hiv Hm HB Hne Hat B'.
  destruct (Z.testbit B (Z.of_nat j)) eqn:Hb.
  - assert (B' = B) as ->.
    { apply Z.bits_inj'. intros k Hk. unfold B'. rewrite testbit_add by lia.
      destruct (Z.eqb_spec (Z.of_nat j) k) as [<-|]; [by rewrite Hb|apply orb_false_r]. }
    rewrite (proj2 (Z.eqb_neq _ _) Hne). unfold delivers, stm_wp.
    rewrite (receive_dup sm sa rx i B j s Hat Hb). split; [done|]. split; [by right|done].
  - destruct (receive_more n sm sa Hsm rx i B j s Hs Hrx Hat Hj Hb) as (s' & Hs' & Hn & Hat' & e & Hq & Heq).
    fold B' in Heq, Hat'. unfold delivers, stm_wp. rewrite Heq.
    destruct (Z.eqb_spec B' (BLOCK_COMPLETE (last_seg sm))) as [He|_].
    + rewrite He in Hat'.
      pose proof (complete_delivers rx i idx msg j s' Hs' Hrx Hof Hat') as Hc.
      rewrite Hn, Hm in Hc. specialize (Hc Hfresh Hopen). unfold delivers, stm_wp in Hc.
      destruct (seg_complete _ _ _ _ s') as [[[o s2] e2]|]; [|done]. destruct Hc as (Hd & Ho & Hf & Hi).
      split; [by rewrite deliveries_app, Hd, (deliveries_quiet e Hq)|]. split; [by left|].
      split; [congruence|done].
    + split; [by apply deliveries_quiet|]. split; [by left|]. split; [congruence|done].
Qed.

(** The same for [trans_seg], whose session was found or opened. *)
Lemma open_segment m idx msg j rx i B s s1 : trans_wf n s -> arrives m idx msg j rx ->
  iv_index m = sm_iv sm -> t_net s = m -> block_ok sm B -> B <> BLOCK_COMPLETE (last_seg sm) ->
  seg_session rx (seg_of sm j) sa s = Some (Ok i, s1, []) -> t_net s1 = m ->
  at_session sm sa i (partial sm sa B) s1 ->
  let B' := Z.lor B (MESH_BIT (Z.of_nat j)) in
  delivers (trans_seg (pdu_of sm j) rx TRANS_SEQ_AUTH_NVAL)
    (if B' =? BLOCK_COMPLETE (last_seg sm) then [(opened sa idx rx, msg)] else [])
    (fun o s' => (code_ok (fst (fst (fst o))) /\
       if B' =? BLOCK_COMPLETE (last_seg sm) then
         iv_index (t_net s') = sm_iv sm /\ at_session sm sa i (finished sm sa) s'
       else t_net s' = m /\ at_session sm sa i (partial sm sa B') s') /\ trans_wf n s') s.
Proof.
  intros Hs Har Hiv Hm HB Hne Hsess Hm1 Hat B'. pose proof Har as [Hj Hof Hrx _ _].
  destruct (seg_of_ok sm Hsm j Hj) as (_ & Hn & _). pose proof (last_seg_range sm Hsm) as Hlast.
  assert (trans_wf n s1) as Hs1.
  { pose proof (seg_session_ok n rx (seg_of sm j) sa s Hs Hrx (conj (proj1 Hlast) Hn)) as Hok.
    unfold stm_ok, stm_wp in Hok. rewrite Hsess in Hok. apply Hok. }
  apply delivers_ok.
  - eapply delivers_eq; [apply trans_seg_eq; congruence|]. unfold delivers, stm_wp.
    rewrite (stm_bind_pure _ _ _ _ _ Hsess). by apply (partial_segment m idx msg j rx i B s1).
  - destruct (pdu_of_bytes sm Hsm j) as [Hb Hl].
    eapply ok_mono; [apply trans_seg_ok; (done || lia)|]. cbv beta. by intros o s' [? _].
Qed.

Lemma block_add B j : block_ok sm B -> Z.of_nat j <= last_seg sm ->
  block_ok sm (Z.lor B (MESH_BIT (Z.of_nat j))).
Proof.
  intros HB Hj. pose proof (last_seg_range sm Hsm). apply lor_bounded; [lia|done|].
  unfold MESH_BIT. rewrite Z.shiftl_1_l. split; [apply Z.pow_nonneg; lia|apply Z.pow_lt_mono_r; lia].
Qed.

(** All segments there are. *)
Lemma block_full B : block_ok sm B ->
  (forall k, Z.of_nat k <= last_seg sm -> Z.testbit B (Z.of_nat k) = true) -> B = BLOCK_COMPLETE (last_seg sm).
Proof.
  intros HB Hall. pose proof (last_seg_range sm Hsm). rewrite block_complete_ones by lia.
  apply Z.bits_inj'. intros k Hk. destruct (Z.le_gt_cases k (last_seg sm)) as [Hle|Hgt].
  - rewrite Z.ones_spec_low by lia. rewrite <- (Z2Nat.id k Hk). apply Hall. lia.
  - rewrite Z.ones_spec_high by lia. apply bounded_testbit in HB as [_ HB]; [apply HB; lia|lia].
Qed.

(** The segments after the one that completed the message. *)
Lemma run_complete m idx msg i j rx l d s : Forall (fun p => arrives m idx msg (fst p) (snd p)) l ->
  iv_index m = sm_iv sm ->
  delivers (trans_seg (pdu_of sm j) rx TRANS_SEQ_AUTH_NVAL) d
    (fun o s' => (code_ok (fst (fst (fst o))) /\ iv_index (t_net s') = sm_iv sm /\
       at_session sm sa i (finished sm sa) s') /\ trans_wf n s') s ->
  delivers (run_segs ((j, rx) :: l)) d
    (fun codes s' => Forall code_ok codes /\ at_session sm sa i (finished sm sa) s') s.
Proof.
  intros Hl Hiv Hseg. cbn [run_segs]. eapply delivers_head; [exact Hseg|]. cbv beta.
  intros o s2 [(Hc & Hiv2 & Hat2) Hs2]. eapply delivers_head; [by apply (run_finished m idx msg i)|].
  cbv beta. intros codes s3 [Hcs Hat3]. apply delivers_ret. split; [by constructor|done].
Qed.

Lemma run_open m idx msg i l : iv_index m = sm_iv sm ->
  Forall (fun p => arrives m idx msg (fst p) (snd p)) l ->
  forall j rx B s s1, arrives m idx msg j rx -> trans_wf n s -> t_net s = m ->
  block_ok sm B -> B <> BLOCK_COMPLETE (last_seg sm) ->
  seg_session rx (seg_of sm j) sa s = Some (Ok i, s1, []) -> t_net s1 = m ->
  at_session sm sa i (partial sm sa B) s1 ->
  (forall k, Z.of_nat k <= last_seg sm -> Z.testbit B (Z.of_nat k) = true \/ k ∈ map fst ((j, rx) :: l)) ->
  exists p, p ∈ (j, rx) :: l /\
    delivers (run_segs ((j, rx) :: l)) [(opened sa idx (snd p), msg)]
      (fun codes s' => Forall code_ok codes /\ at_session sm sa i (finished sm sa) s') s.
Proof.
  intros Hiv. induction 1 as [|[j2 rx2] l Ha2 Hl IH]; intros j rx B s s1 Ha Hs Hm HB Hne Hsess Hm1 Hat Hcov;
    pose proof (open_segment m idx msg j rx i B s s1 Hs Ha Hiv Hm HB Hne Hsess Hm1 Hat) as Hseg;
    cbv zeta in Hseg; set (B' := Z.lor B (MESH_BIT (Z.of_nat j))) in *;
    assert (block_ok sm B') as HB' by (by apply block_add, Ha);
    destruct (Z.eqb_spec B' (BLOCK_COMPLETE (last_seg sm))) as [He|Hne'].
  - exists (j, rx). split; [left|]. eapply (run_complete m idx msg); [|exact Hiv|exact Hseg]. constructor.
  - exfalso. apply Hne', block_full; [done|]. intros k Hk. unfold B'. rewrite testbit_add by lia.
    destruct (Hcov k Hk) as [->|Hin]; [done|]. cbn in Hin. apply list_elem_of_singleton in Hin.
    apply orb_true_iff. right. apply Z.eqb_eq. lia.
  - exists (j, rx). split; [left|]. eapply (run_complete m idx msg); [|exact Hiv|exact Hseg]. by constructor.
  - destruct (wp_inv _ _ _ Hseg) as (o & s2 & e & Hrun & Hd & [Hc [Hm2 Hat2]] & Hs2).
    destruct (IH j2 rx2 B' s2 s2 Ha2 Hs2 Hm2 HB' Hne') as (p & Hp & Hdel); [|done|done| |].
    + eapply session_hit; [apply Ha2|exact Hat2].
    + intros k Hk. unfold B'. rewrite testbit_add by lia. cbn [map fst] in *.
      destruct (Hcov k Hk) as [->|Hin]; [by left|]. apply elem_of_cons in Hin as [->|Hin]; [|by right].
      left. by rewrite Z.eqb_refl, orb_true_r.
    + exists p. split; [by right|]. remember ((j2, rx2) :: l) as l2. cbn [run_segs].
      eapply delivers_after; [exact Hrun|done|]. eapply delivers_head; [exact Hdel|]. cbv beta.
      intros codes s3 [Hcs Hat3]. apply delivers_ret. split; [by constructor|done].
Qed.
End deliver.

(** ** Delivery *)

(** C22: the segments of one access message, in whatever order, each at least
    once and as often as it likes, one after the other: the models receive the
    decrypted message exactly once; each segment is either stored or reported as
    received before. The segments may come in any network PDUs that satisfy
    [arrives]: from the source to the destination of the message, which is this
    node and no low power node of its; not in the replay list when the first of
    them arrives; and all with sequence numbers that yield the same SeqAuth
    [sa], which fails for a message whose transmission passes a multiple of 8192
    (transport.c:1196 does not borrow). The message is one whose payload the
    node's keys open. When the first segment arrives the IV index is the
    sender's, no session for the message exists (none of the reassembly contexts
    matches it) and a context is free. Nothing else happens in between: no other
    PDU, timer expiry or IV update. *)
Theorem reassembly {cfg : MeshConfig} {hal : SecHal} {halok : SecHalOk hal} {env : NetEnv}
    {tenv : TransEnv} {tenvok : TransEnvOk tenv} n {hok : HandlersOk n tenv} {mok : ModelsOk tenv}
    (sm : seg_message) (sa idx : Z) (msg : bytes) (l : list (nat * net_rx)) (s : trans) :
  seg_message_ok sm -> trans_wf n s -> iv_index (t_net s) = sm_iv sm ->
  Forall (fun p => arrives n sm sa (t_net s) idx msg (fst p) (snd p)) l ->
  (forall k, Z.of_nat k <= last_seg sm -> k ∈ map fst l) ->
  Forall (fun r => matches sm sa r = false) (t_seg_rx s) ->
  Exists (fun r => sr_in_use r = false) (t_seg_rx s) ->
  exists p codes s' e, p ∈ l /\
    run_segs sm l s = Some (codes, s', e) /\
    Forall code_ok codes /\ deliveries e = [(opened sa idx (snd p), msg)].
Proof.
  intros Hsm Hs Hiv Hl Hcov Hno Hfree.
  destruct l as [|[j rx] l].
  { pose proof (last_seg_range sm Hsm). specialize (Hcov 0%nat ltac:(lia)). by apply elem_of_nil in Hcov. }
  apply Forall_cons_iff in Hl as [Ha Hl].
  destruct (find_index (fun r => negb (sr_in_use r)) (t_seg_rx s)) as [i|] eqn:Hi.
  2: { apply find_index_None in Hi. apply List.Exists_exists in Hfree as (r & Hr & Hu).
       rewrite List.Forall_forall in Hi. specialize (Hi r Hr). cbn in Hi.
       by rewrite Hu in Hi. }
  destruct (session_new n sm sa Hsm rx i j s Hs (ar_of _ _ _ _ _ _ _ _ Ha) Hno Hi) as (s1 & Hsess & Hn1 & Hat).
  assert (0 <> BLOCK_COMPLETE (last_seg sm)) as Hne.
  { intros H0. pose proof (last_seg_range sm Hsm) as Hr. pose proof (testbit_complete sm Hsm 0 ltac:(lia)) as Hb.
    rewrite <- H0 in Hb. by rewrite Z.bits_0 in Hb. }
  destruct (run_open n sm sa Hsm (t_net s) idx msg i l Hiv Hl j rx 0 s s1) as (p & Hp & Hd); try done.
  { split; [done|]. apply Z.pow_pos_nonneg; [done|]. pose proof (last_seg_range sm Hsm). lia. }
  { intros k Hk. right. by apply Hcov. }
  destruct (wp_inv _ _ _ Hd) as (codes & s' & e & Hrun & He & Hc & _).
  exists p, codes, s', e. by split_and!.
Qed.

(** ** A node *)

Definition sample_tenv : TransEnv :=
  {| now := K_HOURS 100; primary_addr := 2; adv_ok _ := true; adv_busy _ _ := false;
     label_uuid_get _ := None; model_recv _ _ := mret tt; friend_match _ _ := false;
     friend_enqueue_tx _ _ _ _ := false; friend_ctl _ _ _ := mret 0; lpn_ctl _ _ _ := mret 0;
     lpn_frnd := 0; lpn_established := false; lpn_waiting_update := false;
     lpn_clear_ongoing := false; lpn_notify := false |}.

#[export] Instance sample_tenv_ok : TransEnvOk (cfg := proxy_friend_config) (env := sample_env) sample_tenv.
Proof. split; cbn; [lia|done|done]. Qed.
#[export] Instance sample_handlers_ok :
  HandlersOk (cfg := proxy_friend_config) (hal := sw_hal) 1 sample_tenv.
Proof. by split. Qed.
#[export] Instance sample_models_ok : ModelsOk sample_tenv.
Proof. split; intros rx m s a s' e [= _ <- <-]; [constructor|done]. Qed.

Definition sample_dev_node : mesh_net := sample_node <| dev_key := sample_key |>.
Definition sample_trans : trans := trans_init_state sample_dev_node.

Lemma zero_key : is_block (replicate 16 0).
Proof. split; [done|const_bytes]. Qed.

Lemma sample_trans_wf : trans_wf (cfg := proxy_friend_config) 1 sample_trans.
Proof.
  split; [|split; [done|split; [done|split; [|split; [done|]]]]].
  - split; [apply sample_node_keys_ok|apply sample_node_iv_ok| | |].
    + apply (Forall_replicate _ 1 (mk_friend_cred 0 0 0 0 zero_cred zero_cred)).
      by split; (split; [apply zero_key|split; [apply zero_key|cbn; lia]]).
    + apply (Forall_replicate _ APP_KEY_COUNT unused_app_key). split; apply zero_key.
    + apply sample_key_block.
  - apply (Forall_replicate _ CONFIG_BT_MESH_TX_SEG_MSG_COUNT seg_tx_init).
    assert (forall j sg, st_seg seg_tx_init !! j = Some (Some sg) -> False) as Hno.
    { intros j sg Hj. cbn [seg_tx_init st_seg] in Hj. apply lookup_replicate in Hj as [Hj _]. done. }
    split; [split|by left|]; try (intros j sg Hj; by destruct (Hno j sg Hj)); cbn; (lia || done).
  - apply (Forall_replicate _ CONFIG_BT_MESH_RX_SEG_MSG_COUNT seg_rx_init).
    split; [split; [done|const_bytes]| | |]; cbn; (lia || done).
Qed.

(** A message of three segments from 0x0001, under the device key. *)
Definition sample_long : bytes := map Z.of_nat (seq 0 28).
Definition sample_sdu : bytes :=
  match bt_mesh_app_encrypt (hal := sw_hal) sample_key true 0 sample_long None 1 2 0x100 5 with
  | Ok b => b | _ => [] end.
Definition sample_seg_message : seg_message := mk_seg_message 0x80 0 0x100 5 1 2 0 sample_sdu.
Definition sample_seg_rx (seq : Z) : net_rx :=
  mk_rx 0 (mk_ctx 0 BT_MESH_KEY_UNUSED 1 5 7 false) seq 2 false false false false IF_ADV true false 0.
Definition sample_arrivals : list (nat * net_rx) :=
  [(2, sample_seg_rx 0x102); (0, sample_seg_rx 0x103); (0, sample_seg_rx 0x100); (1, sample_seg_rx 0x101);
   (2, sample_seg_rx 0x105)]%nat.

Lemma sample_last : last_seg sample_seg_message = 2.
Proof. vm_compute. reflexivity. Qed.

Lemma sample_seg_message_ok : seg_message_ok sample_seg_message.
Proof.
  unfold seg_message_ok. assert (length sample_sdu = 32%nat) as Hl by (vm_compute; reflexivity).
  cbn [sm_hdr sm_aszmic sm_seq_zero sm_sdu sample_seg_message]. rewrite Hl.
  split; [unfold is_byte; lia|]. split; [lia|]. split; [lia|]. split.
  - change (APP_MIC_LEN 0) with 4%nat. unfold CONFIG_BT_MESH_RX_SDU_MAX. lia.
  - apply (bool_decide_unpack (is_bytes sample_sdu)). vm_compute. exact I.
Qed.

Lemma sample_arrives j seq : (j <= 2)%nat -> 0x100 <= seq < 0x200 -> 
  arrives (hal := sw_hal) (tenv := sample_tenv) 1 sample_seg_message
    (5 * 16777216 + 0x100) sample_dev_node BT_MESH_KEY_DEV sample_long j (sample_seg_rx seq).
Proof.
  intros Hj Hseq. split.
  - rewrite sample_last. lia.
  - split; try reflexivity. unfold rx_seq_auth. cbn [sm_iv sample_seg_message rx_old_iv sample_seg_rx rx_seq sm_seq_zero].
    assert (Z.land seq 0xffffe000 = 0) as ->; [|reflexivity].
    change 0xffffe000 with (Z.shiftl (Z.ones 19) 13).
    replace seq with (seq mod 2 ^ 13) by (apply Z.mod_small; lia). rewrite <- Z.land_ones by lia.
    rewrite <- Z.land_assoc. by rewrite Z.land_0_r.
  - unfold rx_ok. cbn. lia.
  - reflexivity.
  - change ((sample_seg_rx seq) <| rx_seq := Z.land (5 * 16777216 + 0x100) 0xffffff |>) with (sample_seg_rx 0x100).
    vm_compute. reflexivity.
Qed.

Lemma reassembly_witness :
  exists p codes s' e, p ∈ sample_arrivals /\
    run_segs (cfg := proxy_friend_config) (hal := sw_hal) (env := sample_env) (tenv := sample_tenv)
      sample_seg_message sample_arrivals sample_trans = Some (codes, s', e) /\
    Forall code_ok codes /\
    deliveries e = [(opened (5 * 16777216 + 0x100) BT_MESH_KEY_DEV (snd p), sample_long)].
Proof.
  apply (reassembly (cfg := proxy_friend_config) (hal := sw_hal) (env := sample_env)
    (tenv := sample_tenv) 1).
  - apply sample_seg_message_ok.
  - apply sample_trans_wf.
  - reflexivity.
  - unfold sample_arrivals. change (t_net sample_trans) with sample_dev_node.
    repeat (apply Forall_cons_2; [cbn [fst snd]; apply sample_arrives; lia|]). by apply Forall_nil_2.
  - intros k Hk. rewrite sample_last in Hk. cbn.
    destruct k as [|[|[|k]]]; [set_solver..|lia].
  - apply (Forall_replicate _ CONFIG_BT_MESH_RX_SEG_MSG_COUNT seg_rx_init). reflexivity.
  - left. reflexivity.
Defined.
