(* ===== verification/Transport.v ===== *)
(** * What the transport layer guarantees

    Safety of every operation of the layer, and acknowledgement processing. *)

From S2P Require Import Prelude NetBuf Cmac Ccm MeshCrypto NetState NetIv Net TransState TransTx TransRx TransWf TransTxOk TransRxOk Reassembly.

(** ** Safety *)

(** The calls other components and the timers make; a context's
    acknowledgement timer only fires while it is pending. *)
Inductive trans_op :=
| OpSend (tx : net_tx) (msg : bytes) (tailroom : Z) (cb : option send_cb)
| OpResend (tx : net_tx) (msg : bytes) (cb : option send_cb)
| OpCtlSend (tx : net_tx) (op : Z) (data : bytes) (seq_auth : option Z) (cb : option send_cb)
| OpRecv (buf : bytes) (rx : net_rx)
| OpSegStart (i : nat) (duration err : Z)
| OpSegSent (i : nat)
| OpRetransmit (i : nat)
| OpAckTimer (i : nat)
| OpHbSub (addr : Z)
| OpRplClear
| OpTxReset
| OpRxReset.

Section safe.
Context {cfg : MeshConfig} {hal : SecHal} {halok : SecHalOk hal} {env : NetEnv}
  {tenv : TransEnv} {tenvok : TransEnvOk tenv} (n : nat) {hok : HandlersOk n tenv}.

Definition run_op (op : trans_op) : T unit :=
  match op with
  | OpSend tx msg tailroom cb => bt_mesh_trans_send tx msg tailroom cb ;; mret tt
  | OpResend tx msg cb => bt_mesh_trans_resend tx msg cb ;; mret tt
  | OpCtlSend tx op data seq_auth cb => bt_mesh_ctl_send tx op data seq_auth cb ;; mret tt
  | OpRecv buf rx => bt_mesh_trans_recv buf rx ;; mret tt
  | OpSegStart i duration err => seg_send_start i duration err
  | OpSegSent i => seg_sent i
  | OpRetransmit i => seg_retransmit i
  | OpAckTimer i => r <- get_rx i ;; if sr_ack_pending r then seg_ack i else mret tt
  | OpHbSub addr => bt_mesh_set_hb_sub_dst addr
  | OpRplClear => m <- get_net ;; set_net (bt_mesh_rpl_clear m)
  | OpTxReset => bt_mesh_tx_reset
  | OpRxReset => bt_mesh_rx_reset
  end.

Fixpoint run_ops (ops : list trans_op) : T unit :=
  match ops with
  | [] => mret tt
  | op :: ops => run_op op ;; run_ops ops
  end.

(** What the callers respect: subnets exist, buffers hold bytes, a control
    message fits one PDU and a context number is one of the array's. *)
Definition op_ok (op : trans_op) : Prop :=
  match op with
  | OpSend tx msg _ _ => tx_ok n tx /\ is_bytes msg /\ (0 < length msg)%nat /\ Z.of_nat (length msg) < 65536
  | OpResend tx msg _ => tx_ok n tx /\ is_bytes msg
  | OpCtlSend tx _ data _ _ => tx_ok n tx /\ is_bytes data /\ (length data <= 19)%nat
  | OpRecv buf rx => rx_ok n rx /\ is_bytes buf /\ Z.of_nat (length buf) < 60000
  | OpSegStart i _ _ | OpRetransmit i => (i < CONFIG_BT_MESH_TX_SEG_MSG_COUNT)%nat
  | OpAckTimer i => (i < CONFIG_BT_MESH_RX_SEG_MSG_COUNT)%nat
  | OpSegSent _ | OpHbSub _ | OpRplClear | OpTxReset | OpRxReset => True
  end.

Lemma drop_result {A} (m : T A) s (P : A -> Prop) : stm_ok m (fun a s' => trans_wf n s' /\ P a) s ->
  stm_ok (m ;; mret tt) (fun _ s' => trans_wf n s') s.
Proof. intros H. ok_step. eapply ok_mono; [exact H|]. cbv beta. intros a s' [Hs' _]. by ok_steps. Qed.

Lemma run_op_ok op s : trans_wf n s -> op_ok op -> stm_ok (run_op op) (fun _ s' => trans_wf n s') s.
Proof.
  intros Hs Hop. destruct op as [tx msg room cb|tx msg cb|tx op data sa cb|buf rx|i d e|i|i|i|addr| | |];
    cbn [run_op op_ok] in *.
  - destruct Hop as (H1 & H2 & H3 & H4). eapply drop_result. by apply trans_send_ok.
  - destruct Hop as (H1 & H2). eapply drop_result. by apply trans_resend_ok.
  - destruct Hop as (H1 & H2 & H3). eapply drop_result. by apply ctl_send_ok.
  - destruct Hop as (H1 & H2 & H3). eapply drop_result. by apply trans_recv_ok.
  - eapply ok_mono; [apply (seg_send_start_at n i (st_wf n)); by apply trans_wf_split|].
    cbv beta. intros _ s'. by apply trans_wf_of.
  - by apply ok_emit.
  - by apply seg_retransmit_ok.
  - destruct (rx_lookup n s i Hs Hop) as (r & Hr & _). ok_step. eapply get_rx_at; [done|].
    case_if; [|by ok_steps]. apply seg_ack_ok; [done|eauto].
  - by apply ok_modify.
  - unfold get_net, set_net. ok_steps. destruct Hs as (Hm & Hn & Ht & Htx & Hr & Hrx).
    split; [by destruct Hm|]. by split_and!.
  - by apply tx_reset_ok.
  - by apply rx_reset_ok.
Qed.

(** C23: from a well-formed state no sequence of sends, receptions, timer
    expiries, callbacks and resets ever reaches undefined behaviour (an index
    out of range, an overrun of a reassembly buffer, a null pointer, a loop
    without end), and the state stays well formed: each transmission counts at
    least the segments it holds as outstanding (exactly those in a build
    without the Friend feature), each held segment is a PDU that can be sent
    again, and the length of a complete reception fits its buffer. The calls are
    those of [op_ok] (existing subnets and contexts, control messages of one
    PDU), acknowledgement timers fire while they are pending, and the other
    components answer as [TransEnvOk] and [HandlersOk] say. The friend queue
    may take unicast PDUs, and so keep a segmented message after its first
    segment in a context that is never freed ([friend_keeps_context]), with one
    exception in [TransEnvOk]: a segment with less than 12 bytes of payload, as
    a segmented message of one short segment has. Resending such a segment is
    undefined ([friend_short_segment_undefined]). *)
Theorem transport_safe (ops : list trans_op) (s : trans) :
  trans_wf n s -> Forall op_ok ops ->
  exists s' evs, run_ops ops s = Some (tt, s', evs) /\ trans_wf n s'.
Proof.
  intros Hs Hops.
  assert (stm_ok (run_ops ops) (fun _ s' => trans_wf n s') s) as Hok.
  { revert s Hs. induction Hops as [|op ops Hop Hops IH]; intros s Hs; cbn [run_ops]; [by ok_steps|].
    ok_step. eapply ok_mono; [by apply run_op_ok|]. cbv beta. intros _ s1 Hs1. by apply IH. }
  destruct (wp_inv _ _ _ Hok) as ([] & s' & evs & Hrun & Hs'). eauto.
Qed.
End safe.

(** The state that is there after start-up is well formed. *)
Definition sample_ops : list trans_op :=
  [OpSend (mk_tx 0 (mk_ctx 0 BT_MESH_KEY_DEV 0x0002 0 5 true) 1 0 false 0 0) sample_long 8
     (Some first_sent_cb);
   OpSegSent 0; OpRetransmit 0;
   OpRecv (replicate 9 0 ++ pdu_of sample_seg_message 1) (sample_seg_rx 0x100); OpAckTimer 0;
   OpHbSub 0xc000; OpRplClear; OpTxReset; OpRxReset].

(** A node whose friend queue takes what [takes] says. *)
Definition friend_tenv (takes : friend_pdu_type -> bytes -> bool) : TransEnv :=
  {| now := K_HOURS 100; primary_addr := 2; adv_ok _ := true; adv_busy _ _ := false;
     label_uuid_get _ := None; model_recv _ _ := mret tt; friend_match _ _ := false;
     friend_enqueue_tx _ t _ pdu := takes t pdu; friend_ctl _ _ _ := mret 0; lpn_ctl _ _ _ := mret 0;
     lpn_frnd := 0; lpn_established := false; lpn_waiting_update := false;
     lpn_clear_ongoing := false; lpn_notify := false |}.
Definition takes_long (t : friend_pdu_type) (pdu : bytes) : bool :=
  match t with PDU_SINGLE => true | _ => bool_decide (16 <= length pdu)%nat end.

#[export] Instance friend_tenv_ok :
  TransEnvOk (cfg := proxy_friend_config) (env := sample_env) (friend_tenv takes_long).
Proof.
  split; cbn; [lia|done|]. intros tx [] sa pdu _ Ht _; [by left|right..]; by apply bool_decide_eq_true in Ht.
Qed.
#[export] Instance friend_handlers_ok takes :
  HandlersOk (cfg := proxy_friend_config) (hal := sw_hal) 1 (friend_tenv takes).
Proof. by split. Qed.

Lemma sample_ops_ok : Forall (op_ok 1) sample_ops.
Proof.
  unfold sample_ops.
  assert (tx_ok 1 (mk_tx 0 (mk_ctx 0 BT_MESH_KEY_DEV 0x0002 0 5 true) 1 0 false 0 0)) as Htx
    by (split; [cbn; lia|left; left; cbn; lia]).
  assert (is_bytes sample_long) as Hl by (apply (bool_decide_unpack (is_bytes sample_long)); vm_compute; exact I).
  destruct (pdu_of_bytes sample_seg_message sample_seg_message_ok 1) as [Hb Hlen].
  repeat (apply Forall_cons_2; [|]); try exact I; try (unfold op_ok, CONFIG_BT_MESH_TX_SEG_MSG_COUNT,
    CONFIG_BT_MESH_RX_SEG_MSG_COUNT; lia).
  - split; [exact Htx|]. split; [exact Hl|]. cbn. lia.
  - split; [unfold rx_ok; cbn; lia|]. split; [by apply is_bytes_app; split; [const_bytes|]|].
    rewrite length_app, length_replicate. lia.
  - by apply Forall_nil_2.
Qed.

(** The witness: without a friend queue, and with one that takes the message. *)
Lemma transport_safe_witness :
  let runs tenv := exists s' evs, run_ops (cfg := proxy_friend_config) (hal := sw_hal) (env := sample_env)
      (tenv := tenv) sample_ops sample_trans = Some (tt, s', evs) /\ trans_wf (cfg := proxy_friend_config) 1 s' in
  runs sample_tenv /\ runs (friend_tenv takes_long).
Proof.
  split.
  - exact (transport_safe (cfg := proxy_friend_config) (hal := sw_hal) (env := sample_env)
      (tenv := sample_tenv) 1 sample_ops sample_trans sample_trans_wf sample_ops_ok).
  - exact (transport_safe (cfg := proxy_friend_config) (hal := sw_hal) (env := sample_env)
      (tenv := friend_tenv takes_long) 1 sample_ops sample_trans sample_trans_wf sample_ops_ok).
Defined.

Notation run_friend_node takes ops :=
  (run_ops (cfg := proxy_friend_config) (hal := sw_hal) (env := sample_env) (tenv := friend_tenv takes)
     ops sample_trans).

(** A message of three segments for the LPN: [send_seg] queues the first for it
    and returns 0. The other two are never queued nor sent, no timer is started,
    and the context stays in use, which also keeps an IV update pending. *)
Theorem friend_keeps_context :
  let send := OpSend (mk_tx 0 (mk_ctx 0 BT_MESH_KEY_DEV 0x0003 0 5 true) 2 0 false 0 0) sample_long 8
                (Some first_sent_cb) in
  match run_friend_node takes_long [send] with
  | Some (_, s, evs) =>
      (exists seq_auth pdu, evs = [TFriendTx PDU_PARTIAL (Some seq_auth) pdu]) /\ bt_mesh_tx_in_progress s = true /\
      option_map (fun t => (st_seg_n t, st_nack_count t, held (st_seg t))) (t_seg_tx s !! 0%nat) = Some (2, 3, 1%nat)
  | None => False
  end.
Proof. vm_compute. split; [by do 2 eexists|done]. Qed.

(** A message of one short segment: the friend queue takes all of it, but the
    context keeps the transport PDU. If the timer of an earlier transmission of
    the context fires before the LPN acknowledges, that PDU is taken for a
    network PDU, which it is too short for. *)
Theorem friend_short_segment_undefined :
  let send := OpSend (mk_tx 0 (mk_ctx 0 BT_MESH_KEY_DEV 0x0003 0 5 true) 2 0 false 0 0) [1] 4
                (Some first_sent_cb) in
  run_friend_node (fun _ _ => true) [send] <> None /\
  run_friend_node (fun _ _ => true) [send; OpRetransmit 0] = None.
Proof. vm_compute. by split. Qed.

(** ** Acknowledgements *)

Section ack.
Context {cfg : MeshConfig} {hal : SecHal} {halok : SecHalOk hal} {env : NetEnv}
  {tenv : TransEnv} {tenvok : TransEnvOk tenv} (n : nat).

Definition end_events (i : nat) (t : seg_tx) : list trans_event :=
  match st_cb t with Some c => if cb_end c then [TSegTxEnd i 0] else [] | None => [] end.

Lemma complete_run i t s : t_seg_tx s !! i = Some t -> st_busy t = false ->
  seg_tx_complete i 0 s =
  Some (tt, s <| t_seg_tx := <[i := seg_tx_clear t]> (t_seg_tx s) |>,
        end_events i t ++ [TRetransmitCancel i]).
Proof.
  intros Ht Hb. unfold seg_tx_complete. rewrite (stm_bind_pure _ _ _ _ _ (get_tx_run i t s Ht)).
  assert (seg_tx_reset i s = Some (tt, s <| t_seg_tx := <[i := seg_tx_clear t]> (t_seg_tx s) |>,
    [TRetransmitCancel i])) as Hr.
  { unfold seg_tx_reset. rewrite stm_bind_emit.
    rewrite (stm_bind_pure _ _ s tt (s <| t_seg_tx := <[i := seg_tx_clear t]> (t_seg_tx s) |>)).
    2: { unfold mod_tx, stm_modify. by rewrite (alter_insert _ _ _ _ Ht). }
    assert (t_seg_tx (s <| t_seg_tx := <[i := seg_tx_clear t]> (t_seg_tx s) |>) !! i = Some (seg_tx_clear t))
      as Hc by (apply list_lookup_insert_eq; by eapply lookup_lt_Some).
    rewrite (stm_bind_pure _ _ _ _ _ (get_tx_run i _ _ Hc)).
    change (st_busy (seg_tx_clear t)) with (st_busy t). by rewrite Hb. }
  unfold end_events. destruct (st_cb t) as [c|]; [destruct (cb_end c)|];
    [rewrite stm_bind_emit|rewrite (stm_bind_pure _ _ s tt s) by done..]; by rewrite Hr.
Qed.

(** An acknowledgement for a transmission in progress frees exactly the
    segments it names. If none is left the transmission ends: its end callback
    is called with 0 and its context cleared, and nothing else changes.
    Otherwise the segments left are sent again. Either way the result is 0 and
    the SeqAuth of the transmission. *)
Theorem trans_ack_spec rx buf sa s i t :
  trans_wf n s -> (6 <= length buf)%nat -> CONFIG_FRIEND && rx_friend_match rx = false ->
  let w := sys_get_be16 buf in
  let ack := sys_get_be32 (drop 2 buf) in
  let src := ctx_addr (rx_ctx rx) in
  find_index (seg_tx_match (Z.land (Z.shiftr w 2) 0x1fff) (negb (Z.shiftr w 15 =? 0)) src)
    (t_seg_tx s) = Some i ->
  t_seg_tx s !! i = Some t -> ack <> 0 -> Z.log2 ack <= st_seg_n t ->
  let t1 := acked ack (t <| st_dst := src |>) in
  (forall j sg, st_seg t1 !! j = Some (Some sg) <->
     st_seg t !! j = Some (Some sg) /\ Z.testbit ack (Z.of_nat j) = false) /\
  (st_busy t1 = false ->
   trans_ack rx buf sa s =
   Some ((0, st_seq_auth t), s <| t_seg_tx := <[i := seg_tx_clear t1]> (t_seg_tx s) |>,
         [TRetransmitCancel i] ++ end_events i t ++ [TRetransmitCancel i])) /\
  (st_busy t1 = true ->
   exists s' evs,
     seg_tx_send_unacked i (s <| t_seg_tx := <[i := t1]> (t_seg_tx s) |>) = Some (tt, s', evs) /\
     trans_ack rx buf sa s = Some ((0, st_seq_auth t), s', TRetransmitCancel i :: evs) /\
     trans_wf n s').
Proof.
  intros Hs Hlen Hfm w ack src Hfind Hti Hack Hlog t1.
  pose proof (trans_ack_run n rx buf sa s i t Hs Hlen Hfm Hfind Hti Hack Hlog) as Hrun.
  fold w ack src t1 in Hrun. cbv zeta in Hrun. fold w ack src t1 in Hrun.
  set (s1 := s <| t_seg_tx := <[i := t1]> (t_seg_tx s) |>) in *.
  assert (t_seg_tx s1 !! i = Some t1) as Hi1.
  { apply list_lookup_insert_eq. by eapply lookup_lt_Some. }
  rewrite stm_bind_emit in Hrun. rewrite (stm_bind_pure _ _ s tt s1) in Hrun by done.
  unfold ack_continue in Hrun. split; [intros j sg; exact (ack_seg_held ack (t <| st_dst := src |>) j sg)|]. split; intros Hb; rewrite Hb in Hrun.
  - rewrite Hrun. unfold stm_bind. rewrite (complete_run i t1 s1 Hi1 Hb).
    change (end_events i t1) with (end_events i t). f_equal. f_equal; [f_equal|].
    + unfold s1, update_field. destruct s. cbn. by rewrite list_insert_insert_eq.
    + by rewrite app_nil_r.
  - destruct (wp_inv _ _ _ (trans_ack_ok n rx buf sa s Hs)) as (r & s' & evs & Hack' & Hs').
    rewrite Hrun in Hack'. unfold stm_bind in Hack', Hrun.
    destruct (seg_tx_send_unacked i s1) as [[[[] s2] e2]|]; [|done]. cbn in Hack', Hrun.
    exists s2, e2. split; [done|]. rewrite Hrun, app_nil_r. split; [done|]. by simplify_eq.
Qed.
End ack.

(** *** A message of three segments and its acknowledgement *)

Definition sample_send : trans_op :=
  OpSend (mk_tx 0 (mk_ctx 0 BT_MESH_KEY_DEV 0x0003 0 5 true) 2 0 false 0 0) sample_long 8
    (Some first_sent_cb).
(** The state of a node after [op]. *)
Definition sample_after (s : trans) (op : trans_op) : trans :=
  match run_op (cfg := proxy_friend_config) (hal := sw_hal) (env := sample_env)
          (tenv := sample_tenv) op s with
  | Some (_, s, _) => s | None => s
  end.
Definition sample_sent : trans := sample_after sample_trans sample_send.
(** An acknowledgement from [src] of the segments [block] for SeqZero [0x1234]. *)
Definition sample_ack (block : Z) : bytes := sys_put_be16 (Z.shiftl 0x1234 2) ++ sys_put_be32 block.
Definition sample_ack_rx : net_rx :=
  mk_rx 0 (mk_ctx 0 BT_MESH_KEY_UNUSED 3 5 7 false) 9 2 false false false true IF_ADV true false 0.

Lemma sample_after_wf s op : trans_wf (cfg := proxy_friend_config) 1 s -> op_ok 1 op -> trans_wf (cfg := proxy_friend_config) 1 (sample_after s op).
Proof.
  intros Hs Hop.
  destruct (wp_inv _ _ _ (run_op_ok (cfg := proxy_friend_config) (hal := sw_hal) (env := sample_env)
    (tenv := sample_tenv) 1 op s Hs Hop)) as ([] & s' & e & Hrun & Hs').
  unfold sample_after. by rewrite Hrun.
Qed.

Lemma sample_send_ok : op_ok 1 sample_send.
Proof.
  split; [split; [cbn; lia|left; left; cbn; lia]|]. split; [|cbn; lia].
  apply (bool_decide_unpack (is_bytes sample_long)). vm_compute. exact I.
Qed.

Lemma sample_sent_wf : trans_wf (cfg := proxy_friend_config) 1 sample_sent.
Proof. exact (sample_after_wf sample_trans sample_send sample_trans_wf sample_send_ok). Qed.

Lemma trans_ack_spec_witness :
  let t := default seg_tx_init (t_seg_tx sample_sent !! 0%nat) in
  let t1 := acked 7 (t <| st_dst := 3 |>) in
  held (st_seg t) = 3%nat /\
  trans_ack (cfg := proxy_friend_config) (hal := sw_hal) (tenv := sample_tenv) sample_ack_rx (sample_ack 7) 0 sample_sent =
  Some ((0, st_seq_auth t),
    sample_sent <| t_seg_tx := <[0%nat := seg_tx_clear t1]> (t_seg_tx sample_sent) |>,
    [TRetransmitCancel 0; TSegTxEnd 0 0; TRetransmitCancel 0]).
Proof.
  split; [vm_compute; reflexivity|].
  destruct (trans_ack_spec (cfg := proxy_friend_config) (hal := sw_hal)
    (tenv := sample_tenv) 1 sample_ack_rx (sample_ack 7) 0 sample_sent 0
    (default seg_tx_init (t_seg_tx sample_sent !! 0%nat)) sample_sent_wf) as (_ & H & _).
  - cbn. lia.
  - reflexivity.
  - vm_compute. reflexivity.
  - vm_compute. reflexivity.
  - vm_compute. discriminate.
  - vm_compute. discriminate.
  - apply H. vm_compute. reflexivity.
Defined.

(** The IV update that was put off until the transmission in progress ends
    is not carried out when the transmission ends well: once every segment is
    acknowledged nothing is being sent any more, yet the update is still
    pending and the IV index unchanged. When the transmission times out
    instead, the update takes place. *)
Theorem full_ack_leaves_iv_update :
  let s := sample_sent <| t_net := (t_net sample_sent) <| iv_update := true |>
                                     <| pending_update := true |> <| iv_index := 6 |> |> in
  let pending s := (bt_mesh_tx_in_progress s, pending_update (t_net s), iv_update (t_net s)) in
  pending s = (true, true, true) /\
  (forall s' evs r, trans_ack (cfg := proxy_friend_config) (hal := sw_hal)
     (tenv := sample_tenv) sample_ack_rx (sample_ack 7) 0 s = Some (r, s', evs) ->
     fst r = 0 /\ pending s' = (false, true, true)) /\
  pending (sample_after (sample_after s (OpRetransmit 0)) (OpRetransmit 0)) = (false, false, false).
Proof.
  split; [vm_compute; reflexivity|]. split; [|vm_compute; reflexivity].
  intros s' evs r H. vm_compute in H. injection H as <- <- _. vm_compute. by split.
Qed.
