(* ===== verification/Access.v ===== *)
(** * The access layer (bt_mesh/src/access.c)

    The composition of a node, the dispatch of access messages to models, and
    sending and publishing by models. *)

From Stdlib Require Import Sorted.
From S2P Require Import Prelude NetBuf NetState NetIv TransState TransTx.

(** ** Data (inc/api/mesh/access.h) *)

(** [struct bt_mesh_model_op]; the handler is found by model and opcode. *)
Record model_op := mk_model_op { op_opcode : Z; op_min_len : nat }.

(** [struct bt_mesh_model_pub]; [pub_timer] is the time the publication timer
    was started with, [pub_update] whether there is an update callback. *)
Record model_pub := mk_model_pub {
  pub_addr : Z;
  pub_key : Z;
  pub_ttl : Z;
  pub_retransmit : Z;
  pub_period : Z;
  pub_period_div : Z;
  pub_cred : bool;
  pub_count : Z;
  pub_period_start : Z;
  pub_msg : bytes;
  pub_update : bool;
  pub_timer : option Z
}.
#[export] Instance model_pub_settable : Settable model_pub.
Proof.
  settable (fun p => mk_model_pub (pub_addr p) (pub_key p) (pub_ttl p) (pub_retransmit p)
    (pub_period p) (pub_period_div p) (pub_cred p) (pub_count p) (pub_period_start p)
    (pub_msg p) (pub_update p) (pub_timer p)).
Defined.

(** [struct bt_mesh_model]; [md_company] is only used for vendor models. *)
Record model := mk_model {
  md_company : Z;
  md_id : Z;
  md_pub : option model_pub;
  md_keys : list Z;
  md_groups : list Z;
  md_op : list model_op
}.
#[export] Instance model_settable : Settable model.
Proof.
  settable (fun m => mk_model (md_company m) (md_id m) (md_pub m) (md_keys m) (md_groups m) (md_op m)).
Defined.

(** [struct bt_mesh_elem]. *)
Record elem := mk_elem { el_addr : Z; el_models : list model; el_vnd_models : list model }.
#[export] Instance elem_settable : Settable elem.
Proof. settable (fun e => mk_elem (el_addr e) (el_models e) (el_vnd_models e)). Defined.

(** [dev_comp] and [dev_primary_addr]. *)
Record access := mk_access { ac_elems : list elem; ac_primary : Z }.
#[export] Instance access_settable : Settable access.
Proof. settable (fun a => mk_access (ac_elems a) (ac_primary a)). Defined.

(** A pointer to a model of the composition. *)
Record model_ref := mk_model_ref { mr_elem : nat; mr_vnd : bool; mr_idx : nat }.
#[export] Instance model_ref_eq_dec : EqDecision model_ref.
Proof. solve_decision. Defined.

Inductive acc_event :=
| AModelInit (id : Z) (mod_ : model_ref) (primary : bool)
| AHandle (mod_ : model_ref) (op : Z) (ctx : msg_ctx) (msg : bytes)
| ATransSend (tx : net_tx) (msg : bytes) (room : Z)
| AUpdate (mod_ : model_ref)
| ATimerSubmit (mod_ : model_ref) (delay : Z)
| ATimerCancel (mod_ : model_ref).

Abbreviation A := (stm access acc_event).

(** The answers of the other components. *)
Class AccEnv := {
  (** [bt_mesh], for its keys and subnets. *)
  acc_net : mesh_net;
  is_provisioned : bool;
  uptime_32 : Z;
  net_transmit : Z;
  friend_get : Z;
  relay_state : Z;
  (** [bt_mesh_trans_send]: its result and, when the end callback was called
      before it returned, the callback's argument. *)
  trans_send : net_tx -> bytes -> Z -> Z * option Z;
  (** The models' handlers, by model and opcode; a handler may change the
      context it is given. *)
  handler : model_ref -> Z -> msg_ctx -> bytes -> A msg_ctx;
  (** The update callback of a publication. *)
  update : model_ref -> A Z;
  (** [init] of the foundation models the table [model_init] has. *)
  has_init : Z -> bool
}.

Definition BT_MESH_FRIEND_ENABLED : Z := 1.
Definition BT_MESH_RELAY_ENABLED : Z := 1.

Definition BT_MESH_PUB_TRANSMIT_COUNT (transmit : Z) : Z := Z.land transmit 7.
Definition BT_MESH_PUB_TRANSMIT_INT (transmit : Z) : Z := (Z.shiftr transmit 3 + 1) * 50.

(** ** Opcodes *)

(** The opcode and what follows it. *)
Definition get_opcode (buf : bytes) : res (Z * bytes) :=
  match buf with
  | [] => Undef
  | b0 :: rest =>
      match Z.shiftr b0 6 with
      | 0 | 1 => if b0 =? 0x7f then Err (- EINVAL) else Ok (b0, rest)
      | 2 => if decide (length buf < 2)%nat then Err (- EINVAL)
             else Ok (sys_get_be16 buf, drop 2 buf)
      | 3 => if decide (length buf < 3)%nat then Err (- EINVAL)
             else Ok (Z.lor (Z.shiftl b0 16) (sys_get_le16 rest), drop 3 buf)
      | _ => Err (- EINVAL)
      end
  end.

(** The start of a message. *)
Definition bt_mesh_model_msg_init (opcode : Z) : bytes :=
  if opcode <? 0x100 then [u8 opcode]
  else if opcode <? 0x10000 then sys_put_be16 opcode
  else u8 (Z.land (Z.shiftr opcode 16) 0xff) :: sys_put_le16 (Z.land opcode 0xffff).

(** ** The composition *)

Definition models_of (e : elem) (vnd : bool) : list model :=
  if vnd then el_vnd_models e else el_models e.
Definition get_model (a : access) (r : model_ref) : option model :=
  e ← ac_elems a !! mr_elem r; models_of e (mr_vnd r) !! mr_idx r.
Definition alter_model (f : model -> model) (r : model_ref) (a : access) : access :=
  a <| ac_elems := alter (fun e =>
         if mr_vnd r then e <| el_vnd_models := alter f (mr_idx r) (el_vnd_models e) |>
         else e <| el_models := alter f (mr_idx r) (el_models e) |>) (mr_elem r) (ac_elems a) |>.

(** The models in the order of [bt_mesh_model_foreach]. *)
Definition model_refs (a : access) : list model_ref :=
  concat (imap (fun i e =>
    imap (fun j _ => mk_model_ref i false j) (el_models e) ++
    imap (fun j _ => mk_model_ref i true j) (el_vnd_models e)) (ac_elems a)).

Definition bt_mesh_model_foreach {env : AccEnv} (func : model_ref -> bool -> A unit) : A unit :=
  a <- stm_get ;;
  foldr (fun r k => func r (mr_elem r =? 0)%nat ;; k) (mret tt) (model_refs a).

(** [bt_mesh_model_find_group(mod, addr) != NULL]: the index of the entry. *)
Definition bt_mesh_model_find_group (m : model) (addr : Z) : option nat :=
  find_index (Z.eqb addr) (md_groups m).
Definition bt_mesh_elem_find_group (e : elem) (addr : Z) : option (bool * nat) :=
  let has m := bool_decide (is_Some (bt_mesh_model_find_group m addr)) in
  match find_index has (el_models e) with
  | Some i => Some (false, i)
  | None => i ← find_index has (el_vnd_models e); Some (true, i)
  end.

Definition bt_mesh_elem_find (a : access) (addr : Z) : option nat :=
  find_index (fun e =>
    if BT_MESH_ADDR_IS_GROUP addr || BT_MESH_ADDR_IS_VIRTUAL addr then
      bool_decide (is_Some (bt_mesh_elem_find_group e addr))
    else el_addr e =? addr) (ac_elems a).

Definition bt_mesh_elem_count (a : access) : nat := length (ac_elems a).
Definition bt_mesh_primary_addr (a : access) : Z := ac_primary a.

Definition bt_mesh_model_find_vnd (e : elem) (company id : Z) : option nat :=
  find_index (fun m => (md_company m =? company) && (md_id m =? id)) (el_vnd_models e).
Definition bt_mesh_model_find (e : elem) (id : Z) : option nat :=
  find_index (fun m => md_id m =? id) (el_models e).

(** ** The models that get a message *)

Definition model_has_key (m : model) (key : Z) : bool := existsb (fun k => k =? key) (md_keys m).

(** The first model bound to the key with a handler for the opcode. *)
Fixpoint find_op_from (i : nat) (models : list model) (app_idx opcode : Z) : option (nat * model_op) :=
  match models with
  | [] => None
  | m :: models =>
      let next := find_op_from (S i) models app_idx opcode in
      if negb (model_has_key m app_idx) then next
      else match List.find (fun op => op_opcode op =? opcode) (md_op m) with
           | Some op => Some (i, op)
           | None => next
           end
  end.
Definition find_op : list model -> Z -> Z -> option (nat * model_op) := find_op_from 0.

Section access.
Context {env : AccEnv}.

Definition get_pub (r : model_ref) : A (option model_pub) :=
  a <- stm_get ;; m <- stm_of_option (get_model a r) ;; mret (md_pub m).
Definition mod_pub (r : model_ref) (f : model_pub -> model_pub) : A unit :=
  stm_modify (alter_model (fun m => m <| md_pub := f <$> md_pub m |>) r).
Definition timer_submit (r : model_ref) (delay : Z) : A unit :=
  stm_emit [ATimerSubmit r delay] ;; mod_pub r (fun p => p <| pub_timer := Some delay |>).
Definition timer_cancel (r : model_ref) : A unit :=
  stm_emit [ATimerCancel r] ;; mod_pub r (fun p => p <| pub_timer := None |>).

(** ** Registration and provisioning *)

Definition mod_init (r : model_ref) (primary : bool) : A unit :=
  mod_pub r (fun p => p <| pub_timer := None |>) ;;
  stm_modify (alter_model (fun m => m <| md_keys := map (fun _ => BT_MESH_KEY_UNUSED) (md_keys m) |>) r) ;;
  if mr_vnd r then mret tt
  else
    a <- stm_get ;;
    m <- stm_of_option (get_model a r) ;;
    if has_init (md_id m) then stm_emit [AModelInit (md_id m) r primary] else mret tt.

Definition bt_mesh_comp_register (comp : list elem) : A Z :=
  if decide (length comp = 0%nat) then mret (- EINVAL)
  else stm_modify (fun a => a <| ac_elems := comp |>) ;; bt_mesh_model_foreach mod_init ;; mret 0.

Definition bt_mesh_comp_provision (addr : Z) : A unit :=
  stm_modify (fun a => a <| ac_primary := addr |>
    <| ac_elems := imap (fun i e => e <| el_addr := u16 (addr + Z.of_nat i) |>) (ac_elems a) |>).

Definition bt_mesh_comp_unprovision : A unit :=
  stm_modify (fun a => a <| ac_primary := BT_MESH_ADDR_UNASSIGNED |>) ;;
  bt_mesh_model_foreach mod_init.

(** ** Receiving *)

Definition bt_mesh_fixed_group_match (addr : Z) : bool :=
  if addr =? BT_MESH_ADDR_ALL_NODES then true
  else if addr =? BT_MESH_ADDR_PROXIES then false
  else if addr =? BT_MESH_ADDR_FRIENDS then friend_get =? BT_MESH_FRIEND_ENABLED
  else if addr =? BT_MESH_ADDR_RELAYS then relay_state =? BT_MESH_RELAY_ENABLED
  else false.

(** Is the message for element [i]? *)
Definition elem_addressed (i : nat) (e : elem) (dst : Z) : bool :=
  if BT_MESH_ADDR_IS_UNICAST dst then el_addr e =? dst
  else if BT_MESH_ADDR_IS_GROUP dst || BT_MESH_ADDR_IS_VIRTUAL dst then
    bool_decide (is_Some (bt_mesh_elem_find_group e dst))
  else (i =? 0)%nat && bt_mesh_fixed_group_match dst.

(** The loop over the elements [i .. i + n - 1]; [buf] follows the opcode. *)
Fixpoint recv_elems (n i : nat) (dst opcode : Z) (ctx : msg_ctx) (buf : bytes) : A msg_ctx :=
  match n with
  | O => mret ctx
  | S n =>
      a <- stm_get ;;
      e <- stm_of_option (ac_elems a !! i) ;;
      if negb (elem_addressed i e dst) then recv_elems n (S i) dst opcode ctx buf
      else
        let vnd := negb (opcode <? 0x10000) in
        match find_op (models_of e vnd) (ctx_app_idx ctx) opcode with
        | None => recv_elems n (S i) dst opcode ctx buf
        | Some (j, op) =>
            if decide (length buf < op_min_len op)%nat then recv_elems n (S i) dst opcode ctx buf
            else
              let r := mk_model_ref i vnd j in
              stm_emit [AHandle r opcode ctx buf] ;;
              ctx <- handler r opcode ctx buf ;;
              recv_elems n (S i) dst opcode ctx buf
        end
  end.

Definition bt_mesh_model_recv (rx : net_rx) (buf : bytes) : A msg_ctx :=
  match get_opcode buf with
  | Undef => stm_undef
  | Err _ => mret (rx_ctx rx)
  | Ok (opcode, buf) =>
      a <- stm_get ;; recv_elems (length (ac_elems a)) 0 (rx_dst rx) opcode (rx_ctx rx) buf
  end.

(** ** Publication *)

Definition period_of (p : model_pub) : Z :=
  let steps := Z.land (pub_period p) 0x3f in
  let ms := match Z.shiftr (pub_period p) 6 with
            | 0 => steps * 100
            | 1 => steps * 1000
            | 2 => steps * 10 * 1000
            | 3 => steps * 10 * 60 * 1000
            | _ => 0
            end in
  Z.shiftr ms (pub_period_div p).
Definition bt_mesh_model_pub_period_get (p : option model_pub) : Z := from_option period_of 0 p.

Definition next_period (p : model_pub) : Z :=
  let period := period_of p in
  if period =? 0 then 0
  else
    let elapsed := u32 (uptime_32 - pub_period_start p) in
    if period <? elapsed then 1 else period - elapsed.

(** The end callback of a publication. *)
Definition publish_sent (r : model_ref) : A unit :=
  p <- get_pub r ;;
  p <- stm_of_option p ;;
  let delay := if negb (pub_count p =? 0) then BT_MESH_PUB_TRANSMIT_INT (pub_retransmit p)
               else next_period p in
  if negb (delay =? 0) then timer_submit r delay else mret tt.

(** [bt_mesh_trans_send]; [cb] is the model whose publication it is. *)
Definition do_trans_send (tx : net_tx) (msg : bytes) (room : Z) (cb : option model_ref) : A Z :=
  stm_emit [ATransSend tx msg room] ;;
  let '(err, sent) := trans_send tx msg room in
  match sent, cb with
  | Some _, Some r => publish_sent r
  | _, _ => mret tt
  end ;;
  mret err.

Definition pub_tx (p : model_pub) (src : Z) (net_idx app_idx : Z) (sub : nat) : net_tx :=
  mk_tx sub (mk_ctx net_idx app_idx (pub_addr p) 0 (pub_ttl p) false) src net_transmit (pub_cred p) 0 0.
Definition sdu_room (msg : bytes) : Z := Z.of_nat BT_MESH_TX_SDU_MAX - Z.of_nat (length msg).

Definition elem_addr (r : model_ref) : A Z :=
  a <- stm_get ;; e <- stm_of_option (ac_elems a !! mr_elem r) ;; mret (el_addr e).

Definition publish_retransmit (r : model_ref) : A Z :=
  p <- get_pub r ;;
  p <- stm_of_option p ;;
  src <- elem_addr r ;;
  match bt_mesh_app_key_find acc_net (pub_key p) with
  | None => mret (- EADDRNOTAVAIL)
  | Some key =>
      match bt_mesh_subnet_get acc_net (app_net_idx key) with
      | None => mret (- EINVAL)
      | Some sub =>
          if decide (BT_MESH_TX_SDU_MAX < length (pub_msg p))%nat then stm_undef
          else
            mod_pub r (fun p => p <| pub_count := (pub_count p - 1) mod 8 |>) ;;
            do_trans_send (pub_tx p src (app_net_idx key) (app_app_idx key) sub) (pub_msg p)
              (sdu_room (pub_msg p)) (Some r)
      end
  end.

(** ** Sending *)

Definition model_send (r : model_ref) (tx : net_tx) (implicit_bind : bool) (msg : bytes)
    (room : Z) (cb : option model_ref) : A Z :=
  if negb is_provisioned then mret (- EAGAIN)
  else if room <? 4 then mret (- EINVAL)
  else if decide (BT_MESH_TX_SDU_MAX - 4 < length msg)%nat then mret (- EMSGSIZE)
  else
    a <- stm_get ;;
    m <- stm_of_option (get_model a r) ;;
    if negb implicit_bind && negb (model_has_key m (ctx_app_idx (tx_ctx tx))) then mret (- EINVAL)
    else do_trans_send tx msg room cb.

(** The application's callbacks are not modelled. *)
Definition bt_mesh_model_send (r : model_ref) (ctx : msg_ctx) (msg : bytes) (room : Z) : A Z :=
  src <- elem_addr r ;;
  match bt_mesh_subnet_get acc_net (ctx_net_idx ctx) with
  | None => mret (- EINVAL)
  | Some sub => model_send r (mk_tx sub ctx src net_transmit false 0 0) false msg room None
  end.

Definition bt_mesh_model_publish (r : model_ref) : A Z :=
  p <- get_pub r ;;
  src <- elem_addr r ;;
  match p with
  | None => mret (- ENOTSUP)
  | Some p =>
      if pub_addr p =? BT_MESH_ADDR_UNASSIGNED then mret (- EADDRNOTAVAIL)
      else
        match bt_mesh_app_key_find acc_net (pub_key p) with
        | None => mret (- EADDRNOTAVAIL)
        | Some key =>
            if decide (BT_MESH_TX_SDU_MAX < length (pub_msg p) + 4)%nat then mret (- EMSGSIZE)
            else
              (if negb (pub_count p =? 0) then timer_cancel r else mret tt) ;;
              match bt_mesh_subnet_get acc_net (app_net_idx key) with
              | None => mret (- EINVAL)
              | Some sub =>
                  mod_pub r (fun p => p <| pub_count := BT_MESH_PUB_TRANSMIT_COUNT (pub_retransmit p) |>) ;;
                  err <- model_send r (pub_tx p src (app_net_idx key) (app_app_idx key) sub) true
                           (pub_msg p) (sdu_room (pub_msg p)) (Some r) ;;
                  if negb (err =? 0) then mod_pub r (fun p => p <| pub_count := 0 |>) ;; mret err
                  else mret 0
              end
        end
  end.

(** The publication timer of a model. *)
Definition mod_publish (r : model_ref) : A unit :=
  mod_pub r (fun p => p <| pub_timer := None |>) ;;
  p <- get_pub r ;;
  p <- stm_of_option p ;;
  let period_ms := period_of p in
  if negb (pub_count p =? 0) then
    err <- publish_retransmit r ;;
    if negb (err =? 0) then
      mod_pub r (fun p => p <| pub_count := 0 |>) ;;
      if negb (period_ms =? 0) then timer_submit r period_ms else mret tt
    else mret tt
  else if period_ms =? 0 then mret tt
  else if negb (pub_update p) then stm_undef
  else
    mod_pub r (fun p => p <| pub_period_start := uptime_32 |>) ;;
    stm_emit [AUpdate r] ;;
    err <- update r ;;
    if negb (err =? 0) then mret tt
    else
      bt_mesh_model_publish r ;;
      p <- get_pub r ;;
      p <- stm_of_option p ;;
      if negb (pub_count p =? 0) then timer_cancel r else mret tt.
End access.

(** ** Opcodes and their encoding *)

Definition opcode_valid (op : Z) : Prop :=
  0 <= op < 0x7f \/ 0x8000 <= op < 0xc000 \/ 0xc00000 <= op < 0x1000000.

Lemma sys_get_le16_eq a b l : is_byte a -> is_byte b -> sys_get_le16 (a :: b :: l) = b * 256 + a.
Proof.
  intros Ha Hb. unfold sys_get_le16. cbn [byte_at nth]. rewrite word_of_bytes by done.
  unfold is_byte in *. apply u16_id. lia.
Qed.

(** The three forms of an opcode. *)
Inductive opcode_form (op : Z) : bytes -> Prop :=
| form1 : 0 <= op < 0x7f -> opcode_form op [op]
| form2 a b : is_byte b -> 0x80 <= a < 0xc0 -> op = a * 256 + b -> opcode_form op [a; b]
| form3 a b c : is_byte b -> is_byte c -> 0xc0 <= a < 0x100 -> op = a * 65536 + c * 256 + b ->
    opcode_form op [a; b; c].

Lemma opcode_form_init op : opcode_valid op <-> opcode_form op (bt_mesh_model_msg_init op).
Proof.
  unfold bt_mesh_model_msg_init, sys_put_be16, sys_put_le16. change 0xff with (Z.ones 8).
  change 0xffff with (Z.ones 16). rewrite !Z.land_ones, !Z.shiftr_div_pow2 by lia. eval_pow. split.
  - intros [H|[H|H]]; unfold u8.
    + destruct (Z.ltb_spec op 0x100); [|lia]. rewrite Z.mod_small by lia. by constructor.
    + destruct (Z.ltb_spec op 0x100); [lia|]. destruct (Z.ltb_spec op 0x10000); [|lia].
      constructor; unfold is_byte; word_lia.
    + destruct (Z.ltb_spec op 0x100); [lia|]. destruct (Z.ltb_spec op 0x10000); [lia|].
      constructor; unfold is_byte; word_lia.
  - intros H. unfold opcode_valid. unfold is_byte in *.
    destruct (Z.ltb_spec op 0x100); [|destruct (Z.ltb_spec op 0x10000)];
      inversion H; unfold is_byte in *; subst; try lia; word_lia.
Qed.

Lemma opcode_form_unique op l l' : opcode_form op l -> opcode_form op l' -> l = l'.
Proof.
  intros H H'. destruct H; inversion H'; clear H'; unfold is_byte in *; subst; try lia;
    repeat (f_equal; try lia).
Qed.

Lemma get_opcode_form op buf rest : is_bytes buf ->
  get_opcode buf = Ok (op, rest) <-> exists l, opcode_form op l /\ buf = l ++ rest.
Proof.
  intros Hb. split.
  - destruct buf as [|b0 buf]; [done|]. apply Forall_cons_iff in Hb as [H0 Hb]. unfold get_opcode.
    rewrite Z.shiftr_div_pow2 by lia. eval_pow. unfold is_byte in H0.
    assert (b0 / 64 = 0 \/ b0 / 64 = 1 \/ b0 / 64 = 2 \/ b0 / 64 = 3) as Hc by word_lia.
    assert (b0 / 64 = 0 \/ b0 / 64 = 1 -> (if b0 =? 0x7f then Err (- EINVAL) else Ok (b0, buf)) = Ok (op, rest) ->
      exists l, opcode_form op l /\ b0 :: buf = l ++ rest) as H1.
    { intros Hd. destruct (Z.eqb_spec b0 0x7f); [done|]. intros [= -> ->]. exists [op].
      split; [constructor; word_lia|done]. }
    destruct Hc as [Hc|[Hc|[Hc|Hc]]]; rewrite Hc; [by apply H1; left|by apply H1; right|..]; clear H1.
    + destruct buf as [|b1 buf]; [done|]. apply Forall_cons_iff in Hb as [H1 Hb]. cbn [length].
      rewrite decide_False by lia. rewrite sys_get_be16_eq by done. intros [= <- <-]. exists [b0; b1].
      split; [|done]. apply form2; [done|word_lia|done].
    + destruct buf as [|b1 [|b2 buf]]; [done..|]. apply Forall_cons_iff in Hb as [H1 Hb].
      apply Forall_cons_iff in Hb as [H2 Hb]. cbn [length]. rewrite decide_False by lia.
      rewrite sys_get_le16_eq by done. unfold is_byte in *. rewrite lor_shiftl_add by word_lia.
      intros [= <- <-]. exists [b0; b1; b2]. split; [|done]. constructor; unfold is_byte; word_lia.
  - intros (l & Hf & ->). unfold is_byte in *. destruct Hf as [H|a b Hbb Ha Heq|a b c Hbb Hcc Ha Heq]; cbn [app];
      unfold get_opcode; rewrite Z.shiftr_div_pow2 by lia; eval_pow.
    + assert (op / 64 = 0 \/ op / 64 = 1) as [-> | ->] by word_lia; by destruct (Z.eqb_spec op 0x7f); [lia|].
    + assert (a / 64 = 2) as -> by word_lia. rewrite decide_False by (cbn; lia).
      rewrite sys_get_be16_eq by (done || (unfold is_byte; lia)). by subst.
    + assert (a / 64 = 3) as -> by word_lia. rewrite decide_False by (cbn; lia).
      rewrite sys_get_le16_eq by done. unfold is_byte in *. rewrite lor_shiftl_add by word_lia.
      eval_pow. subst. cbn [drop]. do 2 f_equal. lia.
Qed.

(** C28: opcodes are self-delimiting. [get_opcode] accepts exactly the one, two
    and three byte encodings that [bt_mesh_model_msg_init] writes for the valid
    opcodes, whatever follows, and returns the opcode and what follows. Any
    other buffer is refused with -EINVAL, provided it is not empty. *)
Theorem opcode_roundtrip buf : is_bytes buf -> buf <> [] ->
  (forall op rest, get_opcode buf = Ok (op, rest) <->
     opcode_valid op /\ buf = bt_mesh_model_msg_init op ++ rest) /\
  ((forall op rest, opcode_valid op -> buf <> bt_mesh_model_msg_init op ++ rest) ->
   get_opcode buf = Err (- EINVAL)).
Proof.
  intros Hb Hne.
  assert (forall op rest, get_opcode buf = Ok (op, rest) <->
    opcode_valid op /\ buf = bt_mesh_model_msg_init op ++ rest) as Hiff.
  { intros op rest. rewrite get_opcode_form by done. rewrite opcode_form_init. split.
    - intros (l & Hf & ->). assert (opcode_valid op) as Hv.
      { unfold is_byte, opcode_valid in *. destruct Hf; unfold is_byte in *; lia. }
      apply opcode_form_init in Hv. split; [done|]. f_equal. by eapply opcode_form_unique.
    - intros [Hf ->]. eauto. }
  split; [done|]. intros Hno.
  destruct (get_opcode buf) as [[op rest]|e|] eqn:Hg.
  - destruct (proj1 (Hiff op rest) eq_refl) as [Hv Heq]. by destruct (Hno op rest Hv).
  - revert Hg. destruct buf as [|b0 buf]; [done|]. unfold get_opcode. repeat case_match; congruence.
  - revert Hg. destruct buf as [|b0 buf]; [done|]. unfold get_opcode. repeat case_match; congruence.
Qed.

Lemma opcode_roundtrip_witness :
  get_opcode [0xc2; 0x5d; 0x00; 7] = Ok (0xc2005d, [7]) /\ opcode_valid 0xc2005d /\
  bt_mesh_model_msg_init 0xc2005d = [0xc2; 0x5d; 0x00].
Proof.
  assert (is_bytes [0xc2; 0x5d; 0x00; 7]) as Hb by by apply (bool_decide_unpack (is_bytes _)).
  destruct (opcode_roundtrip [0xc2; 0x5d; 0x00; 7] Hb ltac:(discriminate)) as [H _].
  split; [|split; [|reflexivity]].
  - apply H. split; [unfold opcode_valid; lia|reflexivity].
  - right. right. lia.
Defined.

(** ** Who gets a message *)

(** The handler a model has for an opcode under a key it is bound to. *)
Definition accepts (m : model) (app_idx opcode : Z) : option model_op :=
  if model_has_key m app_idx then List.find (fun op => op_opcode op =? opcode) (md_op m) else None.

Lemma find_op_from_spec models app_idx opcode i j op :
  find_op_from i models app_idx opcode = Some (j, op) <->
  exists k m, j = (i + k)%nat /\ models !! k = Some m /\ accepts m app_idx opcode = Some op /\
    forall k' m', (k' < k)%nat -> models !! k' = Some m' -> accepts m' app_idx opcode = None.
Proof.
  revert i. induction models as [|m models IH]; intros i; cbn [find_op_from].
  { split; [done|]. by intros (k & m & _ & Hk & _). }
  assert (find_op_from (S i) models app_idx opcode = Some (j, op) /\ accepts m app_idx opcode = None <->
    exists k m0, j = (i + k)%nat /\ k <> 0%nat /\ (m :: models) !! k = Some m0 /\
      accepts m0 app_idx opcode = Some op /\
      forall k' m', (k' < k)%nat -> (m :: models) !! k' = Some m' -> accepts m' app_idx opcode = None) as Hnext.
  { rewrite IH. split.
    - intros [(k & m0 & -> & Hk & Hop & Hlow) Hm]. exists (S k), m0. split_and!; try (done || lia).
      intros [|k'] m' Hk'; cbn; [by intros [= <-]|]. apply Hlow. lia.
    - intros ([|k] & m0 & -> & H0 & Hk & Hop & Hlow); [done|]. split; [|apply (Hlow 0%nat); (done || lia)].
      exists k, m0. split_and!; try (done || lia). intros k' m' Hk'. apply (Hlow (S k')). lia. }
  unfold accepts in *. destruct (model_has_key m app_idx) eqn:Hkey; cbn [negb].
  - destruct (List.find _ (md_op m)) as [op0|] eqn:Hf.
    + split.
      * intros [= <- <-]. exists 0%nat, m. rewrite Hkey, Hf. by split_and!; [lia|..|intros; lia].
      * intros ([|k] & m0 & -> & Hk & Hop & Hlow).
        -- cbn in Hk. injection Hk as <-. rewrite Hkey, Hf in Hop. rewrite Nat.add_0_r. congruence.
        -- specialize (Hlow 0%nat m ltac:(lia) eq_refl). rewrite Hkey, Hf in Hlow. done.
    + etrans; [|etrans; [exact Hnext|]]; [tauto|]. split.
      * intros (k & m0 & ? & _ & ?). by exists k, m0.
      * intros ([|k] & m0 & ? & Hk & Hop & ?); [|by exists (S k), m0].
        cbn in Hk. injection Hk as <-. by rewrite Hkey, Hf in Hop.
  - etrans; [|etrans; [exact Hnext|]]; [tauto|]. split.
    + intros (k & m0 & ? & _ & ?). by exists k, m0.
    + intros ([|k] & m0 & ? & Hk & Hop & ?); [|by exists (S k), m0].
      cbn in Hk. injection Hk as <-. by rewrite Hkey in Hop.
Qed.

Lemma find_op_spec models app_idx opcode j op :
  find_op models app_idx opcode = Some (j, op) <->
  exists m, models !! j = Some m /\ accepts m app_idx opcode = Some op /\
    forall k m', (k < j)%nat -> models !! k = Some m' -> accepts m' app_idx opcode = None.
Proof.
  unfold find_op. rewrite find_op_from_spec. split.
  - intros (k & m & -> & H). by exists m.
  - intros (m & H). by exists j, m.
Qed.

(** What dispatching depends on. *)
Definition model_view (m : model) := (md_keys m, md_groups m, md_op m).
Definition elem_view (e : elem) :=
  (el_addr e, map model_view (el_models e), map model_view (el_vnd_models e)).
Definition bindings (a : access) := map elem_view (ac_elems a).

Lemma accepts_view m m' app_idx opcode : model_view m = model_view m' ->
  accepts m app_idx opcode = accepts m' app_idx opcode.
Proof. intros [= Hk _ Ho]. unfold accepts, model_has_key. by rewrite Hk, Ho. Qed.

Lemma find_op_view l l' app_idx opcode : map model_view l = map model_view l' ->
  find_op l app_idx opcode = find_op l' app_idx opcode.
Proof.
  unfold find_op. generalize 0%nat as i. revert l'. induction l as [|m l IH]; intros [|m' l'] i; try done.
  intros [= Hk Hg Ho Hl]. cbn [find_op_from]. unfold model_has_key. by rewrite Hk, Ho, (IH l' (S i) Hl).
Qed.

Lemma find_index_view {X Y} (f : X -> Y) (p : X -> bool) l l' :
  (forall x y, f x = f y -> p x = p y) -> map f l = map f l' -> find_index p l = find_index p l'.
Proof.
  intros Hp. revert l'. induction l as [|x l IH]; intros [|y l']; try done.
  intros [= Hx Hl]. cbn [find_index]. by rewrite (Hp x y Hx), (IH l' Hl).
Qed.

Lemma elem_addressed_view {env : AccEnv} i e e' dst : elem_view e = elem_view e' ->
  elem_addressed i e dst = elem_addressed i e' dst.
Proof.
  intros [= Ha Hm Hv]. unfold elem_addressed, bt_mesh_elem_find_group. rewrite Ha.
  assert (forall x y, model_view x = model_view y ->
    bool_decide (is_Some (bt_mesh_model_find_group x dst)) =
    bool_decide (is_Some (bt_mesh_model_find_group y dst))) as Hg.
  { intros x y [= _ Hxy _]. unfold bt_mesh_model_find_group. by rewrite Hxy. }
  by rewrite (find_index_view model_view _ _ _ Hg Hm), (find_index_view model_view _ _ _ Hg Hv).
Qed.

(** The calls of handlers: model, opcode and message. *)
Definition handled (evs : list acc_event) : list (model_ref * Z * bytes) :=
  omap (fun e => match e with AHandle r op _ msg => Some (r, op, msg) | _ => None end) evs.
Definition no_dispatch (e : acc_event) : Prop :=
  match e with AHandle _ _ _ _ => False | _ => True end.

Lemma handled_app a b : handled (a ++ b) = handled a ++ handled b.
Proof. unfold handled. by rewrite omap_app. Qed.
Lemma handled_quiet e : Forall no_dispatch e -> handled e = [].
Proof. induction 1 as [|[] e He Hf IH]; try done. Qed.

(** Handlers that return, leave the key in the context alone and neither
    change bindings and subscriptions nor dispatch messages themselves: all but
    those of the configuration server. *)
Class HandlersPlain (env : AccEnv) : Prop := {
  handler_plain : forall r op ctx msg a,
    stm_wp (handler r op ctx msg) (fun ctx' a' e =>
      ctx_app_idx ctx' = ctx_app_idx ctx /\ bindings a' = bindings a /\ Forall no_dispatch e) a
}.

Section recv.
Context {env : AccEnv} {plain : HandlersPlain env}.

(** Model [r] is to get a message of [len] bytes after its opcode: its element
    is addressed, the model is bound to the key, has a handler for the opcode
    that takes messages of that length, and no model before it in its element
    has a handler. *)
Definition gets_message (a : access) (dst app_idx opcode : Z) (len : nat) (r : model_ref) : Prop :=
  exists e m op, ac_elems a !! mr_elem r = Some e /\ elem_addressed (mr_elem r) e dst = true /\
    mr_vnd r = negb (opcode <? 0x10000) /\ models_of e (mr_vnd r) !! mr_idx r = Some m /\
    accepts m app_idx opcode = Some op /\ (op_min_len op <= len)%nat /\
    forall k m', (k < mr_idx r)%nat -> models_of e (mr_vnd r) !! k = Some m' ->
      accepts m' app_idx opcode = None.

(** The handler calls are those of the elements from [i] on, in order. *)
Definition dispatches (a : access) (i : nat) (dst app_idx opcode : Z) (msg : bytes)
    (hs : list (model_ref * Z * bytes)) : Prop :=
  StronglySorted lt (map (fun h => mr_elem (fst (fst h))) hs) /\
  Forall (fun h => snd (fst h) = opcode /\ snd h = msg) hs /\
  forall r, r ∈ map (fun h => fst (fst h)) hs <->
    (i <= mr_elem r)%nat /\ gets_message a dst app_idx opcode (length msg) r.

Lemma dispatches_none a i dst app_idx opcode msg hs :
  (forall r, mr_elem r = i -> ~ gets_message a dst app_idx opcode (length msg) r) ->
  dispatches a (S i) dst app_idx opcode msg hs -> dispatches a i dst app_idx opcode msg hs.
Proof.
  intros Hno (H1 & H2 & H3). split; [done|]. split; [done|]. intros r. rewrite H3. split.
  - intros [? ?]. split; [lia|done].
  - intros [Hi Hg]. split; [|done]. destruct (decide (mr_elem r = i)) as [He|]; [|lia].
    by destruct (Hno r He).
Qed.

Lemma dispatches_cons a i dst app_idx opcode msg hs r0 : mr_elem r0 = i ->
  gets_message a dst app_idx opcode (length msg) r0 ->
  (forall r, mr_elem r = i -> gets_message a dst app_idx opcode (length msg) r -> r = r0) ->
  dispatches a (S i) dst app_idx opcode msg hs ->
  dispatches a i dst app_idx opcode msg ((r0, opcode, msg) :: hs).
Proof.
  intros Hi Hg Hu (H1 & H2 & H3). split; [|split].
  - cbn [map fst]. constructor; [done|]. apply List.Forall_forall. intros k Hk.
    apply in_map_iff in Hk as (h & <- & Hh). rewrite Hi.
    assert (fst (fst h) ∈ map (fun h => fst (fst h)) hs) as Hin.
    { apply list_elem_of_In, in_map_iff. by exists h. }
    apply H3 in Hin. lia.
  - by constructor.
  - intros r. cbn [map fst]. rewrite elem_of_cons, H3. split.
    + intros [->|[? ?]]; [by split; [lia|]|split; [lia|done]].
    + intros [Hle Hgr]. destruct (decide (mr_elem r = i)) as [He|]; [left; by apply Hu|right; split; [lia|done]].
Qed.

Lemma gets_message_elem a e dst app_idx opcode len i : ac_elems a !! i = Some e ->
  (elem_addressed i e dst = true ->
   forall j op, find_op (models_of e (negb (opcode <? 0x10000))) app_idx opcode = Some (j, op) ->
     (op_min_len op <= len)%nat ->
     gets_message a dst app_idx opcode len (mk_model_ref i (negb (opcode <? 0x10000)) j)) /\
  (forall r, mr_elem r = i -> gets_message a dst app_idx opcode len r ->
     elem_addressed i e dst = true /\ exists op,
     find_op (models_of e (negb (opcode <? 0x10000))) app_idx opcode = Some (mr_idx r, op) /\
     (op_min_len op <= len)%nat /\ r = mk_model_ref i (negb (opcode <? 0x10000)) (mr_idx r)).
Proof.
  intros He. split.
  - intros Had j op Hf Hlen. apply find_op_spec in Hf as (m & Hj & Hop & Hlow).
    exists e, m, op. by split_and!.
  - intros [k v j] Hk (e' & m & op & He' & Had & Hv & Hm & Hop & Hlen & Hlow). cbn in *. subst k v.
    rewrite He in He'. injection He' as <-. split; [done|]. exists op. split; [|done].
    apply find_op_spec. by exists m.
Qed.

Lemma recv_elems_dispatches a dst opcode msg n : forall i ctx s,
  bindings s = bindings a -> (i + n)%nat = length (ac_elems a) ->
  stm_wp (recv_elems n i dst opcode ctx msg)
    (fun _ s' evs => bindings s' = bindings a /\
       dispatches a i dst (ctx_app_idx ctx) opcode msg (handled evs)) s.
Proof.
  induction n as [|n IH]; intros i ctx s Hs Hn; cbn [recv_elems].
  { apply wp_ret. split; [done|]. split; [constructor|]. split; [constructor|]. intros r.
    split; [intros Hr; by apply elem_of_nil in Hr|].
    intros [Hi (e & _ & _ & He & _)]. apply lookup_lt_Some in He. lia. }
  destruct (lookup_lt_is_Some_2 (ac_elems a) i ltac:(lia)) as [e He].
  assert (exists e', ac_elems s !! i = Some e' /\ elem_view e' = elem_view e) as (e' & He' & Hv).
  { assert (bindings s !! i = bindings a !! i) as Hl by by rewrite Hs.
    unfold bindings in Hl. rewrite !list_lookup_fmap, He in Hl.
    destruct (ac_elems s !! i) as [e'|]; [|done]. exists e'. split; [done|]. cbn in Hl. congruence. }
  destruct (gets_message_elem a e dst (ctx_app_idx ctx) opcode (length msg) i He) as [Hin Hout].
  set (vnd := negb (opcode <? 0x10000)) in *.
  assert (find_op (models_of e' vnd) (ctx_app_idx ctx) opcode = find_op (models_of e vnd) (ctx_app_idx ctx) opcode) as Hf.
  { apply find_op_view. injection Hv as _ H1 H2. unfold models_of. by destruct vnd. }
  wp_step. wp_step. wp_step. apply wp_of_option with e'; [done|].
  rewrite (elem_addressed_view i e' e dst Hv). cbn [app].
  assert ((forall r, mr_elem r = i -> ~ gets_message a dst (ctx_app_idx ctx) opcode (length msg) r) ->
    stm_wp (recv_elems n (S i) dst opcode ctx msg) (fun _ s' evs => bindings s' = bindings a /\
      dispatches a i dst (ctx_app_idx ctx) opcode msg (handled evs)) s) as Hskip.
  { intros Hno. eapply wp_mono; [apply IH; [done|lia]|]. cbv beta. intros ctx' s' evs [Hb Hd].
    split; [done|]. by apply dispatches_none. }
  destruct (elem_addressed i e dst) eqn:Had; cbn [negb]; [|apply Hskip].
  2: { intros r Hr Hg. by destruct (Hout r Hr Hg). }
  rewrite Hf. destruct (find_op (models_of e vnd) (ctx_app_idx ctx) opcode) as [[j op]|] eqn:Hfind.
  2: { apply Hskip. intros r Hr Hg. destruct (Hout r Hr Hg) as (_ & op & ? & _). done. }
  destruct (decide (length msg < op_min_len op)%nat) as [Hlt|Hge].
  { apply Hskip. intros r Hr Hg. destruct (Hout r Hr Hg) as (_ & op' & Heq & Hlen & _).
    injection Heq as _ <-. lia. }
  wp_step. apply wp_emit. wp_step. eapply wp_mono; [apply handler_plain|]. cbv beta.
  intros ctx' s1 e1 (Hctx & Hb1 & Hq). eapply wp_mono; [apply (IH (S i) ctx' s1); [congruence|lia]|]. cbv beta.
  intros ctx2 s2 e2 [Hb2 Hd]. split; [done|]. rewrite Hctx in Hd.
  cbn [app]. change (handled (AHandle (mk_model_ref i vnd j) opcode ctx msg :: e1 ++ e2)) with
    ((mk_model_ref i vnd j, opcode, msg) :: handled (e1 ++ e2)).
  rewrite handled_app, (handled_quiet e1 Hq). cbn [app].
  apply dispatches_cons; [done|apply Hin with op; (done || lia)| |done].
  intros r Hr Hg. destruct (Hout r Hr Hg) as (_ & op' & Heq & _ & ->). by injection Heq as <- _.
Qed.

(** C29: which models an access message is handed to. In every element it is at
    most one: of the element's SIG models, or of its vendor models for an opcode of
    three bytes, the first in the composition that is bound to the message's key and
    has a handler for the opcode, even when others after it are bound and have one
    too; and that one gets the message only if it is as long as the handler asks,
    no other being tried. The element must be addressed ([elem_addressed]): the
    destination is its unicast address, or a group or virtual address that some
    model of the element is subscribed to (not necessarily the one that gets the
    message), or, for the first element alone, a fixed group the node is in. The
    models are called in the order of their elements, once each, with the bytes
    after the opcode; nothing is dispatched when the opcode is malformed. The
    handlers are ones that change no bindings or subscriptions ([HandlersPlain]). *)
Theorem model_recv_dispatch rx buf a : buf <> [] ->
  exists ctx a' evs, bt_mesh_model_recv rx buf a = Some (ctx, a', evs) /\ bindings a' = bindings a /\
  match get_opcode buf with
  | Ok (opcode, msg) =>
      dispatches a 0 (rx_dst rx) (ctx_app_idx (rx_ctx rx)) opcode msg (handled evs)
  | _ => evs = []
  end.
Proof.
  intros Hne. unfold bt_mesh_model_recv. destruct (get_opcode buf) as [[opcode msg]|e|] eqn:Hop.
  - destruct (wp_inv _ _ _ (recv_elems_dispatches a (rx_dst rx) opcode msg (length (ac_elems a)) 0
      (rx_ctx rx) a eq_refl eq_refl)) as (ctx & a' & evs & Hrun & Hb & Hd).
    exists ctx, a', evs. split; [|done]. by rewrite (stm_bind_pure _ _ a a a).
  - by exists (rx_ctx rx), a, [].
  - revert Hop. destruct buf as [|b buf]; [done|]. unfold get_opcode. repeat case_match; congruence.
Qed.
End recv.

(** ** Publications *)

Definition sends (evs : list acc_event) : list (net_tx * bytes) :=
  omap (fun e => match e with ATransSend tx msg _ => Some (tx, msg) | _ => None end) evs.
Definition delays (r : model_ref) (evs : list acc_event) : list Z :=
  omap (fun e => match e with
                 | ATimerSubmit r' d => if decide (r' = r) then Some d else None
                 | _ => None
                 end) evs.

Lemma sends_app a b : sends (a ++ b) = sends a ++ sends b.
Proof. unfold sends. by rewrite omap_app. Qed.
Lemma delays_app r a b : delays r (a ++ b) = delays r a ++ delays r b.
Proof. unfold delays. by rewrite omap_app. Qed.

Section publish.
Context {env : AccEnv} (r : model_ref) (src : Z).

(** A publication to its end: each transmission is reported as sent, and the
    timer fires while retransmissions are left. [n] bounds the rounds. *)
Fixpoint pub_rounds (n : nat) : A unit :=
  match n with
  | O => stm_undef
  | S n =>
      publish_sent r ;;
      p <- get_pub r ;;
      p <- stm_of_option p ;;
      if pub_count p =? 0 then mret tt else mod_publish r ;; pub_rounds n
  end.
Definition publication : A Z :=
  err <- bt_mesh_model_publish r ;;
  (if err =? 0 then pub_rounds 8 else mret tt) ;; mret err.

(** Model [r] of an element with address [src] has the publication [p]. *)
Definition has_pub (p : model_pub) (a : access) : Prop :=
  (exists e, ac_elems a !! mr_elem r = Some e /\ el_addr e = src) /\
  exists m, get_model a r = Some m /\ md_pub m = Some p.

Lemma has_pub_alter p f a : has_pub p a ->
  has_pub (f p) (alter_model (fun m => m <| md_pub := f <$> md_pub m |>) r a).
Proof.
  intros [(e & He & Hsrc) (m & Hm & Hp)]. unfold get_model in Hm. rewrite He in Hm. cbn in Hm.
  set (g := fun m => m <| md_pub := f <$> md_pub m |>).
  set (e' := if mr_vnd r then e <| el_vnd_models := alter g (mr_idx r) (el_vnd_models e) |>
    else e <| el_models := alter g (mr_idx r) (el_models e) |>).
  assert (ac_elems (alter_model g r a) !! mr_elem r = Some e') as He'.
  { change (ac_elems (alter_model g r a)) with (alter (fun e =>
      if mr_vnd r then e <| el_vnd_models := alter g (mr_idx r) (el_vnd_models e) |>
      else e <| el_models := alter g (mr_idx r) (el_models e) |>) (mr_elem r) (ac_elems a)).
    by rewrite list_lookup_alter_eq, He. }
  split; [exists e'; split; [done|]; unfold e'; by destruct (mr_vnd r)|].
  exists (g m). split; [|unfold g; by change (f <$> md_pub m = Some (f p)); rewrite Hp].
  unfold get_model. rewrite He'. cbn. unfold e', models_of in *.
  destruct (mr_vnd r); [change (alter g (mr_idx r) (el_vnd_models e) !! mr_idx r = Some (g m))|
    change (alter g (mr_idx r) (el_models e) !! mr_idx r = Some (g m))]; by rewrite list_lookup_alter_eq, Hm.
Qed.

Lemma wp_get_pub p a (Q : option model_pub -> access -> list acc_event -> Prop) :
  has_pub p a -> Q (Some p) a [] -> stm_wp (get_pub r) Q a.
Proof.
  intros [_ (m & Hm & Hp)] HQ. unfold get_pub. wp_steps. apply wp_of_option with m; [done|].
  wp_steps. by rewrite Hp.
Qed.

Lemma wp_mod_pub p f a (Q : unit -> access -> list acc_event -> Prop) : has_pub p a ->
  (forall a', has_pub (f p) a' -> Q tt a' []) -> stm_wp (mod_pub r f) Q a.
Proof. intros Hp HQ. apply wp_modify, HQ. by apply has_pub_alter. Qed.

Lemma wp_elem_addr p a (Q : Z -> access -> list acc_event -> Prop) :
  has_pub p a -> Q src a [] -> stm_wp (elem_addr r) Q a.
Proof.
  intros [(e & He & <-) _] HQ. unfold elem_addr. wp_steps. by apply wp_of_option with e.
Qed.

Lemma wp_timer_submit p d a (Q : unit -> access -> list acc_event -> Prop) : has_pub p a ->
  (forall a', has_pub (p <| pub_timer := Some d |>) a' -> Q tt a' [ATimerSubmit r d]) ->
  stm_wp (timer_submit r d) Q a.
Proof.
  intros Hp HQ. unfold timer_submit. wp_step. apply wp_emit.
  eapply wp_mod_pub; [done|]. intros a' Ha'. by apply HQ.
Qed.

Lemma wp_timer_cancel p a (Q : unit -> access -> list acc_event -> Prop) : has_pub p a ->
  (forall a', has_pub (p <| pub_timer := None |>) a' -> Q tt a' [ATimerCancel r]) ->
  stm_wp (timer_cancel r) Q a.
Proof.
  intros Hp HQ. unfold timer_cancel. wp_step. apply wp_emit.
  eapply wp_mod_pub; [done|]. intros a' Ha'. by apply HQ.
Qed.

(** A publication that can be sent: the stack takes every message and calls
    the end callback later. *)
Record pub_ready (p : model_pub) (key : app_key) (sub : nat) : Prop := {
  pr_up : is_provisioned = true;
  pr_addr : pub_addr p <> BT_MESH_ADDR_UNASSIGNED;
  pr_key : bt_mesh_app_key_find acc_net (pub_key p) = Some key;
  pr_sub : bt_mesh_subnet_get acc_net (app_net_idx key) = Some sub;
  pr_len : (length (pub_msg p) + 4 <= BT_MESH_TX_SDU_MAX)%nat;
  pr_byte : is_byte (pub_retransmit p);
  pr_idle : pub_count p = 0 -> pub_timer p = None;
  pr_send : forall tx msg room, trans_send tx msg room = (0, None)
}.

(** [p0] with [c] retransmissions left. *)
Definition pub_left (p0 : model_pub) (c : Z) (t : option Z) : model_pub :=
  p0 <| pub_count := c |> <| pub_timer := t |>.

Context (p0 : model_pub) (key : app_key) (sub : nat) (Hready : pub_ready p0 key sub).

Lemma transmit_int_pos : BT_MESH_PUB_TRANSMIT_INT (pub_retransmit p0) <> 0.
Proof.
  pose proof (pr_byte _ _ _ Hready) as [Hlo _]. unfold BT_MESH_PUB_TRANSMIT_INT.
  pose proof (proj2 (Z.shiftr_nonneg (pub_retransmit p0) 3) Hlo). lia.
Qed.

Definition pub_send : net_tx * bytes :=
  (pub_tx p0 src (app_net_idx key) (app_app_idx key) sub, pub_msg p0).

Lemma wp_do_send cb a (Q : Z -> access -> list acc_event -> Prop) :
  Q 0 a [ATransSend (fst pub_send) (snd pub_send) (sdu_room (pub_msg p0))] ->
  stm_wp (do_trans_send (fst pub_send) (snd pub_send) (sdu_room (pub_msg p0)) cb) Q a.
Proof.
  intros HQ. unfold do_trans_send. wp_step. apply wp_emit. rewrite (pr_send _ _ _ Hready).
  wp_steps. exact HQ.
Qed.

(** One retransmission. *)
Lemma wp_retransmit c t a (Q : unit -> access -> list acc_event -> Prop) :
  0 < c < 8 -> has_pub (pub_left p0 c t) a ->
  (forall a', has_pub (pub_left p0 (c - 1) None) a' ->
    Q tt a' [ATransSend (fst pub_send) (snd pub_send) (sdu_room (pub_msg p0))]) ->
  stm_wp (mod_publish r) Q a.
Proof.
  intros Hc Ha HQ. pose proof (pr_len _ _ _ Hready) as Hl. unfold mod_publish.
  wp_step. eapply wp_mod_pub; [exact Ha|]. intros a1 Ha1. cbv beta.
  wp_step. eapply wp_get_pub; [exact Ha1|]. cbn [stm_of_option]. wp_step. apply wp_ret. cbv beta.
  change (pub_count (_ <| pub_timer := None |>)) with c.
  rewrite (proj2 (Z.eqb_neq c 0)) by lia. cbn [negb]. wp_step. unfold publish_retransmit.
  wp_step. eapply wp_get_pub; [exact Ha1|]. cbn [stm_of_option]. wp_step. apply wp_ret. cbv beta.
  wp_step. eapply wp_elem_addr; [exact Ha1|]. cbv beta.
  change (pub_key ((pub_left p0 c t) <| pub_timer := None |>)) with (pub_key p0).
  rewrite (pr_key _ _ _ Hready), (pr_sub _ _ _ Hready).
  change (pub_msg ((pub_left p0 c t) <| pub_timer := None |>)) with (pub_msg p0).
  rewrite decide_False by lia. wp_step. eapply wp_mod_pub; [exact Ha1|]. intros a2 Ha2. cbv beta.
  apply wp_do_send. wp_steps. cbn [app]. apply HQ.
  assert ((c - 1) mod 8 = c - 1) as Hm by (apply Z.mod_small; lia).
  change (has_pub (pub_left p0 ((c - 1) mod 8) None) a2) in Ha2. by rewrite Hm in Ha2.
Qed.

Definition last_delay : list Z := if next_period p0 =? 0 then [] else [next_period p0].
Definition last_timer : option Z := if next_period p0 =? 0 then None else Some (next_period p0).

Lemma pub_rounds_spec c : forall n a, (c < n)%nat -> (c < 8)%nat ->
  has_pub (pub_left p0 (Z.of_nat c) None) a ->
  stm_wp (pub_rounds n) (fun _ a' e => sends e = replicate c pub_send /\
    delays r e = replicate c (BT_MESH_PUB_TRANSMIT_INT (pub_retransmit p0)) ++ last_delay /\
    has_pub (pub_left p0 0 last_timer) a') a.
Proof.
  induction c as [|c IH]; intros [|n] a Hn H8 Ha; try lia; cbn [pub_rounds]; unfold publish_sent.
  - wp_steps. eapply wp_get_pub; [exact Ha|]. cbn [stm_of_option]. wp_steps.
    change (next_period (pub_left p0 0 None)) with (next_period p0). unfold last_delay, last_timer.
    change (negb (pub_count (pub_left p0 (Z.of_nat 0) None) =? 0)) with false. cbv iota beta.
    destruct (next_period p0 =? 0) eqn:Hnp; change (next_period (pub_left p0 (Z.of_nat 0) None)) with (next_period p0);
      rewrite Hnp; cbn [negb].
    + wp_steps. eapply wp_get_pub; [exact Ha|]. cbn [stm_of_option]. wp_steps. by split_and!.
    + eapply wp_timer_submit; [exact Ha|]. intros a1 Ha1. wp_step. eapply wp_get_pub; [exact Ha1|].
      cbn [stm_of_option]. wp_steps. split; [done|]. split; [|exact Ha1].
      cbn. by rewrite decide_True by done.
  - set (i := BT_MESH_PUB_TRANSMIT_INT (pub_retransmit p0)) in *.
    wp_step. wp_step. eapply wp_get_pub; [exact Ha|]. cbn [stm_of_option]. wp_step. apply wp_ret. cbv beta.
    change (pub_count (pub_left p0 (Z.of_nat (S c)) None)) with (Z.of_nat (S c)).
    rewrite (proj2 (Z.eqb_neq (Z.of_nat (S c)) 0)) by lia. cbn [negb].
    change (BT_MESH_PUB_TRANSMIT_INT (pub_retransmit (pub_left p0 (Z.of_nat (S c)) None))) with i.
    rewrite (proj2 (Z.eqb_neq i 0)) by apply transmit_int_pos. cbn [negb].
    eapply wp_timer_submit; [exact Ha|]. intros a1 Ha1. wp_step. eapply wp_get_pub; [exact Ha1|].
    cbn [stm_of_option]. wp_step. apply wp_ret. cbv beta.
    change (pub_count ((pub_left p0 (Z.of_nat (S c)) None) <| pub_timer := Some i |>)) with (Z.of_nat (S c)).
    rewrite (proj2 (Z.eqb_neq (Z.of_nat (S c)) 0)) by lia. wp_step.
    apply (wp_retransmit (Z.of_nat (S c)) (Some i)); [lia|exact Ha1|]. intros a2 Ha2.
    replace (Z.of_nat (S c) - 1) with (Z.of_nat c) in Ha2 by lia.
    eapply wp_mono; [apply (IH n a2); [lia|lia|exact Ha2]|]. cbv beta. intros _ a3 e (Hsend & Hdel & Ha3).
    cbn [app]. split; [|split; [|done]].
    + change (sends (ATimerSubmit r i :: ATransSend (fst pub_send) (snd pub_send) (sdu_room (pub_msg p0)) :: e))
        with (pub_send :: sends e). by rewrite Hsend.
    + cbn. rewrite decide_True by done. f_equal. exact Hdel.
Qed.

Lemma transmit_count : 0 <= BT_MESH_PUB_TRANSMIT_COUNT (pub_retransmit p0) < 8.
Proof. unfold BT_MESH_PUB_TRANSMIT_COUNT. change 7 with (Z.ones 3). rewrite Z.land_ones by lia. word_lia. Qed.

Lemma wp_publish a (Q : Z -> access -> list acc_event -> Prop) : has_pub p0 a ->
  (forall a' e, has_pub (pub_left p0 (BT_MESH_PUB_TRANSMIT_COUNT (pub_retransmit p0)) None) a' ->
    sends e = [pub_send] -> delays r e = [] -> Q 0 a' e) ->
  stm_wp (bt_mesh_model_publish r) Q a.
Proof.
  intros Ha HQ. pose proof (pr_len _ _ _ Hready) as Hl. unfold bt_mesh_model_publish.
  wp_step. eapply wp_get_pub; [exact Ha|]. wp_step. eapply wp_elem_addr; [exact Ha|]. cbv beta.
  rewrite (proj2 (Z.eqb_neq _ _) (pr_addr _ _ _ Hready)), (pr_key _ _ _ Hready).
  rewrite decide_False by lia. rewrite (pr_sub _ _ _ Hready).
  set (cnt := BT_MESH_PUB_TRANSMIT_COUNT (pub_retransmit p0)) in *.
  wp_step. apply (wp_mono _ (fun _ a1 e1 => has_pub (p0 <| pub_timer := None |>) a1 /\ sends e1 = [] /\ delays r e1 = [])).
  { destruct (Z.eqb_spec (pub_count p0) 0) as [Hz|]; cbn [negb].
    - apply wp_ret. split; [|done]. pose proof (pr_idle _ _ _ Hready Hz) as Ht.
      replace (p0 <| pub_timer := None |>) with p0; [done|]. destruct p0. cbn in *. by subst.
    - eapply wp_timer_cancel; [exact Ha|]. intros a1 Ha1. by split. }
  cbv beta. intros _ a1 e1 (Ha1 & Hs1 & Hd1). wp_step. eapply wp_mod_pub; [exact Ha1|]. intros a2 Ha2.
  wp_step. unfold model_send. rewrite (pr_up _ _ _ Hready). cbn [negb].
  unfold sdu_room at 1. rewrite (proj2 (Z.ltb_ge _ _)) by lia. rewrite decide_False by lia.
  pose proof (proj2 Ha2) as (m & Hm & _). wp_step. wp_step. wp_step. apply wp_of_option with m; [done|].
  cbn [negb andb]. apply wp_do_send. change (0 =? 0) with true. cbn [negb]. wp_steps.
  apply HQ; [exact Ha2| |].
  - rewrite !sends_app, Hs1. reflexivity.
  - rewrite !delays_app, Hd1. reflexivity.
Qed.

(** C30: a publication comes to an end: whatever its period, the message is
    transmitted once and then exactly as often as the retransmit count says,
    each time the same message to the same destination; the retransmissions
    follow each other at the retransmit interval, and afterwards the timer runs
    only if the model publishes periodically, to the end of the period. *)
Theorem publication_ends a : has_pub p0 a ->
  let cnt := Z.to_nat (BT_MESH_PUB_TRANSMIT_COUNT (pub_retransmit p0)) in
  exists a' evs, publication a = Some (0, a', evs) /\
    sends evs = replicate (S cnt) pub_send /\
    delays r evs = replicate cnt (BT_MESH_PUB_TRANSMIT_INT (pub_retransmit p0)) ++ last_delay /\
    has_pub (pub_left p0 0 last_timer) a'.
Proof.
  intros Ha cnt.
  assert (stm_wp publication (fun err a' evs => err = 0 /\ sends evs = replicate (S cnt) pub_send /\
    delays r evs = replicate cnt (BT_MESH_PUB_TRANSMIT_INT (pub_retransmit p0)) ++ last_delay /\
    has_pub (pub_left p0 0 last_timer) a') a) as Hwp.
  { unfold publication. wp_step. apply wp_publish; [done|]. intros a1 e1 Ha1 Hs1 Hd1.
    change (0 =? 0) with true. cbv iota. wp_step. pose proof transmit_count as Hc.
    rewrite <- (Z2Nat.id (BT_MESH_PUB_TRANSMIT_COUNT (pub_retransmit p0))) in Ha1 by lia.
    fold cnt in Ha1. eapply wp_mono; [apply (pub_rounds_spec cnt 8 a1); [unfold cnt; lia|unfold cnt; lia|exact Ha1]|].
    cbv beta. intros _ a2 e2 (Hs2 & Hd2 & Ha2). apply wp_ret. rewrite app_nil_r.
    split; [done|]. rewrite sends_app, delays_app, Hs1, Hd1, Hs2, Hd2. by split_and!. }
  destruct (wp_inv _ _ _ Hwp) as (err & a' & evs & Hrun & -> & H). eauto.
Qed.
End publish.

(** ** A node with two elements *)

Definition sample_acc_net : mesh_net :=
  (bt_mesh_init_state 1) <| subs := [unused_subnet <| sub_net_idx := 0 |>] |>
    <| app_keys := [mk_app_key 0 3 false true (0x12, replicate 16 3) (0, replicate 16 0)] |>.
#[local] Instance sample_acc_env : AccEnv :=
  {| acc_net := sample_acc_net; is_provisioned := true; uptime_32 := 5000; net_transmit := 0;
     friend_get := 0; relay_state := 1; trans_send _ _ _ := (0, None);
     handler _ _ ctx _ := mret ctx; update _ := mret 0; has_init _ := false |}.
#[local] Instance sample_handlers_plain : HandlersPlain sample_acc_env.
Proof. split. intros r op ctx msg a. by split. Qed.

Definition sample_pub : model_pub :=
  mk_model_pub 0xc000 3 5 0x0a 0x05 0 false 0 4800 [0x82; 0x04; 1] true None.
Definition sample_onoff : model :=
  mk_model 0 0x1000 (Some sample_pub) [3; BT_MESH_KEY_UNUSED] [0xc000] [mk_model_op 0x8202 2].
Definition sample_level : model :=
  mk_model 0 0x1002 None [3; BT_MESH_KEY_UNUSED] [0xc000] [mk_model_op 0x8202 1; mk_model_op 0x8206 3].
Definition sample_comp : access :=
  mk_access [mk_elem 2 [sample_onoff; sample_level] []; mk_elem 3 [sample_level] []] 2.
Definition sample_acc_rx : net_rx :=
  mk_rx 0 (mk_ctx 0 3 1 5 7 false) 9 0xc000 false false false false IF_ADV true false 0.

Lemma model_recv_dispatch_witness :
  exists ctx a' evs,
    bt_mesh_model_recv sample_acc_rx [0x82; 0x02; 1; 9] sample_comp = Some (ctx, a', evs) /\
    bindings a' = bindings sample_comp /\
    dispatches sample_comp 0 0xc000 3 0x8202 [1; 9] (handled evs) /\
    handled evs = [(mk_model_ref 0 false 0, 0x8202, [1; 9]); (mk_model_ref 1 false 0, 0x8202, [1; 9])].
Proof.
  destruct (model_recv_dispatch sample_acc_rx [0x82; 0x02; 1; 9] sample_comp ltac:(discriminate))
    as (ctx & a' & evs & Hrun & Hb & Hd).
  exists ctx, a', evs. split; [exact Hrun|]. split; [exact Hb|]. split; [exact Hd|].
  vm_compute in Hrun. by injection Hrun as _ _ <-.
Defined.

Lemma sample_pub_ready :
  pub_ready sample_pub (mk_app_key 0 3 false true (0x12, replicate 16 3) (0, replicate 16 0)) 0.
Proof. split; try reflexivity; (discriminate || cbn; lia || unfold is_byte; cbn; lia). Qed.

Lemma publication_ends_witness :
  exists a' evs, publication (mk_model_ref 0 false 0) sample_comp = Some (0, a', evs) /\
    length (sends evs) = 3%nat /\ delays (mk_model_ref 0 false 0) evs = [100; 100; 300].
Proof.
  destruct (publication_ends (mk_model_ref 0 false 0) 2 sample_pub
    (mk_app_key 0 3 false true (0x12, replicate 16 3) (0, replicate 16 0)) 0 sample_pub_ready sample_comp)
    as (a' & evs & Hrun & Hs & Hd & _).
  - split; [by exists (mk_elem 2 [sample_onoff; sample_level] [])|by exists sample_onoff].
  - exists a', evs. split; [exact Hrun|]. rewrite Hs, Hd. split; reflexivity.
Defined.
