(* ===== verification/Beacon.v ===== *)
(** * Beacons (bt_mesh/src/beacon.c)

    Secure network beacons: creation, authentication, their effect on the IV
    index and the key refresh state, and the beacon timer; unprovisioned device
    beacons. *)

From S2P Require Import Prelude NetBuf Cmac Ccm MeshCrypto NetState NetIv Net.

Definition BEACON_TYPE_UNPROVISIONED : Z := 0x00.
Definition BEACON_TYPE_SECURE : Z := 0x01.
Definition K_SECONDS (s : Z) : Z := s * 1000.
Definition UNPROV_XMIT_COUNT : Z := 4.
Definition UNPROV_XMIT_INT : Z := 20.
Definition PROV_XMIT_COUNT : Z := 3.
Definition PROV_XMIT_INT : Z := 20.
Definition PROVISIONED_INTERVAL : Z := K_SECONDS 10.
Definition BT_MESH_BEACON_DISABLED : Z := 0.
Definition BT_MESH_BEACON_ENABLED : Z := 1.
Definition BT_MESH_KEY_PRIMARY : Z := 0.
Definition BT_MESH_PROV_OOB_URI : Z := 2.

(** [bt_mesh] and the static data of beacon.c. *)
Record beacons := mk_beacons {
  bc_net : mesh_net;
  bc_first_half : bool;
  bc_interval : Z
}.
#[export] Instance beacons_settable : Settable beacons.
Proof. settable (fun b => mk_beacons (bc_net b) (bc_first_half b) (bc_interval b)). Defined.

(** [unprov_beacon_interval] starts at 500 ms. *)
Definition beacons_init (m : mesh_net) : beacons := mk_beacons m false 500.

Inductive adv_kind := ADV_BEACON | ADV_URI.
Inductive beacon_event :=
| BAdv (kind : adv_kind) (count interval : Z) (data : bytes)
| BTimerSubmit (delay : Z)
| BWorkSubmit
| BTimerCancel
| BIvuTimer (t : ivu_timer)
| BSecUpdate (sub : option nat)
| BLinkOpen (uuid : bytes).

Abbreviation B := (stm beacons beacon_event).

Class BeaconEnv := {
  (** [k_uptime_get_32()] and [k_uptime_get()]. *)
  b_now_32 : Z;
  b_now : Z;
  b_tx_in_progress : bool;
  (** [bt_mesh_adv_create] succeeds for the beacon of subnet [i], or for the
      [i]th buffer of an unprovisioned beacon. *)
  b_adv_ok : nat -> bool;
  b_provisioned : bool;
  b_prov_active : bool;
  (** [bt_mesh_beacon_get()]. *)
  beacon_get : Z;
  (** The build: CONFIG_BT_MESH_ROLE_PROVISIONER, CONFIG_BT_MESH_PB_ADV. *)
  role_provisioner : bool;
  pb_adv : bool;
  is_provisioning : bool;
  (** [struct bt_mesh_prov]: UUID, OOB information and URI. *)
  prov_uuid : bytes;
  prov_oob_info : Z;
  prov_uri : option bytes;
  (** Room of an advertising buffer. *)
  adv_room : nat
}.

Section beacon.
Context {cfg : MeshConfig} {env : BeaconEnv}.

Definition b_net : B mesh_net := b <- stm_get ;; mret (bc_net b).
Definition b_set (m : mesh_net) : B unit := stm_modify (fun b => b <| bc_net := m |>).
Definition b_mod_sub (i : nat) (f : subnet -> subnet) : B unit :=
  stm_modify (fun b => b <| bc_net := set_sub (bc_net b) i f |>).

Definition unprov_beacon_interval_get : B Z := b <- stm_get ;; mret (bc_interval b).
Definition unprov_beacon_interval_set (delay : Z) : B unit :=
  stm_modify (fun b => b <| bc_interval := delay |>).

(** ** The cache of the last authentic beacon of each subnet *)

Definition cache_check (m : mesh_net) (data : bytes) : option nat :=
  find_index (fun s => negb (sub_net_idx s =? BT_MESH_KEY_UNUSED) &&
                       bool_decide (sub_beacon_cache s = take 21 data)) (subs m).
Definition cache_add (i : nat) (data : bytes) : B unit :=
  b_mod_sub i (fun s => s <| sub_beacon_cache := take 21 data |>).

(** ** Sending *)

Definition beacon_complete (i : nat) : B unit :=
  b_mod_sub i (fun s => s <| sub_beacon_sent := b_now_32 |>).

Definition beacon_body (flags : Z) (keys : subnet_keys) (iv : Z) (auth : bytes) : bytes :=
  BEACON_TYPE_SECURE :: u8 flags :: take 8 (k_net_id keys) ++ sys_put_be32 iv ++ take 8 auth.

Definition bt_mesh_beacon_create (m : mesh_net) (sub : subnet) : bytes :=
  let keys := if sub_kr_flag sub then if CONFIG_CFG_CLI then sub_key0 sub else sub_key1 sub
              else sub_key0 sub in
  beacon_body (bt_mesh_net_flags m (Some sub)) keys (iv_index m) (sub_auth sub).

Definition bt_mesh_beacon_create_with_flag (m : mesh_net) (sub : subnet) (kr iv : Z) : bytes :=
  let keys := if sub_kr_flag sub then sub_key1 sub else sub_key0 sub in
  let flags := if negb (kr =? 0) then BT_MESH_NET_FLAG_KR else 0 in
  let flags := if negb (iv =? 0) then Z.lor flags BT_MESH_NET_FLAG_IVU else flags in
  beacon_body flags keys (iv_index m) (sub_auth sub).

Definition BEACON_THRESHOLD (sub : subnet) : Z :=
  K_SECONDS (10 * (sub_beacons_last sub + 1)) - K_SECONDS 5.

Definition beacon_due (sub : subnet) : bool :=
  let time_diff := u32 (b_now_32 - sub_beacon_sent sub) in
  negb ((time_diff <? K_SECONDS 600) && (time_diff <? BEACON_THRESHOLD sub)).

(** The loop over the subnets, [i] the index of the first one left; [create]
    makes the beacon. *)
Fixpoint beacon_send_from (create : mesh_net -> subnet -> bytes) (n i : nat) : B Z :=
  match n with
  | O => mret 0
  | S n =>
      m <- b_net ;;
      sub <- stm_of_option (subs m !! i) ;;
      if (sub_net_idx sub =? BT_MESH_KEY_UNUSED) || negb (beacon_due sub) then
        beacon_send_from create n (S i)
      else if negb (b_adv_ok i) then mret (- ENOBUFS)
      else
        stm_emit [BAdv ADV_BEACON PROV_XMIT_COUNT PROV_XMIT_INT (create m sub)] ;;
        beacon_send_from create n (S i)
  end.
Definition secure_beacon_send : B Z :=
  m <- b_net ;; beacon_send_from bt_mesh_beacon_create (length (subs m)) 0.
Definition secure_beacon_send_with_flag (kr iv : Z) : B Z :=
  m <- b_net ;;
  beacon_send_from (fun m sub => bt_mesh_beacon_create_with_flag m sub kr iv) (length (subs m)) 0.

Definition unprovisioned_beacon_send : B Z :=
  if negb pb_adv then mret 0
  else if negb (b_adv_ok 0) then mret (- ENOBUFS)
  else
    let '(uri_hash, oob) :=
      match prov_uri with
      | Some uri => match bt_mesh_s1 uri with
                    | Ok h => (h, Z.lor prov_oob_info BT_MESH_PROV_OOB_URI)
                    | _ => (replicate 16 0, prov_oob_info)
                    end
      | None => (replicate 16 0, prov_oob_info)
      end in
    stm_emit [BAdv ADV_BEACON UNPROV_XMIT_COUNT UNPROV_XMIT_INT
      (BEACON_TYPE_UNPROVISIONED :: take 16 prov_uuid ++ sys_put_be16 oob ++ take 4 uri_hash)] ;;
    match prov_uri with
    | None => mret 0
    | Some uri =>
        if negb (b_adv_ok 1) then mret (- ENOBUFS)
        else
          (if decide (adv_room < length uri)%nat then mret tt
           else stm_emit [BAdv ADV_URI UNPROV_XMIT_COUNT UNPROV_XMIT_INT uri]) ;;
          mret 0
    end.

(** ** The beacon timer *)

Definition update_beacon_observation : B unit :=
  b <- stm_get ;;
  let first_half := negb (bc_first_half b) in
  stm_modify (fun b => b <| bc_first_half := first_half |>) ;;
  if first_half then mret tt
  else
    stm_modify (fun b => b <| bc_net := (bc_net b) <| subs :=
      map (fun s => if sub_net_idx s =? BT_MESH_KEY_UNUSED then s
                    else s <| sub_beacons_last := sub_beacons_cur s |> <| sub_beacons_cur := 0 |>)
        (subs (bc_net b)) |> |>).

(** [IS_ENABLED(CONFIG_BT_MESH_PROV)] holds in every build. *)
Definition beacon_send : B unit :=
  if b_prov_active then
    t <- unprov_beacon_interval_get ;; stm_emit [BTimerSubmit t]
  else if b_provisioned then
    update_beacon_observation ;;
    secure_beacon_send ;;
    m <- b_net ;;
    if (beacon_get =? BT_MESH_BEACON_ENABLED) || ivu_initiator m then
      stm_emit [BTimerSubmit PROVISIONED_INTERVAL]
    else mret tt
  else
    (if role_provisioner then mret 0 else unprovisioned_beacon_send) ;;
    t <- unprov_beacon_interval_get ;; stm_emit [BTimerSubmit t].

Definition bt_mesh_beacon_ivu_initiator (enable : bool) : B unit :=
  stm_modify (fun b => b <| bc_net := (bc_net b) <| ivu_initiator := enable |> |>) ;;
  if enable then stm_emit [BWorkSubmit]
  else if beacon_get =? BT_MESH_BEACON_DISABLED then stm_emit [BTimerCancel]
  else mret tt.

Definition bt_mesh_beacon_enable : B unit :=
  if negb b_provisioned then stm_emit [BWorkSubmit]
  else
    stm_modify (fun b =>
      let m := bc_net b in
      b <| bc_net := m <| subs :=
        map (fun s => if sub_net_idx s =? BT_MESH_KEY_UNUSED then s
                      else bt_mesh_net_beacon_update m
                             (s <| sub_beacons_last := 0 |> <| sub_beacons_cur := 0 |>)) (subs m) |> |>) ;;
    stm_emit [BWorkSubmit].

Definition bt_mesh_beacon_disable : B unit :=
  m <- b_net ;; if negb (ivu_initiator m) then stm_emit [BTimerCancel] else mret tt.

(** ** Receiving *)

(** The [update_stats] label. *)
Definition beacon_stats (i : nat) : B unit :=
  if beacon_get =? BT_MESH_BEACON_ENABLED then
    b_mod_sub i (fun s => if sub_beacons_cur s <? 0xff
                          then s <| sub_beacons_cur := sub_beacons_cur s + 1 |> else s)
  else mret tt.

(** An authentic beacon of subnet [i] that may change the state. *)
Definition beacon_apply (i : nat) (flags iv : Z) (new_key : bool) : B unit :=
  m <- b_net ;;
  (if ivu_initiator m && bool_decide (iv_update m = BT_MESH_IV_UPDATE flags) then
     bt_mesh_beacon_ivu_initiator false else mret tt) ;;
  m <- b_net ;;
  let '(iv_change, m, t) := bt_mesh_net_iv_update b_now b_tx_in_progress m iv (BT_MESH_IV_UPDATE flags) in
  b_set m ;; stm_emit [BIvuTimer t] ;;
  let '(kr_change, m) := bt_mesh_kr_update m i (BT_MESH_KEY_REFRESH flags) new_key in
  let m := if kr_change then set_sub m i (bt_mesh_net_beacon_update m) else m in
  b_set m ;;
  if iv_change then stm_emit [BSecUpdate None]
  else if kr_change then stm_emit [BSecUpdate (Some i)]
  else mret tt.

Definition secure_beacon_recv (buf : bytes) : B unit :=
  if decide (length buf < 21)%nat then mret tt
  else
    m <- b_net ;;
    match cache_check m buf with
    | Some i => beacon_stats i
    | None =>
        let flags := byte_at buf 0 in
        let net_id := take 8 (drop 1 buf) in
        let iv := sys_get_be32 (drop 9 buf) in
        let auth := take 8 (drop 13 buf) in
        match bt_mesh_subnet_find m net_id flags iv auth with
        | None => mret tt
        | Some (i, new_key) =>
            sub <- stm_of_option (subs m !! i) ;;
            if (sub_kr_phase sub =? BT_MESH_KR_PHASE_2) && negb new_key then mret tt
            else
              cache_add i buf ;;
              (if bool_decide (is_Some (bt_mesh_subnet_get m BT_MESH_KEY_PRIMARY)) &&
                  negb (sub_net_idx sub =? BT_MESH_KEY_PRIMARY) then mret tt
               else beacon_apply i flags iv new_key) ;;
              beacon_stats i
        end
    end.

(** [provisioner_link_open] is given a pointer to what is left of the beacon and
    reads 16 bytes of it, whatever its length. *)
Definition bt_mesh_beacon_recv (buf : bytes) : B unit :=
  match buf with
  | [] => mret tt
  | type :: buf =>
      if type =? BEACON_TYPE_UNPROVISIONED then
        if role_provisioner && negb is_provisioning then
          if decide (length buf < 16)%nat then stm_undef else stm_emit [BLinkOpen (take 16 buf)]
        else mret tt
      else if type =? BEACON_TYPE_SECURE then secure_beacon_recv buf
      else mret tt
  end.
End beacon.

(** ** Beacons and their receivers *)

Section recv.
#[local] Opaque MeshSpec.mac.
Context {cfg : MeshConfig} {env : BeaconEnv}.

(** The key a subnet's beacons are authenticated with. *)
Definition beacon_key (sub : subnet) : subnet_keys :=
  if sub_kr_flag sub then if CONFIG_CFG_CLI then sub_key0 sub else sub_key1 sub else sub_key0 sub.

Definition beacon_keys_ok (k : subnet_keys) : Prop :=
  is_block (k_beacon k) /\ length (k_net_id k) = 8%nat /\ is_bytes (k_net_id k).

Lemma beacon_auth_defined k flags iv : beacon_keys_ok k ->
  exists auth, bt_mesh_beacon_auth (k_beacon k) flags (k_net_id k) iv = Ok auth /\
    length auth = 8%nat /\ is_bytes auth.
Proof.
  intros (Hk & Hl & Hb). unfold bt_mesh_beacon_auth.
  assert (is_bytes (u8 flags :: take 8 (k_net_id k) ++ sys_put_be32 (u32 iv))) as Hm.
  { constructor; [apply u8_byte|]. apply is_bytes_app. split; [auto with bytes|apply sys_put_be32_is_bytes]. }
  rewrite cmac_one_mac by done. eexists. split; [done|].
  destruct (mac_block _ _ Hk Hm) as [Hlen Hmb]. split; [|auto with bytes]. rewrite length_take. lia.
Qed.

(** Subnet [i] of the receiver uses the key [k], as its current key or, during a
    key refresh, as its new one; no subnet before it has a key of that
    network. *)
Definition knows_key (m : mesh_net) (i : nat) (k : subnet_keys) (new_key : bool) : Prop :=
  (exists sub, subs m !! i = Some sub /\ sub_net_idx sub <> BT_MESH_KEY_UNUSED /\
     if new_key then sub_key1 sub = k /\ k_net_id (sub_key0 sub) <> k_net_id k /\
                     sub_kr_phase sub <> BT_MESH_KR_NORMAL
     else sub_key0 sub = k) /\
  forall j sub, (j < i)%nat -> subs m !! j = Some sub -> sub_net_idx sub <> BT_MESH_KEY_UNUSED ->
    k_net_id (sub_key0 sub) <> k_net_id k /\ k_net_id (sub_key1 sub) <> k_net_id k.

Lemma auth_match_other k flags iv auth k' : k_net_id k' <> k_net_id k ->
  auth_match k' (k_net_id k) flags iv auth = false.
Proof. intros Hne. unfold auth_match. rewrite bool_decide_eq_false_2; [done|congruence]. Qed.

Lemma subnet_find_key m i k nk flags iv auth : knows_key m i k nk ->
  bt_mesh_beacon_auth (k_beacon k) flags (k_net_id k) iv = Ok auth ->
  bt_mesh_subnet_find m (k_net_id k) flags iv auth = Some (i, nk).
Proof.
  intros [(sub & Hi & Hused & Hkey) Hlow] Hauth. unfold bt_mesh_subnet_find.
  assert (auth_match k (k_net_id k) flags iv auth = true) as Hmatch.
  { unfold auth_match. rewrite Hauth, !bool_decide_eq_true_2 by done. done. }
  assert (forall ss n, ss !! n = Some sub ->
    (forall j s, (j < n)%nat -> ss !! j = Some s -> sub_net_idx s <> BT_MESH_KEY_UNUSED ->
      k_net_id (sub_key0 s) <> k_net_id k /\ k_net_id (sub_key1 s) <> k_net_id k) ->
    forall i0, subnet_find_from i0 ss (k_net_id k) flags iv auth = Some ((i0 + n)%nat, nk)) as Hgen.
  { induction ss as [|s ss IH]; intros n Hn Hl i0; [done|]. cbn [subnet_find_from]. destruct n as [|n].
    - injection Hn as ->. rewrite (proj2 (Z.eqb_neq _ _) Hused), Nat.add_0_r. destruct nk.
      + destruct Hkey as (<- & Hne & Hph). rewrite auth_match_other by done.
        by rewrite (proj2 (Z.eqb_neq _ _) Hph), Hmatch.
      + subst k. by rewrite Hmatch.
    - assert (subnet_find_from (S i0) ss (k_net_id k) flags iv auth = Some ((i0 + S n)%nat, nk)) as Hrest.
      { rewrite (IH n); [do 2 f_equal; lia|done|]. intros j s' Hj Hs'. apply (Hl (S j)); [lia|done]. }
      destruct (Z.eqb_spec (sub_net_idx s) BT_MESH_KEY_UNUSED); [done|].
      destruct (Hl 0%nat s ltac:(lia) eq_refl) as [H0 H1]; [done|].
      rewrite !auth_match_other by done. by destruct (sub_kr_phase s =? BT_MESH_KR_NORMAL). }
  specialize (Hgen (subs m) i Hi Hlow 0%nat). done.
Qed.

Lemma net_flags_bits m sub :
  0 <= bt_mesh_net_flags m (Some sub) < 4 /\
  BT_MESH_KEY_REFRESH (bt_mesh_net_flags m (Some sub)) = sub_kr_flag sub /\
  BT_MESH_IV_UPDATE (bt_mesh_net_flags m (Some sub)) = iv_update m.
Proof. unfold bt_mesh_net_flags. destruct (sub_kr_flag sub), (iv_update m); vm_compute; by split. Qed.

(** What [secure_beacon_recv] reads in a beacon is what
    [bt_mesh_beacon_create] put there. *)
Lemma beacon_fields flags k iv auth : is_byte flags -> length (k_net_id k) = 8%nat ->
  0 <= iv < 4294967296 -> length auth = 8%nat ->
  let buf := drop 1 (beacon_body flags k iv auth) in
  length buf = 21%nat /\ byte_at buf 0 = flags /\ take 8 (drop 1 buf) = k_net_id k /\
  sys_get_be32 (drop 9 buf) = iv /\ take 8 (drop 13 buf) = auth.
Proof.
  intros Hf Hk Hiv Ha buf. assert (buf = flags :: k_net_id k ++ sys_put_be32 iv ++ auth) as Hbuf.
  { unfold buf, beacon_body. rewrite u8_id by done. rewrite !take_ge by lia. done. }
  clearbody buf. subst buf. set (buf := flags :: _).
  assert (drop 1 buf = k_net_id k ++ sys_put_be32 iv ++ auth) as H1 by done.
  assert (drop 9 buf = sys_put_be32 iv ++ auth) as H9.
  { change (drop 9 buf) with (drop 8 (drop 1 buf)). rewrite H1. by rewrite drop_app_length'. }
  split; [unfold buf; cbn [length]; rewrite !length_app, Hk, Ha; done|]. split; [done|].
  split; [by rewrite H1, take_app_length'|]. split; [rewrite H9; by apply sys_get_put_be32|].
  replace (drop 13 buf) with (drop 4 (drop 9 buf)) by by rewrite drop_drop.
  rewrite H9, drop_app_length' by done. by apply take_ge; lia.
Qed.

(** C31: a beacon that one node creates for a subnet reaches another node that
    has the key (as the current key of its subnet [i], or as the new one in a key
    refresh, no subnet before it having a key of that network) with its meaning
    intact: the receiver finds the subnet and whether the key was its new one,
    and what it does is exactly this. A beacon it has cached is only counted. In
    phase 2 of a key refresh a beacon under the old key is ignored. Any other
    beacon is cached and counted, and the sender's IV index, IV update flag and
    key refresh flag are applied, as sent, unless the node has the primary subnet
    and [i] is another one. *)
Theorem beacon_roundtrip m sub0 i new_key b s :
  let sub := bt_mesh_net_beacon_update m sub0 in
  let buf := drop 1 (bt_mesh_beacon_create m sub) in
  beacon_keys_ok (beacon_key sub0) -> 0 <= iv_index m < 4294967296 ->
  knows_key (bc_net b) i (beacon_key sub0) new_key -> subs (bc_net b) !! i = Some s ->
  byte_at (bt_mesh_beacon_create m sub) 0 = BEACON_TYPE_SECURE /\
  exists flags, BT_MESH_KEY_REFRESH flags = sub_kr_flag sub0 /\ BT_MESH_IV_UPDATE flags = iv_update m /\
  bt_mesh_beacon_recv (bt_mesh_beacon_create m sub) b =
  match cache_check (bc_net b) buf with
  | Some j => beacon_stats j b
  | None =>
      if (sub_kr_phase s =? BT_MESH_KR_PHASE_2) && negb new_key then Some (tt, b, [])
      else
        (cache_add i buf ;;
         (if bool_decide (is_Some (bt_mesh_subnet_get (bc_net b) BT_MESH_KEY_PRIMARY)) &&
             negb (sub_net_idx s =? BT_MESH_KEY_PRIMARY) then mret tt
          else beacon_apply i flags (iv_index m) new_key) ;;
         beacon_stats i) b
  end.
Proof.
  intros sub buf Hk Hiv Hknows Hs. split; [done|].
  set (flags := bt_mesh_net_flags m (Some sub0)).
  destruct (net_flags_bits m sub0) as (Hfl & Hkr & Hivu). exists flags. split; [done|]. split; [done|].
  destruct (beacon_auth_defined (beacon_key sub0) flags (iv_index m) Hk) as (auth & Hauth & Hla & _).
  assert (bt_mesh_beacon_create m sub = beacon_body flags (beacon_key sub0) (iv_index m) auth) as Hbody.
  { unfold sub, bt_mesh_net_beacon_update. fold flags.
    assert ((if CONFIG_CFG_CLI then sub_key0 sub0 else sub_keys sub0 (sub_kr_flag sub0)) = beacon_key sub0) as ->.
    { unfold beacon_key, sub_keys. by destruct CONFIG_CFG_CLI, (sub_kr_flag sub0). }
    rewrite Hauth. unfold bt_mesh_beacon_create, beacon_key.
    change (sub_kr_flag (sub0 <| sub_auth := auth |>)) with (sub_kr_flag sub0).
    change (sub_auth (sub0 <| sub_auth := auth |>)) with auth.
    change (bt_mesh_net_flags m (Some (sub0 <| sub_auth := auth |>))) with flags.
    by destruct (sub_kr_flag sub0), CONFIG_CFG_CLI. }
  destruct Hk as (_ & Hl8 & _).
  destruct (beacon_fields flags (beacon_key sub0) (iv_index m) auth) as (Hlen & H0 & H1 & H2 & H3);
    [unfold is_byte; lia|done|done|done|]. rewrite <- Hbody in Hlen, H0, H1, H2, H3. fold buf in Hlen, H0, H1, H2, H3.
  assert (bt_mesh_beacon_create m sub = BEACON_TYPE_SECURE :: buf) as -> by (unfold buf; by rewrite Hbody).
  cbn [bt_mesh_beacon_recv]. change (BEACON_TYPE_SECURE =? BEACON_TYPE_UNPROVISIONED) with false.
  change (BEACON_TYPE_SECURE =? BEACON_TYPE_SECURE) with true. cbv iota. unfold secure_beacon_recv.
  rewrite decide_False by lia. rewrite (stm_bind_pure _ _ b (bc_net b) b) by done.
  destruct (cache_check (bc_net b) buf) as [j|]; [done|]. rewrite H0, H1, H2, H3. cbv zeta.
  rewrite (subnet_find_key _ i _ new_key _ _ _ Hknows Hauth).
  rewrite (stm_bind_pure _ _ b s b) by by rewrite Hs.
  by destruct (_ && negb new_key).
Qed.

Definition without_stats (s : subnet) : subnet := s <| sub_beacons_cur := 0 |>.
(** The same state but for the counts of beacons heard. *)
Definition same_but_stats (m m' : mesh_net) : Prop :=
  m' = m <| subs := subs m' |> /\ map without_stats (subs m') = map without_stats (subs m).

(** [buf], after its type, is authentic under a key of subnet [i]. *)
Definition authentic (m : mesh_net) (i : nat) (buf : bytes) : Prop :=
  exists sub k, subs m !! i = Some sub /\ sub_net_idx sub <> BT_MESH_KEY_UNUSED /\
    (k = sub_key0 sub \/ k = sub_key1 sub /\ sub_kr_phase sub <> BT_MESH_KR_NORMAL) /\
    (21 <= length buf)%nat /\ take 8 (drop 1 buf) = k_net_id k /\
    bt_mesh_beacon_auth (k_beacon k) (byte_at buf 0) (k_net_id k) (sys_get_be32 (drop 9 buf)) =
      Ok (take 8 (drop 13 buf)).

Lemma auth_match_true k net_id flags iv auth : auth_match k net_id flags iv auth = true ->
  net_id = k_net_id k /\ bt_mesh_beacon_auth (k_beacon k) flags (k_net_id k) iv = Ok auth.
Proof.
  unfold auth_match. intros [H1%bool_decide_eq_true H2]%andb_true_iff. split; [done|].
  destruct (bt_mesh_beacon_auth _ _ _ _) as [a| |]; [|done..]. by apply bool_decide_eq_true in H2 as ->.
Qed.

Lemma subnet_find_authentic m flags iv net_id auth i nk :
  bt_mesh_subnet_find m net_id flags iv auth = Some (i, nk) ->
  exists sub k, subs m !! i = Some sub /\ sub_net_idx sub <> BT_MESH_KEY_UNUSED /\
    (k = sub_key0 sub \/ k = sub_key1 sub /\ sub_kr_phase sub <> BT_MESH_KR_NORMAL) /\
    net_id = k_net_id k /\ bt_mesh_beacon_auth (k_beacon k) flags (k_net_id k) iv = Ok auth.
Proof.
  unfold bt_mesh_subnet_find.
  assert (forall ss i0, subnet_find_from i0 ss net_id flags iv auth = Some (i, nk) ->
    exists n sub k, i = (i0 + n)%nat /\ ss !! n = Some sub /\ sub_net_idx sub <> BT_MESH_KEY_UNUSED /\
      (k = sub_key0 sub \/ k = sub_key1 sub /\ sub_kr_phase sub <> BT_MESH_KR_NORMAL) /\
      net_id = k_net_id k /\ bt_mesh_beacon_auth (k_beacon k) flags (k_net_id k) iv = Ok auth) as Hgen.
  { induction ss as [|s ss IH]; intros i0 H; [done|]. cbn [subnet_find_from] in H.
    assert (subnet_find_from (S i0) ss net_id flags iv auth = Some (i, nk) ->
      exists n sub k, i = (i0 + n)%nat /\ (s :: ss) !! n = Some sub /\ sub_net_idx sub <> BT_MESH_KEY_UNUSED /\
      (k = sub_key0 sub \/ k = sub_key1 sub /\ sub_kr_phase sub <> BT_MESH_KR_NORMAL) /\
      net_id = k_net_id k /\ bt_mesh_beacon_auth (k_beacon k) flags (k_net_id k) iv = Ok auth) as Hnext.
    { intros Hs. destruct (IH _ Hs) as (n & sub & k & -> & Hn & Hrest). exists (S n), sub, k.
      split; [lia|done]. }
    destruct (Z.eqb_spec (sub_net_idx s) BT_MESH_KEY_UNUSED) as [|Hused]; [by apply Hnext|].
    destruct (auth_match (sub_key0 s) net_id flags iv auth) eqn:H0.
    { injection H as <- <-. exists 0%nat, s, (sub_key0 s). apply auth_match_true in H0. rewrite Nat.add_0_r.
      split_and!; try done; [by left|apply H0|apply H0]. }
    destruct (Z.eqb_spec (sub_kr_phase s) BT_MESH_KR_NORMAL) as [|Hph]; [by apply Hnext|].
    destruct (auth_match (sub_key1 s) net_id flags iv auth) eqn:H1; [|by apply Hnext].
    injection H as <- <-. exists 0%nat, s, (sub_key1 s). apply auth_match_true in H1. rewrite Nat.add_0_r.
    split_and!; try done; [by right|apply H1|apply H1]. }
  intros H. destruct (Hgen (subs m) 0%nat H) as (n & sub & k & -> & Hrest). by exists sub, k.
Qed.

Lemma beacon_stats_run i b : exists b', beacon_stats i b = Some (tt, b', []) /\
  same_but_stats (bc_net b) (bc_net b').
Proof.
  unfold beacon_stats. case_if.
  2: { exists b. split; [done|]. split; [by destruct (bc_net b)|done]. }
  unfold b_mod_sub, stm_modify. eexists. split; [done|]. split; [done|].
  change (map without_stats (alter (fun s => if sub_beacons_cur s <? 0xff
    then s <| sub_beacons_cur := sub_beacons_cur s + 1 |> else s) i (subs (bc_net b))) =
    map without_stats (subs (bc_net b))).
  generalize (subs (bc_net b)) as l. induction i as [|i IH]; intros [|s l]; try done; cbn.
  - f_equal. by destruct (_ <? _).
  - by rewrite IH.
Qed.

Lemma beacon_apply_defined i flags iv nk b : exists b' evs, beacon_apply i flags iv nk b = Some (tt, b', evs).
Proof.
  assert (stm_ok (beacon_apply i flags iv nk) (fun _ _ => True) b) as Hok.
  { unfold beacon_apply, bt_mesh_beacon_ivu_initiator, b_net, b_set. ok_steps.
    assert (forall s, stm_ok (
      let '(iv_change, m, t) := bt_mesh_net_iv_update b_now b_tx_in_progress (bc_net s) iv (BT_MESH_IV_UPDATE flags) in
      b_set m ;; stm_emit [BIvuTimer t] ;;
      let '(kr_change, m) := bt_mesh_kr_update m i (BT_MESH_KEY_REFRESH flags) nk in
      let m := if kr_change then set_sub m i (bt_mesh_net_beacon_update m) else m in
      b_set m ;; (if iv_change then stm_emit [BSecUpdate None]
      else if kr_change then stm_emit [BSecUpdate (Some i)] else mret tt)) (fun _ _ => True) s) as Hrest.
    { intros s. destruct (bt_mesh_net_iv_update _ _ _ _ _) as [[c m] t]. unfold b_set. ok_steps.
      destruct (bt_mesh_kr_update _ _ _ _) as [kc m2]. ok_steps. repeat case_if; by ok_steps. }
    unfold b_set in Hrest. repeat case_if; ok_steps; apply Hrest. }
  destruct (wp_inv _ _ _ Hok) as ([] & b' & evs & H & _). eauto.
Qed.

(** An unprovisioned beacon whose UUID a provisioner reads past the end. *)
Definition cut_uuid (buf : bytes) : bool :=
  role_provisioner && negb is_provisioning && (byte_at buf 0 =? BEACON_TYPE_UNPROVISIONED) &&
  bool_decide (1 <= length buf < 17)%nat.

(** C32: receiving a beacon is defined for every buffer, except that a
    provisioner that is not provisioning reads past the end of an unprovisioned
    beacon with less than the 16 bytes of a UUID. Unless the beacon is authentic
    under a key of one of the node's subnets - its current key, or the new key
    of a key refresh - nothing but the count of beacons heard changes: no IV
    index, key, sequence number or replay entry. *)
Theorem beacon_authentic buf b :
  if cut_uuid buf then bt_mesh_beacon_recv buf b = None
  else exists b' evs, bt_mesh_beacon_recv buf b = Some (tt, b', evs) /\
  (same_but_stats (bc_net b) (bc_net b') \/
   exists i, byte_at buf 0 = BEACON_TYPE_SECURE /\ authentic (bc_net b) i (drop 1 buf)).
Proof.
  assert (same_but_stats (bc_net b) (bc_net b)) as Hsame by (split; [by destruct (bc_net b)|done]).
  destruct buf as [|type buf].
  { unfold cut_uuid. rewrite (bool_decide_false (1 <= _ < 17)%nat) by (cbn; lia). rewrite andb_false_r.
    by exists b, []; split; [|left]. }
  unfold bt_mesh_beacon_recv, cut_uuid. change (byte_at (type :: buf) 0) with type. cbn [length].
  destruct (Z.eqb_spec type BEACON_TYPE_UNPROVISIONED).
  { destruct (role_provisioner && negb is_provisioning); cbn [andb]; [|by exists b, []; split; [|left]].
    case_bool_decide; [by rewrite decide_True by lia|]. rewrite decide_False by lia.
    exists b, [BLinkOpen (take 16 buf)]. split; [done|by left]. }
  rewrite andb_false_r. cbn [andb].
  destruct (Z.eqb_spec type BEACON_TYPE_SECURE) as [->|]; [|by exists b, []; split; [|left]].
  unfold secure_beacon_recv. destruct (decide (length buf < 21)%nat) as [|Hlen]; [by exists b, []; split; [|left]|].
  rewrite (stm_bind_pure _ _ b (bc_net b) b) by done.
  destruct (cache_check (bc_net b) buf) as [i|].
  { destruct (beacon_stats_run i b) as (b' & Hrun & Hst). exists b', []. split; [done|by left]. }
  destruct (bt_mesh_subnet_find _ _ _ _ _) as [[i nk]|] eqn:Hfind; [|by exists b, []; split; [|left]].
  apply subnet_find_authentic in Hfind as (sub & k & Hi & Hused & Hkey & Hid & Hauth).
  rewrite (stm_bind_pure _ _ b sub b) by by rewrite Hi.
  case_if; [by exists b, []; split; [|left]|].
  assert (exists b' evs, (cache_add i buf ;;
    (if bool_decide (is_Some (bt_mesh_subnet_get (bc_net b) BT_MESH_KEY_PRIMARY)) &&
        negb (sub_net_idx sub =? BT_MESH_KEY_PRIMARY) then mret tt
     else beacon_apply i (byte_at buf 0) (sys_get_be32 (drop 9 buf)) nk) ;; beacon_stats i) b =
    Some (tt, b', evs)) as (b' & evs & Hrun).
  { set (b1 := b <| bc_net := set_sub (bc_net b) i (fun s => s <| sub_beacon_cache := take 21 buf |>) |>).
    rewrite (stm_bind_pure _ _ b tt b1) by done. unfold stm_bind.
    destruct (bool_decide _ && _); cbn [mret stm_mret].
    - unfold mret, stm_mret. destruct (beacon_stats_run i b1) as (b2 & -> & _). eauto.
    - destruct (beacon_apply_defined i (byte_at buf 0) (sys_get_be32 (drop 9 buf)) nk b1) as (b2 & e2 & ->).
      destruct (beacon_stats_run i b2) as (b3 & -> & _). eauto. }
  exists b', evs. split; [exact Hrun|]. right. exists i. split; [done|].
  change (drop 1 (BEACON_TYPE_SECURE :: buf)) with buf.
  exists sub, k. split_and!; (done || lia).
Qed.
End recv.

(** ** Two nodes of a network *)

Definition sample_beacon_keys : subnet_keys :=
  zero_keys <| k_net_id := [1; 2; 3; 4; 5; 6; 7; 8] |> <| k_beacon := replicate 16 9 |>.
Definition sample_beacon_sub : subnet :=
  unused_subnet <| sub_net_idx := 0 |> <| sub_key0 := sample_beacon_keys |>.
Definition sample_beacon_node (iv : Z) (ivu : bool) : mesh_net :=
  (bt_mesh_init_state 1) <| subs := [sample_beacon_sub] |> <| iv_index := iv |> <| iv_update := ivu |>.
Definition sample_beacon_env (now : Z) : BeaconEnv :=
  {| b_now_32 := u32 now; b_now := now; b_tx_in_progress := false; b_adv_ok _ := true;
     b_provisioned := true; b_prov_active := false; beacon_get := 1; role_provisioner := false;
     pb_adv := true; is_provisioning := false; prov_uuid := replicate 16 7; prov_oob_info := 0;
     prov_uri := None; adv_room := 29 |}.

(** The beacon of a node that has begun to update to IV index 6. *)
Definition sample_beacon : bytes :=
  let m := sample_beacon_node 6 true in
  bt_mesh_beacon_create (cfg := proxy_friend_config) m
    (bt_mesh_net_beacon_update (cfg := proxy_friend_config) m sample_beacon_sub).

(** The node's state after the beacon at the times [ts]. *)
Definition after_beacon (ts : list Z) : mesh_net :=
  bc_net (foldl (fun b t =>
    match bt_mesh_beacon_recv (cfg := proxy_friend_config)
            (env := sample_beacon_env t) sample_beacon b with
    | Some (_, b, _) => b | None => b end) (beacons_init (sample_beacon_node 5 false)) ts).

Lemma beacon_roundtrip_witness :
  let m := sample_beacon_node 6 true in
  let b := beacons_init (sample_beacon_node 5 false) in
  exists flags, BT_MESH_KEY_REFRESH flags = false /\ BT_MESH_IV_UPDATE flags = true /\
  bt_mesh_beacon_recv (cfg := proxy_friend_config)
    (env := sample_beacon_env (K_HOURS 100)) sample_beacon b =
  (cache_add 0 (drop 1 sample_beacon) ;;
   beacon_apply (cfg := proxy_friend_config) (env := sample_beacon_env (K_HOURS 100))
     0 flags 6 false ;;
   beacon_stats (env := sample_beacon_env (K_HOURS 100)) 0) b.
Proof.
  intros m b.
  assert (beacon_keys_ok sample_beacon_keys) as Hk.
  { split; [split; [reflexivity|const_bytes]|]. split; [reflexivity|const_bytes]. }
  destruct (beacon_roundtrip (cfg := proxy_friend_config)
    (env := sample_beacon_env (K_HOURS 100)) m sample_beacon_sub 0 false b sample_beacon_sub Hk) as (_ & flags & H1 & H2 & H3).
  - cbn. lia.
  - split; [exists sample_beacon_sub; split; [reflexivity|split; [discriminate|reflexivity]]|]. intros; lia.
  - reflexivity.
  - exists flags. split; [exact H1|]. split; [exact H2|]. etransitivity; [exact H3|].
    destruct (cache_check _ _) as [k|] eqn:Hc; [|reflexivity].
    exfalso. revert Hc. vm_compute. discriminate.
Defined.

(** A beacon that announces an IV update before 96 hours are over is
    refused but remembered, and once the time has come the same beacon counts
    as seen before: the node that heard it early stays on its IV index for as
    long as it is repeated, while a node that did not hear it follows. *)
Theorem early_beacon_blocks_iv_update :
  let state m := (iv_index m, iv_update m) in
  state (after_beacon [K_HOURS 100]) = (6, true) /\
  state (after_beacon [K_HOURS 50; K_HOURS 97; K_HOURS 100; K_HOURS 200]) = (5, false).
Proof. vm_compute. by split. Qed.

(** A beacon made with other flags than the node's carries an authentication
    value that does not match them: receivers drop it. *)
Example beacon_with_flag_rejected :
  let m := sample_beacon_node 5 false in
  let sub := bt_mesh_net_beacon_update (cfg := proxy_friend_config) m sample_beacon_sub in
  let buf := drop 1 (bt_mesh_beacon_create_with_flag m sub 0 1) in
  bt_mesh_subnet_find m (take 8 (drop 1 buf)) (byte_at buf 0) (sys_get_be32 (drop 9 buf))
    (take 8 (drop 13 buf)) = None.
Proof. vm_compute. reflexivity. Qed.
