(* ===== verification/Friend.v ===== *)
(** * The Friend feature (bt_mesh/src/friend.c)

    A Friend queues the messages for its Low Power nodes and hands them out one
    by one when they poll. Buffers live in [friend_buf_pool] and are named by
    their index; a friendship holds the indices of its queue, of the segments it
    collects, and of the PDU it sent last. Sending goes through the
    advertising bearer of [Adv], whose callbacks are executed here. *)

From S2P Require Import Prelude NetBuf NetPool Cmac Ccm MeshCrypto NetState NetIv Net TransState Adv Beacon.

(** ** Data (inc/net.h, inc/transport.h) *)

(** The sizes the configuration chooses; mesh_config.h has 1, 1, 3, 16. *)
Class FriendConfig := {
  FRIEND_LPN_COUNT : nat;
  FRIEND_SEG_RX : nat;
  FRIEND_SUB_LIST_SIZE : nat;
  FRIEND_QUEUE_SIZE : nat
}.
Definition default_friend_config : FriendConfig :=
  {| FRIEND_LPN_COUNT := 1; FRIEND_SEG_RX := 1; FRIEND_SUB_LIST_SIZE := 3; FRIEND_QUEUE_SIZE := 16 |}.

Definition FRIEND_RECV_WIN : Z := 255.
Definition BOARD_ADV_DELAY : Z := 100.
Definition FRIEND_SUB_MIN_LEN : nat := 3.
Definition FRIEND_ENABLED : Z := 1.

Definition FRIEND_BUF_COUNT {fcfg : FriendConfig} : nat :=
  (FRIEND_QUEUE_SIZE + 1) * FRIEND_LPN_COUNT.

(** [struct bt_mesh_friend]. *)
Record frnd := mk_frnd {
  f_lpn : Z;
  f_recv_delay : Z;
  f_fsn : Z;
  f_send_last : bool;
  f_pending_req : bool;
  f_sec_update : bool;
  f_pending_buf : bool;
  f_valid : bool;
  f_established : bool;
  f_poll_to : Z;
  f_lpn_counter : Z;
  f_counter : Z;
  f_net_idx : Z;
  f_sub_list : list Z;
  f_segs : list (list nat);
  f_last : option nat;
  f_queue : list nat;
  f_queue_size : Z;
  f_clear_start : Z;
  f_clear_frnd : Z;
  f_clear_repeat_sec : Z
}.
#[export] Instance frnd_settable : Settable frnd.
Proof.
  settable (fun f => mk_frnd (f_lpn f) (f_recv_delay f) (f_fsn f) (f_send_last f) (f_pending_req f)
    (f_sec_update f) (f_pending_buf f) (f_valid f) (f_established f) (f_poll_to f) (f_lpn_counter f)
    (f_counter f) (f_net_idx f) (f_sub_list f) (f_segs f) (f_last f) (f_queue f) (f_queue_size f)
    (f_clear_start f) (f_clear_frnd f) (f_clear_repeat_sec f)).
Defined.

(** The network context, the friend buffers with the advertising queue, and
    [bt_mesh.frnd]. [fr_sending] is the callback of the transmission the
    advertising thread is sleeping in. A callback is the friendship it is for. *)
Record friends := mk_friends {
  fr_net : mesh_net;
  fr_adv : adv nat;
  fr_list : list frnd;
  fr_sending : option (option nat)
}.
#[export] Instance friends_settable : Settable friends.
Proof. settable (fun s => mk_friends (fr_net s) (fr_adv s) (fr_list s) (fr_sending s)). Defined.

Inductive friend_event :=
| FTimerSubmit (i : nat) (delay : Z)
| FTimerCancel (i : nat)
| FClearTimerSubmit (i : nat) (delay : Z)
| FClearTimerCancel (i : nat)
| FSeqUpdate (seq : Z)
| FCtlSend (tx : net_tx) (op : Z) (data : bytes) (clear_cb : option nat)
| FAdv (e : adv_effect nat).

Abbreviation F := (stm friends friend_event).

(** [struct friend_pdu_info]; the sequence number as one number. *)
Record friend_pdu_info := mk_pdu_info {
  pi_src : Z; pi_dst : Z; pi_seq : Z; pi_ttl : Z; pi_ctl : bool; pi_iv_index : Z
}.

(** The answers of the other components. *)
Class FriendEnv := {
  f_now_32 : Z;
  f_primary : Z;
  f_net_transmit : Z;
  (** [bt_mesh_friend_get()]. *)
  f_friend_get : Z;
  f_elem_find : Z -> bool;
  (** [bt_mesh.lpn.frnd]. *)
  f_lpn_frnd : Z;
  (** What [bt_mesh_ctl_send] does to this state: it takes sequence numbers,
      and may queue the message for an LPN. *)
  f_ctl_send : net_tx -> Z -> bytes -> F unit;
  f_adv_int_min : Z
}.

Section friend.
Context {cfg : MeshConfig} {hal : SecHal} {fcfg : FriendConfig} {env : FriendEnv}.

Definition frnd_init : frnd :=
  mk_frnd 0 0 0 false false false false false false 0 0 0 BT_MESH_KEY_UNUSED
    (replicate FRIEND_SUB_LIST_SIZE 0) (replicate FRIEND_SEG_RX []) None [] 0 0 0 0.
Definition zero_adv_buf : adv_buf nat := mk_adv_buf [] None 0 false 0 0 0 0.

(** [bt_mesh_friend_init], on the zero-initialised data. *)
Definition bt_mesh_friend_init (m : mesh_net) : friends :=
  mk_friends m (mk_adv (pool_init FRIEND_BUF_COUNT zero_adv_buf) [])
    (replicate FRIEND_LPN_COUNT frnd_init) None.

(** *** Access to the state *)

Definition f_net : F mesh_net := s <- stm_get ;; mret (fr_net s).
Definition f_set_net (m : mesh_net) : F unit := stm_modify (fun s => s <| fr_net := m |>).
Definition f_get (i : nat) : F frnd := s <- stm_get ;; stm_of_option (fr_list s !! i).
Definition f_mod (i : nat) (g : frnd -> frnd) : F unit :=
  stm_modify (fun s => s <| fr_list := alter g i (fr_list s) |>).
Definition f_adv (g : adv nat -> adv nat) : F unit :=
  stm_modify (fun s => s <| fr_adv := g (fr_adv s) |>).
Definition f_unref (id : nat) : F unit := f_adv (av_unref id).
(** [net_buf_unref] does nothing for [NULL]. *)
Definition f_unref_opt (id : option nat) : F unit :=
  match id with Some id => f_unref id | None => mret tt end.
Fixpoint f_unref_list (ids : list nat) : F unit :=
  match ids with [] => mret tt | id :: ids => f_unref id ;; f_unref_list ids end.
Definition f_buf (id : nat) : F (adv_buf nat) :=
  s <- stm_get ;; stm_of_option (av_buf (fr_adv s) id).

(** ** Buffers *)

(** The first of the friendships with the most queued buffers. *)
Fixpoint most_queued (best : nat) (size : Z) (i : nat) (l : list frnd) : nat :=
  match l with
  | [] => best
  | f :: l => if size <? f_queue_size f then most_queued i (f_queue_size f) (S i) l
              else most_queued best size (S i) l
  end.

(** Assertions are compiled out: with an empty queue only the counter changes. *)
Definition discard_buffer : F unit :=
  s <- stm_get ;;
  match fr_list s with
  | [] => stm_undef
  | f0 :: l =>
      let k := most_queued 0 (f_queue_size f0) 1 l in
      f <- f_get k ;;
      f_mod k (fun f => f <| f_queue := tail (f_queue f) |>) ;;
      f_unref_opt (head (f_queue f)) ;;
      f_mod k (fun f => f <| f_queue_size := u32 (f_queue_size f - 1) |>)
  end.

(** The loop of [friend_buf_alloc]; [n] bounds its iterations, and a loop that
    does not end in [n] is undefined. *)
Fixpoint friend_buf_alloc_loop (n : nat) : F nat :=
  match n with
  | O => stm_undef
  | S n =>
      s <- stm_get ;;
      let xmit := f_net_transmit in
      match bt_mesh_adv_create_from_pool BT_MESH_ADV_DATA (Z.land xmit 7)
              ((Z.shiftr xmit 3 + 1) * 10) (fr_adv s) with
      | Some (id, a) => stm_modify (fun s => s <| fr_adv := a |>) ;; mret id
      | None => discard_buffer ;; friend_buf_alloc_loop n
      end
  end.

(** Two iterations are enough: see [friend_alloc_terminates]. *)
Definition friend_buf_alloc (n : nat) (src : Z) : F nat :=
  id <- friend_buf_alloc_loop n ;;
  f_adv (av_update (fun b => (b <| ab_addr := src |>) <| ab_seq_auth := TRANS_SEQ_AUTH_NVAL |>) id) ;;
  mret id.

(** ** Friendships *)

Definition bt_mesh_friend_find (l : list frnd) (net_idx lpn_addr : Z) (valid established : bool)
    : option nat :=
  find_index (fun f =>
    negb (valid && negb (f_valid f)) && negb (established && negb (f_established f)) &&
    ((net_idx =? BT_MESH_KEY_ANY) || (f_net_idx f =? net_idx)) && (f_lpn f =? lpn_addr)) l.

(** Signed 32-bit; the work queue takes it as unsigned. *)
Definition recv_delay (f : frnd) : Z := f_recv_delay f + Z.quot FRIEND_RECV_WIN 5 - BOARD_ADV_DELAY.

Definition friend_clear (i : nat) : F unit :=
  f <- f_get i ;;
  stm_emit [FTimerCancel i] ;;
  m <- f_net ;;
  f_set_net (m <| friend_creds := snd (friend_cred_del (f_net_idx f) (f_lpn f) (friend_creds m)) |>) ;;
  match f_last f with
  | Some id =>
      (if f_pending_buf f then f_adv (av_update (fun b => b <| ab_busy := false |>) id) else mret tt) ;;
      f_unref id ;;
      f_mod i (fun f => f <| f_last := None |>)
  | None => mret tt
  end ;;
  f_mod i (fun f => f <| f_queue := [] |>) ;;
  f_unref_list (f_queue f) ;;
  f_mod i (fun f => f <| f_segs := replicate (length (f_segs f)) [] |>) ;;
  f_unref_list (concat (f_segs f)) ;;
  f_mod i (fun f => (((((((f <| f_valid := false |>) <| f_established := false |>)
    <| f_pending_buf := false |>) <| f_fsn := 0 |>) <| f_queue_size := 0 |>)
    <| f_pending_req := false |>) <| f_sub_list := replicate (length (f_sub_list f)) 0 |>)).

(** The loop over the friendships [i .. i + n - 1] of the operations that act on
    those of one network. *)
Fixpoint for_frnds (n i : nat) (p : frnd -> bool) (body : nat -> F unit) : F unit :=
  match n with
  | O => mret tt
  | S n =>
      f <- f_get i ;;
      (if p f then body i else mret tt) ;;
      for_frnds n (S i) p body
  end.
Definition all_frnds (p : frnd -> bool) (body : nat -> F unit) : F unit :=
  s <- stm_get ;; for_frnds (length (fr_list s)) 0 p body.

Definition on_net_idx (net_idx : Z) (f : frnd) : bool :=
  negb (f_net_idx f =? BT_MESH_KEY_UNUSED) &&
  ((net_idx =? BT_MESH_KEY_ANY) || (f_net_idx f =? net_idx)).
Definition bt_mesh_friend_clear_net_idx (net_idx : Z) : F unit :=
  all_frnds (on_net_idx net_idx) friend_clear.
Definition bt_mesh_friend_sec_update (net_idx : Z) : F unit :=
  all_frnds (on_net_idx net_idx) (fun i => f_mod i (fun f => f <| f_sec_update := true |>)).

(** [bt_mesh_ctl_send]. *)
Definition ctl_send (tx : net_tx) (op : Z) (data : bytes) (clear_cb : option nat) : F unit :=
  stm_emit [FCtlSend tx op data clear_cb] ;; f_ctl_send tx op data.

Definition rx_net_idx (m : mesh_net) (rx : net_rx) : option Z := sub_net_idx <$> subs m !! rx_sub rx.

Definition bt_mesh_friend_clear (rx : net_rx) (buf : bytes) : F Z :=
  if decide (length buf < 4)%nat then mret (- EINVAL)
  else
    let lpn_addr := sys_get_be16 buf in
    let lpn_counter := sys_get_be16 (drop 2 buf) in
    s <- stm_get ;;
    net_idx <- stm_of_option (rx_net_idx (fr_net s) rx) ;;
    match bt_mesh_friend_find (fr_list s) net_idx lpn_addr false false with
    | None => mret 0
    | Some i =>
        f <- f_get i ;;
        if 255 <? lpn_counter - f_lpn_counter f then mret 0
        else
          let ctx := (rx_ctx rx) <| ctx_send_ttl := BT_MESH_TTL_MAX |> in
          ctl_send (mk_tx (rx_sub rx) ctx f_primary f_net_transmit false 0 0)
            TRANS_CTL_OP_FRIEND_CLEAR_CFM (take 4 buf) None ;;
          friend_clear i ;;
          mret 0
    end.

(** *** Subscriptions *)

Definition friend_sub_add (addr : Z) (f : frnd) : frnd :=
  match find_index (fun a => a =? BT_MESH_ADDR_UNASSIGNED) (f_sub_list f) with
  | Some i => f <| f_sub_list := <[i := addr]> (f_sub_list f) |>
  | None => f
  end.
Definition friend_sub_rem (addr : Z) (f : frnd) : frnd :=
  match find_index (fun a => a =? addr) (f_sub_list f) with
  | Some i => f <| f_sub_list := <[i := BT_MESH_ADDR_UNASSIGNED]> (f_sub_list f) |>
  | None => f
  end.

(** ** PDUs for the LPN *)

(** The header and the transport PDU, before encryption. *)
Definition friend_pdu (nid : Z) (info : friend_pdu_info) (sdu : bytes) : bytes :=
  u8 (Z.lor nid (Z.shiftl (Z.land (pi_iv_index info) 1) 7)) ::
  (if pi_ctl info then Z.lor (pi_ttl info) 0x80 else pi_ttl info) ::
  seq_bytes (pi_seq info) ++ sys_put_be16 (pi_src info) ++ sys_put_be16 (pi_dst info) ++ sdu.

(** The credentials [create_friend_pdu] encrypts with: a Friend Offer takes the
    master credentials. *)
Definition pdu_cred (m : mesh_net) (sub : subnet) (f : frnd) (info : friend_pdu_info) (sdu : bytes)
    : res cred_keys :=
  if pi_ctl info && (TRANS_CTL_OP (byte_at sdu 0) =? TRANS_CTL_OP_FRIEND_OFFER) then
    let k := sub_keys sub (sub_kr_flag sub) in Ok (mk_cred (k_nid k) (k_enc k) (k_privacy k))
  else friend_cred_get (friend_creds m) sub (f_lpn f).

(** The bytes of the PDU: encrypted with the IV index of [info], obfuscated. *)
Definition encode_friend_pdu (m : mesh_net) (sub : subnet) (f : frnd) (info : friend_pdu_info)
    (sdu : bytes) : res bytes :=
  c ← pdu_cred m sub f info sdu;
  if decide (BT_MESH_ADV_DATA_SIZE < 9 + length sdu)%nat then Undef
  else
    enc ← bt_mesh_net_encrypt (cr_enc c) (friend_pdu (cr_nid c) info sdu) (pi_iv_index info) false;
    if decide (BT_MESH_ADV_DATA_SIZE < length enc)%nat then Undef
    else bt_mesh_net_obfuscate enc (pi_iv_index info) (cr_privacy c).

(** The new buffer, or [NULL]. *)
Definition create_friend_pdu (i : nat) (info : friend_pdu_info) (sdu : bytes) : F (option nat) :=
  f <- f_get i ;;
  m <- f_net ;;
  sub <- stm_of_option (k ← bt_mesh_subnet_get m (f_net_idx f); subs m !! k) ;;
  id <- friend_buf_alloc 2 (pi_src info) ;;
  match encode_friend_pdu m sub f info sdu with
  | Ok data => f_adv (av_update (fun b => b <| ab_data := data |>) id) ;; mret (Some id)
  | Err _ => f_unref id ;; mret None
  | Undef => stm_undef
  end.

(** [bt_mesh.seq++] of the 24-bit field, and the event that goes with it. *)
Definition f_next_seq : F Z :=
  m <- f_net ;;
  f_set_net (m <| seq_num := u24 (seq_num m + 1) |>) ;;
  stm_emit [FSeqUpdate (u24 (seq_num m + 1))] ;;
  mret (seq_num m).

Definition encode_friend_ctl (i : nat) (op : Z) (data : bytes) : F (option nat) :=
  f <- f_get i ;;
  seq <- f_next_seq ;;
  m <- f_net ;;
  create_friend_pdu i (mk_pdu_info f_primary (f_lpn f) seq 0 true (BT_MESH_NET_IVI_TX m))
    (TRANS_CTL_HDR op 0 :: data).

Definition encode_update (i : nat) (md : Z) : F (option nat) :=
  f <- f_get i ;;
  m <- f_net ;;
  let sub := (k ← bt_mesh_subnet_get m (f_net_idx f); subs m !! k) in
  encode_friend_ctl i TRANS_CTL_OP_FRIEND_UPDATE
    (u8 (bt_mesh_net_flags m sub) :: sys_put_be32 (iv_index m) ++ [md]).

(** [frnd->last = buf; frnd->send_last = 1], after releasing the old one. *)
Definition set_last (i id : nat) : F unit :=
  f <- f_get i ;;
  f_unref_opt (f_last f) ;;
  f_mod i (fun f => (f <| f_last := Some id |>) <| f_send_last := true |>).

Definition enqueue_sub_cfm (i : nat) (xact : Z) : F unit :=
  buf <- encode_friend_ctl i TRANS_CTL_OP_FRIEND_SUB_CFM [xact] ;;
  match buf with None => mret tt | Some id => set_last i id end.

Definition friend_recv_delay (i : nat) : F unit :=
  f_mod i (fun f => f <| f_pending_req := true |>) ;;
  f <- f_get i ;;
  stm_emit [FTimerSubmit i (recv_delay f)].

(** The addresses of a subscription message, after its transaction number. *)
Fixpoint sub_addrs (buf : bytes) : list Z :=
  match buf with
  | a :: b :: buf => sys_get_be16 [a; b] :: sub_addrs buf
  | _ => []
  end.

(** [bt_mesh_friend_sub_add] and [bt_mesh_friend_sub_rem] differ in [change]. *)
Definition friend_sub_change (change : Z -> frnd -> frnd) (rx : net_rx) (buf : bytes) : F Z :=
  if decide (length buf < FRIEND_SUB_MIN_LEN)%nat then mret (- EINVAL)
  else
    s <- stm_get ;;
    net_idx <- stm_of_option (rx_net_idx (fr_net s) rx) ;;
    match bt_mesh_friend_find (fr_list s) net_idx (ctx_addr (rx_ctx rx)) true true with
    | None => mret 0
    | Some i =>
        f <- f_get i ;;
        if f_pending_buf f then mret 0
        else
          friend_recv_delay i ;;
          f_mod i (fun f => foldl (fun f a => change a f) f (sub_addrs (tail buf))) ;;
          enqueue_sub_cfm i (byte_at buf 0) ;;
          mret 0
    end.
Definition bt_mesh_friend_sub_add := friend_sub_change friend_sub_add.
Definition bt_mesh_friend_sub_rem := friend_sub_change friend_sub_rem.

Definition enqueue_buf (i id : nat) : F unit :=
  _ <- f_get i ;;
  f_mod i (fun f => (f <| f_queue := f_queue f ++ [id] |>)
    <| f_queue_size := u32 (f_queue_size f + 1) |>).

Definition enqueue_update (i : nat) (md : Z) : F unit :=
  buf <- encode_update i md ;;
  match buf with
  | None => mret tt
  | Some id => f_mod i (fun f => f <| f_sec_update := false |>) ;; enqueue_buf i id
  end.

(** ** Polls *)

Definition bt_mesh_friend_poll (rx : net_rx) (buf : bytes) : F Z :=
  match buf with
  | [] => mret (- EINVAL)
  | fsn :: _ =>
      s <- stm_get ;;
      net_idx <- stm_of_option (rx_net_idx (fr_net s) rx) ;;
      match bt_mesh_friend_find (fr_list s) net_idx (ctx_addr (rx_ctx rx)) true false with
      | None => mret 0
      | Some i =>
          f <- f_get i ;;
          if negb (Z.land fsn (Z.lnot 1) =? 0) then mret (- EINVAL)
          else if f_pending_buf f then mret 0
          else
            friend_recv_delay i ;;
            f_mod i (fun f => f <| f_established := true |>) ;;
            match f_last f with
            | Some id =>
                if fsn =? f_fsn f then f_mod i (fun f => f <| f_send_last := true |>) ;; mret 0
                else
                  f_unref id ;;
                  f_mod i (fun f => (f <| f_last := None |>) <| f_fsn := Z.land fsn 1 |>) ;;
                  (if bool_decide (f_queue f = []) then enqueue_update i 0 else mret tt) ;;
                  mret 0
            | None =>
                f_mod i (fun f => f <| f_fsn := Z.land fsn 1 |>) ;;
                (if bool_decide (f_queue f = []) then enqueue_update i 0 else mret tt) ;;
                mret 0
            end
      end
  end.

(** ** The Friend Clear procedure *)

Definition find_clear (l : list frnd) (prev_friend : Z) : option nat :=
  find_index (fun f => f_clear_frnd f =? prev_friend) l.

Definition friend_clear_sent (i : nat) : F unit :=
  f <- f_get i ;;
  stm_emit [FClearTimerSubmit i (K_SECONDS (f_clear_repeat_sec f))] ;;
  f_mod i (fun f => f <| f_clear_repeat_sec := u16 (f_clear_repeat_sec f * 2) |>).

Definition send_friend_clear (i : nat) : F unit :=
  f <- f_get i ;;
  ctl_send (mk_tx 0 (mk_ctx (f_net_idx f) BT_MESH_KEY_UNUSED (f_clear_frnd f) 0 BT_MESH_TTL_MAX false)
              f_primary f_net_transmit false 0 0)
    TRANS_CTL_OP_FRIEND_CLEAR (sys_put_be16 (f_lpn f) ++ sys_put_be16 (f_lpn_counter f)) (Some i).

Definition clear_timeout (i : nat) : F unit :=
  f <- f_get i ;;
  let duration := u32 (f_now_32 - f_clear_start f) in
  if 2 * f_poll_to f <? duration then
    f_mod i (fun f => f <| f_clear_frnd := BT_MESH_ADDR_UNASSIGNED |>)
  else send_friend_clear i.

Definition clear_procedure_start (i : nat) : F unit :=
  f_mod i (fun f => (f <| f_clear_start := u32 (f_now_32 + 2 * f_poll_to f) |>)
    <| f_clear_repeat_sec := 1 |>) ;;
  send_friend_clear i.

Definition bt_mesh_friend_clear_cfm (rx : net_rx) (buf : bytes) : F Z :=
  if decide (length buf < 4)%nat then mret (- EINVAL)
  else
    s <- stm_get ;;
    match find_clear (fr_list s) (ctx_addr (rx_ctx rx)) with
    | None => mret 0
    | Some i =>
        f <- f_get i ;;
        if negb (sys_get_be16 buf =? f_lpn f) then mret 0
        else if negb (sys_get_be16 (drop 2 buf) =? f_lpn_counter f) then mret 0
        else
          stm_emit [FClearTimerCancel i] ;;
          f_mod i (fun f => f <| f_clear_frnd := BT_MESH_ADDR_UNASSIGNED |>) ;;
          mret 0
    end.

(** ** Friend Requests *)

Definition enqueue_offer (i : nat) (rssi : Z) : F unit :=
  f <- f_get i ;;
  buf <- encode_friend_ctl i TRANS_CTL_OP_FRIEND_OFFER
    ([FRIEND_RECV_WIN; u8 (Z.of_nat FRIEND_QUEUE_SIZE); u8 (Z.of_nat (length (f_sub_list f))); u8 rssi] ++
     sys_put_be16 (f_counter f)) ;;
  match buf with
  | None => mret tt
  | Some id => f_mod i (fun f => f <| f_counter := u16 (f_counter f + 1) |>) ;; set_last i id
  end.

Definition RSSI_FACT (crit : Z) : Z := Z.land (Z.shiftr crit 5) 3.
Definition RECV_WIN_FACT (crit : Z) : Z := Z.land (Z.shiftr crit 3) 3.
Definition MIN_QUEUE_SIZE_LOG (crit : Z) : Z := Z.land crit 7.
Definition MIN_QUEUE_SIZE (crit : Z) : Z := Z.shiftl 1 (MIN_QUEUE_SIZE_LOG crit).
Definition offer_fact (k : Z) : Z := nth (Z.to_nat k) [10; 15; 20; 25] 0.

Definition offer_delay (rssi crit : Z) : Z :=
  let delay := offer_fact (RECV_WIN_FACT crit) * FRIEND_RECV_WIN - offer_fact (RSSI_FACT crit) * rssi in
  Z.max 100 (Z.quot delay 10).

(** [struct bt_mesh_ctl_friend_req]. *)
Definition req_poll_to (buf : bytes) : Z :=
  Z.lor (Z.lor (Z.shiftl (byte_at buf 2) 16) (Z.shiftl (byte_at buf 3) 8)) (byte_at buf 4).
Definition req_prev_addr (buf : bytes) : Z := sys_get_be16 (drop 5 buf).
Definition req_lpn_counter (buf : bytes) : Z := sys_get_be16 (drop 8 buf).

(** The label [init_friend]. *)
Definition init_friend (i : nat) (rx : net_rx) (net_idx : Z) (buf : bytes) : F unit :=
  let old_friend := req_prev_addr buf in
  f_mod i (fun f => (((((f <| f_lpn := ctx_addr (rx_ctx rx) |>) <| f_net_idx := net_idx |>)
    <| f_recv_delay := byte_at buf 1 |>) <| f_poll_to := req_poll_to buf * 100 |>)
    <| f_lpn_counter := req_lpn_counter buf |>) <| f_clear_frnd := old_friend |>) ;;
  (if BT_MESH_ADDR_IS_UNICAST old_friend && negb (f_elem_find old_friend) then
     clear_procedure_start i else mret tt) ;;
  stm_emit [FTimerSubmit i (offer_delay (rx_rssi rx) (byte_at buf 0))] ;;
  f <- f_get i ;;
  m <- f_net ;;
  sub <- stm_of_option (subs m !! rx_sub rx) ;;
  f_set_net (m <| friend_creds := snd (friend_cred_create f_lpn_frnd f_primary sub (f_lpn f)
    (f_lpn_counter f) (f_counter f) (friend_creds m)) |>) ;;
  enqueue_offer i (rx_rssi rx).

Definition bt_mesh_friend_req (rx : net_rx) (buf : bytes) : F Z :=
  if decide (length buf < 10)%nat then mret (- EINVAL)
  else if byte_at buf 1 <=? 0x09 then mret (- EINVAL)
  else
    let poll_to := req_poll_to buf in
    if (poll_to <=? 0x09) || (0x34bc00 <=? poll_to) then mret (- EINVAL)
    else if byte_at buf 7 =? 0 then mret (- EINVAL)
    else if MIN_QUEUE_SIZE_LOG (byte_at buf 0) =? 0 then mret (- EINVAL)
    else if Z.of_nat FRIEND_QUEUE_SIZE <? MIN_QUEUE_SIZE (byte_at buf 0) then mret 0
    else
      s <- stm_get ;;
      net_idx <- stm_of_option (rx_net_idx (fr_net s) rx) ;;
      let old_friend := req_prev_addr buf in
      let addr := if BT_MESH_ADDR_IS_UNICAST old_friend then old_friend else ctx_addr (rx_ctx rx) in
      match bt_mesh_friend_find (fr_list s) net_idx addr true false with
      | Some i => friend_clear i ;; init_friend i rx net_idx buf ;; mret 0
      | None =>
          match find_index (fun f => negb (f_valid f)) (fr_list s) with
          | None => mret (- ENOMEM)
          | Some i =>
              f_mod i (fun f => f <| f_valid := true |>) ;; init_friend i rx net_idx buf ;; mret 0
          end
      end.

(** ** Messages for the LPN *)

(** The segments of one message share the source and SeqAuth of the first. *)
Definition seg_matches (a : adv nat) (src seq_auth : Z) (q : list nat) : bool :=
  match head q with
  | Some id =>
      match av_buf a id with
      | Some b => (ab_addr b =? src) && (ab_seq_auth b =? seq_auth)
      | None => false
      end
  | None => false
  end.

(** [find_index p l], or else the first empty slot the loop has passed. *)
Definition get_seg (a : adv nat) (f : frnd) (src seq_auth : Z) : option nat :=
  match find_index (seg_matches a src seq_auth) (f_segs f) with
  | Some j => Some j
  | None => find_index (fun q => bool_decide (q = [])) (f_segs f)
  end.

Fixpoint clear_seq_auth (ids : list nat) : F unit :=
  match ids with
  | [] => mret tt
  | id :: ids =>
      f_adv (av_update (fun b => b <| ab_seq_auth := TRANS_SEQ_AUTH_NVAL |>) id) ;; clear_seq_auth ids
  end.

Definition update_first (i : nat) : F unit :=
  f <- f_get i ;; if f_sec_update f then enqueue_update i 1 else mret tt.

Definition enqueue_friend_pdu (i : nat) (type : friend_pdu_type) (id : nat) : F unit :=
  match type with
  | PDU_SINGLE => update_first i ;; enqueue_buf i id
  | _ =>
      f <- f_get i ;;
      b <- f_buf id ;;
      s <- stm_get ;;
      match get_seg (fr_adv s) f (ab_addr b) (ab_seq_auth b) with
      | None => f_unref id
      | Some j =>
          f_mod i (fun f => f <| f_segs := alter (fun q => q ++ [id]) j (f_segs f) |>) ;;
          match type with
          | PDU_COMPLETE =>
              update_first i ;;
              f <- f_get i ;;
              q <- stm_of_option (f_segs f !! j) ;;
              clear_seq_auth q ;;
              f_mod i (fun f => ((f <| f_queue_size := u32 (f_queue_size f + Z.of_nat (length q)) |>)
                <| f_queue := f_queue f ++ q |>) <| f_segs := <[j := []]> (f_segs f) |>)
          | _ => mret tt
          end
      end
  end.

Definition is_ack_of (a : adv nat) (seq_auth src : Z) (id : nat) : bool :=
  match av_buf a id with
  | Some b => (ab_addr b =? src) && (ab_seq_auth b =? seq_auth)
  | None => false
  end.

Definition friend_purge_old_ack (i : nat) (seq_auth src : Z) : F unit :=
  s <- stm_get ;;
  f <- f_get i ;;
  match find_index (is_ack_of (fr_adv s) seq_auth src) (f_queue f) with
  | None => mret tt
  | Some k =>
      f_mod i (fun f => (f <| f_queue := delete k (f_queue f) |>)
        <| f_queue_size := u32 (f_queue_size f - 1) |>) ;;
      f_unref_opt (f_queue f !! k)
  end.

(** The end [friend_lpn_enqueue_rx] and [friend_lpn_enqueue_tx] share. *)
Definition friend_lpn_enqueue (i : nat) (info : friend_pdu_info) (type : friend_pdu_type)
    (seq_auth : option Z) (sbuf : bytes) : F unit :=
  buf <- create_friend_pdu i info sbuf ;;
  match buf with
  | None => mret tt
  | Some id =>
      match seq_auth with
      | Some sa => f_adv (av_update (fun b => b <| ab_seq_auth := sa |>) id)
      | None => mret tt
      end ;;
      enqueue_friend_pdu i type id
  end.

Definition purge_ack (i : nat) (type : friend_pdu_type) (seq_auth : option Z) (src : Z) : F unit :=
  match type, seq_auth with
  | PDU_SINGLE, Some sa => friend_purge_old_ack i sa src
  | _, _ => mret tt
  end.

Definition friend_lpn_enqueue_rx (rx : net_rx) (type : friend_pdu_type) (seq_auth : option Z)
    (sbuf : bytes) (i : nat) : F unit :=
  purge_ack i type seq_auth (ctx_addr (rx_ctx rx)) ;;
  m <- f_net ;;
  let ttl := ctx_recv_ttl (rx_ctx rx) in
  let ttl := Z.land (if decide (rx_net_if rx = IF_LOCAL) then ttl else ttl - 1) 0x7f in
  friend_lpn_enqueue i (mk_pdu_info (ctx_addr (rx_ctx rx)) (rx_dst rx) (rx_seq rx) ttl (rx_ctl rx)
    (BT_MESH_NET_IVI_RX m rx)) type seq_auth sbuf.

Definition friend_lpn_enqueue_tx (tx : net_tx) (type : friend_pdu_type) (seq_auth : option Z)
    (sbuf : bytes) (i : nat) : F unit :=
  purge_ack i type seq_auth (tx_src tx) ;;
  seq <- f_next_seq ;;
  m <- f_net ;;
  friend_lpn_enqueue i (mk_pdu_info (tx_src tx) (ctx_addr (tx_ctx tx)) seq
    (Z.land (ctx_send_ttl (tx_ctx tx)) 0x7f) (ctx_app_idx (tx_ctx tx) =? BT_MESH_KEY_UNUSED)
    (BT_MESH_NET_IVI_TX m)) type seq_auth sbuf.

Definition friend_lpn_matches (net_idx addr : Z) (f : frnd) : bool :=
  f_established f && (net_idx =? f_net_idx f) &&
  (if BT_MESH_ADDR_IS_UNICAST addr then addr =? f_lpn f
   else existsb (fun a => a =? addr) (f_sub_list f)).

Definition bt_mesh_friend_match (l : list frnd) (net_idx addr : Z) : bool :=
  existsb (friend_lpn_matches net_idx addr) l.

Definition bt_mesh_friend_enqueue_rx (rx : net_rx) (type : friend_pdu_type) (seq_auth : option Z)
    (sbuf : bytes) : F unit :=
  if negb (rx_friend_match rx) ||
     ((ctx_recv_ttl (rx_ctx rx) <=? 1) && negb (bool_decide (rx_net_if rx = IF_LOCAL))) ||
     negb (f_friend_get =? FRIEND_ENABLED) then mret tt
  else
    m <- f_net ;;
    net_idx <- stm_of_option (rx_net_idx m rx) ;;
    all_frnds (friend_lpn_matches net_idx (rx_dst rx)) (friend_lpn_enqueue_rx rx type seq_auth sbuf).

Definition bt_mesh_friend_enqueue_tx (tx : net_tx) (type : friend_pdu_type) (seq_auth : option Z)
    (sbuf : bytes) : F bool :=
  s <- stm_get ;;
  net_idx <- stm_of_option (sub_net_idx <$> subs (fr_net s) !! tx_sub tx) ;;
  let addr := ctx_addr (tx_ctx tx) in
  if negb (bt_mesh_friend_match (fr_list s) net_idx addr) || negb (f_friend_get =? FRIEND_ENABLED) then
    mret false
  else
    all_frnds (friend_lpn_matches net_idx addr) (friend_lpn_enqueue_tx tx type seq_auth sbuf) ;;
    mret true.

(** The loop over the segment queues of one friendship. *)
Definition clear_segs (src seq_auth : Z) (i : nat) : F unit :=
  s <- stm_get ;;
  f <- f_get i ;;
  f_mod i (fun f => f <| f_segs := map (fun q => if seg_matches (fr_adv s) src seq_auth q then [] else q)
    (f_segs f) |>) ;;
  f_unref_list (concat (map (fun q => if seg_matches (fr_adv s) src seq_auth q then q else []) (f_segs f))).
Definition bt_mesh_friend_clear_incomplete (net_idx src dst seq_auth : Z) : F unit :=
  all_frnds (friend_lpn_matches net_idx dst) (clear_segs src seq_auth).

(** ** Sending *)

Definition buf_send_start (i : nat) : F unit :=
  f <- f_get i ;;
  f_mod i (fun f => f <| f_pending_buf := false |>) ;;
  if f_established f then mret tt
  else f_unref_opt (f_last f) ;; f_mod i (fun f => f <| f_last := None |>).

Definition buf_send_end (i : nat) : F unit :=
  f <- f_get i ;;
  if f_pending_req f then mret tt
  else stm_emit [FTimerSubmit i (if f_established f then f_poll_to f else K_SECONDS 5)].

(** [bt_mesh_adv_send(frnd->last, ...)]. Linking a buffer that is already in
    the queue of the advertising thread would corrupt the queue. *)
Definition send_last (i id : nat) : F unit :=
  f_mod i (fun f => (f <| f_pending_req := false |>) <| f_pending_buf := true |>) ;;
  s <- stm_get ;;
  if decide (id ∈ av_queue (fr_adv s)) then stm_undef
  else f_adv (bt_mesh_adv_send id (Some i)).

Definition friend_timeout (i : nat) : F unit :=
  f <- f_get i ;;
  match f_send_last f, f_last f with
  | true, Some id => f_mod i (fun f => f <| f_send_last := false |>) ;; send_last i id
  | _, _ =>
      if f_established f && negb (f_pending_req f) then friend_clear i
      else
        f_mod i (fun f => (f <| f_last := head (f_queue f) |>) <| f_queue := tail (f_queue f) |>) ;;
        match f_queue f with
        | [] => friend_clear i
        | id :: _ =>
            f_mod i (fun f => f <| f_queue_size := u32 (f_queue_size f - 1) |>) ;; send_last i id
        end
  end.

(** *** The advertising thread *)

Definition run_adv_effect (e : adv_effect nat) : F unit :=
  stm_emit [FAdv e] ;;
  match e with
  | EffCbStart _ _ i => buf_send_start i
  | EffCbEnd _ i => buf_send_end i
  | _ => mret tt
  end.
Fixpoint run_adv_effects (es : list (adv_effect nat)) : F unit :=
  match es with [] => mret tt | e :: es => run_adv_effect e ;; run_adv_effects es end.

(** The thread takes a buffer, and starts advertising it with result
    [start_err]; [adv_exit] stops advertising with result [stop_err]. *)
Definition adv_turn (start_err : Z) : F unit :=
  s <- stm_get ;;
  match fr_sending s with
  | Some _ => stm_undef
  | None =>
      r <- stm_of_option (adv_thread_turn f_adv_int_min start_err (fr_adv s)) ;;
      let '(effs, cb, a) := r in
      stm_modify (fun s => (s <| fr_adv := a |>) <| fr_sending := cb |>) ;;
      run_adv_effects effs
  end.

Definition adv_exit (stop_err : Z) : F unit :=
  s <- stm_get ;;
  match fr_sending s with
  | None => mret tt
  | Some cb =>
      stm_modify (fun s => s <| fr_sending := None |>) ;;
      run_adv_effects (adv_send_exit stop_err cb)
  end.
End friend.
