(* ===== verification/FriendOk.v ===== *)
(** * Ownership of the friend buffers

    Every buffer a friendship refers to, and every buffer in the queue of the
    advertising thread, is referenced once for each of them, whatever happens
    in whatever order; and the queue sizes are right. *)

From S2P Require Import Prelude NetBuf NetPool Cmac Ccm MeshCrypto NetState NetIv Net TransState Adv Beacon Friend.

(** ** The invariant *)

(** The buffers a friendship holds. *)
Definition held (f : frnd) : list nat := f_queue f ++ concat (f_segs f) ++ option_list (f_last f).
Definition all_held (s : friends) : list nat := concat (map held (fr_list s)).

Definition size_ok (f : frnd) : Prop := f_queue_size f = Z.of_nat (length (f_queue f)).

Definition fr_refs (s : friends) : list Z := av_refs (fr_adv s).
Definition advq (s : friends) : list nat := av_queue (fr_adv s).

(** One reference for each place a buffer is in. *)
Definition holders (l : list nat) (s : friends) (id : nat) : Z :=
  Z.b2z (bool_decide (id ∈ l)) + Z.b2z (bool_decide (id ∈ advq s)).

(** [L] are the buffers outside the friendships that a reference is counted
    for: those the running function holds in its variables, and the forgotten
    ones. The size of friendship [ex] may be out of step. *)
Record own (L : list nat) (ex : option nat) (s : friends) : Prop := {
  fi_pool : pool_wf (av_pool (fr_adv s));
  fi_nodup : NoDup (L ++ all_held s);
  fi_advq : NoDup (advq s);
  fi_range id : id ∈ L ++ all_held s \/ id ∈ advq s -> (id < length (fr_refs s))%nat;
  fi_refs id r : fr_refs s !! id = Some r -> r = holders (L ++ all_held s) s id;
  fi_size j f : fr_list s !! j = Some f -> ex <> Some j -> size_ok f;
  fi_count : Z.of_nat (length (fr_refs s)) < 4294967296
}.

Lemma own_lookup L ex s id :
  own L ex s -> id ∈ L ++ all_held s \/ id ∈ advq s ->
  fr_refs s !! id = Some (holders (L ++ all_held s) s id).
Proof.
  intros H Hid. destruct (lookup_lt_is_Some_2 _ _ (fi_range _ _ _ H id Hid)) as [r Hr].
  rewrite Hr. f_equal. by apply (fi_refs _ _ _ H).
Qed.

Lemma own_held L ex s id :
  own L ex s -> id ∈ L ++ all_held s -> fr_refs s !! id = Some (if decide (id ∈ advq s) then 2 else 1).
Proof.
  intros H Hid. rewrite (own_lookup _ _ _ _ H) by tauto. f_equal. unfold holders.
  rewrite (bool_decide_true _ Hid). case_decide as E; [by rewrite (bool_decide_true _ E)|by rewrite (bool_decide_false _ E)].
Qed.

Lemma own_queued L ex s id : own L ex s -> id ∈ advq s -> exists r, fr_refs s !! id = Some r /\ 1 <= r <= 2.
Proof.
  intros H Hid. rewrite (own_lookup _ _ _ _ H) by tauto. eexists. split; [done|]. unfold holders.
  rewrite (bool_decide_true (id ∈ advq s) Hid). case_bool_decide; cbn [Z.b2z]; lia.
Qed.

(** The references after one of them changed. *)
Lemma holders_eq l l' s s' id :
  (id ∈ l <-> id ∈ l') -> (id ∈ advq s <-> id ∈ advq s') -> holders l s id = holders l' s' id.
Proof. intros H1 H2. unfold holders. by rewrite (bool_decide_ext _ _ H1), (bool_decide_ext _ _ H2). Qed.

Lemma concat_map_alter {A B} (h : A -> list B) (g : A -> A) l i x :
  l !! i = Some x ->
  exists R, concat (map h l) ≡ₚ h x ++ R /\ concat (map h (alter g i l)) ≡ₚ h (g x) ++ R.
Proof.
  revert i. induction l as [|y l IH]; intros [|i]; try done; cbn.
  - intros [= ->]. by exists (concat (map h l)).
  - intros Hi. destruct (IH i Hi) as (R & H1 & H2). exists (h y ++ R).
    change (list_alter g i l) with (alter g i l). split; rewrite ?H1, ?H2; solve_Permutation.
Qed.

Lemma nodup_length (l : list nat) n : NoDup l -> (forall x, x ∈ l -> (x < n)%nat) -> (length l <= n)%nat.
Proof.
  intros Hnd Hlt. transitivity (length (seq 0 n)); [|by rewrite length_seq].
  apply submseteq_length, NoDup_submseteq; [done|]. intros x Hx. apply elem_of_seq. specialize (Hlt x Hx). lia.
Qed.

Lemma own_bound L ex s : own L ex s -> Z.of_nat (length (L ++ all_held s)) < 4294967296.
Proof.
  intros [Hp Hnd _ Hg _ _ Hc].
  pose proof (nodup_length _ (length (fr_refs s)) Hnd). enough (length (L ++ all_held s) <= length (fr_refs s))%nat by lia.
  apply H. intros x Hx. apply Hg. by left.
Qed.

(** ** What the primitive steps do to it *)

(** A change of one friendship that moves buffers between it and the
    variables. *)
Lemma own_mod L L' ex ex' s i f g :
  own L ex s -> fr_list s !! i = Some f ->
  L ++ held f ≡ₚ L' ++ held (g f) ->
  (ex' = Some i \/ size_ok (g f)) ->
  (forall j, j <> i -> ex' <> Some j -> ex <> Some j) ->
  own L' ex' (s <| fr_list := alter g i (fr_list s) |>).
Proof.
  intros [Hp Hnd Hq Hg Hh Hs Hc] Hi Hperm Hsz Hex.
  destruct (concat_map_alter held g (fr_list s) i f Hi) as (R & H1 & H2).
  assert (Hall : L ++ all_held s ≡ₚ L' ++ all_held (s <| fr_list := alter g i (fr_list s) |>)).
  { unfold all_held. cbn [update_field fr_list]. by rewrite H1, H2, !app_assoc, Hperm. }
  split; try done.
  - by rewrite <- Hall.
  - intros id. rewrite <- Hall. apply Hg.
  - intros id r Hr. rewrite (Hh id r Hr). apply holders_eq; [by rewrite Hall|done].
  - cbn [update_field fr_list]. intros j f' Hj Hne. destruct (decide (i = j)) as [<-|Hij].
    + rewrite list_lookup_alter_eq, Hi in Hj. injection Hj as <-. by destruct Hsz.
    + rewrite list_lookup_alter_ne in Hj by done. apply (Hs j); [done|]. apply Hex; congruence.
Qed.

(** Steps that do not touch the buffers. *)
Lemma own_same L ex s s' :
  own L ex s -> fr_list s' = fr_list s -> av_queue (fr_adv s') = av_queue (fr_adv s) ->
  fr_refs s' = fr_refs s -> pool_wf (av_pool (fr_adv s')) ->
  own L ex s'.
Proof.
  intros [Hp Hnd Hq Hg Hh Hs Hc] Hl Ha Hr Hp'. unfold holders, advq in *.
  split; unfold holders, all_held, advq in *; rewrite ?Hl, ?Ha, ?Hr; done.
Qed.

(** The references after that of [id] became [v]. *)
Lemma refs_insert (refs : list Z) id v (h h' : nat -> Z) :
  (id < length refs)%nat ->
  (forall j r, refs !! j = Some r -> r = h j) -> v = h' id -> (forall j, j <> id -> h j = h' j) ->
  forall j r, <[id := v]> refs !! j = Some r -> r = h' j.
Proof.
  intros Hlt Hh Hv Hne j r Hj. destruct (decide (id = j)) as [<-|Hd].
  - rewrite list_lookup_insert_eq in Hj by done. by injection Hj as <-.
  - rewrite list_lookup_insert_ne in Hj by done. rewrite <- Hne by done. by apply Hh.
Qed.

Ltac in_app := rewrite ?elem_of_app, ?elem_of_cons, ?elem_of_nil in *; intuition (subst; tauto).

Lemma own_unref L ex s id :
  own (id :: L) ex s -> own L ex (s <| fr_adv := av_unref id (fr_adv s) |>).
Proof.
  intros H. pose proof (own_lookup _ _ _ id H ltac:(left; by left)) as Hr.
  destruct H as [Hp Hnd Hq Hg Hh Hs Hc]. cbn [app] in *.
  apply list.NoDup_cons in Hnd as [Hid Hnd].
  assert (Hv : holders (id :: L ++ all_held s) s id = 1 + holders (L ++ all_held s) s id).
  { unfold holders. rewrite bool_decide_true by (by left). rewrite (bool_decide_false (id ∈ L ++ _)) by done.
    cbn [Z.b2z]. lia. }
  destruct (unref_spec id (fr_adv s) _ Hp Hr) as [Hr' Hp'].
  { rewrite Hv. unfold holders. do 2 case_bool_decide; cbn [Z.b2z]; lia. }
  assert (Hlt : (id < length (fr_refs s))%nat) by (by eapply lookup_lt_Some).
  split; try done; unfold fr_refs, advq in *; cbn [update_field fr_adv] in *; rewrite ?Hr', ?length_insert; try done.
  - intros j Hj. apply Hg. destruct Hj as [Hj|Hj]; [left; by right|by right].
  - apply (refs_insert _ _ _ (holders (id :: L ++ all_held s) s)); [done..| |].
    + rewrite Hv. change (1 + holders (L ++ all_held s) s id - 1 = holders (L ++ all_held s) s id). lia.
    + intros j Hj. apply holders_eq; [|done]. rewrite elem_of_cons. tauto.
Qed.

Lemma own_alloc L ex s a id type xc xi :
  own L ex s -> bt_mesh_adv_create_from_pool type xc xi (fr_adv s) = Some (id, a) ->
  own (id :: L) ex (s <| fr_adv := a |>) /\ (id ∉ advq s) /\ av_queue a = advq s.
Proof.
  intros H Ha. pose proof (create_spec type xc xi (fr_adv s) (fi_pool _ _ _ H)) as Hc.
  rewrite Ha in Hc. destruct Hc as (H0 & Hr & Hp' & Hq').
  assert (Hn : id ∉ L ++ all_held s /\ id ∉ advq s).
  { split; intros Hin; pose proof (own_lookup _ _ _ id H ltac:(tauto)) as Hv; unfold fr_refs, holders in Hv;
      rewrite H0, (bool_decide_true _ Hin) in Hv; injection Hv as Hv; revert Hv; case_bool_decide; cbn [Z.b2z]; lia. }
  destruct Hn as [HnH HnA].
  assert (Hlt : (id < length (fr_refs s))%nat) by (by eapply lookup_lt_Some).
  destruct H as [Hp Hnd Hq Hg Hh Hs Hc].
  split; [|done].
  split; unfold fr_refs, advq in *; cbn [update_field fr_adv fr_list app] in *; rewrite ?Hr, ?Hq', ?length_insert; try done.
  - by constructor.
  - intros j [[->|Hj]%elem_of_cons|Hj]; [done|apply Hg; by left|apply Hg; by right].
  - apply (refs_insert _ _ _ (holders (L ++ all_held s) s)); [done..| |].
    + unfold holders, advq. cbn [update_field fr_adv]. rewrite Hq', bool_decide_true by (by left).
      by rewrite (bool_decide_false (id ∈ av_queue _)).
    + intros j Hj. apply holders_eq; [rewrite elem_of_cons; tauto|]. unfold advq. cbn [update_field fr_adv].
      by rewrite Hq'.
Qed.

Lemma own_send L ex s id cb :
  own L ex s -> id ∈ L ++ all_held s -> id ∉ advq s ->
  own L ex (s <| fr_adv := bt_mesh_adv_send id cb (fr_adv s) |>).
Proof.
  intros H Hin Hni. pose proof (own_held _ _ _ _ H Hin) as Hr.
  rewrite decide_False in Hr by done. destruct H as [Hp Hnd Hq Hg Hh Hs Hc].
  destruct (send_spec id cb (fr_adv s) 1 Hp Hr) as (Hr' & Hp' & Hq'); [lia|].
  assert (Hlt : (id < length (fr_refs s))%nat) by (by eapply lookup_lt_Some).
  split; unfold fr_refs, advq in *; cbn [update_field fr_adv] in *; rewrite ?Hr', ?Hq', ?length_insert; try done.
  - apply list.NoDup_app. split; [done|]. split; [|apply NoDup_singleton].
    intros j Hj Hj'. apply list_elem_of_singleton in Hj' as ->. done.
  - intros j [Hj|[Hj| ->%list_elem_of_singleton]%elem_of_app]; [apply Hg; by left|apply Hg; by right|done].
  - apply (refs_insert _ _ _ (holders (L ++ all_held s) s)); [done..| |].
    + unfold holders, advq. cbn [update_field fr_adv]. rewrite Hq'. rewrite !bool_decide_true; [done|..].
      * apply elem_of_app. right. by left.
      * exact Hin.
    + intros j Hj. apply holders_eq; [done|]. unfold advq. cbn [update_field fr_adv].
      rewrite Hq', elem_of_app, list_elem_of_singleton. tauto.
Qed.

(** The advertising thread takes a buffer out of its queue and releases it. *)
Lemma own_pop L ex s id q :
  own L ex s -> advq s = id :: q ->
  own L ex (s <| fr_adv := av_unref id (mk_adv (av_pool (fr_adv s)) q) |>).
Proof.
  intros H Eq. pose proof (own_lookup _ _ _ id H ltac:(rewrite Eq; right; by left)) as Hr.
  destruct H as [Hp Hnd Hq Hg Hh Hs Hc].
  assert (Hq1 := Hq). rewrite Eq in Hq1. apply list.NoDup_cons in Hq1 as [Hid Hq1].
  assert (Hv : holders (L ++ all_held s) s id = Z.b2z (bool_decide (id ∈ L ++ all_held s)) + 1).
  { unfold holders. rewrite Eq, (bool_decide_true (id ∈ id :: q)) by (by left). done. }
  destruct (unref_spec id (mk_adv (av_pool (fr_adv s)) q) _ Hp Hr) as [Hr' Hp'].
  { rewrite Hv. case_bool_decide; cbn [Z.b2z]; lia. }
  assert (Hlt : (id < length (fr_refs s))%nat) by (by eapply lookup_lt_Some).
  split; unfold fr_refs in *; cbn [update_field fr_adv] in *; rewrite ?Hr', ?length_insert; try done.
  - intros j [Hj|Hj]; apply Hg; [by left|]. right. rewrite Eq. by right.
  - change (av_refs (mk_adv (av_pool (fr_adv s)) q)) with (av_refs (fr_adv s)).
    apply (refs_insert _ _ _ (holders (L ++ all_held s) s)); [done..| |].
    + rewrite Hv. unfold holders. rewrite (bool_decide_false (id ∈ advq _)) by exact Hid.
      change (Z.b2z (bool_decide (id ∈ L ++ all_held s)) + 1 - 1 = Z.b2z (bool_decide (id ∈ L ++ all_held s)) + 0).
      lia.
    + intros j Hj. apply holders_eq; [done|]. rewrite Eq, elem_of_cons. unfold advq. cbn. tauto.
Qed.

Lemma own_pop_update L ex s id q h :
  own L ex s -> advq s = id :: q ->
  own L ex (s <| fr_adv := av_unref id (av_update h id (mk_adv (av_pool (fr_adv s)) q)) |>).
Proof.
  intros H Eq.
  assert (H1 : own L ex (s <| fr_adv := av_update h id (fr_adv s) |>)).
  { eapply own_same; try done; [apply av_refs_update|apply pool_update_wf, H]. }
  exact (own_pop L ex _ id q H1 Eq).
Qed.

Lemma own_perm L L' ex s : L ≡ₚ L' -> own L ex s -> own L' ex s.
Proof.
  intros Hp [Hpo Hnd Hq Hg Hh Hs Hc].
  split; [done|by rewrite <- Hp|done|intros id; rewrite <- Hp; apply Hg| |done..].
  intros id r Hr. rewrite (Hh id r Hr). apply holders_eq; [by rewrite Hp|done].
Qed.

(** *** Buffers that wait are not being advertised *)

Definition waiting (f : frnd) : list nat := f_queue f ++ concat (f_segs f).
Definition all_waiting (s : friends) : list nat := concat (map waiting (fr_list s)).

(** When its timer fires, a friendship drops a PDU it has sent without releasing
    it: the next buffer of its queue takes its place. *)
Definition forgets (s : friends) (i : nat) : Prop :=
  exists f, fr_list s !! i = Some f /\ f_last f <> None /\ f_send_last f = false /\
            f_established f && negb (f_pending_req f) = false.

Section lossy.
(** Whether buffers may have been forgotten; [W] are those. *)
Context (lossy : Prop).

Definition friend_inv (L : list nat) (ex : option nat) (s : friends) : Prop :=
  (exists W, (W = [] \/ lossy) /\ own (W ++ L) ex s) /\ forall id, id ∈ L ++ all_waiting s -> id ∉ advq s.

Lemma inv_bound L ex s : friend_inv L ex s -> Z.of_nat (length (L ++ all_held s)) < 4294967296.
Proof. intros [(W & _ & H) _]. apply own_bound in H. rewrite !length_app in *. lia. Qed.
Lemma inv_pool L ex s : friend_inv L ex s -> pool_wf (av_pool (fr_adv s)).
Proof. by intros [(W & _ & []) _]. Qed.

Lemma held_split (l : list frnd) :
  concat (map held l) ≡ₚ concat (map waiting l) ++ concat (map (fun f => option_list (f_last f)) l).
Proof.
  induction l as [|f l IH]; [done|]. cbn. rewrite IH. unfold held, waiting. solve_Permutation.
Qed.

(** The PDU sent last is not among those that wait. *)
Lemma last_held L ex s i f id :
  friend_inv L ex s -> fr_list s !! i = Some f -> f_last f = Some id ->
  id ∈ all_held s /\ id ∉ L ++ all_waiting s.
Proof.
  intros [(W & _ & H) _] Hi Hl. pose proof (fi_nodup _ _ _ H) as Hnd. unfold all_held, all_waiting in *.
  assert (Hin : id ∈ concat (map (fun f => option_list (f_last f)) (fr_list s))).
  { apply list_elem_of_In, in_concat. exists (option_list (f_last f)). split.
    - apply (in_map (fun f => option_list (f_last f))), list_elem_of_In, list_elem_of_lookup. eauto.
    - rewrite Hl. by left. }
  rewrite <- app_assoc in Hnd. apply list.NoDup_app in Hnd as (_ & _ & Hnd).
  rewrite held_split in Hnd |- *. split; [apply elem_of_app; by right|].
  rewrite app_assoc in Hnd. apply list.NoDup_app in Hnd as (_ & Hd & _). intros Hw. by apply (Hd id).
Qed.

(** A change of friendship [i]; the buffers [D] are forgotten. *)
Lemma inv_mod D L L' ex ex' s i f g :
  friend_inv L ex s -> fr_list s !! i = Some f -> (D <> [] -> lossy) ->
  L ++ held f ≡ₚ D ++ L' ++ held (g f) ->
  L' ++ waiting (g f) ⊆ L ++ waiting f ->
  (ex' = Some i \/ size_ok (g f)) ->
  (forall j, j <> i -> ex' <> Some j -> ex <> Some j) ->
  friend_inv L' ex' (s <| fr_list := alter g i (fr_list s) |>).
Proof.
  intros [(W & HW & H) Hw] Hi HD Hp Hsub Hs Hex. split.
  - exists (W ++ D). split.
    + destruct D as [|id D]; [by rewrite app_nil_r|]. right. by apply HD.
    + eapply own_mod; try done. by rewrite <- !app_assoc, Hp.
  - destruct (concat_map_alter waiting g (fr_list s) i f Hi) as (R & H1 & H2).
    unfold all_waiting, advq in *. cbn [update_field fr_list fr_adv]. intros id Hid. apply Hw.
    rewrite H2, app_assoc, elem_of_app in Hid. rewrite H1, app_assoc, elem_of_app.
    destruct Hid as [Hid|Hid]; [left; by apply Hsub|by right].
Qed.

Lemma inv_same L ex s s' :
  friend_inv L ex s -> fr_list s' = fr_list s -> av_queue (fr_adv s') = av_queue (fr_adv s) ->
  fr_refs s' = fr_refs s -> pool_wf (av_pool (fr_adv s')) ->
  friend_inv L ex s'.
Proof.
  intros [(W & HW & H) Hw] Hl Ha Hr Hp. split; [exists W; split; [done|by eapply own_same]|].
  unfold all_waiting, advq in *. by rewrite Hl, Ha.
Qed.

Lemma inv_unref L ex s id :
  friend_inv (id :: L) ex s -> friend_inv L ex (s <| fr_adv := av_unref id (fr_adv s) |>).
Proof.
  intros [(W & HW & H) Hw]. split.
  - exists W. split; [done|]. apply own_unref. eapply own_perm; [|exact H]. solve_Permutation.
  - intros j Hj. apply Hw. by right.
Qed.

Lemma inv_alloc L ex s a id type xc xi :
  friend_inv L ex s -> bt_mesh_adv_create_from_pool type xc xi (fr_adv s) = Some (id, a) ->
  friend_inv (id :: L) ex (s <| fr_adv := a |>).
Proof.
  intros [(W & HW & H) Hw] Ha. destruct (own_alloc _ _ _ _ _ _ _ _ H Ha) as (H1 & Hid & Hq). split.
  - exists W. split; [done|]. eapply own_perm; [|exact H1]. solve_Permutation.
  - intros j. unfold advq in *. cbn [update_field fr_adv app]. rewrite Hq.
    intros [->|Hj]%elem_of_cons; [done|by apply Hw].
Qed.

Lemma inv_send L ex s id cb :
  friend_inv L ex s -> id ∈ all_held s -> id ∉ L ++ all_waiting s -> id ∉ advq s ->
  friend_inv L ex (s <| fr_adv := bt_mesh_adv_send id cb (fr_adv s) |>).
Proof.
  intros [(W & HW & H) Hw] Hid Hnw Hni. split.
  - exists W. split; [done|]. apply own_send; [done| |done]. apply elem_of_app. by right.
  - intros j Hj. unfold advq in *. cbn [bt_mesh_adv_send av_update update_field fr_adv av_queue].
    intros [?|?%list_elem_of_singleton]%elem_of_app; [by eapply Hw|by subst].
Qed.

Lemma inv_pop L ex s id q h :
  friend_inv L ex s -> advq s = id :: q ->
  friend_inv L ex (s <| fr_adv := av_unref id (av_update h id (mk_adv (av_pool (fr_adv s)) q)) |>) /\
  friend_inv L ex (s <| fr_adv := av_unref id (mk_adv (av_pool (fr_adv s)) q) |>).
Proof.
  intros [(W & HW & H) Hw] Eq.
  assert (Hw' : forall j, j ∈ L ++ all_waiting s -> j ∉ q).
  { intros j Hj Hin. apply (Hw j Hj). rewrite Eq. by right. }
  split; (split; [exists W; split; [done|]|exact Hw']); [by apply own_pop_update|by apply own_pop].
Qed.

(** Goals about the buffers that wait, after a change of fields. *)
Ltac waiting_solve :=
  unfold waiting; cbn; intros ?; repeat rewrite ?elem_of_app, ?elem_of_cons, ?elem_of_nil; tauto.

Lemma inv_size L s i f : friend_inv L None s -> fr_list s !! i = Some f -> size_ok f.
Proof. intros [(W & _ & H) _] Hi. by apply (fi_size _ _ _ H i). Qed.

Lemma queue_bound L ex s i f :
  friend_inv L ex s -> fr_list s !! i = Some f ->
  Z.of_nat (length L + length (held f)) < 4294967296.
Proof.
  intros H Hi. pose proof (inv_bound _ _ _ H) as Hb. rewrite length_app in Hb.
  destruct (concat_map_alter held (fun f => f) (fr_list s) i f Hi) as (R & HR & _).
  unfold all_held in Hb. rewrite HR, length_app in Hb. lia.
Qed.

Lemma alter_missing {A} (g : A -> A) i (l : list A) : l !! i = None -> alter g i l = l.
Proof.
  intros Hi. apply list_eq. intros j. destruct (decide (i = j)) as [<-|];
    [by rewrite list_lookup_alter_eq, Hi|by rewrite list_lookup_alter_ne].
Qed.

Section ops.
Context {cfg : MeshConfig} {hal : SecHal} {fcfg : FriendConfig} {env : FriendEnv}.

(** ** The operations *)

Lemma par_f_get i (Q : frnd -> friends -> Prop) s :
  (forall f, fr_list s !! i = Some f -> Q f s) -> stm_par (f_get i) Q s.
Proof. intros H. apply par_bind, par_get, par_of_option. exact H. Qed.

Lemma par_f_net (Q : mesh_net -> friends -> Prop) s : Q (fr_net s) s -> stm_par f_net Q s.
Proof. intros H. by apply par_bind, par_get, par_ret. Qed.

(** A step that changes neither friendships nor references. *)
Definition quiet (g : friends -> friends) : Prop :=
  forall s L ex, friend_inv L ex s -> friend_inv L ex (g s) /\ fr_list (g s) = fr_list s.

Lemma quiet_net m : quiet (fun s => s <| fr_net := m |>).
Proof. intros s L ex H. split; [|done]. eapply inv_same; try done. exact (inv_pool _ _ _ H). Qed.
Lemma quiet_update h id : quiet (fun s => s <| fr_adv := av_update h id (fr_adv s) |>).
Proof.
  intros s L ex H. split; [|done].
  eapply inv_same; try done; [apply av_refs_update|]. exact (pool_update_wf _ _ _ (inv_pool _ _ _ H)).
Qed.

Lemma par_quiet g L ex s (Q : unit -> friends -> Prop) :
  quiet g -> friend_inv L ex s ->
  (forall s', friend_inv L ex s' -> fr_list s' = fr_list s -> Q tt s') ->
  stm_par (stm_modify (Ev := friend_event) g) Q s.
Proof. intros Hg H HQ. apply par_modify. destruct (Hg s L ex H) as [H1 H2]. by apply HQ. Qed.

Lemma par_unref id L ex s (Q : unit -> friends -> Prop) :
  friend_inv (id :: L) ex s ->
  (forall s', friend_inv L ex s' -> fr_list s' = fr_list s -> Q tt s') ->
  stm_par (f_unref id) Q s.
Proof. intros H HQ. apply par_modify, HQ; [by apply inv_unref|done]. Qed.

Lemma par_unref_opt o L ex s (Q : unit -> friends -> Prop) :
  friend_inv (option_list o ++ L) ex s ->
  (forall s', friend_inv L ex s' -> fr_list s' = fr_list s -> Q tt s') ->
  stm_par (f_unref_opt o) Q s.
Proof.
  destruct o as [id|]; intros H HQ; unfold f_unref_opt; [exact (par_unref id L ex s Q H HQ)|].
  apply par_ret. by apply HQ.
Qed.

Lemma par_unref_list ids L ex s (Q : unit -> friends -> Prop) :
  friend_inv (ids ++ L) ex s ->
  (forall s', friend_inv L ex s' -> fr_list s' = fr_list s -> Q tt s') ->
  stm_par (f_unref_list ids) Q s.
Proof.
  revert s. induction ids as [|id ids IH]; intros s H HQ; cbn [f_unref_list].
  - apply par_ret. by apply HQ.
  - apply par_bind. eapply par_unref; [exact H|]. intros s1 H1 E1.
    apply IH; [done|]. intros s2 H2 E2. apply HQ; [done|congruence].
Qed.

(** A change of friendship [i], read as [f]; [D] is forgotten. *)
Lemma par_mod i f g D L L' ex ex' s (Q : unit -> friends -> Prop) :
  friend_inv L ex s -> fr_list s !! i = Some f -> (D <> [] -> lossy) ->
  L ++ held f ≡ₚ D ++ L' ++ held (g f) ->
  L' ++ waiting (g f) ⊆ L ++ waiting f ->
  (ex' = Some i \/ size_ok (g f)) ->
  (forall j, j <> i -> ex' <> Some j -> ex <> Some j) ->
  (forall s', friend_inv L' ex' s' -> fr_list s' = alter g i (fr_list s) ->
     fr_list s' !! i = Some (g f) -> Q tt s') ->
  stm_par (f_mod i g) Q s.
Proof.
  intros H Hi HD Hp Hw Hs Hex HQ. apply par_modify, HQ; [by eapply inv_mod|done|].
  cbn. by rewrite list_lookup_alter_eq, Hi.
Qed.

(** The changes to a friendship that leave its buffers alone. *)
Definition keeps_bufs (g : frnd -> frnd) : Prop :=
  forall f, f_queue (g f) = f_queue f /\ f_segs (g f) = f_segs f /\ f_last (g f) = f_last f /\
            f_queue_size (g f) = f_queue_size f.

Lemma par_mod_same i g L ex s (Q : unit -> friends -> Prop) :
  friend_inv L ex s -> keeps_bufs g ->
  (forall s', friend_inv L ex s' -> fr_list s' = alter g i (fr_list s) -> Q tt s') ->
  stm_par (f_mod i g) Q s.
Proof.
  intros H Hg HQ. destruct (fr_list s !! i) as [f|] eqn:Hi.
  - destruct (Hg f) as (Hq & Hsg & Hl & Hz). eapply (par_mod i f g [] L L ex ex); try done.
    + unfold held. by rewrite Hq, Hsg, Hl.
    + unfold waiting. by rewrite Hq, Hsg.
    + destruct (decide (ex = Some i)); [by left|]. right. unfold size_ok. rewrite Hq, Hz.
      destruct H as [(W & _ & H) _]. by apply (fi_size _ _ _ H i).
    + intros s' H' E _. by apply HQ.
  - pose proof (alter_missing g i _ Hi) as E.
    apply par_modify, HQ; [|done]. apply (inv_same L ex s); [done|exact E|done|done|exact (inv_pool _ _ _ H)].
Qed.

(** A buffer released before the friendship forgets it. *)
Lemma par_unref_mod o i f g L L' ex ex' s (Q : unit -> friends -> Prop) :
  friend_inv L ex s -> fr_list s !! i = Some f ->
  L ++ held f ≡ₚ (option_list o ++ L') ++ held (g f) ->
  L' ++ waiting (g f) ⊆ L ++ waiting f ->
  (ex' = Some i \/ size_ok (g f)) ->
  (forall j, j <> i -> ex' <> Some j -> ex <> Some j) ->
  (forall s', friend_inv L' ex' s' -> fr_list s' = alter g i (fr_list s) ->
     fr_list s' !! i = Some (g f) -> Q tt s') ->
  stm_par (f_unref_opt o) (fun _ s1 => stm_par (f_mod i g) Q s1) s.
Proof.
  intros H Hi Hp Hw0 Hs Hex HQ.
  assert (Hg : alter g i (fr_list s) !! i = Some (g f)) by (by rewrite list_lookup_alter_eq, Hi).
  assert (Hwait : forall id, id ∈ L' ++ all_waiting (s <| fr_list := alter g i (fr_list s) |>) -> id ∉ advq s).
  { destruct H as [(W & _ & H) Hw]. destruct (concat_map_alter waiting g (fr_list s) i f Hi) as (R & H1 & H2).
    unfold all_waiting, advq in *. cbn [update_field fr_list fr_adv]. intros id Hid. apply Hw.
    rewrite H2, app_assoc, elem_of_app in Hid. rewrite H1, app_assoc, elem_of_app.
    destruct Hid as [Hid|Hid]; [left; by apply Hw0|by right]. }
  destruct H as [(W & HW & H) _].
  assert (Hown : own (option_list o ++ W ++ L') ex' (s <| fr_list := alter g i (fr_list s) |>)).
  { eapply own_mod; try done. rewrite <- !app_assoc, Hp. solve_Permutation. }
  destruct o as [id|].
  - apply own_unref in Hown. refine (HQ _ (conj (ex_intro _ W (conj HW Hown)) Hwait) eq_refl Hg).
  - refine (HQ _ (conj (ex_intro _ W (conj HW Hown)) Hwait) eq_refl Hg).
Qed.

(** *** Clearing a friendship *)

Lemma concat_nils {A} n : concat (replicate n (@nil A)) = [].
Proof. by induction n. Qed.

Lemma friend_clear_ok i L s :
  friend_inv L None s -> stm_par (friend_clear i) (fun _ s' => friend_inv L None s') s.
Proof.
  intros H. unfold friend_clear. apply par_bind, par_f_get. intros f Hi. par_steps.
  apply par_f_net, par_bind. eapply par_quiet; [apply quiet_net|exact H|]. intros s1 H1 E1.
  rewrite <- E1 in Hi. clear E1. apply par_bind.
  (* the PDU sent last *)
  eapply (par_mono _ (fun _ s2 => friend_inv L None s2 /\ exists f2, fr_list s2 !! i = Some f2 /\
    f_queue f2 = f_queue f /\ f_segs f2 = f_segs f /\ f_last f2 = None)).
  { destruct (f_last f) as [id|] eqn:Hl; [|par_steps; eauto 10].
    apply par_bind. apply (par_mono _ (fun _ s2 => friend_inv L None s2 /\ fr_list s2 = fr_list s1)).
    { destruct (f_pending_buf f); [|by par_steps].
      eapply par_quiet; [apply quiet_update|exact H1|]. done. }
    intros _ s2 [H2 E2]. rewrite <- E2 in Hi. apply par_bind.
    eapply (par_unref_mod (Some id) i f _ L L None None); try done.
    - unfold held. cbn. rewrite Hl. cbn. solve_Permutation.
    - right. exact (inv_size _ _ _ _ H2 Hi).
    - intros s3 H3 _ Hi3. split; [done|]. eexists. split; [exact Hi3|done]. }
  intros _ s2 (H2 & f2 & Hi2 & Hq2 & Hs2 & Hl2). apply par_bind.
  eapply (par_mod i f2 _ [] L (f_queue f ++ L) None (Some i)); try done.
  { unfold held. cbn. rewrite Hq2. solve_Permutation. }
  { unfold waiting. cbn. rewrite Hq2. waiting_solve. }
  { by left. }
  intros s3 H3 _ Hi3. apply par_bind. eapply par_unref_list; [exact H3|]. intros s4 H4 E4.
  rewrite <- E4 in Hi3. apply par_bind.
  eapply (par_mod i _ _ [] L (concat (f_segs f) ++ L) (Some i) (Some i)); [done|exact Hi3|done|..].
  { unfold held. cbn. rewrite Hs2, concat_nils. cbn. solve_Permutation. }
  { unfold waiting. cbn. rewrite Hs2, concat_nils. waiting_solve. }
  { by left. }
  { done. }
  intros s5 H5 _ Hi5. apply par_bind. eapply par_unref_list; [exact H5|]. intros s6 H6 E6.
  rewrite <- E6 in Hi5.
  eapply (par_mod i _ _ [] L L (Some i) None); [done|exact Hi5|..]; try done.
  - by right.
  - intros j Hj _ [= ->]. done.
Qed.

(** *** Allocation *)

Lemma discard_ok L s :
  friend_inv L None s ->
  stm_par discard_buffer (fun _ s' => friend_inv L None s' \/ fr_adv s' = fr_adv s) s.
Proof.
  intros H. unfold discard_buffer. par_steps. destruct (fr_list s) as [|f0 l] eqn:El; [done|].
  set (k := most_queued _ _ _ _). apply par_bind, par_f_get. intros f Hk. apply par_bind.
  destruct (f_queue f) as [|id q] eqn:Eq.
  - par_steps. by right.
  - eapply (par_mod k f _ [] L (id :: L) None (Some k)); try done.
    { unfold held. cbn. rewrite Eq. cbn. solve_Permutation. }
    { unfold waiting. cbn. rewrite Eq. waiting_solve. }
    { by left. }
    intros s1 H1 _ Hk1. apply par_bind. eapply par_unref; [exact H1|]. intros s2 H2 E2.
    rewrite <- E2 in Hk1.
    eapply (par_mod k _ _ [] L L (Some k) None); [done|exact Hk1|..]; try done.
    + right. pose proof (inv_size _ _ _ _ H Hk) as Hz. unfold size_ok in *.
      cbn. rewrite Hz, Eq. pose proof (queue_bound _ _ _ _ _ H Hk) as Hb.
      unfold held in Hb. rewrite Eq, length_app in Hb. cbn [length tail] in *. word_lia.
    + intros j Hj _ [= ->]. done.
    + intros s3 H3 _ _. by left.
Qed.

Lemma alloc_ok src L s :
  friend_inv L None s ->
  stm_par (friend_buf_alloc 2 src) (fun id s' => friend_inv (id :: L) None s') s.
Proof.
  intros H. unfold friend_buf_alloc. apply par_bind.
  apply (par_mono _ (fun id s' => friend_inv (id :: L) None s')).
  2: { intros id s' H'. par_steps. eapply par_quiet; [apply quiet_update|exact H'|].
    intros. by par_steps. }
  cbn [friend_buf_alloc_loop]. par_steps.
  destruct (bt_mesh_adv_create_from_pool _ _ _ (fr_adv s)) as [[id a]|] eqn:Ha.
  { par_steps. by eapply inv_alloc. }
  apply par_bind. eapply par_mono; [by apply discard_ok|]. cbv beta. intros _ s1 [H1|E1].
  - par_steps. destruct (bt_mesh_adv_create_from_pool _ _ _ (fr_adv s1)) as [[id a]|] eqn:Ha1.
    + par_steps. by eapply inv_alloc.
    + par_steps. eapply par_mono; [by apply discard_ok|]. by intros.
  - par_steps. rewrite E1, Ha. par_steps. unfold stm_par. by destruct (discard_buffer s1) as [[[]]|].
Qed.

(** *** PDUs *)

Definition opt_held (r : option nat) (L : list nat) : list nat := option_list r ++ L.

Lemma create_ok i info sdu L s :
  friend_inv L None s ->
  stm_par (create_friend_pdu i info sdu) (fun r s' => friend_inv (opt_held r L) None s') s.
Proof.
  intros H. unfold create_friend_pdu. apply par_bind, par_f_get. intros f Hi.
  apply par_bind, par_f_net, par_bind, par_of_option. intros sub _.
  apply par_bind. eapply par_mono; [by apply alloc_ok|]. cbv beta. intros id s1 H1.
  destruct (encode_friend_pdu _ _ _ _ _); [| |done].
  - apply par_bind. eapply par_quiet; [apply quiet_update|exact H1|]. intros. by par_steps.
  - apply par_bind. eapply par_unref; [exact H1|]. intros. by par_steps.
Qed.

Lemma next_seq_ok L s :
  friend_inv L None s -> stm_par f_next_seq (fun _ s' => friend_inv L None s') s.
Proof.
  intros H. unfold f_next_seq. apply par_bind, par_f_net, par_bind.
  eapply par_quiet; [apply quiet_net|exact H|]. intros. by par_steps.
Qed.

Lemma encode_ctl_ok i op data L s :
  friend_inv L None s ->
  stm_par (encode_friend_ctl i op data) (fun r s' => friend_inv (opt_held r L) None s') s.
Proof.
  intros H. unfold encode_friend_ctl. apply par_bind, par_f_get. intros f Hi. apply par_bind.
  eapply par_mono; [by apply next_seq_ok|]. cbv beta. intros seq s1 H1. apply par_bind, par_f_net.
  by apply create_ok.
Qed.

Lemma encode_update_ok i md L s :
  friend_inv L None s ->
  stm_par (encode_update i md) (fun r s' => friend_inv (opt_held r L) None s') s.
Proof.
  intros H. unfold encode_update. apply par_bind, par_f_get. intros f Hi.
  apply par_bind, par_f_net. by apply encode_ctl_ok.
Qed.

Lemma set_last_ok i id L s :
  friend_inv (id :: L) None s -> stm_par (set_last i id) (fun _ s' => friend_inv L None s') s.
Proof.
  intros H. unfold set_last. apply par_bind, par_f_get. intros f Hi. apply par_bind.
  eapply (par_unref_mod (f_last f) i f _ (id :: L) L None None); try done.
  - unfold held. cbn. solve_Permutation.
  - waiting_solve.
  - right. exact (inv_size _ _ _ _ H Hi).
Qed.

Lemma enqueue_buf_ok i id L s :
  friend_inv (id :: L) None s -> stm_par (enqueue_buf i id) (fun _ s' => friend_inv L None s') s.
Proof.
  intros H. unfold enqueue_buf. apply par_bind, par_f_get. intros f Hi.
  pose proof (inv_size _ _ _ _ H Hi) as Hz. pose proof (queue_bound _ _ _ _ _ H Hi) as Hb.
  unfold held in Hb. rewrite length_app in Hb. cbn [length] in Hb.
  eapply (par_mod i f _ [] (id :: L) L None None); try done.
  - unfold held. cbn. solve_Permutation.
  - waiting_solve.
  - right. unfold size_ok in *. cbn. rewrite Hz, length_app. cbn [length]. word_lia.
Qed.

Lemma enqueue_update_ok i md L s :
  friend_inv L None s -> stm_par (enqueue_update i md) (fun _ s' => friend_inv L None s') s.
Proof.
  intros H. unfold enqueue_update. apply par_bind.
  eapply par_mono; [by apply encode_update_ok|]. cbv beta. intros [id|] s1 H1; [|by apply par_ret].
  apply par_bind. eapply par_mod_same; [exact H1|done|]. intros s2 H2 _. by apply enqueue_buf_ok.
Qed.

Lemma recv_delay_ok i L s :
  friend_inv L None s -> stm_par (friend_recv_delay i) (fun _ s' => friend_inv L None s') s.
Proof.
  intros H. unfold friend_recv_delay. apply par_bind. eapply par_mod_same; [exact H|done|].
  intros s1 H1 _. apply par_bind, par_f_get. intros. by par_steps.
Qed.

Lemma sub_cfm_ok i xact L s :
  friend_inv L None s -> stm_par (enqueue_sub_cfm i xact) (fun _ s' => friend_inv L None s') s.
Proof.
  intros H. unfold enqueue_sub_cfm. apply par_bind.
  eapply par_mono; [by apply encode_ctl_ok|]. cbv beta. intros [id|] s1 H1; [|by apply par_ret].
  by apply set_last_ok.
Qed.

Lemma foldl_keeps (change : Z -> frnd -> frnd) l :
  (forall a, keeps_bufs (change a)) -> keeps_bufs (fun f => foldl (fun f a => change a f) f l).
Proof.
  intros Hc. induction l as [|a l IH]; intros f; [done|]. cbn.
  destruct (IH (change a f)) as (-> & -> & -> & ->). apply Hc.
Qed.

Lemma sub_change_ok change rx buf s :
  (forall a, keeps_bufs (change a)) -> friend_inv [] None s ->
  stm_par (friend_sub_change change rx buf) (fun _ s' => friend_inv [] None s') s.
Proof.
  intros Hc H. unfold friend_sub_change. case_decide; [by par_steps|]. par_steps.
  apply par_of_option. intros net_idx _. destruct (bt_mesh_friend_find _ _ _ _ _) as [i|]; [|by par_steps].
  apply par_bind, par_f_get. intros f Hi. destruct (f_pending_buf f); [by par_steps|].
  apply par_bind. eapply par_mono; [by apply recv_delay_ok|]. cbv beta. intros _ s1 H1. apply par_bind.
  eapply par_mod_same; [exact H1|by apply foldl_keeps|]. intros s2 H2 _. apply par_bind.
  eapply par_mono; [by apply sub_cfm_ok|]. cbv beta. intros. by par_steps.
Qed.

Lemma sub_add_keeps a : keeps_bufs (friend_sub_add a).
Proof. intros f. unfold friend_sub_add. by destruct (find_index _ _). Qed.
Lemma sub_rem_keeps a : keeps_bufs (friend_sub_rem a).
Proof. intros f. unfold friend_sub_rem. by destruct (find_index _ _). Qed.

Lemma poll_ok rx buf s :
  friend_inv [] None s ->
  stm_par (bt_mesh_friend_poll rx buf) (fun _ s' => friend_inv [] None s') s.
Proof.
  intros H. unfold bt_mesh_friend_poll. destruct buf as [|fsn buf]; [by par_steps|]. par_steps.
  apply par_of_option. intros net_idx _. destruct (bt_mesh_friend_find _ _ _ _ _) as [i|]; [|by par_steps].
  apply par_bind, par_f_get. intros f Hi. case_if; [by par_steps|].
  destruct (f_pending_buf f); [by par_steps|].
  assert (Hend : forall s', friend_inv [] None s' ->
    stm_par (if bool_decide (f_queue f = []) then enqueue_update i 0 else mret tt)
      (fun _ s2 => stm_par (Ev := friend_event) (mret 0) (fun _ s' => friend_inv [] None s') s2) s').
  { intros s' H'. case_if; [|by par_steps]. eapply par_mono; [by apply enqueue_update_ok|].
    cbv beta. intros. by par_steps. }
  (* [friend_recv_delay] and the established flag keep what was read *)
  apply par_bind. unfold friend_recv_delay. par_steps.
  eapply par_mod_same; [exact H|done|]. intros s1 H1 E1. apply par_bind, par_f_get. intros f1 Hi1.
  par_steps. eapply par_mod_same; [exact H1|done|]. intros s2 H2 E2.
  assert (Hi2 : exists f2, fr_list s2 !! i = Some f2 /\ f_last f2 = f_last f /\ f_queue f2 = f_queue f).
  { rewrite E2, E1, !list_lookup_alter_eq, Hi. eexists. split; [reflexivity|done]. }
  destruct Hi2 as (f2 & Hi2 & Hl2 & Hq2).
  destruct (f_last f) as [id|] eqn:Hl.
  - case_if; apply par_bind.
    + eapply par_mod_same; [exact H2|done|]. intros. by par_steps.
    + pose proof (par_unref_mod (Some id) i f2 (fun f => (f <| f_last := None |>) <| f_fsn := Z.land fsn 1 |>)
        [] [] None None s2) as Hu. unfold f_unref_opt in Hu.
      eapply par_mono; [|intros ? ? Hk; apply par_bind; exact Hk].
      eapply Hu; [done|exact Hi2|..]; try done.
      * unfold held. cbn. rewrite Hl2. cbn. solve_Permutation.
      * right. exact (inv_size _ _ _ _ H2 Hi2).
      * intros s3 H3 _ _. apply par_bind. by apply Hend.
  - apply par_bind. eapply par_mod_same; [exact H2|done|]. intros s3 H3 _. apply par_bind. by apply Hend.
Qed.

(** *** What other components do *)

(** [bt_mesh_ctl_send] may queue the message here, through the functions of this
    file. *)
Definition ctl_send_safe : Prop :=
  forall tx op data s, friend_inv [] None s ->
    stm_par (f_ctl_send tx op data) (fun _ s' => friend_inv [] None s') s.

Context (Hctl : ctl_send_safe).

Lemma f_ctl_send_ok tx op data cb s :
  friend_inv [] None s -> stm_par (ctl_send tx op data cb) (fun _ s' => friend_inv [] None s') s.
Proof. intros H. unfold ctl_send. par_steps. by apply Hctl. Qed.

(** Sections of code that only change fields without buffers. *)
Lemma mod_same_ok i g s :
  friend_inv [] None s -> keeps_bufs g -> stm_par (f_mod i g) (fun _ s' => friend_inv [] None s') s.
Proof. intros H Hg. by eapply par_mod_same. Qed.

Lemma friend_clear_msg_ok rx buf s :
  friend_inv [] None s ->
  stm_par (bt_mesh_friend_clear rx buf) (fun _ s' => friend_inv [] None s') s.
Proof.
  intros H. unfold bt_mesh_friend_clear. case_decide; [by par_steps|]. par_steps.
  apply par_of_option. intros net_idx _. destruct (bt_mesh_friend_find _ _ _ _ _) as [i|]; [|by par_steps].
  apply par_bind, par_f_get. intros f Hi. case_if; [by par_steps|].
  apply par_bind. eapply par_mono; [by apply f_ctl_send_ok|]. cbv beta. intros _ s1 H1.
  apply par_bind. eapply par_mono; [by apply friend_clear_ok|]. cbv beta. intros. by par_steps.
Qed.

Lemma send_friend_clear_ok i s :
  friend_inv [] None s -> stm_par (send_friend_clear i) (fun _ s' => friend_inv [] None s') s.
Proof. intros H. apply par_bind, par_f_get. intros f Hi. by apply f_ctl_send_ok. Qed.

Lemma clear_sent_ok i s :
  friend_inv [] None s -> stm_par (friend_clear_sent i) (fun _ s' => friend_inv [] None s') s.
Proof. intros H. apply par_bind, par_f_get. intros f Hi. par_steps. by apply mod_same_ok. Qed.

Lemma clear_timeout_ok i s :
  friend_inv [] None s -> stm_par (clear_timeout i) (fun _ s' => friend_inv [] None s') s.
Proof.
  intros H. apply par_bind, par_f_get. intros f Hi. cbv zeta.
  case_if; [by apply mod_same_ok|by apply send_friend_clear_ok].
Qed.

Lemma clear_start_ok i s :
  friend_inv [] None s -> stm_par (clear_procedure_start i) (fun _ s' => friend_inv [] None s') s.
Proof.
  intros H. apply par_bind. eapply par_mono; [by apply mod_same_ok|]. cbv beta. intros _ s1 H1.
  by apply send_friend_clear_ok.
Qed.

Lemma clear_cfm_ok rx buf s :
  friend_inv [] None s ->
  stm_par (bt_mesh_friend_clear_cfm rx buf) (fun _ s' => friend_inv [] None s') s.
Proof.
  intros H. unfold bt_mesh_friend_clear_cfm. case_decide; [by par_steps|]. par_steps.
  destruct (find_clear _ _) as [i|]; [|by par_steps]. apply par_bind, par_f_get. intros f Hi.
  do 2 (case_if; [by par_steps|]). par_steps. eapply par_mono; [by apply mod_same_ok|].
  cbv beta. intros. by par_steps.
Qed.

(** *** Requests *)

Lemma enqueue_offer_ok i rssi s :
  friend_inv [] None s -> stm_par (enqueue_offer i rssi) (fun _ s' => friend_inv [] None s') s.
Proof.
  intros H. apply par_bind, par_f_get. intros f Hi. apply par_bind.
  eapply par_mono; [by apply encode_ctl_ok|]. cbv beta. intros [id|] s1 H1; [|by apply par_ret].
  apply par_bind. eapply par_mod_same; [exact H1|done|]. intros s2 H2 _. by apply set_last_ok.
Qed.

Lemma init_friend_ok i rx net_idx buf s :
  friend_inv [] None s -> stm_par (init_friend i rx net_idx buf) (fun _ s' => friend_inv [] None s') s.
Proof.
  intros H. unfold init_friend. apply par_bind. eapply par_mono; [by apply mod_same_ok|].
  cbv beta. intros _ s1 H1. apply par_bind.
  apply (par_mono _ (fun _ s' => friend_inv [] None s')).
  { case_if; [by apply clear_start_ok|by par_steps]. }
  intros _ s2 H2. par_steps. apply par_f_get. intros f Hi. apply par_bind, par_f_net.
  apply par_bind, par_of_option. intros sub _. apply par_bind.
  eapply par_quiet; [apply quiet_net|exact H2|]. intros s3 H3 _. by apply enqueue_offer_ok.
Qed.

Lemma req_ok rx buf s :
  friend_inv [] None s ->
  stm_par (bt_mesh_friend_req rx buf) (fun _ s' => friend_inv [] None s') s.
Proof.
  intros H. unfold bt_mesh_friend_req. case_decide; [by par_steps|].
  case_if; [by par_steps|]. cbv zeta. do 4 (case_if; [by par_steps|]). par_steps.
  apply par_of_option. intros net_idx _. destruct (bt_mesh_friend_find _ _ _ _ _) as [i|].
  - apply par_bind. eapply par_mono; [by apply friend_clear_ok|]. cbv beta. intros _ s1 H1.
    apply par_bind. eapply par_mono; [by apply init_friend_ok|]. cbv beta. intros. by par_steps.
  - destruct (find_index _ _) as [i|]; [|by par_steps]. apply par_bind.
    eapply par_mono; [by apply mod_same_ok|]. cbv beta. intros _ s1 H1.
    apply par_bind. eapply par_mono; [by apply init_friend_ok|]. cbv beta. intros. by par_steps.
Qed.

(** *** Queueing *)

Lemma update_first_ok i L s :
  friend_inv L None s -> stm_par (update_first i) (fun _ s' => friend_inv L None s') s.
Proof.
  intros H. apply par_bind, par_f_get. intros f Hi. case_if; [by apply enqueue_update_ok|by par_steps].
Qed.

Lemma clear_seq_auth_ok q L s :
  friend_inv L None s ->
  stm_par (clear_seq_auth q) (fun _ s' => friend_inv L None s' /\ fr_list s' = fr_list s) s.
Proof.
  revert s. induction q as [|id q IH]; intros s H; cbn [clear_seq_auth]; [by par_steps|].
  apply par_bind. eapply par_quiet; [apply quiet_update|exact H|]. intros s1 H1 E1.
  rewrite <- E1. by apply IH.
Qed.

Lemma concat_alter_app (q : list (list nat)) j id :
  (j < length q)%nat -> concat (alter (fun l => l ++ [id]) j q) ≡ₚ id :: concat q.
Proof.
  revert j. induction q as [|l q IH]; intros [|j] Hj; cbn in *; [lia|lia|solve_Permutation|].
  change (list_alter ?g ?i ?l) with (alter g i l). rewrite IH by lia. solve_Permutation.
Qed.

Lemma concat_insert_nil (q : list (list nat)) j l :
  q !! j = Some l -> concat q ≡ₚ l ++ concat (<[j := []]> q).
Proof.
  revert j. induction q as [|l' q IH]; intros [|j] Hj; cbn in *; [done|done|by injection Hj as ->|].
  change (list_insert ?j ?x ?l) with (<[j := x]> l). rewrite (IH j) by done. solve_Permutation.
Qed.

Lemma get_seg_lt a f src sa j : get_seg a f src sa = Some j -> (j < length (f_segs f))%nat.
Proof.
  unfold get_seg. destruct (find_index _ _) as [k|] eqn:E; [intros [= ->]|intros E'];
    [apply find_index_Some in E as (x & Hx & _)|apply find_index_Some in E' as (x & Hx & _)];
    by eapply lookup_lt_Some.
Qed.

Lemma par_add_seg i j id f s (Q : unit -> friends -> Prop) :
  friend_inv [id] None s -> fr_list s !! i = Some f -> (j < length (f_segs f))%nat ->
  (forall s', friend_inv [] None s' -> Q tt s') ->
  stm_par (f_mod i (fun f => f <| f_segs := alter (fun q => q ++ [id]) j (f_segs f) |>)) Q s.
Proof.
  intros H Hi Hj HQ. eapply (par_mod i f _ [] [id] [] None None); try done.
  - unfold held. cbn. rewrite concat_alter_app by done. solve_Permutation.
  - unfold waiting. cbn. rewrite concat_alter_app by done. waiting_solve.
  - right. exact (inv_size _ _ _ _ H Hi).
  - intros s' H' _ _. by apply HQ.
Qed.

(** The segments of a complete message move to the queue. *)
Lemma merge_seg_ok i j s :
  friend_inv [] None s ->
  stm_par (update_first i ;; f <- f_get i ;; q <- stm_of_option (f_segs f !! j) ;;
    clear_seq_auth q ;;
    f_mod i (fun f => ((f <| f_queue_size := u32 (f_queue_size f + Z.of_nat (length q)) |>)
      <| f_queue := f_queue f ++ q |>) <| f_segs := <[j := []]> (f_segs f) |>))
    (fun _ s' => friend_inv [] None s') s.
Proof.
  intros H. apply par_bind. eapply par_mono; [by apply update_first_ok|]. cbv beta. intros _ s1 H1.
  apply par_bind, par_f_get. intros f Hi. apply par_bind, par_of_option. intros q Hq.
  apply par_bind. eapply par_mono; [by apply clear_seq_auth_ok|]. cbv beta. intros _ s2 [H2 E2].
  rewrite <- E2 in Hi. pose proof (queue_bound _ _ _ _ _ H2 Hi) as Hb.
  unfold held in Hb. rewrite !length_app in Hb.
  rewrite (Permutation_length (concat_insert_nil _ _ _ Hq)), length_app in Hb.
  eapply (par_mod i f _ [] [] [] None None); try done.
  - unfold held. cbn. rewrite (concat_insert_nil _ _ _ Hq) at 1. solve_Permutation.
  - unfold waiting. cbn. rewrite (concat_insert_nil _ _ _ Hq) at 1. waiting_solve.
  - right. pose proof (inv_size _ _ _ _ H2 Hi) as Hz. unfold size_ok in *. cbn.
    rewrite Hz, length_app. word_lia.
Qed.

Lemma enqueue_pdu_ok i type id s :
  friend_inv [id] None s ->
  stm_par (enqueue_friend_pdu i type id) (fun _ s' => friend_inv [] None s') s.
Proof.
  intros H.
  destruct type; cbn [enqueue_friend_pdu].
  - apply par_bind. eapply par_mono; [by apply update_first_ok|]. cbv beta. intros _ s1 H1.
    by apply enqueue_buf_ok.
  - apply par_bind, par_f_get. intros f Hi. unfold f_buf. par_steps. apply par_of_option. intros b _.
    par_steps. destruct (get_seg _ _ _ _) as [j|] eqn:Hj; [|by eapply par_unref].
    apply par_bind. eapply (par_add_seg i j id f); [done|done|by eapply get_seg_lt|]. intros s1 H1.
    by par_steps.
  - apply par_bind, par_f_get. intros f Hi. unfold f_buf. par_steps. apply par_of_option. intros b _.
    par_steps. destruct (get_seg _ _ _ _) as [j|] eqn:Hj; [|by eapply par_unref].
    apply par_bind. eapply (par_add_seg i j id f); [done|done|by eapply get_seg_lt|]. intros s1 H1.
    by apply merge_seg_ok.
Qed.

Lemma purge_ok i sa src s :
  friend_inv [] None s ->
  stm_par (friend_purge_old_ack i sa src) (fun _ s' => friend_inv [] None s') s.
Proof.
  intros H. unfold friend_purge_old_ack. par_steps. apply par_f_get. intros f Hi.
  destruct (find_index _ _) as [k|] eqn:Hk; [|by par_steps].
  apply find_index_Some in Hk as (id & Hid & _). rewrite Hid. apply par_bind.
  pose proof (delete_Permutation _ _ _ Hid) as Hp. pose proof (Permutation_length Hp) as Hlen.
  eapply (par_mod i f _ [] [] [id] None None); try done.
  - unfold held. cbn. rewrite Hp at 1. solve_Permutation.
  - assert (Hx : forall x, x ∈ f_queue f <-> x = id \/ x ∈ delete k (f_queue f))
      by (intros x; rewrite Hp at 1; apply elem_of_cons).
    unfold waiting. cbn. intros x. rewrite elem_of_cons, !elem_of_app, Hx. tauto.
  - right. pose proof (inv_size _ _ _ _ H Hi) as Hz. unfold size_ok in *. cbn. rewrite Hz, Hlen.
    pose proof (queue_bound _ _ _ _ _ H Hi) as Hb. unfold held in Hb.
    rewrite length_app, Hlen in Hb. cbn [length] in *. word_lia.
  - intros s1 H1 _ _. eapply par_unref; [exact H1|]. done.
Qed.

Lemma purge_ack_ok i type sa src s :
  friend_inv [] None s -> stm_par (purge_ack i type sa src) (fun _ s' => friend_inv [] None s') s.
Proof. intros H. destruct type, sa; cbn [purge_ack]; try (by apply par_ret). by apply purge_ok. Qed.

Lemma lpn_enqueue_ok i info type sa sbuf s :
  friend_inv [] None s ->
  stm_par (friend_lpn_enqueue i info type sa sbuf) (fun _ s' => friend_inv [] None s') s.
Proof.
  intros H. apply par_bind. eapply par_mono; [by apply create_ok|]. cbv beta.
  intros [id|] s1 H1; [|by par_steps]. apply par_bind.
  apply (par_mono _ (fun _ s2 => friend_inv [id] None s2)).
  - destruct sa; [|by par_steps]. eapply par_quiet; [apply quiet_update|exact H1|]. done.
  - intros _ s2 H2. by apply enqueue_pdu_ok.
Qed.

Lemma enqueue_rx_one_ok rx type sa sbuf i s :
  friend_inv [] None s ->
  stm_par (friend_lpn_enqueue_rx rx type sa sbuf i) (fun _ s' => friend_inv [] None s') s.
Proof.
  intros H. apply par_bind. eapply par_mono; [by apply purge_ack_ok|]. cbv beta. intros _ s1 H1.
  apply par_bind, par_f_net. by apply lpn_enqueue_ok.
Qed.

Lemma enqueue_tx_one_ok tx type sa sbuf i s :
  friend_inv [] None s ->
  stm_par (friend_lpn_enqueue_tx tx type sa sbuf i) (fun _ s' => friend_inv [] None s') s.
Proof.
  intros H. apply par_bind. eapply par_mono; [by apply purge_ack_ok|]. cbv beta. intros _ s1 H1.
  apply par_bind. eapply par_mono; [by apply next_seq_ok|]. cbv beta. intros seq s2 H2.
  apply par_bind, par_f_net. by apply lpn_enqueue_ok.
Qed.

Lemma for_frnds_ok p body :
  (forall i s, friend_inv [] None s -> stm_par (body i) (fun _ s' => friend_inv [] None s') s) ->
  forall s, friend_inv [] None s -> stm_par (all_frnds p body) (fun _ s' => friend_inv [] None s') s.
Proof.
  intros Hbody s H. unfold all_frnds. par_steps. generalize (length (fr_list s)) at 1. intros n.
  generalize 0%nat. revert s H. induction n as [|n IH]; intros s H i; cbn [for_frnds]; [by par_steps|].
  apply par_bind, par_f_get. intros f Hi. apply par_bind.
  apply (par_mono _ (fun _ s1 => friend_inv [] None s1)).
  - case_if; [by apply Hbody|by par_steps].
  - intros _ s1 H1. by apply IH.
Qed.

Lemma concat_split (p : list nat -> bool) (q : list (list nat)) :
  concat q ≡ₚ concat (map (fun l => if p l then l else []) q) ++
              concat (map (fun l => if p l then [] else l) q).
Proof.
  induction q as [|l q IH]; [done|]. cbn. rewrite IH. destruct (p l); cbn; solve_Permutation.
Qed.

Lemma clear_segs_ok src sa i s :
  friend_inv [] None s -> stm_par (clear_segs src sa i) (fun _ s' => friend_inv [] None s') s.
Proof.
  intros H. unfold clear_segs. par_steps. apply par_f_get. intros f Hi. apply par_bind.
  set (gone := concat (map (fun q => if seg_matches (fr_adv s) src sa q then q else []) (f_segs f))).
  eapply (par_mod i f _ [] [] gone None None); try done.
  - unfold held. cbn. rewrite (concat_split (seg_matches (fr_adv s) src sa) (f_segs f)) at 1.
    fold gone. solve_Permutation.
  - unfold waiting. cbn. rewrite (concat_split (seg_matches (fr_adv s) src sa) (f_segs f)) at 1.
    fold gone. waiting_solve.
  - right. exact (inv_size _ _ _ _ H Hi).
  - intros s1 H1 _ _. apply (par_unref_list gone []  None); [by rewrite app_nil_r|]. done.
Qed.

(** *** Sending *)

Lemma send_start_ok i s :
  friend_inv [] None s -> stm_par (buf_send_start i) (fun _ s' => friend_inv [] None s') s.
Proof.
  intros H. unfold buf_send_start. apply par_bind, par_f_get. intros f Hi. apply par_bind.
  eapply par_mod_same; [exact H|done|]. intros s1 H1 E1.
  assert (Hi1 : fr_list s1 !! i = Some (f <| f_pending_buf := false |>))
    by (by rewrite E1, list_lookup_alter_eq, Hi).
  destruct (f_established f); [by par_steps|]. apply par_bind.
  eapply (par_unref_mod (f_last f) i _ _ [] [] None None); [done|exact Hi1|..]; try done.
  - unfold held. cbn. solve_Permutation.
  - right. exact (inv_size _ _ _ _ H1 Hi1).
Qed.

Lemma send_end_ok i s :
  friend_inv [] None s -> stm_par (buf_send_end i) (fun _ s' => friend_inv [] None s') s.
Proof. intros H. apply par_bind, par_f_get. intros f Hi. case_if; by par_steps. Qed.

Lemma send_last_ok i id f s :
  friend_inv [] None s -> fr_list s !! i = Some f -> f_last f = Some id ->
  stm_par (send_last i id) (fun _ s' => friend_inv [] None s') s.
Proof.
  intros H Hi Hl. unfold send_last. apply par_bind. eapply par_mod_same; [exact H|done|].
  intros s1 H1 E1.
  assert (Hi1 : fr_list s1 !! i = Some ((f <| f_pending_req := false |>) <| f_pending_buf := true |>))
    by (by rewrite E1, list_lookup_alter_eq, Hi).
  destruct (last_held _ _ _ _ _ _ H1 Hi1 Hl) as [Hh Hw].
  par_steps. case_decide as Hin; [done|]. apply par_modify. by apply inv_send.
Qed.

(** The next buffer of the queue becomes the PDU sent last. *)
Lemma take_next_ok i f s :
  friend_inv [] None s -> fr_list s !! i = Some f -> (option_list (f_last f) <> [] -> lossy) ->
  stm_par (f_mod i (fun f => (f <| f_last := head (f_queue f) |>) <| f_queue := tail (f_queue f) |>))
    (fun _ s1 => stm_par (match f_queue f with
        | [] => friend_clear i
        | id :: _ =>
            f_mod i (fun f => f <| f_queue_size := u32 (f_queue_size f - 1) |>) ;; send_last i id
        end) (fun _ s' => friend_inv [] None s') s1) s.
Proof.
  intros H Hi HD. pose proof (inv_size _ _ _ _ H Hi) as Hz. unfold size_ok in Hz.
  destruct (f_queue f) as [|id q] eqn:Eq.
  - eapply (par_mod i f _ (option_list (f_last f)) [] [] None None); try done.
    + unfold held. cbn. rewrite Eq. cbn. solve_Permutation.
    + unfold waiting. cbn. rewrite Eq. waiting_solve.
    + right. unfold size_ok. cbn. by rewrite Hz, Eq.
    + intros s1 H1 _ _. by apply friend_clear_ok.
  - eapply (par_mod i f _ (option_list (f_last f)) [] [] None (Some i)); try done.
    + unfold held. cbn. rewrite Eq. cbn. solve_Permutation.
    + unfold waiting. cbn. rewrite Eq. waiting_solve.
    + by left.
    + intros s1 H1 _ Hi1. apply par_bind.
      eapply (par_mod i _ _ [] [] [] (Some i) None); [exact H1|exact Hi1|..]; try done.
      * right. unfold size_ok. cbn. rewrite Hz, Eq. cbn [length tail].
        pose proof (queue_bound _ _ _ _ _ H Hi) as Hb. unfold held in Hb.
        rewrite Eq, length_app in Hb. cbn [length] in Hb. word_lia.
      * intros j Hj _ [= ->]. done.
      * intros s2 H2 _ Hi2. eapply send_last_ok; [done|exact Hi2|]. cbn. by rewrite Eq.
Qed.

Lemma timeout_ok i s :
  friend_inv [] None s -> (forgets s i -> lossy) -> stm_par (friend_timeout i) (fun _ s' => friend_inv [] None s') s.
Proof.
  intros H Hlossy. unfold friend_timeout. apply par_bind, par_f_get. intros f Hi.
  assert (Hnext : (f_last f = None \/ f_send_last f = false) ->
    stm_par (if f_established f && negb (f_pending_req f) then friend_clear i
      else f_mod i (fun f => (f <| f_last := head (f_queue f) |>) <| f_queue := tail (f_queue f) |>) ;;
        match f_queue f with
        | [] => friend_clear i
        | id :: _ =>
            f_mod i (fun f => f <| f_queue_size := u32 (f_queue_size f - 1) |>) ;; send_last i id
        end) (fun _ s' => friend_inv [] None s') s).
  { intros Hsl. destruct (f_established f && negb (f_pending_req f)) eqn:Hep; [by apply friend_clear_ok|].
    assert (HD : option_list (f_last f) <> [] -> lossy).
    { intros Hn. apply Hlossy. exists f. destruct (f_last f); [|done]. by destruct Hsl. }
    apply par_bind. by apply (take_next_ok i f). }
  destruct (f_send_last f); [|apply Hnext; by right].
  destruct (f_last f) as [id|] eqn:Hl; [|apply Hnext; by left].
  clear Hnext. apply par_bind. eapply (par_mod i f _ [] [] [] None None); try done.
  - right. exact (inv_size _ _ _ _ H Hi).
  - intros s1 H1 _ Hi1. eapply send_last_ok; [done|exact Hi1|done].
Qed.

(** *** The advertising thread *)

Lemma adv_effects_ok es s :
  friend_inv [] None s -> stm_par (run_adv_effects es) (fun _ s' => friend_inv [] None s') s.
Proof.
  revert s. induction es as [|e es IH]; intros s H; cbn [run_adv_effects]; [by par_steps|].
  apply par_bind. unfold run_adv_effect. par_steps.
  apply (par_mono _ (fun _ s1 => friend_inv [] None s1)); [|intros _ s1 H1; by apply IH].
  destruct e; [by par_steps|by apply send_start_ok|by par_steps|by par_steps|by apply send_end_ok].
Qed.

Lemma turn_ok L ex s m err effs cb a :
  friend_inv L ex s -> adv_thread_turn m err (fr_adv s) = Some (effs, cb, a) ->
  friend_inv L ex (s <| fr_adv := a |>).
Proof.
  intros H. unfold adv_thread_turn. destruct (av_queue (fr_adv s)) as [|id q] eqn:Eq.
  - intros [= <- <- <-]. eapply inv_same; try done. exact (inv_pool _ _ _ H).
  - destruct (av_buf (fr_adv s) id) as [b|]; [|done]. cbn [mbind option_bind].
    destruct (ab_busy b).
    + unfold adv_send. destruct (adv_type (ab_type b)); [|done]. cbn [mbind option_bind].
      intros [= <- <- <-]. by apply (inv_pop L ex s id q).
    + intros [= <- <- <-]. by apply (inv_pop L ex s id q (fun b => b)).
Qed.

Lemma adv_turn_ok err s :
  friend_inv [] None s -> stm_par (adv_turn err) (fun _ s' => friend_inv [] None s') s.
Proof.
  intros H. unfold adv_turn. par_steps. destruct (fr_sending s); [done|].
  apply par_bind, par_of_option. intros [[effs cb] a] Ha. par_steps.
  pose proof (turn_ok _ _ _ _ _ _ _ _ H Ha) as H1. apply adv_effects_ok.
  eapply inv_same; [exact H1|done|done|done|exact (inv_pool _ _ _ H1)].
Qed.

Lemma adv_exit_ok err s :
  friend_inv [] None s -> stm_par (adv_exit err) (fun _ s' => friend_inv [] None s') s.
Proof.
  intros H. unfold adv_exit. par_steps. destruct (fr_sending s) as [cb|]; [|by par_steps].
  par_steps. apply adv_effects_ok. eapply inv_same; [exact H|done|done|done|exact (inv_pool _ _ _ H)].
Qed.

(** ** Runs *)

Inductive friend_op :=
| OpClearMsg (rx : net_rx) (buf : bytes)
| OpSubAdd (rx : net_rx) (buf : bytes)
| OpSubRem (rx : net_rx) (buf : bytes)
| OpPoll (rx : net_rx) (buf : bytes)
| OpReq (rx : net_rx) (buf : bytes)
| OpClearCfm (rx : net_rx) (buf : bytes)
| OpEnqueueRx (rx : net_rx) (type : friend_pdu_type) (seq_auth : option Z) (pdu : bytes)
| OpEnqueueTx (tx : net_tx) (type : friend_pdu_type) (seq_auth : option Z) (pdu : bytes)
| OpClearIncomplete (net_idx src dst seq_auth : Z)
| OpClearNetIdx (net_idx : Z)
| OpSecUpdate (net_idx : Z)
| OpClearSent (i : nat)
| OpClearTimer (i : nat)
| OpTimer (i : nat)
| OpAdvTurn (err : Z)
| OpAdvExit (err : Z)
| OpNet (m : mesh_net).

Definition ignore {A} (m : F A) : F unit := m ;; mret tt.

Definition friend_do (op : friend_op) : F unit :=
  match op with
  | OpClearMsg rx buf => ignore (bt_mesh_friend_clear rx buf)
  | OpSubAdd rx buf => ignore (bt_mesh_friend_sub_add rx buf)
  | OpSubRem rx buf => ignore (bt_mesh_friend_sub_rem rx buf)
  | OpPoll rx buf => ignore (bt_mesh_friend_poll rx buf)
  | OpReq rx buf => ignore (bt_mesh_friend_req rx buf)
  | OpClearCfm rx buf => ignore (bt_mesh_friend_clear_cfm rx buf)
  | OpEnqueueRx rx t sa pdu => bt_mesh_friend_enqueue_rx rx t sa pdu
  | OpEnqueueTx tx t sa pdu => ignore (bt_mesh_friend_enqueue_tx tx t sa pdu)
  | OpClearIncomplete n src dst sa => bt_mesh_friend_clear_incomplete n src dst sa
  | OpClearNetIdx n => bt_mesh_friend_clear_net_idx n
  | OpSecUpdate n => bt_mesh_friend_sec_update n
  | OpClearSent i => friend_clear_sent i
  | OpClearTimer i => clear_timeout i
  | OpTimer i => friend_timeout i
  | OpAdvTurn err => adv_turn err
  | OpAdvExit err => adv_exit err
  | OpNet m => f_set_net m
  end.

Fixpoint friend_run (ops : list friend_op) : F unit :=
  match ops with [] => mret tt | op :: ops => friend_do op ;; friend_run ops end.

Lemma ignore_ok {A} (m : F A) s :
  stm_par m (fun _ s' => friend_inv [] None s') s ->
  stm_par (ignore m) (fun _ s' => friend_inv [] None s') s.
Proof. intros H. apply par_bind. eapply par_mono; [exact H|]. intros. by par_steps. Qed.

Lemma do_ok op s :
  friend_inv [] None s -> (forall i, op = OpTimer i -> forgets s i -> lossy) -> stm_par (friend_do op) (fun _ s' => friend_inv [] None s') s.
Proof.
  intros H Hlossy. destruct op; cbn [friend_do].
  - by apply ignore_ok, friend_clear_msg_ok.
  - apply ignore_ok, sub_change_ok; [apply sub_add_keeps|done].
  - apply ignore_ok, sub_change_ok; [apply sub_rem_keeps|done].
  - by apply ignore_ok, poll_ok.
  - by apply ignore_ok, req_ok.
  - by apply ignore_ok, clear_cfm_ok.
  - unfold bt_mesh_friend_enqueue_rx. case_if; [by par_steps|].
    apply par_bind, par_f_net, par_bind, par_of_option. intros net_idx _.
    apply for_frnds_ok; [|done]. intros. by apply enqueue_rx_one_ok.
  - apply ignore_ok. unfold bt_mesh_friend_enqueue_tx. par_steps. apply par_of_option.
    intros net_idx _. cbv zeta. case_if; [by par_steps|]. apply par_bind.
    eapply par_mono; [apply for_frnds_ok; [|exact H]; intros; by apply enqueue_tx_one_ok|].
    cbv beta. intros. by par_steps.
  - apply for_frnds_ok; [|done]. intros. by apply clear_segs_ok.
  - apply for_frnds_ok; [|done]. intros. by apply friend_clear_ok.
  - apply for_frnds_ok; [|done]. intros. by apply mod_same_ok.
  - by apply clear_sent_ok.
  - by apply clear_timeout_ok.
  - apply timeout_ok; [done|]. by apply Hlossy.
  - by apply adv_turn_ok.
  - by apply adv_exit_ok.
  - eapply par_quiet; [apply quiet_net|exact H|]. done.
Qed.

(** The timers of the run that find a PDU to forget. *)
Definition run_forgets (ops : list friend_op) (s : friends) : Prop :=
  exists ops1 i ops2 s1 e1, ops = ops1 ++ OpTimer i :: ops2 /\
    friend_run ops1 s = Some (tt, s1, e1) /\ forgets s1 i.

Lemma run_forgets_cons op ops s s1 e1 :
  friend_do op s = Some (tt, s1, e1) -> run_forgets ops s1 -> run_forgets (op :: ops) s.
Proof.
  intros Hop (ops1 & i & ops2 & s2 & e2 & -> & Hrun & Hf).
  exists (op :: ops1), i, ops2, s2, (e1 ++ e2). split; [done|]. split; [|done].
  cbn [friend_run]. unfold stm_bind. by rewrite Hop, Hrun.
Qed.

Lemma friend_run_inv ops s :
  friend_inv [] None s -> (run_forgets ops s -> lossy) ->
  stm_par (friend_run ops) (fun _ s' => friend_inv [] None s') s.
Proof.
  revert s. induction ops as [|op ops IH]; intros s H Hl; cbn [friend_run]; [by par_steps|].
  assert (Hop : forall i, op = OpTimer i -> forgets s i -> lossy).
  { intros i -> Hf. apply Hl. by exists [], i, ops, s, []. }
  pose proof (do_ok op s H Hop) as Hdo. unfold stm_par in *. unfold stm_bind.
  destruct (friend_do op s) as [[[[] s1] e1]|] eqn:Ed; [|done].
  assert (Hl1 : run_forgets ops s1 -> lossy) by (intros Hf; by eapply Hl, run_forgets_cons).
  specialize (IH s1 Hdo Hl1). by destruct (friend_run ops s1) as [[[[] s2] e2]|].
Qed.

Lemma init_inv m : Z.of_nat FRIEND_BUF_COUNT < 4294967296 -> friend_inv [] None (bt_mesh_friend_init m).
Proof.
  intros Hc.
  assert (Hh : all_held (bt_mesh_friend_init m) = []).
  { unfold all_held, bt_mesh_friend_init. cbn. generalize FRIEND_LPN_COUNT. intros n.
    induction n as [|n IH]; [done|]. cbn. rewrite IH, concat_nils. done. }
  split; [exists []; split; [by left|]|intros id _ Hid; by apply elem_of_nil in Hid].
  split; rewrite ?Hh.
  - apply pool_init_wf.
  - constructor.
  - constructor.
  - intros id [Hid|Hid]; by apply elem_of_nil in Hid.
  - intros id r Hr. unfold holders. rewrite !bool_decide_false by apply not_elem_of_nil.
    unfold fr_refs, av_refs, refs in Hr. cbn in Hr. rewrite list_lookup_fmap in Hr.
    destruct (replicate _ _ !! id) eqn:E; [|done]. apply lookup_replicate in E as [-> _].
    by injection Hr as <-.
  - intros j f Hj _. cbn in Hj. by apply lookup_replicate in Hj as [-> _].
  - unfold fr_refs, av_refs, refs. cbn. by rewrite length_map, length_replicate.
Qed.
End ops.
End lossy.

Section runs.
Context {cfg : MeshConfig} {hal : SecHal} {fcfg : FriendConfig} {env : FriendEnv}.
Context (Hctl : forall lossy, ctl_send_safe lossy).

(** C38: in every run of the Friend node, with any interleaving of requests,
    polls, subscriptions, queued messages, segments, timers, clear procedures and
    turns of the advertising thread, no buffer is used after it was released,
    and the reference count of every buffer is the number of its holders. The
    holders are the friendships (a buffer is in the queue, among the segments,
    or the PDU sent last, of at most one of them), the queue of the advertising
    thread, and the list [lost] of the buffers nobody refers to any more and
    that are never released: [lost] is empty unless the timer of a friendship
    fired when it had a PDU it had sent, was not to send it again, and was not
    established or had a pending request ([run_forgets]); then frnd->last is
    overwritten without being released. What is advertised is never a buffer
    that still waits, and each friendship's size is the length of its queue.
    [bt_mesh_ctl_send] is assumed to keep this, and timers fire in any order. *)
Theorem friend_buffers_owned m ops s e :
  Z.of_nat FRIEND_BUF_COUNT < 4294967296 ->
  friend_run ops (bt_mesh_friend_init m) = Some (tt, s, e) ->
  (exists lost, (lost = [] \/ run_forgets ops (bt_mesh_friend_init m)) /\
    NoDup (lost ++ all_held s) /\ NoDup (advq s) /\
    forall id r, fr_refs s !! id = Some r ->
      r = Z.b2z (bool_decide (id ∈ lost ++ all_held s)) + Z.b2z (bool_decide (id ∈ advq s))) /\
  (forall id, id ∈ all_held s -> fr_refs s !! id = Some (if decide (id ∈ advq s) then 2 else 1)) /\
  (forall id, id ∈ advq s -> exists r, fr_refs s !! id = Some r /\ 0 < r) /\
  (forall id, id ∈ all_waiting s -> id ∉ advq s) /\
  (forall i f, fr_list s !! i = Some f -> f_queue_size f = Z.of_nat (length (f_queue f))).
Proof.
  intros Hc Hrun. set (lossy := run_forgets ops (bt_mesh_friend_init m)).
  pose proof (par_run _ _ _ _ _ _ (friend_run_inv lossy (Hctl lossy) ops _ (init_inv lossy m Hc) id) Hrun) as H.
  cbv beta in H. pose proof H as [(W & HW & Ho) Hw]. rewrite app_nil_r in Ho. split_and!; try done.
  - exists W. split; [done|]. split; [apply Ho|]. split; [apply Ho|]. intros id r. by apply (fi_refs _ _ _ Ho).
  - intros id Hid. apply (own_held _ _ _ _ Ho), elem_of_app. by right.
  - intros id Hid. destruct (own_queued _ _ _ _ Ho Hid) as (r & Hr & ?). exists r. split; [done|lia].
  - intros i f Hi. by apply (inv_size _ _ _ _ _ H Hi).
Qed.

(** ** When an allocation returns *)

(** A free buffer, or a queued one that can be discarded. *)
Definition alloc_room (s : friends) : Prop :=
  0 ∈ fr_refs s \/ exists i f, fr_list s !! i = Some f /\ f_queue f <> [].

Lemma most_queued_spec (l pre : list frnd) best fb :
  pre !! best = Some fb ->
  (forall j f, pre !! j = Some f -> f_queue_size f <= f_queue_size fb) ->
  exists f, (pre ++ l) !! most_queued best (f_queue_size fb) (length pre) l = Some f /\
    forall j f', (pre ++ l) !! j = Some f' -> f_queue_size f' <= f_queue_size f.
Proof.
  revert pre best fb. induction l as [|g l IH]; intros pre best fb Hb Hmax; cbn [most_queued].
  - rewrite app_nil_r. by exists fb.
  - assert (Hlen : S (length pre) = length (pre ++ [g])) by (rewrite length_app; cbn; lia).
    rewrite (cons_middle g pre l), app_assoc, Hlen.
    destruct (Z.ltb_spec (f_queue_size fb) (f_queue_size g)) as [Hlt|Hge].
    + apply IH; [by apply list_lookup_middle|]. intros j f Hj.
      apply lookup_app_Some in Hj as [Hj|[_ Hj]]; [specialize (Hmax j f Hj); lia|].
      apply list_lookup_singleton_Some in Hj as [_ <-]. lia.
    + apply IH; [by apply lookup_app_l_Some|]. intros j f Hj.
      apply lookup_app_Some in Hj as [Hj|[_ Hj]]; [by apply (Hmax j f)|].
      apply list_lookup_singleton_Some in Hj as [_ <-]. lia.
Qed.

Definition alloc_try (a : adv nat) : option (nat * adv nat) :=
  bt_mesh_adv_create_from_pool BT_MESH_ADV_DATA (Z.land f_net_transmit 7)
    ((Z.shiftr f_net_transmit 3 + 1) * 10) a.

Lemma alloc_try_some s : pool_wf (av_pool (fr_adv s)) -> 0 ∈ fr_refs s -> alloc_try (fr_adv s) <> None.
Proof.
  intros H H0 E. pose proof (create_spec BT_MESH_ADV_DATA (Z.land f_net_transmit 7)
    ((Z.shiftr f_net_transmit 3 + 1) * 10) _ H) as Hc.
  unfold alloc_try in E. rewrite E, List.Forall_forall in Hc.
  apply list_elem_of_In in H0. specialize (Hc 0 H0). lia.
Qed.

(** Discarding the head of a queue releases its buffer. *)
Lemma discard_room s i f :
  friend_inv True [] None s -> fr_list s !! i = Some f -> f_queue f <> [] ->
  exists s' e, discard_buffer s = Some (tt, s', e) /\ pool_wf (av_pool (fr_adv s')) /\ 0 ∈ fr_refs s'.
Proof.
  intros H Hi Hq. unfold discard_buffer. rewrite (stm_bind_pure _ _ s s s) by done.
  destruct (fr_list s) as [|f0 l] eqn:El; [done|].
  destruct (most_queued_spec l [f0] 0 f0 eq_refl) as (fk & Hk & Hmax).
  { intros j g Hj. by apply list_lookup_singleton_Some in Hj as [_ <-]. }
  cbn [app length] in Hk, Hmax. set (k := most_queued _ _ _ _) in *.
  assert (Hqk : f_queue fk <> []).
  { rewrite <- El in Hk. pose proof (inv_size _ _ _ _ _ H Hk) as Hzk.
    rewrite <- El in Hi. pose proof (inv_size _ _ _ _ _ H Hi) as Hz. rewrite El in Hi.
    specialize (Hmax i f Hi). unfold size_ok in *. destruct (f_queue f); [done|].
    cbn [length] in Hz. intros E. rewrite E in Hzk. cbn in Hzk. lia. }
  destruct (f_queue fk) as [|id q] eqn:Eq; [done|].
  rewrite (stm_bind_pure _ _ s fk s) by (unfold f_get; cbn; by rewrite El, Hk).
  rewrite Eq. eexists _, _. split; [reflexivity|]. cbn [fr_adv update_field].
  destruct H as [(W & _ & H) Hw]. rewrite app_nil_r in H.
  assert (Hall : id ∈ all_waiting s).
  { apply list_elem_of_In, in_concat. exists (waiting fk). split.
    - apply in_map, list_elem_of_In, list_elem_of_lookup. exists k. by rewrite El.
    - apply list_elem_of_In. unfold waiting. rewrite Eq. by left. }
  assert (Hr : fr_refs s !! id = Some 1).
  { rewrite (own_held _ _ _ _ H).
    - rewrite decide_False; [done|]. by apply Hw.
    - unfold all_held. rewrite held_split, !elem_of_app. tauto. }
  destruct (unref_spec id (fr_adv s) 1 (fi_pool _ _ _ H) Hr) as [Hr' Hp]; [lia|].
  split; [exact Hp|]. apply list_elem_of_lookup. exists id.
  change (av_refs (av_unref id (fr_adv s)) !! id = Some 0).
  rewrite Hr', list_lookup_insert_eq; [done|]. by eapply lookup_lt_Some.
Qed.

(** Discarding from empty queues only miscounts. *)
Definition all_empty (s : friends) : Prop := Forall (fun f => f_queue f = []) (fr_list s).

Lemma discard_empty s s' e :
  all_empty s -> discard_buffer s = Some (tt, s', e) -> fr_adv s' = fr_adv s /\ all_empty s'.
Proof.
  intros He. unfold discard_buffer. rewrite (stm_bind_pure _ _ s s s) by done.
  destruct (fr_list s) as [|f0 l] eqn:El; [done|]. set (k := most_queued _ _ _ _).
  destruct (fr_list s !! k) as [f|] eqn:Hk.
  2: { unfold stm_bind, f_get. cbn. by rewrite Hk. }
  rewrite (stm_bind_pure _ _ s f s) by (unfold f_get; cbn; by rewrite Hk).
  unfold all_empty in He. rewrite Forall_lookup in He. rewrite (He k f Hk). cbn [head f_unref_opt].
  intros [= <- _]. split; [done|]. unfold all_empty. cbn [fr_list update_field].
  apply Forall_lookup. intros j g Hj. destruct (decide (k = j)) as [<-|Hne].
  - rewrite !list_lookup_alter_eq, Hk in Hj. injection Hj as <-. cbn. by rewrite (He k f Hk).
  - rewrite !list_lookup_alter_ne in Hj by done. by apply (He j).
Qed.

Lemma alloc_loop_stuck n s : alloc_try (fr_adv s) = None -> all_empty s -> friend_buf_alloc_loop n s = None.
Proof.
  revert s. induction n as [|n IH]; intros s Hn He; [done|]. cbn [friend_buf_alloc_loop].
  rewrite (stm_bind_pure _ _ s s s) by done. unfold alloc_try in Hn. rewrite Hn.
  unfold stm_bind. destruct (discard_buffer s) as [[[[] s1] e1]|] eqn:Hd; [|done].
  destruct (discard_empty s s1 e1 He Hd) as [Ha He1]. rewrite IH; [done| |done].
  unfold alloc_try. by rewrite Ha.
Qed.

(** C40: [friend_buf_alloc] returns exactly when a buffer is free or some
    friendship has a queued one, and then after at most two attempts. Otherwise,
    with all buffers held as collected segments or last PDUs, it never returns:
    its loop goes on discarding from empty queues. *)
Theorem friend_alloc_terminates m ops s e src :
  Z.of_nat FRIEND_BUF_COUNT < 4294967296 ->
  friend_run ops (bt_mesh_friend_init m) = Some (tt, s, e) ->
  (alloc_room s -> friend_buf_alloc 2 src s <> None) /\
  (~ alloc_room s -> forall n, friend_buf_alloc n src s = None).
Proof.
  intros Hcount Hrun.
  pose proof (par_run _ _ _ _ _ _ (friend_run_inv True (Hctl True) ops _ (init_inv True m Hcount) (fun _ => I)) Hrun) as H. cbv beta in H.
  unfold friend_buf_alloc.
  assert (Hloop : forall n, friend_buf_alloc_loop n s <> None ->
    (id <- friend_buf_alloc_loop n ;; f_adv (av_update (fun b => (b <| ab_addr := src |>)
      <| ab_seq_auth := TRANS_SEQ_AUTH_NVAL |>) id) ;; mret id) s <> None).
  { intros n Hn. unfold stm_bind. by destruct (friend_buf_alloc_loop n s) as [[[id s1] e1]|]. }
  split.
  - intros Hroom. apply Hloop. cbn [friend_buf_alloc_loop].
    rewrite (stm_bind_pure _ _ s s s) by done.
    destruct (alloc_try (fr_adv s)) as [[id a]|] eqn:Hn; unfold alloc_try in Hn; rewrite Hn; [done|].
    destruct Hroom as [H0|(i & f & Hi & Hq)].
    { by destruct (alloc_try_some s (inv_pool _ _ _ _ H) H0). }
    destruct (discard_room s i f H Hi Hq) as (s1 & e1 & Hd & Hp & H0).
    unfold stm_bind at 1. rewrite Hd. rewrite (stm_bind_pure _ _ s1 s1 s1) by done.
    pose proof (alloc_try_some s1 Hp H0) as Hs. unfold alloc_try in Hs.
    by destruct (bt_mesh_adv_create_from_pool _ _ _ (fr_adv s1)) as [[id a]|].
  - intros Hno n. unfold stm_bind. rewrite alloc_loop_stuck; [done| |].
    + destruct (alloc_try (fr_adv s)) as [[id a]|] eqn:Ha; [|done]. exfalso. apply Hno. left.
      pose proof (create_spec BT_MESH_ADV_DATA (Z.land f_net_transmit 7)
        ((Z.shiftr f_net_transmit 3 + 1) * 10) _ (inv_pool _ _ _ _ H)) as Hc.
      unfold alloc_try in Ha. rewrite Ha in Hc. destruct Hc as [Hc _].
      apply list_elem_of_lookup. by exists id.
    + apply Forall_lookup. intros i f Hi. destruct (f_queue f) as [|id q] eqn:Eq; [done|].
      exfalso. apply Hno. right. exists i, f. by rewrite Eq.
Qed.
End runs.

(** ** A run *)

Definition sample_frnd_env : FriendEnv :=
  {| f_now_32 := 1000; f_primary := 1; f_net_transmit := 0x0a; f_friend_get := FRIEND_ENABLED;
     f_elem_find := fun _ => false; f_lpn_frnd := 0;
     f_ctl_send := fun _ _ _ => f_next_seq ;; mret tt; f_adv_int_min := 20 |}.

(** A message from [src] on the first subnet. *)
Definition sample_friend_rx (src dst seq : Z) (ctl : bool) : net_rx :=
  mk_rx 0 (mk_ctx 0 0 src 5 0 false) seq dst false false false ctl IF_ADV false true (-40).

Definition LPN : Z := 0x10.
Definition lpn_msg := sample_friend_rx LPN 1 1 true.
(** The LPN asks for a friendship and accepts the offer. *)
Definition establish_ops : list friend_op :=
  [OpReq lpn_msg [0x01; 100; 0; 0; 0x64; 0; 0; 1; 0; 7]; OpTimer 0; OpAdvTurn 0; OpAdvExit 0;
   OpPoll lpn_msg [0]; OpTimer 0; OpAdvTurn 0; OpAdvExit 0].
Definition sample_friend_ops : list friend_op :=
  establish_ops ++
  [OpEnqueueRx (sample_friend_rx 0x30 LPN 5 false) PDU_SINGLE None [0x60; 1; 2; 3; 4; 5];
   OpEnqueueRx (sample_friend_rx 0x30 LPN 6 false) PDU_PARTIAL (Some 6) [0xe0; 0; 0x18; 1; 9; 9];
   OpPoll lpn_msg [1]; OpTimer 0; OpAdvTurn 0].

Notation run_friend ops :=
  (friend_run (cfg := proxy_friend_config) (hal := sw_hal) (fcfg := default_friend_config)
     (env := sample_frnd_env) ops
     (bt_mesh_friend_init (fcfg := default_friend_config)
        (sample_node <| friend_creds := replicate 1 (mk_friend_cred 0 0 0 0 zero_cred zero_cred) |>))).


Lemma sample_ctl_safe lossy : ctl_send_safe lossy (env := sample_frnd_env).
Proof.
  intros tx op data s H. cbn [f_ctl_send sample_frnd_env]. apply par_bind.
  eapply par_mono; [by apply next_seq_ok|]. cbv beta. intros. by par_steps.
Qed.

(** The state and the events of a run. *)
Definition run_result (r : option (unit * friends * list friend_event)) : friends * list friend_event :=
  match r with Some (_, s, e) => (s, e) | None => (mk_friends sample_node (mk_adv (pool_init 0 zero_adv_buf) []) [] None, []) end.

Definition sample_friend_end : friends * list friend_event :=
  Eval vm_compute in run_result (run_friend sample_friend_ops).
Lemma sample_friend_runs :
  run_friend sample_friend_ops = Some (tt, fst sample_friend_end, snd sample_friend_end).
Proof. vm_compute. reflexivity. Qed.

Theorem friend_buffers_owned_witness :
  let s := fst sample_friend_end in
  all_held s = [2; 1]%nat /\ NoDup (all_held s) /\
  (forall id, id ∈ all_held s -> fr_refs s !! id = Some (if decide (id ∈ advq s) then 2 else 1)).
Proof.
  destruct (friend_buffers_owned (cfg := proxy_friend_config) (hal := sw_hal)
    (fcfg := default_friend_config) (env := sample_frnd_env) sample_ctl_safe _ _ _ _
    ltac:(vm_compute; reflexivity) sample_friend_runs) as ((lost & _ & H1 & _) & H2 & _). apply list.NoDup_app in H1 as (_ & _ & H1).
  split; [vm_compute; reflexivity|]. split; [exact H1|exact H2].
Defined.

(** *** A buffer that is never released *)

(** The timers that are running. *)
Definition timer_event (t : list nat) (e : friend_event) : list nat :=
  match e with
  | FTimerSubmit i _ => i :: t
  | FTimerCancel i => filter (fun j => j <> i) t
  | _ => t
  end.
(** A run in which a timer fires only while it is running. *)
Fixpoint timers_due {cfg : MeshConfig} {hal : SecHal} {fcfg : FriendConfig} {env : FriendEnv}
    (t : list nat) (ops : list friend_op) (s : friends) : bool :=
  match ops with
  | [] => true
  | op :: ops =>
      match friend_do op s with
      | Some (_, s1, e1) =>
          let t1 := match op with OpTimer i => filter (fun j => j <> i) t | _ => t end in
          match op with OpTimer i => bool_decide (i ∈ t) | _ => true end &&
          timers_due (foldl timer_event t1 e1) ops s1
      | None => false
      end
  end.

(** The LPN repeats its request while the first offer is on the air; the second
    offer waits in the queue of the advertising thread for five seconds. *)
Definition leak_ops : list friend_op :=
  let req := OpReq lpn_msg [0x01; 100; 0; 0; 0x64; 0; 0; 1; 0; 7] in
  [req; OpTimer 0; OpAdvTurn 0; req; OpTimer 0; OpAdvExit 0; OpTimer 0; OpAdvTurn 0; OpAdvExit 0].

(** The end of the first transmission restarts the timer; when it fires the
    second offer is forgotten. In the end nothing is queued, sent or held, but a
    buffer is not free. *)
Theorem offer_buffer_leaks :
  let r := run_friend leak_ops in
  let s := fst (run_result r) in
  timers_due (cfg := proxy_friend_config) (hal := sw_hal) (fcfg := default_friend_config)
    (env := sample_frnd_env) [] leak_ops
    (bt_mesh_friend_init (fcfg := default_friend_config)
      (sample_node <| friend_creds := replicate 1 (mk_friend_cred 0 0 0 0 zero_cred zero_cred) |>)) = true /\
  r <> None /\ all_held s = [] /\ advq s = [] /\ fr_sending s = None /\ 1 ∈ fr_refs s.
Proof.
  vm_compute. repeat split; try done. left.
Qed.

(** *** The pool exhausted by the segments of one message *)

(** A message of 17 segments for the LPN: its first 16 fill the pool, the other
    buffer is the PDU sent last. *)
Definition long_message_ops : list friend_op :=
  establish_ops ++
  map (fun k => OpEnqueueRx (sample_friend_rx 0x30 LPN (Z.of_nat k) false) PDU_PARTIAL (Some 6)
                  [0xe0; 0; 0x18; 1; 9; 9]) (seq 0 16).

Definition sample_exhausted : friends * list friend_event :=
  Eval vm_compute in run_result (run_friend long_message_ops).
Lemma sample_exhausted_runs :
  run_friend long_message_ops = Some (tt, fst sample_exhausted, snd sample_exhausted).
Proof. vm_compute. reflexivity. Qed.

(** The witness: with free buffers an allocation succeeds; after the segments
    none returns any more, and the node hangs on the next PDU for its LPN. *)
Theorem friend_alloc_terminates_witness :
  let alloc n s := friend_buf_alloc (env := sample_frnd_env) n 0x30 (fst s) in
  alloc 2%nat sample_friend_end <> None /\
  alloc 2%nat sample_exhausted = None /\ alloc 1000%nat sample_exhausted = None.
Proof.
  cbv zeta.
  destruct (friend_alloc_terminates (cfg := proxy_friend_config) (hal := sw_hal)
    (fcfg := default_friend_config) (env := sample_frnd_env) sample_ctl_safe _ _ _ _ 0x30
    ltac:(vm_compute; reflexivity) sample_friend_runs) as [Hroom _].
  destruct (friend_alloc_terminates (cfg := proxy_friend_config) (hal := sw_hal)
    (fcfg := default_friend_config) (env := sample_frnd_env) sample_ctl_safe _ _ _ _ 0x30
    ltac:(vm_compute; reflexivity) sample_exhausted_runs) as [_ Hno].
  assert (Hstuck : ~ alloc_room (fst sample_exhausted)).
  { intros [H0|(i & f & Hi & Hq)].
    - vm_compute in H0. by repeat (apply elem_of_cons in H0 as [H0|H0]; [discriminate|]);
        apply elem_of_nil in H0.
    - destruct i as [|i]; [|discriminate Hi]. vm_compute in Hi. injection Hi as <-. by apply Hq. }
  split; [apply Hroom; left; apply list_elem_of_lookup; exists 5%nat; reflexivity|].
  split; by apply Hno.
Defined.
