(* ===== verification/FriendPoll.v ===== *)
(** * Polling: the Friend delivers its queue in order, over a lossy link

    The Low Power node polls with a sequence bit and flips it with every PDU it
    receives (lpn.c); the Friend repeats the PDU it sent last until the bit
    flips. *)

From S2P Require Import Prelude NetBuf NetPool Cmac Ccm MeshCrypto NetState NetIv Net TransState Adv Beacon Friend FriendOk.

Section poll.
Context {cfg : MeshConfig} {hal : SecHal} {fcfg : FriendConfig} {env : FriendEnv}.

(** ** Rounds

    In a round the LPN polls with its bit. When the poll arrives, the Friend
    handles it, its ReceiveDelay timer expires, and the advertising thread sends
    what it was given. When the LPN hears the PDU it flips its bit (lpn.c,
    [friend_response_received]). The LPN stops after [n] PDUs. *)

Definition sent (e : list friend_event) : list bytes :=
  omap (fun ev => match ev with FAdv (EffAdvStart _ d _) => Some d | _ => None end) e.

Definition poll_ops (i : nat) (rx : net_rx) (fsn : Z) : list friend_op :=
  [OpPoll rx [fsn]; OpTimer i; OpAdvTurn 0; OpAdvExit 0].

(** Was the poll lost, was the answer lost? *)
Definition round : Type := bool * bool.

Fixpoint lpn_collect (i : nat) (rx : net_rx) (rounds : list round) (n : nat) (fsn : Z) (s : friends)
    : option (list bytes * friends) :=
  match rounds, n with
  | [], _ | _, O => Some ([], s)
  | (poll_lost, answer_lost) :: rounds, S n' =>
      if poll_lost : bool then lpn_collect i rx rounds n fsn s
      else
        '(_, s, e) ← friend_run (poll_ops i rx fsn) s;
        if answer_lost : bool then lpn_collect i rx rounds n fsn s
        else '(ds, s) ← lpn_collect i rx rounds n' (1 - fsn) s; Some (sent e ++ ds, s)
  end.

Definition arrives (r : round) : bool := negb r.1 && negb r.2.
Definition good_rounds (rounds : list round) : nat := length (List.filter arrives rounds).

(** ** The state of a friendship between rounds *)

(** Buffer [id] holds the mesh message [d]. *)
Definition holds (a : adv nat) (id : nat) (d : bytes) : Prop :=
  exists b, av_buf a id = Some b /\ ab_type b = BT_MESH_ADV_DATA /\ ab_data b = d.

Definition same_key (f g : frnd) : Prop :=
  f_valid g = f_valid f /\ f_net_idx g = f_net_idx f /\ f_lpn g = f_lpn f.

(** The polls of [rx] are for friendship [i], which is [f]. *)
Record at_friend (i : nat) (rx : net_rx) (f : frnd) (a : adv nat) (sn : option (option nat)) (s : friends)
    : Prop := {
  at_find : exists net_idx, rx_net_idx (fr_net s) rx = Some net_idx /\
    bt_mesh_friend_find (fr_list s) net_idx (ctx_addr (rx_ctx rx)) true false = Some i;
  at_frnd : fr_list s !! i = Some f;
  at_adv : fr_adv s = a;
  at_sending : fr_sending s = sn
}.

(** Between rounds: nothing is being sent; [ds] is what the LPN, whose bit is
    [fsn], has not received yet. *)
Record awaits (i : nat) (rx : net_rx) (fsn : Z) (ds : list bytes) (s : friends) : Prop := {
  aw_fsn : fsn = 0 \/ fsn = 1;
  aw_state : exists f a, at_friend i rx f a None s /\ av_queue a = [] /\ f_pending_buf f = false /\
    ((f_fsn f = fsn /\ exists id, f_last f = Some id /\ Forall2 (holds a) (id :: f_queue f) ds) \/
     ((f_fsn f <> fsn \/ f_last f = None) /\ Forall2 (holds a) (f_queue f) ds))
}.

(** ** Steps *)

Lemma find_alter (l : list frnd) i g net_idx lpn :
  (forall f, l !! i = Some f -> same_key f (g f)) ->
  bt_mesh_friend_find (alter g i l) net_idx lpn true false = bt_mesh_friend_find l net_idx lpn true false.
Proof.
  unfold bt_mesh_friend_find. revert i. induction l as [|f l IH]; intros [|i] Hg; try done; cbn.
  - destruct (Hg f eq_refl) as (-> & -> & ->). done.
  - change (list_alter g i l) with (alter g i l). rewrite IH by auto. done.
Qed.

Section steps.
Context (i : nat) (rx : net_rx).
Implicit Types (Q : unit -> friends -> list friend_event -> Prop).

Lemma wpf_get f a sn s (Q : frnd -> friends -> list friend_event -> Prop) :
  at_friend i rx f a sn s -> Q f s [] -> stm_wp (f_get i) Q s.
Proof. intros [_ Hf _ _] HQ. apply wp_bind, wp_get. by eapply wp_of_option. Qed.

Lemma wpf_mod f a sn g s Q :
  at_friend i rx f a sn s -> same_key f (g f) ->
  (forall s', at_friend i rx (g f) a sn s' -> Q tt s' []) -> stm_wp (f_mod i g) Q s.
Proof.
  intros [(n & Hn & Hfind) Hf Ha Hs] Hk HQ. apply wp_modify, HQ. split; try done.
  - exists n. split; [done|]. cbn [fr_list update_field]. rewrite find_alter; [done|].
    intros f' Hf'. rewrite Hf in Hf'. by injection Hf' as <-.
  - cbn. by rewrite list_lookup_alter_eq, Hf.
Qed.

Lemma wpf_adv f a sn h s Q :
  at_friend i rx f a sn s ->
  (forall s', at_friend i rx f (h a) sn s' -> Q tt s' []) -> stm_wp (f_adv h) Q s.
Proof. intros [Hn Hf <- Hs] HQ. apply wp_modify, HQ. by split. Qed.

Lemma wpf_sending f a sn sn' s Q :
  at_friend i rx f a sn s ->
  (forall s', at_friend i rx f a sn' s' -> Q tt s' []) ->
  stm_wp (stm_modify (fun s => s <| fr_sending := sn' |>)) Q s.
Proof. intros [Hn Hf <- Hs] HQ. apply wp_modify, HQ. by split. Qed.

(** *** The poll *)

(** The PDU the Friend is about to send is the head of [ids], and [f] is
    between the poll and the timer. *)
Record about_to_send (fsn : Z) (ids : list nat) (f : frnd) : Prop := {
  ab_est : f_established f = true;
  ab_req : f_pending_req f = true;
  ab_buf : f_pending_buf f = false;
  ab_fsn : f_fsn f = fsn;
  ab_next : (f_send_last f = true /\ exists id, f_last f = Some id /\ ids = id :: f_queue f) \/
            (f_last f = None /\ ids = f_queue f)
}.

(** [a'] has the contents of [a]. *)
Definition same_bufs (a a' : adv nat) : Prop :=
  av_queue a' = av_queue a /\ forall id d, holds a id d -> holds a' id d.

Lemma unref_same id a : same_bufs a (av_unref id a).
Proof.
  split; [done|]. intros j d (b & Hb & Ht & Hd). unfold holds, av_buf, av_unref in *. cbn.
  unfold net_buf_unref. apply fmap_Some in Hb as (pb & Hpb & ->).
  destruct (p_bufs (av_pool a) !! id) as [qb|] eqn:Hq; [|eexists; by rewrite Hpb].
  assert (Hl : (id < length (p_bufs (av_pool a)))%nat) by (by eapply lookup_lt_Some).
  exists (nb_val pb). split; [|done].
  destruct (0 <? u8 (nb_ref qb - 1)); cbn; (destruct (decide (id = j)) as [<-|];
    [rewrite list_lookup_insert_eq by done; rewrite Hq in Hpb; by injection Hpb as ->
    |rewrite list_lookup_insert_ne by done; by rewrite Hpb]).
Qed.

Lemma poll_wp fsn f a ids s :
  at_friend i rx f a None s -> f_pending_buf f = false -> fsn = 0 \/ fsn = 1 -> ids <> [] ->
  (f_fsn f = fsn /\ (exists id, f_last f = Some id /\ ids = id :: f_queue f) \/
   (f_fsn f <> fsn \/ f_last f = None) /\ ids = f_queue f) ->
  stm_wp (bt_mesh_friend_poll rx [fsn])
    (fun _ s' e => sent e = [] /\ exists f' a', at_friend i rx f' a' None s' /\ same_bufs a a' /\
       about_to_send fsn ids f') s.
Proof.
  intros Hat Hpb Hfsn Hne Hnext. unfold bt_mesh_friend_poll. wp_steps.
  destruct (at_find _ _ _ _ _ _ Hat) as (net_idx & Hn & Hfind).
  eapply wp_of_option; [exact Hn|]. rewrite Hfind. apply wp_bind.
  eapply wpf_get; [exact Hat|].
  assert ((Z.land fsn (Z.lnot 1) =? 0) = true) as -> by (by destruct Hfsn as [-> | ->]).
  assert (Hland : Z.land fsn 1 = fsn) by (by destruct Hfsn as [-> | ->]).
  cbn [negb]. rewrite Hpb. apply wp_bind. unfold friend_recv_delay. apply wp_bind.
  eapply wpf_mod; [exact Hat|done|]. intros s1 H1. apply wp_bind. eapply wpf_get; [exact H1|].
  wp_steps. eapply wpf_mod; [exact H1|done|]. intros s2 H2.
  destruct (f_last f) as [id|] eqn:Hl.
  - destruct (Z.eqb_spec fsn (f_fsn f)) as [Heq|Hneq].
    + destruct Hnext as [[_ (id' & [= <-] & ->)]|[[Hc|Hc] _]]; [|congruence|done].
      apply wp_bind. eapply wpf_mod; [exact H2|done|]. intros s3 H3. wp_steps.
      split; [done|]. eexists _, a. split; [exact H3|]. split; [done|].
      split; try done. left. split; [done|]. exists id. done.
    + destruct Hnext as [[Hc _]|[_ ->]]; [congruence|].
      apply wp_bind. eapply wpf_adv; [exact H2|]. intros s3 H3.
      apply wp_bind. eapply wpf_mod; [exact H3|done|]. intros s4 H4.
      rewrite bool_decide_false by done. wp_steps.
      split; [done|]. eexists _, _. split; [exact H4|]. split; [apply unref_same|].
      split; try done. by right.
  - destruct Hnext as [[_ (id' & ? & _)]|[_ ->]]; [done|].
    apply wp_bind. eapply wpf_mod; [exact H2|done|]. intros s3 H3.
    rewrite bool_decide_false by done. wp_steps.
    split; [done|]. eexists _, _. split; [exact H3|]. split; [done|].
    split; try done. by right.
Qed.

(** *** The timer *)

Record on_air (fsn : Z) (id : nat) (q : list nat) (f : frnd) : Prop := {
  oa_est : f_established f = true;
  oa_req : f_pending_req f = false;
  oa_fsn : f_fsn f = fsn;
  oa_last : f_last f = Some id;
  oa_queue : f_queue f = q
}.

Lemma send_last_wp f a id s :
  at_friend i rx f a None s -> id ∉ av_queue a ->
  stm_wp (send_last i id)
    (fun _ s' e => e = [] /\ at_friend i rx ((f <| f_pending_req := false |>) <| f_pending_buf := true |>)
       (bt_mesh_adv_send id (Some i) a) None s') s.
Proof.
  intros Hat Hid. apply wp_bind. eapply wpf_mod; [exact Hat|done|]. intros s1 H1. wp_steps.
  rewrite (at_adv _ _ _ _ _ _ H1). case_decide; [done|].
  eapply wpf_adv; [exact H1|]. done.
Qed.

Lemma timer_wp fsn id q f a s :
  at_friend i rx f a None s -> about_to_send fsn (id :: q) f -> id ∉ av_queue a ->
  stm_wp (friend_timeout i)
    (fun _ s' e => e = [] /\ exists f', at_friend i rx f' (bt_mesh_adv_send id (Some i) a) None s' /\
       on_air fsn id q f') s.
Proof.
  intros Hat [He Hr Hb Hf Hn] Hid. apply wp_bind. eapply wpf_get; [exact Hat|].
  destruct Hn as [[Hsl (id' & Hl & [= <- ->])]|[Hl Hq]].
  - rewrite Hsl, Hl. apply wp_bind. eapply wpf_mod; [exact Hat|done|]. intros s1 H1.
    eapply wp_mono; [eapply send_last_wp; [eassumption|done]|]. intros _ s2 e [-> H2]. split; [done|].
    eexists. split; [exact H2|]. by split.
  - rewrite Hl, He, Hr, <- Hq. cbn [andb negb].
    assert (Hgo : stm_wp (f_mod i (fun f => (f <| f_last := head (f_queue f) |>) <| f_queue := tail (f_queue f) |>) ;;
      f_mod i (fun f => f <| f_queue_size := u32 (f_queue_size f - 1) |>) ;; send_last i id)
      (fun _ s' e => e = [] /\ exists f', at_friend i rx f' (bt_mesh_adv_send id (Some i) a) None s' /\
       on_air fsn id q f') s).
    { apply wp_bind. eapply wpf_mod; [exact Hat|done|]. intros s1 H1.
      apply wp_bind. eapply wpf_mod; [exact H1|done|]. intros s2 H2.
      eapply wp_mono; [eapply send_last_wp; [eassumption|done]|]. intros _ s3 e [-> H3]. split; [done|].
      eexists. split; [exact H3|]. split; cbn; by rewrite <- ?Hq. }
    by destruct (f_send_last f).
Qed.

(** *** The advertising thread *)

Lemma adv_send_buf id a b :
  av_buf a id = Some b ->
  av_buf (bt_mesh_adv_send id (Some i) a) id = Some ((b <| ab_cb := Some i |>) <| ab_busy := true |>) /\
  forall j d, holds a j d -> holds (bt_mesh_adv_send id (Some i) a) j d.
Proof.
  intros Hb. unfold holds, av_buf, bt_mesh_adv_send in *. cbn.
  apply fmap_Some in Hb as (pb & Hpb & ->). split.
  - by rewrite !list_lookup_alter_eq, Hpb.
  - intros j d (b & Hj & Ht & Hd). apply fmap_Some in Hj as (qb & Hqb & ->).
    destruct (decide (id = j)) as [<-|].
    + rewrite !list_lookup_alter_eq, Hqb. by eexists.
    + rewrite !list_lookup_alter_ne, Hqb by done. by eexists.
Qed.

Lemma update_same h id a :
  (forall b, ab_type (h b) = ab_type b /\ ab_data (h b) = ab_data b) -> same_bufs a (av_update h id a).
Proof.
  intros Hh. split; [done|]. intros j d (b & Hb & Ht & Hd). unfold holds, av_buf, av_update in *. cbn.
  apply fmap_Some in Hb as (pb & Hpb & ->). destruct (decide (id = j)) as [<-|].
  - rewrite list_lookup_alter_eq, Hpb. eexists. split; [done|]. cbn.
    destruct (Hh (nb_val pb)) as [-> ->]. done.
  - rewrite list_lookup_alter_ne, Hpb by done. by eexists.
Qed.

Lemma turn_eff id a d :
  holds a id d -> av_queue a = [] ->
  let a1 := bt_mesh_adv_send id (Some i) a in
  exists dur int a2,
    adv_thread_turn f_adv_int_min 0 a1 =
      Some ([EffAdvStart BT_MESH_DATA_MESH_MESSAGE d int; EffCbStart dur 0 i; EffSleep dur],
            Some (Some i), a2) /\
    av_queue a2 = [] /\ forall j d', holds a j d' -> holds a2 j d'.
Proof.
  intros (b & Hb & Ht & Hd) Hq a1. destruct (adv_send_buf id a b Hb) as [Hb1 Hsame]. fold a1 in Hb1, Hsame.
  unfold adv_thread_turn.
  assert (av_queue a1 = [id]) as -> by (unfold a1, bt_mesh_adv_send; cbn; by rewrite Hq).
  rewrite Hb1. cbn [mbind option_bind update_field ab_busy ab_type ab_cb ab_data ab_count ab_adv_int].
  unfold adv_send. cbn [update_field ab_busy ab_type ab_cb ab_data ab_count ab_adv_int]. rewrite Ht, Hd.
  eexists _, _, _. split; [reflexivity|]. split; [done|]. intros j d' Hj.
  apply unref_same, (update_same (fun b => b <| ab_busy := false |>)); [done|].
  exact (Hsame j d' Hj).
Qed.

Lemma send_start_wp f a sn s :
  at_friend i rx f a sn s -> f_established f = true ->
  stm_wp (buf_send_start i)
    (fun _ s' e => e = [] /\ at_friend i rx (f <| f_pending_buf := false |>) a sn s') s.
Proof.
  intros Hat He. apply wp_bind. eapply wpf_get; [exact Hat|]. apply wp_bind.
  eapply wpf_mod; [exact Hat|done|]. intros s1 H1. rewrite He. by wp_steps.
Qed.

Lemma send_end_wp f a sn s :
  at_friend i rx f a sn s ->
  stm_wp (buf_send_end i) (fun _ s' e => sent e = [] /\ at_friend i rx f a sn s') s.
Proof.
  intros Hat. apply wp_bind. eapply wpf_get; [exact Hat|]. destruct (f_pending_req f); by wp_steps.
Qed.

Lemma air_wp id d f a s :
  at_friend i rx f (bt_mesh_adv_send id (Some i) a) None s -> holds a id d -> av_queue a = [] ->
  f_established f = true ->
  stm_wp (adv_turn 0 ;; adv_exit 0 ;; mret tt)
    (fun _ s' e => sent e = [d] /\ exists a', at_friend i rx (f <| f_pending_buf := false |>) a' None s' /\
       av_queue a' = [] /\ forall j d', holds a j d' -> holds a' j d') s.
Proof.
  intros Hat Hd Hq He. destruct (turn_eff id a d Hd Hq) as (dur & int & a2 & Hturn & Hq2 & Hs2).
  apply wp_bind. unfold adv_turn. wp_steps. rewrite (at_sending _ _ _ _ _ _ Hat).
  apply wp_bind. rewrite (at_adv _ _ _ _ _ _ Hat). eapply wp_of_option; [exact Hturn|]. cbv beta iota. wp_steps.
  match goal with |- stm_wp _ _ ?s1 =>
    assert (H1 : at_friend i rx f a2 (Some (Some i)) s1) by (destruct Hat; by split) end.
  cbn [run_adv_effects run_adv_effect]. unfold run_adv_effect. wp_steps.
  eapply wp_mono; [eapply send_start_wp; [exact H1|done]|]. intros _ s2 e [-> H2]. wp_steps.
  wp_steps. unfold adv_exit. wp_steps. rewrite (at_sending _ _ _ _ _ _ H2). wp_steps.
  match goal with |- stm_wp _ _ ?s3 =>
    assert (H3 : at_friend i rx (f <| f_pending_buf := false |>) a2 None s3) by (destruct H2; by split) end.
  unfold adv_send_exit. cbn [cb_end_eff run_adv_effects]. unfold run_adv_effect. wp_steps.
  eapply wp_mono; [eapply send_end_wp; exact H3|]. intros _ s4 e [He4 H4]. wp_steps.
  split.
  - unfold sent in *. cbn. rewrite ?omap_app in *. cbn. rewrite app_nil_r. by rewrite He4.
  - exists a2. split; [exact H4|done].
Qed.
End steps.

(** ** A round in which the poll arrives *)

Lemma sent_app e1 e2 : sent (e1 ++ e2) = sent e1 ++ sent e2.
Proof. apply omap_app. Qed.

Lemma round_wp i rx fsn d ds s :
  awaits i rx fsn (d :: ds) s ->
  stm_wp (friend_run (poll_ops i rx fsn))
    (fun _ s' e => sent e = [d] /\ awaits i rx fsn (d :: ds) s' /\ awaits i rx (1 - fsn) ds s') s.
Proof.
  intros [Hfsn (f & a & Hat & Hq & Hpb & Hcase)].
  assert (Hids : exists ids, Forall2 (holds a) ids (d :: ds) /\
    (f_fsn f = fsn /\ (exists id, f_last f = Some id /\ ids = id :: f_queue f) \/
     (f_fsn f <> fsn \/ f_last f = None) /\ ids = f_queue f)).
  { destruct Hcase as [[Hf (id & Hl & Hall)]|[Hf Hall]].
    - exists (id :: f_queue f). split; [done|]. left. split; [done|]. by exists id.
    - exists (f_queue f). split; [done|]. by right. }
  destruct Hids as (ids & Hall & Hids). destruct ids as [|id q]; [by inversion Hall|].
  cbn [poll_ops friend_run friend_do]. unfold ignore. apply wp_bind, wp_bind.
  eapply wp_mono; [by apply (poll_wp i rx fsn f a (id :: q))|]. intros _ s1 e1 (He1 & f1 & a1 & H1 & [Hq1 Hs1] & Hab).
  wp_steps. eapply wp_mono; [eapply timer_wp; [exact H1|exact Hab|]|].
  { rewrite Hq1, Hq. apply not_elem_of_nil. }
  intros _ s2 e2 (-> & f2 & H2 & Hoa).
  assert (Hall1 : Forall2 (holds a1) (id :: q) (d :: ds)) by (eapply Forall2_impl; eauto).
  inversion Hall1 as [|? ? ? ? Hd1 Hds1]; subst.
  pose proof (air_wp i rx id d f2 a1 s2 H2 Hd1) as Hair.
  eapply wp_mono; [apply Hair; [by rewrite Hq1|apply Hoa]|].
  intros _ s3 e3 (He3 & a3 & H3 & Hq3 & Hs3).
  assert (Hds3 : Forall2 (holds a3) q ds) by (eapply Forall2_impl; eauto).
  destruct Hoa as [Hest Hreq Hf2 Hl2 Hqq]. split.
  { rewrite ?sent_app, He1. cbn. by rewrite ?app_nil_r. }
  split.
  - split; [done|]. eexists _, a3. split; [exact H3|]. split; [done|]. split; [done|]. left. cbn.
    split; [done|]. exists id. split; [done|]. rewrite Hqq. constructor; [by apply Hs3|done].
  - split; [lia|]. eexists _, a3. split; [exact H3|]. split; [done|]. split; [done|]. right. cbn.
    rewrite Hqq, Hf2. split; [left; lia|done].
Qed.

(** C39: the Friend's queue reaches the LPN in order, without loss or
    duplication, whatever polls and answers the radio loses. An LPN that collects
    [n] PDUs, no more than are waiting for it, has received exactly the first of
    them after any sequence of rounds, as many as there were rounds in which
    neither the poll nor the answer was lost; and what it has not received yet
    is still there for the next rounds. *)
Theorem polling_delivers i rx rounds n fsn ds s :
  awaits i rx fsn ds s -> (n <= length ds)%nat ->
  exists s', lpn_collect i rx rounds n fsn s = Some (take (Nat.min n (good_rounds rounds)) ds, s') /\
    exists fsn', awaits i rx fsn' (drop (Nat.min n (good_rounds rounds)) ds) s'.
Proof.
  revert n fsn ds s. induction rounds as [|[p r] rounds IH]; intros n fsn ds s Haw Hn.
  { exists s. cbn. rewrite Nat.min_0_r. split; [by destruct n|]. by exists fsn. }
  destruct n as [|n]; [exists s; split; [done|by exists fsn]|].
  destruct ds as [|d ds]; [cbn in Hn; lia|].
  unfold good_rounds, arrives in *. cbn [lpn_collect List.filter fst snd].
  destruct p; cbn [negb andb]; [by apply IH|].
  destruct (wp_inv _ _ _ (round_wp i rx fsn d ds s Haw)) as ([] & s1 & e & Hrun & Hsent & Hagain & Hnext).
  rewrite Hrun. cbn [mbind option_bind]. destruct r; cbn [negb andb]; [by apply IH|].
  destruct (IH n (1 - fsn) ds s1 Hnext) as (s2 & Hgo & Hrest); [cbn in Hn; lia|].
  exists s2. rewrite Hgo, Hsent. cbn [mbind option_bind length]. split; [done|exact Hrest].
Qed.
End poll.

(** ** A run with losses *)

Definition waiting_ops : list friend_op :=
  establish_ops ++
  [OpEnqueueRx (sample_friend_rx 0x30 LPN 5 false) PDU_SINGLE None [0x60; 1; 2; 3; 4; 5];
   OpEnqueueRx (sample_friend_rx 0x31 LPN 9 false) PDU_SINGLE None [0x60; 5; 4; 3; 2; 1]].
Definition sample_waiting : friends := Eval vm_compute in fst (run_result (run_friend waiting_ops)).
(** The data of the queued PDUs. *)
Definition sample_pdus : list bytes :=
  Eval vm_compute in omap (fun id => ab_data <$> av_buf (fr_adv sample_waiting) id)
    (match fr_list sample_waiting with f :: _ => f_queue f | [] => [] end).
Definition sample_rounds : list round :=
  [(false, true); (true, false); (false, false); (false, true); (false, true); (false, false)].

Lemma sample_waiting_is : sample_waiting = fst (run_result (run_friend waiting_ops)).
Proof. vm_compute. reflexivity. Qed.

Theorem polling_delivers_witness :
  exists s', lpn_collect (cfg := proxy_friend_config) (hal := sw_hal) (fcfg := default_friend_config)
    (env := sample_frnd_env) 0 lpn_msg sample_rounds 2 1 sample_waiting = Some (sample_pdus, s').
Proof.
  destruct (polling_delivers (cfg := proxy_friend_config) (hal := sw_hal) (fcfg := default_friend_config)
    (env := sample_frnd_env) 0 lpn_msg sample_rounds 2 1 sample_pdus sample_waiting) as (s' & H & _).
  - split; [by right|]. eexists _, _. split; [split; [exists 0; split; reflexivity|reflexivity..]|].
    split; [reflexivity|]. split; [reflexivity|]. right. split; [left; discriminate|].
    repeat constructor; eexists; repeat split; reflexivity.
  - cbn. lia.
  - exists s'. exact H.
Defined.

(** ** Three divergences *)

(** An LPN that asks again while its friendship exists: the friendship is
    cleared, which also marks it unused, and set up again without marking it
    used. The offer goes out, and the poll that accepts it finds no
    friendship. *)
Definition request_again_ops : list friend_op :=
  establish_ops ++
  [OpReq lpn_msg [0x01; 100; 0; 0; 0x64; 0; 0; 1; 0; 8]; OpTimer 0; OpAdvTurn 0; OpAdvExit 0].
Definition sample_again : friends := Eval vm_compute in fst (run_result (run_friend request_again_ops)).

Lemma second_request_is_not_served :
  sample_again = fst (run_result (run_friend request_again_ops)) /\
  (sent (snd (run_result (run_friend request_again_ops))) <> []) /\
  friend_run (cfg := proxy_friend_config) (hal := sw_hal) (fcfg := default_friend_config)
    (env := sample_frnd_env) [OpPoll lpn_msg [0]] sample_again = Some (tt, sample_again, []).
Proof. vm_compute. split_and!; [reflexivity|discriminate|reflexivity]. Qed.

(** The Friend Clear procedure: [clear.start] lies two poll timeouts in the
    future, so at the first timeout the elapsed time, an unsigned difference, is
    huge, and the procedure gives up after one Friend Clear. *)
Lemma clear_procedure_gives_up `{MeshConfig} `{FriendConfig} (env : FriendEnv) s i f t d :
  fr_list s !! i = Some f -> f_clear_start f = u32 (t + 2 * f_poll_to f) ->
  0 < f_poll_to f <= 345600000 -> 0 <= d < 2 * f_poll_to f -> f_now_32 = u32 (t + d) ->
  exists s', clear_timeout i s = Some (tt, s', []) /\
    fr_list s' = alter (fun f => f <| f_clear_frnd := BT_MESH_ADDR_UNASSIGNED |>) i (fr_list s).
Proof.
  intros Hi Hs Hp Hd Hnow. unfold clear_timeout.
  rewrite (stm_bind_pure _ _ s f s) by (unfold f_get; cbn; by rewrite Hi). cbv zeta.
  assert ((2 * f_poll_to f <? u32 (f_now_32 - f_clear_start f)) = true) as ->.
  { apply Z.ltb_lt. rewrite Hs, Hnow. generalize dependent (f_poll_to f). intros. word_lia. }
  eexists. split; reflexivity.
Qed.

(** A Friend Clear with an LPNCounter below the one of the friendship is
    accepted: the difference is not taken modulo 65536. *)
Lemma clear_counter_not_modular :
  let clear n s := friend_run (cfg := proxy_friend_config) (hal := sw_hal) (fcfg := default_friend_config)
    (env := sample_frnd_env) [OpClearMsg (sample_friend_rx 0x40 1 1 true) ([0; 0x10] ++ sys_put_be16 n)] s in
  let established r := match r with Some (_, s, _) => map f_established (fr_list s) | None => [] end in
  let with_counter n := sample_waiting <| fr_list := map (fun f => f <| f_lpn_counter := n |>)
                          (fr_list sample_waiting) |> in
  established (clear 3 (with_counter 7)) = [false] /\
  established (clear 65535 (with_counter 7)) = [true].
Proof. vm_compute. split; reflexivity. Qed.
