(* ===== verification/Lpn.v ===== *)
(** * The Low Power node (bt_mesh/src/lpn.c)

    Finding a Friend, polling it, and keeping its subscription list. *)

From S2P Require Import Prelude NetBuf Cmac Ccm MeshCrypto NetState NetIv TransState Beacon.

(** The configuration ([IS_ENABLED] of the two switches; see mesh_config.h). *)
Class LpnConfig := {
  LPN_ESTABLISHMENT : bool;
  LPN_AUTO : bool;
  LPN_AUTO_TIMEOUT : Z;
  LPN_RETRY_TIMEOUT : Z;
  LPN_RSSI_FACTOR : Z;
  LPN_RECV_WIN_FACTOR : Z;
  LPN_MIN_QUEUE_SIZE : Z;
  LPN_RECV_DELAY : Z;
  LPN_POLL_TIMEOUT : Z;
  LPN_INIT_POLL_TIMEOUT : Z;
  LPN_SCAN_LATENCY : Z;
  LPN_GROUPS : nat
}.
(** The defaults of mesh_config.h: the switches are defined as nothing, for
    which [IS_ENABLED] is 0. *)
Definition default_lpn_config : LpnConfig :=
  {| LPN_ESTABLISHMENT := false; LPN_AUTO := false; LPN_AUTO_TIMEOUT := 15000; LPN_RETRY_TIMEOUT := 8;
     LPN_RSSI_FACTOR := 0; LPN_RECV_WIN_FACTOR := 0; LPN_MIN_QUEUE_SIZE := 1; LPN_RECV_DELAY := 100;
     LPN_POLL_TIMEOUT := 300; LPN_INIT_POLL_TIMEOUT := 300; LPN_SCAN_LATENCY := 10; LPN_GROUPS := 8 |}.

Definition REQ_RETRY_TIMES_MAX : Z := 12.
Definition POLL_RETRY_TIMEOUT : Z := 100.
Definition POLL_RETRY_TIMEOUT_MAX : Z := 800.
Definition FRIEND_REQ_WAIT : Z := 100.
Definition FRIEND_REQ_SCAN : Z := K_SECONDS 1.
Definition FRIEND_REQ_TIMEOUT : Z := FRIEND_REQ_WAIT + FRIEND_REQ_SCAN.
Definition CLEAR_ATTEMPTS : Z := 16.
(** [BT_MESH_TRANSMIT(2, 20)]. *)
Definition POLL_XMIT : Z := Z.lor 2 (Z.shiftl (20 / 10 - 1) 3).
(** [ARRAY_SIZE(req.addr_list)]. *)
Definition SUB_ADDRS : nat := 5.

(** The states of [struct bt_mesh_lpn]. *)
Inductive lpn_st :=
| LPN_DISABLED | LPN_CLEAR | LPN_TIMER | LPN_ENABLED | LPN_REQ_WAIT | LPN_WAIT_OFFER | LPN_ESTABLISHED
| LPN_DELAY | LPN_WAIT_UPDATE.
#[export] Instance lpn_st_eq : EqDecision lpn_st.
Proof. solve_decision. Defined.

(** [struct bt_mesh_lpn] without its timer. *)
Record lpn := mk_lpn {
  lp_state : lpn_st;
  lp_xact_next : Z;
  lp_xact_pending : Z;
  lp_sent_req : Z;
  lp_frnd : Z;
  lp_recv_win : Z;
  lp_req_attempts : Z;
  lp_poll_timeout : Z;
  lp_groups_changed : bool;
  lp_pending_poll : bool;
  lp_disable : bool;
  lp_fsn : bool;
  lp_established : bool;
  lp_clear_success : bool;
  lp_queue_size : Z;
  lp_counter : Z;
  lp_old_friend : Z;
  lp_adv_duration : Z;
  lp_groups : list Z;
  lp_added : Z;
  lp_pending : Z;
  lp_to_remove : Z
}.
#[export] Instance lpn_settable : Settable lpn.
Proof.
  settable (fun l => mk_lpn (lp_state l) (lp_xact_next l) (lp_xact_pending l) (lp_sent_req l) (lp_frnd l)
    (lp_recv_win l) (lp_req_attempts l) (lp_poll_timeout l) (lp_groups_changed l) (lp_pending_poll l)
    (lp_disable l) (lp_fsn l) (lp_established l) (lp_clear_success l) (lp_queue_size l) (lp_counter l)
    (lp_old_friend l) (lp_adv_duration l) (lp_groups l) (lp_added l) (lp_pending l) (lp_to_remove l)).
Defined.

(** The callbacks given to [bt_mesh_ctl_send]: [clear_sent_cb.end],
    [friend_req_sent_cb.start] and [req_sent_cb.start]. *)
Inductive lpn_cb := CbClearSent | CbFriendReqSent | CbReqSent.

(** The timer is what is left of its delay; [ln_cbs] are the callbacks the
    bearer owes. *)
Record lpn_node := mk_lpn_node {
  ln_net : mesh_net;
  ln_lpn : lpn;
  ln_timer : option Z;
  ln_cbs : list lpn_cb
}.
#[export] Instance lpn_node_settable : Settable lpn_node.
Proof. settable (fun s => mk_lpn_node (ln_net s) (ln_lpn s) (ln_timer s) (ln_cbs s)). Defined.

Inductive lpn_event :=
| LCtlSend (tx : net_tx) (op : Z) (data : bytes)
| LScan (on : bool)
| LRxReset
| LHeartbeat
| LFriend (addr : Z) (established : bool)
| LIvuInitiator
| LIvuTimer (t : ivu_timer).

Abbreviation P := (stm lpn_node lpn_event).

(** What the other components answer. *)
Class LpnEnv := {
  l_primary : Z;
  l_net_transmit : Z;
  l_elem_count : Z;
  l_provisioned : bool;
  l_tx_in_progress : bool;
  l_uptime : Z;
  (** Was [bt_mesh_lpn_set_cb] called? *)
  l_has_cb : bool;
  (** The result of [bt_mesh_ctl_send], and what it does to the network state. *)
  l_ctl_send : net_tx -> Z -> bytes -> mesh_net -> Z * mesh_net
}.

Section lpn.
Context {cfg : MeshConfig} {lcfg : LpnConfig} {env : LpnEnv}.

Definition SCAN_LATENCY : Z := Z.min LPN_SCAN_LATENCY LPN_RECV_DELAY.
Definition FRIEND_REQ_RETRY_TIMEOUT : Z := K_SECONDS LPN_RETRY_TIMEOUT.
Definition REQ_RETRY_DURATION (l : lpn) : Z :=
  REQ_RETRY_TIMES_MAX * (LPN_RECV_DELAY + lp_adv_duration l + lp_recv_win l) + 36 * POLL_RETRY_TIMEOUT +
  (REQ_RETRY_TIMES_MAX - 8) * POLL_RETRY_TIMEOUT_MAX.
Definition POLL_TIMEOUT_INIT : Z := LPN_INIT_POLL_TIMEOUT * 100.
Definition POLL_TIMEOUT_MAX (l : lpn) : Z := LPN_POLL_TIMEOUT * 100 - REQ_RETRY_DURATION l.
Definition REQ_ATTEMPTS (l : lpn) : Z := if POLL_TIMEOUT_MAX l <? K_SECONDS 3 then 2 else REQ_RETRY_TIMES_MAX.
Definition LPN_CRITERIA : Z :=
  Z.lor (Z.lor LPN_MIN_QUEUE_SIZE (Z.shiftl LPN_RSSI_FACTOR 3)) (Z.shiftl LPN_RECV_WIN_FACTOR 5).
Definition LPN_POLL_TO : bytes :=
  [u8 (Z.shiftr LPN_POLL_TIMEOUT 16); u8 (Z.shiftr LPN_POLL_TIMEOUT 8); u8 LPN_POLL_TIMEOUT].

Definition get_lpn : P lpn := s <- stm_get ;; mret (ln_lpn s).
Definition mod_lpn (f : lpn -> lpn) : P unit := stm_modify (fun s => s <| ln_lpn := f (ln_lpn s) |>).
Definition lpn_set_state (st : lpn_st) : P unit := mod_lpn (fun l => l <| lp_state := st |>).
Definition timer_submit (delay : Z) : P unit := stm_modify (fun s => s <| ln_timer := Some delay |>).
Definition timer_cancel : P unit := stm_modify (fun s => s <| ln_timer := None |>).
(** [bt_mesh.sub[0]]. *)
Definition sub0 : P subnet := s <- stm_get ;; stm_of_option (subs (ln_net s) !! 0%nat).

(** ** Sending *)

Definition ctl_send (tx : net_tx) (op : Z) (data : bytes) (cb : lpn_cb) : P Z :=
  s <- stm_get ;;
  let '(err, m) := l_ctl_send tx op data (ln_net s) in
  stm_modify (fun s => s <| ln_net := m |>) ;;
  stm_emit [LCtlSend tx op data] ;;
  (if err =? 0 then stm_modify (fun s => s <| ln_cbs := ln_cbs s ++ [cb] |>) else mret tt) ;;
  mret err.

Definition lpn_ctx (net_idx addr : Z) : msg_ctx := mk_ctx net_idx BT_MESH_KEY_UNUSED addr 0 0 false.

Definition send_friend_clear : P Z :=
  l <- get_lpn ;;
  sub <- sub0 ;;
  ctl_send (mk_tx 0 (lpn_ctx (sub_net_idx sub) (lp_frnd l)) l_primary l_net_transmit false 0 0)
    TRANS_CTL_OP_FRIEND_CLEAR (sys_put_be16 l_primary ++ sys_put_be16 (lp_counter l)) CbClearSent.

(** [prev_addr] is the only field of two bytes left in the byte order of the
    processor, which is little endian. *)
Definition friend_req_pdu (l : lpn) : bytes :=
  [u8 LPN_CRITERIA; u8 LPN_RECV_DELAY] ++ LPN_POLL_TO ++ reverse (sys_put_be16 (lp_old_friend l)) ++
  [u8 l_elem_count] ++ sys_put_be16 (lp_counter l).
Definition send_friend_req : P Z :=
  l <- get_lpn ;;
  sub <- sub0 ;;
  ctl_send (mk_tx 0 (lpn_ctx (sub_net_idx sub) BT_MESH_ADDR_FRIENDS) l_primary POLL_XMIT false 0 0)
    TRANS_CTL_OP_FRIEND_REQ (friend_req_pdu l) CbFriendReqSent.

Definition friend_tx (sub : subnet) (l : lpn) : net_tx :=
  mk_tx 0 (lpn_ctx (sub_net_idx sub) (lp_frnd l)) l_primary POLL_XMIT true 0 0.

Definition send_friend_poll : P Z :=
  l <- get_lpn ;;
  sub <- sub0 ;;
  if negb (lp_sent_req l =? 0) then
    (if negb (lp_sent_req l =? TRANS_CTL_OP_FRIEND_POLL) then mod_lpn (fun l => l <| lp_pending_poll := true |>)
     else mret tt) ;;
    mret 0
  else
    err <- ctl_send (friend_tx sub l) TRANS_CTL_OP_FRIEND_POLL [Z.b2z (lp_fsn l)] CbReqSent ;;
    (if err =? 0 then
       mod_lpn (fun l => (l <| lp_pending_poll := false |>) <| lp_sent_req := TRANS_CTL_OP_FRIEND_POLL |>)
     else mret tt) ;;
    mret err.

(** ** Ending a friendship *)

Definition clear_friendship (force disable : bool) : P unit :=
  l <- get_lpn ;;
  if negb force && lp_established l && negb (lp_clear_success l) && (lp_req_attempts l <? CLEAR_ATTEMPTS) then
    send_friend_clear ;;
    mod_lpn (fun l => l <| lp_disable := disable |>)
  else
    stm_emit [LRxReset] ;;
    timer_cancel ;;
    sub <- sub0 ;;
    stm_modify (fun s => s <| ln_net := (ln_net s) <| friend_creds :=
      snd (friend_cred_del (sub_net_idx sub) (lp_frnd l) (friend_creds (ln_net s))) |> |>) ;;
    mod_lpn (fun l => l <| lp_old_friend :=
      if lp_clear_success l then BT_MESH_ADDR_UNASSIGNED else lp_frnd l |>) ;;
    stm_emit [LHeartbeat] ;;
    (if l_has_cb && negb (lp_frnd l =? BT_MESH_ADDR_UNASSIGNED) then stm_emit [LFriend (lp_frnd l) false]
     else mret tt) ;;
    mod_lpn (fun l =>
      ((((((((((((l <| lp_frnd := BT_MESH_ADDR_UNASSIGNED |>) <| lp_fsn := false |>) <| lp_req_attempts := 0 |>)
        <| lp_recv_win := 0 |>) <| lp_queue_size := 0 |>) <| lp_disable := false |>) <| lp_sent_req := 0 |>)
        <| lp_established := false |>) <| lp_clear_success := false |>) <| lp_added := 0 |>)
        <| lp_pending := 0 |>) <| lp_to_remove := 0 |>) <| lp_groups_changed := true |>) ;;
    if disable then lpn_set_state LPN_DISABLED
    else lpn_set_state LPN_ENABLED ;; timer_submit FRIEND_REQ_RETRY_TIMEOUT.

Definition friend_clear_sent (err : Z) : P unit :=
  stm_emit [LScan true] ;;
  mod_lpn (fun l => l <| lp_req_attempts := u8 (lp_req_attempts l + 1) |>) ;;
  if negb (err =? 0) then
    lpn_set_state LPN_ENABLED ;;
    l <- get_lpn ;;
    clear_friendship false (lp_disable l)
  else lpn_set_state LPN_CLEAR ;; timer_submit FRIEND_REQ_TIMEOUT.

(** ** Callbacks *)

Definition friend_req_sent (duration err : Z) : P unit :=
  if negb (err =? 0) then mret tt
  else
    mod_lpn (fun l => l <| lp_adv_duration := duration |>) ;;
    if LPN_ESTABLISHMENT then timer_submit FRIEND_REQ_WAIT ;; lpn_set_state LPN_REQ_WAIT
    else timer_submit (duration + FRIEND_REQ_TIMEOUT) ;; lpn_set_state LPN_WAIT_OFFER.

Definition req_sent (duration err : Z) : P unit :=
  if negb (err =? 0) then mod_lpn (fun l => (l <| lp_sent_req := 0 |>) <| lp_pending := 0 |>)
  else
    mod_lpn (fun l => (l <| lp_req_attempts := u8 (lp_req_attempts l + 1) |>) <| lp_adv_duration := duration |>) ;;
    l <- get_lpn ;;
    if lp_established l || LPN_ESTABLISHMENT then
      lpn_set_state LPN_DELAY ;; timer_submit (LPN_RECV_DELAY - SCAN_LATENCY)
    else lpn_set_state LPN_WAIT_UPDATE ;; timer_submit (LPN_RECV_DELAY + duration + lp_recv_win l).

Definition lpn_callback (cb : lpn_cb) (duration err : Z) : P unit :=
  match cb with
  | CbClearSent => friend_clear_sent err
  | CbFriendReqSent => friend_req_sent duration err
  | CbReqSent => req_sent duration err
  end.

(** ** Switching the feature *)

Definition bt_mesh_lpn_disable (force : bool) : P unit :=
  l <- get_lpn ;;
  if decide (lp_state l = LPN_DISABLED) then mret tt else clear_friendship force true.

Definition bt_mesh_lpn_set (enable : bool) : P Z :=
  l <- get_lpn ;;
  if Bool.eqb enable (negb (bool_decide (lp_state l = LPN_DISABLED))) then mret 0
  else if negb l_provisioned then lpn_set_state (if enable then LPN_ENABLED else LPN_DISABLED) ;; mret 0
  else if enable then
    lpn_set_state LPN_ENABLED ;;
    (if LPN_ESTABLISHMENT then stm_emit [LScan false] else mret tt) ;;
    send_friend_req ;; mret 0
  else
    (if LPN_AUTO && bool_decide (lp_state l = LPN_TIMER) then timer_cancel ;; lpn_set_state LPN_DISABLED
     else bt_mesh_lpn_disable false) ;; mret 0.

(** ** Answers of the Friend *)

Definition friend_response_received : P unit :=
  mod_lpn (fun l => if lp_sent_req l =? TRANS_CTL_OP_FRIEND_POLL then l <| lp_fsn := negb (lp_fsn l) |> else l) ;;
  timer_cancel ;;
  stm_emit [LScan false] ;;
  mod_lpn (fun l => ((l <| lp_state := LPN_ESTABLISHED |>) <| lp_req_attempts := 0 |>) <| lp_sent_req := 0 |>).

Definition bt_mesh_lpn_msg_received : P unit :=
  l <- get_lpn ;;
  if decide (lp_state l = LPN_TIMER) then timer_submit LPN_AUTO_TIMEOUT
  else if negb (lp_sent_req l =? TRANS_CTL_OP_FRIEND_POLL) then mret tt
  else friend_response_received ;; send_friend_poll ;; mret tt.

Definition bt_mesh_lpn_friend_offer (rx : net_rx) (msg : bytes) : P Z :=
  l <- get_lpn ;;
  if decide (length msg < 6)%nat then mret (- EINVAL)
  else if negb (bool_decide (lp_state l = LPN_WAIT_OFFER)) then mret 0
  else if byte_at msg 0 =? 0 then mret (- EINVAL)
  else
    let frnd := ctx_addr (rx_ctx rx) in
    mod_lpn (fun l => l <| lp_frnd := frnd |>) ;;
    s <- stm_get ;;
    sub <- stm_of_option (subs (ln_net s) !! rx_sub rx) ;;
    let '(cred, creds) :=
      friend_cred_create frnd l_primary sub frnd (lp_counter l) (sys_get_be16 (drop 4 msg)) (friend_creds (ln_net s)) in
    stm_modify (fun s => s <| ln_net := (ln_net s) <| friend_creds := creds |> |>) ;;
    match cred with
    | None => mod_lpn (fun l => l <| lp_frnd := BT_MESH_ADDR_UNASSIGNED |>) ;; mret (- ENOMEM)
    | Some i =>
        timer_cancel ;;
        mod_lpn (fun l => (l <| lp_recv_win := byte_at msg 0 |>) <| lp_queue_size := byte_at msg 1 |>) ;;
        err <- send_friend_poll ;;
        if negb (err =? 0) then
          stm_modify (fun s => s <| ln_net := (ln_net s)
            <| friend_creds := alter friend_cred_clear i (friend_creds (ln_net s)) |> |>) ;;
          mod_lpn (fun l => ((l <| lp_frnd := BT_MESH_ADDR_UNASSIGNED |>) <| lp_recv_win := 0 |>)
            <| lp_queue_size := 0 |>) ;;
          mret err
        else
          mod_lpn (fun l => (l <| lp_state := LPN_WAIT_UPDATE |>) <| lp_counter := u16 (lp_counter l + 1) |>) ;;
          mret 0
    end.

Definition bt_mesh_lpn_friend_clear_cfm (msg : bytes) : P Z :=
  l <- get_lpn ;;
  if decide (length msg < 4)%nat then mret (- EINVAL)
  else if negb (bool_decide (lp_state l = LPN_CLEAR)) then mret 0
  else if negb (sys_get_be16 msg =? l_primary) || negb (sys_get_be16 (drop 2 msg) =? lp_counter l) then mret 0
  else
    mod_lpn (fun l => l <| lp_clear_success := true |>) ;;
    clear_friendship false (lp_disable l) ;;
    mret 0.

(** ** The subscription list *)

Definition lpn_group_add (group : Z) : P unit :=
  mod_lpn (fun l =>
    match find_index (Z.eqb group) (lp_groups l) with
    | Some i => l <| lp_to_remove := Z.clearbit (lp_to_remove l) (Z.of_nat i) |>
    | None =>
        match find_index (Z.eqb BT_MESH_ADDR_UNASSIGNED) (lp_groups l) with
        | Some i => (l <| lp_groups := <[i := group]> (lp_groups l) |>) <| lp_groups_changed := true |>
        | None => l
        end
    end).

(** One turn of the loop of [lpn_group_del]. *)
Definition group_del_at (group : Z) (i : nat) (l : lpn) : lpn :=
  if bool_decide (lp_groups l !! i = Some group) then
    if Z.testbit (lp_added l) (Z.of_nat i) || Z.testbit (lp_pending l) (Z.of_nat i) then
      (l <| lp_to_remove := Z.setbit (lp_to_remove l) (Z.of_nat i) |>) <| lp_groups_changed := true |>
    else l <| lp_groups := <[i := BT_MESH_ADDR_UNASSIGNED]> (lp_groups l) |>
  else l.
Definition lpn_group_del (group : Z) : P unit :=
  mod_lpn (fun l => fold_left (fun l i => group_del_at group i l) (seq 0 (length (lp_groups l))) l).

(** [popcount] of 32 bits. *)
Definition popcount (x : Z) : Z := Z.of_nat (length (List.filter (Z.testbit x) (map Z.of_nat (seq 0 32)))).

(** The loop of [sub_update] from index [i] on, with the addresses [g] and the
    bits [pending] so far. *)
Fixpoint sub_pick (add : bool) (l : lpn) (groups : list Z) (i : nat) (g : list Z) (pending : Z) : list Z * Z :=
  match groups with
  | [] => (g, pending)
  | a :: groups =>
      if (a =? BT_MESH_ADDR_UNASSIGNED) ||
         (if add then Z.testbit (lp_added l) (Z.of_nat i) else negb (Z.testbit (lp_to_remove l) (Z.of_nat i)))
      then sub_pick add l groups (S i) g pending
      else if lp_queue_size l <=? popcount (lp_added l) + Z.of_nat (length g) then (g, pending)
      else
        let g := g ++ [a] in
        let pending := Z.setbit pending (Z.of_nat i) in
        if decide (length g = SUB_ADDRS) then (g, pending) else sub_pick add l groups (S i) g pending
  end.

Definition sub_update (op : Z) : P bool :=
  l <- get_lpn ;;
  if negb (lp_sent_req l =? 0) then mret false
  else
    let '(g, pending) := sub_pick (op =? TRANS_CTL_OP_FRIEND_SUB_ADD) l (lp_groups l) 0 [] (lp_pending l) in
    mod_lpn (fun l => l <| lp_pending := pending |>) ;;
    match g with
    | [] => mod_lpn (fun l => l <| lp_pending := 0 |>) ;; mret false
    | _ =>
        let xact := lp_xact_next l in
        mod_lpn (fun l => l <| lp_xact_next := u8 (xact + 1) |>) ;;
        sub <- sub0 ;;
        err <- ctl_send (friend_tx sub l) op (xact :: concat (map sys_put_be16 g)) CbReqSent ;;
        if err <? 0 then mod_lpn (fun l => l <| lp_pending := 0 |>) ;; mret false
        else mod_lpn (fun l => (l <| lp_xact_pending := xact |>) <| lp_sent_req := op |>) ;; mret true
    end.

Definition bt_mesh_lpn_group_add (group : Z) : P unit :=
  lpn_group_add group ;;
  l <- get_lpn ;;
  if negb (lp_established l) || negb (lp_sent_req l =? 0) then mret tt
  else sub_update TRANS_CTL_OP_FRIEND_SUB_ADD ;; mret tt.

Fixpoint lpn_groups_del (groups : list Z) : P unit :=
  match groups with
  | [] => mret tt
  | g :: groups =>
      (if negb (g =? BT_MESH_ADDR_UNASSIGNED) then lpn_group_del g else mret tt) ;; lpn_groups_del groups
  end.
Definition bt_mesh_lpn_group_del (groups : list Z) : P unit :=
  lpn_groups_del groups ;;
  l <- get_lpn ;;
  if negb (lp_established l) || negb (lp_sent_req l =? 0) then mret tt
  else sub_update TRANS_CTL_OP_FRIEND_SUB_REM ;; mret tt.

(** ** Polling *)

Definition poll_timeout : P Z :=
  l <- get_lpn ;;
  if l_tx_in_progress then mret (Z.min (POLL_TIMEOUT_MAX l) (K_SECONDS 1))
  else
    (if lp_poll_timeout l <? POLL_TIMEOUT_MAX l then
       mod_lpn (fun l => l <| lp_poll_timeout := Z.min (lp_poll_timeout l * 2) (POLL_TIMEOUT_MAX l) |>)
     else mret tt) ;;
    l <- get_lpn ;; mret (lp_poll_timeout l).

(** The end of the handlers of Update and Confirm: the list is brought up to
    date, a poll is sent when [poll] says so, or the next one is scheduled. *)
Definition update_groups : P unit :=
  l <- get_lpn ;;
  if lp_groups_changed l then
    sub_update TRANS_CTL_OP_FRIEND_SUB_ADD ;;
    sub_update TRANS_CTL_OP_FRIEND_SUB_REM ;;
    l <- get_lpn ;;
    if lp_sent_req l =? 0 then mod_lpn (fun l => l <| lp_groups_changed := false |>) else mret tt
  else mret tt.
Definition poll_or_wait (poll : bool) : P unit :=
  (if poll then send_friend_poll ;; mret tt else mret tt) ;;
  l <- get_lpn ;;
  if lp_sent_req l =? 0 then d <- poll_timeout ;; timer_submit d else mret tt.

(** The loop over the bits of a confirmed removal. *)
Definition groups_removed (l : lpn) : list Z :=
  imap (fun i g => if Z.testbit (lp_pending l) (Z.of_nat i) && Z.testbit (lp_to_remove l) (Z.of_nat i)
                   then BT_MESH_ADDR_UNASSIGNED else g) (lp_groups l).

(** The bits the loop looks at. *)
Definition groups_mask (l : lpn) : Z := Z.ones (Z.of_nat (length (lp_groups l))).

Definition sub_confirmed (l : lpn) : lpn :=
  if lp_sent_req l =? TRANS_CTL_OP_FRIEND_SUB_ADD then
    (l <| lp_added := Z.lor (lp_added l) (lp_pending l) |>) <| lp_pending := 0 |>
  else
    (((l <| lp_added := Z.land (lp_added l) (Z.lnot (lp_pending l)) |>) <| lp_groups := groups_removed l |>)
      <| lp_to_remove := Z.land (lp_to_remove l) (Z.lnot (Z.land (lp_pending l) (groups_mask l))) |>)
      <| lp_pending := Z.land (lp_pending l) (Z.lnot (groups_mask l)) |>.

Definition bt_mesh_lpn_friend_sub_cfm (msg : bytes) : P Z :=
  l <- get_lpn ;;
  match msg with
  | [] => mret (- EINVAL)
  | xact :: _ =>
      if lp_sent_req l =? 0 then mret 0
      else if negb (xact =? lp_xact_pending l) then mret 0
      else if negb (lp_sent_req l =? TRANS_CTL_OP_FRIEND_SUB_ADD) &&
              negb (lp_sent_req l =? TRANS_CTL_OP_FRIEND_SUB_REM) then mret 0
      else
        mod_lpn sub_confirmed ;;
        friend_response_received ;;
        update_groups ;;
        l <- get_lpn ;;
        poll_or_wait (lp_pending_poll l) ;;
        mret 0
  end.

(** *** Friend Update *)

Definition update_established (rx : net_rx) : P unit :=
  mod_lpn (fun l => l <| lp_established := true |>) ;;
  stm_emit [LHeartbeat] ;;
  l <- get_lpn ;;
  (if l_has_cb then stm_emit [LFriend (lp_frnd l) true] else mret tt) ;;
  mod_lpn (fun l => l <| lp_poll_timeout := Z.min (POLL_TIMEOUT_MAX l) POLL_TIMEOUT_INIT |>).

Definition update_apply (i : nat) (flags iv : Z) (new_key : bool) : P unit :=
  s <- stm_get ;;
  let '(kr_change, m) := bt_mesh_kr_update (ln_net s) i (BT_MESH_KEY_REFRESH flags) new_key in
  let m := if kr_change then set_sub m i (bt_mesh_net_beacon_update m) else m in
  let '(_, m, t) := bt_mesh_net_iv_update l_uptime l_tx_in_progress m iv (BT_MESH_IV_UPDATE flags) in
  stm_modify (fun s => s <| ln_net := m |>) ;;
  stm_emit [LIvuTimer t].

Definition bt_mesh_lpn_friend_update (rx : net_rx) (msg : bytes) : P Z :=
  s <- stm_get ;;
  let l := ln_lpn s in
  if decide (length msg < 6)%nat then mret (- EINVAL)
  else if negb (lp_sent_req l =? TRANS_CTL_OP_FRIEND_POLL) then mret 0
  else
    sub <- stm_of_option (subs (ln_net s) !! rx_sub rx) ;;
    let flags := byte_at msg 0 in
    if (sub_kr_phase sub =? BT_MESH_KR_PHASE_2) && negb (rx_new_key rx) then mret 0
    else
      (if ivu_initiator (ln_net s) && Bool.eqb (iv_update (ln_net s)) (BT_MESH_IV_UPDATE flags) then
         stm_modify (fun s => s <| ln_net := (ln_net s) <| ivu_initiator := false |> |>) ;; stm_emit [LIvuInitiator]
       else mret tt) ;;
      if negb (lp_established l) && negb (rx_friend_cred rx) then mret (- EINVAL)
      else
        (if lp_established l then mret tt else update_established rx) ;;
        friend_response_received ;;
        update_apply (rx_sub rx) flags (sys_get_be32 (drop 1 msg)) (rx_new_key rx) ;;
        update_groups ;;
        poll_or_wait (negb (byte_at msg 5 =? 0)) ;;
        mret 0.

Definition bt_mesh_lpn_poll : P Z :=
  l <- get_lpn ;;
  if negb (lp_established l) then mret (- EAGAIN) else send_friend_poll.

(** ** The timer *)

Definition update_timeout : P unit :=
  l <- get_lpn ;;
  if lp_established l then
    stm_emit [LScan false] ;;
    lpn_set_state LPN_ESTABLISHED ;;
    timer_submit (Z.min ((lp_req_attempts l + 1) * POLL_RETRY_TIMEOUT) POLL_RETRY_TIMEOUT_MAX)
  else
    (if LPN_ESTABLISHMENT then stm_emit [LScan false] else mret tt) ;;
    if lp_req_attempts l <? REQ_RETRY_TIMES_MAX * 2 then
      mod_lpn (fun l => l <| lp_sent_req := 0 |>) ;;
      err <- send_friend_poll ;;
      if err =? 0 then mret tt else clear_friendship false false
    else clear_friendship false false.

Definition lpn_timeout : P unit :=
  l <- get_lpn ;;
  match lp_state l with
  | LPN_DISABLED => mret tt
  | LPN_CLEAR => clear_friendship false (lp_disable l)
  | LPN_TIMER =>
      lpn_set_state LPN_ENABLED ;;
      (if LPN_ESTABLISHMENT then stm_emit [LScan false] else mret tt) ;;
      send_friend_req ;; mret tt
  | LPN_ENABLED => send_friend_req ;; mret tt
  | LPN_REQ_WAIT =>
      stm_emit [LScan true] ;;
      timer_submit (lp_adv_duration l + FRIEND_REQ_SCAN) ;;
      lpn_set_state LPN_WAIT_OFFER
  | LPN_WAIT_OFFER =>
      (if LPN_ESTABLISHMENT then stm_emit [LScan false] else mret tt) ;;
      mod_lpn (fun l => (l <| lp_counter := u16 (lp_counter l + 1) |>) <| lp_state := LPN_ENABLED |>) ;;
      timer_submit FRIEND_REQ_RETRY_TIMEOUT
  | LPN_ESTABLISHED =>
      if lp_req_attempts l <? REQ_ATTEMPTS l then
        mod_lpn (fun l => l <| lp_sent_req := 0 |>) ;;
        if (lp_sent_req l =? 0) || (lp_sent_req l =? TRANS_CTL_OP_FRIEND_POLL) then send_friend_poll ;; mret tt
        else sub_update (lp_sent_req l) ;; mret tt
      else
        mod_lpn (fun l => l <| lp_req_attempts := 0 |>) ;;
        clear_friendship false false
  | LPN_DELAY =>
      timer_submit (lp_adv_duration l + SCAN_LATENCY + lp_recv_win l) ;;
      stm_emit [LScan true] ;;
      lpn_set_state LPN_WAIT_UPDATE
  | LPN_WAIT_UPDATE => update_timeout
  end.

(** [bt_mesh_lpn_init]. *)
Definition bt_mesh_lpn_init : P Z :=
  l <- get_lpn ;;
  (if decide (lp_state l = LPN_ENABLED) then
     stm_emit [LScan (negb LPN_ESTABLISHMENT)] ;; send_friend_req ;; mret tt
   else
     stm_emit [LScan true] ;;
     if LPN_AUTO then lpn_set_state LPN_TIMER ;; timer_submit LPN_AUTO_TIMEOUT else mret tt) ;;
  mret 0.

(** The data before: all zero. *)
Definition lpn_zero : lpn :=
  mk_lpn LPN_DISABLED 0 0 0 0 0 0 0 false false false false false false 0 0 0 0 (replicate LPN_GROUPS 0) 0 0 0.

(** ** Runs *)

Inductive lpn_op :=
| OpLpnInit
| OpLpnSet (enable : bool)
| OpLpnDisable (force : bool)
| OpLpnMsg
| OpLpnOffer (rx : net_rx) (msg : bytes)
| OpLpnClearCfm (msg : bytes)
| OpLpnSubCfm (msg : bytes)
| OpLpnUpdate (rx : net_rx) (msg : bytes)
| OpLpnPoll
| OpLpnGroupAdd (group : Z)
| OpLpnGroupDel (groups : list Z)
| OpLpnTimer
| OpLpnCb (duration err : Z).

(** The timer runs out when it is pending, the bearer calls back in the order of
    the transmissions. *)
Definition lpn_step (op : lpn_op) : P unit :=
  match op with
  | OpLpnInit => bt_mesh_lpn_init ;; mret tt
  | OpLpnSet e => bt_mesh_lpn_set e ;; mret tt
  | OpLpnDisable f => bt_mesh_lpn_disable f
  | OpLpnMsg => bt_mesh_lpn_msg_received
  | OpLpnOffer rx msg => bt_mesh_lpn_friend_offer rx msg ;; mret tt
  | OpLpnClearCfm msg => bt_mesh_lpn_friend_clear_cfm msg ;; mret tt
  | OpLpnSubCfm msg => bt_mesh_lpn_friend_sub_cfm msg ;; mret tt
  | OpLpnUpdate rx msg => bt_mesh_lpn_friend_update rx msg ;; mret tt
  | OpLpnPoll => bt_mesh_lpn_poll ;; mret tt
  | OpLpnGroupAdd g => bt_mesh_lpn_group_add g
  | OpLpnGroupDel gs => bt_mesh_lpn_group_del gs
  | OpLpnTimer =>
      s <- stm_get ;;
      match ln_timer s with
      | None => mret tt
      | Some _ => timer_cancel ;; lpn_timeout
      end
  | OpLpnCb duration err =>
      s <- stm_get ;;
      match ln_cbs s with
      | [] => mret tt
      | cb :: cbs => stm_modify (fun s => s <| ln_cbs := cbs |>) ;; lpn_callback cb duration err
      end
  end.

Fixpoint lpn_run (ops : list lpn_op) : P unit :=
  match ops with
  | [] => mret tt
  | op :: ops => lpn_step op ;; lpn_run ops
  end.
End lpn.
