(* ===== verification/LpnOk.v ===== *)
(** * The Low Power node keeps going

    Between two events the Low Power node is switched off, or its timer is
    pending, or the bearer owes it a callback. *)

From S2P Require Import Prelude NetBuf Cmac Ccm MeshCrypto NetState NetIv TransState Beacon Lpn.

(** ** The number of subnets stays *)

Lemma set_sub_len m i f : length (subs (set_sub m i f)) = length (subs m).
Proof. apply length_alter. Qed.

Lemma revoke_keys_len m i : length (subs (bt_mesh_net_revoke_keys m i)) = length (subs m).
Proof. unfold bt_mesh_net_revoke_keys. destruct (subs m !! i); [apply length_insert|done]. Qed.

Section net.
Context {cfg : MeshConfig}.

Lemma kr_update_len m i f k : length (subs (snd (bt_mesh_kr_update m i f k))) = length (subs m).
Proof.
  unfold bt_mesh_kr_update. destruct (subs m !! i) as [sub|]; [|done].
  repeat case_if; cbn [snd]; rewrite ?set_sub_len; try done.
  all: try (change (length (subs (bt_mesh_net_revoke_keys (set_sub m i (fun s => s <| sub_kr_flag := false |>)) i)) =
    length (subs m))); by rewrite revoke_keys_len, set_sub_len.
Qed.

Lemma do_update_len up m iv u : length (subs (snd (fst (iv_do_update up m iv u)))) = length (subs m).
Proof. unfold iv_do_update. destruct u; apply length_map. Qed.

Lemma iv_update_len up t m iv u :
  length (subs (snd (fst (bt_mesh_net_iv_update up t m iv u)))) = length (subs m).
Proof.
  unfold bt_mesh_net_iv_update, iv_guarded_update.
  repeat case_if; try done; try apply do_update_len.
  all: exact (do_update_len up (iv_recover m iv) iv u).
Qed.
End net.

(** ** Choosing the groups of a subscription message *)

(** Group [i] is to be added, or to be removed. *)
Definition candidate (add : bool) (l : lpn) (i : nat) : Prop :=
  exists a, lp_groups l !! i = Some a /\ a <> BT_MESH_ADDR_UNASSIGNED /\
    (if add then Z.testbit (lp_added l) (Z.of_nat i) = false
     else Z.testbit (lp_to_remove l) (Z.of_nat i) = true).

(** The request in flight would be sent again if it were repeated. *)
Definition repeatable (add : bool) (l : lpn) : Prop :=
  popcount (lp_added l) < lp_queue_size l /\
  exists i, candidate add l i /\ Z.testbit (lp_pending l) (Z.of_nat i) = true.

(** The fields the invariant is about. *)
Definition subscr (l : lpn) : Z * list Z * (Z * Z * Z) :=
  (lp_queue_size l, lp_groups l, (lp_added l, lp_pending l, lp_to_remove l)).
Definition core (l : lpn) : lpn_st * Z * bool * (Z * list Z * (Z * Z * Z)) :=
  (lp_state l, lp_sent_req l, lp_established l, subscr l).

Lemma repeatable_same add l l' : subscr l' = subscr l -> repeatable add l -> repeatable add l'.
Proof. unfold subscr, repeatable, candidate. by intros [= -> -> -> -> ->]. Qed.

Section pick.
Context (add : bool) (l : lpn).

Lemma testbit_setbit_nat x i j :
  Z.testbit (Z.setbit x (Z.of_nat i)) (Z.of_nat j) = bool_decide (i = j) || Z.testbit x (Z.of_nat j).
Proof.
  rewrite Z.setbit_eqb by lia. f_equal. case_bool_decide; [subst; apply Z.eqb_refl|]. apply Z.eqb_neq. lia.
Qed.

(** Bits that are set stay set; a message that got its first group here has
    room and a candidate. *)
Lemma sub_pick_spec groups i g pending :
  (forall k, groups !! k = lp_groups l !! (i + k)%nat) ->
  let '(g', pending') := sub_pick add l groups i g pending in
  (forall j, Z.testbit pending (Z.of_nat j) = true -> Z.testbit pending' (Z.of_nat j) = true) /\
  (g = [] -> g' <> [] -> popcount (lp_added l) < lp_queue_size l /\
     exists j, candidate add l j /\ Z.testbit pending' (Z.of_nat j) = true) /\
  (g <> [] -> g' <> []).
Proof.
  revert i g pending. induction groups as [|a groups IH]; intros i g pending Hg; [done|].
  assert (Hg' : forall k, groups !! k = lp_groups l !! (S i + k)%nat)
    by (intros k; specialize (Hg (S k)); by rewrite Nat.add_succ_r in Hg).
  cbn [sub_pick]. case_if; [by apply IH|]. case_if; [done|].
  apply orb_false_iff in Heqb as [Ha Hc]. apply Z.eqb_neq in Ha. apply Z.leb_gt in Heqb0.
  assert (Hcand : candidate add l i).
  { exists a. split; [specialize (Hg 0%nat); by rewrite Nat.add_0_r in Hg|].
    split; [done|]. destruct add; [done|]. by apply negb_false_iff in Hc. }
  assert (Hbit : Z.testbit (Z.setbit pending (Z.of_nat i)) (Z.of_nat i) = true)
    by (rewrite testbit_setbit_nat, bool_decide_true by done; done).
  assert (Hmono : forall j, Z.testbit pending (Z.of_nat j) = true ->
    Z.testbit (Z.setbit pending (Z.of_nat i)) (Z.of_nat j) = true)
    by (intros j Hj; rewrite testbit_setbit_nat, Hj; apply orb_true_r).
  assert (Hne : g ++ [a] <> []) by (by destruct g).
  case_decide.
  - split; [exact Hmono|]. split; [|done]. intros -> _. cbn in Heqb0. split; [lia|]. by exists i.
  - specialize (IH (S i) (g ++ [a]) (Z.setbit pending (Z.of_nat i)) Hg').
    destruct (sub_pick _ _ _ _ _ _) as [g' p'] eqn:E. destruct IH as (Hm & _ & Hn).
    split; [auto|]. split; [|auto]. intros -> _. cbn in Heqb0. split; [lia|]. exists i. auto.
Qed.

(** With room and a candidate some group is chosen. *)
Lemma sub_pick_some groups i g pending :
  (forall k, groups !! k = lp_groups l !! (i + k)%nat) ->
  popcount (lp_added l) < lp_queue_size l ->
  (exists j, (i <= j)%nat /\ candidate add l j) \/ g <> [] ->
  fst (sub_pick add l groups i g pending) <> [].
Proof.
  revert i g pending. induction groups as [|a groups IH]; intros i g pending Hg Hroom Hex.
  { destruct Hex as [(j & Hj & b & Hb & _)|?]; [|done]. specialize (Hg (j - i)%nat).
    rewrite lookup_nil in Hg. replace (i + (j - i))%nat with j in Hg by lia. congruence. }
  assert (Hg' : forall k, groups !! k = lp_groups l !! (S i + k)%nat)
    by (intros k; specialize (Hg (S k)); by rewrite Nat.add_succ_r in Hg).
  cbn [sub_pick]. case_if.
  { apply IH; [done|done|]. destruct Hex as [(j & Hj & Hc)|?]; [left|by right]. exists j. split; [|done].
    destruct (decide (i = j)) as [<-|]; [exfalso|lia]. destruct Hc as (b & Hb & Hnz & Hc).
    rewrite <- (Nat.add_0_r i), <- (Hg 0%nat) in Hb. injection Hb as <-.
    apply orb_true_iff in Heqb as [Heqb|Heqb]; [by apply Z.eqb_eq in Heqb|].
    destruct add; rewrite Hc in Heqb; done. }
  assert (Hne : g ++ [a] <> []) by (by destruct g).
  case_if.
  - destruct g; [cbn in Heqb0; apply Z.leb_le in Heqb0; lia|done].
  - case_decide; [done|]. apply IH; [done|done|by right].
Qed.
End pick.

(** ** Rules for the operations

    The sends succeed, and leave as many subnets as there were. *)

Section ok.
Context {cfg : MeshConfig} {lcfg : LpnConfig} {env : LpnEnv}.
Hypothesis sends : forall tx op d m, exists m', l_ctl_send tx op d m = (0, m') /\ length (subs m') = length (subs m).

Section rules.
Implicit Types (m : mesh_net) (l : lpn) (t : option Z) (c : list lpn_cb).

Lemma ok_get_lpn m l t c Q : Q l (mk_lpn_node m l t c) -> stm_ok get_lpn Q (mk_lpn_node m l t c).
Proof. done. Qed.
Lemma ok_mod_lpn f m l t c Q : Q tt (mk_lpn_node m (f l) t c) -> stm_ok (mod_lpn f) Q (mk_lpn_node m l t c).
Proof. done. Qed.
Lemma ok_submit d m l t c Q :
  Q tt (mk_lpn_node m l (Some d) c) -> stm_ok (timer_submit d) Q (mk_lpn_node m l t c).
Proof. done. Qed.
Lemma ok_cancel m l t c Q : Q tt (mk_lpn_node m l None c) -> stm_ok timer_cancel Q (mk_lpn_node m l t c).
Proof. done. Qed.
Lemma ok_net f m l t c Q :
  Q tt (mk_lpn_node (f m) l t c) ->
  stm_ok (Ev := lpn_event) (stm_modify (fun s => s <| ln_net := f (ln_net s) |>)) Q (mk_lpn_node m l t c).
Proof. done. Qed.
Lemma ok_sub i m l t c Q :
  (i < length (subs m))%nat -> (forall sub, Q sub (mk_lpn_node m l t c)) ->
  stm_ok (Ev := lpn_event) (stm_of_option (subs m !! i)) Q (mk_lpn_node m l t c).
Proof. intros H HQ. destruct (lookup_lt_is_Some_2 _ _ H) as [sub ->]. apply HQ. Qed.
Lemma ok_sub0 m l t c Q :
  (0 < length (subs m))%nat -> (forall sub, Q sub (mk_lpn_node m l t c)) ->
  stm_ok sub0 Q (mk_lpn_node m l t c).
Proof. intros H HQ. apply ok_bind, ok_get. by apply ok_sub. Qed.
Lemma ok_ctl_send tx op d cb m l t c Q :
  (forall m', length (subs m') = length (subs m) -> Q 0 (mk_lpn_node m' l t (c ++ [cb]))) ->
  stm_ok (ctl_send tx op d cb) Q (mk_lpn_node m l t c).
Proof.
  intros H. apply ok_bind, ok_get. destruct (sends tx op d m) as (m' & E & Hlen). cbn [ln_net]. rewrite E.
  by apply (H m').
Qed.
End rules.
End ok.

(** Runs the steps of an operation on a state given by its fields. *)
Ltac lpn_step :=
  lazymatch goal with
  | |- stm_ok (stm_bind _ _) _ _ => apply ok_bind
  | |- stm_ok (mret _) _ _ => apply ok_ret
  | |- stm_ok stm_get _ _ => apply ok_get
  | |- stm_ok (stm_emit _) _ _ => apply ok_emit
  | |- stm_ok get_lpn _ _ => apply ok_get_lpn
  | |- stm_ok (mod_lpn _) _ _ => apply ok_mod_lpn
  | |- stm_ok (lpn_set_state _) _ _ => apply ok_mod_lpn
  | |- stm_ok (timer_submit _) _ _ => apply ok_submit
  | |- stm_ok timer_cancel _ _ => apply ok_cancel
  | |- stm_ok (ctl_send _ _ _ _) _ _ => apply ok_ctl_send; [assumption|intros ? ?]
  | |- stm_ok sub0 _ _ => apply ok_sub0; [lia|intros ?]
  end.
Ltac lpn_steps := repeat (lpn_step; cbv beta).

(** ** The invariant *)

(** No friendship, and none being made. *)
Definition idle (st : lpn_st) : bool :=
  match st with
  | LPN_DISABLED | LPN_TIMER | LPN_ENABLED | LPN_REQ_WAIT | LPN_WAIT_OFFER => true
  | _ => false
  end.

Definition SUB_ADD := TRANS_CTL_OP_FRIEND_SUB_ADD.
Definition SUB_REM := TRANS_CTL_OP_FRIEND_SUB_REM.

(** What the node does next is certain. *)
Definition live (s : lpn_node) : Prop :=
  lp_state (ln_lpn s) = LPN_DISABLED \/ ln_timer s <> None \/ ln_cbs s <> [].

Record lpn_busy (l : lpn) (c : list lpn_cb) : Prop := {
  lb_cbs : CbFriendReqSent ∉ c;
  lb_state : idle (lp_state l) = false
}.

Record lpn_ok (n : nat) (s : lpn_node) : Prop := {
  lo_subs : length (subs (ln_net s)) = n;
  lo_req : lp_sent_req (ln_lpn s) ∈ [0; TRANS_CTL_OP_FRIEND_POLL; SUB_ADD; SUB_REM];
  lo_busy : lp_established (ln_lpn s) = true \/ lp_sent_req (ln_lpn s) <> 0 -> lpn_busy (ln_lpn s) (ln_cbs s);
  lo_add : lp_sent_req (ln_lpn s) = SUB_ADD -> repeatable true (ln_lpn s);
  lo_rem : lp_sent_req (ln_lpn s) = SUB_REM -> repeatable false (ln_lpn s);
  lo_live : live s
}.

Section steps.
Context {cfg : MeshConfig} {lcfg : LpnConfig} {env : LpnEnv}.
Hypothesis sends : forall tx op d m, exists m', l_ctl_send tx op d m = (0, m') /\ length (subs m') = length (subs m).
Implicit Types (m : mesh_net) (l : lpn) (t : option Z) (c : list lpn_cb).

Lemma pending_poll_same l : l <| lp_pending_poll := lp_pending_poll l |> = l.
Proof. by destruct l. Qed.
Lemma disable_same l : l <| lp_disable := lp_disable l |> = l.
Proof. by destruct l. Qed.

Lemma ok_poll m l t c Q :
  (0 < length (subs m))%nat ->
  (lp_sent_req l = 0 -> forall m', length (subs m') = length (subs m) ->
    Q 0 (mk_lpn_node m' ((l <| lp_pending_poll := false |>) <| lp_sent_req := TRANS_CTL_OP_FRIEND_POLL |>) t
      (c ++ [CbReqSent]))) ->
  (lp_sent_req l <> 0 -> forall b, Q 0 (mk_lpn_node m (l <| lp_pending_poll := b |>) t c)) ->
  stm_ok send_friend_poll Q (mk_lpn_node m l t c).
Proof.
  intros Hs H0 H1. unfold send_friend_poll. lpn_steps.
  destruct (Z.eqb_spec (lp_sent_req l) 0) as [E|E]; cbn [negb].
  - lpn_steps. cbn [Z.eqb]. lpn_steps. by apply H0.
  - lpn_steps. destruct (lp_sent_req l =? TRANS_CTL_OP_FRIEND_POLL); cbn [negb]; lpn_steps.
    + rewrite <- (pending_poll_same l). by apply H1.
    + by apply H1.
Qed.

Lemma ok_sub_update op m l t c Q :
  (0 < length (subs m))%nat ->
  (lp_sent_req l <> 0 -> Q false (mk_lpn_node m l t c)) ->
  (lp_sent_req l = 0 -> ~ repeatable (op =? SUB_ADD) l -> Q false (mk_lpn_node m (l <| lp_pending := 0 |>) t c)) ->
  (lp_sent_req l = 0 -> forall m' p x y, length (subs m') = length (subs m) ->
    repeatable (op =? SUB_ADD) (l <| lp_pending := p |>) ->
    Q true (mk_lpn_node m' ((((l <| lp_pending := p |>) <| lp_xact_next := x |>) <| lp_xact_pending := y |>)
      <| lp_sent_req := op |>) t (c ++ [CbReqSent]))) ->
  stm_ok (sub_update op) Q (mk_lpn_node m l t c).
Proof.
  intros Hs H1 H0 Hop. unfold sub_update. lpn_steps.
  destruct (Z.eqb_spec (lp_sent_req l) 0) as [E|E]; cbn [negb]; [|lpn_steps; by apply H1].
  pose proof (sub_pick_spec (op =? SUB_ADD) l (lp_groups l) 0 [] (lp_pending l) (fun _ => eq_refl)) as Hp.
  pose proof (sub_pick_some (op =? SUB_ADD) l (lp_groups l) 0 [] (lp_pending l) (fun _ => eq_refl)) as Hn.
  change TRANS_CTL_OP_FRIEND_SUB_ADD with SUB_ADD in *.
  destruct (sub_pick _ _ _ _ _ _) as [g p]. destruct Hp as (_ & Hp & _). lpn_steps. destruct g as [|a g].
  - lpn_steps. apply H0; [done|]. intros (Hroom & i & Hc & _). apply Hn; [done| |done]. left. exists i. split; [lia|done].
  - lpn_steps. cbn [Z.ltb Z.compare]. lpn_steps. apply Hop; [done|done|].
    destruct (Hp eq_refl ltac:(done)) as (Hroom & i & Hc & Hb). split; [done|]. by exists i.
Qed.

Lemma ok_clear force disable m l t c Q :
  (0 < length (subs m))%nat ->
  (lp_established l = true -> forall m', length (subs m') = length (subs m) ->
    Q tt (mk_lpn_node m' (l <| lp_disable := disable |>) t (c ++ [CbClearSent]))) ->
  (forall m' l' t', length (subs m') = length (subs m) -> lp_established l' = false -> lp_sent_req l' = 0 ->
    (disable = true /\ lp_state l' = LPN_DISABLED \/ t' <> None) -> Q tt (mk_lpn_node m' l' t' c)) ->
  stm_ok (clear_friendship force disable) Q (mk_lpn_node m l t c).
Proof.
  intros Hs H1 H2. unfold clear_friendship. lpn_steps.
  destruct (negb force && _ && _ && _) eqn:E.
  - apply andb_prop in E as [E _]. apply andb_prop in E as [E _]. apply andb_prop in E as [_ E].
    unfold send_friend_clear. lpn_steps. by apply H1.
  - lpn_steps. apply (ok_net (fun m => m <| friend_creds := snd (friend_cred_del (sub_net_idx sub) (lp_frnd l) (friend_creds m)) |>)).
    lpn_steps.
    match goal with |- stm_ok (if ?b then _ else _) _ _ => destruct b end; lpn_steps;
      destruct disable; lpn_steps; (apply H2; [done|done|done|]); auto.
Qed.
End steps.

(** ** Every operation keeps the invariant *)

(** The bearer is prompt: it tells that a transmission has begun before an
    answer arrives or a timeout of the node runs out, and without an error. No
    group is added while a removal is in flight (see [removal_stalls]). *)
Definition started (c : list lpn_cb) : Prop := Forall (eq CbClearSent) c.

Definition prompt (op : lpn_op) (s : lpn_node) : Prop :=
  match op with
  | OpLpnInit => False
  | OpLpnSet _ | OpLpnDisable _ | OpLpnPoll | OpLpnGroupDel _ => True
  | OpLpnGroupAdd _ => lp_sent_req (ln_lpn s) <> SUB_REM
  | OpLpnMsg | OpLpnClearCfm _ | OpLpnSubCfm _ | OpLpnTimer => started (ln_cbs s)
  | OpLpnOffer rx _ | OpLpnUpdate rx _ => started (ln_cbs s) /\ (rx_sub rx < length (subs (ln_net s)))%nat
  | OpLpnCb _ err => err = 0
  end.

Lemma started_no_req c : started c -> CbFriendReqSent ∉ c.
Proof.
  intros Hc Hin. unfold started in Hc. rewrite List.Forall_forall in Hc. by apply list_elem_of_In, Hc in Hin.
Qed.
Lemma started_busy l c : started c -> idle (lp_state l) = false -> lpn_busy l c.
Proof. intros Hc Hi. split; [by apply started_no_req|done]. Qed.

Lemma busy_same l l' c : core l' = core l -> lpn_busy l c -> lpn_busy l' c.
Proof. intros [= Hs _ _ _ _ _ _ _] [H1 H2]. split; [done|by rewrite Hs]. Qed.

Lemma app_not_nil {A} (l : list A) a : l ++ [a] <> [].
Proof. by destruct l. Qed.

Lemma not_in_app c cb : CbFriendReqSent ∉ c -> cb <> CbFriendReqSent -> CbFriendReqSent ∉ c ++ [cb].
Proof. intros Hc Hcb. rewrite elem_of_app, list_elem_of_singleton. intros [|<-]; done. Qed.

(** The requests there are. *)
Ltac req_in := repeat first [apply list_elem_of_here | apply list_elem_of_further].

Section inv.
Context {cfg : MeshConfig} {lcfg : LpnConfig} {env : LpnEnv} (n : nat).
Hypothesis sends : forall tx op d m, exists m', l_ctl_send tx op d m = (0, m') /\ length (subs m') = length (subs m).
Hypothesis subnets : (0 < n)%nat.
Hypothesis provisioned : l_provisioned = true.
Implicit Types (m : mesh_net) (l : lpn) (t : option Z) (c : list lpn_cb).

(** In the middle of a handler: what was sent is owed a callback. *)
Record lpn_mid (m : mesh_net) (l : lpn) (c : list lpn_cb) : Prop := {
  lm_subs : length (subs m) = n;
  lm_req : lp_sent_req l ∈ [0; TRANS_CTL_OP_FRIEND_POLL; SUB_ADD; SUB_REM];
  lm_busy : lpn_busy l c;
  lm_add : lp_sent_req l = SUB_ADD -> repeatable true l;
  lm_rem : lp_sent_req l = SUB_REM -> repeatable false l;
  lm_cbs : lp_sent_req l <> 0 -> c <> []
}.

Lemma mid_ok m l t c : lpn_mid m l c -> lp_sent_req l <> 0 \/ t <> None -> lpn_ok n (mk_lpn_node m l t c).
Proof.
  intros [H1 H2 H3 H4 H5 H6] Hl. split; try done. unfold live. cbn. destruct Hl; auto.
Qed.

Lemma mid_same m l l' c : core l' = core l -> lpn_mid m l c -> lpn_mid m l' c.
Proof.
  intros E [H1 H2 H3 H4 H5 H6]. assert (Hr : lp_sent_req l' = lp_sent_req l) by (by injection E).
  assert (Hs : subscr l' = subscr l) by (injection E; unfold subscr; congruence).
  split; rewrite ?Hr; try done; [by eapply busy_same|..]; intros Hq; eapply repeatable_same; eauto.
Qed.

(** A request has just been sent. *)
Lemma mid_poll m l c :
  length (subs m) = n -> lp_sent_req l = TRANS_CTL_OP_FRIEND_POLL -> lpn_busy l c -> c <> [] -> lpn_mid m l c.
Proof. intros Hm Hr Hb Hc. split; rewrite ?Hr; try done. req_in. Qed.
Lemma mid_sub op m l c :
  op = SUB_ADD \/ op = SUB_REM -> length (subs m) = n -> lp_sent_req l = op -> repeatable (op =? SUB_ADD) l ->
  lpn_busy l c -> c <> [] -> lpn_mid m l c.
Proof.
  intros Hop Hm Hr Hrep Hb Hc. split; rewrite ?Hr; try done.
  - destruct Hop as [-> | ->]; req_in.
  - by intros ->.
  - by intros ->.
Qed.
(** One more callback is owed. *)
Lemma busy_app l l' c :
  lp_state l' = lp_state l -> lpn_busy l c -> lpn_busy l' (c ++ [CbReqSent]).
Proof. intros Hs [H1 H2]. split; [by apply not_in_app|by rewrite Hs]. Qed.

Lemma poll_mid m l t c (Q : Z -> lpn_node -> Prop) :
  lpn_mid m l c ->
  (forall r m' l' c', lpn_mid m' l' c' -> lp_sent_req l' <> 0 -> Q r (mk_lpn_node m' l' t c')) ->
  stm_ok send_friend_poll Q (mk_lpn_node m l t c).
Proof.
  intros [H1 H2 [H3 H3'] H4 H5 H6] HQ. apply (ok_poll sends); [lia|intros E m' Hm'|intros E b].
  - apply HQ; [|done]. apply mid_poll; [lia|done|by apply (busy_app l)|apply app_not_nil].
  - by apply HQ.
Qed.

Lemma sub_mid op m l t c (Q : bool -> lpn_node -> Prop) :
  op = SUB_ADD \/ op = SUB_REM -> lpn_mid m l c ->
  (forall m' l' c', lpn_mid m' l' c' -> (repeatable (op =? SUB_ADD) l -> lp_sent_req l = 0 -> lp_sent_req l' <> 0) ->
     (lp_sent_req l <> 0 -> lp_sent_req l' <> 0) ->
     forall b, Q b (mk_lpn_node m' l' t c')) ->
  stm_ok (sub_update op) Q (mk_lpn_node m l t c).
Proof.
  intros Hop [H1 H2 [H3 H3'] H4 H5 H6] HQ. apply (ok_sub_update sends); [lia|intros E|intros E Hn|intros E m' p x y Hm' Hr].
  - by apply HQ.
  - apply HQ; [|done|done]. split; try done; record_simpl; rewrite E; done.
  - assert (op <> 0) by (destruct Hop as [-> | ->]; done).
    apply HQ; [|done|done]. apply (mid_sub op); [done|lia|done| |by apply (busy_app l)|apply app_not_nil].
    eapply repeatable_same; [|exact Hr]. done.
Qed.

Lemma groups_mid m l t c (Q : unit -> lpn_node -> Prop) :
  lpn_mid m l c -> (forall m' l' c', lpn_mid m' l' c' -> Q tt (mk_lpn_node m' l' t c')) ->
  stm_ok update_groups Q (mk_lpn_node m l t c).
Proof.
  intros Hmid HQ. unfold update_groups. lpn_steps. case_if; [|lpn_steps; by apply HQ].
  lpn_steps. apply sub_mid; [by left|done|]. intros m1 l1 c1 H1 _ _ _. lpn_steps.
  apply sub_mid; [by right|done|]. intros m2 l2 c2 H2 _ _ _. lpn_steps.
  case_if; lpn_steps; [|by apply HQ]. apply HQ. by apply (mid_same _ l2).
Qed.

Lemma poll_timeout_mid m l t c (Q : Z -> lpn_node -> Prop) :
  lpn_mid m l c -> (forall d l', lpn_mid m l' c -> Q d (mk_lpn_node m l' t c)) ->
  stm_ok poll_timeout Q (mk_lpn_node m l t c).
Proof.
  intros Hmid HQ. unfold poll_timeout. lpn_steps. case_if; [lpn_steps; by apply HQ|].
  lpn_steps. case_if; lpn_steps; [|by apply HQ]. apply HQ. by apply (mid_same _ l).
Qed.

Lemma poll_or_wait_ok poll m l t c :
  lpn_mid m l c -> stm_ok (poll_or_wait poll) (fun _ s => lpn_ok n s) (mk_lpn_node m l t c).
Proof.
  intros Hmid. unfold poll_or_wait. lpn_steps.
  assert (Hend : forall m l c, lpn_mid m l c -> stm_ok (if lp_sent_req l =? 0 then
      d <- poll_timeout ;; timer_submit d else mret tt) (fun _ s => lpn_ok n s) (mk_lpn_node m l t c)).
  { clear. intros m l c Hmid. destruct (Z.eqb_spec (lp_sent_req l) 0) as [E|E]; lpn_steps.
    - apply poll_timeout_mid; [done|]. intros d l' H'. lpn_steps. apply mid_ok; [done|by right].
    - apply mid_ok; [done|by left]. }
  destruct poll; lpn_steps; [|by apply Hend].
  apply poll_mid; [done|]. intros r m1 l1 c1 H1 _. lpn_steps. by apply Hend.
Qed.

(** The invariant without [live]. *)
Record lpn_pre (m : mesh_net) (l : lpn) (c : list lpn_cb) : Prop := {
  lr_subs : length (subs m) = n;
  lr_req : lp_sent_req l ∈ [0; TRANS_CTL_OP_FRIEND_POLL; SUB_ADD; SUB_REM];
  lr_busy : lp_established l = true \/ lp_sent_req l <> 0 -> lpn_busy l c;
  lr_add : lp_sent_req l = SUB_ADD -> repeatable true l;
  lr_rem : lp_sent_req l = SUB_REM -> repeatable false l
}.

Lemma ok_pre m l t c : lpn_ok n (mk_lpn_node m l t c) -> lpn_pre m l c.
Proof. intros [H1 H2 H3 H4 H5 _]. by split. Qed.
Lemma pre_ok m l t c :
  lpn_pre m l c -> lp_state l = LPN_DISABLED \/ t <> None \/ c <> [] -> lpn_ok n (mk_lpn_node m l t c).
Proof. intros [H1 H2 H3 H4 H5] Hl. by split. Qed.
Lemma pre_same m l l' c : core l' = core l -> lpn_pre m l c -> lpn_pre m l' c.
Proof.
  intros E [H1 H2 H3 H4 H5]. assert (Hr : lp_sent_req l' = lp_sent_req l) by (by injection E).
  assert (He : lp_established l' = lp_established l) by (by injection E).
  assert (Hs : subscr l' = subscr l) by (injection E; unfold subscr; congruence).
  split; rewrite ?Hr, ?He; try done; [intros Ha; eapply busy_same; eauto|..]; intros Hq; eapply repeatable_same; eauto.
Qed.
(** Without a friendship and a request the state may be anything. *)
Lemma pre_quiet m l c :
  length (subs m) = n -> lp_established l = false -> lp_sent_req l = 0 -> lpn_pre m l c.
Proof.
  intros Hm He Hr. split; rewrite ?Hr; try done; [constructor|]. rewrite He. by intros [?|?].
Qed.
Lemma pre_net m m' l c : length (subs m') = length (subs m) -> lpn_pre m l c -> lpn_pre m' l c.
Proof. intros E [H1 H2 H3 H4 H5]. split; try done. lia. Qed.
Lemma pre_mid m l c : lpn_pre m l c -> lpn_busy l c -> (lp_sent_req l <> 0 -> c <> []) -> lpn_mid m l c.
Proof. intros [H1 H2 H3 H4 H5] Hb Hc. by split. Qed.
(** A callback that is owed is not for a Friend Request. *)
Lemma pre_app m l c cb : cb <> CbFriendReqSent -> lpn_pre m l c -> lpn_pre m l (c ++ [cb]).
Proof.
  intros Hcb [H1 H2 H3 H4 H5]. split; try done. intros Ha. destruct (H3 Ha) as [Hn Hi].
  split; [by apply not_in_app|done].
Qed.
Lemma pre_tail m l cb c : lpn_pre m l (cb :: c) -> lpn_pre m l c.
Proof.
  intros [H1 H2 H3 H4 H5]. split; try done. intros Ha. destruct (H3 Ha) as [Hn Hi]. split; [|done].
  intros Hin. apply Hn. by right.
Qed.
(** Going to another state of a friendship. *)
Lemma pre_state m l l' c :
  core l' = core (l <| lp_state := lp_state l' |>) -> idle (lp_state l') = false -> lpn_pre m l c -> lpn_pre m l' c.
Proof.
  intros E Hi [H1 H2 H3 H4 H5]. assert (Hs : subscr l' = subscr l) by (injection E; unfold subscr; cbn; congruence).
  assert (Hr : lp_sent_req l' = lp_sent_req l) by (by injection E).
  assert (He : lp_established l' = lp_established l) by (by injection E).
  split; rewrite ?Hr, ?He; try done.
  - intros Hb. split; [apply H3, Hb|done].
  - intros Hb. eapply repeatable_same; eauto.
  - intros Hb. eapply repeatable_same; eauto.
Qed.

Lemma lpn_clear_ok force disable m l t c :
  lpn_pre m l c -> stm_ok (clear_friendship force disable) (fun _ s => lpn_ok n s) (mk_lpn_node m l t c).
Proof.
  intros Hp. pose proof (lr_subs _ _ _ Hp). apply (ok_clear sends); [lia|intros He m' Hm'|].
  - apply pre_ok; [|right; right; apply app_not_nil]. apply pre_app; [done|]. eapply pre_net; [done|].
    by apply (pre_same _ l).
  - intros m' l' t' Hm' He Hr Hl. apply pre_ok; [apply pre_quiet; [lia|done..]|]. destruct Hl as [[_ ?]|?]; auto.
Qed.

Lemma friend_req_ok m l t c (Q : Z -> lpn_node -> Prop) :
  length (subs m) = n -> lp_established l = false -> lp_sent_req l = 0 ->
  (forall r s, lpn_ok n s -> Q r s) ->
  stm_ok send_friend_req Q (mk_lpn_node m l t c).
Proof.
  intros Hm He Hr HQ. unfold send_friend_req. lpn_steps. apply HQ, pre_ok; [|right; right; apply app_not_nil].
  apply pre_quiet; [lia|done..].
Qed.

Lemma pre_idle m l c : lpn_pre m l c -> idle (lp_state l) = true -> lp_established l = false /\ lp_sent_req l = 0.
Proof.
  intros [_ _ H3 _ _] Hi. destruct (lp_established l) eqn:He.
  - destruct H3 as [_ H]; [by left|congruence].
  - split; [done|]. destruct (decide (lp_sent_req l = 0)) as [|Hr]; [done|].
    destruct H3 as [_ H]; [by right|congruence].
Qed.

(** *** Calls *)

Lemma set_ok enable m l t c :
  lpn_ok n (mk_lpn_node m l t c) -> stm_ok (bt_mesh_lpn_set enable) (fun _ s => lpn_ok n s) (mk_lpn_node m l t c).
Proof.
  intros Hok. pose proof (ok_pre _ _ _ _ Hok) as Hp. unfold bt_mesh_lpn_set. lpn_steps.
  destruct (Bool.eqb _ _) eqn:E; [by lpn_steps|]. rewrite provisioned. cbn [negb]. destruct enable.
  - assert (Hd : lp_state l = LPN_DISABLED) by (by case_bool_decide).
    destruct (pre_idle _ _ _ Hp) as [He Hr]; [by rewrite Hd|].
    lpn_steps. destruct LPN_ESTABLISHMENT; lpn_steps; (apply friend_req_ok; [apply Hp|done|done|]; intros r s Hs; by lpn_steps).
  - case_if.
    + apply andb_prop in Heqb as [_ Ht]. apply bool_decide_eq_true in Ht.
      destruct (pre_idle _ _ _ Hp) as [He Hr]; [by rewrite Ht|].
      lpn_steps. apply pre_ok; [|by left]. apply pre_quiet; [apply Hp|done..].
    + unfold bt_mesh_lpn_disable. lpn_steps. destruct (decide _) in |- *; lpn_steps; [done|].
      eapply ok_mono; [by apply lpn_clear_ok|]. intros ? s Hs. by lpn_steps.
Qed.

Lemma disable_ok force m l t c :
  lpn_ok n (mk_lpn_node m l t c) -> stm_ok (bt_mesh_lpn_disable force) (fun _ s => lpn_ok n s) (mk_lpn_node m l t c).
Proof.
  intros Hok. unfold bt_mesh_lpn_disable. lpn_steps. destruct (decide _) in |- *; lpn_steps; [done|].
  apply lpn_clear_ok. by eapply ok_pre.
Qed.

(** With a friendship, a request that is sent is owed a callback. *)
Lemma call_poll_ok m l t c :
  lpn_ok n (mk_lpn_node m l t c) -> stm_ok bt_mesh_lpn_poll (fun _ s => lpn_ok n s) (mk_lpn_node m l t c).
Proof.
  intros Hok. pose proof (ok_pre _ _ _ _ Hok) as Hp. unfold bt_mesh_lpn_poll. lpn_steps.
  destruct (lp_established l) eqn:He; cbn [negb]; [|by lpn_steps].
  pose proof (lr_busy _ _ _ Hp (or_introl He)) as Hb.
  apply (ok_poll sends); [rewrite (lr_subs _ _ _ Hp); lia|intros Hr m' Hm'|intros Hr b].
  - apply mid_ok; [|by left].
    apply mid_poll; [rewrite Hm'; apply Hp|done|by apply (busy_app l)|apply app_not_nil].
  - apply pre_ok; [by apply (pre_same _ l)|]. exact (lo_live _ _ Hok).
Qed.

(** The subscription list is edited: what is in flight stays worth repeating. *)
Lemma popcount_nonneg x : 0 <= popcount x.
Proof. unfold popcount. lia. Qed.

Lemma add_core g l :
  let l' := match find_index (Z.eqb g) (lp_groups l) with
    | Some i => l <| lp_to_remove := Z.clearbit (lp_to_remove l) (Z.of_nat i) |>
    | None =>
        match find_index (Z.eqb BT_MESH_ADDR_UNASSIGNED) (lp_groups l) with
        | Some i => (l <| lp_groups := <[i := g]> (lp_groups l) |>) <| lp_groups_changed := true |>
        | None => l
        end
    end in
  lp_state l' = lp_state l /\ lp_sent_req l' = lp_sent_req l /\ lp_established l' = lp_established l /\
  (repeatable true l -> repeatable true l').
Proof.
  cbv zeta. destruct (find_index (Z.eqb g) (lp_groups l)) as [i|]; [by record_simpl|].
  destruct (find_index (Z.eqb BT_MESH_ADDR_UNASSIGNED) (lp_groups l)) as [i|] eqn:E; [|done].
  split; [done|]. split; [done|]. split; [done|]. intros [Hroom (j & (a & Hj & Ha & Hbit) & Hp)].
  split; [exact Hroom|]. exists j. split; [|exact Hp]. exists a. split; [|done]. cbn.
  apply find_index_Some in E as (x & Hx & Ex). apply Z.eqb_eq in Ex as <-.
  rewrite list_lookup_insert_ne; [done|]. intros ->. congruence.
Qed.

Definition kept (l l' : lpn) : Prop :=
  lp_state l' = lp_state l /\ lp_sent_req l' = lp_sent_req l /\ lp_established l' = lp_established l.

Lemma del_at_core g i l :
  let l' := group_del_at g i l in
  kept l l' /\ forall add, repeatable add l -> repeatable add l'.
Proof.
  cbv zeta. unfold group_del_at. case_bool_decide as Hi; [|done]. case_if; record_simpl.
  - split; [done|]. intros add [Hroom (j & (a & Hj & Ha & Hbit) & Hp)]. split; [exact Hroom|].
    exists j. split; [|exact Hp]. exists a. split; [done|]. split; [done|]. cbn. destruct add; [done|].
    rewrite testbit_setbit_nat, Hbit. apply orb_true_r.
  - split; [done|]. intros add [Hroom (j & (a & Hj & Ha & Hbit) & Hp)]. split; [exact Hroom|].
    exists j. split; [|exact Hp]. exists a. split; [|done]. cbn. rewrite list_lookup_insert_ne; [done|].
    intros ->. apply orb_false_iff in Heqb as [_ Hb]. congruence.
Qed.

Lemma del_core g l :
  let l' := fold_left (fun l i => group_del_at g i l) (seq 0 (length (lp_groups l))) l in
  kept l l' /\ forall add, repeatable add l -> repeatable add l'.
Proof.
  cbv zeta. generalize (seq 0 (length (lp_groups l))). intros idx. revert l.
  induction idx as [|i idx IH]; intros l; [done|]. cbn.
  destruct (del_at_core g i l) as [(H1 & H2 & H3) Hr]. destruct (IH (group_del_at g i l)) as [(K1 & K2 & K3) Kr].
  split; [|auto]. unfold kept. rewrite K1, K2, K3. done.
Qed.

Lemma pre_edit m l l' c :
  kept l l' -> (lp_sent_req l = SUB_ADD -> repeatable true l -> repeatable true l') ->
  (lp_sent_req l = SUB_REM -> repeatable false l -> repeatable false l') -> lpn_pre m l c -> lpn_pre m l' c.
Proof.
  intros (Es & Er & Ee) Ha Hr [H1 H2 H3 H4 H5]. split; rewrite ?Er, ?Ee; auto.
  intros Hb. destruct (H3 Hb). split; [done|by rewrite Es].
Qed.

(** A subscription message is sent when there is nothing else in flight. *)
Lemma call_sub_ok op m l t c (Q : unit -> lpn_node -> Prop) :
  op = SUB_ADD \/ op = SUB_REM -> lpn_ok n (mk_lpn_node m l t c) -> (forall s, lpn_ok n s -> Q tt s) ->
  stm_ok (l <- get_lpn ;; (if negb (lp_established l) || negb (lp_sent_req l =? 0) then mret tt
     else sub_update op ;; mret tt)) Q (mk_lpn_node m l t c).
Proof.
  intros Hop Hok HQ. pose proof (ok_pre _ _ _ _ Hok) as Hp. lpn_steps. case_if; [lpn_steps; by apply HQ|].
  apply orb_false_iff in Heqb as [He Hr]. apply negb_false_iff in He, Hr. apply Z.eqb_eq in Hr.
  lpn_steps. apply (ok_sub_update sends); [rewrite (lr_subs _ _ _ Hp); lia|done|..].
  - intros _ _. lpn_steps. apply HQ, pre_ok; [|exact (lo_live _ _ Hok)].
    apply (pre_edit _ l); [done|by rewrite Hr..|done].
  - intros _ m' p x y Hm' Hrep. lpn_steps. apply HQ, mid_ok; [|left; by destruct Hop as [-> | ->]].
    apply (mid_sub op); [done|rewrite Hm'; apply Hp|done| | |apply app_not_nil].
    + eapply repeatable_same; [|exact Hrep]. done.
    + apply (busy_app l); [done|]. apply Hp. by left.
Qed.

Lemma group_add_ok g m l t c :
  lp_sent_req l <> SUB_REM -> lpn_ok n (mk_lpn_node m l t c) ->
  stm_ok (bt_mesh_lpn_group_add g) (fun _ s => lpn_ok n s) (mk_lpn_node m l t c).
Proof.
  intros Hr Hok. unfold bt_mesh_lpn_group_add, lpn_group_add. lpn_step. lpn_step. cbv beta.
  destruct (add_core g l) as (H1 & H2 & H3 & H4). apply call_sub_ok; [by left| |done].
  apply pre_ok; [|rewrite H1; exact (lo_live _ _ Hok)].
  apply (pre_edit _ l); [done|auto|done|by eapply ok_pre].
Qed.

Lemma groups_del_ok gs m l t c (Q : unit -> lpn_node -> Prop) :
  lpn_ok n (mk_lpn_node m l t c) -> (forall l', lpn_ok n (mk_lpn_node m l' t c) -> Q tt (mk_lpn_node m l' t c)) ->
  stm_ok (lpn_groups_del gs) Q (mk_lpn_node m l t c).
Proof.
  intros Hok HQ. revert l Hok. induction gs as [|g gs IH]; intros l Hok; cbn [lpn_groups_del]; [lpn_steps; by apply HQ|].
  lpn_steps. case_if; [|lpn_steps; by apply IH]. unfold lpn_group_del. lpn_step. apply IH.
  destruct (del_core g l) as [Hk Hrep]. apply pre_ok; [|destruct Hk as [-> _]; exact (lo_live _ _ Hok)].
  apply (pre_edit _ l); [done|auto|auto|by eapply ok_pre].
Qed.

Lemma group_del_ok gs m l t c :
  lpn_ok n (mk_lpn_node m l t c) ->
  stm_ok (bt_mesh_lpn_group_del gs) (fun _ s => lpn_ok n s) (mk_lpn_node m l t c).
Proof.
  intros Hok. unfold bt_mesh_lpn_group_del. apply ok_bind, groups_del_ok; [done|]. intros l' Hok'.
  apply call_sub_ok; [by right|done|done].
Qed.

(** *** Messages *)

(** After [friend_response_received]. *)
Lemma response_mid m l t c (Q : unit -> lpn_node -> Prop) :
  length (subs m) = n -> started c ->
  (forall l', lp_established l' = lp_established l -> lp_groups_changed l' = lp_groups_changed l -> lpn_mid m l' c ->
     Q tt (mk_lpn_node m l' None c)) ->
  stm_ok friend_response_received Q (mk_lpn_node m l t c).
Proof.
  intros Hm Hc HQ. unfold friend_response_received. lpn_steps.
  assert (E : forall l0, l0 = (if lp_sent_req l =? TRANS_CTL_OP_FRIEND_POLL then l <| lp_fsn := negb (lp_fsn l) |> else l) ->
    lp_established l0 = lp_established l /\ lp_groups_changed l0 = lp_groups_changed l) by (intros l0 ->; by case_if).
  destruct (E _ eq_refl) as [E1 E2]. apply HQ; [done|done|]. split; try done; [constructor|]. by apply started_busy.
Qed.

Lemma msg_ok m l t c :
  started c -> lpn_ok n (mk_lpn_node m l t c) ->
  stm_ok bt_mesh_lpn_msg_received (fun _ s => lpn_ok n s) (mk_lpn_node m l t c).
Proof.
  intros Hc Hok. pose proof (ok_pre _ _ _ _ Hok) as Hp. unfold bt_mesh_lpn_msg_received. lpn_steps.
  destruct (decide _); lpn_steps; [apply pre_ok; [done|by right; left]|].
  case_if; lpn_steps; [done|]. apply response_mid; [apply Hp|done|]. intros l' _ _ Hmid.
  lpn_steps. apply poll_mid; [done|]. intros r m1 l1 c1 H1 Hr. lpn_steps. apply mid_ok; [done|by left].
Qed.

Lemma lpn_clear_cfm_ok msg m l t c :
  lpn_ok n (mk_lpn_node m l t c) ->
  stm_ok (bt_mesh_lpn_friend_clear_cfm msg) (fun _ s => lpn_ok n s) (mk_lpn_node m l t c).
Proof.
  intros Hok. pose proof (ok_pre _ _ _ _ Hok) as Hp. unfold bt_mesh_lpn_friend_clear_cfm. lpn_steps.
  destruct (decide _); lpn_steps; [done|]. case_if; lpn_steps; [done|]. case_if; lpn_steps; [done|].
  eapply ok_mono; [apply lpn_clear_ok, (pre_same _ l); done|]. intros ? s Hs. by lpn_steps.
Qed.

Lemma offer_ok rx msg m l t c :
  started c -> (rx_sub rx < n)%nat -> lpn_ok n (mk_lpn_node m l t c) ->
  stm_ok (bt_mesh_lpn_friend_offer rx msg) (fun _ s => lpn_ok n s) (mk_lpn_node m l t c).
Proof.
  intros Hc Hsub Hok. pose proof (ok_pre _ _ _ _ Hok) as Hp. pose proof (lr_subs _ _ _ Hp) as Hm.
  unfold bt_mesh_lpn_friend_offer. lpn_steps. destruct (decide (length msg < 6)%nat); lpn_steps; [done|].
  case_bool_decide as Hst; cbn [negb]; lpn_steps; [|done]. case_if; lpn_steps; [done|].
  destruct (pre_idle _ _ _ Hp) as [He Hr]; [by rewrite Hst|].
  cbn [ln_net]. apply ok_sub; [lia|]. intros sub.
  destruct (friend_cred_create _ _ _ _ _ _ _) as [cred creds]. lpn_steps.
  apply (ok_net (fun m => m <| friend_creds := creds |>)).
  set (m1 := m <| friend_creds := creds |>). assert (Hm1 : length (subs m1) = n) by done. clearbody m1.
  destruct cred as [i|]; lpn_steps.
  - apply (ok_poll sends); [lia| |done]. intros _ m' Hm'. lpn_steps. cbn [Z.eqb negb]. lpn_steps.
    apply mid_ok; [|by left]. apply mid_poll; [lia|done| |apply app_not_nil].
    split; [|done]. apply not_in_app; [|done]. by apply started_no_req.
  - apply pre_ok; [by apply pre_quiet|]. exact (lo_live _ _ Hok).
Qed.

Lemma lpn_sub_cfm_ok msg m l t c :
  started c -> lpn_ok n (mk_lpn_node m l t c) ->
  stm_ok (bt_mesh_lpn_friend_sub_cfm msg) (fun _ s => lpn_ok n s) (mk_lpn_node m l t c).
Proof.
  intros Hc Hok. pose proof (ok_pre _ _ _ _ Hok) as Hp. unfold bt_mesh_lpn_friend_sub_cfm. lpn_steps.
  destruct msg as [|xact msg]; lpn_steps; [done|]. case_if; lpn_steps; [done|]. case_if; lpn_steps; [done|].
  case_if; lpn_steps; [done|]. apply response_mid; [apply Hp|done|]. intros l1 _ _ H1. lpn_steps.
  apply groups_mid; [done|]. intros m2 l2 c2 H2. lpn_steps.
  eapply ok_mono; [by apply poll_or_wait_ok|]. intros ? s Hs. by lpn_steps.
Qed.

Lemma update_apply_ok i flags iv key m l t c Q :
  (i < length (subs m))%nat ->
  (forall m', length (subs m') = length (subs m) -> Q tt (mk_lpn_node m' l t c)) ->
  stm_ok (update_apply i flags iv key) Q (mk_lpn_node m l t c).
Proof.
  intros Hi HQ. unfold update_apply. lpn_steps. cbn [ln_net].
  pose proof (kr_update_len m i (BT_MESH_KEY_REFRESH flags) key) as H1.
  destruct (bt_mesh_kr_update _ _ _ _) as [kr m1]. cbn [snd] in H1.
  set (m2 := if kr then _ else _). assert (H2 : length (subs m2) = length (subs m))
    by (subst m2; destruct kr; [by rewrite set_sub_len|done]).
  pose proof (iv_update_len l_uptime l_tx_in_progress m2 iv (BT_MESH_IV_UPDATE flags)) as H3.
  clearbody m2. destruct (bt_mesh_net_iv_update _ _ _ _ _) as [[x m3] tm]. cbn [snd fst] in H3.
  lpn_steps. apply (ok_net (fun _ => m3)). lpn_steps. apply HQ. lia.
Qed.

Lemma established_ok rx m l t c Q :
  (forall l', lp_groups_changed l' = lp_groups_changed l -> Q tt (mk_lpn_node m l' t c)) ->
  stm_ok (update_established rx) Q (mk_lpn_node m l t c).
Proof. intros HQ. unfold update_established. lpn_steps. case_if; lpn_steps; by apply HQ. Qed.


(** The handler of Friend Update after the checks. *)
Lemma update_go_ok rx i flags iv key poll m l t c :
  started c -> (i < n)%nat -> length (subs m) = n ->
  stm_ok ((if lp_established l then mret tt else update_established rx) ;;
          friend_response_received ;; update_apply i flags iv key ;; update_groups ;; poll_or_wait poll ;; mret 0)
    (fun _ s => lpn_ok n s) (mk_lpn_node m l t c).
Proof.
  intros Hc Hi Hm. apply ok_bind.
  assert (Hgo : forall l, stm_ok (friend_response_received ;; update_apply i flags iv key ;; update_groups ;;
    poll_or_wait poll ;; mret 0) (fun _ s => lpn_ok n s) (mk_lpn_node m l t c)).
  { clear l. intros l. apply ok_bind, response_mid; [done|done|]. intros l1 _ _ H1.
    apply ok_bind, update_apply_ok; [lia|]. intros m2 H2. apply ok_bind, groups_mid.
    { destruct H1 as [K1 K2 K3 K4 K5 K6]. split; try done. lia. }
    intros m3 l3 c3 H3. apply ok_bind. eapply ok_mono; [by apply poll_or_wait_ok|].
    intros ? s Hs. by lpn_steps. }
  case_if; [lpn_step; apply Hgo|]. apply established_ok. intros l' _. apply Hgo.
Qed.

Lemma update_ok rx msg m l t c :
  started c -> (rx_sub rx < n)%nat -> lpn_ok n (mk_lpn_node m l t c) ->
  stm_ok (bt_mesh_lpn_friend_update rx msg) (fun _ s => lpn_ok n s) (mk_lpn_node m l t c).
Proof.
  intros Hc Hsub Hok. pose proof (ok_pre _ _ _ _ Hok) as Hp. pose proof (lr_subs _ _ _ Hp) as Hm.
  unfold bt_mesh_lpn_friend_update. lpn_step. lpn_step. cbv beta zeta. cbn [ln_lpn ln_net].
  destruct (decide (length msg < 6)%nat); [by apply ok_ret|]. case_if; [by apply ok_ret|].
  apply ok_bind, ok_sub; [lia|]. intros sub. case_if; [by apply ok_ret|]. apply ok_bind.
  case_if; lpn_steps; [apply (ok_net (fun m => m <| ivu_initiator := false |>)); lpn_steps|];
    (case_if; [apply ok_ret, pre_ok; [by apply (pre_net m)|exact (lo_live _ _ Hok)]|]); by apply update_go_ok.
Qed.

(** *** The timer *)

(** A request that ran out is sent again. *)
Lemma retry_ok m l t c :
  lpn_pre m l c -> started c -> lp_state l = LPN_ESTABLISHED ->
  stm_ok (if (lp_sent_req l =? 0) || (lp_sent_req l =? TRANS_CTL_OP_FRIEND_POLL) then send_friend_poll ;; mret tt
          else sub_update (lp_sent_req l) ;; mret tt)
    (fun _ s => lpn_ok n s) (mk_lpn_node m (l <| lp_sent_req := 0 |>) t c).
Proof.
  intros Hp Hc Hst. assert (Hm : lpn_mid m (l <| lp_sent_req := 0 |>) c).
  { split; try done; [apply Hp|req_in|]. apply started_busy; [done|]. cbn. by rewrite Hst. }
  case_if; lpn_steps.
  - apply poll_mid; [done|]. intros r m1 l1 c1 H1 Hr. lpn_steps. apply mid_ok; [done|by left].
  - apply orb_false_iff in Heqb as [E1 E2]. apply Z.eqb_neq in E1, E2.
    pose proof (lr_req _ _ _ Hp) as Hreq. rewrite !elem_of_cons in Hreq.
    assert (Hop : lp_sent_req l = SUB_ADD \/ lp_sent_req l = SUB_REM).
    { destruct Hreq as [?|[?|[?|[?|Hnil]]]]; [done|done|by left|by right|by apply elem_of_nil in Hnil]. }
    apply sub_mid; [done|done|]. intros m1 l1 c1 H1 Hr _ b. lpn_steps. apply mid_ok; [done|]. left. apply Hr; [|done].
    destruct Hop as [E|E]; rewrite E; (apply (repeatable_same _ l); [done|]).
    + by apply (lr_add _ _ _ Hp).
    + by apply (lr_rem _ _ _ Hp).
Qed.

Lemma timer_ok m l t c :
  lpn_pre m l c -> started c -> stm_ok lpn_timeout (fun _ s => lpn_ok n s) (mk_lpn_node m l t c).
Proof.
  intros Hp Hc. unfold lpn_timeout. lpn_steps.
  pose proof (lr_subs _ _ _ Hp) as Hm. destruct (lp_state l) eqn:Hst.
  - apply ok_ret, pre_ok; [done|by left].
  - by apply lpn_clear_ok.
  - destruct (pre_idle _ _ _ Hp) as [He Hr]; [by rewrite Hst|].
    lpn_steps. case_if; lpn_steps; (apply friend_req_ok; [done|done|done|]; intros r s Hs; by lpn_steps).
  - destruct (pre_idle _ _ _ Hp) as [He Hr]; [by rewrite Hst|].
    apply ok_bind, friend_req_ok; [done|done|done|]. intros r s Hs. by lpn_steps.
  - destruct (pre_idle _ _ _ Hp) as [He Hr]; [by rewrite Hst|].
    lpn_steps. apply pre_ok; [by apply pre_quiet|by right; left].
  - destruct (pre_idle _ _ _ Hp) as [He Hr]; [by rewrite Hst|].
    lpn_steps. case_if; lpn_steps; (apply pre_ok; [by apply pre_quiet|by right; left]).
  - case_if; lpn_steps; [by apply retry_ok|]. apply lpn_clear_ok. by apply (pre_same _ l).
  - lpn_steps. apply pre_ok; [|by right; left]. by apply (pre_state _ l).
  - unfold update_timeout. lpn_steps. case_if; lpn_steps.
    + apply pre_ok; [|by right; left]. by apply (pre_state _ l).
    + assert (Hgo : stm_ok (if lp_req_attempts l <? REQ_RETRY_TIMES_MAX * 2 then
        mod_lpn (fun l => l <| lp_sent_req := 0 |>) ;; err <- send_friend_poll ;;
        (if err =? 0 then mret tt else clear_friendship false false) else clear_friendship false false)
        (fun _ s => lpn_ok n s) (mk_lpn_node m l t c)).
      { case_if; [|by apply lpn_clear_ok]. lpn_steps. apply (ok_poll sends); [lia| |done]. intros _ m' Hm'.
        cbn [Z.eqb]. lpn_steps. apply mid_ok; [|by left].
        apply mid_poll; [lia|done| |apply app_not_nil]. apply (busy_app l); [done|].
        apply started_busy; [done|by rewrite Hst]. }
      case_if; lpn_steps; exact Hgo.
Qed.

(** *** The callbacks *)

Lemma callback_ok cb duration m l t c :
  lpn_pre m l (cb :: c) -> stm_ok (lpn_callback cb duration 0) (fun _ s => lpn_ok n s) (mk_lpn_node m l t c).
Proof.
  intros Hp. pose proof (pre_tail _ _ _ _ Hp) as Hq. pose proof (lr_subs _ _ _ Hp) as Hm. destruct cb; cbn [lpn_callback].
  - unfold friend_clear_sent. lpn_steps. cbn [Z.eqb negb]. lpn_steps.
    apply pre_ok; [|by right; left]. by apply (pre_state _ l).
  - assert (Hi : lp_established l = false /\ lp_sent_req l = 0).
    { destruct Hp as [_ _ H _ _]. destruct (lp_established l).
      - destruct H as [[] _]; [by left|left].
      - split; [done|]. destruct (decide (lp_sent_req l = 0)) as [|Hr]; [done|].
        destruct H as [[] _]; [by right|left]. }
    destruct Hi as [He Hr]. unfold friend_req_sent. cbn [Z.eqb negb]. lpn_steps.
    case_if; lpn_steps; (apply pre_ok; [by apply pre_quiet|by right; left]).
  - unfold req_sent. cbn [Z.eqb negb]. lpn_steps.
    case_if; lpn_steps; (apply pre_ok; [by apply (pre_state _ l)|by right; left]).
Qed.

(** *** Every operation *)

Lemma step_ok op s : lpn_ok n s -> prompt op s -> stm_ok (lpn_step op) (fun _ s => lpn_ok n s) s.
Proof.
  intros Hok Hpr. destruct s as [m l t c]. pose proof (lo_subs _ _ Hok) as Hm. cbn [ln_net] in Hm.
  destruct op as [|e|f| |rx msg|msg|msg|rx msg| |g|gs| |d err]; cbn [lpn_step prompt ln_net ln_lpn ln_cbs] in *; try done.
  - eapply ok_call; [by apply set_ok|]. intros ? s Hs. by lpn_steps.
  - by apply disable_ok.
  - by apply msg_ok.
  - destruct Hpr. eapply ok_call; [apply offer_ok; [done|lia|done]|]. intros ? s Hs. by lpn_steps.
  - eapply ok_call; [by apply lpn_clear_cfm_ok|]. intros ? s Hs. by lpn_steps.
  - eapply ok_call; [by apply lpn_sub_cfm_ok|]. intros ? s Hs. by lpn_steps.
  - destruct Hpr. eapply ok_call; [apply update_ok; [done|lia|done]|]. intros ? s Hs. by lpn_steps.
  - eapply ok_call; [by apply call_poll_ok|]. intros ? s Hs. by lpn_steps.
  - by apply group_add_ok.
  - by apply group_del_ok.
  - lpn_steps. cbn [ln_timer]. destruct t as [d|]; lpn_steps; [|done]. apply timer_ok; [by eapply ok_pre|done].
  - lpn_steps. cbn [ln_cbs]. destruct c as [|cb c]; lpn_steps; [done|]. subst err. apply callback_ok. by eapply ok_pre.
Qed.
End inv.

(** ** Runs *)

(** Before [bt_mesh_lpn_init] the feature is off, or was asked for before the
    node was provisioned. *)
Definition powered {lcfg : LpnConfig} (n : nat) (s : lpn_node) : Prop :=
  length (subs (ln_net s)) = n /\ ln_timer s = None /\ ln_cbs s = [] /\
  (ln_lpn s = lpn_zero \/ ln_lpn s = lpn_zero <| lp_state := LPN_ENABLED |>).

Section reach.
Context {cfg : MeshConfig} {lcfg : LpnConfig} {env : LpnEnv}.

(** The states of a node whose bearer is prompt. *)
Inductive lpn_reach (n : nat) : lpn_node -> Prop :=
| reach_init s s' e : powered n s -> lpn_step OpLpnInit s = Some (tt, s', e) -> lpn_reach n s'
| reach_step s op s' e : lpn_reach n s -> prompt op s -> lpn_step op s = Some (tt, s', e) -> lpn_reach n s'.

Context (n : nat).
Hypothesis sends : forall tx op d m, exists m', l_ctl_send tx op d m = (0, m') /\ length (subs m') = length (subs m).
Hypothesis subnets : (0 < n)%nat.
Hypothesis provisioned : l_provisioned = true.

Lemma init_ok s : powered n s -> stm_ok (lpn_step OpLpnInit) (fun _ s => lpn_ok n s) s.
Proof.
  destruct s as [m l t c]. intros (Hm & Ht & Hc & Hl). cbn in *. subst t c.
  assert (Hz : lp_established l = false /\ lp_sent_req l = 0) by (destruct Hl as [-> | ->]; done).
  destruct Hz as [He Hr]. unfold bt_mesh_lpn_init. lpn_steps. destruct (decide (lp_state l = LPN_ENABLED)) as [Hs|Hs].
  - lpn_steps. eapply friend_req_ok; [done..|]. intros r s Hok. by lpn_steps.
  - assert (Hd : lp_state l = LPN_DISABLED) by (destruct Hl as [-> | ->]; done).
    lpn_steps. case_if; lpn_steps; (apply pre_ok; [by apply pre_quiet|]); [by right; left|by left].
Qed.

Lemma reach_ok s : lpn_reach n s -> lpn_ok n s.
Proof.
  induction 1 as [s s' e Hp Hs|s op s' e Hr IH Hpr Hs].
  - pose proof (init_ok s Hp) as H. unfold stm_ok, stm_wp in H. by rewrite Hs in H.
  - pose proof (step_ok n sends subnets provisioned op s IH Hpr) as H. unfold stm_ok, stm_wp in H. by rewrite Hs in H.
Qed.

(** C26: the Low Power node never stops. In every state it reaches after its
    initialisation, when its transmissions are accepted and the bearer is
    prompt, it is switched off, its timer is pending, or the bearer owes it the
    callback of a transmission; and every operation is defined there. *)
Theorem lpn_progress s :
  lpn_reach n s -> live s /\ forall op, prompt op s -> exists s' e, lpn_step op s = Some (tt, s', e).
Proof.
  intros Hr. apply reach_ok in Hr. split; [exact (lo_live _ _ Hr)|]. intros op Hop.
  destruct (wp_inv _ _ _ (wp_ok _ _ _ (step_ok n sends subnets provisioned op s Hr Hop))) as ([] & s' & e & H & _).
  by exists s', e.
Qed.
End reach.

(** ** A run, and what stops the node *)

Definition sample_lpn_env : LpnEnv :=
  {| l_primary := 0x10; l_net_transmit := 0x0a; l_elem_count := 1; l_provisioned := true;
     l_tx_in_progress := false; l_uptime := 0; l_has_cb := false; l_ctl_send := fun _ _ _ m => (0, m) |}.
(** A bearer without buffers. *)
Definition full_lpn_env : LpnEnv :=
  {| l_primary := 0x10; l_net_transmit := 0x0a; l_elem_count := 1; l_provisioned := true;
     l_tx_in_progress := false; l_uptime := 0; l_has_cb := false; l_ctl_send := fun _ _ _ m => (- ENOBUFS, m) |}.

Definition sample_lpn_net : mesh_net := (bt_mesh_init_state 1) <| subs := [unused_subnet <| sub_net_idx := 0 |>] |>.
Definition lpn_start {lcfg : LpnConfig} : lpn_node := mk_lpn_node sample_lpn_net lpn_zero None [].
(** From the Friend, with the friendship credentials. *)
Definition from_friend : net_rx :=
  mk_rx 0 (mk_ctx 0 BT_MESH_KEY_UNUSED 1 0 0 false) 1 0x10 false false true true IF_ADV true false (-40).
Definition offer_msg : bytes := [100; 8; 8; 0; 0; 1].
Definition update_msg (md : Z) : bytes := [0; 0; 0; 0; 0; md].

Notation lpn_result env ops :=
  (lpn_run (cfg := proxy_friend_config) (lcfg := default_lpn_config) (env := env) ops
     (lpn_start (lcfg := default_lpn_config))).
Notation lpn_end env ops :=
  (match lpn_result env ops with Some (_, s, _) => s | None => lpn_start (lcfg := default_lpn_config) end).

(** The requests of the subscription list in the events of a run. *)
Definition sub_requests (e : list lpn_event) : list (Z * bytes) :=
  omap (fun ev => match ev with
    | LCtlSend _ op d => if (op =? SUB_ADD) || (op =? SUB_REM) then Some (op, d) else None
    | _ => None
    end) e.

Definition sent_cb : lpn_op := OpLpnCb 20 0.
(** A friendship is made with the groups [gs] on the list. *)
Definition friendship_ops (gs : list Z) : list lpn_op :=
  OpLpnInit :: map OpLpnGroupAdd gs ++
  [OpLpnSet true; sent_cb; OpLpnOffer from_friend offer_msg; sent_cb; OpLpnUpdate from_friend (update_msg 0)].

Example friendship_end :
  let s := lpn_end sample_lpn_env (friendship_ops [0xc000]) in
  lp_established (ln_lpn s) = true /\ lp_sent_req (ln_lpn s) = SUB_ADD /\ ln_cbs s = [CbReqSent].
Proof. vm_compute. done. Qed.

(** No answer within the receive window. *)
Definition silence_ops : list lpn_op := [sent_cb; OpLpnTimer; OpLpnTimer; OpLpnTimer].

(** A group that is added again while its removal is in flight: when the
    answer is lost there is nothing to repeat, and the node, which still counts
    on a friendship, never does anything again. *)
Definition stall_ops : list lpn_op :=
  friendship_ops [0xc000] ++ [sent_cb; OpLpnSubCfm [0]; OpLpnGroupDel [0xc000]; OpLpnGroupAdd 0xc000] ++ silence_ops.
Theorem removal_stalls :
  let s := lpn_end sample_lpn_env stall_ops in
  lp_state (ln_lpn s) = LPN_ESTABLISHED /\ lp_established (ln_lpn s) = true /\ ~ live s.
Proof. vm_compute. split; [done|]. split; [done|]. intros [?|[?|?]]; congruence. Qed.

(** A group may be taken for known to the Friend that no confirmed request
    named: the repeated request is put together anew, but the bits of the first
    one stay set. *)
Definition lost_group_ops : list lpn_op :=
  [OpLpnInit; OpLpnGroupAdd 0xc0ff; OpLpnGroupAdd 0xc001; OpLpnGroupAdd 0xc002; OpLpnGroupAdd 0xc003;
   OpLpnGroupAdd 0xc004; OpLpnGroupAdd 0xc005; OpLpnGroupDel [0xc0ff];
   OpLpnSet true; sent_cb; OpLpnOffer from_friend offer_msg; sent_cb; OpLpnUpdate from_friend (update_msg 0);
   OpLpnGroupAdd 0xc00b] ++ silence_ops ++ [sent_cb; OpLpnSubCfm [1]].
Theorem unsent_group_confirmed :
  match lpn_result sample_lpn_env lost_group_ops with
  | Some (_, s, e) =>
      sub_requests e =
        [(SUB_ADD, 0 :: concat (map sys_put_be16 [0xc001; 0xc002; 0xc003; 0xc004; 0xc005]));
         (SUB_ADD, 1 :: concat (map sys_put_be16 [0xc00b; 0xc001; 0xc002; 0xc003; 0xc004]))] /\
      lp_groups (ln_lpn s) !! 5%nat = Some 0xc005 /\ Z.testbit (lp_added (ln_lpn s)) 5 = true
  | None => False
  end.
Proof. vm_compute. done. Qed.

(** A refused transmission stops the search. *)
Theorem refused_request_stops :
  let s := lpn_end full_lpn_env [OpLpnInit; OpLpnSet true] in
  lp_state (ln_lpn s) = LPN_ENABLED /\ ~ live s.
Proof. vm_compute. split; [done|]. intros [?|[?|?]]; congruence. Qed.

(** The callback of a Friend Request that comes after the feature was switched
    off starts the search again. *)
Theorem disabled_node_searches :
  lp_state (ln_lpn (lpn_end sample_lpn_env [OpLpnInit; OpLpnSet true; OpLpnSet false])) = LPN_DISABLED /\
  let s := lpn_end sample_lpn_env [OpLpnInit; OpLpnSet true; OpLpnSet false; sent_cb] in
  lp_state (ln_lpn s) = LPN_WAIT_OFFER /\ ln_timer s <> None.
Proof. vm_compute. done. Qed.

(** The address of the previous Friend is sent in the order of the processor. *)
Theorem prev_addr_order (cfg := default_lpn_config) l :
  take 2 (drop 5 (friend_req_pdu (env := sample_lpn_env) (l <| lp_old_friend := 0x1234 |>))) = [0x34; 0x12].
Proof. done. Qed.

(** The first poll of a friendship is on its way. *)
Definition asking_node : lpn_node :=
  Eval vm_compute in lpn_end sample_lpn_env [OpLpnInit; OpLpnSet true; sent_cb; OpLpnOffer from_friend offer_msg].

Lemma lpn_progress_witness :
  live asking_node /\ exists s' e, lpn_step (cfg := proxy_friend_config) (lcfg := default_lpn_config)
    (env := sample_lpn_env) sent_cb asking_node = Some (tt, s', e).
Proof.
  assert (Hs : forall tx op d m, exists m', l_ctl_send (LpnEnv := sample_lpn_env) tx op d m = (0, m') /\
    length (subs m') = length (subs m)) by (intros tx op d m; by exists m).
  destruct (lpn_progress (cfg := proxy_friend_config) (lcfg := default_lpn_config) (env := sample_lpn_env)
    1 Hs (le_n 1) eq_refl asking_node) as [Hl Hd].
  - eapply (reach_step _ _ (OpLpnOffer from_friend offer_msg));
      [eapply (reach_step _ _ sent_cb); [eapply (reach_step _ _ (OpLpnSet true));
         [eapply (reach_init _ (lpn_start (lcfg := default_lpn_config)));
            [|vm_compute; reflexivity]|exact I|vm_compute; reflexivity]|reflexivity|vm_compute; reflexivity]
      | |vm_compute; reflexivity].
    + split; [reflexivity|]. split; [reflexivity|]. split; [reflexivity|]. left. reflexivity.
    + split; [constructor|]. vm_compute. lia.
  - split; [exact Hl|]. apply Hd. reflexivity.
Defined.
