(* ===== verification/LpnLoss.v ===== *)
(** * The Low Power node and a silent Friend

    How often and how long the node asks a Friend that does not answer, and how
    it gives the friendship up. *)

From S2P Require Import Prelude NetBuf Cmac Ccm MeshCrypto NetState NetIv TransState Beacon Lpn LpnOk.

(** ** Runs with their time

    The time of a run is what the timers that ran out had been set to. *)

Definition op_time (op : lpn_op) (s : lpn_node) : Z :=
  match op, ln_timer s with
  | OpLpnTimer, Some d => d
  | _, _ => 0
  end.

Fixpoint lpn_timed {cfg : MeshConfig} {lcfg : LpnConfig} {env : LpnEnv} (ops : list lpn_op)
    : stm lpn_node lpn_event Z :=
  match ops with
  | [] => mret 0
  | op :: ops => s <- stm_get ;; lpn_step op ;; t <- lpn_timed ops ;; mret (op_time op s + t)
  end.

(** The control messages that were sent. *)
Definition ctl_msgs (e : list lpn_event) : list (Z * bytes) :=
  omap (fun ev => match ev with LCtlSend _ op d => Some (op, d) | _ => None end) e.

Lemma ctl_msgs_app e1 e2 : ctl_msgs (e1 ++ e2) = ctl_msgs e1 ++ ctl_msgs e2.
Proof. apply omap_app. Qed.

Section loss.
Context {cfg : MeshConfig} {lcfg : LpnConfig} {env : LpnEnv}.
Hypothesis sends : forall tx op d m, exists m', l_ctl_send tx op d m = (0, m') /\ length (subs m') = length (subs m).
Implicit Types (m : mesh_net) (l : lpn) (t : option Z) (c : list lpn_cb).

(** ** Rules with events *)

Lemma wpl_get m l t c Q : Q l (mk_lpn_node m l t c) [] -> stm_wp get_lpn Q (mk_lpn_node m l t c).
Proof. done. Qed.
Lemma wpl_mod f m l t c Q : Q tt (mk_lpn_node m (f l) t c) [] -> stm_wp (mod_lpn f) Q (mk_lpn_node m l t c).
Proof. done. Qed.
Lemma wpl_submit d m l t c Q :
  Q tt (mk_lpn_node m l (Some d) c) [] -> stm_wp (timer_submit d) Q (mk_lpn_node m l t c).
Proof. done. Qed.
Lemma wpl_cancel m l t c Q : Q tt (mk_lpn_node m l None c) [] -> stm_wp timer_cancel Q (mk_lpn_node m l t c).
Proof. done. Qed.
Lemma wpl_net f m l t c Q :
  Q tt (mk_lpn_node (f m) l t c) [] ->
  stm_wp (Ev := lpn_event) (stm_modify (fun s => s <| ln_net := f (ln_net s) |>)) Q (mk_lpn_node m l t c).
Proof. done. Qed.
Lemma wpl_sub0 m l t c Q :
  (0 < length (subs m))%nat -> (forall sub, Q sub (mk_lpn_node m l t c) []) -> stm_wp sub0 Q (mk_lpn_node m l t c).
Proof.
  intros H HQ. apply wp_bind, wp_get. destruct (lookup_lt_is_Some_2 _ _ H) as [sub E]. cbn [ln_net].
  eapply wp_of_option; [exact E|]. apply HQ.
Qed.
Lemma wpl_send tx op d cb m l t c Q :
  (forall m', length (subs m') = length (subs m) -> Q 0 (mk_lpn_node m' l t (c ++ [cb])) [LCtlSend tx op d]) ->
  stm_wp (ctl_send tx op d cb) Q (mk_lpn_node m l t c).
Proof.
  intros H. apply wp_bind, wp_get. destruct (sends tx op d m) as (m' & E & Hlen). cbn [ln_net]. rewrite E.
  by apply (H m').
Qed.
End loss.

Ltac lpnw_step :=
  lazymatch goal with
  | |- stm_wp (stm_bind _ _) _ _ => apply wp_bind
  | |- stm_wp (mret _) _ _ => apply wp_ret
  | |- stm_wp stm_get _ _ => apply wp_get
  | |- stm_wp (stm_emit _) _ _ => apply wp_emit
  | |- stm_wp get_lpn _ _ => apply wpl_get
  | |- stm_wp (mod_lpn _) _ _ => apply wpl_mod
  | |- stm_wp (lpn_set_state _) _ _ => apply wpl_mod
  | |- stm_wp (timer_submit _) _ _ => apply wpl_submit
  | |- stm_wp timer_cancel _ _ => apply wpl_cancel
  | |- stm_wp (ctl_send _ _ _ _) _ _ => apply wpl_send; [assumption|intros ? ?]
  | |- stm_wp sub0 _ _ => apply wpl_sub0; [lia|intros ?]
  end.
Ltac lpnw_steps := repeat (lpnw_step; cbv beta).

(** ** Asking in vain *)

Section silence.
Context {cfg : MeshConfig} {lcfg : LpnConfig} {env : LpnEnv}.
Hypothesis sends : forall tx op d m, exists m', l_ctl_send tx op d m = (0, m') /\ length (subs m') = length (subs m).
Context (n : nat) (D W : Z) (b : bool) (F C : Z).
Hypothesis subnets : (0 < n)%nat.

(** In the friendship with [F] and in state [st], after [k] requests without an
    answer. *)
Record phase (st : lpn_st) (k : Z) (t : option Z) (c : list lpn_cb) (s : lpn_node) : Prop := {
  ph_subs : length (subs (ln_net s)) = n;
  ph_state : lp_state (ln_lpn s) = st;
  ph_est : lp_established (ln_lpn s) = true;
  ph_frnd : lp_frnd (ln_lpn s) = F;
  ph_counter : lp_counter (ln_lpn s) = C;
  ph_req : lp_sent_req (ln_lpn s) = 0 \/ lp_sent_req (ln_lpn s) = TRANS_CTL_OP_FRIEND_POLL;
  ph_att : lp_req_attempts (ln_lpn s) = k;
  ph_dur : lp_adv_duration (ln_lpn s) = D;
  ph_win : lp_recv_win (ln_lpn s) = W;
  ph_fsn : lp_fsn (ln_lpn s) = b;
  ph_succ : lp_clear_success (ln_lpn s) = false;
  ph_timer : ln_timer s = t;
  ph_cbs : ln_cbs s = c
}.

(** The next request is due in [d]. *)
Definition waiting (k d : Z) : lpn_node -> Prop := phase LPN_ESTABLISHED k (Some d) [].

Definition retry_delay (k : Z) : Z := Z.min ((k + 1) * POLL_RETRY_TIMEOUT) POLL_RETRY_TIMEOUT_MAX.
Definition poll_msg : Z * bytes := (TRANS_CTL_OP_FRIEND_POLL, [Z.b2z b]).
Definition attempts : Z :=
  if LPN_POLL_TIMEOUT * 100 - (REQ_RETRY_TIMES_MAX * (LPN_RECV_DELAY + D + W) + 36 * POLL_RETRY_TIMEOUT +
       (REQ_RETRY_TIMES_MAX - 8) * POLL_RETRY_TIMEOUT_MAX) <? K_SECONDS 3 then 2 else REQ_RETRY_TIMES_MAX.

Lemma attempts_eq s st k t c : phase st k t c s -> REQ_ATTEMPTS (ln_lpn s) = attempts.
Proof.
  intros [_ _ _ _ _ _ _ H7 H8 _ _ _ _]. unfold REQ_ATTEMPTS, POLL_TIMEOUT_MAX, REQ_RETRY_DURATION.
  by rewrite H7, H8.
Qed.

(** The poll is due. *)
Lemma lpn_poll_wp k d s :
  waiting k d s -> k < attempts ->
  stm_wp (lpn_step OpLpnTimer) (fun _ s' e => ctl_msgs e = [poll_msg] /\ phase LPN_ESTABLISHED k None [CbReqSent] s') s.
Proof.
  intros Hw Hk. pose proof (attempts_eq _ _ _ _ _ Hw) as Ha. destruct Hw as [H1 H2 H3 H4 Hct H5 H6 H7 H8 H9 H10 H11 H12].
  destruct s as [m l t c]. cbn in *. subst t c.
  cbn [lpn_step]. lpnw_steps. cbn [ln_timer]. lpnw_steps. unfold lpn_timeout. lpnw_steps. rewrite H2.
  rewrite Ha, H6. assert ((k <? attempts) = true) as -> by lia. lpnw_steps.
  assert ((lp_sent_req l =? 0) || (lp_sent_req l =? TRANS_CTL_OP_FRIEND_POLL) = true) as ->
    by (destruct H5 as [-> | ->]; done).
  lpnw_steps. unfold send_friend_poll. lpnw_steps. cbn [lp_sent_req update_field Z.eqb negb]. lpnw_steps.
  cbn [Z.eqb]. lpnw_steps. split; [cbn; by rewrite H9|]. split; cbn; try done; [lia|by right].
Qed.

(** The bearer has begun to send. *)
Lemma begun_wp k s :
  phase LPN_ESTABLISHED k None [CbReqSent] s -> 0 <= k < 255 ->
  stm_wp (lpn_step (OpLpnCb D 0)) (fun _ s' e => ctl_msgs e = [] /\
    phase LPN_DELAY (k + 1) (Some (LPN_RECV_DELAY - SCAN_LATENCY)) [] s') s.
Proof.
  intros [H1 H2 H3 H4 Hct H5 H6 H7 H8 H9 H10 H11 H12] Hk. destruct s as [m l t c]. cbn in *. subst t c.
  cbn [lpn_step]. lpnw_steps. cbn [ln_cbs]. lpnw_steps. apply wp_modify.
  change ((mk_lpn_node m l None [CbReqSent]) <| ln_cbs := [] |>) with (mk_lpn_node m l None []).
  cbn [lpn_callback]. unfold req_sent. cbn [Z.eqb negb]. lpnw_steps.
  cbn [lp_established update_field]. rewrite H3. cbn [orb]. lpnw_steps.
  assert (Hu : u8 (lp_req_attempts l + 1) = k + 1) by (rewrite H6; word_lia).
  split; [done|]. split; cbn; rewrite ?Hu; done.
Qed.

(** The receive delay is over, and the receive window. *)
Lemma delay_wp k d s :
  phase LPN_DELAY k (Some d) [] s ->
  stm_wp (lpn_step OpLpnTimer) (fun _ s' e => ctl_msgs e = [] /\
    phase LPN_WAIT_UPDATE k (Some (D + SCAN_LATENCY + W)) [] s') s.
Proof.
  intros [H1 H2 H3 H4 Hct H5 H6 H7 H8 H9 H10 H11 H12]. destruct s as [m l t c]. cbn in *. subst t c.
  cbn [lpn_step]. lpnw_steps. cbn [ln_timer]. lpnw_steps. unfold lpn_timeout. lpnw_steps. rewrite H2. lpnw_steps.
  split; [done|]. split; cbn; try done. by rewrite H7, H8.
Qed.
Lemma window_wp k d s :
  phase LPN_WAIT_UPDATE k (Some d) [] s ->
  stm_wp (lpn_step OpLpnTimer) (fun _ s' e => ctl_msgs e = [] /\ waiting k (retry_delay k) s') s.
Proof.
  intros [H1 H2 H3 H4 Hct H5 H6 H7 H8 H9 H10 H11 H12]. destruct s as [m l t c]. cbn in *. subst t c.
  cbn [lpn_step]. lpnw_steps. cbn [ln_timer]. lpnw_steps. unfold lpn_timeout. lpnw_steps. rewrite H2.
  unfold update_timeout. lpnw_steps. rewrite H3. lpnw_steps.
  split; [done|]. split; cbn; try done. by rewrite H6.
Qed.

(** *** Runs *)

(** [timed ops t ms s Q]: the run takes [t], sends [ms] and leaves a state with [Q]. *)
Definition timed (ops : list lpn_op) (t : Z) (ms : list (Z * bytes)) (Q : lpn_node -> Prop) (s : lpn_node) : Prop :=
  exists s' e, lpn_timed ops s = Some (t, s', e) /\ ctl_msgs e = ms /\ Q s'.

Lemma timed_nil (Q : lpn_node -> Prop) s : Q s -> timed [] 0 [] Q s.
Proof. intros H. by exists s, []. Qed.

Lemma timed_cons op ops t ms1 ms2 (Q : lpn_node -> Prop) s :
  stm_wp (lpn_step op) (fun _ s' e => ctl_msgs e = ms1 /\ timed ops t ms2 Q s') s ->
  timed (op :: ops) (op_time op s + t) (ms1 ++ ms2) Q s.
Proof.
  intros H. destruct (wp_inv _ _ _ H) as ([] & s1 & e1 & E & Hm & s2 & e2 & E2 & Hm2 & HQ).
  exists s2, (e1 ++ e2). cbn [lpn_timed]. rewrite (stm_bind_pure _ _ _ _ _ eq_refl).
  unfold stm_bind. rewrite E, E2. cbn. rewrite !app_nil_r, ctl_msgs_app. by rewrite Hm, Hm2.
Qed.

Lemma timed_app ops1 ops2 t1 t2 ms1 ms2 (R Q : lpn_node -> Prop) s :
  timed ops1 t1 ms1 R s -> (forall s', R s' -> timed ops2 t2 ms2 Q s') ->
  timed (ops1 ++ ops2) (t1 + t2) (ms1 ++ ms2) Q s.
Proof.
  intros (s1 & e1 & E1 & <- & HR) H2. destruct (H2 s1 HR) as (s2 & e2 & E2 & <- & HQ).
  exists s2, (e1 ++ e2). rewrite ctl_msgs_app. split; [|done]. clear H2 HR HQ.
  revert s t1 e1 E1. induction ops1 as [|op ops1 IH]; intros s t1 e1.
  - cbn. intros [= <- <- <-]. by rewrite E2.
  - cbn [lpn_timed app]. rewrite !(stm_bind_pure _ _ _ _ _ eq_refl). unfold stm_bind.
    destruct (lpn_step op s) as [[[[] s3] e3]|]; [|done].
    destruct (lpn_timed ops1 s3) as [[[t3 s4] e4]|] eqn:E; [|done]. cbn. intros [= <- <- <-].
    rewrite (IH _ _ _ E). cbn. by rewrite !app_nil_r, Z.add_assoc, app_assoc.
Qed.

(** The bearer takes [D] to send; the timers of the receive delay and of the
    receive window run out. *)
Definition silence : list lpn_op := [OpLpnCb D 0; OpLpnTimer; OpLpnTimer].
Definition in_vain : list lpn_op := OpLpnTimer :: silence.

Lemma op_time_timer st k d c s : phase st k (Some d) c s -> op_time OpLpnTimer s = d.
Proof. intros H. unfold op_time. by rewrite (ph_timer _ _ _ _ _ H). Qed.

Lemma silence_timed k s :
  phase LPN_ESTABLISHED k None [CbReqSent] s -> 0 <= k < 255 ->
  timed silence (LPN_RECV_DELAY + D + W) [] (waiting (k + 1) (retry_delay (k + 1))) s.
Proof.
  intros Hp Hk.
  replace (LPN_RECV_DELAY + D + W) with (op_time (OpLpnCb D 0) s + ((LPN_RECV_DELAY - SCAN_LATENCY) + ((D + SCAN_LATENCY + W) + 0)))
    by (cbn; lia).
  apply (timed_cons _ _ _ [] []). eapply wp_mono; [by apply (begun_wp k)|]. intros _ s1 e1 [He1 H1]. split; [done|].
  rewrite <- (op_time_timer _ _ _ _ _ H1) at 1.
  apply (timed_cons _ _ _ [] []). eapply wp_mono; [by eapply delay_wp|]. intros _ s2 e2 [He2 H2]. split; [done|].
  rewrite <- (op_time_timer _ _ _ _ _ H2) at 1.
  apply (timed_cons _ _ _ [] []). eapply wp_mono; [by eapply window_wp|]. intros _ s3 e3 [He3 H3]. split; [done|].
  by apply timed_nil.
Qed.

Lemma due_timed k d s :
  waiting k d s -> k < attempts ->
  timed [OpLpnTimer] d [poll_msg] (phase LPN_ESTABLISHED k None [CbReqSent]) s.
Proof.
  intros Hw Hk. rewrite <- (Z.add_0_r d), <- (op_time_timer _ _ _ _ _ Hw).
  apply (timed_cons _ _ _ [poll_msg] []). eapply wp_mono; [by apply (lpn_poll_wp k d)|].
  intros _ s1 e1 [He1 H1]. split; [done|]. by apply timed_nil.
Qed.

(** What [j] requests in vain take, the first of them due in [d]. *)
Fixpoint vain_time (k d : Z) (j : nat) : Z :=
  match j with
  | O => 0
  | S j => d + (LPN_RECV_DELAY + D + W) + vain_time (k + 1) (retry_delay (k + 1)) j
  end.
Definition due_in (k d : Z) (j : nat) : Z := match j with O => d | S _ => retry_delay (k + Z.of_nat j) end.

Lemma vain_timed j k d s :
  waiting k d s -> 0 <= k -> k + Z.of_nat j <= attempts -> attempts <= 12 ->
  timed (concat (repeat in_vain j)) (vain_time k d j) (repeat poll_msg j)
    (waiting (k + Z.of_nat j) (due_in k d j)) s.
Proof.
  revert k d s. induction j as [|j IH]; intros k d s Hw Hk Hj Ha.
  { apply timed_nil. by rewrite Z.add_0_r. }
  cbn [repeat concat vain_time]. unfold in_vain at 1. change (OpLpnTimer :: silence) with ([OpLpnTimer] ++ silence).
  eapply (timed_app _ _ _ _ [poll_msg] _ (waiting (k + 1) (retry_delay (k + 1)))).
  - apply (timed_app _ _ _ _ [poll_msg] [] (phase LPN_ESTABLISHED k None [CbReqSent])); [apply due_timed; [done|lia]|].
    intros s1 H1. apply silence_timed; [done|lia].
  - intros s1 H1. specialize (IH (k + 1) _ s1 H1 ltac:(lia) ltac:(lia) Ha).
    replace (k + Z.of_nat (S j)) with (k + 1 + Z.of_nat j) by lia.
    assert (due_in k d (S j) = due_in (k + 1) (retry_delay (k + 1)) j) as ->; [|done].
    unfold due_in. destruct j; [f_equal; lia|]. f_equal. lia.
Qed.

(** ** Giving up *)

(** The friendship is being cleared; [j] requests have been sent. *)
Record clearing (j : Z) (st : option lpn_st) (t : option Z) (c : list lpn_cb) (s : lpn_node) : Prop := {
  cl_subs : length (subs (ln_net s)) = n;
  cl_state : forall x, st = Some x -> lp_state (ln_lpn s) = x;
  cl_est : lp_established (ln_lpn s) = true;
  cl_frnd : lp_frnd (ln_lpn s) = F;
  cl_counter : lp_counter (ln_lpn s) = C;
  cl_att : lp_req_attempts (ln_lpn s) = j;
  cl_succ : lp_clear_success (ln_lpn s) = false;
  cl_disable : lp_disable (ln_lpn s) = false;
  cl_timer : ln_timer s = t;
  cl_cbs : ln_cbs s = c
}.

Definition clear_msg : Z * bytes :=
  (TRANS_CTL_OP_FRIEND_CLEAR, sys_put_be16 l_primary ++ sys_put_be16 C).

(** The friendship is over and the next Friend is looked for. *)
Record lost (s : lpn_node) : Prop := {
  ls_state : lp_state (ln_lpn s) = LPN_ENABLED;
  ls_est : lp_established (ln_lpn s) = false;
  ls_frnd : lp_frnd (ln_lpn s) = BT_MESH_ADDR_UNASSIGNED;
  ls_old : lp_old_friend (ln_lpn s) = F;
  ls_timer : ln_timer s = Some FRIEND_REQ_RETRY_TIMEOUT
}.

Lemma clear_again m l t c :
  length (subs m) = n -> lp_established l = true -> lp_frnd l = F -> lp_counter l = C ->
  lp_clear_success l = false -> lp_req_attempts l < CLEAR_ATTEMPTS ->
  stm_wp (clear_friendship false false) (fun _ s' e => ctl_msgs e = [clear_msg] /\
    clearing (lp_req_attempts l) None t (c ++ [CbClearSent]) s') (mk_lpn_node m l t c).
Proof.
  intros Hm He Hf Hc Hs Ha. unfold clear_friendship. lpnw_steps. rewrite He, Hs.
  apply Z.ltb_lt in Ha. rewrite Ha. cbn [negb andb]. unfold send_friend_clear. lpnw_steps.
  split; [cbn; by rewrite Hc|]. split; cbn; try done. lia.
Qed.

Lemma clear_last m l t c :
  length (subs m) = n -> lp_frnd l = F -> lp_clear_success l = false -> ~ lp_req_attempts l < CLEAR_ATTEMPTS ->
  stm_wp (clear_friendship false false) (fun _ s' e => ctl_msgs e = [] /\ lost s') (mk_lpn_node m l t c).
Proof.
  intros Hm Hf Hs Ha. unfold clear_friendship. lpnw_steps. apply Z.ltb_nlt in Ha. rewrite Ha, andb_false_r.
  lpnw_steps.
  match goal with sub : subnet |- _ => apply (wpl_net (fun m => m <| friend_creds :=
    snd (friend_cred_del (sub_net_idx sub) (lp_frnd l) (friend_creds m)) |>)) end.
  lpnw_steps. match goal with |- stm_wp (if ?x then _ else _) _ _ => destruct x end; lpnw_steps;
    (split; [done|split; cbn; try done; by rewrite Hs]).
Qed.

Lemma give_up_wp k d s :
  waiting k d s -> attempts <= k ->
  stm_wp (lpn_step OpLpnTimer) (fun _ s' e => ctl_msgs e = [clear_msg] /\
    clearing 0 None None [CbClearSent] s') s.
Proof.
  intros Hw Hk. pose proof (attempts_eq _ _ _ _ _ Hw) as Ha. destruct Hw as [H1 H2 H3 H4 Hct H5 H6 H7 H8 H9 H10 H11 H12].
  destruct s as [m l t c]. cbn in *. subst t c.
  cbn [lpn_step]. lpnw_steps. cbn [ln_timer]. lpnw_steps. unfold lpn_timeout. lpnw_steps. rewrite H2.
  rewrite Ha, H6. assert ((k <? attempts) = false) as -> by lia. lpnw_steps.
  eapply wp_mono; [by apply clear_again|]. cbv beta. intros _ s' e [He Hs]. split; [|done].
  cbn [app]. by rewrite ?app_nil_r, He.
Qed.

Lemma clear_sent_wp j t s :
  clearing j None t [CbClearSent] s -> 0 <= j < 255 ->
  stm_wp (lpn_step (OpLpnCb D 0)) (fun _ s' e => ctl_msgs e = [] /\
    clearing (j + 1) (Some LPN_CLEAR) (Some FRIEND_REQ_TIMEOUT) [] s') s.
Proof.
  intros [H1 H2 H3 H4 H5 H6 H7 H8 H9 H10] Hj. destruct s as [m l t' c]. cbn in *. subst t' c.
  cbn [lpn_step]. lpnw_steps. cbn [ln_cbs]. lpnw_steps. apply wp_modify.
  change ((mk_lpn_node m l t [CbClearSent]) <| ln_cbs := [] |>) with (mk_lpn_node m l t []).
  cbn [lpn_callback]. unfold friend_clear_sent. lpnw_steps. cbn [Z.eqb negb]. lpnw_steps.
  assert (Hu : u8 (lp_req_attempts l + 1) = j + 1) by (rewrite H6; word_lia).
  split; [done|]. split; cbn; rewrite ?Hu; try done. by intros ? [= <-].
Qed.

Lemma clear_timer_wp j d s :
  clearing j (Some LPN_CLEAR) (Some d) [] s ->
  stm_wp (lpn_step OpLpnTimer) (fun _ s' e =>
    if j <? CLEAR_ATTEMPTS then ctl_msgs e = [clear_msg] /\ clearing j None None [CbClearSent] s'
    else ctl_msgs e = [] /\ lost s') s.
Proof.
  intros [H1 H2 H3 H4 H5 H6 H7 H8 H9 H10]. destruct s as [m l t' c]. cbn in *. subst t' c.
  cbn [lpn_step]. lpnw_steps. cbn [ln_timer]. lpnw_steps. unfold lpn_timeout. lpnw_steps.
  rewrite (H2 _ eq_refl), H8. destruct (Z.ltb_spec j CLEAR_ATTEMPTS) as [Hlt|Hge].
  - eapply wp_mono; [apply clear_again; try done; lia|]. intros _ s' e [He Hs]. split; [done|].
    by rewrite <- H6.
  - eapply wp_mono; [apply clear_last; try done; lia|]. done.
Qed.

Definition clear_in_vain : list lpn_op := [OpLpnCb D 0; OpLpnTimer].

Lemma clearing_timed i j t s :
  clearing j None t [CbClearSent] s -> 0 <= j -> j + Z.of_nat (S i) = CLEAR_ATTEMPTS ->
  exists T, timed (concat (repeat clear_in_vain (S i))) T (repeat clear_msg i) lost s.
Proof.
  revert j t s. induction i as [|i IH]; intros j t s Hc Hj Hi; unfold CLEAR_ATTEMPTS in Hi;
    pose proof (clear_sent_wp j t s Hc ltac:(lia)) as Hcb;
    destruct (wp_inv _ _ _ Hcb) as ([] & s1 & e1 & E1 & Hm1 & H1); pose proof (clear_timer_wp (j + 1) _ s1 H1) as Ht.
  - assert (Hb : (j + 1 <? CLEAR_ATTEMPTS) = false) by (unfold CLEAR_ATTEMPTS; lia). rewrite Hb in Ht.
    eexists. eapply (timed_cons _ _ _ [] []). unfold stm_wp. rewrite E1. split; [done|].
    eapply (timed_cons _ _ _ [] []). eapply wp_mono; [exact Ht|]. intros [] s2 e2 [Hm2 H2]. split; [done|].
    by apply timed_nil.
  - assert (Hb : (j + 1 <? CLEAR_ATTEMPTS) = true) by (unfold CLEAR_ATTEMPTS; lia). rewrite Hb in Ht.
    destruct (wp_inv _ _ _ Ht) as ([] & s2 & e2 & E2 & Hm2 & H2).
    destruct (IH (j + 1) None s2 H2 ltac:(lia) ltac:(unfold CLEAR_ATTEMPTS; lia)) as [T HT].
    eexists. cbn [repeat concat]. unfold clear_in_vain at 1. cbn [app].
    eapply (timed_cons _ _ _ [] (clear_msg :: repeat clear_msg i)). unfold stm_wp. rewrite E1. split; [done|].
    eapply (timed_cons _ _ _ [clear_msg] (repeat clear_msg i)). unfold stm_wp. rewrite E2. split; [done|].
    exact HT.
Qed.

(** ** How long it takes *)

Definition answer_time : Z := LPN_RECV_DELAY + D + W.

(** The last of [N] polls. *)
Lemma polls_timed d s j :
  waiting 0 d s -> attempts = Z.of_nat (S j) -> attempts <= 12 ->
  timed (concat (repeat in_vain j) ++ [OpLpnTimer]) (vain_time 0 d j + due_in 0 d j) (repeat poll_msg j ++ [poll_msg])
    (phase LPN_ESTABLISHED (Z.of_nat j) None [CbReqSent]) s.
Proof.
  intros Hw Hj Ha. apply (timed_app _ _ _ _ _ _ (waiting (0 + Z.of_nat j) (due_in 0 d j))).
  - apply vain_timed; [done|lia|lia|done].
  - intros s1 H1. apply due_timed; [done|lia].
Qed.

Lemma attempts_cases : attempts = 2 \/ attempts = 12.
Proof. unfold attempts. case_if; [by left|by right]. Qed.

(** The retries fit what [REQ_RETRY_DURATION] sets aside for them. *)
Lemma vain_time_bound j d :
  attempts = Z.of_nat (S j) -> 0 <= LPN_RECV_DELAY -> 0 <= D -> 0 <= W ->
  vain_time 0 d j + due_in 0 d j + answer_time <=
  d + REQ_RETRY_TIMES_MAX * answer_time + 36 * POLL_RETRY_TIMEOUT + (REQ_RETRY_TIMES_MAX - 8) * POLL_RETRY_TIMEOUT_MAX.
Proof.
  intros Hj H1 H2 H3. destruct attempts_cases as [E|E]; rewrite E in Hj.
  - assert (j = 1)%nat as -> by lia.
    cbn [vain_time due_in]. unfold answer_time, retry_delay, REQ_RETRY_TIMES_MAX, POLL_RETRY_TIMEOUT, POLL_RETRY_TIMEOUT_MAX. lia.
  - assert (j = 11)%nat as -> by lia.
    cbn [vain_time due_in]. unfold answer_time, retry_delay, REQ_RETRY_TIMES_MAX, POLL_RETRY_TIMEOUT, POLL_RETRY_TIMEOUT_MAX. lia.
Qed.

(** C12: a Friend that falls silent is asked again within the time it keeps the
    friendship, and then given up. The Low Power node polls with the same
    sequence bit [REQ_ATTEMPTS] times; when the first poll was not put off
    beyond [POLL_TIMEOUT_MAX], the answer to the last one is due within the poll
    timeout that was agreed. Then it sends Friend Clear 16 times and, with the
    old Friend remembered, looks for another one. *)
Theorem friend_loss d s :
  waiting 0 d s -> d <= POLL_TIMEOUT_MAX (ln_lpn s) -> 0 <= LPN_RECV_DELAY -> 0 <= D -> 0 <= W ->
  let N := Z.to_nat (REQ_ATTEMPTS (ln_lpn s)) in
  (exists T, timed (concat (repeat in_vain (N - 1)) ++ [OpLpnTimer]) T (repeat poll_msg (N - 1) ++ [poll_msg])
     (phase LPN_ESTABLISHED (Z.of_nat (N - 1)) None [CbReqSent]) s /\ T + answer_time <= LPN_POLL_TIMEOUT * 100) /\
  exists T, timed (concat (repeat in_vain N) ++ OpLpnTimer :: concat (repeat clear_in_vain 16)) T
    (repeat poll_msg N ++ clear_msg :: repeat clear_msg 15) lost s.
Proof.
  intros Hw Hd H1 H2 H3. cbv zeta. rewrite (attempts_eq _ _ _ _ _ Hw).
  assert (exists j, attempts = Z.of_nat (S j)) as [j Hj].
  { destruct attempts_cases as [-> | ->]; [by exists 1%nat|by exists 11%nat]. }
  assert (Ha : attempts <= 12) by (destruct attempts_cases; lia). rewrite Hj, Nat2Z.id.
  replace (S j - 1)%nat with j by lia. split.
  - eexists. split; [by apply polls_timed|].
    pose proof (vain_time_bound j d Hj H1 H2 H3) as Hb. unfold answer_time in *.
    unfold POLL_TIMEOUT_MAX, REQ_RETRY_DURATION in Hd. rewrite (ph_dur _ _ _ _ _ Hw), (ph_win _ _ _ _ _ Hw) in Hd. lia.
  - assert (Hv := vain_timed (S j) 0 d s Hw ltac:(lia) ltac:(lia) Ha).
    set (R := waiting (0 + Z.of_nat (S j)) (due_in 0 d (S j))) in Hv.
    destruct Hv as (s1 & e1 & E1 & Hm1 & HR).
    destruct (wp_inv _ _ _ (give_up_wp _ _ s1 HR ltac:(lia))) as ([] & s2 & e2 & E2 & Hm2 & H4).
    destruct (clearing_timed 15 0 None s2 H4 ltac:(lia) eq_refl) as [T HT].
    eexists. eapply (timed_app _ _ _ _ _ _ (fun s' => s' = s1)).
    + exists s1, e1. done.
    + intros ? ->. eapply (timed_cons _ _ _ [clear_msg] (repeat clear_msg 15)).
      unfold stm_wp. rewrite E2. split; [exact Hm2|exact HT].
Qed.
End silence.

(** *** A friendship that is lost *)

(** The state after the first Update: the next poll is due in 20.56 s. *)
Definition quiet_node : lpn_node := Eval vm_compute in lpn_end sample_lpn_env (friendship_ops []).
Lemma quiet_node_is : quiet_node = lpn_end sample_lpn_env (friendship_ops []).
Proof. vm_compute. reflexivity. Qed.

Notation timed_sample ops T ms Q :=
  (timed (cfg := proxy_friend_config) (lcfg := default_lpn_config) (env := sample_lpn_env) ops T ms Q quiet_node).

(** The bearer takes 20 ms, the receive window is 100 ms. *)
Lemma friend_loss_witness :
  (exists T Q, timed_sample (concat (repeat (in_vain 20) 11) ++ [OpLpnTimer]) T
     (repeat (poll_msg true) 11 ++ [poll_msg true]) Q /\ T + answer_time (lcfg := default_lpn_config) 20 100 <= 30000) /\
  exists T, timed_sample (concat (repeat (in_vain 20) 12) ++ OpLpnTimer :: concat (repeat (clear_in_vain 20) 16)) T
    (repeat (poll_msg true) 12 ++ repeat (clear_msg (env := sample_lpn_env) 1) 16)
    (lost (lcfg := default_lpn_config) 1).
Proof.
  assert (Hw : waiting 1 20 100 true 1 1 0 20560 quiet_node)
    by (split; try reflexivity; left; reflexivity).
  assert (Hs : forall tx op d m, exists m', l_ctl_send (LpnEnv := sample_lpn_env) tx op d m = (0, m') /\
    length (subs m') = length (subs m)) by (intros tx op d m; by exists m).
  destruct (friend_loss (cfg := proxy_friend_config) (lcfg := default_lpn_config) (env := sample_lpn_env) Hs
    1 20 100 true 1 1 (le_n 1) 20560 quiet_node Hw) as [(T & HT & Hle) (T' & HT')]; [vm_compute; discriminate..|].
  split.
  - eexists T, _. split; [exact HT|exact Hle].
  - exists T'. exact HT'.
Defined.
