(* ===== verification/Proxy.v ===== *)
(** * The GATT proxy (bt_mesh/src/proxy.c)

    Proxy PDUs and their segmentation, the clients and their address filters,
    and the connectable advertising. The model is of the build with
    [CONFIG_BT_MESH_PB_GATT] and [CONFIG_BT_MESH_GATT_PROXY], without
    [CONFIG_BT_MESH_MULTIADV] and [CONFIG_GENIE_OTA]. *)

From S2P Require Import Prelude NetBuf Cmac Ccm Aes MeshCrypto NetState NetIv Net Beacon.

Definition SAR_COMPLETE : Z := 0.
Definition SAR_FIRST : Z := 1.
Definition SAR_CONT : Z := 2.
Definition SAR_LAST : Z := 3.
Definition CFG_FILTER_SET : Z := 0.
Definition CFG_FILTER_ADD : Z := 1.
Definition CFG_FILTER_REMOVE : Z := 2.
Definition CFG_FILTER_STATUS : Z := 3.
Definition BT_MESH_PROXY_NET_PDU : Z := 0.
Definition BT_MESH_PROXY_BEACON : Z := 1.
Definition BT_MESH_PROXY_CONFIG : Z := 2.
Definition BT_MESH_PROXY_PROV : Z := 3.
Definition PDU_TYPE (data : bytes) : Z := Z.land (byte_at data 0) 63.
Definition PDU_SAR (data : bytes) : Z := Z.shiftr (byte_at data 0) 6.
Definition PDU_HDR (sar type : Z) : Z := u8 (Z.lor (Z.shiftl sar 6) (Z.land type 63)).
Definition CLIENT_BUF_SIZE : nat := 68.
Definition GATT_ERR_LEN : Z := - 0x0d.
Definition GATT_CCC_NOTIFY : Z := 1.
Definition K_FOREVER : Z := - 1.
Definition BT_MESH_NODE_IDENTITY_STOPPED : Z := 0.
Definition NODE_ID_TIMEOUT : Z := K_SECONDS 60.

Inductive filter_kind := FNone | FWhite | FBlack | FProv.
#[export] Instance filter_kind_eq : EqDecision filter_kind.
Proof. solve_decision. Defined.

(** [struct bt_mesh_proxy_client]; the buffer is what it holds, of
    [CLIENT_BUF_SIZE] bytes. *)
Record client := mk_client {
  cl_conn : option nat;
  cl_filter : list Z;
  cl_type : filter_kind;
  cl_msg : Z;
  cl_buf : bytes
}.
#[export] Instance client_settable : Settable client.
Proof. settable (fun c => mk_client (cl_conn c) (cl_filter c) (cl_type c) (cl_msg c) (cl_buf c)). Defined.

Inductive gatt_svc := MESH_GATT_NONE | MESH_GATT_PROV | MESH_GATT_PROXY.
#[export] Instance gatt_svc_eq : EqDecision gatt_svc.
Proof. solve_decision. Defined.

Record proxy := mk_proxy {
  px_net : mesh_net;
  px_clients : list client;
  px_adv_enabled : bool;
  px_svc : gatt_svc;
  px_fast : bool;
  px_prov_ccc : Z;
  px_next : nat;
  px_conns : Z;
  px_svc_data : bytes
}.
#[export] Instance proxy_settable : Settable proxy.
Proof.
  settable (fun p => mk_proxy (px_net p) (px_clients p) (px_adv_enabled p) (px_svc p) (px_fast p) (px_prov_ccc p) (px_next p)
    (px_conns p) (px_svc_data p)).
Defined.

(** What is advertised: the provisioning service, or the proxy service with the
    identity of the node or of a network. *)
Inductive adv_kind := AdvProv (fast : bool) | AdvNodeId (data : bytes) | AdvNetId (data : bytes).

Inductive proxy_event :=
| PNotify (svc : gatt_svc) (conn : nat) (pdu : bytes)
| PNetRecv (client : nat) (pdu : bytes)
| PBeaconRecv (pdu : bytes)
| PProvRecv (conn : nat) (pdu : bytes)
| PProvOpen (conn : nat)
| PProvClose (conn : nat)
| PBeaconWork (client : nat)
| PAdvUpdate
| PAdvStart (kind : adv_kind)
| PAdvStop
| PConnRef (conn : nat)
| PConnUnref (conn : nat)
| PDisconnect (conn : nat)
| PRegister (svc : gatt_svc)
| PUnregister (svc : gatt_svc)
| PNet (ev : net_event).

Abbreviation X := (stm proxy proxy_event).

(** The answers of the Bluetooth host and of the other components. *)
Class ProxyEnv := {
  x_primary : Z;
  (** [bt_mesh_gatt_get_mtu] and [bt_mesh_gatt_notify]. *)
  x_mtu : nat -> Z;
  x_notify : nat -> bytes -> Z;
  x_provisioned : bool;
  x_prov_active : bool;
  x_now_32 : Z;
  x_adv_start : adv_kind -> Z;
  x_adv_stop : Z;
  (** Eight random bytes, or an error. *)
  x_rand : bytes + Z;
  (** The local variable [rx] of [proxy_cfg], which is not initialised. *)
  x_stack_rx : net_rx;
  (** [CONFIG_BT_MAX_CONN], [CONFIG_BT_MESH_PROXY_FILTER_SIZE]. *)
  MAX_CONN : nat;
  FILTER_SIZE : nat;
  (** The boards TG7100B and CH6121EVB check the length of configuration PDUs. *)
  x_checked_board : bool
}.

Definition zero_filter (l : list Z) : list Z := replicate (length l) 0.

(** ** The address filter *)

Definition filter_set (buf : bytes) (c : client) : client :=
  match buf with
  | 0 :: _ => (c <| cl_filter := zero_filter (cl_filter c) |>) <| cl_type := FWhite |>
  | 1 :: _ => (c <| cl_filter := zero_filter (cl_filter c) |>) <| cl_type := FBlack |>
  | _ => c
  end.

Definition filter_add (addr : Z) (c : client) : client :=
  if addr =? BT_MESH_ADDR_UNASSIGNED then c
  else if existsb (Z.eqb addr) (cl_filter c) then c
  else
    match find_index (Z.eqb BT_MESH_ADDR_UNASSIGNED) (cl_filter c) with
    | Some i => c <| cl_filter := <[i := addr]> (cl_filter c) |>
    | None => c
    end.

Definition filter_remove (addr : Z) (c : client) : client :=
  if addr =? BT_MESH_ADDR_UNASSIGNED then c
  else
    match find_index (Z.eqb addr) (cl_filter c) with
    | Some i => c <| cl_filter := <[i := BT_MESH_ADDR_UNASSIGNED]> (cl_filter c) |>
    | None => c
    end.

Definition client_filter_match (c : client) (addr : Z) : bool :=
  match cl_type c with
  | FWhite => existsb (Z.eqb addr) (cl_filter c)
  | FBlack => negb (existsb (Z.eqb addr) (cl_filter c))
  | _ => false
  end.

(** [bt_mesh_proxy_addr_add]. *)
Definition client_addr_add (addr : Z) (c : client) : client :=
  match cl_type c with
  | FWhite => filter_add addr c
  | FBlack => filter_remove addr c
  | _ => c
  end.

(** The loops over the addresses of a configuration message. *)
Fixpoint filter_all (f : Z -> client -> client) (buf : bytes) (c : client) : client :=
  match buf with
  | a :: b :: buf => filter_all f buf (f (sys_get_be16 [a; b]) c)
  | _ => c
  end.

Definition filter_size (c : client) : Z :=
  Z.of_nat (length (List.filter (fun a => negb (a =? BT_MESH_ADDR_UNASSIGNED)) (cl_filter c))).

Definition filter_status (c : client) : bytes :=
  [CFG_FILTER_STATUS; if decide (cl_type c = FWhite) then 0 else 1] ++ sys_put_be16 (filter_size c).

Definition find_client (conn : nat) (p : proxy) : option nat :=
  find_index (fun c => bool_decide (cl_conn c = Some conn)) (px_clients p).

Section proxy.
Context {cfg : MeshConfig} {hal : SecHal} {nenv : NetEnv} {env : ProxyEnv}.

Definition get_client (i : nat) : X client := p <- stm_get ;; stm_of_option (px_clients p !! i).
Definition mod_client (i : nat) (f : client -> client) : X unit :=
  stm_modify (fun p => p <| px_clients := alter f i (px_clients p) |>).

(** ** Sending *)

Definition proxy_send (conn : nat) (data : bytes) : X Z :=
  p <- stm_get ;;
  match px_svc p with
  | MESH_GATT_NONE => mret 0
  | svc => stm_emit [PNotify svc conn data] ;; mret (x_notify conn data)
  end.

(** The loop after the first segment; without end when a segment has no room
    for data. *)
Fixpoint proxy_segments (fuel : nat) (conn : nat) (type : Z) (mtu : nat) (msg : bytes) : X Z :=
  match msg with
  | [] => mret 0
  | _ =>
      match fuel with
      | O => stm_undef
      | S fuel =>
          if decide (length msg + 1 < mtu)%nat then
            proxy_send conn (PDU_HDR SAR_LAST type :: msg) ;; mret 0
          else
            proxy_send conn (take mtu (PDU_HDR SAR_CONT type :: msg)) ;;
            proxy_segments fuel conn type mtu (drop mtu (PDU_HDR SAR_CONT type :: msg))
      end
  end.

Definition proxy_segment_and_send (conn : nat) (type : Z) (msg : bytes) : X Z :=
  let mtu := Z.to_nat (u16 (x_mtu conn - 3)) in
  if decide (length msg < mtu)%nat then proxy_send conn (PDU_HDR SAR_COMPLETE type :: msg)
  else
    proxy_send conn (take mtu (PDU_HDR SAR_FIRST type :: msg)) ;;
    proxy_segments (length msg) conn type mtu (drop mtu (PDU_HDR SAR_FIRST type :: msg)).

Definition bt_mesh_proxy_send (conn : nat) (type : Z) (msg : bytes) : X Z :=
  p <- stm_get ;;
  match find_client conn p with
  | None => mret (- ENOTCONN)
  | Some i =>
      c <- get_client i ;;
      if Bool.eqb (bool_decide (cl_type c = FProv)) (type =? BT_MESH_PROXY_PROV)
      then proxy_segment_and_send conn type msg
      else mret (- EINVAL)
  end.

Fixpoint relay_clients (i : nat) (cs : list client) (pdu : bytes) (dst : Z) : X bool :=
  match cs with
  | [] => mret false
  | c :: cs =>
      match cl_conn c with
      | Some conn =>
          if client_filter_match c dst then
            bt_mesh_proxy_send conn BT_MESH_PROXY_NET_PDU pdu ;;
            relay_clients (S i) cs pdu dst ;; mret true
          else relay_clients (S i) cs pdu dst
      | None => relay_clients (S i) cs pdu dst
      end
  end.
(** [buf] fits the 32 bytes of the copy with one in front of it. *)
Definition bt_mesh_proxy_relay (buf : bytes) (dst : Z) : X bool :=
  p <- stm_get ;;
  if decide (31 < length buf)%nat then stm_undef else relay_clients 0 (px_clients p) buf dst.

Definition bt_mesh_proxy_addr_add (i : nat) (addr : Z) : X unit := mod_client i (client_addr_add addr).

(** *** Beacons *)

Definition beacon_send (conn : nat) (sub : subnet) : X Z :=
  p <- stm_get ;;
  proxy_segment_and_send conn BT_MESH_PROXY_BEACON (bt_mesh_beacon_create (px_net p) sub).

Fixpoint send_beacons (conn : nat) (ss : list subnet) : X unit :=
  match ss with
  | [] => mret tt
  | sub :: ss =>
      (if sub_net_idx sub =? BT_MESH_KEY_UNUSED then mret tt else beacon_send conn sub ;; mret tt) ;;
      send_beacons conn ss
  end.
(** [proxy_send_beacons]: the work item of a client. *)
Definition proxy_send_beacons (i : nat) : X unit :=
  c <- get_client i ;;
  p <- stm_get ;;
  conn <- stm_of_option (cl_conn c) ;;
  send_beacons conn (subs (px_net p)).

Fixpoint beacon_to_clients (cs : list client) (sub : subnet) : X unit :=
  match cs with
  | [] => mret tt
  | c :: cs =>
      match cl_conn c with Some conn => beacon_send conn sub ;; mret tt | None => mret tt end ;;
      beacon_to_clients cs sub
  end.
Fixpoint beacon_on_subnets (ss : list subnet) : X unit :=
  match ss with
  | [] => mret tt
  | sub :: ss =>
      (if sub_net_idx sub =? BT_MESH_KEY_UNUSED then mret tt
       else p <- stm_get ;; beacon_to_clients (px_clients p) sub) ;;
      beacon_on_subnets ss
  end.
Definition bt_mesh_proxy_beacon_send (sub : option nat) : X unit :=
  p <- stm_get ;;
  match sub with
  | None => beacon_on_subnets (subs (px_net p))
  | Some i => s <- stm_of_option (subs (px_net p) !! i) ;; beacon_to_clients (px_clients p) s
  end.

(** *** Identities *)

Definition bt_mesh_proxy_identity_start (i : nat) : X unit :=
  stm_modify (fun p => (p <| px_net := set_sub (px_net p) i (fun s =>
    (s <| sub_node_id := BT_MESH_NODE_IDENTITY_RUNNING |>) <| sub_node_id_start := x_now_32 |>) |>)
    <| px_next := i |>).
Definition identity_stop (s : subnet) : subnet :=
  (s <| sub_node_id := BT_MESH_NODE_IDENTITY_STOPPED |>) <| sub_node_id_start := 0 |>.
Definition bt_mesh_proxy_identity_stop (i : nat) : X unit :=
  stm_modify (fun p => p <| px_net := set_sub (px_net p) i identity_stop |>).

Fixpoint identity_start_all (i : nat) (ss : list subnet) : X bool :=
  match ss with
  | [] => mret false
  | s :: ss =>
      if (sub_net_idx s =? BT_MESH_KEY_UNUSED) || (sub_node_id s =? BT_MESH_NODE_IDENTITY_NOT_SUPPORTED)
      then identity_start_all (S i) ss
      else bt_mesh_proxy_identity_start i ;; identity_start_all (S i) ss ;; mret true
  end.
Definition bt_mesh_proxy_identity_enable : X Z :=
  p <- stm_get ;;
  if negb x_provisioned then mret (- EAGAIN)
  else
    some <- identity_start_all 0 (subs (px_net p)) ;;
    (if some : bool then stm_emit [PAdvUpdate] else mret tt) ;;
    mret 0.

(** ** Receiving *)

(** [NET_BUF_SIMPLE(29)] with ten bytes reserved and the four of the status. *)
Definition STATUS_TAILROOM : Z := 29 - 10 - 4.

Definition send_filter_status (i : nat) (rx : net_rx) : X unit :=
  c <- get_client i ;;
  p <- stm_get ;;
  conn <- stm_of_option (cl_conn c) ;;
  let tx := mk_tx (rx_sub rx) ((rx_ctx rx) <| ctx_addr := BT_MESH_ADDR_UNASSIGNED |>) x_primary 0 false 0 0 in
  let '(r, m, _, evs) := bt_mesh_net_encode (px_net p) tx (filter_status c) STATUS_TAILROOM true in
  stm_modify (fun p => p <| px_net := m |>) ;;
  stm_emit (map PNet evs) ;;
  match r with
  | Ok pdu => proxy_segment_and_send conn BT_MESH_PROXY_CONFIG pdu ;; mret tt
  | Err _ => mret tt
  | Undef => stm_undef
  end.

(** What a configuration message does to the filter; [None] for an unknown
    opcode. *)
Definition filter_op (buf : bytes) : option (client -> client) :=
  match buf with
  | op :: buf =>
      if op =? CFG_FILTER_SET then Some (filter_set buf)
      else if op =? CFG_FILTER_ADD then Some (filter_all filter_add buf)
      else if op =? CFG_FILTER_REMOVE then Some (filter_all filter_remove buf)
      else None
  | [] => None
  end.

Definition proxy_cfg (i : nat) : X unit :=
  c <- get_client i ;;
  p <- stm_get ;;
  if x_checked_board && bool_decide (29 < length (cl_buf c))%nat then mret tt
  else
    let '(r, m, rx) := bt_mesh_net_decode (px_net p) (cl_buf c) IF_PROXY_CFG x_stack_rx 29 in
    stm_modify (fun p => p <| px_net := m |>) ;;
    match r with
    | Err _ => mret tt
    | Undef => stm_undef
    | Ok buf =>
        if decide (length buf < BT_MESH_NET_HDR_LEN)%nat then stm_undef
        else
          match filter_op (drop BT_MESH_NET_HDR_LEN buf) with
          | Some f => mod_client i f ;; send_filter_status i rx
          | None => mret tt
          end
    end.

Definition proxy_complete_pdu (i : nat) : X unit :=
  c <- get_client i ;;
  (if cl_msg c =? BT_MESH_PROXY_NET_PDU then stm_emit [PNetRecv i (cl_buf c)]
   else if cl_msg c =? BT_MESH_PROXY_BEACON then stm_emit [PBeaconRecv (cl_buf c)]
   else if cl_msg c =? BT_MESH_PROXY_CONFIG then proxy_cfg i
   else if cl_msg c =? BT_MESH_PROXY_PROV then
     conn <- stm_of_option (cl_conn c) ;; stm_emit [PProvRecv conn (cl_buf c)]
   else mret tt) ;;
  mod_client i (fun c => c <| cl_buf := [] |>).

Definition add_data (i : nat) (data : bytes) : X unit := mod_client i (fun c => c <| cl_buf := cl_buf c ++ tail data |>).

(** [prov] tells whether the attribute is that of the provisioning service. *)
Definition proxy_recv (conn : nat) (prov : bool) (data : bytes) : X Z :=
  p <- stm_get ;;
  match find_client conn p with
  | None => mret (- ENOTCONN)
  | Some i =>
      c <- get_client i ;;
      if decide (length data < 1)%nat then mret (- EINVAL)
      else if negb (Bool.eqb prov (PDU_TYPE data =? BT_MESH_PROXY_PROV)) then mret (- EINVAL)
      else if decide (CLIENT_BUF_SIZE - length (cl_buf c) < length data - 1)%nat then mret (- EINVAL)
      else if PDU_SAR data =? SAR_COMPLETE then
        if decide (cl_buf c = []) then
          mod_client i (fun c => c <| cl_msg := PDU_TYPE data |>) ;;
          add_data i data ;;
          proxy_complete_pdu i ;;
          mret (Z.of_nat (length data))
        else mret (- EINVAL)
      else if PDU_SAR data =? SAR_FIRST then
        if decide (cl_buf c = []) then
          mod_client i (fun c => c <| cl_msg := PDU_TYPE data |>) ;;
          add_data i data ;;
          mret (Z.of_nat (length data))
        else mret (- EINVAL)
      else if decide (cl_buf c = []) then mret (- EINVAL)
      else if negb (cl_msg c =? PDU_TYPE data) then mret (- EINVAL)
      else if PDU_SAR data =? SAR_CONT then add_data i data ;; mret (Z.of_nat (length data))
      else add_data i data ;; proxy_complete_pdu i ;; mret (Z.of_nat (length data))
  end.

(** ** Connections *)

Definition proxy_connected (conn : nat) : X unit :=
  stm_modify (fun p => (p <| px_conns := px_conns p + 1 |>) <| px_adv_enabled := false |>) ;;
  p <- stm_get ;;
  (if px_conns p <? Z.of_nat MAX_CONN then stm_emit [PAdvUpdate] else mret tt) ;;
  match find_index (fun c => bool_decide (cl_conn c = None)) (px_clients p) with
  | None => mret tt
  | Some i =>
      stm_emit [PConnRef conn] ;;
      mod_client i (fun c => (((c <| cl_conn := Some conn |>) <| cl_type := FNone |>)
        <| cl_filter := zero_filter (cl_filter c) |>) <| cl_buf := [] |>)
  end.

Definition proxy_disconnected (conn : nat) : X unit :=
  stm_modify (fun p => p <| px_conns := px_conns p - 1 |>) ;;
  p <- stm_get ;;
  match find_client conn p with
  | None => mret tt
  | Some i =>
      c <- get_client i ;;
      (if decide (cl_type c = FProv) then stm_emit [PProvClose conn] else mret tt) ;;
      stm_emit [PConnUnref conn] ;;
      mod_client i (fun c => c <| cl_conn := None |>)
  end ;;
  stm_emit [PAdvUpdate].

(** The buffer of the first client, lent to the provisioning bearer. *)
Definition bt_mesh_proxy_get_buf : X unit := mod_client 0 (fun c => c <| cl_buf := [] |>).

Definition prov_ccc_write (conn : nat) (buf : bytes) : X Z :=
  if negb (bool_decide (length buf = 2%nat)) then mret GATT_ERR_LEN
  else
    stm_modify (fun p => p <| px_prov_ccc := sys_get_le16 buf |>) ;;
    if negb (sys_get_le16 buf =? GATT_CCC_NOTIFY) then mret 2
    else
      p <- stm_get ;;
      i <- stm_of_option (find_client conn p) ;;
      c <- get_client i ;;
      (if decide (cl_type c = FNone) then
         mod_client i (fun c => c <| cl_type := FProv |>) ;; stm_emit [PProvOpen conn]
       else mret tt) ;;
      mret 2.
Definition prov_ccc_read : X bytes := p <- stm_get ;; mret (sys_put_le16 (px_prov_ccc p)).

Definition proxy_ccc_write (conn : nat) (buf : bytes) : X Z :=
  if negb (bool_decide (length buf = 2%nat)) then mret GATT_ERR_LEN
  else if negb (sys_get_le16 buf =? GATT_CCC_NOTIFY) then mret 2
  else
    p <- stm_get ;;
    i <- stm_of_option (find_client conn p) ;;
    c <- get_client i ;;
    (if decide (cl_type c = FNone) then
       mod_client i (fun c => c <| cl_type := FWhite |>) ;; stm_emit [PBeaconWork i]
     else mret tt) ;;
    mret 2.

(** ** The services *)

Definition connected_to (k : filter_kind) (c : client) : client :=
  match cl_conn c with Some _ => c <| cl_type := k |> | None => c end.

Definition bt_mesh_proxy_prov_enable : X Z :=
  stm_emit [PRegister MESH_GATT_PROV] ;;
  stm_modify (fun p => ((p <| px_svc := MESH_GATT_PROV |>) <| px_fast := true |>)
    <| px_clients := map (connected_to FProv) (px_clients p) |>) ;;
  mret 0.

(** The loops of [bt_mesh_proxy_prov_disable] and
    [bt_mesh_proxy_gatt_disconnect]: the clients of some kind get none. *)
Fixpoint end_clients (is_kind : filter_kind -> bool) (ev : nat -> proxy_event) (i : nat) (cs : list client) : X unit :=
  match cs with
  | [] => mret tt
  | c :: cs =>
      match cl_conn c with
      | Some conn =>
          if is_kind (cl_type c) then
            mod_client i (fun c => c <| cl_type := FNone |>) ;; stm_emit [ev conn]
          else mret tt
      | None => mret tt
      end ;;
      end_clients is_kind ev (S i) cs
  end.

Definition bt_mesh_proxy_prov_disable : X Z :=
  stm_emit [PUnregister MESH_GATT_PROV] ;;
  stm_modify (fun p => p <| px_svc := MESH_GATT_NONE |>) ;;
  p <- stm_get ;;
  end_clients (fun k => bool_decide (k = FProv)) PProvClose 0 (px_clients p) ;;
  mret 0.

Definition bt_mesh_proxy_gatt_enable : X Z :=
  stm_emit [PRegister MESH_GATT_PROXY] ;;
  stm_modify (fun p => (p <| px_svc := MESH_GATT_PROXY |>)
    <| px_clients := map (connected_to FWhite) (px_clients p) |>) ;;
  mret 0.

Definition bt_mesh_proxy_gatt_disconnect : X unit :=
  p <- stm_get ;;
  end_clients (fun k => bool_decide (k = FWhite) || bool_decide (k = FBlack)) PDisconnect 0 (px_clients p).

Definition bt_mesh_proxy_gatt_disable : X Z :=
  bt_mesh_proxy_gatt_disconnect ;;
  stm_emit [PUnregister MESH_GATT_PROXY] ;;
  stm_modify (fun p => p <| px_svc := MESH_GATT_NONE |>) ;;
  mret 0.

(** ** Connectable advertising *)

Definition adv_with (kind : adv_kind) : X Z :=
  stm_emit [PAdvStart kind] ;;
  let err := x_adv_start kind in
  (if err =? 0 then stm_modify (fun p => p <| px_adv_enabled := true |>) else mret tt) ;;
  mret err.

(** The hash of the random bytes and the address, under the identity key. *)
Definition identity_hash (sub : subnet) (rand : bytes) : res bytes :=
  tmp ← bt_mesh_aes_encrypt (k_identity (sub_keys sub (sub_kr_flag sub)))
          (replicate 6 0 ++ rand ++ sys_put_be16 x_primary);
  Ok (take 8 (drop 8 tmp)).
Definition put_svc_data (i : nat) (data : bytes) : X unit :=
  stm_modify (fun p => p <| px_svc_data := put_at i data (px_svc_data p) |>).
Definition node_id_adv (sub : subnet) : X Z :=
  put_svc_data 2 [1] ;;
  match x_rand with
  | inr e => mret e
  | inl rand =>
      put_svc_data 11 rand ;;
      match identity_hash sub rand with
      | Ok hash => put_svc_data 3 hash ;; p <- stm_get ;; adv_with (AdvNodeId (px_svc_data p))
      | Err e => mret e
      | Undef => stm_undef
      end
  end.

Definition net_id_adv (sub : subnet) : X Z :=
  put_svc_data 2 [0] ;;
  put_svc_data 3 (k_net_id (sub_keys sub (sub_kr_flag sub))) ;;
  p <- stm_get ;; adv_with (AdvNetId (take 11 (px_svc_data p))).

Definition advertise_subnet (s : subnet) : bool :=
  negb (sub_net_idx s =? BT_MESH_KEY_UNUSED) &&
  ((sub_node_id s =? BT_MESH_NODE_IDENTITY_RUNNING) || (gatt_proxy_get =? BT_MESH_GATT_PROXY_ENABLED)).

(** The loop of [next_sub]. *)
Definition rotated (p : proxy) : list nat :=
  let n := length (subs (px_net p)) in map (fun i => ((i + px_next p) mod n)%nat) (seq 0 n).
Definition is_advertised (p : proxy) (i : nat) : bool :=
  match subs (px_net p) !! i with Some s => advertise_subnet s | None => false end.
Definition next_sub : X (option nat) :=
  p <- stm_get ;;
  match List.find (is_advertised p) (rotated p) with
  | Some i =>
      stm_modify (fun p => p <| px_next := ((px_next p + 1) mod length (subs (px_net p)))%nat |>) ;;
      mret (Some i)
  | None => mret None
  end.

Definition sub_count (p : proxy) : Z := Z.of_nat (length (List.filter advertise_subnet (subs (px_net p)))).

(** [remaining] after the slices. *)
Definition adv_slice (count remaining : Z) : Z :=
  if 1 <? count then
    let max_timeout := Z.max (NODE_ID_TIMEOUT / Z.max count 6) (K_SECONDS 1) in
    if (max_timeout <? remaining) || (remaining <? 0) then max_timeout else remaining
  else remaining.

(** [fuel] bounds the depth of the recursion. *)
Fixpoint gatt_proxy_advertise (fuel : nat) (sub : option nat) : X Z :=
  match fuel with
  | O => stm_undef
  | S fuel =>
      p <- stm_get ;;
      if px_conns p =? Z.of_nat MAX_CONN then mret K_FOREVER
      else
        match sub with
        | None => mret K_FOREVER
        | Some i =>
            s <- stm_of_option (subs (px_net p) !! i) ;;
            remaining <-
              (if sub_node_id s =? BT_MESH_NODE_IDENTITY_RUNNING then
                 let active := u32 (x_now_32 - sub_node_id_start s) in
                 if active <? NODE_ID_TIMEOUT then node_id_adv s ;; mret (NODE_ID_TIMEOUT - active)
                 else bt_mesh_proxy_identity_stop i ;; mret K_FOREVER
               else mret K_FOREVER) ;;
            p <- stm_get ;;
            s <- stm_of_option (subs (px_net p) !! i) ;;
            if sub_node_id s =? BT_MESH_NODE_IDENTITY_STOPPED then
              if gatt_proxy_get =? BT_MESH_GATT_PROXY_ENABLED then
                net_id_adv s ;; mret (adv_slice (sub_count p) remaining)
              else next <- next_sub ;; gatt_proxy_advertise fuel next
            else mret (adv_slice (sub_count p) remaining)
        end
  end.

Definition bt_mesh_proxy_adv_start : X Z :=
  p <- stm_get ;;
  if decide (px_svc p = MESH_GATT_NONE) then mret K_FOREVER
  else
    let rest : X Z :=
      if x_provisioned then
        next <- next_sub ;; p <- stm_get ;; gatt_proxy_advertise (S (S (length (subs (px_net p))))) next
      else mret (if x_prov_active then K_SECONDS 10 else K_SECONDS 30) in
    if negb x_provisioned && negb x_prov_active then
      err <- adv_with (AdvProv (px_fast p)) ;;
      if (err =? 0) && px_fast p then stm_modify (fun p => p <| px_fast := false |>) ;; mret (K_SECONDS 60)
      else rest
    else rest.

Definition bt_mesh_proxy_adv_stop : X unit :=
  p <- stm_get ;;
  if px_adv_enabled p then
    stm_emit [PAdvStop] ;;
    if x_adv_stop =? 0 then stm_modify (fun p => p <| px_adv_enabled := false |>) else mret tt
  else mret tt.

(** The clients before the first connection. *)
Definition proxy_zero (m : mesh_net) : proxy :=
  mk_proxy m (replicate MAX_CONN (mk_client None (replicate FILTER_SIZE 0) FNone 0 [])) false MESH_GATT_NONE
    false 0 0 0 ([0x28; 0x18] ++ replicate 17 0).

(** ** Runs *)

Inductive proxy_op :=
| OpConnected (conn : nat)
| OpDisconnected (conn : nat)
| OpRecv (conn : nat) (prov : bool) (data : bytes)
| OpProvCcc (conn : nat) (data : bytes)
| OpProxyCcc (conn : nat) (data : bytes)
| OpSend (conn : nat) (type : Z) (msg : bytes)
| OpRelay (pdu : bytes) (dst : Z)
| OpAddrAdd (client : nat) (addr : Z)
| OpBeaconWork (client : nat)
| OpBeacons (sub : option nat)
| OpIdentity
| OpService (svc : gatt_svc) (enable : bool)
| OpAdvStart
| OpAdvStop
| OpGetBuf.

Definition proxy_do (op : proxy_op) : X unit :=
  match op with
  | OpConnected c => proxy_connected c
  | OpDisconnected c => proxy_disconnected c
  | OpRecv c prov data => proxy_recv c prov data ;; mret tt
  | OpProvCcc c data => prov_ccc_write c data ;; mret tt
  | OpProxyCcc c data => proxy_ccc_write c data ;; mret tt
  | OpSend c type msg => bt_mesh_proxy_send c type msg ;; mret tt
  | OpRelay pdu dst => bt_mesh_proxy_relay pdu dst ;; mret tt
  | OpAddrAdd i addr => bt_mesh_proxy_addr_add i addr
  | OpBeaconWork i => proxy_send_beacons i
  | OpBeacons sub => bt_mesh_proxy_beacon_send sub
  | OpIdentity => bt_mesh_proxy_identity_enable ;; mret tt
  | OpService MESH_GATT_PROV true => bt_mesh_proxy_prov_enable ;; mret tt
  | OpService MESH_GATT_PROV false => bt_mesh_proxy_prov_disable ;; mret tt
  | OpService MESH_GATT_PROXY true => bt_mesh_proxy_gatt_enable ;; mret tt
  | OpService MESH_GATT_PROXY false => bt_mesh_proxy_gatt_disable ;; mret tt
  | OpService MESH_GATT_NONE _ => mret tt
  | OpAdvStart => bt_mesh_proxy_adv_start ;; mret tt
  | OpAdvStop => bt_mesh_proxy_adv_stop
  | OpGetBuf => bt_mesh_proxy_get_buf
  end.

Fixpoint proxy_run (ops : list proxy_op) : X unit :=
  match ops with
  | [] => mret tt
  | op :: ops => proxy_do op ;; proxy_run ops
  end.
End proxy.
