(* ===== verification/ProxyOk.v ===== *)
(** * What the GATT proxy guarantees

    Segmentation and reassembly, the address filter as a set, the relay, and
    the rotation of the advertising. *)

From stdpp Require Import gmap.
From S2P Require Import Prelude NetBuf Cmac Ccm Aes MeshCrypto NetState NetIv Net Beacon Proxy.

(** The notifications: connection and PDU. *)
Definition notified_to (e : list proxy_event) : list (nat * bytes) :=
  omap (fun ev => match ev with PNotify _ conn pdu => Some (conn, pdu) | _ => None end) e.
Definition notified (e : list proxy_event) : list bytes := map snd (notified_to e).
Lemma notified_to_app e1 e2 : notified_to (e1 ++ e2) = notified_to e1 ++ notified_to e2.
Proof. apply omap_app. Qed.

Lemma hdr_fields sar type data : 0 <= sar < 4 -> 0 <= type < 64 ->
  PDU_TYPE (PDU_HDR sar type :: data) = type /\ PDU_SAR (PDU_HDR sar type :: data) = sar.
Proof.
  intros Hs Ht. unfold PDU_TYPE, PDU_SAR, byte_at. cbn [nth].
  assert (forallb (fun s => forallb (fun t => (Z.land (PDU_HDR s t) 63 =? t) && (Z.shiftr (PDU_HDR s t) 6 =? s))
    (map Z.of_nat (seq 0 64))) (map Z.of_nat (seq 0 4)) = true) as H by by vm_compute.
  rewrite forallb_forall in H. specialize (H sar). rewrite forallb_forall in H.
  assert (In type (map Z.of_nat (seq 0 64))) as Hin1.
  { apply in_map_iff. exists (Z.to_nat type). split; [lia|]. apply in_seq. lia. }
  assert (In sar (map Z.of_nat (seq 0 4))) as Hin2.
  { apply in_map_iff. exists (Z.to_nat sar). split; [lia|]. apply in_seq. lia. }
  specialize (H Hin2 type Hin1). apply andb_prop in H as [H1 H2].
  apply Z.eqb_eq in H1, H2. done.
Qed.

(** ** Segments *)

(** The PDUs of a message: [d] bytes of data fit one of them. *)
Fixpoint later_segments (fuel : nat) (type : Z) (d : nat) (msg : bytes) : list bytes :=
  match msg, fuel with
  | [], _ | _, O => []
  | _, S fuel =>
      if decide (length msg < d)%nat then [PDU_HDR SAR_LAST type :: msg]
      else (PDU_HDR SAR_CONT type :: take d msg) :: later_segments fuel type d (drop d msg)
  end.
Definition segments (type : Z) (d : nat) (msg : bytes) : list bytes :=
  if decide (length msg <= d)%nat then [PDU_HDR SAR_COMPLETE type :: msg]
  else (PDU_HDR SAR_FIRST type :: take d msg) :: later_segments (length msg) type d (drop d msg).

Section sar.
Context {cfg : MeshConfig} {hal : SecHal} {nenv : NetEnv} {env : ProxyEnv}.

(** *** The sender *)

Lemma proxy_send_wp conn data p (Q : Z -> proxy -> list proxy_event -> Prop) :
  px_svc p <> MESH_GATT_NONE -> (forall r e, notified_to e = [(conn, data)] -> Q r p e) -> stm_wp (proxy_send conn data) Q p.
Proof. intros Hs HQ. unfold proxy_send. wp_steps. destruct (px_svc p); [done|..]; wp_steps; by apply HQ. Qed.

Lemma later_wp fuel conn type d msg p :
  px_svc p <> MESH_GATT_NONE -> (0 < d)%nat -> (length msg <= fuel)%nat ->
  stm_wp (proxy_segments fuel conn type (S d) msg)
    (fun _ p' e => p' = p /\ notified_to e = map (pair conn) (later_segments fuel type d msg)) p.
Proof.
  intros Hs Hd. revert msg. induction fuel as [|fuel IH]; intros msg Hf.
  { destruct msg; [by split|cbn in Hf; lia]. }
  destruct msg as [|b msg]; [by split|]. cbn [proxy_segments later_segments].
  set (m := b :: msg) in *. destruct (decide (length m + 1 < S d)%nat) as [Hlt|Hge].
  - rewrite decide_True by lia. apply wp_bind, proxy_send_wp; [done|]. intros r e He. wp_steps.
    by rewrite app_nil_r.
  - rewrite decide_False by lia. apply wp_bind, proxy_send_wp; [done|]. intros r e He.
    change (drop (S d) (PDU_HDR SAR_CONT type :: m)) with (drop d m).
    eapply wp_mono; [apply IH; rewrite length_drop; subst m; cbn in *; lia|].
    intros r' p' e' [-> He']. split; [done|]. by rewrite notified_to_app, He, He'.
Qed.

Lemma segment_and_send_wp conn type d msg p :
  px_svc p <> MESH_GATT_NONE -> u16 (x_mtu conn - 3) = Z.of_nat (S d) -> (0 < d)%nat ->
  stm_wp (proxy_segment_and_send conn type msg) (fun _ p' e => p' = p /\ notified_to e = map (pair conn) (segments type d msg)) p.
Proof.
  intros Hs Hm Hd. unfold proxy_segment_and_send, segments. rewrite Hm, Nat2Z.id.
  destruct (decide (length msg < S d)%nat) as [Hlt|Hge].
  - rewrite decide_True by lia. apply proxy_send_wp; [done|]. by intros r e He.
  - rewrite decide_False by lia. apply wp_bind, proxy_send_wp; [done|]. intros r e He.
    change (drop (S d) (PDU_HDR SAR_FIRST type :: msg)) with (drop d msg).
    eapply wp_mono; [apply later_wp; [done|done|]; rewrite length_drop; lia|].
    intros r' p' e' [-> He']. split; [done|]. by rewrite notified_to_app, He, He'.
Qed.

(** *** The receiver *)

(** The writes of the peer, one after the other. *)
Fixpoint recv_all (conn : nat) (prov : bool) (pdus : list bytes) : stm proxy proxy_event unit :=
  match pdus with
  | [] => mret tt
  | pdu :: pdus => proxy_recv conn prov pdu ;; recv_all conn prov pdus
  end.

(** Client [i] of [conn] holds [data] of a message of [type]. *)
Definition with_buf (i : nat) (type : Z) (data : bytes) (p : proxy) : proxy :=
  p <| px_clients := alter (fun c => (c <| cl_msg := type |>) <| cl_buf := data |>) i (px_clients p) |>.

Lemma find_client_buf conn i type data p : find_client conn (with_buf i type data p) = find_client conn p.
Proof.
  unfold find_client, with_buf. cbn. generalize (px_clients p) as l. intros l. revert i.
  induction l as [|c l IH]; intros [|i]; try done; cbn. change (list_alter ?f i l) with (alter f i l). by rewrite IH.
Qed.

Lemma with_buf_twice i t1 t2 d1 d2 p : with_buf i t2 d2 (with_buf i t1 d1 p) = with_buf i t2 d2 p.
Proof.
  unfold with_buf. record_simpl. f_equal. apply list_eq. intros j. destruct (decide (i = j)) as [<-|].
  - rewrite !list_lookup_alter_eq. by destruct (px_clients p !! i).
  - by rewrite !list_lookup_alter_ne.
Qed.

Lemma get_client_buf i type data p c :
  px_clients p !! i = Some c ->
  get_client i (with_buf i type data p) =
    Some ((c <| cl_msg := type |>) <| cl_buf := data |>, with_buf i type data p, []).
Proof.
  intros Hc. unfold get_client. rewrite (stm_bind_pure _ _ _ _ _ eq_refl). unfold with_buf at 1. cbn.
  by rewrite list_lookup_alter_eq, Hc.
Qed.

Lemma add_data_buf i type data h d p :
  add_data i (h :: d) (with_buf i type data p) = Some (tt, with_buf i type (data ++ d) p, []).
Proof.
  unfold add_data, mod_client, stm_modify, with_buf. record_simpl. do 4 f_equal.
  apply list_eq. intros j. destruct (decide (i = j)) as [<-|].
  - rewrite !list_lookup_alter_eq. by destruct (px_clients p !! i).
  - by rewrite !list_lookup_alter_ne.
Qed.

Section receiver.
Context (conn i : nat) (type : Z) (prov : bool) (p : proxy) (c : client).
Hypothesis found : find_client conn p = Some i.
Hypothesis here : px_clients p !! i = Some c.
Hypothesis kind : prov = (type =? BT_MESH_PROXY_PROV).
Hypothesis small : 0 <= type < 64.

(** A PDU to a client that holds [data]. *)
Lemma recv_more sar data d :
  data <> [] -> 0 <= sar < 4 -> sar = SAR_CONT \/ sar = SAR_LAST -> (length data + length d <= CLIENT_BUF_SIZE)%nat ->
  proxy_recv conn prov (PDU_HDR sar type :: d) (with_buf i type data p) =
  (if sar =? SAR_CONT then mret (Z.of_nat (S (length d)))
   else proxy_complete_pdu i ;; mret (Z.of_nat (S (length d)))) (with_buf i type (data ++ d) p).
Proof.
  intros Hne Hs Hsar Hlen. destruct (hdr_fields sar type d Hs small) as [Ht Hr]. unfold proxy_recv.
  rewrite (stm_bind_pure _ _ _ _ _ eq_refl), find_client_buf, found.
  rewrite (stm_bind_pure _ _ _ _ _ (get_client_buf _ _ _ _ _ here)).
  rewrite decide_False by (cbn; lia). rewrite Ht, Hr, <- kind, eqb_reflx. cbn [negb cl_buf cl_msg update_field].
  unfold CLIENT_BUF_SIZE in Hlen |- *. rewrite decide_False by (cbn; lia).
  assert ((sar =? SAR_COMPLETE) = false /\ (sar =? SAR_FIRST) = false) as [-> ->] by (by destruct Hsar as [-> | ->]).
  rewrite decide_False by done. rewrite Z.eqb_refl. cbn [negb length].
  destruct Hsar as [-> | ->]; cbn [Z.eqb SAR_CONT SAR_LAST Pos.eqb];
    by rewrite (stm_bind_pure _ _ _ _ _ (add_data_buf _ _ _ _ _ _)).
Qed.

(** A PDU to a client that holds nothing. *)
Lemma recv_first sar d :
  cl_buf c = [] -> sar = SAR_COMPLETE \/ sar = SAR_FIRST -> (length d <= CLIENT_BUF_SIZE)%nat ->
  proxy_recv conn prov (PDU_HDR sar type :: d) p =
  (if sar =? SAR_FIRST then mret (Z.of_nat (S (length d)))
   else proxy_complete_pdu i ;; mret (Z.of_nat (S (length d)))) (with_buf i type d p).
Proof.
  intros He Hsar Hlen. assert (Hs : 0 <= sar < 4) by (destruct Hsar as [-> | ->]; done).
  destruct (hdr_fields sar type d Hs small) as [Ht Hr]. unfold proxy_recv.
  rewrite (stm_bind_pure _ _ _ _ _ eq_refl), found.
  assert (Hget : get_client i p = Some (c, p, []))
    by (unfold get_client; rewrite (stm_bind_pure _ _ _ _ _ eq_refl); by rewrite here).
  rewrite (stm_bind_pure _ _ _ _ _ Hget).
  rewrite decide_False by (cbn; lia). rewrite Ht, Hr, <- kind, eqb_reflx, He. cbn [negb length].
  unfold CLIENT_BUF_SIZE in Hlen |- *. rewrite decide_False by lia.
  assert (Hmod : mod_client i (fun c => c <| cl_msg := type |>) p = Some (tt, with_buf i type [] p, [])).
  { unfold mod_client, stm_modify, with_buf. record_simpl. do 4 f_equal.
    apply list_eq. intros j. destruct (decide (i = j)) as [<-|]; [|by rewrite !list_lookup_alter_ne].
    rewrite !list_lookup_alter_eq, here. cbn. f_equal. destruct c. cbn in *. by subst. }
  destruct Hsar as [-> | ->]; cbn [Z.eqb Pos.eqb SAR_COMPLETE SAR_FIRST]; rewrite decide_True by done;
    rewrite (stm_bind_pure _ _ _ _ _ Hmod);
    by rewrite (stm_bind_pure _ _ _ _ _ (add_data_buf _ _ [] _ _ _)).
Qed.

Lemma complete_ignore n s :
  stm_bind (stm_bind (proxy_complete_pdu i) (fun _ => mret n)) (fun _ : Z => mret tt) s = proxy_complete_pdu i s.
Proof. rewrite stm_bind_assoc. cbn. rewrite <- (stm_bind_tt (proxy_complete_pdu i)). unfold stm_bind.
  destruct (proxy_complete_pdu i s) as [[[[] s'] e]|]; [|done]. by cbn. Qed.

Lemma later_recv fuel d msg data :
  (0 < d)%nat -> (length msg <= fuel)%nat -> data <> [] -> (length data + length msg <= CLIENT_BUF_SIZE)%nat ->
  recv_all conn prov (later_segments fuel type d msg) (with_buf i type data p) =
  if decide (length msg mod d = 0)%nat then Some (tt, with_buf i type (data ++ msg) p, [])
  else proxy_complete_pdu i (with_buf i type (data ++ msg) p).
Proof.
  intros Hd. revert msg data. induction fuel as [|fuel IH]; intros msg data Hf Hne Hlen.
  { destruct msg; [|cbn in Hf; lia]. cbn [later_segments recv_all length]. rewrite decide_True by apply Nat.Div0.mod_0_l.
    by rewrite app_nil_r. }
  destruct msg as [|b msg].
  { cbn [later_segments recv_all length]. rewrite decide_True by apply Nat.Div0.mod_0_l. by rewrite app_nil_r. }
  cbn [later_segments]. set (m := b :: msg) in *. destruct (decide (length m < d)%nat) as [Hlt|Hge].
  - rewrite decide_False by (rewrite Nat.mod_small by done; subst m; cbn; lia).
    cbn [recv_all]. unfold stm_bind at 1. rewrite recv_more; [|done|done|by right|done].
    change (SAR_LAST =? SAR_CONT) with false. cbv iota. apply complete_ignore.
  - cbn [recv_all].
    rewrite (stm_bind_pure _ _ _ (Z.of_nat (S (length (take d m)))) (with_buf i type (data ++ take d m) p)).
    2:{ rewrite recv_more; [done|done|done|by left|]. rewrite length_take. lia. }
    rewrite IH; [|rewrite length_drop; subst m; cbn in *; lia|by destruct data|rewrite length_app, length_take, length_drop; lia].
    rewrite <- app_assoc, take_drop, length_drop.
    assert (((length m - d) mod d)%nat = (length m mod d)%nat) as ->; [|done].
    rewrite <- (Nat.Div0.mod_add (length m - d) 1 d). f_equal. lia.
Qed.

Lemma segments_recv d msg :
  (0 < d)%nat -> cl_buf c = [] -> (length msg <= CLIENT_BUF_SIZE)%nat ->
  recv_all conn prov (segments type d msg) p =
  if decide ((d < length msg)%nat /\ (length msg mod d = 0)%nat) then Some (tt, with_buf i type msg p, [])
  else proxy_complete_pdu i (with_buf i type msg p).
Proof.
  intros Hd He Hlen. unfold segments. destruct (decide (length msg <= d)%nat) as [Hle|Hgt].
  - rewrite decide_False by lia. cbn [recv_all]. unfold stm_bind at 1. rewrite recv_first; [|done|by left|done].
    change (SAR_COMPLETE =? SAR_FIRST) with false. cbv iota. apply complete_ignore.
  - cbn [recv_all].
    rewrite (stm_bind_pure _ _ _ (Z.of_nat (S (length (take d msg)))) (with_buf i type (take d msg) p)).
    2:{ rewrite recv_first; [done|done|by right|]. rewrite length_take. lia. }
    assert (take d msg <> []) by (intros E; apply (f_equal length) in E; rewrite length_take in E; cbn in E; lia).
    rewrite later_recv; [|done|rewrite length_drop; lia|done|rewrite length_take, length_drop; lia].
    rewrite take_drop, length_drop.
    assert (((length msg - d) mod d)%nat = (length msg mod d)%nat) as ->.
    { rewrite <- (Nat.Div0.mod_add (length msg - d) 1 d). f_equal. lia. }
    destruct (decide (length msg mod d = 0)%nat); [rewrite decide_True by (split; [lia|done])|rewrite decide_False by tauto]; done.
Qed.
End receiver.
End sar.

(** C8: what a proxy sends to its peer arrives. The notifications of a message
    that fits the buffer of the peer, written one after the other to a peer that
    runs the same code, make it handle exactly that message, unless the message
    fills a number of notifications (at least two) completely: then the peer,
    which never receives a last segment, keeps it in its buffer. *)
Theorem proxy_sar {cfg : MeshConfig} {hal : SecHal} {nenv : NetEnv} (mine peer : ProxyEnv)
    (conn : nat) (type : Z) (msg : bytes) (d : nat) (q : proxy) (peer_conn i : nat) (c : client) (p : proxy) :
  px_svc q <> MESH_GATT_NONE -> u16 (x_mtu (ProxyEnv := mine) conn - 3) = Z.of_nat (S d) -> (0 < d)%nat ->
  0 <= type < 64 -> (length msg <= CLIENT_BUF_SIZE)%nat ->
  find_client peer_conn p = Some i -> px_clients p !! i = Some c -> cl_buf c = [] ->
  exists r e, proxy_segment_and_send (env := mine) conn type msg q = Some (r, q, e) /\
    recv_all (env := peer) peer_conn (type =? BT_MESH_PROXY_PROV) (notified e) p =
    if decide ((d < length msg)%nat /\ (length msg mod d = 0)%nat) then Some (tt, with_buf i type msg p, [])
    else proxy_complete_pdu (env := peer) i (with_buf i type msg p).
Proof.
  intros Hs Hm Hd Ht Hlen Hf Hc He.
  destruct (wp_inv _ _ _ (segment_and_send_wp (env := mine) conn type d msg q Hs Hm Hd)) as (r & q' & e & E & -> & Hn).
  exists r, e. split; [done|]. unfold notified. rewrite Hn, map_map, map_id. by eapply segments_recv.
Qed.

(** ** The filter is a set of bounded size *)

Record addr_filter := mk_filter { af_kind : filter_kind; af_addrs : gset Z }.

(** The specification, for a filter of [n] entries. *)
Definition spec_add (n : nat) (A : gset Z) (a : Z) : gset Z :=
  if decide (a = BT_MESH_ADDR_UNASSIGNED) then A
  else if decide (a ∈ A \/ (size A < n)%nat) then {[a]} ∪ A else A.
Definition spec_remove (A : gset Z) (a : Z) : gset Z := A ∖ {[a]}.
Fixpoint addr_list (buf : bytes) : list Z :=
  match buf with
  | a :: b :: buf => sys_get_be16 [a; b] :: addr_list buf
  | _ => []
  end.

(** A configuration message of the client, or an address learned from what it
    sends. *)
Inductive filter_change := ByMessage (buf : bytes) | Learned (addr : Z).
Definition spec_message (n : nat) (buf : bytes) (f : addr_filter) : addr_filter :=
  match buf with
  | op :: buf =>
      if op =? CFG_FILTER_SET then
        match buf with
        | type :: _ => if type =? 0 then mk_filter FWhite ∅ else if type =? 1 then mk_filter FBlack ∅ else f
        | [] => f
        end
      else if op =? CFG_FILTER_ADD then mk_filter (af_kind f) (foldl (spec_add n) (af_addrs f) (addr_list buf))
      else if op =? CFG_FILTER_REMOVE then mk_filter (af_kind f) (foldl spec_remove (af_addrs f) (addr_list buf))
      else f
  | [] => f
  end.
Definition spec_change (n : nat) (ch : filter_change) (f : addr_filter) : addr_filter :=
  match ch with
  | ByMessage buf => spec_message n buf f
  | Learned a =>
      match af_kind f with
      | FWhite => mk_filter FWhite (spec_add n (af_addrs f) a)
      | FBlack => mk_filter FBlack (spec_remove (af_addrs f) a)
      | _ => f
      end
  end.
Definition spec_match (f : addr_filter) (a : Z) : bool :=
  match af_kind f with
  | FWhite => bool_decide (a ∈ af_addrs f)
  | FBlack => bool_decide (a ∉ af_addrs f)
  | _ => false
  end.

Definition client_change (ch : filter_change) (c : client) : client :=
  match ch with
  | ByMessage buf => match filter_op buf with Some f => f c | None => c end
  | Learned a => client_addr_add a c
  end.

(** The entries in use. *)
Definition entries (l : list Z) : list Z := List.filter (fun a => negb (a =? BT_MESH_ADDR_UNASSIGNED)) l.
Definition filter_of (c : client) : addr_filter := mk_filter (cl_type c) (list_to_set (entries (cl_filter c))).
Definition filter_wf (n : nat) (c : client) : Prop := length (cl_filter c) = n /\ NoDup (entries (cl_filter c)).

Lemma entries_app l1 l2 : entries (l1 ++ l2) = entries l1 ++ entries l2.
Proof. apply List.filter_app. Qed.
Lemma entries_in l a : a ∈ entries l <-> a ∈ l /\ a <> BT_MESH_ADDR_UNASSIGNED.
Proof.
  unfold entries. rewrite !list_elem_of_In, List.filter_In, negb_true_iff, Z.eqb_neq. done.
Qed.
Lemma entries_zero n : entries (replicate n 0) = [].
Proof. by induction n. Qed.
Lemma entries_len l : (length (entries l) <= length l)%nat.
Proof. apply List.filter_length_le. Qed.

Lemma existsb_in a l : a <> BT_MESH_ADDR_UNASSIGNED -> existsb (Z.eqb a) l = bool_decide (a ∈ entries l).
Proof.
  intros Ha. apply eq_true_iff_eq. rewrite existsb_exists, bool_decide_eq_true, entries_in. split.
  - intros (x & Hx & E). apply Z.eqb_eq in E as <-. by rewrite list_elem_of_In.
  - intros [Hx _]. exists a. rewrite <- list_elem_of_In. split; [done|apply Z.eqb_refl].
Qed.

(** An entry [b] of the array becomes [a]. *)
Lemma entries_split l i b : l !! i = Some b ->
  entries l = entries (take i l) ++ entries [b] ++ entries (drop (S i) l) /\
  forall a, entries (<[i := a]> l) = entries (take i l) ++ entries [a] ++ entries (drop (S i) l).
Proof.
  intros Hi. assert (Hlt : (i < length l)%nat) by (by eapply lookup_lt_Some). split.
  - rewrite <- (take_drop_middle l i b Hi) at 1. rewrite entries_app. f_equal. exact (entries_app [b] _).
  - intros a. rewrite insert_take_drop by done. rewrite entries_app. f_equal. exact (entries_app [a] _).
Qed.

Lemma add_wf n a c : filter_wf n c ->
  filter_wf n (filter_add a c) /\
  filter_of (filter_add a c) = mk_filter (cl_type c) (spec_add n (af_addrs (filter_of c)) a).
Proof.
  intros [Hl Hnd]. unfold filter_add, spec_add, filter_of. cbn [af_addrs].
  destruct (Z.eqb_spec a BT_MESH_ADDR_UNASSIGNED) as [->|Ha]; [by rewrite decide_True|].
  rewrite (decide_False (P := a = _)) by done. rewrite existsb_in by done.
  case_bool_decide as Hin.
  { split; [done|]. rewrite decide_True by (left; by rewrite elem_of_list_to_set). f_equal. set_solver. }
  assert (Hsize : size (list_to_set (entries (cl_filter c)) : gset Z) = length (entries (cl_filter c)))
    by (by apply size_list_to_set).
  destruct (find_index _ _) as [i|] eqn:E.
  - apply find_index_Some in E as (x & Hx & Ex). apply Z.eqb_eq in Ex as <-.
    destruct (entries_split _ _ _ Hx) as [E1 E2].
    assert (Ea : entries [a] = [a]) by (unfold entries; cbn; by rewrite (proj2 (Z.eqb_neq _ _) Ha)).
    assert (Ez : entries [BT_MESH_ADDR_UNASSIGNED] = []) by done. rewrite Ez in E1. cbn [app] in E1.
    assert (Hperm : entries (<[i := a]> (cl_filter c)) ≡ₚ a :: entries (cl_filter c)).
    { rewrite E2, Ea, E1. symmetry. apply Permutation_middle. }
    split; [split|].
    + cbn. by rewrite length_insert.
    + cbn. rewrite Hperm. by constructor.
    + cbn. rewrite decide_True.
      * f_equal. apply leibniz_equiv. rewrite Hperm. set_solver.
      * right. rewrite Hsize. rewrite E1. apply lookup_lt_Some in Hx as Hlt.
        rewrite length_app. pose proof (entries_len (take i (cl_filter c))). pose proof (entries_len (drop (S i) (cl_filter c))).
        rewrite length_take in *. rewrite length_drop in *. lia.
  - split; [done|]. rewrite decide_False; [done|]. rewrite elem_of_list_to_set. intros [?|Hs]; [done|].
    rewrite Hsize in Hs. apply find_index_None in E.
    assert (entries (cl_filter c) = cl_filter c) as Hall; [|rewrite Hall in Hs; lia].
    unfold entries. apply forallb_filter_id. apply forallb_forall. intros x Hx. rewrite List.Forall_forall in E.
    apply E in Hx. rewrite Z.eqb_sym. by rewrite Hx.
Qed.

Lemma remove_wf n a c : filter_wf n c ->
  filter_wf n (filter_remove a c) /\
  filter_of (filter_remove a c) = mk_filter (cl_type c) (spec_remove (af_addrs (filter_of c)) a).
Proof.
  intros [Hl Hnd]. unfold filter_remove, spec_remove, filter_of. cbn [af_addrs].
  destruct (Z.eqb_spec a BT_MESH_ADDR_UNASSIGNED) as [->|Ha].
  { split; [done|]. f_equal. apply leibniz_equiv. intros x. rewrite elem_of_difference, elem_of_list_to_set, entries_in, elem_of_singleton.
    naive_solver. }
  destruct (find_index _ _) as [i|] eqn:E.
  - apply find_index_Some in E as (x & Hx & Ex). apply Z.eqb_eq in Ex as <-.
    destruct (entries_split _ _ _ Hx) as [E1 E2].
    assert (Ea : entries [a] = [a]) by (unfold entries; cbn; by rewrite (proj2 (Z.eqb_neq _ _) Ha)).
    assert (Ez : entries [BT_MESH_ADDR_UNASSIGNED] = []) by done. rewrite Ea in E1. specialize (E2 BT_MESH_ADDR_UNASSIGNED).
    rewrite Ez in E2. cbn [app] in E1, E2.
    assert (Hperm : entries (cl_filter c) ≡ₚ a :: entries (<[i := BT_MESH_ADDR_UNASSIGNED]> (cl_filter c))).
    { rewrite E1, E2. symmetry. apply Permutation_middle. }
    rewrite Hperm in Hnd. apply list.NoDup_cons in Hnd as [Hnin Hnd]. split; [split|].
    + cbn. by rewrite length_insert.
    + exact Hnd.
    + cbn. f_equal. apply leibniz_equiv. rewrite Hperm. set_solver.
  - split; [done|]. apply find_index_None in E. f_equal. apply leibniz_equiv. intros x.
    rewrite elem_of_difference, elem_of_list_to_set, entries_in, elem_of_singleton. split; [|tauto].
    intros [Hx Hnz]. split; [done|]. intros ->. rewrite list_elem_of_In in Hx. rewrite List.Forall_forall in E.
    apply E in Hx. by rewrite Z.eqb_refl in Hx.
Qed.

Lemma add_kind a c : cl_type (filter_add a c) = cl_type c.
Proof. unfold filter_add. by repeat (case_match || case_if). Qed.
Lemma remove_kind a c : cl_type (filter_remove a c) = cl_type c.
Proof. unfold filter_remove. by repeat (case_match || case_if). Qed.

(** Adding or removing the addresses of a message. *)
Lemma all_wf n f g (Hk : forall a c, cl_type (f a c) = cl_type c)
    (Hf : forall a c, filter_wf n c ->
      filter_wf n (f a c) /\ filter_of (f a c) = mk_filter (cl_type c) (g (af_addrs (filter_of c)) a)) buf c :
  filter_wf n c ->
  filter_wf n (filter_all f buf c) /\
  filter_of (filter_all f buf c) = mk_filter (cl_type c) (foldl g (af_addrs (filter_of c)) (addr_list buf)).
Proof.
  revert c. induction buf as [|x|x y buf IH] using list_pair_ind; intros c Hw; [by destruct c|by destruct c|].
  cbn [filter_all addr_list foldl]. destruct (Hf (sys_get_be16 [x; y]) c Hw) as [H1 H2].
  destruct (IH _ H1) as [H3 H4]. split; [done|]. by rewrite H4, H2, Hk.
Qed.

Lemma filter_set_wf n type buf c : filter_wf n c ->
  let c' := filter_set (type :: buf) c in
  filter_wf n c' /\ filter_of c' = spec_message n (CFG_FILTER_SET :: type :: buf) (filter_of c).
Proof.
  intros [Hl Hnd]. unfold spec_message. cbn [Z.eqb CFG_FILTER_SET].
  assert (Hz : forall k c', cl_filter c' = zero_filter (cl_filter c) -> cl_type c' = k ->
    filter_wf n c' /\ filter_of c' = mk_filter k ∅).
  { intros k c' E <-. unfold filter_wf, filter_of. rewrite E. unfold zero_filter. rewrite length_replicate, entries_zero.
    split; [split; [done|constructor]|done]. }
  destruct (Z.eqb_spec type 0) as [->|H0]; [by apply Hz|]. destruct (Z.eqb_spec type 1) as [->|H1]; [by apply Hz|].
  assert (filter_set (type :: buf) c = c) as ->; [|done].
  destruct type as [|[]|]; try done.
Qed.

Lemma change_wf n ch c : filter_wf n c ->
  filter_wf n (client_change ch c) /\ filter_of (client_change ch c) = spec_change n ch (filter_of c).
Proof.
  intros Hw. destruct ch as [[|op buf]|a]; cbn [client_change spec_change filter_op spec_message]; [done|..].
  - destruct (Z.eqb_spec op CFG_FILTER_SET) as [->|]; [|case_if].
    + destruct buf as [|type buf]; [done|]. by apply filter_set_wf.
    + apply all_wf; [apply add_kind|by intros; apply add_wf|done].
    + case_if; [|done]. apply all_wf; [apply remove_kind|by intros; eapply remove_wf|done].
  - unfold client_addr_add. cbn [filter_of af_kind]. destruct (cl_type c) eqn:Hk; try done.
    + rewrite <- Hk. by apply add_wf.
    + rewrite <- Hk. by apply remove_wf.
Qed.

Lemma match_spec c a : a <> BT_MESH_ADDR_UNASSIGNED -> client_filter_match c a = spec_match (filter_of c) a.
Proof.
  intros Ha. unfold client_filter_match, spec_match, filter_of. cbn.
  destruct (cl_type c); try done; rewrite existsb_in by done;
    case_bool_decide as H; (rewrite <- (elem_of_list_to_set (C := gset Z)) in H);
    [by rewrite bool_decide_true|by rewrite bool_decide_false|..]; cbn; symmetry.
  - apply bool_decide_false. tauto.
  - by apply bool_decide_true.
Qed.

(** Changes of the filter are not changes of the connection. *)
Lemma all_conn f (Hf : forall a c, cl_conn (f a c) = cl_conn c) buf c : cl_conn (filter_all f buf c) = cl_conn c.
Proof.
  revert c. induction buf as [|x|x y buf IH] using list_pair_ind; intros c; [by destruct c|by destruct c|].
  cbn [filter_all]. by rewrite IH, Hf.
Qed.
Lemma add_conn a c : cl_conn (filter_add a c) = cl_conn c.
Proof. unfold filter_add. by repeat (case_match || case_if). Qed.
Lemma remove_conn a c : cl_conn (filter_remove a c) = cl_conn c.
Proof. unfold filter_remove. by repeat (case_match || case_if). Qed.
Lemma client_conn chs c : cl_conn (foldl (fun c ch => client_change ch c) c chs) = cl_conn c.
Proof.
  revert c. induction chs as [|ch chs IH]; intros c; [done|]. cbn [foldl]. rewrite IH.
  destruct ch as [[|op buf]|a]; cbn [client_change filter_op]; [done|..].
  - case_if; [|case_if; [|case_if; [|done]]]; [|by apply all_conn, add_conn|by apply all_conn, remove_conn].
    destruct buf as [|[|[]|] buf]; done.
  - unfold client_addr_add. destruct (cl_type c); [done|apply add_conn|apply remove_conn|done].
Qed.

(** The filter of a client is a set of at most [n] addresses: after any
    sequence of configuration messages and learned addresses it holds what the
    specification says, accepts the addresses the specification accepts, and
    reports the size of the set. *)
Lemma filter_refines n chs c :
  filter_wf n c ->
  let c' := foldl (fun c ch => client_change ch c) c chs in
  let f' := foldl (fun f ch => spec_change n ch f) (filter_of c) chs in
  filter_wf n c' /\ filter_of c' = f' /\
  (forall a, a <> BT_MESH_ADDR_UNASSIGNED -> client_filter_match c' a = spec_match f' a) /\
  filter_size c' = Z.of_nat (size (af_addrs f')).
Proof.
  intros Hw. cbv zeta. revert c Hw. induction chs as [|ch chs IH]; intros c Hw; cbn [foldl].
  - split; [done|]. split; [done|]. split; [intros a Ha; by apply match_spec|].
    cbn. rewrite size_list_to_set by apply Hw. done.
  - destruct (change_wf n ch c Hw) as [H1 H2]. rewrite <- H2. by apply IH.
Qed.

(** ** The relay *)

Section relay.
Context {cfg : MeshConfig} {hal : SecHal} {nenv : NetEnv} {env : ProxyEnv}.

(** The data a notification of [conn] has room for. *)
Definition room (conn : nat) : nat := Z.to_nat (u16 (x_mtu conn - 3)) - 1.
Definition has_room (conn : nat) : Prop := 2 <= u16 (x_mtu conn - 3).

Definition targets (accepts : client -> bool) (cs : list client) : list nat :=
  omap (fun c => match cl_conn c with Some conn => if accepts c then Some conn else None | None => None end) cs.

(** The relay sends to the connections of the clients whose filter accepts the
    destination, in the order of the table. *)
Lemma segment_to conn type msg p (Q : Z -> proxy -> list proxy_event -> Prop) :
  px_svc p <> MESH_GATT_NONE -> has_room conn ->
  (forall r e, notified_to e = map (pair conn) (segments type (room conn) msg) -> Q r p e) ->
  stm_wp (proxy_segment_and_send conn type msg) Q p.
Proof.
  intros Hs Hr HQ.
  assert (Hm : u16 (x_mtu conn - 3) = Z.of_nat (S (room conn))) by (unfold has_room, room in *; lia).
  assert (Hd : (0 < room conn)%nat) by (unfold has_room, room in *; lia).
  eapply wp_mono; [exact (segment_and_send_wp conn type (room conn) msg p Hs Hm Hd)|].
  intros r p' e [-> He]. by apply HQ.
Qed.

Definition relayed (pdu : bytes) (conns : list nat) : list (nat * bytes) :=
  concat (map (fun conn => map (pair conn) (segments BT_MESH_PROXY_NET_PDU (room conn) pdu)) conns).

(** Each connection belongs to one client. *)
Definition conns_distinct (cs : list client) : Prop :=
  forall i j conn c c', cs !! i = Some c -> cs !! j = Some c' -> cl_conn c = Some conn -> cl_conn c' = Some conn -> i = j.

Lemma find_client_unique p i c conn :
  conns_distinct (px_clients p) -> px_clients p !! i = Some c -> cl_conn c = Some conn -> find_client conn p = Some i.
Proof.
  intros Hd Hi Hc. unfold find_client.
  destruct (find_index (fun c => bool_decide (cl_conn c = Some conn)) (px_clients p)) as [j|] eqn:E.
  - apply find_index_Some in E as (c' & Hj & Hp). apply bool_decide_eq_true in Hp. f_equal. by eapply Hd.
  - apply find_index_None in E. rewrite List.Forall_forall in E.
    assert (Hin : In c (px_clients p)) by (by apply list_elem_of_In, list_elem_of_lookup_2 with i).
    apply E in Hin. rewrite bool_decide_true in Hin; done.
Qed.

Lemma relay_clients_wp pdu dst k cs p :
  px_svc p <> MESH_GATT_NONE -> conns_distinct (px_clients p) ->
  (forall j c, cs !! j = Some c -> px_clients p !! (k + j)%nat = Some c) ->
  Forall has_room (targets (fun c => client_filter_match c dst) cs) ->
  stm_wp (relay_clients k cs pdu dst) (fun r p' e => p' = p /\
    r = negb (bool_decide (targets (fun c => client_filter_match c dst) cs = [])) /\
    notified_to e = relayed pdu (targets (fun c => client_filter_match c dst) cs)) p.
Proof.
  intros Hs Hd. revert k. induction cs as [|c cs IH]; intros k Hcs Hroom; cbn [relay_clients]; [by wp_steps|].
  unfold targets in *. cbn [omap list_omap] in *.
  assert (Hrest : forall j c', cs !! j = Some c' -> px_clients p !! (S k + j)%nat = Some c')
    by (intros j c' Hj; rewrite <- (Hcs (S j) c' Hj); f_equal; lia).
  destruct (cl_conn c) as [conn|] eqn:Hconn; [|by apply IH].
  destruct (client_filter_match c dst) eqn:Hm; [|by apply IH]. inversion Hroom as [|? ? Hr Hroom']; subst.
  wp_steps. assert (Hk : px_clients p !! k = Some c) by (rewrite <- (Hcs 0%nat c eq_refl); f_equal; lia).
  unfold bt_mesh_proxy_send. wp_steps. rewrite (find_client_unique p k c conn Hd Hk Hconn). wp_steps.
  unfold get_client. wp_steps. eapply wp_of_option; [exact Hk|].
  assert (Hkind : bool_decide (cl_type c = FProv) = false).
  { apply bool_decide_false. intros E. unfold client_filter_match in Hm. by rewrite E in Hm. }
  rewrite Hkind. change (BT_MESH_PROXY_NET_PDU =? BT_MESH_PROXY_PROV) with false. cbn [Bool.eqb].
  apply segment_to; [done|done|]. intros r e He. wp_steps.
  eapply wp_mono; [by apply IH|]. intros r' p' e' (-> & _ & He'). wp_steps.
  split; [done|]. split; [done|]. cbn [app]. by rewrite !app_nil_r, notified_to_app, He, He'.
Qed.
End relay.

(** C11: the GATT proxy forwards what its clients asked for. After any sequence of
    configuration messages and learned addresses for each of its clients, the
    relay of a network PDU notifies, in the order of the clients, exactly those
    connected clients whose address filter, the set that the specification of
    the filter yields, accepts the destination, and tells whether there is one. *)
Theorem proxy_relay_filtered {cfg : MeshConfig} {hal : SecHal} {nenv : NetEnv} {env : ProxyEnv}
    (n : nat) (chs : list (list filter_change)) (pdu : bytes) (dst : Z) (p0 p : proxy) :
  Forall (filter_wf n) (px_clients p0) -> conns_distinct (px_clients p) -> px_svc p <> MESH_GATT_NONE ->
  px_clients p = zip_with (fun c ch => foldl (fun c ch => client_change ch c) c ch) (px_clients p0) chs ->
  length chs = length (px_clients p0) -> (length pdu <= 31)%nat -> dst <> BT_MESH_ADDR_UNASSIGNED ->
  Forall has_room (omap cl_conn (px_clients p)) ->
  let accepting := omap (fun '(c, ch) =>
    if spec_match (foldl (fun f ch => spec_change n ch f) (filter_of c) ch) dst then cl_conn c else None)
    (zip (px_clients p0) chs) in
  exists e, bt_mesh_proxy_relay pdu dst p = Some (negb (bool_decide (accepting = [])), p, e) /\
    notified_to e = relayed pdu accepting.
Proof.
  intros Hw Hd Hs Hp Hlen Hpdu Hdst Hroom accepting.
  set (accepts := fun c => client_filter_match c dst).
  assert (Hacc : accepting = targets accepts (px_clients p)).
  { rewrite Hp. subst accepting. clear Hp Hd Hs Hroom. revert chs Hlen.
    induction (px_clients p0) as [|c cs IH]; intros [|ch chs] Hlen; try done. inversion Hw as [|? ? Hc Hw']; subst.
    destruct (filter_refines n ch c Hc) as (_ & _ & Hmatch & _). unfold targets. cbn. rewrite client_conn.
    unfold accepts at 1. rewrite Hmatch by done. fold (targets accepts).
    injection Hlen as Hlen. specialize (IH Hw' chs Hlen). unfold targets in IH. rewrite <- IH.
    destruct (cl_conn c), (spec_match _ dst); done. }
  unfold bt_mesh_proxy_relay. rewrite (stm_bind_pure _ _ _ _ _ eq_refl). rewrite decide_False by lia.
  assert (Hr : Forall has_room (targets accepts (px_clients p))).
  { clear -Hroom. induction (px_clients p) as [|c cs IH]; [constructor|]. unfold targets in *. cbn in *.
    destruct (cl_conn c) as [conn|]; [|by apply IH]. inversion Hroom; subst. case_if; [constructor|]; auto. }
  destruct (wp_inv _ _ _ (relay_clients_wp pdu dst 0 (px_clients p) p Hs Hd (fun _ _ H => H) Hr))
    as (r & p' & e & E & -> & -> & He). exists e. rewrite Hacc. done.
Qed.

(** ** The advertising *)

Section adv.
Context {cfg : MeshConfig} {hal : SecHal} {halok : SecHalOk hal} {nenv : NetEnv} {env : ProxyEnv}.

Definition is_running (s : subnet) : bool := sub_node_id s =? BT_MESH_NODE_IDENTITY_RUNNING.
(** The subnets that still advertise the identity of the node. *)
Definition running (p : proxy) : nat := length (List.filter is_running (subs (px_net p))).

(** The identity keys are keys, and the random number generator fills eight bytes. *)
Definition keys_ok (p : proxy) : Prop :=
  Forall (fun s => is_block (k_identity (sub_key0 s)) /\ is_block (k_identity (sub_key1 s))) (subs (px_net p)).
Definition rand_ok : Prop := match x_rand with inl r => length r = 8%nat /\ is_bytes r | inr _ => True end.

(** Forever, or for some time that is no longer than a minute. *)
Definition adv_time (t : Z) : Prop := t = K_FOREVER \/ 0 < t <= NODE_ID_TIMEOUT.

Lemma adv_slice_time count t : adv_time t -> adv_time (adv_slice count t).
Proof.
  intros Ht. unfold adv_slice. case_if; [|done]. apply Z.ltb_lt in Heqb. cbv zeta.
  unfold adv_time in *. change NODE_ID_TIMEOUT with 60000 in *. change (K_SECONDS 1) with 1000.
  assert (0 <= 60000 / Z.max count 6 <= 60000)
    by (split; [apply Z.div_pos; lia|apply Z.div_le_upper_bound; lia]).
  assert (Hslice : 0 < Z.max (60000 / Z.max count 6) 1000 <= 60000) by lia.
  case_if; [by right|]. destruct Ht as [->|Ht]; [|by right]. apply orb_false_iff in Heqb0 as [_ H0]. done.
Qed.

Lemma adv_with_wp kind p (Q : Z -> proxy -> list proxy_event -> Prop) :
  (forall r p' e, px_net p' = px_net p -> px_conns p' = px_conns p -> Q r p' e) -> stm_wp (adv_with kind) Q p.
Proof. intros HQ. unfold adv_with. wp_steps. case_if; wp_steps; by apply HQ. Qed.

Lemma node_id_adv_wp s p (Q : Z -> proxy -> list proxy_event -> Prop) :
  is_block (k_identity (sub_key0 s)) -> is_block (k_identity (sub_key1 s)) -> rand_ok ->
  (forall r p' e, px_net p' = px_net p -> px_conns p' = px_conns p -> Q r p' e) -> stm_wp (node_id_adv s) Q p.
Proof.
  intros H0 H1 Hr HQ. unfold node_id_adv, put_svc_data. wp_steps. unfold rand_ok in Hr.
  destruct x_rand as [rand|err]; wp_steps; [|by apply HQ]. destruct Hr as [Hlen Hb].
  unfold identity_hash, sub_keys.
  assert (Hblock : is_block (replicate 6 0 ++ rand ++ sys_put_be16 x_primary)).
  { split; [rewrite !length_app, Hlen; done|]. apply is_bytes_app. split; [by repeat constructor|]. apply is_bytes_app. split; [done|apply sys_put_be16_bytes]. }
  rewrite aes_encrypt_ok; [|by destruct (sub_kr_flag s)|done]. ok_simpl. wp_steps.
  apply adv_with_wp. intros r p' e Hn Hc. by apply HQ.
Qed.

Lemma next_sub_wp p (Q : option nat -> proxy -> list proxy_event -> Prop) :
  (forall o p' e, px_net p' = px_net p -> px_conns p' = px_conns p ->
     (forall i, o = Some i -> exists s, subs (px_net p) !! i = Some s /\ advertise_subnet s = true) -> Q o p' e) ->
  stm_wp next_sub Q p.
Proof.
  intros HQ. unfold next_sub. wp_steps. destruct (List.find _ _) as [i|] eqn:E; wp_steps; apply HQ; try done.
  intros ? [= <-]. apply List.find_some in E as [_ E]. unfold is_advertised in E.
  destruct (subs (px_net p) !! i) as [s|]; [by exists s|done].
Qed.

Lemma stop_running l i s : l !! i = Some s -> is_running s = true ->
  (length (List.filter is_running (alter identity_stop i l)) < length (List.filter is_running l))%nat.
Proof.
  revert i. induction l as [|x l IH]; intros [|i]; try done; cbn.
  - intros [= ->] Hr. rewrite Hr. change (is_running (identity_stop s)) with false. cbn. lia.
  - intros Hi Hr. change (list_alter identity_stop i l) with (alter identity_stop i l).
    specialize (IH i Hi Hr). destruct (is_running x); cbn; lia.
Qed.

Lemma stop_keys p i : keys_ok p -> keys_ok (p <| px_net := set_sub (px_net p) i identity_stop |>).
Proof. intros H. unfold keys_ok. cbn. apply Forall_alter; [done|]. by intros s Hs. Qed.

(** What [gatt_proxy_advertise] is called with. *)
Definition adv_sub_ok (p : proxy) (o : option nat) : Prop :=
  match o with
  | Some i => exists s, subs (px_net p) !! i = Some s /\ (gatt_proxy_get = BT_MESH_GATT_PROXY_ENABLED \/ is_running s = true)
  | None => True
  end.

Lemma advertise_wp fuel o p :
  (running p < fuel)%nat -> keys_ok p -> rand_ok -> adv_sub_ok p o ->
  stm_wp (gatt_proxy_advertise fuel o) (fun t _ _ => adv_time t) p.
Proof.
  revert o p. induction fuel as [|fuel IH]; intros o p Hf Hk Hr Ho; [lia|]. cbn [gatt_proxy_advertise].
  wp_steps. case_if; [wp_steps; by left|]. destruct o as [i|]; [|wp_steps; by left]. destruct Ho as (s & Hi & Hs).
  wp_steps. eapply wp_of_option; [exact Hi|]. wp_steps.
  destruct (Forall_lookup_1 _ _ _ _ Hk Hi) as [Hk0 Hk1].
  case_if.
  - cbv zeta. case_if; wp_steps.
    + apply node_id_adv_wp; [done|done|done|]. intros r p' e Hn Hc. wp_steps. rewrite Hn.
      eapply wp_of_option; [exact Hi|]. apply Z.eqb_eq in Heqb0. rewrite Heqb0. wp_steps. apply adv_slice_time.
      right. apply Z.ltb_lt in Heqb1. change NODE_ID_TIMEOUT with 60000 in *.
      generalize dependent (x_now_32 - sub_node_id_start s). intros t Ht. clear -Ht. word_lia.
    + unfold bt_mesh_proxy_identity_stop. wp_steps.
      set (p1 := p <| px_net := set_sub (px_net p) i identity_stop |>).
      assert (Hi1 : subs (px_net p1) !! i = Some (identity_stop s)) by (cbn; by rewrite list_lookup_alter_eq, Hi).
      eapply wp_of_option; [exact Hi1|]. cbn [sub_node_id identity_stop update_field].
      change (BT_MESH_NODE_IDENTITY_STOPPED =? BT_MESH_NODE_IDENTITY_STOPPED) with true. cbv iota. case_if.
      * wp_steps. unfold net_id_adv, put_svc_data. wp_steps. apply adv_with_wp. intros r p' e Hn Hc. wp_steps.
        apply adv_slice_time. by left.
      * wp_steps. apply next_sub_wp. intros o p' e Hn Hc Ho. assert (Hnext : stm_wp (gatt_proxy_advertise fuel o) (fun t _ _ => adv_time t) p').
        { apply IH; [|by unfold keys_ok; rewrite Hn; apply stop_keys|done|].
          - unfold running. rewrite Hn. pose proof (stop_running (subs (px_net p)) i s Hi Heqb0). unfold running in Hf.
            cbn. lia.
          - destruct o as [j|]; [|done]. destruct (Ho j eq_refl) as (s' & Hj & Ha). exists s'. rewrite Hn.
            split; [done|]. right. apply andb_prop in Ha as [_ Ha]. by rewrite Heqb2, orb_false_r in Ha. }
        eapply wp_mono; [exact Hnext|done].
  - destruct Hs as [Hs|Hs]; [|unfold is_running in Hs; congruence]. rewrite Hs. wp_steps. eapply wp_of_option; [exact Hi|]. case_if.
    + change (BT_MESH_GATT_PROXY_ENABLED =? BT_MESH_GATT_PROXY_ENABLED) with true. cbv iota. wp_steps.
      unfold net_id_adv, put_svc_data. wp_steps. apply adv_with_wp. intros r p' e Hn Hc. wp_steps.
      apply adv_slice_time. by left.
    + wp_steps. apply adv_slice_time. by left.
Qed.
End adv.

(** C24: starting the advertising returns, though [gatt_proxy_advertise] calls itself
    for the next subnet whenever the identity of one has expired: the thread is
    given a time to wait that is forever or between a millisecond and a minute. *)
Theorem adv_start_returns {hal : SecHal} {halok : SecHalOk hal} {nenv : NetEnv} {env : ProxyEnv}
    (p : proxy) :
  keys_ok p -> rand_ok ->
  exists t p' e, bt_mesh_proxy_adv_start p = Some (t, p', e) /\ adv_time t.
Proof.
  intros Hk Hr.
  assert (H : stm_wp bt_mesh_proxy_adv_start (fun t _ _ => adv_time t) p).
  { unfold bt_mesh_proxy_adv_start. wp_steps. destruct (decide _); [wp_steps; by left|]. cbv zeta.
    assert (Hrest : forall p', px_net p' = px_net p -> stm_wp (if x_provisioned then
        next <- next_sub ;; p <- stm_get ;; gatt_proxy_advertise (S (S (length (subs (px_net p))))) next
      else mret (if x_prov_active then K_SECONDS 10 else K_SECONDS 30)) (fun t _ _ => adv_time t) p').
    { intros p' Hn. case_if; [|wp_steps; right; by case_if]. wp_steps. apply next_sub_wp. intros o p2 e Hn2 Hc Ho.
      wp_steps. apply advertise_wp.
      - unfold running. pose proof (List.filter_length_le is_running (subs (px_net p2))). lia.
      - unfold keys_ok. by rewrite Hn2, Hn.
      - done.
      - destruct o as [i|]; [|done]. destruct (Ho i eq_refl) as (s & Hi & Ha). exists s. rewrite Hn2. split; [done|].
        apply andb_prop in Ha as [_ Ha]. apply orb_true_iff in Ha as [Ha|Ha]; [by right|left]. by apply Z.eqb_eq. }
    case_if; [|by apply Hrest]. wp_steps. apply adv_with_wp. intros r p' e Hn Hc. case_if; wp_steps; [by right|].
    eapply wp_mono; [by apply Hrest|done]. }
  destruct (wp_inv _ _ _ H) as (t & p' & e & E & Ht). by exists t, p', e.
Qed.

(** ** A proxy with two clients *)

Definition sample_proxy_env : ProxyEnv :=
  {| x_primary := 1; x_mtu := fun _ => 23; x_notify := fun _ _ => 0; x_provisioned := true; x_prov_active := false;
     x_now_32 := 1000; x_adv_start := fun _ => 0; x_adv_stop := 0; x_rand := inl (replicate 8 7);
     x_stack_rx := mk_rx 0 (mk_ctx 0 0 0 0 0 false) 0 0 false false false false IF_PROXY_CFG false false 0;
     MAX_CONN := 2; FILTER_SIZE := 3; x_checked_board := false |}.
Definition sample_proxy_net_env : NetEnv :=
  {| elem_find := fun _ => false; fixed_group_match := fun _ => false; relay_get := 0; gatt_proxy_get := 0;
     relay_retransmit_get := 0; net_transmit_get := 0; default_ttl_get := 7; proxy_relay := fun _ _ => false;
     adv_available := true |}.
Notation sample_run ops p :=
  (match proxy_run (cfg := proxy_friend_config) (hal := sw_hal) (nenv := sample_proxy_net_env)
     (env := sample_proxy_env) ops p with Some (_, p', _) => p' | None => p end).
(** Two subnets, the first advertising the identity of the node for too long. *)
Definition sample_proxy_net : mesh_net := (bt_mesh_init_state 1) <| subs :=
  [((unused_subnet <| sub_net_idx := 0 |>) <| sub_node_id := BT_MESH_NODE_IDENTITY_RUNNING |>)
     <| sub_node_id_start := 2 ^ 32 - 60000 |>;
   (unused_subnet <| sub_net_idx := 1 |>) <| sub_node_id := BT_MESH_NODE_IDENTITY_RUNNING |>] |>.
Definition sample_clients : list proxy_op :=
  [OpService MESH_GATT_PROXY true; OpConnected 7; OpConnected 9; OpProxyCcc 7 [1; 0]; OpProxyCcc 9 [1; 0]].
Definition two_clients : proxy :=
  Eval vm_compute in sample_run sample_clients (proxy_zero (env := sample_proxy_env) sample_proxy_net).

Lemma two_clients_is :
  two_clients = sample_run sample_clients (proxy_zero (env := sample_proxy_env) sample_proxy_net).
Proof. vm_compute. reflexivity. Qed.

Definition sample_msg : bytes := map Z.of_nat (seq 1 29).

Lemma proxy_sar_witness :
  exists r e, proxy_segment_and_send (env := sample_proxy_env) 9 BT_MESH_PROXY_NET_PDU sample_msg two_clients =
      Some (r, two_clients, e) /\
    recv_all (cfg := proxy_friend_config) (nenv := sample_proxy_net_env) (env := sample_proxy_env) 7 false
      (notified e) two_clients = Some (tt, with_buf 0 0 [] two_clients, [PNetRecv 0 sample_msg]).
Proof.
  destruct (proxy_sar (cfg := proxy_friend_config) (nenv := sample_proxy_net_env) sample_proxy_env sample_proxy_env
    9 BT_MESH_PROXY_NET_PDU sample_msg 19 two_clients 7 0
    (mk_client (Some 7%nat) [0; 0; 0] FWhite 0 []) two_clients) as (r & e & H1 & H2);
    [discriminate|reflexivity|lia|done|cbn; unfold CLIENT_BUF_SIZE; lia|reflexivity..|].
  exists r, e. split; [exact H1|]. etransitivity; [exact H2|]. vm_compute. reflexivity.
Defined.

(** A message that fills two notifications is not completed. *)
Example full_notifications_stay :
  exists r e, proxy_segment_and_send (env := sample_proxy_env) 9 BT_MESH_PROXY_NET_PDU (replicate 38 5) two_clients =
      Some (r, two_clients, e) /\ length (notified e) = 2%nat /\
    recv_all (cfg := proxy_friend_config) (nenv := sample_proxy_net_env) (env := sample_proxy_env) 7 false
      (notified e) two_clients = Some (tt, with_buf 0 0 (replicate 38 5) two_clients, []).
Proof. eexists _, _. split; [vm_compute; reflexivity|]. split; vm_compute; reflexivity. Qed.

(** Client 7 asks for a blacklist with one address, client 9 sends from 0x21. *)
Definition sample_changes : list (list filter_change) :=
  [[ByMessage [0; 1]; ByMessage [1; 0xc0; 0x00]]; [Learned 0x21]].
Definition filtered_clients : proxy :=
  two_clients <| px_clients := zip_with (fun c ch => foldl (fun c ch => client_change ch c) c ch)
    (px_clients two_clients) sample_changes |>.

Lemma proxy_relay_filtered_witness :
  exists e, bt_mesh_proxy_relay (env := sample_proxy_env) sample_msg 0x21 filtered_clients =
      Some (true, filtered_clients, e) /\
    notified_to e = relayed (env := sample_proxy_env) sample_msg [7; 9]%nat.
Proof.
  apply (proxy_relay_filtered (cfg := proxy_friend_config) (hal := sw_hal) (nenv := sample_proxy_net_env)
    (env := sample_proxy_env) 3 sample_changes sample_msg 0x21 two_clients filtered_clients).
  - repeat constructor.
  - intros [|[|i]] [|[|j]] conn c c' Hi Hj; try discriminate; injection Hi as <-; injection Hj as <-; intros H1 H2; vm_compute in H1, H2; congruence.
  - discriminate.
  - reflexivity.
  - reflexivity.
  - cbn. lia.
  - discriminate.
  - repeat constructor; vm_compute; discriminate.
Defined.

Lemma adv_start_returns_witness :
  exists t p' e, bt_mesh_proxy_adv_start (hal := sw_hal)
    (nenv := sample_proxy_net_env) (env := sample_proxy_env) two_clients = Some (t, p', e) /\ adv_time t.
Proof.
  apply (adv_start_returns (hal := sw_hal) (halok := sw_hal_ok)
    (nenv := sample_proxy_net_env) (env := sample_proxy_env) two_clients).
  - repeat constructor; vm_compute; discriminate.
  - split; [reflexivity|]. repeat constructor; vm_compute; discriminate.
Defined.

(** A configuration PDU of 30 bytes overruns the buffer of 29 it is decrypted
    in, as soon as its NID is one of the node's. *)
Theorem long_config_pdu_overruns :
  proxy_recv (cfg := proxy_friend_config) (hal := sw_hal) (nenv := sample_proxy_net_env) (env := sample_proxy_env)
    7 false (PDU_HDR SAR_COMPLETE BT_MESH_PROXY_CONFIG :: replicate 30 0) two_clients = None.
Proof. vm_compute. reflexivity. Qed.
