(* ===== verification/PbAdv.v ===== *)
(** * The PB-ADV bearer (bt_mesh/src/prov.c, provisioner_prov.c)

    Links, transactions with their segments, acknowledgements and
    retransmissions, as far as the device and the provisioner share them. The
    two files hold copies of one text with a few differences, which the
    parameter [prov_role] selects. *)

From S2P Require Import Prelude NetBuf NetPool Ccm MeshCrypto Adv Beacon.

(** ** Data *)

Inductive prov_role := Device | Provisioner.
#[export] Instance prov_role_dec : EqDecision prov_role.
Proof. solve_decision. Defined.

(** Build options; by default [PB_GATT] and [OLD_AUTH] are set. *)
Class ProvConfig := { PB_GATT : bool; OLD_AUTH : bool; NO_OOB : bool }.
Definition default_prov_config : ProvConfig := {| PB_GATT := true; OLD_AUTH := true; NO_OOB := false |}.

Definition E2BIG : Z := 7.

Definition PROV_XMIT_INT_ADV : Z := 20.
Definition PROV_ERR_NONE : Z := 0x00.
Definition PROV_ERR_NVAL_PDU : Z := 0x01.
Definition PROV_ERR_NVAL_FMT : Z := 0x02.
Definition PROV_ERR_UNEXP_PDU : Z := 0x03.
Definition PROV_ERR_CFM_FAILED : Z := 0x04.
Definition PROV_ERR_RESOURCES : Z := 0x05.
Definition PROV_ERR_DECRYPT : Z := 0x06.
Definition PROV_ERR_UNEXP_ERR : Z := 0x07.

Definition PROV_INVITE : Z := 0x00.
Definition PROV_CAPABILITIES : Z := 0x01.
Definition PROV_START : Z := 0x02.
Definition PROV_PUB_KEY : Z := 0x03.
Definition PROV_INPUT_COMPLETE : Z := 0x04.
Definition PROV_CONFIRM : Z := 0x05.
Definition PROV_RANDOM : Z := 0x06.
Definition PROV_DATA : Z := 0x07.
Definition PROV_COMPLETE : Z := 0x08.
Definition PROV_FAILED : Z := 0x09.

Definition GPCF (gpc : Z) : Z := Z.land gpc 0x03.
Definition GPC_START (last_seg : Z) : Z := Z.lor (Z.shiftl last_seg 2) 0x00.
Definition GPC_ACK : Z := 0x01.
Definition GPC_CONT (seg_id : Z) : Z := Z.lor (Z.shiftl seg_id 2) 0x02.
Definition GPC_CTL (op : Z) : Z := Z.lor (Z.shiftl op 2) 0x03.
(** [START_LAST_SEG], [CONT_SEG_INDEX] and [BEARER_CTL]. *)
Definition GPC_PARAM (gpc : Z) : Z := Z.shiftr gpc 2.

Definition START_PAYLOAD_MAX : nat := 20.
Definition CONT_PAYLOAD_MAX : nat := 23.
Definition LINK_OPEN : Z := 0x00.
Definition LINK_ACK : Z := 0x01.
Definition LINK_CLOSE : Z := 0x02.
Definition CLOSE_REASON_SUCCESS : Z := 0x00.
Definition CLOSE_REASON_FAILED : Z := 0x02.
Definition XACT_NVAL : Z := 0xff.
Definition RETRANSMIT_TIMEOUT : Z := 500.
Definition TRANSACTION_TIMEOUT : Z := K_SECONDS 30.
(** [ARRAY_SIZE(link.tx.buf)]. *)
Definition TX_BUFS : nat := 3.
Definition ADV_DATA_SIZE : nat := 29.

(** [struct prov_link] of the provisioner, of which the device's is a part; the
    flags are spelled out. [pl_rx_buf] is whether [rx.buf] points to the static
    buffer, [pl_retransmit] whether the retransmit work has its handler. *)
Record prov_link := mk_link {
  pl_remote_pub_key : bool;
  pl_local_pub_key : bool;
  pl_active : bool;
  pl_wait_gen_dhkey : bool;
  pl_have_dhkey : bool;
  pl_send_confirm : bool;
  pl_wait_number : bool;
  pl_wait_string : bool;
  pl_conn : option nat;
  pl_uuid : bytes;
  pl_dhkey : bytes;
  pl_expect : Z;
  pl_element_num : Z;
  pl_oob_method : Z;
  pl_oob_action : Z;
  pl_oob_size : Z;
  pl_conf : bytes;
  pl_rand : bytes;
  pl_auth : bytes;
  pl_conf_salt : bytes;
  pl_conf_key : bytes;
  pl_conf_inputs : bytes;
  pl_prov_salt : bytes;
  pl_local_conf : bytes;
  pl_assign_addr : Z;
  pl_unicast_addr : Z;
  pl_ki_flags : Z;
  pl_iv_index : Z;
  pl_id : Z;
  pl_send_link_close : Z;
  pl_expect_ack_for : Z;
  pl_rx_id : Z;
  pl_rx_prev_id : Z;
  pl_rx_seg : Z;
  pl_rx_last_seg : Z;
  pl_rx_fcs : Z;
  pl_rx_buf : bool;
  pl_tx_start : Z;
  pl_tx_id : Z;
  pl_tx_buf : list nat;
  pl_retransmit : bool
}.
#[export] Instance prov_link_settable : Settable prov_link.
Proof.
  settable (fun l => mk_link (pl_remote_pub_key l) (pl_local_pub_key l) (pl_active l)
    (pl_wait_gen_dhkey l) (pl_have_dhkey l) (pl_send_confirm l) (pl_wait_number l) (pl_wait_string l)
    (pl_conn l) (pl_uuid l) (pl_dhkey l) (pl_expect l) (pl_element_num l) (pl_oob_method l)
    (pl_oob_action l) (pl_oob_size l) (pl_conf l) (pl_rand l) (pl_auth l) (pl_conf_salt l)
    (pl_conf_key l) (pl_conf_inputs l) (pl_prov_salt l) (pl_local_conf l) (pl_assign_addr l)
    (pl_unicast_addr l) (pl_ki_flags l) (pl_iv_index l) (pl_id l) (pl_send_link_close l)
    (pl_expect_ack_for l) (pl_rx_id l) (pl_rx_prev_id l) (pl_rx_seg l) (pl_rx_last_seg l)
    (pl_rx_fcs l) (pl_rx_buf l) (pl_tx_start l) (pl_tx_id l) (pl_tx_buf l) (pl_retransmit l)).
Defined.

Definition zero_link : prov_link :=
  mk_link false false false false false false false false None (replicate 16 0) (replicate 32 0)
    0 0 0 0 0 (replicate 16 0) (replicate 16 0) (replicate 16 0) (replicate 16 0) (replicate 16 0)
    (replicate 145 0) (replicate 16 0) (replicate 16 0) 0 0 0 0 0 0 0 0 0 0 0 0 false 0 0 [] false.

(** The callbacks of the buffers sent: [buf_sent_cb], and that of an
    acknowledgement ([ack_complete]). *)
Inductive prov_cb := CbBufSent | CbAck.

(** What the provisioner keeps besides the link ([struct bt_mesh_prov_ctx] and
    [mesh_nodes]; the UUID, unicast address and number of elements of a node). *)
Record mesh_node := mk_node { mn_uuid : bytes; mn_addr : Z; mn_elems : Z }.
Record prov_ctx := mk_ctx_prov {
  pc_curr_alloc_addr : Z;
  pc_curr_net_idx : Z;
  pc_curr_flags : Z;
  pc_curr_iv_index : Z;
  pc_static_oob_len : Z;
  pc_nodes : list mesh_node
}.
#[export] Instance prov_ctx_settable : Settable prov_ctx.
Proof.
  settable (fun c => mk_ctx_prov (pc_curr_alloc_addr c) (pc_curr_net_idx c) (pc_curr_flags c)
    (pc_curr_iv_index c) (pc_static_oob_len c) (pc_nodes c)).
Defined.

(** The static data: the link, the receive buffer, [pending_ack], the
    advertising buffers with their queue, and the context of the provisioner. *)
Record prov_state := mk_prov_state {
  ps_link : prov_link;
  ps_rx : net_buf_simple;
  ps_pending_ack : Z;
  ps_adv : adv prov_cb;
  ps_sending : option (option prov_cb);
  ps_ctx : prov_ctx
}.
#[export] Instance prov_state_settable : Settable prov_state.
Proof.
  settable (fun s => mk_prov_state (ps_link s) (ps_rx s) (ps_pending_ack s) (ps_adv s)
    (ps_sending s) (ps_ctx s)).
Defined.

Inductive prov_event :=
| PvAdv (data : bytes)
| PvGattSend (conn : nat) (data : bytes)
| PvRetransmit (delay : Z)
| PvRetransmitCancel
| PvAttention (time : Z)
| PvLinkOpen (gatt : bool)
| PvLinkClose (gatt : bool)
| PvConnUnref (conn : nat)
| PvProvStart (link_id : option Z)
| PvProvData (addr : Z)
| PvDhKeyGen (remote_pk : bytes)
| PvProvision (net_key : bytes) (net_idx flags iv_index addr : Z) (dev_key : bytes)
| PvBearer (e : adv_effect prov_cb).

Abbreviation L := (stm prov_state prov_event).

(** What the application, the host and the security HAL answer. *)
Class ProvEnv := {
  pe_now : Z;
  (** The context of the application, [prov]. *)
  pe_uuid : bytes;
  pe_static_val : option bytes;
  pe_public_key_type : Z;
  pe_output_size : Z;
  pe_output_actions : Z;
  pe_input_size : Z;
  pe_input_actions : Z;
  pe_elem_count : Z;
  pe_provisioned : bool;
  (** [bt_mesh_pub_key_get], [bt_mesh_rand], [bt_mesh_dh_key_gen]. *)
  pe_pub_key : option bytes;
  pe_rand : nat -> option bytes;
  pe_dh_key_gen : bytes -> Z;
  (** [genie_tri_tuple_get_auth], of the random value unless [OLD_AUTH]. *)
  pe_auth : bytes -> bytes;
  pe_proxy_send : nat -> bytes -> Z;
  pe_adv_int_min : Z;
  (** Of the provisioner: [prov->prov_algorithm], whether the OOB callbacks are
      set, what they return, and the network keys ([bt_mesh.p_sub]). *)
  pe_algorithm : Z;
  pe_pub_key_oob : bool;
  pe_pub_key_oob_cb : Z;
  pe_input_num : bool;
  pe_output_num : bool;
  pe_net_key : Z -> option bytes
}.

Section pbadv.
Context {pcfg : ProvConfig} {env : ProvEnv}.

Definition get_link : L prov_link := s <- stm_get ;; mret (ps_link s).
Definition mod_link (f : prov_link -> prov_link) : L unit :=
  stm_modify (fun s => s <| ps_link := f (ps_link s) |>).
Definition mod_adv (f : adv prov_cb -> adv prov_cb) : L unit :=
  stm_modify (fun s => s <| ps_adv := f (ps_adv s) |>).
(** [net_buf_simple_init(link.rx.buf, 0)]; a null pointer is undefined. *)
Definition init_rx : L unit :=
  l <- get_link ;;
  if pl_rx_buf l then stm_modify (fun s => s <| ps_rx := net_buf_simple_init (ps_rx s) 0 |>)
  else stm_undef.

(** ** Advertising buffers *)

(** Called when a buffer has been sent. *)
Definition buf_sent : L unit :=
  l <- get_link ;;
  match pl_tx_buf l with [] => mret tt | _ => stm_emit [PvRetransmit RETRANSMIT_TIMEOUT] end.

Fixpoint cancel_bufs (ids : list nat) : L unit :=
  match ids with
  | [] => mret tt
  | id :: ids =>
      mod_adv (fun a => av_unref id (av_update (fun b => b <| ab_busy := false |>) id a)) ;;
      cancel_bufs ids
  end.
Definition free_segments : L unit :=
  l <- get_link ;;
  mod_link (fun l => l <| pl_tx_buf := [] |>) ;;
  cancel_bufs (pl_tx_buf l).

Definition prov_clear_tx : L unit := stm_emit [PvRetransmitCancel] ;; free_segments.

Definition adv_buf_create : L (option nat) :=
  s <- stm_get ;;
  match bt_mesh_adv_create_from_pool BT_MESH_ADV_PROV 0 PROV_XMIT_INT_ADV (ps_adv s) with
  | None => mret None
  | Some (id, a) => stm_modify (fun s => s <| ps_adv := a |>) ;; mret (Some id)
  end.

(** The [net_buf_add] calls that fill a new buffer. *)
Definition adv_fill (id : nat) (data : bytes) : L unit :=
  if decide (ADV_DATA_SIZE < length data)%nat then stm_undef
  else mod_adv (av_update (fun b => b <| ab_data := data |>) id).

Definition adv_send_pdu (id : nat) (cb : option prov_cb) : L unit :=
  s <- stm_get ;;
  b <- stm_of_option (av_buf (ps_adv s) id) ;;
  mod_adv (bt_mesh_adv_send id cb) ;;
  stm_emit [PvAdv (ab_data b)].

(** The header of every PB-ADV PDU: link, transaction, control. *)
Definition pb_header (id xact gpc : Z) : bytes := sys_put_be32 id ++ [u8 xact; u8 gpc].

(** ** Sending *)

Definition ack_complete : L unit := stm_modify (fun s => s <| ps_pending_ack := XACT_NVAL |>).

Definition gen_prov_ack_send (xact_id : Z) : L unit :=
  s <- stm_get ;;
  if ps_pending_ack s =? xact_id then mret tt
  else
    buf <- adv_buf_create ;;
    match buf with
    | None => mret tt
    | Some id =>
        let first := ps_pending_ack s =? XACT_NVAL in
        (if first then stm_modify (fun s => s <| ps_pending_ack := xact_id |>) else mret tt) ;;
        adv_fill id (pb_header (pl_id (ps_link s)) xact_id GPC_ACK) ;;
        adv_send_pdu id (if first then Some CbAck else None) ;;
        mod_adv (av_unref id)
    end.

Fixpoint send_bufs (ids : list nat) : L unit :=
  match ids with
  | [] => mret tt
  | [id] => adv_send_pdu id (Some CbBufSent)
  | id :: ids => adv_send_pdu id None ;; send_bufs ids
  end.
Definition send_reliable : L unit :=
  mod_link (fun l => l <| pl_tx_start := pe_now |>) ;;
  l <- get_link ;;
  send_bufs (pl_tx_buf l).

Definition bearer_ctl_send (role : prov_role) (op : Z) (data : bytes) : L Z :=
  prov_clear_tx ;;
  buf <- adv_buf_create ;;
  match buf with
  | None => mret (- ENOBUFS)
  | Some id =>
      l <- get_link ;;
      adv_fill id (pb_header (pl_id l) 0x00 (GPC_CTL op) ++ data) ;;
      mod_link (fun l => l <| pl_tx_buf := [id] |>) ;;
      send_reliable ;;
      (if bool_decide (role = Provisioner) && (op =? LINK_CLOSE) then
         mod_link (fun l => (l <| pl_send_link_close :=
             Z.lor (Z.shiftl (Z.land (byte_at data 0) 3) 1) 1 |>) <| pl_tx_id := 0 |>)
       else mret tt) ;;
      mret 0
  end.

(** [len] is an 8-bit parameter. *)
Definition last_seg (len : Z) : Z :=
  let len := u8 len in if len <=? 20 then 0 else 1 + (len - 20) / 23.

(** The identifier, and the new [link.tx.id]. *)
Definition next_transaction_id (role : prov_role) (id : Z) : Z * Z :=
  match role with
  | Device => if negb (id =? 0) && negb (id =? 0xff) then (u8 (id + 1), u8 (id + 1)) else (0x80, 0x80)
  | Provisioner => let id := if 0x7f <? id then 0 else id in (id, u8 (id + 1))
  end.

(** The continuation segments from [seg_id] on; [n] elements of the array of
    buffers are left. *)
Fixpoint send_conts (n : nat) (xact seg_id : Z) (msg : bytes) : L Z :=
  match msg with
  | [] => mret 0
  | _ =>
      match n with
      | O => free_segments ;; mret (- E2BIG)
      | S n =>
          buf <- adv_buf_create ;;
          match buf with
          | None => free_segments ;; mret (- ENOBUFS)
          | Some id =>
              mod_link (fun l => l <| pl_tx_buf := pl_tx_buf l ++ [id] |>) ;;
              l <- get_link ;;
              adv_fill id (pb_header (pl_id l) xact (GPC_CONT seg_id) ++ take CONT_PAYLOAD_MAX msg) ;;
              send_conts n xact (seg_id + 1) (drop CONT_PAYLOAD_MAX msg)
          end
      end
  end.

Definition prov_send_adv (role : prov_role) (msg : bytes) : L Z :=
  prov_clear_tx ;;
  start <- adv_buf_create ;;
  match start with
  | None => mret (- ENOBUFS)
  | Some id =>
      l <- get_link ;;
      let '(xact, tx_id) := next_transaction_id role (pl_tx_id l) in
      let len := Z.of_nat (length msg) in
      mod_link (fun l => (l <| pl_tx_id := tx_id |>) <| pl_tx_buf := [id] |>) ;;
      adv_fill id (pb_header (pl_id l) xact (GPC_START (last_seg len)) ++ sys_put_be16 len ++
        [bt_mesh_fcs_calc msg len] ++ take START_PAYLOAD_MAX msg) ;;
      err <- send_conts (TX_BUFS - 1) xact 1 (drop START_PAYLOAD_MAX msg) ;;
      if err =? 0 then send_reliable ;; mret 0 else mret err
  end.

Definition prov_send (role : prov_role) (msg : bytes) : L Z :=
  l <- get_link ;;
  match (if PB_GATT then pl_conn l else None) with
  | Some c => stm_emit [PvGattSend c msg] ;; mret (pe_proxy_send c msg)
  | None => prov_send_adv role msg
  end.

(** [PROV_BUF(n)] filled with [msg]: the data array is aligned to four bytes,
    behind the headroom the proxy needs. *)
Definition PROV_BUF_HEADROOM : nat := if PB_GATT then 5 else 0.
Definition prov_buf (n : nat) (msg : bytes) : L bytes :=
  if decide (PROV_BUF_HEADROOM + length msg <= (PROV_BUF_HEADROOM + n + 3) / 4 * 4)%nat
  then mret msg else stm_undef.

Definition prov_send_fail_msg (role : prov_role) (err : Z) : L unit :=
  msg <- prov_buf 2 [PROV_FAILED; err] ;; prov_send role msg ;; mret tt.

(** ** Links *)

(** [memset(&link, 0, offsetof(struct prov_link, tx.retransmit))] and the
    initialisation after it: the attention timer is looked up too late. *)
Definition reset_link : L unit :=
  prov_clear_tx ;;
  stm_emit [PvLinkClose false] ;;
  mod_link (fun l => ((zero_link <| pl_retransmit := pl_retransmit l |>)
    <| pl_rx_prev_id := XACT_NVAL |>) <| pl_local_pub_key := bool_decide (is_Some pe_pub_key) |>) ;;
  mod_link (fun l => l <| pl_rx_buf := true |>) ;;
  init_rx ;;
  l <- get_link ;;
  if negb (byte_at (pl_conf_inputs l) 0 =? 0) then stm_emit [PvAttention 0] else mret tt.

(** The whole link is cleared, the pointer to the receive buffer and the
    handler of the retransmit work included. *)
Definition bt_mesh_pb_gatt_close (conn : nat) : L Z :=
  l <- get_link ;;
  if negb (bool_decide (pl_conn l = Some conn)) then mret (- ENOTCONN)
  else
    (if negb (byte_at (pl_conf_inputs l) 0 =? 0) then stm_emit [PvAttention 0] else mret tt) ;;
    stm_emit [PvLinkClose true; PvConnUnref conn] ;;
    mod_link (fun l => zero_link <| pl_local_pub_key := pl_local_pub_key l |>) ;;
    mret 0.

Definition close_link (role : prov_role) (err reason : Z) : L unit :=
  l <- get_link ;;
  match (if PB_GATT then pl_conn l else None) with
  | Some c => bt_mesh_pb_gatt_close c ;; mret tt
  | None =>
      (if negb (err =? 0) then prov_send_fail_msg role err else mret tt) ;;
      mod_link (fun l => l <| pl_rx_seg := 0 |>) ;;
      bearer_ctl_send role LINK_CLOSE [reason] ;;
      mod_link (fun l => l <| pl_active := false |>) ;;
      l <- get_link ;;
      if negb (byte_at (pl_conf_inputs l) 0 =? 0) then stm_emit [PvAttention 0] else mret tt
  end.

(** The loop of [prov_retransmit]: buffers still in the queue are skipped. *)
Fixpoint resend_bufs (ids : list nat) : L unit :=
  match ids with
  | [] => mret tt
  | id :: ids =>
      s <- stm_get ;;
      b <- stm_of_option (av_buf (ps_adv s) id) ;;
      (if ab_busy b then mret tt
       else adv_send_pdu id (match ids with [] => Some CbBufSent | _ => None end)) ;;
      resend_bufs ids
  end.

(** The retransmit timer has expired; the work has lost its handler when a GATT
    link was closed. *)
Definition prov_retransmit (role : prov_role) : L unit :=
  l <- get_link ;;
  if negb (pl_retransmit l) then mret tt
  else if negb (pl_active l) then mret tt
  else if TRANSACTION_TIMEOUT <? pe_now - pl_tx_start l then reset_link
  else if bool_decide (role = Provisioner) && Z.odd (pl_send_link_close l) then
    if 2 <=? Z.shiftr (pl_send_link_close l) 3 then reset_link
    else
      mod_link (fun l => l <| pl_send_link_close := u16 (pl_send_link_close l + 8) |>) ;;
      resend_bufs (pl_tx_buf l)
  else resend_bufs (pl_tx_buf l).

(** ** Receiving *)

(** [struct prov_rx]. *)
Record prov_rx := mk_prov_rx { px_link_id : Z; px_xact_id : Z; px_gpc : Z }.

(** [memcpy(&link.rx.buf->data[off], data, ...)]. *)
Definition rx_write (off : Z) (data : bytes) : L unit :=
  s <- stm_get ;;
  let b := ps_rx s in
  if pl_rx_buf (ps_link s) && (0 <=? off) &&
     bool_decide (Z.to_nat off + length data <= nb_size b)%nat
  then stm_modify (fun s => s <| ps_rx := b <| nb_store := put_at (Z.to_nat off) data (nb_store b) |> |>)
  else stm_undef.
Definition rx_set_len (len : nat) : L unit :=
  stm_modify (fun s => s <| ps_rx := (ps_rx s) <| nb_len := len |> |>).

(** The message in the buffer; reading past the end of the array is undefined. *)
Definition rx_msg (b : net_buf_simple) : option bytes := if decide (nb_wf b) then Some (nb_data b) else None.

(** [XACT_SEG_RECV]; shifting an [int] into its sign bit is undefined. *)
Definition xact_seg_recv (seg : Z) : L unit :=
  if 31 <=? seg then stm_undef
  else mod_link (fun l => l <| pl_rx_seg := Z.land (pl_rx_seg l) (u8 (Z.lnot (Z.shiftl 1 seg))) |>).

(** [msg_recv] is [prov_msg_recv]. *)
Definition seg_received (msg_recv : L unit) (seg : Z) : L unit :=
  xact_seg_recv seg ;;
  l <- get_link ;;
  if pl_rx_seg l =? 0 then msg_recv else mret tt.

Definition gen_prov_cont (role : prov_role) (msg_recv : L unit) (rx : prov_rx) (buf : bytes) : L unit :=
  let seg := GPC_PARAM (px_gpc rx) in
  s <- stm_get ;;
  let l := ps_link s in
  if (pl_rx_seg l =? 0) && (pl_rx_prev_id l =? px_xact_id rx) then gen_prov_ack_send (px_xact_id rx)
  else if negb (px_xact_id rx =? pl_rx_id l) then mret tt
  else if pl_rx_last_seg l <? seg then close_link role PROV_ERR_NVAL_FMT CLOSE_REASON_FAILED
  else if negb (pl_rx_buf l) then stm_undef
  else if (seg =? pl_rx_last_seg l) &&
          negb (u8 (Z.of_nat (nb_len (ps_rx s)) - 20 - 23 * (pl_rx_last_seg l - 1)) =?
                Z.of_nat (length buf))
  then close_link role PROV_ERR_NVAL_FMT CLOSE_REASON_FAILED
  else if 32 <=? seg then stm_undef
  else if negb (Z.testbit (pl_rx_seg l) seg) then mret tt
  else
    rx_write (20 + (seg - 1) * 23) buf ;;
    seg_received msg_recv seg.

(** [buf] has at least three bytes ([gen_prov_recv]). *)
Definition gen_prov_start (role : prov_role) (msg_recv : L unit) (rx : prov_rx) (buf : bytes) : L unit :=
  let last := GPC_PARAM (px_gpc rx) in
  l <- get_link ;;
  if negb (pl_rx_seg l =? 0) then mret tt
  else if pl_rx_prev_id l =? px_xact_id rx then gen_prov_ack_send (px_xact_id rx)
  else if negb (pl_rx_buf l) then stm_undef
  else
    let len := Z.to_nat (sys_get_be16 buf) in
    rx_set_len len ;;
    mod_link (fun l => (l <| pl_rx_id := px_xact_id rx |>) <| pl_rx_fcs := byte_at buf 2 |>) ;;
    s <- stm_get ;;
    if decide (len < 1)%nat then close_link role PROV_ERR_NVAL_FMT CLOSE_REASON_FAILED
    else if decide (nb_size (ps_rx s) < len)%nat then close_link role PROV_ERR_NVAL_FMT CLOSE_REASON_FAILED
    else if (0 <? last) && bool_decide (len <= 20)%nat then
      close_link role PROV_ERR_NVAL_FMT CLOSE_REASON_FAILED
    else if 31 <=? last + 1 then stm_undef
    else
      mod_link (fun l => (l <| pl_rx_seg := u8 (Z.shiftl 1 (last + 1) - 1) |>)
        <| pl_rx_last_seg := last |>) ;;
      rx_write 0 (drop 3 buf) ;;
      seg_received msg_recv 0.

(** ** The advertising thread *)

Definition run_prov_effect (e : adv_effect prov_cb) : L unit :=
  stm_emit [PvBearer e] ;;
  match e with
  | EffCbStart _ _ CbAck => ack_complete
  | EffCbEnd _ CbBufSent => buf_sent
  | _ => mret tt
  end.
Fixpoint run_prov_effects (es : list (adv_effect prov_cb)) : L unit :=
  match es with [] => mret tt | e :: es => run_prov_effect e ;; run_prov_effects es end.

Definition prov_adv_turn (start_err : Z) : L unit :=
  s <- stm_get ;;
  match ps_sending s with
  | Some _ => stm_undef
  | None =>
      r <- stm_of_option (adv_thread_turn pe_adv_int_min start_err (ps_adv s)) ;;
      let '(effs, cb, a) := r in
      stm_modify (fun s => (s <| ps_adv := a |>) <| ps_sending := cb |>) ;;
      run_prov_effects effs
  end.
Definition prov_adv_exit (stop_err : Z) : L unit :=
  s <- stm_get ;;
  match ps_sending s with
  | None => mret tt
  | Some cb =>
      stm_modify (fun s => s <| ps_sending := None |>) ;;
      run_prov_effects (adv_send_exit stop_err cb)
  end.
End pbadv.
