(* ===== verification/Prov.v ===== *)
(** * Provisioning of a device (bt_mesh/src/prov.c)

    The handlers of the provisioning protocol, and the reception of
    provisioning PDUs over PB-ADV and PB-GATT. *)

From S2P Require Import Prelude NetBuf NetPool Ccm MeshCrypto Adv Beacon PbAdv.

Definition AUTH_METHOD_NO_OOB : Z := 0x00.
Definition AUTH_METHOD_STATIC : Z := 0x01.
Definition AUTH_METHOD_OUTPUT : Z := 0x02.
Definition AUTH_METHOD_INPUT : Z := 0x03.
Definition PROV_ALG_P256 : Z := 0x00.
Definition STATIC_OOB_LENGTH : nat := 16.

Section prov.
Context {pcfg : ProvConfig} {hal : SecHal} {env : ProvEnv}.

Definition send := prov_send Device.
Definition close := close_link Device.
Definition fail_msg := prov_send_fail_msg Device.

Definition set_expect (e : Z) : L unit := mod_link (fun l => l <| pl_expect := e |>).
Definition set_conf_inputs (off : nat) (data : bytes) : L unit :=
  mod_link (fun l => l <| pl_conf_inputs := put_at off data (pl_conf_inputs l) |>).

(** A call of the security toolbox; an error runs [fail]. *)
Definition crypto {A} (r : res A) (fail : L unit) (k : A -> L unit) : L unit :=
  match r with Ok a => k a | Err _ => fail | Undef => stm_undef end.

(** Sends [msg] and goes on, unless that fails. *)
Definition send_or_close (msg : bytes) (k : L unit) : L unit :=
  err <- send msg ;;
  if err =? 0 then k else close PROV_ERR_RESOURCES CLOSE_REASON_FAILED.

(** ** Messages of the provisioner *)

Definition static_oob_bit : Z :=
  if OLD_AUTH then (match pe_static_val with Some _ => 1 | None => 0 end) else 1.

Definition capabilities : bytes :=
  [u8 pe_elem_count] ++ sys_put_be16 1 ++ [u8 pe_public_key_type; static_oob_bit; u8 pe_output_size] ++
  sys_put_be16 pe_output_actions ++ [u8 pe_input_size] ++ sys_put_be16 pe_input_actions.

Definition prov_invite (data : bytes) : L unit :=
  let duration := byte_at data 0 in
  (if negb (duration =? 0) then stm_emit [PvAttention duration] else mret tt) ;;
  set_conf_inputs 0 [duration] ;;
  msg <- prov_buf 12 (PROV_CAPABILITIES :: capabilities) ;;
  set_conf_inputs 1 capabilities ;;
  send_or_close msg (
    set_expect PROV_START ;;
    l <- get_link ;;
    match (if PB_GATT then pl_conn l else None) with
    | Some _ => stm_emit [PvProvStart None]
    | None => mret tt
    end).

(** [prov_auth]; the methods with input and output are refused. *)
Definition auth_value (val : bytes) : bytes := replicate (16 - length val) 0 ++ val.
Definition prov_auth (method action size : Z) : L Z :=
  if method =? AUTH_METHOD_STATIC then
    if negb (action =? 0) || negb (size =? 0) then mret (- EINVAL)
    else
      let val := default [] pe_static_val in
      if decide (16 < length val)%nat then stm_undef
      else mod_link (fun l => l <| pl_auth := auth_value val |>) ;; mret 0
  else if method =? AUTH_METHOD_NO_OOB then
    if negb (action =? 0) || negb (size =? 0) then mret (- EINVAL)
    else mod_link (fun l => l <| pl_auth := replicate 16 0 |>) ;; mret 0
  else mret (- EINVAL).

Definition prov_start (data : bytes) : L unit :=
  if negb (byte_at data 0 =? PROV_ALG_P256) then fail_msg PROV_ERR_NVAL_FMT ;; set_expect PROV_FAILED
  else if negb (byte_at data 1 =? pe_public_key_type) then
    fail_msg PROV_ERR_NVAL_FMT ;; set_expect PROV_FAILED
  else
    set_conf_inputs 12 (take 5 data) ;;
    set_expect PROV_PUB_KEY ;;
    err <- prov_auth (byte_at data 2) (byte_at data 3) (byte_at data 4) ;;
    if err <? 0 then fail_msg PROV_ERR_NVAL_FMT else mret tt.

(** The authentication value of the device, which replaces the one [prov_auth]
    has set. *)
Definition genie_auth (random : bytes) : bytes := if NO_OOB then replicate 16 0 else pe_auth random.
Definition set_genie_auth (random : bytes) : L unit :=
  mod_link (fun l => l <| pl_auth := genie_auth random |>).

Definition unexpected : L unit := close PROV_ERR_UNEXP_ERR CLOSE_REASON_FAILED.

Definition send_confirm : L unit :=
  l <- get_link ;;
  crypto (bt_mesh_prov_conf_salt (pl_conf_inputs l)) unexpected (fun conf_salt =>
    mod_link (fun l => l <| pl_conf_salt := conf_salt |>) ;;
    crypto (bt_mesh_prov_conf_key (pl_dhkey l) conf_salt) unexpected (fun conf_key =>
      mod_link (fun l => l <| pl_conf_key := conf_key |>) ;;
      match pe_rand 16 with
      | None => unexpected
      | Some rand =>
          mod_link (fun l => l <| pl_rand := rand |>) ;;
          set_genie_auth rand ;;
          crypto (bt_mesh_prov_conf conf_key rand (genie_auth rand)) unexpected (fun conf =>
            msg <- prov_buf 17 (PROV_CONFIRM :: conf) ;;
            send_or_close msg (set_expect PROV_RANDOM))
      end)).

Definition send_input_complete : L unit :=
  msg <- prov_buf 1 [PROV_INPUT_COMPLETE] ;; send msg ;; mret tt.

(** [atomic_test_and_clear_bit(link.flags, SEND_CONFIRM)] and [send_confirm]. *)
Definition confirm_if_waiting : L unit :=
  l <- get_link ;;
  if pl_send_confirm l then mod_link (fun l => l <| pl_send_confirm := false |>) ;; send_confirm
  else mret tt.

Definition bt_mesh_input_number (num : Z) : L Z :=
  l <- get_link ;;
  if negb (pl_wait_number l) then mret (- EINVAL)
  else
    mod_link (fun l => (l <| pl_wait_number := false |>)
      <| pl_auth := put_at 12 (sys_put_be32 num) (pl_auth l) |>) ;;
    send_input_complete ;;
    l <- get_link ;;
    if negb (pl_have_dhkey l) then mret 0 else confirm_if_waiting ;; mret 0.

(** [strncpy] fills up with zeros. *)
Definition bt_mesh_input_string (str : bytes) : L Z :=
  l <- get_link ;;
  if negb (pl_wait_string l) then mret (- EINVAL)
  else
    let n := Z.to_nat pe_input_size in
    if decide (16 < n)%nat then stm_undef
    else
      mod_link (fun l => (l <| pl_wait_string := false |>)
        <| pl_auth := put_at 0 (take n str ++ replicate (n - length str) 0) (pl_auth l) |>) ;;
      send_input_complete ;;
      l <- get_link ;;
      if negb (pl_have_dhkey l) then mret 0 else confirm_if_waiting ;; mret 0.

(** The callback of the DH key generation, with the key or [NULL]. *)
Definition prov_dh_key_cb (key : option bytes) : L unit :=
  match key with
  | None => unexpected
  | Some key =>
      mod_link (fun l => (l <| pl_dhkey := reverse key |>) <| pl_have_dhkey := true |>) ;;
      l <- get_link ;;
      if pl_wait_number l || pl_wait_string l then mret tt else confirm_if_waiting
  end.

(** A public key in the byte order of the HAL and in that of the protocol. *)
Definition swap_key (key : bytes) : bytes := reverse (take 32 key) ++ reverse (take 32 (drop 32 key)).

Definition send_pub_key : L unit :=
  match pe_pub_key with
  | None => close PROV_ERR_RESOURCES CLOSE_REASON_FAILED
  | Some key =>
      msg <- prov_buf 65 (PROV_PUB_KEY :: swap_key key) ;;
      set_conf_inputs 81 (swap_key key) ;;
      send msg ;;
      l <- get_link ;;
      let remote := swap_key (take 64 (drop 17 (pl_conf_inputs l))) in
      if negb (pe_dh_key_gen remote =? 0) then unexpected
      else stm_emit [PvDhKeyGen remote] ;; set_expect PROV_CONFIRM
  end.

Definition prov_pub_key (data : bytes) : L unit :=
  set_conf_inputs 17 (take 64 data) ;;
  l <- get_link ;;
  if negb (pl_local_pub_key l) then
    prov_clear_tx ;; mod_link (fun l => l <| pl_remote_pub_key := true |>)
  else send_pub_key.

Definition pub_key_ready (pkey : option bytes) : L unit :=
  match pkey with
  | None => mret tt
  | Some _ =>
      mod_link (fun l => l <| pl_local_pub_key := true |>) ;;
      l <- get_link ;;
      if pl_remote_pub_key l then
        mod_link (fun l => l <| pl_remote_pub_key := false |>) ;; send_pub_key
      else mret tt
  end.

Definition prov_confirm (data : bytes) : L unit :=
  mod_link (fun l => l <| pl_conf := take 16 data |>) ;;
  l <- get_link ;;
  if negb (pl_have_dhkey l) then
    prov_clear_tx ;; mod_link (fun l => l <| pl_send_confirm := true |>)
  else send_confirm.

Definition prov_random (data : bytes) : L unit :=
  set_genie_auth data ;;
  l <- get_link ;;
  crypto (bt_mesh_prov_conf (pl_conf_key l) data (pl_auth l)) unexpected (fun conf_verify =>
    if negb (bool_decide (conf_verify = pl_conf l)) then
      fail_msg PROV_ERR_CFM_FAILED ;; set_expect PROV_FAILED
    else
      msg <- prov_buf 16 (PROV_RANDOM :: pl_rand l) ;;
      send_or_close msg (
        l <- get_link ;;
        crypto (bt_mesh_prov_salt (pl_conf_salt l) data (pl_rand l)) unexpected (fun prov_salt =>
          mod_link (fun l => l <| pl_prov_salt := prov_salt |>) ;; set_expect PROV_DATA))).

Definition prov_data (data : bytes) : L unit :=
  l <- get_link ;;
  crypto (bt_mesh_session_key (pl_dhkey l) (pl_prov_salt l)) unexpected (fun session_key =>
    crypto (bt_mesh_prov_nonce (pl_dhkey l) (pl_prov_salt l)) unexpected (fun nonce =>
      crypto (bt_mesh_prov_decrypt session_key nonce data)
        (fail_msg PROV_ERR_DECRYPT ;; set_expect PROV_FAILED) (fun pdu =>
        crypto (bt_mesh_dev_key (pl_dhkey l) (pl_prov_salt l)) unexpected (fun dev_key =>
          let net_idx := sys_get_be16 (drop 16 pdu) in
          let addr := sys_get_be16 (drop 23 pdu) in
          stm_emit [PvProvData addr] ;;
          msg <- prov_buf 1 [PROV_COMPLETE] ;;
          send msg ;;
          set_expect 0 ;;
          stm_emit [PvProvision (take 16 pdu) net_idx (byte_at pdu 18) (sys_get_be32 (drop 19 pdu))
                      addr dev_key])))).

(** [prov_handlers]: the length of the data, and the function. *)
Definition prov_handlers : list (nat * (bytes -> L unit)) :=
  [(1%nat, prov_invite); (11%nat, fun _ => mret tt); (5%nat, prov_start); (64%nat, prov_pub_key);
   (0%nat, fun _ => mret tt); (16%nat, prov_confirm); (16%nat, prov_random); (33%nat, prov_data);
   (0%nat, fun _ => mret tt); (1%nat, fun _ => mret tt)].

(** ** Receiving over PB-ADV *)

Definition prov_msg_recv : L unit :=
  s <- stm_get ;;
  msg <- stm_of_option (rx_msg (ps_rx s)) ;;
  let type := byte_at msg 0 in
  if negb (bt_mesh_fcs_check msg (pl_rx_fcs (ps_link s))) then mret tt
  else
    gen_prov_ack_send (pl_rx_id (ps_link s)) ;;
    mod_link (fun l => (l <| pl_rx_prev_id := pl_rx_id l |>) <| pl_rx_id := 0 |>) ;;
    l <- get_link ;;
    if negb (type =? PROV_FAILED) && negb (type =? pl_expect l) then
      fail_msg PROV_ERR_UNEXP_PDU ;; set_expect PROV_FAILED
    else
      match prov_handlers !! Z.to_nat type with
      | None => close PROV_ERR_NVAL_PDU CLOSE_REASON_FAILED
      | Some (len, func) =>
          if negb (bool_decide (S len = length msg)) then close PROV_ERR_NVAL_FMT CLOSE_REASON_FAILED
          else func (drop 1 msg)
      end.

Definition gen_prov_ack (rx : prov_rx) : L unit :=
  l <- get_link ;;
  match pl_tx_buf l with
  | [] => mret tt
  | _ => if px_xact_id rx =? pl_tx_id l then prov_clear_tx else mret tt
  end.

Definition link_open (rx : prov_rx) (buf : bytes) : L unit :=
  l <- get_link ;;
  if decide (length buf < 16)%nat then mret tt
  else if pl_active l then mret tt
  else if negb (bool_decide (take 16 buf = pe_uuid)) then mret tt
  else
    stm_emit [PvLinkOpen false] ;;
    mod_link (fun l => (l <| pl_id := px_link_id rx |>) <| pl_active := true |>) ;;
    init_rx ;;
    bearer_ctl_send Device LINK_ACK [] ;;
    stm_emit [PvProvStart (Some (px_link_id rx))] ;;
    set_expect PROV_INVITE.

Definition gen_prov_ctl (rx : prov_rx) (buf : bytes) : L unit :=
  let op := GPC_PARAM (px_gpc rx) in
  l <- get_link ;;
  if op =? LINK_OPEN then link_open rx buf
  else if op =? LINK_CLOSE then if pl_active l then reset_link else mret tt
  else mret tt.

(** The table [gen_prov]: all but the bearer control need an open link. *)
Definition gen_prov_recv (rx : prov_rx) (buf : bytes) : L unit :=
  let op := GPCF (px_gpc rx) in
  l <- get_link ;;
  if (op =? 0) && bool_decide (length buf < 3)%nat then mret tt
  else if negb (pl_active l) && negb (op =? 3) then mret tt
  else if op =? 0 then gen_prov_start Device prov_msg_recv rx buf
  else if op =? 1 then gen_prov_ack rx
  else if op =? 2 then gen_prov_cont Device prov_msg_recv rx buf
  else gen_prov_ctl rx buf.

Definition bt_mesh_pb_adv_recv (buf : bytes) : L unit :=
  l <- get_link ;;
  if negb (pl_active l) && pe_provisioned then mret tt
  else if decide (length buf < 6)%nat then mret tt
  else
    let rx := mk_prov_rx (sys_get_be32 buf) (byte_at buf 4) (byte_at buf 5) in
    if pl_active l && negb (pl_id l =? px_link_id rx) then mret tt
    else gen_prov_recv rx (drop 6 buf).

(** ** Receiving over PB-GATT *)

Definition bt_mesh_pb_gatt_recv (conn : nat) (buf : bytes) : L Z :=
  l <- get_link ;;
  if negb (bool_decide (pl_conn l = Some conn)) then mret (- ENOTCONN)
  else
    match buf with
    | [] => mret (- EINVAL)
    | type :: buf =>
        if negb (type =? PROV_FAILED) && negb (type =? pl_expect l) then mret (- EINVAL)
        else
          match prov_handlers !! Z.to_nat type with
          | None => mret (- EINVAL)
          | Some (len, func) =>
              if negb (bool_decide (len = length buf)) then mret (- EINVAL) else func buf ;; mret 0
          end
    end.

Definition bt_mesh_pb_gatt_open (conn : nat) : L Z :=
  l <- get_link ;;
  if pl_active l then mret (- EBUSY)
  else
    mod_link (fun l => ((l <| pl_active := true |>) <| pl_conn := Some conn |>)
      <| pl_expect := PROV_INVITE |>) ;;
    stm_emit [PvLinkOpen true] ;;
    mret 0.

(** ** Initialisation *)

Definition bt_prov_active (l : prov_link) : bool := pl_active l.
Definition bt_mesh_prov_reset_link : L unit :=
  l <- get_link ;; if pl_active l then reset_link else mret tt.

(** [gen_err] is the result of [bt_mesh_pub_key_gen]. *)
Definition bt_mesh_prov_init (gen_err : Z) : L Z :=
  if negb (gen_err =? 0) then mret gen_err
  else
    mod_link (fun l => ((l <| pl_retransmit := true |>) <| pl_rx_prev_id := XACT_NVAL |>)
      <| pl_rx_buf := true |>) ;;
    init_rx ;;
    mret 0.

(** The static data before [bt_mesh_prov_init]: [n] advertising buffers, and the
    receive buffer of the proxy or of this file. *)
Definition zero_prov_buf : adv_buf prov_cb := mk_adv_buf [] None 0 false 0 0 0 0.
Definition prov_static (n : nat) : prov_state :=
  mk_prov_state zero_link (NET_BUF_SIMPLE (if PB_GATT then 68 else 65)) XACT_NVAL
    (mk_adv (pool_init n zero_prov_buf) []) None (mk_ctx_prov 0 0 0 0 0 []).
End prov.
