(* ===== verification/Provisioner.v ===== *)
(** * Provisioning by a provisioner (bt_mesh/src/provisioner_prov.c)

    The other side of the protocol of [Prov]: opening a link to a device whose
    beacon was seen, and the handlers of the device's messages. What the two
    files share is in [PbAdv] and [Prov]. *)

From S2P Require Import Prelude NetBuf NetPool Ccm MeshCrypto NetState Adv Beacon PbAdv Prov.

Module Provr.
Section provisioner.
Context {pcfg : ProvConfig} {hal : SecHal} {env : ProvEnv}.

Definition send := prov_send Provisioner.
Definition close := close_link Provisioner.
Definition unexpected : L unit := close PROV_ERR_UNEXP_ERR CLOSE_REASON_FAILED.
Definition get_ctx : L prov_ctx := s <- stm_get ;; mret (ps_ctx s).
Definition mod_ctx (f : prov_ctx -> prov_ctx) : L unit :=
  stm_modify (fun s => s <| ps_ctx := f (ps_ctx s) |>).

(** ** Opening a link *)

Definition node_is_connected (nodes : list mesh_node) (uuid : bytes) : bool :=
  existsb (fun n => bool_decide (mn_uuid n = uuid)) nodes.
(** [adv_filter_uuid], which returns 0 for a device of the vendor. *)
Definition adv_filter_uuid (uuid : bytes) : Z :=
  if decide (take 2 uuid = [0xa8; 0x01]) then 0 else 1.

(** A value of [n] bytes read as a little-endian integer. *)
Definition le_int (l : bytes) : Z := foldr (fun b v => b + 256 * v) 0 l.

(** [uuid] is what the pointer points to; 16 bytes of it are read. *)
Definition provisioner_link_open (uuid : bytes) : L unit :=
  if decide (length uuid < 16)%nat then stm_undef else
  let uuid := take 16 uuid in
  c <- get_ctx ;;
  l <- get_link ;;
  if node_is_connected (pc_nodes c) uuid || negb (adv_filter_uuid uuid =? 0) then mret tt
  else if pl_active l then mret tt
  else
    (match pe_rand 4 with
     | Some id => mod_link (fun l => l <| pl_id := le_int id |>)
     | None => mret tt
     end) ;;
    bearer_ctl_send Provisioner LINK_OPEN uuid ;;
    l <- get_link ;;
    stm_emit [PvProvStart (Some (pl_id l))] ;;
    mod_link (fun l => l <| pl_active := true |>) ;;
    stm_emit [PvLinkOpen false] ;;
    set_expect PROV_INVITE.

Definition send_invite : L unit :=
  msg <- prov_buf 2 [PROV_INVITE; 0] ;;
  set_conf_inputs 0 [0] ;;
  err <- send msg ;;
  if err =? 0 then set_expect PROV_CAPABILITIES else close PROV_ERR_NVAL_PDU CLOSE_REASON_FAILED.

(** ** Public keys *)

(** The device's key is at 81, in the byte order of the protocol. *)
Definition prov_gen_dh_key : L unit :=
  l <- get_link ;;
  let remote := swap_key (take 64 (drop 81 (pl_conf_inputs l))) in
  if negb (pe_dh_key_gen remote =? 0) then unexpected else stm_emit [PvDhKeyGen remote].

Definition send_pub_key (oob : Z) : L unit :=
  match pe_pub_key with
  | None => close PROV_ERR_RESOURCES CLOSE_REASON_FAILED
  | Some key =>
      mod_link (fun l => l <| pl_local_pub_key := true |>) ;;
      msg <- prov_buf 65 (PROV_PUB_KEY :: swap_key key) ;;
      set_conf_inputs 17 (swap_key key) ;;
      send msg ;;
      if oob =? 0 then set_expect PROV_PUB_KEY
      else
        l <- get_link ;;
        if pl_remote_pub_key l then prov_gen_dh_key
        else mod_link (fun l => l <| pl_wait_gen_dhkey := true |>)
  end.

(** ** Messages of the device *)

(** [__builtin_ctz] is undefined for 0. *)
Fixpoint ctz_loop (n : nat) (x : Z) : Z :=
  match n with O => 0 | S n => if Z.odd x then 0 else 1 + ctz_loop n (Z.shiftr x 1) end.
Definition ctz (x : Z) : option Z := if x =? 0 then None else Some (ctz_loop 32 x).

Definition cap_failed : L unit := close PROV_ERR_CFM_FAILED CLOSE_REASON_FAILED.

(** The checks of the capabilities before a method is chosen. *)
Definition caps_valid (data : bytes) : bool :=
  negb (byte_at data 0 =? 0) && (sys_get_be16 (drop 1 data) =? 1) &&
  (byte_at data 3 <=? 1) && (byte_at data 4 <=? 1) && (byte_at data 5 <=? 8) &&
  (sys_get_be16 (drop 6 data) <=? 0x1f) && (byte_at data 8 <=? 8) && (sys_get_be16 (drop 9 data) <=? 0x0f).

(** The action and the size of one direction of OOB; [used] is whether the
    application supports it. *)
Definition oob_choice (used : bool) (size actions : Z) : option (Z * Z) :=
  if used && negb (size =? 0) then a ← ctz actions; Some (a, size) else Some (0, 0).

(** The method, action and size of the Start PDU. *)
Definition auth_choice (static_oob : bool) (out inp : Z * Z) : Z * Z * Z :=
  if static_oob then (AUTH_METHOD_STATIC, 0, 0)
  else if (out.2 =? 0) && (inp.2 =? 0) then (AUTH_METHOD_NO_OOB, 0, 0)
  else if out.2 =? 0 then (AUTH_METHOD_INPUT, u8 inp.1, inp.2)
  else (AUTH_METHOD_OUTPUT, u8 out.1, out.2).

Definition prov_capabilities (data : bytes) : L unit :=
  (if byte_at data 0 =? 0 then mret tt
   else mod_link (fun l => l <| pl_element_num := byte_at data 0 |>)) ;;
  if negb (caps_valid data) then cap_failed
  else
    c <- get_ctx ;;
    let pub_key_oob := if pe_pub_key_oob then byte_at data 3 else 0 in
    let static_oob := negb (pc_static_oob_len c =? 0) && negb (byte_at data 4 =? 0) in
    out <- stm_of_option (oob_choice pe_input_num (byte_at data 5) (sys_get_be16 (drop 6 data))) ;;
    inp <- stm_of_option (oob_choice pe_output_num (byte_at data 8) (sys_get_be16 (drop 9 data))) ;;
    let '(auth_method, auth_action, auth_size) := auth_choice static_oob out inp in
    set_conf_inputs 1 (take 11 data) ;;
    let start := [u8 pe_algorithm; pub_key_oob; auth_method; auth_action; auth_size] in
    msg <- prov_buf 6 (PROV_START :: start) ;;
    set_conf_inputs 12 start ;;
    err <- send msg ;;
    if negb (err =? 0) then cap_failed
    else
      mod_link (fun l => ((l <| pl_oob_method := auth_method |>) <| pl_oob_action := auth_action |>)
        <| pl_oob_size := auth_size |>) ;;
      if negb (pub_key_oob =? 0) && negb (pe_pub_key_oob_cb =? 0) then cap_failed
      else mod_link (fun l => l <| pl_expect_ack_for := PROV_START |>).

Definition send_confirm : L unit :=
  l <- get_link ;;
  crypto (bt_mesh_prov_conf_salt (pl_conf_inputs l)) unexpected (fun conf_salt =>
    mod_link (fun l => l <| pl_conf_salt := conf_salt |>) ;;
    crypto (bt_mesh_prov_conf_key (pl_dhkey l) conf_salt) unexpected (fun conf_key =>
      mod_link (fun l => l <| pl_conf_key := conf_key |>) ;;
      match pe_rand 16 with
      | None => unexpected
      | Some rand =>
          mod_link (fun l => l <| pl_rand := rand |>) ;;
          crypto (bt_mesh_prov_conf conf_key rand (pl_auth l)) unexpected (fun conf =>
            msg <- prov_buf 17 (PROV_CONFIRM :: conf) ;;
            mod_link (fun l => l <| pl_local_conf := conf |>) ;;
            err <- send msg ;;
            if err =? 0 then set_expect PROV_CONFIRM
            else close PROV_ERR_RESOURCES CLOSE_REASON_FAILED)
      end)).

(** A method that is refused closes the link, and the protocol goes on. *)
Definition prov_dh_key_cb (key : option bytes) : L unit :=
  match key with
  | None => unexpected
  | Some key =>
      mod_link (fun l => (l <| pl_dhkey := reverse key |>) <| pl_have_dhkey := true |>) ;;
      l <- get_link ;;
      err <- prov_auth (pl_oob_method l) (pl_oob_action l) (pl_oob_size l) ;;
      (if err <? 0 then unexpected else mret tt) ;;
      l <- get_link ;;
      if (pl_oob_method l =? AUTH_METHOD_OUTPUT) || (pl_oob_method l =? AUTH_METHOD_INPUT) then mret tt
      else if negb (pl_expect l =? PROV_INPUT_COMPLETE) then send_confirm
      else mret tt
  end.

Definition prov_pub_key (data : bytes) : L unit :=
  set_conf_inputs 81 (take 64 data) ;;
  l <- get_link ;;
  if negb (pl_local_pub_key l) then
    prov_clear_tx ;; mod_link (fun l => l <| pl_remote_pub_key := true |>)
  else prov_gen_dh_key.

Definition prov_confirm (data : bytes) : L unit :=
  l <- get_link ;;
  if bool_decide (take 16 data = pl_local_conf l) then unexpected
  else
    mod_link (fun l => (l <| pl_conf := take 16 data |>)
      <| pl_send_confirm := pl_send_confirm l || pl_have_dhkey l |>) ;;
    msg <- prov_buf 17 (PROV_RANDOM :: pl_rand l) ;;
    err <- send msg ;;
    if err =? 0 then set_expect PROV_RANDOM else cap_failed.

(** *** The provisioning data *)

Definition find_node (nodes : list mesh_node) (uuid : bytes) : option mesh_node :=
  find (fun n => bool_decide (mn_uuid n = uuid)) nodes.
Definition zero_node : mesh_node := mk_node (replicate 16 0) 0 0.
Definition bt_mesh_provisioner_remove_node (uuid : bytes) (c : prov_ctx) : prov_ctx :=
  c <| pc_nodes := map (fun n => if bool_decide (mn_uuid n = uuid) then zero_node else n) (pc_nodes c) |>.

(** The address of a device that was provisioned before, with no more elements
    than then. *)
Definition prev_address (c : prov_ctx) (l : prov_link) : Z :=
  match find_node (pc_nodes c) (pl_uuid l) with
  | Some n => if pl_element_num l <=? mn_elems n then mn_addr n else 0
  | None => 0
  end.

(** The address of the device, or none is left. *)
Definition device_address (c : prov_ctx) (l : prov_link) : option Z :=
  let prev := prev_address c l in
  if BT_MESH_ADDR_IS_UNICAST prev then Some prev
  else
    let addr := if BT_MESH_ADDR_IS_UNICAST (pl_assign_addr l) then pl_assign_addr l
                else pc_curr_alloc_addr c in
    if addr =? 0 then None
    else if 0x7fff <? addr + pl_element_num l - 1 then None else Some addr.

(** The next address to allocate. *)
Definition next_alloc_addr (c : prov_ctx) (l : prov_link) : Z :=
  if BT_MESH_ADDR_IS_UNICAST (prev_address c l) then pc_curr_alloc_addr c
  else if BT_MESH_ADDR_IS_UNICAST (pl_assign_addr l) then
    if pc_curr_alloc_addr c <? pl_assign_addr l + pl_element_num l
    then u16 (pl_assign_addr l + pl_element_num l) else pc_curr_alloc_addr c
  else
    let next := u16 (pc_curr_alloc_addr c + pl_element_num l) in
    if 0x7fff <? next then 0 else next.

Definition data_pdu (key : bytes) (c : prov_ctx) (addr : Z) : bytes :=
  take 16 key ++ sys_put_be16 (pc_curr_net_idx c) ++ [u8 (pc_curr_flags c)] ++
  sys_put_be32 (pc_curr_iv_index c) ++ sys_put_be16 addr.

Definition send_prov_data : L unit :=
  l <- get_link ;;
  c <- get_ctx ;;
  crypto (bt_mesh_session_key (pl_dhkey l) (pl_prov_salt l)) unexpected (fun session_key =>
    crypto (bt_mesh_prov_nonce (pl_dhkey l) (pl_prov_salt l)) unexpected (fun nonce =>
      match pe_net_key (pc_curr_net_idx c) with
      | None => unexpected
      | Some key =>
          (match find_node (pc_nodes c) (pl_uuid l) with
           | Some _ => mod_ctx (bt_mesh_provisioner_remove_node (pl_uuid l))
           | None => mret tt
           end) ;;
          match device_address c l with
          | None => unexpected
          | Some addr =>
              mod_link (fun l => l <| pl_unicast_addr := addr |>) ;;
              crypto (bt_mesh_prov_encrypt session_key nonce (data_pdu key c addr)) unexpected (fun enc =>
                msg <- prov_buf 34 (PROV_DATA :: enc) ;;
                err <- send msg ;;
                if negb (err =? 0) then unexpected
                else
                  mod_ctx (fun c' => c' <| pc_curr_alloc_addr := next_alloc_addr c l |>) ;;
                  mod_link (fun l => (l <| pl_ki_flags := pc_curr_flags c |>)
                    <| pl_iv_index := pc_curr_iv_index c |>) ;;
                  set_expect PROV_COMPLETE)
          end
      end)).

Definition prov_random (data : bytes) : L unit :=
  l <- get_link ;;
  if bool_decide (take 16 data = pl_rand l) then unexpected
  else
    crypto (bt_mesh_prov_conf (pl_conf_key l) data (pl_auth l)) unexpected (fun conf_verify =>
      if negb (bool_decide (conf_verify = pl_conf l)) then unexpected
      else
        crypto (bt_mesh_prov_salt (pl_conf_salt l) (pl_rand l) data) unexpected (fun prov_salt =>
          mod_link (fun l => l <| pl_prov_salt := prov_salt |>) ;; send_prov_data)).

(** The device key is computed and dropped. *)
Definition prov_complete : L unit :=
  l <- get_link ;;
  crypto (bt_mesh_dev_key (pl_dhkey l) (pl_prov_salt l)) (close PROV_ERR_NONE CLOSE_REASON_FAILED)
    (fun _ => close PROV_ERR_NONE CLOSE_REASON_SUCCESS).

Definition prov_handlers : list (nat * (bytes -> L unit)) :=
  [(1%nat, fun _ => mret tt); (11%nat, prov_capabilities); (5%nat, fun _ => mret tt);
   (64%nat, prov_pub_key); (0%nat, fun _ => send_confirm); (16%nat, prov_confirm);
   (16%nat, prov_random); (33%nat, fun _ => mret tt); (0%nat, fun _ => prov_complete);
   (1%nat, fun _ => close PROV_ERR_NONE CLOSE_REASON_FAILED)].

(** ** Receiving over PB-ADV *)

(** Unlike the device's, it acknowledges a message only after its checks. *)
Definition prov_msg_recv : L unit :=
  s <- stm_get ;;
  msg <- stm_of_option (rx_msg (ps_rx s)) ;;
  let type := byte_at msg 0 in
  let l := ps_link s in
  if negb (bt_mesh_fcs_check msg (pl_rx_fcs l)) then mret tt
  else if negb (type =? PROV_FAILED) && negb (type =? pl_expect l) then
    prov_send_fail_msg Provisioner PROV_ERR_UNEXP_PDU ;; set_expect PROV_FAILED
  else
    match prov_handlers !! Z.to_nat type with
    | None => close PROV_ERR_NVAL_PDU CLOSE_REASON_FAILED
    | Some (len, func) =>
        if negb (bool_decide (S len = length msg)) then close PROV_ERR_NVAL_FMT CLOSE_REASON_FAILED
        else
          gen_prov_ack_send (pl_rx_id l) ;;
          mod_link (fun l => (l <| pl_rx_prev_id := pl_rx_id l |>) <| pl_rx_id := 0 |>) ;;
          func (drop 1 msg)
    end.

(** The acknowledgement of the Start PDU lets the public key follow. *)
Definition gen_prov_ack (rx : prov_rx) : L unit :=
  l <- get_link ;;
  match pl_tx_buf l with
  | [] => mret tt
  | _ =>
      if pl_tx_id l =? 0 then mret tt
      else if px_xact_id rx =? pl_tx_id l - 1 then
        prov_clear_tx ;;
        l <- get_link ;;
        (if pl_expect_ack_for l =? PROV_START then send_pub_key (byte_at (pl_conf_inputs l) 13)
         else if pl_expect_ack_for l =? PROV_PUB_KEY then prov_gen_dh_key
         else mret tt) ;;
        mod_link (fun l => l <| pl_expect_ack_for := 0 |>)
      else mret tt
  end.

Definition link_ack (buf : bytes) : L unit :=
  l <- get_link ;;
  if negb (bool_decide (buf = [])) then close PROV_ERR_NVAL_PDU CLOSE_REASON_FAILED
  else if pl_expect l =? PROV_CAPABILITIES then mret tt
  else send_invite.

Definition gen_prov_ctl (rx : prov_rx) (buf : bytes) : L unit :=
  let op := GPC_PARAM (px_gpc rx) in
  l <- get_link ;;
  if op =? LINK_ACK then if pl_active l then link_ack buf else mret tt
  else if op =? LINK_CLOSE then if pl_active l then reset_link else mret tt
  else mret tt.

Definition gen_prov_recv (rx : prov_rx) (buf : bytes) : L unit :=
  let op := GPCF (px_gpc rx) in
  l <- get_link ;;
  if (op =? 0) && bool_decide (length buf < 3)%nat then mret tt
  else if negb (pl_active l) then mret tt
  else if op =? 0 then gen_prov_start Provisioner prov_msg_recv rx buf
  else if op =? 1 then gen_prov_ack rx
  else if op =? 2 then gen_prov_cont Provisioner prov_msg_recv rx buf
  else gen_prov_ctl rx buf.

(** The link identifier is not compared with that of the link, and is pulled
    before the length is checked. *)
Definition bt_mesh_prov_adv_recv (buf : bytes) : L unit :=
  if decide (length buf < 4)%nat then stm_undef
  else if decide (length buf < 6)%nat then close PROV_ERR_NVAL_PDU CLOSE_REASON_FAILED
  else gen_prov_recv (mk_prov_rx (sys_get_be32 buf) (byte_at buf 4) (byte_at buf 5)) (drop 6 buf).

(** ** Initialisation *)

(** [bt_mesh_provisioner_init_prov_info], with the addresses of the
    application's context, the number of elements, and the flags and IV index
    of the primary subnet; [curr_iv_index] has 16 bits. *)
Definition bt_mesh_provisioner_init_prov_info (unicast start elem_count flags iv_index : Z)
    (c : prov_ctx) : Z * prov_ctx :=
  if negb (BT_MESH_ADDR_IS_UNICAST unicast) || negb (BT_MESH_ADDR_IS_UNICAST start) then (- EINVAL, c)
  else
    (0, (((c <| pc_curr_alloc_addr := if start <? unicast + elem_count then u16 (unicast + elem_count)
                                      else start |>)
        <| pc_curr_net_idx := 0 |>) <| pc_curr_flags := flags |>) <| pc_curr_iv_index := u16 iv_index |>).

(** [bt_mesh_provisioner_prov_init], after the network key was created. *)
Definition bt_mesh_provisioner_prov_init (unicast start elem_count flags iv_index : Z) : L Z :=
  match pe_pub_key with
  | None => mret (- EIO)
  | Some _ =>
      mod_ctx (fun c =>
        let len := Z.of_nat (length (default [] pe_static_val)) in
        let c := if len =? 0 then c else c <| pc_static_oob_len := Z.min len 16 |> in
        snd (bt_mesh_provisioner_init_prov_info unicast start elem_count flags iv_index c)) ;;
      mod_link (fun l => ((l <| pl_retransmit := true |>) <| pl_rx_prev_id := XACT_NVAL |>)
        <| pl_rx_buf := true |>) ;;
      init_rx ;;
      mret 0
  end.

(** The static data: five nodes, and the buffer of [bt_mesh_pba_get_buf]. *)
Definition provisioner_static (n : nat) : prov_state :=
  mk_prov_state zero_link (NET_BUF_SIMPLE 65) XACT_NVAL (mk_adv (pool_init n zero_prov_buf) []) None
    (mk_ctx_prov 0 0 0 0 0 (replicate 5 zero_node)).
End provisioner.
End Provr.
