(* ===== verification/PbTrans.v ===== *)
(** * Transactions of PB-ADV

    The segments of a provisioning message and what the receiver makes of them:
    [pb_pdus] are the PDUs of a message, [recv_pdus] their reception in any
    order and number, against [prov_send_adv] and [bt_mesh_pb_adv_recv]. *)

From S2P Require Import Prelude NetBuf NetPool Ccm MeshCrypto Adv AdvView Beacon PbAdv Prov.

(** ** Segments *)

Definition seg_off (k : nat) : nat := match k with O => 0 | S k => 20 + 23 * k end.
(** The [k]th segment of a message. *)
Definition segment (msg : bytes) (k : nat) : bytes :=
  take (seg_off (S k) - seg_off k) (drop (seg_off k) msg).
(** The index of the last one. *)
Definition seg_last (msg : bytes) : nat :=
  if decide (length msg <= 20)%nat then 0 else (length msg + 2) / 23.

Definition start_pdu (id xact : Z) (msg : bytes) : bytes :=
  let len := Z.of_nat (length msg) in
  pb_header id xact (GPC_START (last_seg len)) ++ sys_put_be16 len ++
  [bt_mesh_fcs_calc msg len] ++ segment msg 0.
Definition cont_pdu (id xact : Z) (msg : bytes) (k : nat) : bytes :=
  pb_header id xact (GPC_CONT (Z.of_nat k)) ++ segment msg k.
Definition seg_pdu (id xact : Z) (msg : bytes) (k : nat) : bytes :=
  match k with O => start_pdu id xact msg | _ => cont_pdu id xact msg k end.
(** The PDUs of a message. *)
Definition pb_pdus (id xact : Z) (msg : bytes) : list bytes :=
  map (seg_pdu id xact msg) (seq 0 (S (seg_last msg))).

(** Messages the receive buffer holds, with as many segments as [last_seg]
    announces. *)
Definition pb_msg (msg : bytes) : Prop :=
  is_bytes msg /\ (1 <= length msg <= 65)%nat /\ length msg <> 43%nat.

Lemma pb_msg_last msg : pb_msg msg ->
  (seg_last msg <= 2)%nat /\ last_seg (Z.of_nat (length msg)) = Z.of_nat (seg_last msg) /\
  (seg_off (seg_last msg) < length msg)%nat /\ (length msg <= seg_off (S (seg_last msg)))%nat.
Proof.
  intros (_ & Hl & H43). unfold seg_last, last_seg. rewrite u8_id by (unfold is_byte; lia).
  case_decide as Hc; [rewrite (proj2 (Z.leb_le _ _)) by lia; cbn; lia|].
  rewrite (proj2 (Z.leb_gt _ _)) by lia.
  assert (Hcase : ((length msg + 2) / 23 = 1 /\ length msg <= 42 \/
    (length msg + 2) / 23 = 2 /\ 44 <= length msg)%nat).
  { pose proof (Nat.div_mod (length msg + 2) 23). pose proof (Nat.mod_upper_bound (length msg + 2) 23).
    destruct ((length msg + 2) / 23)%nat as [|[|[|]]]; lia. }
  destruct Hcase as [[-> ?]|[-> ?]]; cbn [seg_off]; (split_and!; [lia| |lia|lia]).
  - rewrite Z.div_small by lia. done.
  - replace ((Z.of_nat (length msg) - 20) / 23) with 1; [done|]. Z.div_mod_to_equations. lia.
Qed.

(** ** PDUs *)

Lemma pb_header_parse id xact gpc data :
  0 <= id < 4294967296 -> is_byte xact -> is_byte gpc ->
  sys_get_be32 (pb_header id xact gpc ++ data) = id /\
  byte_at (pb_header id xact gpc ++ data) 4 = xact /\
  byte_at (pb_header id xact gpc ++ data) 5 = gpc /\
  drop 6 (pb_header id xact gpc ++ data) = data /\
  (6 <= length (pb_header id xact gpc ++ data))%nat.
Proof.
  intros Hi Hx Hg. unfold pb_header. rewrite <- (app_assoc (sys_put_be32 id)), sys_get_put_be32 by done.
  cbn [sys_put_be32 sys_put_be16 app byte_at nth drop length]. rewrite !u8_id by done. split_and!; try done. lia.
Qed.

Lemma gpc_cont k : (k <= 2)%nat ->
  is_byte (GPC_CONT (Z.of_nat k)) /\ GPCF (GPC_CONT (Z.of_nat k)) = 2 /\
  GPC_PARAM (GPC_CONT (Z.of_nat k)) = Z.of_nat k.
Proof. intros. destruct k as [|[|[|]]]; [..|lia]; by vm_compute. Qed.
Lemma gpc_start k : (k <= 2)%nat ->
  is_byte (GPC_START (Z.of_nat k)) /\ GPCF (GPC_START (Z.of_nat k)) = 0 /\
  GPC_PARAM (GPC_START (Z.of_nat k)) = Z.of_nat k.
Proof. intros. destruct k as [|[|[|]]]; [..|lia]; by vm_compute. Qed.

Lemma length_segment msg k : (k < seg_last msg)%nat -> pb_msg msg ->
  length (segment msg k) = (seg_off (S k) - seg_off k)%nat.
Proof.
  intros Hk Hm. destruct (pb_msg_last msg Hm) as (H2 & _ & Hlt & _). unfold segment.
  rewrite length_take, length_drop. destruct (seg_last msg) as [|[|[|]]]; [lia| | |lia];
    destruct k as [|[|]]; cbn [seg_off] in *; lia.
Qed.
Lemma length_segment_last msg : pb_msg msg ->
  length (segment msg (seg_last msg)) = (length msg - seg_off (seg_last msg))%nat.
Proof.
  intros Hm. destruct (pb_msg_last msg Hm) as (H2 & _ & Hlt & Hle). unfold segment.
  rewrite length_take, length_drop. lia.
Qed.
Lemma length_segment_le msg k : pb_msg msg -> (k <= seg_last msg)%nat ->
  (seg_off k + length (segment msg k) <= length msg)%nat.
Proof.
  intros Hm Hk. destruct (pb_msg_last msg Hm) as (H2 & _ & Hlt & Hle). unfold segment.
  rewrite length_take, length_drop.
  assert (seg_off k <= seg_off (seg_last msg))%nat;
    [|lia]. destruct (seg_last msg) as [|[|[|]]]; [..|lia]; destruct k as [|[|[|]]]; cbn [seg_off]; lia.
Qed.
Lemma segment_lookup msg k i : (i < length (segment msg k))%nat ->
  segment msg k !! i = msg !! (seg_off k + i)%nat.
Proof.
  unfold segment. rewrite length_take. intros. rewrite lookup_take_lt, lookup_drop by lia. done.
Qed.

(** ** The receiver *)

Section receive.
Context {pcfg : ProvConfig} {env : ProvEnv}.

Fixpoint recv_pdus (recv : bytes -> L unit) (ds : list bytes) : L unit :=
  match ds with [] => mret tt | d :: ds => recv d ;; recv_pdus recv ds end.

(** What the device and the provisioner have in common when a segment arrives. *)
Class PbReceiver (role : prov_role) (msg_recv : L unit) (recv : bytes -> L unit) : Prop := {
  recv_start t id xact last buf :
    pl_active (ps_link t) = true -> pl_id (ps_link t) = id -> 0 <= id < 4294967296 -> is_byte xact ->
    (last <= 2)%nat -> (3 <= length buf)%nat ->
    recv (pb_header id xact (GPC_START (Z.of_nat last)) ++ buf) t =
    gen_prov_start role msg_recv (mk_prov_rx id xact (GPC_START (Z.of_nat last))) buf t;
  recv_cont t id xact k buf :
    pl_active (ps_link t) = true -> pl_id (ps_link t) = id -> 0 <= id < 4294967296 -> is_byte xact ->
    (k <= 2)%nat ->
    recv (pb_header id xact (GPC_CONT (Z.of_nat k)) ++ buf) t =
    gen_prov_cont role msg_recv (mk_prov_rx id xact (GPC_CONT (Z.of_nat k))) buf t;
  recv_inactive t id xact k msg :
    pl_active (ps_link t) = false -> 0 <= id < 4294967296 -> is_byte xact -> pb_msg msg ->
    (k <= seg_last msg)%nat -> recv (seg_pdu id xact msg k) t = Some (tt, t, [])
}.

Section transaction.
Context {role : prov_role} {msg_recv : L unit} {recv : bytes -> L unit}
  {receiver : PbReceiver role msg_recv recv}.
Context (id xact : Z) (msg : bytes) (Hid : 0 <= id < 4294967296) (Hx : is_byte xact) (Hm : pb_msg msg).

(** A receiver that has the transaction neither begun nor seen before. *)
Record rx_idle (t : prov_state) : Prop := {
  ri_active : pl_active (ps_link t) = true;
  ri_id : pl_id (ps_link t) = id;
  ri_conn : pl_conn (ps_link t) = None;
  ri_buf : pl_rx_buf (ps_link t) = true;
  ri_seg : pl_rx_seg (ps_link t) = 0;
  ri_prev : pl_rx_prev_id (ps_link t) <> xact;
  ri_off : nb_off (ps_rx t) = 0%nat;
  ri_size : (65 <= nb_size (ps_rx t))%nat
}.

(** The segments it misses, as the bits of [miss]. *)
Definition masks (n : nat) : list Z := match n with O => [0; 1] | 1%nat => [0; 1; 2; 3] | _ => [0; 1; 2; 3; 4; 5; 6; 7] end.

Record rx_mid (t0 : prov_state) (miss : Z) (t : prov_state) : Prop := {
  rm_link : ps_link t = (((((ps_link t0) <| pl_rx_id := xact |>)
    <| pl_rx_fcs := bt_mesh_fcs_calc msg (Z.of_nat (length msg)) |>)
    <| pl_rx_seg := miss |>) <| pl_rx_last_seg := Z.of_nat (seg_last msg) |>);
  rm_rest : t = (t0 <| ps_link := ps_link t |>) <| ps_rx := ps_rx t |>;
  rm_miss : miss ∈ masks (seg_last msg);
  rm_off : nb_off (ps_rx t) = 0%nat;
  rm_len : nb_len (ps_rx t) = length msg;
  rm_size : (65 <= nb_size (ps_rx t))%nat;
  rm_got k i : (k <= seg_last msg)%nat -> Z.testbit miss (Z.of_nat k) = false ->
    (i < length (segment msg k))%nat ->
    nb_store (ps_rx t) !! (seg_off k + i)%nat = msg !! (seg_off k + i)%nat
}.

(** The message is in the buffer. *)
Definition rx_complete (t0 t : prov_state) : Prop := rx_mid t0 0 t /\ nb_data (ps_rx t) = msg.

(** The transaction is known to be finished. *)
Record rx_done (t : prov_state) : Prop := {
  rd_conn : pl_conn (ps_link t) = None;
  rd_id : pl_id (ps_link t) = id;
  rd_seg : pl_rx_seg (ps_link t) = 0;
  rd_prev : pl_rx_prev_id (ps_link t) = xact
}.

Lemma put_at_lookup i v l j : (i + length v <= length l)%nat ->
  put_at i v l !! j = if decide (i <= j < i + length v)%nat then v !! (j - i)%nat else l !! j.
Proof.
  intros Hl. unfold put_at. case_decide as Hj.
  - rewrite lookup_app_r, length_take by (rewrite length_take; lia).
    rewrite lookup_app_l by lia. f_equal. lia.
  - destruct (decide (j < i)%nat).
    + rewrite lookup_app_l, lookup_take_lt by (rewrite ?length_take; lia). done.
    + rewrite lookup_app_r, length_take, lookup_app_r by (rewrite ?length_take; lia).
      rewrite lookup_drop. f_equal. lia.
Qed.

Lemma clear_seg miss k :
  miss ∈ masks (seg_last msg) -> (k <= seg_last msg)%nat ->
  Z.land miss (u8 (Z.lnot (Z.shiftl 1 (Z.of_nat k)))) ∈ masks (seg_last msg) /\
  forall j, (j <= 2)%nat ->
    Z.testbit (Z.land miss (u8 (Z.lnot (Z.shiftl 1 (Z.of_nat k))))) (Z.of_nat j) =
    Z.testbit miss (Z.of_nat j) && negb (bool_decide (j = k)).
Proof.
  intros Hmi Hk. destruct (pb_msg_last msg Hm) as (H2 & _).
  destruct (seg_last msg) as [|[|[|]]]; [| | |lia]; destruct k as [|[|[|]]]; try lia; cbn [masks] in Hmi;
    repeat (apply elem_of_cons in Hmi as [->|Hmi]; [split; [vm_compute; set_solver|
      intros [|[|[|]]] ?; [done..|lia]]|]); by apply elem_of_nil in Hmi.
Qed.

Lemma seg_received_eq k t : (k <= 2)%nat ->
  seg_received msg_recv (Z.of_nat k) t =
  let miss := Z.land (pl_rx_seg (ps_link t)) (u8 (Z.lnot (Z.shiftl 1 (Z.of_nat k)))) in
  let t' := t <| ps_link := (ps_link t) <| pl_rx_seg := miss |> |> in
  if miss =? 0 then msg_recv t' else Some (tt, t', []).
Proof.
  intros Hk. unfold seg_received, xact_seg_recv. rewrite (proj2 (Z.leb_gt _ _)) by lia.
  set (miss := Z.land _ _). cbv zeta.
  rewrite (stm_bind_pure _ _ t tt (t <| ps_link := (ps_link t) <| pl_rx_seg := miss |> |>)) by done.
  rewrite (stm_bind_pure _ _ _ (ps_link (t <| ps_link := (ps_link t) <| pl_rx_seg := miss |> |>))
    (t <| ps_link := (ps_link t) <| pl_rx_seg := miss |> |>)) by done.
  cbn [pl_rx_seg ps_link update_field]. by destruct (miss =? 0).
Qed.

(** Writing the [k]th segment and marking it received. *)
Definition clear (miss : Z) (k : nat) : Z := Z.land miss (u8 (Z.lnot (Z.shiftl 1 (Z.of_nat k)))).
Definition write_seg (k : nat) (t : prov_state) : prov_state :=
  (t <| ps_rx := (ps_rx t) <| nb_store := put_at (seg_off k) (segment msg k) (nb_store (ps_rx t)) |> |>)
    <| ps_link := (ps_link t) <| pl_rx_seg := clear (pl_rx_seg (ps_link t)) k |> |>.

Lemma write_run t0 miss t k :
  rx_idle t0 -> rx_mid t0 miss t -> (k <= seg_last msg)%nat ->
  (rx_write (Z.of_nat (seg_off k)) (segment msg k) ;; seg_received msg_recv (Z.of_nat k)) t =
  if clear miss k =? 0 then msg_recv (write_seg k t) else Some (tt, write_seg k t, []).
Proof.
  intros Hi Hmid Hk. pose proof (length_segment_le msg k Hm Hk) as Hle.
  destruct (pb_msg_last msg Hm) as (H2 & _). destruct Hm as (_ & Hl & _).
  destruct Hmid as [El _ _ Ho _ Hs _].
  set (t1 := t <| ps_rx := (ps_rx t) <| nb_store := put_at (seg_off k) (segment msg k) (nb_store (ps_rx t)) |> |>).
  rewrite (stm_bind_pure _ _ t tt t1).
  - rewrite seg_received_eq by lia. cbv zeta. subst t1. cbn [ps_link update_field].
    replace (pl_rx_seg (ps_link t)) with miss by (by rewrite El). unfold write_seg, clear.
    by rewrite El.
  - unfold rx_write. rewrite (stm_bind_pure _ _ t t t) by done. rewrite El. cbn [pl_rx_buf update_field].
    rewrite (ri_buf t0 Hi), (proj2 (Z.leb_le _ _)), bool_decide_true by (rewrite ?Nat2Z.id; lia).
    by rewrite Nat2Z.id.
Qed.

Lemma write_mid t0 miss t k :
  rx_mid t0 miss t -> (k <= seg_last msg)%nat -> rx_mid t0 (clear miss k) (write_seg k t).
Proof.
  intros [El Er Hmi Ho Hn Hs Hg] Hk. destruct (clear_seg miss k Hmi Hk) as [Hmi' Hbit].
  pose proof (length_segment_le msg k Hm Hk) as Hle. destruct (pb_msg_last msg Hm) as (H2 & _).
  pose proof (proj1 (proj2 Hm)) as Hl. unfold nb_size in Hs.
  assert (Hlen : (seg_off k + length (segment msg k) <= length (nb_store (ps_rx t)))%nat) by lia.
  split; unfold write_seg, nb_size; cbn [ps_link ps_rx update_field nb_off nb_len nb_store]; try done.
  - by rewrite El.
  - by rewrite Er at 1.
  - change (65 <= length (put_at (seg_off k) (segment msg k) (nb_store (ps_rx t))))%nat.
    by rewrite length_put_at.
  - intros j i Hj Hbj Hij.
    change (put_at (seg_off k) (segment msg k) (nb_store (ps_rx t)) !! (seg_off j + i)%nat =
      msg !! (seg_off j + i)%nat).
    rewrite put_at_lookup by done. case_decide as Hd.
    + rewrite segment_lookup by lia. f_equal. lia.
    + apply Hg; [done| |done]. unfold clear in Hbj. rewrite Hbit in Hbj by lia.
      apply andb_false_iff in Hbj as [Hbj|Hbj]; [done|].
      apply negb_false_iff, bool_decide_eq_true in Hbj as ->. lia.
Qed.

(** All segments are there. *)
Lemma mid_complete t0 t : rx_mid t0 0 t -> rx_complete t0 t.
Proof.
  intros Hmid. split; [done|]. destruct Hmid as [_ _ _ Ho Hn Hs Hg]. unfold nb_size in Hs.
  destruct (pb_msg_last msg Hm) as (H2 & _ & _ & Hle). pose proof (proj1 (proj2 Hm)) as Hl.
  unfold nb_data. rewrite Ho, Hn, drop_0. apply list_eq. intros i.
  destruct (decide (i < length msg)%nat) as [Hi|].
  2: { rewrite !lookup_ge_None_2; [done|lia|rewrite length_take; lia]. }
  rewrite lookup_take_lt by done.
  assert (Hk : exists k j, (k <= seg_last msg)%nat /\ i = (seg_off k + j)%nat /\
    (j < length (segment msg k))%nat).
  { unfold segment. destruct (seg_last msg) as [|[|[|]]]; [..|lia]; cbn [seg_off] in Hle;
      (destruct (decide (i < 20)%nat); [exists 0%nat, i|
       destruct (decide (i < 43)%nat); [exists 1%nat, (i - 20)%nat|exists 2%nat, (i - 43)%nat]]);
      cbn [seg_off]; rewrite length_take, length_drop; lia. }
  destruct Hk as (k & j & Hk & -> & Hj). apply Hg; [done| |done]. apply Z.bits_0.
Qed.

(** *** One PDU *)

Lemma start_pdu_recv t :
  pl_active (ps_link t) = true -> pl_id (ps_link t) = id ->
  recv (seg_pdu id xact msg 0) t =
  gen_prov_start role msg_recv (mk_prov_rx id xact (GPC_START (Z.of_nat (seg_last msg))))
    (sys_put_be16 (Z.of_nat (length msg)) ++ [bt_mesh_fcs_calc msg (Z.of_nat (length msg))] ++ segment msg 0) t.
Proof.
  intros Ha Hi. destruct (pb_msg_last msg Hm) as (H2 & E & _). cbn [seg_pdu]. unfold start_pdu.
  rewrite E. apply recv_start; try done. cbn. lia.
Qed.
Lemma cont_pdu_recv t k :
  pl_active (ps_link t) = true -> pl_id (ps_link t) = id -> (1 <= k <= seg_last msg)%nat ->
  recv (seg_pdu id xact msg k) t =
  gen_prov_cont role msg_recv (mk_prov_rx id xact (GPC_CONT (Z.of_nat k))) (segment msg k) t.
Proof.
  intros Ha Hi Hk. destruct (pb_msg_last msg Hm) as (H2 & _). destruct k as [|k]; [lia|].
  apply recv_cont; try done. lia.
Qed.

Lemma start_first t0 : rx_idle t0 ->
  exists t, rx_mid t0 (Z.ones (Z.of_nat (S (seg_last msg)))) t /\
  recv (seg_pdu id xact msg 0) t0 =
  if clear (Z.ones (Z.of_nat (S (seg_last msg)))) 0 =? 0 then msg_recv (write_seg 0 t) else Some (tt, write_seg 0 t, []).
Proof.
  intros Hi. destruct (pb_msg_last msg Hm) as (H2 & _ & Hlt & Hle). pose proof (proj1 (proj2 Hm)) as Hl.
  rewrite start_pdu_recv by apply Hi. destruct (gpc_start (seg_last msg) H2) as (_ & _ & Hp).
  set (buf := sys_put_be16 _ ++ _).
  assert (Hlen : Z.to_nat (sys_get_be16 buf) = length msg) by (unfold buf; rewrite sys_get_put_be16; lia).
  set (t := (t0 <| ps_link := (((((ps_link t0) <| pl_rx_id := xact |>)
    <| pl_rx_fcs := bt_mesh_fcs_calc msg (Z.of_nat (length msg)) |>)
    <| pl_rx_seg := Z.ones (Z.of_nat (S (seg_last msg))) |>) <| pl_rx_last_seg := Z.of_nat (seg_last msg) |>) |>)
    <| ps_rx := (ps_rx t0) <| nb_len := length msg |> |>).
  assert (Hmid : rx_mid t0 (Z.ones (Z.of_nat (S (seg_last msg)))) t).
  { split; try done.
    - destruct (seg_last msg) as [|[|[|]]]; [..|lia]; vm_compute; set_solver.
    - apply Hi.
    - apply Hi.
    - intros k i Hk Hb. exfalso. rewrite Z.ones_spec_low in Hb; [done|lia]. }
  exists t. split; [done|]. rewrite <- (write_run t0 _ t 0 Hi Hmid) by lia.
  unfold gen_prov_start. cbn [px_gpc px_xact_id]. rewrite Hp. cbv zeta. rewrite Hlen.
  rewrite (stm_bind_pure _ _ t0 (ps_link t0) t0) by done.
  rewrite (ri_seg t0 Hi), (proj2 (Z.eqb_neq _ _) (ri_prev t0 Hi)), (ri_buf t0 Hi). cbn [negb Z.eqb].
  erewrite (stm_bind_pure (rx_set_len _)) by reflexivity.
  erewrite (stm_bind_pure (mod_link _)) by reflexivity.
  erewrite (stm_bind_pure stm_get) by reflexivity. cbv beta.
  rewrite decide_False by lia. rewrite decide_False by (pose proof (ri_size t0 Hi); unfold nb_size in *; cbn; lia).
  rewrite (proj2 (andb_false_iff _ _)) by (destruct (seg_last msg) eqn:El; [by left|right; apply bool_decide_false;
    destruct n as [|[|]]; cbn [seg_off] in Hlt; lia]).
  rewrite (proj2 (Z.leb_gt _ _)) by lia.
  erewrite (stm_bind_pure (mod_link _)) by reflexivity.
  replace (u8 (1 ≪ (Z.of_nat (seg_last msg) + 1) - 1)) with (Z.ones (Z.of_nat (S (seg_last msg))))
    by (destruct (seg_last msg) as [|[|[|]]]; [..|lia]; done).
  reflexivity.
Qed.

Lemma mid_start t0 miss t : rx_idle t0 -> rx_mid t0 miss t -> miss <> 0 ->
  recv (seg_pdu id xact msg 0) t = Some (tt, t, []).
Proof.
  intros Hi [El _ _ _ _ _ _] H0. rewrite start_pdu_recv by (rewrite El; apply Hi).
  unfold gen_prov_start. rewrite (stm_bind_pure _ _ t (ps_link t) t) by done. rewrite El.
  cbn [pl_rx_seg update_field]. by rewrite (proj2 (Z.eqb_neq _ _) H0).
Qed.

Lemma mid_cont t0 miss t k : rx_idle t0 -> rx_mid t0 miss t -> miss <> 0 -> (1 <= k <= seg_last msg)%nat ->
  recv (seg_pdu id xact msg k) t =
  if Z.testbit miss (Z.of_nat k) then
    if clear miss k =? 0 then msg_recv (write_seg k t) else Some (tt, write_seg k t, [])
  else Some (tt, t, []).
Proof.
  intros Hi Hmid H0 Hk. destruct (pb_msg_last msg Hm) as (H2 & _ & Hlt & Hle).
  pose proof (proj1 (proj2 Hm)) as Hl. pose proof (rm_link _ _ _ Hmid) as El.
  rewrite cont_pdu_recv by (done || (rewrite El; apply Hi)).
  unfold gen_prov_cont. cbn [px_gpc px_xact_id].
  destruct (gpc_cont k ltac:(lia)) as (_ & _ & ->). cbv zeta.
  rewrite (stm_bind_pure _ _ t t t) by done. rewrite El.
  cbn [pl_rx_seg pl_rx_prev_id pl_rx_id pl_rx_last_seg pl_rx_buf update_field].
  rewrite (proj2 (Z.eqb_neq _ _) H0), Z.eqb_refl, (proj2 (Z.ltb_ge _ _)), (ri_buf t0 Hi) by lia.
  cbn [andb negb].
  rewrite (proj2 (andb_false_iff _ _)).
  - rewrite (proj2 (Z.leb_gt _ _)) by lia. destruct (Z.testbit miss (Z.of_nat k)); [|done].
    cbn [negb]. rewrite <- (write_run t0 miss t k Hi Hmid) by lia.
    replace (20 + (Z.of_nat k - 1) * 23) with (Z.of_nat (seg_off k)); [done|].
    destruct k; cbn [seg_off]; lia.
  - destruct (decide (k = seg_last msg)) as [->|]; [right|left; apply Z.eqb_neq; lia].
    apply negb_false_iff, Z.eqb_eq. rewrite (rm_len _ _ _ Hmid), (length_segment_last msg Hm).
    destruct (seg_last msg) as [|[|[|]]]; [lia| | |lia]; cbn [seg_off] in *;
      rewrite u8_id by (unfold is_byte; lia); lia.
Qed.

(** After the transaction its segments are acknowledged again. *)
Definition ack_dup : L unit := l <- get_link ;; if pl_active l then gen_prov_ack_send xact else mret tt.

Lemma done_pdu t k : rx_done t -> (k <= seg_last msg)%nat ->
  recv (seg_pdu id xact msg k) t = ack_dup t.
Proof.
  intros Hd Hk. destruct (pb_msg_last msg Hm) as (H2 & _). unfold ack_dup.
  rewrite (stm_bind_pure _ _ t (ps_link t) t) by done.
  destruct (pl_active (ps_link t)) eqn:Ha; [|by apply recv_inactive].
  pose proof (rd_id t Hd) as Hi. destruct k as [|k].
  - rewrite start_pdu_recv by done. unfold gen_prov_start. cbn [px_gpc px_xact_id].
    rewrite (stm_bind_pure _ _ t (ps_link t) t) by done.
    by rewrite (rd_seg t Hd), (rd_prev t Hd), !Z.eqb_refl.
  - rewrite cont_pdu_recv by (done || lia). unfold gen_prov_cont. cbn [px_gpc px_xact_id].
    rewrite (stm_bind_pure _ _ t t t) by done.
    by rewrite (rd_seg t Hd), (rd_prev t Hd), !Z.eqb_refl.
Qed.

(** *** Any delivery of the PDUs *)

Fixpoint acks (n : nat) : L unit := match n with O => mret tt | S n => ack_dup ;; acks n end.
Definition deliver (ks : list nat) : L unit := recv_pdus recv (map (seg_pdu id xact msg) ks).

Definition same_link (s s' : prov_state) : Prop := ps_link s' = ps_link s.
#[local] Instance same_link_preorder : PreOrder same_link.
Proof. split; [done|]. intros s1 s2 s3 H1 H2. unfold same_link in *. by rewrite H2. Qed.
Lemma ack_send_link x : stm_keeps same_link (gen_prov_ack_send x).
Proof.
  unfold gen_prov_ack_send, adv_buf_create, adv_fill, adv_send_pdu, mod_adv.
  keeps_steps; by apply keeps_modify.
Qed.
Lemma ack_dup_done t : rx_done t -> stm_par ack_dup (fun _ t' => rx_done t') t.
Proof.
  intros Hd. unfold ack_dup, get_link. par_steps. case_match; [|by par_steps].
  unfold stm_par. destruct (gen_prov_ack_send xact t) as [[[[] t'] e]|] eqn:E; [|done].
  apply ack_send_link in E. destruct Hd. by split; rewrite E.
Qed.

Lemma stm_bind_ext {St Ev A B} (m m' : stm St Ev A) (f g : A -> stm St Ev B) s s' Q :
  m s = m' s' -> stm_par m' Q s' -> (forall a s, Q a s -> f a s = g a s) ->
  stm_bind m f s = stm_bind m' g s'.
Proof.
  unfold stm_bind, stm_par. intros ->. destruct (m' s') as [[[a s1] e]|]; [|done].
  intros HQ Hfg. by rewrite Hfg.
Qed.

Lemma dup_run t ks : rx_done t -> Forall (fun k => k <= seg_last msg)%nat ks ->
  deliver ks t = acks (length ks) t.
Proof.
  intros Hd Hks. revert t Hd. induction Hks as [|k ks Hk Hks IH]; intros t Hd; [done|].
  cbn. eapply stm_bind_ext; [by apply done_pdu|by apply ack_dup_done|]. cbv beta. intros _ t'. apply IH.
Qed.

(** What processing the message must leave. *)
Definition msg_done (t0 : prov_state) : Prop :=
  forall t, rx_complete t0 t -> stm_par msg_recv (fun _ t' => rx_done t') t.

Lemma last_write t0 miss t k ks :
  msg_done t0 -> rx_mid t0 miss t -> (k <= seg_last msg)%nat -> clear miss k = 0 ->
  Forall (fun k => k <= seg_last msg)%nat ks ->
  recv (seg_pdu id xact msg k) t = msg_recv (write_seg k t) ->
  exists t2 n, rx_complete t0 t2 /\ deliver (k :: ks) t = (msg_recv ;; acks n) t2.
Proof.
  intros Hdone Hmid Hk Hc Hks E. pose proof (write_mid t0 miss t k Hmid Hk) as Hw. rewrite Hc in Hw.
  apply mid_complete in Hw. exists (write_seg k t), (length ks). split; [done|].
  unfold deliver. cbn [map recv_pdus].
  eapply stm_bind_ext; [exact E|by apply Hdone|]. cbv beta. intros _ t' Hd. by apply dup_run.
Qed.

Lemma mid_run t0 : rx_idle t0 -> msg_done t0 -> forall ks miss t,
  rx_mid t0 miss t -> miss <> 0 -> Z.testbit miss (Z.of_nat 0) = false ->
  Forall (fun k => k <= seg_last msg)%nat ks ->
  (forall k, (k <= seg_last msg)%nat -> Z.testbit miss (Z.of_nat k) = true -> k ∈ ks) ->
  exists t2 n, rx_complete t0 t2 /\ deliver ks t = (msg_recv ;; acks n) t2.
Proof.
  intros Hi Hdone. destruct (pb_msg_last msg Hm) as (H2 & _).
  induction ks as [|k ks IH]; intros miss t Hmid H0 Hb0 Hks Hall.
  - exfalso. destruct Hmid as [_ _ Hmi _ _ _ _]. destruct (seg_last msg) as [|[|[|]]]; [..|lia]; cbn in Hmi;
      repeat (apply elem_of_cons in Hmi as [->|Hmi]; [first [done|
        by eapply elem_of_nil, (Hall 1%nat); [lia|]|by eapply elem_of_nil, (Hall 2%nat); [lia|]]|]);
      by apply elem_of_nil in Hmi.
  - apply Forall_cons_iff in Hks as [Hk Hks].
    assert (Hskip : recv (seg_pdu id xact msg k) t = Some (tt, t, []) ->
      (Z.testbit miss (Z.of_nat k) = false) ->
      exists t2 n, rx_complete t0 t2 /\ deliver (k :: ks) t = (msg_recv ;; acks n) t2).
    { intros E Hb. destruct (IH miss t Hmid H0 Hb0 Hks) as (t2 & n & Hc & E2).
      - intros j Hj Hbj. specialize (Hall j Hj Hbj). apply elem_of_cons in Hall as [->|]; [|done].
        by rewrite Hbj in Hb.
      - exists t2, n. split; [done|]. unfold deliver in *. cbn [map recv_pdus].
        by rewrite (stm_bind_pure _ _ t tt t E). }
    destruct k as [|k]; [by apply Hskip; [eapply mid_start|]|].
    pose proof (mid_cont t0 miss t (S k) Hi Hmid H0 ltac:(lia)) as E.
    destruct (Z.testbit miss (Z.of_nat (S k))) eqn:Hb; [|by apply Hskip].
    destruct (Z.eqb_spec (clear miss (S k)) 0) as [Hc|Hc]; [by eapply last_write|].
    destruct (clear_seg miss (S k) (rm_miss _ _ _ Hmid) Hk) as [_ Hbit].
    destruct (IH (clear miss (S k)) (write_seg (S k) t)) as (t2 & n & Hcm & E2); [by apply write_mid|done| |done| |].
    + unfold clear. rewrite (Hbit 0%nat) by lia. by rewrite Hb0.
    + intros j Hj Hbj. unfold clear in Hbj. rewrite Hbit in Hbj by lia. apply andb_true_iff in Hbj as [Hbj Hne].
      specialize (Hall j Hj Hbj). apply elem_of_cons in Hall as [->|]; [|done].
      by rewrite bool_decide_true in Hne.
    + exists t2, n. split; [done|]. unfold deliver in *. cbn [map recv_pdus].
      by rewrite (stm_bind_pure _ _ t tt _ E).
Qed.

(** All PDUs of the message, the Start PDU first. *)
Lemma transaction_run t0 ks : rx_idle t0 -> msg_done t0 ->
  Forall (fun k => k <= seg_last msg)%nat ks -> (forall k, (1 <= k <= seg_last msg)%nat -> k ∈ ks) ->
  exists t2 n, rx_complete t0 t2 /\ deliver (0%nat :: ks) t0 = (msg_recv ;; acks n) t2.
Proof.
  intros Hi Hdone Hks Hall. destruct (start_first t0 Hi) as (t & Hmid & E).
  destruct (pb_msg_last msg Hm) as (H2 & _). set (full := Z.ones _) in *.
  destruct (clear_seg full 0 (rm_miss _ _ _ Hmid) ltac:(lia)) as [_ Hbit].
  destruct (Z.eqb_spec (clear full 0) 0) as [Hc|Hc].
  - pose proof (write_mid t0 full t 0 Hmid ltac:(lia)) as Hw. rewrite Hc in Hw. apply mid_complete in Hw.
    exists (write_seg 0 t), (length ks). split; [done|]. unfold deliver. cbn [map recv_pdus].
    eapply stm_bind_ext; [exact E|by apply Hdone|]. cbv beta. intros _ t' Hd. by apply dup_run.
  - destruct (mid_run t0 Hi Hdone ks (clear full 0) (write_seg 0 t)) as (t2 & n & Hcm & E2).
    + by apply write_mid; [|lia].
    + done.
    + unfold clear. rewrite (Hbit 0%nat) by lia. by rewrite andb_false_r.
    + done.
    + intros j Hj Hbj. unfold clear in Hbj. rewrite Hbit in Hbj by lia. apply andb_true_iff in Hbj as [_ Hne].
      apply negb_true_iff, bool_decide_eq_false in Hne. apply Hall. lia.
    + exists t2, n. split; [done|]. unfold deliver in *. cbn [map recv_pdus].
      by rewrite (stm_bind_pure _ _ t0 tt _ E).
Qed.

(** The PDUs in the order they are sent. *)
Lemma in_order_run t0 : rx_idle t0 ->
  exists t2, rx_complete t0 t2 /\ recv_pdus recv (pb_pdus id xact msg) t0 = msg_recv t2.
Proof.
  intros Hi. destruct (start_first t0 Hi) as (t & Hmid & E). destruct (pb_msg_last msg Hm) as (H2 & _).
  pose proof (write_mid t0 _ t 0 Hmid ltac:(lia)) as Hw. unfold pb_pdus.
  assert (Hstep : forall miss t k, rx_mid t0 miss t -> miss <> 0 -> Z.testbit miss (Z.of_nat k) = true ->
    (1 <= k <= seg_last msg)%nat -> recv (seg_pdu id xact msg k) t =
    if clear miss k =? 0 then msg_recv (write_seg k t) else Some (tt, write_seg k t, [])).
  { intros miss t' k Hmid' H0 Hb Hk. by rewrite (mid_cont t0 miss t' k Hi Hmid' H0 Hk), Hb. }
  destruct (seg_last msg) as [|[|[|]]] eqn:El; [| | |lia]; cbn [seq map recv_pdus].
  - exists (write_seg 0 t). split; [by apply mid_complete|]. by rewrite stm_bind_tt.
  - change (recv (seg_pdu id xact msg 0) t0 = Some (tt, write_seg 0 t, [])) in E.
    rewrite (stm_bind_pure _ _ _ _ _ E), stm_bind_tt.
    pose proof (write_mid t0 _ _ 1 Hw ltac:(lia)) as Hw2.
    exists (write_seg 1 (write_seg 0 t)). split; [by apply mid_complete|]. by apply (Hstep 2); [..|lia].
  - change (recv (seg_pdu id xact msg 0) t0 = Some (tt, write_seg 0 t, [])) in E.
    rewrite (stm_bind_pure _ _ _ _ _ E).
    pose proof (write_mid t0 _ _ 1 Hw ltac:(lia)) as Hw2. pose proof (write_mid t0 _ _ 2 Hw2 ltac:(lia)) as Hw3.
    assert (E1 : recv (seg_pdu id xact msg 1) (write_seg 0 t) = Some (tt, write_seg 1 (write_seg 0 t), []))
      by (by apply (Hstep 6); [..|lia]).
    rewrite (stm_bind_pure _ _ _ _ _ E1), stm_bind_tt.
    exists (write_seg 2 (write_seg 1 (write_seg 0 t))). split; [by apply mid_complete|].
    by apply (Hstep 4); [..|lia].
Qed.
End transaction.
End receive.

(** ** The receivers *)

(** What handling a message over PB-ADV leaves alone. *)
Definition keeps_xact (s s' : prov_state) : Prop :=
  pl_conn (ps_link s) = None ->
  pl_conn (ps_link s') = None /\ pl_id (ps_link s') = pl_id (ps_link s) /\
  pl_rx_prev_id (ps_link s') = pl_rx_prev_id (ps_link s) /\
  (pl_rx_seg (ps_link s) = 0 -> pl_rx_seg (ps_link s') = 0).
#[export] Instance keeps_xact_preorder : PreOrder keeps_xact.
Proof.
  split; [by intros s|]. intros s1 s2 s3 H1 H2 Hc. destruct (H1 Hc) as (Hc2 & E1 & E2 & E3).
  destruct (H2 Hc2) as (Hc3 & F1 & F2 & F3). split_and!; [done|congruence|congruence|auto].
Qed.

Section keeps_xact.
Context {pcfg : ProvConfig} {hal : SecHal} {env : ProvEnv}.

Lemma ke_mod f :
  (forall l, pl_conn (f l) = pl_conn l /\ pl_id (f l) = pl_id l /\ pl_rx_prev_id (f l) = pl_rx_prev_id l /\
     (pl_rx_seg l = 0 -> pl_rx_seg (f l) = 0)) -> stm_keeps keeps_xact (mod_link f).
Proof. intros Hf. apply keeps_modify. intros s Hc. destruct (Hf (ps_link s)) as (E & H).
  split; [exact (eq_trans E Hc)|exact H].
Qed.
Lemma ke_adv f : stm_keeps keeps_xact (mod_adv f).
Proof. by apply keeps_modify. Qed.
Lemma ke_get : stm_keeps keeps_xact get_link.
Proof. unfold get_link. keeps_steps. Qed.
Lemma ke_prov_buf n m : stm_keeps keeps_xact (prov_buf n m).
Proof. unfold prov_buf. keeps_steps. Qed.

Create HintDb kxact.
#[local] Hint Resolve ke_get ke_adv ke_prov_buf : kxact.
#[local] Hint Extern 5 (stm_keeps keeps_xact (mod_link _)) => (by apply ke_mod) : kxact.
#[local] Hint Extern 5 (stm_keeps keeps_xact (stm_modify _)) => (by apply keeps_modify) : kxact.
Ltac ke := keeps_steps; auto with kxact.

Lemma ke_cancel ids : stm_keeps keeps_xact (cancel_bufs ids).
Proof. induction ids; cbn; ke. Qed.
#[local] Hint Resolve ke_cancel : kxact.
Lemma ke_clear : stm_keeps keeps_xact prov_clear_tx.
Proof. unfold prov_clear_tx, free_segments. ke. Qed.
Lemma ke_create : stm_keeps keeps_xact adv_buf_create.
Proof. unfold adv_buf_create. ke. Qed.
Lemma ke_fill i d : stm_keeps keeps_xact (adv_fill i d).
Proof. unfold adv_fill. ke. Qed.
Lemma ke_send_pdu i cb : stm_keeps keeps_xact (adv_send_pdu i cb).
Proof. unfold adv_send_pdu. ke. Qed.
#[local] Hint Resolve ke_clear ke_create ke_fill ke_send_pdu : kxact.
Lemma ke_ack x : stm_keeps keeps_xact (gen_prov_ack_send x).
Proof. unfold gen_prov_ack_send. ke. Qed.
Lemma ke_send_bufs ids : stm_keeps keeps_xact (send_bufs ids).
Proof.
  induction ids as [|i ids IH]; [cbn; ke|]. destruct ids; [apply ke_send_pdu|].
  apply keeps_bind; [apply _|apply ke_send_pdu|intros; exact IH].
Qed.
#[local] Hint Resolve ke_ack ke_send_bufs : kxact.
Lemma ke_reliable : stm_keeps keeps_xact send_reliable.
Proof. unfold send_reliable. ke. Qed.
#[local] Hint Resolve ke_reliable : kxact.
Lemma ke_ctl role op d : stm_keeps keeps_xact (bearer_ctl_send role op d).
Proof. unfold bearer_ctl_send. ke. Qed.
Lemma ke_free : stm_keeps keeps_xact free_segments.
Proof. unfold free_segments. ke. Qed.
#[local] Hint Resolve ke_ctl ke_free : kxact.
Lemma ke_conts n : forall x i m, stm_keeps keeps_xact (send_conts n x i m).
Proof. induction n; intros x i [|]; cbn; ke. Qed.
#[local] Hint Resolve ke_conts : kxact.
Lemma ke_send role m : stm_keeps keeps_xact (prov_send role m).
Proof. unfold prov_send, prov_send_adv. ke. Qed.
#[local] Hint Resolve ke_send : kxact.
Lemma ke_fail role e : stm_keeps keeps_xact (prov_send_fail_msg role e).
Proof. unfold prov_send_fail_msg. ke. Qed.
Lemma ke_gatt_close c : stm_keeps keeps_xact (bt_mesh_pb_gatt_close c).
Proof.
  intros s a s' e E Hc. unfold bt_mesh_pb_gatt_close in E.
  rewrite (stm_bind_pure _ _ s (ps_link s) s), Hc in E by done. cbn in E. by injection E as <- <- <-.
Qed.
#[local] Hint Resolve ke_fail ke_gatt_close : kxact.
Lemma ke_close role e r : stm_keeps keeps_xact (close_link role e r).
Proof. unfold close_link. ke. Qed.
#[local] Hint Resolve ke_close : kxact.

(** *** The device *)

Lemma ke_crypto {A} (r : res A) fail k :
  stm_keeps keeps_xact fail -> (forall a, stm_keeps keeps_xact (k a)) -> stm_keeps keeps_xact (crypto r fail k).
Proof. unfold crypto. intros. destruct r; auto. apply keeps_undef. Qed.
Lemma ke_expect e : stm_keeps keeps_xact (set_expect e).
Proof. by apply ke_mod. Qed.
Lemma ke_inputs o d : stm_keeps keeps_xact (set_conf_inputs o d).
Proof. by apply ke_mod. Qed.
#[local] Hint Resolve ke_expect ke_inputs : kxact.
Lemma ke_send_or_close m k : stm_keeps keeps_xact k -> stm_keeps keeps_xact (send_or_close m k).
Proof. intros. unfold send_or_close, send, close. ke. Qed.
Lemma ke_unexpected : stm_keeps keeps_xact unexpected.
Proof. apply ke_close. Qed.
Lemma ke_fail_msg e : stm_keeps keeps_xact (fail_msg e).
Proof. apply ke_fail. Qed.
#[local] Hint Resolve ke_crypto ke_send_or_close ke_unexpected ke_fail_msg : kxact.
Ltac kx := repeat (keeps_step || (progress intros) || apply ke_crypto || apply ke_send_or_close); auto with kxact.

Lemma ke_send_confirm : stm_keeps keeps_xact send_confirm.
Proof. unfold send_confirm, set_genie_auth. kx. Qed.
Lemma ke_send_pub_key : stm_keeps keeps_xact send_pub_key.
Proof. unfold send_pub_key, close, send. kx. Qed.
#[local] Hint Resolve ke_send_confirm ke_send_pub_key : kxact.
Lemma ke_handlers type len func : prov_handlers !! type = Some (len, func) ->
  forall data, stm_keeps keeps_xact (func data).
Proof.
  intros H data. apply list_elem_of_lookup_2 in H. unfold prov_handlers in H.
  repeat (apply elem_of_cons in H as [H|H]; [injection H as -> ->|]); [..|by apply elem_of_nil in H].
  - unfold prov_invite. kx.
  - kx.
  - unfold prov_start, prov_auth. kx.
  - unfold prov_pub_key. kx.
  - kx.
  - unfold prov_confirm. kx.
  - unfold prov_random, set_genie_auth. kx.
  - unfold prov_data, send. kx.
  - kx.
  - kx.
Qed.

Lemma device_recv_header t id xact gpc buf :
  pl_active (ps_link t) = true -> pl_id (ps_link t) = id -> 0 <= id < 4294967296 -> is_byte xact ->
  is_byte gpc ->
  bt_mesh_pb_adv_recv (pb_header id xact gpc ++ buf) t = gen_prov_recv (mk_prov_rx id xact gpc) buf t.
Proof.
  intros Ha Hid Hi Hx Hg. destruct (pb_header_parse id xact gpc buf Hi Hx Hg) as (E1 & E2 & E3 & E4 & Hl).
  unfold bt_mesh_pb_adv_recv. rewrite (stm_bind_pure _ _ t (ps_link t) t) by done.
  rewrite Ha, decide_False by lia. cbv zeta. rewrite E1, E2, E3, E4. cbn [px_link_id negb andb].
  by rewrite Hid, Z.eqb_refl.
Qed.

Lemma seg_pdu_header id xact msg k : pb_msg msg -> (k <= seg_last msg)%nat ->
  exists gpc data, seg_pdu id xact msg k = pb_header id xact gpc ++ data /\
    is_byte gpc /\ (GPCF gpc = 0 \/ GPCF gpc = 2).
Proof.
  intros Hm Hk. destruct (pb_msg_last msg Hm) as (H2 & El & _). destruct k as [|k].
  - destruct (gpc_start (seg_last msg) H2) as (Hg & Hf & _). unfold seg_pdu, start_pdu. rewrite El.
    eexists _, _. split; [done|]. auto.
  - destruct (gpc_cont (S k) ltac:(lia)) as (Hg & Hf & _). eexists _, _. split; [done|]. auto.
Qed.

#[export] Instance device_receiver : PbReceiver Device prov_msg_recv bt_mesh_pb_adv_recv.
Proof.
  split.
  - intros t id xact last buf Ha Hid Hi Hx Hl Hb. destruct (gpc_start last Hl) as (Hg & Hf & _).
    rewrite device_recv_header by done. unfold gen_prov_recv. cbn [px_gpc]. rewrite Hf.
    rewrite (stm_bind_pure _ _ t (ps_link t) t) by done.
    rewrite Ha, bool_decide_false by lia. done.
  - intros t id xact k buf Ha Hid Hi Hx Hl. destruct (gpc_cont k Hl) as (Hg & Hf & _).
    rewrite device_recv_header by done. unfold gen_prov_recv. cbn [px_gpc]. rewrite Hf.
    rewrite (stm_bind_pure _ _ t (ps_link t) t) by done. by rewrite Ha.
  - intros t id xact k msg Ha Hi Hx Hm Hk. destruct (seg_pdu_header id xact msg k Hm Hk) as (gpc & data & -> & Hg & Hf).
    destruct (pb_header_parse id xact gpc data Hi Hx Hg) as (E1 & E2 & E3 & E4 & Hl).
    unfold bt_mesh_pb_adv_recv. rewrite (stm_bind_pure _ _ t (ps_link t) t) by done. rewrite Ha.
    destruct pe_provisioned; [done|]. rewrite decide_False by lia. cbv zeta.
    rewrite E1, E2, E3, E4. cbn [negb andb]. unfold gen_prov_recv. cbn [px_gpc].
    rewrite (stm_bind_pure _ _ t (ps_link t) t) by done. rewrite Ha.
    destruct Hf as [-> | ->]; cbn [Z.eqb negb andb]; [by destruct (bool_decide _)|done].
Qed.

Lemma keeps_par {A} R (m : L A) s : stm_keeps R m -> stm_par m (fun _ s' => R s s') s.
Proof. intros H. unfold stm_par. destruct (m s) as [[[a s'] e]|] eqn:E; [by eapply H|done]. Qed.

Lemma fcs_self msg : pb_msg msg -> bt_mesh_fcs_check msg (bt_mesh_fcs_calc msg (Z.of_nat (length msg))) = true.
Proof.
  intros (Hb & Hl & _). destruct (fcs_ok msg (MeshSpec.fcs msg) Hb ltac:(lia)) as [E H].
  - unfold MeshSpec.fcs. destruct (crc_fold_spec msg 0xff Hb ltac:(by cbv)) as [<- H]. by apply lxor_byte.
  - rewrite E. by apply H.
Qed.

Lemma device_msg_done id xact msg t0 : is_byte xact -> pb_msg msg -> rx_idle id xact t0 ->
  msg_done (msg_recv := prov_msg_recv) id xact msg t0.
Proof.
  intros Hx Hm Hi t [Hmid Hd]. unfold prov_msg_recv. apply par_bind, par_get, par_bind, par_of_option.
  unfold rx_msg. case_decide as Hwf; [|done]. rewrite Hd. intros _ [= <-].
  destruct Hmid as [El _ _ _ _ _ _].
  assert (Hf : bt_mesh_fcs_check msg (pl_rx_fcs (ps_link t)) = true) by (rewrite El; by apply fcs_self).
  rewrite Hf. cbn [negb]. eapply par_call; [apply keeps_par, ack_send_link|]. cbv beta.
  intros _ t1 E1. unfold same_link in E1. apply par_bind, par_modify. cbv beta.
  set (t2 := t1 <| ps_link := _ |>).
  assert (Hd2 : rx_done id xact t2).
  { subst t2. split; cbn [ps_link update_field pl_conn pl_active pl_id pl_rx_seg pl_rx_prev_id];
      rewrite E1, El; [apply Hi|apply Hi|done|done]. }
  eapply par_mono; [apply (keeps_par keeps_xact)|].
  - unfold get_link, close. keeps_step; [kx|]. keeps_step; [kx|].
    destruct (prov_handlers !! _) as [[len func]|] eqn:Hh; [|kx]. keeps_step; [kx|].
    by eapply ke_handlers.
  - cbv beta. intros _ t3 Hk. destruct (Hk (rd_conn _ _ _ Hd2)) as (Hc & Ei & Ep & Es).
    destruct Hd2 as [_ Hai Hs Hp]. split; [done|by rewrite Ei|by apply Es|by rewrite Ep].
Qed.
End keeps_xact.

(** ** The sender *)

Section send.
Context {pcfg : ProvConfig} {env : ProvEnv}.

(** [n] more buffers can be taken; those cancelled but still queued cannot. *)
Definition room (n : nat) (a : adv prov_cb) : Prop := (length (av_queue a) + n <= length (av_refs a))%nat.

(** The buffers [ids] hold the PDUs [ds] and are not queued. *)
Definition holds (a : adv prov_cb) (ids : list nat) (ds : list bytes) : Prop :=
  Forall2 (fun i d => (i ∉ av_queue a) /\ exists b, av_buf a i = Some b /\ ab_data b = d) ids ds.

Lemma holds_same a a' ids ds :
  av_queue a' = av_queue a -> (forall i, i ∈ ids -> av_buf a' i = av_buf a i) ->
  holds a ids ds -> holds a' ids ds.
Proof.
  intros Hq Hb H. unfold holds in *. rewrite Hq. clear Hq. induction H as [|i d ids ds [Hi Hd] H IH]; [constructor|].
  constructor; [split; [done|]; rewrite Hb; [done|by left]|]. apply IH. intros j Hj. apply Hb. by right.
Qed.

Lemma cancel_run ids s :
  bearer ids (ps_adv s) ->
  exists a, cancel_bufs ids s = Some (tt, s <| ps_adv := a |>, []) /\ bearer [] a /\
    av_queue a = av_queue (ps_adv s) /\ length (av_refs a) = length (av_refs (ps_adv s)).
Proof.
  revert s. induction ids as [|i ids IH]; intros s Hb.
  - exists (ps_adv s). split; [by destruct s|done].
  - set (a1 := av_unref i (av_update (fun b => b <| ab_busy := false |>) i (ps_adv s))).
    destruct (IH (s <| ps_adv := a1 |>)) as (a & E & Hba & Hq & Hr); [by apply bearer_cancel|].
    exists a. cbn [cancel_bufs]. unfold mod_adv.
    rewrite (stm_bind_pure _ _ s tt (s <| ps_adv := a1 |>)) by done. rewrite E. split_and!; try done.
    rewrite Hr. cbn [ps_adv update_field]. subst a1. by rewrite length_unref, av_refs_update.
Qed.

Lemma clear_run s :
  bearer (pl_tx_buf (ps_link s)) (ps_adv s) ->
  exists a, prov_clear_tx s = Some (tt, (s <| ps_link := (ps_link s) <| pl_tx_buf := [] |> |>) <| ps_adv := a |>,
    [PvRetransmitCancel]) /\ bearer [] a /\
    av_queue a = av_queue (ps_adv s) /\ length (av_refs a) = length (av_refs (ps_adv s)).
Proof.
  intros Hb. set (s1 := s <| ps_link := (ps_link s) <| pl_tx_buf := [] |> |>).
  destruct (cancel_run _ s1 Hb) as (a & E & H). exists a. split; [|exact H].
  unfold prov_clear_tx. rewrite stm_bind_emit. unfold free_segments.
  rewrite (stm_bind_pure _ _ s (ps_link s) s) by done. unfold mod_link.
  rewrite (stm_bind_pure _ _ s tt s1) by done. cbv beta. by rewrite E.
Qed.

Lemma create_run H s :
  bearer H (ps_adv s) -> room (S (length H)) (ps_adv s) ->
  exists i a, adv_buf_create s = Some (Some i, s <| ps_adv := a |>, []) /\
    (i ∉ H ++ av_queue (ps_adv s)) /\ bearer (i :: H) a /\ av_queue a = av_queue (ps_adv s) /\
    length (av_refs a) = length (av_refs (ps_adv s)) /\
    (exists b, av_buf a i = Some b /\ ab_type b = BT_MESH_ADV_PROV) /\
    (forall j, j <> i -> av_buf a j = av_buf (ps_adv s) j).
Proof.
  intros Hb Hr. unfold room in Hr. pose proof (bearer_create H BT_MESH_ADV_PROV 0 PROV_XMIT_INT_ADV _ Hb ltac:(done)) as Hc.
  unfold adv_buf_create. rewrite (stm_bind_pure _ _ s s s) by done.
  destruct (bt_mesh_adv_create_from_pool _ _ _ _) as [[i a]|].
  - destruct Hc as (Hi & Hb' & Hq & Hl & Hn & Ho). exists i, a.
    rewrite (stm_bind_pure _ _ s tt (s <| ps_adv := a |>)) by done. split_and!; try done.
    destruct (bearer_buf _ _ i Hb') as [b Hbuf]; [by left|]. exists b. split; [done|]. by apply Hn.
  - rewrite length_app in Hc. lia.
Qed.

Lemma fill_run i d s : (length d <= ADV_DATA_SIZE)%nat ->
  adv_fill i d s = Some (tt, s <| ps_adv := av_update (fun b => b <| ab_data := d |>) i (ps_adv s) |>, []).
Proof. intros. unfold adv_fill. by rewrite decide_False by lia. Qed.

(** A new buffer filled with [d], as the last of those held. *)
Lemma create_fill_run d s ids ds :
  bearer ids (ps_adv s) -> room (S (length ids)) (ps_adv s) -> holds (ps_adv s) ids ds ->
  (length d <= ADV_DATA_SIZE)%nat ->
  exists i a, bearer (ids ++ [i]) a /\ holds a (ids ++ [i]) (ds ++ [d]) /\
    av_queue a = av_queue (ps_adv s) /\ length (av_refs a) = length (av_refs (ps_adv s)) /\
    exists a0, adv_buf_create s = Some (Some i, s <| ps_adv := a0 |>, []) /\
      a = av_update (fun b => b <| ab_data := d |>) i a0.
Proof.
  intros Hb Hr Hh Hd. destruct (create_run ids s Hb Hr) as (i & a0 & E & Hi & Hb0 & Hq & Hl & (b & Hbi & Ht) & Ho).
  exists i, (av_update (fun b => b <| ab_data := d |>) i a0). split_and!.
  - rewrite <- Permutation_cons_append. by apply bearer_update.
  - unfold holds. apply Forall2_app; [|constructor; [|constructor]].
    + apply (holds_same (ps_adv s)); [done| |done]. intros j Hj.
      assert (j <> i) by (intros ->; apply Hi, elem_of_app; by left).
      by rewrite av_buf_update, decide_False, Ho.
    + split; [cbn; rewrite Hq; intros Hin; apply Hi, elem_of_app; by right|].
      rewrite av_buf_update, decide_True, Hbi by done. by eexists.
  - done.
  - by rewrite av_refs_update.
  - by exists a0.
Qed.

Lemma send_pdu_run H s i d ids ds cb :
  bearer H (ps_adv s) -> i ∈ H -> holds (ps_adv s) (i :: ids) (d :: ds) -> (i ∉ ids) ->
  exists a, adv_send_pdu i cb s = Some (tt, s <| ps_adv := a |>, [PvAdv d]) /\ bearer H a /\
    holds a ids ds /\ av_queue a = av_queue (ps_adv s) ++ [i] /\
    length (av_refs a) = length (av_refs (ps_adv s)).
Proof.
  intros Hb HiH Hh Hni. inversion Hh as [|? ? ? ? [Hiq (b & Hbi & Hd)] Hh2]; simplify_eq; clear Hh; rename Hh2 into Hh.
  destruct (bearer_send H i cb (ps_adv s) Hb HiH Hiq) as (Hb' & Hq & Hl).
  exists (bt_mesh_adv_send i cb (ps_adv s)). split_and!; try done.
  - unfold adv_send_pdu. rewrite (stm_bind_pure _ _ s s s) by done. rewrite Hbi.
    rewrite (stm_bind_pure _ _ s b s) by done. unfold mod_adv.
    rewrite (stm_bind_pure _ _ s tt (s <| ps_adv := bt_mesh_adv_send i cb (ps_adv s) |>)) by done.
    done.
  - unfold holds in *. rewrite Hq. clear - Hh Hni. induction Hh as [|j d' ids ds [Hj (b & Hbj & Hd)] Hh IH]; [constructor|].
    assert (Hij : j <> i) by (intros ->; apply Hni; by left).
    assert (Hni2 : i ∉ ids) by (intros Hin; apply Hni; by right). constructor; [|by apply IH]. split.
    + intros [Hin|Hin%elem_of_cons]%elem_of_app; [done|].
      destruct Hin as [->|Hin%elem_of_nil]; done.
    + exists b. by rewrite av_buf_send, decide_False.
Qed.

Lemma send_bufs_run H ids ds s :
  bearer H (ps_adv s) -> Forall (.∈ H) ids -> NoDup ids -> holds (ps_adv s) ids ds ->
  exists a, send_bufs ids s = Some (tt, s <| ps_adv := a |>, map PvAdv ds) /\ bearer H a /\
    av_queue a = av_queue (ps_adv s) ++ ids /\ length (av_refs a) = length (av_refs (ps_adv s)).
Proof.
  revert ds s. induction ids as [|i ids IH]; intros ds s Hb HH Hnd Hh.
  - apply Forall2_nil_inv_l in Hh as ->. exists (ps_adv s).
    split; [by destruct s|]. by rewrite app_nil_r.
  - destruct ds as [|d ds]; [by apply Forall2_cons_nil_inv in Hh|].
    apply Forall_cons_iff in HH as [HiH HH]. apply list.NoDup_cons in Hnd as [Hni Hnd].
    destruct ids as [|j ids].
    + destruct (send_pdu_run H s i d [] ds (Some CbBufSent) Hb HiH Hh Hni) as (a & E & Hb' & Hh' & Hq & Hl).
      apply Forall2_nil_inv_l in Hh' as ->. by exists a.
    + destruct (send_pdu_run H s i d (j :: ids) ds None Hb HiH Hh Hni) as (a & E & Hb' & Hh' & Hq & Hl).
      set (s1 := s <| ps_adv := a |>) in *. destruct (IH ds s1 Hb' HH Hnd Hh') as (a2 & E2 & Hb2 & Hq2 & Hl2).
      exists a2. split_and!; [|done| |].
      * change (send_bufs (i :: j :: ids)) with (adv_send_pdu i None ;; send_bufs (j :: ids)).
        unfold stm_bind. rewrite E, E2. done.
      * rewrite Hq2. subst s1. cbn [ps_adv update_field]. rewrite Hq, <- app_assoc. done.
      * rewrite Hl2. exact Hl.
Qed.

(** The continuation PDUs [send_conts] prepares. *)
Fixpoint conts (n : nat) (id xact seg : Z) (m : bytes) : list bytes :=
  match n, m with
  | O, _ | _, [] => []
  | S n, _ => (pb_header id xact (GPC_CONT seg) ++ take CONT_PAYLOAD_MAX m) ::
              conts n id xact (seg + 1) (drop CONT_PAYLOAD_MAX m)
  end.

Lemma send_conts_run n : forall xact seg m s ds,
  let ids := pl_tx_buf (ps_link s) in
  bearer ids (ps_adv s) -> holds (ps_adv s) ids ds -> room (length ids + n) (ps_adv s) ->
  (length m <= n * CONT_PAYLOAD_MAX)%nat ->
  exists a new, send_conts n xact seg m s =
      Some (0, (s <| ps_link := (ps_link s) <| pl_tx_buf := ids ++ new |> |>) <| ps_adv := a |>, []) /\
    bearer (ids ++ new) a /\ holds a (ids ++ new) (ds ++ conts n (pl_id (ps_link s)) xact seg m) /\
    av_queue a = av_queue (ps_adv s) /\ length (av_refs a) = length (av_refs (ps_adv s)) /\
    (length new <= n)%nat.
Proof.
  induction n as [|n IH]; intros xact seg m s ds ids Hb Hh Hr Hm.
  - assert (m = []) as -> by (apply nil_length_inv; cbn in Hm; lia). exists (ps_adv s), [].
    cbn [conts]. rewrite !app_nil_r. split; [by destruct s as [[] ? ? ? ? ?]|]. split_and!; cbn; (done || lia).
  - destruct m as [|z m].
    { exists (ps_adv s), []. cbn [conts]. rewrite !app_nil_r. split; [by destruct s as [[] ? ? ? ? ?]|].
      split_and!; cbn; (done || lia). }
    set (mm := z :: m) in *. set (d := pb_header (pl_id (ps_link s)) xact (GPC_CONT seg) ++ take CONT_PAYLOAD_MAX mm).
    assert (Hd : (length d <= ADV_DATA_SIZE)%nat).
    { unfold d, pb_header. rewrite !length_app, length_take. cbn [length sys_put_be32 sys_put_be16 app].
      unfold CONT_PAYLOAD_MAX, ADV_DATA_SIZE. lia. }
    destruct (create_fill_run d s ids ds Hb) as (i & a & Hba & Hha & Hq & Hl & a0 & E & Ha).
    { unfold room in *. lia. } { done. } { done. }
    set (s2 := (s <| ps_link := (ps_link s) <| pl_tx_buf := ids ++ [i] |> |>) <| ps_adv := a |>).
    destruct (IH xact (seg + 1) (drop CONT_PAYLOAD_MAX mm) s2 (ds ++ [d])) as (a2 & new & E2 & Hb2 & Hh2 & Hq2 & Hl2 & Hn2).
    { exact Hba. } { exact Hha. }
    { subst s2. cbn [ps_adv ps_link pl_tx_buf update_field]. unfold room in *. rewrite Hq, Hl, length_app.
      cbn [length]. lia. }
    { rewrite length_drop. cbn [length] in *. unfold CONT_PAYLOAD_MAX in *. lia. }
    exists a2, (i :: new). subst s2. cbn [ps_adv ps_link pl_tx_buf pl_id update_field] in *.
    rewrite <- !(app_assoc _ [_]) in *. cbn [app] in *.
    split_and!; [|done|done|congruence|congruence|cbn; lia].
    unfold mm at 1. cbn [send_conts]. fold mm.
    rewrite (stm_bind_pure _ _ _ _ _ E). unfold mod_link.
    set (s3 := (s <| ps_adv := a0 |>) <| ps_link := (ps_link s) <| pl_tx_buf := ids ++ [i] |> |>).
    rewrite (stm_bind_pure _ _ _ tt s3) by done.
    rewrite (stm_bind_pure _ _ _ (ps_link s3) s3) by done.
    rewrite (stm_bind_pure _ _ _ _ _ (fill_run i _ s3 Hd)).
    subst a. exact E2.
Qed.

Lemma pb_pdus_conts id xact msg : pb_msg msg ->
  pb_pdus id xact msg = start_pdu id xact msg :: conts (TX_BUFS - 1) id xact 1 (drop START_PAYLOAD_MAX msg).
Proof.
  intros Hm. destruct (pb_msg_last msg Hm) as (H2 & _ & Hlt & Hle). unfold pb_pdus. cbn [seq map]. f_equal.
  destruct (seg_last msg) as [|[|[|]]]; [..|lia]; cbn [seg_off] in Hlt, Hle; cbn [seq map seg_pdu];
    unfold TX_BUFS; cbn [conts Nat.sub].
  - destruct (drop START_PAYLOAD_MAX msg) eqn:E; [done|]. exfalso. apply (f_equal length) in E.
    rewrite length_drop in E. cbn in E. unfold START_PAYLOAD_MAX in E. lia.
  - destruct (drop START_PAYLOAD_MAX msg) as [|z m] eqn:E.
    { exfalso. apply (f_equal length) in E. rewrite length_drop in E. cbn in E. unfold START_PAYLOAD_MAX in E. lia. }
    rewrite <- E, drop_drop. unfold cont_pdu, segment. cbn [seg_off].
    rewrite (drop_ge msg (START_PAYLOAD_MAX + CONT_PAYLOAD_MAX)) by (unfold START_PAYLOAD_MAX, CONT_PAYLOAD_MAX; lia). done.
  - destruct (drop START_PAYLOAD_MAX msg) as [|z m] eqn:E.
    { exfalso. apply (f_equal length) in E. rewrite length_drop in E. cbn in E. unfold START_PAYLOAD_MAX in E. lia. }
    rewrite <- E, drop_drop. destruct (drop (START_PAYLOAD_MAX + _) msg) as [|z2 m2] eqn:E2.
    { exfalso. apply (f_equal length) in E2. rewrite length_drop in E2. cbn in E2.
      unfold START_PAYLOAD_MAX, CONT_PAYLOAD_MAX in E2. lia. }
    rewrite <- E2. done.
Qed.

Lemma reliable_run s ds :
  bearer (pl_tx_buf (ps_link s)) (ps_adv s) -> holds (ps_adv s) (pl_tx_buf (ps_link s)) ds ->
  exists a, send_reliable s =
      Some (tt, (s <| ps_link := (ps_link s) <| pl_tx_start := pe_now |> |>) <| ps_adv := a |>, map PvAdv ds) /\
    bearer (pl_tx_buf (ps_link s)) a /\ av_queue a = av_queue (ps_adv s) ++ pl_tx_buf (ps_link s) /\
    length (av_refs a) = length (av_refs (ps_adv s)).
Proof.
  intros Hb Hh. set (s1 := s <| ps_link := (ps_link s) <| pl_tx_start := pe_now |> |>).
  destruct (send_bufs_run (pl_tx_buf (ps_link s)) (pl_tx_buf (ps_link s)) ds s1 Hb) as (a & E & H).
  { apply List.Forall_forall. intros j Hj. by apply list_elem_of_In. } { by eapply br_held. } { exact Hh. }
  exists a. split; [|exact H]. unfold send_reliable, mod_link.
  rewrite (stm_bind_pure _ _ s tt s1) by done. rewrite (stm_bind_pure _ _ s1 (ps_link s1) s1) by done. exact E.
Qed.

(** The state after sending: the buffers [new] hold the message and are queued. *)
Definition sent_link (tx_id : Z) (new : list nat) (l : prov_link) : prov_link :=
  ((l <| pl_tx_id := tx_id |>) <| pl_tx_buf := new |>) <| pl_tx_start := pe_now |>.

Lemma length_start_pdu id xact msg : pb_msg msg -> (length (start_pdu id xact msg) <= ADV_DATA_SIZE)%nat.
Proof.
  intros Hm. unfold start_pdu, pb_header, segment. rewrite !length_app, length_take.
  cbn [length sys_put_be32 sys_put_be16 app seg_off]. unfold ADV_DATA_SIZE. lia.
Qed.

Lemma send_adv_run role msg s :
  pb_msg msg -> bearer (pl_tx_buf (ps_link s)) (ps_adv s) -> room TX_BUFS (ps_adv s) ->
  let '(xact, tx_id) := next_transaction_id role (pl_tx_id (ps_link s)) in
  exists a new, prov_send_adv role msg s =
      Some (0, (s <| ps_link := sent_link tx_id new (ps_link s) |>) <| ps_adv := a |>,
        PvRetransmitCancel :: map PvAdv (pb_pdus (pl_id (ps_link s)) xact msg)) /\
    bearer new a /\ (1 <= length new <= TX_BUFS)%nat /\
    av_queue a = av_queue (ps_adv s) ++ new /\ length (av_refs a) = length (av_refs (ps_adv s)).
Proof.
  intros Hm Hb Hr. destruct (next_transaction_id role _) as [xact tx_id] eqn:Ex.
  destruct (clear_run s Hb) as (a1 & E1 & Hb1 & Hq1 & Hl1).
  set (s1 := (s <| ps_link := (ps_link s) <| pl_tx_buf := [] |> |>) <| ps_adv := a1 |>) in *.
  set (d := start_pdu (pl_id (ps_link s)) xact msg). pose proof (proj1 (proj2 Hm)) as Hlen.
  assert (Hd : (length d <= ADV_DATA_SIZE)%nat) by (by apply length_start_pdu).
  unfold room, TX_BUFS in Hr.
  destruct (create_fill_run d s1 [] [] Hb1) as (i & a & Hba & Hha & Hq & Hl & a0 & E & Ha).
  { unfold room. subst s1. cbn. rewrite Hq1, Hl1. lia. } { constructor. } { done. }
  set (s2 := (s1 <| ps_link := ((ps_link s1) <| pl_tx_id := tx_id |>) <| pl_tx_buf := [i] |> |>) <| ps_adv := a |>).
  destruct (send_conts_run (TX_BUFS - 1) xact 1 (drop START_PAYLOAD_MAX msg) s2 [d] Hba Hha)
    as (a3 & new & E3 & Hb3 & Hh3 & Hq3 & Hl3 & Hn3).
  { unfold room, TX_BUFS. subst s2 s1. cbn. rewrite Hq, Hl. cbn. rewrite Hq1, Hl1. lia. }
  { rewrite length_drop. unfold TX_BUFS, START_PAYLOAD_MAX, CONT_PAYLOAD_MAX. lia. }
  set (s3 := (s2 <| ps_link := (ps_link s2) <| pl_tx_buf := i :: new |> |>) <| ps_adv := a3 |>).
  destruct (reliable_run s3 _ Hb3 Hh3) as (a5 & E5 & Hb5 & Hq5 & Hl5).
  exists a5, (i :: new). split_and!; [|done|cbn; lia|unfold TX_BUFS in *; cbn; lia| |].
  - unfold prov_send_adv, stm_bind at 1. rewrite E1. fold s1. rewrite (stm_bind_pure _ _ _ _ _ E).
    set (s1' := s1 <| ps_adv := a0 |>). rewrite (stm_bind_pure _ _ _ (ps_link s1') s1') by done.
    replace (next_transaction_id role (pl_tx_id (ps_link s1'))) with (xact, tx_id) by (by rewrite <- Ex).
    cbv zeta. unfold mod_link at 1.
    set (s1'' := s1' <| ps_link := ((ps_link s1') <| pl_tx_id := tx_id |>) <| pl_tx_buf := [i] |> |>).
    rewrite (stm_bind_pure _ _ _ tt s1'') by done.
    rewrite (stm_bind_pure _ _ _ _ _ (fill_run i d s1'' Hd)).
    replace (s1'' <| ps_adv := _ |>) with s2 by (by subst a). rewrite (stm_bind_pure _ _ _ _ _ E3). cbn [Z.eqb].
    unfold stm_bind. match goal with |- context [send_reliable ?x] => change x with s3 end.
    rewrite E5, (pb_pdus_conts _ _ _ Hm). cbn [mret stm_mret]. by rewrite app_nil_r.
  - rewrite Hq5. subst s3. cbn. rewrite Hq3. subst s2. cbn. rewrite Hq. subst s1. cbn. by rewrite Hq1.
  - rewrite Hl5. subst s3. cbn. rewrite Hl3. subst s2. cbn. rewrite Hl. subst s1. cbn. by rewrite Hl1.
Qed.
End send.

(** C21: A provisioning message sent over PB-ADV by either side arrives whole
    and once. The sender queues exactly the PDUs of the message; however the
    device then receives them — the Start PDU first, the others in any order
    and each PDU any number of times — it processes the message a single time,
    with the bytes that were sent in its buffer, and answers what comes after
    that with acknowledgements. *)
Theorem pb_transaction {pcfg : ProvConfig} {hal : SecHal} {env env' : ProvEnv} role s t msg ks :
  let id := pl_id (ps_link s) in
  let xact := (next_transaction_id role (pl_tx_id (ps_link s))).1 in
  let pdus := pb_pdus id xact msg in
  pb_msg msg -> 0 <= id < 4294967296 -> is_byte xact ->
  bearer (pl_tx_buf (ps_link s)) (ps_adv s) -> room TX_BUFS (ps_adv s) ->
  rx_idle id xact t ->
  Forall (fun k => k < length pdus)%nat ks -> (forall k, (1 <= k < length pdus)%nat -> k ∈ ks) ->
  (exists s', prov_send_adv (env := env') role msg s = Some (0, s', PvRetransmitCancel :: map PvAdv pdus)) /\
  exists t2 n, nb_data (ps_rx t2) = msg /\ rx_complete xact msg t t2 /\
    recv_pdus bt_mesh_pb_adv_recv (map (fun k => nth k pdus []) (0%nat :: ks)) t =
    (prov_msg_recv ;; acks xact n) t2.
Proof.
  intros id xact pdus Hm Hid Hx Hb Hr Hi Hks Hall.
  assert (Hlen : length pdus = S (seg_last msg)) by (unfold pdus, pb_pdus; by rewrite length_map, length_seq).
  rewrite Hlen in Hks, Hall. split.
  - pose proof (send_adv_run (env := env') role msg s Hm Hb Hr) as H. unfold pdus, xact.
    destruct (next_transaction_id role _) as [x tx]. destruct H as (a & new & E & _). eauto.
  - destruct (transaction_run (role := Device) (recv := bt_mesh_pb_adv_recv) id xact msg
      Hid Hx Hm t ks Hi)
      as (t2 & n & Hc & E).
    + by apply device_msg_done.
    + eapply List.Forall_impl; [|exact Hks]. cbn. lia.
    + intros k Hk. apply Hall. lia.
    + exists t2, n. split; [apply Hc|]. split; [done|]. rewrite <- E. unfold deliver. f_equal.
      apply List.map_ext_in. intros k Hk.
      assert (Hk' : (k <= seg_last msg)%nat).
      { destruct Hk as [<-|Hk]; [lia|]. apply (proj1 (List.Forall_forall _ _) Hks) in Hk. lia. }
      unfold pdus, pb_pdus. rewrite (nth_indep _ [] (seg_pdu id xact msg 0)) by (rewrite length_map, length_seq; lia).
      rewrite map_nth, seq_nth by lia. done.
Qed.

(** A board for the examples: static authentication with a fixed value. *)
Definition example_env (rnd pk : Z) : ProvEnv :=
  {| pe_now := 0; pe_uuid := 0xa8 :: 0x01 :: replicate 14 7; pe_static_val := Some (replicate 16 9);
     pe_public_key_type := 0; pe_output_size := 0; pe_output_actions := 0; pe_input_size := 0;
     pe_input_actions := 0; pe_elem_count := 1; pe_provisioned := false;
     pe_pub_key := Some (replicate 64 pk); pe_rand := fun n => Some (replicate n rnd);
     pe_dh_key_gen := fun _ => 0; pe_auth := fun _ => replicate 16 9; pe_proxy_send := fun _ _ => 0;
     pe_adv_int_min := 20; pe_algorithm := 0; pe_pub_key_oob := false; pe_pub_key_oob_cb := 0;
     pe_input_num := false; pe_output_num := false; pe_net_key := fun _ => Some (replicate 16 0x55) |}.

(** An open link without traffic. *)
Definition open_link (id : Z) : prov_link :=
  ((((zero_link <| pl_active := true |>) <| pl_id := id |>) <| pl_rx_buf := true |>)
    <| pl_rx_prev_id := XACT_NVAL |>) <| pl_retransmit := true |>.
Definition open_state (pcfg : ProvConfig) (id : Z) : prov_state :=
  (prov_static 12) <| ps_link := open_link id |>.

Lemma pb_transaction_witness :
  let pcfg := default_prov_config in
  let s := open_state pcfg 5 in
  let msg := PROV_PUB_KEY :: replicate 64 3 in
  let pdus := pb_pdus 5 0x80 msg in
  exists t2 n, nb_data (ps_rx t2) = msg /\ rx_complete 0x80 msg s t2 /\
    recv_pdus (bt_mesh_pb_adv_recv (hal := sw_hal) (env := example_env 1 2))
      (map (fun k => nth k pdus []) [0; 2; 0; 2; 1; 2]%nat) s =
    (prov_msg_recv (hal := sw_hal) (env := example_env 1 2) ;; acks 0x80 n) t2.
Proof.
  intros pcfg s msg pdus.
  refine (proj2 (pb_transaction (env := example_env 1 2) (env' := example_env 1 2) Device s s msg
    [2; 0; 2; 1; 2]%nat _ _ _ _ _ _ _ _)).
  - split; [by apply (bool_decide_unpack (is_bytes _))|]. split; [vm_compute; lia|done].
  - split; by vm_compute.
  - by apply byteb_spec.
  - apply bearer_init.
  - cbv. lia.
  - split; cbn; (done || lia).
  - apply (bool_decide_unpack (Forall (fun k => k < 3)%nat _)). done.
  - intros k Hk. assert (Hk3 : (1 <= k < 3)%nat) by exact Hk.
    destruct k as [|[|[|]]]; [lia|set_solver|set_solver|lia].
Defined.
