(* ===== verification/ProvCrypto.v ===== *)
(** * What provisioning asks of the security toolbox

    The derivations of [MeshCrypto] on well-formed inputs: they succeed, and
    their results are blocks. *)

From Stdlib Require Import String.
From S2P Require Import Prelude NetBuf Cmac Ccm MeshCrypto.
#[local] Open Scope string_scope.
#[local] Open Scope list_scope.

Lemma k1_block ikm salt info : is_bytes ikm -> is_block salt -> is_bytes info ->
  exists k, bt_mesh_k1 ikm salt info = Ok k /\ is_block k.
Proof.
  intros Hi Hs Hn. exists (MeshSpec.k1 ikm salt info). split; [by apply k1_spec|].
  unfold MeshSpec.k1. apply mac_block; [by apply mac_block|done].
Qed.

Lemma prov_key_block (f : bytes -> bytes -> res bytes) str dhkey salt :
  (f = fun d s => bt_mesh_k1 d s str) -> is_bytes str -> is_bytes dhkey -> is_block salt ->
  exists k, f dhkey salt = Ok k /\ is_block k.
Proof. intros -> Hs Hd Hb. by apply k1_block. Qed.

Lemma session_key_block dhkey salt : is_bytes dhkey -> is_block salt ->
  exists k, bt_mesh_session_key dhkey salt = Ok k /\ is_block k.
Proof. apply (prov_key_block _ (c_str "prsk")); [done|const_bytes]. Qed.
Lemma dev_key_block dhkey salt : is_bytes dhkey -> is_block salt ->
  exists k, bt_mesh_dev_key dhkey salt = Ok k /\ is_block k.
Proof. apply (prov_key_block _ (c_str "prdk")); [done|const_bytes]. Qed.
Lemma conf_key_block dhkey salt : is_bytes dhkey -> is_block salt ->
  exists k, bt_mesh_prov_conf_key dhkey salt = Ok k /\ is_block k.
Proof. apply (prov_key_block _ (c_str "prck")); [done|const_bytes]. Qed.

Lemma prov_nonce_ok dhkey salt : is_bytes dhkey -> is_block salt ->
  exists n, bt_mesh_prov_nonce dhkey salt = Ok n /\ is_nonce n.
Proof.
  intros Hd Hs. unfold bt_mesh_prov_nonce.
  destruct (k1_block dhkey salt (c_str "prsn")) as (k & -> & Hl & Hk); [done|done|const_bytes|].
  eexists. split; [reflexivity|]. split; [|auto with bytes].
  rewrite length_take, length_drop, Hl. done.
Qed.

Lemma conf_salt_block inputs : is_bytes inputs ->
  exists b, bt_mesh_prov_conf_salt inputs = Ok b /\ is_block b.
Proof.
  intros Hi. eexists. split; [by apply cmac_one_mac; [apply zero_block_ok|]|].
  apply mac_block; [apply zero_block_ok|done].
Qed.

(** A MAC over pieces of whole blocks. *)
Lemma cmac_blocks_block key sg : is_block key -> Forall is_block sg -> (length sg <= 3)%nat ->
  exists b, bt_mesh_aes_cmac key sg = Ok b /\ is_block b.
Proof.
  intros Hk Hsg Hl. exists (MeshSpec.mac key (concat sg)).
  assert (Hb : Forall is_bytes sg) by (eapply List.Forall_impl; [|exact Hsg]; by intros ? []).
  split.
  - apply bt_mesh_aes_cmac_sg; [done|done| |unfold MAX_CALLS; lia].
    assert (Hok : forall n, (n mod 16 = 0)%nat -> sg_ok n sg); [|by apply Hok].
    clear Hl Hb. induction Hsg as [|d sg [Hd _] Hsg IH]; intros n Hn; [done|]. cbn. split; [by left|].
    apply IH. rewrite Hd, <- Nat.Div0.add_mod_idemp_l, Hn. done.
  - apply mac_block; [done|]. clear Hl Hsg. induction Hb; cbn; [constructor|by apply is_bytes_app].
Qed.
#[local] Ltac blocks := repeat (apply Forall_cons_2; [done|]); apply Forall_nil_2.
Lemma prov_salt_block a b c : is_block a -> is_block b -> is_block c ->
  exists s, bt_mesh_prov_salt a b c = Ok s /\ is_block s.
Proof. intros. apply cmac_blocks_block; [apply zero_block_ok| |cbn; lia]. blocks. Qed.
Lemma prov_conf_block key rand auth : is_block key -> is_block rand -> is_block auth ->
  exists c, bt_mesh_prov_conf key rand auth = Ok c /\ is_block c.
Proof. intros. apply cmac_blocks_block; [done| |cbn; lia]. blocks. Qed.

Section prov_data.
Context {hal : SecHal} {halok : SecHalOk hal}.

Lemma prov_data_args nonce c : is_nonce nonce -> is_bytes c -> length c = 25%nat ->
  ccm_args nonce c [] 8.
Proof.
  intros Hn Hc Hl. split; [done|done|rewrite Hl; cbn; lia| |by right].
  split; [constructor|]. by left.
Qed.

(** The decryption of 33 bytes is defined. *)
Lemma prov_decrypt_total key nonce data : is_block key -> is_nonce nonce -> is_bytes data ->
  length data = 33%nat ->
  (exists pdu, bt_mesh_prov_decrypt key nonce data = Ok pdu) \/
  (exists e, bt_mesh_prov_decrypt key nonce data = Err e).
Proof.
  intros Hk Hn Hd Hl. unfold bt_mesh_prov_decrypt.
  assert (H25 : length (take 25 data) = 25%nat) by (rewrite length_take; lia).
  replace (bt_mesh_ccm_decrypt key nonce data 25 [] 8) with
    (bt_mesh_ccm_decrypt key nonce (take 25 data ++ drop 25 data) (length (take 25 data)) [] 8)
    by (by rewrite take_drop, H25).
  rewrite bt_mesh_ccm_decrypt_spec; [|done| |rewrite length_drop; lia].
  - destruct (Rfc3610.decrypt _ _ _ _ _ _); [left|right]; eauto.
  - apply prov_data_args; [done|auto with bytes|done].
Qed.

Lemma prov_data_roundtrip key nonce pdu : is_block key -> is_nonce nonce -> is_bytes pdu ->
  length pdu = 25%nat ->
  exists enc, bt_mesh_prov_encrypt key nonce pdu = Ok enc /\ length enc = 33%nat /\ is_bytes enc /\
    bt_mesh_prov_decrypt key nonce enc = Ok pdu.
Proof.
  intros Hk Hn Hp Hl. unfold bt_mesh_prov_encrypt, bt_mesh_prov_decrypt. rewrite take_ge by lia.
  destruct (ccm_roundtrip key Hk nonce pdu [] 8) as (c & t & He & Hc & Ht & Hcb & Htb & Hd);
    [by apply prov_data_args|].
  exists (c ++ t). rewrite Hl in Hd. split_and!; [done|rewrite length_app; lia|by apply is_bytes_app|done].
Qed.
End prov_data.
