(* ===== verification/ProvOk.v ===== *)
(** * The device never runs into undefined behaviour over PB-ADV

    An invariant of the provisioning state of [Prov], kept by every handler. *)

From S2P Require Import Prelude NetBuf NetPool Aes Cmac Ccm MeshCrypto Adv AdvView Beacon PbAdv Prov PbTrans ProvCrypto.

(** What the board answers. *)
Class ProvEnvOk (env : ProvEnv) : Prop := {
  peo_static : (length (default [] pe_static_val) <= 16)%nat /\ is_bytes (default [] pe_static_val);
  peo_pub_key key : pe_pub_key = Some key -> length key = 64%nat /\ is_bytes key;
  peo_rand r : pe_rand 16 = Some r -> is_block r;
  peo_auth r : is_block (pe_auth r);
  peo_input : 0 <= pe_input_size <= 16
}.

(** ** The invariant *)

(** The link, without the buffers. *)
Record link_ok (l : prov_link) : Prop := {
  lk_conn : pl_conn l = None;
  lk_rx_buf : pl_rx_buf l = true;
  lk_last : 0 <= pl_rx_last_seg l <= 2;
  lk_seg : Z.testbit (pl_rx_seg l) 0 = false;
  lk_inputs : length (pl_conf_inputs l) = 145%nat /\ is_bytes (pl_conf_inputs l);
  lk_dhkey : is_bytes (pl_dhkey l);
  lk_rand : is_block (pl_rand l);
  lk_auth : is_block (pl_auth l);
  lk_conf_salt : is_block (pl_conf_salt l);
  lk_conf_key : is_block (pl_conf_key l);
  lk_prov_salt : is_block (pl_prov_salt l)
}.

Record rx_ok (b : net_buf_simple) : Prop := {
  ro_bytes : is_bytes (nb_store b);
  ro_size : (65 <= nb_size b <= 255)%nat;
  ro_off : nb_off b = 0%nat
}.

Record prov_inv (s : prov_state) : Prop := {
  pi_link : link_ok (ps_link s);
  pi_rx : rx_ok (ps_rx s);
  pi_bearer : bearer (pl_tx_buf (ps_link s)) (ps_adv s);
  pi_len : pl_rx_seg (ps_link s) <> 0 -> (nb_len (ps_rx s) <= nb_size (ps_rx s))%nat
}.

(** [m] is defined from every state that satisfies the invariant, and keeps it. *)
Definition safe {A} (m : L A) : Prop := forall s, prov_inv s -> stm_ok m (fun _ s' => prov_inv s') s.

Lemma safe_ret {A} (a : A) : safe (mret a).
Proof. by intros s Hs. Qed.
Lemma safe_emit e : safe (stm_emit e).
Proof. by intros s Hs. Qed.
Lemma safe_bind {A B} (m : L A) (k : A -> L B) : safe m -> (forall a, safe (k a)) -> safe (stm_bind m k).
Proof. intros Hm Hk s Hs. eapply ok_call; [by apply Hm|]. cbv beta. intros a s' Hs'. by apply Hk. Qed.
Lemma safe_link {B} (k : prov_link -> L B) : (forall l, link_ok l -> safe (k l)) -> safe (stm_bind get_link k).
Proof. intros Hk s Hs. unfold get_link. ok_steps. apply Hk; [apply Hs|done]. Qed.

(** A change of the link that concerns neither the buffers nor the invariant. *)
Lemma safe_mod f :
  (forall l, link_ok l -> link_ok (f l) /\ pl_tx_buf (f l) = pl_tx_buf l /\ (pl_rx_seg (f l) <> 0 -> pl_rx_seg l <> 0)) ->
  safe (mod_link f).
Proof.
  intros Hf s [Hl Hr Hb Hn]. unfold mod_link. ok_steps. destruct (Hf _ Hl) as (Hl' & Ht & Ha).
  split; [exact Hl'|exact Hr| |intros Ha'; by apply Hn, Ha].
  change (bearer (pl_tx_buf (f (ps_link s))) (ps_adv s)). by rewrite Ht.
Qed.

Lemma zero_link_ok : link_ok (zero_link <| pl_rx_buf := true |>).
Proof. split; cbn; try done; try (split; [done|]); try (apply (bool_decide_unpack (is_bytes _)); done); lia. Qed.

(** ** Sending *)

Section safe.
Context {pcfg : ProvConfig} {hal : SecHal} {halok : SecHalOk hal} {env : ProvEnv} {envok : ProvEnvOk env}.

(** [ids] are buffers held and not queued. *)
Definition idle_bufs (a : adv prov_cb) (ids : list nat) : Prop := exists ds, holds a ids ds.

Lemma set_adv_inv s a ids : prov_inv s -> bearer ids a -> forall l,
  link_ok l -> pl_tx_buf l = ids -> (pl_rx_seg l <> 0 -> pl_rx_seg (ps_link s) <> 0) ->
  prov_inv ((s <| ps_link := l |>) <| ps_adv := a |>).
Proof. intros [Hl Hr Hb Hn] Ha l Hl' Ht Hac. split; cbn; [done|done|by rewrite Ht|auto]. Qed.

Lemma link_tx l ids : link_ok l -> link_ok (l <| pl_tx_buf := ids |>).
Proof. by intros []. Qed.

Lemma clear_ok s : prov_inv s ->
  stm_ok prov_clear_tx (fun _ s' => prov_inv s' /\ pl_tx_buf (ps_link s') = []) s.
Proof.
  intros Hs. destruct (clear_run s (pi_bearer s Hs)) as (a & E & Hb & _).
  unfold stm_ok, stm_wp. rewrite E. split; [|done].
  eapply (set_adv_inv s a []); [done|done|by apply link_tx, Hs|done|done].
Qed.
Lemma safe_clear : safe prov_clear_tx.
Proof. intros s Hs. eapply ok_mono; [by apply clear_ok|]. by intros ? ? []. Qed.

Lemma adv_create_ok H s :
  bearer H (ps_adv s) ->
  match adv_buf_create s with
  | Some (Some i, s', e) => exists a, s' = s <| ps_adv := a |> /\ e = [] /\ (i ∉ H ++ av_queue (ps_adv s)) /\
      bearer (i :: H) a /\ av_queue a = av_queue (ps_adv s) /\
      (exists b, av_buf a i = Some b /\ ab_type b = BT_MESH_ADV_PROV) /\
      (forall j, j <> i -> av_buf a j = av_buf (ps_adv s) j)
  | Some (None, s', e) => s' = s /\ e = []
  | None => False
  end.
Proof.
  intros Hb. pose proof (bearer_create H BT_MESH_ADV_PROV 0 PROV_XMIT_INT_ADV _ Hb ltac:(done)) as Hc.
  unfold adv_buf_create. rewrite (stm_bind_pure _ _ s s s) by done.
  destruct (bt_mesh_adv_create_from_pool _ _ _ _) as [[i a]|]; [|done].
  destruct Hc as (Hi & Hb' & Hq & _ & Hn & Ho).
  rewrite (stm_bind_pure _ _ s tt (s <| ps_adv := a |>)) by done. exists a. split_and!; try done.
  destruct (bearer_buf _ _ i Hb') as [b Hbuf]; [by left|]. exists b. split; [done|]. by apply Hn.
Qed.

(** A new buffer, filled with [d], or none. *)
Lemma create_fill_ok {B} (k : option nat -> L B) (d : bytes) (Q : B -> prov_state -> Prop) s ids :
  bearer ids (ps_adv s) -> idle_bufs (ps_adv s) ids ->
  stm_ok (k None) Q s ->
  (forall i a0 a, a = av_update (fun b => b <| ab_data := d |>) i a0 ->
     bearer (ids ++ [i]) a -> idle_bufs a (ids ++ [i]) -> stm_ok (k (Some i)) Q (s <| ps_adv := a0 |>)) ->
  stm_ok (stm_bind adv_buf_create k) Q s.
Proof.
  intros Hb [ds Hh] Hn Hk. pose proof (adv_create_ok ids s Hb) as Hc. unfold stm_ok in *. apply wp_bind. unfold stm_wp at 1.
  destruct (adv_buf_create s) as [[[[i|] s'] e]|]; [| |done]; [|by destruct Hc as [-> ->]].
  destruct Hc as (a0 & -> & -> & Hi & Hb0 & Hq & (b & Hbi & Ht) & Ho).
  apply (Hk i a0 (av_update (fun b => b <| ab_data := d |>) i a0) eq_refl).
  - rewrite <- Permutation_cons_append. by apply bearer_update.
  - exists (ds ++ [d]). apply Forall2_app; [|constructor; [|constructor]].
    + apply (holds_same (ps_adv s)); [done| |done]. intros j Hj.
      assert (j <> i) by (intros ->; apply Hi, elem_of_app; by left).
      by rewrite av_buf_update, decide_False, Ho.
    + split; [cbn; rewrite Hq; intros Hin; apply Hi, elem_of_app; by right|].
      rewrite av_buf_update, decide_True, Hbi by done. by eexists.
Qed.

Definition fresh (s : prov_state) : Prop :=
  prov_inv s /\ idle_bufs (ps_adv s) (pl_tx_buf (ps_link s)).

Lemma fill_ok i d (Q : unit -> prov_state -> Prop) s : (length d <= ADV_DATA_SIZE)%nat ->
  Q tt (s <| ps_adv := av_update (fun b => b <| ab_data := d |>) i (ps_adv s) |>) ->
  stm_ok (adv_fill i d) Q s.
Proof. intros Hd HQ. unfold stm_ok, stm_wp. by rewrite fill_run. Qed.

Lemma safe_ack x : safe (gen_prov_ack_send x).
Proof.
  intros s Hs. unfold gen_prov_ack_send. ok_steps. destruct (_ =? x); [by ok_steps|].
  pose proof Hs as [Hl Hr Hb Hn]. apply ok_bind. unfold stm_ok at 1, stm_wp.
  pose proof (adv_create_ok _ s Hb) as Hc. destruct (adv_buf_create s) as [[[[i|] s'] e]|]; [| |done].
  2: { destruct Hc as [-> ->]. by ok_steps. }
  destruct Hc as (a0 & -> & -> & Hi & Hb0 & Hq & (b & Hbi & Ht) & Ho).
  set (d := pb_header _ _ _). assert (Hd : (length d <= ADV_DATA_SIZE)%nat) by (cbn; unfold ADV_DATA_SIZE; lia).
  set (a := av_update (fun b => b <| ab_data := d |>) i a0).
  set (cb := if _ =? XACT_NVAL then Some CbAck else None).
  assert (Hfin : forall s1, ps_link s1 = ps_link s -> ps_rx s1 = ps_rx s -> ps_adv s1 = a0 ->
    stm_ok (adv_fill i d ;; adv_send_pdu i cb ;; mod_adv (av_unref i)) (fun _ s' => prov_inv s') s1).
  { intros s1 E1 E2 E3. apply ok_bind, fill_ok; [done|]. rewrite E3. fold a.
    destruct (send_pdu_run (i :: pl_tx_buf (ps_link s)) (s1 <| ps_adv := a |>) i d [] [] cb)
      as (a2 & E & Hb2 & _).
    - by apply bearer_update.
    - left.
    - constructor; [|constructor]. cbn. rewrite Hq. split; [intros Hin; apply Hi, elem_of_app; by right|].
      subst a. rewrite av_buf_update, decide_True, Hbi by done.
      by eexists.
    - by intros ?%elem_of_nil.
    - apply ok_bind. unfold stm_ok at 1, stm_wp. rewrite E. unfold mod_adv. ok_steps.
      apply bearer_unref in Hb2. split; cbn; rewrite ?E1, ?E2; done. }
  destruct (_ =? XACT_NVAL); apply ok_bind; [apply ok_modify|apply ok_ret]; by apply Hfin.
Qed.

Lemma safe_free : safe free_segments.
Proof.
  intros s Hs. unfold free_segments, get_link, mod_link. apply ok_bind, ok_bind, ok_get. cbv beta. apply ok_ret.
  set (s1 := s <| ps_link := (ps_link s) <| pl_tx_buf := [] |> |>).
  apply ok_bind, ok_modify. destruct (cancel_run _ s1 (pi_bearer s Hs)) as (a & E & Hb & _).
  unfold stm_ok, stm_wp. fold s1. rewrite E.
  eapply (set_adv_inv s a []); [done|done|by apply link_tx, Hs|done|done].
Qed.

Lemma send_conts_ok n : forall xact seg m s, fresh s ->
  stm_ok (send_conts n xact seg m) (fun err s' => prov_inv s' /\ (err = 0 -> fresh s')) s.
Proof.
  induction n as [|n IH]; intros xact seg m s [Hs Hf].
  - destruct m; cbn [send_conts]; [by ok_steps|]. eapply ok_call; [by apply safe_free|].
    cbv beta. intros _ s' Hs'. by ok_steps.
  - destruct m as [|z m]; cbn [send_conts]; [by ok_steps|].
    set (mm := z :: m). set (d := pb_header (pl_id (ps_link s)) xact (GPC_CONT seg) ++ take CONT_PAYLOAD_MAX mm).
    assert (Hd : (length d <= ADV_DATA_SIZE)%nat).
    { unfold d, pb_header. rewrite !length_app, length_take. cbn [length sys_put_be32 sys_put_be16 app].
      unfold CONT_PAYLOAD_MAX, ADV_DATA_SIZE. lia. }
    eapply (create_fill_ok _ d); [apply Hs|done| |].
    + eapply ok_call; [by apply safe_free|]. cbv beta. intros _ s' Hs'. by ok_steps.
    + intros i a0 a Ha Hb Hi. apply ok_bind. unfold mod_link. apply ok_modify.
      unfold get_link. apply ok_bind, ok_bind, ok_get. cbv beta. apply ok_ret.
      apply ok_bind, fill_ok; [done|]. apply IH. split.
      * rewrite Ha in Hb. eapply (set_adv_inv s _ _ Hs Hb ((ps_link s) <| pl_tx_buf := _ |>));
          [by apply link_tx, Hs|done|done].
      * cbn. rewrite Ha in Hi. exact Hi.
Qed.

Lemma reliable_ok s : fresh s -> stm_ok send_reliable (fun _ s' => prov_inv s') s.
Proof.
  intros [Hs [ds Hh]]. destruct (reliable_run s ds (pi_bearer s Hs) Hh) as (a & E & Hb & _).
  unfold stm_ok, stm_wp. rewrite E. eapply (set_adv_inv s a _ Hs Hb); [by destruct (pi_link s Hs)|done|done].
Qed.

(** The first buffer of a transmission. *)
Lemma first_buf_ok {B} (k : option nat -> L B) (d : bytes) (Q : B -> prov_state -> Prop) s :
  prov_inv s -> pl_tx_buf (ps_link s) = [] -> stm_ok (k None) Q s ->
  (forall i a0, let s1 := s <| ps_adv := a0 |> in
     (forall f, (forall l, link_ok l -> link_ok (f l) /\ (pl_rx_seg (f l) <> 0 -> pl_rx_seg l <> 0) /\
                  pl_tx_buf (f l) = [i]) ->
        fresh ((s <| ps_link := f (ps_link s) |>)
          <| ps_adv := av_update (fun b => b <| ab_data := d |>) i a0 |>)) ->
     stm_ok (k (Some i)) Q s1) ->
  stm_ok (stm_bind adv_buf_create k) Q s.
Proof.
  intros Hs Ht Hn Hk. pose proof (pi_bearer s Hs) as Hb. rewrite Ht in Hb.
  eapply (create_fill_ok _ d _ _ []); [done|exists []; constructor|done|].
  intros i a0 a Ha Hba Hi. apply (Hk i a0). intros f Hf. destruct (Hf _ (pi_link s Hs)) as (Hl & Hac & Hti).
  subst a. split; [by apply (set_adv_inv s _ [i])|]. cbn. by rewrite Hti.
Qed.

Lemma safe_ctl role op data : (length data <= 23)%nat -> safe (bearer_ctl_send role op data).
Proof.
  intros Hlen s Hs. unfold bearer_ctl_send. eapply ok_call; [by apply clear_ok|]. cbv beta. intros _ s1 [Hs1 Ht].
  apply (first_buf_ok _ (pb_header (pl_id (ps_link s1)) 0 (GPC_CTL op) ++ data)); [done|done|by ok_steps|].
  intros i a0 s2 Hf. unfold get_link. apply ok_bind, ok_bind, ok_get. cbv beta. apply ok_ret.
  apply ok_bind, fill_ok.
  { unfold pb_header. rewrite !length_app. cbn [length sys_put_be32 sys_put_be16 app]. unfold ADV_DATA_SIZE. lia. }
  unfold mod_link. apply ok_bind, ok_modify. eapply ok_call.
  { apply reliable_ok. apply (Hf (fun l => l <| pl_tx_buf := [i] |>)). intros l []. done. }
  cbv beta. intros _ s3 Hs3. destruct (_ && _); ok_steps; [|done].
  apply (safe_mod (fun l => (l <| pl_send_link_close := _ |>) <| pl_tx_id := 0 |>)); [|done]. by intros l [].
Qed.

Lemma safe_send_adv role msg : safe (prov_send_adv role msg).
Proof.
  intros s Hs. unfold prov_send_adv. eapply ok_call; [by apply clear_ok|]. cbv beta. intros _ s1 [Hs1 Ht].
  destruct (next_transaction_id role (pl_tx_id (ps_link s1))) as [xact tx_id] eqn:Ex.
  set (d := pb_header (pl_id (ps_link s1)) xact (GPC_START (last_seg (Z.of_nat (length msg)))) ++
    sys_put_be16 (Z.of_nat (length msg)) ++ [bt_mesh_fcs_calc msg (Z.of_nat (length msg))] ++ take START_PAYLOAD_MAX msg).
  apply (first_buf_ok _ d); [done|done|by ok_steps|].
  intros i a0 s2 Hf. unfold get_link. apply ok_bind, ok_bind, ok_get. cbv beta. apply ok_ret.
  replace (next_transaction_id role (pl_tx_id (ps_link s2))) with (xact, tx_id) by (by rewrite <- Ex).
  cbv zeta. unfold mod_link. apply ok_bind, ok_modify. apply ok_bind, fill_ok.
  { unfold pb_header. rewrite !length_app, length_take. cbn [length sys_put_be32 sys_put_be16 app].
    unfold ADV_DATA_SIZE, START_PAYLOAD_MAX. lia. }
  eapply ok_call; [apply send_conts_ok|].
  { apply (Hf (fun l => (l <| pl_tx_id := tx_id |>) <| pl_tx_buf := [i] |>)). by intros l []. }
  cbv beta. intros err s3 [Hs3 Hfr]. destruct (Z.eqb_spec err 0) as [->|]; [|by ok_steps].
  eapply ok_call; [by apply reliable_ok, Hfr|]. cbv beta. intros _ s4 Hs4. by ok_steps.
Qed.

Lemma safe_send role msg : safe (prov_send role msg).
Proof.
  intros s Hs. unfold prov_send. unfold get_link. ok_steps. rewrite (lk_conn _ (pi_link s Hs)).
  destruct PB_GATT; by apply safe_send_adv.
Qed.

(** ** The handlers *)

Context (Hgatt : PB_GATT = true).

Lemma safe_prov_buf n msg : (length msg <= n)%nat \/ (n = 16 /\ length msg = 17)%nat -> safe (prov_buf n msg).
Proof.
  intros Hm. unfold prov_buf, PROV_BUF_HEADROOM. rewrite Hgatt. rewrite decide_True; [apply safe_ret|].
  destruct Hm as [Hm|[-> ->]]; [|by vm_compute; lia].
  pose proof (Nat.div_mod_eq (5 + n + 3) 4). pose proof (Nat.mod_upper_bound (5 + n + 3) 4). lia.
Qed.

Ltac link_kept := intros ? []; split; [split; cbn; auto|split; [done|cbn; auto; done]].
Create HintDb safe.
#[local] Hint Resolve safe_send safe_ack safe_clear safe_free safe_ctl : safe.
Ltac sf_step :=
  lazymatch goal with
  | |- safe (stm_bind get_link _) => apply safe_link; intros ? ?
  | |- safe (stm_bind _ _) => apply safe_bind; [|intros ?]
  | |- safe (mret _) => apply safe_ret
  | |- safe (stm_emit _) => apply safe_emit
  | |- safe (mod_link _) => apply safe_mod; link_kept
  | |- safe (prov_buf _ _) => apply safe_prov_buf; cbn; lia
  | |- safe (if ?b then _ else _) => destruct b
  | |- safe (match ?x with _ => _ end) => destruct x eqn:?
  | |- safe (let _ := _ in _) => cbv zeta
  end.
Ltac sf := repeat sf_step; auto with safe.

Lemma safe_fail role err : safe (prov_send_fail_msg role err).
Proof. unfold prov_send_fail_msg. sf. Qed.
#[local] Hint Resolve safe_fail : safe.
Lemma safe_gatt_close c : safe (bt_mesh_pb_gatt_close c).
Proof.
  unfold bt_mesh_pb_gatt_close. apply safe_link. intros l Hl. rewrite (lk_conn l Hl).
  rewrite bool_decide_false by done. apply safe_ret.
Qed.
#[local] Hint Resolve safe_gatt_close : safe.
Lemma safe_close role err reason : safe (close_link role err reason).
Proof. unfold close_link. sf. apply safe_ctl. cbn. lia. Qed.
#[local] Hint Resolve safe_close : safe.

Lemma safe_crypto {A} (r : res A) (P : A -> Prop) fail k :
  (exists a, r = Ok a /\ P a) \/ (exists e, r = Err e) -> safe fail -> (forall a, P a -> safe (k a)) ->
  safe (crypto r fail k).
Proof. intros [(a & -> & Ha)|[e ->]] Hf Hk; cbn; auto. Qed.
Lemma safe_crypto_block (r : res bytes) fail k :
  (exists a, r = Ok a /\ is_block a) -> safe fail -> (forall a, is_block a -> safe (k a)) -> safe (crypto r fail k).
Proof. intros. eapply safe_crypto; eauto. Qed.

Lemma safe_unexpected : safe unexpected.
Proof. apply safe_close. Qed.
Lemma safe_expect e : safe (set_expect e).
Proof. unfold set_expect. sf. Qed.
#[local] Hint Resolve safe_unexpected safe_expect : safe.
Lemma put_bytes off data l : is_bytes data -> is_bytes l -> is_bytes (put_at off data l).
Proof. intros Hd Hl. unfold put_at. rewrite !is_bytes_app. split_and!; auto with bytes. Qed.
Lemma safe_inputs off data : (off + length data <= 145)%nat -> is_bytes data -> safe (set_conf_inputs off data).
Proof.
  intros Hl Hd. apply safe_mod. intros l []. split; [split; cbn; auto|done].
  destruct lk_inputs0 as [Hn Hb]. split; [by rewrite length_put_at; rewrite Hn|by apply put_bytes].
Qed.
Lemma safe_send_or_close msg k : safe k -> safe (send_or_close msg k).
Proof. intros. unfold send_or_close, send, close. sf. Qed.

Lemma capabilities_ok : length capabilities = 11%nat /\ is_bytes capabilities.
Proof.
  split; [done|]. unfold capabilities, static_oob_bit. rewrite !is_bytes_app.
  split_and!; try apply sys_put_be16_bytes; repeat (apply Forall_cons_2; [try apply u8_byte|]); try apply Forall_nil_2.
  destruct OLD_AUTH; [destruct pe_static_val|]; by cbv.
Qed.

Lemma safe_invite data : is_bytes data -> safe (prov_invite data).
Proof.
  intros Hd. unfold prov_invite. destruct capabilities_ok as [Hc1 Hc2]. cbv zeta.
  apply safe_bind; [sf|intros _]. apply safe_bind.
  { apply safe_inputs; [cbn; lia|]. apply Forall_cons_2; [by apply byte_at_is_byte|constructor]. }
  intros _. apply safe_bind; [apply safe_prov_buf; cbn [length]; lia|intros msg].
  apply safe_bind; [apply safe_inputs; [lia|done]|intros _]. apply safe_send_or_close. sf.
Qed.

Lemma safe_auth m a z : safe (prov_auth m a z).
Proof.
  unfold prov_auth. pose proof peo_static as [Hs1 Hs2].
  destruct (m =? _); [destruct (_ || _); [sf|]|].
  - cbv zeta. rewrite decide_False by lia. apply safe_bind; [|intros _; sf].
    apply safe_mod. intros l []. split; [split; cbn; auto|done]. unfold auth_value. split.
    + rewrite length_app, length_replicate. lia.
    + apply is_bytes_app. split; [apply is_bytes_replicate; by cbv|done].
  - destruct (m =? _); [destruct (_ || _); [sf|]|sf]. apply safe_bind; [|intros _; sf].
    apply safe_mod. intros l []. split; [split; cbn; auto; apply zero_block_ok|done].
Qed.
#[local] Hint Resolve safe_auth : safe.

Lemma safe_start data : is_bytes data -> safe (prov_start data).
Proof.
  intros Hd. unfold prov_start, fail_msg. repeat (sf_step; auto with safe).
  apply safe_inputs; [rewrite length_take; lia|auto with bytes].
Qed.

Lemma genie_auth_block r : is_block (genie_auth r).
Proof. unfold genie_auth. destruct NO_OOB; [apply zero_block_ok|apply peo_auth]. Qed.
Lemma safe_genie_auth r : safe (set_genie_auth r).
Proof. apply safe_mod. intros l []. split; [split; cbn; auto; apply genie_auth_block|done]. Qed.

Lemma safe_send_confirm : safe send_confirm.
Proof.
  unfold send_confirm. apply safe_link. intros l Hl.
  apply safe_crypto_block; [apply conf_salt_block, Hl|auto with safe|]. intros salt Hsalt.
  apply safe_bind; [sf|intros _].
  apply safe_crypto_block; [by apply conf_key_block; [apply Hl|]|auto with safe|]. intros key Hkey.
  apply safe_bind; [sf|intros _]. destruct (pe_rand 16) as [rand|] eqn:Er; [|auto with safe].
  pose proof (peo_rand rand Er) as Hr. apply safe_bind; [sf|intros _]. apply safe_bind; [apply safe_genie_auth|intros _].
  apply safe_crypto_block; [apply prov_conf_block; [done|done|apply genie_auth_block]|auto with safe|].
  intros conf [Hcl _]. apply safe_bind; [apply safe_prov_buf; cbn [length]; lia|intros msg].
  apply safe_send_or_close. auto with safe.
Qed.
#[local] Hint Resolve safe_send_confirm : safe.
Lemma safe_input_complete : safe send_input_complete.
Proof. unfold send_input_complete, send. sf. Qed.
Lemma safe_confirm_if_waiting : safe confirm_if_waiting.
Proof. unfold confirm_if_waiting. sf. Qed.
#[local] Hint Resolve safe_input_complete safe_confirm_if_waiting : safe.

Lemma safe_input_number num : safe (bt_mesh_input_number num).
Proof.
  unfold bt_mesh_input_number. repeat (sf_step; auto with safe). destruct lk_auth0 as [H1 H2].
  split; [by rewrite length_put_at; rewrite H1|]. apply put_bytes; [apply sys_put_be32_bytes|done].
Qed.
Lemma safe_input_string str : is_bytes str -> safe (bt_mesh_input_string str).
Proof.
  intros Hstr. unfold bt_mesh_input_string. pose proof peo_input. repeat (sf_step; auto with safe).
  - lia.
  - destruct lk_auth0 as [H1 H2]. set (d := take _ _ ++ _).
    assert (Hd : (length d <= 16)%nat) by (unfold d; rewrite length_app, length_take, length_replicate; lia).
    split; [by rewrite length_put_at; rewrite H1; [|lia]|]. apply put_bytes; [|done].
    apply is_bytes_app. split; [auto with bytes|apply is_bytes_replicate; by cbv].
Qed.

Lemma safe_dh_key_cb key : is_bytes (default [] key) -> safe (prov_dh_key_cb key).
Proof.
  intros Hk. destruct key as [key|]; cbn; [|auto with safe]. repeat (sf_step; auto with safe).
  by apply Forall_reverse.
Qed.

Lemma swap_key_ok key : length key = 64%nat -> is_bytes key -> length (swap_key key) = 64%nat /\ is_bytes (swap_key key).
Proof.
  intros Hl Hk. unfold swap_key. split.
  - rewrite length_app, !length_reverse, !length_take, length_drop. lia.
  - apply is_bytes_app. split; apply Forall_reverse;
      [by apply is_bytes_take|by apply is_bytes_take, is_bytes_drop].
Qed.
Lemma safe_send_pub_key : safe send_pub_key.
Proof.
  unfold send_pub_key, close, send. destruct pe_pub_key as [key|] eqn:Ek; [|auto with safe].
  destruct (peo_pub_key key Ek) as [Hl Hb]. destruct (swap_key_ok key Hl Hb) as [Hsl Hsb].
  apply safe_bind; [apply safe_prov_buf; cbn [length]; lia|intros msg].
  apply safe_bind; [apply safe_inputs; [lia|done]|intros _]. sf.
Qed.
#[local] Hint Resolve safe_send_pub_key : safe.
Lemma safe_pub_key data : is_bytes data -> safe (prov_pub_key data).
Proof.
  intros Hd. unfold prov_pub_key. apply safe_bind; [|intros _; sf].
  apply safe_inputs; [rewrite length_take; lia|auto with bytes].
Qed.
Lemma safe_pub_key_ready pkey : safe (pub_key_ready pkey).
Proof. unfold pub_key_ready. sf. Qed.
Lemma safe_prov_confirm data : safe (prov_confirm data).
Proof. unfold prov_confirm. sf. Qed.

Lemma safe_random data : is_block data -> safe (prov_random data).
Proof.
  intros Hd. unfold prov_random. apply safe_bind; [apply safe_genie_auth|intros _]. apply safe_link. intros l Hl.
  apply safe_crypto_block; [apply prov_conf_block; [apply Hl|done|apply Hl]|auto with safe|]. intros conf _.
  destruct (negb _); [unfold fail_msg; sf|]. apply safe_bind.
  { apply safe_prov_buf. right. split; [done|]. cbn [length]. by rewrite (proj1 (lk_rand l Hl)). }
  intros msg. apply safe_send_or_close, safe_link. intros l2 Hl2.
  apply safe_crypto_block; [apply prov_salt_block; [apply Hl2|done|apply Hl2]|auto with safe|].
  intros salt Hs. apply safe_bind; [sf|intros _]. auto with safe.
Qed.

Lemma safe_data data : length data = 33%nat -> is_bytes data -> safe (prov_data data).
Proof.
  intros Hl Hd. unfold prov_data. apply safe_link. intros l Hlk.
  apply safe_crypto_block; [by apply session_key_block; apply Hlk|auto with safe|]. intros key Hkey.
  apply (safe_crypto _ is_nonce); [left; by apply prov_nonce_ok; apply Hlk|auto with safe|]. intros nonce Hn.
  apply (safe_crypto _ (fun _ => True)); [|unfold fail_msg; sf|].
  { destruct (prov_decrypt_total key nonce data Hkey Hn Hd Hl) as [[pdu ->]|[e ->]]; eauto. }
  intros pdu _. apply safe_crypto_block; [by apply dev_key_block; apply Hlk|auto with safe|]. intros dev_key _.
  cbv zeta. unfold send. sf.
Qed.

Lemma safe_handlers type len func : prov_handlers !! type = Some (len, func) ->
  forall data, length data = len -> is_bytes data -> safe (func data).
Proof.
  intros H data Hl Hd. apply list_elem_of_lookup_2 in H. unfold prov_handlers in H.
  repeat (apply elem_of_cons in H as [H|H]; [injection H as -> ->|]); [..|by apply elem_of_nil in H];
    try apply safe_ret.
  - by apply safe_invite.
  - by apply safe_start.
  - by apply safe_pub_key.
  - apply safe_prov_confirm.
  - by apply safe_random.
  - by apply safe_data.
Qed.

(** ** Links, retransmission *)

Lemma safe_init_rx : safe init_rx.
Proof.
  intros s [Hl [Hrb Hrs Hro] Hb Hn]. unfold init_rx, get_link. ok_steps. rewrite (lk_rx_buf _ Hl). ok_steps.
  split; cbn; [done|by split|done|lia].
Qed.

Lemma safe_reset : safe reset_link.
Proof.
  intros s Hs. unfold reset_link. eapply ok_call; [by apply clear_ok|]. cbv beta. intros _ s1 [Hs1 Ht].
  unfold mod_link. apply ok_bind, ok_emit, ok_bind, ok_modify, ok_bind, ok_modify.
  eapply (safe_bind init_rx); [apply safe_init_rx|intros _; sf|].
  destruct Hs1 as [Hl Hr Hb Hn]. rewrite Ht in Hb. split; cbn; [by destruct zero_link_ok|done|done|done].
Qed.

Lemma resend_ok ids : forall s, prov_inv s -> Forall (.∈ pl_tx_buf (ps_link s)) ids ->
  stm_ok (resend_bufs ids) (fun _ s' => prov_inv s') s.
Proof.
  induction ids as [|i ids IH]; intros s Hs Hids; cbn [resend_bufs]; [by ok_steps|].
  apply Forall_cons_iff in Hids as [Hi Hids]. pose proof Hs as [Hl Hr Hb Hn].
  destruct (bearer_buf _ _ i Hb) as [b Hbi]; [apply elem_of_app; by left|].
  apply ok_bind, ok_get, ok_bind. eapply ok_of_option; [exact Hbi|].
  destruct (ab_busy b) eqn:Eb; [by apply ok_bind, ok_ret, IH|].
  assert (Hq : i ∉ av_queue (ps_adv s)).
  { intros Hq. rewrite (br_busy _ _ Hb i b Hi Hq Hbi) in Eb. done. }
  set (cb := match ids with [] => _ | _ => _ end).
  destruct (send_pdu_run _ s i (ab_data b) [] [] cb Hb Hi) as (a & E & Hb2 & _).
  { constructor; [|constructor]. split; [done|by exists b]. } { by intros ?%elem_of_nil. }
  apply ok_bind. unfold stm_ok at 1, stm_wp. rewrite E. apply IH; [|done]. by split.
Qed.

Lemma safe_retransmit role : safe (prov_retransmit role).
Proof.
  intros s Hs. unfold prov_retransmit, get_link. ok_steps. destruct (negb _); [by ok_steps|].
  destruct (negb _); [by ok_steps|]. destruct (_ <? _); [by apply safe_reset|].
  assert (Hres : forall s', prov_inv s' -> pl_tx_buf (ps_link s') = pl_tx_buf (ps_link s) ->
    stm_ok (resend_bufs (pl_tx_buf (ps_link s))) (fun _ s' => prov_inv s') s').
  { intros s' Hs' E. apply resend_ok; [done|]. rewrite E. apply List.Forall_forall. intros j Hj. by apply list_elem_of_In. }
  destruct (_ && _); [|by apply Hres]. destruct (2 <=? _); [by apply safe_reset|].
  unfold mod_link. apply ok_bind, ok_modify, Hres; [|done]. destruct Hs as [Hl Hr Hb Hn].
  split; cbn; [by destruct Hl|done|done|done].
Qed.

(** ** Reception *)

(** A PDU of at most 29 bytes; a Start PDU announces at most two more segments. *)
Definition pdu_fits (pdu : bytes) : Prop :=
  is_bytes pdu /\ (length pdu <= ADV_DATA_SIZE)%nat /\
  (GPCF (byte_at pdu 5) = 0 -> GPC_PARAM (byte_at pdu 5) <= 2).

Lemma safe_msg_recv s : prov_inv s -> (nb_len (ps_rx s) <= nb_size (ps_rx s))%nat ->
  stm_ok prov_msg_recv (fun _ s' => prov_inv s') s.
Proof.
  intros Hs Hn. unfold prov_msg_recv. apply ok_bind, ok_get, ok_bind. pose proof (pi_rx s Hs) as [Hrb _ Hro].
  eapply ok_of_option; [unfold rx_msg; rewrite decide_True; [done|unfold nb_wf; lia]|].
  set (msg := nb_data (ps_rx s)).
  assert (Hmsg : is_bytes msg) by (unfold msg, nb_data; auto with bytes).
  destruct (negb _); [by ok_steps|].
  eapply (safe_bind (gen_prov_ack_send _)); [apply safe_ack| |done]. intros _. unfold get_link.
  apply safe_bind; [sf|intros _]. apply safe_link. intros l Hl.
  destruct (_ && _); [unfold fail_msg; sf|].
  destruct (prov_handlers !! _) as [[len func]|] eqn:Eh; [|unfold close; sf].
  destruct (bool_decide _) eqn:El; cbn [negb]; [|unfold close; sf].
  apply bool_decide_eq_true in El. eapply safe_handlers; [exact Eh| |auto with bytes].
  rewrite length_drop. lia.
Qed.

Lemma rx_write_run s off data :
  pl_rx_buf (ps_link s) = true -> (off + length data <= nb_size (ps_rx s))%nat ->
  rx_write (Z.of_nat off) data s =
  Some (tt, s <| ps_rx := (ps_rx s) <| nb_store := put_at off data (nb_store (ps_rx s)) |> |>, []).
Proof.
  intros Hb Hl. unfold rx_write. rewrite (stm_bind_pure _ _ s s s) by done.
  rewrite Hb, (proj2 (Z.leb_le _ _)), bool_decide_true by (rewrite ?Nat2Z.id; lia). cbn [andb].
  by rewrite Nat2Z.id.
Qed.

Lemma write_inv s off data : prov_inv s -> is_bytes data -> (off + length data <= nb_size (ps_rx s))%nat ->
  prov_inv (s <| ps_rx := (ps_rx s) <| nb_store := put_at off data (nb_store (ps_rx s)) |> |>).
Proof.
  intros [Hl [Hrb Hrs Hro] Hb Hn] Hd Hlen. unfold nb_size in *.
  assert (Hsz : length (put_at off data (nb_store (ps_rx s))) = length (nb_store (ps_rx s)))
    by (rewrite length_put_at; lia).
  split; cbn; [done| |done|].
  - split; cbn; [by apply put_bytes|unfold nb_size; cbn; lia|done].
  - intros Ha. unfold nb_size. cbn. rewrite Hsz. by apply Hn.
Qed.

Lemma land_bit0 a b : Z.testbit a 0 = false -> Z.testbit (Z.land a b) 0 = false.
Proof. intros H. by rewrite Z.land_spec, H. Qed.

(** The segment is marked, and the message handled when it was the last. *)
Lemma seg_received_inv s seg :
  let miss := Z.land (pl_rx_seg (ps_link s)) (u8 (Z.lnot (Z.shiftl 1 seg))) in
  prov_inv (s <| ps_link := (ps_link s) <| pl_rx_seg := miss |> |>) ->
  (nb_len (ps_rx s) <= nb_size (ps_rx s))%nat -> seg < 31 ->
  stm_ok (seg_received prov_msg_recv seg) (fun _ s' => prov_inv s') s.
Proof.
  intros miss Hs Hn Hseg. unfold seg_received, xact_seg_recv. rewrite (proj2 (Z.leb_gt _ _)) by done.
  unfold mod_link, get_link. apply ok_bind, ok_modify, ok_bind, ok_bind, ok_get. cbv beta. apply ok_ret.
  destruct (_ =? 0); [|by ok_steps]. by apply safe_msg_recv.
Qed.

Lemma cont_safe rx buf : is_bytes buf -> (length buf <= 23)%nat -> 0 <= GPC_PARAM (px_gpc rx) ->
  safe (gen_prov_cont Device prov_msg_recv rx buf).
Proof.
  intros Hb Hl H0 s Hs. unfold gen_prov_cont. cbv zeta. set (seg := GPC_PARAM (px_gpc rx)) in *. ok_steps.
  pose proof Hs as [Hlk [Hrb Hrs Hro] Hbr Hn].
  destruct (_ && _); [by apply safe_ack|]. destruct (negb _); [by ok_steps|].
  destruct (Z.ltb_spec (pl_rx_last_seg (ps_link s)) seg) as [|Hseg]; [by apply safe_close|].
  rewrite (lk_rx_buf _ Hlk). cbn [negb]. pose proof (lk_last _ Hlk) as Hlast.
  destruct ((seg =? pl_rx_last_seg (ps_link s)) && _) eqn:El; [by apply safe_close|].
  rewrite (proj2 (Z.leb_gt _ _)) by lia. destruct (Z.testbit _ seg) eqn:Et; cbn [negb]; [|by ok_steps].
  assert (Hne : pl_rx_seg (ps_link s) <> 0) by (intros E0; by rewrite E0, Z.bits_0 in Et). specialize (Hn Hne).
  assert (Hseg1 : 1 <= seg).
  { destruct (Z.eq_dec seg 0) as [E0|]; [|lia]. rewrite E0, (lk_seg _ Hlk) in Et. done. }
  replace (20 + (seg - 1) * 23) with (Z.of_nat (Z.to_nat (20 + (seg - 1) * 23))) by lia.
  set (off := Z.to_nat (20 + (seg - 1) * 23)).
  assert (Hfit : (off + length buf <= nb_size (ps_rx s))%nat).
  { subst off. destruct (Z.eqb_spec seg (pl_rx_last_seg (ps_link s))) as [E|]; cbn [andb] in El; [|lia].
    apply negb_false_iff, Z.eqb_eq in El. rewrite <- E in El.
    assert (Hc : seg = 1 \/ seg = 2) by lia. destruct Hc as [-> | ->]; [lia|].
    unfold u8 in El. Z.div_mod_to_equations. lia. }
  apply ok_bind. unfold stm_ok at 1, stm_wp. rewrite rx_write_run by (done || apply Hlk).
  pose proof (write_inv s off buf Hs Hb Hfit) as Hs1. apply seg_received_inv; [|by apply Hs1|lia].
  destruct Hs1 as [Hl1 Hr1 Hb1 Hn1]. split; cbn in *; [|done|done|auto].
  destruct Hl1. split; cbn in *; try done. by apply land_bit0.
Qed.

Lemma start_safe rx buf : is_bytes buf -> (3 <= length buf <= 23)%nat -> 0 <= GPC_PARAM (px_gpc rx) <= 2 ->
  safe (gen_prov_start Device prov_msg_recv rx buf).
Proof.
  intros Hb Hl H0 s Hs. unfold gen_prov_start. cbv zeta. set (last := GPC_PARAM (px_gpc rx)) in *.
  unfold get_link. ok_steps. pose proof Hs as [Hlk Hr Hbr Hn].
  destruct (Z.eqb_spec (pl_rx_seg (ps_link s)) 0) as [E0|]; cbn [negb]; [|by ok_steps].
  destruct (_ =? px_xact_id rx); [by apply safe_ack|].
  rewrite (lk_rx_buf _ Hlk). cbn [negb]. set (len := Z.to_nat (sys_get_be16 buf)).
  unfold rx_set_len. apply ok_bind, ok_modify. set (s1 := s <| ps_rx := _ |>).
  assert (Hs1 : prov_inv s1) by (destruct Hr; by split).
  eapply (safe_mod (fun l => (l <| pl_rx_id := px_xact_id rx |>) <| pl_rx_fcs := byte_at buf 2 |>)) in Hs1 as Hs2;
    [|by intros l []].
  unfold mod_link in *. apply ok_bind, ok_modify, ok_bind, ok_get. cbv beta. set (s2 := s1 <| ps_link := _ |>).
  change (prov_inv s2) in Hs2. case_decide; [by apply safe_close|].
  case_decide as Hlen; [by apply safe_close|]. destruct (_ && _); [by apply safe_close|].
  rewrite (proj2 (Z.leb_gt _ _)) by lia. apply ok_bind, ok_modify. set (s3 := s2 <| ps_link := _ |>).
  assert (Hfit : (0 + length (drop 3 buf) <= nb_size (ps_rx s2))%nat).
  { rewrite length_drop. destruct (ro_size _ (pi_rx _ Hs2)). lia. }
  assert (Hn' : (len <= length (put_at 0 (drop 3 buf) (nb_store (ps_rx s2))))%nat).
  { rewrite length_put_at by exact Hfit. unfold nb_size in Hlen. lia. }
  apply ok_bind. change 0 with (Z.of_nat 0) at 1. unfold stm_ok at 1, stm_wp.
  rewrite rx_write_run by (done || apply Hlk). apply (write_inv s2 0 (drop 3 buf)) in Hs2; [|auto with bytes|done].
  apply seg_received_inv; [|exact Hn'|lia]. destruct Hs2 as [Hl2 Hr2 Hb2 Hn2].
  split; cbn in *; [|done|done|intros _; exact Hn']. destruct Hl2. split; try done.
  change (Z.testbit (Z.land (u8 (Z.shiftl 1 (last + 1) - 1)) (u8 (Z.lnot (Z.shiftl 1 0)))) 0 = false).
  rewrite Z.land_spec. apply andb_false_r.
Qed.

Lemma gen_ack_safe rx : safe (gen_prov_ack rx).
Proof. unfold gen_prov_ack. sf. Qed.

Lemma link_open_safe rx buf : safe (link_open rx buf).
Proof.
  unfold link_open. apply safe_link. intros l Hl. case_decide; [sf|]. destruct (pl_active l); [sf|].
  destruct (negb _); [sf|]. apply safe_bind; [sf|intros _]. apply safe_bind; [sf|intros _].
  apply safe_bind; [apply safe_init_rx|intros _]. apply safe_bind; [apply safe_ctl; cbn; lia|intros _]. sf.
Qed.

Lemma recv_safe pdu : pdu_fits pdu -> safe (bt_mesh_pb_adv_recv pdu).
Proof.
  intros (Hb & Hl & Hf). unfold bt_mesh_pb_adv_recv. apply safe_link. intros l _. destruct (_ && _); [sf|].
  case_decide as H6; [sf|]. cbv zeta. set (rx := mk_prov_rx _ _ _). destruct (_ && _); [sf|].
  assert (Hbuf : is_bytes (drop 6 pdu)) by auto with bytes.
  assert (Hlen : (length (drop 6 pdu) <= 23)%nat) by (rewrite length_drop; unfold ADV_DATA_SIZE in Hl; lia).
  assert (Hg : 0 <= GPC_PARAM (px_gpc rx)).
  { unfold GPC_PARAM. apply Z.shiftr_nonneg. cbn. pose proof (byte_at_is_byte pdu 5 Hb) as [? _]. done. }
  unfold gen_prov_recv. apply safe_link. intros l2 _. cbv zeta.
  destruct ((GPCF (px_gpc rx) =? 0) && bool_decide (length (drop 6 pdu) < 3)%nat) eqn:E3; [apply safe_ret|].
  destruct (negb _ && _); [apply safe_ret|].
  destruct (Z.eqb_spec (GPCF (px_gpc rx)) 0) as [E0|]; cbn [andb] in E3.
  { apply bool_decide_eq_false in E3. apply start_safe; [done|lia|split; [done|by apply Hf]]. }
  destruct (_ =? 1); [apply gen_ack_safe|]. destruct (_ =? 2); [by apply cont_safe|].
  unfold gen_prov_ctl. apply safe_link. intros l3 _. destruct (_ =? _); [apply link_open_safe|].
  destruct (_ =? _); [|sf]. destruct (pl_active l3); [apply safe_reset|sf].
Qed.

(** ** The advertising thread *)

Lemma safe_effects es : safe (run_prov_effects es).
Proof.
  induction es as [|e es IH]; cbn [run_prov_effects]; [sf|]. apply safe_bind; [|done].
  unfold run_prov_effect, ack_complete, buf_sent. apply safe_bind; [apply safe_emit|intros _].
  assert (Hp : safe (stm_modify (fun s => s <| ps_pending_ack := XACT_NVAL |>))).
  { intros s [Hl Hr Hb Hn]. ok_steps. by split. }
  sf.
Qed.

(** The thread runs until its next sleep; [err] is what the host answers. *)
Definition adv_thread_run (err : Z) : L unit :=
  s <- stm_get ;;
  match ps_sending s with None => prov_adv_turn err | Some _ => prov_adv_exit err end.

Lemma safe_thread err : safe (adv_thread_run err).
Proof.
  intros s Hs. unfold adv_thread_run. ok_steps. pose proof Hs as [Hl Hr Hb Hn].
  destruct (ps_sending s) as [cb|] eqn:Es.
  - unfold prov_adv_exit. ok_steps. rewrite Es. apply ok_bind, ok_modify, safe_effects. by split.
  - unfold prov_adv_turn. apply ok_bind, ok_get. cbv beta. rewrite Es. apply ok_bind.
    destruct (turn_spec _ pe_adv_int_min err _ Hb) as (effs & cb & a & E & Ha & _).
    eapply ok_of_option; [exact E|]. cbv beta iota. apply ok_bind, ok_modify, safe_effects. by split.
Qed.
End safe.

(** ** Every run *)

(** What happens to a device: a PB-ADV PDU arrives, the retransmit timer
    expires, the advertising thread runs, the host has computed the Diffie-
    Hellman key or the public key, the user has entered a number or a string,
    the application resets the link. *)
Inductive dev_op :=
| DvRecv (pdu : bytes)
| DvRetransmit
| DvThread (err : Z)
| DvDhKey (key : option bytes)
| DvPubKey (key : option bytes)
| DvNumber (num : Z)
| DvString (str : bytes)
| DvReset.

Definition op_ok (op : dev_op) : Prop :=
  match op with
  | DvRecv pdu => pdu_fits pdu
  | DvDhKey key => is_bytes (default [] key)
  | DvString str => is_bytes str
  | _ => True
  end.

Definition dev_step {pcfg : ProvConfig} {hal : SecHal} (env : ProvEnv) (op : dev_op) : L unit :=
  match op with
  | DvRecv pdu => bt_mesh_pb_adv_recv pdu
  | DvRetransmit => prov_retransmit Device
  | DvThread err => adv_thread_run err
  | DvDhKey key => prov_dh_key_cb key
  | DvPubKey key => pub_key_ready key
  | DvNumber num => bt_mesh_input_number num ;; mret tt
  | DvString str => bt_mesh_input_string str ;; mret tt
  | DvReset => bt_mesh_prov_reset_link
  end.
Fixpoint dev_run {pcfg : ProvConfig} {hal : SecHal} (ops : list (ProvEnv * dev_op)) : L unit :=
  match ops with [] => mret tt | (env, op) :: ops => dev_step env op ;; dev_run ops end.

Section run.
Context {pcfg : ProvConfig} {hal : SecHal} {halok : SecHalOk hal} (Hgatt : PB_GATT = true).

Lemma step_safe env {envok : ProvEnvOk env} op : op_ok op -> safe (dev_step env op).
Proof.
  destruct op; cbn; intros Hop.
  - by apply recv_safe.
  - by apply safe_retransmit.
  - apply safe_thread.
  - by apply safe_dh_key_cb.
  - by apply safe_pub_key_ready.
  - apply safe_bind; [by apply safe_input_number|intros; apply safe_ret].
  - apply safe_bind; [by apply safe_input_string|intros; apply safe_ret].
  - unfold bt_mesh_prov_reset_link. apply safe_link. intros l _. destruct (pl_active l); [apply safe_reset|apply safe_ret].
Qed.

Lemma run_safe ops : Forall (fun o => ProvEnvOk o.1 /\ op_ok o.2) ops -> safe (dev_run ops).
Proof.
  induction 1 as [|[env op] ops [He Ho] H IH]; cbn [dev_run]; [apply safe_ret|].
  apply safe_bind; [by apply step_safe|done].
Qed.

(** After [bt_mesh_prov_init]. *)
Definition init_state (n : nat) : prov_state :=
  (prov_static n) <| ps_link := ((zero_link <| pl_retransmit := true |>) <| pl_rx_prev_id := XACT_NVAL |>)
    <| pl_rx_buf := true |> |>.
Lemma init_state_eq n : bt_mesh_prov_init 0 (prov_static n) = Some (0, init_state n, []).
Proof. done. Qed.
Lemma prov_init_inv n : prov_inv (init_state n).
Proof.
  split; cbn; [by destruct zero_link_ok| |apply bearer_init|lia]. rewrite Hgatt.
  split; [by apply (bool_decide_unpack (is_bytes _))|unfold nb_size; cbn; lia|done].
Qed.
End run.

(** C27: Whatever PDUs of its bearer a device receives, in whatever order, and
    whatever timers, threads and user input come between, provisioning over
    PB-ADV never runs into undefined behaviour, as long as no Start PDU
    announces more than two continuation segments; the buffers it sends from
    are never leaked nor used after their release. *)
Theorem device_safe {pcfg : ProvConfig} {hal : SecHal} {halok : SecHalOk hal} n ops :
  PB_GATT = true -> Forall (fun o => ProvEnvOk o.1 /\ op_ok o.2) ops ->
  exists s e, (bt_mesh_prov_init 0 ;; dev_run ops) (prov_static n) = Some (tt, s, e) /\ prov_inv s.
Proof.
  intros Hg Hops. rewrite (stm_bind_pure _ _ _ _ _ (init_state_eq n)).
  pose proof (run_safe Hg ops Hops (init_state n) (prov_init_inv Hg n)) as H.
  apply wp_inv in H as ([] & s & e & E & Hs). eauto.
Qed.

#[export] Instance example_env_ok : ProvEnvOk (example_env 1 2).
Proof.
  split; cbn.
  - split; [lia|by apply (bool_decide_unpack (is_bytes _))].
  - intros key [= <-]. split; [done|by apply (bool_decide_unpack (is_bytes _))].
  - intros r [= <-]. split; [done|by apply (bool_decide_unpack (is_bytes _))].
  - intros r. split; [done|by apply (bool_decide_unpack (is_bytes _))].
  - lia.
Qed.

(** A link is opened, an Invite arrives, the answer is sent. *)
Definition link_open_pdu : bytes :=
  pb_header 5 0 (GPC_CTL LINK_OPEN) ++ pe_uuid (ProvEnv := example_env 1 2).
Definition example_ops : list dev_op :=
  [DvRecv link_open_pdu; DvThread 0; DvThread 0; DvRecv (start_pdu 5 0 [PROV_INVITE; 3]);
   DvThread 0; DvThread 0; DvRetransmit; DvReset].

Lemma device_safe_witness :
  let pcfg := default_prov_config in
  exists s e, (bt_mesh_prov_init 0 ;;
    dev_run (hal := sw_hal) (map (pair (example_env 1 2)) example_ops)) (prov_static 12) = Some (tt, s, e) /\ prov_inv s.
Proof.
  intros pcfg. apply (device_safe (hal := sw_hal) 12 (map (pair (example_env 1 2)) example_ops)); [done|].
  repeat (apply Forall_cons_2; [split; [apply example_env_ok|]|]); try apply Forall_nil_2; cbn; try done;
    (split; [by apply (bool_decide_unpack (is_bytes _))|split; [vm_compute; lia|by vm_compute]]).
Defined.

(** A neighbour that announces four continuation segments for a short message
    overwrites what lies behind the receive buffer. *)
Example cont_overrun :
  let pcfg := default_prov_config in
  let pdus := [link_open_pdu; pb_header 5 0 (GPC_START 4) ++ sys_put_be16 60 ++ [0] ++ replicate 20 1;
    pb_header 5 0 (GPC_CONT 3) ++ replicate 23 0xee] in
  let run k := (bt_mesh_prov_init 0 ;; dev_run (hal := sw_hal)
    (map (fun pdu => (example_env 1 2, DvRecv pdu)) (take k pdus))) (prov_static 12) in
  is_Some (run 2%nat) /\ run 3%nat = None.
Proof. split; [eexists|]; vm_compute; reflexivity. Qed.
