(* ===== verification/PbFlow.v ===== *)
(** * A side of a PB-ADV link between two bursts of PDUs

    The advertising buffers of [PbAdv] hidden: [impl] relates the state to what
    the protocol keeps, and [proto] says what a computation makes of that, what
    it hands to the advertising bearer and what it tells the application. *)

From S2P Require Import Prelude NetBuf NetPool Aes Cmac Ccm MeshCrypto Adv AdvView NetState Beacon PbAdv Prov Provisioner PbTrans.

(** The PDUs handed to the bearer. *)
Definition wire (e : list prov_event) : list bytes :=
  omap (fun x => match x with PvAdv d => Some d | _ => None end) e.
(** The events of the protocol, rather than of the bearer. *)
Definition outside (x : prov_event) : bool :=
  match x with PvBearer _ | PvAdv _ | PvRetransmit _ | PvRetransmitCancel => false | _ => true end.
Definition outcome (e : list prov_event) : list prov_event := List.filter outside e.

Lemma wire_app e1 e2 : wire (e1 ++ e2) = wire e1 ++ wire e2.
Proof. apply omap_app. Qed.
Lemma outcome_app e1 e2 : outcome (e1 ++ e2) = outcome e1 ++ outcome e2.
Proof. apply List.filter_app. Qed.
Lemma wire_adv ds : wire (map PvAdv ds) = ds.
Proof. unfold wire. induction ds as [|d ds IH]; [done|]. cbn. by f_equal. Qed.
Lemma outcome_adv ds : outcome (map PvAdv ds) = [].
Proof. by induction ds. Qed.

(** The protocol's view: the link but for the buffers, the context, the message
    received, how many buffers are queued, whether some are held, and what was
    acknowledged. *)
Record absn := Ab {
  ab_link : prov_link;
  ab_ctx : prov_ctx;
  ab_msg : option bytes;
  ab_queue : nat;
  ab_held : bool;
  ab_acks : list Z
}.

Definition with_bufs (ids : list nat) (l : prov_link) : prov_link := l <| pl_tx_buf := ids |>.

Section flow.
Context {pcfg : ProvConfig} {env : ProvEnv}.
(** The number of advertising buffers. *)
Context (n : nat).

Record impl (a : absn) (s : prov_state) : Prop := {
  im_link : ps_link s = with_bufs (pl_tx_buf (ps_link s)) (ab_link a);
  im_ctx : ps_ctx s = ab_ctx a;
  im_off : nb_off (ps_rx s) = 0%nat;
  im_rx : (65 <= nb_size (ps_rx s))%nat;
  im_msg m : ab_msg a = Some m -> rx_msg (ps_rx s) = Some m;
  im_bearer : bearer (pl_tx_buf (ps_link s)) (ps_adv s);
  im_size : length (av_refs (ps_adv s)) = n;
  im_queue : (length (av_queue (ps_adv s)) <= ab_queue a)%nat;
  im_bufs : (length (pl_tx_buf (ps_link s)) <= 3)%nat;
  im_held : bool_decide (pl_tx_buf (ps_link s) = []) = negb (ab_held a);
  im_ack : ps_pending_ack s = XACT_NVAL \/ ps_pending_ack s ∈ ab_acks a;
  im_sending : ps_sending s = None
}.

Definition proto {X} (m : L X) (a : absn) (x : X) (a' : absn) (w : list bytes) (o : list prov_event) : Prop :=
  forall s, impl a s -> exists s' e, m s = Some (x, s', e) /\ impl a' s' /\ wire e = w /\ outcome e = o.

(** ** Rules *)

Lemma proto_ret {X} (x : X) a : proto (mret x) a x a [] [].
Proof. intros s Hs. by exists s, []. Qed.

Lemma proto_bind {X Y} (m : L X) (f : X -> L Y) a x a1 w1 o1 y a2 w2 o2 :
  proto m a x a1 w1 o1 -> proto (f x) a1 y a2 w2 o2 -> proto (stm_bind m f) a y a2 (w1 ++ w2) (o1 ++ o2).
Proof.
  intros Hm Hf s Hs. destruct (Hm s Hs) as (s1 & e1 & E1 & Hs1 & <- & <-).
  destruct (Hf s1 Hs1) as (s2 & e2 & E2 & Hs2 & <- & <-). exists s2, (e1 ++ e2).
  unfold stm_bind. by rewrite E1, E2, wire_app, outcome_app.
Qed.
(** A computation that says nothing, in front of the rest. *)
Lemma proto_seq {X Y} (m : L X) (f : X -> L Y) a x a1 y a2 w o :
  proto m a x a1 [] [] -> proto (f x) a1 y a2 w o -> proto (stm_bind m f) a y a2 w o.
Proof. apply (proto_bind m f a x a1 [] []). Qed.
(** The rest says nothing. *)
Lemma proto_then {X Y} (m : L X) (f : X -> L Y) a x a1 y a2 w o :
  proto m a x a1 w o -> proto (f x) a1 y a2 [] [] -> proto (stm_bind m f) a y a2 w o.
Proof.
  intros Hm Hf. rewrite <- (app_nil_r w), <- (app_nil_r o). by eapply proto_bind.
Qed.

(** The PDUs of one and the events of the other. *)
Lemma proto_tell {X Y} (m : L X) (f : X -> L Y) a x a1 y a2 w o :
  proto m a x a1 w [] -> proto (f x) a1 y a2 [] o -> proto (stm_bind m f) a y a2 w o.
Proof. intros Hm Hf. rewrite <- (app_nil_r w), <- (app_nil_l o). by eapply proto_bind. Qed.

Lemma proto_emit e a : proto (stm_emit e) a tt a (wire e) (outcome e).
Proof. intros s Hs. by exists s, e. Qed.

Lemma proto_get_link {X} (f : prov_link -> L X) l c m q h p x a' w o :
  (forall ids, bool_decide (ids = []) = negb h -> proto (f (with_bufs ids l)) (Ab l c m q h p) x a' w o) ->
  proto (stm_bind get_link f) (Ab l c m q h p) x a' w o.
Proof.
  intros Hf s Hs. rewrite (stm_bind_pure _ _ s (ps_link s) s) by done.
  specialize (Hf _ (im_held _ s Hs)). pose proof (im_link _ s Hs) as E. cbn [ab_link] in E. rewrite <- E in Hf. by apply Hf.
Qed.
Lemma proto_get {X} (f : prov_state -> L X) a x a' w o :
  (forall s, impl a s -> proto (f s) a x a' w o) -> proto (s <- stm_get ;; f s) a x a' w o.
Proof.
  intros Hf s Hs. rewrite (stm_bind_pure _ _ s s s) by done. by apply Hf.
Qed.

Lemma proto_mod_link f l l' c m q h p :
  (forall ids l, f (with_bufs ids l) = with_bufs ids (f l)) -> f l = l' ->
  proto (mod_link f) (Ab l c m q h p) tt (Ab l' c m q h p) [] [].
Proof.
  intros Hf <- s [El Ec Ho Hr Hm Hb Hs Hq Hl Hh Ha Hse]; cbn [ab_link ab_ctx ab_msg ab_queue ab_held ab_acks] in *.
  set (s1 := s <| ps_link := f (ps_link s) |>). exists s1, []. split; [done|]. split; [|done].
  assert (E : ps_link s1 = with_bufs (pl_tx_buf (ps_link s)) (f l)) by (subst s1; cbn; rewrite El at 1; apply Hf).
  assert (Et : pl_tx_buf (ps_link s1) = pl_tx_buf (ps_link s)) by (by rewrite E).
  split; try rewrite Et; try done.
Qed.

(** While no buffer is held the link can be replaced. *)
Lemma proto_mod_idle f l l' c m q p :
  f (with_bufs [] l) = with_bufs [] l' ->
  proto (mod_link f) (Ab l c m q false p) tt (Ab l' c m q false p) [] [].
Proof.
  intros Hf s [El Ec Ho Hr Hm Hb Hs Hq Hl Hh Ha Hse]; cbn [ab_link ab_ctx ab_msg ab_queue ab_held ab_acks] in *.
  set (s1 := s <| ps_link := f (ps_link s) |>). exists s1, []. split; [done|]. split; [|done].
  apply bool_decide_eq_true in Hh. rewrite Hh in El, Hb.
  assert (E : ps_link s1 = with_bufs [] l') by (subst s1; cbn; by rewrite El).
  split; rewrite ?E; try done. cbn. lia.
Qed.

Lemma proto_mod_ctx f l c m q h p :
  proto (Provr.mod_ctx f) (Ab l c m q h p) tt (Ab l (f c) m q h p) [] [].
Proof.
  intros s [El Ec Ho Hr Hm Hb Hs Hq Hl Hh Ha Hse]; cbn [ab_link ab_ctx ab_msg ab_queue ab_held ab_acks] in *.
  eexists _, []. split; [reflexivity|]. split; [|done]. split; try done. cbn. by rewrite Ec.
Qed.

Lemma proto_init_rx l c m q h p : pl_rx_buf l = true ->
  proto init_rx (Ab l c m q h p) tt (Ab l c None q h p) [] [].
Proof.
  intros Hrx. unfold init_rx. apply proto_get_link. intros ids _.
  change (pl_rx_buf (with_bufs ids l)) with (pl_rx_buf l). rewrite Hrx.
  intros s [El Ec Ho Hr Hm Hb Hs Hq Hl Hh Ha Hse]; cbn [ab_link ab_ctx ab_msg ab_queue ab_held ab_acks] in *.
  eexists _, []. split; [reflexivity|]. split; [|done]. by split.
Qed.

Lemma proto_if_true {X} (b : bool) (m1 m2 : L X) a x a' w o :
  b = true -> proto m1 a x a' w o -> proto (if b then m1 else m2) a x a' w o.
Proof. by intros ->. Qed.
Lemma proto_if_false {X} (b : bool) (m1 m2 : L X) a x a' w o :
  b = false -> proto m2 a x a' w o -> proto (if b then m1 else m2) a x a' w o.
Proof. by intros ->. Qed.
Lemma proto_eq {X} (m : L X) a x a' w o a2 w2 o2 :
  proto m a x a' w o -> a' = a2 -> w = w2 -> o = o2 -> proto m a x a2 w2 o2.
Proof. by intros ? <- <- <-. Qed.

(** ** Sending *)

Lemma proto_clear l c m q h p : proto prov_clear_tx (Ab l c m q h p) tt (Ab l c m q false p) [] [].
Proof.
  intros s [El Ec Ho Hr Hm Hb Hs Hq Hl Hh Ha Hse]; cbn [ab_link ab_ctx ab_msg ab_queue ab_held ab_acks] in *.
  destruct (clear_run s Hb) as (a & E & Hb' & Hq' & Hl'). eexists _, _. split; [exact E|].
  split; [|done]. split; cbn; try done; [by rewrite El|congruence|by rewrite Hq'|lia].
Qed.

(** The state of [impl] with the buffers changed. *)
Lemma impl_adv l c m q h p s a q' h' ids l' :
  impl (Ab l c m q h p) s -> bearer ids a -> length (av_refs a) = n -> (length (av_queue a) <= q')%nat ->
  (length ids <= 3)%nat -> bool_decide (ids = []) = negb h' ->
  impl (Ab l' c m q' h' p) ((s <| ps_link := with_bufs ids l' |>) <| ps_adv := a |>).
Proof. intros [El Ec Ho Hr Hm Hb Hs Hq Hl Hh Ha Hse] Hb' Hs' Hq' Hl' Hh'. by split. Qed.

Definition ack_pdu (id xact : Z) : bytes := pb_header id xact GPC_ACK.

Lemma proto_ack id l c m q h p x :
  (q + 4 <= n)%nat -> x <> XACT_NVAL -> x ∉ p -> pl_id l = id ->
  proto (gen_prov_ack_send x) (Ab l c m q h p) tt (Ab l c m (S q) h (x :: p)) [ack_pdu id x] [].
Proof.
  intros Hroom Hx Hp <- s [El Ec Ho Hr Hm Hb Hs Hq Hl Hh Ha Hse]; cbn [ab_link ab_ctx ab_msg ab_queue ab_held ab_acks] in *.
  unfold gen_prov_ack_send. rewrite (stm_bind_pure _ _ s s s) by done.
  assert (Hne : (ps_pending_ack s =? x) = false).
  { apply Z.eqb_neq. intros Hx'. rewrite Hx' in Ha. by destruct Ha. }
  rewrite Hne. set (d := pb_header (pl_id (ps_link s)) x GPC_ACK).
  destruct (create_run _ s Hb) as (i & a & E & Hi & Hb1 & Hq1 & Hl1 & (b & Hbi & _) & Hold).
  { unfold room. lia. }
  rewrite (stm_bind_pure _ _ _ _ _ E). set (s1 := s <| ps_adv := a |>).
  set (first := ps_pending_ack s =? XACT_NVAL).
  set (s2 := if first then s1 <| ps_pending_ack := x |> else s1).
  assert (E2 : (if first then stm_modify (fun s => s <| ps_pending_ack := x |>) else mret tt : L unit) s1 = Some (tt, s2, [])).
  { subst s2. by destruct first. }
  rewrite (stm_bind_pure _ _ _ _ _ E2).
  assert (Ea : ps_adv s2 = a) by (subst s2; by destruct first).
  assert (Hd : (length d <= ADV_DATA_SIZE)%nat) by (unfold d, pb_header, ADV_DATA_SIZE; cbn; lia).
  rewrite (stm_bind_pure _ _ _ _ _ (fill_run i d s2 Hd)). rewrite Ea.
  set (a2 := av_update _ i a). set (s3 := s2 <| ps_adv := a2 |>).
  assert (Hb2 : bearer (i :: pl_tx_buf (ps_link s)) a2) by (by apply bearer_update).
  assert (Hh3 : holds (ps_adv s3) [i] [d]).
  { constructor; [|constructor]. split.
    - cbn. rewrite Hq1. intros Hin. apply Hi, elem_of_app. by right.
    - exists (b <| ab_data := d |>). subst s3 a2. cbn. by rewrite av_buf_update, decide_True, Hbi by done. }
  destruct (send_pdu_run (i :: pl_tx_buf (ps_link s)) s3 i d [] [] (if first then Some CbAck else None) Hb2)
    as (a3 & E3 & Hb3 & _ & Hq3 & Hl3); [by left|done|by intros ?%elem_of_nil|].
  unfold stm_bind at 1. rewrite E3. set (s4 := s3 <| ps_adv := a3 |>). cbn [mod_adv stm_modify].
  eexists _, _. split; [reflexivity|]. split; [|subst d; by rewrite El].
  assert (Hlink : ps_link s2 = ps_link s) by (subst s2; by destruct first).
  pose proof (bearer_unref _ _ _ Hb3) as Hb4.
  assert (Hn3 : length (av_refs (av_unref i a3)) = n).
  { rewrite length_unref, Hl3. replace (ps_adv s3) with a2 by done. unfold a2. rewrite av_refs_update. congruence. }
  assert (Hqn : (length (av_queue (av_unref i a3)) <= S q)%nat).
  { replace (av_queue (av_unref i a3)) with (av_queue a3) by done. rewrite Hq3, length_app. cbn. rewrite Hq1. lia. }
  assert (Hack : ps_pending_ack s2 = XACT_NVAL \/ ps_pending_ack s2 ∈ x :: p).
  { subst s2 first. destruct (Z.eqb_spec (ps_pending_ack s) XACT_NVAL) as [Hf|Hf]; [right; by left|].
    destruct Ha as [Ha|Ha]; [done|]. right. by right. }
  assert (Hc2 : ps_ctx s2 = ps_ctx s) by (subst s2; by destruct first).
  assert (Hrx : ps_rx s2 = ps_rx s) by (subst s2; by destruct first).
  assert (Hse2 : ps_sending s2 = ps_sending s) by (subst s2; by destruct first).
  split; cbn; rewrite ?Hlink, ?Hc2, ?Hrx, ?Hse2; try done.
Qed.

(** The link after sending a message. *)
Definition sent_as (tx : Z) (l : prov_link) : prov_link := (l <| pl_tx_id := tx |>) <| pl_tx_start := pe_now |>.

Lemma proto_send role msg id l c m q h p x tx :
  (q + 3 <= n)%nat -> pl_conn l = None -> pb_msg msg ->
  next_transaction_id role (pl_tx_id l) = (x, tx) -> pl_id l = id ->
  proto (prov_send role msg) (Ab l c m q h p) 0 (Ab (sent_as tx l) c m (q + 3) true p)
    (pb_pdus id x msg) [].
Proof.
  intros Hroom Hconn Hmsg Hx <- s Hs. pose proof Hs as [El Ec Ho Hr Hm Hb Hsz Hq Hl Hh Ha Hse]; cbn [ab_link ab_ctx ab_msg ab_queue ab_held ab_acks] in *.
  unfold prov_send. rewrite (stm_bind_pure _ _ s (ps_link s) s) by done.
  assert (Ec2 : pl_conn (ps_link s) = None) by (by rewrite El).
  rewrite Ec2. replace (if PB_GATT then None else None) with (@None nat) by (by destruct PB_GATT).
  assert (Et : pl_tx_id (ps_link s) = pl_tx_id l) by (by rewrite El).
  pose proof (send_adv_run role msg s Hmsg Hb) as H. rewrite Et, Hx in H.
  destruct H as (a & new & E & Hb' & Hnew & Hq' & Hl'); [unfold room, TX_BUFS; lia|].
  assert (Ei : pl_id (ps_link s) = pl_id l) by (by rewrite El). rewrite Ei in E.
  eexists _, _. split; [exact E|]. split; [|split].
  - replace (sent_link tx new (ps_link s)) with (with_bufs new (sent_as tx l)) by (by rewrite El).
    eapply impl_adv; [exact Hs|done|congruence|rewrite Hq', length_app; unfold TX_BUFS in *; lia|unfold TX_BUFS in *; lia|].
    apply bool_decide_false. by destruct new; [cbn in Hnew; lia|].
  - apply (wire_adv (pb_pdus _ _ _)).
  - apply (outcome_adv (pb_pdus _ _ _)).
Qed.

Definition ctl_pdu (id op : Z) (data : bytes) : bytes := pb_header id 0x00 (GPC_CTL op) ++ data.
(** The link after a bearer control PDU. *)
Definition ctl_as (role : prov_role) (op : Z) (data : bytes) (l : prov_link) : prov_link :=
  let l := l <| pl_tx_start := pe_now |> in
  if bool_decide (role = Provisioner) && (op =? LINK_CLOSE) then
    (l <| pl_send_link_close := Z.lor (Z.shiftl (Z.land (byte_at data 0) 3) 1) 1 |>) <| pl_tx_id := 0 |>
  else l.

Lemma proto_ctl role op data id l l' c m q h p :
  (q + 3 <= n)%nat -> (length data <= 16)%nat -> pl_id l = id -> ctl_as role op data l = l' ->
  proto (bearer_ctl_send role op data) (Ab l c m q h p) 0 (Ab l' c m (S q) true p)
    [ctl_pdu id op data] [].
Proof.
  intros Hroom Hdata <- <- s Hs. pose proof Hs as [El Ec Ho Hr Hm Hb Hsz Hq Hl Hh Ha Hse]; cbn [ab_link ab_ctx ab_msg ab_queue ab_held ab_acks] in *.
  unfold bearer_ctl_send, stm_bind at 1. destruct (clear_run s Hb) as (a & -> & Hb1 & Hq1 & Hl1).
  set (s1 := (s <| ps_link := (ps_link s) <| pl_tx_buf := [] |> |>) <| ps_adv := a |>).
  set (d := ctl_pdu (pl_id (ps_link s)) op data).
  assert (Hd : (length d <= ADV_DATA_SIZE)%nat).
  { unfold d, ctl_pdu, pb_header, ADV_DATA_SIZE. rewrite !length_app. cbn [length sys_put_be32 sys_put_be16 app]. lia. }
  destruct (create_fill_run d s1 [] [] Hb1) as (i & a2 & Hb2 & Hh2 & Hq2 & Hl2 & a0 & E2 & Ea2).
  { unfold room. subst s1. cbn. rewrite Hq1, Hl1. lia. } { constructor. } { done. }
  rewrite (stm_bind_pure _ _ _ _ _ E2). set (s2 := s1 <| ps_adv := a0 |>).
  rewrite (stm_bind_pure _ _ s2 (ps_link s2) s2) by done.
  rewrite (stm_bind_pure _ _ _ _ _ (fill_run i d s2 Hd)). replace (av_update _ i (ps_adv s2)) with a2 by done.
  set (s3 := (s2 <| ps_adv := a2 |>) <| ps_link := (ps_link s2) <| pl_tx_buf := [i] |> |>).
  rewrite (stm_bind_pure _ _ _ tt s3) by done.
  destruct (reliable_run s3 [d] Hb2 Hh2) as (a4 & E4 & Hb4 & Hq4 & Hl4).
  unfold stm_bind at 1. rewrite E4. set (s4 := (s3 <| ps_link := _ |>) <| ps_adv := a4 |>).
  set (s5 := s4 <| ps_link := with_bufs [i] (ctl_as role op data l) |>).
  assert (E5 : (if bool_decide (role = Provisioner) && (op =? LINK_CLOSE) then
         mod_link (fun l => (l <| pl_send_link_close :=
             Z.lor (Z.shiftl (Z.land (byte_at data 0) 3) 1) 1 |>) <| pl_tx_id := 0 |>)
       else mret tt : L unit) s4 = Some (tt, s5, [])).
  { subst s5 s4 s3 s2 s1. unfold ctl_as, with_bufs. destruct (bool_decide _ && _); unfold mod_link; cbn;
      rewrite El; done. }
  rewrite (stm_bind_pure _ _ _ _ _ E5). eexists _, _. split; [reflexivity|]. split; [|split; [|done]].
  - change s5 with ((s <| ps_link := with_bufs [i] (ctl_as role op data l) |>) <| ps_adv := a4 |>).
    eapply impl_adv; [exact Hs|done| | |cbn; lia|done].
    + rewrite Hl4. subst s3. cbn. rewrite Hl2. subst s1. cbn. congruence.
    + rewrite Hq4, length_app. subst s3. cbn. rewrite Hq2. subst s1. cbn. rewrite Hq1. lia.
  - unfold d. by rewrite El.
Qed.

Lemma proto_prov_buf k msg a :
  (PROV_BUF_HEADROOM + length msg <= (PROV_BUF_HEADROOM + k + 3) / 4 * 4)%nat ->
  proto (prov_buf k msg) a msg a [] [].
Proof. intros H. unfold prov_buf. rewrite decide_True by done. apply proto_ret. Qed.

(** ** The thread *)

(** [k] turns of the advertising thread; the host accepts every start and stop. *)
Fixpoint drain (k : nat) : L unit :=
  match k with O => mret tt | S k => prov_adv_turn 0 ;; prov_adv_exit 0 ;; drain k end.

Definition acked (s s' : prov_state) : Prop := s' = s \/ s' = s <| ps_pending_ack := XACT_NVAL |>.

Lemma effect_run e s : exists s' ev, run_prov_effect e s = Some (tt, s', ev) /\ acked s s' /\
  wire ev = [] /\ outcome ev = [].
Proof.
  destruct e as [t d iv|dur err [|]|dur| |err [|]]; unfold run_prov_effect;
    try (eexists _, _; split; [reflexivity|]; split; [by (left + right)|done]).
  rewrite stm_bind_emit. unfold buf_sent. rewrite (stm_bind_pure _ _ s (ps_link s) s) by done.
  destruct (pl_tx_buf (ps_link s)); eexists _, _; (split; [reflexivity|]; split; [by left|done]).
Qed.
Lemma effects_run es : forall s, exists s' ev, run_prov_effects es s = Some (tt, s', ev) /\ acked s s' /\
  wire ev = [] /\ outcome ev = [].
Proof.
  induction es as [|e es IH]; intros s; [eexists _, _; split; [reflexivity|]; split; [by left|done]|].
  destruct (effect_run e s) as (s1 & e1 & E1 & H1 & Hw1 & Ho1).
  destruct (IH s1) as (s2 & e2 & E2 & H2 & Hw2 & Ho2). exists s2, (e1 ++ e2). cbn [run_prov_effects].
  unfold stm_bind. rewrite E1, E2. split; [done|]. split.
  - unfold acked in *. destruct H1 as [->| ->], H2 as [->| ->]; [by left|by right|by right|by right].
  - by rewrite wire_app, outcome_app, Hw1, Ho1, Hw2, Ho2.
Qed.

Lemma impl_acked a s s' : acked s s' -> impl a s -> impl a s'.
Proof.
  intros [->| ->]; [done|]. intros [El Ec Ho Hr Hm Hb Hs Hq Hl Hh Ha Hse]. split; try done. by left.
Qed.

Lemma turn_run l c m q h p s :
  impl (Ab l c m q h p) s ->
  exists s' e, (prov_adv_turn 0 ;; prov_adv_exit 0) s = Some (tt, s', e) /\
    impl (Ab l c m (pred q) h p) s' /\ wire e = [] /\ outcome e = [].
Proof.
  intros Hi. pose proof Hi as [El Ec Ho Hr Hm Hb Hs Hq Hl Hh Ha Hse]. cbn [ab_link ab_ctx ab_msg ab_queue ab_held ab_acks] in *.
  destruct (turn_spec _ pe_adv_int_min 0 _ Hb) as (effs & cb & a & Et & Hb' & Hq' & Hs').
  set (s1 := (s <| ps_adv := a |>) <| ps_sending := cb |>).
  destruct (effects_run effs s1) as (s2 & e2 & E2 & H2 & Hw2 & Ho2).
  assert (E1 : prov_adv_turn 0 s = Some (tt, s2, e2)).
  { unfold prov_adv_turn. rewrite (stm_bind_pure _ _ s s s), Hse, Et by done.
    rewrite (stm_bind_pure _ _ s (effs, cb, a) s) by done. rewrite (stm_bind_pure _ _ s tt s1) by done. exact E2. }
  assert (Hc2 : ps_sending s2 = cb) by (by destruct H2 as [->| ->]).
  assert (Hex : exists s3 e3, prov_adv_exit 0 s2 = Some (tt, s3, e3) /\ acked (s2 <| ps_sending := None |>) s3 /\
    wire e3 = [] /\ outcome e3 = []).
  { unfold prov_adv_exit. rewrite (stm_bind_pure _ _ s2 s2 s2), Hc2 by done. destruct cb as [cb|].
    - rewrite (stm_bind_pure _ _ s2 tt (s2 <| ps_sending := None |>)) by done. apply effects_run.
    - exists s2, []. split; [done|]. split; [|done]. left. destruct s2. cbn in *. by subst. }
  destruct Hex as (s3 & e3 & E3 & H3 & Hw3 & Ho3). exists s3, (e2 ++ e3). split; [|split].
  - unfold stm_bind. by rewrite E1, E3.
  - eapply impl_acked; [exact H3|].
    assert (Hi0 : impl (Ab l c m (pred q) h p) ((s <| ps_adv := a |>) <| ps_sending := None |>)).
    { split; cbn; try done; [congruence|]. rewrite Hq'. destruct (av_queue (ps_adv s)); cbn in *; lia. }
    destruct H2 as [->| ->]; [exact Hi0|]. refine (impl_acked _ _ _ _ Hi0). by right.
  - by rewrite wire_app, outcome_app, Hw2, Ho2, Hw3, Ho3.
Qed.

(** As many turns as there are buffers queued empty the queue. *)
Lemma proto_drain k : forall l c m q h p, (q <= k)%nat ->
  proto (drain k) (Ab l c m q h p) tt (Ab l c m 0 h p) [] [].
Proof.
  induction k as [|k IH]; intros l c m q h p Hq s Hs.
  - exists s, []. split; [done|]. by replace q with 0%nat in Hs by lia.
  - destruct (turn_run l c m q h p s Hs) as (s1 & e1 & E1 & Hs1 & Hw1 & Ho1).
    destruct (IH l c m (pred q) h p ltac:(lia) s1 Hs1) as (s2 & e2 & E2 & Hs2 & Hw2 & Ho2).
    exists s2, (e1 ++ e2). split; [|split; [done|by rewrite wire_app, outcome_app, Hw1, Ho1, Hw2, Ho2]].
    cbn [drain]. rewrite <- stm_bind_assoc. unfold stm_bind at 1. by rewrite E1, E2.
Qed.

(** ** Receiving *)

(** The link when the segments of a message are there. *)
Definition received (xact : Z) (msg : bytes) (l : prov_link) : prov_link :=
  (((l <| pl_rx_id := xact |>) <| pl_rx_fcs := bt_mesh_fcs_calc msg (Z.of_nat (length msg)) |>)
    <| pl_rx_seg := 0 |>) <| pl_rx_last_seg := Z.of_nat (seg_last msg) |>.

(** An open link over which no message is under way. *)
Record quiet (id xact : Z) (l : prov_link) : Prop := {
  qu_active : pl_active l = true;
  qu_id : pl_id l = id;
  qu_conn : pl_conn l = None;
  qu_buf : pl_rx_buf l = true;
  qu_seg : pl_rx_seg l = 0;
  qu_prev : pl_rx_prev_id l <> xact
}.

Lemma proto_message {role msg_recv recv} {receiver : PbReceiver role msg_recv recv} id xact msg l c m q h p a' w o :
  0 <= id < 4294967296 -> is_byte xact -> pb_msg msg -> quiet id xact l ->
  proto msg_recv (Ab (received xact msg l) c (Some msg) q h p) tt a' w o ->
  proto (recv_pdus recv (pb_pdus id xact msg)) (Ab l c m q h p) tt a' w o.
Proof.
  intros Hid Hx Hmsg [Ha Hi Hconn Hbuf Hseg Hprev] Hp s Hs. pose proof Hs as [El Ec Ho Hr Hm Hb Hsz Hq Hl Hh Hack Hse].
  cbn [ab_link ab_ctx ab_msg ab_queue ab_held ab_acks] in *.
  assert (Hidle : rx_idle id xact s) by (split; [rewrite El; cbn; done..|done|done]).
  destruct (in_order_run id xact msg Hid Hx Hmsg s Hidle) as (t & [[Et Er _ Hot Hlen Hszt _] Hd] & ->).
  apply Hp. assert (Ea : ps_adv t = ps_adv s) by (by rewrite Er).
  assert (Eb : pl_tx_buf (ps_link t) = pl_tx_buf (ps_link s)) by (by rewrite Et).
  split; cbn [ab_link ab_ctx ab_msg ab_queue ab_held ab_acks]; rewrite ?Ea, ?Eb; try done; [| | |by rewrite Er|by rewrite Er].
  - rewrite Et. by rewrite El.
  - by rewrite Er.
  - intros m' [= <-]. unfold rx_msg. rewrite decide_True, Hd; [done|].
    unfold nb_wf. rewrite Hot, Hlen. destruct Hmsg as (_ & ? & _). lia.
Qed.

(** A burst of PDUs arrives. *)
Lemma proto_recv_nil recv a : proto (recv_pdus recv []) a tt a [] [].
Proof. apply proto_ret. Qed.
Lemma proto_recv_cons recv d ds a a1 w1 o1 a2 w2 o2 :
  proto (recv d) a tt a1 w1 o1 -> proto (recv_pdus recv ds) a1 tt a2 w2 o2 ->
  proto (recv_pdus recv (d :: ds)) a tt a2 (w1 ++ w2) (o1 ++ o2).
Proof. intros H1 H2. cbn [recv_pdus]. eapply proto_bind; [exact H1|exact H2]. Qed.
End flow.

(** ** The provisioner as a receiver *)

Section provisioner.
Context {pcfg : ProvConfig} {hal : SecHal} {env : ProvEnv}.

Lemma provisioner_recv_header t id xact gpc buf :
  0 <= id < 4294967296 -> is_byte xact -> is_byte gpc ->
  Provr.bt_mesh_prov_adv_recv (pb_header id xact gpc ++ buf) t = Provr.gen_prov_recv (mk_prov_rx id xact gpc) buf t.
Proof.
  intros Hi Hx Hg. destruct (pb_header_parse id xact gpc buf Hi Hx Hg) as (E1 & E2 & E3 & E4 & Hl).
  unfold Provr.bt_mesh_prov_adv_recv. rewrite !decide_False by lia. by rewrite E1, E2, E3, E4.
Qed.

#[export] Instance provisioner_receiver : PbReceiver Provisioner Provr.prov_msg_recv Provr.bt_mesh_prov_adv_recv.
Proof.
  split.
  - intros t id xact last buf Ha Hid Hi Hx Hl Hb. destruct (gpc_start last Hl) as (Hg & Hf & _).
    rewrite provisioner_recv_header by done. unfold Provr.gen_prov_recv. cbn [px_gpc]. rewrite Hf.
    rewrite (stm_bind_pure _ _ t (ps_link t) t) by done.
    by rewrite Ha, bool_decide_false by lia.
  - intros t id xact k buf Ha Hid Hi Hx Hl. destruct (gpc_cont k Hl) as (Hg & Hf & _).
    rewrite provisioner_recv_header by done. unfold Provr.gen_prov_recv. cbn [px_gpc]. rewrite Hf.
    rewrite (stm_bind_pure _ _ t (ps_link t) t) by done. by rewrite Ha.
  - intros t id xact k msg Ha Hi Hx Hm Hk. destruct (seg_pdu_header id xact msg k Hm Hk) as (gpc & data & -> & Hg & Hf).
    rewrite provisioner_recv_header by done. unfold Provr.gen_prov_recv. cbn [px_gpc].
    rewrite (stm_bind_pure _ _ t (ps_link t) t) by done. rewrite Ha.
    destruct Hf as [-> | ->]; cbn [Z.eqb negb andb]; [by destruct (bool_decide _)|done].
Qed.
End provisioner.
