(* ===== verification/ProvPair.v ===== *)
(** * A device and a provisioner

    Both sides of the provisioning protocol over one PB-ADV link, from the
    Link Open PDU to the Link Close PDU. *)

From S2P Require Import Prelude NetBuf NetPool Aes Cmac Ccm MeshCrypto NetState Adv AdvView Beacon PbAdv Prov Provisioner PbTrans PbFlow ProvCrypto.

(** ** The two sides and the air between them *)

Section session.
Context {pcfg : ProvConfig}.

(** The keys the application has asked the controller for. *)
Definition dh_requests (e : list prov_event) : list bytes :=
  omap (fun x => match x with PvDhKeyGen pk => Some pk | _ => None end) e.

(** A side of the link: its handler of PDUs, its callback for a DH key, and the
    controller that computes the key. *)
Record party := mk_party {
  pt_env : ProvEnv;
  pt_recv : bytes -> L unit;
  pt_dh_cb : option bytes -> L unit;
  pt_dh : bytes -> bytes
}.

Fixpoint answer_dh (s : party) (pks : list bytes) : L unit :=
  match pks with [] => mret tt | pk :: pks => pt_dh_cb s (Some (pt_dh s pk)) ;; answer_dh s pks end.

(** The PDUs of a burst arrive, the controller answers, and the advertising
    thread sends what waits in the [n] buffers. *)
Definition burst (n : nat) (s : party) (ds : list bytes) : L unit := fun t =>
  match recv_pdus (pt_recv s) ds t with
  | Some (_, t1, e1) =>
      match (answer_dh s (dh_requests e1) ;; drain (env := pt_env s) n) t1 with
      | Some (_, t2, e2) => Some (tt, t2, e1 ++ e2)
      | None => None
      end
  | None => None
  end.

(** The sides take turns: each hears what the other has sent. *)
Fixpoint session (n k : nat) (a b : party) (air : list bytes) (sa sb : prov_state) :
    option (prov_state * prov_state * list prov_event * list prov_event * list bytes) :=
  match k with
  | O => Some (sa, sb, [], [], air)
  | S k =>
      match burst n a air sa with
      | Some (_, sa, ea) =>
          match session n k b a (wire ea) sb sa with
          | Some (sb, sa, eb, ea', air) => Some (sa, sb, ea ++ ea', eb, air)
          | None => None
          end
      | None => None
      end
  end.

Lemma requests_outcome e : dh_requests (outcome e) = dh_requests e.
Proof. induction e as [|[] e IH]; cbn; try done. by f_equal. Qed.
End session.

Section proto.
Context {pcfg : ProvConfig} (n : nat).

Lemma proto_burst (s : party) ds a l c m q h p w1 o1 w2 o2 a1 :
  proto n (recv_pdus (pt_recv s) ds) a tt a1 w1 o1 ->
  proto n (answer_dh s (dh_requests o1)) a1 tt (Ab l c m q h p) w2 o2 -> (q <= n)%nat ->
  proto n (burst n s ds) a tt (Ab l c m 0 h p) (w1 ++ w2) (o1 ++ o2).
Proof.
  intros H1 H2 Hq t Ht. destruct (H1 t Ht) as (t1 & e1 & E1 & Ht1 & <- & <-).
  rewrite requests_outcome in H2.
  destruct (proto_bind n _ (fun _ => drain (env := pt_env s) n) _ _ _ _ _ _ _ _ _ H2
    (proto_drain n n l c m q h p Hq) t1 Ht1) as (t2 & e2 & E2 & Ht2 & Hw & Ho).
  rewrite !app_nil_r in Hw, Ho. subst w2 o2.
  exists t2, (e1 ++ e2). unfold burst. rewrite E1, E2, wire_app, outcome_app. done.
Qed.

(** A link on which a message has arrived and is acknowledged. *)
Definition heard (xact : Z) (msg : bytes) (l : prov_link) : prov_link :=
  ((received xact msg l) <| pl_rx_prev_id := xact |>) <| pl_rx_id := 0 |>.

Lemma ack_header id x : 0 <= id < 4294967296 -> is_byte x ->
  exists buf, ack_pdu id x = pb_header id x GPC_ACK ++ buf /\ buf = [].
Proof. intros. exists []. by rewrite app_nil_r. Qed.

(** ** The device *)

Section device.
Context {hal : SecHal} {env : ProvEnv}.

Lemma device_recv id x gpc buf l c m q h p a' w o :
  pl_active l = true -> pl_id l = id -> 0 <= id < 4294967296 -> is_byte x -> is_byte gpc ->
  proto n (gen_prov_recv (mk_prov_rx id x gpc) buf) (Ab l c m q h p) tt a' w o ->
  proto n (bt_mesh_pb_adv_recv (pb_header id x gpc ++ buf)) (Ab l c m q h p) tt a' w o.
Proof.
  intros Ha Hid Hi Hx Hg Hp s Hs. rewrite (device_recv_header s id x gpc buf); try done; [by apply Hp|..];
    by rewrite (im_link _ _ _ Hs).
Qed.

Lemma device_hears id x type data len func l c m q h p a' w o :
  0 <= id < 4294967296 -> is_byte x -> x <> XACT_NVAL -> x ∉ p -> (q + 4 <= n)%nat ->
  pb_msg (type :: data) -> quiet id x l -> pl_expect l = type ->
  prov_handlers !! Z.to_nat type = Some (len, func) -> length data = len ->
  proto n (func data) (Ab (heard x (type :: data) l) c (Some (type :: data)) (S q) h (x :: p)) tt a' w o ->
  proto n (recv_pdus bt_mesh_pb_adv_recv (pb_pdus id x (type :: data))) (Ab l c m q h p) tt a'
    (ack_pdu id x :: w) o.
Proof.
  intros Hid Hx Hnv Hxp Hq Hmsg Hqu Hexp Hh Hlen Hp.
  apply (proto_message n id x (type :: data)); try done. set (msg := type :: data) in *.
  unfold prov_msg_recv. apply proto_get. intros s Hs.
  rewrite (im_msg _ _ _ Hs msg) by done. cbn [stm_of_option]. eapply proto_seq; [apply proto_ret|]. cbv zeta.
  apply proto_if_false.
  { rewrite (im_link _ _ _ Hs). apply negb_false_iff. by apply fcs_self. }
  replace (pl_rx_id (ps_link s)) with x by (by rewrite (im_link _ _ _ Hs)).
  replace (ack_pdu id x :: w) with ([ack_pdu id x] ++ w) by done. rewrite <- (app_nil_l o).
  eapply proto_bind; [apply proto_ack; [done..|apply Hqu]|].
  eapply proto_seq; [by apply proto_mod_link|]. apply proto_get_link. intros ids _.
  apply proto_if_false.
  { change (negb (type =? PROV_FAILED) && negb (type =? pl_expect l) = false).
    rewrite Hexp, Z.eqb_refl. apply andb_false_r. }
  change (byte_at msg 0) with type. rewrite Hh.
  apply proto_if_false; [|exact Hp].
  apply negb_false_iff, bool_decide_eq_true. unfold msg. cbn. by rewrite Hlen.
Qed.

(** Its message was acknowledged. *)
Lemma device_acked id x l c m q p :
  0 <= id < 4294967296 -> is_byte x -> pl_active l = true -> pl_id l = id -> pl_tx_id l = x ->
  proto n (bt_mesh_pb_adv_recv (ack_pdu id x)) (Ab l c m q true p) tt (Ab l c m q false p) [] [].
Proof.
  intros Hid Hx Ha Hi Ht. rewrite <- (app_nil_r (ack_pdu id x)). unfold ack_pdu. apply device_recv; [done..|].
  unfold gen_prov_recv. apply proto_get_link. intros ids _. change (GPCF (px_gpc _)) with 1.
  apply proto_if_false; [done|]. apply proto_if_false.
  { change (negb (pl_active l) && true = false). by rewrite Ha. }
  apply proto_if_false; [done|]. apply proto_if_true; [done|].
  unfold gen_prov_ack. apply proto_get_link. intros ids' Hids.
  apply bool_decide_eq_false in Hids. destruct ids' as [|i ids']; [done|].
  change (pl_tx_buf (with_bufs (i :: ids') l)) with (i :: ids').
  apply proto_if_true; [by apply Z.eqb_eq|]. apply proto_clear.
Qed.

Lemma proto_crypto {A} (r : res A) (v : A) fail (k : A -> L unit) a a' w o :
  r = Ok v -> proto n (k v) a tt a' w o -> proto n (crypto r fail k) a tt a' w o.
Proof. by intros ->. Qed.

Lemma proto_send_or_close msg k id l c m q h p x tx a' w o :
  (q + 3 <= n)%nat -> pl_conn l = None -> pb_msg msg -> next_transaction_id Device (pl_tx_id l) = (x, tx) ->
  pl_id l = id ->
  proto n k (Ab (sent_as tx l) c m (q + 3) true p) tt a' w o ->
  proto n (send_or_close msg k) (Ab l c m q h p) tt a' (pb_pdus id x msg ++ w) o.
Proof.
  intros Hq Hc Hm Hx Hid Hk. unfold send_or_close. rewrite <- (app_nil_l o).
  eapply proto_bind; [by apply proto_send|]. apply proto_if_true; [done|exact Hk].
Qed.

(** *** Its handlers *)

(** The link is put together with the message buffers the proxy needs. *)
Context (Hgatt : PB_GATT = true).

Lemma device_buf k msg a : (length msg <= (k + 8) / 4 * 4 - 5)%nat -> (5 <= (k + 8) / 4 * 4)%nat ->
  proto n (prov_buf k msg) a msg a [] [].
Proof.
  intros H H5. apply proto_prov_buf. unfold PROV_BUF_HEADROOM. rewrite Hgatt.
  replace (5 + k + 3)%nat with (k + 8)%nat by lia. lia.
Qed.
Lemma pb_msg_ok msg : is_bytes msg -> (1 <= length msg <= 42)%nat \/ (44 <= length msg <= 65)%nat -> pb_msg msg.
Proof. intros Hb Hl. split; [done|lia]. Qed.

Definition dl_invite (tx : Z) (l : prov_link) : prov_link :=
  (sent_as tx (l <| pl_conf_inputs := put_at 1 capabilities (put_at 0 [0] (pl_conf_inputs l)) |>))
    <| pl_expect := PROV_START |>.
Lemma device_invite id l c m q h p x tx :
  (q + 3 <= n)%nat -> pl_conn l = None -> next_transaction_id Device (pl_tx_id l) = (x, tx) ->
  pl_id l = id -> is_bytes capabilities ->
  proto n (prov_invite [0]) (Ab l c m q h p) tt (Ab (dl_invite tx l) c m (q + 3) true p)
    (pb_pdus id x (PROV_CAPABILITIES :: capabilities)) [].
Proof.
  intros Hq Hc Hx Hi Hb. unfold prov_invite. cbv zeta. change (byte_at [0] 0) with 0.
  eapply proto_seq; [apply proto_ret|]. eapply proto_seq; [by apply proto_mod_link|].
  eapply proto_seq; [by apply device_buf; cbn; lia|]. eapply proto_seq; [by apply proto_mod_link|].
  rewrite <- (app_nil_r (pb_pdus _ _ _)).
  eapply proto_send_or_close; [done|done| |done|done|].
  { apply pb_msg_ok; [by constructor|cbn; lia]. }
  eapply proto_seq; [by apply proto_mod_link|]. apply proto_get_link. intros ids _. rewrite Hgatt.
  change (pl_conn (with_bufs _ _)) with (pl_conn l). rewrite Hc. apply proto_ret.
Qed.

Definition start_static : bytes := [PROV_ALG_P256; 0; AUTH_METHOD_STATIC; 0; 0].
Definition dl_start (sv : bytes) (l : prov_link) : prov_link :=
  ((l <| pl_conf_inputs := put_at 12 start_static (pl_conf_inputs l) |>) <| pl_expect := PROV_PUB_KEY |>)
    <| pl_auth := auth_value sv |>.
Lemma device_start sv l c m q h p :
  pe_public_key_type = 0 -> default [] pe_static_val = sv -> (length sv <= 16)%nat ->
  proto n (prov_start start_static) (Ab l c m q h p) tt (Ab (dl_start sv l) c m q h p) [] [].
Proof.
  intros Ht Hsv Hl. unfold prov_start. apply proto_if_false; [done|]. apply proto_if_false.
  { rewrite Ht. done. }
  eapply proto_seq; [by apply proto_mod_link|]. eapply proto_seq; [by apply proto_mod_link|].
  eapply (proto_seq n _ _ _ 0); [|apply proto_if_false; [done|apply proto_ret]].
  unfold prov_auth. apply proto_if_true; [done|]. apply proto_if_false; [done|]. cbv zeta.
  rewrite Hsv, decide_False by lia. eapply proto_then; [by apply proto_mod_link|apply proto_ret].
Qed.

(** The public key of the other side goes to the controller as it was made. *)
Definition dl_pub_key (tx : Z) (theirs ours : bytes) (l : prov_link) : prov_link :=
  (sent_as tx (l <| pl_conf_inputs := put_at 81 ours (put_at 17 theirs (pl_conf_inputs l)) |>))
    <| pl_expect := PROV_CONFIRM |>.
Lemma device_pub_key key theirs remote id l c m q h p x tx :
  (q + 3 <= n)%nat -> pl_conn l = None -> next_transaction_id Device (pl_tx_id l) = (x, tx) -> pl_id l = id ->
  pl_local_pub_key l = true -> pe_pub_key = Some key -> is_bytes (swap_key key) ->
  length (swap_key key) = 64%nat -> length theirs = 64%nat ->
  swap_key (take 64 (drop 17 (put_at 81 (swap_key key) (put_at 17 theirs (pl_conf_inputs l))))) = remote ->
  pe_dh_key_gen remote = 0 ->
  proto n (prov_pub_key theirs) (Ab l c m q h p) tt (Ab (dl_pub_key tx theirs (swap_key key) l) c m (q + 3) true p)
    (pb_pdus id x (PROV_PUB_KEY :: swap_key key)) [PvDhKeyGen remote].
Proof.
  intros Hq Hc Hx Hid Hloc Hk Hb Hl64 Ht <- Hdh. unfold prov_pub_key.
  set (remote := swap_key (take 64 _)) in *. rewrite take_ge by lia.
  eapply proto_seq; [by apply proto_mod_link|]. apply proto_get_link. intros ids _.
  apply proto_if_false; [by apply negb_false_iff|]. unfold send_pub_key. rewrite Hk.
  eapply proto_seq; [apply device_buf; cbn [length]; rewrite ?Hl64; cbn; lia|].
  eapply proto_seq; [by apply proto_mod_link|].
  eapply proto_tell; [apply (proto_send n Device (PROV_PUB_KEY :: swap_key key) id); [done|done| |done|done]|].
  { apply pb_msg_ok; [by constructor|cbn [length]; rewrite Hl64; lia]. }
  apply proto_get_link. intros ids' _. cbv zeta.
  apply proto_if_false; [by apply negb_false_iff, Z.eqb_eq|].
  eapply proto_then; [apply (proto_emit n [PvDhKeyGen remote])|by apply proto_mod_link].
Qed.

Definition l_dh_key (key : bytes) (l : prov_link) : prov_link :=
  (l <| pl_dhkey := reverse key |>) <| pl_have_dhkey := true |>.
Lemma device_dh_key key l c m q h p :
  pl_wait_number l = false -> pl_wait_string l = false -> pl_send_confirm l = false ->
  proto n (prov_dh_key_cb (Some key)) (Ab l c m q h p) tt (Ab (l_dh_key key l) c m q h p) [] [].
Proof.
  intros H1 H2 H3. unfold prov_dh_key_cb. eapply proto_seq; [by apply proto_mod_link|].
  apply proto_get_link. intros ids _. apply proto_if_false.
  { change (pl_wait_number l || pl_wait_string l = false). by rewrite H1, H2. }
  unfold confirm_if_waiting. apply proto_get_link. intros ids' _. apply proto_if_false; [done|apply proto_ret].
Qed.

Definition dl_confirm (tx : Z) (theirs salt key rand auth : bytes) (l : prov_link) : prov_link :=
  (sent_as tx (((((l <| pl_conf := theirs |>) <| pl_conf_salt := salt |>) <| pl_conf_key := key |>)
    <| pl_rand := rand |>) <| pl_auth := auth |>)) <| pl_expect := PROV_RANDOM |>.
Lemma device_confirm theirs salt key rand auth conf id l c m q h p x tx :
  (q + 3 <= n)%nat -> pl_conn l = None -> next_transaction_id Device (pl_tx_id l) = (x, tx) -> pl_id l = id ->
  pl_have_dhkey l = true -> length theirs = 16%nat ->
  bt_mesh_prov_conf_salt (pl_conf_inputs l) = Ok salt -> bt_mesh_prov_conf_key (pl_dhkey l) salt = Ok key ->
  pe_rand 16 = Some rand -> genie_auth rand = auth -> bt_mesh_prov_conf key rand auth = Ok conf -> is_block conf ->
  proto n (prov_confirm theirs) (Ab l c m q h p) tt
    (Ab (dl_confirm tx theirs salt key rand auth l) c m (q + 3) true p)
    (pb_pdus id x (PROV_CONFIRM :: conf)) [].
Proof.
  intros Hq Hc Hx Hid Hdh Ht Hsalt Hkey Hr <- Hconf [Hl Hb]. unfold prov_confirm. rewrite take_ge by lia.
  eapply proto_seq; [by apply proto_mod_link|]. apply proto_get_link. intros ids _.
  apply proto_if_false; [by apply negb_false_iff|]. unfold send_confirm. apply proto_get_link. intros ids' _.
  eapply proto_crypto; [exact Hsalt|]. eapply proto_seq; [by apply proto_mod_link|].
  eapply proto_crypto; [exact Hkey|]. eapply proto_seq; [by apply proto_mod_link|]. rewrite Hr.
  eapply proto_seq; [by apply proto_mod_link|]. eapply proto_seq; [by apply proto_mod_link|].
  eapply proto_crypto; [exact Hconf|].
  eapply proto_seq; [apply device_buf; cbn [length]; rewrite ?Hl; cbn; lia|].
  rewrite <- (app_nil_r (pb_pdus _ _ _)). eapply proto_send_or_close; [done|done| |done|done|by apply proto_mod_link].
  apply pb_msg_ok; [by constructor|cbn [length]; rewrite Hl; lia].
Qed.

Definition dl_random (tx : Z) (auth salt : bytes) (l : prov_link) : prov_link :=
  ((sent_as tx (l <| pl_auth := auth |>)) <| pl_prov_salt := salt |>) <| pl_expect := PROV_DATA |>.
Lemma device_random theirs salt auth id l c m q h p x tx :
  (q + 3 <= n)%nat -> pl_conn l = None -> next_transaction_id Device (pl_tx_id l) = (x, tx) -> pl_id l = id ->
  genie_auth theirs = auth -> bt_mesh_prov_conf (pl_conf_key l) theirs auth = Ok (pl_conf l) -> is_block (pl_rand l) ->
  bt_mesh_prov_salt (pl_conf_salt l) theirs (pl_rand l) = Ok salt ->
  proto n (prov_random theirs) (Ab l c m q h p) tt (Ab (dl_random tx auth salt l) c m (q + 3) true p)
    (pb_pdus id x (PROV_RANDOM :: pl_rand l)) [].
Proof.
  intros Hq Hc Hx Hid <- Hconf [Hl Hb] Hsalt. unfold prov_random, set_genie_auth.
  eapply proto_seq; [by apply proto_mod_link|]. apply proto_get_link. intros ids _.
  eapply proto_crypto; [exact Hconf|]. apply proto_if_false; [by apply negb_false_iff, bool_decide_eq_true|].
  eapply proto_seq; [apply device_buf; cbn [length]; rewrite ?Hl; cbn; lia|].
  rewrite <- (app_nil_r (pb_pdus _ _ _)). eapply proto_send_or_close; [done|done| |done|done|].
  { apply pb_msg_ok; [by constructor|cbn [length]; change (pl_rand (with_bufs _ _)) with (pl_rand l); rewrite Hl; lia]. }
  apply proto_get_link. intros ids' _. eapply proto_crypto; [exact Hsalt|].
  eapply proto_seq; [by apply proto_mod_link|]. by apply proto_mod_link.
Qed.

Definition dl_data (tx : Z) (l : prov_link) : prov_link := (sent_as tx l) <| pl_expect := 0 |>.
Lemma device_data data session_key nonce pdu dev_key id l c m q h p x tx :
  (q + 3 <= n)%nat -> pl_conn l = None -> next_transaction_id Device (pl_tx_id l) = (x, tx) -> pl_id l = id ->
  bt_mesh_session_key (pl_dhkey l) (pl_prov_salt l) = Ok session_key ->
  bt_mesh_prov_nonce (pl_dhkey l) (pl_prov_salt l) = Ok nonce ->
  bt_mesh_prov_decrypt session_key nonce data = Ok pdu ->
  bt_mesh_dev_key (pl_dhkey l) (pl_prov_salt l) = Ok dev_key ->
  let addr := sys_get_be16 (drop 23 pdu) in
  proto n (prov_data data) (Ab l c m q h p) tt (Ab (dl_data tx l) c m (q + 3) true p)
    (pb_pdus id x [PROV_COMPLETE])
    [PvProvData addr; PvProvision (take 16 pdu) (sys_get_be16 (drop 16 pdu)) (byte_at pdu 18)
       (sys_get_be32 (drop 19 pdu)) addr dev_key].
Proof.
  intros Hq Hc Hx Hid Hsk Hnonce Hdec Hdk addr. unfold prov_data. apply proto_get_link. intros ids _.
  eapply proto_crypto; [exact Hsk|]. eapply proto_crypto; [exact Hnonce|]. eapply proto_crypto; [exact Hdec|].
  eapply proto_crypto; [exact Hdk|]. cbv zeta. change (sys_get_be16 (drop 23 pdu)) with addr.
  eapply (proto_bind n _ _ _ _ _ [] [_] _ _ (pb_pdus id x [PROV_COMPLETE]) [_]); [apply (proto_emit n [PvProvData addr])|].
  eapply proto_seq; [by apply device_buf; cbn; lia|].
  eapply proto_tell; [apply (proto_send n Device [PROV_COMPLETE] id); [done|done| |done|done]|].
  { apply pb_msg_ok; [by repeat constructor|cbn; lia]. }
  eapply proto_seq; [by apply proto_mod_link|]. apply proto_emit.
Qed.

(** *** Its link *)

Definition dl_open (id : Z) (l : prov_link) : prov_link :=
  (((l <| pl_id := id |>) <| pl_active := true |>) <| pl_tx_start := pe_now |>) <| pl_expect := PROV_INVITE |>.
Lemma device_open id l c m q h p :
  (q + 3 <= n)%nat -> 0 <= id < 4294967296 -> pl_active l = false -> pl_rx_buf l = true ->
  pe_provisioned = false -> length pe_uuid = 16%nat ->
  proto n (bt_mesh_pb_adv_recv (ctl_pdu id LINK_OPEN pe_uuid)) (Ab l c m q h p) tt
    (Ab (dl_open id l) c None (S q) true p) [ctl_pdu id LINK_ACK []] [PvLinkOpen false; PvProvStart (Some id)].
Proof.
  intros Hq Hid Ha Hrx Hp Hu. change (ctl_pdu id LINK_OPEN pe_uuid) with (pb_header id 0 (GPC_CTL LINK_OPEN) ++ pe_uuid).
  unfold bt_mesh_pb_adv_recv.
  destruct (pb_header_parse id 0 (GPC_CTL LINK_OPEN) pe_uuid Hid) as (E1 & E2 & E3 & E4 & Hl); [done|done|].
  apply proto_get_link. intros ids _. change (pl_active (with_bufs ids l)) with (pl_active l).
  rewrite Ha, Hp, decide_False by lia. cbv zeta. cbn [negb andb]. rewrite E1, E2, E3, E4.
  unfold gen_prov_recv. apply proto_get_link. intros ids2 _. change (pl_active (with_bufs ids2 l)) with (pl_active l).
  rewrite Ha. change (GPCF (px_gpc _)) with 3. cbn [Z.eqb negb andb].
  unfold gen_prov_ctl. change (GPC_PARAM (px_gpc _)) with LINK_OPEN. cbv zeta.
  apply proto_get_link. intros ids3 _. apply proto_if_true; [done|].
  unfold link_open. apply proto_get_link. intros ids4 _. rewrite decide_False by lia.
  change (pl_active (with_bufs ids4 l)) with (pl_active l). rewrite Ha. rewrite take_ge by lia.
  rewrite bool_decide_true by done. cbn [negb].
  eapply (proto_bind n _ _ _ _ _ [] [_] _ _ [_] [_]); [apply (proto_emit n [PvLinkOpen false])|].
  eapply proto_seq; [by apply proto_mod_link|]. eapply proto_seq; [by apply proto_init_rx|].
  eapply proto_tell.
  { by apply (proto_ctl n Device LINK_ACK [] id _
      (((l <| pl_id := id |>) <| pl_active := true |>) <| pl_tx_start := pe_now |>)); [|cbn; lia|..]. }
  eapply proto_then; [apply (proto_emit n [PvProvStart (Some id)])|]. by apply proto_mod_link.
Qed.

(** A link as [reset_link] leaves it. *)
Definition l_reset (l : prov_link) : prov_link :=
  (((zero_link <| pl_retransmit := pl_retransmit l |>) <| pl_rx_prev_id := XACT_NVAL |>)
    <| pl_local_pub_key := bool_decide (is_Some pe_pub_key) |>) <| pl_rx_buf := true |>.
Lemma proto_reset l c m q h p :
  proto n reset_link (Ab l c m q h p) tt (Ab (l_reset l) c None q false p) [] [PvLinkClose false].
Proof.
  unfold reset_link. eapply proto_seq; [apply proto_clear|].
  eapply proto_then; [apply (proto_emit n [PvLinkClose false])|].
  eapply proto_seq; [by apply (proto_mod_idle n _ l (((zero_link <| pl_retransmit := pl_retransmit l |>)
    <| pl_rx_prev_id := XACT_NVAL |>) <| pl_local_pub_key := bool_decide (is_Some pe_pub_key) |>))|].
  eapply proto_seq; [by apply proto_mod_link|].
  eapply proto_seq; [by apply proto_init_rx|]. apply proto_get_link. intros ids _.
  apply proto_if_false; [done|apply proto_ret].
Qed.
Lemma device_close id reason l c m q h p :
  0 <= id < 4294967296 -> pl_active l = true -> pl_id l = id ->
  proto n (bt_mesh_pb_adv_recv (ctl_pdu id LINK_CLOSE [reason])) (Ab l c m q h p) tt
    (Ab (l_reset l) c None q false p) [] [PvLinkClose false].
Proof.
  intros Hid Ha Hi. unfold ctl_pdu. apply device_recv; [done..|].
  unfold gen_prov_recv. apply proto_get_link. intros ids2 _.
  change (GPCF (px_gpc _)) with 3. apply proto_if_false; [done|].
  apply proto_if_false; [by rewrite andb_comm|].
  apply proto_if_false; [done|]. apply proto_if_false; [done|]. apply proto_if_false; [done|].
  unfold gen_prov_ctl. change (GPC_PARAM (px_gpc _)) with LINK_CLOSE. cbv zeta.
  apply proto_get_link. intros ids3 _. apply proto_if_false; [done|]. apply proto_if_true; [done|].
  change (pl_active (with_bufs ids3 l)) with (pl_active l). rewrite Ha. apply proto_reset.
Qed.
End device.

(** ** The provisioner *)

Section provisioner.
Context {hal : SecHal} {env : ProvEnv}.
Context (Hgatt : PB_GATT = true).

Lemma provisioner_recv id x gpc buf l c m q h p a' w o :
  0 <= id < 4294967296 -> is_byte x -> is_byte gpc ->
  proto n (Provr.gen_prov_recv (mk_prov_rx id x gpc) buf) (Ab l c m q h p) tt a' w o ->
  proto n (Provr.bt_mesh_prov_adv_recv (pb_header id x gpc ++ buf)) (Ab l c m q h p) tt a' w o.
Proof.
  intros Hi Hx Hg Hp s Hs. rewrite (provisioner_recv_header s id x gpc buf) by done. by apply Hp.
Qed.

Lemma provisioner_hears id x type data len func l c m q h p a' w o :
  0 <= id < 4294967296 -> is_byte x -> x <> XACT_NVAL -> x ∉ p -> (q + 4 <= n)%nat ->
  pb_msg (type :: data) -> quiet id x l -> pl_expect l = type ->
  Provr.prov_handlers !! Z.to_nat type = Some (len, func) -> length data = len ->
  proto n (func data) (Ab (heard x (type :: data) l) c (Some (type :: data)) (S q) h (x :: p)) tt a' w o ->
  proto n (recv_pdus Provr.bt_mesh_prov_adv_recv (pb_pdus id x (type :: data))) (Ab l c m q h p) tt a'
    (ack_pdu id x :: w) o.
Proof.
  intros Hid Hx Hnv Hxp Hq Hmsg Hqu Hexp Hh Hlen Hp.
  apply (proto_message n id x (type :: data)); try done. set (msg := type :: data) in *.
  unfold Provr.prov_msg_recv. apply proto_get. intros s Hs.
  rewrite (im_msg _ _ _ Hs msg) by done. cbn [stm_of_option]. eapply proto_seq; [apply proto_ret|]. cbv zeta.
  apply proto_if_false.
  { rewrite (im_link _ _ _ Hs). apply negb_false_iff. by apply fcs_self. }
  apply proto_if_false.
  { rewrite (im_link _ _ _ Hs). change (negb (type =? PROV_FAILED) && negb (type =? pl_expect l) = false).
    rewrite Hexp, Z.eqb_refl. apply andb_false_r. }
  change (byte_at msg 0) with type. rewrite Hh.
  apply proto_if_false.
  { apply negb_false_iff, bool_decide_eq_true. unfold msg. cbn. by rewrite Hlen. }
  replace (pl_rx_id (ps_link s)) with x by (by rewrite (im_link _ _ _ Hs)).
  replace (ack_pdu id x :: w) with ([ack_pdu id x] ++ w) by done. rewrite <- (app_nil_l o).
  eapply proto_bind; [apply proto_ack; [done..|apply Hqu]|].
  eapply proto_seq; [by apply proto_mod_link|]. exact Hp.
Qed.

(** The acknowledgement of the message [x]. *)
Lemma ack_recv id x l c m q p a' w o :
  0 <= id < 4294967296 -> is_byte x -> pl_active l = true -> pl_tx_id l = x + 1 -> x + 1 <> 0 ->
  proto n (l <- get_link ;;
    (if pl_expect_ack_for l =? PROV_START then Provr.send_pub_key (byte_at (pl_conf_inputs l) 13)
     else if pl_expect_ack_for l =? PROV_PUB_KEY then Provr.prov_gen_dh_key
     else mret tt) ;;
    mod_link (fun l => l <| pl_expect_ack_for := 0 |>)) (Ab l c m q false p) tt a' w o ->
  proto n (Provr.bt_mesh_prov_adv_recv (ack_pdu id x)) (Ab l c m q true p) tt a' w o.
Proof.
  intros Hid Hx Ha Ht H0 Hp. rewrite <- (app_nil_r (ack_pdu id x)). unfold ack_pdu.
  apply provisioner_recv; [done..|]. unfold Provr.gen_prov_recv. apply proto_get_link. intros ids _.
  change (GPCF (px_gpc _)) with 1. apply proto_if_false; [done|].
  apply proto_if_false; [by apply negb_false_iff|].
  apply proto_if_false; [done|]. apply proto_if_true; [done|].
  unfold Provr.gen_prov_ack. apply proto_get_link. intros ids' Hids.
  apply bool_decide_eq_false in Hids. destruct ids' as [|i ids']; [done|].
  change (pl_tx_buf (with_bufs (i :: ids') l)) with (i :: ids').
  change (pl_tx_id (with_bufs (i :: ids') l)) with (pl_tx_id l). rewrite Ht.
  apply proto_if_false; [by apply Z.eqb_neq|]. apply proto_if_true; [cbn [px_xact_id]; lia|].
  eapply proto_seq; [apply proto_clear|exact Hp].
Qed.
Lemma provisioner_acked id x l c m q p :
  0 <= id < 4294967296 -> is_byte x -> pl_active l = true -> pl_tx_id l = x + 1 -> x + 1 <> 0 ->
  pl_expect_ack_for l = 0 ->
  proto n (Provr.bt_mesh_prov_adv_recv (ack_pdu id x)) (Ab l c m q true p) tt
    (Ab (l <| pl_expect_ack_for := 0 |>) c m q false p) [] [].
Proof.
  intros Hid Hx Ha Ht H0 Hexp. apply ack_recv; [done..|]. apply proto_get_link. intros ids _.
  change (pl_expect_ack_for (with_bufs ids l)) with (pl_expect_ack_for l). rewrite Hexp.
  eapply proto_seq; [apply proto_ret|]. by apply proto_mod_link.
Qed.

(** *** Opening the link *)

Definition pl_open (lid : Z) (l : prov_link) : prov_link :=
  (((l <| pl_id := lid |>) <| pl_tx_start := pe_now |>) <| pl_active := true |>) <| pl_expect := PROV_INVITE |>.
Lemma provisioner_open uuid lid l c m q h p :
  (q + 3 <= n)%nat -> Provr.node_is_connected (pc_nodes c) uuid = false -> Provr.adv_filter_uuid uuid = 0 ->
  pl_active l = false -> pe_rand 4 = Some lid -> length uuid = 16%nat ->
  proto n (Provr.provisioner_link_open uuid) (Ab l c m q h p) tt (Ab (pl_open (Provr.le_int lid) l) c m (S q) true p)
    [ctl_pdu (Provr.le_int lid) LINK_OPEN uuid] [PvProvStart (Some (Provr.le_int lid)); PvLinkOpen false].
Proof.
  intros Hq Hnode Hf Ha Hr Hu. unfold Provr.provisioner_link_open, Provr.get_ctx.
  rewrite decide_False by lia. cbv zeta. rewrite (take_ge uuid) by lia.
  eapply (proto_seq n _ _ _ c); [apply proto_get; intros s Hs; rewrite (im_ctx _ _ _ Hs); apply proto_ret|].
  apply proto_get_link. intros ids _. rewrite Hnode, Hf. cbn [negb orb Z.eqb].
  change (pl_active (with_bufs ids l)) with (pl_active l). rewrite Ha, Hr.
  eapply proto_seq; [by apply proto_mod_link|].
  eapply proto_tell.
  { by apply (proto_ctl n Provisioner LINK_OPEN uuid (Provr.le_int lid) _
      ((l <| pl_id := Provr.le_int lid |>) <| pl_tx_start := pe_now |>)); [|lia|..]. }
  apply proto_get_link. intros ids2 _.
  eapply (proto_bind n _ _ _ _ _ [] [_] _ _ [] [_]); [apply proto_emit|].
  eapply proto_seq; [by apply proto_mod_link|].
  eapply proto_then; [apply (proto_emit n [PvLinkOpen false])|]. by apply proto_mod_link.
Qed.

Definition pl_invite (tx : Z) (l : prov_link) : prov_link :=
  (sent_as tx (l <| pl_conf_inputs := put_at 0 [0] (pl_conf_inputs l) |>)) <| pl_expect := PROV_CAPABILITIES |>.
Lemma provisioner_invite id l c m q h p x tx :
  (q + 3 <= n)%nat -> 0 <= id < 4294967296 -> pl_active l = true -> pl_conn l = None -> pl_id l = id ->
  pl_expect l = PROV_INVITE -> next_transaction_id Provisioner (pl_tx_id l) = (x, tx) ->
  proto n (Provr.bt_mesh_prov_adv_recv (ctl_pdu id LINK_ACK [])) (Ab l c m q h p) tt
    (Ab (pl_invite tx l) c m (q + 3) true p) (pb_pdus id x [PROV_INVITE; 0]) [].
Proof.
  intros Hq Hid Ha Hc Hi Hexp Hx. unfold ctl_pdu. apply provisioner_recv; [done..|].
  unfold Provr.gen_prov_recv. apply proto_get_link. intros ids _.
  change (GPCF (px_gpc _)) with 3. apply proto_if_false; [done|].
  apply proto_if_false; [by apply negb_false_iff|].
  apply proto_if_false; [done|]. apply proto_if_false; [done|]. apply proto_if_false; [done|].
  unfold Provr.gen_prov_ctl. change (GPC_PARAM (px_gpc _)) with LINK_ACK. cbv zeta.
  apply proto_get_link. intros ids3 _. apply proto_if_true; [done|]. apply proto_if_true; [done|].
  unfold Provr.link_ack. apply proto_get_link. intros ids4 _. apply proto_if_false; [done|].
  apply proto_if_false; [change (pl_expect l =? PROV_CAPABILITIES = false); by rewrite Hexp|].
  unfold Provr.send_invite. eapply proto_seq; [by apply device_buf; [|cbn; lia..]|].
  eapply proto_seq; [by apply proto_mod_link|].
  eapply proto_then; [apply (proto_send n Provisioner [PROV_INVITE; 0] id); [done|done| |done|done]|].
  { apply pb_msg_ok; [by repeat constructor|cbn; lia]. }
  apply proto_if_true; [done|]. by apply proto_mod_link.
Qed.

(** *** Its handlers *)

Lemma proto_get_ctx {X} (f : prov_ctx -> L X) l c m q h p x a' w o :
  proto n (f c) (Ab l c m q h p) x a' w o ->
  proto n (stm_bind Provr.get_ctx f) (Ab l c m q h p) x a' w o.
Proof.
  intros Hf. eapply proto_seq; [|exact Hf]. unfold Provr.get_ctx. apply proto_get.
  intros s Hs. rewrite (im_ctx _ _ _ Hs). apply proto_ret.
Qed.

Definition pl_capabilities (tx : Z) (caps : bytes) (l : prov_link) : prov_link :=
  (((((sent_as tx ((l <| pl_element_num := byte_at caps 0 |>)
      <| pl_conf_inputs := put_at 12 start_static (put_at 1 caps (pl_conf_inputs l)) |>))
    <| pl_oob_method := AUTH_METHOD_STATIC |>) <| pl_oob_action := 0 |>) <| pl_oob_size := 0 |>)
    <| pl_expect_ack_for := PROV_START |>).
Lemma provisioner_capabilities caps id l c m q h p x tx :
  (q + 3 <= n)%nat -> pl_conn l = None -> pl_id l = id ->
  next_transaction_id Provisioner (pl_tx_id l) = (x, tx) ->
  Provr.caps_valid caps = true -> length caps = 11%nat -> byte_at caps 4 <> 0 -> pc_static_oob_len c <> 0 ->
  pe_pub_key_oob = false -> pe_input_num = false -> pe_output_num = false -> pe_algorithm = 0 ->
  proto n (Provr.prov_capabilities caps) (Ab l c m q h p) tt (Ab (pl_capabilities tx caps l) c m (q + 3) true p)
    (pb_pdus id x (PROV_START :: start_static)) [].
Proof.
  intros Hq Hc Hi Hx Hv Hlen Hst Hso Hpk Hin Hon Halg. unfold Provr.prov_capabilities.
  assert (H0 : (byte_at caps 0 =? 0) = false).
  { unfold Provr.caps_valid in Hv. destruct (byte_at caps 0 =? 0); [done|done]. }
  rewrite H0, Hv. eapply proto_seq; [by apply proto_mod_link|]. cbn [negb].
  apply proto_get_ctx. rewrite Hpk, Hin, Hon. cbv zeta. cbn [Provr.oob_choice andb stm_of_option].
  eapply proto_seq; [apply proto_ret|]. eapply proto_seq; [apply proto_ret|].
  rewrite (proj2 (Z.eqb_neq _ _) Hso), (proj2 (Z.eqb_neq _ _) Hst), Halg.
  cbn [negb andb Provr.auth_choice]. rewrite take_ge by lia.
  change [u8 0; 0; AUTH_METHOD_STATIC; 0; 0] with start_static.
  eapply proto_seq; [by apply proto_mod_link|].
  eapply proto_seq; [by apply device_buf; [|cbn; lia..]|].
  eapply proto_seq; [by apply proto_mod_link|].
  eapply proto_then; [apply (proto_send n Provisioner (PROV_START :: start_static) id); [done|done| |done|done]|].
  { apply pb_msg_ok; [by repeat constructor|cbn; lia]. }
  apply proto_if_false; [done|]. eapply proto_seq; [by apply proto_mod_link|].
  apply proto_if_false; [done|]. by apply proto_mod_link.
Qed.

Definition pl_send_key (tx : Z) (ours : bytes) (l : prov_link) : prov_link :=
  ((sent_as tx ((l <| pl_local_pub_key := true |>) <| pl_conf_inputs := put_at 17 ours (pl_conf_inputs l) |>))
    <| pl_expect := PROV_PUB_KEY |>) <| pl_expect_ack_for := 0 |>.
Lemma provisioner_start_acked key id y l c m q p x tx :
  (q + 3 <= n)%nat -> 0 <= id < 4294967296 -> is_byte y -> pl_active l = true -> pl_tx_id l = y + 1 -> y + 1 <> 0 ->
  pl_conn l = None -> pl_id l = id -> pl_expect_ack_for l = PROV_START ->
  next_transaction_id Provisioner (pl_tx_id l) = (x, tx) -> byte_at (pl_conf_inputs l) 13 = 0 ->
  pe_pub_key = Some key -> is_bytes (swap_key key) -> length (swap_key key) = 64%nat ->
  proto n (Provr.bt_mesh_prov_adv_recv (ack_pdu id y)) (Ab l c m q true p) tt
    (Ab (pl_send_key tx (swap_key key) l) c m (q + 3) true p) (pb_pdus id x (PROV_PUB_KEY :: swap_key key)) [].
Proof.
  intros Hq Hid Hy Ha Ht H0 Hc Hi Hexp Hx H13 Hk Hb Hl64. apply ack_recv; [done..|]. apply proto_get_link. intros ids _.
  change (pl_expect_ack_for (with_bufs ids l)) with (pl_expect_ack_for l).
  change (pl_conf_inputs (with_bufs ids l)) with (pl_conf_inputs l). rewrite Hexp, H13. cbn [Z.eqb].
  eapply proto_then; [|by apply proto_mod_link]. apply proto_if_true; [done|].
  unfold Provr.send_pub_key. rewrite Hk.
  eapply proto_seq; [by apply proto_mod_link|].
  eapply proto_seq; [apply device_buf; [done|cbn [length]; rewrite ?Hl64; cbn; lia..]|].
  eapply proto_seq; [by apply proto_mod_link|].
  eapply proto_then; [apply (proto_send n Provisioner (PROV_PUB_KEY :: swap_key key) id); [done|done| |done|done]|].
  { apply pb_msg_ok; [by constructor|cbn [length]; rewrite Hl64; lia]. }
  apply proto_if_true; [done|]. by apply proto_mod_link.
Qed.

Definition pl_pub_key (theirs : bytes) (l : prov_link) : prov_link :=
  l <| pl_conf_inputs := put_at 81 theirs (pl_conf_inputs l) |>.
Lemma provisioner_pub_key theirs remote l c m q h p :
  pl_local_pub_key l = true -> length theirs = 64%nat ->
  swap_key (take 64 (drop 81 (put_at 81 theirs (pl_conf_inputs l)))) = remote ->
  pe_dh_key_gen remote = 0 ->
  proto n (Provr.prov_pub_key theirs) (Ab l c m q h p) tt (Ab (pl_pub_key theirs l) c m q h p) [] [PvDhKeyGen remote].
Proof.
  intros Hloc Ht <- Hdh. unfold Provr.prov_pub_key. set (remote := swap_key (take 64 _)) in *. rewrite take_ge by lia.
  eapply proto_seq; [by apply proto_mod_link|]. apply proto_get_link. intros ids _.
  apply proto_if_false; [by apply negb_false_iff|]. unfold Provr.prov_gen_dh_key.
  apply proto_get_link. intros ids' _. apply proto_if_false; [by apply negb_false_iff, Z.eqb_eq|].
  apply (proto_emit n [PvDhKeyGen remote]).
Qed.

Definition pl_confirm (tx : Z) (salt key rand conf auth : bytes) (l : prov_link) : prov_link :=
  (sent_as tx (((((l <| pl_auth := auth |>) <| pl_conf_salt := salt |>) <| pl_conf_key := key |>)
    <| pl_rand := rand |>) <| pl_local_conf := conf |>)) <| pl_expect := PROV_CONFIRM |>.
Lemma provisioner_dh_key dh sv auth salt key rand conf id l c m q h p x tx :
  (q + 3 <= n)%nat -> pl_conn l = None -> pl_id l = id ->
  next_transaction_id Provisioner (pl_tx_id l) = (x, tx) ->
  pl_oob_method l = AUTH_METHOD_STATIC -> pl_oob_action l = 0 -> pl_oob_size l = 0 ->
  pl_expect l = PROV_PUB_KEY -> default [] pe_static_val = sv -> (length sv <= 16)%nat ->
  bt_mesh_prov_conf_salt (pl_conf_inputs l) = Ok salt -> bt_mesh_prov_conf_key (reverse dh) salt = Ok key ->
  pe_rand 16 = Some rand -> auth_value sv = auth -> bt_mesh_prov_conf key rand auth = Ok conf -> is_block conf ->
  proto n (Provr.prov_dh_key_cb (Some dh)) (Ab l c m q h p) tt
    (Ab (pl_confirm tx salt key rand conf auth (l_dh_key dh l)) c m (q + 3) true p)
    (pb_pdus id x (PROV_CONFIRM :: conf)) [].
Proof.
  intros Hq Hc Hi Hx Hm Hac Hsz Hexp Hsv Hsvl Hsalt Hkey Hr <- Hconf [Hl Hb]. unfold Provr.prov_dh_key_cb.
  eapply proto_seq; [by apply proto_mod_link|]. apply proto_get_link. intros ids _.
  change (pl_oob_method (with_bufs ids _)) with (pl_oob_method l).
  change (pl_oob_action (with_bufs ids _)) with (pl_oob_action l).
  change (pl_oob_size (with_bufs ids _)) with (pl_oob_size l). rewrite Hm, Hac, Hsz.
  eapply (proto_seq n _ _ _ 0).
  { unfold prov_auth. apply proto_if_true; [done|]. apply proto_if_false; [done|]. cbv zeta.
    rewrite Hsv, decide_False by lia. eapply proto_then; [by apply proto_mod_link|apply proto_ret]. }
  eapply proto_seq; [apply proto_if_false; [done|apply proto_ret]|].
  apply proto_get_link. intros ids2 _. change (pl_oob_method (with_bufs ids2 _)) with (pl_oob_method l).
  change (pl_expect (with_bufs ids2 _)) with (pl_expect l). rewrite Hm, Hexp.
  apply proto_if_false; [done|]. apply proto_if_true; [done|]. unfold Provr.send_confirm.
  apply proto_get_link. intros ids' _.
  eapply proto_crypto; [exact Hsalt|]. eapply proto_seq; [by apply proto_mod_link|].
  eapply proto_crypto; [exact Hkey|]. eapply proto_seq; [by apply proto_mod_link|]. rewrite Hr.
  eapply proto_seq; [by apply proto_mod_link|].
  eapply proto_crypto; [exact Hconf|].
  eapply proto_seq; [apply device_buf; [done|cbn [length]; rewrite ?Hl; cbn; lia..]|].
  eapply proto_seq; [by apply proto_mod_link|].
  eapply proto_then; [apply (proto_send n Provisioner (PROV_CONFIRM :: conf) id); [done|done| |done|done]|].
  { apply pb_msg_ok; [by constructor|cbn [length]; rewrite Hl; lia]. }
  apply proto_if_true; [done|]. by apply proto_mod_link.
Qed.

Definition pl_random_out (tx : Z) (theirs : bytes) (l : prov_link) : prov_link :=
  (sent_as tx ((l <| pl_conf := theirs |>) <| pl_send_confirm := pl_send_confirm l || pl_have_dhkey l |>))
    <| pl_expect := PROV_RANDOM |>.
Lemma provisioner_confirm theirs id l c m q h p x tx :
  (q + 3 <= n)%nat -> pl_conn l = None -> pl_id l = id ->
  next_transaction_id Provisioner (pl_tx_id l) = (x, tx) ->
  length theirs = 16%nat -> theirs <> pl_local_conf l -> is_block (pl_rand l) ->
  proto n (Provr.prov_confirm theirs) (Ab l c m q h p) tt (Ab (pl_random_out tx theirs l) c m (q + 3) true p)
    (pb_pdus id x (PROV_RANDOM :: pl_rand l)) [].
Proof.
  intros Hq Hc Hi Hx Ht Hne [Hl Hb]. unfold Provr.prov_confirm. rewrite take_ge by lia.
  apply proto_get_link. intros ids _. apply proto_if_false; [by apply bool_decide_false|].
  eapply proto_seq; [by apply proto_mod_link|].
  eapply proto_seq.
  { apply device_buf; [done|cbn [length]; change (pl_rand (with_bufs _ _)) with (pl_rand l); rewrite ?Hl; cbn; lia..]. }
  eapply proto_then; [apply (proto_send n Provisioner (PROV_RANDOM :: pl_rand l) id); [done|done| |done|done]|].
  { apply pb_msg_ok; [by constructor|cbn [length]; rewrite Hl; lia]. }
  apply proto_if_true; [done|]. by apply proto_mod_link.
Qed.

(** The node that had the device's UUID is forgotten. *)
Definition forget (uuid : bytes) (c : prov_ctx) : prov_ctx :=
  match Provr.find_node (pc_nodes c) uuid with
  | Some _ => Provr.bt_mesh_provisioner_remove_node uuid c
  | None => c
  end.
Definition pl_data_out (tx addr : Z) (salt : bytes) (c : prov_ctx) (l : prov_link) : prov_link :=
  (((sent_as tx ((l <| pl_prov_salt := salt |>) <| pl_unicast_addr := addr |>))
    <| pl_ki_flags := pc_curr_flags c |>) <| pl_iv_index := pc_curr_iv_index c |>) <| pl_expect := PROV_COMPLETE |>.
Lemma provisioner_random theirs salt session_key nonce net_key addr enc id l c m q h p x tx :
  (q + 3 <= n)%nat -> pl_conn l = None -> pl_id l = id ->
  next_transaction_id Provisioner (pl_tx_id l) = (x, tx) ->
  length theirs = 16%nat -> theirs <> pl_rand l ->
  bt_mesh_prov_conf (pl_conf_key l) theirs (pl_auth l) = Ok (pl_conf l) ->
  bt_mesh_prov_salt (pl_conf_salt l) (pl_rand l) theirs = Ok salt ->
  bt_mesh_session_key (pl_dhkey l) salt = Ok session_key -> bt_mesh_prov_nonce (pl_dhkey l) salt = Ok nonce ->
  pe_net_key (pc_curr_net_idx c) = Some net_key ->
  Provr.device_address c l = Some addr ->
  bt_mesh_prov_encrypt session_key nonce (Provr.data_pdu net_key c addr) = Ok enc -> is_bytes enc ->
  length enc = 33%nat ->
  proto n (Provr.prov_random theirs) (Ab l c m q h p) tt
    (Ab (pl_data_out tx addr salt c l) ((forget (pl_uuid l) c) <| pc_curr_alloc_addr := Provr.next_alloc_addr c l |>) m (q + 3) true p)
    (pb_pdus id x (PROV_DATA :: enc)) [].
Proof.
  intros Hq Hc Hi Hx Ht Hne Hconf Hsalt Hsk Hnonce Hnk Haddr Henc Hb Hl. unfold Provr.prov_random.
  apply proto_get_link. intros ids _. rewrite take_ge by lia. apply proto_if_false; [by apply bool_decide_false|].
  eapply proto_crypto; [exact Hconf|]. apply proto_if_false; [by apply negb_false_iff, bool_decide_eq_true|].
  eapply proto_crypto; [exact Hsalt|]. eapply proto_seq; [by apply proto_mod_link|].
  unfold Provr.send_prov_data. apply proto_get_link. intros ids2 _. apply proto_get_ctx.
  eapply proto_crypto; [exact Hsk|]. eapply proto_crypto; [exact Hnonce|]. rewrite Hnk.
  change (pl_uuid (with_bufs ids2 _)) with (pl_uuid l). 
  eapply (proto_seq n _ _ _ tt (Ab _ (forget (pl_uuid l) c) _ _ _ _)).
  { unfold forget. destruct (Provr.find_node _ _); [apply proto_mod_ctx|apply proto_ret]. }
  change (Provr.device_address c (with_bufs ids2 _)) with (Provr.device_address c l). rewrite Haddr.
  eapply proto_seq; [by apply proto_mod_link|].
  eapply proto_crypto; [exact Henc|].
  eapply proto_seq; [apply device_buf; [done|cbn [length]; rewrite ?Hl; cbn; lia..]|].
  eapply proto_then; [apply (proto_send n Provisioner (PROV_DATA :: enc) id); [done|done| |done|done]|].
  { apply pb_msg_ok; [by constructor|cbn [length]; rewrite Hl; lia]. }
  apply proto_if_false; [done|].
  change (Provr.next_alloc_addr c (with_bufs ids2 _)) with (Provr.next_alloc_addr c l).
  eapply proto_seq; [by apply proto_mod_ctx|].
  eapply proto_seq; [by apply proto_mod_link|]. by apply proto_mod_link.
Qed.

Definition pl_complete (l : prov_link) : prov_link :=
  ((((l <| pl_rx_seg := 0 |>) <| pl_tx_start := pe_now |>) <| pl_send_link_close := 1 |>) <| pl_tx_id := 0 |>)
    <| pl_active := false |>.
Lemma provisioner_complete dev_key id l c m q h p :
  (q + 3 <= n)%nat -> pl_conn l = None -> pl_id l = id ->
  bt_mesh_dev_key (pl_dhkey l) (pl_prov_salt l) = Ok dev_key -> byte_at (pl_conf_inputs l) 0 = 0 ->
  proto n Provr.prov_complete (Ab l c m q h p) tt (Ab (pl_complete l) c m (S q) true p)
    [ctl_pdu id LINK_CLOSE [CLOSE_REASON_SUCCESS]] [].
Proof.
  intros Hq Hc Hi Hdk H0. unfold Provr.prov_complete. apply proto_get_link. intros ids _.
  eapply proto_crypto; [exact Hdk|]. unfold Provr.close, close_link. apply proto_get_link. intros ids2 _.
  change (pl_conn (with_bufs ids2 l)) with (pl_conn l). rewrite Hc.
  replace (if PB_GATT then None else None) with (@None nat) by (by destruct PB_GATT).
  eapply proto_seq; [apply proto_if_false; [done|apply proto_ret]|].
  eapply proto_seq; [by apply proto_mod_link|].
  eapply proto_then.
  { by apply (proto_ctl n Provisioner LINK_CLOSE [CLOSE_REASON_SUCCESS] id _
      ((((l <| pl_rx_seg := 0 |>) <| pl_tx_start := pe_now |>) <| pl_send_link_close := 1 |>) <| pl_tx_id := 0 |>));
      [|cbn; lia|..]. }
  eapply proto_seq; [by apply proto_mod_link|]. apply proto_get_link. intros ids3 _.
  apply proto_if_false; [|apply proto_ret].
  change (negb (byte_at (pl_conf_inputs l) 0 =? 0) = false). by rewrite H0.
Qed.
End provisioner.
End proto.
