(* ===== verification/ProvSession.v ===== *)
(** * Provisioning from end to end

    A device and a provisioner with the same static authentication value, over
    a link that loses nothing: the device is provisioned with the data the
    provisioner holds for it, and both derive the same device key. *)

From S2P Require Import Prelude NetBuf NetPool Aes Cmac Ccm MeshCrypto NetState Adv AdvView Beacon PbAdv Prov Provisioner PbTrans PbFlow ProvCrypto ProvOk ProvPair.

(** ** Two sides in turns *)

Section turns.
Context {pcfg : ProvConfig} (n : nat).

Definition talks (k : nat) (a b : party) (air : list bytes) (A B A' B' : absn) (oa ob : list prov_event)
    (air' : list bytes) : Prop :=
  forall sa sb, impl n A sa -> impl n B sb -> exists sa' sb' ea eb,
    session n k a b air sa sb = Some (sa', sb', ea, eb, air') /\ impl n A' sa' /\ impl n B' sb' /\
    outcome ea = oa /\ outcome eb = ob.

Lemma talks_end a b air A B : talks 0 a b air A B A B [] [] air.
Proof. intros sa sb Ha Hb. by exists sa, sb, [], []. Qed.
Lemma talks_turn k a b air A B A1 A' B' w o oa ob air' :
  proto n (burst n a air) A tt A1 w o -> talks k b a w B A1 B' A' ob oa air' ->
  talks (S k) a b air A B A' B' (o ++ oa) ob air'.
Proof.
  intros Hp Ht sa sb Ha Hb. destruct (Hp sa Ha) as (sa1 & ea1 & E1 & Ha1 & Hw & Ho).
  destruct (Ht sb sa1 Hb Ha1) as (sb' & sa' & eb & ea & E2 & Hb' & Ha' & Hob & Hoa).
  exists sa', sb', (ea1 ++ ea), eb. cbn [session]. rewrite E1, Hw, E2. split_and!; try done.
  by rewrite outcome_app, Ho, Hoa.
Qed.

(** A burst after which no key is awaited. *)
Lemma quiet_burst (s : party) ds a l c m q h p w o :
  proto n (recv_pdus (pt_recv s) ds) a tt (Ab l c m q h p) w o -> dh_requests o = [] -> (q <= n)%nat ->
  proto n (burst n s ds) a tt (Ab l c m 0 h p) w o.
Proof.
  intros Hp Hd Hq. rewrite <- (app_nil_r w), <- (app_nil_r o).
  eapply proto_burst; [exact Hp|rewrite Hd; apply proto_ret|done].
Qed.
(** A burst in which the controller is asked for one. *)
Lemma key_burst (s : party) ds pk a a1 l c m q h p w1 w2 :
  proto n (recv_pdus (pt_recv s) ds) a tt a1 w1 [PvDhKeyGen pk] ->
  proto n (pt_dh_cb s (Some (pt_dh s pk))) a1 tt (Ab l c m q h p) w2 [] -> (q <= n)%nat ->
  proto n (burst n s ds) a tt (Ab l c m 0 h p) (w1 ++ w2) [PvDhKeyGen pk].
Proof.
  intros Hp Hd Hq. rewrite <- (app_nil_r [PvDhKeyGen pk]).
  eapply proto_burst; [exact Hp|eapply proto_then; [exact Hd|apply proto_ret]|done].
Qed.
Lemma key_burst_silent (s : party) ds pk a a1 l c m q h p w :
  proto n (recv_pdus (pt_recv s) ds) a tt a1 w [PvDhKeyGen pk] ->
  proto n (pt_dh_cb s (Some (pt_dh s pk))) a1 tt (Ab l c m q h p) [] [] -> (q <= n)%nat ->
  proto n (burst n s ds) a tt (Ab l c m 0 h p) w [PvDhKeyGen pk].
Proof. intros Hp Hd Hq. rewrite <- (app_nil_r w). by eapply key_burst. Qed.
Lemma recv_one recv d a a1 w o : proto n (recv d) a tt a1 w o -> proto n (recv_pdus recv [d]) a tt a1 w o.
Proof. intros Hp. eapply proto_then; [exact Hp|apply proto_ret]. Qed.
(** An acknowledgement, and then the rest. *)
Lemma recv_acked recv d ds a a1 a2 w o :
  proto n (recv d) a tt a1 [] [] -> proto n (recv_pdus recv ds) a1 tt a2 w o ->
  proto n (recv_pdus recv (d :: ds)) a tt a2 w o.
Proof. intros Hp Hd. eapply proto_seq; [exact Hp|exact Hd]. Qed.
End turns.

(** ** Public keys *)

Lemma swap_key_swap key : length key = 64%nat -> swap_key (swap_key key) = key.
Proof.
  intros Hl. unfold swap_key. assert (H1 : length (take 32 key) = 32%nat) by (rewrite length_take; lia).
  assert (H2 : length (take 32 (drop 32 key)) = 32%nat) by (rewrite length_take, length_drop; lia).
  set (a := reverse (take 32 key)). set (b := reverse (take 32 (drop 32 key))).
  assert (Ha : length a = 32%nat) by (unfold a; by rewrite length_reverse).
  assert (Hb : length b = 32%nat) by (unfold b; by rewrite length_reverse).
  assert (E1 : take 32 (a ++ b) = a) by (rewrite <- Ha; apply take_app_length).
  assert (E2 : drop 32 (a ++ b) = b) by (rewrite <- Ha; apply drop_app_length).
  rewrite E1, E2, (take_ge b) by lia. unfold a, b.
  rewrite !reverse_involutive, (take_ge (drop 32 key)) by (rewrite length_drop; lia). apply take_drop.
Qed.
(** ** The provisioning data *)

(** What the device reads in the provisioning data. *)
Lemma data_fields nk ctx a : (16 <= length nk)%nat -> 0 <= pc_curr_net_idx ctx < 65536 -> is_byte (pc_curr_flags ctx) ->
  0 <= pc_curr_iv_index ctx < 4294967296 -> 0 <= a < 65536 ->
  let pdu := Provr.data_pdu nk ctx a in
  take 16 pdu = take 16 nk /\ sys_get_be16 (drop 16 pdu) = pc_curr_net_idx ctx /\ byte_at pdu 18 = pc_curr_flags ctx /\
  sys_get_be32 (drop 19 pdu) = pc_curr_iv_index ctx /\ sys_get_be16 (drop 23 pdu) = a.
Proof.
  intros Hl Hi Hf Hv Ha pdu. assert (H16 : length (take 16 nk) = 16%nat) by (rewrite length_take; lia).
  set (k := take 16 nk) in *. assert (Hd : forall i, drop (16 + i) pdu = drop i (drop 16 pdu)) by (intros; by rewrite drop_drop).
  assert (E : drop 16 pdu = sys_put_be16 (pc_curr_net_idx ctx) ++ [u8 (pc_curr_flags ctx)] ++
    sys_put_be32 (pc_curr_iv_index ctx) ++ sys_put_be16 a).
  { unfold pdu, Provr.data_pdu. fold k. rewrite <- H16. apply drop_app_length. }
  split_and!.
  - unfold pdu, Provr.data_pdu. fold k. rewrite <- H16 at 1. apply take_app_length.
  - rewrite E. by apply sys_get_put_be16.
  - change (byte_at pdu 18) with (byte_at pdu (16 + 2)). unfold byte_at.
    replace (nth (16 + 2) pdu 0) with (nth 2 (drop 16 pdu) 0) by (by rewrite nth_skipn). rewrite E. cbn. by apply u8_id.
  - change 19%nat with (16 + 3)%nat. rewrite Hd, E. by apply sys_get_put_be32.
  - change 23%nat with (16 + 7)%nat. rewrite Hd, E. cbn [drop sys_put_be16 sys_put_be32 app]. rewrite <- (app_nil_r (_ :: _)). by apply sys_get_put_be16.
Qed.

Lemma length_data_pdu nk ctx a : (16 <= length nk)%nat -> length (Provr.data_pdu nk ctx a) = 25%nat.
Proof. intros. unfold Provr.data_pdu. rewrite !length_app, length_take.
  cbn [length sys_put_be16 sys_put_be32 app]. lia. Qed.
Lemma data_pdu_bytes nk ctx a : is_bytes nk -> is_bytes (Provr.data_pdu nk ctx a).
Proof.
  intros. unfold Provr.data_pdu, sys_put_be16, sys_put_be32. rewrite !is_bytes_app. split_and!; [by auto with bytes|..].
  all: repeat constructor; apply u8_byte.
Qed.

(** ** The run *)

Section agreement.
Context {pcfg : ProvConfig} {hal : SecHal} {halok : SecHalOk hal}.
(** The environments of the device and of the provisioner, and their
    controllers. *)
Context (D P : ProvEnv) (dhD dhP : bytes -> bytes).

Definition device : party :=
  mk_party D (bt_mesh_pb_adv_recv (env := D)) (prov_dh_key_cb (env := D)) dhD.
Definition provisioner : party :=
  mk_party P (Provr.bt_mesh_prov_adv_recv (env := P)) (Provr.prov_dh_key_cb (env := P)) dhP.

(** What the confirmation covers: the invitation, the capabilities, the Start
    PDU and the keys of the provisioner and the device. *)
Definition inputs_of (keyP keyD : bytes) : bytes :=
  put_at 81 (swap_key keyD) (put_at 17 (swap_key keyP) (put_at 12 start_static
    (put_at 1 (capabilities (env := D)) (put_at 0 [0] (replicate 145 0))))).

(** The two sides fit: the device's capabilities are valid and offer static OOB
    data, both have the same authentication value, the controllers agree on the
    secret, the random numbers and confirmations differ, and the provisioner has
    a network key and an address for the device. *)
Record fits (n : nat) (c : prov_ctx) (keyD keyP secret auth randD randP lid net_key : bytes) (addr : Z) : Prop := {
  ft_bufs : (8 <= n)%nat;
  ft_gatt : PB_GATT = true;
  ft_unprovisioned : @pe_provisioned D = false;
  ft_uuid : length (@pe_uuid D) = 16%nat /\ Provr.adv_filter_uuid (@pe_uuid D) = 0 /\
    Provr.node_is_connected (pc_nodes c) (@pe_uuid D) = false;
  ft_caps : is_bytes (capabilities (env := D)) /\ Provr.caps_valid (capabilities (env := D)) = true /\
    byte_at (capabilities (env := D)) 4 <> 0 /\ @pe_public_key_type D = 0;
  ft_oob : pc_static_oob_len c <> 0 /\ @pe_pub_key_oob P = false /\ @pe_input_num P = false /\
    @pe_output_num P = false /\ @pe_algorithm P = 0;
  ft_keyD : @pe_pub_key D = Some keyD /\ is_bytes keyD /\ length keyD = 64%nat;
  ft_keyP : @pe_pub_key P = Some keyP /\ is_bytes keyP /\ length keyP = 64%nat;
  ft_dh : @pe_dh_key_gen D keyP = 0 /\ @pe_dh_key_gen P keyD = 0;
  ft_secret : dhD keyP = secret /\ dhP keyD = secret /\ is_bytes secret;
  ft_static : (length (default [] (@pe_static_val D)) <= 16)%nat /\
    (length (default [] (@pe_static_val P)) <= 16)%nat /\
    auth_value (default [] (@pe_static_val P)) = auth /\ is_block auth;
  ft_auth : genie_auth (env := D) randD = auth /\ genie_auth (env := D) randP = auth;
  ft_randD : @pe_rand D 16 = Some randD /\ is_block randD;
  ft_randP : @pe_rand P 16 = Some randP /\ is_block randP;
  ft_lid : @pe_rand P 4 = Some lid /\ 0 <= Provr.le_int lid < 4294967296;
  ft_fresh : randD <> randP;
  ft_differ salt key confD confP :
    bt_mesh_prov_conf_salt (inputs_of keyP keyD) = Ok salt -> bt_mesh_prov_conf_key (reverse secret) salt = Ok key ->
    bt_mesh_prov_conf key randD auth = Ok confD -> bt_mesh_prov_conf key randP auth = Ok confP -> confD <> confP;
  ft_net_key : @pe_net_key P (pc_curr_net_idx c) = Some net_key /\ is_bytes net_key /\ (16 <= length net_key)%nat;
  ft_ctx : 0 <= pc_curr_net_idx c < 65536 /\ is_byte (pc_curr_flags c) /\ 0 <= pc_curr_iv_index c < 4294967296;
  ft_addr : Provr.device_address c (zero_link <| pl_element_num := byte_at (capabilities (env := D)) 0 |>) = Some addr /\
    0 <= addr < 65536
}.

Context (n : nat) (c cD : prov_ctx) (keyD keyP secret auth randD randP lidb net_key : bytes) (addr : Z).
Context (F : fits n c keyD keyP secret auth randD randP lidb net_key addr).
Context (salt key confD confP psalt session_key nonce enc dev_key : bytes).
#[local] Abbreviation inputs := (inputs_of keyP keyD).
#[local] Abbreviation lid := (Provr.le_int lidb).
#[local] Abbreviation caps := (capabilities (env := D)).
Context (Hsalt : bt_mesh_prov_conf_salt inputs = Ok salt) (Hkey : bt_mesh_prov_conf_key (reverse secret) salt = Ok key)
  (HconfD : bt_mesh_prov_conf key randD auth = Ok confD) (HbD : is_block confD)
  (HconfP : bt_mesh_prov_conf key randP auth = Ok confP) (HbP : is_block confP)
  (Hpsalt : bt_mesh_prov_salt salt randP randD = Ok psalt)
  (Hsk : bt_mesh_session_key (reverse secret) psalt = Ok session_key)
  (Hnonce : bt_mesh_prov_nonce (reverse secret) psalt = Ok nonce)
  (Henc : bt_mesh_prov_encrypt session_key nonce (Provr.data_pdu net_key c addr) = Ok enc)
  (Hencb : is_bytes enc) (Hencl : length enc = 33%nat)
  (Hdec : bt_mesh_prov_decrypt session_key nonce enc = Ok (Provr.data_pdu net_key c addr))
  (Hdk : bt_mesh_dev_key (reverse secret) psalt = Ok dev_key).

(** *** The links, message by message *)

Definition ready_link (pub_key : bool) : prov_link :=
  (((zero_link <| pl_local_pub_key := pub_key |>) <| pl_retransmit := true |>) <| pl_rx_prev_id := XACT_NVAL |>)
    <| pl_rx_buf := true |>.
Definition d0 := ready_link true.
Definition p0 := ready_link false.
Definition p1 := pl_open (env := P) lid p0.
Definition d1 := dl_open (env := D) lid d0.
Definition p2 := pl_invite (env := P) 1 p1.
Definition d2 := dl_invite (env := D) 0x80 (heard 0 [PROV_INVITE; 0] d1).
Definition p3 := pl_capabilities (env := P) 2 caps
  (heard 0x80 (PROV_CAPABILITIES :: caps) (p2 <| pl_expect_ack_for := 0 |>)).
Definition d3 := dl_start (default [] (@pe_static_val D)) (heard 1 (PROV_START :: start_static) d2).
Definition p4 := pl_send_key (env := P) 3 (swap_key keyP) p3.
Definition d4 := l_dh_key secret (dl_pub_key (env := D) 0x81 (swap_key keyP) (swap_key keyD)
  (heard 2 (PROV_PUB_KEY :: swap_key keyP) d3)).
Definition p5 := pl_confirm (env := P) 4 salt key randP confP auth (l_dh_key secret (pl_pub_key (swap_key keyD)
  (heard 0x81 (PROV_PUB_KEY :: swap_key keyD) (p4 <| pl_expect_ack_for := 0 |>)))).
Definition d5 := dl_confirm (env := D) 0x82 confP salt key randD auth (heard 3 (PROV_CONFIRM :: confP) d4).
Definition p6 := pl_random_out (env := P) 5 confD (heard 0x82 (PROV_CONFIRM :: confD) (p5 <| pl_expect_ack_for := 0 |>)).
Definition d6 := dl_random (env := D) 0x83 auth psalt (heard 4 (PROV_RANDOM :: randP) d5).
Definition p7 := pl_data_out (env := P) 6 addr psalt c
  (heard 0x83 (PROV_RANDOM :: randD) (p6 <| pl_expect_ack_for := 0 |>)).
Definition d7 := dl_data (env := D) 0x84 (heard 5 (PROV_DATA :: enc) d6).
Definition p8 := pl_complete (env := P) (heard 0x84 [PROV_COMPLETE] (p7 <| pl_expect_ack_for := 0 |>)).
Definition d8 := l_reset (env := D) d7.


#[local] Ltac side := first [lia | assumption | done | by apply (bool_decide_unpack _) | by repeat constructor].
#[local] Ltac link_is_quiet := split; side.

Lemma key_lengths : length (swap_key keyD) = 64%nat /\ is_bytes (swap_key keyD) /\
  length (swap_key keyP) = 64%nat /\ is_bytes (swap_key keyP).
Proof.
  destruct F. destruct (swap_key_ok keyD), (swap_key_ok keyP); try apply ft_keyD0; try apply ft_keyP0; done.
Qed.
Lemma lid_ok : 0 <= lid < 4294967296.
Proof. by destruct F as [_ _ _ _ _ _ _ _ _ _ _ _ _ _ [_ ?]]. Qed.
Lemma bufs_ok : (8 <= n)%nat.
Proof. by destruct F. Qed.

Lemma turn_d1 :
  proto n (burst n device [ctl_pdu lid LINK_OPEN (@pe_uuid D)]) (Ab d0 cD None 0 false []) tt
    (Ab d1 cD None 0 true []) [ctl_pdu lid LINK_ACK []] [PvLinkOpen false; PvProvStart (Some lid)].
Proof.
  pose proof bufs_ok. pose proof lid_ok. destruct F.
  eapply quiet_burst; [apply recv_one, device_open|..]; side || apply ft_uuid0.
Qed.
Lemma turn_p1 :
  proto n (burst n provisioner [ctl_pdu lid LINK_ACK []]) (Ab p1 c None 0 true []) tt
    (Ab p2 c None 0 true []) (pb_pdus lid 0 [PROV_INVITE; 0]) [].
Proof.
  pose proof bufs_ok. pose proof lid_ok. destruct F.
  eapply quiet_burst; [apply recv_one, provisioner_invite|..]; side.
Qed.
Lemma turn_d2 :
  proto n (burst n device (pb_pdus lid 0 [PROV_INVITE; 0])) (Ab d1 cD None 0 true []) tt
    (Ab d2 cD (Some [PROV_INVITE; 0]) 0 true [0]) (ack_pdu lid 0 :: pb_pdus lid 0x80 (PROV_CAPABILITIES :: caps)) [].
Proof.
  pose proof bufs_ok. pose proof lid_ok. destruct F as [_ ? _ _ (? & ? & ? & ?)].
  eapply quiet_burst; [cbn [pt_recv device]; eapply (device_hears (env := D) n lid 0 PROV_INVITE [0])|..].
  11: apply (device_invite (env := D) n). all: side.
Qed.

Lemma key_msg b k : is_byte b -> is_bytes k -> length k = 64%nat -> pb_msg (b :: k).
Proof. intros. apply pb_msg_ok; [by constructor|cbn; lia]. Qed.
Lemma block_msg b k : is_byte b -> is_block k -> pb_msg (b :: k).
Proof. intros ? []. apply pb_msg_ok; [by constructor|cbn; lia]. Qed.
Lemma caps_msg : pb_msg (PROV_CAPABILITIES :: caps).
Proof. destruct F as [_ _ _ _ [? _]]. apply pb_msg_ok; [by constructor|cbn; lia]. Qed.
Lemma data_msg : pb_msg (PROV_DATA :: enc).
Proof. apply pb_msg_ok; [by constructor|cbn; lia]. Qed.

Lemma turn_p2 :
  proto n (burst n provisioner (ack_pdu lid 0 :: pb_pdus lid 0x80 (PROV_CAPABILITIES :: caps))) (Ab p2 c None 0 true []) tt
    (Ab p3 c (Some (PROV_CAPABILITIES :: caps)) 0 true [0x80]) (ack_pdu lid 0x80 :: pb_pdus lid 1 (PROV_START :: start_static)) [].
Proof.
  pose proof bufs_ok. pose proof lid_ok. pose proof caps_msg. destruct F as [_ ? _ _ (? & ? & ? & ?) (? & ? & ? & ? & ?)].
  eapply quiet_burst; [cbn [pt_recv provisioner]; eapply recv_acked; [apply (provisioner_acked (env := P) n)|
    eapply (provisioner_hears (env := P) n lid 0x80 PROV_CAPABILITIES caps)]|..].
  17: apply (provisioner_capabilities (env := P) n). all: side.
Qed.
Lemma turn_d3 :
  proto n (burst n device (ack_pdu lid 0x80 :: pb_pdus lid 1 (PROV_START :: start_static)))
    (Ab d2 cD (Some [PROV_INVITE; 0]) 0 true [0]) tt
    (Ab d3 cD (Some (PROV_START :: start_static)) 0 false [1; 0]) [ack_pdu lid 1] [].
Proof.
  pose proof bufs_ok. pose proof lid_ok. destruct F as [_ ? _ _ (? & ? & ? & ?) _ _ _ _ _ (? & ? & ? & ?)].
  eapply quiet_burst; [cbn [pt_recv device]; eapply recv_acked; [apply (device_acked (env := D) n)|
    eapply (device_hears (env := D) n lid 1 PROV_START start_static)]|..].
  16: eapply (device_start (env := D) n). all: side.
Qed.
Lemma turn_p3 :
  proto n (burst n provisioner [ack_pdu lid 1]) (Ab p3 c (Some (PROV_CAPABILITIES :: caps)) 0 true [0x80]) tt
    (Ab p4 c (Some (PROV_CAPABILITIES :: caps)) 0 true [0x80]) (pb_pdus lid 2 (PROV_PUB_KEY :: swap_key keyP)) [].
Proof.
  pose proof bufs_ok. pose proof lid_ok. pose proof key_lengths as (? & ? & ? & ?).
  destruct F as [_ ? _ _ _ _ _ (? & ? & ?)].
  eapply quiet_burst; [cbn [pt_recv provisioner]; eapply recv_one;
    apply (provisioner_start_acked (env := P) n) with (y := 1) (x := 2)|..]. all: side.
Qed.

(** The keys the controllers are asked to combine. *)
Lemma remote_of_device li : length li = 145%nat ->
  swap_key (take 64 (drop 17 (put_at 81 (swap_key keyD) (put_at 17 (swap_key keyP) li)))) = keyP.
Proof.
  intros Hl. destruct key_lengths as (HD & _ & HP & _). destruct F as [_ _ _ _ _ _ _ (_ & _ & H64)].
  rewrite (put_at_before 81) by (rewrite ?length_put_at; lia).
  rewrite put_at_get by (done || lia). by apply swap_key_swap.
Qed.
Lemma remote_of_provisioner li : length li = 145%nat ->
  swap_key (take 64 (drop 81 (put_at 81 (swap_key keyD) li))) = keyD.
Proof.
  intros Hl. destruct key_lengths as (HD & _). destruct F as [_ _ _ _ _ _ (_ & _ & H64)].
  rewrite put_at_get by (done || lia). by apply swap_key_swap.
Qed.
Lemma length_inputs_start :
  length (put_at 12 start_static (put_at 1 caps (put_at 0 [0] (replicate 145 0)))) = 145%nat.
Proof.
  assert (H0 : length (put_at 0 [0] (replicate 145 0)) = 145%nat) by done.
  assert (H1 : length (put_at 1 caps (put_at 0 [0] (replicate 145 0))) = 145%nat).
  { rewrite length_put_at; [done|]. rewrite H0. cbn. lia. }
  rewrite length_put_at; [done|]. rewrite H1. cbn. lia.
Qed.

Lemma length_inputs_keyP : length (put_at 17 (swap_key keyP)
  (put_at 12 start_static (put_at 1 caps (put_at 0 [0] (replicate 145 0))))) = 145%nat.
Proof.
  destruct key_lengths as (_ & _ & HP & _).
  rewrite length_put_at; [apply length_inputs_start|]. rewrite length_inputs_start. lia.
Qed.

Lemma turn_d4 :
  proto n (burst n device (pb_pdus lid 2 (PROV_PUB_KEY :: swap_key keyP)))
    (Ab d3 cD (Some (PROV_START :: start_static)) 0 false [1; 0]) tt
    (Ab d4 cD (Some (PROV_PUB_KEY :: swap_key keyP)) 0 true [2; 1; 0])
    (ack_pdu lid 2 :: pb_pdus lid 0x81 (PROV_PUB_KEY :: swap_key keyD)) [PvDhKeyGen keyP].
Proof.
  pose proof bufs_ok. pose proof lid_ok. pose proof key_lengths as (? & ? & ? & ?).
  assert (pb_msg (PROV_PUB_KEY :: swap_key keyP)) by (apply key_msg; side).
  pose proof (remote_of_device _ length_inputs_start) as Hr.
  destruct F as [_ ? _ _ _ _ (? & ? & ?) _ (Hdh & _) (Hs & _ & _)].
  eapply key_burst_silent; [cbn [pt_recv device]; eapply (device_hears (env := D) n lid 2 PROV_PUB_KEY (swap_key keyP))|
    cbn [pt_dh_cb pt_dh device]; rewrite Hs; apply (device_dh_key (env := D) n secret)|..].
  11: apply (device_pub_key (env := D) n) with (remote := keyP). all: side.
Qed.
Lemma turn_p4 :
  proto n (burst n provisioner (ack_pdu lid 2 :: pb_pdus lid 0x81 (PROV_PUB_KEY :: swap_key keyD)))
    (Ab p4 c (Some (PROV_CAPABILITIES :: caps)) 0 true [0x80]) tt
    (Ab p5 c (Some (PROV_PUB_KEY :: swap_key keyD)) 0 true [0x81; 0x80])
    ([ack_pdu lid 0x81] ++ pb_pdus lid 3 (PROV_CONFIRM :: confP)) [PvDhKeyGen keyD].
Proof.
  pose proof bufs_ok. pose proof lid_ok. pose proof key_lengths as (? & ? & ? & ?).
  assert (pb_msg (PROV_PUB_KEY :: swap_key keyD)) by (apply key_msg; side).
  pose proof (remote_of_provisioner _ length_inputs_keyP) as Hr.
  destruct F as [_ ? _ _ _ _ (? & ? & ?) _ (_ & Hdh) (_ & Hs & _) (_ & ? & ? & ?) _ _ (? & ?)].
  eapply key_burst; [cbn [pt_recv provisioner]; eapply recv_acked; [apply (provisioner_acked (env := P) n)|
      eapply (provisioner_hears (env := P) n lid 0x81 PROV_PUB_KEY (swap_key keyD))]|
    cbn [pt_dh_cb pt_dh provisioner]; rewrite Hs; eapply (provisioner_dh_key (env := P) n) with (x := 3) (tx := 4)|..].
  17: apply (provisioner_pub_key n) with (remote := keyD). all: side.
Qed.
Lemma turn_d5 :
  proto n (burst n device ([ack_pdu lid 0x81] ++ pb_pdus lid 3 (PROV_CONFIRM :: confP)))
    (Ab d4 cD (Some (PROV_PUB_KEY :: swap_key keyP)) 0 true [2; 1; 0]) tt
    (Ab d5 cD (Some (PROV_CONFIRM :: confP)) 0 true [3; 2; 1; 0])
    (ack_pdu lid 3 :: pb_pdus lid 0x82 (PROV_CONFIRM :: confD)) [].
Proof.
  pose proof bufs_ok. pose proof lid_ok. assert (pb_msg (PROV_CONFIRM :: confP)) by (apply block_msg; side).
  destruct F as [_ ? _ _ _ _ _ _ _ _ _ (Ha & _) (? & ?)]. destruct HbP.
  eapply quiet_burst; [cbn [pt_recv device]; eapply recv_acked; [apply (device_acked (env := D) n)|
    eapply (device_hears (env := D) n lid 3 PROV_CONFIRM confP)]|..].
  16: apply (device_confirm (env := D) n) with (conf := confD) (x := 0x82). all: side.
Qed.
Lemma turn_p5 :
  proto n (burst n provisioner (ack_pdu lid 3 :: pb_pdus lid 0x82 (PROV_CONFIRM :: confD)))
    (Ab p5 c (Some (PROV_PUB_KEY :: swap_key keyD)) 0 true [0x81; 0x80]) tt
    (Ab p6 c (Some (PROV_CONFIRM :: confD)) 0 true [0x82; 0x81; 0x80])
    (ack_pdu lid 0x82 :: pb_pdus lid 4 (PROV_RANDOM :: randP)) [].
Proof.
  pose proof bufs_ok. pose proof lid_ok. assert (pb_msg (PROV_CONFIRM :: confD)) by (apply block_msg; side).
  destruct F as [_ ? _ _ _ _ _ _ _ _ _ _ _ (? & ?) _ _ Hdiff]. destruct HbD.
  pose proof (Hdiff salt key confD confP Hsalt Hkey HconfD HconfP).
  eapply quiet_burst; [cbn [pt_recv provisioner]; eapply recv_acked; [apply (provisioner_acked (env := P) n)|
    eapply (provisioner_hears (env := P) n lid 0x82 PROV_CONFIRM confD)]|..].
  17: apply (provisioner_confirm (env := P) n) with (x := 4). all: side.
Qed.
Lemma turn_d6 :
  proto n (burst n device (ack_pdu lid 0x82 :: pb_pdus lid 4 (PROV_RANDOM :: randP)))
    (Ab d5 cD (Some (PROV_CONFIRM :: confP)) 0 true [3; 2; 1; 0]) tt
    (Ab d6 cD (Some (PROV_RANDOM :: randP)) 0 true [4; 3; 2; 1; 0])
    (ack_pdu lid 4 :: pb_pdus lid 0x83 (PROV_RANDOM :: randD)) [].
Proof.
  pose proof bufs_ok. pose proof lid_ok.
  destruct F as [_ ? _ _ _ _ _ _ _ _ _ (_ & Ha) (? & ?) (? & HrP)].
  assert (pb_msg (PROV_RANDOM :: randP)) by (apply block_msg; side). destruct HrP.
  eapply quiet_burst; [cbn [pt_recv device]; eapply recv_acked; [apply (device_acked (env := D) n)|
    eapply (device_hears (env := D) n lid 4 PROV_RANDOM randP)]|..].
  16: apply (device_random (env := D) n) with (x := 0x83). all: side.
Qed.

(** The context after the device is given its address. *)
Definition next_ctx : prov_ctx :=
  (forget (replicate 16 0) c) <| pc_curr_alloc_addr := Provr.next_alloc_addr c (zero_link <| pl_element_num := byte_at caps 0 |>) |>.

Lemma turn_p6 :
  proto n (burst n provisioner (ack_pdu lid 4 :: pb_pdus lid 0x83 (PROV_RANDOM :: randD)))
    (Ab p6 c (Some (PROV_CONFIRM :: confD)) 0 true [0x82; 0x81; 0x80]) tt
    (Ab p7 next_ctx (Some (PROV_RANDOM :: randD)) 0 true [0x83; 0x82; 0x81; 0x80])
    (ack_pdu lid 0x83 :: pb_pdus lid 5 (PROV_DATA :: enc)) [].
Proof.
  pose proof bufs_ok. pose proof lid_ok.
  destruct F as [_ ? _ _ _ _ _ _ _ _ _ _ (_ & HrD) (? & ?) _ ? _ (? & _) _ (? & _)].
  assert (pb_msg (PROV_RANDOM :: randD)) by (apply block_msg; side). destruct HrD.
  eapply quiet_burst; [cbn [pt_recv provisioner]; eapply recv_acked; [apply (provisioner_acked (env := P) n)|
    eapply (provisioner_hears (env := P) n lid 0x83 PROV_RANDOM randD)]|..].
  17: apply (provisioner_random (env := P) n) with (x := 5) (session_key := session_key) (nonce := nonce) (net_key := net_key).
  all: side.
Qed.
Lemma turn_d7 :
  proto n (burst n device (ack_pdu lid 0x83 :: pb_pdus lid 5 (PROV_DATA :: enc)))
    (Ab d6 cD (Some (PROV_RANDOM :: randP)) 0 true [4; 3; 2; 1; 0]) tt
    (Ab d7 cD (Some (PROV_DATA :: enc)) 0 true [5; 4; 3; 2; 1; 0])
    (ack_pdu lid 5 :: pb_pdus lid 0x84 [PROV_COMPLETE])
    [PvProvData addr; PvProvision (take 16 net_key) (pc_curr_net_idx c) (pc_curr_flags c) (pc_curr_iv_index c) addr dev_key].
Proof.
  pose proof bufs_ok. pose proof lid_ok. pose proof data_msg.
  destruct F as [_ ? _ _ _ _ _ _ _ _ _ _ _ _ _ _ _ (_ & _ & Hnk) (Hidx & Hfl & Hiv) (_ & Haddr)].
  destruct (data_fields net_key c addr Hnk Hidx Hfl Hiv Haddr) as (E1 & E2 & E3 & E4 & E5).
  eapply quiet_burst; [cbn [pt_recv device]; eapply recv_acked; [apply (device_acked (env := D) n)|
    eapply (device_hears (env := D) n lid 5 PROV_DATA enc)]|..].
  16: { eapply proto_eq; [apply (device_data (env := D) n) with (x := 0x84) (tx := 0x84) (id := lid)
    (session_key := session_key) (nonce := nonce) (pdu := Provr.data_pdu net_key c addr) (dev_key := dev_key)|..]; try side.
    by rewrite E1, E2, E3, E4, E5. }
  all: side.
Qed.
Lemma turn_p7 :
  proto n (burst n provisioner (ack_pdu lid 5 :: pb_pdus lid 0x84 [PROV_COMPLETE]))
    (Ab p7 next_ctx (Some (PROV_RANDOM :: randD)) 0 true [0x83; 0x82; 0x81; 0x80]) tt
    (Ab p8 next_ctx (Some [PROV_COMPLETE]) 0 true [0x84; 0x83; 0x82; 0x81; 0x80])
    [ack_pdu lid 0x84; ctl_pdu lid LINK_CLOSE [CLOSE_REASON_SUCCESS]] [].
Proof.
  pose proof bufs_ok. pose proof lid_ok. destruct F as [_ ? _ _ _ _ _ _ _ _ _ _ _ _ _ _].
  assert (pb_msg [PROV_COMPLETE]) by (apply pb_msg_ok; [by repeat constructor|cbn; lia]).
  eapply quiet_burst; [cbn [pt_recv provisioner]; eapply recv_acked; [apply (provisioner_acked (env := P) n)|
    eapply (provisioner_hears (env := P) n lid 0x84 PROV_COMPLETE []) with (func := fun _ => Provr.prov_complete)]|..].
  17: apply (provisioner_complete (env := P) n) with (dev_key := dev_key) (id := lid).
  all: side.
Qed.
Lemma turn_d8 :
  proto n (burst n device [ack_pdu lid 0x84; ctl_pdu lid LINK_CLOSE [CLOSE_REASON_SUCCESS]])
    (Ab d7 cD (Some (PROV_DATA :: enc)) 0 true [5; 4; 3; 2; 1; 0]) tt
    (Ab d8 cD None 0 false [5; 4; 3; 2; 1; 0]) [] [PvLinkClose false].
Proof.
  pose proof bufs_ok. pose proof lid_ok.
  eapply quiet_burst; [cbn [pt_recv device]; eapply recv_acked; [apply (device_acked (env := D) n)|
    apply recv_one, (device_close (env := D) n)]|..]. all: side.
Qed.

(** *** All together *)

Lemma talks_all :
  talks n 15 device provisioner [ctl_pdu lid LINK_OPEN (@pe_uuid D)] (Ab d0 cD None 0 false []) (Ab p1 c None 0 true [])
    (Ab d8 cD None 0 false [5; 4; 3; 2; 1; 0]) (Ab p8 next_ctx (Some [PROV_COMPLETE]) 0 true [0x84; 0x83; 0x82; 0x81; 0x80])
    [PvLinkOpen false; PvProvStart (Some lid); PvDhKeyGen keyP; PvProvData addr;
     PvProvision (take 16 net_key) (pc_curr_net_idx c) (pc_curr_flags c) (pc_curr_iv_index c) addr dev_key;
     PvLinkClose false]
    [PvDhKeyGen keyD] [].
Proof.
  eapply (talks_turn n _ _ _ _ _ _ _ _ _ _ [PvLinkOpen false; PvProvStart (Some lid)]); [apply turn_d1|].
  eapply (talks_turn n _ _ _ _ _ _ _ _ _ _ []); [apply turn_p1|].
  eapply (talks_turn n _ _ _ _ _ _ _ _ _ _ []); [apply turn_d2|].
  eapply (talks_turn n _ _ _ _ _ _ _ _ _ _ []); [apply turn_p2|].
  eapply (talks_turn n _ _ _ _ _ _ _ _ _ _ []); [apply turn_d3|].
  eapply (talks_turn n _ _ _ _ _ _ _ _ _ _ []); [apply turn_p3|].
  eapply (talks_turn n _ _ _ _ _ _ _ _ _ _ [_]); [apply turn_d4|].
  eapply (talks_turn n _ _ _ _ _ _ _ _ _ _ [_]); [apply turn_p4|].
  eapply (talks_turn n _ _ _ _ _ _ _ _ _ _ []); [apply turn_d5|].
  eapply (talks_turn n _ _ _ _ _ _ _ _ _ _ []); [apply turn_p5|].
  eapply (talks_turn n _ _ _ _ _ _ _ _ _ _ []); [apply turn_d6|].
  eapply (talks_turn n _ _ _ _ _ _ _ _ _ _ []); [apply turn_p6|].
  eapply (talks_turn n _ _ _ _ _ _ _ _ _ _ [_; _]); [apply turn_d7|].
  eapply (talks_turn n _ _ _ _ _ _ _ _ _ _ []); [apply turn_p7|].
  eapply (talks_turn n _ _ _ _ _ _ _ _ _ _ [_]); [apply turn_d8|]. apply talks_end.
Qed.

End agreement.

(** ** From the start *)

Section start.
Context {pcfg : ProvConfig} {hal : SecHal} {halok : SecHalOk hal}.
Context (D P : ProvEnv) (dhD dhP : bytes -> bytes).

Definition state_of {A} (r : option (A * prov_state * list prov_event)) : option prov_state :=
  match r with Some (_, s, _) => Some s | None => None end.
(** The device after its initialisation, its key pair generated. *)
Definition ready_device (n : nat) : option prov_state :=
  state_of ((bt_mesh_prov_init 0 ;; pub_key_ready (env := D) (@pe_pub_key D)) (prov_static n)).
(** The provisioner after its initialisation, with nodes from before. *)
Definition ready_provisioner (n : nat) (unicast start elems flags iv : Z) (nodes : list mesh_node) : option prov_state :=
  state_of (Provr.bt_mesh_provisioner_prov_init (env := P) unicast start elems flags iv
    ((Provr.provisioner_static n) <| ps_ctx := mk_ctx_prov 0 0 0 0 0 nodes |>)).

(** The provisioner opens a link to the device, whose beacon it has seen, and
    the two take [k] turns. *)
Definition provisioning (n k : nat) (sd sp : prov_state) :=
  match (Provr.provisioner_link_open (env := P) (@pe_uuid D) ;; drain (env := P) n) sp with
  | Some (_, sp, e) => session n k (device D dhD) (provisioner P dhP) (wire e) sd sp
  | None => None
  end.


Lemma impl_start n l b c s :
  s = mk_prov_state l b XACT_NVAL (mk_adv (pool_init n zero_prov_buf) []) None c ->
  nb_off b = 0%nat -> (65 <= nb_size b)%nat -> pl_tx_buf l = [] -> impl n (Ab l c None 0 false []) s.
Proof.
  intros -> Hoff Hsz Hl. assert (E : l = with_bufs [] l) by (destruct l; cbn in *; by subst).
  split; cbn; rewrite ?Hl; cbn; try done; try lia; try (by left); [apply bearer_init|].
  unfold av_refs, refs. cbn. by rewrite length_map, length_replicate.
Qed.
(** A computation of [proto] from such a state. *)
Lemma state_of_impl (m : L unit) n a a' s0 s w o :
  proto n m a tt a' w o -> impl n a s0 -> state_of (m s0) = Some s -> impl n a' s.
Proof. intros Hm Hi Hs. destruct (Hm s0 Hi) as (s' & e & E & Hi' & _). rewrite E in Hs. by injection Hs as <-. Qed.

Lemma device_impl n sd keyD :
  @pe_pub_key D = Some keyD -> ready_device n = Some sd -> impl n (Ab d0 (ps_ctx sd) None 0 false []) sd.
Proof.
  intros Hk Hsd. unfold ready_device in Hsd.
  assert (Hi : impl n (Ab d0 (mk_ctx_prov 0 0 0 0 0 []) None 0 false []) sd).
  { refine (state_of_impl _ n (Ab zero_link (mk_ctx_prov 0 0 0 0 0 []) None 0 false []) _ (prov_static n) sd [] [] _ _ Hsd);
      [|apply (impl_start n _ _ _ _ eq_refl); [done| |done]; destruct PB_GATT; cbn; lia].
    rewrite Hk. eapply (proto_seq n _ _ _ 0).
    - unfold bt_mesh_prov_init. apply proto_if_false; [done|]. eapply proto_seq; [by apply proto_mod_link|].
      eapply proto_seq; [by apply proto_init_rx|apply proto_ret].
    - unfold pub_key_ready. eapply proto_seq; [by apply proto_mod_link|]. apply proto_get_link. intros ids _.
      apply proto_if_false; [done|]. apply proto_ret. }
  by rewrite (im_ctx _ _ _ Hi).
Qed.
(** What the initialisation leaves in the provisioner's context. *)
Definition start_ctx (unicast start elems flags iv : Z) (nodes : list mesh_node) : prov_ctx :=
  let c := mk_ctx_prov 0 0 0 0 0 nodes in
  let len := Z.of_nat (length (default [] (@pe_static_val P))) in
  let c := if len =? 0 then c else c <| pc_static_oob_len := Z.min len 16 |> in
  snd (Provr.bt_mesh_provisioner_init_prov_info unicast start elems flags iv c).

Lemma provisioner_impl n unicast start elems flags iv nodes sp keyP :
  @pe_pub_key P = Some keyP -> ready_provisioner n unicast start elems flags iv nodes = Some sp ->
  impl n (Ab p0 (start_ctx unicast start elems flags iv nodes) None 0 false []) sp.
Proof.
  intros Hk Hsp. unfold ready_provisioner in Hsp.
  destruct (Provr.bt_mesh_provisioner_prov_init (env := P) unicast start elems flags iv
    ((Provr.provisioner_static n) <| ps_ctx := mk_ctx_prov 0 0 0 0 0 nodes |>)) as [[[x s'] e]|] eqn:E; [|done].
  injection Hsp as <-.
  assert (Hp : proto n (Provr.bt_mesh_provisioner_prov_init (env := P) unicast start elems flags iv)
    (Ab zero_link (mk_ctx_prov 0 0 0 0 0 nodes) None 0 false []) 0
    (Ab p0 (start_ctx unicast start elems flags iv nodes) None 0 false []) [] []).
  { unfold Provr.bt_mesh_provisioner_prov_init. rewrite Hk. eapply proto_seq; [apply proto_mod_ctx|].
    eapply proto_seq; [by apply proto_mod_link|]. eapply proto_seq; [by apply proto_init_rx|apply proto_ret]. }
  destruct (Hp ((Provr.provisioner_static n) <| ps_ctx := mk_ctx_prov 0 0 0 0 0 nodes |>)) as (s2 & e2 & E2 & Hi & _).
  - apply (impl_start n _ _ _ _ eq_refl); [done|cbn; lia|done].
  - rewrite E in E2. injection E2 as -> -> ->. exact Hi.
Qed.
Lemma start_ctx_fields unicast start elems flags iv nodes :
  BT_MESH_ADDR_IS_UNICAST unicast = true -> BT_MESH_ADDR_IS_UNICAST start = true ->
  let c := start_ctx unicast start elems flags iv nodes in
  pc_curr_net_idx c = 0 /\ pc_curr_flags c = flags /\ pc_curr_iv_index c = u16 iv.
Proof. unfold start_ctx, Provr.bt_mesh_provisioner_init_prov_info. intros -> ->. by case_if. Qed.

(** C36: Provisioning over PB-ADV, from the opening of the link to its closing.
    When the two sides fit ([fits]), fifteen turns of them, each hearing all the
    PDUs the other has handed to its bearer, take the device through the whole
    protocol: it is provisioned once, with the network key the provisioner has,
    the key index, flags and IV index of the provisioner's context, the address
    the provisioner chose, and the device key the provisioner derives; both links
    are closed, nothing is left to send. In the context that the initialisation
    leaves, the key index is 0, the flags are those it was given, and the IV
    index is the one it was given modulo 65536: the member [curr_iv_index] has 16
    bits, so a larger IV index is not the one the device gets.

    The two fit when: PB-GATT is built in and the pool has eight buffers; the
    device is not provisioned, its UUID passes the provisioner's filter and is
    not that of a node; the device's capabilities are valid, offer static OOB data
    and no public key out of band, and the provisioner has static OOB data, and
    neither a public key out of band nor input or output OOB data, so that static
    authentication is chosen; both have key pairs, and their controllers accept
    the other's public key and agree on the secret; the values that the device
    computes from its tri-tuple for the two random numbers ([genie_auth], zeros in a
    build without OOB data; it does not use its own static value) are the static
    value of the provisioner; the
    two random numbers differ, and so do the confirmations; and the provisioner has
    the network key of its context and an address for the device. *)
Theorem provisioning_agreement n unicast start elems flags iv nodes sd sp keyD keyP secret auth randD randP lid net_key addr :
  let c := ps_ctx sp in
  ready_device n = Some sd -> ready_provisioner n unicast start elems flags iv nodes = Some sp ->
  fits D P dhD dhP n c keyD keyP secret auth randD randP lid net_key addr ->
  exists sd' sp' ed ep dev_key,
    provisioning n 15 sd sp = Some (sd', sp', ed, ep, []) /\
    outcome ed = [PvLinkOpen false; PvProvStart (Some (Provr.le_int lid)); PvDhKeyGen keyP; PvProvData addr;
      PvProvision (take 16 net_key) (pc_curr_net_idx c) (pc_curr_flags c) (pc_curr_iv_index c) addr dev_key;
      PvLinkClose false] /\
    outcome ep = [PvDhKeyGen keyD] /\
    bt_mesh_dev_key (pl_dhkey (ps_link sp')) (pl_prov_salt (ps_link sp')) = Ok dev_key /\
    pl_unicast_addr (ps_link sp') = addr /\
    pl_active (ps_link sd') = false /\ pl_active (ps_link sp') = false /\
    (BT_MESH_ADDR_IS_UNICAST unicast = true -> BT_MESH_ADDR_IS_UNICAST start = true ->
     pc_curr_net_idx c = 0 /\ pc_curr_flags c = flags /\ pc_curr_iv_index c = u16 iv).
Proof.
  intros c Hsd Hsp F. pose proof F as [Hn Hg Hunp (Hu & Hf & Hnode) (Hcb & Hcaps) Hoob (HkD & HbD & HlD) (HkP & HbP & HlP)
    Hdh (Hs1 & Hs2 & Hsb) (_ & _ & _ & Hab) Hauth (HrD & HrDb) (HrP & HrPb) (Hlid & Hlid') Hfresh Hdiff (Hnk & Hnkb & Hnkl)
    (Hidx & Hfl & Hiv) (Haddr & Haddr')].
  destruct (swap_key_ok keyD HlD HbD) as [HlD' HbD']. destruct (swap_key_ok keyP HlP HbP) as [HlP' HbP'].
  destruct (conf_salt_block (inputs_of D keyP keyD)) as (salt & Hsalt & Hsaltb).
  { unfold inputs_of, start_static. repeat apply is_bytes_put_at; try done; [by repeat constructor..|]. by apply is_bytes_replicate. }
  assert (Hsb' : is_bytes (reverse secret)) by (by apply Forall_reverse).
  destruct (conf_key_block _ salt Hsb' Hsaltb) as (key & Hkey & Hkeyb).
  destruct (prov_conf_block key randD auth) as (confD & HcD & HcDb); [done..|].
  destruct (prov_conf_block key randP auth) as (confP & HcP & HcPb); [done..|].
  destruct (prov_salt_block salt randP randD) as (psalt & Hps & Hpsb); [done..|].
  destruct (session_key_block _ psalt Hsb' Hpsb) as (session_key & Hsk & Hskb).
  destruct (prov_nonce_ok _ psalt Hsb' Hpsb) as (nonce & Hno & Hnob).
  destruct (dev_key_block _ psalt Hsb' Hpsb) as (dev_key & Hdk & _).
  destruct (prov_data_roundtrip session_key nonce (Provr.data_pdu net_key c addr)) as (enc & Henc & Hencl & Hencb & Hdec);
    [done|done|by apply data_pdu_bytes|by apply length_data_pdu|].
  pose proof (device_impl n sd keyD HkD Hsd) as Hid.
  pose proof (provisioner_impl n unicast start elems flags iv nodes sp keyP HkP Hsp) as Hip.
  pose proof (im_ctx _ _ _ Hip : c = start_ctx unicast start elems flags iv nodes) as Hstart. rewrite <- Hstart in Hip.
  assert (Hopen : proto n (Provr.provisioner_link_open (env := P) (@pe_uuid D) ;; drain (env := P) n)
    (Ab p0 c None 0 false []) tt (Ab (p1 P lid) c None 0 true [])
    [ctl_pdu (Provr.le_int lid) LINK_OPEN (@pe_uuid D)] [PvProvStart (Some (Provr.le_int lid)); PvLinkOpen false]).
  { eapply proto_then; [apply (provisioner_open (env := P) n); try done; lia|]. apply proto_drain. lia. }
  destruct (Hopen sp Hip) as (sp1 & e1 & E1 & Hi1 & Hw1 & Ho1).
  edestruct (talks_all D P dhD dhP n c (ps_ctx sd)) with (sa := sd) (sb := sp1)
    (salt := salt) (key := key) (confD := confD) (confP := confP) (psalt := psalt) (session_key := session_key)
    (nonce := nonce) (enc := enc) (dev_key := dev_key) as (sd' & sp' & ed & ep & E & Hd' & Hp' & Hod & Hop); [eassumption..|].
  exists sd', sp', ed, ep, dev_key. unfold provisioning. rewrite E1, Hw1, E.
  rewrite (im_link _ _ _ Hd'), (im_link _ _ _ Hp'). split_and!; try done.
  rewrite Hstart. by apply start_ctx_fields.
Qed.
End start.

(** Controllers that multiply, of the examples. *)
Definition example_dh (sk : Z) (pk : bytes) : bytes := map (fun b => u8 (sk * b)) (take 32 pk).

Lemma provisioning_agreement_witness :
  let pcfg := default_prov_config in
  let D := example_env 0x11 3 in
  let P := example_env 0x22 5 in
  exists sd sp sd' sp' ed ep dev_key,
    ready_device D 12 = Some sd /\ ready_provisioner P 12 1 2 1 0 0x12345 [] = Some sp /\
    provisioning (hal := sw_hal) D P (example_dh 3) (example_dh 5) 12 15 sd sp = Some (sd', sp', ed, ep, []) /\
    outcome ed = [PvLinkOpen false; PvProvStart (Some 0x22222222); PvDhKeyGen (replicate 64 5); PvProvData 2;
      PvProvision (replicate 16 0x55) 0 0 0x2345 2 dev_key; PvLinkClose false] /\
    pl_active (ps_link sd') = false.
Proof.
  intros pcfg D P.
  assert (Hsd : exists sd, ready_device D 12 = Some sd) by (eexists; vm_compute; reflexivity).
  assert (Hsp : exists sp, ready_provisioner P 12 1 2 1 0 0x12345 [] = Some sp /\
    ps_ctx sp = mk_ctx_prov 2 0 0 0x2345 16 []) by (eexists; split; vm_compute; reflexivity).
  destruct Hsd as (sd & Hsd), Hsp as (sp & Hsp & Hc).
  destruct (provisioning_agreement (hal := sw_hal) D P (example_dh 3) (example_dh 5) 12 1 2 1 0 0x12345 [] sd sp
    (replicate 64 3) (replicate 64 5) (replicate 32 15) (replicate 16 9) (replicate 16 0x11) (replicate 16 0x22)
    (replicate 4 0x22) (replicate 16 0x55) 2 Hsd Hsp) as (sd' & sp' & ed & ep & dk & H1 & H2 & _ & _ & _ & H3 & _ & Hc').
  - rewrite Hc. split; try done; repeat split; try done; try by apply (bool_decide_unpack (is_bytes _)).
    + lia.
    + intros salt key cD cP Hs Hk HD HP. vm_compute in Hs. injection Hs as <-. vm_compute in Hk. injection Hk as <-.
      vm_compute in HD. injection HD as <-. vm_compute in HP. by injection HP as <-.
  - rewrite Hc in H2. exists sd, sp, sd', sp', ed, ep, dk. done.
Defined.
