(* ===== verification/CfgState.v ===== *)
(** * The state of a node that is configured (bt_mesh/inc/api/mesh/cfg_srv.h)

    The state the Configuration Server and the start-up code of a node work on:
    the network context, the composition, the server's own states, the labels of
    virtual addresses and the list of subscriptions [g_sub_list]; what they ask
    of other components, as events; and how they read a message and answer it. *)

From S2P Require Import Prelude NetBuf Cmac Ccm MeshCrypto NetState NetIv TransState TransTx Access Beacon Proxy.

(** ** Constants (inc/foundation.h, inc/api/mesh/main.h) *)

Definition STATUS_SUCCESS : Z := 0x00.
Definition STATUS_INVALID_ADDRESS : Z := 0x01.
Definition STATUS_INVALID_MODEL : Z := 0x02.
Definition STATUS_INVALID_APPKEY : Z := 0x03.
Definition STATUS_INVALID_NETKEY : Z := 0x04.
Definition STATUS_INSUFF_RESOURCES : Z := 0x05.
Definition STATUS_IDX_ALREADY_STORED : Z := 0x06.
Definition STATUS_NVAL_PUB_PARAM : Z := 0x07.
Definition STATUS_STORAGE_FAIL : Z := 0x09.
Definition STATUS_FEAT_NOT_SUPP : Z := 0x0a.
Definition STATUS_CANNOT_UPDATE : Z := 0x0b.
Definition STATUS_CANNOT_REMOVE : Z := 0x0c.
Definition STATUS_CANNOT_BIND : Z := 0x0d.
Definition STATUS_CANNOT_SET : Z := 0x0f.
Definition STATUS_UNSPECIFIED : Z := 0x10.
Definition STATUS_INVALID_BINDING : Z := 0x11.

Definition BT_MESH_RELAY_NOT_SUPPORTED : Z := 2.
Definition BT_MESH_BEACON_DISABLED : Z := 0.
Definition BT_MESH_BEACON_ENABLED : Z := 1.
Definition BT_MESH_GATT_PROXY_DISABLED : Z := 0.
Definition BT_MESH_GATT_PROXY_NOT_SUPPORTED : Z := 2.
Definition BT_MESH_FRIEND_DISABLED : Z := 0.
Definition BT_MESH_FRIEND_NOT_SUPPORTED : Z := 2.
Definition BT_MESH_FEAT_RELAY : Z := 1.
Definition BT_MESH_FEAT_PROXY : Z := 2.
Definition BT_MESH_FEAT_FRIEND : Z := 4.
Definition BT_MESH_FEAT_LOW_POWER : Z := 8.
Definition BT_MESH_MODEL_ID_CFG_SRV : Z := 0x0000.
Definition DEFAULT_TTL : Z := 7.
Definition BT_MESH_TRANSMIT (count int_ms : Z) : Z := Z.lor count (Z.shiftl (int_ms / 10 - 1) 3).

(** Sizes (inc/mesh_config.h). *)
Definition MODEL_KEY_COUNT : nat := 2.
Definition MODEL_GROUP_COUNT : nat := 8.
Definition LABEL_COUNT : nat := 2.

(** ** State *)

(** The heartbeat publication; [hp_timer] is the delay its timer was last
    started with. *)
Record hb_pub := mk_hb_pub {
  hp_timer : option Z;
  hp_dst : Z;
  hp_count : Z;
  hp_period : Z;
  hp_ttl : Z;
  hp_feat : Z;
  hp_net_idx : Z
}.
#[export] Instance hb_pub_settable : Settable hb_pub.
Proof.
  settable (fun p => mk_hb_pub (hp_timer p) (hp_dst p) (hp_count p) (hp_period p) (hp_ttl p) (hp_feat p) (hp_net_idx p)).
Defined.

(** The heartbeat subscription; [hs_func] is whether it has a callback. *)
Record hb_sub := mk_hb_sub {
  hs_expiry : Z;
  hs_src : Z;
  hs_dst : Z;
  hs_count : Z;
  hs_min_hops : Z;
  hs_max_hops : Z;
  hs_func : bool
}.
#[export] Instance hb_sub_settable : Settable hb_sub.
Proof.
  settable (fun p => mk_hb_sub (hs_expiry p) (hs_src p) (hs_dst p) (hs_count p) (hs_min_hops p) (hs_max_hops p) (hs_func p)).
Defined.

(** [struct bt_mesh_cfg_srv]. *)
Record cfg_srv := mk_cfg_srv {
  cs_model : option model_ref;
  cs_net_transmit : Z;
  cs_relay : Z;
  cs_relay_retransmit : Z;
  cs_beacon : Z;
  cs_gatt_proxy : Z;
  cs_frnd : Z;
  cs_default_ttl : Z;
  cs_hb_pub : hb_pub;
  cs_hb_sub : hb_sub
}.
#[export] Instance cfg_srv_settable : Settable cfg_srv.
Proof.
  settable (fun c => mk_cfg_srv (cs_model c) (cs_net_transmit c) (cs_relay c) (cs_relay_retransmit c) (cs_beacon c)
    (cs_gatt_proxy c) (cs_frnd c) (cs_default_ttl c) (cs_hb_pub c) (cs_hb_sub c)).
Defined.

(** [struct label]. *)
Record label := mk_label { lb_addr : Z; lb_uuid : bytes }.
Definition zero_label : label := mk_label 0 (replicate 16 0).

(** [nd_conf] is whether [conf] points to the server's context [cfg_srv], which
    is the [user_data] of the model; [nd_sub_list] is [g_sub_list]. *)
Record node := mk_node {
  nd_net : mesh_net;
  nd_acc : access;
  nd_srv : cfg_srv;
  nd_conf : bool;
  nd_labels : list label;
  nd_sub_list : list Z;
  nd_provisioned : bool
}.
#[export] Instance node_settable : Settable node.
Proof.
  settable (fun n => mk_node (nd_net n) (nd_acc n) (nd_srv n) (nd_conf n) (nd_labels n) (nd_sub_list n) (nd_provisioned n)).
Defined.

(** [mesh_hb_para_t]. *)
Record hb_para := mk_hb_para {
  pa_dst : Z; pa_count : Z; pa_period : Z; pa_ttl : Z; pa_feat : Z; pa_net_idx : Z
}.

(** The events of the application's state machine. *)
Inductive genie_evt :=
| GENIE_EVT_SDK_APPKEY_ADD (status : Z)
| GENIE_EVT_SDK_APPKEY_UPDATE (status : Z)
| GENIE_EVT_SDK_APPKEY_DEL (status : Z)
| GENIE_EVT_SDK_NETKEY_ADD (status : Z)
| GENIE_EVT_SDK_NETKEY_UPDATE (status : Z)
| GENIE_EVT_SDK_NETKEY_DEL (status : Z)
| GENIE_EVT_SDK_SUB_ADD
| GENIE_EVT_SDK_SUB_DEL
| GENIE_EVT_SDK_HB_SET (para : hb_para)
| GENIE_EVT_SW_RESET.

(** Calls of other components. [CSend] is [bt_mesh_model_send], with the room
    left in the buffer; [CHeartbeat] is [bt_mesh_ctl_send] of a heartbeat. *)
Inductive cfg_event :=
| CSend (mod_ : model_ref) (ctx : msg_ctx) (msg : bytes) (room : Z)
| CHeartbeat (tx : net_tx) (data : bytes)
| CHbFunc (hops feat : Z)
| CSetHbSubDst (addr : Z)
| CBeaconEnable | CBeaconDisable
| CScanEnable | CScanDisable
| CProxyBeacon (sub : nat) | CIdentityStart (sub : nat) | CAdvUpdate
| CGattEnable | CGattDisable | CGattDisconnect
| CProxyProvEnable | CProxyProvDisable
| CTest | CProvInit | CNetInit | CTransInit | CBeaconInit | CAdvInit | CProxyInit
| CFriendInit | CFriendClear (net_idx : Z)
| CLpnInit | CLpnDisable | CLpnGroupAdd (addr : Z) | CLpnGroupDel (groups : list Z)
| CIvuCancel | CRxReset | CTxReset
| CProvComplete (net_idx addr : Z) | CProvReset
| CWriteSub (l : list Z)
| CGenie (ev : genie_evt)
| CAcc (ev : acc_event).

Abbreviation G := (stm node cfg_event).

(** The build, the composition's constants and the answers of the other
    components. *)
Class CfgEnv := {
  CONFIG_RELAY : bool;
  CONFIG_ALI_SIMPLE_MODLE : bool;
  CONFIG_PB_ADV : bool;
  CONFIG_PB_GATT : bool;
  (** [k_uptime_get()]. *)
  c_uptime : Z;
  (** The friend of the node, and whether the friendship is established. *)
  c_lpn_frnd : Z;
  c_lpn_established : bool;
  (** [genie_reset_get_flag()]. *)
  c_reset_flag : bool;
  (** The subscriptions in flash, if there are any, and [mesh_sub_init] of the
      application. *)
  c_flash_sub : option (list Z);
  mesh_sub_init : list Z -> list Z;
  (** [cid], [pid] and [vid] of the composition, [loc] of its elements. *)
  comp_cid : Z;
  comp_pid : Z;
  comp_vid : Z;
  elem_loc : nat -> Z
}.

(** ** Access to the state *)

Definition mod_srv (f : cfg_srv -> cfg_srv) : G unit := stm_modify (fun s => s <| nd_srv := f (nd_srv s) |>).
Definition mod_net (f : mesh_net -> mesh_net) : G unit := stm_modify (fun s => s <| nd_net := f (nd_net s) |>).
Definition mod_hb_pub (f : hb_pub -> hb_pub) : G unit := mod_srv (fun c => c <| cs_hb_pub := f (cs_hb_pub c) |>).
Definition mod_hb_sub (f : hb_sub -> hb_sub) : G unit := mod_srv (fun c => c <| cs_hb_sub := f (cs_hb_sub c) |>).
Definition mod_model (r : model_ref) (f : model -> model) : G unit :=
  stm_modify (fun s => s <| nd_acc := alter_model f r (nd_acc s) |>).
Definition node_model (r : model_ref) : G model :=
  s <- stm_get ;; stm_of_option (get_model (nd_acc s) r).
Definition get_hb_pub : G hb_pub := s <- stm_get ;; mret (cs_hb_pub (nd_srv s)).
Definition genie (ev : genie_evt) : G unit := stm_emit [CGenie ev].

(** A function of the access layer. *)
Definition acc {T} (m : A T) : G T := fun s =>
  match m (nd_acc s) with
  | Some (a, ac, e) => Some (a, s <| nd_acc := ac |>, map CAcc e)
  | None => None
  end.

(** [bt_mesh_model_foreach]. *)
Fixpoint for_refs (rs : list model_ref) (func : model_ref -> G unit) : G unit :=
  match rs with
  | [] => mret tt
  | r :: rs => func r ;; for_refs rs func
  end.
Definition model_foreach (func : model_ref -> G unit) : G unit :=
  s <- stm_get ;; for_refs (model_refs (nd_acc s)) func.

(** ** Messages *)

Definition pull_u8 {St Ev} (buf : bytes) : stm St Ev (Z * bytes) :=
  match buf with b :: rest => mret (b, rest) | [] => stm_undef end.
Definition pull_le16 {St Ev} (buf : bytes) : stm St Ev (Z * bytes) :=
  if decide (length buf < 2)%nat then stm_undef else mret (sys_get_le16 buf, drop 2 buf).
(** The next [n] bytes and what follows them. *)
Definition pull_mem {St Ev} (n : nat) (buf : bytes) : stm St Ev (bytes * bytes) :=
  if decide (length buf < n)%nat then stm_undef else mret (take n buf, drop n buf).

(** A message in a buffer of [cap] bytes is sent. *)
Definition reply (r : model_ref) (ctx : msg_ctx) (cap : nat) (msg : bytes) : G unit :=
  if decide (cap < length msg)%nat then stm_undef
  else stm_emit [CSend r ctx msg (Z.of_nat cap - Z.of_nat (length msg))].

(** Two key indexes in three bytes (inc/foundation.h). *)
Definition key_idx_pack (idx1 idx2 : Z) : bytes :=
  sys_put_le16 (Z.lor idx1 (Z.shiftl (Z.land idx2 0x00f) 12)) ++ [u8 (Z.shiftr idx2 4)].
Definition key_idx_unpack {St Ev} (buf : bytes) : stm St Ev (Z * Z * bytes) :=
  if decide (length buf < 3)%nat then stm_undef
  else mret (Z.land (sys_get_le16 buf) 0xfff, Z.shiftr (sys_get_le16 (drop 1 buf)) 4, drop 3 buf).

(** The loop of [app_key_get] and [net_key_get]: two indexes in three bytes, a
    last one in two; [prev] is the index that waits for another. *)
Fixpoint idx_list_pack (prev : Z) (idxs : list Z) : bytes :=
  match idxs with
  | [] => if prev =? BT_MESH_KEY_UNUSED then [] else sys_put_le16 prev
  | idx :: idxs =>
      if prev =? BT_MESH_KEY_UNUSED then idx_list_pack idx idxs
      else key_idx_pack prev idx ++ idx_list_pack BT_MESH_KEY_UNUSED idxs
  end.
Definition IDX_LEN (num : nat) : nat := num / 2 * 3 + num mod 2 * 2.

(** The model a message names: by a company and an identifier when four bytes
    are left. Its result is also whether it is a vendor model. *)
Definition get_model_id (i : nat) (e : elem) (buf : bytes) : G (option model_ref * bool) :=
  if decide (length buf < 4)%nat then
    p <- pull_le16 buf ;; let '(id, _) := p in
    mret (mk_model_ref i false <$> bt_mesh_model_find e id, false)
  else
    p <- pull_le16 buf ;; let '(company, buf) := p in
    p <- pull_le16 buf ;; let '(id, _) := p in
    mret (mk_model_ref i true <$> bt_mesh_model_find_vnd e company id, true).

(** The start of the handlers of model messages: the element, then the model; a
    status when there is none. *)
Definition find_model (elem_addr : Z) (buf : bytes) : G (bool * (Z + model_ref)) :=
  s <- stm_get ;;
  match bt_mesh_elem_find (nd_acc s) elem_addr with
  | None => mret ((length buf =? 4)%nat, inl STATUS_INVALID_ADDRESS)
  | Some i =>
      e <- stm_of_option (ac_elems (nd_acc s) !! i) ;;
      p <- get_model_id i e buf ;; let '(mod_, vnd) := p in
      mret (vnd, match mod_ with Some r => inr r | None => inl STATUS_INVALID_MODEL end)
  end.

(** The model identifier that an answer repeats. *)
Definition mod_id_of (vnd : bool) (mod_id : bytes) : G bytes :=
  p <- pull_mem (if vnd then 4 else 2) mod_id ;; let '(id, _) := p in mret id.

(** ** The states of the server, for the other components *)

Definition of_conf {T} (s : node) (f : cfg_srv -> T) (none : T) : T := if nd_conf s then f (nd_srv s) else none.
Definition bt_mesh_net_transmit_get (s : node) : Z := of_conf s cs_net_transmit 0.
Definition bt_mesh_relay_get (s : node) : Z := of_conf s cs_relay BT_MESH_RELAY_NOT_SUPPORTED.
Definition bt_mesh_friend_get (s : node) : Z := of_conf s cs_frnd BT_MESH_FRIEND_NOT_SUPPORTED.
Definition bt_mesh_relay_retransmit_get (s : node) : Z := of_conf s cs_relay_retransmit 0.
Definition bt_mesh_beacon_get (s : node) : Z := of_conf s cs_beacon BT_MESH_BEACON_DISABLED.
Definition bt_mesh_gatt_proxy_get (s : node) : Z := of_conf s cs_gatt_proxy BT_MESH_GATT_PROXY_NOT_SUPPORTED.
Definition bt_mesh_default_ttl_get (s : node) : Z := of_conf s cs_default_ttl DEFAULT_TTL.

Definition bt_mesh_label_uuid_get (s : node) (addr : Z) : option bytes :=
  lb_uuid <$> List.find (fun l => lb_addr l =? addr) (nd_labels s).
