(* ===== verification/MsgRead.v ===== *)
(** * Reading a message

    What the functions that take a message apart give for one that was put
    together: a little-endian word, key indexes, an opcode. *)

From S2P Require Import Prelude NetBuf Cmac Ccm MeshCrypto NetState NetIv TransState TransTx Access Beacon Proxy CfgState.

(** ** Reading what was written *)

(** [reads m a]: [m] does nothing but give [a]. *)
Definition reads {St Ev A} (m : stm St Ev A) (a : A) : Prop := forall s, m s = Some (a, s, []).

Section reading.
Context {St Ev : Type}.

Lemma reads_bind {A B} (m : stm St Ev A) a (f : A -> stm St Ev B) s : reads m a -> stm_bind m f s = f a s.
Proof. intros H. by apply stm_bind_pure. Qed.

Lemma reads_u8 b l : reads (pull_u8 (St := St) (Ev := Ev) (b :: l)) (b, l).
Proof. done. Qed.
Lemma reads_le16 v l : 0 <= v < 65536 -> reads (pull_le16 (St := St) (Ev := Ev) (sys_put_le16 v ++ l)) (v, l).
Proof. intros Hv s. unfold pull_le16. rewrite decide_False by (cbn; lia). by rewrite sys_get_put_le16. Qed.
Lemma reads_le16_end v : 0 <= v < 65536 -> reads (pull_le16 (St := St) (Ev := Ev) (sys_put_le16 v)) (v, []).
Proof. rewrite <- (app_nil_r (sys_put_le16 v)). apply reads_le16. Qed.
Lemma reads_mem n l : length l = n -> reads (pull_mem (St := St) (Ev := Ev) n l) (l, []).
Proof.
  intros <- s. unfold pull_mem. rewrite decide_False by lia. by rewrite firstn_all, drop_ge.
Qed.

Lemma key_idx_bytes n a l : 0 <= n <= 0xfff -> 0 <= a <= 0xfff ->
  key_idx_pack n a ++ l = (n mod 256) :: (n / 256 + (a mod 16) * 16) :: (a / 16) :: l.
Proof.
  intros Hn Ha. unfold key_idx_pack, sys_put_le16. change 0x00f with (Z.ones 4). rewrite Z.land_ones by lia.
  rewrite Z.lor_comm, lor_shiftl_add, !Z.shiftr_div_pow2 by word_lia. eval_pow.
  unfold u8. cbn [app]. repeat (f_equal; try word_lia).
Qed.
Lemma reads_key_idx n a l : 0 <= n <= 0xfff -> 0 <= a <= 0xfff ->
  reads (key_idx_unpack (St := St) (Ev := Ev) (key_idx_pack n a ++ l)) (n, a, l).
Proof.
  intros Hn Ha s. rewrite key_idx_bytes by done. unfold key_idx_unpack. rewrite decide_False by (cbn; lia). cbn [drop].
  rewrite !sys_get_le16_eq by (unfold is_byte; word_lia). change 0xfff with (Z.ones 12). rewrite Z.land_ones, Z.shiftr_div_pow2 by lia.
  eval_pow. unfold mret, stm_mret. repeat (f_equal; try word_lia).
Qed.
Lemma reads_key_idx_end n a : 0 <= n <= 0xfff -> 0 <= a <= 0xfff ->
  reads (key_idx_unpack (St := St) (Ev := Ev) (key_idx_pack n a)) (n, a, []).
Proof. rewrite <- (app_nil_r (key_idx_pack n a)). apply reads_key_idx. Qed.
End reading.

Lemma is_bytes_le16 v : is_bytes (sys_put_le16 v).
Proof. repeat constructor; apply u8_byte. Qed.
Lemma opcode_read op data : opcode_valid op -> is_bytes data -> get_opcode (bt_mesh_model_msg_init op ++ data) = Ok (op, data).
Proof.
  intros Hop Hd. apply opcode_form_init in Hop. apply get_opcode_form; [|by eauto].
  apply Forall_app. split; [|done]. unfold is_byte in *. destruct Hop; repeat constructor; unfold is_byte in *; lia.
Qed.

(** Bind, up to what its parts do. *)
Lemma bind_head {St Ev A B} (m m' : stm St Ev A) (f : A -> stm St Ev B) s : m s = m' s -> stm_bind m f s = stm_bind m' f s.
Proof. intros H. unfold stm_bind. by rewrite H. Qed.
Lemma bind_ext {St Ev A B} (m : stm St Ev A) (f g : A -> stm St Ev B) s : (forall a s', f a s' = g a s') ->
  stm_bind m f s = stm_bind m g s.
Proof. intros H. unfold stm_bind. destruct (m s) as [[[a s'] e]|]; [|done]. by rewrite H. Qed.
Lemma bind_nop {St Ev A} (m : stm St Ev A) (f : A -> stm St Ev unit) s :
  stm_bind m (fun a => f a ;; mret tt) s = stm_bind m f s.
Proof. apply bind_ext. intros a s'. apply stm_bind_tt. Qed.
