(* ===== verification/CfgModels.v ===== *)
(** * Keys, publication and subscription of models (bt_mesh/src/cfg_srv.c)

    The handlers of the Configuration Server that change application keys, the
    keys models are bound to, what models publish and the groups they subscribe
    to, with the table of virtual addresses. *)

From S2P Require Import Prelude NetBuf Cmac Ccm MeshCrypto NetState NetIv TransState TransTx Access CfgState.

(** ** Opcodes (inc/foundation.h) *)

Definition OP_APP_KEY_ADD : Z := 0x00.
Definition OP_APP_KEY_UPDATE : Z := 0x01.
Definition OP_MOD_PUB_SET : Z := 0x03.
Definition OP_APP_KEY_DEL : Z := 0x8000.
Definition OP_APP_KEY_GET : Z := 0x8001.
Definition OP_APP_KEY_LIST : Z := 0x8002.
Definition OP_APP_KEY_STATUS : Z := 0x8003.
Definition OP_MOD_PUB_GET : Z := 0x8018.
Definition OP_MOD_PUB_STATUS : Z := 0x8019.
Definition OP_MOD_PUB_VA_SET : Z := 0x801a.
Definition OP_MOD_SUB_ADD : Z := 0x801b.
Definition OP_MOD_SUB_DEL : Z := 0x801c.
Definition OP_MOD_SUB_DEL_ALL : Z := 0x801d.
Definition OP_MOD_SUB_OVERWRITE : Z := 0x801e.
Definition OP_MOD_SUB_STATUS : Z := 0x801f.
Definition OP_MOD_SUB_VA_ADD : Z := 0x8020.
Definition OP_MOD_SUB_VA_DEL : Z := 0x8021.
Definition OP_MOD_SUB_VA_OVERWRITE : Z := 0x8022.
Definition OP_MOD_SUB_GET : Z := 0x8029.
Definition OP_MOD_SUB_LIST : Z := 0x802a.
Definition OP_MOD_SUB_GET_VND : Z := 0x802b.
Definition OP_MOD_SUB_LIST_VND : Z := 0x802c.
Definition OP_MOD_APP_BIND : Z := 0x803d.
Definition OP_MOD_APP_STATUS : Z := 0x803e.
Definition OP_MOD_APP_UNBIND : Z := 0x803f.
Definition OP_SIG_MOD_APP_GET : Z := 0x804b.
Definition OP_SIG_MOD_APP_LIST : Z := 0x804c.
Definition OP_VND_MOD_APP_GET : Z := 0x804d.
Definition OP_VND_MOD_APP_LIST : Z := 0x804e.

(** ** Application keys *)

Definition key_valid (k : app_key) : bool := negb (app_net_idx k =? BT_MESH_KEY_UNUSED).
Definition app_key_is_valid (m : mesh_net) (app_idx : Z) : bool :=
  existsb (fun k => key_valid k && (app_app_idx k =? app_idx)) (app_keys m).
(** The slot that [bt_mesh_app_key_find] points to. *)
Definition app_key_slot (m : mesh_net) (app_idx : Z) : option nat :=
  find_index (fun k => key_valid k && (app_app_idx k =? app_idx)) (app_keys m).
Definition app_key_alloc (m : mesh_net) : option nat :=
  find_index (fun k => app_net_idx k =? BT_MESH_KEY_UNUSED) (app_keys m).
Definition set_app_key (i : nat) (f : app_key -> app_key) (m : mesh_net) : mesh_net :=
  m <| app_keys := alter f i (app_keys m) |>.

Section models.
Context {cfg : MeshConfig} {env : CfgEnv}.

Definition _mod_pub_set (r : model_ref) (pub_addr app_idx : Z) (cred_flag : bool) (ttl period retransmit : Z) : G Z :=
  s <- stm_get ;;
  m <- node_model r ;;
  match md_pub m with
  | None => mret STATUS_NVAL_PUB_PARAM
  | Some p =>
      if negb CONFIG_LOW_POWER && cred_flag then mret STATUS_FEAT_NOT_SUPP
      else if negb (pub_update p) && negb (period =? 0) then mret STATUS_NVAL_PUB_PARAM
      else if pub_addr =? BT_MESH_ADDR_UNASSIGNED then
        acc (mod_pub r (fun p => ((((((p <| Access.pub_addr := BT_MESH_ADDR_UNASSIGNED |>) <| pub_key := 0 |>)
          <| pub_cred := false |>) <| pub_ttl := 0 |>) <| pub_period := 0 |>) <| pub_retransmit := 0 |>)
          <| pub_count := 0 |>)) ;;
        (if pub_update p then acc (timer_cancel r) else mret tt) ;;
        mret STATUS_SUCCESS
      else
        match bt_mesh_app_key_find (nd_net s) app_idx with
        | None => mret STATUS_INVALID_APPKEY
        | Some _ =>
            let set p := (((((p <| Access.pub_addr := pub_addr |>) <| pub_key := app_idx |>) <| pub_cred := cred_flag |>)
              <| pub_ttl := ttl |>) <| pub_period := period |>) <| pub_retransmit := retransmit |> in
            acc (mod_pub r set) ;;
            (if pub_update p then
               let period_ms := period_of (set p) in
               if negb (period_ms =? 0) then acc (timer_submit r period_ms) else acc (timer_cancel r)
             else mret tt) ;;
            mret STATUS_SUCCESS
        end
  end.

(** *** Binding *)

Definition set_key (r : model_ref) (i : nat) (key_idx : Z) : G unit :=
  mod_model r (fun m => m <| md_keys := <[i := key_idx]> (md_keys m) |>).

Definition mod_bind (r : model_ref) (key_idx : Z) : G Z :=
  s <- stm_get ;;
  m <- node_model r ;;
  if negb (app_key_is_valid (nd_net s) key_idx) then mret STATUS_INVALID_APPKEY
  else if existsb (fun k => k =? key_idx) (md_keys m) then mret STATUS_SUCCESS
  else
    match find_index (fun k => k =? BT_MESH_KEY_UNUSED) (md_keys m) with
    | Some i => set_key r i key_idx ;; mret STATUS_SUCCESS
    | None => mret STATUS_INSUFF_RESOURCES
    end.

Definition mod_unbind (r : model_ref) (key_idx : Z) : G Z :=
  s <- stm_get ;;
  m <- node_model r ;;
  if negb (app_key_is_valid (nd_net s) key_idx) then mret STATUS_INVALID_APPKEY
  else
    match find_index (fun k => k =? key_idx) (md_keys m) with
    | None => mret STATUS_CANNOT_BIND
    | Some i =>
        set_key r i BT_MESH_KEY_UNUSED ;;
        (if from_option (fun p => pub_key p =? key_idx) false (md_pub m)
         then _mod_pub_set r BT_MESH_ADDR_UNASSIGNED 0 false 0 0 0 ;; mret tt
         else mret tt) ;;
        mret STATUS_SUCCESS
    end.

(** *** Setting keys *)

(** [app_key_set] after its checks: the new value in [keys[update]]. *)
Definition app_key_store (i : nat) (net_idx app_idx : Z) (val : bytes) (update : bool) : G Z :=
  match bt_mesh_app_id val with
  | Undef => stm_undef
  | Err _ =>
      (if update then mod_net (set_app_key i (fun k => k <| app_updated := false |>)) else mret tt) ;;
      mret STATUS_STORAGE_FAIL
  | Ok id =>
      mod_net (set_app_key i (fun k =>
        let k := (k <| app_net_idx := net_idx |>) <| app_app_idx := app_idx |> in
        if update then k <| app_key1 := (id, val) |> else k <| app_key0 := (id, val) |>)) ;;
      mret STATUS_SUCCESS
  end.

Definition app_key_set (net_idx app_idx : Z) (val : bytes) (update : bool) : G Z :=
  s <- stm_get ;;
  let m := nd_net s in
  match bt_mesh_subnet_get m net_idx with
  | None => mret STATUS_INVALID_NETKEY
  | Some i =>
      sub <- stm_of_option (subs m !! i) ;;
      let slot := app_key_slot m app_idx in
      key <- stm_of_option (match slot with None => Some None | Some j => Some <$> app_keys m !! j end) ;;
      if update then
        match slot, key with
        | Some j, Some key =>
            if negb (app_net_idx key =? net_idx) then mret STATUS_INVALID_BINDING
            else if negb (sub_kr_phase sub =? BT_MESH_KR_PHASE_1) then mret STATUS_CANNOT_UPDATE
            else if app_updated key then
              mret (if decide ((app_key1 key).2 = val) then STATUS_SUCCESS else STATUS_CANNOT_UPDATE)
            else
              mod_net (set_app_key j (fun k => k <| app_updated := true |>)) ;;
              app_key_store j net_idx app_idx val true
        | _, _ => mret STATUS_INVALID_APPKEY
        end
      else
        match key with
        | Some key =>
            mret (if (app_net_idx key =? net_idx) && bool_decide ((app_key0 key).2 = val) then STATUS_SUCCESS
                  else if app_net_idx key =? net_idx then STATUS_IDX_ALREADY_STORED
                  else STATUS_INVALID_NETKEY)
        | None =>
            match app_key_alloc m with
            | None => mret STATUS_INSUFF_RESOURCES
            | Some j => app_key_store j net_idx app_idx val false
            end
        end
  end.

(** *** The set-up of the models *)

(** The loops over the models of element [i]: each is looked up again by its
    identifiers. *)
Fixpoint for_models (i : nat) (vnd : bool) (js : list nat) (body : model_ref -> G unit) : G unit :=
  match js with
  | [] => mret tt
  | j :: js =>
      s <- stm_get ;;
      e <- stm_of_option (ac_elems (nd_acc s) !! i) ;;
      m <- stm_of_option (models_of e vnd !! j) ;;
      k <- stm_of_option (if vnd then bt_mesh_model_find_vnd e (md_company m) (md_id m) else bt_mesh_model_find e (md_id m)) ;;
      body (mk_model_ref i vnd k) ;;
      for_models i vnd js body
  end.
Definition for_elem_models (i : nat) (body : model_ref -> G unit) : G unit :=
  s <- stm_get ;;
  e <- stm_of_option (ac_elems (nd_acc s) !! i) ;;
  for_models i false (seq 0 (length (el_models e))) body ;;
  for_models i true (seq 0 (length (el_vnd_models e))) body.

(** [memcpy(mod->groups, g_sub_list, sizeof(g_sub_list))]. *)
Definition copy_sub_list (r : model_ref) : G unit :=
  s <- stm_get ;; mod_model r (fun m => m <| md_groups := nd_sub_list s |>).

(** Elements [i .. i + n - 1] of [genie_mesh_setup]. *)
Fixpoint setup_elems (n i : nat) : G Z :=
  match n with
  | O => mret 0
  | S n =>
      s <- stm_get ;;
      match bt_mesh_elem_find (nd_acc s) (u16 (bt_mesh_primary_addr (nd_acc s) + Z.of_nat i)) with
      | None => mret (- 1)
      | Some e => for_elem_models e (fun r => mod_bind r 0 ;; copy_sub_list r) ;; setup_elems n (S i)
      end
  end.
Definition genie_mesh_setup : G Z :=
  s <- stm_get ;; setup_elems (bt_mesh_elem_count (nd_acc s)) 0.

(** genie_app/bluetooth/mesh/genie_mesh.c. *)
Definition genie_sub_list_init : G unit :=
  match c_flash_sub with
  | Some l => stm_modify (fun s => s <| nd_sub_list := l |>)
  | None =>
      stm_modify (fun s => s <| nd_sub_list := mesh_sub_init (nd_sub_list s) |>) ;;
      s <- stm_get ;; stm_emit [CWriteSub (nd_sub_list s)]
  end.

(** *** The handlers of application keys *)

Definition app_key_status (r : model_ref) (ctx : msg_ctx) (status net_idx app_idx : Z) : G unit :=
  reply r ctx (2 + 4 + 4)
    (bt_mesh_model_msg_init OP_APP_KEY_STATUS ++ u8 status :: key_idx_pack net_idx app_idx).

Definition app_key_add (r : model_ref) (ctx : msg_ctx) (buf : bytes) : G unit :=
  p <- key_idx_unpack buf ;;
  let '(net_idx, app_idx, buf) := p in
  p <- pull_mem 16 buf ;;
  status <- app_key_set net_idx app_idx p.1 false ;;
  app_key_status r ctx status net_idx app_idx ;;
  genie_sub_list_init ;;
  genie_mesh_setup ;;
  genie (GENIE_EVT_SDK_APPKEY_ADD status).

Definition genie_appkey_register (net_idx app_idx : Z) (val : bytes) (update : bool) : G unit :=
  app_key_set net_idx app_idx val update ;; genie_sub_list_init ;; genie_mesh_setup ;; mret tt.

Definition app_key_update (r : model_ref) (ctx : msg_ctx) (buf : bytes) : G unit :=
  p <- key_idx_unpack buf ;;
  let '(net_idx, app_idx, buf) := p in
  p <- pull_mem 16 buf ;;
  status <- app_key_set net_idx app_idx p.1 true ;;
  app_key_status r ctx status net_idx app_idx ;;
  genie (GENIE_EVT_SDK_APPKEY_UPDATE status).

Definition zero_app_key : Z * bytes := (0, replicate 16 0).
Definition _app_key_del (j : nat) : G unit :=
  s <- stm_get ;;
  key <- stm_of_option (app_keys (nd_net s) !! j) ;;
  model_foreach (fun r => mod_unbind r (app_app_idx key) ;; mret tt) ;;
  mod_net (set_app_key j (fun k => ((k <| app_net_idx := BT_MESH_KEY_UNUSED |>) <| app_key0 := zero_app_key |>)
    <| app_key1 := zero_app_key |>)).

Definition app_key_del (r : model_ref) (ctx : msg_ctx) (buf : bytes) : G unit :=
  p <- key_idx_unpack buf ;;
  let '(net_idx, app_idx, _) := p in
  s <- stm_get ;;
  status <-
    (match bt_mesh_subnet_get (nd_net s) net_idx with
     | None => mret STATUS_INVALID_NETKEY
     | Some _ =>
         match app_key_slot (nd_net s) app_idx with
         | None => mret STATUS_SUCCESS
         | Some j =>
             key <- stm_of_option (app_keys (nd_net s) !! j) ;;
             if negb (app_net_idx key =? net_idx) then mret STATUS_INVALID_BINDING
             else _app_key_del j ;; genie (GENIE_EVT_SDK_APPKEY_DEL STATUS_SUCCESS) ;; mret STATUS_SUCCESS
         end
     end) ;;
  app_key_status r ctx status net_idx app_idx.

(** The keys of a subnet, in the order of the table. *)
Definition app_idxs (m : mesh_net) (net_idx : Z) : list Z :=
  map app_app_idx (List.filter (fun k => app_net_idx k =? net_idx) (app_keys m)).

Definition app_key_get (r : model_ref) (ctx : msg_ctx) (buf : bytes) : G unit :=
  p <- pull_le16 buf ;;
  let get_idx := p.1 in
  if 0xfff <? get_idx then mret tt
  else
    s <- stm_get ;;
    let head := bt_mesh_model_msg_init OP_APP_KEY_LIST in
    reply r ctx (2 + 3 + 4 + IDX_LEN APP_KEY_COUNT)
      (match bt_mesh_subnet_get (nd_net s) get_idx with
       | None => head ++ u8 STATUS_INVALID_NETKEY :: sys_put_le16 get_idx
       | Some _ => head ++ u8 STATUS_SUCCESS :: sys_put_le16 get_idx ++
                   idx_list_pack BT_MESH_KEY_UNUSED (app_idxs (nd_net s) get_idx)
       end).

(** ** Publication *)

Definition send_mod_pub_status (r : model_ref) (ctx : msg_ctx) (elem_addr addr : Z) (vnd : bool)
    (mod_ : option model_ref) (status : Z) (mod_id : bytes) : G unit :=
  state <-
    (if negb (status =? STATUS_SUCCESS) then mret (replicate 7 0)
     else
       r' <- stm_of_option mod_ ;;
       m <- node_model r' ;;
       p <- stm_of_option (md_pub m) ;;
       let idx_cred := Z.lor (pub_key p) (Z.shiftl (if pub_cred p then 1 else 0) 12) in
       mret (sys_put_le16 addr ++ sys_put_le16 idx_cred ++ [u8 (pub_ttl p); u8 (pub_period p); u8 (pub_retransmit p)])) ;;
  id <- mod_id_of vnd mod_id ;;
  reply r ctx (2 + 14 + 4)
    (bt_mesh_model_msg_init OP_MOD_PUB_STATUS ++ u8 status :: sys_put_le16 elem_addr ++ state ++ id).

Definition mod_pub_get (r : model_ref) (ctx : msg_ctx) (buf : bytes) : G unit :=
  p <- pull_le16 buf ;;
  let '(elem_addr, buf) := p in
  p <- find_model elem_addr buf ;;
  let '(vnd, mod_) := p in
  match mod_ with
  | inl status => send_mod_pub_status r ctx elem_addr 0 vnd None status buf
  | inr r' =>
      m <- node_model r' ;;
      match md_pub m with
      | None => send_mod_pub_status r ctx elem_addr 0 vnd (Some r') STATUS_NVAL_PUB_PARAM buf
      | Some p => send_mod_pub_status r ctx elem_addr (Access.pub_addr p) vnd (Some r') STATUS_SUCCESS buf
      end
  end.

Definition ttl_valid (ttl : Z) : bool := negb ((BT_MESH_TTL_MAX <? ttl) && negb (ttl =? BT_MESH_TTL_DEFAULT)).
(** The application key index and the credential flag of a publication. *)
Definition idx_of (idx_cred : Z) : Z := Z.land idx_cred 0xfff.
Definition cred_of (idx_cred : Z) : bool := Z.testbit idx_cred 12.

Definition mod_pub_set (r : model_ref) (ctx : msg_ctx) (buf : bytes) : G unit :=
  p <- pull_le16 buf ;; let '(elem_addr, buf) := p in
  p <- pull_le16 buf ;; let '(addr, buf) := p in
  p <- pull_le16 buf ;; let '(idx_cred, buf) := p in
  p <- pull_u8 buf ;; let '(ttl, buf) := p in
  if negb (ttl_valid ttl) then mret tt
  else
    p <- pull_u8 buf ;; let '(period, buf) := p in
    p <- pull_u8 buf ;; let '(retransmit, buf) := p in
    p <- find_model elem_addr buf ;;
    let '(vnd, mod_) := p in
    match mod_ with
    | inl status => send_mod_pub_status r ctx elem_addr addr vnd None status buf
    | inr r' =>
        status <- _mod_pub_set r' addr (idx_of idx_cred) (cred_of idx_cred) ttl period retransmit ;;
        send_mod_pub_status r ctx elem_addr addr vnd (Some r') status buf
    end.

(** ** Virtual addresses *)

(** The loop of [va_find] with the slot that was free last. *)
Fixpoint va_find_from (i : nat) (labels : list label) (uuid : bytes) (free : option nat) : Z * option nat :=
  match labels with
  | [] => (BT_MESH_ADDR_UNASSIGNED, free)
  | l :: labels =>
      if negb (BT_MESH_ADDR_IS_VIRTUAL (lb_addr l)) then va_find_from (S i) labels uuid (Some i)
      else if decide (lb_uuid l = uuid) then (lb_addr l, free)
      else va_find_from (S i) labels uuid free
  end.
Definition va_find (s : node) (uuid : bytes) : Z * option nat := va_find_from 0 (nd_labels s) uuid None.

(** The status and the address. *)
Definition va_add (uuid : bytes) : G (Z * Z) :=
  s <- stm_get ;;
  let '(addr, free_slot) := va_find s uuid in
  if negb (addr =? BT_MESH_ADDR_UNASSIGNED) then mret (STATUS_SUCCESS, addr)
  else
    match free_slot with
    | None => mret (STATUS_INSUFF_RESOURCES, addr)
    | Some i =>
        match bt_mesh_virtual_addr uuid with
        | Undef => stm_undef
        | Err _ => mret (STATUS_UNSPECIFIED, addr)
        | Ok addr =>
            stm_modify (fun s => s <| nd_labels := <[i := mk_label addr uuid]> (nd_labels s) |>) ;;
            mret (STATUS_SUCCESS, addr)
        end
    end.

Definition mod_pub_va_set (r : model_ref) (ctx : msg_ctx) (buf : bytes) : G unit :=
  p <- pull_le16 buf ;; let '(elem_addr, buf) := p in
  p <- pull_mem 16 buf ;; let '(uuid, buf) := p in
  p <- pull_le16 buf ;; let '(idx_cred, buf) := p in
  p <- pull_u8 buf ;; let '(ttl, buf) := p in
  if negb (ttl_valid ttl) then mret tt
  else
    p <- pull_u8 buf ;; let '(period, buf) := p in
    p <- pull_u8 buf ;; let '(retransmit, buf) := p in
    p <- find_model elem_addr buf ;;
    let '(vnd, mod_) := p in
    match mod_ with
    | inl status => send_mod_pub_status r ctx elem_addr 0 vnd None status buf
    | inr r' =>
        p <- va_add uuid ;;
        let '(status, addr) := p in
        status <-
          (if status =? STATUS_SUCCESS
           then _mod_pub_set r' addr (idx_of idx_cred) (cred_of idx_cred) ttl period retransmit
           else mret status) ;;
        send_mod_pub_status r ctx elem_addr addr vnd (Some r') status buf
    end.

(** ** Subscription *)

Definition send_mod_sub_status (r : model_ref) (ctx : msg_ctx) (status elem_addr sub_addr : Z) (mod_id : bytes)
    (vnd : bool) : G unit :=
  id <- mod_id_of vnd mod_id ;;
  reply r ctx (2 + 9 + 4)
    (bt_mesh_model_msg_init OP_MOD_SUB_STATUS ++ u8 status :: sys_put_le16 elem_addr ++ sys_put_le16 sub_addr ++ id).

Definition set_groups (r : model_ref) (f : list Z -> list Z) : G unit :=
  mod_model r (fun m => m <| md_groups := f (md_groups m) |>).
(** [memset(mod->groups, 0, sizeof(mod->groups))]. *)
Definition clear_groups (r : model_ref) : G unit := set_groups r (map (fun _ => BT_MESH_ADDR_UNASSIGNED)).
Definition lpn_group_add (addr : Z) : G unit := if CONFIG_LOW_POWER then stm_emit [CLpnGroupAdd addr] else mret tt.
Definition lpn_group_del (groups : list Z) : G unit := if CONFIG_LOW_POWER then stm_emit [CLpnGroupDel groups] else mret tt.
Definition _elem_sub_bind (i : nat) : G unit := for_elem_models i copy_sub_list.

(** The first unassigned entry of the model's groups becomes [addr]. *)
Definition group_insert (r : model_ref) (addr : Z) : G bool :=
  m <- node_model r ;;
  match find_index (fun g => g =? BT_MESH_ADDR_UNASSIGNED) (md_groups m) with
  | Some i => set_groups r (fun l => <[i := addr]> l) ;; mret true
  | None => mret false
  end.

(** The same in [g_sub_list], which is then copied to the models of the element. *)
Definition sub_list_insert (r : model_ref) (addr : Z) : G bool :=
  s <- stm_get ;;
  m <- node_model r ;;
  match find_index (fun g => g =? BT_MESH_ADDR_UNASSIGNED) (take (length (md_groups m)) (nd_sub_list s)) with
  | Some i =>
      stm_modify (fun s => s <| nd_sub_list := <[i := addr]> (nd_sub_list s) |>) ;;
      _elem_sub_bind (mr_elem r) ;; mret true
  | None => mret false
  end.
Definition sub_list_remove (r : model_ref) (addr : Z) : G unit :=
  s <- stm_get ;;
  m <- node_model r ;;
  match find_index (fun g => g =? addr) (take (length (md_groups m)) (nd_sub_list s)) with
  | Some i =>
      stm_modify (fun s => s <| nd_sub_list := <[i := BT_MESH_ADDR_UNASSIGNED]> (nd_sub_list s) |>) ;;
      _elem_sub_bind (mr_elem r)
  | None => mret tt
  end.
Definition group_remove (r : model_ref) (addr : Z) : G bool :=
  m <- node_model r ;;
  match bt_mesh_model_find_group m addr with
  | Some i => set_groups r (fun l => <[i := BT_MESH_ADDR_UNASSIGNED]> l) ;; mret true
  | None => mret false
  end.

(** The body of [mod_sub_add] for a model that exists. *)
Definition sub_add (r : model_ref) (addr : Z) : G Z :=
  m <- node_model r ;;
  if negb (BT_MESH_ADDR_IS_GROUP addr) then mret STATUS_INVALID_ADDRESS
  else if bool_decide (is_Some (bt_mesh_model_find_group m addr)) then mret STATUS_SUCCESS
  else
    added <- (if CONFIG_ALI_SIMPLE_MODLE then sub_list_insert r addr else group_insert r addr) ;;
    if negb added then mret STATUS_INSUFF_RESOURCES
    else lpn_group_add addr ;; mret STATUS_SUCCESS.

Definition mod_sub_add (r : model_ref) (ctx : msg_ctx) (buf : bytes) : G unit :=
  p <- pull_le16 buf ;; let '(elem_addr, buf) := p in
  p <- pull_le16 buf ;; let '(addr, buf) := p in
  p <- find_model elem_addr buf ;;
  let '(vnd, mod_) := p in
  status <- match mod_ with inl status => mret status | inr r' => sub_add r' addr end ;;
  send_mod_sub_status r ctx status elem_addr addr buf vnd ;;
  if status =? STATUS_SUCCESS then genie GENIE_EVT_SDK_SUB_ADD else mret tt.

Definition sub_del (r : model_ref) (addr : Z) : G Z :=
  if negb (BT_MESH_ADDR_IS_GROUP addr) then mret STATUS_INVALID_ADDRESS
  else
    lpn_group_del [addr] ;;
    (if CONFIG_ALI_SIMPLE_MODLE then sub_list_remove r addr else group_remove r addr ;; mret tt) ;;
    mret STATUS_SUCCESS.

Definition mod_sub_del (r : model_ref) (ctx : msg_ctx) (buf : bytes) : G unit :=
  p <- pull_le16 buf ;; let '(elem_addr, buf) := p in
  p <- pull_le16 buf ;; let '(addr, buf) := p in
  p <- find_model elem_addr buf ;;
  let '(vnd, mod_) := p in
  status <- match mod_ with inl status => mret status | inr r' => sub_del r' addr end ;;
  send_mod_sub_status r ctx status elem_addr addr buf vnd ;;
  if status =? STATUS_SUCCESS then genie GENIE_EVT_SDK_SUB_DEL else mret tt.

(** The model leaves all its groups. *)
Definition sub_clear (r : model_ref) : G unit :=
  m <- node_model r ;; lpn_group_del (md_groups m) ;; clear_groups r.

Definition sub_overwrite (r : model_ref) (addr : Z) : G Z :=
  if negb (BT_MESH_ADDR_IS_GROUP addr) then mret STATUS_INVALID_ADDRESS
  else
    sub_clear r ;;
    m <- node_model r ;;
    if decide (length (md_groups m) = 0%nat) then mret STATUS_INSUFF_RESOURCES
    else set_groups r (fun l => <[0%nat := addr]> l) ;; lpn_group_add addr ;; mret STATUS_SUCCESS.

Definition mod_sub_overwrite (r : model_ref) (ctx : msg_ctx) (buf : bytes) : G unit :=
  p <- pull_le16 buf ;; let '(elem_addr, buf) := p in
  p <- pull_le16 buf ;; let '(addr, buf) := p in
  p <- find_model elem_addr buf ;;
  let '(vnd, mod_) := p in
  status <- match mod_ with inl status => mret status | inr r' => sub_overwrite r' addr end ;;
  send_mod_sub_status r ctx status elem_addr addr buf vnd.

Definition mod_sub_del_all (r : model_ref) (ctx : msg_ctx) (buf : bytes) : G unit :=
  p <- pull_le16 buf ;; let '(elem_addr, buf) := p in
  p <- find_model elem_addr buf ;;
  let '(vnd, mod_) := p in
  status <- match mod_ with inl status => mret status | inr r' => sub_clear r' ;; mret STATUS_SUCCESS end ;;
  send_mod_sub_status r ctx status elem_addr BT_MESH_ADDR_UNASSIGNED buf vnd.

Definition group_list (m : model) : bytes :=
  concat (map sys_put_le16 (List.filter (fun g => negb (g =? BT_MESH_ADDR_UNASSIGNED)) (md_groups m))).

(** The list of [mod_sub_get] and [mod_sub_get_vnd]; [ids] repeats the
    identifiers of the request. *)
Definition send_sub_list (r : model_ref) (ctx : msg_ctx) (cap : nat) (op addr : Z) (ids : bytes) (vnd : bool)
    (find : elem -> option nat) : G unit :=
  s <- stm_get ;;
  p <-
    (match bt_mesh_elem_find (nd_acc s) addr with
     | None => mret (STATUS_INVALID_ADDRESS, [])
     | Some i =>
         e <- stm_of_option (ac_elems (nd_acc s) !! i) ;;
         match find e with
         | None => mret (STATUS_INVALID_MODEL, [])
         | Some j => m <- node_model (mk_model_ref i vnd j) ;; mret (STATUS_SUCCESS, group_list m)
         end
     end) ;;
  reply r ctx cap (bt_mesh_model_msg_init op ++ u8 p.1 :: sys_put_le16 addr ++ ids ++ p.2).

Definition mod_sub_get (r : model_ref) (ctx : msg_ctx) (buf : bytes) : G unit :=
  p <- pull_le16 buf ;; let '(addr, buf) := p in
  p <- pull_le16 buf ;; let '(id, _) := p in
  send_sub_list r ctx (2 + 5 + 4 + MODEL_GROUP_COUNT * 2) OP_MOD_SUB_LIST addr (sys_put_le16 id) false
    (fun e => bt_mesh_model_find e id).

Definition mod_sub_get_vnd (r : model_ref) (ctx : msg_ctx) (buf : bytes) : G unit :=
  p <- pull_le16 buf ;; let '(addr, buf) := p in
  p <- pull_le16 buf ;; let '(company, buf) := p in
  p <- pull_le16 buf ;; let '(id, _) := p in
  send_sub_list r ctx (2 + 7 + 4 + MODEL_GROUP_COUNT * 2) OP_MOD_SUB_LIST_VND addr
    (sys_put_le16 company ++ sys_put_le16 id) true (fun e => bt_mesh_model_find_vnd e company id).

(** *** Virtual addresses *)

(** The body of [mod_sub_va_add]: the status and the address. *)
Definition sub_va_add (r : model_ref) (uuid : bytes) : G (Z * Z) :=
  p <- va_add uuid ;;
  let '(status, addr) := p in
  if negb (status =? STATUS_SUCCESS) then mret (status, addr)
  else
    m <- node_model r ;;
    if bool_decide (is_Some (bt_mesh_model_find_group m addr)) then mret (STATUS_SUCCESS, addr)
    else
      added <- group_insert r addr ;;
      if negb added then mret (STATUS_INSUFF_RESOURCES, addr)
      else lpn_group_add addr ;; mret (STATUS_SUCCESS, addr).

Definition sub_va_del (r : model_ref) (uuid : bytes) : G (Z * Z) :=
  s <- stm_get ;;
  let addr := (va_find s uuid).1 in
  if addr =? BT_MESH_ADDR_UNASSIGNED then mret (STATUS_CANNOT_REMOVE, addr)
  else
    removed <- group_remove r addr ;;
    mret (if removed : bool then STATUS_SUCCESS else STATUS_CANNOT_REMOVE, addr).

Definition sub_va_overwrite (r : model_ref) (uuid : bytes) : G (Z * Z) :=
  sub_clear r ;;
  m <- node_model r ;;
  if decide (length (md_groups m) = 0%nat) then mret (STATUS_INSUFF_RESOURCES, BT_MESH_ADDR_UNASSIGNED)
  else
    p <- va_add uuid ;;
    let '(status, addr) := p in
    (if status =? STATUS_SUCCESS then set_groups r (fun l => <[0%nat := addr]> l) ;; lpn_group_add addr else mret tt) ;;
    mret (status, addr).

(** The three handlers share their start and their answer. *)
Definition mod_sub_va (body : model_ref -> bytes -> G (Z * Z)) (r : model_ref) (ctx : msg_ctx) (buf : bytes) : G unit :=
  p <- pull_le16 buf ;; let '(elem_addr, buf) := p in
  p <- pull_mem 16 buf ;; let '(uuid, buf) := p in
  p <- find_model elem_addr buf ;;
  let '(vnd, mod_) := p in
  p <- match mod_ with inl status => mret (status, BT_MESH_ADDR_UNASSIGNED) | inr r' => body r' uuid end ;;
  send_mod_sub_status r ctx p.1 elem_addr p.2 buf vnd.
Definition mod_sub_va_add : model_ref -> msg_ctx -> bytes -> G unit := mod_sub_va sub_va_add.
Definition mod_sub_va_del : model_ref -> msg_ctx -> bytes -> G unit := mod_sub_va sub_va_del.
Definition mod_sub_va_overwrite : model_ref -> msg_ctx -> bytes -> G unit := mod_sub_va sub_va_overwrite.

(** ** Binding by message *)

Definition mod_app_status (r : model_ref) (ctx : msg_ctx) (vnd : bool) (elem_addr app_idx status : Z)
    (mod_id : bytes) : G unit :=
  id <- mod_id_of vnd mod_id ;;
  reply r ctx (2 + 9 + 4)
    (bt_mesh_model_msg_init OP_MOD_APP_STATUS ++ u8 status :: sys_put_le16 elem_addr ++ sys_put_le16 app_idx ++ id).

Definition mod_app_bind (r : model_ref) (ctx : msg_ctx) (buf : bytes) : G unit :=
  p <- pull_le16 buf ;; let '(elem_addr, buf) := p in
  p <- pull_le16 buf ;; let '(app_idx, buf) := p in
  p <- find_model elem_addr buf ;;
  let '(vnd, mod_) := p in
  status <-
    (match mod_ with
     | inl status => mret status
     | inr r' => if decide (r = r') then mret STATUS_CANNOT_BIND else mod_bind r' app_idx
     end) ;;
  mod_app_status r ctx vnd elem_addr app_idx status buf.

Definition mod_app_unbind (r : model_ref) (ctx : msg_ctx) (buf : bytes) : G unit :=
  p <- pull_le16 buf ;; let '(elem_addr, buf) := p in
  p <- pull_le16 buf ;; let '(app_idx, buf) := p in
  p <- find_model elem_addr buf ;;
  let '(vnd, mod_) := p in
  status <- match mod_ with inl status => mret status | inr r' => mod_unbind r' app_idx end ;;
  mod_app_status r ctx vnd elem_addr app_idx status buf.

Definition bound_list (m : model) : bytes :=
  concat (map sys_put_le16 (List.filter (fun k => negb (k =? BT_MESH_KEY_UNUSED)) (md_keys m))).
Definition KEY_LIST_LEN : nat := MODEL_KEY_COUNT * 2.

Definition mod_app_get (r : model_ref) (ctx : msg_ctx) (buf : bytes) : G unit :=
  p <- pull_le16 buf ;; let '(elem_addr, buf) := p in
  p <- find_model elem_addr buf ;;
  let '(vnd, mod_) := p in
  id <- mod_id_of vnd buf ;;
  keys <- match mod_ with inl _ => mret [] | inr r' => m <- node_model r' ;; mret (bound_list m) end ;;
  let status := match mod_ with inl status => status | inr _ => STATUS_SUCCESS end in
  reply r ctx (2 + 9 + KEY_LIST_LEN + 4)
    (bt_mesh_model_msg_init (if vnd then OP_VND_MOD_APP_LIST else OP_SIG_MOD_APP_LIST) ++
     u8 status :: sys_put_le16 elem_addr ++ id ++ keys).
End models.
