(* ===== verification/CfgSrv.v ===== *)
(** * The Configuration Server (bt_mesh/src/cfg_srv.c)

    The other handlers of the server: its own states, network keys and key
    refresh, node identity, heartbeats and reset; and the table of its
    operations. *)

From S2P Require Import Prelude NetBuf Cmac Ccm MeshCrypto NetState NetIv TransState TransTx Access Beacon Proxy CfgState CfgModels.

(** ** Opcodes (inc/foundation.h) *)

Definition OP_DEV_COMP_DATA_STATUS : Z := 0x02.
Definition OP_HEARTBEAT_PUB_STATUS : Z := 0x06.
Definition OP_DEV_COMP_DATA_GET : Z := 0x8008.
Definition OP_BEACON_GET : Z := 0x8009.
Definition OP_BEACON_SET : Z := 0x800a.
Definition OP_BEACON_STATUS : Z := 0x800b.
Definition OP_DEFAULT_TTL_GET : Z := 0x800c.
Definition OP_DEFAULT_TTL_SET : Z := 0x800d.
Definition OP_DEFAULT_TTL_STATUS : Z := 0x800e.
Definition OP_FRIEND_GET : Z := 0x800f.
Definition OP_FRIEND_SET : Z := 0x8010.
Definition OP_FRIEND_STATUS : Z := 0x8011.
Definition OP_GATT_PROXY_GET : Z := 0x8012.
Definition OP_GATT_PROXY_SET : Z := 0x8013.
Definition OP_GATT_PROXY_STATUS : Z := 0x8014.
Definition OP_KRP_GET : Z := 0x8015.
Definition OP_KRP_SET : Z := 0x8016.
Definition OP_KRP_STATUS : Z := 0x8017.
Definition OP_NET_TRANSMIT_GET : Z := 0x8023.
Definition OP_NET_TRANSMIT_SET : Z := 0x8024.
Definition OP_NET_TRANSMIT_STATUS : Z := 0x8025.
Definition OP_RELAY_GET : Z := 0x8026.
Definition OP_RELAY_SET : Z := 0x8027.
Definition OP_RELAY_STATUS : Z := 0x8028.
Definition OP_LPN_TIMEOUT_GET : Z := 0x802d.
Definition OP_LPN_TIMEOUT_STATUS : Z := 0x802e.
Definition OP_HEARTBEAT_PUB_GET : Z := 0x8038.
Definition OP_HEARTBEAT_PUB_SET : Z := 0x8039.
Definition OP_HEARTBEAT_SUB_GET : Z := 0x803a.
Definition OP_HEARTBEAT_SUB_SET : Z := 0x803b.
Definition OP_HEARTBEAT_SUB_STATUS : Z := 0x803c.
Definition OP_NET_KEY_ADD : Z := 0x8040.
Definition OP_NET_KEY_DEL : Z := 0x8041.
Definition OP_NET_KEY_GET : Z := 0x8042.
Definition OP_NET_KEY_LIST : Z := 0x8043.
Definition OP_NET_KEY_STATUS : Z := 0x8044.
Definition OP_NET_KEY_UPDATE : Z := 0x8045.
Definition OP_NODE_IDENTITY_GET : Z := 0x8046.
Definition OP_NODE_IDENTITY_SET : Z := 0x8047.
Definition OP_NODE_IDENTITY_STATUS : Z := 0x8048.
Definition OP_NODE_RESET : Z := 0x8049.
Definition OP_NODE_RESET_STATUS : Z := 0x804a.
Definition E2BIG : Z := 7.

(** The static initialiser of [cfg_srv]. *)
Definition cfg_srv_init_state {cfg : MeshConfig} : cfg_srv :=
  mk_cfg_srv None (BT_MESH_TRANSMIT 5 20) BT_MESH_RELAY_ENABLED (BT_MESH_TRANSMIT 5 20) BT_MESH_BEACON_ENABLED
    (if CONFIG_GATT_PROXY then BT_MESH_GATT_PROXY_ENABLED else BT_MESH_GATT_PROXY_NOT_SUPPORTED)
    (if CONFIG_FRIEND then BT_MESH_FRIEND_ENABLED else BT_MESH_FRIEND_NOT_SUPPORTED)
    7 (mk_hb_pub None 0 0 0 0 0 0) (mk_hb_sub 0 0 0 0 0 0 false).

(** ** Logarithmic values of heartbeats *)

Definition hb_log (val : Z) : Z :=
  if val =? 0 then 0x00 else if val =? 0xffff then 0xff else Z.log2 val + 1.
Definition hb_pub_count_log (val : Z) : Z :=
  if val =? 0 then 0x00 else if val =? 1 then 0x01 else if val =? 0xffff then 0xff
  else Z.log2 (val - 1) + 1 + 1.
Definition hb_pwr2 (val sub : Z) : Z :=
  if val =? 0 then 0x0000 else if (val =? 0xff) || (val =? 0x11) then 0xffff
  else u16 (Z.shiftl 1 (val - sub)).

Section cfg_srv.
Context {cfg : MeshConfig} {env : CfgEnv}.

(** ** Heartbeats *)

Definition hb_send (r : model_ref) : G unit :=
  s <- stm_get ;;
  e <- stm_of_option (ac_elems (nd_acc s) !! mr_elem r) ;;
  let p := cs_hb_pub (nd_srv s) in
  sub <- stm_of_option (bt_mesh_subnet_get (nd_net s) (hp_net_idx p)) ;;
  let feat := 0 in
  let feat := if bt_mesh_relay_get s =? BT_MESH_RELAY_ENABLED then Z.lor feat BT_MESH_FEAT_RELAY else feat in
  let feat := if bt_mesh_gatt_proxy_get s =? BT_MESH_GATT_PROXY_ENABLED then Z.lor feat BT_MESH_FEAT_PROXY else feat in
  let feat := if bt_mesh_friend_get s =? BT_MESH_FRIEND_ENABLED then Z.lor feat BT_MESH_FEAT_FRIEND else feat in
  let feat := if CONFIG_LOW_POWER && c_lpn_established then Z.lor feat BT_MESH_FEAT_LOW_POWER else feat in
  let ctx := mk_ctx (hp_net_idx p) BT_MESH_KEY_UNUSED (hp_dst p) 0 (hp_ttl p) false in
  stm_emit [CHeartbeat (mk_tx sub ctx (el_addr e) (bt_mesh_net_transmit_get s) false 0 0)
    (u8 (hp_ttl p) :: sys_put_be16 feat)].

(** A heartbeat when a feature it reports has changed. *)
Definition hb_feature (r : model_ref) (feat : Z) (change : bool) : G unit :=
  s <- stm_get ;;
  let p := cs_hb_pub (nd_srv s) in
  if negb (Z.land (hp_feat p) feat =? 0) && bool_decide (is_Some (bt_mesh_subnet_get (nd_net s) (hp_net_idx p))) && change
  then hb_send r else mret tt.

(** ** Composition data *)

Definition elem_data (i : nat) (e : elem) : bytes :=
  sys_put_le16 (elem_loc i) ++ [u8 (Z.of_nat (length (el_models e))); u8 (Z.of_nat (length (el_vnd_models e)))] ++
  concat (map (fun m => sys_put_le16 (md_id m)) (el_models e)) ++
  concat (map (fun m => sys_put_le16 (md_company m) ++ sys_put_le16 (md_id m)) (el_vnd_models e)).

(** [comp_add_elem] in a buffer of [BT_MESH_TX_SDU_MAX] bytes. *)
Definition comp_add_elem (buf : bytes) (i : nat) (e : elem) : res bytes :=
  if decide (BT_MESH_TX_SDU_MAX - length buf < 4 + length (el_models e) * 2 + length (el_vnd_models e) * 2)%nat
  then Err (- E2BIG)
  else let buf := buf ++ elem_data i e in
       if decide (BT_MESH_TX_SDU_MAX < length buf)%nat then Undef else Ok buf.
Fixpoint comp_add_elems (buf : bytes) (i : nat) (es : list elem) : res bytes :=
  match es with
  | [] => Ok buf
  | e :: es => buf ← comp_add_elem buf i e; comp_add_elems buf (S i) es
  end.

Definition comp_features : Z :=
  let feat := if CONFIG_RELAY then BT_MESH_FEAT_RELAY else 0 in
  let feat := if CONFIG_GATT_PROXY then Z.lor feat BT_MESH_FEAT_PROXY else feat in
  let feat := if CONFIG_FRIEND then Z.lor feat BT_MESH_FEAT_FRIEND else feat in
  if CONFIG_LOW_POWER then Z.lor feat BT_MESH_FEAT_LOW_POWER else feat.
Definition comp_get_page_0 (buf : bytes) (es : list elem) : res bytes :=
  comp_add_elems (buf ++ sys_put_le16 comp_cid ++ sys_put_le16 comp_pid ++ sys_put_le16 comp_vid ++
    sys_put_le16 (Z.of_nat CRPL) ++ sys_put_le16 comp_features) 0 es.

Definition dev_comp_data_get (r : model_ref) (ctx : msg_ctx) (buf : bytes) : G unit :=
  p <- pull_u8 buf ;;
  s <- stm_get ;;
  match comp_get_page_0 (bt_mesh_model_msg_init OP_DEV_COMP_DATA_STATUS ++ [0]) (ac_elems (nd_acc s)) with
  | Undef => stm_undef
  | Err _ => mret tt
  | Ok sdu => reply r ctx BT_MESH_TX_SDU_MAX sdu
  end.

(** ** The server's own states *)

(** An answer that is an opcode and a state read from the node. *)
Definition send_state (r : model_ref) (ctx : msg_ctx) (cap : nat) (op : Z) (state : node -> bytes) : G unit :=
  s <- stm_get ;; reply r ctx cap (bt_mesh_model_msg_init op ++ state s).

Definition send_beacon r ctx := send_state r ctx (2 + 1 + 4) OP_BEACON_STATUS (fun s => [u8 (bt_mesh_beacon_get s)]).
Definition beacon_get (r : model_ref) (ctx : msg_ctx) (buf : bytes) : G unit := send_beacon r ctx.
Definition beacon_set (r : model_ref) (ctx : msg_ctx) (buf : bytes) : G unit :=
  p <- pull_u8 buf ;;
  let v := p.1 in
  if (v =? 0) || (v =? 1) then
    s <- stm_get ;;
    (if negb (v =? cs_beacon (nd_srv s)) then
       mod_srv (fun c => c <| cs_beacon := v |>) ;;
       stm_emit [if negb (v =? 0) then CBeaconEnable else CBeaconDisable]
     else mret tt) ;;
    send_beacon r ctx
  else mret tt.

Definition send_default_ttl r ctx :=
  send_state r ctx (2 + 1 + 4) OP_DEFAULT_TTL_STATUS (fun s => [u8 (bt_mesh_default_ttl_get s)]).
Definition default_ttl_get (r : model_ref) (ctx : msg_ctx) (buf : bytes) : G unit := send_default_ttl r ctx.
Definition default_ttl_set (r : model_ref) (ctx : msg_ctx) (buf : bytes) : G unit :=
  p <- pull_u8 buf ;;
  if (p.1 <=? BT_MESH_TTL_MAX) && negb (p.1 =? 1) then
    mod_srv (fun c => c <| cs_default_ttl := p.1 |>) ;; send_default_ttl r ctx
  else mret tt.

Definition send_gatt_proxy_status (r : model_ref) (ctx : msg_ctx) : G unit :=
  send_state r ctx (2 + 1 + 4) OP_GATT_PROXY_STATUS (fun s => [u8 (bt_mesh_gatt_proxy_get s)]).
Definition gatt_proxy_get (r : model_ref) (ctx : msg_ctx) (buf : bytes) : G unit := send_gatt_proxy_status r ctx.
(** Every subnet in use stops its node identity. *)
Definition stop_identities (m : mesh_net) : mesh_net :=
  m <| subs := map (fun s => if negb (sub_net_idx s =? BT_MESH_KEY_UNUSED) then identity_stop s else s) (subs m) |>.
Definition gatt_proxy_set (r : model_ref) (ctx : msg_ctx) (buf : bytes) : G unit :=
  p <- pull_u8 buf ;;
  let v := p.1 in
  if negb (v =? 0) && negb (v =? 1) then mret tt
  else
    s <- stm_get ;;
    (if negb CONFIG_GATT_PROXY || (bt_mesh_gatt_proxy_get s =? BT_MESH_GATT_PROXY_NOT_SUPPORTED) ||
        (cs_gatt_proxy (nd_srv s) =? v) then mret tt
     else
       mod_srv (fun c => c <| cs_gatt_proxy := v |>) ;;
       (if v =? BT_MESH_GATT_PROXY_DISABLED then mod_net stop_identities ;; stm_emit [CGattDisconnect] else mret tt) ;;
       stm_emit [CAdvUpdate] ;;
       hb_feature r BT_MESH_FEAT_PROXY true) ;;
    send_gatt_proxy_status r ctx.

Definition send_net_transmit r ctx :=
  send_state r ctx (2 + 1 + 4) OP_NET_TRANSMIT_STATUS (fun s => [u8 (bt_mesh_net_transmit_get s)]).
Definition net_transmit_get (r : model_ref) (ctx : msg_ctx) (buf : bytes) : G unit := send_net_transmit r ctx.
Definition net_transmit_set (r : model_ref) (ctx : msg_ctx) (buf : bytes) : G unit :=
  p <- pull_u8 buf ;; mod_srv (fun c => c <| cs_net_transmit := p.1 |>) ;; send_net_transmit r ctx.

Definition send_relay r ctx :=
  send_state r ctx (2 + 2 + 4) OP_RELAY_STATUS (fun s => [u8 (bt_mesh_relay_get s); u8 (bt_mesh_relay_retransmit_get s)]).
Definition relay_get (r : model_ref) (ctx : msg_ctx) (buf : bytes) : G unit := send_relay r ctx.
Definition relay_set (r : model_ref) (ctx : msg_ctx) (buf : bytes) : G unit :=
  p <- pull_u8 buf ;; let '(v, buf) := p in
  if (v =? 0) || (v =? 1) then
    s <- stm_get ;;
    let old := cs_relay (nd_srv s) in
    change <-
      (if old =? BT_MESH_RELAY_NOT_SUPPORTED then mret false
       else
         p <- pull_u8 buf ;;
         mod_srv (fun c => (c <| cs_relay := v |>) <| cs_relay_retransmit := p.1 |>) ;;
         mret (negb (old =? v))) ;;
    hb_feature r BT_MESH_FEAT_RELAY change ;;
    send_relay r ctx
  else mret tt.

Definition send_friend_status (r : model_ref) (ctx : msg_ctx) : G unit :=
  send_state r ctx (2 + 1 + 4) OP_FRIEND_STATUS (fun s => [u8 (cs_frnd (nd_srv s))]).
Definition friend_get (r : model_ref) (ctx : msg_ctx) (buf : bytes) : G unit := send_friend_status r ctx.
Definition friend_set (r : model_ref) (ctx : msg_ctx) (buf : bytes) : G unit :=
  p <- pull_u8 buf ;;
  let v := p.1 in
  if negb (v =? 0) && negb (v =? 1) then mret tt
  else
    s <- stm_get ;;
    (if cs_frnd (nd_srv s) =? v then mret tt
     else
       (if CONFIG_FRIEND then
          mod_srv (fun c => c <| cs_frnd := v |>) ;;
          if v =? BT_MESH_FRIEND_DISABLED then stm_emit [CFriendClear BT_MESH_KEY_ANY] else mret tt
        else mret tt) ;;
       hb_feature r BT_MESH_FEAT_FRIEND true) ;;
    send_friend_status r ctx.

(** [CONFIG_BLUETOOTH_MESH_FRIEND], which this tests, is defined nowhere: the
    time is always 0. *)
Definition lpn_timeout_get (r : model_ref) (ctx : msg_ctx) (buf : bytes) : G unit :=
  p <- pull_le16 buf ;;
  if negb (BT_MESH_ADDR_IS_UNICAST p.1) then mret tt
  else reply r ctx (2 + 5 + 4) (bt_mesh_model_msg_init OP_LPN_TIMEOUT_STATUS ++ sys_put_le16 p.1 ++ [0; 0; 0]).

(** ** Network keys *)

Definition net_key_status (r : model_ref) (ctx : msg_ctx) (idx status : Z) : G unit :=
  reply r ctx (2 + 3 + 4) (bt_mesh_model_msg_init OP_NET_KEY_STATUS ++ u8 status :: sys_put_le16 idx).

Definition sub_of (m : mesh_net) (i : nat) : G subnet := stm_of_option (subs m !! i).
(** [bt_mesh_net_beacon_update(sub)]. *)
Definition beacon_update (i : nat) : G unit := mod_net (fun m => set_sub m i (bt_mesh_net_beacon_update m)).

(** The subnet of the index, or else one that is not in use. *)
Definition net_key_slot (m : mesh_net) (idx : Z) : option nat :=
  match bt_mesh_subnet_get m idx with
  | Some i => Some i
  | None => find_index (fun s => sub_net_idx s =? BT_MESH_KEY_UNUSED) (subs m)
  end.

Definition net_key_add (r : model_ref) (ctx : msg_ctx) (buf : bytes) : G unit :=
  p <- pull_le16 buf ;; let '(idx, buf) := p in
  if 0xfff <? idx then mret tt
  else
    s <- stm_get ;;
    match net_key_slot (nd_net s) idx with
    | None => net_key_status r ctx idx STATUS_INSUFF_RESOURCES
    | Some i =>
        sub <- sub_of (nd_net s) i ;;
        p <- pull_mem 16 buf ;;
        let key := p.1 in
        if sub_net_idx sub =? idx then
          let status := if decide (key = k_net (sub_key0 sub)) then STATUS_SUCCESS else STATUS_IDX_ALREADY_STORED in
          genie (GENIE_EVT_SDK_NETKEY_ADD status) ;;
          net_key_status r ctx idx status
        else
          match bt_mesh_net_keys_create (sub_key0 sub) key with
          | Undef => stm_undef
          | Err _ => net_key_status r ctx idx STATUS_UNSPECIFIED
          | Ok keys =>
              mod_net (fun m => set_sub m i (fun s => (s <| sub_key0 := keys |>) <| sub_net_idx := idx |>)) ;;
              beacon_update i ;;
              (if CONFIG_GATT_PROXY then
                 mod_net (fun m => set_sub m i (fun s => s <| sub_node_id := BT_MESH_NODE_IDENTITY_STOPPED |>)) ;;
                 stm_emit [CProxyBeacon i; CAdvUpdate]
               else
                 mod_net (fun m => set_sub m i (fun s => s <| sub_node_id := BT_MESH_NODE_IDENTITY_NOT_SUPPORTED |>))) ;;
              net_key_status r ctx idx STATUS_SUCCESS
          end
    end.

(** The end of [net_key_update]: the new keys, those of the friendships, and the
    first phase of the key refresh. The status is not sent. *)
Definition net_key_refresh (i : nat) (key : bytes) : G unit :=
  s <- stm_get ;;
  sub <- sub_of (nd_net s) i ;;
  match bt_mesh_net_keys_create (sub_key1 sub) key with
  | Undef => stm_undef
  | Err _ => mret tt
  | Ok keys =>
      mod_net (fun m => set_sub m i (fun s => s <| sub_key1 := keys |>)) ;;
      err <-
        (if CONFIG_LOW_POWER || CONFIG_FRIEND then
           let '(err, creds) := friend_cred_update c_lpn_frnd (bt_mesh_primary_addr (nd_acc s))
                                  (sub <| sub_key1 := keys |>) (friend_creds (nd_net s)) in
           mod_net (fun m => m <| friend_creds := creds |>) ;; mret err
         else mret 0) ;;
      if negb (err =? 0) then mret tt
      else
        mod_net (fun m => set_sub m i (fun s => s <| sub_kr_phase := BT_MESH_KR_PHASE_1 |>)) ;;
        genie (GENIE_EVT_SDK_NETKEY_UPDATE STATUS_SUCCESS) ;;
        beacon_update i
  end.

Definition net_key_update (r : model_ref) (ctx : msg_ctx) (buf : bytes) : G unit :=
  p <- pull_le16 buf ;; let '(idx, buf) := p in
  if 0xfff <? idx then mret tt
  else
    s <- stm_get ;;
    match bt_mesh_subnet_get (nd_net s) idx with
    | None => net_key_status r ctx idx STATUS_SUCCESS
    | Some i =>
        sub <- sub_of (nd_net s) i ;;
        p <- pull_mem 16 buf ;;
        let key := p.1 in
        if (sub_kr_phase sub =? BT_MESH_KR_NORMAL) && bool_decide (key = k_net (sub_key0 sub)) then mret tt
        else
          (if (sub_kr_phase sub =? BT_MESH_KR_NORMAL) || (BT_MESH_KR_PHASE_3 <? sub_kr_phase sub)
           then net_key_refresh i key else mret tt) ;;
          net_key_status r ctx idx STATUS_SUCCESS
    end.

Definition hb_pub_disable : G unit :=
  mod_hb_pub (fun p => ((((p <| hp_dst := BT_MESH_ADDR_UNASSIGNED |>) <| hp_count := 0 |>) <| hp_ttl := 0 |>)
    <| hp_period := 0 |>) <| hp_timer := None |>).

(** The loop over the application keys [j ..]: those that satisfy [p] are deleted. *)
Fixpoint app_keys_del (p : app_key -> bool) (js : list nat) : G unit :=
  match js with
  | [] => mret tt
  | j :: js =>
      s <- stm_get ;;
      key <- stm_of_option (app_keys (nd_net s) !! j) ;;
      (if p key then _app_key_del j else mret tt) ;;
      app_keys_del p js
  end.
Definition all_app_keys_del (p : app_key -> bool) : G unit :=
  s <- stm_get ;; app_keys_del p (seq 0 (length (app_keys (nd_net s)))).

Definition net_key_del (r : model_ref) (ctx : msg_ctx) (buf : bytes) : G unit :=
  p <- pull_le16 buf ;;
  let del_idx := p.1 in
  if 0xfff <? del_idx then mret tt
  else
    s <- stm_get ;;
    status <-
      (match bt_mesh_subnet_get (nd_net s) del_idx with
       | None => mret STATUS_SUCCESS
       | Some i =>
           if ctx_net_idx ctx =? del_idx then mret STATUS_CANNOT_REMOVE
           else
             (if hp_net_idx (cs_hb_pub (nd_srv s)) =? del_idx then hb_pub_disable else mret tt) ;;
             all_app_keys_del (fun k => app_net_idx k =? del_idx) ;;
             (if CONFIG_FRIEND then stm_emit [CFriendClear del_idx] else mret tt) ;;
             mod_net (fun m => set_sub m i (fun _ => unused_subnet)) ;;
             genie (GENIE_EVT_SDK_NETKEY_DEL STATUS_SUCCESS) ;;
             mret STATUS_SUCCESS
       end) ;;
    net_key_status r ctx del_idx status.

Definition net_idxs (m : mesh_net) : list Z :=
  map sub_net_idx (List.filter (fun s => negb (sub_net_idx s =? BT_MESH_KEY_UNUSED)) (subs m)).
Definition net_key_get (r : model_ref) (ctx : msg_ctx) (buf : bytes) : G unit :=
  send_state r ctx (2 + 4 + IDX_LEN SUBNET_COUNT) OP_NET_KEY_LIST
    (fun s => idx_list_pack BT_MESH_KEY_UNUSED (net_idxs (nd_net s))).

(** *** Node identity *)

Definition node_identity_status (r : model_ref) (ctx : msg_ctx) (status idx node_id : Z) : G unit :=
  reply r ctx (2 + 4 + 4) (bt_mesh_model_msg_init OP_NODE_IDENTITY_STATUS ++ u8 status :: sys_put_le16 idx ++ [u8 node_id]).

Definition node_identity_get (r : model_ref) (ctx : msg_ctx) (buf : bytes) : G unit :=
  p <- pull_le16 buf ;;
  let idx := p.1 in
  if 0xfff <? idx then mret tt
  else
    s <- stm_get ;;
    match bt_mesh_subnet_get (nd_net s) idx with
    | None => node_identity_status r ctx STATUS_INVALID_NETKEY idx 0
    | Some i => sub <- sub_of (nd_net s) i ;; node_identity_status r ctx STATUS_SUCCESS idx (sub_node_id sub)
    end.

Definition node_identity_set (r : model_ref) (ctx : msg_ctx) (buf : bytes) : G unit :=
  p <- pull_le16 buf ;; let '(idx, buf) := p in
  if 0xfff <? idx then mret tt
  else
    p <- pull_u8 buf ;;
    let node_id := p.1 in
    if negb (node_id =? 0) && negb (node_id =? 1) then mret tt
    else
      s <- stm_get ;;
      match bt_mesh_subnet_get (nd_net s) idx with
      | None => node_identity_status r ctx STATUS_INVALID_NETKEY idx node_id
      | Some i =>
          (if CONFIG_GATT_PROXY && (bt_mesh_gatt_proxy_get s =? BT_MESH_GATT_PROXY_ENABLED) then
             (if negb (node_id =? 0) then
                mod_net (fun m => set_sub m i (fun s =>
                  (s <| sub_node_id := BT_MESH_NODE_IDENTITY_RUNNING |>) <| sub_node_id_start := u32 c_uptime |>)) ;;
                stm_emit [CIdentityStart i]
              else mod_net (fun m => set_sub m i identity_stop)) ;;
             stm_emit [CAdvUpdate]
           else mret tt) ;;
          s <- stm_get ;;
          sub <- sub_of (nd_net s) i ;;
          node_identity_status r ctx STATUS_SUCCESS idx (sub_node_id sub)
      end.

(** *** Key refresh phase *)

Definition krp_status (r : model_ref) (ctx : msg_ctx) (idx phase status : Z) : G unit :=
  reply r ctx (2 + 4 + 4) (bt_mesh_model_msg_init OP_KRP_STATUS ++ u8 status :: sys_put_le16 idx ++ [u8 phase]).

Definition krp_get (r : model_ref) (ctx : msg_ctx) (buf : bytes) : G unit :=
  p <- pull_le16 buf ;;
  let idx := p.1 in
  if 0xfff <? idx then mret tt
  else
    s <- stm_get ;;
    match bt_mesh_subnet_get (nd_net s) idx with
    | None => krp_status r ctx idx 0 STATUS_INVALID_NETKEY
    | Some i => sub <- sub_of (nd_net s) i ;; krp_status r ctx idx (sub_kr_phase sub) STATUS_SUCCESS
    end.

Definition krp_set (r : model_ref) (ctx : msg_ctx) (buf : bytes) : G unit :=
  p <- pull_le16 buf ;; let '(idx, buf) := p in
  p <- pull_u8 buf ;; let '(phase, _) := p in
  if 0xfff <? idx then mret tt
  else
    s <- stm_get ;;
    match bt_mesh_subnet_get (nd_net s) idx with
    | None => krp_status r ctx idx 0 STATUS_INVALID_NETKEY
    | Some i =>
        sub <- sub_of (nd_net s) i ;;
        let cur := sub_kr_phase sub in
        if (phase <? BT_MESH_KR_PHASE_2) || (BT_MESH_KR_PHASE_3 <? phase) ||
           ((cur =? BT_MESH_KR_NORMAL) && (phase =? BT_MESH_KR_PHASE_2)) then mret tt
        else
          (if (cur =? BT_MESH_KR_PHASE_1) && (phase =? BT_MESH_KR_PHASE_2) then
             mod_net (fun m => set_sub m i (fun s => (s <| sub_kr_phase := BT_MESH_KR_PHASE_2 |>) <| sub_kr_flag := true |>)) ;;
             beacon_update i
           else if ((cur =? BT_MESH_KR_PHASE_1) || (cur =? BT_MESH_KR_PHASE_2)) && (phase =? BT_MESH_KR_PHASE_3) then
             mod_net (fun m => bt_mesh_net_revoke_keys m i) ;;
             (if CONFIG_LOW_POWER || CONFIG_FRIEND then
                mod_net (fun m => m <| friend_creds := friend_cred_refresh (ctx_net_idx ctx) (friend_creds m) |>)
              else mret tt) ;;
             mod_net (fun m => set_sub m i (fun s => (s <| sub_kr_phase := BT_MESH_KR_NORMAL |>) <| sub_kr_flag := false |>)) ;;
             beacon_update i
           else mret tt) ;;
          s <- stm_get ;;
          sub <- sub_of (nd_net s) i ;;
          krp_status r ctx idx (sub_kr_phase sub) STATUS_SUCCESS
    end.

(** ** Heartbeat publication *)

Definition hb_pub_send_status (r : model_ref) (ctx : msg_ctx) (status : Z) : G unit :=
  p <- get_hb_pub ;;
  reply r ctx (1 + 10 + 4)
    (bt_mesh_model_msg_init OP_HEARTBEAT_PUB_STATUS ++ u8 status :: sys_put_le16 (hp_dst p) ++
     [u8 (hb_pub_count_log (hp_count p)); u8 (hp_period p); u8 (hp_ttl p)] ++
     sys_put_le16 (hp_feat p) ++ sys_put_le16 (hp_net_idx p)).
Definition heartbeat_pub_get (r : model_ref) (ctx : msg_ctx) (buf : bytes) : G unit :=
  hb_pub_send_status r ctx STATUS_SUCCESS.

Definition genie_heartbeat_set (pa : hb_para) : G Z :=
  s <- stm_get ;;
  if BT_MESH_ADDR_IS_VIRTUAL (pa_dst pa) then mret STATUS_INVALID_ADDRESS
  else if (0x11 <? pa_count pa) && negb (pa_count pa =? 0xff) then mret STATUS_CANNOT_SET
  else if 0x10 <? pa_period pa then mret STATUS_CANNOT_SET
  else if negb (ttl_valid (pa_ttl pa)) then mret STATUS_CANNOT_SET
  else if 0xfff <? pa_net_idx pa then mret STATUS_CANNOT_SET
  else if bool_decide (bt_mesh_subnet_get (nd_net s) (pa_net_idx pa) = None) then mret STATUS_INVALID_NETKEY
  else
    mod_hb_pub (fun p => (((p <| hp_dst := pa_dst pa |>) <| hp_period := pa_period pa |>) <| hp_feat := pa_feat pa |>)
      <| hp_net_idx := pa_net_idx pa |>) ;;
    (if pa_dst pa =? BT_MESH_ADDR_UNASSIGNED then hb_pub_disable
     else
       mod_hb_pub (fun p => (p <| hp_count := hb_pwr2 (pa_count pa) 1 |>) <| hp_ttl := pa_ttl pa |>) ;;
       mod_hb_pub (fun p => p <| hp_timer :=
         if negb (pa_period pa =? 0) && negb (pa_count pa =? 0) then Some 0 else None |>)) ;;
    mret STATUS_SUCCESS.

Definition heartbeat_pub_set (r : model_ref) (ctx : msg_ctx) (buf : bytes) : G unit :=
  p <- pull_le16 buf ;; let '(dst, buf) := p in
  p <- pull_u8 buf ;; let '(count, buf) := p in
  p <- pull_u8 buf ;; let '(period, buf) := p in
  p <- pull_u8 buf ;; let '(ttl, buf) := p in
  p <- pull_le16 buf ;; let '(feat, buf) := p in
  p <- pull_le16 buf ;; let '(net_idx, _) := p in
  let pa := mk_hb_para dst count period ttl feat net_idx in
  status <- genie_heartbeat_set pa ;;
  hb_pub_send_status r ctx status ;;
  if count =? 0xff then genie (GENIE_EVT_SDK_HB_SET pa) else mret tt.

(** The work item of the publication timer. The period is a [u16_t] of
    milliseconds. *)
Definition hb_publish : G unit :=
  mod_hb_pub (fun p => p <| hp_timer := None |>) ;;
  s <- stm_get ;;
  let p := cs_hb_pub (nd_srv s) in
  match bt_mesh_subnet_get (nd_net s) (hp_net_idx p) with
  | None => mod_hb_pub (fun p => p <| hp_dst := BT_MESH_ADDR_UNASSIGNED |>)
  | Some _ =>
      r <- stm_of_option (cs_model (nd_srv s)) ;;
      hb_send r ;;
      if hp_count p =? 0 then mret tt
      else
        (if negb (hp_count p =? 0xffff) then mod_hb_pub (fun p => p <| hp_count := hp_count p - 1 |>) else mret tt) ;;
        let period_ms := u16 (hb_pwr2 (hp_period p) 1 * 1000) in
        if negb (period_ms =? 0) then mod_hb_pub (fun p => p <| hp_timer := Some period_ms |>) else mret tt
  end.

(** A heartbeat of a Low Power node. *)
Definition lpn_send_hb : G unit :=
  s <- stm_get ;;
  if negb (nd_conf s) then stm_undef
  else
    r <- stm_of_option (cs_model (nd_srv s)) ;;
    hb_feature r BT_MESH_FEAT_LOW_POWER true.

(** ** Heartbeat subscription *)

Definition hb_sub_send_status (r : model_ref) (ctx : msg_ctx) (status : Z) : G unit :=
  s <- stm_get ;;
  let h := cs_hb_sub (nd_srv s) in
  let period := if hs_expiry h <? c_uptime then 0 else u16 (Z.quot (hs_expiry h - c_uptime) 1000) in
  reply r ctx (2 + 9 + 4)
    (bt_mesh_model_msg_init OP_HEARTBEAT_SUB_STATUS ++ u8 status :: sys_put_le16 (hs_src h) ++ sys_put_le16 (hs_dst h) ++
     [u8 (hb_log period); u8 (hb_log (hs_count h)); u8 (hs_min_hops h); u8 (hs_max_hops h)]).
Definition heartbeat_sub_get (r : model_ref) (ctx : msg_ctx) (buf : bytes) : G unit :=
  hb_sub_send_status r ctx STATUS_SUCCESS.

Definition heartbeat_sub_set (r : model_ref) (ctx : msg_ctx) (buf : bytes) : G unit :=
  p <- pull_le16 buf ;; let '(src, buf) := p in
  p <- pull_le16 buf ;; let '(dst, buf) := p in
  p <- pull_u8 buf ;; let '(period, _) := p in
  s <- stm_get ;;
  if negb (src =? BT_MESH_ADDR_UNASSIGNED) && negb (BT_MESH_ADDR_IS_UNICAST src) then mret tt
  else if BT_MESH_ADDR_IS_VIRTUAL dst || BT_MESH_ADDR_IS_RFU dst ||
          (BT_MESH_ADDR_IS_UNICAST dst && negb (dst =? bt_mesh_primary_addr (nd_acc s))) then mret tt
  else if 0x11 <? period then mret tt
  else
    period_ms <-
      (if (src =? BT_MESH_ADDR_UNASSIGNED) || (dst =? BT_MESH_ADDR_UNASSIGNED) || (period =? 0) then
         let h := cs_hb_sub (nd_srv s) in
         (if negb (hs_src h =? src) || negb (hs_dst h =? dst) then
            mod_hb_sub (fun h => (h <| hs_src := BT_MESH_ADDR_UNASSIGNED |>) <| hs_dst := BT_MESH_ADDR_UNASSIGNED |>)
          else mret tt) ;;
         mret 0
       else
         mod_hb_sub (fun h => ((((h <| hs_src := src |>) <| hs_dst := dst |>) <| hs_min_hops := BT_MESH_TTL_MAX |>)
           <| hs_max_hops := 0 |>) <| hs_count := 0 |>) ;;
         mret (hb_pwr2 period 1 * 1000)) ;;
    s <- stm_get ;;
    stm_emit [CSetHbSubDst (hs_dst (cs_hb_sub (nd_srv s)))] ;;
    mod_hb_sub (fun h => h <| hs_expiry := if negb (period_ms =? 0) then c_uptime + period_ms else 0 |>) ;;
    hb_sub_send_status r ctx STATUS_SUCCESS.

(** A heartbeat the transport layer received. *)
Definition bt_mesh_heartbeat (src dst hops feat : Z) : G unit :=
  s <- stm_get ;;
  let h := cs_hb_sub (nd_srv s) in
  if negb (nd_conf s) then mret tt
  else if negb (src =? hs_src h) || negb (dst =? hs_dst h) then mret tt
  else if hs_expiry h <? c_uptime then mret tt
  else
    mod_hb_sub (fun h => (h <| hs_min_hops := Z.min (hs_min_hops h) hops |>) <| hs_max_hops := Z.max (hs_max_hops h) hops |>) ;;
    (if hs_count h <? 0xffff then mod_hb_sub (fun h => h <| hs_count := hs_count h + 1 |>) else mret tt) ;;
    if hs_func h then stm_emit [CHbFunc hops feat] else mret tt.

(** ** Initialisation and reset *)

Definition conf_is_valid (c : cfg_srv) : bool :=
  if 2 <? cs_relay c then false
  else if 1 <? cs_beacon c then false
  else negb (BT_MESH_TTL_MAX <? cs_default_ttl c).

(** The timer is not running: nothing started it, or it is cancelled next. *)
Definition bt_mesh_cfg_srv_init (r : model_ref) : G Z :=
  s <- stm_get ;;
  if negb (conf_is_valid (nd_srv s)) then mret (- EINVAL)
  else
    set_key r 0 BT_MESH_KEY_DEV ;;
    (if negb CONFIG_RELAY then mod_srv (fun c => c <| cs_relay := BT_MESH_RELAY_NOT_SUPPORTED |>) else mret tt) ;;
    (if negb CONFIG_FRIEND then mod_srv (fun c => c <| cs_frnd := BT_MESH_FRIEND_NOT_SUPPORTED |>) else mret tt) ;;
    (if negb CONFIG_GATT_PROXY then mod_srv (fun c => c <| cs_gatt_proxy := BT_MESH_GATT_PROXY_NOT_SUPPORTED |>)
     else mret tt) ;;
    mod_hb_pub (fun p => p <| hp_timer := None |>) ;;
    mod_hb_sub (fun h => h <| hs_expiry := 0 |>) ;;
    mod_srv (fun c => c <| cs_model := Some r |>) ;;
    stm_modify (fun s => s <| nd_conf := true |>) ;;
    mret 0.

Definition bt_mesh_cfg_reset : G unit :=
  s <- stm_get ;;
  if negb (nd_conf s) then mret tt
  else
    stm_emit [CSetHbSubDst BT_MESH_ADDR_UNASSIGNED] ;;
    mod_hb_sub (fun h => ((h <| hs_src := BT_MESH_ADDR_UNASSIGNED |>) <| hs_dst := BT_MESH_ADDR_UNASSIGNED |>)
      <| hs_expiry := 0 |>) ;;
    hb_pub_disable ;;
    all_app_keys_del key_valid ;;
    mod_net (fun m => m <| subs := map (fun _ => unused_subnet) (subs m) |>) ;;
    stm_modify (fun s => s <| nd_labels := map (fun _ => zero_label) (nd_labels s) |>).

Context {aenv : AccEnv}.

(** The models' initialisation functions that a function of the access layer
    calls: the server's runs here, the others are events. *)
Fixpoint run_inits (evs : list acc_event) : G unit :=
  match evs with
  | [] => mret tt
  | AModelInit id r _ :: evs =>
      (if id =? BT_MESH_MODEL_ID_CFG_SRV then bt_mesh_cfg_srv_init r ;; mret tt else mret tt) ;; run_inits evs
  | _ :: evs => run_inits evs
  end.
Definition acc_inits {T} (m : A T) : G T := fun s =>
  match m (nd_acc s) with
  | Some (a, ac, e) => (stm_emit (map CAcc e) ;; run_inits e ;; mret a) (s <| nd_acc := ac |>)
  | None => None
  end.

(** bt_mesh/src/main.c. *)
Definition bt_mesh_reset : G unit :=
  s <- stm_get ;;
  if negb (nd_provisioned s) then mret tt
  else
    acc_inits bt_mesh_comp_unprovision ;;
    stm_modify (fun s => s <| nd_sub_list := map (fun _ => 0) (nd_sub_list s) |>) ;;
    mod_net (fun m => ((((((m <| iv_index := 0 |>) <| seq_num := 0 |>) <| iv_update := false |>) <| pending_update := false |>)
      <| valid := false |>) <| last_update := 0 |>) <| ivu_initiator := false |>) ;;
    stm_emit [CIvuCancel] ;;
    bt_mesh_cfg_reset ;;
    stm_emit [CRxReset; CTxReset] ;;
    (if CONFIG_LOW_POWER then stm_emit [CLpnDisable] else mret tt) ;;
    (if CONFIG_FRIEND then stm_emit [CFriendClear BT_MESH_KEY_ANY] else mret tt) ;;
    (if CONFIG_GATT_PROXY then stm_emit [CGattDisable] else mret tt) ;;
    mod_net (fun m => (m <| dev_key := replicate 16 0 |>) <| rpl := map (fun _ => zero_rpl) (rpl m) |>) ;;
    stm_modify (fun s => s <| nd_provisioned := false |>) ;;
    stm_emit [CScanDisable; CBeaconDisable; CProvReset].

Definition node_reset (r : model_ref) (ctx : msg_ctx) (buf : bytes) : G unit :=
  reply r ctx (2 + 0 + 4) (bt_mesh_model_msg_init OP_NODE_RESET_STATUS) ;;
  if c_reset_flag then mret tt
  else bt_mesh_reset ;; genie GENIE_EVT_SW_RESET.

(** ** The operations *)

(** [bt_mesh_cfg_srv_op]: opcode, least length, handler. *)
Definition bt_mesh_cfg_srv_op : list (Z * nat * (model_ref -> msg_ctx -> bytes -> G unit)) :=
  [ (OP_DEV_COMP_DATA_GET, 1%nat, dev_comp_data_get);
    (OP_APP_KEY_ADD, 19%nat, app_key_add);
    (OP_APP_KEY_UPDATE, 19%nat, app_key_update);
    (OP_APP_KEY_DEL, 3%nat, app_key_del);
    (OP_APP_KEY_GET, 2%nat, app_key_get);
    (OP_BEACON_GET, 0%nat, beacon_get);
    (OP_BEACON_SET, 1%nat, beacon_set);
    (OP_DEFAULT_TTL_GET, 0%nat, default_ttl_get);
    (OP_DEFAULT_TTL_SET, 1%nat, default_ttl_set);
    (OP_GATT_PROXY_GET, 0%nat, gatt_proxy_get);
    (OP_GATT_PROXY_SET, 1%nat, gatt_proxy_set);
    (OP_NET_TRANSMIT_GET, 0%nat, net_transmit_get);
    (OP_NET_TRANSMIT_SET, 1%nat, net_transmit_set);
    (OP_RELAY_GET, 0%nat, relay_get);
    (OP_RELAY_SET, 2%nat, relay_set);
    (OP_MOD_PUB_GET, 4%nat, mod_pub_get);
    (OP_MOD_PUB_SET, 11%nat, mod_pub_set);
    (OP_MOD_PUB_VA_SET, 24%nat, mod_pub_va_set);
    (OP_MOD_SUB_ADD, 6%nat, mod_sub_add);
    (OP_MOD_SUB_VA_ADD, 20%nat, mod_sub_va_add);
    (OP_MOD_SUB_DEL, 6%nat, mod_sub_del);
    (OP_MOD_SUB_VA_DEL, 20%nat, mod_sub_va_del);
    (OP_MOD_SUB_OVERWRITE, 6%nat, mod_sub_overwrite);
    (OP_MOD_SUB_VA_OVERWRITE, 20%nat, mod_sub_va_overwrite);
    (OP_MOD_SUB_DEL_ALL, 4%nat, mod_sub_del_all);
    (OP_MOD_SUB_GET, 4%nat, mod_sub_get);
    (OP_MOD_SUB_GET_VND, 6%nat, mod_sub_get_vnd);
    (OP_NET_KEY_ADD, 18%nat, net_key_add);
    (OP_NET_KEY_UPDATE, 18%nat, net_key_update);
    (OP_NET_KEY_DEL, 2%nat, net_key_del);
    (OP_NET_KEY_GET, 0%nat, net_key_get);
    (OP_NODE_IDENTITY_GET, 2%nat, node_identity_get);
    (OP_NODE_IDENTITY_SET, 3%nat, node_identity_set);
    (OP_MOD_APP_BIND, 6%nat, mod_app_bind);
    (OP_MOD_APP_UNBIND, 6%nat, mod_app_unbind);
    (OP_SIG_MOD_APP_GET, 4%nat, mod_app_get);
    (OP_VND_MOD_APP_GET, 6%nat, mod_app_get);
    (OP_NODE_RESET, 0%nat, node_reset);
    (OP_FRIEND_GET, 0%nat, friend_get);
    (OP_FRIEND_SET, 1%nat, friend_set);
    (OP_LPN_TIMEOUT_GET, 2%nat, lpn_timeout_get);
    (OP_KRP_GET, 2%nat, krp_get);
    (OP_KRP_SET, 3%nat, krp_set);
    (OP_HEARTBEAT_PUB_GET, 0%nat, heartbeat_pub_get);
    (OP_HEARTBEAT_PUB_SET, 9%nat, heartbeat_pub_set);
    (OP_HEARTBEAT_SUB_GET, 0%nat, heartbeat_sub_get);
    (OP_HEARTBEAT_SUB_SET, 5%nat, heartbeat_sub_set) ].

(** What the access layer does with a message for the server: the handler of the
    opcode, if the message is long enough. *)
Definition cfg_srv_recv (r : model_ref) (opcode : Z) (ctx : msg_ctx) (buf : bytes) : G unit :=
  match List.find (fun op => op.1.1 =? opcode) bt_mesh_cfg_srv_op with
  | None => mret tt
  | Some (_, min_len, func) => if decide (length buf < min_len)%nat then mret tt else func r ctx buf
  end.
End cfg_srv.
