(* ===== verification/CfgKeep.v ===== *)
(** * What only a reset changes

    Whether the node is provisioned and whether its network is valid: no handler
    of the Configuration Server but that of a reset changes either. *)

From S2P Require Import Prelude NetBuf Cmac Ccm MeshCrypto NetState NetIv TransState TransTx Access Beacon Proxy CfgState CfgModels CfgSrv.

Definition same_life (s s' : node) : Prop :=
  nd_provisioned s' = nd_provisioned s /\ valid (nd_net s') = valid (nd_net s).
#[export] Instance same_life_pre : PreOrder same_life.
Proof. split; [by intros s|]. unfold same_life. intros s1 s2 s3 [] []. split; congruence. Qed.

Create HintDb life.

Section steps.
Context {cfg : MeshConfig} {env : CfgEnv} {aenv : AccEnv}.
Local Notation keeps m := (stm_keeps same_life m).

Lemma life_mod_net f : (forall m, valid (f m) = valid m) -> keeps (mod_net f).
Proof. intros Hf. apply keeps_modify. intros s. split; [done|apply Hf]. Qed.
Lemma life_acc {T} (m : A T) : keeps (acc m).
Proof. intros s a s' e. unfold acc. destruct (m (nd_acc s)) as [[[b ac] ea]|]; [|done]. by intros [= _ <- _]. Qed.
Lemma life_mod_srv f : keeps (mod_srv f).
Proof. by apply keeps_modify. Qed.
Lemma life_mod_model r f : keeps (mod_model r f).
Proof. by apply keeps_modify. Qed.
Lemma life_reply r ctx cap msg : keeps (reply r ctx cap msg).
Proof. unfold reply. keeps_steps. Qed.

Lemma life_revoke i : keeps (mod_net (fun m => bt_mesh_net_revoke_keys m i)).
Proof. apply life_mod_net. intros m. unfold bt_mesh_net_revoke_keys, set_sub. by destruct (subs m !! i), m. Qed.

End steps.
#[export] Hint Resolve life_revoke life_acc life_mod_srv life_mod_model life_reply : life.

(** Runs through a handler, unfolding what it calls. *)
Ltac head t := lazymatch t with ?f _ => head f | _ => t end.
Ltac life_step :=
  first
    [ keeps_step
    | solve [auto with life nocore]
    | lazymatch goal with
      | |- stm_keeps _ (mod_net _) =>
          apply life_mod_net; intros []; cbn; try done; repeat (case_match; cbn); done
      | |- stm_keeps _ (stm_modify _) => by apply keeps_modify
      | |- stm_keeps _ ?m => let h := head m in unfold h
      end ].
Ltac life := repeat life_step.

Section keeps.
Context {cfg : MeshConfig} {env : CfgEnv} {aenv : AccEnv}.
Local Notation keeps m := (stm_keeps same_life m).

Lemma life_mod_unbind r k : keeps (mod_unbind r k).
Proof. life. Qed.
Lemma life_mod_bind r k : keeps (mod_bind r k).
Proof. life. Qed.
Lemma life_for_refs rs f : (forall r, keeps (f r)) -> keeps (for_refs rs f).
Proof. intros Hf. induction rs as [|r rs IH]; cbn [for_refs]; life. Qed.
Lemma life_for_models i vnd js f : (forall r, keeps (f r)) -> keeps (for_models i vnd js f).
Proof. intros Hf. induction js as [|j js IH]; cbn [for_models]; life. Qed.
Lemma life_elem_models i f : (forall r, keeps (f r)) -> keeps (for_elem_models i f).
Proof. intros Hf. unfold for_elem_models. keeps_steps; by apply life_for_models. Qed.
Lemma life_setup n i : keeps (setup_elems n i).
Proof.
  revert i. induction n as [|n IH]; intros i; cbn [setup_elems]; [life|]. keeps_steps; [|apply IH].
  apply life_elem_models. intros r. keeps_steps; [apply life_mod_bind|life].
Qed.
Lemma life_copy_elem i : keeps (_elem_sub_bind i).
Proof. apply life_elem_models. intros r. life. Qed.
#[local] Hint Resolve life_mod_unbind life_mod_bind life_setup life_copy_elem : life.
Lemma life_app_key_del j : keeps (_app_key_del j).
Proof. unfold _app_key_del, model_foreach. keeps_steps; [apply life_for_refs; intros r; life|life]. Qed.
#[local] Hint Resolve life_app_key_del : life.
Lemma life_app_keys_del p js : keeps (app_keys_del p js).
Proof. induction js as [|j js IH]; cbn [app_keys_del]; [life|]. keeps_steps; [auto with life|apply IH]. Qed.
#[local] Hint Resolve life_app_keys_del : life.

Lemma life_cfg_reset : keeps bt_mesh_cfg_reset.
Proof. life. Qed.

Lemma life_table : Forall (fun op => op.1.1 = OP_NODE_RESET \/ forall r ctx buf, keeps (op.2 r ctx buf)) bt_mesh_cfg_srv_op.
Proof.
  unfold bt_mesh_cfg_srv_op. repeat apply List.Forall_cons; try apply List.Forall_nil; cbn [fst snd];
    first [by left | right; intros r ctx buf; life].
Qed.
End keeps.
