(* ===== verification/CfgWf.v ===== *)
(** * The invariant of a configured node

    Which keys and subnets a node has and what its models are bound to: the
    invariant that the Configuration Server maintains, and the lemmas on the
    parts of the state that its handlers share. *)

From S2P Require Import Prelude NetBuf Cmac Ccm MeshCrypto NetState NetIv TransState TransTx Access Beacon Proxy CfgState CfgModels CfgSrv.

(** ** The invariant *)

(** What an application key is bound to, and the indexes of the subnets. *)
Definition key_view (m : mesh_net) : list (Z * Z) := map (fun k => (app_net_idx k, app_app_idx k)) (app_keys m).
Definition sub_view (m : mesh_net) : list Z := map sub_net_idx (subs m).

Definition valid_idx (ks : list (Z * Z)) (idx : Z) : Prop := exists n, n <> BT_MESH_KEY_UNUSED /\ (n, idx) ∈ ks.

(** Used entries are twelve-bit indexes; a key's subnet exists; indexes are not
    repeated. *)
Record keys_wf (ks : list (Z * Z)) (ns : list Z) : Prop := {
  kw_len : length ks = APP_KEY_COUNT;
  kw_slen : length ns = SUBNET_COUNT;
  kw_key n idx : (n, idx) ∈ ks -> n <> BT_MESH_KEY_UNUSED -> 0 <= idx <= 0xfff /\ n ∈ ns;
  kw_idx i j n idx n' : ks !! i = Some (n, idx) -> ks !! j = Some (n', idx) ->
    n <> BT_MESH_KEY_UNUSED -> n' <> BT_MESH_KEY_UNUSED -> i = j;
  kw_sub n : n ∈ ns -> n <> BT_MESH_KEY_UNUSED -> 0 <= n <= 0xfff;
  kw_subs i j n : ns !! i = Some n -> ns !! j = Some n -> n <> BT_MESH_KEY_UNUSED -> i = j
}.

(** A model is bound to keys that exist, once to each; only its first entry can
    be the device key. *)
Record model_wf (ks : list (Z * Z)) (m : model) : Prop := {
  mw_keys : length (md_keys m) = MODEL_KEY_COUNT;
  mw_groups : length (md_groups m) = MODEL_GROUP_COUNT;
  mw_bound k : k ∈ md_keys m -> k = BT_MESH_KEY_UNUSED \/ k = BT_MESH_KEY_DEV \/ valid_idx ks k;
  mw_once i j k : md_keys m !! i = Some k -> md_keys m !! j = Some k -> k <> BT_MESH_KEY_UNUSED -> i = j;
  mw_dev i : md_keys m !! i = Some BT_MESH_KEY_DEV -> i = 0%nat
}.

Definition models_wf (ks : list (Z * Z)) (a : access) : Prop := forall r m, get_model a r = Some m -> model_wf ks m.

(** What configuration does not change: addresses and identifiers. *)
Definition model_ids (m : model) : Z * Z := (md_company m, md_id m).
Definition elem_shape (e : elem) : Z * list (Z * Z) * list (Z * Z) :=
  (el_addr e, map model_ids (el_models e), map model_ids (el_vnd_models e)).
Definition shape (a : access) : list (Z * list (Z * Z) * list (Z * Z)) := map elem_shape (ac_elems a).
Notation composition := (list (Z * list (Z * Z) * list (Z * Z))).

(** The length of the composition data, and whether its answer has room for the
    four bytes of the MIC. *)
Definition elem_len (e : Z * list (Z * Z) * list (Z * Z)) : nat := 4 + 2 * length e.1.2 + 4 * length e.2.
Definition comp_fits (sh : composition) : Prop := (12 + list_sum (map elem_len sh) + 4 <= BT_MESH_TX_SDU_MAX)%nat.

Definition has_ref (sh : composition) (r : model_ref) : Prop :=
  exists e, sh !! mr_elem r = Some e /\ (mr_idx r < length (if mr_vnd r then e.2 else e.1.2))%nat.

Record node_wf (sh : composition) (s : node) : Prop := {
  nw_keys : keys_wf (key_view (nd_net s)) (sub_view (nd_net s));
  nw_models : models_wf (key_view (nd_net s)) (nd_acc s);
  nw_shape : shape (nd_acc s) = sh;
  nw_fits : comp_fits sh;
  nw_list : length (nd_sub_list s) = MODEL_GROUP_COUNT;
  nw_conf : nd_conf s = true;
  nw_model : exists r, cs_model (nd_srv s) = Some r /\ has_ref sh r
}.

(** An answer leaves room for the MIC of the transport layer. *)
Definition room_ok (ev : cfg_event) : Prop :=
  match ev with CSend _ _ _ room => 4 <= room | _ => True end.

(** [good sh m Q s]: run from [s], [m] is defined, its answers have room, and it
    leaves a well-formed state that satisfies [Q]. *)
Definition good (sh : composition) {T} (m : G T) (Q : T -> node -> Prop) (s : node) : Prop :=
  stm_wp m (fun a s' e => node_wf sh s' /\ Forall room_ok e /\ Q a s') s.

Lemma le16_range l : 0 <= sys_get_le16 l < 65536.
Proof. unfold sys_get_le16, u16. apply Z.mod_pos_bound. lia. Qed.

Section good.
Context (sh : composition).
Implicit Types s : node.

Lemma good_ret {T} (a : T) (Q : T -> node -> Prop) s : node_wf sh s -> Q a s -> good sh (mret a) Q s.
Proof. intros Hw HQ. apply wp_ret. split; [done|]. split; [constructor|done]. Qed.
Lemma good_bind {T U} (m : G T) (f : T -> G U) P Q s :
  good sh m P s -> (forall a s', node_wf sh s' -> P a s' -> good sh (f a) Q s') -> good sh (stm_bind m f) Q s.
Proof.
  intros Hm Hf. eapply wp_call; [exact Hm|]. cbn. intros a s1 e1 (Hw & He & HP).
  eapply wp_mono; [by apply Hf|]. cbn. intros b s2 e2 (Hw2 & He2 & HQ). split; [done|].
  split; [by apply Forall_app|done].
Qed.
Lemma good_assoc {T U V} (m : G T) (f : T -> G U) (g : U -> G V) Q s :
  good sh (stm_bind m (fun a => stm_bind (f a) g)) Q s -> good sh (stm_bind (stm_bind m f) g) Q s.
Proof. intros H. unfold good, stm_wp. by rewrite stm_bind_assoc. Qed.
Lemma good_seq {T U} (m : G T) (f : T -> G U) Q s :
  good sh m (fun _ _ => True) s -> (forall a s', node_wf sh s' -> good sh (f a) Q s') -> good sh (stm_bind m f) Q s.
Proof. intros Hm Hf. eapply good_bind; [exact Hm|]. cbv beta. auto. Qed.
Lemma good_mono {T} (m : G T) (P Q : T -> node -> Prop) s :
  good sh m P s -> (forall a s', node_wf sh s' -> P a s' -> Q a s') -> good sh m Q s.
Proof. intros Hm HPQ. eapply wp_mono; [exact Hm|]. cbn. intros a s' e (? & ? & ?). auto. Qed.
Lemma good_get {T} (f : node -> G T) Q s : good sh (f s) Q s -> good sh (stm_bind stm_get f) Q s.
Proof. intros H. unfold good, stm_wp. by rewrite (stm_bind_pure _ _ s s s) by done. Qed.
Lemma good_of_option {T U} (o : option T) (f : T -> G U) Q s a :
  o = Some a -> good sh (f a) Q s -> good sh (stm_bind (stm_of_option o) f) Q s.
Proof. intros -> H. unfold good, stm_wp. by rewrite (stm_bind_pure _ _ s a s) by done. Qed.
Lemma good_modify (f : node -> node) (Q : unit -> node -> Prop) s :
  node_wf sh (f s) -> Q tt (f s) -> good sh (stm_modify f) Q s.
Proof. intros Hw HQ. apply wp_modify. split; [done|]. split; [constructor|done]. Qed.
Lemma good_emit e (Q : unit -> node -> Prop) s :
  node_wf sh s -> Forall room_ok e -> Q tt s -> good sh (stm_emit e) Q s.
Proof. intros Hw He HQ. by apply wp_emit. Qed.
Lemma good_ret_bind {T U} (a : T) (f : T -> G U) Q s : good sh (f a) Q s -> good sh (stm_bind (mret a) f) Q s.
Proof. intros H. unfold good, stm_wp. by rewrite (stm_bind_pure _ _ s a s) by done. Qed.

(** An answer of at most [cap - 4] bytes. *)
Lemma good_reply r ctx cap msg (Q : unit -> node -> Prop) s :
  node_wf sh s -> (length msg + 4 <= cap)%nat -> Q tt s -> good sh (reply r ctx cap msg) Q s.
Proof.
  intros Hw Hl HQ. unfold reply. rewrite decide_False by lia. apply good_emit; [done| |done].
  repeat constructor. cbn. lia.
Qed.

Lemma good_pull_le16 {T} buf (f : Z * bytes -> G T) Q s : (2 <= length buf)%nat ->
  (forall v, 0 <= v < 65536 -> good sh (f (v, drop 2 buf)) Q s) -> good sh (stm_bind (pull_le16 buf) f) Q s.
Proof.
  intros Hl Hf. unfold pull_le16. rewrite decide_False by lia. apply good_ret_bind, Hf.
  apply le16_range.
Qed.
Lemma good_pull_u8 {T} buf (f : Z * bytes -> G T) Q s : (1 <= length buf)%nat ->
  (forall v, good sh (f (v, drop 1 buf)) Q s) -> good sh (stm_bind (pull_u8 buf) f) Q s.
Proof. intros Hl Hf. destruct buf as [|b buf]; [cbn in Hl; lia|]. cbn. apply good_ret_bind, Hf. Qed.
Lemma good_pull_mem {T} n buf (f : bytes * bytes -> G T) Q s : (n <= length buf)%nat ->
  good sh (f (take n buf, drop n buf)) Q s -> good sh (stm_bind (pull_mem n buf) f) Q s.
Proof. intros Hl Hf. unfold pull_mem. rewrite decide_False by lia. by apply good_ret_bind. Qed.
Lemma good_key_idx_unpack {T} buf (f : Z * Z * bytes -> G T) Q s : (3 <= length buf)%nat ->
  (forall i j, 0 <= i <= 0xfff -> 0 <= j <= 0xfff -> good sh (f (i, j, drop 3 buf)) Q s) ->
  good sh (stm_bind (key_idx_unpack buf) f) Q s.
Proof.
  intros Hl Hf. unfold key_idx_unpack. rewrite decide_False by lia. apply good_ret_bind, Hf.
  - assert (Z.land (sys_get_le16 buf) 0xfff = sys_get_le16 buf mod 4096) as -> by by apply (Z.land_ones _ 12).
    pose proof (Z.mod_pos_bound (sys_get_le16 buf) 4096 ltac:(lia)). lia.
  - rewrite Z.shiftr_div_pow2 by lia. change (2 ^ 4) with 16. pose proof (le16_range (drop 1 buf)).
    Z.div_mod_to_equations. lia.
Qed.
End good.

(** Runs the primitive steps in front of a computation. *)
Ltac good_step :=
  lazymatch goal with
  | |- good _ (mret _) _ _ => apply good_ret
  | |- good _ (stm_bind (mret _) _) _ _ => apply good_ret_bind
  | |- good _ (stm_bind stm_get _) _ _ => apply good_get
  | |- good _ (stm_bind (pull_le16 _) _) _ _ =>
      apply good_pull_le16; [repeat rewrite length_drop; lia|let v := fresh "v" in let Hv := fresh "Hv" in intros v Hv]
  | |- good _ (stm_bind (pull_u8 _) _) _ _ =>
      apply good_pull_u8; [repeat rewrite length_drop; lia|let v := fresh "v" in intros v]
  | |- good _ (stm_bind (pull_mem _ _) _) _ _ => apply good_pull_mem; [repeat rewrite length_drop; lia|]
  | |- good _ (stm_bind (key_idx_unpack _) _) _ _ =>
      apply good_key_idx_unpack; [lia|let i := fresh "i" in let j := fresh "j" in intros i j ? ?]
  | |- good _ (stm_bind (stm_bind _ _) _) _ _ => apply good_assoc
  end; cbv beta iota zeta; cbn [fst snd].

(** The length of an answer. *)
Ltac fits := repeat rewrite length_app; cbn [length]; repeat rewrite length_replicate; cbn; lia.

(** ** Models and their composition *)

Definition set_models (vnd : bool) (f : list model -> list model) (e : elem) : elem :=
  if vnd then e <| el_vnd_models := f (el_vnd_models e) |> else e <| el_models := f (el_models e) |>.

Lemma elems_alter f r a :
  ac_elems (alter_model f r a) = alter (set_models (mr_vnd r) (alter f (mr_idx r))) (mr_elem r) (ac_elems a).
Proof. by destruct a. Qed.
Lemma models_of_set vnd vnd' f e :
  models_of (set_models vnd f e) vnd' = if Bool.eqb vnd vnd' then f (models_of e vnd') else models_of e vnd'.
Proof. by destruct vnd, vnd', e. Qed.

Lemma get_model_alter f r r' a :
  get_model (alter_model f r a) r' = if decide (r = r') then f <$> get_model a r' else get_model a r'.
Proof.
  unfold get_model. rewrite elems_alter. destruct r as [i v j], r' as [i' v' j']. cbn [mr_elem mr_vnd mr_idx].
  destruct (decide (i = i')) as [<-|Hi].
  - rewrite list_lookup_alter_eq. destruct (ac_elems a !! i) as [e|]; cbn;
      [|destruct (decide _) in |- *; done].
    rewrite models_of_set. destruct (Bool.eqb_spec v v') as [<-|Hv].
    + destruct (decide (j = j')) as [<-|Hj].
      * by rewrite decide_True, list_lookup_alter_eq by done.
      * rewrite decide_False by congruence. by rewrite list_lookup_alter_ne.
    + by rewrite decide_False by congruence.
  - rewrite list_lookup_alter_ne by done. by rewrite decide_False by congruence.
Qed.

Lemma shape_alter f r a : (forall m, model_ids (f m) = model_ids m) -> shape (alter_model f r a) = shape a.
Proof.
  intros Hf. unfold shape. rewrite elems_alter. apply list_eq. intros i. rewrite !list_lookup_fmap.
  destruct (decide (mr_elem r = i)) as [<-|Hi]; [|by rewrite list_lookup_alter_ne].
  rewrite list_lookup_alter_eq. destruct (ac_elems a !! mr_elem r) as [e|]; [|done]. cbn. f_equal.
  assert (forall l, map model_ids (alter f (mr_idx r) l) = map model_ids l) as Hl.
  { intros l. apply list_eq. intros j. rewrite !list_lookup_fmap. destruct (decide (mr_idx r = j)) as [<-|Hj];
      [rewrite list_lookup_alter_eq|by rewrite list_lookup_alter_ne].
    destruct (l !! mr_idx r); cbn; [by rewrite Hf|done]. }
  unfold elem_shape, set_models. destruct (mr_vnd r), e; cbn; by rewrite Hl.
Qed.

Lemma has_ref_model a r : has_ref (shape a) r <-> is_Some (get_model a r).
Proof.
  unfold has_ref, get_model, shape. rewrite list_lookup_fmap. destruct (ac_elems a !! mr_elem r) as [e|]; cbn.
  - rewrite lookup_lt_is_Some. unfold models_of. split.
    + intros (e' & [= <-] & Hl). cbn in Hl. destruct (mr_vnd r); by rewrite length_map in Hl.
    + intros Hl. eexists. split; [done|]. cbn. destruct (mr_vnd r); by rewrite length_map.
  - split; [by intros (e & ? & _)|by intros [??]].
Qed.

Lemma in_indexed {X} (g : nat -> model_ref) (l : list X) (r : model_ref) :
  r ∈ imap (fun j _ => g j) l <-> exists j, (j < length l)%nat /\ r = g j.
Proof.
  rewrite elem_of_lookup_imap. split.
  - intros (j & x & -> & Hj). exists j. split; [by eapply lookup_lt_Some|done].
  - intros (j & Hj & ->). apply lookup_lt_is_Some in Hj as [x Hx]. eauto.
Qed.

Lemma model_refs_all a r : r ∈ model_refs a <-> has_ref (shape a) r.
Proof.
  unfold model_refs, has_ref, shape. rewrite list_elem_of_In, in_concat. split.
  - intros (l & Hl & Hr). apply list_elem_of_In, elem_of_lookup_imap in Hl as (i & e & -> & Hi).
    apply list_elem_of_In, elem_of_app in Hr. rewrite !in_indexed in Hr.
    exists (elem_shape e). destruct Hr as [(j & Hj & ->)|(j & Hj & ->)]; cbn [mr_elem mr_vnd mr_idx];
      rewrite list_lookup_fmap, Hi; (split; [done|]); cbn; by rewrite length_map.
  - intros (es & He & Hj). rewrite list_lookup_fmap in He.
    destruct (ac_elems a !! mr_elem r) as [e|] eqn:Hi; [|done]. injection He as <-. cbn in Hj.
    eexists. split; [apply list_elem_of_In, elem_of_lookup_imap; by eauto|].
    apply list_elem_of_In, elem_of_app. rewrite !in_indexed. destruct r as [i v j]. cbn in *.
    destruct v; rewrite length_map in Hj; eauto.
Qed.

(** ** What the operations do to the invariant *)

Lemma models_alter ks r f a :
  models_wf ks a -> (forall m, get_model a r = Some m -> model_wf ks m -> model_wf ks (f m)) ->
  models_wf ks (alter_model f r a).
Proof.
  intros Hw Hf r' m. rewrite get_model_alter. destruct (decide (r = r')) as [<-|Hr]; [|apply Hw].
  destruct (get_model a r) as [m0|] eqn:Hm; [|done]. intros [= <-]. apply Hf; [done|exact (Hw r m0 Hm)].
Qed.

(** A change of a model. *)
Lemma wf_model sh r f s : node_wf sh s ->
  (forall m, model_ids (f m) = model_ids m) ->
  (forall m, get_model (nd_acc s) r = Some m -> model_wf (key_view (nd_net s)) m -> model_wf (key_view (nd_net s)) (f m)) ->
  node_wf sh (s <| nd_acc := alter_model f r (nd_acc s) |>).
Proof.
  intros [] Hids Hf. split; try done; cbn.
  - by apply models_alter.
  - etrans; [by apply shape_alter|done].
Qed.

(** A change of the network context that keeps the indexes. *)
Lemma wf_net sh m s : node_wf sh s -> key_view m = key_view (nd_net s) -> sub_view m = sub_view (nd_net s) ->
  node_wf sh (s <| nd_net := m |>).
Proof. intros [] Hk Hs. split; try done; cbn; by rewrite ?Hk, ?Hs. Qed.

(** A change of the server's states. *)
Lemma wf_srv sh c s : node_wf sh s -> cs_model c = cs_model (nd_srv s) -> node_wf sh (s <| nd_srv := c |>).
Proof. intros [] Hm. split; try done; cbn. by rewrite Hm. Qed.

Lemma wf_labels sh l s : node_wf sh s -> node_wf sh (s <| nd_labels := l |>).
Proof. intros []. by split. Qed.
Lemma wf_list sh l s : node_wf sh s -> length l = MODEL_GROUP_COUNT -> node_wf sh (s <| nd_sub_list := l |>).
Proof. intros []. by split. Qed.

Lemma key_view_alter f j m : (forall k, app_net_idx (f k) = app_net_idx k /\ app_app_idx (f k) = app_app_idx k) ->
  key_view (set_app_key j f m) = key_view m.
Proof.
  intros Hf. unfold key_view, set_app_key. destruct m. cbn. apply list_eq. intros i. rewrite !list_lookup_fmap.
  destruct (decide (j = i)) as [<-|Hi]; [rewrite list_lookup_alter_eq|by rewrite list_lookup_alter_ne].
  destruct (app_keys !! j) as [k|]; [|done]. cbn. by destruct (Hf k) as [-> ->].
Qed.
Lemma key_view_set f j m kv : (forall k, app_keys m !! j = Some k -> (app_net_idx (f k), app_app_idx (f k)) = kv k) ->
  forall i, key_view (set_app_key j f m) !! i =
    if decide (j = i) then kv <$> app_keys m !! j else key_view m !! i.
Proof.
  intros Hf i. unfold key_view, set_app_key. destruct m. cbn in *. rewrite !list_lookup_fmap.
  destruct (decide (j = i)) as [<-|Hi]; [rewrite list_lookup_alter_eq|by rewrite list_lookup_alter_ne].
  destruct (app_keys !! j) as [k|] eqn:Hk; [|done]. cbn. by rewrite Hf.
Qed.
Lemma sub_view_keys f j m : sub_view (set_app_key j f m) = sub_view m.
Proof. by destruct m. Qed.
Lemma key_view_sub f i m : key_view (set_sub m i f) = key_view m.
Proof. by destruct m. Qed.
Lemma sub_view_alter f i m : (forall s, subs m !! i = Some s -> sub_net_idx (f s) = sub_net_idx s) ->
  sub_view (set_sub m i f) = sub_view m.
Proof.
  intros Hf. unfold sub_view, set_sub. destruct m. cbn in *. apply list_eq. intros j. rewrite !list_lookup_fmap.
  destruct (decide (i = j)) as [<-|Hi]; [rewrite list_lookup_alter_eq|by rewrite list_lookup_alter_ne].
  destruct (subs !! i) as [s|] eqn:Hs; [|done]. cbn. by rewrite Hf.
Qed.
Lemma sub_view_set f i n m : (i < length (subs m))%nat -> (forall s, sub_net_idx (f s) = n) ->
  sub_view (set_sub m i f) = <[i := n]> (sub_view m).
Proof.
  intros Hi Hf. unfold sub_view, set_sub. destruct m. cbn in *. apply list_eq. intros j. rewrite list_lookup_fmap.
  destruct (decide (i = j)) as [<-|Hj].
  - rewrite list_lookup_alter_eq, list_lookup_insert_eq by by rewrite length_map.
    apply lookup_lt_is_Some in Hi as [s Hs]. rewrite Hs. cbn. by rewrite Hf.
  - rewrite list_lookup_alter_ne, list_lookup_insert_ne by done. by rewrite list_lookup_fmap.
Qed.
