(* ===== verification/CfgOk.v ===== *)
(** * The Configuration Server keeps the node consistent

    Every operation of the server is defined on messages of the length that the
    table demands (with one exception), answers within its buffers, and keeps
    the invariant of CfgWf.v. *)

From S2P Require Import Prelude NetBuf Cmac Ccm MeshCrypto NetState NetIv TransState TransTx Access Beacon Proxy CfgState CfgModels CfgSrv CfgWf.

(** What is in flash, and what the application's function writes, has the size of
    [g_sub_list]. *)
Class CfgLaws {env : CfgEnv} := {
  flash_sub_len l : c_flash_sub = Some l -> length l = MODEL_GROUP_COUNT;
  sub_init_len l : length l = MODEL_GROUP_COUNT -> length (mesh_sub_init l) = MODEL_GROUP_COUNT
}.

Lemma keys_create_ok {cfg : MeshConfig} keys key : is_block key ->
  exists k, bt_mesh_net_keys_create keys key = Ok k /\ k_net k = key.
Proof.
  intros Hk. unfold bt_mesh_net_keys_create.
  rewrite k2_spec by (done || const_bytes || (cbn; lia)). ok_simpl.
  destruct (MeshSpec.k2 key [0]) as [[nid enc] privacy]. rewrite k3_spec by done. ok_simpl.
  assert (forall s, is_bytes s -> exists v, bt_mesh_id128 key s = Ok v) as Hid.
  { intros s Hs. unfold bt_mesh_id128. rewrite s1_spec by done. ok_simpl.
    rewrite k1_spec by (by apply s1_block || apply Hk || const_bytes). by eexists. }
  unfold bt_mesh_identity_key, bt_mesh_beacon_key.
  assert (forall s, is_bytes s -> exists v, bt_mesh_id128 key s = Ok v) as Hid2 by done.
  edestruct Hid as [v1 ->]; [const_bytes|]. edestruct Hid2 as [v2 ->]; [const_bytes|].
  destruct CONFIG_GATT_PROXY; ok_simpl; by eexists.
Qed.

Section ok.
Context {cfg : MeshConfig} {env : CfgEnv} {laws : CfgLaws}.
Variable sh : composition.
Implicit Types s : node.

(** ** Access to the state *)

Lemma wf_get_model s r : node_wf sh s -> has_ref sh r -> exists m, get_model (nd_acc s) r = Some m.
Proof. intros Hw Hr. rewrite <- (nw_shape _ _ Hw) in Hr. by apply has_ref_model. Qed.
Lemma wf_get_elem s i e : node_wf sh s -> sh !! i = Some e ->
  exists el, ac_elems (nd_acc s) !! i = Some el /\ elem_shape el = e.
Proof.
  intros Hw He. rewrite <- (nw_shape _ _ Hw) in He. unfold shape in He. rewrite list_lookup_fmap in He.
  destruct (ac_elems (nd_acc s) !! i) as [el|]; [|done]. injection He as <-. eauto.
Qed.

Lemma good_node_model {T} r (f : model -> G T) Q s : node_wf sh s -> has_ref sh r ->
  (forall m, get_model (nd_acc s) r = Some m -> good sh (f m) Q s) -> good sh (stm_bind (node_model r) f) Q s.
Proof.
  intros Hw Hr Hf. destruct (wf_get_model s r Hw Hr) as [m Hm]. unfold node_model, good, stm_wp.
  rewrite (stm_bind_pure _ _ s m s); [by apply Hf|]. rewrite (stm_bind_pure _ _ s s s) by done. by rewrite Hm.
Qed.

(** The same keys, groups and kinds of models, and the same network context. *)
Definition same_models s s' : Prop :=
  nd_net s' = nd_net s /\
  forall r m', get_model (nd_acc s') r = Some m' ->
    exists m, get_model (nd_acc s) r = Some m /\ md_keys m' = md_keys m /\ md_groups m' = md_groups m /\
      (is_Some (md_pub m') <-> is_Some (md_pub m)).

#[local] Instance same_models_pre : PreOrder same_models.
Proof.
  split.
  - intros s. split; [done|]. intros r m Hm. by exists m.
  - intros s1 s2 s3 [H1 H1'] [H2 H2']. split; [congruence|]. intros r m3 Hm3.
    destruct (H2' r m3 Hm3) as (m2 & Hm2 & Hk2 & Hg2 & Hp2). destruct (H1' r m2 Hm2) as (m1 & Hm1 & Hk1 & Hg1 & Hp1).
    exists m1. split_and!; [done|congruence|congruence|by rewrite Hp2].
Qed.

Lemma wf_same ks m m' : md_keys m' = md_keys m -> md_groups m' = md_groups m -> model_wf ks m -> model_wf ks m'.
Proof. intros Hk Hg []. split; rewrite ?Hk, ?Hg; done. Qed.

(** A change of a publication. *)
Definition pub_change r (f : model_pub -> model_pub) s : node :=
  s <| nd_acc := alter_model (fun m => m <| md_pub := f <$> md_pub m |>) r (nd_acc s) |>.
Lemma pub_change_wf r f s : node_wf sh s -> node_wf sh (pub_change r f s).
Proof. intros Hw. apply wf_model; [done|done|]. intros m _ Hm. by apply (wf_same _ m). Qed.
Lemma pub_change_same r f s : same_models s (pub_change r f s).
Proof.
  split; [done|]. intros r' m'. unfold pub_change. cbn [nd_acc].
  change (nd_acc (s <| nd_acc := ?a |>)) with a. rewrite get_model_alter.
  destruct (decide (r = r')) as [<-|]; [|intros Hm; by exists m'].
  destruct (get_model (nd_acc s) r) as [m|]; [|done]. intros [= <-]. exists m. split_and!; [done..|apply fmap_is_Some].
Qed.

Lemma good_acc_pub (m : A unit) r f e Q s :
  m (nd_acc s) = Some (tt, nd_acc (pub_change r f s), e) ->
  node_wf sh s -> (forall s', node_wf sh s' -> same_models s s' -> Q tt s') -> good sh (acc m) Q s.
Proof.
  intros Hm Hw HQ. unfold good, stm_wp, acc. rewrite Hm.
  change (s <| nd_acc := nd_acc (pub_change r f s) |>) with (pub_change r f s).
  split; [by apply pub_change_wf|]. split.
  - apply Forall_map, list.Forall_true. by intros [].
  - apply HQ; [by apply pub_change_wf|apply pub_change_same].
Qed.
Lemma good_mod_pub r f Q s : node_wf sh s -> (forall s', node_wf sh s' -> same_models s s' -> Q tt s') ->
  good sh (acc (mod_pub r f)) Q s.
Proof. by eapply good_acc_pub. Qed.
Lemma good_timer_cancel r Q s : node_wf sh s -> (forall s', node_wf sh s' -> same_models s s' -> Q tt s') ->
  good sh (acc (timer_cancel r)) Q s.
Proof. by eapply good_acc_pub. Qed.
Lemma good_timer_submit r d Q s : node_wf sh s -> (forall s', node_wf sh s' -> same_models s s' -> Q tt s') ->
  good sh (acc (timer_submit r d)) Q s.
Proof. by eapply good_acc_pub. Qed.

(** A part that changes no key and no group. *)
Definition mild {T} (m : G T) : Prop := forall s, node_wf sh s -> good sh m (fun _ => same_models s) s.

Lemma mild_ret {T} (a : T) : mild (mret a).
Proof. intros s Hw. by apply good_ret. Qed.
Lemma mild_bind {T U} (m : G T) (f : T -> G U) : mild m -> (forall a, mild (f a)) -> mild (stm_bind m f).
Proof.
  intros Hm Hf s Hw. eapply good_bind; [by apply Hm|]. cbv beta. intros a s1 Hw1 H1.
  eapply good_mono; [by apply Hf|]. cbv beta. intros b s2 _ H2. by etrans.
Qed.
Lemma mild_get {T} (f : node -> G T) :
  (forall s, node_wf sh s -> good sh (f s) (fun _ => same_models s) s) -> mild (stm_bind stm_get f).
Proof. intros Hf s Hw. apply good_get. by apply Hf. Qed.
Lemma mild_emit e : Forall room_ok e -> mild (stm_emit e).
Proof. intros He s Hw. by apply good_emit. Qed.
Lemma mild_mod_pub r f : mild (acc (mod_pub r f)).
Proof. intros s Hw. by apply good_mod_pub. Qed.
Lemma mild_timer_cancel r : mild (acc (timer_cancel r)).
Proof. intros s Hw. by apply good_timer_cancel. Qed.
Lemma mild_timer_submit r d : mild (acc (timer_submit r d)).
Proof. intros s Hw. by apply good_timer_submit. Qed.

Lemma mod_pub_set_mild r addr idx cred ttl period rt : has_ref sh r -> mild (_mod_pub_set r addr idx cred ttl period rt).
Proof.
  intros Hr. apply mild_get. intros s Hw. apply good_node_model; [done..|]. intros m _.
  destruct (md_pub m) as [p|]; [|by apply mild_ret].
  do 2 (case_if; [by apply mild_ret|]). case_if.
  { apply mild_bind; [apply mild_mod_pub|intros _|done]. apply mild_bind; [|intros _; apply mild_ret].
    destruct (pub_update p); [apply mild_timer_cancel|apply mild_ret]. }
  destruct (bt_mesh_app_key_find _ _); [|by apply mild_ret].
  apply mild_bind; [apply mild_mod_pub|intros _|done]. apply mild_bind; [|intros _; apply mild_ret].
  destruct (pub_update p); [|apply mild_ret]. cbv zeta. case_if; [apply mild_timer_submit|apply mild_timer_cancel].
Qed.

(** ** Binding *)

Lemma app_key_is_valid_spec m idx : app_key_is_valid m idx = true <-> valid_idx (key_view m) idx.
Proof.
  unfold app_key_is_valid, valid_idx, key_view. rewrite existsb_exists. split.
  - intros (k & Hk & [Hv Hi]%andb_prop). exists (app_net_idx k). unfold key_valid in Hv.
    split; [by apply Z.eqb_neq, negb_true_iff|]. apply Z.eqb_eq in Hi. rewrite <- Hi.
    apply list_elem_of_fmap. exists k. split; [done|by apply list_elem_of_In].
  - intros (n & Hn & (k & [= -> ->] & Hk)%list_elem_of_fmap). exists k. split; [by apply list_elem_of_In|].
    unfold key_valid. rewrite Z.eqb_refl, andb_true_r. by apply negb_true_iff, Z.eqb_neq.
Qed.

Lemma valid_idx_range ks ns idx : keys_wf ks ns -> valid_idx ks idx -> 0 <= idx <= 0xfff.
Proof. intros Hw (n & Hn & Hin). by apply (kw_key _ _ Hw n). Qed.

Lemma wf_set_unused ks m i : model_wf ks m -> model_wf ks (m <| md_keys := <[i := BT_MESH_KEY_UNUSED]> (md_keys m) |>).
Proof.
  intros [Hlen Hgroups Hbound Honce Hdev]. assert (forall j k, <[i := BT_MESH_KEY_UNUSED]> (md_keys m) !! j = Some k ->
    k <> BT_MESH_KEY_UNUSED -> md_keys m !! j = Some k) as Hold.
  { intros j k Hj Hk. destruct (decide (i = j)) as [<-|Hij]; [|by rewrite list_lookup_insert_ne in Hj].
    apply list_lookup_insert_Some in Hj as [(_ & <- & _)|(? & _)]; done. }
  split; cbn.
  - by rewrite length_insert.
  - done.
  - intros k (j & Hj)%list_elem_of_lookup. destruct (decide (k = BT_MESH_KEY_UNUSED)) as [->|Hk]; [by left|].
    apply Hbound, list_elem_of_lookup. exists j. by apply Hold.
  - intros j j' k Hj Hj' Hk. eapply Honce; [by apply Hold|by apply Hold|done].
  - intros j Hj. apply Hdev, Hold; [done|discriminate].
Qed.

Lemma wf_set_key ks m i k : model_wf ks m -> k ∉ md_keys m -> valid_idx ks k -> k <> BT_MESH_KEY_DEV ->
  model_wf ks (m <| md_keys := <[i := k]> (md_keys m) |>).
Proof.
  intros [Hlen Hgroups Hbound Honce Hdev] Hk Hv Hd. assert (forall j x, <[i := k]> (md_keys m) !! j = Some x -> (j = i /\ x = k) \/
    (j <> i /\ md_keys m !! j = Some x)) as Hj.
  { intros j x [(-> & -> & _)|(? & ?)]%list_lookup_insert_Some; [by left|by right]. }
  assert (forall j x, md_keys m !! j = Some x -> x <> k) as Hne.
  { intros j x Hx ->. by apply Hk, list_elem_of_lookup; exists j. }
  split; cbn.
  - by rewrite length_insert.
  - done.
  - intros x (j & [[-> ->]|[_ Hx]]%Hj)%list_elem_of_lookup; [by right; right|].
    apply Hbound, list_elem_of_lookup. by exists j.
  - intros j j' x [[-> ->]|[Hji Hx]]%Hj [[-> Hxk]|[Hji' Hx']]%Hj Hu; [done|by destruct (Hne _ _ Hx')| |by eapply Honce].
    by destruct (Hne _ _ Hx).
  - intros j [[-> Hx]|[_ Hx]]%Hj; [by destruct Hd|by apply Hdev].
Qed.

Lemma good_mod_model r f Q s : node_wf sh s -> (forall m, model_ids (f m) = model_ids m) ->
  (forall m, get_model (nd_acc s) r = Some m -> model_wf (key_view (nd_net s)) m -> model_wf (key_view (nd_net s)) (f m)) ->
  Q tt (s <| nd_acc := alter_model f r (nd_acc s) |>) -> good sh (mod_model r f) Q s.
Proof. intros Hw Hi Hf HQ. by apply good_modify; [apply wf_model|]. Qed.

Lemma mod_bind_ok r idx s : node_wf sh s -> has_ref sh r ->
  good sh (mod_bind r idx) (fun _ s' => nd_net s' = nd_net s) s.
Proof.
  intros Hw Hr. unfold mod_bind. good_step. apply good_node_model; [done..|]. intros m Hm.
  destruct (app_key_is_valid (nd_net s) idx) eqn:Hv; cbn [negb]; [|by good_step].
  apply app_key_is_valid_spec in Hv. destruct (existsb _ (md_keys m)) eqn:He; [by good_step|].
  destruct (find_index _ (md_keys m)) as [i|]; [|by good_step].
  eapply good_bind; [|intros ? s' Hw' Hs'; apply good_ret; [done|exact Hs']].
  apply good_mod_model; [done|done| |done]. intros m' Hm' Hw'. replace m' with m by congruence.
  replace m' with m in Hw' by congruence. apply wf_set_key; [done| |done|].
  - intros Hin. apply not_true_iff_false in He. apply He, existsb_exists. exists idx.
    split; [by apply list_elem_of_In|apply Z.eqb_refl].
  - intros ->. pose proof (valid_idx_range _ _ _ (nw_keys _ _ Hw) Hv). unfold BT_MESH_KEY_DEV in *. lia.
Qed.

(** Models are bound to no more keys than before. *)
Definition less_bound s s' : Prop :=
  nd_net s' = nd_net s /\
  forall r m', get_model (nd_acc s') r = Some m' ->
    exists m, get_model (nd_acc s) r = Some m /\ forall k, k ∈ md_keys m' -> k = BT_MESH_KEY_UNUSED \/ k ∈ md_keys m.
#[local] Instance less_bound_pre : PreOrder less_bound.
Proof.
  split.
  - intros s. split; [done|]. eauto.
  - intros s1 s2 s3 [H1 H1'] [H2 H2']. split; [congruence|]. intros r m3 Hm3.
    destruct (H2' r m3 Hm3) as (m2 & Hm2 & Hk2). destruct (H1' r m2 Hm2) as (m1 & Hm1 & Hk1).
    exists m1. split; [done|]. intros k Hk. destruct (Hk2 k Hk); [by left|auto].
Qed.
Lemma same_less_bound s s' : same_models s s' -> less_bound s s'.
Proof.
  intros [Hn Hm]. split; [done|]. intros r m' Hm'. destruct (Hm r m' Hm') as (m & ? & Hk & _ & _).
  exists m. split; [done|]. rewrite Hk. auto.
Qed.

Definition bound s r k : Prop := exists m, get_model (nd_acc s) r = Some m /\ k ∈ md_keys m.
Lemma less_bound_not s s' r k : less_bound s s' -> k <> BT_MESH_KEY_UNUSED -> ~ bound s r k -> ~ bound s' r k.
Proof.
  intros [_ H] Hk Hn (m' & Hm' & Hin). destruct (H r m' Hm') as (m & Hm & Hsub).
  destruct (Hsub k Hin); [done|]. apply Hn. by exists m.
Qed.

Lemma mod_unbind_ok r idx s : node_wf sh s -> has_ref sh r -> valid_idx (key_view (nd_net s)) idx ->
  good sh (mod_unbind r idx) (fun _ s' => less_bound s s' /\ ~ bound s' r idx) s.
Proof.
  intros Hw Hr Hv. pose proof (valid_idx_range _ _ _ (nw_keys _ _ Hw) Hv) as Hrange. unfold mod_unbind. good_step.
  apply good_node_model; [done..|]. intros m Hm. apply app_key_is_valid_spec in Hv. rewrite Hv. cbn [negb].
  destruct (find_index _ (md_keys m)) as [i|] eqn:Hi.
  2:{ apply good_ret; [done|]. split; [done|]. intros (m' & Hm' & Hin). replace m' with m in Hin by congruence.
      apply find_index_None in Hi. eapply list.Forall_forall in Hi; [|exact Hin]. cbv beta in Hi.
      by rewrite Z.eqb_refl in Hi. }
  apply find_index_Some in Hi as (x & Hx & ->%Z.eqb_eq).
  eapply good_bind with (P := fun _ s' => less_bound s s' /\ ~ bound s' r idx).
  { apply good_mod_model; [done|done|intros m' _; apply wf_set_unused|].
    set (s' := s <| nd_acc := _ |>). assert (less_bound s s') as Hless.
    { split; [done|]. intros r' m'. unfold s'. change (nd_acc (s <| nd_acc := ?a |>)) with a.
      rewrite get_model_alter. destruct (decide (r = r')) as [<-|]; [|eauto]. rewrite Hm. intros [= <-].
      exists m. split; [done|]. intros k. cbn. rewrite list_elem_of_lookup.
      intros (j & [(_ & -> & _)|(_ & Hj)]%list_lookup_insert_Some); [by left|right].
      apply list_elem_of_lookup. by exists j. }
    split; [done|]. intros (m' & Hm' & Hin). revert Hm'. unfold s'. change (nd_acc (s <| nd_acc := ?a |>)) with a.
    rewrite get_model_alter, decide_True, Hm by done. intros [= <-]. revert Hin. cbn. rewrite list_elem_of_lookup.
    intros (j & [(_ & Hu & _)|(Hij & Hj)]%list_lookup_insert_Some).
    - unfold BT_MESH_KEY_UNUSED in Hu. lia.
    - apply Hij. eapply (mw_once _ _ (nw_models _ _ Hw r m Hm)); [exact Hx|exact Hj|unfold BT_MESH_KEY_UNUSED; lia]. }
  intros _ s1 Hw1 [Hl1 Hn1]. eapply good_bind; [|intros ? s2 Hw2 H2; apply good_ret; [done|exact H2]].
  assert (mild (_mod_pub_set r BT_MESH_ADDR_UNASSIGNED 0 false 0 0 0)) as Hpub by by apply mod_pub_set_mild.
  destruct (from_option _ _ _); [|by apply good_ret].
  eapply good_bind; [by apply Hpub|]. cbv beta. intros _ s2 Hw2 H2%same_less_bound. apply good_ret; [done|].
  split; [by etrans|]. eapply less_bound_not; [exact H2|unfold BT_MESH_KEY_UNUSED; lia|done].
Qed.

(** ** Deleting keys *)

(** After a loop over models that unbinds a key, none of them is bound to it. *)
Lemma unbind_refs_ok idx rs s : node_wf sh s -> Forall (has_ref sh) rs -> valid_idx (key_view (nd_net s)) idx ->
  good sh (for_refs rs (fun r => mod_unbind r idx ;; mret tt))
    (fun _ s' => less_bound s s' /\ forall r, r ∈ rs -> ~ bound s' r idx) s.
Proof.
  revert s. induction rs as [|r rs IH]; intros s Hw Hrs Hv; cbn [for_refs].
  { apply good_ret; [done|]. split; [done|]. by intros r ?%elem_of_nil. }
  apply Forall_cons_iff in Hrs as [Hr Hrs].
  eapply good_bind with (P := fun _ s1 => less_bound s s1 /\ ~ bound s1 r idx).
  { eapply good_bind; [by apply mod_unbind_ok|]. cbv beta. intros _ s1 Hw1 H1. by apply good_ret. }
  cbv beta. intros _ s1 Hw1 [Hl1 Hn1]. eapply good_mono; [apply IH; [done|done|by destruct Hl1 as [-> _]]|]. cbv beta.
  intros _ s2 _ [Hl2 Hn2]. split; [by etrans|]. intros r' [->|Hin]%elem_of_cons; [|by apply Hn2].
  eapply less_bound_not; [exact Hl2| |done].
  pose proof (valid_idx_range _ _ _ (nw_keys _ _ Hw) Hv). unfold BT_MESH_KEY_UNUSED. lia.
Qed.

(** Key [j] is no longer in use. *)
Definition drop_key (j : nat) (ks : list (Z * Z)) : list (Z * Z) := alter (fun e => (BT_MESH_KEY_UNUSED, e.2)) j ks.
Lemma drop_key_lookup j ks i n idx : drop_key j ks !! i = Some (n, idx) -> n <> BT_MESH_KEY_UNUSED ->
  ks !! i = Some (n, idx) /\ i <> j.
Proof.
  unfold drop_key. destruct (decide (j = i)) as [<-|Hi].
  - rewrite list_lookup_alter_eq. destruct (ks !! j) as [[? ?]|]; [|done]. by intros [= <- <-].
  - rewrite list_lookup_alter_ne by done. done.
Qed.
Lemma drop_keys_wf j ks ns : keys_wf ks ns -> keys_wf (drop_key j ks) ns.
Proof.
  intros [Hl Hsl Hkey Hidx Hsub Hsubs]. split; try done.
  - unfold drop_key. by rewrite length_alter.
  - intros n idx (i & Hi)%list_elem_of_lookup Hn. apply drop_key_lookup in Hi as [Hi _]; [|done].
    apply Hkey; [|done]. apply list_elem_of_lookup. by exists i.
  - intros i i' n idx n' Hi Hi' Hn Hn'. apply drop_key_lookup in Hi as [Hi _]; [|done].
    apply drop_key_lookup in Hi' as [Hi' _]; [|done]. by eapply Hidx.
Qed.
Lemma drop_model_wf j ks ns n idx m : keys_wf ks ns -> ks !! j = Some (n, idx) -> n <> BT_MESH_KEY_UNUSED ->
  model_wf ks m -> idx ∉ md_keys m -> model_wf (drop_key j ks) m.
Proof.
  intros Hks Hj Hn [Hl Hg Hb Ho Hd] Hidx. split; try done. intros k Hk.
  destruct (Hb k Hk) as [?|[?|(n' & Hn' & (i & Hi)%list_elem_of_lookup)]]; [by left|by right; left|right; right].
  exists n'. split; [done|]. apply list_elem_of_lookup. exists i. unfold drop_key.
  rewrite list_lookup_alter_ne; [done|]. intros ->. congruence.
Qed.

Lemma key_view_drop j f m : (forall k, app_net_idx (f k) = BT_MESH_KEY_UNUSED /\ app_app_idx (f k) = app_app_idx k) ->
  key_view (set_app_key j f m) = drop_key j (key_view m).
Proof.
  intros Hf. apply list_eq. intros i. rewrite (key_view_set f j m (fun k => (BT_MESH_KEY_UNUSED, app_app_idx k))).
  - unfold drop_key, key_view. destruct (decide (j = i)) as [<-|Hi].
    + rewrite list_lookup_alter_eq, list_lookup_fmap. by destruct (app_keys m !! j).
    + by rewrite list_lookup_alter_ne.
  - intros k _. by destruct (Hf k) as [-> ->].
Qed.

Lemma app_key_del_ok j key s : node_wf sh s -> app_keys (nd_net s) !! j = Some key -> key_valid key = true ->
  good sh (_app_key_del j) (fun _ s' => key_view (nd_net s') = drop_key j (key_view (nd_net s)) /\
    sub_view (nd_net s') = sub_view (nd_net s)) s.
Proof.
  intros Hw Hj Hk. apply negb_true_iff, Z.eqb_neq in Hk. unfold _app_key_del. good_step.
  apply (good_of_option _ _ _ _ _ key); [done|]. cbv beta.
  assert (key_view (nd_net s) !! j = Some (app_net_idx key, app_app_idx key)) as Hvj
    by (unfold key_view; by rewrite list_lookup_fmap, Hj).
  eapply good_bind.
  { unfold model_foreach. good_step. apply (unbind_refs_ok (app_app_idx key)); [done| |].
    - apply list.Forall_forall. intros r Hr. apply model_refs_all in Hr. by rewrite (nw_shape _ _ Hw) in Hr.
    - exists (app_net_idx key). split; [done|]. apply list_elem_of_lookup. by exists j. }
  cbv beta. intros _ s1 Hw1 [[Hn1 _] Hu1]. unfold mod_net.
  set (g := fun k : app_key => _). set (net := set_app_key j g (nd_net s1)).
  assert (key_view net = drop_key j (key_view (nd_net s))) as Hkv.
  { unfold net. rewrite key_view_drop by done. by rewrite Hn1. }
  assert (sub_view net = sub_view (nd_net s)) as Hsv by (unfold net; rewrite sub_view_keys; by rewrite Hn1).
  apply good_modify; [|done]. destruct Hw1 as [Hks Hms Hshape Hfits Hlist Hconf Hmodel].
  rewrite Hn1 in Hks, Hms. split; try done; cbn [nd_net nd_acc update_field].
  - change (keys_wf (key_view net) (sub_view net)). rewrite Hkv, Hsv. by apply drop_keys_wf.
  - change (models_wf (key_view net) (nd_acc s1)). rewrite Hkv. intros r m Hm.
    eapply drop_model_wf; [done|done|done|by eapply Hms|]. intros Hin. apply (Hu1 r); [|by exists m].
    apply model_refs_all. rewrite (nw_shape _ _ Hw), <- Hshape. apply has_ref_model. by rewrite Hm.
Qed.

(** A loop that deletes the keys of some kind: what it leaves of that kind are
    the keys that it has not come to. *)
Lemma app_keys_del_ok (p : app_key -> bool) (q : Z * Z -> bool) js s :
  (forall k, p k = q (app_net_idx k, app_app_idx k)) -> (forall n idx, q (n, idx) = true -> n <> BT_MESH_KEY_UNUSED) ->
  node_wf sh s -> Forall (fun j => j < length (app_keys (nd_net s)))%nat js ->
  good sh (app_keys_del p js) (fun _ s' =>
    (forall i e, key_view (nd_net s') !! i = Some e -> q e = true -> key_view (nd_net s) !! i = Some e /\ i ∉ js) /\
    sub_view (nd_net s') = sub_view (nd_net s) /\
    length (app_keys (nd_net s')) = length (app_keys (nd_net s))) s.
Proof.
  intros Hpq Hq. revert s. induction js as [|j js IH]; intros s Hw Hjs; cbn [app_keys_del].
  { apply good_ret; [done|]. split; [|done]. intros i e Hi _. split; [done|by intros ?%elem_of_nil]. }
  apply Forall_cons_iff in Hjs as [Hj Hjs]. good_step. apply lookup_lt_is_Some in Hj as [key Hkey].
  apply (good_of_option _ _ _ _ _ key); [done|]. cbv beta.
  eapply good_bind with (P := fun _ s1 =>
    (forall i e, key_view (nd_net s1) !! i = Some e -> q e = true -> key_view (nd_net s) !! i = Some e /\ i <> j) /\
    sub_view (nd_net s1) = sub_view (nd_net s) /\
    length (app_keys (nd_net s1)) = length (app_keys (nd_net s))).
  - destruct (p key) eqn:Hp.
    + rewrite Hpq in Hp. eapply good_mono; [apply (app_key_del_ok j key); [done|done|]|].
      { apply negb_true_iff, Z.eqb_neq. by eapply Hq. }
      cbv beta. intros _ s1 _ [Hk1 Hs1]. split_and!; [|done|].
      * intros i [n idx]. rewrite Hk1. intros Hi He. apply drop_key_lookup in Hi as [Hi ?]; [done|by eapply Hq].
      * assert (length (key_view (nd_net s1)) = length (key_view (nd_net s))) as Hl
          by (rewrite Hk1; unfold drop_key; by rewrite length_alter).
        unfold key_view in Hl. by rewrite !length_map in Hl.
    + apply good_ret; [done|]. split; [|done]. intros i e Hi He. split; [done|]. intros ->.
      unfold key_view in Hi. rewrite list_lookup_fmap, Hkey in Hi. injection Hi as <-. by rewrite <- Hpq, Hp in He.
  - cbv beta. intros _ s1 Hw1 (Hk1 & Hs1 & Hl1). eapply good_mono; [apply IH; [done|by rewrite Hl1]|]. cbv beta.
    intros _ s2 _ (Hk2 & Hs2 & Hl2). split_and!; [|congruence|congruence]. intros i e Hi He.
    destruct (Hk2 i e Hi He) as [Hi1 Hni]. destruct (Hk1 i e Hi1 He) as [Hi0 Hij]. split; [done|].
    rewrite not_elem_of_cons. done.
Qed.

Lemma all_app_keys_del_ok (p : app_key -> bool) (q : Z * Z -> bool) s :
  (forall k, p k = q (app_net_idx k, app_app_idx k)) -> (forall n idx, q (n, idx) = true -> n <> BT_MESH_KEY_UNUSED) ->
  node_wf sh s ->
  good sh (all_app_keys_del p) (fun _ s' => Forall (fun e => q e = false) (key_view (nd_net s')) /\
    sub_view (nd_net s') = sub_view (nd_net s)) s.
Proof.
  intros Hpq Hq Hw. unfold all_app_keys_del. good_step. eapply good_mono.
  - apply (app_keys_del_ok p q); [done..|]. apply list.Forall_forall. intros j Hj%elem_of_seq. lia.
  - cbv beta. intros _ s' _ (Hk & Hs & Hl). split; [|done]. apply list.Forall_forall.
    intros e (i & Hi)%list_elem_of_lookup. destruct (q e) eqn:He; [|done]. destruct (Hk i e Hi He) as [Hi0 Hni].
    destruct Hni. apply elem_of_seq. apply lookup_lt_Some in Hi0. unfold key_view in Hi0. rewrite length_map in Hi0. lia.
Qed.
End ok.
