(* ===== verification/CfgSafe.v ===== *)
(** * Every message for the Configuration Server is handled (CfgSrv.v)

    The handlers one by one, then the server: it is defined on every message, but
    for one length of one message; it answers within its buffers; and the
    invariant of CfgWf.v holds at every step. *)

From S2P Require Import Prelude NetBuf Cmac Ccm MeshCrypto NetState NetIv TransState TransTx Access Beacon Proxy CfgState CfgModels CfgSrv CfgWf CfgOk.

Section safe.
Context {cfg : MeshConfig} {env : CfgEnv} {laws : CfgLaws}.
Variable sh : composition.
Implicit Types s : node.

Notation anywhere := (fun _ _ => True).

(** ** Subnets and keys by index *)

Lemma subnet_get_Some m idx i : bt_mesh_subnet_get m idx = Some i -> idx <> BT_MESH_KEY_ANY ->
  exists sub, subs m !! i = Some sub /\ sub_net_idx sub = idx.
Proof.
  unfold bt_mesh_subnet_get. intros H Hi. apply Z.eqb_neq in Hi. rewrite Hi in H.
  apply find_index_Some in H as (sub & Hs & ?%Z.eqb_eq). eauto.
Qed.
Lemma subnet_get_view m idx i : bt_mesh_subnet_get m idx = Some i -> idx <> BT_MESH_KEY_ANY -> sub_view m !! i = Some idx.
Proof. intros H Hi. destruct (subnet_get_Some _ _ _ H Hi) as (s & Hs & <-). unfold sub_view. by rewrite list_lookup_fmap, Hs. Qed.
Lemma subnet_get_None m idx : bt_mesh_subnet_get m idx = None -> idx ∉ sub_view m.
Proof.
  unfold bt_mesh_subnet_get. destruct (idx =? BT_MESH_KEY_ANY); [done|]. intros H%find_index_None Hin.
  apply list_elem_of_fmap in Hin as (s & -> & Hs). eapply list.Forall_forall in H; [|exact Hs]. cbv beta in H.
  by rewrite Z.eqb_refl in H.
Qed.
Lemma sub_slot s i : node_wf sh s -> (exists n, sub_view (nd_net s) !! i = Some n) -> exists sub, subs (nd_net s) !! i = Some sub.
Proof.
  intros _ [n Hn]. unfold sub_view in Hn. rewrite list_lookup_fmap in Hn. destruct (subs (nd_net s) !! i); [eauto|done].
Qed.

Lemma good_sub_of {T} i (f : subnet -> G T) Q s m : (exists sub, subs m !! i = Some sub) ->
  (forall sub, subs m !! i = Some sub -> good sh (f sub) Q s) -> good sh (stm_bind (sub_of m i) f) Q s.
Proof. intros [sub Hs] Hf. unfold sub_of. rewrite Hs. apply good_ret_bind. by apply Hf. Qed.

Lemma keys_wf_set j net_idx app_idx ks ns : keys_wf ks ns ->
  (forall i n, i <> j -> ks !! i = Some (n, app_idx) -> n = BT_MESH_KEY_UNUSED) ->
  0 <= app_idx <= 0xfff -> net_idx ∈ ns -> keys_wf (<[j := (net_idx, app_idx)]> ks) ns.
Proof.
  intros [Hl Hsl Hkey Hidx Hsub Hsubs] Hfree Hr Hin. split; try done.
  - by rewrite length_insert.
  - intros n idx (i & Hi)%list_elem_of_lookup Hn.
    apply list_lookup_insert_Some in Hi as [(_ & [= <- <-] & _)|(_ & Hi)]; [done|].
    apply Hkey; [|done]. apply list_elem_of_lookup. by exists i.
  - intros i i' n idx n' Hi Hi' Hn Hn'. apply list_lookup_insert_Some in Hi as [(<- & [= <- <-] & _)|(Hij & Hi)].
    + apply list_lookup_insert_Some in Hi' as [(<- & _)|(Hij & Hi')]; [done|]. by destruct Hn'; apply (Hfree i').
    + apply list_lookup_insert_Some in Hi' as [(<- & [= <- <-] & _)|(_ & Hi')]; [|by eapply Hidx].
      by destruct Hn; apply (Hfree i).
Qed.

(** *** Application keys *)

Lemma set_key_view j net_idx app_idx f m : (j < length (app_keys m))%nat ->
  (forall k, app_net_idx (f k) = net_idx /\ app_app_idx (f k) = app_idx) ->
  key_view (set_app_key j f m) = <[j := (net_idx, app_idx)]> (key_view m).
Proof.
  intros Hj Hf. apply list_eq. intros i. rewrite (key_view_set f j m (fun _ => (net_idx, app_idx))).
  - destruct (decide (j = i)) as [<-|Hi]; [|by rewrite list_lookup_insert_ne].
    rewrite list_lookup_insert_eq by (unfold key_view; by rewrite length_map).
    apply lookup_lt_is_Some in Hj as [k Hk]. by rewrite Hk.
  - intros k _. by destruct (Hf k) as [-> ->].
Qed.

Lemma wf_set_app_key j net_idx app_idx f s : node_wf sh s -> (j < length (app_keys (nd_net s)))%nat ->
  (forall k, app_net_idx (f k) = net_idx /\ app_app_idx (f k) = app_idx) ->
  (key_view (nd_net s) !! j = Some (net_idx, app_idx) \/
   0 <= app_idx <= 0xfff /\ net_idx ∈ sub_view (nd_net s) /\ net_idx <> BT_MESH_KEY_UNUSED /\
   (exists old, key_view (nd_net s) !! j = Some (BT_MESH_KEY_UNUSED, old)) /\
   forall i n, key_view (nd_net s) !! i = Some (n, app_idx) -> n = BT_MESH_KEY_UNUSED) ->
  node_wf sh (s <| nd_net := set_app_key j f (nd_net s) |>).
Proof.
  intros Hw Hj Hf [Hold|(Hr & Hin & Hne & (old & Hold) & Hfree)].
  { apply wf_net; [done| |by rewrite sub_view_keys]. rewrite (set_key_view j net_idx app_idx) by done.
    by rewrite list_insert_id. }
  destruct Hw as [Hks Hms Hshape Hfits Hlist Hconf Hmodel]. set (m := set_app_key j f (nd_net s)).
  assert (key_view m = <[j := (net_idx, app_idx)]> (key_view (nd_net s))) as Hkv by by apply set_key_view.
  assert (sub_view m = sub_view (nd_net s)) as Hsv by apply sub_view_keys.
  split; try done.
  - change (keys_wf (key_view m) (sub_view m)). rewrite Hkv, Hsv. apply keys_wf_set; [done| |done|done].
    intros i n _. apply Hfree.
  - change (models_wf (key_view m) (nd_acc s)). rewrite Hkv. intros r md Hmd.
    destruct (Hms r md Hmd) as [Hl Hg Hb Ho Hd]. split; try done. intros k Hk.
    destruct (Hb k Hk) as [?|[?|(n & Hn & (i & Hi)%list_elem_of_lookup)]]; [by left|by right; left|right; right].
    exists n. split; [done|]. apply list_elem_of_lookup. exists i. rewrite list_lookup_insert_ne; [done|].
    intros <-. congruence.
Qed.

Lemma app_key_store_ok j net_idx app_idx val update s : node_wf sh s -> is_block val ->
  (j < length (app_keys (nd_net s)))%nat ->
  (key_view (nd_net s) !! j = Some (net_idx, app_idx) \/
   0 <= app_idx <= 0xfff /\ net_idx ∈ sub_view (nd_net s) /\ net_idx <> BT_MESH_KEY_UNUSED /\
   (exists old, key_view (nd_net s) !! j = Some (BT_MESH_KEY_UNUSED, old)) /\
   forall i n, key_view (nd_net s) !! i = Some (n, app_idx) -> n = BT_MESH_KEY_UNUSED) ->
  good sh (app_key_store j net_idx app_idx val update) anywhere s.
Proof.
  intros Hw Hval Hj H. unfold app_key_store, bt_mesh_app_id. rewrite k4_spec by done.
  apply good_seq; [|intros _ s' Hw'; by apply good_ret]. apply good_modify; [|done].
  apply (wf_set_app_key j net_idx app_idx); [done|done| |done]. intros k. by destruct update.
Qed.

Lemma slot_view m idx j : app_key_slot m idx = Some j ->
  exists key, app_keys m !! j = Some key /\ app_net_idx key <> BT_MESH_KEY_UNUSED /\ app_app_idx key = idx.
Proof.
  intros (k & Hk & [Hv Hi]%andb_prop)%find_index_Some. exists k. split; [done|].
  split; [by apply Z.eqb_neq, negb_true_iff|by apply Z.eqb_eq].
Qed.
Lemma no_slot_view m idx : app_key_slot m idx = None ->
  forall i n, key_view m !! i = Some (n, idx) -> n = BT_MESH_KEY_UNUSED.
Proof.
  intros H%find_index_None i n Hi. unfold key_view in Hi. rewrite list_lookup_fmap in Hi.
  destruct (app_keys m !! i) as [k|] eqn:Hk; [|done]. injection Hi as <- <-.
  eapply list.Forall_forall in H; [|by eapply list_elem_of_lookup_2]. cbv beta in H. unfold key_valid in H.
  rewrite Z.eqb_refl, andb_true_r in H. by apply negb_false_iff, Z.eqb_eq in H.
Qed.

Lemma app_key_set_ok net_idx app_idx val update s : node_wf sh s -> is_block val ->
  0 <= net_idx <= 0xfff -> 0 <= app_idx <= 0xfff -> good sh (app_key_set net_idx app_idx val update) anywhere s.
Proof.
  intros Hw Hval Hn Ha. unfold app_key_set. good_step. assert (net_idx <> BT_MESH_KEY_ANY) as Hne
    by (unfold BT_MESH_KEY_ANY; lia). assert (net_idx <> BT_MESH_KEY_UNUSED) as Hnu by done.
  destruct (bt_mesh_subnet_get (nd_net s) net_idx) as [i|] eqn:Hi; [|by apply good_ret].
  destruct (subnet_get_Some _ _ _ Hi Hne) as (sub & Hsub & _). apply (good_of_option _ _ _ _ _ sub); [done|]. cbv beta.
  destruct (app_key_slot (nd_net s) app_idx) as [j|] eqn:Hslot.
  - destruct (slot_view _ _ _ Hslot) as (key & Hkey & Hkn & Hka). rewrite Hkey. cbn [fmap option_fmap option_map].
    apply good_ret_bind. destruct update; [|by apply good_ret].
    destruct (Z.eqb_spec (app_net_idx key) net_idx) as [Heq|]; cbn [negb]; [|by apply good_ret].
    do 2 (case_if; [by apply good_ret|]).
    assert (key_view (nd_net s) !! j = Some (net_idx, app_idx)) as Hv
      by (unfold key_view; by rewrite list_lookup_fmap, Hkey, <- Heq, <- Hka).
    set (f := fun k : app_key => k <| app_updated := true |>).
    assert (key_view (set_app_key j f (nd_net s)) = key_view (nd_net s)) as Hkv by by apply key_view_alter.
    eapply good_bind with (P := fun _ s1 => s1 = s <| nd_net := set_app_key j f (nd_net s) |>).
    { apply good_modify; [|done]. apply wf_net; [done|done|by apply sub_view_keys]. }
    cbv beta. intros _ s1 Hw1 ->. apply app_key_store_ok; [done|done| |].
    + change (j < length (app_keys (set_app_key j f (nd_net s))))%nat. unfold set_app_key.
      change (j < length (alter f j (app_keys (nd_net s))))%nat. rewrite length_alter. by eapply lookup_lt_Some.
    + left. change (key_view (set_app_key j f (nd_net s)) !! j = Some (net_idx, app_idx)). by rewrite Hkv.
  - apply good_ret_bind. destruct update; [by apply good_ret|].
    destruct (app_key_alloc (nd_net s)) as [j|] eqn:Hal; [|by apply good_ret].
    apply find_index_Some in Hal as (key & Hkey & Hu%Z.eqb_eq). apply app_key_store_ok; [done|done| |].
    + by eapply lookup_lt_Some.
    + right. split; [done|]. split; [by eapply list_elem_of_lookup_2, subnet_get_view|]. split; [done|].
      split; [|by apply no_slot_view]. exists (app_app_idx key). unfold key_view. by rewrite list_lookup_fmap, Hkey, <- Hu.
Qed.

(** ** Elements and models *)

Lemma find_index_hit {X} (p : X -> bool) l x : x ∈ l -> p x = true -> exists k, find_index p l = Some k /\ (k < length l)%nat.
Proof.
  intros Hin Hp. destruct (find_index p l) as [k|] eqn:Hk.
  - exists k. split; [done|]. apply find_index_Some in Hk as (y & Hy & _). by eapply lookup_lt_Some.
  - apply find_index_None in Hk. eapply list.Forall_forall in Hk; [|exact Hin]. cbv beta in Hk. congruence.
Qed.

Lemma elem_models_len el e vnd : elem_shape el = e -> length (models_of el vnd) = length (if vnd then e.2 else e.1.2).
Proof. intros <-. destruct vnd; cbn; by rewrite length_map. Qed.

Lemma for_models_ok i (e : Z * list (Z * Z) * list (Z * Z)) (vnd : bool) (js : list nat) (body : model_ref -> G unit) s : sh !! i = Some e -> Forall (fun j => j < length (if vnd then e.2 else e.1.2))%nat js ->
  (forall (r : model_ref) s, node_wf sh s -> has_ref sh r -> good sh (body r) anywhere s) ->
  node_wf sh s -> good sh (for_models i vnd js body) anywhere s.
Proof.
  intros He Hjs Hbody. revert s. induction js as [|j js IH]; intros s Hw; cbn [for_models]; [by apply good_ret|].
  apply Forall_cons_iff in Hjs as [Hj Hjs]. good_step. destruct (wf_get_elem sh s i e Hw He) as (el & Hel & Hsh).
  apply (good_of_option _ _ _ _ _ el); [done|]. cbv beta. rewrite <- (elem_models_len el e vnd Hsh) in Hj.
  apply lookup_lt_is_Some in Hj as [m Hm]. apply (good_of_option _ _ _ _ _ m); [done|]. cbv beta.
  pose proof (list_elem_of_lookup_2 _ _ _ Hm) as Hin.
  assert (exists k, (if vnd then bt_mesh_model_find_vnd el (md_company m) (md_id m) else bt_mesh_model_find el (md_id m)) = Some k /\
    (k < length (models_of el vnd))%nat) as (k & Hk & Hlt).
  { destruct vnd; (eapply find_index_hit; [exact Hin|]); by rewrite ?Z.eqb_refl. }
  apply (good_of_option _ _ _ _ _ k); [done|]. cbv beta. apply good_seq; [|by intros _ s1 Hw1; apply IH].
  apply Hbody; [done|]. exists e. split; [done|]. cbn. by rewrite <- (elem_models_len el e vnd Hsh).
Qed.

Lemma for_elem_models_ok i (e : Z * list (Z * Z) * list (Z * Z)) (body : model_ref -> G unit) s : sh !! i = Some e ->
  (forall (r : model_ref) s, node_wf sh s -> has_ref sh r -> good sh (body r) anywhere s) ->
  node_wf sh s -> good sh (for_elem_models i body) anywhere s.
Proof.
  intros He Hbody Hw. unfold for_elem_models. good_step. destruct (wf_get_elem sh s i e Hw He) as (el & Hel & Hsh).
  apply (good_of_option _ _ _ _ _ el); [done|]. cbv beta.
  apply good_seq; [|intros _ s1 Hw1]; (eapply for_models_ok; [exact He| |done|done]);
    apply list.Forall_forall; intros j Hj%elem_of_seq.
  - rewrite <- (elem_models_len el e false Hsh). cbn [models_of]. lia.
  - rewrite <- (elem_models_len el e true Hsh). cbn [models_of]. lia.
Qed.

Lemma copy_sub_list_ok r s : node_wf sh s -> has_ref sh r -> good sh (copy_sub_list r) anywhere s.
Proof.
  intros Hw Hr. unfold copy_sub_list. good_step. apply good_mod_model; [done|done| |done].
  intros m _ []. split; try done. by apply (nw_list _ _ Hw).
Qed.

Lemma elem_find_shape s addr i : node_wf sh s -> bt_mesh_elem_find (nd_acc s) addr = Some i ->
  exists el, ac_elems (nd_acc s) !! i = Some el /\ sh !! i = Some (elem_shape el).
Proof.
  intros Hw (el & Hel & _)%find_index_Some. exists el. split; [done|].
  rewrite <- (nw_shape _ _ Hw). unfold shape. by rewrite list_lookup_fmap, Hel.
Qed.

Lemma setup_elems_ok n i s : node_wf sh s -> good sh (setup_elems n i) anywhere s.
Proof.
  revert i s. induction n as [|n IH]; intros i s Hw; cbn [setup_elems]; [by apply good_ret|]. good_step.
  destruct (bt_mesh_elem_find _ _) as [k|] eqn:Hk; [|by apply good_ret].
  destruct (elem_find_shape s _ k Hw Hk) as (el & _ & Hsh). apply good_seq; [|by intros _ s1 Hw1; apply IH].
  eapply for_elem_models_ok; [exact Hsh| |done]. intros r s1 Hw1 Hr.
  apply good_seq; [|by intros _ s2 Hw2; apply copy_sub_list_ok].
  eapply good_mono; [by apply mod_bind_ok|done].
Qed.

Lemma sub_list_init_ok s : node_wf sh s -> good sh genie_sub_list_init anywhere s.
Proof.
  intros Hw. unfold genie_sub_list_init. destruct c_flash_sub as [l|] eqn:Hl.
  - apply good_modify; [|done]. apply wf_list; [done|by apply flash_sub_len].
  - apply good_seq.
    + apply good_modify; [|done]. apply wf_list; [done|]. apply sub_init_len, (nw_list _ _ Hw).
    + intros _ s1 Hw1. good_step. apply good_emit; [done|by repeat constructor|done].
Qed.

Lemma good_find_model {T} addr buf (f : bool * (Z + model_ref) -> G T) Q s : node_wf sh s -> (2 <= length buf)%nat ->
  (forall (vnd : bool) mod_, ((if vnd then 4 else 2) <= length buf)%nat ->
    match mod_ with inl status => status <> STATUS_SUCCESS | inr r => has_ref sh r end -> good sh (f (vnd, mod_)) Q s) ->
  good sh (stm_bind (find_model addr buf) f) Q s.
Proof.
  intros Hw Hl Hf. unfold find_model. do 2 good_step.
  destruct (bt_mesh_elem_find (nd_acc s) addr) as [i|] eqn:Hi.
  2:{ good_step. apply Hf; [|done]. destruct (Nat.eqb_spec (length buf) 4); lia. }
  destruct (elem_find_shape s _ i Hw Hi) as (el & Hel & Hsh).
  good_step. apply (good_of_option _ _ _ _ _ el); [done|]. cbv beta. unfold get_model_id.
  assert (forall vnd k, (k < length (models_of el vnd))%nat -> has_ref sh (mk_model_ref i vnd k)) as Hhas.
  { intros vnd k Hk. eexists. split; [exact Hsh|]. cbn [mr_vnd mr_idx]. by rewrite <- (elem_models_len el _ vnd eq_refl). }
  assert (forall vnd (x : option nat), (forall k, x = Some k -> (k < length (models_of el vnd))%nat) ->
    match (match mk_model_ref i vnd <$> x with Some r => inr r | None => inl STATUS_INVALID_MODEL end : Z + model_ref) with
    | inl status => status <> STATUS_SUCCESS | inr r => has_ref sh r end) as Hres.
  { intros vnd [k|] Hk; cbn; [by apply Hhas, Hk|done]. }
  assert (forall (p : model -> bool) l k, find_index p l = Some k -> (k < length l)%nat) as Hlt.
  { intros p l k (m & Hm & _)%find_index_Some. by eapply lookup_lt_Some. }
  destruct (decide (length buf < 4)%nat) as [H4|H4].
  - repeat good_step. apply Hf; [done|]. apply Hres. intros k. apply Hlt.
  - repeat good_step. apply Hf; [lia|]. apply Hres. intros k. apply Hlt.
Qed.

Lemma good_mod_id {T} (vnd : bool) buf (f : bytes -> G T) Q s : ((if vnd then 4 else 2) <= length buf)%nat ->
  (forall id, length id = (if vnd then 4 else 2)%nat -> good sh (f id) Q s) -> good sh (stm_bind (mod_id_of vnd buf) f) Q s.
Proof.
  intros Hl Hf. unfold mod_id_of. good_step. apply good_pull_mem; [destruct vnd; lia|]. good_step.
  apply Hf. rewrite length_take. destruct vnd; lia.
Qed.

(** ** Handlers of keys *)

(** A handler of messages of at least [n] bytes. *)
Definition handler_ok (h : model_ref -> msg_ctx -> bytes -> G unit) (n : nat) : Prop :=
  forall r ctx buf s, node_wf sh s -> has_ref sh r -> is_bytes buf -> (n <= length buf)%nat -> good sh (h r ctx buf) anywhere s.

Lemma block_take n buf : is_bytes buf -> (n + 16 <= length buf)%nat -> is_block (take 16 (drop n buf)).
Proof. intros Hb Hl. split; [rewrite length_take, length_drop; lia|by apply is_bytes_take, is_bytes_drop]. Qed.
Lemma good_genie ev s : node_wf sh s -> good sh (genie ev) anywhere s.
Proof. intros Hw. apply good_emit; [done|by repeat constructor|done]. Qed.
Lemma good_events e s : node_wf sh s -> Forall room_ok e -> good sh (stm_emit e) anywhere s.
Proof. intros Hw He. by apply good_emit. Qed.
Lemma app_key_status_ok r ctx status net_idx app_idx s : node_wf sh s ->
  good sh (app_key_status r ctx status net_idx app_idx) anywhere s.
Proof. intros Hw. apply good_reply; [done|fits|done]. Qed.

Lemma app_key_add_ok : handler_ok app_key_add 19.
Proof.
  intros r ctx buf s Hw Hr Hb Hl. unfold app_key_add. repeat good_step.
  apply good_seq; [apply app_key_set_ok; [done|by apply block_take|done..]|intros status s1 Hw1].
  apply good_seq; [by apply app_key_status_ok|intros _ s2 Hw2].
  apply good_seq; [by apply sub_list_init_ok|intros _ s3 Hw3].
  apply good_seq; [unfold genie_mesh_setup; good_step; by apply setup_elems_ok|intros _ s4 Hw4]. by apply good_genie.
Qed.
Lemma genie_appkey_register_ok net_idx app_idx val update s : node_wf sh s -> is_block val ->
  0 <= net_idx <= 0xfff -> 0 <= app_idx <= 0xfff -> good sh (genie_appkey_register net_idx app_idx val update) anywhere s.
Proof.
  intros Hw Hval Hn Ha. apply good_seq; [by apply app_key_set_ok|intros _ s1 Hw1].
  apply good_seq; [by apply sub_list_init_ok|intros _ s2 Hw2].
  apply good_seq; [unfold genie_mesh_setup; good_step; by apply setup_elems_ok|intros _ s3 Hw3]. by apply good_ret.
Qed.
Lemma app_key_update_ok : handler_ok app_key_update 19.
Proof.
  intros r ctx buf s Hw Hr Hb Hl. unfold app_key_update. repeat good_step.
  apply good_seq; [apply app_key_set_ok; [done|by apply block_take|done..]|intros status s1 Hw1].
  apply good_seq; [by apply app_key_status_ok|intros _ s2 Hw2]. by apply good_genie.
Qed.
Lemma app_key_del_handler_ok : handler_ok app_key_del 3.
Proof.
  intros r ctx buf s Hw Hr Hb Hl. unfold app_key_del. repeat good_step.
  apply good_seq; [|intros status s1 Hw1; by apply app_key_status_ok].
  destruct (bt_mesh_subnet_get _ _); [|by apply good_ret].
  destruct (app_key_slot _ _) as [k|] eqn:Hk; [|by apply good_ret].
  destruct (slot_view _ _ _ Hk) as (key & Hkey & Hkn & _).
  apply (good_of_option _ _ _ _ _ key); [done|]. cbv beta. case_if; [by apply good_ret|].
  eapply good_seq; [|intros _ s1 Hw1; apply good_seq; [by apply good_genie|intros _ s2 Hw2; by apply good_ret]].
  eapply good_mono; [apply (app_key_del_ok sh k key); [done|done|]|done].
  by apply negb_true_iff, Z.eqb_neq.
Qed.

Lemma idx_list_pair x y l : x <> BT_MESH_KEY_UNUSED ->
  idx_list_pack BT_MESH_KEY_UNUSED (x :: y :: l) = key_idx_pack x y ++ idx_list_pack BT_MESH_KEY_UNUSED l.
Proof. intros Hx%Z.eqb_neq. cbn. by rewrite Hx. Qed.
Lemma idx_list_one x : x <> BT_MESH_KEY_UNUSED -> idx_list_pack BT_MESH_KEY_UNUSED [x] = sys_put_le16 x.
Proof. intros Hx%Z.eqb_neq. cbn. by rewrite Hx. Qed.
Lemma length_idx_list l : Forall (fun x => x <> BT_MESH_KEY_UNUSED) l ->
  length (idx_list_pack BT_MESH_KEY_UNUSED l) = IDX_LEN (length l).
Proof.
  unfold IDX_LEN. induction l as [|x|x y l IH] using list_pair_ind; [done|..].
  - intros [Hx _]%Forall_cons_iff. by rewrite idx_list_one.
  - intros [Hx [_ Hl]%Forall_cons_iff]%Forall_cons_iff. rewrite idx_list_pair by done.
    rewrite length_app, IH by done. change (length (key_idx_pack x y)) with 3%nat.
    change (length (x :: y :: l)) with (2 + length l)%nat.
    rewrite (Nat.Div0.add_mod 2), Nat.Div0.mod_same, Nat.add_0_l, Nat.Div0.mod_mod.
    replace ((2 + length l) / 2)%nat with (S (length l / 2)); [lia|].
    change (2 + length l)%nat with (1 * 2 + length l)%nat. rewrite Nat.div_add_l by lia. lia.
Qed.
Lemma IDX_LEN_mono a b : (a <= b)%nat -> (IDX_LEN a <= IDX_LEN b)%nat.
Proof.
  intros H. unfold IDX_LEN. pose proof (Nat.div_mod_eq a 2). pose proof (Nat.div_mod_eq b 2).
  pose proof (Nat.mod_upper_bound a 2 ltac:(lia)). pose proof (Nat.mod_upper_bound b 2 ltac:(lia)). lia.
Qed.

Lemma app_idxs_bounds s net_idx : node_wf sh s -> 0 <= net_idx <= 0xfff ->
  Forall (fun x => x <> BT_MESH_KEY_UNUSED) (app_idxs (nd_net s) net_idx) /\
  (length (app_idxs (nd_net s) net_idx) <= APP_KEY_COUNT)%nat.
Proof.
  intros Hw Hn. pose proof (nw_keys _ _ Hw) as Hks. split.
  - apply list.Forall_forall. intros x (k & -> & Hk)%list_elem_of_fmap.
    apply list_elem_of_In, filter_In in Hk as [Hk He%Z.eqb_eq].
    assert ((app_net_idx k, app_app_idx k) ∈ key_view (nd_net s)) as Hv
      by (apply list_elem_of_fmap; exists k; split; [done|by apply list_elem_of_In]).
    destruct (kw_key _ _ Hks _ _ Hv); unfold BT_MESH_KEY_UNUSED; lia.
  - unfold app_idxs. rewrite length_map, <- (kw_len _ _ Hks). unfold key_view. rewrite length_map. apply filter_length_le.
Qed.

Lemma app_key_get_ok : handler_ok app_key_get 2.
Proof.
  intros r ctx buf s Hw Hr Hb Hl. unfold app_key_get. repeat good_step.
  destruct (Z.ltb_spec 0xfff v); [by apply good_ret|]. good_step. apply good_reply; [done| |done].
  destruct (bt_mesh_subnet_get _ _); [|fits].
  destruct (app_idxs_bounds s v Hw ltac:(lia)) as [Hne Hle]. pose proof (IDX_LEN_mono _ _ Hle).
  rewrite length_app, length_cons, length_app, length_idx_list by done.
  change (length (bt_mesh_model_msg_init OP_APP_KEY_LIST)) with 2%nat. change (length (sys_put_le16 v)) with 2%nat. lia.
Qed.

(** ** Handlers of publications *)

Lemma send_mod_pub_status_ok r ctx elem_addr addr (vnd : bool) mod_ status buf s : node_wf sh s ->
  ((if vnd then 4 else 2) <= length buf)%nat ->
  (status = STATUS_SUCCESS -> exists r' m p, mod_ = Some r' /\ get_model (nd_acc s) r' = Some m /\ md_pub m = Some p) ->
  good sh (send_mod_pub_status r ctx elem_addr addr vnd mod_ status buf) anywhere s.
Proof.
  intros Hw Hl Hs. unfold send_mod_pub_status.
  eapply good_bind with (P := fun st _ => length st = 7%nat).
  - destruct (Z.eqb_spec status STATUS_SUCCESS) as [Heq|]; cbn [negb]; [|by apply good_ret].
    destruct (Hs Heq) as (r' & m & p & -> & Hm & Hp). apply (good_of_option _ _ _ _ _ r'); [done|]. cbv beta.
    unfold node_model. do 2 good_step. apply (good_of_option _ _ _ _ _ m); [done|]. cbv beta.
    apply (good_of_option _ _ _ _ _ p); [done|]. by apply good_ret.
  - cbv beta. intros st s1 Hw1 Hst. apply good_mod_id; [done|]. intros id Hid. apply good_reply; [done| |done].
    rewrite length_app, length_cons, !length_app, Hst, Hid.
    change (length (bt_mesh_model_msg_init OP_MOD_PUB_STATUS)) with 2%nat.
    change (length (sys_put_le16 elem_addr)) with 2%nat. destruct vnd; lia.
Qed.

Lemma mod_pub_get_ok : handler_ok mod_pub_get 4.
Proof.
  intros r ctx buf s Hw Hr Hb Hl. unfold mod_pub_get. repeat good_step.
  apply good_find_model; [done|rewrite length_drop; lia|]. intros vnd mod_ Hvnd Hmod. cbv beta iota.
  destruct mod_ as [status|r']; [by apply send_mod_pub_status_ok|].
  apply good_node_model; [done..|]. intros m Hm. destruct (md_pub m) as [p|] eqn:Hp;
    apply send_mod_pub_status_ok; [done|done|intros _; by exists r', m, p|done|done|done].
Qed.

(** A publication is only set in a model that can publish. *)
Lemma mod_pub_set_ok r addr idx cred ttl period rt s : node_wf sh s -> has_ref sh r ->
  good sh (_mod_pub_set r addr idx cred ttl period rt)
    (fun status s' => status = STATUS_SUCCESS -> exists m p, get_model (nd_acc s') r = Some m /\ md_pub m = Some p) s.
Proof.
  intros Hw Hr. destruct (wf_get_model sh s r Hw Hr) as [m Hm]. destruct (md_pub m) as [p|] eqn:Hp.
  - eapply good_mono; [by apply (mod_pub_set_mild sh)|]. cbv beta. intros status s' Hw' [_ Hsame] _.
    destruct (wf_get_model sh s' r Hw' Hr) as [m' Hm']. destruct (Hsame r m' Hm') as (m0 & Hm0 & _ & _ & Hiff).
    replace m0 with m in Hiff by congruence. rewrite Hp in Hiff. destruct (proj2 Hiff ltac:(done)) as [p' Hp']. by exists m', p'.
  - unfold _mod_pub_set. good_step. apply good_node_model; [done..|]. intros m0 Hm0. replace m0 with m by congruence.
    rewrite Hp. by apply good_ret.
Qed.

Lemma mod_pub_set_handler_ok : handler_ok mod_pub_set 11.
Proof.
  intros r ctx buf s Hw Hr Hb Hl. unfold mod_pub_set. repeat good_step. case_if; [by apply good_ret|].
  repeat good_step. apply good_find_model; [done|rewrite !length_drop; lia|]. intros vnd mod_ Hvnd Hmod. cbv beta iota.
  destruct mod_ as [status|r']; [by apply send_mod_pub_status_ok|].
  eapply good_bind; [by apply mod_pub_set_ok|]. cbv beta. intros status s1 Hw1 Hs1.
  apply send_mod_pub_status_ok; [done|done|]. intros Hs. destruct (Hs1 Hs) as (m & p & ? & ?). by exists r', m, p.
Qed.

Lemma va_add_ok uuid s : node_wf sh s -> is_bytes uuid -> good sh (va_add uuid) (fun _ s' => nd_acc s' = nd_acc s) s.
Proof.
  intros Hw Hu. unfold va_add. good_step. destruct (va_find s uuid) as [addr [i|]]; (case_if; [by apply good_ret|]);
    [|by apply good_ret].
  destruct (virtual_addr_spec uuid Hu) as (a & -> & _).
  eapply good_bind with (P := fun _ s1 => nd_acc s1 = nd_acc s).
  - apply good_modify; [by apply wf_labels|done].
  - cbv beta. intros _ s1 Hw1 Hs1. by apply good_ret.
Qed.

(** The table asks for 24 bytes; a model identifier takes at least two of 25. *)
Lemma mod_pub_va_set_ok : handler_ok mod_pub_va_set 25.
Proof.
  intros r ctx buf s Hw Hr Hb Hl. unfold mod_pub_va_set. repeat good_step. case_if; [by apply good_ret|].
  repeat good_step. apply good_find_model; [done|rewrite !length_drop; lia|]. intros vnd mod_ Hvnd Hmod. cbv beta iota.
  destruct mod_ as [status|r']; [by apply send_mod_pub_status_ok|].
  eapply good_bind; [apply va_add_ok; [done|auto with bytes]|]. cbv beta. intros [status addr] s1 Hw1 _. cbv beta iota.
  eapply good_bind with (P := fun status s' => status = STATUS_SUCCESS ->
    exists m p, get_model (nd_acc s') r' = Some m /\ md_pub m = Some p).
  { case_if; [by apply mod_pub_set_ok|]. apply good_ret; [done|]. intros ->. done. }
  cbv beta. intros status' s2 Hw2 Hs2.
  apply send_mod_pub_status_ok; [done|done|]. intros Hs. destruct (Hs2 Hs) as (m & p & ? & ?). by exists r', m, p.
Qed.

(** ** Handlers of subscriptions *)

Lemma send_mod_sub_status_ok r ctx status elem_addr addr buf (vnd : bool) s : node_wf sh s ->
  ((if vnd then 4 else 2) <= length buf)%nat ->
  good sh (send_mod_sub_status r ctx status elem_addr addr buf vnd) anywhere s.
Proof.
  intros Hw Hl. apply good_mod_id; [done|]. intros id Hid. apply good_reply; [done| |done].
  rewrite length_app, length_cons, !length_app, Hid.
  change (length (bt_mesh_model_msg_init OP_MOD_SUB_STATUS)) with 2%nat.
  change (length (sys_put_le16 elem_addr)) with 2%nat. change (length (sys_put_le16 addr)) with 2%nat. destruct vnd; lia.
Qed.

Lemma set_groups_ok r f s : node_wf sh s -> (forall l, length (f l) = length l) -> good sh (set_groups r f) anywhere s.
Proof.
  intros Hw Hf. apply good_mod_model; [done|done| |done]. intros m _ [Hk Hg Hb Ho Hd]. split; try done.
  cbn. by rewrite Hf.
Qed.
Lemma lpn_group_add_ok addr s : node_wf sh s -> good sh (lpn_group_add addr) anywhere s.
Proof. intros Hw. unfold lpn_group_add. case_if; [|by apply good_ret]. by apply good_events; [|repeat constructor]. Qed.
Lemma lpn_group_del_ok l s : node_wf sh s -> good sh (lpn_group_del l) anywhere s.
Proof. intros Hw. unfold lpn_group_del. case_if; [|by apply good_ret]. by apply good_events; [|repeat constructor]. Qed.

Lemma group_insert_ok r addr s : node_wf sh s -> has_ref sh r -> good sh (group_insert r addr) anywhere s.
Proof.
  intros Hw Hr. apply good_node_model; [done..|]. intros m Hm. destruct (find_index _ _); [|by apply good_ret].
  apply good_seq; [|by intros _ s1 Hw1; apply good_ret]. apply set_groups_ok; [done|]. intros l. by rewrite length_insert.
Qed.
Lemma group_remove_ok r addr s : node_wf sh s -> has_ref sh r -> good sh (group_remove r addr) anywhere s.
Proof.
  intros Hw Hr. apply good_node_model; [done..|]. intros m Hm. destruct (bt_mesh_model_find_group _ _); [|by apply good_ret].
  apply good_seq; [|by intros _ s1 Hw1; apply good_ret]. apply set_groups_ok; [done|]. intros l. by rewrite length_insert.
Qed.

Lemma elem_sub_bind_ok r s : node_wf sh s -> has_ref sh r -> good sh (_elem_sub_bind (mr_elem r)) anywhere s.
Proof.
  intros Hw (e & He & _). eapply for_elem_models_ok; [exact He| |done]. intros r' s' Hw' Hr'. by apply copy_sub_list_ok.
Qed.
Lemma sub_list_change_ok r i v s : node_wf sh s -> has_ref sh r ->
  good sh (stm_modify (fun s => s <| nd_sub_list := <[i := v]> (nd_sub_list s) |>) ;; _elem_sub_bind (mr_elem r)) anywhere s.
Proof.
  intros Hw Hr. apply good_seq; [|by intros _ s1 Hw1; apply elem_sub_bind_ok]. apply good_modify; [|done].
  apply wf_list; [done|]. rewrite length_insert. apply (nw_list _ _ Hw).
Qed.
Lemma sub_list_insert_ok r addr s : node_wf sh s -> has_ref sh r -> good sh (sub_list_insert r addr) anywhere s.
Proof.
  intros Hw Hr. unfold sub_list_insert. good_step. apply good_node_model; [done..|]. intros m Hm.
  destruct (find_index _ _) as [i|]; [|by apply good_ret].
  apply good_seq; [|intros _ s1 Hw1; apply good_seq; [by apply elem_sub_bind_ok|by intros _ s2 Hw2; apply good_ret]].
  apply good_modify; [|done]. apply wf_list; [done|]. rewrite length_insert. apply (nw_list _ _ Hw).
Qed.
Lemma sub_list_remove_ok r addr s : node_wf sh s -> has_ref sh r -> good sh (sub_list_remove r addr) anywhere s.
Proof.
  intros Hw Hr. unfold sub_list_remove. good_step. apply good_node_model; [done..|]. intros m Hm.
  destruct (find_index _ _) as [i|]; [|by apply good_ret]. by apply sub_list_change_ok.
Qed.

Lemma sub_add_ok r addr s : node_wf sh s -> has_ref sh r -> good sh (sub_add r addr) anywhere s.
Proof.
  intros Hw Hr. apply good_node_model; [done..|]. intros m Hm. do 2 (case_if; [by apply good_ret|]).
  apply good_seq; [case_if; [by apply sub_list_insert_ok|by apply group_insert_ok]|intros added s1 Hw1].
  case_if; [by apply good_ret|].
  apply good_seq; [by apply lpn_group_add_ok|by intros _ s2 Hw2; apply good_ret].
Qed.
Lemma sub_del_ok r addr s : node_wf sh s -> has_ref sh r -> good sh (sub_del r addr) anywhere s.
Proof.
  intros Hw Hr. unfold sub_del. case_if; [by apply good_ret|].
  apply good_seq; [by apply lpn_group_del_ok|intros _ s1 Hw1].
  apply good_seq; [|by intros _ s2 Hw2; apply good_ret]. case_if; [by apply sub_list_remove_ok|].
  apply good_seq; [by apply group_remove_ok|by intros _ s2 Hw2; apply good_ret].
Qed.
Lemma sub_clear_ok r s : node_wf sh s -> has_ref sh r -> good sh (sub_clear r) anywhere s.
Proof.
  intros Hw Hr. apply good_node_model; [done..|]. intros m Hm.
  apply good_seq; [by apply lpn_group_del_ok|intros _ s1 Hw1]. apply set_groups_ok; [done|]. intros l. by rewrite length_map.
Qed.
Lemma sub_overwrite_ok r addr s : node_wf sh s -> has_ref sh r -> good sh (sub_overwrite r addr) anywhere s.
Proof.
  intros Hw Hr. unfold sub_overwrite. case_if; [by apply good_ret|].
  apply good_seq; [by apply sub_clear_ok|intros _ s1 Hw1]. apply good_node_model; [done..|]. intros m Hm.
  case_decide; [by apply good_ret|].
  apply good_seq; [by apply set_groups_ok; [|intros l; rewrite length_insert]|intros _ s2 Hw2].
  apply good_seq; [by apply lpn_group_add_ok|by intros _ s3 Hw3; apply good_ret].
Qed.
Lemma sub_va_add_ok r uuid s : node_wf sh s -> has_ref sh r -> is_bytes uuid -> good sh (sub_va_add r uuid) anywhere s.
Proof.
  intros Hw Hr Hu. eapply good_bind; [by apply va_add_ok|]. cbv beta. intros [status addr] s1 Hw1 _. cbv beta iota.
  case_if; [by apply good_ret|]. apply good_node_model; [done..|]. intros m Hm. case_if; [by apply good_ret|].
  apply good_seq; [by apply group_insert_ok|intros added s2 Hw2]. case_if; [by apply good_ret|].
  apply good_seq; [by apply lpn_group_add_ok|by intros _ s3 Hw3; apply good_ret].
Qed.
Lemma sub_va_del_ok r uuid s : node_wf sh s -> has_ref sh r -> is_bytes uuid -> good sh (sub_va_del r uuid) anywhere s.
Proof.
  intros Hw Hr Hu. unfold sub_va_del. good_step. case_if; [by apply good_ret|].
  apply good_seq; [by apply group_remove_ok|by intros b s1 Hw1; apply good_ret].
Qed.
Lemma sub_va_overwrite_ok r uuid s : node_wf sh s -> has_ref sh r -> is_bytes uuid ->
  good sh (sub_va_overwrite r uuid) anywhere s.
Proof.
  intros Hw Hr Hu. apply good_seq; [by apply sub_clear_ok|intros _ s1 Hw1]. apply good_node_model; [done..|]. intros m Hm.
  case_decide; [by apply good_ret|]. eapply good_bind; [by apply va_add_ok|]. cbv beta. intros [status addr] s2 Hw2 _. cbv beta iota.
  apply good_seq; [|by intros _ s3 Hw3; apply good_ret]. case_if; [|by apply good_ret].
  apply good_seq; [by apply set_groups_ok; [|intros l; rewrite length_insert]|intros _ s3 Hw3]. by apply lpn_group_add_ok.
Qed.

(** The handlers of subscriptions by address. *)
Lemma mod_sub_handler_ok (body : model_ref -> Z -> G Z) (after : Z -> G unit) r ctx buf s :
  (forall r a s, node_wf sh s -> has_ref sh r -> good sh (body r a) anywhere s) ->
  (forall st s, node_wf sh s -> good sh (after st) anywhere s) ->
  node_wf sh s -> (6 <= length buf)%nat ->
  good sh
    (p <- pull_le16 buf ;; let '(elem_addr, buf) := p in
     p <- pull_le16 buf ;; let '(addr, buf) := p in
     p <- find_model elem_addr buf ;;
     let '(vnd, mod_) := p in
     status <- match mod_ with inl status => mret status | inr r' => body r' addr end ;;
     send_mod_sub_status r ctx status elem_addr addr buf vnd ;; after status) anywhere s.
Proof.
  intros Hbody Hafter Hw Hl. repeat good_step.
  apply good_find_model; [done|rewrite !length_drop; lia|]. intros vnd mod_ Hvnd Hmod. cbv beta iota.
  apply good_seq; [destruct mod_; [by apply good_ret|by apply Hbody]|intros status s1 Hw1].
  apply good_seq; [by apply send_mod_sub_status_ok|intros _ s2 Hw2]. by apply Hafter.
Qed.

Lemma genie_on_success_ok ev st s : node_wf sh s ->
  good sh (if st =? STATUS_SUCCESS then genie ev else mret tt) anywhere s.
Proof. intros Hw. case_if; [by apply good_genie|by apply good_ret]. Qed.

Lemma mod_sub_add_ok : handler_ok mod_sub_add 6.
Proof.
  intros r ctx buf s Hw Hr Hb Hl. apply (mod_sub_handler_ok sub_add
    (fun st => if st =? STATUS_SUCCESS then genie GENIE_EVT_SDK_SUB_ADD else mret tt)); [|intros; by apply genie_on_success_ok|done|done].
  intros. by apply sub_add_ok.
Qed.
Lemma mod_sub_del_ok : handler_ok mod_sub_del 6.
Proof.
  intros r ctx buf s Hw Hr Hb Hl. apply (mod_sub_handler_ok sub_del
    (fun st => if st =? STATUS_SUCCESS then genie GENIE_EVT_SDK_SUB_DEL else mret tt)); [|intros; by apply genie_on_success_ok|done|done].
  intros. by apply sub_del_ok.
Qed.
Lemma mod_sub_overwrite_ok : handler_ok mod_sub_overwrite 6.
Proof.
  intros r ctx buf s Hw Hr Hb Hl. unfold mod_sub_overwrite. repeat good_step.
  apply good_find_model; [done|rewrite !length_drop; lia|]. intros vnd mod_ Hvnd Hmod. cbv beta iota.
  apply good_seq; [destruct mod_; [by apply good_ret|by apply sub_overwrite_ok]|intros status s1 Hw1].
  by apply send_mod_sub_status_ok.
Qed.
Lemma mod_sub_del_all_ok : handler_ok mod_sub_del_all 4.
Proof.
  intros r ctx buf s Hw Hr Hb Hl. unfold mod_sub_del_all. repeat good_step.
  apply good_find_model; [done|rewrite !length_drop; lia|]. intros vnd mod_ Hvnd Hmod. cbv beta iota.
  apply good_seq; [|by intros status s1 Hw1; apply send_mod_sub_status_ok]. destruct mod_; [by apply good_ret|].
  apply good_seq; [by apply sub_clear_ok|by intros _ s1 Hw1; apply good_ret].
Qed.

Lemma mod_sub_va_ok (body : model_ref -> bytes -> G (Z * Z)) :
  (forall r uuid s, node_wf sh s -> has_ref sh r -> is_bytes uuid -> good sh (body r uuid) anywhere s) ->
  handler_ok (mod_sub_va body) 20.
Proof.
  intros Hbody r ctx buf s Hw Hr Hb Hl. unfold mod_sub_va. repeat good_step.
  apply good_find_model; [done|rewrite !length_drop; lia|]. intros vnd mod_ Hvnd Hmod. cbv beta iota.
  apply good_seq; [|by intros p s1 Hw1; apply send_mod_sub_status_ok]. destruct mod_; [by apply good_ret|].
  apply Hbody; [done|done|auto with bytes].
Qed.

Lemma length_words (l : list Z) : length (concat (map sys_put_le16 l)) = (2 * length l)%nat.
Proof. induction l as [|x l IH]; [done|]. cbn [map concat]. rewrite length_app, IH. cbn. lia. Qed.

Lemma send_sub_list_ok r ctx cap op addr ids vnd (find : elem -> option nat) s : node_wf sh s ->
  (forall e k, find e = Some k -> (k < length (models_of e vnd))%nat) ->
  (length (bt_mesh_model_msg_init op) + 3 + length ids + 2 * MODEL_GROUP_COUNT + 4 <= cap)%nat ->
  good sh (send_sub_list r ctx cap op addr ids vnd find) anywhere s.
Proof.
  intros Hw Hfind Hcap. unfold send_sub_list. good_step.
  eapply good_bind with (P := fun p _ => (length p.2 <= 2 * MODEL_GROUP_COUNT)%nat).
  - destruct (bt_mesh_elem_find _ _) as [i|] eqn:Hi; [|by apply good_ret; [|cbn; lia]].
    destruct (elem_find_shape s _ i Hw Hi) as (el & Hel & Hsh).
    apply (good_of_option _ _ _ _ _ el); [done|]. cbv beta. destruct (find el) as [k|] eqn:Hk; [|by apply good_ret; [|cbn; lia]].
    apply good_node_model; [done| |].
    { eexists. split; [exact Hsh|]. cbn [mr_idx mr_vnd]. rewrite <- (elem_models_len el _ vnd eq_refl). by apply Hfind. }
    intros m Hm. apply good_ret; [done|]. cbn [snd]. unfold group_list. rewrite length_words.
    pose proof (filter_length_le (fun g => negb (g =? BT_MESH_ADDR_UNASSIGNED)) (md_groups m)).
    rewrite (mw_groups _ _ (nw_models _ _ Hw _ _ Hm)) in *. lia.
  - cbv beta. intros [st l] s1 Hw1 Hl. apply good_reply; [done| |done]. cbn [fst snd] in *.
    rewrite length_app, length_cons, !length_app. change (length (sys_put_le16 addr)) with 2%nat. lia.
Qed.

Lemma mod_sub_get_ok : handler_ok mod_sub_get 4.
Proof.
  intros r ctx buf s Hw Hr Hb Hl. unfold mod_sub_get. repeat good_step. apply send_sub_list_ok; [done| |cbn; lia].
  intros e k (m & Hm & _)%find_index_Some. by eapply lookup_lt_Some.
Qed.
Lemma mod_sub_get_vnd_ok : handler_ok mod_sub_get_vnd 6.
Proof.
  intros r ctx buf s Hw Hr Hb Hl. unfold mod_sub_get_vnd. repeat good_step. apply send_sub_list_ok; [done| |cbn; lia].
  intros e k (m & Hm & _)%find_index_Some. by eapply lookup_lt_Some.
Qed.

(** ** Handlers of bindings *)

Lemma mod_app_status_ok r ctx (vnd : bool) elem_addr app_idx status buf s : node_wf sh s ->
  ((if vnd then 4 else 2) <= length buf)%nat ->
  good sh (mod_app_status r ctx vnd elem_addr app_idx status buf) anywhere s.
Proof.
  intros Hw Hl. apply good_mod_id; [done|]. intros id Hid. apply good_reply; [done| |done].
  rewrite length_app, length_cons, !length_app, Hid.
  change (length (bt_mesh_model_msg_init OP_MOD_APP_STATUS)) with 2%nat.
  change (length (sys_put_le16 elem_addr)) with 2%nat. change (length (sys_put_le16 app_idx)) with 2%nat. destruct vnd; lia.
Qed.

Lemma mod_app_bind_ok : handler_ok mod_app_bind 6.
Proof.
  intros r ctx buf s Hw Hr Hb Hl. unfold mod_app_bind. repeat good_step.
  apply good_find_model; [done|rewrite !length_drop; lia|]. intros vnd mod_ Hvnd Hmod. cbv beta iota.
  apply good_seq; [|by intros status s1 Hw1; apply mod_app_status_ok]. destruct mod_ as [|r']; [by apply good_ret|].
  case_decide; [by apply good_ret|]. eapply good_mono; [by apply mod_bind_ok|done].
Qed.
Lemma mod_unbind_any r idx s : node_wf sh s -> has_ref sh r -> good sh (mod_unbind r idx) anywhere s.
Proof.
  intros Hw Hr. destruct (app_key_is_valid (nd_net s) idx) eqn:Hv.
  - eapply good_mono; [apply mod_unbind_ok; [done|done|by apply app_key_is_valid_spec]|done].
  - unfold mod_unbind. good_step. apply good_node_model; [done..|]. intros m Hm. rewrite Hv. by apply good_ret.
Qed.
Lemma mod_app_unbind_ok : handler_ok mod_app_unbind 6.
Proof.
  intros r ctx buf s Hw Hr Hb Hl. unfold mod_app_unbind. repeat good_step.
  apply good_find_model; [done|rewrite !length_drop; lia|]. intros vnd mod_ Hvnd Hmod. cbv beta iota.
  apply good_seq; [|by intros status s1 Hw1; apply mod_app_status_ok]. destruct mod_ as [|r']; [by apply good_ret|].
  by apply mod_unbind_any.
Qed.
Lemma mod_app_get_ok : handler_ok mod_app_get 4.
Proof.
  intros r ctx buf s Hw Hr Hb Hl. unfold mod_app_get. repeat good_step.
  apply good_find_model; [done|rewrite !length_drop; lia|]. intros vnd mod_ Hvnd Hmod. cbv beta iota.
  apply good_mod_id; [done|]. intros id Hid.
  eapply good_bind with (P := fun keys _ => (length keys <= 2 * MODEL_KEY_COUNT)%nat).
  - destruct mod_ as [|r']; [by apply good_ret; [|cbn; lia]|]. apply good_node_model; [done..|]. intros m Hm.
    apply good_ret; [done|]. unfold bound_list. rewrite length_words.
    pose proof (filter_length_le (fun k => negb (k =? BT_MESH_KEY_UNUSED)) (md_keys m)).
    rewrite (mw_keys _ _ (nw_models _ _ Hw _ _ Hm)) in *. lia.
  - cbv beta. intros keys s1 Hw1 Hk. cbv zeta. apply good_reply; [done| |done].
    rewrite length_app, length_cons, !length_app, Hid. change (length (sys_put_le16 v)) with 2%nat.
    destruct vnd; cbn [length]; unfold KEY_LIST_LEN;
      [change (length (bt_mesh_model_msg_init OP_VND_MOD_APP_LIST)) with 2%nat|
       change (length (bt_mesh_model_msg_init OP_SIG_MOD_APP_LIST)) with 2%nat]; lia.
Qed.
End safe.
