(* ===== verification/CfgServer.v ===== *)
(** * The Configuration Server as a whole

    The handlers of the server's own states, of network keys, heartbeats and
    reset; then the server: in every state its operations reach, the node's keys
    are consistent, and every message of the length its operation needs is
    handled and answered within its buffer. *)

From S2P Require Import Prelude NetBuf Cmac Ccm MeshCrypto NetState NetIv TransState TransTx Access Beacon Proxy CfgState CfgModels CfgSrv CfgKeep CfgWf CfgOk CfgSafe.

Section server.
Context {cfg : MeshConfig} {env : CfgEnv} {laws : CfgLaws}.
Variable sh : composition.
Implicit Types s : node.

Notation anywhere := (fun _ _ => True).
Notation handler_ok := (handler_ok sh).

(** ** Changes of the server's states *)

Lemma mod_srv_ok f s : node_wf sh s -> (forall c, cs_model (f c) = cs_model c) -> good sh (mod_srv f) anywhere s.
Proof. intros Hw Hf. apply good_modify; [|done]. by apply wf_srv. Qed.
Lemma mod_hb_pub_ok f s : node_wf sh s -> good sh (mod_hb_pub f) anywhere s.
Proof. intros Hw. by apply mod_srv_ok. Qed.
Lemma mod_hb_sub_ok f s : node_wf sh s -> good sh (mod_hb_sub f) anywhere s.
Proof. intros Hw. by apply mod_srv_ok. Qed.
Lemma mod_net_ok f s : node_wf sh s -> key_view (f (nd_net s)) = key_view (nd_net s) ->
  sub_view (f (nd_net s)) = sub_view (nd_net s) -> good sh (mod_net f) anywhere s.
Proof. intros Hw Hk Hs. apply good_modify; [|done]. by apply wf_net. Qed.
Lemma set_sub_ok i f s : node_wf sh s -> (forall sub, sub_net_idx (f sub) = sub_net_idx sub) ->
  good sh (mod_net (fun m => set_sub m i f)) anywhere s.
Proof. intros Hw Hf. apply mod_net_ok; [done|apply key_view_sub|by apply sub_view_alter]. Qed.
Lemma hb_pub_disable_ok s : node_wf sh s -> good sh hb_pub_disable anywhere s.
Proof. apply mod_hb_pub_ok. Qed.

(** ** Heartbeats *)

Lemma hb_send_ok r s : node_wf sh s -> has_ref sh r -> is_Some (bt_mesh_subnet_get (nd_net s) (hp_net_idx (cs_hb_pub (nd_srv s)))) ->
  good sh (hb_send r) anywhere s.
Proof.
  intros Hw (e & He & _) [i Hi]. unfold hb_send. good_step. destruct (wf_get_elem sh s _ e Hw He) as (el & Hel & _).
  apply (good_of_option _ _ _ _ _ el); [done|]. cbv beta zeta. apply (good_of_option _ _ _ _ _ i); [done|].
  by apply good_events; [|repeat constructor].
Qed.
Lemma hb_feature_ok r feat change s : node_wf sh s -> has_ref sh r -> good sh (hb_feature r feat change) anywhere s.
Proof.
  intros Hw Hr. unfold hb_feature. good_step. cbv zeta.
  destruct (bool_decide _) eqn:Hb; rewrite ?andb_false_r; cbn [andb]; [|by apply good_ret].
  apply bool_decide_eq_true in Hb. case_if; [by apply hb_send_ok|by apply good_ret].
Qed.

(** ** Composition data *)

Lemma length_elem_data i e : length (elem_data i e) = elem_len (elem_shape e).
Proof.
  unfold elem_data, elem_len. repeat rewrite length_app. cbn [elem_shape fst snd]. rewrite !length_map.
  assert (forall l, length (concat (map (fun m => sys_put_le16 (md_id m)) l)) = 2 * length l)%nat as ->.
  { induction l as [|m l IH]; [done|]. cbn [map concat]. rewrite length_app, IH. cbn. lia. }
  assert (forall l, length (concat (map (fun m => sys_put_le16 (md_company m) ++ sys_put_le16 (md_id m)) l)) = 4 * length l)%nat as ->.
  { induction l as [|m l IH]; [done|]. cbn [map concat]. rewrite length_app, IH. cbn. lia. }
  cbn. lia.
Qed.
Lemma comp_add_elems_ok buf i es : (length buf + list_sum (map elem_len (map elem_shape es)) <= BT_MESH_TX_SDU_MAX)%nat ->
  match comp_add_elems buf i es with
  | Ok out => length out = (length buf + list_sum (map elem_len (map elem_shape es)))%nat
  | Err _ => True
  | Undef => False
  end.
Proof.
  revert buf i. induction es as [|e es IH]; intros buf i Hl; cbn [comp_add_elems]; [cbn in *; lia|].
  cbn [map list_sum foldr] in Hl |- *. unfold comp_add_elem. case_decide; [done|]. cbv zeta.
  pose proof (length_elem_data i e) as He.
  assert (length (buf ++ elem_data i e) = length buf + elem_len (elem_shape e))%nat as Hb by (rewrite length_app; lia).
  rewrite decide_False by (unfold list_sum in *; lia). ok_simpl. specialize (IH (buf ++ elem_data i e) (S i)).
  rewrite Hb in IH. unfold list_sum in *. destruct (comp_add_elems _ _ _); [rewrite IH; lia|done|apply IH; lia].
Qed.
Lemma dev_comp_data_get_ok : handler_ok dev_comp_data_get 1.
Proof.
  intros r ctx buf s Hw Hr Hb Hl. unfold dev_comp_data_get. repeat good_step. unfold comp_get_page_0.
  pose proof (nw_fits _ _ Hw) as Hf. unfold comp_fits in Hf. rewrite <- (nw_shape _ _ Hw) in Hf. unfold shape in Hf.
  match goal with |- context [comp_add_elems ?b 0 ?es] => pose proof (comp_add_elems_ok b 0 es) as Hok; set (out := comp_add_elems b 0 es) in * end.
  match type of Hok with (length ?b + _ <= _)%nat -> _ => change (length b) with 12%nat in Hok end.
  destruct out as [sdu| |]; [|by apply good_ret|by destruct Hok; lia].
  apply good_reply; [done|rewrite Hok; lia|done].
Qed.

(** ** The server's own states *)

Lemma send_state_ok r ctx cap op state s : node_wf sh s ->
  (length (bt_mesh_model_msg_init op) + length (state s) + 4 <= cap)%nat -> good sh (send_state r ctx cap op state) anywhere s.
Proof. intros Hw Hl. unfold send_state. good_step. apply good_reply; [done|rewrite length_app; lia|done]. Qed.

Ltac state_handler := intros r ctx buf s Hw Hr Hb Hl; by apply send_state_ok; [|cbn; lia].
Lemma beacon_get_ok : handler_ok beacon_get 0. Proof. state_handler. Qed.
Lemma default_ttl_get_ok : handler_ok default_ttl_get 0. Proof. state_handler. Qed.
Lemma gatt_proxy_get_ok : handler_ok gatt_proxy_get 0. Proof. state_handler. Qed.
Lemma net_transmit_get_ok : handler_ok net_transmit_get 0. Proof. state_handler. Qed.
Lemma relay_get_ok : handler_ok relay_get 0. Proof. state_handler. Qed.
Lemma friend_get_ok : handler_ok friend_get 0. Proof. state_handler. Qed.

Lemma beacon_set_ok : handler_ok beacon_set 1.
Proof.
  intros r ctx buf s Hw Hr Hb Hl. unfold beacon_set. repeat good_step. case_if; [|by apply good_ret]. good_step.
  apply good_seq; [|by intros _ s1 Hw1; apply send_state_ok; [|cbn; lia]].
  case_if; [|by apply good_ret]. apply good_seq; [by apply mod_srv_ok|intros _ s1 Hw1].
  apply good_events; [done|]. case_if; by repeat constructor.
Qed.
Lemma default_ttl_set_ok : handler_ok default_ttl_set 1.
Proof.
  intros r ctx buf s Hw Hr Hb Hl. unfold default_ttl_set. repeat good_step. case_if; [|by apply good_ret].
  apply good_seq; [by apply mod_srv_ok|intros _ s1 Hw1]. by apply send_state_ok; [|cbn; lia].
Qed.
Lemma net_transmit_set_ok : handler_ok net_transmit_set 1.
Proof.
  intros r ctx buf s Hw Hr Hb Hl. unfold net_transmit_set. repeat good_step.
  apply good_seq; [by apply mod_srv_ok|intros _ s1 Hw1]. by apply send_state_ok; [|cbn; lia].
Qed.
Lemma relay_set_ok : handler_ok relay_set 2.
Proof.
  intros r ctx buf s Hw Hr Hb Hl. unfold relay_set. repeat good_step. case_if; [|by apply good_ret]. good_step.
  apply good_seq.
  { case_if; [by apply good_ret|]. repeat good_step.
    apply good_seq; [by apply mod_srv_ok|by intros _ s1 Hw1; apply good_ret]. }
  intros change s1 Hw1. apply good_seq; [by apply hb_feature_ok|intros _ s2 Hw2]. by apply send_state_ok; [|cbn; lia].
Qed.

Lemma map_subs_view f m : (forall sub, sub_net_idx (f sub) = sub_net_idx sub) ->
  sub_view (m <| subs := map f (subs m) |>) = sub_view m.
Proof. intros Hf. unfold sub_view. destruct m. cbn. rewrite map_map. by apply map_ext. Qed.
Lemma gatt_proxy_set_ok : handler_ok gatt_proxy_set 1.
Proof.
  intros r ctx buf s Hw Hr Hb Hl. unfold gatt_proxy_set. repeat good_step. case_if; [by apply good_ret|]. good_step.
  apply good_seq; [|by intros _ s1 Hw1; apply send_state_ok; [|cbn; lia]].
  case_if; [by apply good_ret|]. apply good_seq; [by apply mod_srv_ok|intros _ s1 Hw1].
  apply good_seq.
  { case_if; [|by apply good_ret]. apply good_seq; [|by intros _ s2 Hw2; apply good_events; [|repeat constructor]].
    apply mod_net_ok; [done|by destruct (nd_net s1)|]. apply map_subs_view. intros sub. by case_if. }
  intros _ s2 Hw2. apply good_seq; [by apply good_events; [|repeat constructor]|intros _ s3 Hw3].
  by apply hb_feature_ok.
Qed.
Lemma friend_set_ok : handler_ok friend_set 1.
Proof.
  intros r ctx buf s Hw Hr Hb Hl. unfold friend_set. repeat good_step. case_if; [by apply good_ret|]. good_step.
  apply good_seq; [|by intros _ s1 Hw1; apply send_state_ok; [|cbn; lia]].
  case_if; [by apply good_ret|]. apply good_seq; [|by intros _ s1 Hw1; apply hb_feature_ok].
  case_if; [|by apply good_ret]. apply good_seq; [by apply mod_srv_ok|intros _ s1 Hw1].
  case_if; [by apply good_events; [|repeat constructor]|by apply good_ret].
Qed.
Lemma lpn_timeout_get_ok : handler_ok lpn_timeout_get 2.
Proof.
  intros r ctx buf s Hw Hr Hb Hl. unfold lpn_timeout_get. repeat good_step. case_if; [by apply good_ret|].
  by apply good_reply; [|fits|].
Qed.

(** ** Network keys *)

Lemma net_key_status_ok r ctx idx status s : node_wf sh s -> good sh (net_key_status r ctx idx status) anywhere s.
Proof. intros Hw. by apply good_reply; [|fits|]. Qed.
Lemma beacon_update_idx m sub : sub_net_idx (bt_mesh_net_beacon_update m sub) = sub_net_idx sub.
Proof. unfold bt_mesh_net_beacon_update. by case_match. Qed.
Lemma beacon_update_ok i s : node_wf sh s -> good sh (beacon_update i) anywhere s.
Proof.
  intros Hw. unfold beacon_update. apply mod_net_ok; [done|apply key_view_sub|].
  apply sub_view_alter. intros sub _. apply beacon_update_idx.
Qed.

Lemma keys_wf_add i idx ks ns : keys_wf ks ns -> ns !! i = Some BT_MESH_KEY_UNUSED -> idx ∉ ns -> 0 <= idx <= 0xfff ->
  keys_wf ks (<[i := idx]> ns).
Proof.
  intros [Hl Hsl Hkey Hidx Hsub Hsubs] Hi Hn Hr. split; try done.
  - by rewrite length_insert.
  - intros n x Hin Hu. destruct (Hkey n x Hin Hu) as [? (j & Hj)%list_elem_of_lookup]. split; [done|].
    apply list_elem_of_lookup. exists j. rewrite list_lookup_insert_ne; [done|]. intros ->. congruence.
  - intros n (j & Hj)%list_elem_of_lookup Hu. apply list_lookup_insert_Some in Hj as [(_ & <- & _)|(_ & Hj)]; [done|].
    apply Hsub; [|done]. by eapply list_elem_of_lookup_2.
  - intros j k n Hj Hk Hu. apply list_lookup_insert_Some in Hj as [(<- & <- & _)|(Hij & Hj)].
    + apply list_lookup_insert_Some in Hk as [(<- & _)|(_ & Hk)]; [done|]. destruct Hn. by eapply list_elem_of_lookup_2.
    + apply list_lookup_insert_Some in Hk as [(<- & <- & _)|(_ & Hk)]; [|by eapply Hsubs].
      destruct Hn. by eapply list_elem_of_lookup_2.
Qed.
Lemma keys_wf_del i idx ks ns : keys_wf ks ns -> ns !! i = Some idx -> Forall (fun e => e.1 <> idx) ks ->
  keys_wf ks (<[i := BT_MESH_KEY_UNUSED]> ns).
Proof.
  intros [Hl Hsl Hkey Hidx Hsub Hsubs] Hi Hks. split; try done.
  - by rewrite length_insert.
  - intros n x Hin Hu. destruct (Hkey n x Hin Hu) as [? (j & Hj)%list_elem_of_lookup]. split; [done|].
    apply list_elem_of_lookup. exists j. rewrite list_lookup_insert_ne; [done|]. intros ->.
    eapply list.Forall_forall in Hks; [|exact Hin]. cbn in Hks. congruence.
  - intros n (j & Hj)%list_elem_of_lookup Hu. apply list_lookup_insert_Some in Hj as [(_ & <- & _)|(_ & Hj)]; [done|].
    apply Hsub; [|done]. by eapply list_elem_of_lookup_2.
  - intros j k n Hj Hk Hu. apply list_lookup_insert_Some in Hj as [(_ & <- & _)|(_ & Hj)]; [done|].
    apply list_lookup_insert_Some in Hk as [(_ & <- & _)|(_ & Hk)]; [done|]. by eapply Hsubs.
Qed.

(** A subnet whose index changes. *)
Lemma wf_sub_idx i n f s : node_wf sh s -> (i < length (subs (nd_net s)))%nat -> (forall sub, sub_net_idx (f sub) = n) ->
  keys_wf (key_view (nd_net s)) (<[i := n]> (sub_view (nd_net s))) -> node_wf sh (s <| nd_net := set_sub (nd_net s) i f |>).
Proof.
  intros Hw Hi Hf Hk. destruct Hw as [Hks Hms Hshape Hfits Hlist Hconf Hmodel]. set (m := set_sub (nd_net s) i f).
  assert (key_view m = key_view (nd_net s)) as Hkv by apply key_view_sub.
  assert (sub_view m = <[i := n]> (sub_view (nd_net s))) as Hsv by by apply sub_view_set.
  split; try done. change (keys_wf (key_view m) (sub_view m)). by rewrite Hkv, Hsv.
Qed.

Lemma net_key_add_ok : handler_ok net_key_add 18.
Proof.
  intros r ctx buf s Hw Hr Hb Hl. unfold net_key_add. repeat good_step.
  destruct (Z.ltb_spec 0xfff v); [by apply good_ret|]. good_step.
  destruct (net_key_slot (nd_net s) v) as [i|] eqn:Hslot; [|by apply net_key_status_ok].
  assert (exists sub, subs (nd_net s) !! i = Some sub /\ (sub_net_idx sub = v \/
    (sub_net_idx sub = BT_MESH_KEY_UNUSED /\ v ∉ sub_view (nd_net s)))) as (sub & Hsub & Hcase).
  { unfold net_key_slot in Hslot. destruct (bt_mesh_subnet_get _ _) as [i'|] eqn:Hg.
    - injection Hslot as ->. destruct (subnet_get_Some _ _ _ Hg) as (sub & ? & ?); [unfold BT_MESH_KEY_ANY; lia|].
      exists sub. auto.
    - apply find_index_Some in Hslot as (sub & ? & ?%Z.eqb_eq). exists sub. split; [done|right].
      split; [done|by apply subnet_get_None]. }
  apply (good_sub_of sh); [eauto|]. intros sub' Hsub'. replace sub' with sub by congruence. good_step.
  destruct (Z.eqb_spec (sub_net_idx sub) v) as [Heq|Hne].
  { cbv zeta. apply good_seq; [by apply good_genie|intros _ s1 Hw1; by apply net_key_status_ok]. }
  destruct Hcase as [|[Hu Hnew]]; [done|].
  destruct (keys_create_ok (sub_key0 sub) (take 16 (drop 2 buf))) as (keys & -> & _); [by apply block_take|].
  apply good_seq; [apply good_modify; [|done]|intros _ s1 Hw1].
  { apply (wf_sub_idx i v); [done|by eapply lookup_lt_Some|done|].
    apply keys_wf_add; [apply (nw_keys _ _ Hw)| |done|lia]. unfold sub_view. by rewrite list_lookup_fmap, Hsub, <- Hu. }
  apply good_seq; [by apply beacon_update_ok|intros _ s2 Hw2].
  apply good_seq; [|by intros _ s3 Hw3; apply net_key_status_ok]. case_if; [|by apply set_sub_ok].
  apply good_seq; [by apply set_sub_ok|by intros _ s3 Hw3; apply good_events; [|repeat constructor]].
Qed.

Lemma net_key_refresh_ok i key s : node_wf sh s -> is_block key -> (exists sub, subs (nd_net s) !! i = Some sub) ->
  good sh (net_key_refresh i key) anywhere s.
Proof.
  intros Hw Hk Hsub. unfold net_key_refresh. good_step. apply (good_sub_of sh); [done|]. intros sub _.
  destruct (keys_create_ok (sub_key1 sub) key Hk) as (keys & -> & _).
  apply good_seq; [by apply set_sub_ok|intros _ s1 Hw1].
  apply good_seq.
  { case_if; [|by apply good_ret]. destruct (friend_cred_update _ _ _ _) as [err creds].
    apply good_seq; [apply mod_net_ok; [done|by destruct (nd_net s1)..]|by intros _ s2 Hw2; apply good_ret]. }
  intros err s2 Hw2. case_if; [by apply good_ret|].
  apply good_seq; [by apply set_sub_ok|intros _ s3 Hw3].
  apply good_seq; [by apply good_genie|intros _ s4 Hw4; by apply beacon_update_ok].
Qed.
Lemma net_key_update_ok : handler_ok net_key_update 18.
Proof.
  intros r ctx buf s Hw Hr Hb Hl. unfold net_key_update. repeat good_step.
  destruct (Z.ltb_spec 0xfff v); [by apply good_ret|]. good_step.
  destruct (bt_mesh_subnet_get (nd_net s) v) as [i|] eqn:Hg; [|by apply net_key_status_ok].
  destruct (subnet_get_Some _ _ _ Hg) as (sub & Hsub & _); [unfold BT_MESH_KEY_ANY; lia|].
  apply (good_sub_of sh); [eauto|]. intros sub' _. good_step. case_if; [by apply good_ret|].
  apply good_seq; [|by intros _ s1 Hw1; apply net_key_status_ok].
  case_if; [apply net_key_refresh_ok; [done|by apply block_take|eauto]|by apply good_ret].
Qed.

Lemma net_key_del_ok : handler_ok net_key_del 2.
Proof.
  intros r ctx buf s Hw Hr Hb Hl. unfold net_key_del. repeat good_step.
  destruct (Z.ltb_spec 0xfff v); [by apply good_ret|]. good_step.
  apply good_seq; [|by intros status s1 Hw1; apply net_key_status_ok].
  destruct (bt_mesh_subnet_get (nd_net s) v) as [i|] eqn:Hg; [|by apply good_ret].
  pose proof (subnet_get_view _ _ _ Hg ltac:(unfold BT_MESH_KEY_ANY; lia)) as Hview.
  case_if; [by apply good_ret|].
  eapply good_bind with (P := fun _ s1 => sub_view (nd_net s1) = sub_view (nd_net s)).
  { case_if; [apply good_modify; [by apply wf_srv|done]|by apply good_ret]. }
  cbv beta. intros _ s1 Hw1 Hs1. eapply good_bind.
  { apply (all_app_keys_del_ok sh _ (fun e => e.1 =? v)); [done| |done]. intros n idx. cbn. intros ->%Z.eqb_eq. unfold BT_MESH_KEY_UNUSED. lia. }
  cbv beta. intros _ s2 Hw2 [Hks2 Hs2].
  eapply good_bind with (P := fun _ s3 => nd_net s3 = nd_net s2).
  { case_if; [by apply good_emit; [|repeat constructor|]|by apply good_ret]. }
  cbv beta. intros _ s3 Hw3 Hn3.
  apply good_seq; [|intros _ s4 Hw4; apply good_seq; [by apply good_genie|by intros _ s5 Hw5; apply good_ret]].
  assert (sub_view (nd_net s3) !! i = Some v) as Hi3 by by rewrite Hn3, Hs2, Hs1.
  apply good_modify; [|done]. apply (wf_sub_idx i BT_MESH_KEY_UNUSED); [done| |done|].
  - apply lookup_lt_Some in Hi3. unfold sub_view in Hi3. by rewrite length_map in Hi3.
  - eapply keys_wf_del; [apply (nw_keys _ _ Hw3)|exact Hi3|]. rewrite Hn3. eapply list.Forall_impl; [exact Hks2|].
    cbv beta. intros e He%Z.eqb_neq. done.
Qed.

Lemma filter_le {X} (p : X -> bool) l n : length l = n -> (length (List.filter p l) <= n)%nat.
Proof. intros <-. apply filter_length_le. Qed.
Lemma net_key_get_ok : handler_ok net_key_get 0.
Proof.
  intros r ctx buf s Hw Hr Hb Hl. apply send_state_ok; [done|].
  pose proof (kw_slen _ _ (nw_keys _ _ Hw)) as Hlen. unfold sub_view in Hlen. rewrite length_map in Hlen.
  rewrite length_idx_list.
  - unfold net_idxs. rewrite length_map.
    pose proof (IDX_LEN_mono _ _ (filter_le (fun x => negb (sub_net_idx x =? BT_MESH_KEY_UNUSED)) _ _ Hlen)).
    change (length (bt_mesh_model_msg_init OP_NET_KEY_LIST)) with 2%nat. lia.
  - apply list.Forall_forall. intros x (sub & -> & Hs)%list_elem_of_fmap.
    apply list_elem_of_In, filter_In in Hs as [_ Hs]. by apply negb_true_iff, Z.eqb_neq in Hs.
Qed.

Lemma node_identity_status_ok r ctx status idx id s : node_wf sh s -> good sh (node_identity_status r ctx status idx id) anywhere s.
Proof. intros Hw. by apply good_reply; [|fits|]. Qed.
Lemma node_identity_get_ok : handler_ok node_identity_get 2.
Proof.
  intros r ctx buf s Hw Hr Hb Hl. unfold node_identity_get. repeat good_step.
  destruct (Z.ltb_spec 0xfff v); [by apply good_ret|]. good_step.
  destruct (bt_mesh_subnet_get (nd_net s) v) as [i|] eqn:Hg; [|by apply node_identity_status_ok].
  destruct (subnet_get_Some _ _ _ Hg) as (sub & Hsub & _); [unfold BT_MESH_KEY_ANY; lia|].
  apply (good_sub_of sh); [eauto|]. intros sub' _. by apply node_identity_status_ok.
Qed.
Lemma sub_view_some s i n : sub_view (nd_net s) !! i = Some n -> exists sub, subs (nd_net s) !! i = Some sub.
Proof. unfold sub_view. rewrite list_lookup_fmap. destruct (subs (nd_net s) !! i); [eauto|done]. Qed.
Lemma node_identity_set_ok : handler_ok node_identity_set 3.
Proof.
  intros r ctx buf s Hw Hr Hb Hl. unfold node_identity_set. repeat good_step.
  destruct (Z.ltb_spec 0xfff v); [by apply good_ret|]. repeat good_step. case_if; [by apply good_ret|]. good_step.
  destruct (bt_mesh_subnet_get (nd_net s) v) as [i|] eqn:Hg; [|by apply node_identity_status_ok].
  pose proof (subnet_get_view _ _ _ Hg ltac:(unfold BT_MESH_KEY_ANY; lia)) as Hview.
  eapply good_bind with (P := fun _ s1 => sub_view (nd_net s1) = sub_view (nd_net s)).
  - assert (forall f, (forall sub, sub_net_idx (f sub) = sub_net_idx sub) ->
      good sh (mod_net (fun m => set_sub m i f)) (fun _ s1 => sub_view (nd_net s1) = sub_view (nd_net s)) s) as Hset.
    { intros f Hf. assert (sub_view (set_sub (nd_net s) i f) = sub_view (nd_net s)) as Hsv by by apply sub_view_alter.
      apply good_modify; [|done]. apply wf_net; [done|apply key_view_sub|done]. }
    case_if; [|by apply good_ret].
    eapply good_bind; [|cbv beta; intros ? s1 Hw1 Hs1; apply good_emit; [done|by repeat constructor|exact Hs1]].
    case_if; [|by apply Hset].
    eapply good_bind; [by apply Hset|]. cbv beta. intros _ s1 Hw1 Hs1. by apply good_emit; [|repeat constructor|].
  - cbv beta. intros _ s1 Hw1 Hs1. good_step. rewrite <- Hs1 in Hview. apply (good_sub_of sh); [by eapply sub_view_some|].
    intros sub _. by apply node_identity_status_ok.
Qed.

Lemma krp_status_ok r ctx idx phase status s : node_wf sh s -> good sh (krp_status r ctx idx phase status) anywhere s.
Proof. intros Hw. by apply good_reply; [|fits|]. Qed.
Lemma krp_get_ok : handler_ok krp_get 2.
Proof.
  intros r ctx buf s Hw Hr Hb Hl. unfold krp_get. repeat good_step.
  destruct (Z.ltb_spec 0xfff v); [by apply good_ret|]. good_step.
  destruct (bt_mesh_subnet_get (nd_net s) v) as [i|] eqn:Hg; [|by apply krp_status_ok].
  destruct (subnet_get_Some _ _ _ Hg) as (sub & Hsub & _); [unfold BT_MESH_KEY_ANY; lia|].
  apply (good_sub_of sh); [eauto|]. intros sub' _. by apply krp_status_ok.
Qed.

(** Setting the fields of a subnet, but its index, leaves its slot. *)
Lemma set_sub_keeps i f s : node_wf sh s -> (forall sub, sub_net_idx (f sub) = sub_net_idx sub) ->
  good sh (mod_net (fun m => set_sub m i f)) (fun _ s' => sub_view (nd_net s') = sub_view (nd_net s)) s.
Proof.
  intros Hw Hf. assert (sub_view (set_sub (nd_net s) i f) = sub_view (nd_net s)) as Hv by by apply sub_view_alter.
  apply good_modify; [|done]. apply wf_net; [done|apply key_view_sub|done].
Qed.
Lemma beacon_update_keeps i s : node_wf sh s ->
  good sh (beacon_update i) (fun _ s' => sub_view (nd_net s') = sub_view (nd_net s)) s.
Proof.
  intros Hw. assert (sub_view (set_sub (nd_net s) i (bt_mesh_net_beacon_update (nd_net s))) = sub_view (nd_net s)) as Hv
    by (apply sub_view_alter; intros; apply beacon_update_idx).
  apply good_modify; [|done]. apply wf_net; [done|apply key_view_sub|done].
Qed.
Lemma revoke_keys_views m i : key_view (bt_mesh_net_revoke_keys m i) = key_view m /\ sub_view (bt_mesh_net_revoke_keys m i) = sub_view m.
Proof.
  unfold bt_mesh_net_revoke_keys. destruct (subs m !! i) as [sub|] eqn:Hs; [|done]. destruct m. cbn in *. split.
  - unfold key_view. cbn. rewrite map_map. apply map_ext. intros k. unfold revoke_app_key. by case_if.
  - unfold sub_view. cbn. apply list_eq. intros j. rewrite !list_lookup_fmap. destruct (decide (i = j)) as [<-|Hj].
    + rewrite list_lookup_insert_eq by (by eapply lookup_lt_Some). by rewrite Hs.
    + by rewrite list_lookup_insert_ne.
Qed.

(** A chain of steps that leave the indexes of the subnets. *)
Lemma keeps_bind_sub {T U} (m : G T) (f : T -> G U) v s :
  good sh m (fun _ s' => sub_view (nd_net s') = v) s ->
  (forall a s', node_wf sh s' -> sub_view (nd_net s') = v -> good sh (f a) (fun _ s' => sub_view (nd_net s') = v) s') ->
  good sh (stm_bind m f) (fun _ s' => sub_view (nd_net s') = v) s.
Proof. intros Hm Hf. by eapply good_bind. Qed.

Lemma krp_set_ok : handler_ok krp_set 3.
Proof.
  intros r ctx buf s Hw Hr Hb Hl. unfold krp_set. repeat good_step.
  destruct (Z.ltb_spec 0xfff v); [by apply good_ret|]. good_step.
  destruct (bt_mesh_subnet_get (nd_net s) v) as [i|] eqn:Hg; [|by apply krp_status_ok].
  pose proof (subnet_get_view _ _ _ Hg ltac:(unfold BT_MESH_KEY_ANY; lia)) as Hview.
  apply (good_sub_of sh); [by eapply sub_view_some|]. intros sub _. case_if; [by apply good_ret|].
  eapply good_bind with (P := fun _ s1 => sub_view (nd_net s1) = sub_view (nd_net s)).
  - case_if.
    { apply keeps_bind_sub; [by apply set_sub_keeps|]. intros _ s1 Hw1 <-. by apply beacon_update_keeps. }
    case_if; [|by apply good_ret]. destruct (revoke_keys_views (nd_net s) i) as [Hk1 Hs1].
    apply keeps_bind_sub.
    { apply good_modify; [|done]. by apply wf_net. }
    intros _ s1 Hw1 H1. apply keeps_bind_sub.
    { case_if; [|by apply good_ret]. apply good_modify; [|by rewrite <- H1; destruct s1 as [[]]].
      apply wf_net; [done|by destruct (nd_net s1)..]. }
    intros _ s2 Hw2 <-. apply keeps_bind_sub; [by apply set_sub_keeps|]. intros _ s3 Hw3 <-. by apply beacon_update_keeps.
  - cbv beta. intros _ s1 Hw1 Hs1. good_step. rewrite <- Hs1 in Hview. apply (good_sub_of sh); [by eapply sub_view_some|].
    intros sub' _. by apply krp_status_ok.
Qed.

(** ** Heartbeat publication and subscription *)

Lemma hb_pub_send_status_ok r ctx status s : node_wf sh s -> good sh (hb_pub_send_status r ctx status) anywhere s.
Proof. intros Hw. unfold hb_pub_send_status, get_hb_pub. repeat good_step. by apply good_reply; [|fits|]. Qed.
Lemma heartbeat_pub_get_ok : handler_ok heartbeat_pub_get 0.
Proof. intros r ctx buf s Hw Hr Hb Hl. by apply hb_pub_send_status_ok. Qed.
Lemma genie_heartbeat_set_ok pa s : node_wf sh s -> good sh (genie_heartbeat_set pa) anywhere s.
Proof.
  intros Hw. unfold genie_heartbeat_set. good_step. do 6 (case_if; [by apply good_ret|]).
  apply good_seq; [by apply mod_hb_pub_ok|intros _ s1 Hw1].
  apply good_seq; [|by intros _ s2 Hw2; apply good_ret]. case_if; [by apply hb_pub_disable_ok|].
  apply good_seq; [by apply mod_hb_pub_ok|intros _ s2 Hw2; by apply mod_hb_pub_ok].
Qed.
Lemma heartbeat_pub_set_ok : handler_ok heartbeat_pub_set 9.
Proof.
  intros r ctx buf s Hw Hr Hb Hl. unfold heartbeat_pub_set. repeat good_step.
  apply good_seq; [by apply genie_heartbeat_set_ok|intros status s1 Hw1].
  apply good_seq; [by apply hb_pub_send_status_ok|intros _ s2 Hw2]. case_if; [by apply good_genie|by apply good_ret].
Qed.

Lemma hb_publish_ok s : node_wf sh s -> good sh hb_publish anywhere s.
Proof.
  intros Hw. unfold hb_publish. apply good_seq; [by apply mod_hb_pub_ok|intros _ s1 Hw1]. good_step.
  destruct (bt_mesh_subnet_get _ _) as [i|] eqn:Hg; [|by apply mod_hb_pub_ok].
  destruct (nw_model _ _ Hw1) as (r & Hr & Href). apply (good_of_option _ _ _ _ _ r); [done|]. cbv beta.
  apply good_seq; [apply hb_send_ok; [done|done|by rewrite Hg]|intros _ s2 Hw2]. case_if; [by apply good_ret|].
  apply good_seq; [case_if; [by apply mod_hb_pub_ok|by apply good_ret]|intros _ s3 Hw3]. cbv zeta.
  case_if; [by apply mod_hb_pub_ok|by apply good_ret].
Qed.
Lemma lpn_send_hb_ok s : node_wf sh s -> good sh lpn_send_hb anywhere s.
Proof.
  intros Hw. unfold lpn_send_hb. good_step. rewrite (nw_conf _ _ Hw). cbn [negb].
  destruct (nw_model _ _ Hw) as (r & Hr & Href). apply (good_of_option _ _ _ _ _ r); [done|]. by apply hb_feature_ok.
Qed.

Lemma hb_sub_send_status_ok r ctx status s : node_wf sh s -> good sh (hb_sub_send_status r ctx status) anywhere s.
Proof. intros Hw. unfold hb_sub_send_status. repeat good_step. by apply good_reply; [|fits|]. Qed.
Lemma heartbeat_sub_get_ok : handler_ok heartbeat_sub_get 0.
Proof. intros r ctx buf s Hw Hr Hb Hl. by apply hb_sub_send_status_ok. Qed.
Lemma heartbeat_sub_set_ok : handler_ok heartbeat_sub_set 5.
Proof.
  intros r ctx buf s Hw Hr Hb Hl. unfold heartbeat_sub_set. repeat good_step. do 3 (case_if; [by apply good_ret|]).
  apply good_seq.
  { case_if.
    - apply good_seq; [|by intros _ s1 Hw1; apply good_ret]. case_if; [by apply mod_hb_sub_ok|by apply good_ret].
    - apply good_seq; [by apply mod_hb_sub_ok|by intros _ s1 Hw1; apply good_ret]. }
  intros period_ms s1 Hw1. good_step. apply good_seq; [by apply good_events; [|repeat constructor]|intros _ s2 Hw2].
  apply good_seq; [by apply mod_hb_sub_ok|intros _ s3 Hw3]. by apply hb_sub_send_status_ok.
Qed.
Lemma bt_mesh_heartbeat_ok src dst hops feat s : node_wf sh s -> good sh (bt_mesh_heartbeat src dst hops feat) anywhere s.
Proof.
  intros Hw. unfold bt_mesh_heartbeat. good_step. do 3 (case_if; [by apply good_ret|]).
  apply good_seq; [by apply mod_hb_sub_ok|intros _ s1 Hw1].
  apply good_seq; [case_if; [by apply mod_hb_sub_ok|by apply good_ret]|intros _ s2 Hw2].
  case_if; [by apply good_events; [|repeat constructor]|by apply good_ret].
Qed.

(** ** Initialisation and reset *)

Lemma cfg_srv_init_ok r s : node_wf sh s -> has_ref sh r -> good sh (bt_mesh_cfg_srv_init r) anywhere s.
Proof.
  intros Hw Hr. unfold bt_mesh_cfg_srv_init. good_step. case_if; [by apply good_ret|].
  apply good_seq; [|intros _ s1 Hw1].
  { apply good_mod_model; [done|done| |done]. intros m _ [Hl Hg Hb Ho Hd].
    assert (forall j k, <[0%nat := BT_MESH_KEY_DEV]> (md_keys m) !! j = Some k ->
      (j = 0%nat /\ k = BT_MESH_KEY_DEV) \/ (j <> 0%nat /\ md_keys m !! j = Some k)) as Hj.
    { intros j k H. apply list_lookup_insert_Some in H as [(-> & -> & _)|(? & ?)]; [by left|right; split; congruence]. }
    split; cbn.
    - by rewrite length_insert.
    - done.
    - intros k (j & [[-> ->]|[_ H]]%Hj)%list_elem_of_lookup; [by right; left|]. apply Hb. by eapply list_elem_of_lookup_2.
    - intros j j' k H H' Hu. apply Hj in H as [[-> ->]|[Hne H]]; apply Hj in H' as [[-> Hk]|[Hne' H']]; [done| | |by eapply Ho].
      + by apply Hd in H'.
      + subst k. by apply Hd in H.
    - intros j [[-> _]|[_ H]]%Hj; [done|by apply Hd]. }
  do 3 (apply good_seq; [case_if; [by apply mod_srv_ok|by apply good_ret]|clear dependent s1; intros _ s1 Hw1]).
  apply good_seq; [by apply mod_hb_pub_ok|intros _ s2 Hw2]. apply good_seq; [by apply mod_hb_sub_ok|intros _ s3 Hw3].
  apply good_seq; [|intros _ s4 Hw4].
  { apply good_modify; [|done]. destruct Hw3. split; try done. by exists r. }
  apply good_seq; [|by intros _ s5 Hw5; apply good_ret]. apply good_modify; [|done]. by destruct Hw4; split.
Qed.

(** No key, no subnet and no network. *)
Definition blank (m : mesh_net) : Prop :=
  valid m = false /\ Forall (fun e => e.1 = BT_MESH_KEY_UNUSED) (key_view m) /\
  Forall (fun n => n = BT_MESH_KEY_UNUSED) (sub_view m).

Lemma good_keeps {T} (m : G T) R Q s : good sh m Q s -> stm_keeps R m -> good sh m (fun a s' => Q a s' /\ R s s') s.
Proof.
  unfold good, stm_wp. intros Hg Hk. destruct (m s) as [[[a s'] e]|] eqn:Hm; [|done]. destruct Hg as (? & ? & ?).
  split_and!; [done..|]. by eapply Hk.
Qed.
Lemma good_emits {T} e (k : G T) Q s : node_wf sh s -> Forall room_ok e -> good sh k Q s -> good sh (stm_emit e ;; k) Q s.
Proof.
  intros Hw He Hk. eapply good_bind with (P := fun _ s' => s' = s); [by apply good_emit|]. by intros _ ? _ ->.
Qed.
Lemma good_if_emits {T} (b : bool) e (k : G T) Q s : node_wf sh s -> Forall room_ok e -> good sh k Q s ->
  good sh ((if b then stm_emit e else mret tt) ;; k) Q s.
Proof. intros Hw He Hk. destruct b; [by apply good_emits|by apply good_ret_bind]. Qed.

Lemma cfg_reset_ok s : node_wf sh s -> valid (nd_net s) = false ->
  good sh bt_mesh_cfg_reset (fun _ s' => blank (nd_net s')) s.
Proof.
  intros Hw Hvalid. eapply good_mono; [apply (good_keeps _ same_life (fun _ s' =>
    Forall (fun e => e.1 = BT_MESH_KEY_UNUSED) (key_view (nd_net s')) /\
    Forall (fun n => n = BT_MESH_KEY_UNUSED) (sub_view (nd_net s')))); [|apply life_cfg_reset]|].
  2:{ cbv beta. intros _ s' _ [[Hk Hs] [_ Hv]]. split_and!; [congruence|done..]. }
  unfold bt_mesh_cfg_reset. good_step. rewrite (nw_conf _ _ Hw). cbn [negb].
  apply good_seq; [by apply good_events; [|repeat constructor]|intros _ s1 Hw1].
  apply good_seq; [by apply mod_hb_sub_ok|intros _ s2 Hw2]. apply good_seq; [by apply hb_pub_disable_ok|intros _ s3 Hw3].
  eapply good_bind.
  { apply (all_app_keys_del_ok sh key_valid (fun e => negb (e.1 =? BT_MESH_KEY_UNUSED))); [done| |done].
    intros n idx. cbn. by intros ?%negb_true_iff%Z.eqb_neq. }
  cbv beta. intros _ s4 Hw4 [Hk4 _]. apply good_bind with (P := fun _ s' =>
    Forall (fun e => e.1 = BT_MESH_KEY_UNUSED) (key_view (nd_net s')) /\
    Forall (fun n => n = BT_MESH_KEY_UNUSED) (sub_view (nd_net s')));
    [|intros _ s5 Hw5 H5; by apply good_modify; [by apply wf_labels|]].
  assert (Forall (fun e => e.1 = BT_MESH_KEY_UNUSED) (key_view (nd_net s4))) as Hnone4.
  { eapply list.Forall_impl; [exact Hk4|]. intros e He. by apply negb_false_iff, Z.eqb_eq in He. }
  apply good_modify.
  2:{ unfold key_view, sub_view in *. destruct s4 as [net4 ? ? ? ? ? ?], net4. cbn in *. split; [done|].
      rewrite map_map. apply list.Forall_forall. by intros n (x & -> & _)%list_elem_of_fmap. }
  destruct Hw4 as [Hks Hms Hshape Hfits Hlist Hconf Hmodel].
  set (m := (nd_net s4) <| subs := map (fun _ => unused_subnet) (subs (nd_net s4)) |>).
  assert (key_view m = key_view (nd_net s4)) as Hkv by (unfold m; by destruct (nd_net s4)).
  assert (sub_view m = map (fun _ => BT_MESH_KEY_UNUSED) (sub_view (nd_net s4))) as Hsv.
  { unfold m, sub_view. destruct (nd_net s4). cbn. by rewrite !map_map. }
  split; try done. change (keys_wf (key_view m) (sub_view m)). rewrite Hkv, Hsv.
  assert (forall n idx, (n, idx) ∈ key_view (nd_net s4) -> n = BT_MESH_KEY_UNUSED) as Hnone.
  { intros n idx Hin. eapply list.Forall_forall in Hk4; [|exact Hin]. by apply negb_false_iff, Z.eqb_eq in Hk4. }
  destruct Hks as [Hl Hsl Hkey Hidx Hsub Hsubs]. split; try done.
  - by rewrite length_map.
  - intros n idx Hin Hn. by destruct Hn; eapply Hnone.
  - intros n (x & -> & _)%list_elem_of_fmap. done.
  - intros i j n Hi _ Hn. rewrite list_lookup_fmap in Hi. destruct (sub_view (nd_net s4) !! i); [|done]. by injection Hi as <-.
Qed.

(** The access layer unbinds the models and leaves the rest of them. *)
Definition init_rel (a a' : access) : Prop :=
  shape a' = shape a /\
  forall r m', get_model a' r = Some m' -> exists m, get_model a r = Some m /\
    length (md_keys m') = length (md_keys m) /\ md_groups m' = md_groups m /\
    forall i k, md_keys m' !! i = Some k -> k = BT_MESH_KEY_UNUSED \/ md_keys m !! i = Some k.
#[local] Instance init_rel_pre : PreOrder init_rel.
Proof.
  split.
  - intros a. split; [done|]. intros r m Hm. exists m. split_and!; auto.
  - intros a1 a2 a3 [H1 H1'] [H2 H2']. split; [congruence|]. intros r m3 Hm3.
    destruct (H2' r m3 Hm3) as (m2 & Hm2 & Hl2 & Hg2 & Hk2). destruct (H1' r m2 Hm2) as (m1 & Hm1 & Hl1 & Hg1 & Hk1).
    exists m1. split_and!; [done|congruence|congruence|]. intros i k Hk. destruct (Hk2 i k Hk); auto.
Qed.

Lemma init_rel_alter f r a : (forall m, model_ids (f m) = model_ids m) ->
  (forall m, length (md_keys (f m)) = length (md_keys m) /\ md_groups (f m) = md_groups m /\
    forall i k, md_keys (f m) !! i = Some k -> k = BT_MESH_KEY_UNUSED \/ md_keys m !! i = Some k) ->
  init_rel a (alter_model f r a).
Proof.
  intros Hids Hf. split; [by apply shape_alter|]. intros r' m'. rewrite get_model_alter.
  destruct (decide (r = r')) as [<-|]; [|intros Hm; exists m'; split_and!; auto].
  destruct (get_model a r) as [m|]; [|done]. intros [= <-]. exists m. destruct (Hf m) as (? & ? & ?). by split_and!.
Qed.

Definition init_ev (sh : composition) (ev : acc_event) : Prop :=
  match ev with AModelInit _ r _ => has_ref sh r | _ => True end.

Context {aenv : AccEnv}.

Lemma mod_init_wp r p a : has_ref (shape a) r ->
  stm_wp (mod_init r p) (fun _ a' e => init_rel a a' /\ Forall (init_ev (shape a)) e) a.
Proof.
  intros Hr. unfold mod_init, mod_pub. wp_steps.
  set (a1 := alter_model _ r a). set (a2 := alter_model _ r a1).
  assert (init_rel a a1) as H1 by (apply init_rel_alter; [done|]; intros m; split_and!; auto).
  assert (init_rel a1 a2) as H2.
  { apply init_rel_alter; [done|]. intros m. cbn. split_and!; [by rewrite length_map|done|]. intros i k Hk.
    rewrite list_lookup_fmap in Hk. destruct (md_keys m !! i); [|done]. injection Hk as <-. by left. }
  assert (init_rel a a2) as H by by etrans.
  destruct (mr_vnd r); [by wp_steps|]. wp_steps.
  rewrite <- (proj1 H) in Hr. destruct (proj1 (has_ref_model a2 r) Hr) as [m Hm].
  eapply wp_of_option; [exact Hm|]. rewrite (proj1 H) in Hr. destruct (has_init (md_id m)); wp_steps; cbn; (split; [done|]); by repeat constructor.
Qed.

Lemma foreach_init_wp rs a : Forall (has_ref (shape a)) rs ->
  stm_wp (foldr (fun r k => mod_init r (mr_elem r =? 0)%nat ;; k) (mret tt) rs)
    (fun _ a' e => init_rel a a' /\ Forall (init_ev (shape a)) e) a.
Proof.
  revert a. induction rs as [|r rs IH]; intros a Hrs; cbn [foldr]; [by wp_steps|].
  apply Forall_cons_iff in Hrs as [Hr Hrs]. eapply wp_call; [by apply mod_init_wp|]. cbv beta. intros _ a1 e1 [H1 He1].
  rewrite <- (proj1 H1) in Hrs. eapply wp_mono; [by apply IH|]. cbv beta. intros _ a2 e2 [H2 He2].
  rewrite (proj1 H1) in He2. split; [by etrans|by apply Forall_app].
Qed.
Lemma unprovision_wp a : stm_wp bt_mesh_comp_unprovision (fun _ a' e => init_rel a a' /\ Forall (init_ev (shape a)) e) a.
Proof.
  unfold bt_mesh_comp_unprovision, bt_mesh_model_foreach. wp_steps. set (a1 := a <| ac_primary := _ |>).
  assert (shape a1 = shape a) as Hs by done. assert (init_rel a a1) as H1 by (split; [done|intros r m Hm; exists m; split_and!; auto]).
  eapply wp_mono; [apply foreach_init_wp|].
  - apply list.Forall_forall. intros r Hr. by apply model_refs_all.
  - cbv beta. intros _ a2 e [H2 He]. split; [by etrans|]. by rewrite Hs in He.
Qed.

Lemma wf_init a s : node_wf sh s -> init_rel (nd_acc s) a -> node_wf sh (s <| nd_acc := a |>).
Proof.
  intros [Hks Hms Hshape Hfits Hlist Hconf Hmodel] [Hsa Hrel]. split; try done; cbn [nd_acc].
  - intros r m' Hm'. destruct (Hrel r m' Hm') as (m & Hm & Hl & Hg & Hk). destruct (Hms r m Hm) as [Hml Hmg Hb Ho Hd].
    split; [congruence|congruence|..].
    + intros k (i & Hi)%list_elem_of_lookup. destruct (Hk i k Hi) as [|Hi']; [by left|].
      apply Hb. by eapply list_elem_of_lookup_2.
    + intros i j k Hi Hj Hu. destruct (Hk i k Hi) as [|Hi']; [done|]. destruct (Hk j k Hj) as [|Hj']; [done|]. by eapply Ho.
    + intros i Hi. destruct (Hk i _ Hi) as [|Hi']; [done|by apply Hd].
  - change (shape a = sh). congruence.
Qed.

Lemma run_inits_ok e s : node_wf sh s -> Forall (init_ev sh) e -> good sh (run_inits e) anywhere s.
Proof.
  revert s. induction e as [|ev e IH]; intros s Hw He; cbn [run_inits]; [by apply good_ret|].
  apply Forall_cons_iff in He as [Hev He]. destruct ev; try by apply IH.
  apply good_seq; [|by intros _ s1 Hw1; apply IH]. case_if; [|by apply good_ret].
  apply good_seq; [by apply cfg_srv_init_ok|by intros ? s1 Hw1; apply good_ret].
Qed.

Lemma bt_mesh_reset_blank s : node_wf sh s ->
  good sh bt_mesh_reset (fun _ s' => nd_provisioned s' = false /\
    ((nd_provisioned s = false -> blank (nd_net s)) -> blank (nd_net s'))) s.
Proof.
  intros Hw. unfold bt_mesh_reset. good_step. destruct (nd_provisioned s) eqn:Hp; cbn [negb]; [|by apply good_ret; auto].
  apply good_seq; [|intros _ s1 Hw1].
  { unfold good, stm_wp, acc_inits. pose proof (unprovision_wp (nd_acc s)) as Hu. unfold stm_wp in Hu.
    destruct (bt_mesh_comp_unprovision (nd_acc s)) as [[[[] a] e]|]; [|done]. destruct Hu as [Hrel He].
    rewrite (nw_shape _ _ Hw) in He. fold (stm_wp (St := node) (Ev := cfg_event) (A := unit)).
    apply good_seq; [apply good_events; [by apply wf_init|]|intros _ s1 Hw1].
    - apply Forall_map, list.Forall_true. by intros [].
    - apply good_seq; [by apply run_inits_ok|by intros _ s2 Hw2; apply good_ret]. }
  apply good_seq; [apply good_modify; [apply wf_list; [done|]|done]|clear dependent s1; intros _ s1 Hw1].
  { rewrite length_map. apply (nw_list _ _ Hw1). }
  apply good_bind with (P := fun _ s' => valid (nd_net s') = false);
    [by apply good_modify; [apply wf_net; [done|by destruct (nd_net s1)..]|destruct (nd_net s1)]|].
  clear dependent s1. intros _ s1 Hw1 Hv1. apply good_emits; [done|by repeat constructor|].
  eapply good_bind; [by apply cfg_reset_ok|]. cbv beta. clear dependent s1. intros _ s1 Hw1 Hb1.
  apply good_emits; [done|by repeat constructor|]. do 3 (apply good_if_emits; [done|by repeat constructor|]).
  apply good_bind with (P := fun _ s' => blank (nd_net s'));
    [by apply good_modify; [apply wf_net; [done|by destruct (nd_net s1)..]|destruct s1 as [n1 ? ? ? ? ? ?], n1]|].
  clear dependent s1. intros _ s1 Hw1 Hb1.
  apply good_bind with (P := fun _ s' => nd_provisioned s' = false /\ blank (nd_net s'));
    [by apply good_modify; [destruct Hw1; split|]|].
  clear dependent s1. intros _ s1 Hw1 Hb1. apply good_emit; [done|by repeat constructor|]. by destruct Hb1.
Qed.
Lemma bt_mesh_reset_ok s : node_wf sh s -> good sh bt_mesh_reset anywhere s.
Proof. intros Hw. eapply good_mono; [by apply bt_mesh_reset_blank|done]. Qed.

Lemma node_reset_ok : handler_ok node_reset 0.
Proof.
  intros r ctx buf s Hw Hr Hb Hl. unfold node_reset. apply good_seq; [by apply good_reply; [|fits|]|intros _ s1 Hw1].
  case_if; [by apply good_ret|]. apply good_seq; [by apply bt_mesh_reset_ok|intros _ s2 Hw2; by apply good_genie].
Qed.

(** ** Every operation *)

(** The table asks one byte too few of one message. *)
Lemma table_ok : Forall (fun op => op.1.1 = OP_MOD_PUB_VA_SET \/ handler_ok op.2 op.1.2) bt_mesh_cfg_srv_op.
Proof.
  unfold bt_mesh_cfg_srv_op. repeat apply List.Forall_cons; try apply List.Forall_nil; cbn [fst snd].
  all: first [by left | right].
  all: first
    [ exact dev_comp_data_get_ok | exact (app_key_add_ok sh) | exact (app_key_update_ok sh) | exact (app_key_del_handler_ok sh)
    | exact (app_key_get_ok sh) | exact beacon_get_ok | exact beacon_set_ok | exact default_ttl_get_ok | exact default_ttl_set_ok
    | exact gatt_proxy_get_ok | exact gatt_proxy_set_ok | exact net_transmit_get_ok | exact net_transmit_set_ok
    | exact relay_get_ok | exact relay_set_ok | exact (mod_pub_get_ok sh) | exact (mod_pub_set_handler_ok sh)
    | exact (mod_sub_add_ok sh) | exact (mod_sub_va_ok sh _ (sub_va_add_ok sh)) | exact (mod_sub_del_ok sh)
    | exact (mod_sub_va_ok sh _ (sub_va_del_ok sh)) | exact (mod_sub_overwrite_ok sh)
    | exact (mod_sub_va_ok sh _ (sub_va_overwrite_ok sh)) | exact (mod_sub_del_all_ok sh) | exact (mod_sub_get_ok sh)
    | exact (mod_sub_get_vnd_ok sh) | exact net_key_add_ok | exact net_key_update_ok | exact net_key_del_ok | exact net_key_get_ok
    | exact node_identity_get_ok | exact node_identity_set_ok | exact (mod_app_bind_ok sh) | exact (mod_app_unbind_ok sh)
    | exact (mod_app_get_ok sh) | exact node_reset_ok | exact friend_get_ok | exact friend_set_ok | exact lpn_timeout_get_ok
    | exact krp_get_ok | exact krp_set_ok | exact heartbeat_pub_get_ok | exact heartbeat_pub_set_ok
    | exact heartbeat_sub_get_ok | exact heartbeat_sub_set_ok
    | intros r ctx buf s Hw Hr Hb Hl; apply (mod_app_get_ok sh); [done..|lia] ].
Qed.

(** What reaches the server: messages, received heartbeats, its timer, a change of
    the features of a Low Power node, and the application's calls. *)
Inductive cfg_op :=
| OpMessage (r : model_ref) (opcode : Z) (ctx : msg_ctx) (buf : bytes)
| OpHeartbeat (src dst hops feat : Z)
| OpPublish
| OpLpnHeartbeat
| OpAppKey (net_idx app_idx : Z) (val : bytes) (update : bool)
| OpHeartbeatSet (pa : hb_para)
| OpReset.

Definition run_op (op : cfg_op) : G unit :=
  match op with
  | OpMessage r opcode ctx buf => cfg_srv_recv r opcode ctx buf
  | OpHeartbeat src dst hops feat => bt_mesh_heartbeat src dst hops feat
  | OpPublish => hb_publish
  | OpLpnHeartbeat => lpn_send_hb
  | OpAppKey net_idx app_idx val update => genie_appkey_register net_idx app_idx val update
  | OpHeartbeatSet pa => genie_heartbeat_set pa ;; mret tt
  | OpReset => bt_mesh_reset
  end.
Fixpoint run_ops (ops : list cfg_op) : G unit :=
  match ops with [] => mret tt | op :: ops => run_op op ;; run_ops ops end.

(** Messages are byte strings for a model of the node, keys of 16 bytes with
    twelve-bit indexes. *)
Definition op_ok (op : cfg_op) : Prop :=
  match op with
  | OpMessage r opcode _ buf => has_ref sh r /\ is_bytes buf /\ ~ (opcode = OP_MOD_PUB_VA_SET /\ length buf = 24%nat)
  | OpAppKey net_idx app_idx val _ => is_block val /\ 0 <= net_idx <= 0xfff /\ 0 <= app_idx <= 0xfff
  | _ => True
  end.

Lemma cfg_srv_recv_ok r opcode ctx buf s : node_wf sh s -> op_ok (OpMessage r opcode ctx buf) ->
  good sh (cfg_srv_recv r opcode ctx buf) anywhere s.
Proof.
  intros Hw (Hr & Hb & Hlen). unfold cfg_srv_recv.
  destruct (List.find _ _) as [[[op min_len] func]|] eqn:Hf; [|by apply good_ret].
  destruct (decide (length buf < min_len)%nat); [by apply good_ret|].
  pose proof (find_some _ _ Hf) as [Hin Hop%Z.eqb_eq]. cbn [fst] in Hop.
  destruct (decide (op = OP_MOD_PUB_VA_SET)) as [->|Hne].
  - rewrite <- Hop in Hf. injection Hf as <- <-. apply (mod_pub_va_set_ok sh); [done..|]. cbn in *. lia.
  - pose proof table_ok as Ht. eapply List.Forall_forall in Ht; [|exact Hin]. cbn [fst snd] in Ht.
    destruct Ht as [|Ht]; [done|]. apply Ht; [done..|lia].
Qed.
Lemma cfg_op_run_ok op s : node_wf sh s -> op_ok op -> good sh (run_op op) anywhere s.
Proof.
  intros Hw Hop. destruct op; cbn [run_op].
  - by apply cfg_srv_recv_ok.
  - by apply bt_mesh_heartbeat_ok.
  - by apply hb_publish_ok.
  - by apply lpn_send_hb_ok.
  - destruct Hop as (? & ? & ?). by apply (genie_appkey_register_ok sh).
  - apply good_seq; [by apply genie_heartbeat_set_ok|by intros ? s1 Hw1; apply good_ret].
  - by apply bt_mesh_reset_ok.
Qed.
Lemma run_ops_ok ops s : node_wf sh s -> Forall op_ok ops -> good sh (run_ops ops) anywhere s.
Proof.
  revert s. induction ops as [|op ops IH]; intros s Hw Hops; cbn [run_ops]; [by apply good_ret|].
  apply Forall_cons_iff in Hops as [Hop Hops]. apply good_seq; [by apply cfg_op_run_ok|by intros _ s1 Hw1; apply IH].
Qed.

(** C9: configuration keeps a node consistent. Whatever messages, heartbeats,
    timer expiries, calls of the application and resets reach the Configuration
    Server, in any order, it never runs into undefined behaviour (messages are
    byte strings of any length; the one message excluded is a Model Publication
    Virtual Address Set of 24 bytes), every answer leaves the four bytes that the
    transport layer needs for its MIC, and in the state it leaves: every
    application key in use has a twelve-bit index that no other key has and is
    bound to a subnet of the node, the indexes of subnets are distinct, and a
    model is bound only to application keys in use, at most once to each, and to
    the device key only in its first entry. *)
Theorem configuration_consistent ops s : node_wf sh s -> Forall op_ok ops ->
  stm_wp (run_ops ops) (fun _ s' e =>
    keys_wf (key_view (nd_net s')) (sub_view (nd_net s')) /\
    models_wf (key_view (nd_net s')) (nd_acc s') /\
    shape (nd_acc s') = sh /\
    Forall room_ok e) s.
Proof.
  intros Hw Hops. eapply wp_mono; [by apply run_ops_ok|]. cbv beta. intros _ s' e (Hw' & He & _).
  split_and!; [apply (nw_keys _ _ Hw')|apply (nw_models _ _ Hw')|apply (nw_shape _ _ Hw')|done].
Qed.
End server.

(** The length the table asks of a Model Publication Virtual Address Set leaves
    one byte for the model identifier: the handler reads past the message. *)
Theorem va_set_reads_past {cfg : MeshConfig} {env : CfgEnv} {aenv : AccEnv} r ctx buf s : length buf = 24%nat ->
  ttl_valid (byte_at buf 20) = true -> cfg_srv_recv r OP_MOD_PUB_VA_SET ctx buf s = None.
Proof.
  intros Hl Httl. assert (cfg_srv_recv r OP_MOD_PUB_VA_SET ctx buf = mod_pub_va_set r ctx buf) as ->.
  { unfold cfg_srv_recv. change (List.find _ _) with (Some (OP_MOD_PUB_VA_SET, 24%nat, mod_pub_va_set)).
    cbv beta iota. by rewrite decide_False by lia. }
  destruct (mod_pub_va_set r ctx buf s) as [[[u s'] e]|] eqn:Hrun; [|done]. exfalso.
  assert (stm_par (mod_pub_va_set r ctx buf) (fun _ _ => False) s) as Hpar; [|by apply (par_run _ _ _ _ _ _ Hpar Hrun)].
  clear Hrun. do 24 (destruct buf as [|? buf]; [discriminate Hl|]). destruct buf; [|discriminate Hl].
  change (ttl_valid z19 = true) in Httl. unfold mod_pub_va_set, pull_le16, pull_mem, pull_u8.
  do 8 (par_step; cbv beta iota; cbn [length take drop fst snd]; try rewrite decide_False by lia). rewrite Httl. cbn [negb].
  do 4 (par_step; cbv beta iota; cbn [length take drop fst snd]). unfold find_model. par_steps. destruct (bt_mesh_elem_find _ _) as [i|]; par_steps.
  - apply par_of_option. intros el _. unfold get_model_id, pull_le16. cbn [length].
    rewrite decide_True by lia. rewrite (decide_True (P := (1 < 2)%nat)) by lia. by par_steps.
  - cbn [length Nat.eqb]. unfold send_mod_pub_status, mod_id_of, pull_mem. par_steps. cbn [Z.eqb negb]. par_steps.
    cbn [length]. rewrite decide_True by lia. by par_steps.
Qed.

(** ** A node *)

Definition sample_cfg_env : CfgEnv :=
  {| CONFIG_RELAY := true; CONFIG_ALI_SIMPLE_MODLE := false; CONFIG_PB_ADV := true; CONFIG_PB_GATT := true; c_uptime := 1000;
     c_lpn_frnd := 0; c_lpn_established := false; c_reset_flag := false; c_flash_sub := None; mesh_sub_init l := l;
     comp_cid := 0x01a8; comp_pid := 0; comp_vid := 0; elem_loc _ := 0 |}.
Definition sample_cfg_acc_env : AccEnv :=
  {| acc_net := sample_acc_net; is_provisioned := true; uptime_32 := 5000; net_transmit := 0;
     Access.friend_get := 0; relay_state := 1; trans_send _ _ _ := (0, None);
     handler _ _ ctx _ := mret ctx; update _ := mret 0; has_init id := id =? BT_MESH_MODEL_ID_CFG_SRV |}.

Definition sample_groups : list Z := replicate MODEL_GROUP_COUNT 0.
Definition sample_cfg_srv : model :=
  mk_model 0 BT_MESH_MODEL_ID_CFG_SRV None [BT_MESH_KEY_DEV; BT_MESH_KEY_UNUSED] sample_groups [].
Definition sample_server : model :=
  mk_model 0 0x1000 (Some (mk_model_pub 0 0 0 0 0 0 false 0 0 [] true None)) [BT_MESH_KEY_UNUSED; BT_MESH_KEY_UNUSED] sample_groups [].
Definition sample_vendor : model :=
  mk_model 0x01a8 0 None [BT_MESH_KEY_UNUSED; BT_MESH_KEY_UNUSED] sample_groups [].

(** A node that has just been provisioned: one subnet, no application key. *)
Definition sample_cfg_node : node :=
  let net := bt_mesh_init_state 1 in
  mk_node (net <| subs := [unused_subnet <| sub_net_idx := 0 |>; unused_subnet] |>)
    (mk_access [mk_elem 2 [sample_cfg_srv; sample_server] [sample_vendor]] 2)
    (cfg_srv_init_state (cfg := proxy_friend_config) <| cs_model := Some (mk_model_ref 0 false 0) |>) true
    (replicate LABEL_COUNT zero_label) sample_groups true.
Definition sample_shape : composition := shape (nd_acc sample_cfg_node).

Lemma sample_laws : @CfgLaws sample_cfg_env.
Proof. by split. Qed.

Lemma sample_cfg_wf : node_wf sample_shape sample_cfg_node.
Proof.
  split; try done.
  - split; [done|done|..].
    + intros n idx (i & Hi)%list_elem_of_lookup Hn. destruct i; [by injection Hi as <- <-|done].
    + intros i j n idx n' Hi _ Hn. destruct i; [by injection Hi as <- <-|done].
    + intros n Hn Hu. apply list_elem_of_lookup in Hn as ([|[|i]] & Hi); [injection Hi as <-; lia|by injection Hi as <-|done].
    + intros i j n Hi Hj Hu. destruct i as [|[|i]], j as [|[|j]]; try done; injection Hi as <-; injection Hj as Hj; done.
  - intros r m Hm. unfold get_model in Hm. destruct r as [[|i] vnd j]; [|done]. cbn in Hm.
    assert (m = sample_cfg_srv \/ m = sample_server \/ m = sample_vendor) as Hcase.
    { destruct vnd, j as [|[|j]]; try done; injection Hm as <-; auto. }
    assert (forall k, k ∈ md_keys m -> k = BT_MESH_KEY_UNUSED \/ k = BT_MESH_KEY_DEV) as Hk.
    { intros k Hk. destruct Hcase as [->|[->| ->]]; apply list_elem_of_In in Hk; cbn in Hk; intuition auto. }
    split; try (by destruct Hcase as [->|[->| ->]]).
    + intros k Hin. destruct (Hk k Hin); auto.
    + intros a b k Ha Hb Hu. destruct Hcase as [->|[->| ->]]; destruct a as [|[|a]], b as [|[|b]]; try done;
        (injection Ha as <- || injection Hb as <-); done.
    + intros a Ha. destruct Hcase as [->|[->| ->]]; destruct a as [|[|a]]; try done; injection Ha as Ha; done.
  - unfold comp_fits. cbn. unfold BT_MESH_TX_SDU_MAX. lia.
  - exists (mk_model_ref 0 false 0). split; [done|]. eexists. split; [done|]. cbn. lia.
Qed.

(** The server gets a key, binds a model to it, deletes it and is reset. *)
Definition sample_cfg_ops : list cfg_op :=
  let r := mk_model_ref 0 false 0 in
  let ctx := mk_ctx 0 BT_MESH_KEY_DEV 1 5 7 false in
  [OpMessage r OP_APP_KEY_ADD ctx (key_idx_pack 0 1 ++ replicate 16 7);
   OpMessage r OP_MOD_APP_BIND ctx (sys_put_le16 2 ++ sys_put_le16 1 ++ sys_put_le16 0x1000);
   OpMessage r OP_APP_KEY_DEL ctx (key_idx_pack 0 1);
   OpReset].

Lemma sample_cfg_ops_ok : Forall (op_ok sample_shape) sample_cfg_ops.
Proof.
  assert (has_ref sample_shape (mk_model_ref 0 false 0)) as Hr by (eexists; split; [done|cbn; lia]).
  repeat apply List.Forall_cons; try apply List.Forall_nil; [..|done];
    (split; [done|]; split; [by apply (bool_decide_unpack (is_bytes _))|by intros [? _]]).
Qed.

Lemma configuration_consistent_witness : exists s e,
  run_ops (cfg := proxy_friend_config) (env := sample_cfg_env) (aenv := sample_cfg_acc_env) sample_cfg_ops sample_cfg_node = Some (tt, s, e) /\
  models_wf (key_view (nd_net s)) (nd_acc s).
Proof.
  destruct (wp_inv _ _ _ (configuration_consistent (cfg := proxy_friend_config) (env := sample_cfg_env) (laws := sample_laws)
    sample_shape (aenv := sample_cfg_acc_env) sample_cfg_ops sample_cfg_node sample_cfg_wf sample_cfg_ops_ok))
    as ([] & s & e & Hrun & _ & Hm & _). by exists s, e.
Defined.
