(* ===== verification/CfgProps.v ===== *)
(** * What the Configuration Server does

    Messages that are answered with a failure change nothing; how many heartbeats
    a publication sends, and when; and runs of the server that show where it strays
    from what it means to do. *)

From stdpp Require Import gmap sets.
From S2P Require Import Prelude NetBuf Cmac Ccm MeshCrypto NetState NetIv TransState TransTx Access Beacon Proxy CfgState CfgModels CfgSrv CfgWf CfgOk CfgSafe CfgServer.

(** ** A request that fails changes nothing *)

(** The keys, the models, the server's states and the list of subscriptions; the
    labels may differ. *)
Definition same_config (s s' : node) : Prop :=
  nd_net s' = nd_net s /\ nd_acc s' = nd_acc s /\ nd_srv s' = nd_srv s /\ nd_sub_list s' = nd_sub_list s.

(** A failure status comes with no change and no call of other components. *)
Definition fails_clean (m : G Z) (s : node) : Prop :=
  forall st s' e, m s = Some (st, s', e) -> st <> STATUS_SUCCESS -> same_config s s' /\ e = [].

Lemma clean_ret st s : fails_clean (mret st) s.
Proof. intros st' s' e [= <- <- <-] _. done. Qed.
(** A computation that can only answer success. *)
Definition succeeds {T} (ok : T -> Prop) (m : G T) : Prop := forall s st s' e, m s = Some (st, s', e) -> ok st.
Lemma succeeds_ret {T} (ok : T -> Prop) st : ok st -> succeeds ok (mret st).
Proof. by intros Hok s st' s' e [= <- _ _]. Qed.
Lemma succeeds_bind {T U} ok (m : G T) (f : T -> G U) : (forall a, succeeds ok (f a)) -> succeeds ok (stm_bind m f).
Proof.
  intros Hf s st s' e. unfold stm_bind. destruct (m s) as [[[a s1] e1]|]; [|done].
  destruct (f a s1) as [[[b s2] e2]|] eqn:Hrun; [|done]. intros [= <- _ _]. by eapply Hf.
Qed.
Lemma clean_succeeds m s : succeeds (eq STATUS_SUCCESS) m -> fails_clean m s.
Proof. intros Hm st s' e Hrun Hst. by destruct Hst; rewrite <- (Hm _ _ _ _ Hrun). Qed.
Lemma clean_get (f : node -> G Z) s : fails_clean (f s) s -> fails_clean (stm_bind stm_get f) s.
Proof. intros H st s' e Hrun. apply (H st s' e). rewrite <- Hrun. symmetry. by rewrite (stm_bind_pure _ _ s s s). Qed.
Lemma clean_of_option {T} (o : option T) (f : T -> G Z) s :
  (forall a, o = Some a -> fails_clean (f a) s) -> fails_clean (stm_bind (stm_of_option o) f) s.
Proof.
  intros H. destruct o as [a|]; [|by intros st s' e]. intros st s' e Hrun. apply (H a eq_refl st s' e).
  rewrite <- Hrun. symmetry. by rewrite (stm_bind_pure _ _ s a s).
Qed.
Lemma clean_model r (f : model -> G Z) s :
  (forall m, get_model (nd_acc s) r = Some m -> fails_clean (f m) s) -> fails_clean (stm_bind (node_model r) f) s.
Proof.
  intros H. unfold node_model. intros st s' e. rewrite stm_bind_assoc. revert st s' e.
  change (fails_clean (stm_bind stm_get (fun s => stm_bind (stm_of_option (get_model (nd_acc s) r)) f)) s).
  apply clean_get, clean_of_option. exact H.
Qed.
Lemma same_config_refl s : same_config s s.
Proof. done. Qed.
Lemma same_config_trans s1 s2 s3 : same_config s1 s2 -> same_config s2 s3 -> same_config s1 s3.
Proof. unfold same_config. intuition congruence. Qed.

(** The first part changes nothing, or the rest succeeds. *)
Lemma clean_bind {T} (m : G T) (f : T -> G Z) s :
  (forall a s' e, m s = Some (a, s', e) ->
     (same_config s s' /\ e = [] /\ fails_clean (f a) s') \/ succeeds (eq STATUS_SUCCESS) (f a)) ->
  fails_clean (stm_bind m f) s.
Proof.
  intros H st s' e. unfold stm_bind. destruct (m s) as [[[a s1] e1]|] eqn:Hm; [|done].
  destruct (f a s1) as [[[b s2] e2]|] eqn:Hf; [|done]. intros [= <- <- <-] Hst.
  destruct (H a s1 e1 eq_refl) as [(Hs & -> & Hc)|Hok]; [|by destruct Hst; rewrite <- (Hok _ _ _ _ Hf)].
  destruct (Hc _ _ _ Hf Hst) as [Hs2 ->]. split; [by eapply same_config_trans|done].
Qed.

(** Insertion in a list fails only without a change. *)
Definition inserts (m : G bool) : Prop :=
  forall s s' e, m s = Some (false, s', e) -> s' = s /\ e = [].
Lemma inserts_get (f : node -> G bool) : (forall s s' e, f s s = Some (false, s', e) -> s' = s /\ e = []) ->
  inserts (stm_bind stm_get f).
Proof. intros H s s' e. rewrite (stm_bind_pure _ _ s s s) by done. apply H. Qed.
Lemma model_inserts r (f : model -> G bool) s s' e :
  (forall m s' e, f m s = Some (false, s', e) -> s' = s /\ e = []) ->
  stm_bind (node_model r) f s = Some (false, s', e) -> s' = s /\ e = [].
Proof.
  intros H. unfold node_model. rewrite stm_bind_assoc, (stm_bind_pure _ _ s s s) by done.
  destruct (get_model (nd_acc s) r) as [m|]; [|done]. rewrite (stm_bind_pure _ _ s m s) by done. apply H.
Qed.
Lemma true_inserts (m : G bool) s s' e : succeeds (eq true) m -> m s = Some (false, s', e) -> s' = s /\ e = [].
Proof. intros Hm Hrun. by pose proof (Hm _ _ _ _ Hrun). Qed.

Ltac succeed := repeat (apply succeeds_bind; intros ?); by apply succeeds_ret.

Section failure.
Context {cfg : MeshConfig} {env : CfgEnv}.
Variable sh : composition.

(** The requests that configure a model or a key, without their messages. *)
Inductive request :=
| ReqBind (r : model_ref) (app_idx : Z)
| ReqUnbind (r : model_ref) (app_idx : Z)
| ReqPublish (r : model_ref) (addr app_idx : Z) (cred : bool) (ttl period retransmit : Z)
| ReqAppKey (net_idx app_idx : Z) (val : bytes) (update : bool)
| ReqSubAdd (r : model_ref) (addr : Z)
| ReqSubDel (r : model_ref) (addr : Z)
| ReqSubOverwrite (r : model_ref) (addr : Z)
| ReqVaAdd (r : model_ref) (uuid : bytes)
| ReqVaDel (r : model_ref) (uuid : bytes)
| ReqHeartbeat (pa : hb_para).

Definition do_request (q : request) : G Z :=
  match q with
  | ReqBind r k => mod_bind r k
  | ReqUnbind r k => mod_unbind r k
  | ReqPublish r a k c t p x => _mod_pub_set r a k c t p x
  | ReqAppKey n k v u => app_key_set n k v u
  | ReqSubAdd r a => sub_add r a
  | ReqSubDel r a => sub_del r a
  | ReqSubOverwrite r a => sub_overwrite r a
  | ReqVaAdd r u => p <- sub_va_add r u ;; mret p.1
  | ReqVaDel r u => p <- sub_va_del r u ;; mret p.1
  | ReqHeartbeat pa => genie_heartbeat_set pa
  end.
Definition request_ok (q : request) : Prop :=
  match q with
  | ReqBind r _ | ReqUnbind r _ | ReqPublish r _ _ _ _ _ _ | ReqSubAdd r _ | ReqSubDel r _ | ReqSubOverwrite r _ => has_ref sh r
  | ReqVaAdd r u | ReqVaDel r u => has_ref sh r /\ is_bytes u
  | ReqAppKey n k v _ => is_block v /\ 0 <= n <= 0xfff /\ 0 <= k <= 0xfff
  | ReqHeartbeat _ => True
  end.

Lemma group_insert_inserts r addr : inserts (group_insert r addr).
Proof.
  intros s s' e. apply model_inserts. intros m s1 e1. destruct (find_index _ _); [apply true_inserts; succeed|].
  by intros [= <- <-].
Qed.
Lemma sub_list_insert_inserts r addr : inserts (sub_list_insert r addr).
Proof.
  apply inserts_get. intros s s' e. apply model_inserts. intros m s1 e1.
  destruct (find_index _ _); [apply true_inserts; succeed|]. by intros [= <- <-].
Qed.

Lemma mod_pub_set_clean r a k c t p x s : fails_clean (_mod_pub_set r a k c t p x) s.
Proof.
  apply clean_get, clean_model. intros m _. destruct (md_pub m); [|apply clean_ret].
  do 2 (case_if; [apply clean_ret|]). case_if; [apply clean_succeeds; succeed|].
  destruct (bt_mesh_app_key_find _ _); [|apply clean_ret]. apply clean_succeeds. succeed.
Qed.
Lemma mod_bind_clean r k s : fails_clean (mod_bind r k) s.
Proof.
  apply clean_get, clean_model. intros m _. do 2 (case_if; [apply clean_ret|]).
  destruct (find_index _ _); [apply clean_succeeds; succeed|apply clean_ret].
Qed.
Lemma mod_unbind_clean r k s : fails_clean (mod_unbind r k) s.
Proof.
  apply clean_get, clean_model. intros m _. case_if; [apply clean_ret|].
  destruct (find_index _ _); [apply clean_succeeds; succeed|apply clean_ret].
Qed.
Lemma genie_heartbeat_set_clean pa s : fails_clean (genie_heartbeat_set pa) s.
Proof. apply clean_get. do 6 (case_if; [apply clean_ret|]). apply clean_succeeds. succeed. Qed.

Lemma app_key_store_ok_status j n k v u : is_block v -> succeeds (eq STATUS_SUCCESS) (app_key_store j n k v u).
Proof. intros Hv. unfold app_key_store, bt_mesh_app_id. rewrite k4_spec by done. cbn [res_mbind mbind res_bind]. succeed. Qed.
Lemma app_key_set_clean n k v u s : is_block v -> fails_clean (app_key_set n k v u) s.
Proof.
  intros Hv. apply clean_get. cbv zeta. destruct (bt_mesh_subnet_get (nd_net s) n); [|apply clean_ret].
  apply clean_of_option. intros sub _. apply clean_of_option. intros key _.
  destruct u.
  - destruct (app_key_slot _ _); [|apply clean_ret]. destruct key; [|apply clean_ret].
    do 3 (case_if; [apply clean_ret|]). apply clean_succeeds, succeeds_bind. intros ?. by apply app_key_store_ok_status.
  - destruct key; [apply clean_ret|]. destruct (app_key_alloc _); [|apply clean_ret].
    by apply clean_succeeds, app_key_store_ok_status.
Qed.

Lemma sub_add_clean r a s : fails_clean (sub_add r a) s.
Proof.
  apply clean_model. intros m _. do 2 (case_if; [apply clean_ret|]). apply clean_bind. intros [] s' e Hrun.
  - right. cbn [negb]. succeed.
  - left. assert (s' = s /\ e = []) as [-> ->]; [|by split_and!; [done|done|apply clean_ret]].
    revert Hrun. case_if; [apply sub_list_insert_inserts|apply group_insert_inserts].
Qed.
Lemma sub_del_clean r a s : fails_clean (sub_del r a) s.
Proof. unfold sub_del. case_if; [apply clean_ret|]. apply clean_succeeds. succeed. Qed.

(** With a well-formed model the last failure of the function cannot occur. *)
Lemma sub_overwrite_clean r a s : node_wf sh s -> has_ref sh r -> fails_clean (sub_overwrite r a) s.
Proof.
  intros Hw Hr. unfold sub_overwrite. case_if; [apply clean_ret|].
  assert (forall s1, node_wf sh s1 -> stm_par (m <- node_model r ;;
    if decide (length (md_groups m) = 0%nat) then mret STATUS_INSUFF_RESOURCES
    else set_groups r (fun l => <[0%nat := a]> l) ;; lpn_group_add a ;; mret STATUS_SUCCESS)
      (fun st _ => st = STATUS_SUCCESS) s1) as Hpar.
  { intros s1 Hw1. unfold node_model. par_steps. apply par_of_option. intros m Hm. rewrite decide_False.
    - unfold stm_par. destruct (stm_bind _ _ s1) as [[[st s2] e2]|] eqn:Hrun; [|done]. symmetry. revert Hrun.
      clear Hw1 Hm. revert st s2 e2. revert s1. succeed.
    - by rewrite (mw_groups _ _ (nw_models _ _ Hw1 _ _ Hm)). }
  pose proof (sub_clear_ok sh r s Hw Hr) as Hc. unfold good, stm_wp in Hc. intros st s' e. unfold stm_bind at 1.
  destruct (sub_clear r s) as [[[[] s1] e1]|]; [|done]. destruct Hc as (Hw1 & _ & _).
  match goal with |- context [match ?m s1 with _ => _ end] => destruct (m s1) as [[[st2 s2] e2]|] eqn:Hrun end; [|done].
  intros [= <- _ _] []. exact (par_run _ _ _ _ _ _ (Hpar s1 Hw1) Hrun).
Qed.

Lemma va_add_clean uuid s a s' e : va_add uuid s = Some (a, s', e) -> same_config s s' /\ e = [].
Proof.
  unfold va_add. rewrite (stm_bind_pure _ _ s s s) by done. destruct (va_find s uuid) as [addr [i|]];
    (case_if; [by intros [= _ <- <-]|]); [|by intros [= _ <- <-]].
  destruct (bt_mesh_virtual_addr uuid); [|by intros [= _ <- <-]|done]. by intros [= _ <- <-].
Qed.

(** The status of an answer with an address. *)
Lemma clean_fst (m : G (Z * Z)) s :
  (forall st a s' e, m s = Some ((st, a), s', e) -> st <> STATUS_SUCCESS -> same_config s s' /\ e = []) ->
  fails_clean (p <- m ;; mret p.1) s.
Proof.
  intros H st s' e. unfold stm_bind. destruct (m s) as [[[[st1 a] s1] e1]|] eqn:Hm; [|done].
  intros [= <- <- <-] Hst. cbn [fst] in Hst. destruct (H _ _ _ _ eq_refl Hst) as [? ->]. done.
Qed.
Lemma sub_va_add_clean r uuid s : fails_clean (p <- sub_va_add r uuid ;; mret p.1) s.
Proof.
  apply clean_fst. intros st a s' e. unfold sub_va_add. unfold stm_bind at 1.
  destruct (va_add uuid s) as [[[[st1 a1] s1] e1]|] eqn:Hva; [|done]. destruct (va_add_clean _ _ _ _ _ Hva) as [Hs ->].
  intros Hrun Hst.
  assert (fails_clean (p <- (if negb (st1 =? STATUS_SUCCESS) then mret (st1, a1)
    else m <- node_model r ;;
    if bool_decide (is_Some (bt_mesh_model_find_group m a1)) then mret (STATUS_SUCCESS, a1)
    else added <- group_insert r a1 ;;
      if negb added then mret (STATUS_INSUFF_RESOURCES, a1)
      else lpn_group_add a1 ;; mret (STATUS_SUCCESS, a1)) ;; mret p.1) s1) as Hc.
  { case_if; [apply clean_ret|]. intros st2 s2 e2. rewrite stm_bind_assoc. revert st2 s2 e2. apply clean_model.
    intros m _. case_if; [apply clean_ret|]. intros st2 s2 e2. rewrite stm_bind_assoc. revert st2 s2 e2.
    apply clean_bind. intros [] s2 e2 Hins.
    - right. intros s3 st3 s4 e3. cbn [negb]. rewrite stm_bind_assoc. revert s3 st3 s4 e3.
      apply (succeeds_bind (eq STATUS_SUCCESS)). by intros _ s3 st3 s4 e3 [= <- _ _].
    - left. destruct (group_insert_inserts _ _ _ _ _ Hins) as [-> ->]. split_and!; [done..|]. by intros st3 s3 e3 [= _ <- <-]. }
  revert Hrun. cbv beta iota.
  match goal with |- context [match ?m with Some _ => _ | None => None end] => destruct m as [[[[st2 a2] s2] e2]|] eqn:Hrun2 end; [|done].
  intros [= <- <- <- <-]. destruct (Hc st2 s2 e2) as [Hs2 ->]; [|done|].
  - unfold stm_bind at 1. rewrite Hrun2. cbn. by rewrite app_nil_r.
  - split; [by eapply same_config_trans|done].
Qed.
Lemma group_remove_inserts r addr : inserts (group_remove r addr).
Proof.
  intros s s' e. apply model_inserts. intros m s1 e1. destruct (bt_mesh_model_find_group _ _); [apply true_inserts; succeed|].
  by intros [= <- <-].
Qed.
Lemma sub_va_del_clean r uuid s : fails_clean (p <- sub_va_del r uuid ;; mret p.1) s.
Proof.
  apply clean_fst. intros st a s' e. unfold sub_va_del. rewrite (stm_bind_pure _ _ s s s) by done.
  case_if; [by intros [= _ _ <- <-]|]. unfold stm_bind. destruct (group_remove _ _ _) as [[[[] s1] e1]|] eqn:Hrm; [| |done].
  - by intros [= <- _ _ _] [].
  - destruct (group_remove_inserts _ _ _ _ _ Hrm) as [-> ->]. by intros [= _ _ <- <-].
Qed.

Lemma request_clean q s : node_wf sh s -> request_ok q -> fails_clean (do_request q) s.
Proof.
  intros Hw Hq. destruct q; cbn in Hq |- *.
  - apply mod_bind_clean.
  - apply mod_unbind_clean.
  - apply mod_pub_set_clean.
  - destruct Hq. by apply app_key_set_clean.
  - apply sub_add_clean.
  - apply sub_del_clean.
  - by apply sub_overwrite_clean.
  - apply sub_va_add_clean.
  - apply sub_va_del_clean.
  - apply genie_heartbeat_set_clean.
Qed.

End failure.

(** *** The operations send nothing *)

Definition not_send (ev : cfg_event) : Prop := match ev with CSend _ _ _ _ => False | _ => True end.

Section quiet.
Context {cfg : MeshConfig} {env : CfgEnv}.

Lemma acc_quiet {T} (m : A T) : stm_emits not_send (acc m).
Proof.
  intros s a s' e. unfold acc. destruct (m (nd_acc s)) as [[[a' ac] e']|]; [|done]. intros [= <- <- <-].
  apply List.Forall_map, List.Forall_forall. done.
Qed.
Lemma for_refs_quiet rs f : (forall r, stm_emits not_send (f r)) -> stm_emits not_send (for_refs rs f).
Proof. intros Hf. induction rs as [|r rs IH]; cbn [for_refs]; emits_steps; [apply Hf|exact IH]. Qed.
Lemma for_models_quiet i vnd js f : (forall r, stm_emits not_send (f r)) -> stm_emits not_send (for_models i vnd js f).
Proof. intros Hf. induction js as [|j js IH]; cbn [for_models]; emits_steps; [apply Hf|exact IH]. Qed.

Ltac quiet :=
  emits_steps; try (apply acc_quiet || apply for_refs_quiet || apply for_models_quiet); intros; emits_steps; auto.

Lemma mod_pub_set_quiet r a k c t p x : stm_emits not_send (_mod_pub_set r a k c t p x).
Proof. unfold _mod_pub_set, node_model. quiet. Qed.
Lemma mod_bind_quiet r k : stm_emits not_send (mod_bind r k).
Proof. unfold mod_bind, node_model, set_key, mod_model. quiet. Qed.
Lemma mod_unbind_quiet r k : stm_emits not_send (mod_unbind r k).
Proof. unfold mod_unbind, node_model, set_key, mod_model. emits_steps; apply mod_pub_set_quiet. Qed.
Lemma app_key_set_quiet n a k u : stm_emits not_send (app_key_set n a k u).
Proof. unfold app_key_set, app_key_store, mod_net. quiet. Qed.
Lemma copy_quiet r : stm_emits not_send (copy_sub_list r).
Proof. unfold copy_sub_list, mod_model. emits_steps. Qed.
Lemma sub_add_quiet r a : stm_emits not_send (sub_add r a).
Proof.
  unfold sub_add, sub_list_insert, group_insert, _elem_sub_bind, for_elem_models, lpn_group_add, set_groups, mod_model, node_model.
  emits_steps; apply for_models_quiet, copy_quiet.
Qed.
Lemma sub_del_quiet r a : stm_emits not_send (sub_del r a).
Proof.
  unfold sub_del, sub_list_remove, group_remove, _elem_sub_bind, for_elem_models, lpn_group_del, set_groups, mod_model, node_model.
  emits_steps; apply for_models_quiet, copy_quiet.
Qed.
Lemma sub_overwrite_quiet r a : stm_emits not_send (sub_overwrite r a).
Proof.
  unfold sub_overwrite, sub_clear, clear_groups, lpn_group_del, lpn_group_add, set_groups, mod_model, node_model. emits_steps.
Qed.
Lemma sub_va_add_quiet r uuid : stm_emits not_send (sub_va_add r uuid).
Proof.
  unfold sub_va_add, va_add, group_insert, lpn_group_add, set_groups, mod_model, node_model. emits_steps.
Qed.
Lemma sub_va_del_quiet r uuid : stm_emits not_send (sub_va_del r uuid).
Proof. unfold sub_va_del, group_remove, set_groups, mod_model, node_model. emits_steps. Qed.
Lemma heartbeat_set_quiet pa : stm_emits not_send (genie_heartbeat_set pa).
Proof. unfold genie_heartbeat_set, hb_pub_disable, mod_hb_pub, mod_srv. emits_steps. Qed.
Lemma request_quiet q : stm_emits not_send (do_request q).
Proof.
  destruct q; cbn [do_request]; auto using mod_bind_quiet, mod_unbind_quiet, mod_pub_set_quiet, app_key_set_quiet,
    sub_add_quiet, sub_del_quiet, sub_overwrite_quiet, heartbeat_set_quiet; emits_steps;
    auto using sub_va_add_quiet, sub_va_del_quiet.
Qed.
End quiet.

(** ** The answers *)

(** The answers that begin with a status. *)
Definition status_ops : list Z :=
  [OP_APP_KEY_STATUS; OP_APP_KEY_LIST; OP_MOD_PUB_STATUS; OP_MOD_SUB_STATUS; OP_MOD_SUB_LIST; OP_MOD_SUB_LIST_VND;
   OP_MOD_APP_STATUS; OP_SIG_MOD_APP_LIST; OP_VND_MOD_APP_LIST; OP_NET_KEY_STATUS; OP_NODE_IDENTITY_STATUS; OP_KRP_STATUS;
   OP_HEARTBEAT_PUB_STATUS; OP_HEARTBEAT_SUB_STATUS].
Definition plain_ops : list Z :=
  [OP_DEV_COMP_DATA_STATUS; OP_BEACON_STATUS; OP_DEFAULT_TTL_STATUS; OP_GATT_PROXY_STATUS; OP_NET_TRANSMIT_STATUS;
   OP_RELAY_STATUS; OP_FRIEND_STATUS; OP_LPN_TIMEOUT_STATUS; OP_NET_KEY_LIST; OP_NODE_RESET_STATUS].

(** The status of a message of the server that has one. *)
Definition answer_status (ev : cfg_event) : option Z :=
  match ev with
  | CSend _ _ msg _ =>
      match get_opcode msg with
      | Ok (op, status :: _) => if existsb (Z.eqb op) status_ops then Some status else None
      | _ => None
      end
  | _ => None
  end.
(** An answer with another status than Success. *)
Definition failing (ev : cfg_event) : Prop :=
  match answer_status ev with Some status => status <> STATUS_SUCCESS | None => False end.
Definition fine (ev : cfg_event) : Prop := ~ failing ev.
(** Answers, and messages to the application's state machine. *)
Definition only_tells (ev : cfg_event) : Prop :=
  match ev with CSend _ _ _ _ | CGenie _ => True | _ => False end.

Lemma read_ops : Forall (fun op => forall rest, get_opcode (bt_mesh_model_msg_init op ++ rest) = Ok (op, rest)) (status_ops ++ plain_ops).
Proof.
  assert (forall b0 b1 rest, Z.shiftr b0 6 = 2 -> get_opcode (b0 :: b1 :: rest) = Ok (Z.lor (Z.shiftl b0 8) b1 mod 65536, rest)) as H2.
  { intros b0 b1 rest Hb. unfold get_opcode. rewrite Hb, decide_False by (cbn; lia). done. }
  repeat constructor; intros rest; first [apply H2; done | done].
Qed.
Lemma plain_fine r ctx op rest room : op ∈ plain_ops -> fine (CSend r ctx (bt_mesh_model_msg_init op ++ rest) room).
Proof.
  intros Hop. pose proof read_ops as Hr. apply Forall_app in Hr as [_ Hr]. eapply list.Forall_forall in Hr; [|exact Hop].
  unfold fine, failing, answer_status. rewrite Hr. destruct rest as [|b rest]; [tauto|].
  assert (Forall (fun op => existsb (Z.eqb op) status_ops = false) plain_ops) as Hp by by repeat constructor.
  eapply list.Forall_forall in Hp; [|exact Hop]. cbv beta in Hp. rewrite Hp. tauto.
Qed.
Lemma status_fine r ctx op rest room : op ∈ status_ops -> fine (CSend r ctx (bt_mesh_model_msg_init op ++ u8 STATUS_SUCCESS :: rest) room).
Proof.
  intros Hop. pose proof read_ops as Hr. apply Forall_app in Hr as [Hr _]. eapply list.Forall_forall in Hr; [|exact Hop].
  unfold fine, failing, answer_status. rewrite Hr. destruct (existsb _ _); [by intros H; destruct H|tauto].
Qed.
Lemma not_send_fine ev : not_send ev -> fine ev.
Proof. destruct ev; [done|..]; intros _ []. Qed.
Lemma all_fine e : Forall fine e -> Exists failing e -> False.
Proof. intros Hf. intros (ev & Hin & Hev)%list.Exists_exists. rewrite list.Forall_forall in Hf. exact (Hf ev Hin Hev). Qed.

(** ** What is only read, and what is only told *)

Section telling.
Context {cfg : MeshConfig} {env : CfgEnv}.

(** [m] changes nothing and calls nothing. *)
Definition peeks {T} (m : G T) : Prop := forall s a s' e, m s = Some (a, s', e) -> s' = s /\ e = [].
(** [m] changes nothing and only answers. *)
Definition tells {T} (m : G T) : Prop := forall s a s' e, m s = Some (a, s', e) -> s' = s /\ Forall only_tells e.

Lemma peeks_ret {T} (a : T) : peeks (mret a).
Proof. by intros s b s' e [= _ <- <-]. Qed.
Lemma peeks_get : peeks stm_get.
Proof. by intros s b s' e [= _ <- <-]. Qed.
Lemma peeks_of_option {T} (o : option T) : peeks (stm_of_option o).
Proof. destruct o; [apply peeks_ret|by intros s b s' e]. Qed.
Lemma peeks_undef {T} : peeks (stm_undef (A := T)).
Proof. by intros s b s' e. Qed.
Lemma peeks_bind {T U} (m : G T) (f : T -> G U) : peeks m -> (forall a, peeks (f a)) -> peeks (stm_bind m f).
Proof.
  intros Hm Hf s b s' e. unfold stm_bind. destruct (m s) as [[[a s1] e1]|] eqn:H1; [|done].
  destruct (Hm _ _ _ _ H1) as [-> ->]. destruct (f a s) as [[[b' s2] e2]|] eqn:H2; [|done].
  destruct (Hf _ _ _ _ _ H2) as [-> ->]. by intros [= _ <- <-].
Qed.

Lemma tells_peeks {T} (m : G T) : peeks m -> tells m.
Proof. intros Hm s a s' e Hrun. by destruct (Hm _ _ _ _ Hrun) as [-> ->]. Qed.
Lemma tells_reply r ctx cap msg : tells (reply r ctx cap msg).
Proof. unfold reply. destruct (decide _); [by intros s b s' e|]. intros s b s' e [= _ <- <-]. split; [done|by repeat constructor]. Qed.
Lemma tells_genie ev : tells (genie ev).
Proof. intros s b s' e [= _ <- <-]. split; [done|by repeat constructor]. Qed.
Lemma tells_bind {T U} (m : G T) (f : T -> G U) : tells m -> (forall a, tells (f a)) -> tells (stm_bind m f).
Proof.
  intros Hm Hf s b s' e. unfold stm_bind. destruct (m s) as [[[a s1] e1]|] eqn:H1; [|done].
  destruct (Hm _ _ _ _ H1) as [-> H1']. destruct (f a s) as [[[b' s2] e2]|] eqn:H2; [|done].
  destruct (Hf _ _ _ _ _ H2) as [-> H2']. intros [= _ <- <-]. split; [done|by apply Forall_app].
Qed.
End telling.

Ltac code_head t := lazymatch t with ?f _ => code_head f | _ => t end.
Ltac peeks_step :=
  lazymatch goal with
  | |- peeks (stm_bind _ _) => apply peeks_bind; [|intros ?]
  | |- peeks (mret _) => apply peeks_ret
  | |- peeks stm_get => apply peeks_get
  | |- peeks (stm_of_option _) => apply peeks_of_option
  | |- peeks stm_undef => apply peeks_undef
  | |- peeks (if ?b then _ else _) => destruct b
  | |- peeks (match ?x with _ => _ end) => destruct x
  | |- peeks ?m => let h := code_head m in unfold h
  end.
Ltac peek := solve [repeat peeks_step].
Ltac tells_step :=
  lazymatch goal with
  | |- tells (stm_bind _ _) => apply tells_bind; [|intros ?]
  | |- tells (reply _ _ _ _) => apply tells_reply
  | |- tells (genie _) => apply tells_genie
  | |- tells (if ?b then _ else _) => destruct b
  | |- tells (match ?x with _ => _ end) => destruct x
  | |- tells _ => apply tells_peeks; peek
  | |- tells ?m => let h := code_head m in unfold h
  end.
Ltac tell := repeat first [tells_step | progress cbv zeta | match goal with |- tells ?m => let h := code_head m in unfold h end].

Section answering.
Context {cfg : MeshConfig} {env : CfgEnv}.

(** [minds m s]: if [m], run from [s], gives a failing answer, it has changed
    nothing and has done nothing else. *)
Definition minds (m : G unit) (s : node) : Prop :=
  forall u s' e, m s = Some (u, s', e) -> Exists failing e -> same_config s s' /\ Forall only_tells e.

Lemma minds_tells m s : tells m -> minds m s.
Proof. intros Hm u s' e Hrun _. by destruct (Hm _ _ _ _ Hrun) as [-> ?]. Qed.
Lemma minds_fine m s : stm_emits fine m -> minds m s.
Proof. intros Hm u s' e Hrun He. destruct (all_fine e (Hm _ _ _ _ Hrun) He). Qed.
(** A part that changes no configuration and calls nothing. *)
Lemma minds_silent {T} (m : G T) f s :
  (forall a s' e, m s = Some (a, s', e) -> same_config s s' /\ e = [] /\ minds (f a) s') -> minds (stm_bind m f) s.
Proof.
  intros Hm u s' e. unfold stm_bind. destruct (m s) as [[[a s1] e1]|] eqn:H1; [|done].
  destruct (Hm _ _ _ eq_refl) as (Hs & -> & Hf). destruct (f a s1) as [[[b s2] e2]|] eqn:H2; [|done].
  intros [= <- <- <-] He. destruct (Hf _ _ _ H2 He) as [Hs2 Ht]. split; [by eapply same_config_trans|done].
Qed.
Lemma minds_peeks {T} (m : G T) f s :
  peeks m -> (forall a e, m s = Some (a, s, e) -> minds (f a) s) -> minds (stm_bind m f) s.
Proof.
  intros Hm Hf. apply minds_silent. intros a s' e Hrun. destruct (Hm _ _ _ _ Hrun) as [-> ->].
  split_and!; [done..|]. by eapply Hf.
Qed.
(** An operation that decides the status, and the answer. *)
Lemma minds_status {T} (status : T -> Z) (m : G T) f s :
  (forall a s' e, m s = Some (a, s', e) -> status a <> STATUS_SUCCESS -> same_config s s' /\ e = []) ->
  stm_emits not_send m -> (forall a, tells (f a)) -> (forall a, status a = STATUS_SUCCESS -> stm_emits fine (f a)) ->
  minds (stm_bind m f) s.
Proof.
  intros Hm Hq Ht Hf u s' e. unfold stm_bind. destruct (m s) as [[[a s1] e1]|] eqn:H1; [|done].
  destruct (f a s1) as [[[b s2] e2]|] eqn:H2; [|done]. intros [= <- <- <-] He.
  destruct (decide (status a = STATUS_SUCCESS)) as [Ha|Ha].
  - destruct (all_fine (e1 ++ e2)); [|done]. apply Forall_app. split.
    + eapply List.Forall_impl; [exact not_send_fine|exact (Hq _ _ _ _ H1)].
    + exact (Hf _ Ha _ _ _ _ H2).
  - destruct (Hm _ _ _ eq_refl Ha) as [Hs ->]. by destruct (Ht _ _ _ _ _ H2) as [-> ?].
Qed.
Lemma minds_decides (m : G Z) f s :
  fails_clean m s -> stm_emits not_send m -> (forall a, tells (f a)) -> stm_emits fine (f STATUS_SUCCESS) ->
  minds (stm_bind m f) s.
Proof. intros Hm Hq Ht Hf. apply (minds_status (fun st => st)); [exact Hm|done..|by intros a ->]. Qed.
Lemma minds_request q f s :
  fails_clean (do_request q) s -> (forall a, tells (f a)) -> stm_emits fine (f STATUS_SUCCESS) ->
  minds (stm_bind (do_request q) f) s.
Proof. intros Hq. apply minds_decides; [done|apply request_quiet]. Qed.

Lemma reply_plain r ctx cap op rest : op ∈ plain_ops -> stm_emits fine (reply r ctx cap (bt_mesh_model_msg_init op ++ rest)).
Proof. intros Hop. unfold reply. emits_steps. apply emits_emit. repeat constructor. by apply plain_fine. Qed.
Lemma reply_success r ctx cap op rest : op ∈ status_ops ->
  stm_emits fine (reply r ctx cap (bt_mesh_model_msg_init op ++ u8 STATUS_SUCCESS :: rest)).
Proof. intros Hop. unfold reply. emits_steps. apply emits_emit. repeat constructor. by apply status_fine. Qed.
End answering.

(** Reads on: what comes first only reads the message or the node. *)
Ltac minds_read :=
  lazymatch goal with
  | |- minds (stm_bind _ _) _ => apply minds_peeks; [peek|let a := fresh "p" in let H := fresh "Hp" in intros a ? H]
  | |- minds (if ?b then _ else _) _ => destruct b
  | |- minds (match ?x with _ => _ end) _ => destruct x
  | |- minds (let _ := _ in _) _ => cbv zeta
  end.
(** Answers, messages to the application, and parts that send nothing. *)
Ltac fine_step :=
  first
    [ emits_step
    | apply reply_plain; unfold plain_ops; set_solver
    | apply reply_success; unfold status_ops; set_solver
    | solve [auto with fine nocore]
    | lazymatch goal with |- stm_emits _ ?m => let h := code_head m in unfold h end ].
Ltac fine := repeat fine_step.

Create HintDb fine.

Section handlers.
Context {cfg : MeshConfig} {env : CfgEnv} {aenv : AccEnv}.
Variable sh : composition.

Lemma acc_fine {T} (m : A T) : stm_emits fine (acc m).
Proof. intros s a s' e Hrun. eapply List.Forall_impl; [exact not_send_fine|by eapply acc_quiet]. Qed.
Lemma quiet_fine {T} (m : G T) : stm_emits not_send m -> stm_emits fine m.
Proof. intros Hm s a s' e Hrun. eapply List.Forall_impl; [exact not_send_fine|by eapply Hm]. Qed.
Lemma emit_fine e : Forall not_send e -> stm_emits (St := node) fine (stm_emit e).
Proof. intros He. by apply quiet_fine, emits_emit. Qed.

Lemma find_model_ref addr buf s vnd r s' e : node_wf sh s -> find_model addr buf s = Some ((vnd, inr r), s', e) -> has_ref sh r.
Proof.
  intros Hw Hrun. destruct (decide (2 <= length buf)%nat) as [Hl|Hl].
  - assert (good sh (stm_bind (find_model addr buf) mret) (fun p _ => match p.2 with inr r => has_ref sh r | _ => True end) s) as Hg.
    { apply (good_find_model sh); [done..|]. intros v [st|r'] _ Hr; by apply good_ret. }
    unfold good, stm_wp, stm_bind in Hg. rewrite Hrun in Hg. by destruct Hg as (_ & _ & Hr).
  - revert Hrun. unfold find_model. rewrite (stm_bind_pure _ _ s s s) by done.
    destruct (bt_mesh_elem_find _ _) as [i|]; [|done]. destruct (ac_elems (nd_acc s) !! i) as [el|]; [|done].
    rewrite (stm_bind_pure _ _ s el s) by done. unfold get_model_id. rewrite decide_True by lia. unfold pull_le16.
    by rewrite decide_True by lia.
Qed.

(** A model operation: the model is looked up, the operation decides the status
    that is answered. *)
Lemma minds_model_op (body : model_ref -> G Z) (q : model_ref -> request) addr buf (send : Z -> bool -> G unit) s :
  node_wf sh s -> (forall r, body r = do_request (q r)) -> (forall r, has_ref sh r -> request_ok sh (q r)) ->
  (forall st vnd, tells (send st vnd)) -> (forall vnd, stm_emits fine (send STATUS_SUCCESS vnd)) ->
  minds (p <- find_model addr buf ;; let '(vnd, mod_) := p in
    status <- match mod_ with inl status => mret status | inr r => body r end ;; send status vnd) s.
Proof.
  intros Hw Hb Hq Ht Hf. apply minds_peeks; [peek|]. intros [vnd [st|r]] e Hp.
  - apply minds_tells, tells_bind; [apply tells_peeks; peek|done].
  - rewrite Hb. apply minds_request; [|done..]. apply (request_clean sh); [done|]. by eapply Hq, find_model_ref.
Qed.

Lemma sub_status_tells r ctx st e a id vnd : tells (send_mod_sub_status r ctx st e a id vnd).
Proof. tell. Qed.
Lemma sub_status_fine r ctx e a id vnd : stm_emits fine (send_mod_sub_status r ctx STATUS_SUCCESS e a id vnd).
Proof. unfold send_mod_sub_status. fine. Qed.
Lemma pub_status_tells r ctx e a vnd m st id : tells (send_mod_pub_status r ctx e a vnd m st id).
Proof. tell. Qed.
Lemma pub_status_fine r ctx e a vnd m id : stm_emits fine (send_mod_pub_status r ctx e a vnd m STATUS_SUCCESS id).
Proof. unfold send_mod_pub_status. fine. Qed.

(** *** Loops and the parts of a reset *)

Lemma for_refs_fine rs f : (forall r, stm_emits fine (f r)) -> stm_emits fine (for_refs rs f).
Proof. intros Hf. induction rs as [|r rs IH]; cbn [for_refs]; emits_steps; [apply Hf|exact IH]. Qed.
Lemma app_key_del_fine j : stm_emits fine (_app_key_del j).
Proof.
  unfold _app_key_del, model_foreach, mod_net. emits_steps. apply for_refs_fine. intros r.
  apply quiet_fine. emits_steps. apply mod_unbind_quiet.
Qed.
Lemma app_keys_del_fine p js : stm_emits fine (app_keys_del p js).
Proof. induction js as [|j js IH]; cbn [app_keys_del]; emits_steps; [apply app_key_del_fine|exact IH]. Qed.
Lemma run_inits_fine evs : stm_emits fine (run_inits evs).
Proof.
  induction evs as [|[] evs IH]; cbn [run_inits]; emits_steps; try exact IH.
  unfold bt_mesh_cfg_srv_init, set_key, mod_model, mod_srv, mod_hb_pub, mod_hb_sub, mod_srv. emits_steps.
Qed.
Lemma acc_inits_fine {T} (m : A T) : stm_emits fine (acc_inits m).
Proof.
  intros s a s' e. unfold acc_inits. destruct (m (nd_acc s)) as [[[b ac] e1]|]; [|done]. apply emits_bind; [|intros _].
  - apply emit_fine, List.Forall_map, List.Forall_forall. done.
  - apply emits_bind; [apply run_inits_fine|intros _; apply emits_ret].
Qed.
#[local] Hint Resolve app_keys_del_fine app_key_del_fine acc_inits_fine : fine.
#[local] Hint Extern 1 (stm_emits fine (stm_emit _)) => apply emit_fine; by repeat constructor : fine.
Lemma reset_fine : stm_emits fine bt_mesh_reset.
Proof. fine. Qed.
#[local] Hint Resolve reset_fine sub_status_fine pub_status_fine : fine.

(** *** The handlers *)

Definition mindful (h : model_ref -> msg_ctx -> bytes -> G unit) : Prop :=
  forall r ctx buf s, node_wf sh s -> is_bytes buf -> minds (h r ctx buf) s.
Lemma mindful_tells h : (forall r ctx buf, tells (h r ctx buf)) -> mindful h.
Proof. intros Hh r ctx buf s _ _. by apply minds_tells. Qed.
Lemma mindful_fine h : (forall r ctx buf, stm_emits fine (h r ctx buf)) -> mindful h.
Proof. intros Hh r ctx buf s _ _. by apply minds_fine. Qed.

Ltac start := intros r ctx buf s Hw Hb; repeat first [minds_read; try (apply minds_tells; solve [tell])].

Lemma key_idx_bytes_left buf p buf' (s s' : node) (e : list cfg_event) :
  is_bytes buf -> key_idx_unpack buf s = Some ((p, buf'), s', e) -> is_bytes buf'.
Proof.
  intros Hb. unfold key_idx_unpack. destruct (decide _); [done|]. intros [= _ <- _ _]. by apply is_bytes_drop.
Qed.
Lemma pull_key_block buf p (s s' : node) (e : list cfg_event) :
  is_bytes buf -> pull_mem 16 buf s = Some (p, s', e) -> is_block p.1.
Proof.
  intros Hb. unfold pull_mem. destruct (decide _); [done|]. intros [= <- _ _].
  split; [cbn [fst]; rewrite length_take; lia|by apply is_bytes_take].
Qed.
Lemma app_key_update_mindful : mindful app_key_update.
Proof.
  intros r ctx buf s Hw Hb. unfold app_key_update. apply minds_peeks; [peek|]. intros [[n k] buf'] e Hp.
  pose proof (key_idx_bytes_left _ _ _ _ _ _ Hb Hp) as Hb'.
  apply minds_peeks; [peek|]. intros [val buf2] e2 Hp2. cbn [fst].
  pose proof (pull_key_block _ _ _ _ _ Hb' Hp2) as Hval.
  apply minds_decides.
  - exact (app_key_set_clean n k val true s Hval).
  - apply app_key_set_quiet.
  - intros st. tell.
  - fine.
Qed.
Lemma app_key_del_quiet j : stm_emits not_send (_app_key_del j).
Proof.
  unfold _app_key_del, model_foreach, mod_net. emits_steps. apply for_refs_quiet. intros r. emits_steps. apply mod_unbind_quiet.
Qed.
Lemma app_keys_del_quiet p js : stm_emits not_send (app_keys_del p js).
Proof. induction js as [|j js IH]; cbn [app_keys_del]; emits_steps; [apply app_key_del_quiet|exact IH]. Qed.
Lemma app_key_del_mindful : mindful app_key_del.
Proof.
  intros r ctx buf s Hw Hb. unfold app_key_del. minds_read. destruct p as [[n k] buf'].
  apply minds_peeks; [peek|]. intros s1 e1 [= <- _]. apply minds_decides.
  - destruct (bt_mesh_subnet_get _ _); [|apply clean_ret]. destruct (app_key_slot _ _); [|apply clean_ret].
    apply clean_of_option. intros key _. case_if; [apply clean_ret|]. apply clean_succeeds. succeed.
  - emits_steps; [apply app_key_del_quiet|unfold genie; emits_steps].
  - intros st. tell.
  - fine.
Qed.
Lemma net_key_del_mindful : mindful net_key_del.
Proof.
  intros r ctx buf s Hw Hb. unfold net_key_del. repeat minds_read; [by apply minds_tells; tell|].
  apply minds_decides.
  - destruct (bt_mesh_subnet_get _ _); [|apply clean_ret]. case_if; [apply clean_ret|]. apply clean_succeeds. succeed.
  - unfold all_app_keys_del, hb_pub_disable, mod_hb_pub, mod_srv, genie, mod_net. emits_steps; apply app_keys_del_quiet.
  - intros st. tell.
  - fine.
Qed.

Lemma mod_pub_set_mindful : mindful CfgModels.mod_pub_set.
Proof.
  intros r ctx buf s Hw Hb. unfold CfgModels.mod_pub_set. repeat first [minds_read | by apply minds_tells; tell].
  apply minds_decides.
  - apply mod_pub_set_clean.
  - apply mod_pub_set_quiet.
  - intros st. apply pub_status_tells.
  - apply pub_status_fine.
Qed.
Lemma mod_pub_va_set_mindful : mindful CfgModels.mod_pub_va_set.
Proof.
  intros r ctx buf s Hw Hb. unfold CfgModels.mod_pub_va_set. repeat first [minds_read | by apply minds_tells; tell].
  apply minds_silent. intros [st a] s' ev Hrun. destruct (va_add_clean _ _ _ _ _ Hrun) as [Hs ->].
  split_and!; [done..|]. apply minds_decides.
  - case_if; [apply mod_pub_set_clean|apply clean_ret].
  - emits_steps. apply mod_pub_set_quiet.
  - intros st'. apply pub_status_tells.
  - apply pub_status_fine.
Qed.

Ltac by_model := match goal with mod_ : (Z + model_ref)%type |- _ => destruct mod_ end.
Lemma mod_sub_add_mindful : mindful CfgModels.mod_sub_add.
Proof.
  intros r ctx buf s Hw Hb. unfold CfgModels.mod_sub_add. do 4 minds_read.
  eapply (minds_model_op (fun r' => sub_add r' _) (fun r' => ReqSubAdd r' _) _ _ (fun st vnd => _)); [done..| |]; intros.
  - tell.
  - fine.
Qed.
Lemma mod_sub_del_mindful : mindful CfgModels.mod_sub_del.
Proof.
  intros r ctx buf s Hw Hb. unfold CfgModels.mod_sub_del. do 4 minds_read.
  eapply (minds_model_op (fun r' => sub_del r' _) (fun r' => ReqSubDel r' _) _ _ (fun st vnd => _)); [done..| |]; intros.
  - tell.
  - fine.
Qed.
Lemma mod_sub_overwrite_mindful : mindful CfgModels.mod_sub_overwrite.
Proof.
  intros r ctx buf s Hw Hb. unfold CfgModels.mod_sub_overwrite. do 4 minds_read.
  eapply (minds_model_op (fun r' => sub_overwrite r' _) (fun r' => ReqSubOverwrite r' _) _ _ (fun st vnd => _));
    [done..|intros; apply sub_status_tells|intros; apply sub_status_fine].
Qed.
Lemma mod_app_unbind_mindful : mindful CfgModels.mod_app_unbind.
Proof.
  intros r ctx buf s Hw Hb. unfold CfgModels.mod_app_unbind. do 4 minds_read.
  eapply (minds_model_op (fun r' => mod_unbind r' _) (fun r' => ReqUnbind r' _) _ _ (fun st vnd => _)); [done..| |]; intros.
  - tell.
  - unfold mod_app_status. fine.
Qed.
Lemma mod_app_bind_mindful : mindful CfgModels.mod_app_bind.
Proof.
  intros r ctx buf s Hw Hb. unfold CfgModels.mod_app_bind. repeat minds_read. by_model.
  - by apply minds_tells; tell.
  - apply minds_decides; [|emits_steps; apply mod_bind_quiet|intros; tell|unfold mod_app_status; fine].
    destruct (decide _); [apply clean_ret|apply mod_bind_clean].
Qed.
Lemma mod_sub_va_mindful body : (forall r u, stm_emits not_send (body r u)) ->
  (forall r u s, fails_clean (p <- body r u ;; mret p.1) s) -> mindful (mod_sub_va body).
Proof.
  intros Hq Hc r ctx buf s Hw Hb. unfold mod_sub_va. repeat minds_read. by_model.
  - by apply minds_tells; tell.
  - apply (minds_status fst).
    + intros [st a] s' ev Hrun Hst. eapply (Hc _ _ _ st s' ev); [|done]. unfold stm_bind. rewrite Hrun. cbn. by rewrite app_nil_r.
    + apply Hq.
    + intros. apply sub_status_tells.
    + intros [st a] Hst. cbn in Hst. subst st. apply sub_status_fine.
Qed.
Lemma mod_sub_del_all_mindful : mindful CfgModels.mod_sub_del_all.
Proof.
  intros r ctx buf s Hw Hb. unfold CfgModels.mod_sub_del_all. repeat minds_read. by_model.
  - by apply minds_tells; tell.
  - apply minds_decides; [apply clean_succeeds; succeed| |intros; apply sub_status_tells|apply sub_status_fine].
    unfold sub_clear, clear_groups, set_groups, lpn_group_del, mod_model, node_model. emits_steps.
Qed.
Lemma net_key_add_mindful : mindful net_key_add.
Proof.
  intros r ctx buf s Hw Hb. unfold net_key_add. repeat first [minds_read | by apply minds_tells; tell].
  apply minds_fine. unfold net_key_status. fine.
Qed.
Lemma node_identity_set_mindful : mindful node_identity_set.
Proof.
  intros r ctx buf s Hw Hb. unfold node_identity_set. repeat first [minds_read | by apply minds_tells; tell]; 
  apply minds_fine; unfold node_identity_status; fine.
Qed.
Lemma krp_set_mindful : mindful krp_set.
Proof.
  intros r ctx buf s Hw Hb. unfold krp_set. repeat first [minds_read | by apply minds_tells; tell].
  all: apply minds_fine; unfold krp_status; fine.
Qed.
Lemma heartbeat_pub_set_mindful : mindful heartbeat_pub_set.
Proof.
  intros r ctx buf s Hw Hb. unfold heartbeat_pub_set. repeat minds_read.
  apply minds_decides; [apply genie_heartbeat_set_clean|apply heartbeat_set_quiet|intros; tell|].
  unfold hb_pub_send_status. fine.
Qed.
Lemma beacon_set_fine r ctx buf : stm_emits fine (beacon_set r ctx buf).
Proof. unfold beacon_set. fine. apply emit_fine. constructor; [by case_if|constructor]. Qed.
Lemma node_reset_fine r ctx buf : stm_emits fine (node_reset r ctx buf).
Proof. unfold node_reset. rewrite <- (app_nil_r (bt_mesh_model_msg_init _)). fine. Qed.

(** The two requests that may leave something of what they fail to do. *)
Definition leaves_something (opcode : Z) : Prop := opcode = OP_APP_KEY_ADD \/ opcode = OP_MOD_SUB_VA_OVERWRITE.

Lemma table_mindful : Forall (fun op => leaves_something op.1.1 \/ mindful op.2) bt_mesh_cfg_srv_op.
Proof.
  unfold bt_mesh_cfg_srv_op. repeat apply List.Forall_cons; try apply List.Forall_nil; cbn [fst snd].
  all: first
    [ left; by left | left; by right | right ].
  all: first
    [ exact app_key_update_mindful | exact app_key_del_mindful | exact mod_pub_set_mindful | exact mod_pub_va_set_mindful
    | exact mod_sub_add_mindful | exact mod_sub_del_mindful | exact mod_sub_overwrite_mindful | exact mod_sub_del_all_mindful
    | exact (mod_sub_va_mindful _ sub_va_add_quiet sub_va_add_clean) | exact (mod_sub_va_mindful _ sub_va_del_quiet sub_va_del_clean)
    | exact net_key_add_mindful | exact net_key_del_mindful | exact node_identity_set_mindful | exact krp_set_mindful
    | exact mod_app_bind_mindful | exact mod_app_unbind_mindful | exact heartbeat_pub_set_mindful
    | exact (mindful_fine _ beacon_set_fine) | exact (mindful_fine _ node_reset_fine)
    | apply mindful_tells; intros; solve [tell] | apply mindful_fine; intros; solve [fine] ].
Qed.

(** *** What the two leave alone *)

(** The subnets and keys, and the states of the server. *)
Definition same_keys (s s' : node) : Prop := nd_net s' = nd_net s /\ nd_srv s' = nd_srv s.
#[local] Instance same_keys_pre : PreOrder same_keys.
Proof. split; [by intros s|]. unfold same_keys. intros s1 s2 s3 [] []. split; congruence. Qed.
Local Notation keeps m := (stm_keeps same_keys m).

Lemma keys_for_models i vnd js f : (forall r, keeps (f r)) -> keeps (for_models i vnd js f).
Proof. intros Hf. induction js as [|j js IH]; cbn [for_models]; keeps_steps; [apply Hf|exact IH]. Qed.
Lemma keys_mod_model r f : keeps (mod_model r f).
Proof. by apply keeps_modify. Qed.
Lemma keys_mod_bind r k : keeps (mod_bind r k).
Proof. unfold mod_bind, node_model, set_key. keeps_steps. apply keys_mod_model. Qed.
Lemma keys_setup n i : keeps (setup_elems n i).
Proof.
  revert i. induction n as [|n IH]; intros i; cbn [setup_elems]; [keeps_steps|]. keeps_steps; [|apply IH].
  unfold for_elem_models. keeps_steps; apply keys_for_models; intros r; unfold copy_sub_list; keeps_steps;
    (apply keys_mod_bind || apply keys_mod_model).
Qed.
Lemma keys_mesh_setup : keeps genie_mesh_setup.
Proof. unfold genie_mesh_setup. keeps_steps. apply keys_setup. Qed.
Lemma keys_sub_list_init : keeps genie_sub_list_init.
Proof. unfold genie_sub_list_init. keeps_steps; by apply keeps_modify. Qed.
Lemma keys_va_overwrite r ctx buf : keeps (mod_sub_va_overwrite r ctx buf).
Proof.
  unfold mod_sub_va_overwrite, mod_sub_va, sub_va_overwrite, sub_clear, clear_groups, set_groups, lpn_group_del, lpn_group_add,
    va_add, find_model, get_model_id, pull_le16, pull_mem, send_mod_sub_status, mod_id_of, reply, node_model.
  keeps_steps; try apply keys_mod_model.
  - by apply keeps_modify.
  - unfold pull_mem. keeps_steps.
Qed.
Lemma sub_list_init_quiet : stm_emits not_send genie_sub_list_init.
Proof. unfold genie_sub_list_init. emits_steps. Qed.
Lemma mesh_setup_quiet : stm_emits not_send genie_mesh_setup.
Proof.
  assert (forall n i, stm_emits not_send (setup_elems n i)) as Hsetup.
  { intros n. induction n as [|n IH]; intros i; cbn [setup_elems]; emits_steps; [|apply IH].
    unfold for_elem_models. emits_steps; apply for_models_quiet; intros r; emits_steps; (apply mod_bind_quiet || apply copy_quiet). }
  unfold genie_mesh_setup. emits_steps. apply Hsetup.
Qed.
Definition minds_keys (m : G unit) (s : node) : Prop :=
  forall u s' e, m s = Some (u, s', e) -> Exists failing e -> same_keys s s'.
Lemma minds_keys_peeks {T} (m : G T) f s :
  peeks m -> (forall a e, m s = Some (a, s, e) -> minds_keys (f a) s) -> minds_keys (stm_bind m f) s.
Proof.
  intros Hm Hf u s' e. unfold stm_bind. destruct (m s) as [[[a s1] e1]|] eqn:H1; [|done].
  destruct (Hm _ _ _ _ H1) as [-> ->]. destruct (f a s) as [[[b s2] e2]|] eqn:H2; [|done].
  intros [= <- <- <-]. by eapply Hf.
Qed.
Lemma minds_keys_decides (m : G Z) f s :
  fails_clean m s -> stm_emits not_send m -> (forall a, keeps (f a)) -> stm_emits fine (f STATUS_SUCCESS) ->
  minds_keys (stm_bind m f) s.
Proof.
  intros Hm Hq Hk Hf u s' e. unfold stm_bind. destruct (m s) as [[[a s1] e1]|] eqn:H1; [|done].
  destruct (f a s1) as [[[b s2] e2]|] eqn:H2; [|done]. intros [= <- <- <-] He.
  destruct (decide (a = STATUS_SUCCESS)) as [->|Ha].
  - destruct (all_fine (e1 ++ e2)); [|done]. apply Forall_app. split; [|exact (Hf _ _ _ _ H2)].
    exact (quiet_fine _ Hq _ _ _ _ H1).
  - destruct (Hm _ _ _ H1 Ha) as [(Hn & _ & Hs & _) _]. etrans; [|exact (Hk _ _ _ _ _ H2)]. done.
Qed.
Lemma app_key_add_keys r ctx buf s : is_bytes buf -> minds_keys (app_key_add r ctx buf) s.
Proof.
  intros Hb. unfold app_key_add. apply minds_keys_peeks; [peek|]. intros [[n k] buf'] e Hp.
  pose proof (key_idx_bytes_left _ _ _ _ _ _ Hb Hp) as Hb'.
  apply minds_keys_peeks; [peek|]. intros [val buf2] e2 Hp2. cbn [fst].
  pose proof (pull_key_block _ _ _ _ _ Hb' Hp2) as Hval. apply minds_keys_decides.
  - exact (app_key_set_clean n k val false s Hval).
  - apply app_key_set_quiet.
  - intros st. unfold app_key_status, reply, genie. keeps_steps; (apply keys_mesh_setup || apply keys_sub_list_init).
  - pose proof (quiet_fine _ sub_list_init_quiet). pose proof (quiet_fine _ mesh_setup_quiet).
    unfold app_key_status, genie. repeat (apply emits_bind; [|intros _]);
      [by apply reply_success; unfold status_ops; set_solver|done|done|by apply emit_fine; repeat constructor].
Qed.

(** C33: a message that the Configuration Server answers with a failure changes
    nothing. Whatever message of its table reaches the server of a well-formed
    node (the one that reads past its end, a Model Publication Virtual Address Set
    of 24 bytes, aside), its handler returns; and if the status in the answer is
    not Success, the subnets, the keys and the states of the server are what they
    were, and, unless the message is an AppKey Add or a Model Subscription Virtual
    Address Overwrite, so are the models (bindings, publications, groups) and the
    list of subscriptions, and nothing has been done but to send the answer and to
    tell the application's state machine. (The virtual addresses may have a new
    label. The two messages left out do change the models when they fail: the
    first sets up all of them, the second has emptied the groups.) *)
Theorem failure_changes_nothing {laws : CfgLaws} r opcode ctx buf s : node_wf sh s -> op_ok sh (OpMessage r opcode ctx buf) ->
  exists s' e, cfg_srv_recv r opcode ctx buf s = Some (tt, s', e) /\
    (Exists failing e ->
     nd_net s' = nd_net s /\ nd_srv s' = nd_srv s /\
     (~ leaves_something opcode ->
      nd_acc s' = nd_acc s /\ nd_sub_list s' = nd_sub_list s /\ Forall only_tells e)).
Proof.
  intros Hw Hop. destruct (wp_inv _ _ _ (cfg_srv_recv_ok sh r opcode ctx buf s Hw Hop)) as ([] & s' & e & Hrun & _).
  exists s', e. split; [done|]. intros He. destruct Hop as (_ & Hb & _). revert Hrun. unfold cfg_srv_recv.
  destruct (List.find _ _) as [[[op min_len] func]|] eqn:Hf; [|by intros [= <- <-]; apply Exists_nil in He].
  destruct (decide _); [by intros [= <- <-]; apply Exists_nil in He|]. intros Hrun.
  pose proof (find_some _ _ Hf) as [Hin Hop%Z.eqb_eq]. cbn [fst] in Hop. subst op.
  destruct (proj1 (list.Forall_forall _ _) table_mindful _ (proj2 (list_elem_of_In _ _) Hin)) as [Hl|Hm]; cbn [fst snd] in *.
  - assert (same_keys s s') as [Hn Hs]; [|by split_and!]. destruct Hl as [-> | ->]; injection Hf as <- <-.
    + by eapply app_key_add_keys.
    + by eapply keys_va_overwrite.
  - destruct (Hm r ctx buf s Hw Hb _ _ _ Hrun He) as [(? & ? & ? & ?) ?]. by split_and!.
Qed.
End handlers.

(** A message to bind a model to a key that the node does not have. *)
Lemma failure_changes_nothing_witness : exists s' e,
  cfg_srv_recv (cfg := proxy_friend_config) (env := sample_cfg_env) (aenv := sample_cfg_acc_env) (mk_model_ref 0 false 0)
    OP_MOD_APP_BIND (mk_ctx 0 BT_MESH_KEY_DEV 1 5 7 false) [2; 0; 5; 0; 0; 0x10] sample_cfg_node = Some (tt, s', e) /\
  Exists failing e /\ nd_acc s' = nd_acc sample_cfg_node /\ Forall only_tells e.
Proof.
  destruct (failure_changes_nothing (cfg := proxy_friend_config) (env := sample_cfg_env) (aenv := sample_cfg_acc_env) (laws := sample_laws) sample_shape
    (mk_model_ref 0 false 0) OP_MOD_APP_BIND (mk_ctx 0 BT_MESH_KEY_DEV 1 5 7 false) [2; 0; 5; 0; 0; 0x10] sample_cfg_node
    sample_cfg_wf) as (s' & e & Hrun & Hst).
  - split; [eexists; split; [done|cbn; lia]|]. split; [by apply (bool_decide_unpack (is_bytes _))|]. by intros [? _].
  - assert (Exists failing e) as He.
    { apply (f_equal (fmap (fun x => x.2))) in Hrun. vm_compute in Hrun. injection Hrun as <-.
      apply Exists_cons_hd. by intros H. }
    destruct (Hst He) as (_ & _ & Hst2). destruct Hst2 as (? & _ & ?); [by intros [H|H]|]. by exists s', e.
Defined.

(** ** How many heartbeats, and when *)

Section heartbeat.
Context {cfg : MeshConfig} {env : CfgEnv}.

(** The timer runs until nothing starts it again: the delays it was started with.
    Undefined if that takes more than [fuel] expiries. *)
Fixpoint hb_run (fuel : nat) : G (list Z) :=
  p <- get_hb_pub ;;
  match hp_timer p, fuel with
  | None, _ => mret []
  | Some _, O => stm_undef
  | Some delay, S fuel => hb_publish ;; delays <- hb_run fuel ;; mret (delay :: delays)
  end.

Definition pub_at (s : node) (p : hb_pub) : node := s <| nd_srv := (nd_srv s) <| cs_hb_pub := p |> |>.
Definition hb_delay (p : hb_pub) : Z := u16 (hb_pwr2 (hp_period p) 1 * 1000).

(** The features that a node has on. *)
Definition features (s : node) : Z :=
  (if bt_mesh_relay_get s =? BT_MESH_RELAY_ENABLED then 1 else 0) +
  (if bt_mesh_gatt_proxy_get s =? BT_MESH_GATT_PROXY_ENABLED then 2 else 0) +
  (if bt_mesh_friend_get s =? BT_MESH_FRIEND_ENABLED then 4 else 0) +
  (if CONFIG_LOW_POWER && c_lpn_established then 8 else 0).
Definition heartbeat (s : node) (sub : nat) (src dst ttl net_idx : Z) : cfg_event :=
  CHeartbeat (mk_tx sub (mk_ctx net_idx BT_MESH_KEY_UNUSED dst 0 ttl false) src (bt_mesh_net_transmit_get s) false 0 0)
    (u8 ttl :: sys_put_be16 (features s)).

(** What an expiry does to the publication. *)
Definition hb_next (p : hb_pub) : hb_pub :=
  let p := p <| hp_timer := None |> in
  if hp_count p =? 0 then p
  else
    let p := if hp_count p =? 0xffff then p else p <| hp_count := hp_count p - 1 |> in
    if hb_delay p =? 0 then p else p <| hp_timer := Some (hb_delay p) |>.

Section node.
Variables (s : node) (r : model_ref) (el : elem) (sub : nat).
Hypothesis Hmodel : cs_model (nd_srv s) = Some r.
Hypothesis Helem : ac_elems (nd_acc s) !! mr_elem r = Some el.

Definition beat (p : hb_pub) : cfg_event := heartbeat s sub (el_addr el) (hp_dst p) (hp_ttl p) (hp_net_idx p).

Lemma hb_send_run p : bt_mesh_subnet_get (nd_net s) (hp_net_idx p) = Some sub ->
  hb_send r (pub_at s p) = Some (tt, pub_at s p, [beat p]).
Proof.
  intros Hsub. unfold hb_send. rewrite (stm_bind_pure _ _ _ (pub_at s p) (pub_at s p)) by done.
  change (nd_acc (pub_at s p)) with (nd_acc s). rewrite Helem.
  rewrite (stm_bind_pure _ _ _ el (pub_at s p)) by done.
  change (nd_net (pub_at s p)) with (nd_net s). change (cs_hb_pub (nd_srv (pub_at s p))) with p.
  rewrite Hsub, (stm_bind_pure _ _ _ sub (pub_at s p)) by done. unfold stm_emit. repeat f_equal. unfold beat, heartbeat, features.
  change (bt_mesh_relay_get (pub_at s p)) with (bt_mesh_relay_get s).
  change (bt_mesh_gatt_proxy_get (pub_at s p)) with (bt_mesh_gatt_proxy_get s).
  change (bt_mesh_friend_get (pub_at s p)) with (bt_mesh_friend_get s).
  change (bt_mesh_net_transmit_get (pub_at s p)) with (bt_mesh_net_transmit_get s).
  by repeat case_if.
Qed.
Lemma hb_publish_run p : bt_mesh_subnet_get (nd_net s) (hp_net_idx p) = Some sub ->
  hb_publish (pub_at s p) = Some (tt, pub_at s (hb_next p), [beat p]).
Proof.
  intros Hsub. unfold hb_publish.
  rewrite (stm_bind_pure _ _ _ tt (pub_at s (p <| hp_timer := None |>))) by done.
  rewrite (stm_bind_pure _ _ _ (pub_at s (p <| hp_timer := None |>)) (pub_at s (p <| hp_timer := None |>))) by done.
  change (nd_net (pub_at s (p <| hp_timer := None |>))) with (nd_net s).
  change (cs_hb_pub (nd_srv (pub_at s (p <| hp_timer := None |>)))) with (p <| hp_timer := None |>).
  change (hp_net_idx (p <| hp_timer := None |>)) with (hp_net_idx p). cbv zeta. rewrite Hsub.
  change (cs_model (nd_srv (pub_at s (p <| hp_timer := None |>)))) with (cs_model (nd_srv s)). rewrite Hmodel.
  rewrite (stm_bind_pure _ _ _ r (pub_at s (p <| hp_timer := None |>))) by done.
  unfold stm_bind at 1. rewrite hb_send_run by done. unfold hb_next. change (beat (p <| hp_timer := None |>)) with (beat p).
  destruct p as [timer dst count period ttl feat net_idx]. unfold hb_delay.
  cbn -[hb_pwr2 u16 Z.eqb Z.mul Z.sub pub_at]. destruct (count =? 0); [done|].
  destruct (count =? 65535), (u16 (hb_pwr2 period 1 * 1000) =? 0) eqn:Hd; cbn -[hb_pwr2 u16 Z.eqb Z.mul Z.sub]; rewrite Hd; done.
Qed.

Lemma hb_run_stop n p : hp_timer p = None -> hb_run n (pub_at s p) = Some ([], pub_at s p, []).
Proof.
  intros Ht. destruct n; cbn [hb_run]; rewrite (stm_bind_pure _ _ _ p (pub_at s p)) by done; by rewrite Ht.
Qed.
Lemma hb_run_step n p t ds s' e : bt_mesh_subnet_get (nd_net s) (hp_net_idx p) = Some sub -> hp_timer p = Some t ->
  hb_run n (pub_at s (hb_next p)) = Some (ds, s', e) -> hb_run (S n) (pub_at s p) = Some (t :: ds, s', beat p :: e).
Proof.
  intros Hsub Ht Hrun. cbn [hb_run]. rewrite (stm_bind_pure _ _ _ p (pub_at s p)) by done. rewrite Ht.
  unfold stm_bind. rewrite hb_publish_run, Hrun by done. cbn. by rewrite app_nil_r.
Qed.

(** The last heartbeat, and the one before others. *)
Lemma hb_next_last p : hp_count p = 0 \/ (hb_delay p = 0 /\ hp_count p <> 0) -> hp_timer (hb_next p) = None.
Proof.
  unfold hb_next. destruct p as [timer dst count period ttl feat net_idx]. unfold hb_delay.
  cbn -[hb_pwr2 u16 Z.eqb Z.mul Z.sub]. intros [-> | [Hd Hc]]; [done|]. rewrite (proj2 (Z.eqb_neq _ _) Hc).
  destruct (count =? 65535); cbn -[hb_pwr2 u16 Z.eqb Z.mul Z.sub]; by rewrite Hd.
Qed.
Lemma hb_next_more p : hp_count p <> 0 -> hp_count p <> 0xffff -> hb_delay p <> 0 ->
  hb_next p = (p <| hp_count := hp_count p - 1 |>) <| hp_timer := Some (hb_delay p) |>.
Proof.
  intros Hc%Z.eqb_neq Hf%Z.eqb_neq Hd%Z.eqb_neq. revert Hd. destruct p as [timer dst count period ttl feat net_idx].
  unfold hb_next, hb_delay in *. cbn -[hb_pwr2 u16 Z.eqb Z.mul Z.sub] in *. rewrite Hc, Hf.
  cbn -[hb_pwr2 u16 Z.eqb Z.mul Z.sub]. by intros ->.
Qed.

Lemma hb_run_count n : forall p t, bt_mesh_subnet_get (nd_net s) (hp_net_idx p) = Some sub ->
  hp_timer p = Some t -> hp_count p = Z.of_nat n -> Z.of_nat n < 0xffff -> hb_delay p <> 0 ->
  exists p', hb_run (S n) (pub_at s p) = Some (t :: replicate n (hb_delay p), pub_at s p', replicate (S n) (beat p)) /\
    hp_timer p' = None.
Proof.
  induction n as [|n IH]; intros p t Hsub Ht Hc Hn Hd.
  - exists (hb_next p). assert (hp_timer (hb_next p) = None) as Hl by (apply hb_next_last; left; lia).
    split; [|done]. by apply hb_run_step; [..|apply hb_run_stop].
  - assert (hb_next p = (p <| hp_count := hp_count p - 1 |>) <| hp_timer := Some (hb_delay p) |>) as Hnext
      by (apply hb_next_more; [lia|lia|done]).
    destruct (IH (hb_next p) (hb_delay p)) as (p' & Hrun & Hp'); rewrite ?Hnext; try done.
    + change (hp_count p - 1 = Z.of_nat n). lia.
    + lia.
    + exists p'. split; [|done]. change (replicate (S (S n)) (beat p)) with (beat p :: replicate (S n) (beat p)).
      apply hb_run_step; [done..|]. rewrite Hrun, Hnext. done.
Qed.
End node.

(** The publication that a request sets, before its first heartbeat. *)
Definition hb_start (pa : hb_para) : hb_pub :=
  mk_hb_pub (Some 0) (pa_dst pa) (hb_pwr2 (pa_count pa) 1) (pa_period pa) (pa_ttl pa) (pa_feat pa) (pa_net_idx pa).
Definition hb_valid (pa : hb_para) : Prop :=
  BT_MESH_ADDR_IS_VIRTUAL (pa_dst pa) = false /\ pa_dst pa <> BT_MESH_ADDR_UNASSIGNED /\
  1 <= pa_count pa <= 0x10 /\ 1 <= pa_period pa <= 0x10 /\ ttl_valid (pa_ttl pa) = true /\ pa_net_idx pa <= 0xfff.

Lemma heartbeat_set_run pa s sub : hb_valid pa -> bt_mesh_subnet_get (nd_net s) (pa_net_idx pa) = Some sub ->
  genie_heartbeat_set pa s = Some (STATUS_SUCCESS, pub_at s (hb_start pa), []).
Proof.
  intros (Hv & Hdst & Hc & Hp & Ht & Hn) Hsub. unfold genie_heartbeat_set. rewrite (stm_bind_pure _ _ s s s) by done.
  rewrite Hv, Ht, Hsub, bool_decide_false by done. cbn [negb].
  rewrite (proj2 (Z.ltb_ge 0x11 _)), (proj2 (Z.ltb_ge 0x10 _)), (proj2 (Z.ltb_ge 0xfff _)) by lia. cbn [andb].
  rewrite (proj2 (Z.eqb_neq (pa_dst pa) _)) by done.
  rewrite (proj2 (Z.eqb_neq (pa_period pa) 0)), (proj2 (Z.eqb_neq (pa_count pa) 0)) by lia.
  unfold pub_at, hb_start. destruct s as [net ac srv conf labels l prov], srv as [? ? ? ? ? ? ? ? p ?], p. done.
Qed.

Lemma hb_pwr2_pow c : 1 <= c <= 0x10 -> hb_pwr2 c 1 = 2 ^ (c - 1).
Proof.
  intros Hc. unfold hb_pwr2. rewrite (proj2 (Z.eqb_neq c 0)), (proj2 (Z.eqb_neq c 0xff)), (proj2 (Z.eqb_neq c 0x11)) by lia.
  cbn [orb]. unfold u16. rewrite Z.shiftl_mul_pow2, Z.mul_1_l by lia. apply Z.mod_small. split; [by apply Z.pow_nonneg|].
  change 65536 with (2 ^ 16). by apply Z.pow_lt_mono_r; lia.
Qed.

(** C7: how many heartbeats a publication sends, and when. A valid request to
    publish [2 ^ (count - 1)] heartbeats every [2 ^ (period - 1)] seconds sends
    the first one at once; every one goes to the destination of the request, on
    its subnet, with its TTL and the features that the node has on; the timer then
    stops. The period is kept in 16 bits of milliseconds: when it is not 0 modulo
    65536 (that is, for logarithms below 14), it is what separates the heartbeats,
    and there are [2 ^ (count - 1) + 1] of them; otherwise there is only one. *)
Theorem heartbeat_publication pa s r el sub :
  hb_valid pa -> cs_model (nd_srv s) = Some r -> ac_elems (nd_acc s) !! mr_elem r = Some el ->
  bt_mesh_subnet_get (nd_net s) (pa_net_idx pa) = Some sub ->
  let d := (1000 * 2 ^ (pa_period pa - 1)) mod 65536 in
  let n := if decide (d = 0) then 0%nat else Z.to_nat (2 ^ (pa_count pa - 1)) in
  exists s', (genie_heartbeat_set pa ;; hb_run (S n)) s =
      Some (0 :: replicate n d, s', replicate (S n) (heartbeat s sub (el_addr el) (pa_dst pa) (pa_ttl pa) (pa_net_idx pa))) /\
    hp_timer (cs_hb_pub (nd_srv s')) = None.
Proof.
  intros Hpa Hr Hel Hsub d n. pose proof Hpa as (_ & _ & Hc & Hp & _ & _).
  assert (hb_delay (hb_start pa) = d) as Hd.
  { unfold hb_delay, d. change (hp_period (hb_start pa)) with (pa_period pa). rewrite hb_pwr2_pow, Z.mul_comm by lia. done. }
  assert (hp_count (hb_start pa) = 2 ^ (pa_count pa - 1)) as Hcount by by apply hb_pwr2_pow.
  assert (0 < 2 ^ (pa_count pa - 1) <= 2 ^ 15) as Hrange.
  { split; [apply Z.pow_pos_nonneg; lia|apply Z.pow_le_mono_r; lia]. }
  unfold stm_bind. rewrite (heartbeat_set_run pa s sub) by done.
  assert (exists p', hb_run (S n) (pub_at s (hb_start pa)) =
    Some (0 :: replicate n d, pub_at s p', replicate (S n) (beat s el sub (hb_start pa))) /\ hp_timer p' = None) as (p' & -> & Hp').
  { subst n. destruct (decide (d = 0)) as [H0|H0].
    - exists (hb_next (hb_start pa)).
      assert (hp_timer (hb_next (hb_start pa)) = None) as Hl by (apply hb_next_last; right; split; [congruence|lia]).
      split; [|done]. by eapply hb_run_step; [..|apply hb_run_stop].
    - rewrite <- Hd. apply (hb_run_count s r el sub Hr Hel); [done..| |lia|congruence]. lia. }
  exists (pub_at s p'). split; [|done]. done.
Qed.
End heartbeat.

(** Four heartbeats every two seconds. *)
Lemma heartbeat_publication_witness : exists s' e,
  (genie_heartbeat_set (mk_hb_para 0xc000 3 2 7 0 0) ;; hb_run (cfg := proxy_friend_config) (env := sample_cfg_env) 5)
    sample_cfg_node = Some ([0; 2000; 2000; 2000; 2000], s', e) /\ length e = 5%nat.
Proof.
  destruct (heartbeat_publication (cfg := proxy_friend_config) (env := sample_cfg_env) (mk_hb_para 0xc000 3 2 7 0 0) sample_cfg_node
    (mk_model_ref 0 false 0) (mk_elem 2 [sample_cfg_srv; sample_server] [sample_vendor]) 0%nat) as (s' & Hrun & _).
  - unfold hb_valid. cbn. unfold BT_MESH_ADDR_UNASSIGNED. split_and!; [done|lia..|done|lia].
  - done.
  - done.
  - done.
  - exists s'. eexists. split; [exact Hrun|done].
Defined.

(** ** Where the server strays from what it means to do *)

Section examples.
Let r : model_ref := mk_model_ref 0 false 0.
Let ctx : msg_ctx := mk_ctx 0 BT_MESH_KEY_DEV 1 5 7 false.
Let run (ops : list cfg_op) : option node :=
  (fun p => p.1.2) <$> run_ops (cfg := proxy_friend_config) (env := sample_cfg_env) (aenv := sample_cfg_acc_env) ops sample_cfg_node.

(** A key is updated during a key refresh, deleted, and added again; [updated] is
    still set, so the end of the refresh replaces the new key by the one that
    deletion cleared: an application key of zeros is in use. *)
Theorem added_key_becomes_zero :
  (fun s => (fun k => (app_net_idx k, app_app_idx k, (app_key0 k).2)) <$> head (app_keys (nd_net s))) <$>
    run [OpMessage r OP_APP_KEY_ADD ctx (key_idx_pack 0 1 ++ replicate 16 7);
         OpMessage r OP_NET_KEY_UPDATE ctx (sys_put_le16 0 ++ replicate 16 9);
         OpMessage r OP_APP_KEY_UPDATE ctx (key_idx_pack 0 1 ++ replicate 16 8);
         OpMessage r OP_APP_KEY_DEL ctx (key_idx_pack 0 1);
         OpMessage r OP_APP_KEY_ADD ctx (key_idx_pack 0 1 ++ replicate 16 6);
         OpMessage r OP_KRP_SET ctx (sys_put_le16 0 ++ [BT_MESH_KR_PHASE_3])] =
  Some (Some (0, 1, replicate 16 0)).
Proof. by vm_compute. Qed.

(** Adding application key 0 binds every model to it, the Configuration Server
    too, which is to be reached with the device key only. *)
Theorem server_bound_to_app_key :
  (fun s => md_keys <$> get_model (nd_acc s) r) <$>
    run [OpMessage r OP_APP_KEY_ADD ctx (key_idx_pack 0 0 ++ replicate 16 7)] = Some (Some [BT_MESH_KEY_DEV; 0]).
Proof. by vm_compute. Qed.

(** After a reset the models publish and subscribe to what they did. *)
Theorem reset_keeps_groups :
  (fun s => (nd_provisioned s, (fun m => head (md_groups m)) <$> get_model (nd_acc s) (mk_model_ref 0 false 1))) <$>
    run [OpMessage r OP_MOD_SUB_ADD ctx (sys_put_le16 2 ++ sys_put_le16 0xc000 ++ sys_put_le16 0x1000); OpReset] =
  Some (false, Some (Some 0xc000)).
Proof. by vm_compute. Qed.
End examples.

(** The answer to an update of the key of a subnet that does not exist is
    Success. *)
Theorem net_key_update_unknown {cfg : MeshConfig} {env : CfgEnv} r ctx idx key s : 0 <= idx <= 0xfff ->
  bt_mesh_subnet_get (nd_net s) idx = None ->
  net_key_update r ctx (sys_put_le16 idx ++ key) s =
    net_key_status r ctx idx STATUS_SUCCESS s.
Proof.
  intros Hidx Hsub. unfold net_key_update, pull_le16. rewrite decide_False by (rewrite length_app; cbn; lia).
  assert (sys_get_le16 (sys_put_le16 idx ++ key) = idx) as -> by (apply sys_get_put_le16; lia).
  rewrite (stm_bind_pure _ _ s (idx, drop 2 (sys_put_le16 idx ++ key)) s) by done. cbv beta iota.
  rewrite (proj2 (Z.ltb_ge 0xfff idx)) by lia. rewrite (stm_bind_pure _ _ s s s) by done. by rewrite Hsub.
Qed.
