(* ===== verification/CfgSubs.v ===== *)
(** * Subscriptions are a bounded set (bt_mesh/src/cfg_srv.c)

    A model's groups are an array of eight addresses with free entries between
    the used ones. Requests to add, delete, overwrite and clear work on it as on a
    set of at most eight addresses, and so does the test of whether the model
    receives what is sent to an address. *)

From stdpp Require Import gmap sets.
From S2P Require Import Prelude NetBuf Cmac Ccm MeshCrypto NetState NetIv TransState TransTx Access Beacon Proxy CfgState CfgModels CfgSrv CfgWf CfgOk CfgSafe CfgServer.

(** ** The array as a set *)

Definition used (l : list Z) : list Z := filter (fun a => a <> BT_MESH_ADDR_UNASSIGNED) l.
Definition groups_rep (l : list Z) (X : gset Z) : Prop :=
  length l = MODEL_GROUP_COUNT /\ NoDup (used l) /\ list_to_set (used l) = X.

Lemma used_set l i a : l !! i = Some BT_MESH_ADDR_UNASSIGNED -> a <> BT_MESH_ADDR_UNASSIGNED ->
  used (<[i := a]> l) ≡ₚ a :: used l.
Proof.
  intros Hi Ha. unfold used. rewrite insert_take_drop by by eapply lookup_lt_Some.
  rewrite <- (take_drop_middle l i _ Hi) at 3. rewrite !list.filter_app, !filter_cons.
  rewrite decide_True, decide_False by auto. by rewrite Permutation_middle.
Qed.
Lemma used_unset l i a : l !! i = Some a -> a <> BT_MESH_ADDR_UNASSIGNED ->
  used l ≡ₚ a :: used (<[i := BT_MESH_ADDR_UNASSIGNED]> l).
Proof.
  intros Hi Ha. rewrite <- (used_set _ i) by (try done; apply list_lookup_insert_eq; by eapply lookup_lt_Some).
  by rewrite list_insert_insert_eq, list_insert_id.
Qed.

Lemma rep_elem l X a : groups_rep l X -> a <> BT_MESH_ADDR_UNASSIGNED -> a ∈ X <-> a ∈ l.
Proof.
  intros (_ & _ & <-) Ha. rewrite elem_of_list_to_set. unfold used. rewrite list_elem_of_filter. naive_solver.
Qed.
Lemma rep_size l X : groups_rep l X -> size X = length (used l).
Proof. intros (_ & Hd & <-). by apply size_list_to_set. Qed.
Lemma used_length l : (length (used l) <= length l)%nat.
Proof. apply length_filter. Qed.
Lemma used_all l : BT_MESH_ADDR_UNASSIGNED ∉ l -> used l = l.
Proof.
  induction l as [|x l IH]; [done|]. intros [Hx Hl]%not_elem_of_cons. unfold used. rewrite filter_cons_True by done.
  f_equal. by apply IH.
Qed.
Lemma rep_full l X : groups_rep l X -> BT_MESH_ADDR_UNASSIGNED ∉ l <-> (MODEL_GROUP_COUNT <= size X)%nat.
Proof.
  intros HX. rewrite (rep_size l X HX). destruct HX as (Hl & _). rewrite <- Hl. split.
  - intros Hn. by rewrite used_all.
  - intros Hs Hin. assert (length (used l) < length l)%nat; [|lia]. by eapply length_filter_lt; [exact Hin|auto].
Qed.

Lemma rep_insert l X i a : groups_rep l X -> l !! i = Some BT_MESH_ADDR_UNASSIGNED -> a <> BT_MESH_ADDR_UNASSIGNED ->
  a ∉ X -> groups_rep (<[i := a]> l) ({[a]} ∪ X).
Proof.
  intros (Hl & Hd & HX) Hi Ha Hn. pose proof (used_set l i a Hi Ha) as Hp. split_and!.
  - by rewrite length_insert.
  - rewrite Hp. apply list.NoDup_cons. split; [|done]. rewrite <- (elem_of_list_to_set (C := gset Z)). by rewrite HX.
  - rewrite <- HX. apply set_eq. intros x. rewrite elem_of_list_to_set, Hp. set_solver.
Qed.
Lemma rep_remove l X i a : groups_rep l X -> l !! i = Some a -> a <> BT_MESH_ADDR_UNASSIGNED ->
  groups_rep (<[i := BT_MESH_ADDR_UNASSIGNED]> l) (X ∖ {[a]}).
Proof.
  intros (Hl & Hd & HX) Hi Ha. pose proof (used_unset l i a Hi Ha) as Hp. rewrite Hp in Hd. apply list.NoDup_cons in Hd as [Hn Hd].
  split_and!; [by rewrite length_insert|done|]. rewrite <- HX. apply set_eq. intros x.
  rewrite elem_of_difference, !elem_of_list_to_set, Hp. set_solver.
Qed.
Lemma used_clear (l : list Z) : used (map (fun _ => BT_MESH_ADDR_UNASSIGNED) l) = [].
Proof. unfold used. induction l as [|x l IH]; [done|]. cbn [map]. by rewrite filter_cons_False by auto. Qed.
Lemma rep_clear (l : list Z) X : groups_rep l X -> groups_rep (map (fun _ => BT_MESH_ADDR_UNASSIGNED) l) ∅.
Proof. intros (Hl & _). split_and!; [by rewrite length_map|rewrite used_clear; constructor|by rewrite used_clear]. Qed.

(** ** The specification *)

Inductive sub_op :=
| SubAdd (addr : Z)
| SubDel (addr : Z)
| SubOverwrite (addr : Z)
| SubClear.

(** The status and the new set. *)
Definition sub_spec (op : sub_op) (X : gset Z) : Z * gset Z :=
  match op with
  | SubAdd a =>
      if negb (BT_MESH_ADDR_IS_GROUP a) then (STATUS_INVALID_ADDRESS, X)
      else if decide (a ∈ X) then (STATUS_SUCCESS, X)
      else if decide (MODEL_GROUP_COUNT <= size X)%nat then (STATUS_INSUFF_RESOURCES, X)
      else (STATUS_SUCCESS, {[a]} ∪ X)
  | SubDel a => if negb (BT_MESH_ADDR_IS_GROUP a) then (STATUS_INVALID_ADDRESS, X) else (STATUS_SUCCESS, X ∖ {[a]})
  | SubOverwrite a => if negb (BT_MESH_ADDR_IS_GROUP a) then (STATUS_INVALID_ADDRESS, X) else (STATUS_SUCCESS, {[a]})
  | SubClear => (STATUS_SUCCESS, ∅)
  end.
Fixpoint sub_specs (ops : list sub_op) (X : gset Z) : list Z * gset Z :=
  match ops with
  | [] => ([], X)
  | op :: ops => let '(st, X) := sub_spec op X in let '(sts, X) := sub_specs ops X in (st :: sts, X)
  end.

Section subs.
Context {cfg : MeshConfig} {env : CfgEnv}.
Variable r : model_ref.

Definition sub_run (op : sub_op) : G Z :=
  match op with
  | SubAdd a => sub_add r a
  | SubDel a => sub_del r a
  | SubOverwrite a => sub_overwrite r a
  | SubClear => sub_clear r ;; mret STATUS_SUCCESS
  end.
Fixpoint sub_runs (ops : list sub_op) : G (list Z) :=
  match ops with
  | [] => mret []
  | op :: ops => st <- sub_run op ;; sts <- sub_runs ops ;; mret (st :: sts)
  end.

(** *** With CONFIG_ALI_SIMPLE_MODLE off: each model has its own list *)

(** The model's groups are the set, and the other models are those of [s0]. *)
Definition sub_rep (s0 s : node) (X : gset Z) : Prop :=
  (exists m, get_model (nd_acc s) r = Some m /\ groups_rep (md_groups m) X) /\
  forall r', r' <> r -> get_model (nd_acc s) r' = get_model (nd_acc s0) r'.

Lemma group_not_unassigned a : BT_MESH_ADDR_IS_GROUP a = true -> a <> BT_MESH_ADDR_UNASSIGNED.
Proof. by intros Ha ->. Qed.

Lemma sub_ok_model {T} (f : model -> G T) Q s m : get_model (nd_acc s) r = Some m -> stm_ok (f m) Q s ->
  stm_ok (stm_bind (node_model r) f) Q s.
Proof.
  intros Hm Hf. unfold node_model, stm_ok, stm_wp. rewrite stm_bind_assoc, (stm_bind_pure _ _ s s s) by done.
  by rewrite Hm, (stm_bind_pure _ _ s m s).
Qed.
Lemma sub_ok_groups {T} (f : list Z -> list Z) (k : G T) Q s0 s m X :
  get_model (nd_acc s) r = Some m -> (forall r', r' <> r -> get_model (nd_acc s) r' = get_model (nd_acc s0) r') ->
  groups_rep (f (md_groups m)) X -> (forall s', sub_rep s0 s' X -> stm_ok k Q s') ->
  stm_ok (set_groups r f ;; k) Q s.
Proof.
  intros Hm Hother Hf Hk. apply ok_bind, ok_modify, Hk. split.
  - exists (m <| md_groups := f (md_groups m) |>). split; [|exact Hf]. change (nd_acc (s <| nd_acc := ?a |>)) with a.
    by rewrite get_model_alter, decide_True, Hm.
  - intros r' Hr'. change (nd_acc (s <| nd_acc := ?a |>)) with a. rewrite get_model_alter, decide_False by done. by apply Hother.
Qed.
Lemma sub_ok_lpn_add {T} a (k : G T) Q s : stm_ok k Q s -> stm_ok (lpn_group_add a ;; k) Q s.
Proof. intros Hk. apply ok_bind. unfold lpn_group_add. case_if; [by apply ok_emit|by apply ok_ret]. Qed.
Lemma sub_ok_lpn_del {T} l (k : G T) Q s : stm_ok k Q s -> stm_ok (lpn_group_del l ;; k) Q s.
Proof. intros Hk. apply ok_bind. unfold lpn_group_del. case_if; [by apply ok_emit|by apply ok_ret]. Qed.

Lemma find_group_elem m a : is_Some (bt_mesh_model_find_group m a) <-> a ∈ md_groups m.
Proof.
  unfold bt_mesh_model_find_group. destruct (find_index _ _) as [i|] eqn:Hf.
  - apply find_index_Some in Hf as (x & Hx & ->%Z.eqb_eq). split; [|by eauto]. intros _. by eapply list_elem_of_lookup_2.
  - apply find_index_None in Hf. split; [by intros []|]. intros Hin. eapply list.Forall_forall in Hf; [|exact Hin].
    cbv beta in Hf. by rewrite Z.eqb_refl in Hf.
Qed.

Section own_list.
Hypothesis Hali : CONFIG_ALI_SIMPLE_MODLE = false.

Lemma sub_add_sim a s0 s X : sub_rep s0 s X ->
  stm_ok (sub_add r a) (fun st s' => st = (sub_spec (SubAdd a) X).1 /\ sub_rep s0 s' (sub_spec (SubAdd a) X).2) s.
Proof.
  intros Hrep. pose proof Hrep as [(m & Hm & HX) Hother]. cbn [sub_spec]. eapply sub_ok_model; [exact Hm|].
  destruct (BT_MESH_ADDR_IS_GROUP a) eqn:Ha; cbn [negb]; [|by apply ok_ret].
  pose proof (group_not_unassigned a Ha) as Hu. pose proof (rep_elem _ _ a HX Hu) as Hin.
  destruct (decide (a ∈ X)) as [Hx|Hx].
  { rewrite bool_decide_true by by apply find_group_elem, Hin. by apply ok_ret. }
  rewrite bool_decide_false by by rewrite find_group_elem, <- Hin. rewrite Hali. apply ok_bind. eapply sub_ok_model; [exact Hm|].
  destruct (find_index _ _) as [i|] eqn:Hf.
  - apply find_index_Some in Hf as (x & Hi & ->%Z.eqb_eq). rewrite decide_False.
    2:{ rewrite <- rep_full by done. intros Hn. by apply Hn, list_elem_of_lookup; exists i. }
    eapply sub_ok_groups; [done..|by apply rep_insert|]. intros s' Hs'. apply ok_ret. cbn [negb].
    by apply sub_ok_lpn_add, ok_ret.
  - apply find_index_None in Hf. rewrite decide_True.
    2:{ apply (rep_full (md_groups m)); [done|]. intros Hn. eapply list.Forall_forall in Hf; [|exact Hn]. done. }
    apply ok_ret. cbn [negb]. by apply ok_ret.
Qed.
Lemma sub_del_sim a s0 s X : sub_rep s0 s X ->
  stm_ok (sub_del r a) (fun st s' => st = (sub_spec (SubDel a) X).1 /\ sub_rep s0 s' (sub_spec (SubDel a) X).2) s.
Proof.
  intros Hrep. pose proof Hrep as [(m & Hm & HX) Hother]. unfold sub_del. cbn [sub_spec].
  destruct (BT_MESH_ADDR_IS_GROUP a) eqn:Ha; cbn [negb]; [|by apply ok_ret].
  pose proof (group_not_unassigned a Ha) as Hu. apply sub_ok_lpn_del. rewrite Hali. apply ok_bind, ok_bind.
  eapply sub_ok_model; [exact Hm|]. destruct (bt_mesh_model_find_group m a) as [i|] eqn:Hf.
  - apply find_index_Some in Hf as (x & Hi & ->%Z.eqb_eq). eapply sub_ok_groups; [done..|by apply rep_remove|].
    intros s' Hs'. by repeat apply ok_ret.
  - repeat apply ok_ret. split; [done|]. cbn [snd]. rewrite difference_disjoint_L; [done|].
    apply disjoint_singleton_r. rewrite (rep_elem _ _ a HX Hu), <- find_group_elem, Hf. by intros [].
Qed.
Lemma sub_clear_sim {T} (k : G T) Q s0 s X : sub_rep s0 s X -> (forall s', sub_rep s0 s' ∅ -> stm_ok k Q s') ->
  stm_ok (sub_clear r ;; k) Q s.
Proof.
  intros [(m & Hm & HX) Hother] Hk. unfold stm_ok, stm_wp, sub_clear. rewrite stm_bind_assoc. eapply sub_ok_model; [exact Hm|].
  unfold stm_ok, stm_wp. rewrite stm_bind_assoc. apply sub_ok_lpn_del. by eapply sub_ok_groups; [..|by eapply rep_clear|].
Qed.
Lemma sub_run_sim op s0 s X : sub_rep s0 s X ->
  stm_ok (sub_run op) (fun st s' => st = (sub_spec op X).1 /\ sub_rep s0 s' (sub_spec op X).2) s.
Proof.
  destruct op as [a|a|a|]; intros Hrep; [by apply sub_add_sim|by apply sub_del_sim| |].
  - cbn [sub_run sub_spec]. unfold sub_overwrite. destruct (BT_MESH_ADDR_IS_GROUP a) eqn:Ha; cbn [negb]; [|by apply ok_ret].
    eapply sub_clear_sim; [done|]. intros s1 [(m & Hm & HX) Hother]. eapply sub_ok_model; [exact Hm|].
    rewrite decide_False by by destruct HX as [-> _]. pose proof (group_not_unassigned a Ha) as Hu.
    eapply sub_ok_groups; [done..| |intros s' Hs'; by apply sub_ok_lpn_add, ok_ret].
    cbn [snd]. rewrite <- (union_empty_r_L {[a]}). apply rep_insert; [done| |done|set_solver].
    destruct HX as (Hl & _ & HX). destruct (md_groups m) as [|x l]; [done|]. cbn. f_equal.
    destruct (decide (x = BT_MESH_ADDR_UNASSIGNED)) as [|Hx]; [done|]. exfalso.
    unfold used in HX. rewrite filter_cons_True in HX by done. set_solver.
  - cbn [sub_run sub_spec]. eapply sub_clear_sim; [done|]. intros s' Hs'. by apply ok_ret.
Qed.

End own_list.

(** *** With CONFIG_ALI_SIMPLE_MODLE on: the models share [g_sub_list] *)

Definition with_groups (L : list Z) (m : model) : model := m <| md_groups := L |>.

(** No element has two models with the same identifiers, as the Mesh Profile
    requires; the loops look a model up by them. *)
Definition ids_distinct (a : access) (i : nat) : Prop :=
  forall vnd j k m m', get_model a (mk_model_ref i vnd j) = Some m -> get_model a (mk_model_ref i vnd k) = Some m' ->
    md_id m = md_id m' -> (vnd = true -> md_company m = md_company m') -> j = k.
(** All models of the element have the shared list. *)
Definition shared_elem (s : node) (i : nat) : Prop :=
  ids_distinct (nd_acc s) i /\
  forall r' m, mr_elem r' = i -> get_model (nd_acc s) r' = Some m -> md_groups m = nd_sub_list s.

(** The models [P] have become copies of the shared list. *)
Definition copied (P : model_ref -> Prop) `{forall r, Decision (P r)} (s s' : node) : Prop :=
  nd_sub_list s' = nd_sub_list s /\
  forall r', get_model (nd_acc s') r' =
    if decide (P r') then with_groups (nd_sub_list s) <$> get_model (nd_acc s) r' else get_model (nd_acc s) r'.

Lemma copied_distinct P `{forall r, Decision (P r)} s s' i : copied P s s' -> ids_distinct (nd_acc s) i -> ids_distinct (nd_acc s') i.
Proof.
  intros [_ Hc] Hd vnd j k m m' Hm Hm' Hid Hco. rewrite Hc in Hm, Hm'.
  assert (forall q n, (if decide (P q) then with_groups (nd_sub_list s) <$> get_model (nd_acc s) q
      else get_model (nd_acc s) q) = Some n ->
    exists n0, get_model (nd_acc s) q = Some n0 /\ md_id n0 = md_id n /\ md_company n0 = md_company n) as Hback.
  { intros q n. destruct (decide (P q)); [|intros Hq; by exists n]. destruct (get_model _ q) as [n0|]; [|done]. intros [= <-]. by exists n0. }
  apply Hback in Hm as (m0 & Hm & H1 & H2). apply Hback in Hm' as (m0' & Hm' & H1' & H2').
  eapply (Hd vnd j k m0 m0'); [done..|congruence|]. intros Hv. specialize (Hco Hv). congruence.
Qed.
Lemma copied_some P `{forall r, Decision (P r)} s s' q : copied P s s' ->
  is_Some (get_model (nd_acc s) q) -> is_Some (get_model (nd_acc s') q).
Proof. intros [_ Hc] [m Hm]. rewrite Hc, Hm. case_decide; by eexists. Qed.
Lemma copied_trans P Q R `{forall r, Decision (P r), forall r, Decision (Q r), forall r, Decision (R r)} s s1 s' :
  copied P s s1 -> copied Q s1 s' -> (forall q, R q <-> P q \/ Q q) -> copied R s s'.
Proof.
  intros [Hl1 Hc1] [Hl2 Hc2] HR. split; [congruence|]. intros q. rewrite Hc2, Hl1, Hc1.
  destruct (decide (R q)) as [Hr|Hr], (decide (P q)), (decide (Q q)); try done; rewrite HR in Hr; try tauto.
  by destruct (get_model (nd_acc s) q).
Qed.

Lemma get_model_elem a i vnd j m : get_model a (mk_model_ref i vnd j) = Some m <->
  exists e, ac_elems a !! i = Some e /\ models_of e vnd !! j = Some m.
Proof.
  unfold get_model. cbn [mr_elem mr_vnd mr_idx]. destruct (ac_elems a !! i) as [e|]; cbn.
  - split; [by eauto|]. by intros (? & [= <-] & ?).
  - split; [done|]. by intros (? & ? & _).
Qed.

(** A model is found again by its identifiers. *)
Lemma find_again a i e vnd j m : ids_distinct a i -> ac_elems a !! i = Some e -> models_of e vnd !! j = Some m ->
  (if vnd then bt_mesh_model_find_vnd e (md_company m) (md_id m) else bt_mesh_model_find e (md_id m)) = Some j.
Proof.
  intros Hd He Hm. pose proof (list_elem_of_lookup_2 _ _ _ Hm) as Hin.
  assert (exists k, (if vnd then bt_mesh_model_find_vnd e (md_company m) (md_id m) else bt_mesh_model_find e (md_id m)) = Some k)
    as [k Hk].
  { assert (forall p, p m = true -> exists k, find_index p (models_of e vnd) = Some k) as Hhit.
    { intros q Hq. destruct (find_index_hit q _ _ Hin Hq) as (k & Hk & _). by exists k. }
    destruct vnd; apply Hhit; by rewrite ?Z.eqb_refl. }
  rewrite Hk. f_equal. symmetry.
  destruct vnd; apply find_index_Some in Hk as (m' & Hm' & Hids).
  - apply andb_prop in Hids as [?%Z.eqb_eq ?%Z.eqb_eq].
    eapply (Hd true j k m m'); [by apply get_model_elem; eauto..|done|by intros _].
  - apply Z.eqb_eq in Hids. eapply (Hd false j k m m'); [by apply get_model_elem; eauto..|done|done].
Qed.

Lemma copy_ok q s : stm_ok (copy_sub_list q) (fun _ s' => copied (fun r' => r' = q) s s') s.
Proof.
  apply ok_bind, ok_get, ok_modify. split; [done|]. intros r'. change (nd_acc (s <| nd_acc := ?a |>)) with a.
  rewrite get_model_alter. destruct (decide (q = r')) as [<-|]; [by rewrite decide_True|by rewrite decide_False by congruence].
Qed.

Lemma copy_models_ok i vnd js s : ids_distinct (nd_acc s) i ->
  Forall (fun j => is_Some (get_model (nd_acc s) (mk_model_ref i vnd j))) js ->
  stm_ok (for_models i vnd js copy_sub_list)
    (fun _ s' => copied (fun r' => mr_elem r' = i /\ mr_vnd r' = vnd /\ mr_idx r' ∈ js) s s') s.
Proof.
  revert s. induction js as [|j js IH]; intros s Hd Hjs; cbn [for_models].
  - apply ok_ret. split; [done|]. intros r'. rewrite decide_False; [done|]. by intros (_ & _ & ?%elem_of_nil).
  - apply List.Forall_cons_iff in Hjs as [[m Hm] Hjs]. pose proof Hm as (e & He & Hme)%get_model_elem.
    apply ok_bind, ok_get, ok_bind. eapply ok_of_option; [exact He|]. apply ok_bind. eapply ok_of_option; [exact Hme|].
    apply ok_bind. eapply ok_of_option; [by eapply find_again|]. eapply ok_call; [apply copy_ok|]. cbv beta. intros _ s1 H1.
    eapply ok_mono; [apply IH; [by eapply copied_distinct|]|].
    { revert Hjs. apply List.Forall_impl. intros k Hk. by eapply copied_some. }
    cbv beta. intros _ s2 H2. eapply copied_trans; [exact H1|exact H2|]. intros [i' v' k]. cbn.
    rewrite elem_of_cons. naive_solver.
Qed.

Lemma elem_bind_ok i s : ids_distinct (nd_acc s) i -> is_Some (ac_elems (nd_acc s) !! i) ->
  stm_ok (_elem_sub_bind i) (fun _ s' => copied (fun r' => mr_elem r' = i) s s') s.
Proof.
  intros Hd [e He]. apply ok_bind, ok_get, ok_bind. eapply ok_of_option; [exact He|].
  assert (forall vnd, Forall (fun j => is_Some (get_model (nd_acc s) (mk_model_ref i vnd j))) (seq 0 (length (models_of e vnd)))) as Hall.
  { intros vnd. apply list.Forall_forall. intros j [_ Hj]%elem_of_seq. apply lookup_lt_is_Some in Hj as [m Hm].
    exists m. apply get_model_elem. by exists e. }
  eapply ok_call; [apply (copy_models_ok i false _ s Hd (Hall false))|]. cbv beta. intros _ s1 H1.
  eapply ok_mono; [apply (copy_models_ok i true); [by eapply copied_distinct|]|].
  { generalize (Hall true). apply List.Forall_impl. intros k Hk. by eapply copied_some. }
  cbv beta. intros _ s2 H2. destruct H1 as [Hl1 H1], H2 as [Hl2 H2]. split; [congruence|]. intros q. rewrite H2, Hl1, H1.
  destruct (decide (mr_elem q = i)) as [Hq|Hq]; [|by rewrite !decide_False by tauto].
  destruct (get_model (nd_acc s) q) as [m|] eqn:Hm; [|by repeat case_decide].
  destruct q as [i' v k]. cbn in Hq. subst i'. apply get_model_elem in Hm as (e' & He' & Hm). rewrite He in He'. injection He' as <-.
  apply lookup_lt_Some in Hm. cbn [mr_elem mr_vnd mr_idx]. destruct v.
  - rewrite decide_True; [|split_and!; [done|done|apply elem_of_seq; cbn [models_of] in *; lia]]. by rewrite decide_False by (by intros (_ & ? & _)).
  - rewrite decide_False by (by intros (_ & ? & _)). rewrite decide_True; [done|]. split_and!; [done|done|apply elem_of_seq; cbn [models_of] in *; lia].
Qed.

Section shared_list.
Hypothesis Hali : CONFIG_ALI_SIMPLE_MODLE = true.

(** The shared list is the set, the models of the element have copies of it, and
    the other models are those of [s0]. *)
Definition share_rep (s0 s : node) (X : gset Z) : Prop :=
  groups_rep (nd_sub_list s) X /\ ids_distinct (nd_acc s) (mr_elem r) /\ is_Some (get_model (nd_acc s) r) /\
  forall r', get_model (nd_acc s) r' =
    if decide (mr_elem r' = mr_elem r) then with_groups (nd_sub_list s) <$> get_model (nd_acc s0) r'
    else get_model (nd_acc s0) r'.

Lemma share_model s0 s X : share_rep s0 s X ->
  exists m, get_model (nd_acc s) r = Some m /\ md_groups m = nd_sub_list s.
Proof.
  intros (_ & _ & [m Hm] & Hr). exists m. split; [done|]. rewrite Hr, decide_True in Hm by done.
  destruct (get_model (nd_acc s0) r); [|done]. by injection Hm as <-.
Qed.

Lemma share_copy L s0 s X X' : share_rep s0 s X -> groups_rep L X' ->
  stm_ok (_elem_sub_bind (mr_elem r)) (fun _ s' => share_rep s0 s' X') (s <| nd_sub_list := L |>).
Proof.
  intros (_ & Hd & [m Hm] & Hr) HL. eapply ok_mono; [apply elem_bind_ok; [done|]|].
  - destruct r as [i v j]. apply get_model_elem in Hm as (e & He & _). by exists e.
  - cbv beta. intros _ s' Hc. pose proof Hc as [Hl Hq]. split_and!.
    + by rewrite Hl.
    + by eapply copied_distinct.
    + eapply copied_some; [exact Hc|]. by exists m.
    + intros r'. rewrite Hq, Hl. change (nd_acc (s <| nd_sub_list := L |>)) with (nd_acc s). rewrite Hr.
      case_decide; [|done]. by destruct (get_model (nd_acc s0) r').
Qed.

Lemma share_add_sim a s0 s X : share_rep s0 s X ->
  stm_ok (sub_add r a) (fun st s' => st = (sub_spec (SubAdd a) X).1 /\ share_rep s0 s' (sub_spec (SubAdd a) X).2) s.
Proof.
  intros Hrep. pose proof Hrep as (HX & _). destruct (share_model _ _ _ Hrep) as (m & Hm & Hg). cbn [sub_spec].
  eapply sub_ok_model; [exact Hm|].
  destruct (BT_MESH_ADDR_IS_GROUP a) eqn:Ha; cbn [negb]; [|by apply ok_ret].
  pose proof (group_not_unassigned a Ha) as Hu. pose proof (rep_elem _ _ a HX Hu) as Hin. rewrite <- Hg in Hin.
  destruct (decide (a ∈ X)) as [Hx|Hx].
  { rewrite bool_decide_true by by apply find_group_elem, Hin. by apply ok_ret. }
  rewrite bool_decide_false by by rewrite find_group_elem, <- Hin. rewrite Hali. apply ok_bind, ok_bind, ok_get.
  eapply sub_ok_model; [exact Hm|]. rewrite Hg, take_ge by done. destruct (find_index _ _) as [i|] eqn:Hf.
  - apply find_index_Some in Hf as (x & Hi & ->%Z.eqb_eq). rewrite decide_False.
    2:{ rewrite <- rep_full by done. intros Hn. by apply Hn, list_elem_of_lookup; exists i. }
    apply ok_bind, ok_modify. eapply ok_call; [eapply share_copy; [exact Hrep|by apply rep_insert]|]. cbv beta.
    intros _ s' Hs'. apply ok_ret. cbn [negb].
    by apply sub_ok_lpn_add, ok_ret.
  - apply find_index_None in Hf. rewrite decide_True.
    2:{ apply (rep_full (nd_sub_list s)); [done|]. intros Hn. eapply list.Forall_forall in Hf; [|exact Hn]. done. }
    apply ok_ret. cbn [negb]. by apply ok_ret.
Qed.
Lemma share_del_sim a s0 s X : share_rep s0 s X ->
  stm_ok (sub_del r a) (fun st s' => st = (sub_spec (SubDel a) X).1 /\ share_rep s0 s' (sub_spec (SubDel a) X).2) s.
Proof.
  intros Hrep. pose proof Hrep as (HX & _). destruct (share_model _ _ _ Hrep) as (m & Hm & Hg). unfold sub_del. cbn [sub_spec].
  destruct (BT_MESH_ADDR_IS_GROUP a) eqn:Ha; cbn [negb]; [|by apply ok_ret].
  pose proof (group_not_unassigned a Ha) as Hu. apply sub_ok_lpn_del. rewrite Hali. unfold sub_list_remove.
  apply ok_bind, ok_bind, ok_get.
  eapply sub_ok_model; [exact Hm|]. rewrite Hg, take_ge by done. destruct (find_index _ _) as [i|] eqn:Hf.
  - apply find_index_Some in Hf as (x & Hi & ->%Z.eqb_eq). apply ok_bind, ok_modify.
    eapply ok_mono; [eapply share_copy; [exact Hrep|by apply rep_remove]|]. cbv beta. intros _ s' Hs'. by apply ok_ret.
  - apply ok_ret, ok_ret. split; [done|]. cbn [snd]. rewrite difference_disjoint_L; [done|].
    apply disjoint_singleton_r. rewrite (rep_elem _ _ a HX Hu). intros Hn. apply find_index_None in Hf.
    eapply list.Forall_forall in Hf; [|exact Hn]. cbv beta in Hf. by rewrite Z.eqb_refl in Hf.
Qed.
End shared_list.

Definition is_add_del (op : sub_op) : Prop := match op with SubAdd _ | SubDel _ => True | _ => False end.

(** A simulation of single requests is one of sequences of them. *)
Lemma sub_runs_sim (rep : node -> gset Z -> Prop) (P : sub_op -> Prop) :
  (forall op s X, P op -> rep s X ->
    stm_ok (sub_run op) (fun st s' => st = (sub_spec op X).1 /\ rep s' (sub_spec op X).2) s) ->
  forall ops s X, Forall P ops -> rep s X ->
    stm_ok (sub_runs ops) (fun sts s' => sts = (sub_specs ops X).1 /\ rep s' (sub_specs ops X).2) s.
Proof.
  intros Hsim. induction ops as [|op ops IH]; intros s X HP HX; cbn [sub_runs sub_specs]; [by apply ok_ret|].
  apply List.Forall_cons_iff in HP as [Hop HP].
  eapply ok_call; [by apply Hsim|]. cbv beta. intros st s2 [-> H2]. destruct (sub_spec op X) as [st X2].
  eapply ok_call; [by apply IH|]. cbv beta. intros sts s3 [-> H3]. cbn [fst snd] in *.
  destruct (sub_specs ops X2). by apply ok_ret.
Qed.

(** What both forms of the list give. *)
Lemma rep_result l X : groups_rep l X ->
  (size X <= MODEL_GROUP_COUNT)%nat /\
  (forall m a, md_groups m = l -> a <> BT_MESH_ADDR_UNASSIGNED -> is_Some (bt_mesh_model_find_group m a) <-> a ∈ X).
Proof.
  intros HX. split.
  - rewrite (rep_size _ _ HX). etrans; [apply used_length|]. by destruct HX as [-> _].
  - intros m a <- Ha. rewrite find_group_elem. symmetry. by eapply rep_elem.
Qed.

(** C13: the groups of a model are a set of at most eight addresses. Whatever
    subscription requests (add, delete, overwrite, delete all) are handled for a
    model, in any order, none runs into undefined behaviour; their statuses are
    those of the specification on finite sets, and so are the addresses the model
    ends up with: it receives what is sent to an address exactly when the address
    is in the set, which never has more than eight elements. Without
    CONFIG_ALI_SIMPLE_MODLE no other model is changed. With
    CONFIG_ALI_SIMPLE_MODLE this is proved for sequences of adds and deletes, from
    a state in which the models of the element, which have distinct identifiers,
    have the shared list g_sub_list: they all end with the list of the model, and
    no model of another element is changed. There an overwrite or a deletion of
    all groups changes the model alone, and the next add or delete brings the
    shared list back ([overwrite_undone]). *)
Theorem subscriptions_refine_sets ops s m X :
  get_model (nd_acc s) r = Some m -> groups_rep (md_groups m) X ->
  (CONFIG_ALI_SIMPLE_MODLE = true -> shared_elem s (mr_elem r) /\ Forall is_add_del ops) ->
  stm_ok (sub_runs ops) (fun sts s' =>
    sts = (sub_specs ops X).1 /\
    exists m', get_model (nd_acc s') r = Some m' /\
      (size (sub_specs ops X).2 <= MODEL_GROUP_COUNT)%nat /\
      (forall a, a <> BT_MESH_ADDR_UNASSIGNED -> is_Some (bt_mesh_model_find_group m' a) <-> a ∈ (sub_specs ops X).2) /\
      forall r', r' <> r -> get_model (nd_acc s') r' =
        if CONFIG_ALI_SIMPLE_MODLE && bool_decide (mr_elem r' = mr_elem r)
        then with_groups (md_groups m') <$> get_model (nd_acc s) r' else get_model (nd_acc s) r') s.
Proof.
  intros Hm HX Hali. destruct CONFIG_ALI_SIMPLE_MODLE eqn:Eali; cbn [andb].
  - destruct Hali as [[Hd Hsh] Hops]; [done|]. assert (share_rep s s X) as Hrep.
    { split_and!; [by rewrite <- (Hsh r m)|done|by exists m|]. intros r'. case_decide as Hi; [|done].
      destruct (get_model (nd_acc s) r') as [m'|] eqn:Hm'; [|done]. cbn. f_equal. destruct m'.
      rewrite <- (Hsh r' _ Hi Hm'). done. }
    eapply ok_mono; [apply (sub_runs_sim (share_rep s) is_add_del); [|done|exact Hrep]|].
    + intros [a|a|a|] s1 X1 Hop H1; try done; [by apply share_add_sim|by apply share_del_sim].
    + cbv beta. intros sts s' [-> H']. split; [done|]. destruct (share_model _ _ _ H') as (m' & Hm' & Hg).
      destruct H' as (HX' & _ & _ & Hr). destruct (rep_result _ _ HX') as [Hs Hf]. exists m'. split_and!; [done|done|eauto|].
      intros r' _. rewrite Hr, Hg. by case_decide; case_bool_decide.
  - eapply ok_mono; [apply (sub_runs_sim (sub_rep s) (fun _ => True)); [| |split; [by exists m|done]]|].
    + intros op s1 X1 _ H1. by apply sub_run_sim.
    + by apply list.Forall_forall.
    + cbv beta. intros sts s' (-> & (m' & Hm' & HX') & Hother). split; [done|]. destruct (rep_result _ _ HX') as [Hs Hf].
      exists m'. split_and!; [done|done|eauto|done].
Qed.
End subs.

Definition sample_sub_ops : list sub_op :=
  [SubAdd 0xc000; SubAdd 0xc001; SubAdd 5; SubDel 0xc000; SubOverwrite 0xc002; SubAdd 0xc003].

(** The same build with CONFIG_ALI_SIMPLE_MODLE. *)
Definition sample_ali_env : CfgEnv :=
  {| CONFIG_RELAY := true; CONFIG_ALI_SIMPLE_MODLE := true; CONFIG_PB_ADV := true; CONFIG_PB_GATT := true; c_uptime := 1000;
     c_lpn_frnd := 0; c_lpn_established := false; c_reset_flag := false; c_flash_sub := None; mesh_sub_init l := l;
     comp_cid := 0x01a8; comp_pid := 0; comp_vid := 0; elem_loc _ := 0 |}.
Definition sample_add_del : list sub_op := [SubAdd 0xc000; SubAdd 0xc001; SubAdd 5; SubDel 0xc000].

Lemma sample_shared : shared_elem sample_cfg_node 0.
Proof.
  split.
  - intros vnd j k m m' Hj Hk Hid _. destruct vnd, j as [|[|j]], k as [|[|k]]; try done;
      cbn in Hj, Hk; injection Hj as <-; injection Hk as <-; done.
  - intros [i vnd j] m Hi Hm. cbn in Hi. subst i. destruct vnd, j as [|[|j]]; try done; cbn in Hm; by injection Hm as <-.
Qed.

(** The witness: in both builds the same answers; with the shared list the other
    models of the element are subscribed too. *)
Lemma subscriptions_refine_sets_witness :
  let r := mk_model_ref 0 false 1 in
  let other s := md_groups <$> get_model (nd_acc s) (mk_model_ref 0 true 0) in
  (exists sts s' e,
    sub_runs (cfg := proxy_friend_config) (env := sample_cfg_env) r sample_sub_ops sample_cfg_node = Some (sts, s', e) /\
    sts = [0; 0; STATUS_INVALID_ADDRESS; 0; 0; 0] /\ other s' = Some sample_groups) /\
  (exists sts s' e,
    sub_runs (cfg := proxy_friend_config) (env := sample_ali_env) r sample_add_del sample_cfg_node = Some (sts, s', e) /\
    sts = [0; 0; STATUS_INVALID_ADDRESS; 0] /\ exists m', get_model (nd_acc s') r = Some m' /\ other s' = Some (md_groups m') /\
    is_Some (bt_mesh_model_find_group m' 0xc001)).
Proof.
  cbv zeta. assert (groups_rep (md_groups sample_server) ∅) as HX by (split_and!; [done|constructor|done]).
  assert (Forall is_add_del sample_add_del) as Hops by (by repeat constructor). split.
  - destruct (ok_inv _ _ _ (subscriptions_refine_sets (cfg := proxy_friend_config) (env := sample_cfg_env)
      (mk_model_ref 0 false 1) sample_sub_ops sample_cfg_node sample_server ∅ eq_refl HX ltac:(discriminate)))
      as (sts & s' & e & Hrun & Hsts & m' & _ & _ & _ & Hother).
    exists sts, s', e. split; [exact Hrun|]. split; [rewrite Hsts; by vm_compute|]. by rewrite Hother.
  - destruct (ok_inv _ _ _ (subscriptions_refine_sets (cfg := proxy_friend_config) (env := sample_ali_env)
      (mk_model_ref 0 false 1) sample_add_del sample_cfg_node sample_server ∅ eq_refl HX
      (fun _ => conj sample_shared Hops)))
      as (sts & s' & e & Hrun & Hsts & m' & Hm' & _ & Hin & Hother).
    exists sts, s', e. split; [exact Hrun|]. split; [rewrite Hsts; by vm_compute|]. exists m'. split; [exact Hm'|].
    split; [by rewrite Hother|]. apply Hin; [done|]. apply (bool_decide_eq_true_1 _). vm_compute. reflexivity.
Defined.

(** With the shared list, an overwrite leaves the model the new group alone, and
    the next add brings the old groups back and drops the new one. *)
Theorem overwrite_undone :
  let r := mk_model_ref 0 false 1 in
  let groups ops := match sub_runs (cfg := proxy_friend_config) (env := sample_ali_env) r ops sample_cfg_node with
                    | Some (_, s, _) => md_groups <$> get_model (nd_acc s) r | None => None end in
  groups [SubAdd 0xc000; SubOverwrite 0xc001] = Some (0xc001 :: replicate 7 0) /\
  groups [SubAdd 0xc000; SubOverwrite 0xc001; SubAdd 0xc002] = Some (0xc000 :: 0xc002 :: replicate 6 0).
Proof. by vm_compute. Qed.
