(* ===== verification/Main.v ===== *)
(** * Start-up and provisioning of a node (bt_mesh/src/main.c)

    What happens from power-on to provisioning and back: initialisation, the
    switches for the bearers of provisioning, and provisioning itself
    ([bt_mesh_reset] is with the Configuration Server, whose messages call it).
    The build is that of a node: the provisioner's role, whose initialisation
    waits for the user, is left out. *)

From S2P Require Import Prelude NetBuf Cmac Ccm MeshCrypto NetState NetIv TransState TransTx Access Beacon Proxy CfgState CfgModels CfgSrv.

Definition BT_MESH_PROV_ADV : Z := 1.
Definition BT_MESH_PROV_GATT : Z := 2.

(** The self-test and the initialisation of provisioning. *)
Class MainEnv := {
  bt_mesh_test : Z;
  bt_mesh_prov_init : Z
}.

Section main.
Context {cfg : MeshConfig} {env : CfgEnv} {aenv : AccEnv} {menv : MainEnv}.

Definition bt_mesh_setup (seq addr : Z) : G unit :=
  mod_net (fun m => m <| seq_num := seq |>) ;;
  acc (bt_mesh_comp_provision addr) ;;
  stm_modify (fun s => s <| nd_provisioned := true |>) ;;
  s <- stm_get ;;
  stm_emit [if bt_mesh_beacon_get s =? BT_MESH_BEACON_ENABLED then CBeaconEnable else CBeaconDisable] ;;
  (if CONFIG_GATT_PROXY && negb (bt_mesh_gatt_proxy_get s =? BT_MESH_GATT_PROXY_NOT_SUPPORTED)
   then stm_emit [CGattEnable; CAdvUpdate] else mret tt) ;;
  stm_emit [if CONFIG_LOW_POWER then CLpnInit else CScanEnable] ;;
  if CONFIG_FRIEND then stm_emit [CFriendInit] else mret tt.

Definition bt_mesh_provision (net_key : bytes) (net_idx flags iv seq addr : Z) (dev_key_ : bytes) : G Z :=
  (if CONFIG_PB_GATT then stm_emit [CProxyProvDisable] else mret tt) ;;
  s <- stm_get ;;
  let '(err, net) := bt_mesh_net_create c_uptime (nd_net s) net_idx flags net_key iv in
  mod_net (fun _ => net) ;;
  if negb (err =? 0) then (if CONFIG_PB_GATT then stm_emit [CProxyProvEnable] else mret tt) ;; mret err
  else
    mod_net (fun m => m <| dev_key := dev_key_ |>) ;;
    bt_mesh_setup seq addr ;;
    stm_emit [CProvComplete net_idx addr] ;;
    mret 0.

Definition bt_mesh_is_provisioned (s : node) : bool := nd_provisioned s.

Definition bt_mesh_prov_enable (bearers : Z) : G Z :=
  s <- stm_get ;;
  if bt_mesh_is_provisioned s then mret (- EALREADY)
  else
    (if CONFIG_PB_ADV && negb (Z.land bearers BT_MESH_PROV_ADV =? 0) then stm_emit [CScanEnable; CBeaconEnable] else mret tt) ;;
    (if CONFIG_PB_GATT && negb (Z.land bearers BT_MESH_PROV_GATT =? 0) then stm_emit [CProxyProvEnable; CAdvUpdate]
     else mret tt) ;;
    mret 0.
Definition bt_mesh_prov_disable (bearers : Z) : G Z :=
  s <- stm_get ;;
  if bt_mesh_is_provisioned s then mret (- EALREADY)
  else
    (if CONFIG_PB_ADV && negb (Z.land bearers BT_MESH_PROV_ADV =? 0) then stm_emit [CBeaconDisable; CScanDisable] else mret tt) ;;
    (if CONFIG_PB_GATT && negb (Z.land bearers BT_MESH_PROV_GATT =? 0) then stm_emit [CProxyProvDisable; CAdvUpdate]
     else mret tt) ;;
    mret 0.

Definition bt_mesh_init (comp : list elem) : G Z :=
  stm_emit [CTest] ;;
  if negb (bt_mesh_test =? 0) then mret bt_mesh_test
  else
    err <- acc_inits (bt_mesh_comp_register comp) ;;
    if negb (err =? 0) then mret err
    else
      stm_emit [CProvInit] ;;
      if negb (bt_mesh_prov_init =? 0) then mret bt_mesh_prov_init
      else
        stm_emit [CNetInit; CTransInit; CBeaconInit; CAdvInit] ;;
        (if CONFIG_GATT_PROXY then stm_emit [CProxyInit] else mret tt) ;;
        mret 0.
End main.

(** The node when it is switched on. *)
Definition power_on {cfg : MeshConfig} (friend_cred_count : nat) : node :=
  mk_node (bt_mesh_init_state friend_cred_count) (mk_access [] 0) cfg_srv_init_state false
    (replicate LABEL_COUNT zero_label) (replicate MODEL_GROUP_COUNT 0) false.
