(* ===== verification/Life.v ===== *)
(** * The life of a node: power-on, provisioning, configuration, reset, again

    [bt_mesh_init] sets up a node whose composition is well-formed; a node that
    is not provisioned can be provisioned; while it is provisioned whatever
    reaches the Configuration Server keeps the invariant of CfgWf.v; and a reset
    leaves a node that can be provisioned again. *)

From S2P Require Import Prelude NetBuf Cmac Ccm MeshCrypto NetState NetIv TransState TransTx Access Beacon Proxy CfgState CfgModels CfgSrv CfgKeep CfgWf CfgOk CfgSafe CfgServer Main.

(** ** Addresses *)

Definition readdress (addr : Z) (sh : composition) : composition :=
  imap (fun i e => (u16 (addr + Z.of_nat i), e.1.2, e.2)) sh.

Lemma readdress_lookup addr sh i e : sh !! i = Some e ->
  readdress addr sh !! i = Some (u16 (addr + Z.of_nat i), e.1.2, e.2).
Proof. intros He. unfold readdress. by rewrite list_lookup_imap, He. Qed.
Lemma has_ref_readdress addr sh r : has_ref (readdress addr sh) r <-> has_ref sh r.
Proof.
  unfold has_ref, readdress. rewrite list_lookup_imap. destruct (sh !! mr_elem r) as [e|]; cbn.
  - split; intros (e' & [= <-] & Hl); eexists; (split; [done|]); by destruct (mr_vnd r).
  - by split; intros (e' & ? & _).
Qed.
Lemma comp_fits_readdress addr sh : comp_fits sh -> comp_fits (readdress addr sh).
Proof.
  unfold comp_fits, readdress. intros Hf. replace (map elem_len _) with (map elem_len sh); [done|].
  apply list_eq. intros i. rewrite !list_lookup_fmap, list_lookup_imap. by destruct (sh !! i).
Qed.
Lemma op_ok_readdress addr sh op : op_ok sh op -> op_ok (readdress addr sh) op.
Proof. destruct op; try done. intros (Hr & ?). split; [by apply has_ref_readdress|done]. Qed.

(** The access layer's part of provisioning. *)
Definition provision_acc (addr : Z) (a : access) : access :=
  a <| ac_primary := addr |> <| ac_elems := imap (fun i e => e <| el_addr := u16 (addr + Z.of_nat i) |>) (ac_elems a) |>.
Lemma provision_shape addr a : shape (provision_acc addr a) = readdress addr (shape a).
Proof.
  unfold shape, readdress, provision_acc. destruct a as [es p]. cbn. apply list_eq. intros i.
  rewrite list_lookup_fmap, !list_lookup_imap, list_lookup_fmap. by destruct (es !! i).
Qed.
Lemma provision_model addr a r : get_model (provision_acc addr a) r = get_model a r.
Proof.
  unfold get_model, provision_acc. destruct a as [es p]. cbn. rewrite list_lookup_imap.
  destruct (es !! mr_elem r) as [e|]; [|done]. cbn. by destruct (mr_vnd r).
Qed.

Section life.
Context {cfg : MeshConfig} {env : CfgEnv} {laws : CfgLaws} {aenv : AccEnv} {menv : MainEnv}.

(** ** Provisioning *)

(** The subnet that provisioning creates, in a network without any. *)
Lemma net_create_blank uptime m idx flags key iv :
  blank m -> length (subs m) = SUBNET_COUNT -> is_block key ->
  exists m', bt_mesh_net_create uptime m idx flags key iv = (0, m') /\ valid m' = true /\
    key_view m' = key_view m /\ sub_view m' = <[0%nat := idx]> (sub_view m).
Proof.
  intros (Hv & _ & _) Hl Hkey. unfold bt_mesh_net_create. rewrite Hv. cbv zeta.
  set (m1 := m <| msg_cache := _ |>). change (subs m1) with (subs m). change (sub_view m) with (map sub_net_idx (subs m)).
  destruct (subs m) as [|sub rest]; [done|]. set (sub1 := sub <| sub_kr_flag := _ |>).
  destruct (keys_create_ok (sub_key1 sub1) key Hkey) as (k1 & -> & _).
  destruct (keys_create_ok (sub_key0 sub1) key Hkey) as (k0 & -> & _).
  assert (forall m2 sub2, sub_net_idx (bt_mesh_net_beacon_update m2 sub2) :: map sub_net_idx rest =
    sub_net_idx sub2 :: map sub_net_idx rest) as Hview by (intros; by rewrite beacon_update_idx).
  destruct (sub_kr_flag sub1); cbn [mbind res_mbind res_bind]; (eexists; split; [reflexivity|]);
    (split_and!; [done|done|]); (etrans; [apply Hview|]); by destruct CONFIG_GATT_PROXY.
Qed.

Lemma wf_provisioned sh b s : node_wf sh s -> node_wf sh (s <| nd_provisioned := b |>).
Proof. intros []. by split. Qed.
Lemma wf_provision sh addr s : node_wf sh s -> node_wf (readdress addr sh) (s <| nd_acc := provision_acc addr (nd_acc s) |>).
Proof.
  intros [Hks Hms Hshape Hfits Hlist Hconf (r & Hr & Href)]. split; try done.
  - intros r' m. change (nd_acc (s <| nd_acc := ?a |>)) with a. rewrite provision_model. apply Hms.
  - change (nd_acc (s <| nd_acc := ?a |>)) with a. by rewrite provision_shape, Hshape.
  - by apply comp_fits_readdress.
  - exists r. split; [done|by apply has_ref_readdress].
Qed.

Lemma setup_ok sh seq addr s : node_wf sh s ->
  stm_ok (bt_mesh_setup seq addr) (fun _ s' => node_wf (readdress addr sh) s' /\ nd_provisioned s' = true) s.
Proof.
  intros Hw. unfold bt_mesh_setup. apply ok_bind, ok_modify, ok_bind. unfold stm_ok, stm_wp, acc. cbn [bt_mesh_comp_provision stm_modify].
  fold (stm_wp (St := node) (Ev := cfg_event) (A := unit)). apply wp_bind, wp_modify, wp_bind, wp_get, wp_bind, wp_emit, wp_bind.
  set (s1 := _ <| nd_provisioned := true |>).
  assert (node_wf (readdress addr sh) s1 /\ nd_provisioned s1 = true) as H1.
  { split; [|done]. apply wf_provisioned. apply (wf_provision sh addr (s <| nd_net := (nd_net s) <| seq_num := seq |> |>)).
    by apply wf_net; [|destruct (nd_net s)..]. }
  case_if; [apply wp_emit|apply wp_ret]; apply wp_bind, wp_emit; (case_if; [by apply wp_emit|by apply wp_ret]).
Qed.

Lemma provision_ok sh key idx flags iv seq addr dk s :
  node_wf sh s -> blank (nd_net s) -> is_block key -> 0 <= idx <= 0xfff ->
  stm_ok (bt_mesh_provision key idx flags iv seq addr dk)
    (fun err s' => err = 0 /\ node_wf (readdress addr sh) s' /\ nd_provisioned s' = true) s.
Proof.
  intros Hw Hb Hkey Hidx. pose proof (nw_keys _ _ Hw) as Hks.
  destruct (net_create_blank c_uptime (nd_net s) idx flags key iv Hb) as (m & Hm & _ & Hkv & Hsv); [|done|].
  { pose proof (kw_slen _ _ Hks) as Hl. unfold sub_view in Hl. by rewrite length_map in Hl. }
  assert (forall n, n ∈ sub_view (nd_net s) -> n = BT_MESH_KEY_UNUSED) as Hunused by (by apply list.Forall_forall, Hb).
  assert (node_wf sh (s <| nd_net := m |>)) as Hw1.
  { destruct Hw as [_ Hms Hshape Hfits Hlist Hconf Hmodel]. split; try done; cbn [nd_net nd_acc update_field].
    - change (keys_wf (key_view m) (sub_view m)). rewrite Hkv, Hsv. apply keys_wf_add; [done| | |done].
      + pose proof (kw_slen _ _ Hks) as Hl. destruct (sub_view (nd_net s)) as [|n ns] eqn:Hns; [done|]. cbn. f_equal.
        apply Hunused. by left.
      + intros Hin. apply Hunused in Hin. unfold BT_MESH_KEY_UNUSED in Hin. lia.
    - change (models_wf (key_view m) (nd_acc s)). by rewrite Hkv. }
  unfold bt_mesh_provision. apply ok_bind.
  apply ok_mono with (P := fun _ s' => s' = s); [case_if; [by apply ok_emit|by apply ok_ret]|]. intros _ ? ->.
  apply ok_bind, ok_get. rewrite Hm. apply ok_bind, ok_modify. cbn [negb Z.eqb]. apply ok_bind, ok_modify.
  eapply ok_call; [apply setup_ok; apply (wf_net sh (m <| dev_key := dk |>) (s <| nd_net := m |>));
    [done|by destruct m..]|].
  cbv beta. intros _ s2 H2. by apply ok_bind, ok_emit, ok_ret.
Qed.

(** ** While the node is provisioned *)

(** What the other components let through to the server. *)
Definition live_op (op : cfg_op) : G unit :=
  s <- stm_get ;; if bt_mesh_is_provisioned s then run_op op else mret tt.
Fixpoint live_ops (ops : list cfg_op) : G unit :=
  match ops with [] => mret tt | op :: ops => live_op op ;; live_ops ops end.

(** A node that is not provisioned has no key, no subnet and no network. *)
Definition alive (sh : composition) (s : node) : Prop :=
  node_wf sh s /\ (nd_provisioned s = false -> blank (nd_net s)).

Definition resets (op : cfg_op) : bool :=
  match op with OpReset => true | OpMessage _ opcode _ _ => opcode =? OP_NODE_RESET | _ => false end.
Lemma life_run_op op : resets op = false -> stm_keeps same_life (run_op op).
Proof.
  intros Hop. destruct op as [r opcode ctx buf|src dst hops feat| | |net_idx app_idx val update|pa|]; cbn [run_op]; try done.
  - unfold cfg_srv_recv. destruct (List.find _ _) as [[[opc min_len] func]|] eqn:Hf; [|by apply keeps_ret, _].
    destruct (decide _); [by apply keeps_ret, _|]. pose proof (find_some _ _ Hf) as [Hin Hopc%Z.eqb_eq].
    pose proof life_table as Ht. eapply List.Forall_forall in Ht; [|exact Hin]. cbn [fst snd] in *.
    destruct Ht as [Ht|Ht]; [|apply Ht]. apply Z.eqb_neq in Hop. congruence.
  - life.
  - life.
  - life.
  - unfold genie_appkey_register. life; apply life_setup.
  - life.
Qed.

Lemma reset_message_alive sh r opcode ctx buf s : alive sh s -> nd_provisioned s = true ->
  op_ok sh (OpMessage r opcode ctx buf) -> opcode = OP_NODE_RESET -> good sh (cfg_srv_recv r opcode ctx buf) (fun _ => alive sh) s.
Proof.
  intros [Hw _] Hp (Hr & _) ->. change (cfg_srv_recv r OP_NODE_RESET ctx buf) with
    (if decide (length buf < 0)%nat then mret tt else node_reset r ctx buf). rewrite decide_False by lia.
  unfold node_reset. eapply good_bind with (P := fun _ s' => s' = s); [by apply good_reply; [|fits|]|]. intros _ ? _ ->.
  case_if; [by apply good_ret; [|split; [|congruence]]|].
  eapply good_bind; [by apply bt_mesh_reset_blank|]. cbv beta. intros _ s1 Hw1 [Hp1 Hb1].
  apply good_emit; [done|by repeat constructor|]. split; [done|]. intros _. apply Hb1. congruence.
Qed.

Lemma live_op_ok sh op s : alive sh s -> op_ok sh op -> good sh (live_op op) (fun _ => alive sh) s.
Proof.
  intros Halive Hop. pose proof Halive as [Hw Hb]. unfold live_op, bt_mesh_is_provisioned. good_step.
  destruct (nd_provisioned s) eqn:Hp; [|by apply good_ret]. destruct (resets op) eqn:Hr.
  - destruct op as [r opcode ctx buf| | | | | |]; try done.
    + apply reset_message_alive; [by split; [|rewrite Hp]|done|done|by apply Z.eqb_eq].
    + eapply good_mono; [by apply bt_mesh_reset_blank|]. cbv beta. intros _ s1 Hw1 [Hp1 Hb1]. split; [done|]. intros _. apply Hb1. congruence.
  - eapply good_mono; [apply good_keeps; [by apply (cfg_op_run_ok sh)|by apply life_run_op]|]. cbv beta.
    intros _ s1 Hw1 [_ [Hp1 _]]. split; [done|]. congruence.
Qed.
Lemma live_ops_ok sh ops s : alive sh s -> Forall (op_ok sh) ops -> good sh (live_ops ops) (fun _ => alive sh) s.
Proof.
  revert s. induction ops as [|op ops IH]; intros s Hs Hops; cbn [live_ops]; [by apply good_ret; [destruct Hs|]|].
  apply Forall_cons_iff in Hops as [Hop Hops]. eapply good_bind; [by apply live_op_ok|]. cbv beta. intros _ s1 _ H1. by apply IH.
Qed.

(** ** Lives *)

Record node_life := mk_life {
  li_key : bytes; li_idx : Z; li_flags : Z; li_iv : Z; li_seq : Z; li_addr : Z; li_dev_key : bytes;
  li_ops : list cfg_op
}.
Definition life_ok (sh : composition) (l : node_life) : Prop :=
  is_block (li_key l) /\ 0 <= li_idx l <= 0xfff /\ Forall (op_ok sh) (li_ops l).

(** The node is provisioned, configured and in the end reset: the result of
    provisioning. *)
Definition live (l : node_life) : G Z :=
  err <- bt_mesh_provision (li_key l) (li_idx l) (li_flags l) (li_iv l) (li_seq l) (li_addr l) (li_dev_key l) ;;
  live_ops (li_ops l) ;; bt_mesh_reset ;; mret err.
Fixpoint lives (ls : list node_life) : G (list Z) :=
  match ls with [] => mret [] | l :: ls => err <- live l ;; errs <- lives ls ;; mret (err :: errs) end.

Lemma good_to_ok {T} sh (m : G T) Q s : good sh m Q s -> stm_ok m (fun a s' => node_wf sh s' /\ Q a s') s.
Proof. intros H. eapply wp_mono; [exact H|]. cbv beta. tauto. Qed.

Definition unprovisioned (s : node) : Prop := nd_provisioned s = false /\ blank (nd_net s).

Lemma live_ok sh l s : node_wf sh s -> unprovisioned s -> life_ok sh l ->
  stm_ok (live l) (fun err s' => err = 0 /\ node_wf (readdress (li_addr l) sh) s' /\ unprovisioned s') s.
Proof.
  intros Hw [Hp Hb] (Hkey & Hidx & Hops). unfold live. eapply ok_call; [by apply provision_ok|]. cbv beta.
  intros err s1 (-> & Hw1 & Hp1). set (sh' := readdress (li_addr l) sh) in *.
  eapply ok_call; [apply good_to_ok, (live_ops_ok sh')|].
  - split; [done|]. congruence.
  - eapply list.Forall_impl; [exact Hops|]. intros op. apply op_ok_readdress.
  - cbv beta. intros _ s2 (Hw2 & _ & Hb2). eapply ok_call; [by apply good_to_ok, bt_mesh_reset_blank|]. cbv beta.
    intros _ s3 (Hw3 & Hp3 & Hb3). apply ok_ret. split_and!; [done|done|]. split; auto.
Qed.

Lemma lives_ok sh ls s : node_wf sh s -> unprovisioned s -> Forall (life_ok sh) ls ->
  stm_ok (lives ls) (fun errs s' => Forall (eq 0) errs /\ unprovisioned s') s.
Proof.
  revert sh s. induction ls as [|l ls IH]; intros sh s Hw Hu Hls; cbn [lives]; [by apply ok_ret|].
  apply Forall_cons_iff in Hls as [Hl Hls]. eapply ok_call; [by apply (live_ok sh)|]. cbv beta.
  intros err s1 (-> & Hw1 & Hu1). eapply ok_call; [apply (IH (readdress (li_addr l) sh)); [done|done|]|].
  - eapply list.Forall_impl; [exact Hls|]. intros l' (Hk & Hi & Ho). split; [done|split; [done|]].
    eapply list.Forall_impl; [exact Ho|]. intros op. apply op_ok_readdress.
  - cbv beta. intros errs s2 [He Hu2]. apply ok_ret. split; [by constructor|done].
Qed.

(** ** Power-on *)

(** A composition as the macros of access.h write it. *)
Record comp_ok (comp : list elem) : Prop := {
  co_models e vnd m : e ∈ comp -> m ∈ models_of e vnd ->
    md_keys m = replicate MODEL_KEY_COUNT BT_MESH_KEY_UNUSED /\ length (md_groups m) = MODEL_GROUP_COUNT;
  co_fits : comp_fits (map elem_shape comp);
  co_server : exists e m, comp !! 0%nat = Some e /\ m ∈ el_models e /\ md_id m = BT_MESH_MODEL_ID_CFG_SRV;
  co_init : has_init BT_MESH_MODEL_ID_CFG_SRV = true
}.

Definition mark (r : model_ref) (s : node) : node :=
  s <| nd_conf := true |> <| nd_srv := (nd_srv s) <| cs_model := Some r |> |>.
Lemma cfg_srv_init_mark r0 r s : bt_mesh_cfg_srv_init r (mark r0 s) = bt_mesh_cfg_srv_init r s \/ conf_is_valid (nd_srv s) = false.
Proof.
  destruct (conf_is_valid (nd_srv s)) eqn:Hv; [left|by right]. destruct s as [net ac srv conf labels l prov].
  destruct srv as [mo nt re rr be gp fr dt p h]. unfold bt_mesh_cfg_srv_init, mark.
  rewrite !(stm_bind_pure _ _ _ _ _ eq_refl). cbn in Hv |- *. unfold conf_is_valid in *. cbn in Hv |- *. rewrite Hv. cbn [negb].
  by destruct CONFIG_RELAY, CONFIG_FRIEND, CONFIG_GATT_PROXY.
Qed.

Definition is_cfg_init (ev : acc_event) : Prop :=
  match ev with AModelInit id _ _ => id = BT_MESH_MODEL_ID_CFG_SRV | _ => False end.
Lemma run_inits_mark r0 e s : conf_is_valid (nd_srv s) = true -> Exists is_cfg_init e ->
  run_inits e (mark r0 s) = run_inits e s.
Proof.
  intros Hv. induction e as [|ev e IH]; [by intros ?%List.Exists_nil|].
  intros [Hev|He]%List.Exists_cons; destruct ev as [id r p| | | | |]; cbn [run_inits]; try done; try by apply IH.
  - cbn in Hev. subst id. rewrite Z.eqb_refl. unfold stm_bind.
    by destruct (cfg_srv_init_mark r0 r s) as [->|]; [|congruence].
  - destruct (Z.eqb_spec id BT_MESH_MODEL_ID_CFG_SRV) as [->|Hne].
    + unfold stm_bind. by destruct (cfg_srv_init_mark r0 r s) as [->|]; [|congruence].
    + rewrite !(stm_bind_pure _ _ _ _ _ eq_refl). by apply IH.
Qed.

(** Registration calls the server's initialisation. *)
Definition same_ids (a a' : access) : Prop := forall r, md_id <$> get_model a' r = md_id <$> get_model a r.
Lemma same_ids_alter f r a : (forall m, md_id (f m) = md_id m) -> same_ids a (alter_model f r a).
Proof.
  intros Hf r'. rewrite get_model_alter. destruct (decide (r = r')) as [<-|]; [|done].
  destruct (get_model a r); cbn; [by rewrite Hf|done].
Qed.
Lemma mod_init_event r p a : is_Some (get_model a r) ->
  stm_wp (mod_init r p) (fun _ a' e => same_ids a a' /\
    (mr_vnd r = false -> md_id <$> get_model a r = Some BT_MESH_MODEL_ID_CFG_SRV -> has_init BT_MESH_MODEL_ID_CFG_SRV = true ->
     Exists is_cfg_init e)) a.
Proof.
  intros [m0 Hm0]. unfold mod_init, mod_pub. wp_steps. set (a1 := alter_model _ r a). set (a2 := alter_model _ r a1).
  assert (same_ids a a2) as Hids.
  { intros r'. etrans; [by apply same_ids_alter|by apply same_ids_alter]. }
  destruct (mr_vnd r); [by wp_steps|]. wp_steps. pose proof (Hids r) as Hr. rewrite Hm0 in Hr. cbn in Hr.
  destruct (get_model a2 r) as [m|] eqn:Hm; [|done]. injection Hr as Hr. eapply wp_of_option; [done|].
  destruct (has_init (md_id m)) eqn:Hi; wp_steps; (split; [done|]); intros _ Hid Hinit; rewrite Hm0 in Hid; injection Hid as Hid.
  - cbn. apply List.Exists_cons. left. congruence.
  - congruence.
Qed.
Lemma foreach_init_event rs a r : Forall (fun r => is_Some (get_model a r)) rs -> r ∈ rs -> mr_vnd r = false ->
  md_id <$> get_model a r = Some BT_MESH_MODEL_ID_CFG_SRV -> has_init BT_MESH_MODEL_ID_CFG_SRV = true ->
  stm_wp (foldr (fun r k => mod_init r (mr_elem r =? 0)%nat ;; k) (mret tt) rs) (fun _ _ e => Exists is_cfg_init e) a.
Proof.
  intros Hrs Hin Hv Hid Hi. revert a Hrs Hid. induction rs as [|r0 rs IH]; intros a Hrs Hid; [by apply elem_of_nil in Hin|].
  cbn [foldr]. apply Forall_cons_iff in Hrs as [Hr0 Hrs]. eapply wp_call; [by apply mod_init_event|]. cbv beta.
  intros _ a1 e1 [Hids He1]. rewrite <- (Hids r) in Hid.
  assert (Forall (fun r => is_Some (get_model a1 r)) rs) as Hrs1.
  { eapply list.Forall_impl; [exact Hrs|]. cbv beta. intros r' Hr'. apply (fmap_is_Some md_id). rewrite Hids.
    by apply fmap_is_Some. }
  destruct (decide (r = r0)) as [->|Hne].
  - assert (Exists is_cfg_init e1) as H1 by (apply He1; [done|by rewrite <- Hids|done]).
    destruct (wp_inv _ _ _ (foreach_init_wp rs a1 ltac:(eapply list.Forall_impl; [exact Hrs1|]; intros r'; apply has_ref_model)))
      as (u & a2 & e2 & Hrun & _). unfold stm_wp. rewrite Hrun. apply List.Exists_app. by left.
  - apply elem_of_cons in Hin as [|Hin]; [done|]. eapply wp_mono; [by apply IH|]. cbv beta. intros _ a2 e2 He2.
    apply List.Exists_app. by right.
Qed.

Definition same_net (s s' : node) : Prop := nd_net s' = nd_net s /\ nd_provisioned s' = nd_provisioned s.
#[local] Instance same_net_pre : PreOrder same_net.
Proof. split; [by intros s|]. unfold same_net. intros s1 s2 s3 [] []. split; congruence. Qed.
Lemma run_inits_same_net e : stm_keeps same_net (run_inits e).
Proof.
  induction e as [|ev e IH]; [by apply keeps_ret, _|]. destruct ev; try done. cbn [run_inits].
  apply keeps_bind; [apply _| |by intros _]. case_if; [|by apply keeps_ret, _].
  unfold bt_mesh_cfg_srv_init, set_key, mod_model, mod_srv, mod_hb_pub, mod_hb_sub, mod_srv. keeps_steps; by apply keeps_modify.
Qed.

Lemma power_on_wf n comp r : comp_ok comp -> has_ref (map elem_shape comp) r ->
  node_wf (map elem_shape comp) (mark r ((power_on n) <| nd_acc := mk_access comp 0 |>)).
Proof.
  intros [Hm Hf _ _] Hr. split; try done.
  - split; [done|done|..]; change (sub_view _) with [BT_MESH_KEY_UNUSED; BT_MESH_KEY_UNUSED];
      change (key_view _) with [(BT_MESH_KEY_UNUSED, 0)].
    + by intros m idx [= -> ->]%list_elem_of_singleton Hu.
    + intros [|i] j m idx m' Hi; [|done]. by injection Hi as <- <-.
    + by intros m [-> |[-> | []%elem_of_nil]%elem_of_cons]%elem_of_cons.
    + intros [|[|i]] j m Hi; [| |done]; by injection Hi as <-.
  - intros r' m Hm'. unfold get_model in Hm'. cbn in Hm'. destruct (comp !! mr_elem r') as [e|] eqn:He; [|done]. cbn in Hm'.
    destruct (Hm e (mr_vnd r') m) as [Hk Hg]; [by eapply list_elem_of_lookup_2..|].
    assert (forall i k, md_keys m !! i = Some k -> k = BT_MESH_KEY_UNUSED) as Hu.
    { intros i k. rewrite Hk. by intros [-> _]%lookup_replicate_1. }
    split; [by rewrite Hk|done|..].
    + intros k (i & Hi)%list_elem_of_lookup. left. by eapply Hu.
    + intros i j k Hi _ Hne. by destruct Hne; eapply Hu.
    + intros i Hi. by apply Hu in Hi.
  - by exists r.
Qed.

Lemma boot_ok n comp : comp_ok comp -> bt_mesh_test = 0 -> bt_mesh_prov_init = 0 ->
  stm_ok (bt_mesh_init comp) (fun err s' => err = 0 /\ node_wf (map elem_shape comp) s' /\ unprovisioned s') (power_on n).
Proof.
  intros Hc Ht Hp. pose proof (co_server _ Hc) as (e0 & m0 & He0 & (j & Hj)%list_elem_of_lookup & Hid).
  set (r := mk_model_ref 0 false j). set (a0 := mk_access comp 0). set (s0 := (power_on n) <| nd_acc := a0 |>).
  assert (get_model a0 r = Some m0) as Hr by (unfold get_model; cbn; by rewrite He0).
  assert (has_ref (map elem_shape comp) r) as Href by (apply (has_ref_model a0); by rewrite Hr).
  assert (Forall (has_ref (shape a0)) (model_refs a0)) as Hrefs by (apply list.Forall_forall; intros r'; apply model_refs_all).
  destruct (wp_inv _ _ _ (foreach_init_wp (model_refs a0) a0 Hrefs)) as ([] & a1 & e1 & Hrun & Hrel & He1).
  assert (Exists is_cfg_init e1) as Hinit.
  { assert (stm_wp (foldr (fun r k => mod_init r (mr_elem r =? 0)%nat ;; k) (mret tt) (model_refs a0))
      (fun _ _ e => Exists is_cfg_init e) a0) as Hev.
    { apply (foreach_init_event _ _ r); [|by apply model_refs_all|done|by rewrite Hr; cbn; rewrite Hid|by apply (co_init comp)].
      eapply list.Forall_impl; [exact Hrefs|]. intros r'. apply has_ref_model. }
    unfold stm_wp in Hev. by rewrite Hrun in Hev. }
  unfold bt_mesh_init. apply ok_bind, ok_emit. rewrite Ht. cbn [negb Z.eqb]. apply ok_bind.
  assert (stm_ok (acc_inits (bt_mesh_comp_register comp))
    (fun err s' => err = 0 /\ node_wf (map elem_shape comp) s' /\ unprovisioned s') (power_on n)) as Hreg.
  { unfold stm_ok, stm_wp, acc_inits. change (nd_acc (power_on n)) with (mk_access [] 0).
    assert (bt_mesh_comp_register comp (mk_access [] 0) = Some (0, a1, e1)) as ->.
    { unfold bt_mesh_comp_register. rewrite decide_False by by destruct comp.
      rewrite (stm_bind_pure _ _ _ tt a0) by done. unfold bt_mesh_model_foreach.
      rewrite stm_bind_assoc, (stm_bind_pure _ _ a0 a0 a0) by done. unfold stm_bind at 1. rewrite Hrun. cbn. by rewrite app_nil_r. }
    change ((power_on n) <| nd_acc := a1 |>) with (s0 <| nd_acc := a1 |>). set (s1 := s0 <| nd_acc := a1 |>).
    fold (stm_wp (St := node) (Ev := cfg_event) (A := Z)). apply wp_bind, wp_emit, wp_bind.
    assert (node_wf (map elem_shape comp) (mark r s1)) as Hw1.
    { apply (wf_init _ a1 (mark r s0)); [by apply power_on_wf|done]. }
    pose proof (run_inits_ok (map elem_shape comp) e1 (mark r s1) Hw1 He1) as Hg. unfold good, stm_wp in Hg.
    rewrite run_inits_mark in Hg by done. unfold stm_wp at 1. destruct (run_inits e1 s1) as [[[[] s2] e2]|] eqn:Hrun2; [|done].
    destruct Hg as (Hw2 & _). apply wp_ret. split_and!; [done|done|].
    destruct (run_inits_same_net e1 _ _ _ _ Hrun2) as [Hn Hprov]. split; [by rewrite Hprov|]. rewrite Hn.
    split_and!; [done|by repeat constructor..]. }
  eapply ok_mono; [exact Hreg|]. cbv beta. intros err s1 (-> & Hw1 & Hu1). cbn [negb Z.eqb]. apply ok_bind, ok_emit.
  rewrite Hp. cbn [negb Z.eqb]. apply ok_bind, ok_emit, ok_bind. case_if; [apply ok_emit|apply ok_ret]; by apply ok_ret.
Qed.

(** The node from power-on: initialisation, then lives. *)
Definition run_node (comp : list elem) (ls : list node_life) : G (Z * list Z) :=
  err <- bt_mesh_init comp ;; errs <- lives ls ;; mret (err, errs).

(** C14: a node can be provisioned, configured and reset again and again. From
    power-on with a composition as the macros of the API write it, whose data fits
    one message, and with a self test and [bt_mesh_prov_init] that succeed,
    initialisation succeeds; then, any number of times, a provisioner provisions
    the node (with a 16-byte key and a 12-bit index), and whatever messages,
    heartbeats, timer expiries and calls of the application (16-byte keys, 12-bit
    indexes) reach the Configuration Server while it is provisioned, in any order
    and resets among them; and in the end the node is reset. One message is
    excluded: a Model Publication Virtual Address Set of exactly 24 bytes, of
    which the code reads one byte too many ([va_set_reads_past]). Nothing runs into
    undefined behaviour, every provisioning succeeds, and the last reset leaves no
    subnet, no application key and no valid network. *)
Theorem node_lives n comp ls : comp_ok comp -> bt_mesh_test = 0 -> bt_mesh_prov_init = 0 ->
  Forall (life_ok (map elem_shape comp)) ls ->
  stm_ok (run_node comp ls) (fun res s' => res.1 = 0 /\ Forall (eq 0) res.2 /\
    nd_provisioned s' = false /\ valid (nd_net s') = false /\
    Forall (fun k => app_net_idx k = BT_MESH_KEY_UNUSED) (app_keys (nd_net s')) /\
    Forall (fun s => sub_net_idx s = BT_MESH_KEY_UNUSED) (subs (nd_net s'))) (power_on n).
Proof.
  intros Hc Ht Hp Hls. unfold run_node. eapply ok_call; [by apply boot_ok|]. cbv beta. intros err s1 (-> & Hw1 & Hu1).
  eapply ok_call; [by apply (lives_ok (map elem_shape comp))|]. cbv beta. intros errs s2 (He & Hp2 & Hv & Hk & Hs).
  apply ok_ret. split_and!; [done..| |].
  - unfold key_view in Hk. by apply Forall_map in Hk.
  - unfold sub_view in Hs. by apply Forall_map in Hs.
Qed.
End life.

(** ** A node that is provisioned twice *)

Definition sample_main_env : MainEnv := {| bt_mesh_test := 0; bt_mesh_prov_init := 0 |}.
Definition sample_comp : list elem :=
  let fresh m := m <| md_keys := replicate MODEL_KEY_COUNT BT_MESH_KEY_UNUSED |> in
  [mk_elem 0 [fresh sample_cfg_srv; sample_server] [sample_vendor]].

Lemma sample_comp_ok : @comp_ok sample_cfg_acc_env sample_comp.
Proof.
  split; [| | |done].
  - intros e vnd m ->%list_elem_of_singleton Hm.
    assert (m ∈ [sample_cfg_srv <| md_keys := replicate MODEL_KEY_COUNT BT_MESH_KEY_UNUSED |>; sample_server; sample_vendor]) as Hin.
    { destruct vnd; cbn in Hm; set_solver. }
    rewrite !elem_of_cons in Hin. destruct Hin as [->|[->|[->|[]%elem_of_nil]]]; by split.
  - unfold comp_fits. cbn. unfold BT_MESH_TX_SDU_MAX. lia.
  - do 2 eexists. split; [done|]. split; [by left|done].
Qed.

Definition sample_life (addr : Z) : node_life :=
  mk_life (replicate 16 1) 0 0 5 100 addr (replicate 16 2) sample_cfg_ops.

Lemma sample_life_ok addr : life_ok (map elem_shape sample_comp) (sample_life addr).
Proof.
  split; [by apply (bool_decide_unpack (is_block _))|split; [cbn; lia|]].
  assert (map elem_shape sample_comp = readdress 0 sample_shape) as -> by done.
  eapply list.Forall_impl; [exact sample_cfg_ops_ok|]. intros op. apply op_ok_readdress.
Qed.

Lemma sample_lives_ok : Forall (life_ok (map elem_shape sample_comp)) [sample_life 2; sample_life 0x50].
Proof. repeat apply List.Forall_cons; try apply List.Forall_nil; apply sample_life_ok. Qed.

Lemma node_lives_witness : exists errs s e,
  run_node (cfg := proxy_friend_config) (env := sample_cfg_env) (aenv := sample_cfg_acc_env) (menv := sample_main_env)
    sample_comp [sample_life 2; sample_life 0x50] (power_on (cfg := proxy_friend_config) 1) = Some ((0, errs), s, e) /\
  Forall (eq 0) errs.
Proof.
  destruct (ok_inv _ _ _ (node_lives (cfg := proxy_friend_config) (env := sample_cfg_env) (laws := sample_laws)
    (aenv := sample_cfg_acc_env) (menv := sample_main_env) 1 sample_comp [sample_life 2; sample_life 0x50] sample_comp_ok eq_refl eq_refl
    sample_lives_ok))
    as ([err errs] & s & e & Hrun & Herr & Herrs & _).
  exists errs, s, e. cbn [fst snd] in Herr, Herrs. rewrite <- Herr at 1. exact (conj Hrun Herrs).
Defined.
