(* ===== verification/CfgCli.v ===== *)
(** * The Configuration Client (bt_mesh/src/cfg_cli.c)

    Requests to the Configuration Server of another node, and what the client
    makes of the answers. A call sends its request and waits for a semaphore that
    the handler of the expected answer gives; here a call ends with an error or
    waits, the handlers run while it waits, and [cli_done] is what it returns when
    the semaphore is taken or the time is over. *)

From S2P Require Import Prelude NetBuf Cmac Ccm MeshCrypto NetState NetIv TransState TransTx Access Beacon Proxy CfgState CfgModels CfgSrv.

Definition CID_NVAL : Z := 0xffff.

(** ** State *)

(** [struct bt_mesh_cfg_mod_pub]. *)
Record cfg_mod_pub := mk_cfg_mod_pub {
  cp_addr : Z; cp_uuid : option bytes; cp_app_idx : Z; cp_cred_flag : bool; cp_ttl : Z; cp_period : Z; cp_transmit : Z
}.
(** [struct bt_mesh_cfg_hb_sub]. *)
Record cfg_hb_sub := mk_cfg_hb_sub {
  ch_src : Z; ch_dst : Z; ch_period : Z; ch_count : Z; ch_min : Z; ch_max : Z
}.

(** What [op_param] points to: what the answer has to repeat, and which of its
    pointers are not null. *)
Inductive cli_param :=
| PCompData (tailroom : nat)
| PStatusU8
| PRelay
| PNetKey (net_idx : Z)
| PAppKey (net_idx app_idx : Z)
| PModApp (elem_addr mod_app_idx mod_id cid : Z)
| PModPub (mod_id cid elem_addr : Z) (pub : bool)
| PModSub (elem_addr : Z) (sub_addr : bool) (expect_sub : option Z) (mod_id cid : Z)
| PHbSub
| PHbPub (pub : bool).

(** What the call's pointers are given. *)
Record cli_out := mk_cli_out {
  co_status : option Z;
  co_transmit : option Z;
  co_comp : bytes;
  co_sub_addr : option Z;
  co_pub : option cfg_mod_pub;
  co_hb_sub : option cfg_hb_sub;
  co_hb_pub : option hb_para
}.
#[export] Instance cli_out_settable : Settable cli_out.
Proof.
  settable (fun o => mk_cli_out (co_status o) (co_transmit o) (co_comp o) (co_sub_addr o) (co_pub o) (co_hb_sub o) (co_hb_pub o)).
Defined.
Definition no_out : cli_out := mk_cli_out None None [] None None None None.

(** [struct bt_mesh_cfg_cli] with the outputs of the call that waits and the
    network of the node; [cl_model] is whether [cli] is set, [cl_sync] the count
    of the semaphore and [cl_timeout] is [msg_timeout]. *)
Record cfg_cli := mk_cfg_cli {
  cl_model : option model_ref;
  cl_key0 : Z;
  cl_sync : nat;
  cl_pending : Z;
  cl_param : option cli_param;
  cl_out : cli_out;
  cl_timeout : Z;
  cl_net : mesh_net
}.
#[export] Instance cfg_cli_settable : Settable cfg_cli.
Proof.
  settable (fun c => mk_cfg_cli (cl_model c) (cl_key0 c) (cl_sync c) (cl_pending c) (cl_param c) (cl_out c) (cl_timeout c) (cl_net c)).
Defined.

(** A message sent, with the room left in its buffer. *)
Inductive cli_event := CliSend (ctx : msg_ctx) (msg : bytes) (room : Z).
Abbreviation K := (stm cfg_cli cli_event).

Class CliEnv := {
  (** [bt_mesh_model_send]. *)
  cli_send_err : msg_ctx -> bytes -> Z;
  (** [k_sem_take] when the time is over. *)
  cli_timeout_err : Z;
  (** [bt_mesh_primary_addr()]. *)
  cli_primary : Z
}.

Definition set_out (f : cli_out -> cli_out) : K unit := stm_modify (fun c => c <| cl_out := f (cl_out c) |>).
Definition cli_net (f : mesh_net -> mesh_net) : K unit := stm_modify (fun c => c <| cl_net := f (cl_net c) |>).
Definition give : K unit := stm_modify (fun c => c <| cl_sync := S (cl_sync c) |>).
Definition put_status (v : Z) : K unit := set_out (fun o => o <| co_status := Some v |>).

(** ** Answers *)

(** A handler goes on only if its answer is expected. The parameter is of the kind
    that the call for this answer sets. *)
Definition expecting (op : Z) (body : cli_param -> K unit) : K unit :=
  c <- stm_get ;;
  if negb (cl_pending c =? op) then mret tt
  else param <- stm_of_option (cl_param c) ;; body param.

Definition comp_data_status (ctx : msg_ctx) (buf : bytes) : K unit :=
  expecting OP_DEV_COMP_DATA_STATUS (fun param =>
    match param with
    | PCompData tailroom =>
        p <- pull_u8 buf ;; let '(status, buf) := p in
        put_status status ;;
        set_out (fun o => o <| co_comp := co_comp o ++ take (Nat.min tailroom (length buf)) buf |>) ;;
        give
    | _ => stm_undef
    end).

Definition state_status_u8 (ctx : msg_ctx) (buf : bytes) (expect_status : Z) : K unit :=
  expecting expect_status (fun param =>
    match param with
    | PStatusU8 => p <- pull_u8 buf ;; put_status p.1 ;; give
    | _ => stm_undef
    end).
Definition beacon_status (ctx : msg_ctx) (buf : bytes) : K unit := state_status_u8 ctx buf OP_BEACON_STATUS.
Definition ttl_status (ctx : msg_ctx) (buf : bytes) : K unit := state_status_u8 ctx buf OP_DEFAULT_TTL_STATUS.
Definition friend_status (ctx : msg_ctx) (buf : bytes) : K unit := state_status_u8 ctx buf OP_FRIEND_STATUS.
Definition gatt_proxy_status (ctx : msg_ctx) (buf : bytes) : K unit := state_status_u8 ctx buf OP_GATT_PROXY_STATUS.

Definition relay_status (ctx : msg_ctx) (buf : bytes) : K unit :=
  expecting OP_RELAY_STATUS (fun param =>
    match param with
    | PRelay =>
        p <- pull_u8 buf ;; let '(status, buf) := p in
        p <- pull_u8 buf ;; let '(transmit, _) := p in
        put_status status ;; set_out (fun o => o <| co_transmit := Some transmit |>) ;; give
    | _ => stm_undef
    end).

Definition net_key_status (ctx : msg_ctx) (buf : bytes) : K unit :=
  expecting OP_NET_KEY_STATUS (fun param =>
    p <- pull_u8 buf ;; let '(status, buf) := p in
    p <- key_idx_unpack buf ;; let '(net_idx, _, _) := p in
    match param with
    | PNetKey idx => if negb (idx =? net_idx) then mret tt else put_status status ;; give
    | _ => stm_undef
    end).

Definition app_key_status (ctx : msg_ctx) (buf : bytes) : K unit :=
  expecting OP_APP_KEY_STATUS (fun param =>
    p <- pull_u8 buf ;; let '(status, buf) := p in
    p <- key_idx_unpack buf ;; let '(net_idx, app_idx, _) := p in
    match param with
    | PAppKey n a => if negb (n =? net_idx) || negb (a =? app_idx) then mret tt else put_status status ;; give
    | _ => stm_undef
    end).

(** The model identifier at the end of an answer, and its company. *)
Definition pull_mod_id (buf : bytes) : K (Z * Z) :=
  if decide (4 <= length buf)%nat then
    p <- pull_le16 buf ;; let '(cid, buf) := p in
    p <- pull_le16 buf ;; let '(mod_id, _) := p in
    mret (mod_id, cid)
  else p <- pull_le16 buf ;; let '(mod_id, _) := p in mret (mod_id, CID_NVAL).

Definition mod_app_status (ctx : msg_ctx) (buf : bytes) : K unit :=
  expecting OP_MOD_APP_STATUS (fun param =>
    p <- pull_u8 buf ;; let '(status, buf) := p in
    p <- pull_le16 buf ;; let '(elem_addr, buf) := p in
    p <- pull_le16 buf ;; let '(mod_app_idx, buf) := p in
    p <- pull_mod_id buf ;; let '(mod_id, cid) := p in
    match param with
    | PModApp e a m c =>
        if negb (e =? elem_addr) || negb (a =? mod_app_idx) || negb (m =? mod_id) || negb (c =? cid) then mret tt
        else put_status status ;; give
    | _ => stm_undef
    end).

Definition mod_pub_status (ctx : msg_ctx) (buf : bytes) : K unit :=
  expecting OP_MOD_PUB_STATUS (fun param =>
    match param with
    | PModPub m c e pub =>
        if (if negb (c =? CID_NVAL) then bool_decide (length buf < 14)%nat else bool_decide (12 < length buf)%nat) then mret tt
        else
          let cid := if negb (c =? CID_NVAL) then sys_get_le16 (drop 10 buf) else CID_NVAL in
          let mod_id := sys_get_le16 (drop (if negb (c =? CID_NVAL) then 12 else 10) buf) in
          if negb (mod_id =? m) || negb (cid =? c) then mret tt
          else
            p <- pull_u8 buf ;; let '(status, buf) := p in
            p <- pull_le16 buf ;; let '(elem_addr, buf) := p in
            if negb (elem_addr =? e) then mret tt
            else
              put_status status ;;
              (if pub then
                 p <- pull_le16 buf ;; let '(addr, buf) := p in
                 p <- pull_le16 buf ;; let '(app_idx, buf) := p in
                 p <- pull_u8 buf ;; let '(ttl, buf) := p in
                 p <- pull_u8 buf ;; let '(period, buf) := p in
                 p <- pull_u8 buf ;; let '(transmit, _) := p in
                 set_out (fun o => o <| co_pub :=
                   Some (mk_cfg_mod_pub addr None (Z.land app_idx 0xfff) (Z.testbit app_idx 12) ttl period transmit) |>)
               else mret tt) ;;
              give
    | _ => stm_undef
    end).

Definition mod_sub_status (ctx : msg_ctx) (buf : bytes) : K unit :=
  expecting OP_MOD_SUB_STATUS (fun param =>
    p <- pull_u8 buf ;; let '(status, buf) := p in
    p <- pull_le16 buf ;; let '(elem_addr, buf) := p in
    p <- pull_le16 buf ;; let '(sub_addr, buf) := p in
    p <- pull_mod_id buf ;; let '(mod_id, cid) := p in
    match param with
    | PModSub e want expect m c =>
        if negb (e =? elem_addr) || negb (m =? mod_id) || from_option (fun x => negb (x =? sub_addr)) false expect ||
           negb (c =? cid) then mret tt
        else
          (if want : bool then set_out (fun o => o <| co_sub_addr := Some sub_addr |>) else mret tt) ;;
          put_status status ;; give
    | _ => stm_undef
    end).

Definition hb_sub_status (ctx : msg_ctx) (buf : bytes) : K unit :=
  expecting OP_HEARTBEAT_SUB_STATUS (fun param =>
    match param with
    | PHbSub =>
        p <- pull_u8 buf ;; let '(status, buf) := p in
        p <- pull_le16 buf ;; let '(src, buf) := p in
        p <- pull_le16 buf ;; let '(dst, buf) := p in
        p <- pull_u8 buf ;; let '(period, buf) := p in
        p <- pull_u8 buf ;; let '(count, buf) := p in
        p <- pull_u8 buf ;; let '(min, buf) := p in
        p <- pull_u8 buf ;; let '(max, _) := p in
        put_status status ;; set_out (fun o => o <| co_hb_sub := Some (mk_cfg_hb_sub src dst period count min max) |>) ;; give
    | _ => stm_undef
    end).

(** The features and the key index are read as one byte each. *)
Definition hb_pub_status (ctx : msg_ctx) (buf : bytes) : K unit :=
  expecting OP_HEARTBEAT_PUB_STATUS (fun param =>
    match param with
    | PHbPub pub =>
        p <- pull_u8 buf ;; let '(status, buf) := p in
        put_status status ;;
        (if pub : bool then
           p <- pull_le16 buf ;; let '(dst, buf) := p in
           p <- pull_u8 buf ;; let '(count, buf) := p in
           p <- pull_u8 buf ;; let '(period, buf) := p in
           p <- pull_u8 buf ;; let '(ttl, buf) := p in
           p <- pull_u8 buf ;; let '(feat, buf) := p in
           p <- pull_u8 buf ;; let '(net_idx, _) := p in
           set_out (fun o => o <| co_hb_pub := Some (mk_hb_para dst count period ttl feat net_idx) |>)
         else mret tt) ;;
        give
    | _ => stm_undef
    end).

Definition bt_mesh_cfg_cli_op : list (Z * nat * (msg_ctx -> bytes -> K unit)) :=
  [ (OP_DEV_COMP_DATA_STATUS, 15%nat, comp_data_status);
    (OP_BEACON_STATUS, 1%nat, beacon_status);
    (OP_DEFAULT_TTL_STATUS, 1%nat, ttl_status);
    (OP_FRIEND_STATUS, 1%nat, friend_status);
    (OP_GATT_PROXY_STATUS, 1%nat, gatt_proxy_status);
    (OP_RELAY_STATUS, 2%nat, relay_status);
    (OP_NET_KEY_STATUS, 3%nat, net_key_status);
    (OP_APP_KEY_STATUS, 4%nat, app_key_status);
    (OP_MOD_APP_STATUS, 7%nat, mod_app_status);
    (OP_MOD_PUB_STATUS, 12%nat, mod_pub_status);
    (OP_MOD_SUB_STATUS, 7%nat, mod_sub_status);
    (OP_HEARTBEAT_SUB_STATUS, 9%nat, hb_sub_status);
    (OP_HEARTBEAT_PUB_STATUS, 10%nat, hb_pub_status) ].

(** What the access layer does with a message for the client. *)
Definition cfg_cli_recv (opcode : Z) (ctx : msg_ctx) (buf : bytes) : K unit :=
  match List.find (fun op => op.1.1 =? opcode) bt_mesh_cfg_cli_op with
  | None => mret tt
  | Some (_, min_len, func) => if decide (length buf < min_len)%nat then mret tt else func ctx buf
  end.

(** ** Requests *)

Section requests.
Context {cfg : MeshConfig} {env : CfgEnv} {cenv : CliEnv}.

(** The result of a call: [Some err] when it has returned, [None] while it waits
    in [cli_wait]. *)
Definition check_cli : K Z :=
  c <- stm_get ;;
  mret (match cl_model c with
        | None => - EINVAL
        | Some _ => if negb (cl_pending c =? 0) then - EBUSY else 0
        end).
Definition checked (body : K (option Z)) : K (option Z) :=
  err <- check_cli ;; if negb (err =? 0) then mret (Some err) else body.

(** [cli_wait] up to [k_sem_take], and after it. *)
Definition cli_wait (param : cli_param) (op : Z) : K (option Z) :=
  stm_modify (fun c => (c <| cl_param := Some param |>) <| cl_pending := op |>) ;; mret None.
Definition cli_done : K Z :=
  c <- stm_get ;;
  let taken := negb (cl_sync c =? 0)%nat in
  stm_modify (fun c => (((c <| cl_sync := Nat.pred (cl_sync c) |>) <| cl_pending := 0 |>) <| cl_param := None |>)) ;;
  mret (if taken then 0 else cli_timeout_err).

Definition cli_ctx (net_idx addr : Z) : msg_ctx := mk_ctx net_idx BT_MESH_KEY_DEV addr 0 BT_MESH_TTL_DEFAULT false.

(** The end of every request: the message [msg] in a buffer of [cap] bytes is
    sent, then the answer is waited for, if the call has a pointer for it. *)
Definition send_wait (net_idx addr : Z) (cap : nat) (msg : bytes) (status : bool) (param : cli_param) (op : Z) : K (option Z) :=
  if decide (cap < length msg)%nat then stm_undef
  else
    let ctx := cli_ctx net_idx addr in
    stm_emit [CliSend ctx msg (Z.of_nat cap - Z.of_nat (length msg))] ;;
    let err := cli_send_err ctx msg in
    if negb (err =? 0) then mret (Some err)
    else if negb status then mret (Some 0)
    else cli_wait param op.

(** A call whose pointers the code does not test is given them. *)
Definition bt_mesh_cfg_comp_data_get (net_idx addr page : Z) (tailroom : nat) : K (option Z) :=
  checked (send_wait net_idx addr (2 + 1 + 4) (bt_mesh_model_msg_init OP_DEV_COMP_DATA_GET ++ [u8 page])
    true (PCompData tailroom) OP_DEV_COMP_DATA_STATUS).

Definition get_state_u8 (net_idx addr op rsp : Z) : K (option Z) :=
  checked (send_wait net_idx addr (2 + 0 + 4) (bt_mesh_model_msg_init op) true PStatusU8 rsp).
Definition set_state_u8 (net_idx addr op rsp new_val : Z) : K (option Z) :=
  checked (send_wait net_idx addr (2 + 1 + 4) (bt_mesh_model_msg_init op ++ [u8 new_val]) true PStatusU8 rsp).

Definition bt_mesh_cfg_beacon_get (net_idx addr : Z) := get_state_u8 net_idx addr OP_BEACON_GET OP_BEACON_STATUS.
Definition bt_mesh_cfg_beacon_set (net_idx addr val : Z) := set_state_u8 net_idx addr OP_BEACON_SET OP_BEACON_STATUS val.
Definition bt_mesh_cfg_ttl_get (net_idx addr : Z) := get_state_u8 net_idx addr OP_DEFAULT_TTL_GET OP_DEFAULT_TTL_STATUS.
Definition bt_mesh_cfg_ttl_set (net_idx addr val : Z) :=
  set_state_u8 net_idx addr OP_DEFAULT_TTL_SET OP_DEFAULT_TTL_STATUS val.
Definition bt_mesh_cfg_friend_get (net_idx addr : Z) := get_state_u8 net_idx addr OP_FRIEND_GET OP_FRIEND_STATUS.
Definition bt_mesh_cfg_friend_set (net_idx addr val : Z) := set_state_u8 net_idx addr OP_FRIEND_SET OP_FRIEND_STATUS val.
Definition bt_mesh_cfg_gatt_proxy_get (net_idx addr : Z) :=
  get_state_u8 net_idx addr OP_GATT_PROXY_GET OP_GATT_PROXY_STATUS.
Definition bt_mesh_cfg_gatt_proxy_set (net_idx addr val : Z) :=
  set_state_u8 net_idx addr OP_GATT_PROXY_SET OP_GATT_PROXY_STATUS val.

Definition bt_mesh_cfg_relay_get (net_idx addr : Z) : K (option Z) :=
  checked (send_wait net_idx addr (2 + 0 + 4) (bt_mesh_model_msg_init OP_RELAY_GET) true PRelay OP_RELAY_STATUS).
Definition bt_mesh_cfg_relay_set (net_idx addr new_relay new_transmit : Z) : K (option Z) :=
  checked (send_wait net_idx addr (2 + 2 + 4) (bt_mesh_model_msg_init OP_RELAY_SET ++ [u8 new_relay; u8 new_transmit])
    true PRelay OP_RELAY_STATUS).

(** *** Network keys *)

Definition bt_mesh_cfg_net_key_add (net_idx addr key_net_idx : Z) (net_key : bytes) (status : bool) : K (option Z) :=
  checked (send_wait net_idx addr (2 + 18 + 4) (bt_mesh_model_msg_init OP_NET_KEY_ADD ++ sys_put_le16 key_net_idx ++ net_key)
    status (PNetKey key_net_idx) OP_NET_KEY_STATUS).

(** The subnet of the node itself goes to the next phase before the message is sent. *)
Definition bt_mesh_cfg_krp_set (net_idx addr key_net_idx phase : Z) (status : bool) : K (option Z) :=
  checked (
    c <- stm_get ;;
    match bt_mesh_subnet_get (cl_net c) key_net_idx with
    | None => mret (Some 0)
    | Some i =>
        sub <- stm_of_option (subs (cl_net c) !! i) ;;
        let cur := sub_kr_phase sub in
        if (phase <? BT_MESH_KR_PHASE_2) || (BT_MESH_KR_PHASE_3 <? phase) ||
           ((cur =? BT_MESH_KR_NORMAL) && (phase =? BT_MESH_KR_PHASE_2)) then mret (Some 0)
        else
          (if (cur =? BT_MESH_KR_PHASE_1) && (phase =? BT_MESH_KR_PHASE_2) then
             cli_net (fun m => set_sub m i (fun s => (s <| sub_kr_phase := BT_MESH_KR_PHASE_2 |>) <| sub_kr_flag := true |>)) ;;
             cli_net (fun m => set_sub m i (bt_mesh_net_beacon_update m))
           else if ((cur =? BT_MESH_KR_PHASE_1) || (cur =? BT_MESH_KR_PHASE_2)) && (phase =? BT_MESH_KR_PHASE_3) then
             cli_net (fun m => bt_mesh_net_revoke_keys m i) ;;
             (if CONFIG_LOW_POWER || CONFIG_FRIEND then
                cli_net (fun m => m <| friend_creds := friend_cred_refresh net_idx (friend_creds m) |>)
              else mret tt) ;;
             cli_net (fun m => set_sub m i (fun s => (s <| sub_kr_phase := BT_MESH_KR_NORMAL |>) <| sub_kr_flag := false |>)) ;;
             cli_net (fun m => set_sub m i (bt_mesh_net_beacon_update m))
           else mret tt) ;;
          send_wait net_idx addr (2 + 3 + 4) (bt_mesh_model_msg_init OP_KRP_SET ++ sys_put_le16 key_net_idx ++ [u8 phase])
            status (PNetKey key_net_idx) OP_KRP_STATUS
    end).

Definition bt_mesh_cfg_krp_get (net_idx addr key_net_idx : Z) (status : bool) : K (option Z) :=
  checked (send_wait net_idx addr (2 + 2 + 4) (bt_mesh_model_msg_init OP_KRP_GET ++ sys_put_le16 key_net_idx)
    status (PNetKey key_net_idx) OP_KRP_STATUS).
Definition bt_mesh_cfg_net_key_del (net_idx addr key_net_idx : Z) (status : bool) : K (option Z) :=
  checked (send_wait net_idx addr (2 + 2 + 4) (bt_mesh_model_msg_init OP_NET_KEY_DEL ++ sys_put_le16 key_net_idx)
    status (PNetKey key_net_idx) OP_NET_KEY_STATUS).
Definition bt_mesh_cfg_net_key_get (net_idx addr : Z) (status : bool) : K (option Z) :=
  checked (send_wait net_idx addr (2 + 18 + 4) (bt_mesh_model_msg_init OP_NET_KEY_GET) status (PNetKey 0) OP_NET_KEY_LIST).

(** The subnet of the node itself is not tested before its keys are written; an
    error of the derivations is lost. *)
Definition bt_mesh_cfg_net_key_update (net_idx addr key_net_idx : Z) (net_key : bytes) (status : bool) : K (option Z) :=
  checked (
    c <- stm_get ;;
    i <- stm_of_option (bt_mesh_subnet_get (cl_net c) key_net_idx) ;;
    sub <- stm_of_option (subs (cl_net c) !! i) ;;
    (match bt_mesh_net_keys_create (sub_key1 sub) net_key with
     | Undef => stm_undef
     | Err _ => mret tt
     | Ok keys =>
         cli_net (fun m => set_sub m i (fun s => s <| sub_key1 := keys |>)) ;;
         (if CONFIG_LOW_POWER || CONFIG_FRIEND then
            cli_net (fun m => m <| friend_creds :=
              (friend_cred_update c_lpn_frnd cli_primary (sub <| sub_key1 := keys |>) (friend_creds m)).2 |>)
          else mret tt)
     end) ;;
    cli_net (fun m => set_sub m i (fun s => s <| sub_kr_phase := BT_MESH_KR_PHASE_1 |>)) ;;
    send_wait net_idx addr (2 + 18 + 4) (bt_mesh_model_msg_init OP_NET_KEY_UPDATE ++ sys_put_le16 key_net_idx ++ net_key)
      status (PNetKey key_net_idx) OP_NET_KEY_STATUS).

(** *** Application keys *)

Definition bt_mesh_cfg_app_key_add (net_idx addr key_net_idx key_app_idx : Z) (app_key : bytes) (status : bool) : K (option Z) :=
  checked (send_wait net_idx addr (1 + 19 + 4)
    (bt_mesh_model_msg_init OP_APP_KEY_ADD ++ key_idx_pack key_net_idx key_app_idx ++ app_key)
    status (PAppKey key_net_idx key_app_idx) OP_APP_KEY_STATUS).
Definition bt_mesh_cfg_app_key_del (net_idx addr key_net_idx key_app_idx : Z) (status : bool) : K (option Z) :=
  checked (send_wait net_idx addr (2 + 3 + 4) (bt_mesh_model_msg_init OP_APP_KEY_DEL ++ key_idx_pack key_net_idx key_app_idx)
    status (PAppKey key_net_idx key_app_idx) OP_APP_KEY_STATUS).
Definition bt_mesh_cfg_app_key_update (net_idx addr key_net_idx key_app_idx : Z) (app_key : bytes) (status : bool) : K (option Z) :=
  checked (send_wait net_idx addr (2 + 19 + 4)
    (bt_mesh_model_msg_init OP_APP_KEY_UPDATE ++ key_idx_pack key_net_idx key_app_idx ++ app_key)
    status (PAppKey key_net_idx key_app_idx) OP_APP_KEY_STATUS).
Definition bt_mesh_cfg_app_key_get (net_idx addr key_net_idx : Z) (status : bool) : K (option Z) :=
  checked (send_wait net_idx addr (2 + 2 + 4) (bt_mesh_model_msg_init OP_APP_KEY_GET ++ sys_put_le16 key_net_idx)
    status (PAppKey key_net_idx 0) OP_APP_KEY_LIST).

(** *** Bindings *)

Definition mod_ident (mod_id cid : Z) : bytes :=
  (if negb (cid =? CID_NVAL) then sys_put_le16 cid else []) ++ sys_put_le16 mod_id.
(** A call for a vendor model. *)
Definition vnd_call (cid : Z) (call : K (option Z)) : K (option Z) :=
  if cid =? CID_NVAL then mret (Some (- EINVAL)) else call.

Definition mod_app_bind (net_idx addr elem_addr mod_app_idx mod_id cid : Z) (status : bool) : K (option Z) :=
  checked (send_wait net_idx addr (2 + 8 + 4)
    (bt_mesh_model_msg_init OP_MOD_APP_BIND ++ sys_put_le16 elem_addr ++ sys_put_le16 mod_app_idx ++ mod_ident mod_id cid)
    status (PModApp elem_addr mod_app_idx mod_id cid) OP_MOD_APP_STATUS).
Definition bt_mesh_cfg_mod_app_bind (net_idx addr elem_addr mod_app_idx mod_id : Z) (status : bool) :=
  mod_app_bind net_idx addr elem_addr mod_app_idx mod_id CID_NVAL status.
Definition bt_mesh_cfg_mod_app_bind_vnd (net_idx addr elem_addr mod_app_idx mod_id cid : Z) (status : bool) :=
  vnd_call cid (mod_app_bind net_idx addr elem_addr mod_app_idx mod_id cid status).

Definition mod_app_unbind (net_idx addr elem_addr mod_app_idx mod_id cid : Z) (status : bool) : K (option Z) :=
  checked (send_wait net_idx addr (2 + 8 + 4)
    (bt_mesh_model_msg_init OP_MOD_APP_UNBIND ++ sys_put_le16 elem_addr ++ sys_put_le16 mod_app_idx ++ mod_ident mod_id cid)
    status (PModApp elem_addr mod_app_idx mod_id cid) OP_MOD_APP_STATUS).
Definition bt_mesh_cfg_mod_app_unbind (net_idx addr elem_addr mod_app_idx mod_id : Z) (status : bool) :=
  mod_app_unbind net_idx addr elem_addr mod_app_idx mod_id CID_NVAL status.
Definition bt_mesh_cfg_mod_app_unbind_vnd (net_idx addr elem_addr mod_app_idx mod_id cid : Z) (status : bool) :=
  vnd_call cid (mod_app_unbind net_idx addr elem_addr mod_app_idx mod_id cid status).

(** It waits for the list of the other kind of models. *)
Definition mod_app_get (net_idx addr elem_addr mod_id cid : Z) (status : bool) : K (option Z) :=
  checked (
    let '(op, list_opcode) := if negb (cid =? CID_NVAL) then (OP_VND_MOD_APP_GET, OP_SIG_MOD_APP_LIST)
                              else (OP_SIG_MOD_APP_GET, OP_VND_MOD_APP_LIST) in
    send_wait net_idx addr (2 + 6 + 4) (bt_mesh_model_msg_init op ++ sys_put_le16 elem_addr ++ mod_ident mod_id cid)
      status (PModApp elem_addr 0 mod_id cid) list_opcode).
Definition bt_mesh_cfg_mod_app_get (net_idx addr elem_addr mod_id : Z) (status : bool) :=
  mod_app_get net_idx addr elem_addr mod_id CID_NVAL status.
Definition bt_mesh_cfg_mod_app_get_vnd (net_idx addr elem_addr mod_id cid : Z) (status : bool) :=
  vnd_call cid (mod_app_get net_idx addr elem_addr mod_id cid status).

(** *** The node *)

Definition bt_mesh_cfg_node_ident_get (net_idx addr elem_addr : Z) (status : bool) : K (option Z) :=
  checked (send_wait net_idx addr (2 + 2 + 4) (bt_mesh_model_msg_init OP_NODE_IDENTITY_GET ++ sys_put_le16 net_idx)
    status (PModSub elem_addr false None 0 0) OP_NODE_IDENTITY_STATUS).
Definition bt_mesh_cfg_node_ident_set (net_idx addr elem_addr ident_state : Z) (status : bool) : K (option Z) :=
  checked (send_wait net_idx addr (2 + 3 + 4)
    (bt_mesh_model_msg_init OP_NODE_IDENTITY_SET ++ sys_put_le16 net_idx ++ [u8 ident_state])
    status (PModSub elem_addr false None 0 0) OP_NODE_IDENTITY_STATUS).
Definition bt_mesh_cfg_node_reset (net_idx addr : Z) (status : bool) : K (option Z) :=
  checked (send_wait net_idx addr (2 + 4) (bt_mesh_model_msg_init OP_NODE_RESET)
    status (PModSub 0 false None 0 0) OP_NODE_RESET_STATUS).
Definition bt_mesh_cfg_network_transmit_get (net_idx addr : Z) (status : bool) : K (option Z) :=
  checked (send_wait net_idx addr (2 + 4) (bt_mesh_model_msg_init OP_NET_TRANSMIT_GET)
    status (PModSub 0 false None 0 0) OP_NET_TRANSMIT_STATUS).
Definition bt_mesh_cfg_network_transmit_set (net_idx addr transmit : Z) (status : bool) : K (option Z) :=
  checked (send_wait net_idx addr (2 + 1 + 4) (bt_mesh_model_msg_init OP_NET_TRANSMIT_SET ++ [u8 transmit])
    status (PModSub 0 false None 0 0) OP_NET_TRANSMIT_STATUS).
Definition bt_mesh_cfg_lpn_timeout_get (net_idx addr lpn_addr : Z) (status : bool) : K (option Z) :=
  checked (send_wait net_idx addr (2 + 2 + 4) (bt_mesh_model_msg_init OP_LPN_TIMEOUT_GET ++ sys_put_le16 lpn_addr)
    status (PModSub 0 false None 0 0) OP_LPN_TIMEOUT_STATUS).

(** *** Subscriptions *)

Definition mod_sub (op net_idx addr elem_addr sub_addr mod_id cid : Z) (status : bool) : K (option Z) :=
  checked (send_wait net_idx addr (2 + 8 + 4)
    (bt_mesh_model_msg_init op ++ sys_put_le16 elem_addr ++
     (if negb (op =? OP_MOD_SUB_DEL_ALL) && negb (op =? OP_MOD_SUB_GET) && negb (op =? OP_MOD_SUB_GET_VND)
      then sys_put_le16 sub_addr else []) ++
     mod_ident mod_id cid)
    status (PModSub elem_addr false (Some sub_addr) mod_id cid)
    (if op =? OP_MOD_SUB_GET then OP_MOD_SUB_LIST
     else if op =? OP_MOD_SUB_GET_VND then OP_MOD_SUB_LIST_VND else OP_MOD_SUB_STATUS)).

Definition bt_mesh_cfg_mod_sub_add (net_idx addr elem_addr sub_addr mod_id : Z) (status : bool) :=
  mod_sub OP_MOD_SUB_ADD net_idx addr elem_addr sub_addr mod_id CID_NVAL status.
Definition bt_mesh_cfg_mod_sub_add_vnd (net_idx addr elem_addr sub_addr mod_id cid : Z) (status : bool) :=
  vnd_call cid (mod_sub OP_MOD_SUB_ADD net_idx addr elem_addr sub_addr mod_id cid status).
Definition bt_mesh_cfg_mod_sub_del (net_idx addr elem_addr sub_addr mod_id : Z) (status : bool) :=
  mod_sub OP_MOD_SUB_DEL net_idx addr elem_addr sub_addr mod_id CID_NVAL status.
Definition bt_mesh_cfg_mod_sub_del_vnd (net_idx addr elem_addr sub_addr mod_id cid : Z) (status : bool) :=
  vnd_call cid (mod_sub OP_MOD_SUB_DEL net_idx addr elem_addr sub_addr mod_id cid status).
Definition bt_mesh_cfg_mod_sub_del_all (net_idx addr elem_addr sub_addr mod_id : Z) (status : bool) :=
  mod_sub OP_MOD_SUB_DEL_ALL net_idx addr elem_addr sub_addr mod_id CID_NVAL status.
Definition bt_mesh_cfg_mod_sub_del_all_vnd (net_idx addr elem_addr sub_addr mod_id cid : Z) (status : bool) :=
  vnd_call cid (mod_sub OP_MOD_SUB_DEL_ALL net_idx addr elem_addr sub_addr mod_id cid status).
Definition bt_mesh_cfg_mod_sub_get (net_idx addr elem_addr sub_addr mod_id : Z) (status : bool) :=
  mod_sub OP_MOD_SUB_GET net_idx addr elem_addr sub_addr mod_id CID_NVAL status.
Definition bt_mesh_cfg_mod_sub_get_vnd (net_idx addr elem_addr sub_addr mod_id cid : Z) (status : bool) :=
  vnd_call cid (mod_sub OP_MOD_SUB_GET_VND net_idx addr elem_addr sub_addr mod_id cid status).
Definition bt_mesh_cfg_mod_sub_overwrite (net_idx addr elem_addr sub_addr mod_id : Z) (status : bool) :=
  mod_sub OP_MOD_SUB_OVERWRITE net_idx addr elem_addr sub_addr mod_id CID_NVAL status.
Definition bt_mesh_cfg_mod_sub_overwrite_vnd (net_idx addr elem_addr sub_addr mod_id cid : Z) (status : bool) :=
  vnd_call cid (mod_sub OP_MOD_SUB_OVERWRITE net_idx addr elem_addr sub_addr mod_id cid status).

(** [virt_addr] is whether there is a pointer for the virtual address. *)
Definition mod_sub_va (op net_idx addr elem_addr : Z) (label_ : bytes) (mod_id cid : Z) (virt_addr status : bool) : K (option Z) :=
  checked (send_wait net_idx addr (2 + 22 + 4)
    (bt_mesh_model_msg_init op ++ sys_put_le16 elem_addr ++ label_ ++ mod_ident mod_id cid)
    status (PModSub elem_addr virt_addr None mod_id cid) OP_MOD_SUB_STATUS).

Definition bt_mesh_cfg_mod_sub_va_add (net_idx addr elem_addr : Z) (label_ : bytes) (mod_id : Z) (virt_addr status : bool) :=
  mod_sub_va OP_MOD_SUB_VA_ADD net_idx addr elem_addr label_ mod_id CID_NVAL virt_addr status.
Definition bt_mesh_cfg_mod_sub_va_add_vnd (net_idx addr elem_addr : Z) (label_ : bytes) (mod_id cid : Z) (virt_addr status : bool) :=
  vnd_call cid (mod_sub_va OP_MOD_SUB_VA_ADD net_idx addr elem_addr label_ mod_id cid virt_addr status).
Definition bt_mesh_cfg_mod_sub_va_del (net_idx addr elem_addr : Z) (label_ : bytes) (mod_id : Z) (virt_addr status : bool) :=
  mod_sub_va OP_MOD_SUB_VA_DEL net_idx addr elem_addr label_ mod_id CID_NVAL virt_addr status.
Definition bt_mesh_cfg_mod_sub_va_del_vnd (net_idx addr elem_addr : Z) (label_ : bytes) (mod_id cid : Z) (virt_addr status : bool) :=
  vnd_call cid (mod_sub_va OP_MOD_SUB_VA_DEL net_idx addr elem_addr label_ mod_id cid virt_addr status).
Definition bt_mesh_cfg_mod_sub_va_overwrite (net_idx addr elem_addr : Z) (label_ : bytes) (mod_id : Z)
    (virt_addr status : bool) :=
  mod_sub_va OP_MOD_SUB_VA_OVERWRITE net_idx addr elem_addr label_ mod_id CID_NVAL virt_addr status.
Definition bt_mesh_cfg_mod_sub_va_overwrite_vnd (net_idx addr elem_addr : Z) (label_ : bytes) (mod_id cid : Z)
    (virt_addr status : bool) :=
  vnd_call cid (mod_sub_va OP_MOD_SUB_VA_OVERWRITE net_idx addr elem_addr label_ mod_id cid virt_addr status).

(** *** Publications and heartbeats *)

Definition mod_pub_get (net_idx addr elem_addr mod_id cid : Z) (pub status : bool) : K (option Z) :=
  checked (send_wait net_idx addr (2 + 6 + 4)
    (bt_mesh_model_msg_init OP_MOD_PUB_GET ++ sys_put_le16 elem_addr ++ mod_ident mod_id cid)
    status (PModPub mod_id cid elem_addr pub) OP_MOD_PUB_STATUS).
Definition bt_mesh_cfg_mod_pub_get (net_idx addr elem_addr mod_id : Z) (pub status : bool) :=
  mod_pub_get net_idx addr elem_addr mod_id CID_NVAL pub status.
(** The company is tested and then left out. *)
Definition bt_mesh_cfg_mod_pub_get_vnd (net_idx addr elem_addr mod_id cid : Z) (pub status : bool) :=
  vnd_call cid (mod_pub_get net_idx addr elem_addr mod_id CID_NVAL pub status).

Definition mod_pub_set (net_idx addr elem_addr mod_id cid : Z) (pub : cfg_mod_pub) (status : bool) : K (option Z) :=
  checked (send_wait net_idx addr (2 + 13 + 14 + 4)
    (bt_mesh_model_msg_init (match cp_uuid pub with None => OP_MOD_PUB_SET | Some _ => OP_MOD_PUB_VA_SET end) ++ sys_put_le16 elem_addr ++
     match cp_uuid pub with None => sys_put_le16 (cp_addr pub) | Some uuid => uuid end ++
     sys_put_le16 (Z.land (cp_app_idx pub) (Z.shiftl (if cp_cred_flag pub then 1 else 0) 12)) ++
     [u8 (cp_ttl pub); u8 (cp_period pub); u8 (cp_transmit pub)] ++ mod_ident mod_id cid)
    status (PModPub mod_id cid elem_addr true) OP_MOD_PUB_STATUS).
Definition bt_mesh_cfg_mod_pub_set (net_idx addr elem_addr mod_id : Z) (pub : cfg_mod_pub) (status : bool) :=
  mod_pub_set net_idx addr elem_addr mod_id CID_NVAL pub status.
Definition bt_mesh_cfg_mod_pub_set_vnd (net_idx addr elem_addr mod_id cid : Z) (pub : cfg_mod_pub) (status : bool) :=
  vnd_call cid (mod_pub_set net_idx addr elem_addr mod_id cid pub status).

Definition bt_mesh_cfg_hb_sub_set (net_idx addr : Z) (sub : cfg_hb_sub) (status : bool) : K (option Z) :=
  checked (send_wait net_idx addr (2 + 5 + 4)
    (bt_mesh_model_msg_init OP_HEARTBEAT_SUB_SET ++ sys_put_le16 (ch_src sub) ++ sys_put_le16 (ch_dst sub) ++ [u8 (ch_period sub)])
    status PHbSub OP_HEARTBEAT_SUB_STATUS).
Definition bt_mesh_cfg_hb_sub_get (net_idx addr : Z) (status : bool) : K (option Z) :=
  checked (send_wait net_idx addr (2 + 0 + 4) (bt_mesh_model_msg_init OP_HEARTBEAT_SUB_GET)
    status PHbSub OP_HEARTBEAT_SUB_STATUS).
Definition bt_mesh_cfg_hb_pub_set (net_idx addr : Z) (pub : hb_para) (status : bool) : K (option Z) :=
  checked (send_wait net_idx addr (2 + 9 + 4)
    (bt_mesh_model_msg_init OP_HEARTBEAT_PUB_SET ++ sys_put_le16 (pa_dst pub) ++
     [u8 (pa_count pub); u8 (pa_period pub); u8 (pa_ttl pub)] ++ sys_put_le16 (pa_feat pub) ++ sys_put_le16 (pa_net_idx pub))
    status (PHbPub false) OP_HEARTBEAT_PUB_STATUS).
Definition bt_mesh_cfg_hb_pub_get (net_idx addr : Z) (pub status : bool) : K (option Z) :=
  checked (send_wait net_idx addr (2 + 0 + 4) (bt_mesh_model_msg_init OP_HEARTBEAT_PUB_GET)
    status (PHbPub pub) OP_HEARTBEAT_PUB_STATUS).

(** ** Start *)

Definition bt_mesh_cfg_cli_timeout_get : K Z := c <- stm_get ;; mret (cl_timeout c).
Definition bt_mesh_cfg_cli_timeout_set (timeout : Z) : K unit := stm_modify (fun c => c <| cl_timeout := timeout |>).

(** [user_data] is whether the model has a context. *)
Definition bt_mesh_cfg_cli_init (r : model_ref) (user_data primary : bool) : K Z :=
  if negb primary then mret (- EINVAL)
  else if negb user_data then mret (- EINVAL)
  else
    stm_modify (fun c => ((c <| cl_model := Some r |>) <| cl_key0 := BT_MESH_KEY_DEV |>) <| cl_sync := 0%nat |>) ;;
    mret 0.

End requests.
