(* ===== verification/CfgPair.v ===== *)
(** * The Configuration Client and the Configuration Server together

    A request of the client (CfgCli), the message it sends, the server's handler
    (CfgModels, CfgSrv), its answer and what the client's handler makes of it: the
    call returns the status of the operation that the request names, done on the
    node. *)

From S2P Require Import Prelude NetBuf Cmac Ccm MeshCrypto NetState NetIv TransState TransTx Access Beacon Proxy CfgState MsgRead CfgModels CfgSrv CfgWf CfgOk CfgSafe CfgServer CfgProps CfgCli.

(** ** Requests *)

(** Requests for a model. *)
Inductive model_request :=
| MBind (app_idx : Z)
| MUnbind (app_idx : Z)
| MSubAdd (addr : Z)
| MSubDel (addr : Z)
| MSubOverwrite (addr : Z).
(** States of one byte. *)
Inductive state_u8 := SBeacon | STtl | SFriend | SProxy.
(** [RModel] names a SIG model when [cid] is [CID_NVAL]. *)
Inductive remote :=
| RKeyAdd (net_idx app_idx : Z) (key : bytes)
| RKeyUpdate (net_idx app_idx : Z) (key : bytes)
| RKeyDel (net_idx app_idx : Z)
| RModel (elem_addr mod_id cid : Z) (q : model_request)
| RGet (x : state_u8).

(** The calls of the client. *)
Definition model_call {cenv : CliEnv} (net_idx addr elem_addr mod_id cid : Z) (q : model_request) : K (option Z) :=
  if cid =? CID_NVAL then
    match q with
    | MBind k => bt_mesh_cfg_mod_app_bind net_idx addr elem_addr k mod_id true
    | MUnbind k => bt_mesh_cfg_mod_app_unbind net_idx addr elem_addr k mod_id true
    | MSubAdd a => bt_mesh_cfg_mod_sub_add net_idx addr elem_addr a mod_id true
    | MSubDel a => bt_mesh_cfg_mod_sub_del net_idx addr elem_addr a mod_id true
    | MSubOverwrite a => bt_mesh_cfg_mod_sub_overwrite net_idx addr elem_addr a mod_id true
    end
  else
    match q with
    | MBind k => bt_mesh_cfg_mod_app_bind_vnd net_idx addr elem_addr k mod_id cid true
    | MUnbind k => bt_mesh_cfg_mod_app_unbind_vnd net_idx addr elem_addr k mod_id cid true
    | MSubAdd a => bt_mesh_cfg_mod_sub_add_vnd net_idx addr elem_addr a mod_id cid true
    | MSubDel a => bt_mesh_cfg_mod_sub_del_vnd net_idx addr elem_addr a mod_id cid true
    | MSubOverwrite a => bt_mesh_cfg_mod_sub_overwrite_vnd net_idx addr elem_addr a mod_id cid true
    end.
Definition client_call {cenv : CliEnv} (net_idx addr : Z) (q : remote) : K (option Z) :=
  match q with
  | RKeyAdd n a k => bt_mesh_cfg_app_key_add net_idx addr n a k true
  | RKeyUpdate n a k => bt_mesh_cfg_app_key_update net_idx addr n a k true
  | RKeyDel n a => bt_mesh_cfg_app_key_del net_idx addr n a true
  | RModel e id cid m => model_call net_idx addr e id cid m
  | RGet SBeacon => bt_mesh_cfg_beacon_get net_idx addr
  | RGet STtl => bt_mesh_cfg_ttl_get net_idx addr
  | RGet SFriend => bt_mesh_cfg_friend_get net_idx addr
  | RGet SProxy => bt_mesh_cfg_gatt_proxy_get net_idx addr
  end.

Definition remote_ok (q : remote) : Prop :=
  match q with
  | RKeyAdd n a k | RKeyUpdate n a k => is_block k /\ 0 <= n <= 0xfff /\ 0 <= a <= 0xfff
  | RKeyDel n a => 0 <= n <= 0xfff /\ 0 <= a <= 0xfff
  | RModel e id cid m =>
      0 <= e < 65536 /\ 0 <= id < 65536 /\ 0 <= cid < 65536 /\
      0 <= match m with MBind k | MUnbind k => k | MSubAdd a | MSubDel a | MSubOverwrite a => a end < 65536
  | RGet _ => True
  end.

(** ** What the requests mean

    The operation of the server, and its status. *)

Definition locate (a : access) (elem_addr mod_id cid : Z) : Z + model_ref :=
  match bt_mesh_elem_find a elem_addr with
  | None => inl STATUS_INVALID_ADDRESS
  | Some i =>
      match e ← ac_elems a !! i; if cid =? CID_NVAL then bt_mesh_model_find e mod_id else bt_mesh_model_find_vnd e cid mod_id with
      | None => inl STATUS_INVALID_MODEL
      | Some k => inr (mk_model_ref i (negb (cid =? CID_NVAL)) k)
      end
  end.

Section effect.
Context {cfg : MeshConfig} {env : CfgEnv}.
Variable r : model_ref.

Definition model_effect (m : model_request) (r' : model_ref) : G Z :=
  match m with
  | MBind k => if decide (r = r') then mret STATUS_CANNOT_BIND else mod_bind r' k
  | MUnbind k => mod_unbind r' k
  | MSubAdd a => sub_add r' a
  | MSubDel a => sub_del r' a
  | MSubOverwrite a => sub_overwrite r' a
  end.
Definition key_del_effect (net_idx app_idx : Z) : G Z :=
  s <- stm_get ;;
  match bt_mesh_subnet_get (nd_net s) net_idx, app_key_slot (nd_net s) app_idx with
  | None, _ => mret STATUS_INVALID_NETKEY
  | Some _, None => mret STATUS_SUCCESS
  | Some _, Some j =>
      key <- stm_of_option (app_keys (nd_net s) !! j) ;;
      if negb (app_net_idx key =? net_idx) then mret STATUS_INVALID_BINDING
      else _app_key_del j ;; genie (GENIE_EVT_SDK_APPKEY_DEL STATUS_SUCCESS) ;; mret STATUS_SUCCESS
  end.
Definition state_of (x : state_u8) (s : node) : Z :=
  match x with
  | SBeacon => bt_mesh_beacon_get s
  | STtl => bt_mesh_default_ttl_get s
  | SFriend => cs_frnd (nd_srv s)
  | SProxy => bt_mesh_gatt_proxy_get s
  end.
Definition effect (q : remote) : G Z :=
  match q with
  | RKeyAdd n a k => app_key_set n a k false
  | RKeyUpdate n a k => app_key_set n a k true
  | RKeyDel n a => key_del_effect n a
  | RModel e id cid m =>
      s <- stm_get ;;
      match locate (nd_acc s) e id cid with
      | inl status => mret status
      | inr r' => model_effect m r'
      end
  | RGet x => s <- stm_get ;; mret (state_of x s)
  end.

(** What the server does after its answer. *)
Definition rest (q : remote) (status : Z) : G unit :=
  match q with
  | RKeyAdd _ _ _ => genie_sub_list_init ;; genie_mesh_setup ;; genie (GENIE_EVT_SDK_APPKEY_ADD status)
  | RKeyUpdate _ _ _ => genie (GENIE_EVT_SDK_APPKEY_UPDATE status)
  | RModel _ _ _ (MSubAdd _) => if status =? STATUS_SUCCESS then genie GENIE_EVT_SDK_SUB_ADD else mret tt
  | RModel _ _ _ (MSubDel _) => if status =? STATUS_SUCCESS then genie GENIE_EVT_SDK_SUB_DEL else mret tt
  | _ => mret tt
  end.
End effect.

(** ** The exchange *)

Section exchange.
Context {cfg : MeshConfig} {env : CfgEnv} {aenv : AccEnv} {cenv : CliEnv}.

(** The first message among the events. *)
Fixpoint answer (es : list cfg_event) : option bytes :=
  match es with
  | [] => None
  | CSend _ _ msg _ :: _ => Some msg
  | _ :: es => answer es
  end.

(** The call of the client, its message to the server [r], the answer to the
    client and the end of the call: its result, the client and the node. [rx] are
    the contexts in which the messages are received. *)
Definition exchange (net_idx addr : Z) (q : remote) (r : model_ref) (rx : msg_ctx * msg_ctx) (c : cfg_cli) (s : node)
    : option (Z * cfg_cli * node) :=
  match client_call net_idx addr q c with
  | Some (None, c, [CliSend _ msg _]) =>
      match get_opcode msg with
      | Ok (op, data) =>
          '(_, s, es) ← cfg_srv_recv r op rx.1 data s;
          msg ← answer es;
          match get_opcode msg with
          | Ok (op, data) =>
              '(err, c, _) ← (cfg_cli_recv op rx.2 data ;; cli_done) c;
              Some (err, c, s)
          | _ => None
          end
      | _ => None
      end
  | _ => None
  end.
End exchange.

Lemma mod_ident_len mod_id cid : length (mod_ident mod_id cid) = if negb (cid =? CID_NVAL) then 4%nat else 2%nat.
Proof. unfold mod_ident. by destruct (negb _). Qed.
Lemma mod_id_of_ident mod_id cid : reads (mod_id_of (negb (cid =? CID_NVAL)) (mod_ident mod_id cid)) (mod_ident mod_id cid).
Proof.
  intros s. unfold mod_id_of. rewrite (reads_bind _ _ _ _ (reads_mem _ _ (mod_ident_len mod_id cid))). done.
Qed.
Lemma find_model_ident elem_addr mod_id cid s : 0 <= mod_id < 65536 -> 0 <= cid < 65536 ->
  find_model elem_addr (mod_ident mod_id cid) s = Some ((negb (cid =? CID_NVAL), locate (nd_acc s) elem_addr mod_id cid), s, []).
Proof.
  intros Hid Hcid. unfold find_model, locate. rewrite (stm_bind_pure _ _ s s s) by done.
  destruct (bt_mesh_elem_find (nd_acc s) elem_addr) as [i|] eqn:Hi.
  2:{ rewrite mod_ident_len. by destruct (negb _). }
  apply find_index_Some in Hi as (e & He & _). rewrite He. cbn [mbind option_bind].
  rewrite (stm_bind_pure _ _ s e s) by done. unfold get_model_id. rewrite mod_ident_len. unfold mod_ident.
  destruct (Z.eqb_spec cid CID_NVAL) as [->|Hv]; cbn [negb].
  - rewrite decide_True by lia. cbn [app]. rewrite stm_bind_assoc, (reads_bind _ _ _ _ (reads_le16_end _ Hid)).
    cbv beta iota. rewrite (stm_bind_pure _ _ s (mk_model_ref i false <$> bt_mesh_model_find e mod_id, false) s) by done.
    by destruct (bt_mesh_model_find e mod_id).
  - rewrite decide_False by lia. rewrite stm_bind_assoc, (reads_bind _ _ _ _ (reads_le16 _ _ Hcid)). cbv beta iota.
    rewrite stm_bind_assoc, (reads_bind _ _ _ _ (reads_le16_end _ Hid)). cbv beta iota.
    rewrite (stm_bind_pure _ _ s (mk_model_ref i true <$> bt_mesh_model_find_vnd e cid mod_id, true) s) by done.
    by destruct (bt_mesh_model_find_vnd e cid mod_id).
Qed.

(** ** The messages *)

Definition model_arg (m : model_request) : Z :=
  match m with MBind k | MUnbind k => k | MSubAdd a | MSubDel a | MSubOverwrite a => a end.
Definition req_op (q : remote) : Z :=
  match q with
  | RKeyAdd _ _ _ => OP_APP_KEY_ADD
  | RKeyUpdate _ _ _ => OP_APP_KEY_UPDATE
  | RKeyDel _ _ => OP_APP_KEY_DEL
  | RModel _ _ _ (MBind _) => OP_MOD_APP_BIND
  | RModel _ _ _ (MUnbind _) => OP_MOD_APP_UNBIND
  | RModel _ _ _ (MSubAdd _) => OP_MOD_SUB_ADD
  | RModel _ _ _ (MSubDel _) => OP_MOD_SUB_DEL
  | RModel _ _ _ (MSubOverwrite _) => OP_MOD_SUB_OVERWRITE
  | RGet SBeacon => OP_BEACON_GET
  | RGet STtl => OP_DEFAULT_TTL_GET
  | RGet SFriend => OP_FRIEND_GET
  | RGet SProxy => OP_GATT_PROXY_GET
  end.
Definition req_data (q : remote) : bytes :=
  match q with
  | RKeyAdd n a k | RKeyUpdate n a k => key_idx_pack n a ++ k
  | RKeyDel n a => key_idx_pack n a
  | RModel e id cid m => sys_put_le16 e ++ sys_put_le16 (model_arg m) ++ mod_ident id cid
  | RGet _ => []
  end.
Definition ans_op (q : remote) : Z :=
  match q with
  | RKeyAdd _ _ _ | RKeyUpdate _ _ _ | RKeyDel _ _ => OP_APP_KEY_STATUS
  | RModel _ _ _ (MBind _ | MUnbind _) => OP_MOD_APP_STATUS
  | RModel _ _ _ _ => OP_MOD_SUB_STATUS
  | RGet SBeacon => OP_BEACON_STATUS
  | RGet STtl => OP_DEFAULT_TTL_STATUS
  | RGet SFriend => OP_FRIEND_STATUS
  | RGet SProxy => OP_GATT_PROXY_STATUS
  end.
Definition ans_data (q : remote) (status : Z) : bytes :=
  u8 status ::
  match q with
  | RKeyAdd n a _ | RKeyUpdate n a _ | RKeyDel n a => key_idx_pack n a
  | RModel e id cid m => sys_put_le16 e ++ sys_put_le16 (model_arg m) ++ mod_ident id cid
  | RGet _ => []
  end.
Definition req_param (q : remote) : cli_param :=
  match q with
  | RKeyAdd n a _ | RKeyUpdate n a _ | RKeyDel n a => PAppKey n a
  | RModel e id cid (MBind k | MUnbind k) => PModApp e k id cid
  | RModel e id cid (MSubAdd a | MSubDel a | MSubOverwrite a) => PModSub e false (Some a) id cid
  | RGet _ => PStatusU8
  end.

Lemma op_valid q : opcode_valid (req_op q) /\ opcode_valid (ans_op q).
Proof. unfold opcode_valid. destruct q as [| | |? ? ? []|[]]; cbn [req_op ans_op]; split; vm_compute; intuition congruence. Qed.
Lemma data_bytes q status : remote_ok q -> is_bytes (req_data q) /\ is_bytes (ans_data q status).
Proof.
  assert (forall n a, is_bytes (key_idx_pack n a)) as Hk.
  { intros n a. apply Forall_app. split; [apply is_bytes_le16|repeat constructor; apply u8_byte]. }
  assert (forall a b id cid, is_bytes (sys_put_le16 a ++ sys_put_le16 b ++ mod_ident id cid)) as Hm.
  { intros a b id cid. repeat (apply Forall_app; split; [apply is_bytes_le16|]). unfold mod_ident.
    apply Forall_app. split; [|apply is_bytes_le16]. destruct (negb _); [apply is_bytes_le16|constructor]. }
  intros Hq. assert (forall l, is_bytes l -> is_bytes (u8 status :: l)) as Hcons.
  { intros l Hl. apply List.Forall_cons; [apply u8_byte|done]. }
  destruct q as [n a k|n a k|n a|e id cid m|x]; cbn [remote_ok] in Hq; unfold req_data, ans_data; split; auto.
  - apply Forall_app. split; [apply Hk|apply Hq].
  - apply Forall_app. split; [apply Hk|apply Hq].
  - apply List.Forall_nil.
  - apply Hcons, List.Forall_nil.
Qed.
(** ** The server *)

Section server.
Context {cfg : MeshConfig} {env : CfgEnv} {aenv : AccEnv}.
Variable r : model_ref.

Definition send_ans (q : remote) (ctx : msg_ctx) (room status : Z) : G unit :=
  stm_emit [CSend r ctx (bt_mesh_model_msg_init (ans_op q) ++ ans_data q status) room].

Lemma reply_emit ctx cap msg n : length msg = n -> (n <= cap)%nat ->
  reply r ctx cap msg = stm_emit [CSend r ctx msg (Z.of_nat cap - Z.of_nat n)].
Proof. intros <- Hn. unfold reply. by rewrite decide_False by lia. Qed.

Lemma key_status_answer n a q ctx : ans_op q = OP_APP_KEY_STATUS -> (forall st, ans_data q st = u8 st :: key_idx_pack n a) ->
  forall st, CfgModels.app_key_status r ctx st n a = send_ans q ctx 4 st.
Proof.
  intros Hop Hd st. unfold CfgModels.app_key_status, send_ans. rewrite Hop, Hd. rewrite (reply_emit _ _ _ 6); [done|done|lia].
Qed.
Definition ans_room (q : remote) : Z :=
  match q with RModel _ _ cid _ => 8 - (if negb (cid =? CID_NVAL) then 4 else 2) | _ => 4 end.

Lemma ident_msg_len op e arg id cid st : length (bt_mesh_model_msg_init op) = 2%nat ->
  length (bt_mesh_model_msg_init op ++ u8 st :: sys_put_le16 e ++ sys_put_le16 arg ++ mod_ident id cid) =
    if negb (cid =? CID_NVAL) then 11%nat else 9%nat.
Proof. intros Hop. rewrite length_app, Hop. cbn [length]. rewrite !length_app, mod_ident_len. by destruct (negb _). Qed.
Lemma app_answer e id cid m ctx st s : ans_op (RModel e id cid m) = OP_MOD_APP_STATUS ->
  CfgModels.mod_app_status r ctx (negb (cid =? CID_NVAL)) e (model_arg m) st (mod_ident id cid) s =
    send_ans (RModel e id cid m) ctx (ans_room (RModel e id cid m)) st s.
Proof.
  intros Hop. unfold CfgModels.mod_app_status, send_ans, ans_data, ans_room. rewrite Hop, (reads_bind _ _ _ _ (mod_id_of_ident id cid)).
  rewrite (reply_emit _ _ _ _ (ident_msg_len OP_MOD_APP_STATUS _ _ _ _ _ eq_refl)) by (destruct (negb _); lia). by destruct (negb _).
Qed.
Lemma sub_answer e id cid m ctx st s : ans_op (RModel e id cid m) = OP_MOD_SUB_STATUS ->
  send_mod_sub_status r ctx st e (model_arg m) (mod_ident id cid) (negb (cid =? CID_NVAL)) s =
    send_ans (RModel e id cid m) ctx (ans_room (RModel e id cid m)) st s.
Proof.
  intros Hop. unfold send_mod_sub_status, send_ans, ans_data, ans_room. rewrite Hop, (reads_bind _ _ _ _ (mod_id_of_ident id cid)).
  rewrite (reply_emit _ _ _ _ (ident_msg_len OP_MOD_SUB_STATUS _ _ _ _ _ eq_refl)) by (destruct (negb _); lia). by destruct (negb _).
Qed.

Lemma run_handler (op : Z) min_len func ctx data s :
  List.find (fun o => o.1.1 =? op) bt_mesh_cfg_srv_op = Some (op, min_len, func) -> (min_len <= length data)%nat ->
  cfg_srv_recv r op ctx data s = func r ctx data s.
Proof. intros Hf Hl. unfold cfg_srv_recv. rewrite Hf. by rewrite decide_False by lia. Qed.

Lemma model_data_len e id cid m : (6 <= length (req_data (RModel e id cid m)))%nat.
Proof. unfold req_data. rewrite !length_app, mod_ident_len. destruct (negb _); cbn; lia. Qed.

(** The start of the handlers of model requests. *)
Lemma model_handler_reads {A} e id cid m (f : Z -> Z -> bytes -> bool * (Z + model_ref) -> G A) s :
  remote_ok (RModel e id cid m) ->
  (p <- pull_le16 (req_data (RModel e id cid m)) ;; let '(elem_addr, buf) := p in
   p <- pull_le16 buf ;; let '(arg, buf) := p in
   p <- find_model elem_addr buf ;; f elem_addr arg buf p) s =
  f e (model_arg m) (mod_ident id cid) (negb (cid =? CID_NVAL), locate (nd_acc s) e id cid) s.
Proof.
  intros (He & Hid & Hcid & Ha). unfold req_data. rewrite (reads_bind _ _ _ _ (reads_le16 _ _ He)). cbv beta iota.
  rewrite (reads_bind _ _ _ _ (reads_le16 _ _ Ha)). cbv beta iota.
  by rewrite (stm_bind_pure _ _ _ _ _ (find_model_ident e id cid s Hid Hcid)).
Qed.

Definition served (q : remote) (ctx : msg_ctx) (s : node) : Prop :=
  cfg_srv_recv r (req_op q) ctx (req_data q) s =
  (status <- effect r q ;; send_ans q ctx (ans_room q) status ;; rest q status) s.

Lemma effect_located {A} e id cid m (k : Z -> G A) s :
  stm_bind (effect r (RModel e id cid m)) k s =
  stm_bind (match locate (nd_acc s) e id cid with inl status => mret status | inr r' => model_effect r m r' end) k s.
Proof. unfold effect. by rewrite stm_bind_assoc, (stm_bind_pure _ _ s s s). Qed.

Ltac model_served Hq :=
  unfold served; erewrite run_handler by (done || apply model_data_len);
  refine (eq_trans (model_handler_reads _ _ _ _ _ _ Hq) _); cbv beta iota; rewrite effect_located; apply bind_ext;
  intros st s1; cbv beta.

Lemma served_model e id cid m ctx s : remote_ok (RModel e id cid m) -> served (RModel e id cid m) ctx s.
Proof.
  intros Hq. destruct m as [k|k|a|a|a]; model_served Hq.
  - rewrite (app_answer e id cid (MBind k)) by done. symmetry. exact (stm_bind_tt _ _).
  - rewrite (app_answer e id cid (MUnbind k)) by done. symmetry. exact (stm_bind_tt _ _).
  - by apply bind_head, (sub_answer e id cid (MSubAdd a)).
  - by apply bind_head, (sub_answer e id cid (MSubDel a)).
  - rewrite (sub_answer e id cid (MSubOverwrite a)) by done. symmetry. exact (stm_bind_tt _ _).
Qed.

(** The other handlers. *)
Lemma served_key_set n a k (update : bool) ctx s : is_block k -> 0 <= n <= 0xfff -> 0 <= a <= 0xfff ->
  served (if update then RKeyUpdate n a k else RKeyAdd n a k) ctx s.
Proof.
  intros [Hk _] Hn Ha. assert (length (key_idx_pack n a ++ k) = 19%nat) as Hl by (rewrite length_app, Hk; done).
  assert (forall q, (forall st, ans_data q st = u8 st :: key_idx_pack n a) -> ans_op q = OP_APP_KEY_STATUS -> ans_room q = 4 ->
    forall st s1 (f : unit -> G unit), stm_bind (CfgModels.app_key_status r ctx st n a) f s1 =
      stm_bind (send_ans q ctx (ans_room q) st) f s1) as Hans.
  { intros q Hd Hop Hroom st s1 f. by rewrite (key_status_answer n a q), Hroom. }
  unfold served. destruct update.
  - erewrite run_handler by (done || (cbn [req_data]; rewrite Hl; done)). unfold app_key_update, req_data.
    rewrite (reads_bind _ _ _ _ (reads_key_idx _ _ _ Hn Ha)). cbv beta iota. rewrite (reads_bind _ _ _ _ (reads_mem _ _ Hk)).
    apply bind_ext. intros st s1. by apply (Hans (RKeyUpdate n a k)).
  - erewrite run_handler by (done || (cbn [req_data]; rewrite Hl; done)). unfold app_key_add, req_data.
    rewrite (reads_bind _ _ _ _ (reads_key_idx _ _ _ Hn Ha)). cbv beta iota. rewrite (reads_bind _ _ _ _ (reads_mem _ _ Hk)).
    apply bind_ext. intros st s1. by apply (Hans (RKeyAdd n a k)).
Qed.

Lemma served_key_del n a ctx s : 0 <= n <= 0xfff -> 0 <= a <= 0xfff -> served (RKeyDel n a) ctx s.
Proof.
  intros Hn Ha. unfold served. erewrite run_handler by done. unfold app_key_del, req_data.
  rewrite (reads_bind _ _ _ _ (reads_key_idx_end _ _ Hn Ha)). cbv beta iota. unfold effect, key_del_effect.
  rewrite (stm_bind_pure _ _ s s s), stm_bind_assoc, (stm_bind_pure _ _ s s s) by done. etrans.
  - apply bind_ext. intros st s1. by rewrite (key_status_answer n a (RKeyDel n a)).
  - cbv beta. etrans; [symmetry; apply bind_nop|]. apply bind_head.
    by destruct (bt_mesh_subnet_get (nd_net s) n), (app_key_slot (nd_net s) a).
Qed.

Lemma served_get x ctx s : served (RGet x) ctx s.
Proof.
  unfold served, effect. rewrite stm_bind_assoc, (stm_bind_pure _ _ s s s) by done.
  rewrite (stm_bind_pure _ _ s (state_of x s) s) by done.
  refine (eq_trans _ (eq_sym (stm_bind_tt _ _))). by destruct x.
Qed.

Lemma served_all q ctx s : remote_ok q -> served q ctx s.
Proof.
  destruct q as [n a k|n a k|n a|e id cid m|x]; cbn [remote_ok].
  - intros (Hk & Hn & Ha). by apply (served_key_set n a k false).
  - intros (Hk & Hn & Ha). by apply (served_key_set n a k true).
  - intros [Hn Ha]. by apply served_key_del.
  - apply served_model.
  - intros _. apply served_get.
Qed.
End server.

(** ** The operations send nothing *)

Section quiet.
Context {cfg : MeshConfig} {env : CfgEnv}.

Lemma key_del_quiet n a : stm_emits not_send (key_del_effect n a).
Proof.
  unfold key_del_effect, _app_key_del, model_foreach, genie, mod_net. emits_steps. apply for_refs_quiet. intros r.
  emits_steps. apply mod_unbind_quiet.
Qed.
#[local] Hint Resolve mod_bind_quiet mod_unbind_quiet sub_add_quiet sub_del_quiet sub_overwrite_quiet app_key_set_quiet
  key_del_quiet : core.
Lemma effect_quiet r q : stm_emits not_send (effect r q).
Proof. destruct q as [| | |e id cid []|]; cbn [effect model_effect]; auto; emits_steps; auto. Qed.
End quiet.

Lemma answer_quiet e es : Forall not_send e -> answer (e ++ es) = answer es.
Proof. induction 1 as [|ev e Hev _ IH]; [done|]. by destruct ev. Qed.

(** ** The client *)

Section client.
Context {cenv : CliEnv}.

(** A client that has been initialised and waits for nothing. *)
Definition idle (c : cfg_cli) : Prop := is_Some (cl_model c) /\ cl_pending c = 0 /\ cl_sync c = 0%nat /\ cl_param c = None.
Definition waiting (q : remote) (c : cfg_cli) : cfg_cli := (c <| cl_param := Some (req_param q) |>) <| cl_pending := ans_op q |>.
Definition informed (st : Z) (c : cfg_cli) : cfg_cli := c <| cl_out := (cl_out c) <| co_status := Some (u8 st) |> |>.
Definition accepted : Prop := forall ctx msg, cli_send_err ctx msg = 0.

Lemma request_sent net_idx addr cap msg param op c : idle c -> accepted -> (length msg <= cap)%nat ->
  checked (send_wait net_idx addr cap msg true param op) c =
  Some (None, (c <| cl_param := Some param |>) <| cl_pending := op |>,
    [CliSend (cli_ctx net_idx addr) msg (Z.of_nat cap - Z.of_nat (length msg))]).
Proof.
  intros ([r Hr] & Hp & _) Ha Hl. unfold checked, check_cli. rewrite stm_bind_assoc, (stm_bind_pure _ _ c c c) by done.
  rewrite (stm_bind_pure _ _ c 0 c) by (by rewrite Hr, Hp). unfold send_wait. cbn [negb Z.eqb]. rewrite decide_False by lia.
  rewrite stm_bind_emit, Ha. done.
Qed.

Lemma client_sends net_idx addr q c : idle c -> accepted -> remote_ok q -> exists room,
  client_call net_idx addr q c =
    Some (None, waiting q c, [CliSend (cli_ctx net_idx addr) (bt_mesh_model_msg_init (req_op q) ++ req_data q) room]).
Proof.
  intros Hc Ha Hq.
  assert (forall id cid, (length (mod_ident id cid) <= 4)%nat) as Hl by (intros; rewrite mod_ident_len; destruct (negb _); lia).
  destruct q as [n a k|n a k|n a|e id cid m|x]; cbn [remote_ok client_call] in *.
  - eexists. apply request_sent; [done..|]. unfold req_data. rewrite !length_app. destruct Hq as [[-> _] _]. cbn. lia.
  - eexists. apply request_sent; [done..|]. unfold req_data. rewrite !length_app. destruct Hq as [[-> _] _]. cbn. lia.
  - eexists. apply request_sent; [done..|]. cbn. lia.
  - assert (forall op, (length (bt_mesh_model_msg_init op) <= 3)%nat) as Hop.
    { intros op. unfold bt_mesh_model_msg_init. by repeat case_match; cbn; lia. }
    specialize (Hl id cid). unfold model_call. destruct (Z.eqb_spec cid CID_NVAL) as [->|Hv]; destruct m; eexists;
      try (unfold bt_mesh_cfg_mod_app_bind_vnd, bt_mesh_cfg_mod_app_unbind_vnd, bt_mesh_cfg_mod_sub_add_vnd,
        bt_mesh_cfg_mod_sub_del_vnd, bt_mesh_cfg_mod_sub_overwrite_vnd, vnd_call; rewrite (proj2 (Z.eqb_neq _ _) Hv));
      apply request_sent; try done; unfold req_data; rewrite !length_app; cbn in *; lia.
  - destruct x; eexists; apply request_sent; try done; cbn; lia.
Qed.

Lemma expecting_waiting op q c (body : cli_param -> K unit) : ans_op q = op ->
  expecting op body (waiting q c) = body (req_param q) (waiting q c).
Proof.
  intros <-. unfold expecting. rewrite (stm_bind_pure _ _ _ (waiting q c) (waiting q c)) by done.
  change (cl_pending (waiting q c)) with (ans_op q). rewrite Z.eqb_refl. cbn [negb].
  by rewrite (stm_bind_pure _ _ _ (req_param q) (waiting q c)).
Qed.
Lemma run_cli_handler op min_len func rx data c :
  List.find (fun o => o.1.1 =? op) bt_mesh_cfg_cli_op = Some (op, min_len, func) -> (min_len <= length data)%nat ->
  cfg_cli_recv op rx data c = func rx data c.
Proof. intros Hf Hl. unfold cfg_cli_recv. rewrite Hf. by rewrite decide_False by lia. Qed.

(** The client once the semaphore is given, and the end of its call. *)
Definition given (st : Z) (q : remote) (c : cfg_cli) : cfg_cli := informed st (waiting q c) <| cl_sync := 1%nat |>.
Lemma give_status st q c : idle c -> (put_status (u8 st) ;; give) (waiting q c) = Some (tt, given st q c, []).
Proof. intros (_ & _ & Hs & _). destruct c. cbn in Hs. by subst. Qed.
Lemma done_given st q c : idle c -> cli_done (given st q c) = Some (0, informed st c, []).
Proof. intros (_ & Hp & Hs & Hpa). destruct c. cbn in *. by subst. Qed.

Lemma pull_ident {T} id cid (f : Z * Z -> K T) s : 0 <= id < 65536 -> 0 <= cid < 65536 ->
  stm_bind (pull_mod_id (mod_ident id cid)) f s = f (id, cid) s.
Proof.
  intros Hid Hcid. apply reads_bind. intros c. unfold pull_mod_id. rewrite mod_ident_len. unfold mod_ident.
  destruct (Z.eqb_spec cid CID_NVAL) as [->|Hv]; cbn [negb].
  - rewrite decide_False by lia. cbn [app]. by rewrite (reads_bind _ _ _ _ (reads_le16_end _ Hid)).
  - rewrite decide_True by lia. rewrite (reads_bind _ _ _ _ (reads_le16 _ _ Hcid)). cbv beta iota.
    by rewrite (reads_bind _ _ _ _ (reads_le16_end _ Hid)).
Qed.

Lemma model_answer_len e id cid m st : (7 <= length (ans_data (RModel e id cid m) st))%nat.
Proof. unfold ans_data. cbn [length]. rewrite !length_app, mod_ident_len. destruct (negb _); cbn; lia. Qed.

Lemma client_receives_model e id cid m st rx c : remote_ok (RModel e id cid m) -> idle c ->
  cfg_cli_recv (ans_op (RModel e id cid m)) rx (ans_data (RModel e id cid m) st) (waiting (RModel e id cid m) c) =
    Some (tt, given st (RModel e id cid m) c, []).
Proof.
  intros (He & Hid & Hcid & Ha) Hc. destruct m as [k|k|a|a|a];
    (erewrite run_cli_handler; [|done|apply model_answer_len]);
    [unfold mod_app_status|unfold mod_app_status|unfold mod_sub_status|unfold mod_sub_status|unfold mod_sub_status];
    rewrite expecting_waiting by done; unfold ans_data;
    rewrite (reads_bind _ _ _ _ (reads_u8 _ _)); cbv beta iota;
    rewrite (reads_bind _ _ _ _ (reads_le16 _ _ He)); cbv beta iota;
    rewrite (reads_bind _ _ _ _ (reads_le16 _ _ Ha)); cbv beta iota; rewrite pull_ident by done;
    cbn [req_param model_arg from_option]; rewrite !Z.eqb_refl; cbn [negb orb]; by apply give_status.
Qed.

Lemma client_receives q st rx c : remote_ok q -> idle c ->
  (cfg_cli_recv (ans_op q) rx (ans_data q st) ;; cli_done) (waiting q c) = Some (0, informed st c, []).
Proof.
  intros Hq Hc. rewrite <- (done_given st q c Hc).
  enough (cfg_cli_recv (ans_op q) rx (ans_data q st) (waiting q c) = Some (tt, given st q c, [])) as H
    by (by rewrite (stm_bind_pure _ _ _ _ _ H)).
  assert (forall n a, 0 <= n <= 0xfff -> 0 <= a <= 0xfff -> req_param q = PAppKey n a -> ans_op q = OP_APP_KEY_STATUS ->
    cfg_cli_recv OP_APP_KEY_STATUS rx (u8 st :: key_idx_pack n a) (waiting q c) = Some (tt, given st q c, [])) as Hkey.
  { intros n a Hn Ha Hp Hop. erewrite run_cli_handler by done. unfold app_key_status. rewrite expecting_waiting, Hp by done.
    rewrite (reads_bind _ _ _ _ (reads_u8 _ _)). cbv beta iota. rewrite (reads_bind _ _ _ _ (reads_key_idx_end _ _ Hn Ha)).
    cbv beta iota. rewrite !Z.eqb_refl. cbn [negb orb]. by apply give_status. }
  destruct q as [n a k|n a k|n a|e id cid m|x]; cbn [remote_ok] in Hq.
  - apply Hkey; (apply Hq || done).
  - apply Hkey; (apply Hq || done).
  - apply Hkey; (apply Hq || done).
  - by apply client_receives_model.
  - assert (state_status_u8 rx (ans_data (RGet x) st) (ans_op (RGet x)) (waiting (RGet x) c) =
      Some (tt, given st (RGet x) c, [])) as Hs.
    { unfold state_status_u8. rewrite expecting_waiting by done. by apply give_status. }
    destruct x; (erewrite run_cli_handler; [|done|cbn; lia]); exact Hs.
Qed.
End client.

(** ** Sessions *)

Section session.
Context {cfg : MeshConfig} {env : CfgEnv} {laws : CfgLaws} {aenv : AccEnv} {cenv : CliEnv}.
Variable sh : composition.

(** The requests one after the other: for each what the call returns and the
    status it gives. *)
Fixpoint session (net_idx addr : Z) (qs : list remote) (r : model_ref) (rx : msg_ctx * msg_ctx) (c : cfg_cli) (s : node)
    : option (list (Z * option Z) * cfg_cli * node) :=
  match qs with
  | [] => Some ([], c, s)
  | q :: qs =>
      '(err, c, s) ← exchange net_idx addr q r rx c s;
      let result := (err, co_status (cl_out c)) in
      '(results, c, s) ← session net_idx addr qs r rx c s;
      Some (result :: results, c, s)
  end.
(** The operations of the node, without messages. *)
Fixpoint perform (r : model_ref) (qs : list remote) : G (list Z) :=
  match qs with
  | [] => mret []
  | q :: qs => status <- effect r q ;; rest q status ;; statuses <- perform r qs ;; mret (status :: statuses)
  end.

Lemma exchange_ok net_idx addr q r rx c s : node_wf sh s -> has_ref sh r -> idle c -> accepted -> remote_ok q ->
  exists st s1 e1 s2 e2, effect r q s = Some (st, s1, e1) /\ rest q st s1 = Some (tt, s2, e2) /\ node_wf sh s2 /\
    exchange net_idx addr q r rx c s = Some (0, informed st c, s2).
Proof.
  intros Hw Hr Hc Ha Hq.
  assert (op_ok sh (OpMessage r (req_op q) rx.1 (req_data q))) as Hop.
  { split; [done|]. split; [by apply (data_bytes q 0)|]. by intros [Hop _]; destruct q as [| | |? ? ? []|[]]. }
  destruct (wp_inv _ _ _ (cfg_srv_recv_ok sh r _ _ _ s Hw Hop)) as ([] & s2 & es & Hrun & Hw2 & _).
  pose proof (served_all r q rx.1 s Hq) as Hs. unfold served in Hs. rewrite Hrun in Hs. unfold stm_bind at 1 in Hs.
  destruct (effect r q s) as [[[st s1] e1]|] eqn:He; [|done]. unfold send_ans in Hs. rewrite stm_bind_emit in Hs.
  destruct (rest q st s1) as [[[[] s2'] e2]|] eqn:Hrest; [|done]. injection Hs as <- ->.
  exists st, s1, e1, s2, e2. split_and!; [done..|].
  destruct (client_sends net_idx addr q c Hc Ha Hq) as [room Hsend]. destruct (data_bytes q st Hq) as [Hb1 Hb2].
  unfold exchange. rewrite Hsend, opcode_read by (done || apply op_valid). rewrite Hrun. cbn [mbind option_bind].
  rewrite answer_quiet by (by eapply effect_quiet). cbn [answer app mbind option_bind].
  rewrite opcode_read by (done || apply op_valid). by rewrite client_receives.
Qed.

Lemma idle_informed st c : idle c -> idle (informed st c).
Proof. by intros (? & ? & ? & ?). Qed.

(** C25: remote configuration, for these requests ([remote]): AppKey Add, Update and
    Delete; Model App Bind and Unbind and Model Subscription Add, Delete and
    Overwrite, of SIG and of vendor models; and the Get of the beacon, default TTL,
    friend and GATT proxy states. A session, each request sent when the one before
    it has been answered, does to the node what the operations do that the requests
    name, in their order ([perform], what the handlers do without their messages;
    an AppKey Add also takes the subscriptions from flash and sets up all models):
    every call returns 0, with the status of its operation, and the node is in the
    state the operations leave. The client is idle, every message is accepted for
    sending and arrives, and the arguments fit their fields ([remote_ok]: groups
    and indexes in range, keys of 16 bytes). The other requests of the client are
    not claimed: several of them cannot succeed with this server (see below). *)
Theorem session_performs net_idx addr qs r rx c s : node_wf sh s -> has_ref sh r -> idle c -> accepted -> Forall remote_ok qs ->
  exists statuses s' e c', perform r qs s = Some (statuses, s', e) /\
    session net_idx addr qs r rx c s = Some (map (fun st => (0, Some (u8 st))) statuses, c', s') /\
    node_wf sh s' /\ idle c'.
Proof.
  intros Hw Hr Hc Ha Hqs. revert c s Hw Hc. induction Hqs as [|q qs Hq _ IH]; intros c s Hw Hc; cbn [perform session].
  - by exists [], s, [], c.
  - destruct (exchange_ok net_idx addr q r rx c s Hw Hr Hc Ha Hq) as (st & s1 & e1 & s2 & e2 & He & Hrest & Hw2 & Hex).
    destruct (IH (informed st c) s2 Hw2 (idle_informed st c Hc)) as (sts & s' & e & c' & Hp & Hs & Hw' & Hc').
    rewrite Hex. cbn [mbind option_bind]. rewrite Hs. cbn [mbind option_bind].
    exists (st :: sts), s', (e1 ++ e2 ++ e ++ []), c'. split_and!; [|done..].
    unfold stm_bind. rewrite He, Hrest, Hp. done.
Qed.
End session.

(** ** A node and its client *)

Definition sample_cli_env : CliEnv := {| cli_send_err _ _ := 0; cli_timeout_err := - EAGAIN; cli_primary := 1 |}.
Definition sample_cli : cfg_cli :=
  mk_cfg_cli (Some (mk_model_ref 0 false 1)) BT_MESH_KEY_DEV 0 0 None no_out 2000 (bt_mesh_init_state 1).
Definition sample_remote : list remote :=
  [RKeyAdd 0 1 (replicate 16 7); RModel 2 0x1000 CID_NVAL (MBind 1); RModel 2 0 0x01a8 (MSubAdd 0xc000);
   RModel 2 0x1000 CID_NVAL (MBind 5); RModel 7 0x1000 CID_NVAL (MUnbind 1); RGet STtl].

Lemma session_performs_witness : exists c s,
  session (cfg := proxy_friend_config) (env := sample_cfg_env) (aenv := sample_cfg_acc_env) (cenv := sample_cli_env) 0 2
    sample_remote (mk_model_ref 0 false 0) (mk_ctx 0 BT_MESH_KEY_DEV 1 5 7 false, mk_ctx 0 BT_MESH_KEY_DEV 2 5 7 false)
    sample_cli sample_cfg_node =
  Some ([(0, Some 0); (0, Some 0); (0, Some 0); (0, Some STATUS_INVALID_APPKEY); (0, Some STATUS_INVALID_ADDRESS); (0, Some 7)], c, s).
Proof.
  destruct (session_performs (cfg := proxy_friend_config) (env := sample_cfg_env) (laws := sample_laws) (aenv := sample_cfg_acc_env)
    (cenv := sample_cli_env) sample_shape 0 2 sample_remote (mk_model_ref 0 false 0)
    (mk_ctx 0 BT_MESH_KEY_DEV 1 5 7 false, mk_ctx 0 BT_MESH_KEY_DEV 2 5 7 false) sample_cli sample_cfg_node sample_cfg_wf)
    as (sts & s & e & c & Hp & Hs & _).
  - eexists. split; [done|cbn; lia].
  - by split; [eexists|].
  - done.
  - repeat apply List.Forall_cons; try apply List.Forall_nil; cbn [remote_ok];
      split_and?; try (by vm_compute); by split; [|apply (bool_decide_unpack (is_bytes _))].
  - exists c, s. rewrite Hs. do 3 f_equal. apply (f_equal (fmap (fun x => x.1.1))) in Hp. cbn [fmap option_fmap option_map fst] in Hp.
    vm_compute in Hp. injection Hp as <-. done.
Defined.

(** ** Where the two do not fit *)

(** The answer to a request for a network key is one index, of two bytes; the
    client reads two indexes, of three. *)
Theorem net_key_status_reads_past rx st idx c : cl_pending c = OP_NET_KEY_STATUS -> length idx = 2%nat ->
  cfg_cli_recv OP_NET_KEY_STATUS rx (st :: idx) c = None.
Proof.
  intros Hp Hl. erewrite run_cli_handler by (done || (cbn; lia)). unfold net_key_status, expecting.
  rewrite (stm_bind_pure _ _ c c c), Hp, Z.eqb_refl by done. cbn [negb]. destruct (cl_param c) as [p|]; [|done].
  rewrite (stm_bind_pure _ _ c p c), (reads_bind _ _ _ _ (reads_u8 _ _)) by done. cbv beta iota.
  unfold key_idx_unpack. by rewrite decide_True by lia.
Qed.

(** Whatever key and credentials a publication is to be set to, the message asks
    for key 0 and the master credentials. *)
Theorem mod_pub_set_loses_key {cenv : CliEnv} net_idx addr e id cid pub status : 0 <= cp_app_idx pub <= 0xfff ->
  mod_pub_set net_idx addr e id cid pub status =
  mod_pub_set net_idx addr e id cid
    (mk_cfg_mod_pub (cp_addr pub) (cp_uuid pub) 0 false (cp_ttl pub) (cp_period pub) (cp_transmit pub)) status.
Proof.
  intros Hk. unfold mod_pub_set. cbn [cp_addr cp_uuid cp_app_idx cp_cred_flag cp_ttl cp_period cp_transmit].
  replace (Z.land (cp_app_idx pub) (Z.shiftl (if cp_cred_flag pub then 1 else 0) 12)) with 0; [done|].
  symmetry. destruct (cp_cred_flag pub); [|apply Z.land_0_r]. change (Z.shiftl 1 12) with (2 ^ 12).
  apply Z.bits_inj'. intros n Hn. rewrite Z.land_spec, Z.pow2_bits_eqb, Z.bits_0 by lia.
  destruct (Z.eqb_spec 12 n) as [<-|]; [|apply andb_false_r]. rewrite Z.bits_above_log2; [done|lia|].
  apply (Z.le_lt_trans _ (Z.log2 0xfff)); [apply Z.log2_le_mono; lia|done].
Qed.

(** The answer to Delete All does not name the address that the client expects. *)
Theorem del_all_not_answered rx st e sub_addr id c : 0 <= e < 65536 -> 0 <= id < 65536 -> sub_addr <> BT_MESH_ADDR_UNASSIGNED ->
  cl_pending c = OP_MOD_SUB_STATUS -> cl_param c = Some (PModSub e false (Some sub_addr) id CID_NVAL) ->
  cfg_cli_recv OP_MOD_SUB_STATUS rx
    (u8 st :: sys_put_le16 e ++ sys_put_le16 BT_MESH_ADDR_UNASSIGNED ++ mod_ident id CID_NVAL) c = Some (tt, c, []).
Proof.
  intros He Hid Hs Hp Hpa. erewrite run_cli_handler by (done || (cbn; lia)). unfold mod_sub_status, expecting.
  rewrite (stm_bind_pure _ _ c c c), Hp, Z.eqb_refl by done. cbn [negb]. rewrite Hpa.
  rewrite (stm_bind_pure _ _ c (PModSub e false (Some sub_addr) id CID_NVAL) c), (reads_bind _ _ _ _ (reads_u8 _ _)) by done.
  cbv beta iota. rewrite (reads_bind _ _ _ _ (reads_le16 _ _ He)). cbv beta iota.
  rewrite (reads_bind _ _ _ _ (reads_le16 BT_MESH_ADDR_UNASSIGNED _ ltac:(done))). cbv beta iota. rewrite pull_ident by done.
  cbn [from_option]. rewrite (proj2 (Z.eqb_neq _ _) Hs). cbn [negb]. by rewrite !orb_true_r.
Qed.
