(* ===== verification/HealthSrv.v ===== *)
(** * The Health Server (bt_mesh/src/health_srv.c)

    Faults of the application, the fast period divisor of the publication and the
    attention timer: the handlers, what is published, and that every answer fits
    its buffer. *)

From S2P Require Import Prelude NetBuf Cmac Ccm MeshCrypto NetState NetIv Work TransState TransTx Access Beacon Proxy CfgState.

(** ** Opcodes (inc/foundation.h) *)

Definition OP_HEALTH_CURRENT_STATUS : Z := 0x04.
Definition OP_HEALTH_FAULT_STATUS : Z := 0x05.
Definition OP_ATTENTION_GET : Z := 0x8004.
Definition OP_ATTENTION_SET : Z := 0x8005.
Definition OP_ATTENTION_SET_UNREL : Z := 0x8006.
Definition OP_ATTENTION_STATUS : Z := 0x8007.
Definition OP_HEALTH_FAULT_CLEAR : Z := 0x802f.
Definition OP_HEALTH_FAULT_CLEAR_UNREL : Z := 0x8030.
Definition OP_HEALTH_FAULT_GET : Z := 0x8031.
Definition OP_HEALTH_FAULT_TEST : Z := 0x8032.
Definition OP_HEALTH_FAULT_TEST_UNREL : Z := 0x8033.
Definition OP_HEALTH_PERIOD_GET : Z := 0x8034.
Definition OP_HEALTH_PERIOD_SET : Z := 0x8035.
Definition OP_HEALTH_PERIOD_SET_UNREL : Z := 0x8036.
Definition OP_HEALTH_PERIOD_STATUS : Z := 0x8037.
Definition HEALTH_TEST_STANDARD : Z := 0x00.

Section health.
(** The state of the application behind the callbacks. *)
Context {App : Type}.

(** The callbacks of [struct bt_mesh_health_srv_cb] that are set; [fault_get_cur]
    and [fault_get_reg] get the room for faults and give an error, or a test
    identifier, (a company) and faults. *)
Class HealthEnv := {
  fault_get_cur : option (App -> Z -> Z + Z * Z * bytes);
  fault_get_reg : option (App -> Z -> Z -> Z + Z * bytes);
  fault_clear : option (App -> Z -> App);
  fault_test : option (App -> Z -> Z -> Z * App);
  cb_attn_on : bool;
  cb_attn_off : bool;
  (** [bt_mesh_comp_get()->cid]; [bt_mesh_model_publish] of the model. *)
  h_cid : Z;
  h_publish : Z
}.

(** ** State *)

(** [hl_data]: the model has a context; [hl_pub]: its publication with
    [period_div] and the size and contents of [msg]; [hl_update]: [pub->update] is
    set; [hl_primary]: [p_health_srv] points to the context; [hl_now] is the
    clock. *)
Record health := mk_health {
  hl_app : App;
  hl_data : bool;
  hl_model : bool;
  hl_pub : option (Z * nat * bytes);
  hl_update : bool;
  hl_primary : bool;
  hl_fast_period_div : Z;
  hl_attn_timer : work;
  hl_now : Z
}.
#[export] Instance health_settable : Settable health.
Proof.
  settable (fun h => mk_health (hl_app h) (hl_data h) (hl_model h) (hl_pub h) (hl_update h) (hl_primary h)
    (hl_fast_period_div h) (hl_attn_timer h) (hl_now h)).
Defined.

(** Messages sent, with the room left in the buffer; the attention callbacks. *)
Inductive health_event :=
| HSend (ctx : msg_ctx) (msg : bytes) (room : Z)
| HAttnOn
| HAttnOff.
Abbreviation H := (stm health health_event).

Context {env : HealthEnv}.

(** The context [srv] is used. *)
Definition with_srv : H unit := s <- stm_get ;; if hl_data s then mret tt else stm_undef.
Definition h_send (ctx : msg_ctx) (cap : nat) (msg : bytes) : H unit :=
  if decide (cap < length msg)%nat then stm_undef
  else stm_emit [HSend ctx msg (Z.of_nat cap - Z.of_nat (length msg))].
Definition mod_app (f : App -> App) : H unit := stm_modify (fun s => s <| hl_app := f (hl_app s) |>).

(** ** Faults *)

Definition fault_msg (op test_id company_id : Z) (faults : bytes) : bytes :=
  bt_mesh_model_msg_init op ++ u8 test_id :: sys_put_le16 company_id ++ faults.

Definition health_get_registered (company_id : Z) : H bytes :=
  with_srv ;;
  s <- stm_get ;;
  match fault_get_reg with
  | None => mret (fault_msg OP_HEALTH_FAULT_STATUS HEALTH_TEST_STANDARD company_id [])
  | Some get =>
      match get (hl_app s) company_id (u8 (Z.of_nat BT_MESH_TX_SDU_MAX - 4 - 4)) with
      | inl _ => mret (fault_msg OP_HEALTH_FAULT_STATUS HEALTH_TEST_STANDARD company_id [])
      | inr (test_id, faults) =>
          if decide (BT_MESH_TX_SDU_MAX - 4 < length faults)%nat then stm_undef
          else mret (fault_msg OP_HEALTH_FAULT_STATUS test_id company_id faults)
      end
  end.

(** Into a message of [size] bytes; with the number of faults. *)
Definition health_get_current (size : nat) : H (bytes * Z) :=
  if decide (size < 4)%nat then stm_undef
  else
    with_srv ;;
    s <- stm_get ;;
    let none := (fault_msg OP_HEALTH_CURRENT_STATUS HEALTH_TEST_STANDARD h_cid [], 0) in
    match fault_get_cur with
    | None => mret none
    | Some get =>
        match get (hl_app s) (u8 (Z.of_nat size - 4)) with
        | inl _ => mret none
        | inr (test_id, company_id, faults) =>
            if decide (size - 4 < length faults)%nat then stm_undef
            else mret (fault_msg OP_HEALTH_CURRENT_STATUS test_id company_id faults, Z.of_nat (length faults))
        end
    end.

Definition send_registered (ctx : msg_ctx) (company_id : Z) : H unit :=
  msg <- health_get_registered company_id ;; h_send ctx BT_MESH_TX_SDU_MAX msg.

Definition health_fault_get (ctx : msg_ctx) (buf : bytes) : H unit :=
  p <- pull_le16 buf ;; send_registered ctx p.1.

Definition clear_faults (company_id : Z) : H unit :=
  with_srv ;; match fault_clear with Some clear => mod_app (fun a => clear a company_id) | None => mret tt end.
Definition health_fault_clear_unrel (ctx : msg_ctx) (buf : bytes) : H unit :=
  p <- pull_le16 buf ;; clear_faults p.1.
Definition health_fault_clear (ctx : msg_ctx) (buf : bytes) : H unit :=
  p <- pull_le16 buf ;; clear_faults p.1 ;; send_registered ctx p.1.

Definition test_faults (test_id company_id : Z) : H Z :=
  with_srv ;;
  match fault_test with
  | Some test => s <- stm_get ;; let '(err, a) := test (hl_app s) test_id company_id in mod_app (fun _ => a) ;; mret err
  | None => mret 0
  end.
Definition health_fault_test_unrel (ctx : msg_ctx) (buf : bytes) : H unit :=
  p <- pull_u8 buf ;; let '(test_id, buf) := p in
  p <- pull_le16 buf ;; test_faults test_id p.1 ;; mret tt.
(** No answer when the test fails. *)
Definition health_fault_test (ctx : msg_ctx) (buf : bytes) : H unit :=
  p <- pull_u8 buf ;; let '(test_id, buf) := p in
  p <- pull_le16 buf ;;
  err <- test_faults test_id p.1 ;;
  if negb (err =? 0) then mret tt else send_registered ctx p.1.

(** ** Attention *)

Definition submit_attn (delay : Z) : H unit :=
  stm_modify (fun s => s <| hl_attn_timer := mk_work true (u32 (hl_now s)) (u32 delay) |>).
Definition cancel_attn : H unit :=
  stm_modify (fun s => s <| hl_attn_timer := ((hl_attn_timer s) <| wk_timeout := 0 |>) <| wk_pending := false |> |>).

(** [model] is whether the caller names the model; without one it is the
    primary element's. *)
Definition bt_mesh_attention (model : bool) (time : Z) : H unit :=
  s <- stm_get ;;
  if negb model && negb (hl_primary s) then mret tt
  else
    with_srv ;;
    if negb (time =? 0) then
      (if cb_attn_on then stm_emit [HAttnOn] else mret tt) ;;
      submit_attn (time * 1000)
    else
      cancel_attn ;;
      if cb_attn_off then stm_emit [HAttnOff] else mret tt.

Definition attention_off_cb : H unit := with_srv ;; if cb_attn_off then stm_emit [HAttnOff] else mret tt.

Definition send_attention_status (ctx : msg_ctx) : H unit :=
  with_srv ;;
  s <- stm_get ;;
  let time := u8 (k_delayed_work_remaining_get (hl_now s) (hl_attn_timer s) / 1000) in
  h_send ctx (2 + 1 + 4) (bt_mesh_model_msg_init OP_ATTENTION_STATUS ++ [time]).
Definition attention_get (ctx : msg_ctx) (buf : bytes) : H unit := send_attention_status ctx.
Definition attention_set_unrel (ctx : msg_ctx) (buf : bytes) : H unit :=
  p <- pull_u8 buf ;; bt_mesh_attention true p.1.
Definition attention_set (ctx : msg_ctx) (buf : bytes) : H unit :=
  attention_set_unrel ctx buf ;; send_attention_status ctx.

(** ** Period *)

Definition send_health_period_status (ctx : msg_ctx) : H unit :=
  s <- stm_get ;;
  p <- stm_of_option (hl_pub s) ;;
  h_send ctx (2 + 1 + 4) (bt_mesh_model_msg_init OP_HEALTH_PERIOD_STATUS ++ [u8 p.1.1]).
Definition health_period_get (ctx : msg_ctx) (buf : bytes) : H unit := send_health_period_status ctx.

Definition set_period_div (div : Z) : H unit :=
  s <- stm_get ;;
  p <- stm_of_option (hl_pub s) ;;
  stm_modify (fun s => s <| hl_pub := Some (div, p.1.2, p.2) |>).
Definition health_period_set_unrel (ctx : msg_ctx) (buf : bytes) : H unit :=
  p <- pull_u8 buf ;;
  if 15 <? p.1 then mret tt
  else set_period_div p.1 ;; stm_modify (fun s => s <| hl_fast_period_div := p.1 |>).
Definition health_period_set (ctx : msg_ctx) (buf : bytes) : H unit :=
  health_period_set_unrel ctx buf ;; send_health_period_status ctx.

(** ** The operations *)

Definition bt_mesh_health_srv_op : list (Z * nat * (msg_ctx -> bytes -> H unit)) :=
  [ (OP_HEALTH_FAULT_GET, 2%nat, health_fault_get);
    (OP_HEALTH_FAULT_CLEAR, 2%nat, health_fault_clear);
    (OP_HEALTH_FAULT_CLEAR_UNREL, 2%nat, health_fault_clear_unrel);
    (OP_HEALTH_FAULT_TEST, 3%nat, health_fault_test);
    (OP_HEALTH_FAULT_TEST_UNREL, 3%nat, health_fault_test_unrel);
    (OP_HEALTH_PERIOD_GET, 0%nat, health_period_get);
    (OP_HEALTH_PERIOD_SET, 1%nat, health_period_set);
    (OP_HEALTH_PERIOD_SET_UNREL, 1%nat, health_period_set_unrel);
    (OP_ATTENTION_GET, 0%nat, attention_get);
    (OP_ATTENTION_SET, 1%nat, attention_set);
    (OP_ATTENTION_SET_UNREL, 1%nat, attention_set_unrel) ].

(** What the access layer does with a message for the server. *)
Definition health_srv_recv (opcode : Z) (ctx : msg_ctx) (buf : bytes) : H unit :=
  match List.find (fun op => op.1.1 =? opcode) bt_mesh_health_srv_op with
  | None => mret tt
  | Some (_, min_len, func) => if decide (length buf < min_len)%nat then mret tt else func ctx buf
  end.

(** The update of the publication: the divisor is that of the last request while
    there are faults, else 0. *)
Definition health_pub_update : H Z :=
  s <- stm_get ;;
  p <- stm_of_option (hl_pub s) ;;
  c <- health_get_current p.1.2 ;;
  stm_modify (fun s => s <| hl_pub := Some (if c.2 =? 0 then 0 else hl_fast_period_div s, p.1.2, c.1) |>) ;;
  mret 0.

(** [model] is whether the element has a Health Server. *)
Definition bt_mesh_fault_update (model : bool) : H Z := mret (if model then h_publish else - EINVAL).

Definition bt_mesh_health_srv_init (primary : bool) : H Z :=
  s <- stm_get ;;
  if negb (hl_data s) then mret (if primary then - EINVAL else 0)
  else
    match hl_pub s with
    | None => mret (- EINVAL)
    | Some _ =>
        stm_modify (fun s =>
          let s := (s <| hl_update := true |>) <| hl_attn_timer := idle_work |> in
          let s := s <| hl_model := true |> in
          if primary then s <| hl_primary := true |> else s) ;;
        mret 0
    end.

(** ** Answers fit *)

(** A callback returns at most as many faults as it has room for, and faults are
    bytes. *)
Class HealthLaws := {
  get_cur_fits : forall get a room t c faults, fault_get_cur = Some get -> get a room = inr (t, c, faults) -> 0 <= room -> Z.of_nat (length faults) <= room;
  get_reg_fits : forall get a c room t faults, fault_get_reg = Some get -> get a c room = inr (t, faults) -> 0 <= room -> Z.of_nat (length faults) <= room;
  get_reg_bytes : forall get a c room t faults, fault_get_reg = Some get -> get a c room = inr (t, faults) -> is_bytes faults
}.

(** A server that has been initialised. *)
Record health_wf (s : health) : Prop := {
  hw_data : hl_data s = true;
  hw_pub : exists div size msg, hl_pub s = Some (div, size, msg) /\ (4 <= size)%nat /\ 0 <= div <= 15;
  hw_fast : 0 <= hl_fast_period_div s <= 15
}.
Definition h_room_ok (ev : health_event) : Prop := match ev with HSend _ _ room => 4 <= room | _ => True end.
Definition h_good {T} (m : H T) (Q : T -> health -> Prop) (s : health) : Prop :=
  stm_wp m (fun a s' e => health_wf s' /\ Forall h_room_ok e /\ Q a s') s.

Section answers.
Context {laws : HealthLaws}.

Lemma h_intro {T} (m : H T) (Q : T -> health -> Prop) s a s' e : m s = Some (a, s', e) -> health_wf s' -> Forall h_room_ok e -> Q a s' ->
  h_good m Q s.
Proof. intros Hm Hw He HQ. unfold h_good, stm_wp. by rewrite Hm. Qed.
Lemma h_bind {T U} (m : H T) (f : T -> H U) P Q s :
  h_good m P s -> (forall a s1, health_wf s1 -> P a s1 -> h_good (f a) Q s1) -> h_good (stm_bind m f) Q s.
Proof.
  intros Hm Hf. eapply wp_call; [exact Hm|]. intros a s1 e1 (Hw & He & HP). eapply wp_mono; [by apply Hf|].
  intros b s2 e2 (Hw2 & He2 & HQ). split; [done|]. split; [by apply Forall_app|done].
Qed.
Lemma h_ret {T} (a : T) (Q : T -> health -> Prop) s : health_wf s -> Q a s -> h_good (mret a) Q s.
Proof. intros. by eapply h_intro. Qed.
Lemma h_get {T} (f : health -> H T) Q s : h_good (f s) Q s -> h_good (stm_bind stm_get f) Q s.
Proof. unfold h_good. intros H. apply wp_bind, wp_get. exact H. Qed.
Lemma h_srv {T} (k : unit -> H T) Q s : health_wf s -> h_good (k tt) Q s -> h_good (stm_bind with_srv k) Q s.
Proof. intros Hw H. unfold h_good, stm_wp. rewrite (stm_bind_pure _ _ s tt s); [exact H|]. cbn. by rewrite (hw_data _ Hw). Qed.
Lemma h_modify f (Q : unit -> health -> Prop) s : health_wf (f s) -> Q tt (f s) -> h_good (stm_modify f) Q s.
Proof. intros. by eapply h_intro. Qed.
Lemma h_emit e (Q : unit -> health -> Prop) s : health_wf s -> Forall h_room_ok e -> Q tt s -> h_good (stm_emit e) Q s.
Proof. intros. by eapply h_intro. Qed.
Lemma h_pull_le16 {T} buf (f : Z * bytes -> H T) Q s : (2 <= length buf)%nat ->
  h_good (f (sys_get_le16 buf, drop 2 buf)) Q s -> h_good (stm_bind (pull_le16 buf) f) Q s.
Proof. intros Hl H. unfold h_good, stm_wp, pull_le16. rewrite decide_False by lia. by rewrite (stm_bind_pure _ _ s (sys_get_le16 buf, drop 2 buf) s). Qed.
Lemma h_pull_u8 {T} buf (f : Z * bytes -> H T) Q s : (1 <= length buf)%nat ->
  (forall b rest, buf = b :: rest -> h_good (f (b, rest)) Q s) -> h_good (stm_bind (pull_u8 buf) f) Q s.
Proof. intros Hl H. destruct buf as [|b rest]; [cbn in Hl; lia|]. unfold h_good, stm_wp. rewrite (stm_bind_pure _ _ s (b, rest) s) by done.
  exact (H b rest eq_refl).
Qed.
Lemma h_mono {T} (m : H T) (P Q : T -> health -> Prop) s : h_good m P s -> (forall a s', P a s' -> Q a s') -> h_good m Q s.
Proof. intros H HPQ. eapply wp_mono; [exact H|]. intros a s' e (? & ? & ?). auto. Qed.
Lemma h_send_ok ctx cap msg s : health_wf s -> (length msg + 4 <= cap)%nat -> h_good (h_send ctx cap msg) (fun _ _ => True) s.
Proof.
  intros Hw Hl. unfold h_send. rewrite decide_False by lia. apply h_emit; [done| |done]. constructor; [cbn; lia|constructor].
Qed.
Lemma sdu_max : BT_MESH_TX_SDU_MAX = 108%nat.
Proof. done. Qed.
Lemma fault_msg_len op t c faults : 0 <= op < 0x100 -> length (fault_msg op t c faults) = (4 + length faults)%nat.
Proof. intros Hop. unfold fault_msg, bt_mesh_model_msg_init. destruct (Z.ltb_spec op 0x100); [|lia]. cbn. lia. Qed.

Lemma registered_ok ctx c s : health_wf s -> h_good (send_registered ctx c) (fun _ _ => True) s.
Proof.
  intros Hw. unfold send_registered.
  apply h_bind with (P := fun msg _ => (length msg <= BT_MESH_TX_SDU_MAX - 4)%nat).
  - unfold health_get_registered. apply h_srv; [done|]. apply h_get. destruct fault_get_reg as [get|] eqn:Hget.
    2:{ apply h_ret; [done|]. rewrite fault_msg_len by done. rewrite sdu_max. cbn. lia. }
    destruct (get _ _ _) as [err|[t faults]] eqn:Hr.
    + apply h_ret; [done|]. rewrite fault_msg_len by done. rewrite sdu_max. cbn. lia.
    + pose proof (get_reg_fits _ _ _ _ _ _ Hget Hr) as Hl. rewrite sdu_max in Hl |- *. change (u8 _) with 100 in Hl.
      specialize (Hl ltac:(lia)). rewrite decide_False by lia. apply h_ret; [done|]. rewrite fault_msg_len by done. lia.
  - intros msg s1 Hw1 Hl. apply h_send_ok; [done|]. pose proof sdu_max. lia.
Qed.

Lemma clear_faults_ok c s : health_wf s -> h_good (clear_faults c) (fun _ _ => True) s.
Proof.
  intros Hw. unfold clear_faults. apply h_srv; [done|]. destruct fault_clear; [|by apply h_ret]. apply h_modify; [by destruct Hw|done].
Qed.
Lemma test_faults_ok t c s : health_wf s -> h_good (test_faults t c) (fun _ _ => True) s.
Proof.
  intros Hw. unfold test_faults. apply h_srv; [done|]. destruct fault_test as [test|]; [|by apply h_ret]. apply h_get.
  destruct (test _ _ _) as [err a]. apply h_bind with (P := fun _ _ => True); [by apply h_modify; [destruct Hw|]|].
  intros _ s1 Hw1 _. by apply h_ret.
Qed.
Lemma attention_ok m t s : health_wf s -> h_good (bt_mesh_attention m t) (fun _ _ => True) s.
Proof.
  intros Hw. unfold bt_mesh_attention. apply h_get. case_if; [by apply h_ret|]. apply h_srv; [done|]. case_if.
  - apply h_bind with (P := fun _ _ => True).
    + destruct cb_attn_on; [by apply h_emit; [done|repeat constructor|]|by apply h_ret].
    + intros _ s1 Hw1 _. by apply h_modify; [destruct Hw1|].
  - apply h_bind with (P := fun _ _ => True); [by apply h_modify; [destruct Hw|]|]. intros _ s1 Hw1 _.
    destruct cb_attn_off; [by apply h_emit; [done|repeat constructor|]|by apply h_ret].
Qed.
Lemma attention_status_ok ctx s : health_wf s -> h_good (send_attention_status ctx) (fun _ _ => True) s.
Proof. intros Hw. unfold send_attention_status. apply h_srv; [done|]. apply h_get. apply h_send_ok; [done|cbn; lia]. Qed.
Lemma h_pub_bind {T} (f : Z * nat * bytes -> H T) Q s : health_wf s ->
  (forall div size msg, hl_pub s = Some (div, size, msg) -> (4 <= size)%nat -> h_good (f (div, size, msg)) Q s) ->
  h_good (p <- stm_of_option (hl_pub s) ;; f p) Q s.
Proof.
  intros Hw H. destruct (hw_pub _ Hw) as (div & size & msg & Hp & Hs & _). rewrite Hp. unfold h_good, stm_wp.
  rewrite (stm_bind_pure _ _ s (div, size, msg) s) by done. by apply H.
Qed.
Lemma period_status_ok ctx s : health_wf s -> h_good (send_health_period_status ctx) (fun _ _ => True) s.
Proof.
  intros Hw. unfold send_health_period_status. apply h_get, h_pub_bind; [done|]. intros div size msg _ _.
  apply h_send_ok; [done|cbn; lia].
Qed.
Lemma period_set_ok ctx buf s : health_wf s -> is_bytes buf -> (1 <= length buf)%nat ->
  h_good (health_period_set_unrel ctx buf) (fun _ _ => True) s.
Proof.
  intros Hw Hb Hl. unfold health_period_set_unrel. apply h_pull_u8; [done|]. intros b rest ->. cbn [fst].
  destruct (Z.ltb_spec 15 b); [by apply h_ret|]. apply Forall_cons_iff in Hb as [Hb _]. unfold is_byte in Hb.
  apply h_bind with (P := fun _ _ => True).
  - unfold set_period_div. apply h_get, h_pub_bind; [done|]. intros div size msg Hp Hs. apply h_modify; [|done].
    destruct Hw. split; [done| |done]. cbn. exists b, size, msg. split_and!; (done || lia).
  - intros _ s1 Hw1 _. apply h_modify; [|done]. destruct Hw1. split; [done|done|]. cbn. lia.
Qed.

Lemma h_tt {T} (m : H T) s : h_good m (fun _ _ => True) s -> h_good (stm_bind m (fun _ => mret tt)) (fun _ _ => True) s.
Proof. intros Hm. eapply h_bind; [exact Hm|]. intros a s1 Hw1 _. by apply h_ret. Qed.

(** The Health Server is safe. On every message it is defined, every answer
    leaves the four bytes that the transport layer needs for its MIC, and the
    divisors stay in their range. *)
Theorem health_srv_safe opcode ctx buf s : health_wf s -> is_bytes buf ->
  h_good (health_srv_recv opcode ctx buf) (fun _ _ => True) s.
Proof.
  intros Hw Hb. unfold health_srv_recv. destruct (List.find _ _) as [[[op len] func]|] eqn:Hf; [|by apply h_ret].
  destruct (decide (length buf < len)%nat) as [|Hl]; [by apply h_ret|]. apply find_some in Hf as [Hin _].
  cbn in Hin. repeat (destruct Hin as [Hin|Hin]; [injection Hin as <- <- <-|]); [..|done].
  - apply h_pull_le16; [lia|]. by apply registered_ok.
  - apply h_pull_le16; [lia|]. eapply h_bind; [by apply clear_faults_ok|]. intros _ s1 Hw1 _. by apply registered_ok.
  - apply h_pull_le16; [lia|]. by apply clear_faults_ok.
  - apply h_pull_u8; [lia|]. intros t rest ->. apply h_pull_le16; [cbn in Hl; lia|].
    eapply h_bind; [by apply test_faults_ok|]. intros err s1 Hw1 _. case_if; [by apply h_ret|by apply registered_ok].
  - apply h_pull_u8; [lia|]. intros t rest ->. apply h_pull_le16; [cbn in Hl; lia|]. apply h_tt. by apply test_faults_ok.
  - by apply period_status_ok.
  - eapply h_bind; [apply period_set_ok; (done || lia)|]. intros _ s1 Hw1 _. by apply period_status_ok.
  - apply period_set_ok; (done || lia).
  - by apply attention_status_ok.
  - eapply h_bind; [|intros _ s1 Hw1 _; by apply attention_status_ok].
    apply h_pull_u8; [lia|]. intros t rest _. by apply attention_ok.
  - apply h_pull_u8; [lia|]. intros t rest _. by apply attention_ok.
Qed.

(** The update of the publication fits its buffer too, and publishes at the
    divisor asked for only while there are faults. *)
Theorem health_pub_update_ok s : health_wf s ->
  h_good health_pub_update (fun err s' => err = 0 /\ exists div size msg, hl_pub s' = Some (div, size, msg) /\
    (length msg <= size)%nat /\ div = if decide (length msg <= 4)%nat then 0 else hl_fast_period_div s') s.
Proof.
  intros Hw. unfold health_pub_update. apply h_get, h_pub_bind; [done|]. intros div size msg Hp Hs. cbn [fst snd].
  apply h_bind with (P := fun c s1 => (4 <= length c.1)%nat /\ (length c.1 <= size)%nat /\ c.2 = Z.of_nat (length c.1) - 4).
  - unfold health_get_current. rewrite decide_False by lia. apply h_srv; [done|]. apply h_get.
    destruct fault_get_cur as [get|] eqn:Hget; [|apply h_ret; [done|cbn; lia]].
    destruct (get _ _) as [err|[[t c] faults]] eqn:Hr; [apply h_ret; [done|cbn; lia]|].
    pose proof (get_cur_fits _ _ _ _ _ _ Hget Hr) as Hl.
    assert (u8 (Z.of_nat size - 4) <= Z.of_nat size - 4) by (unfold u8; apply Z.mod_le; lia).
    specialize (Hl ltac:(pose proof (u8_byte (Z.of_nat size - 4)) as Hb; unfold is_byte in Hb; lia)).
    rewrite decide_False by lia. apply h_ret; [done|]. cbn [fst snd]. rewrite fault_msg_len by done. lia.
  - intros [cur n] s1 Hw1 (Hc1 & Hc2 & Hn). cbn [fst snd] in *. eapply h_bind with (P := fun _ s2 => hl_pub s2 = Some (if n =? 0 then 0 else hl_fast_period_div s2, size, cur)).
    + apply h_modify; [|done]. destruct Hw1 as [? ? Hfast]. split; [done| |done]. cbn. eexists _, _, _. split; [done|].
      split; [done|]. destruct (n =? 0); lia.
    + intros _ s2 Hw2 Hp2. apply h_ret; [done|]. split; [done|]. eexists _, _, _. split; [exact Hp2|]. split; [done|].
      destruct (Z.eqb_spec n 0), (decide _) as [?|?]; try lia; done.
Qed.
End answers.

(** ** Attention and period *)

Lemma s32_u32 x : - 2147483648 <= x < 2147483648 -> s32 (u32 x) = x.
Proof. intros Hx. unfold s32, u32. destruct (Z.ltb_spec (x mod 4294967296) 2147483648); word_lia. Qed.

(** The attention timer counts down: [d] milliseconds after it was set to [t]
    seconds the answer is what is left, in whole seconds, and 0 after it has run
    out, for 24 days. *)
Theorem attention_counts_down ctx ctx' t d s : hl_data s = true -> 0 < t < 256 -> 0 <= d < 2147483648 ->
  exists s1 e1, attention_set_unrel ctx [t] s = Some (tt, s1, e1) /\
    attention_get ctx' [] (s1 <| hl_now := hl_now s + d |>) =
      Some (tt, s1 <| hl_now := hl_now s + d |>,
        [HSend ctx' (bt_mesh_model_msg_init OP_ATTENTION_STATUS ++ [Z.max 0 (t * 1000 - d) / 1000]) 4]).
Proof.
  intros Hd Ht Hdd.
  assert (exists e1, attention_set_unrel ctx [t] s =
    Some (tt, s <| hl_attn_timer := mk_work true (u32 (hl_now s)) (u32 (t * 1000)) |>, e1)) as [e1 Hrun].
  { unfold attention_set_unrel. rewrite (stm_bind_pure _ _ s (t, []) s) by done. cbn [fst]. unfold bt_mesh_attention.
    rewrite (stm_bind_pure _ _ s s s) by done. cbn [negb andb]. rewrite (stm_bind_pure _ _ s tt s) by (cbn; by rewrite Hd).
    rewrite (proj2 (Z.eqb_neq t 0)) by lia. cbn [negb]. by destruct cb_attn_on; eexists. }
  eexists _, e1. split; [exact Hrun|]. unfold attention_get, send_attention_status.
  set (s2 := _ <| hl_now := _ |>). assert (hl_data s2 = true) as Hd2 by (by destruct s).
  rewrite (stm_bind_pure _ _ s2 tt s2) by (cbn [with_srv stm_bind]; unfold with_srv, stm_bind, stm_get; by rewrite Hd2).
  rewrite (stm_bind_pure _ _ s2 s2 s2) by done.
  assert (k_delayed_work_remaining_get (hl_now s2) (hl_attn_timer s2) = Z.max 0 (t * 1000 - d)) as ->.
  { replace (hl_now s2) with (hl_now s + d) by (by destruct s).
    replace (hl_attn_timer s2) with (mk_work true (u32 (hl_now s)) (u32 (t * 1000))) by (by destruct s).
    unfold k_delayed_work_remaining_get. cbn [wk_timeout wk_start_ms].
    replace (u32 (u32 (hl_now s + d) - u32 (hl_now s))) with d by (unfold u32; word_lia).
    replace (u32 (t * 1000)) with (t * 1000) by (unfold u32; word_lia). rewrite s32_u32 by lia. cbv zeta.
    destruct (Z.ltb_spec (t * 1000 - d) 0); lia. }
  rewrite u8_id by (unfold is_byte; split; [apply Z.div_pos; lia|apply Z.div_lt_upper_bound; lia]). done.
Qed.

(** The divisor that was set is lost to its readers with the next publication
    without faults: the answer to a Health Period Get is then 0. *)
Theorem period_lost ctx ctx' p0 div size msg s : hl_data s = true -> hl_pub s = Some (p0, size, msg) -> (4 <= size)%nat ->
  fault_get_cur = None -> 0 <= div <= 15 -> exists s' e,
  (health_period_set ctx [div] ;; health_pub_update ;; health_period_get ctx' []) s = Some (tt, s', e) /\
  e = [HSend ctx (bt_mesh_model_msg_init OP_HEALTH_PERIOD_STATUS ++ [div]) 4;
       HSend ctx' (bt_mesh_model_msg_init OP_HEALTH_PERIOD_STATUS ++ [0]) 4] /\ hl_fast_period_div s' = div.
Proof.
  intros Hd Hp Hs Hcur Hdiv. destruct s as [app data mdl pub upd prim fast timer now]. cbn in Hd, Hp. subst.
  set (state := fun d f m => mk_health app true mdl (Some (d, size, m)) upd prim f timer now).
  assert (health_period_set ctx [div] (state p0 fast msg) = Some (tt, state div div msg,
    [HSend ctx (bt_mesh_model_msg_init OP_HEALTH_PERIOD_STATUS ++ [div]) 4])) as H1.
  { unfold health_period_set, health_period_set_unrel. rewrite stm_bind_assoc, (stm_bind_pure _ _ _ (div, []) (state p0 fast msg)) by done.
    cbn [fst]. rewrite (proj2 (Z.ltb_ge 15 div)) by lia.
    rewrite (stm_bind_pure _ _ _ tt (state div div msg)) by done. unfold send_health_period_status, state.
    unfold stm_bind, stm_get. cbn [hl_pub stm_of_option]. unfold mret, stm_mret. cbn [fst].
    by rewrite u8_id by (unfold is_byte; lia). }
  assert (exists m, health_pub_update (state div div msg) = Some (0, state 0 div m, [])) as [m H2].
  { eexists. unfold health_pub_update. rewrite (stm_bind_pure _ _ _ (state div div msg) (state div div msg)) by done.
    rewrite (stm_bind_pure _ _ _ (div, size, msg) (state div div msg)) by done. cbn [fst snd].
    unfold health_get_current. rewrite decide_False, Hcur by lia. done. }
  exists (state 0 div m). eexists. split; [|done]. unfold stm_bind at 1 2. fold (state p0 fast msg). rewrite H1, H2. done.
Qed.
End health.
#[global] Arguments HealthEnv : clear implicits.
#[global] Arguments health : clear implicits.
