(* ===== verification/HealthCli.v ===== *)
(** * The Health Client (bt_mesh/src/health_cli.c)

    Its requests and handlers, and the client together with the Health Server: a
    call is answered with the state of the server after the operation it names. *)

From S2P Require Import Prelude NetBuf Cmac Ccm MeshCrypto NetState NetIv Work TransState TransTx Access Beacon Proxy CfgState MsgRead HealthSrv.

(** ** State *)

(** What [op_param] points to: the company, the test identifier that the answer
    has to repeat, whether there is a pointer for it, and the room for faults
    ([*fault_count]). *)
Inductive health_param :=
| PFault (cid : Z) (expect_test_id : option Z) (test_id : bool) (fault_count : nat)
| PPeriod
| PAttention.

(** What the call's pointers are given. *)
Record health_out := mk_health_out { ho_test_id : option Z; ho_faults : option bytes; ho_divisor : option Z; ho_attention : option Z }.
#[export] Instance health_out_settable : Settable health_out.
Proof. settable (fun o => mk_health_out (ho_test_id o) (ho_faults o) (ho_divisor o) (ho_attention o)). Defined.
Definition no_health_out : health_out := mk_health_out None None None None.

(** [struct bt_mesh_health_cli] with the outputs of the call that waits; [hc_used]
    is whether [health_cli] points to it, [hc_current] whether it has the callback
    [current_status]. *)
Record health_cli := mk_health_cli {
  hc_used : bool;
  hc_model : bool;
  hc_current : bool;
  hc_sync : nat;
  hc_pending : Z;
  hc_param : option health_param;
  hc_out : health_out;
  hc_timeout : Z
}.
#[export] Instance health_cli_settable : Settable health_cli.
Proof.
  settable (fun c => mk_health_cli (hc_used c) (hc_model c) (hc_current c) (hc_sync c) (hc_pending c) (hc_param c) (hc_out c) (hc_timeout c)).
Defined.

Inductive health_cli_event :=
| HcSend (ctx : msg_ctx) (msg : bytes) (room : Z)
| HcCurrent (addr test_id cid : Z) (faults : bytes).
Abbreviation C := (stm health_cli health_cli_event).

Class HealthCliEnv := {
  (** [bt_mesh_model_send]; [k_sem_take] when the time is over. *)
  hc_send_err : msg_ctx -> bytes -> Z;
  hc_timeout_err : Z
}.

Definition set_hout (f : health_out -> health_out) : C unit := stm_modify (fun c => c <| hc_out := f (hc_out c) |>).
Definition hc_give : C unit := stm_modify (fun c => c <| hc_sync := S (hc_sync c) |>).

(** ** Answers *)

Definition hc_expecting (op : Z) (body : health_param -> C unit) : C unit :=
  c <- stm_get ;;
  if negb (hc_used c) then stm_undef
  else if negb (hc_pending c =? op) then mret tt
  else param <- stm_of_option (hc_param c) ;; body param.

(** Faults that there is no room for are left out. *)
Definition health_fault_status (ctx : msg_ctx) (buf : bytes) : C unit :=
  hc_expecting OP_HEALTH_FAULT_STATUS (fun param =>
    match param with
    | PFault want expect ptr count =>
        p <- pull_u8 buf ;; let '(test_id, buf) := p in
        if from_option (fun x => negb (x =? test_id)) false expect then mret tt
        else
          p <- pull_le16 buf ;; let '(cid, buf) := p in
          if negb (cid =? want) then mret tt
          else
            (if ptr : bool then set_hout (fun o => o <| ho_test_id := Some test_id |>) else mret tt) ;;
            let count := if decide (count < length buf)%nat then count else length buf in
            set_hout (fun o => o <| ho_faults := Some (take count buf) |>) ;;
            hc_give
    | _ => stm_undef
    end).
Definition health_current_status (ctx : msg_ctx) (buf : bytes) : C unit :=
  p <- pull_u8 buf ;; let '(test_id, buf) := p in
  p <- pull_le16 buf ;; let '(cid, buf) := p in
  c <- stm_get ;;
  if negb (hc_current c) then mret tt else stm_emit [HcCurrent (ctx_addr ctx) test_id cid buf].
Definition health_period_status (ctx : msg_ctx) (buf : bytes) : C unit :=
  hc_expecting OP_HEALTH_PERIOD_STATUS (fun param =>
    match param with
    | PPeriod => p <- pull_u8 buf ;; set_hout (fun o => o <| ho_divisor := Some p.1 |>) ;; hc_give
    | _ => stm_undef
    end).
Definition health_attention_status (ctx : msg_ctx) (buf : bytes) : C unit :=
  hc_expecting OP_ATTENTION_STATUS (fun param =>
    match param with
    | PAttention => p <- pull_u8 buf ;; set_hout (fun o => o <| ho_attention := Some p.1 |>) ;; hc_give
    | _ => stm_undef
    end).

Definition bt_mesh_health_cli_op : list (Z * nat * (msg_ctx -> bytes -> C unit)) :=
  [ (OP_HEALTH_FAULT_STATUS, 3%nat, health_fault_status);
    (OP_HEALTH_CURRENT_STATUS, 3%nat, health_current_status);
    (OP_HEALTH_PERIOD_STATUS, 1%nat, health_period_status);
    (OP_ATTENTION_STATUS, 1%nat, health_attention_status) ].

(** What the access layer does with a message for the client. *)
Definition health_cli_recv (opcode : Z) (ctx : msg_ctx) (buf : bytes) : C unit :=
  match List.find (fun op => op.1.1 =? opcode) bt_mesh_health_cli_op with
  | None => mret tt
  | Some (_, min_len, func) => if decide (length buf < min_len)%nat then mret tt else func ctx buf
  end.

(** ** Requests *)

Section requests.
Context {henv : HealthCliEnv}.

(** [Some err] when the call has returned, [None] while it waits. *)
Definition hc_check : C Z :=
  c <- stm_get ;;
  mret (if negb (hc_used c) then - EINVAL else if negb (hc_pending c =? 0) then - EBUSY else 0).
Definition hc_wait (param : health_param) (op : Z) : C (option Z) :=
  stm_modify (fun c => (c <| hc_param := Some param |>) <| hc_pending := op |>) ;; mret None.
Definition hc_done : C Z :=
  c <- stm_get ;;
  let taken := negb (hc_sync c =? 0)%nat in
  stm_modify (fun c => (((c <| hc_sync := Nat.pred (hc_sync c) |>) <| hc_pending := 0 |>) <| hc_param := None |>)) ;;
  mret (if taken then 0 else hc_timeout_err).

Definition hc_ctx (net_idx addr app_idx : Z) : msg_ctx := mk_ctx net_idx app_idx addr 0 BT_MESH_TTL_DEFAULT false.
(** Every request: the check, the message in a buffer of [cap] bytes and, if an
    answer is wanted, the wait. *)
Definition hc_request (net_idx addr app_idx : Z) (cap : nat) (msg : bytes) (wait : bool) (param : health_param) (op : Z)
    : C (option Z) :=
  err <- hc_check ;;
  if negb (err =? 0) then mret (Some err)
  else if decide (cap < length msg)%nat then stm_undef
  else
    let ctx := hc_ctx net_idx addr app_idx in
    stm_emit [HcSend ctx msg (Z.of_nat cap - Z.of_nat (length msg))] ;;
    let err := hc_send_err ctx msg in
    if negb (err =? 0) then mret (Some err)
    else if negb wait then mret (Some 0)
    else hc_wait param op.

Definition bt_mesh_health_attention_get (net_idx addr app_idx : Z) : C (option Z) :=
  hc_request net_idx addr app_idx (2 + 0 + 4) (bt_mesh_model_msg_init OP_ATTENTION_GET) true PAttention OP_ATTENTION_STATUS.
Definition bt_mesh_health_attention_set (net_idx addr app_idx attention : Z) (updated : bool) : C (option Z) :=
  hc_request net_idx addr app_idx (2 + 1 + 4)
    (bt_mesh_model_msg_init (if updated then OP_ATTENTION_SET else OP_ATTENTION_SET_UNREL) ++ [u8 attention])
    updated PAttention OP_ATTENTION_STATUS.
Definition bt_mesh_health_period_get (net_idx addr app_idx : Z) : C (option Z) :=
  hc_request net_idx addr app_idx (2 + 0 + 4) (bt_mesh_model_msg_init OP_HEALTH_PERIOD_GET) true PPeriod OP_HEALTH_PERIOD_STATUS.
Definition bt_mesh_health_period_set (net_idx addr app_idx divisor : Z) (updated : bool) : C (option Z) :=
  hc_request net_idx addr app_idx (2 + 1 + 4)
    (bt_mesh_model_msg_init (if updated then OP_HEALTH_PERIOD_SET else OP_HEALTH_PERIOD_SET_UNREL) ++ [u8 divisor])
    updated PPeriod OP_HEALTH_PERIOD_STATUS.
(** [faults] is the room the caller gives, if it gives any. *)
Definition bt_mesh_health_fault_test (net_idx addr app_idx cid test_id : Z) (faults : option nat) : C (option Z) :=
  hc_request net_idx addr app_idx (2 + 3 + 4)
    (bt_mesh_model_msg_init (match faults with Some _ => OP_HEALTH_FAULT_TEST | None => OP_HEALTH_FAULT_TEST_UNREL end) ++
     u8 test_id :: sys_put_le16 cid)
    (bool_decide (is_Some faults)) (PFault cid (Some test_id) false (default 0%nat faults)) OP_HEALTH_FAULT_STATUS.
Definition bt_mesh_health_fault_clear (net_idx addr app_idx cid : Z) (test_id : bool) (count : nat) : C (option Z) :=
  hc_request net_idx addr app_idx (2 + 2 + 4)
    (bt_mesh_model_msg_init (if test_id then OP_HEALTH_FAULT_CLEAR else OP_HEALTH_FAULT_CLEAR_UNREL) ++ sys_put_le16 cid)
    test_id (PFault cid None test_id count) OP_HEALTH_FAULT_STATUS.
Definition bt_mesh_health_fault_get (net_idx addr app_idx cid : Z) (test_id : bool) (count : nat) : C (option Z) :=
  hc_request net_idx addr app_idx (2 + 2 + 4) (bt_mesh_model_msg_init OP_HEALTH_FAULT_GET ++ sys_put_le16 cid)
    true (PFault cid None test_id count) OP_HEALTH_FAULT_STATUS.

Definition bt_mesh_health_cli_timeout_get : C Z := c <- stm_get ;; mret (hc_timeout c).
Definition bt_mesh_health_cli_timeout_set (timeout : Z) : C unit := stm_modify (fun c => c <| hc_timeout := timeout |>).

(** [user_data] is whether the model has this context. *)
Definition bt_mesh_health_cli_set (user_data : bool) : C Z :=
  if negb user_data then mret (- EINVAL) else stm_modify (fun c => c <| hc_used := true |>) ;; mret 0.
Definition bt_mesh_health_cli_init (user_data : bool) : C Z :=
  if negb user_data then mret (- EINVAL)
  else stm_modify (fun c => ((c <| hc_model := true |>) <| hc_sync := 0%nat |>) <| hc_used := true |>) ;; mret 0.
End requests.

(** ** Client and server *)

Inductive health_request :=
| HFaultGet (cid : Z)
| HFaultClear (cid : Z)
| HFaultTest (cid test_id : Z)
| HPeriodGet
| HPeriodSet (divisor : Z)
| HAttnGet
| HAttnSet (time : Z).
Definition health_request_ok (q : health_request) : Prop :=
  match q with
  | HFaultGet cid | HFaultClear cid => 0 <= cid < 65536
  | HFaultTest cid t => 0 <= cid < 65536 /\ is_byte t
  | HPeriodSet v | HAttnSet v => is_byte v
  | _ => True
  end.
(** The call, with room for [n] faults. *)
Definition health_call {henv : HealthCliEnv} (net_idx addr app_idx : Z) (n : nat) (q : health_request) : C (option Z) :=
  match q with
  | HFaultGet cid => bt_mesh_health_fault_get net_idx addr app_idx cid true n
  | HFaultClear cid => bt_mesh_health_fault_clear net_idx addr app_idx cid true n
  | HFaultTest cid t => bt_mesh_health_fault_test net_idx addr app_idx cid t (Some n)
  | HPeriodGet => bt_mesh_health_period_get net_idx addr app_idx
  | HPeriodSet d => bt_mesh_health_period_set net_idx addr app_idx d true
  | HAttnGet => bt_mesh_health_attention_get net_idx addr app_idx
  | HAttnSet t => bt_mesh_health_attention_set net_idx addr app_idx t true
  end.

(** What a request is answered. *)
Inductive health_answer := AFault (test_id : Z) (faults : bytes) | APeriod (divisor : Z) | AAttention (time : Z).

Section pair.
Context {App : Type} {env : HealthEnv App} {laws : HealthLaws (App := App)} {henv : HealthCliEnv}.
Implicit Types (s : health App).

(** The registered faults of a company, with the test that found them. *)
Definition faults_of s (cid : Z) : Z * bytes :=
  match fault_get_reg with
  | None => (HEALTH_TEST_STANDARD, [])
  | Some get => match get (hl_app s) cid (u8 (Z.of_nat BT_MESH_TX_SDU_MAX - 8)) with
                | inl _ => (HEALTH_TEST_STANDARD, [])
                | inr (t, faults) => (u8 t, faults)
                end
  end.
Definition attention_of s : Z := u8 (k_delayed_work_remaining_get (hl_now s) (hl_attn_timer s) / 1000).
Definition divisor_of s : Z := from_option (fun p => u8 p.1.1) 0 (hl_pub s).

(** The operation of the server and its answer; none when a test fails. *)
Definition health_effect (q : health_request) : stm (health App) health_event (option health_answer) :=
  match q with
  | HFaultGet cid => s <- stm_get ;; mret (Some (AFault (faults_of s cid).1 (faults_of s cid).2))
  | HFaultClear cid => clear_faults cid ;; s <- stm_get ;; mret (Some (AFault (faults_of s cid).1 (faults_of s cid).2))
  | HFaultTest cid t =>
      err <- test_faults t cid ;;
      s <- stm_get ;; mret (if negb (err =? 0) then None else Some (AFault (faults_of s cid).1 (faults_of s cid).2))
  | HPeriodGet => s <- stm_get ;; mret (Some (APeriod (divisor_of s)))
  | HPeriodSet d =>
      (if 15 <? d then mret tt else set_period_div d ;; stm_modify (fun s => s <| hl_fast_period_div := d |>)) ;;
      s <- stm_get ;; mret (Some (APeriod (divisor_of s)))
  | HAttnGet => s <- stm_get ;; mret (Some (AAttention (attention_of s)))
  | HAttnSet t => bt_mesh_attention true t ;; s <- stm_get ;; mret (Some (AAttention (attention_of s)))
  end.

(** What the client makes of the answer: the answer to a test has to name it. *)
Definition health_accepts (q : health_request) (a : option health_answer) : bool :=
  match q, a with
  | HFaultTest _ t, Some (AFault t' _) => t' =? t
  | _, Some _ => true
  | _, None => false
  end.
Definition health_told (n : nat) (q : health_request) (a : health_answer) (o : health_out) : health_out :=
  match a with
  | AFault t faults =>
      let o := o <| ho_faults := Some (take n faults) |> in
      match q with HFaultTest _ _ => o | _ => o <| ho_test_id := Some t |> end
  | APeriod d => o <| ho_divisor := Some d |>
  | AAttention t => o <| ho_attention := Some t |>
  end.

Fixpoint health_answer_of (es : list health_event) : option bytes :=
  match es with
  | [] => None
  | HSend _ msg _ :: _ => Some msg
  | _ :: es => health_answer_of es
  end.

(** The call, its message to the server, the answer, if there is one, to the
    client, and the end of the call. *)
Definition health_exchange (net_idx addr app_idx : Z) (n : nat) (q : health_request) (rx : msg_ctx * msg_ctx)
    (c : health_cli) s : option (Z * health_cli * health App) :=
  match health_call net_idx addr app_idx n q c with
  | Some (None, c, [HcSend _ msg _]) =>
      match get_opcode msg with
      | Ok (op, data) =>
          '(_, s, es) ← health_srv_recv op rx.1 data s;
          match health_answer_of es with
          | None => '(err, c, _) ← hc_done c; Some (err, c, s)
          | Some msg =>
              match get_opcode msg with
              | Ok (op, data) => '(err, c, _) ← (health_cli_recv op rx.2 data ;; hc_done) c; Some (err, c, s)
              | _ => None
              end
          end
      | _ => None
      end
  | _ => None
  end.

(** *** Messages *)

Definition hreq_op (q : health_request) : Z :=
  match q with
  | HFaultGet _ => OP_HEALTH_FAULT_GET
  | HFaultClear _ => OP_HEALTH_FAULT_CLEAR
  | HFaultTest _ _ => OP_HEALTH_FAULT_TEST
  | HPeriodGet => OP_HEALTH_PERIOD_GET
  | HPeriodSet _ => OP_HEALTH_PERIOD_SET
  | HAttnGet => OP_ATTENTION_GET
  | HAttnSet _ => OP_ATTENTION_SET
  end.
Definition hreq_data (q : health_request) : bytes :=
  match q with
  | HFaultGet cid | HFaultClear cid => sys_put_le16 cid
  | HFaultTest cid t => u8 t :: sys_put_le16 cid
  | HPeriodSet v | HAttnSet v => [u8 v]
  | _ => []
  end.
Definition hans_op (q : health_request) : Z :=
  match q with
  | HFaultGet _ | HFaultClear _ | HFaultTest _ _ => OP_HEALTH_FAULT_STATUS
  | HPeriodGet | HPeriodSet _ => OP_HEALTH_PERIOD_STATUS
  | _ => OP_ATTENTION_STATUS
  end.
Definition req_cid (q : health_request) : Z :=
  match q with HFaultGet cid | HFaultClear cid | HFaultTest cid _ => cid | _ => 0 end.
Definition hans_data (q : health_request) (a : health_answer) : bytes :=
  match a with
  | AFault t faults => u8 t :: sys_put_le16 (req_cid q) ++ faults
  | APeriod v | AAttention v => [u8 v]
  end.
(** The answer is of the kind the request asks for. *)
Definition answers_kind (q : health_request) (a : health_answer) : Prop :=
  match q, a with
  | (HFaultGet _ | HFaultClear _ | HFaultTest _ _), AFault t fs => is_byte t /\ is_bytes fs
  | (HPeriodGet | HPeriodSet _), APeriod v | (HAttnGet | HAttnSet _), AAttention v => is_byte v
  | _, _ => False
  end.

(** *** The server *)

Definition not_hsend (ev : health_event) : Prop := match ev with HSend _ _ _ => False | _ => True end.

Lemma faults_of_fits s cid : is_byte (faults_of s cid).1 /\ is_bytes (faults_of s cid).2 /\ (length (faults_of s cid).2 <= 100)%nat.
Proof.
  unfold faults_of. assert (is_byte HEALTH_TEST_STANDARD /\ is_bytes [] /\ (0 <= 100)%nat) as H0 by (split; [done|split; [constructor|lia]]).
  destruct fault_get_reg as [get|] eqn:Hg; [|done]. destruct (get _ _ _) as [err|[t fs]] eqn:Hr; [done|]. cbn [fst snd].
  pose proof (get_reg_fits _ _ _ _ _ _ Hg Hr) as Hl. change (u8 _) with 100 in Hl. specialize (Hl ltac:(lia)).
  split; [apply u8_byte|]. split; [by eapply get_reg_bytes|lia].
Qed.
Lemma send_registered_run ctx cid s : hl_data s = true ->
  send_registered ctx cid s = Some (tt, s, [HSend ctx (bt_mesh_model_msg_init OP_HEALTH_FAULT_STATUS ++
    u8 (faults_of s cid).1 :: sys_put_le16 cid ++ (faults_of s cid).2) (Z.of_nat BT_MESH_TX_SDU_MAX - (4 + Z.of_nat (length (faults_of s cid).2)))]).
Proof.
  intros Hd. destruct (faults_of_fits s cid) as (Ht & _ & Hl).
  assert (health_get_registered cid s = Some (fault_msg OP_HEALTH_FAULT_STATUS (faults_of s cid).1 cid (faults_of s cid).2, s, [])) as Hrun.
  { unfold health_get_registered. rewrite (stm_bind_pure _ _ s tt s) by (unfold with_srv, stm_bind, stm_get; by rewrite Hd).
    rewrite (stm_bind_pure _ _ s s s) by done. unfold faults_of in *. change (Z.of_nat BT_MESH_TX_SDU_MAX - 4 - 4) with 100 in *.
    change (Z.of_nat BT_MESH_TX_SDU_MAX - 8) with 100 in *. destruct fault_get_reg as [get|]; [|done].
    destruct (get _ _ _) as [err|[t fs]]; [done|]. cbn [fst snd] in *.
    rewrite decide_False by (rewrite sdu_max; lia). unfold fault_msg. by rewrite (u8_id (u8 t)). }
  unfold send_registered. rewrite (stm_bind_pure _ _ _ _ _ Hrun). unfold h_send. rewrite fault_msg_len by done.
  rewrite decide_False by (rewrite sdu_max; lia). unfold fault_msg, stm_emit. do 4 f_equal. lia.
Qed.

Lemma quiet_run {T} (m : stm (health App) health_event T) Q s : h_good m Q s -> stm_emits not_hsend m ->
  exists a s' e, m s = Some (a, s', e) /\ health_wf s' /\ Forall not_hsend e.
Proof.
  intros Hm Hq. destruct (wp_inv _ _ _ Hm) as (a & s' & e & Hrun & Hw & _). exists a, s', e. split_and!; [done..|]. by eapply Hq.
Qed.
Lemma clear_faults_quiet cid : stm_emits not_hsend (clear_faults cid).
Proof. unfold clear_faults, with_srv, mod_app. emits_steps. Qed.
Lemma test_faults_quiet t cid : stm_emits not_hsend (test_faults t cid).
Proof. unfold test_faults, with_srv, mod_app. emits_steps. Qed.
Lemma attention_quiet m t : stm_emits not_hsend (bt_mesh_attention m t).
Proof. unfold bt_mesh_attention, with_srv, submit_attn, cancel_attn. emits_steps. Qed.

Lemma attention_status_run ctx s : hl_data s = true ->
  send_attention_status ctx s = Some (tt, s, [HSend ctx (bt_mesh_model_msg_init OP_ATTENTION_STATUS ++ [u8 (attention_of s)]) 4]).
Proof.
  intros Hd. unfold send_attention_status. rewrite (stm_bind_pure _ _ s tt s) by (unfold with_srv, stm_bind, stm_get; by rewrite Hd).
  rewrite (stm_bind_pure _ _ s s s) by done. unfold attention_of. by rewrite (u8_id (u8 _)) by apply u8_byte.
Qed.
Lemma period_status_run ctx s : health_wf s ->
  send_health_period_status ctx s = Some (tt, s, [HSend ctx (bt_mesh_model_msg_init OP_HEALTH_PERIOD_STATUS ++ [u8 (divisor_of s)]) 4]).
Proof.
  intros Hw. destruct (hw_pub _ Hw) as (d & size & msg & Hp & _). unfold send_health_period_status.
  rewrite (stm_bind_pure _ _ s s s) by done. unfold divisor_of. rewrite Hp, (stm_bind_pure _ _ s (d, size, msg) s) by done.
  cbn [from_option fst]. by rewrite (u8_id (u8 d)) by apply u8_byte.
Qed.
Lemma run_health op len func ctx data s : List.find (fun o => o.1.1 =? op) bt_mesh_health_srv_op = Some (op, len, func) ->
  (len <= length data)%nat -> health_srv_recv op ctx data s = func ctx data s.
Proof. intros Hf Hl. unfold health_srv_recv. rewrite Hf. by rewrite decide_False by lia. Qed.

(** The message carries out the operation and is answered with its result. *)
Definition health_served (q : health_request) (rx : msg_ctx) s : Prop :=
  exists a s' e room, health_effect q s = Some (a, s', e) /\ health_wf s' /\ Forall not_hsend e /\
    match a with Some x => answers_kind q x | None => True end /\
    health_srv_recv (hreq_op q) rx (hreq_data q) s = Some (tt, s', e ++ match a with None => [] | Some x =>
      [HSend rx (bt_mesh_model_msg_init (hans_op q) ++ hans_data q x) room] end).

Lemma fault_served q cid rx s s' e : health_wf s' -> Forall not_hsend e ->
  req_cid q = cid -> hans_op q = OP_HEALTH_FAULT_STATUS ->
  (forall t fs, is_byte t -> is_bytes fs -> answers_kind q (AFault t fs)) ->
  health_effect q s = Some (Some (AFault (faults_of s' cid).1 (faults_of s' cid).2), s', e) ->
  (exists m : stm (health App) health_event unit, m s = Some (tt, s', e) /\
    health_srv_recv (hreq_op q) rx (hreq_data q) s = (m ;; send_registered rx cid) s) ->
  health_served q rx s.
Proof.
  intros Hw He Hcid Hop Hkind Heff (m' & Hm & Hrecv). destruct (faults_of_fits s' cid) as (Ht & Hf & _).
  eexists _, s', e, _. split; [exact Heff|]. split; [done|]. split; [done|]. split; [by apply Hkind|].
  rewrite Hrecv. unfold stm_bind. rewrite Hm, (send_registered_run _ _ _ (hw_data _ Hw)). cbn [hans_data]. by rewrite Hop, Hcid.
Qed.

Lemma served_test cid t rx s : health_wf s -> health_request_ok (HFaultTest cid t) -> health_served (HFaultTest cid t) rx s.
Proof.
  intros Hw [Hc Ht]. destruct (quiet_run _ _ _ (test_faults_ok t cid s Hw) (test_faults_quiet t cid)) as (err & s1 & e & Hrun & Hw1 & He).
  destruct (faults_of_fits s1 cid) as (Hft & Hff & _).
  assert (health_srv_recv OP_HEALTH_FAULT_TEST rx (hreq_data (HFaultTest cid t)) s =
    (err <- test_faults t cid ;; if negb (err =? 0) then mret tt else send_registered rx cid) s) as Hrecv.
  { erewrite run_health by done. unfold health_fault_test, hreq_data. rewrite (u8_id t) by done.
    rewrite (reads_bind _ _ _ _ (reads_u8 _ _)). cbv beta iota. by rewrite (reads_bind _ _ _ _ (reads_le16_end _ Hc)). }
  unfold health_served. change (hreq_op _) with OP_HEALTH_FAULT_TEST. rewrite Hrecv. unfold health_effect, stm_bind. rewrite Hrun.
  destruct (negb (err =? 0)).
  - exists None, s1, e, 0. split_and!; [cbn; by rewrite app_nil_r|done..].
  - rewrite (send_registered_run _ _ _ (hw_data _ Hw1)). eexists _, s1, e, _.
    split; [cbn; by rewrite app_nil_r|]. split_and!; [done..|]. reflexivity.
Qed.
Lemma served_period rx d s : health_wf s -> is_byte d -> health_served (HPeriodSet d) rx s.
Proof.
  intros Hw Hd. pose proof (period_set_ok rx [d] s Hw ltac:(apply List.Forall_cons; [done|apply List.Forall_nil]) ltac:(cbn; lia)) as Hok.
  unfold health_period_set_unrel in Hok.
  assert (stm_emits not_hsend (if 15 <? d then mret tt else
    set_period_div d ;; stm_modify (fun s => s <| hl_fast_period_div := d |>) : stm (health App) health_event unit)) as Hq.
  { unfold set_period_div. emits_steps. }
  assert (h_good (if 15 <? d then mret tt else
    set_period_div d ;; stm_modify (fun s => s <| hl_fast_period_div := d |>)) (fun _ _ => True) s) as Hg.
  { unfold h_good, stm_wp in Hok |- *. by rewrite (stm_bind_pure _ _ s (d, []) s) in Hok by done. }
  destruct (quiet_run _ _ _ Hg Hq) as ([] & s1 & e & Hrun & Hw1 & He). exists (Some (APeriod (divisor_of s1))), s1, e, 4.
  split_and!; [|done|done| |].
  - unfold health_effect, stm_bind at 1. rewrite Hrun. cbn. by rewrite app_nil_r.
  - unfold divisor_of. cbn. destruct (hw_pub _ Hw1) as (x & size & msg & -> & _). apply u8_byte.
  - erewrite run_health by done. unfold health_period_set, health_period_set_unrel, hreq_data. rewrite (u8_id d) by done.
    rewrite stm_bind_assoc, (reads_bind _ _ _ _ (reads_u8 _ _)). cbn [fst]. unfold stm_bind at 1. rewrite Hrun.
    by rewrite period_status_run.
Qed.
Lemma served_attention rx t s : health_wf s -> is_byte t -> health_served (HAttnSet t) rx s.
Proof.
  intros Hw Ht. destruct (quiet_run _ _ _ (attention_ok true t s Hw) (attention_quiet true t)) as ([] & s1 & e & Hrun & Hw1 & He).
  exists (Some (AAttention (attention_of s1))), s1, e, 4. split_and!; [|done|done|apply u8_byte|].
  - unfold health_effect, stm_bind at 1. rewrite Hrun. cbn. by rewrite app_nil_r.
  - erewrite run_health by done. unfold attention_set, attention_set_unrel, hreq_data. rewrite (u8_id t) by done.
    rewrite stm_bind_assoc, (reads_bind _ _ _ _ (reads_u8 _ _)). cbn [fst]. unfold stm_bind at 1. rewrite Hrun.
    by rewrite attention_status_run by apply Hw1.
Qed.

Lemma health_served_all q rx s : health_wf s -> health_request_ok q -> health_served q rx s.
Proof.
  intros Hw Hq. destruct q as [cid|cid|cid t| |d| |t].
  - apply (fault_served (HFaultGet cid) cid rx s s []); try done. exists (mret tt). split; [done|].
    erewrite run_health by done. unfold health_fault_get, hreq_data. by rewrite (reads_bind _ _ _ _ (reads_le16_end _ Hq)), (stm_bind_pure _ _ s tt s).
  - destruct (quiet_run _ _ _ (clear_faults_ok cid s Hw) (clear_faults_quiet cid)) as ([] & s1 & e & Hrun & Hw1 & He).
    apply (fault_served (HFaultClear cid) cid rx s s1 e); try done.
    + unfold health_effect, stm_bind at 1. rewrite Hrun. cbn. by rewrite app_nil_r.
    + exists (clear_faults cid). split; [done|]. erewrite run_health by done. unfold health_fault_clear, hreq_data.
      by rewrite (reads_bind _ _ _ _ (reads_le16_end _ Hq)).
  - by apply served_test.
  - exists (Some (APeriod (divisor_of s))), s, [], 4. split_and!; [done|done|constructor| |].
    + unfold divisor_of. cbn. destruct (hw_pub _ Hw) as (x & size & msg & -> & _). apply u8_byte.
    + erewrite run_health by done. by apply period_status_run.
  - by apply served_period.
  - exists (Some (AAttention (attention_of s))), s, [], 4. split_and!; [done|done|constructor|apply u8_byte|].
    erewrite run_health by done. by apply attention_status_run, Hw.
  - by apply served_attention.
Qed.

Lemma health_answer_quiet e es : Forall not_hsend e -> health_answer_of (e ++ es) = health_answer_of es.
Proof. induction 1 as [|ev e Hev _ IH]; [done|]. by destruct ev. Qed.

(** *** The client *)

Definition hidle (c : health_cli) : Prop :=
  hc_used c = true /\ hc_pending c = 0 /\ hc_sync c = 0%nat /\ hc_param c = None.
Definition haccepted : Prop := forall ctx msg, hc_send_err ctx msg = 0.
Definition hreq_param (n : nat) (q : health_request) : health_param :=
  match q with
  | HFaultGet cid | HFaultClear cid => PFault cid None true n
  | HFaultTest cid t => PFault cid (Some t) false n
  | HPeriodGet | HPeriodSet _ => PPeriod
  | _ => PAttention
  end.
Definition hwaiting (n : nat) (q : health_request) (c : health_cli) : health_cli :=
  (c <| hc_param := Some (hreq_param n q) |>) <| hc_pending := hans_op q |>.
Definition hinformed (n : nat) (q : health_request) (a : health_answer) (c : health_cli) : health_cli :=
  c <| hc_out := health_told n q a (hc_out c) |>.

Lemma health_call_sends net_idx addr app_idx n q c : hidle c -> haccepted -> exists room,
  health_call net_idx addr app_idx n q c = Some (None, hwaiting n q c,
    [HcSend (hc_ctx net_idx addr app_idx) (bt_mesh_model_msg_init (hreq_op q) ++ hreq_data q) room]).
Proof.
  intros (Hu & Hp & _) Ha.
  assert (forall cap msg param op, (length msg <= cap)%nat -> hc_request net_idx addr app_idx cap msg true param op c =
    Some (None, (c <| hc_param := Some param |>) <| hc_pending := op |>,
      [HcSend (hc_ctx net_idx addr app_idx) msg (Z.of_nat cap - Z.of_nat (length msg))])) as Hreq.
  { intros cap msg param op Hl. unfold hc_request, hc_check. rewrite stm_bind_assoc, (stm_bind_pure _ _ c c c) by done.
    rewrite (stm_bind_pure _ _ c 0 c) by (by rewrite Hu, Hp). cbn [negb Z.eqb]. rewrite decide_False by lia.
    rewrite stm_bind_emit, Ha. done. }
  destruct q; eexists; apply Hreq; cbn; lia.
Qed.

Lemma hc_expecting_waiting op n q c (body : health_param -> C unit) : hc_used c = true -> hans_op q = op ->
  hc_expecting op body (hwaiting n q c) = body (hreq_param n q) (hwaiting n q c).
Proof.
  intros Hu <-. unfold hc_expecting. rewrite (stm_bind_pure _ _ _ (hwaiting n q c) (hwaiting n q c)) by done.
  replace (hc_used (hwaiting n q c)) with true by done. change (hc_pending (hwaiting n q c)) with (hans_op q).
  rewrite Z.eqb_refl. cbn [negb]. by rewrite (stm_bind_pure _ _ _ (hreq_param n q) (hwaiting n q c)).
Qed.
Lemma run_health_cli op len func rx data c : List.find (fun o => o.1.1 =? op) bt_mesh_health_cli_op = Some (op, len, func) ->
  (len <= length data)%nat -> health_cli_recv op rx data c = func rx data c.
Proof. intros Hf Hl. unfold health_cli_recv. rewrite Hf. by rewrite decide_False by lia. Qed.
Lemma hc_done_waiting n q c : hidle c -> hc_done (hwaiting n q c) = Some (hc_timeout_err, c, []).
Proof. intros (_ & Hp & Hs & Hpa). destruct c. cbn in *. by subst. Qed.
Lemma take_min {X} n (l : list X) : take (if decide (n < length l)%nat then n else length l) l = take n l.
Proof. destruct (decide _); [done|]. rewrite !take_ge; [done|lia|lia]. Qed.

Lemma health_client_receives n q a rx c : hidle c -> health_request_ok q -> answers_kind q a ->
  (health_cli_recv (hans_op q) rx (hans_data q a) ;; hc_done) (hwaiting n q c) =
  Some (if health_accepts q (Some a) then (0, hinformed n q a c, []) else (hc_timeout_err, c, [])).
Proof.
  intros Hc Hq Hk. pose proof Hc as (Hu & Hp & Hs & Hpa).
  assert (forall cid t fs, 0 <= cid < 65536 -> is_byte t -> a = AFault t fs -> req_cid q = cid -> hans_op q = OP_HEALTH_FAULT_STATUS ->
    hreq_param n q = PFault cid (match q with HFaultTest _ t => Some t | _ => None end)
      (match q with HFaultTest _ _ => false | _ => true end) n ->
    (health_cli_recv (hans_op q) rx (hans_data q a) ;; hc_done) (hwaiting n q c) =
    Some (if health_accepts q (Some a) then (0, hinformed n q a c, []) else (hc_timeout_err, c, []))) as Hfault.
  { intros cid t fs Hcid Ht -> Hrc Hop Hpar. rewrite Hop.
    assert (health_cli_recv OP_HEALTH_FAULT_STATUS rx (hans_data q (AFault t fs)) (hwaiting n q c) =
      Some (tt, if health_accepts q (Some (AFault t fs)) then hinformed n q (AFault t fs) (hwaiting n q c) <| hc_sync := 1%nat |>
                else hwaiting n q c, [])) as Hrecv.
    { erewrite run_health_cli by (done || (cbn; lia)). unfold health_fault_status. rewrite hc_expecting_waiting, Hpar by done.
      unfold hans_data. rewrite Hrc, (u8_id t), (reads_bind _ _ _ _ (reads_u8 _ _)) by done. cbv beta iota.
      destruct (from_option _ _ _) eqn:Hx.
      { destruct q; try discriminate Hx. cbn in Hx. cbn [health_accepts]. rewrite Z.eqb_sym. by destruct (_ =? t). }
      rewrite (reads_bind _ _ _ _ (reads_le16 _ _ Hcid)). cbv beta iota. rewrite Z.eqb_refl. cbn [negb].
      rewrite take_min. destruct c. cbn in Hs. subst. destruct q; try discriminate Hop; cbn in Hx |- *; try done.
      rewrite Z.eqb_sym. by destruct (_ =? t). }
    rewrite (stm_bind_pure _ _ _ _ _ Hrecv). destruct (health_accepts _ _); [|by apply hc_done_waiting].
    destruct c. cbn in *. by subst. }
  assert (forall v, is_byte v -> hans_data q a = [u8 v] -> health_accepts q (Some a) = true ->
    (hans_op q = OP_HEALTH_PERIOD_STATUS /\ hreq_param n q = PPeriod /\ a = APeriod v \/
     hans_op q = OP_ATTENTION_STATUS /\ hreq_param n q = PAttention /\ a = AAttention v) ->
    (health_cli_recv (hans_op q) rx (hans_data q a) ;; hc_done) (hwaiting n q c) =
    Some (if health_accepts q (Some a) then (0, hinformed n q a c, []) else (hc_timeout_err, c, []))) as Hone.
  { intros v Hv Hd Hacc Hcase. rewrite Hd, Hacc, (u8_id v) by done.
    destruct Hcase as [(Hop & Hpar & ->)|(Hop & Hpar & ->)]; rewrite Hop;
      unfold stm_bind; (erewrite run_health_cli by done); [unfold health_period_status|unfold health_attention_status];
      rewrite hc_expecting_waiting, Hpar by done; destruct c; cbn in *; by subst. }
  destruct q as [cid|cid|cid t'| |d| |t']; cbn [answers_kind] in Hk; destruct a as [t fs|v|v]; try done.
  - destruct Hk. by eapply Hfault.
  - destruct Hk. by eapply Hfault.
  - destruct Hk, Hq. by eapply Hfault.
  - apply (Hone v); auto 6.
  - apply (Hone v); auto 6.
  - apply (Hone v); auto 6.
  - apply (Hone v); auto 6.
Qed.

Lemma health_op_valid q : opcode_valid (hreq_op q) /\ opcode_valid (hans_op q).
Proof. unfold opcode_valid. destruct q; cbn [hreq_op hans_op]; split; vm_compute; intuition congruence. Qed.
Lemma health_data_bytes q a : is_bytes (hreq_data q) /\ (answers_kind q a -> is_bytes (hans_data q a)).
Proof.
  assert (forall v l, is_bytes l -> is_bytes (u8 v :: l)) as Hcons by (intros; apply List.Forall_cons; [apply u8_byte|done]).
  split.
  - destruct q; cbn [hreq_data]; first [apply is_bytes_le16|apply List.Forall_nil|apply Hcons; first [apply is_bytes_le16|apply List.Forall_nil]].
  - intros Hk. destruct a as [t fs|v|v]; cbn [hans_data]; apply Hcons; try apply List.Forall_nil.
    apply Forall_app. split; [apply is_bytes_le16|]. destruct q; try done; apply Hk.
Qed.

(** Health requests. The call of a Health Client does to the server what the
    operation does that it names, and gives the state the server is left in; it
    times out only when a fault test fails or is reported under another
    identifier. *)
Theorem health_exchange_ok net_idx addr app_idx n q rx c s : health_wf s -> health_request_ok q -> hidle c -> haccepted ->
  exists a s' e, health_effect q s = Some (a, s', e) /\ health_wf s' /\
    health_exchange net_idx addr app_idx n q rx c s =
      Some (match a with
            | Some x => if health_accepts q a then (0, hinformed n q x c, s') else (hc_timeout_err, c, s')
            | None => (hc_timeout_err, c, s')
            end).
Proof.
  intros Hw Hq Hc Ha. destruct (health_served_all q rx.1 s Hw Hq) as (a & s' & e & room & Heff & Hw' & He & Hk & Hrecv).
  exists a, s', e. split; [done|]. split; [done|].
  destruct (health_call_sends net_idx addr app_idx n q c Hc Ha) as [room' Hcall].
  unfold health_exchange. rewrite Hcall, opcode_read by (apply health_op_valid || by apply (health_data_bytes q (APeriod 0))).
  rewrite Hrecv. cbn [mbind option_bind]. rewrite health_answer_quiet by done. destruct a as [x|]; cbn [health_answer_of].
  - rewrite opcode_read by (apply health_op_valid || by apply health_data_bytes).
    rewrite health_client_receives by done. by destruct (health_accepts q (Some x)).
  - by rewrite hc_done_waiting.
Qed.
End pair.

(** *** An application with a list of faults *)

Definition sample_health_env : HealthEnv bytes :=
  {| fault_get_cur := Some (fun faults room => inr (1, 0x01a8, take (Z.to_nat room) faults));
     fault_get_reg := Some (fun faults _ room => inr (1, take (Z.to_nat room) (map u8 faults)));
     fault_clear := Some (fun _ _ => []); fault_test := Some (fun faults _ _ => (0, 7 :: faults));
     cb_attn_on := true; cb_attn_off := true; h_cid := 0x01a8; h_publish := 0 |}.
Lemma sample_health_laws : @HealthLaws bytes sample_health_env.
Proof.
  split.
  - intros get a room t c faults [= <-] [= _ _ <-] Hr. rewrite length_take. lia.
  - intros get a c room t faults [= <-] [= _ <-] Hr. rewrite length_take. lia.
  - intros get a c room t faults [= <-] [= _ <-]. apply Forall_take, List.Forall_map, List.Forall_forall. intros x _. apply u8_byte.
Qed.
Definition sample_health : health bytes := mk_health [3; 4] true true (Some (0, 14%nat, [])) true true 0 idle_work 1000.
Definition sample_health_cli : health_cli := mk_health_cli true true false 0 0 None no_health_out 2000.

(** A test adds a fault, which the client is told of; with room for two faults it
    gets the first two. *)
Example health_test_told :
  (fun x => (x.1.1, ho_faults (hc_out x.1.2), hl_app x.2)) <$>
    health_exchange (env := sample_health_env)
      (henv := {| hc_send_err _ _ := 0; hc_timeout_err := - EAGAIN |}) 0 2 1 2 (HFaultTest 0x01a8 1)
      (mk_ctx 0 1 1 5 7 false, mk_ctx 0 1 2 5 7 false) sample_health_cli sample_health =
  Some (0, Some [7; 3], [7; 3; 4]).
Proof. by vm_compute. Qed.
